(* ===== verification/_CoqProject ===== *)
-Q . S2P
Prelude.v
GoStrings.v
SemVer.v
VersionFilter.v
AutoApprove.v
Regexp.v
Filepath.v
Os.v
LocalStorage.v
StorageSpec.v
Archive.v
ArchiveSafety.v
Validation.v
Web.v
Rbac.v
AuthMiddleware.v
NamespaceAuthz.v
TfReleases.v
Checksums.v
TfMirrorRepo.v
TfMirrorSync.v
TfMirrorSafety.v
SyncSchedule.v
Tables.v
ReleasesKeys.v
VersionApproval.v
ProvRepo.v
Upstream.v
UpstreamHttp.v
ProvSync.v
ProvSchema.v
ProvSafety.v
ProvOutcome.v
ProvLocal.v
ScmRepo.v
ScmPublisher.v
ScmTags.v
ScmPackage.v
ScmSafety.v
ScmOutcome.v
ScmWebhooks.v
ScmDelivery.v
SetupRepo.v
Setup.v
SetupSafety.v
Installer.v
InstallerSafety.v
Backend.v
Hoare.v
ModuleRepo.v
ModuleRegistry.v
ModuleRegistrySafety.v
PullThrough.v
ProvRegistry.v
ProvRegistrySafety.v
PullSafety.v
ProvRegistryDemo.v
IpAddr.v
Egress.v
EgressSafety.v
Float64.v
Limits.v
LimitsSafety.v
Identity.v
IdentityStore.v
ApiKeys.v
ApiKeysSafety.v
Orgs.v
OrgsSafety.v
Glob.v
Approvals.v
ApprovalsSafety.v
Binaries.v
BinariesSafety.v
Csrf.v
StateStore.v
SignIn.v
Login.v
LoginSafety.v
LoginDemo.v
