(* ===== verification/Prelude.v ===== *)
(** * Verification of the Terraform registry backend: root file

    The repository is the Go backend (src/backend) of a private Terraform registry.
    This library models its core as executable definitions and proves what makes
    each part correct.  Paths below are relative to src/backend/internal.

    ** The program and its parts

    The server answers the registry protocols and an administration API, mirrors
    providers and Terraform/OpenTofu binaries from upstream registries, publishes
    modules from source-control tags, and guards all of this with authentication,
    scopes and namespace ownership.  State lives in a SQL database, in a storage
    backend (here: local disk) and in a few in-memory tables.

    Foundations, the parts of Go's standard library the program calls:
    - [Prelude]: errors, results, 64-bit integers, and programs with state.  A Go
      function body is a [prog (env S)]: it reads and writes a state, a statement
      or system call may fail ([faults], one boolean per call to come), the clock
      never goes back.  [preserves] and [ensures] are the proof methods for long
      handlers, the [registry] hints and the [preserve] tactic their automation.
    - [GoStrings] (strings, strconv), [Filepath] (path/filepath), [Os] (os and io
      on a directory tree), [Regexp] (anchored patterns), [Tables] (SQL statements
      over a component's tables beside the outside world).

    Access:
    - [Rbac]: scopes and role middlewares (auth/scopes.go, middleware/rbac.go).
    - [AuthMiddleware]: who a request is (middleware/auth.go, revocation).
    - [NamespaceAuthz]: who owns a namespace and who may change what in it
      (middleware/namespace_authz.go, db/repositories/namespace_claim_repository.go,
      the rename cascade).
    - [Web], [Validation]: request plumbing and input validators
      (validation/semver.go, platform.go, filename checks).
    - [Identity], [IdentityStore]: the administrative side of the identity module, as
      an interface with laws, and a store that satisfies them.
    - [ApiKeys], [ApiKeysSafety], [Orgs], [OrgsSafety]: the administration of keys,
      organizations, members and roles (api/admin/apikeys.go, organizations.go,
      role_ceiling.go, rbac.go).
    - [SignIn], [StateStore], [Login], [LoginSafety], [LoginDemo]: the identity
      providers (auth/ldap, saml, azuread, oidc), the store of pending sign-ins
      (auth/statestore*.go), the sign-in handlers and the group mappings
      (api/admin/auth.go, group_mapping_guard.go, email_hardening.go, dev.go), and
      what they promise.
    - [Csrf]: the cross-site request check (middleware/csrf.go).
    - [Float64], [Limits], [LimitsSafety]: rate limiters (middleware/ratelimit.go,
      ratelimit_redis.go) over rounded floating-point arithmetic.
    - [IpAddr], [Egress], [EgressSafety]: the outgoing address guard (httpsafe/).
    - [Glob], [Approvals], [ApprovalsSafety]: approval requests, their single-use
      tokens and the mirror policies (db/repositories/rbac_repository.go,
      api/admin/rbac.go, api/webhooks/approval_handler.go, db/models), over the
      patterns of path/filepath.

    Set-up:
    - [SetupRepo], [Setup], [SetupSafety]: the setup wizard, its token and the loading
      of saved settings (api/setup/, middleware/setup.go, api/router_startup.go).
    - [Installer], [InstallerSafety]: the scanner installer (scanner/installer/).

    The registry's own protocols:
    - [ModuleRepo], [ModuleRegistry], [ModuleRegistrySafety]: the module catalogue,
      uploads, downloads and administration (api/modules/, api/admin/modules.go,
      policy/engine.go).
    - [PullThrough], [ProvRegistry], [ProvRegistrySafety], [PullSafety],
      [ProvRegistryDemo]: providers, the network mirror and its pull-through cache
      (api/providers/, api/mirror/, services/pull_through.go).
    - [Binaries], [BinariesSafety]: the binary mirror's endpoints, administration and
      gate (api/terraform_binaries/, api/admin/terraform_mirror.go,
      middleware/binary_mirror_auth.go).
    - [Backend], [Hoare]: an interface of the storage backend for these handlers, and
      the triples their invariants are proved with.

    Mirrors:
    - [SemVer], [VersionFilter], [AutoApprove]: version order, version filters and
      approval rules (mirror/).
    - [TfReleases], [TfMirrorRepo], [TfMirrorSync], [TfMirrorSafety]: the binary
      mirror's upstream clients, tables, run and guarantees
      (mirror/github_releases.go, jobs/terraform_mirror_sync.go,
      db/repositories/terraform_mirror_repository.go).
    - [Checksums], [ReleasesKeys]: checksum files, and the signing keys under their
      pins (pkg/checksum, mirror/key_fetcher.go, jobs/releases_key_refresh_job.go).
    - [Upstream], [UpstreamHttp]: the interface of an upstream provider registry,
      and its HTTP client (mirror/upstream.go).
    - [ProvRepo], [ProvSync], [ProvSchema], [ProvSafety], [ProvOutcome],
      [ProvLocal]: the provider mirror's tables, run, schema invariant and
      guarantees (jobs/mirror_sync.go), the last composed with the local backend.
    - [SyncSchedule]: which runs may overlap (the activeSyncs set of both jobs), as
      a step relation over all interleavings.
    - [VersionApproval]: decisions over gated versions (api/admin/version_approvals.go).

    Storage and archives:
    - [LocalStorage], [StorageSpec]: the local backend (storage/local) and the
      key-value map it implements.
    - [Archive], [ArchiveSafety]: validation, extraction and README of module
      archives (validation/archive.go, archiver/tarball.go).

    Source control:
    - [ScmRepo]: tables and statements (db/repositories/scm_repository.go and the
      publisher's part of module_repository.go).
    - [ScmPublisher], [ScmTags], [ScmPackage], [ScmSafety], [ScmOutcome]: publishing
      a tag (services/scm_publisher.go).
    - [ScmWebhooks], [ScmDelivery]: deliveries and their retries
      (api/webhooks/scm_webhook.go, jobs/webhook_retry_job.go, the connectors'
      signature checks and payload parsers).

    They meet where the code calls: the mirrors and the publisher write through the
    [Storage] class, which [LocalStorage] implements ([ProvLocal] puts the two
    together); the provider run calls [UpstreamRegistryClient], which [UpstreamHttp]
    implements; the runs are started by [SyncSchedule]; what they leave pending is
    decided by [VersionApproval]; archives are read by [Archive] both for uploads
    and for the publisher; every path decision rests on [Filepath] and [Os].  Sessions
    that [Login] opens are what [AuthMiddleware] admits, memberships that [Orgs] and the
    group mappings change are what [Rbac] reads, and the requests of [SignIn] to a
    metadata URL go through the guard of [Egress].

    ** What is proved

    Properties carry their number in their doc comment.  By kind:
    - safety: a mirrored or published object is what its row says it is, unverified
      bytes are not marked verified, no path leaves the storage directory or the
      extraction directory, only authentic deliveries and authorized requests
      pass, gated versions stay hidden until they are approved, nobody gives away a
      role or scope they do not have, a session is the answer to its own login;
    - invariants: schemas of the tables under every operation and failing
      statement, single runs per mirror and single use of tokens under every
      interleaving, idempotent catalogues, states and assertions that are spent;
    - refinement: the local backend implements a map from keys to contents;
    - functional, equivalence and round trips: comparators, filters, patterns, tags,
      checksum files, policies and metadata against independent descriptions;
    - bounds, termination and liveness: sizes read, entries extracted, retries,
      admissions of the rate limiters, the loops that end, requests that always go on;
    - error behaviour: what a failed step leaves behind and reports.
    Where the code does not do what it means to, the theorem states what it does
    and the manifest lists the finding.

    ** Conventions

    Third-party code and the outside are classes ([Http], [Storage], [TarGz],
    [Sha256], ...) whose laws, where needed, are separate classes ([StorageLaws],
    [ScmLaws], ...) with concrete instances in the Demo modules that the witnesses
    evaluate.  Identifiers are natural numbers drawn from a counter ([uuid.New] never
    repeats).  Machine integers are Z with explicit wrap-around ([wrap64]).  Lower-casing
    and white space are those of the ASCII letters of Go's functions ([GoStrings]).
    Recursion is structural except: the HTTP client's paging loops take fuel, as
    the code's have no bound, and their termination theorem gives fuel that is
    enough; the matcher of [Regexp] takes the length of its input, which each step
    over a character uses up, and that of [Glob] the length of the pattern.  The token
    buckets compute in double precision, each operation rounded as [Float64] says.
    Goroutines of one component interleave where [SyncSchedule], [ScmOutcome] and
    [ApprovalsSafety] say so; elsewhere a run is one sequence.

    ** Not modelled, and why

    Handlers that only decode JSON, call one repository method and encode the result
    (users, SCM providers, notification channels, statistics, SCIM, the OCI facade);
    route tables and start-up, which have no logic but their order; configuration
    loading by viper; SDK calls of the cloud storage backends, and the storage migration
    between them; the sigstore, OPA, SAML, LDAP and OIDC libraries, which are not in the
    repository; the REST calls of the SCM connectors; the OSV feed; execution of scanner
    binaries and terraform-docs; metrics, logging, audit sinks and mail; the operator
    and test tools under cmd/ but for the server.  The manifest lists every part with
    its reason. *)

From stdpp Require Export base gmap strings list fin_maps option.
From Stdlib Require Export ZArith Lia.
From Stdlib Require Import Sorting.Permutation Sorting.Sorted.

#[export] Set Default Goal Selector "!".
#[export] Set Warnings "-clear-no-such-hyp".

(** ** Go values shared by every component *)

(** Errors.  [ErrSentinel] is a package-level [errors.New] value compared by
    identity, [ErrDB] the failure of one
    database statement or system call, [ErrExt] a failure
    reported by code outside the repository, [ErrMsg] a fresh [fmt.Errorf]
    value, and [ErrWrap] an error wrapped with [%w]. *)
Inductive gerror :=
| ErrSentinel (name : string)
| ErrDB (op : string)
| ErrExt (what : string)
| ErrMsg (msg : string)
| ErrWrap (ctx : string) (e : gerror).

#[export] Instance gerror_eq_dec : EqDecision gerror.
Proof. solve_decision. Defined.

(** [errors.Is]: unwrap until the target sentinel is met. *)
Fixpoint errors_is (e target : gerror) : bool :=
  bool_decide (e = target) ||
  match e with
  | ErrWrap _ e' => errors_is e' target
  | _ => false
  end.

(** The [(value, error)] result of a Go call. *)
Inductive res (A : Type) :=
| Ok (a : A)
| Err (e : gerror).
Arguments Ok {A} a.
Arguments Err {A} e.

Definition is_ok {A} (r : res A) : bool :=
  match r with Ok _ => true | Err _ => false end.

(** Signed 64-bit wrap-around, the arithmetic of Go's [int], [int64] and
    [time.Duration] on the supported platforms. *)
Definition wrap64 (z : Z) : Z := (z + 2^63) mod 2^64 - 2^63.

Definition int64_ok (z : Z) : Prop := (- 2^63 <= z < 2^63)%Z.

Lemma wrap64_id z : int64_ok z -> wrap64 z = z.
Proof. unfold int64_ok, wrap64. intros H. rewrite Z.mod_small; lia. Qed.

Lemma wrap64_bounds z : int64_ok (wrap64 z).
Proof.
  unfold int64_ok, wrap64.
  pose proof (Z.mod_pos_bound (z + 2^63) (2^64) ltac:(lia)). lia.
Qed.

(** ** State-passing programs

    [prog W A] is a Go function body that reads and writes a world [W].  The
    world of every component is an [env S]: the component's own state [S], the
    outcome of the database statements still to come, and the clock. *)
Definition prog (W A : Type) : Type := W -> A * W.

Definition ret {W A} (a : A) : prog W A := fun w => (a, w).
Definition bind {W A B} (c : prog W A) (k : A -> prog W B) : prog W B :=
  fun w => let r := c w in k (fst r) (snd r).

Declare Scope prog_scope.
Delimit Scope prog_scope with prog.

Notation "'let!' x ':=' c 'in' k" := (bind c (fun x => k))
  (at level 10, x name, c at level 100, k at level 200) : prog_scope.
Notation "'let!' ' p ':=' c 'in' k" := (bind c (fun x => match x with p => k end))
  (at level 10, p pattern, c at level 100, k at level 200) : prog_scope.
Notation "'run!' c 'in' k" := (bind c (fun _ => k))
  (at level 10, c at level 100, k at level 200) : prog_scope.

(** [let? x := c in k] is [x, err := c; if err != nil { return err }]. *)
Notation "'let?' x ':=' c 'in' k" :=
  (bind c (fun r => match r with Ok x => k | Err e => ret (Err e) end))
  (at level 10, x name, c at level 100, k at level 200) : prog_scope.

#[global] Open Scope prog_scope.

Record env (S : Type) := Env {
  st : S;
  (** outcome of the next database statements: [true] = it fails *)
  faults : list bool;
  clock : Z;
  (** how far the clock moves at each of the next readings *)
  ticks : list Z;
}.
Arguments Env {S} _ _ _ _.
Arguments st {S} _.
Arguments faults {S} _.
Arguments clock {S} _.
Arguments ticks {S} _.

Definition quiet {S} (s : S) : env S := Env s [] 0 [].

Section Ops.
Context {S : Type}.

Definition gets {A} (f : S -> A) : prog (env S) A := fun w => (f (st w), w).

Definition modify (f : S -> S) : prog (env S) unit :=
  fun w => (tt, Env (f (st w)) (faults w) (clock w) (ticks w)).

(** Run a state transformer that also returns a value. *)
Definition state {A} (f : S -> A * S) : prog (env S) A :=
  fun w => let r := f (st w) in
           (fst r, Env (snd r) (faults w) (clock w) (ticks w)).

(** One database statement: either it fails and leaves the state alone, or
    it runs to completion. *)
Definition db {A} (op : string) (f : S -> res A * S) : prog (env S) (res A) :=
  fun w =>
    match faults w with
    | true :: fs => (Err (ErrDB op), Env (st w) fs (clock w) (ticks w))
    | _ =>
        let r := f (st w) in
        (fst r, Env (snd r) (tail (faults w)) (clock w) (ticks w))
    end.

(** [time.Now()]: the clock never goes back. *)
Definition time_now : prog (env S) Z :=
  fun w =>
    let t := (clock w + Z.max 0 (hd 0%Z (ticks w)))%Z in
    (t, Env (st w) (faults w) t (tail (ticks w))).
End Ops.

(** A call that succeeded. *)
Lemma db_ok {S A} op (f : S -> res A * S) (w : env S) (a : A) :
  fst (db op f w) = Ok a -> fst (f (st w)) = Ok a /\ st (snd (db op f w)) = snd (f (st w)).
Proof. unfold db. destruct (faults w) as [|[] fs]; cbn; done. Qed.

Lemma bind_ok {W A B} (c : prog W (res A)) (k : A -> prog W (res B)) (w : W) (b : B) :
  fst ((let? x := c in k x) w) = Ok b ->
  exists a, fst (c w) = Ok a /\ fst (k a (snd (c w))) = Ok b /\
            snd ((let? x := c in k x) w) = snd (k a (snd (c w))).
Proof. unfold bind. destruct (c w) as [[a|e] w1]; cbn; [|done]. intros Hk. by exists a. Qed.

(** Sequencing over a slice: [for _, x := range xs { body(x) }]. *)
Fixpoint for_each {W A} (xs : list A) (body : A -> prog W unit) : prog W unit :=
  match xs with
  | [] => ret tt
  | x :: xs' => run! body x in for_each xs' body
  end.

(** The same loop accumulating a result. *)
Fixpoint fold_prog {W A B} (f : B -> A -> prog W B) (b : B) (xs : list A) : prog W B :=
  match xs with
  | [] => ret b
  | x :: xs' => let! b' := f b x in fold_prog f b' xs'
  end.

(** ** Preservation: the proof method for long handlers

    [preserves R c] says that running [c] moves the world along [R].  With [R]
    a preorder it composes, and the hints below reduce a whole handler to its
    database statements. *)
Definition preserves {W A} (R : W -> W -> Prop) (c : prog W A) : Prop :=
  forall w, R w (snd (c w)).

Section Preserves.
Context {W : Type} (R : W -> W -> Prop) `{!PreOrder R}.

Lemma preserves_ret {A} (a : A) : preserves R (ret a).
Proof. intros w. cbn. reflexivity. Qed.

Lemma preserves_bind {A B} (c : prog W A) (k : A -> prog W B) :
  preserves R c -> (forall a, preserves R (k a)) -> preserves R (bind c k).
Proof.
  intros Hc Hk w. unfold bind. cbn.
  transitivity (snd (c w)); [apply Hc | apply Hk].
Qed.

Lemma preserves_for_each {A} (xs : list A) (body : A -> prog W unit) :
  (forall x, preserves R (body x)) -> preserves R (for_each xs body).
Proof.
  intros Hb. induction xs as [|x xs IH]; cbn.
  - apply preserves_ret.
  - apply preserves_bind; [apply Hb | intros _; exact IH].
Qed.

Lemma preserves_fold {A B} (f : B -> A -> prog W B) xs b :
  (forall b x, preserves R (f b x)) -> preserves R (fold_prog f b xs).
Proof.
  intros Hf. revert b. induction xs as [|x xs IH]; intros b; cbn.
  - apply preserves_ret.
  - apply preserves_bind; [apply Hf | intros b'; apply IH].
Qed.
End Preserves.

(** What a call returns, whatever the world. *)
Definition returns {W A} (Q : A -> Prop) (c : prog W A) : Prop := forall w, Q (fst (c w)).

Lemma returns_ret {W A} (Q : A -> Prop) (a : A) : Q a -> returns Q (ret (W := W) a).
Proof. intros HQ w. exact HQ. Qed.

Lemma returns_bind {W A B} (Q : B -> Prop) (c : prog W A) (k : A -> prog W B) :
  (forall a, returns Q (k a)) -> returns Q (bind c k).
Proof. intros Hk w. apply Hk. Qed.

Lemma preserves_bind_ret {W A B} (R : W -> W -> Prop) `{!PreOrder R} (Q : A -> Prop)
  (c : prog W A) (k : A -> prog W B) :
  preserves R c -> returns Q c -> (forall a, Q a -> preserves R (k a)) -> preserves R (bind c k).
Proof.
  intros Hc Hq Hk w. unfold bind. cbn.
  transitivity (snd (c w)); [apply Hc | apply Hk, Hq].
Qed.

(** [ensures R P c Q]: from a world satisfying [P], [c] moves along [R] and its
    result satisfies [Q] in the world reached. *)
Definition ensures {W A} (R : W -> W -> Prop) (P : W -> Prop) (c : prog W A)
  (Q : A -> W -> Prop) : Prop :=
  forall w, P w -> R w (snd (c w)) /\ Q (fst (c w)) (snd (c w)).

Section Ensures.
Context {W : Type} (R : W -> W -> Prop) `{!PreOrder R}.

Definition stable (P : W -> Prop) : Prop := forall w w', R w w' -> P w -> P w'.

Lemma ensures_bind {A B} P (c : prog W A) Q (k : A -> prog W B) S :
  ensures R P c Q -> (forall a, ensures R (Q a) (k a) S) -> ensures R P (bind c k) S.
Proof.
  intros Hc Hk w HP. destruct (Hc w HP) as [Hr Hq].
  destruct (Hk _ _ Hq) as [Hr' Hs]. split; [by etransitivity | exact Hs].
Qed.

Lemma ensures_preserves {A} P (c : prog W A) :
  preserves R c -> stable P -> ensures R P c (fun _ => P).
Proof. intros Hc Hs w HP. split; [apply Hc | by eapply Hs; [apply Hc|]]. Qed.

Lemma ensures_weaken {A} (P : W -> Prop) (c : prog W A) (Q Q' : A -> W -> Prop) :
  ensures R P c Q -> (forall a w, Q a w -> Q' a w) -> ensures R P c Q'.
Proof. intros Hc HQ w HP. destruct (Hc w HP). split; [done | by apply HQ]. Qed.

Lemma ensures_true {A} P (c : prog W A) :
  preserves R c -> ensures R P c (fun _ _ => True).
Proof. intros Hc w _. split; [apply Hc | done]. Qed.

Lemma preserves_ensures {A} (c : prog W A) Q :
  ensures R (fun _ => True) c Q -> preserves R c.
Proof. intros Hc w. by apply Hc. Qed.

Lemma ensures_for_each {A} P (xs : list A) (body : A -> prog W unit) :
  (forall x, In x xs -> ensures R P (body x) (fun _ => P)) ->
  ensures R P (for_each xs body) (fun _ => P).
Proof.
  induction xs as [|x xs IH]; intros Hb; cbn [for_each].
  - intros w HP. split; [cbn; reflexivity | exact HP].
  - eapply ensures_bind; [apply Hb; by left | intros u; apply IH]. intros y Hy. apply Hb. by right.
Qed.

Lemma ensures_fold {A B} P (f : B -> A -> prog W B) xs b :
  (forall b x, In x xs -> ensures R P (f b x) (fun _ => P)) ->
  ensures R P (fold_prog f b xs) (fun _ => P).
Proof.
  revert b. induction xs as [|x xs IH]; intros b Hf; cbn [fold_prog].
  - intros w HP. split; [cbn; reflexivity | exact HP].
  - eapply ensures_bind; [apply Hf; by left | intros b'; apply IH].
    intros b'' y Hy. apply Hf. by right.
Qed.
End Ensures.

(** A relation on component states, lifted to worlds. *)
Definition on_st {S} (R : S -> S -> Prop) (w w' : env S) : Prop := R (st w) (st w').

#[export] Instance on_st_preorder {S} (R : S -> S -> Prop) `{!PreOrder R} :
  PreOrder (on_st R).
Proof.
  split.
  - intros w. unfold on_st. reflexivity.
  - intros w1 w2 w3 H1 H2. unfold on_st in *. etransitivity; eassumption.
Qed.

Section PreservesOps.
Context {S : Type} (R : S -> S -> Prop) `{!PreOrder R}.

Lemma preserves_gets {A} (f : S -> A) : preserves (on_st R) (gets f).
Proof. intros w. unfold on_st; cbn. reflexivity. Qed.

Lemma preserves_now : preserves (on_st R) (@time_now S).
Proof. intros w. unfold on_st; cbn. reflexivity. Qed.

Lemma preserves_modify f :
  (forall s, R s (f s)) -> preserves (on_st R) (modify f).
Proof. intros Hf w. unfold on_st; cbn. apply Hf. Qed.

Lemma preserves_state {A} (f : S -> A * S) :
  (forall s, R s (snd (f s))) -> preserves (on_st R) (state f).
Proof. intros Hf w. unfold on_st; cbn. apply Hf. Qed.

Lemma preserves_db {A} op (f : S -> res A * S) :
  (forall s, R s (snd (f s))) -> preserves (on_st R) (db op f).
Proof.
  intros Hf w. unfold on_st, db.
  destruct (faults w) as [|[] fs]; cbn; [apply Hf | reflexivity | apply Hf].
Qed.
End PreservesOps.

Create HintDb registry.
#[export] Hint Resolve preserves_ret preserves_gets preserves_now : registry.

(** [preserve] walks a handler down to the calls for which a [preserves] lemma
    is already in the [registry] database. *)
Ltac preserve_step :=
  first
    [ solve [auto with registry typeclass_instances]
    | apply preserves_bind; [typeclasses eauto | | intros ?]
    | apply preserves_for_each; [typeclasses eauto | intros ?]
    | apply preserves_fold; [typeclasses eauto | intros ? ?]
    | match goal with
      | |- preserves _ (match ?x with _ => _ end) => destruct x
      | |- preserves _ (let _ := _ in _) => cbv zeta
      end ].
Ltac preserve := repeat preserve_step.

(** ** Automation *)

(** Unfold a bind chain applied to a world. *)
Ltac prog_simpl := cbn [bind ret fst snd gets modify state] in *.

(** Case analysis on the scrutinee of some [match] in the goal. *)
Ltac case_goal :=
  match goal with
  | |- context [match ?x with _ => _ end] => destruct x eqn:?
  end.
Ltac case_hyp H :=
  match type of H with
  | context [match ?x with _ => _ end] => destruct x eqn:?
  end.

(** Strip boolean connectives from hypotheses. *)
Ltac bools :=
  repeat match goal with
  | H : (_ && _)%bool = true |- _ => apply andb_prop in H as [? ?]
  | H : (_ || _)%bool = false |- _ => apply orb_false_elim in H as [? ?]
  | H : negb _ = true |- _ => apply negb_true_iff in H
  | H : negb _ = false |- _ => apply negb_false_iff in H
  | H : bool_decide _ = true |- _ => apply bool_decide_eq_true in H
  | H : bool_decide _ = false |- _ => apply bool_decide_eq_false in H
  | H : String.eqb _ _ = true |- _ => apply String.eqb_eq in H
  | H : String.eqb _ _ = false |- _ => apply String.eqb_neq in H
  end.

(** ** Lists *)

Section ListFacts.
Context {A : Type}.

Lemma filter_In_stdlib (f : A -> bool) (l : list A) x :
  In x (List.filter f l) <-> In x l /\ f x = true.
Proof. apply filter_In. Qed.

Lemma firstn_In (n : nat) (l : list A) x : In x (take n l) -> In x l.
Proof.
  rewrite <- (take_drop n l) at 2. intros H. apply in_or_app. by left.
Qed.

Lemma filter_idem (f : A -> bool) (l : list A) :
  List.filter f (List.filter f l) = List.filter f l.
Proof.
  induction l as [|x l IH]; cbn; [done|].
  destruct (f x) eqn:E; cbn; [rewrite E; by f_equal | done].
Qed.

Lemma find_app (f : A -> bool) (l l' : list A) :
  List.find f (l ++ l') = match List.find f l with Some x => Some x | None => List.find f l' end.
Proof. induction l as [|x l IH]; cbn; [done|]. by destruct (f x). Qed.

Lemma StronglySorted_app_rel (R : A -> A -> Prop) (l1 l2 : list A) x y :
  StronglySorted R (l1 ++ l2) -> In x l1 -> In y l2 -> R x y.
Proof.
  induction l1 as [|a l1 IH]; cbn; [done|].
  intros Hs Hx Hy. apply StronglySorted_inv in Hs as [Hs Hall].
  destruct Hx as [->|Hx]; [|by apply IH].
  rewrite List.Forall_forall in Hall. apply Hall, in_or_app. by right.
Qed.
End ListFacts.

(** [grows R N l l']: [l'] is [l] with every element changed along [R], followed
    by elements that satisfy [N]: nothing is lost or reordered. *)
Section Grows.
Context {A : Type} (R : A -> A -> Prop) (N : A -> Prop).

Definition grows (l l' : list A) : Prop :=
  exists olds news, l' = olds ++ news /\ Forall2 R l olds /\ Forall N news.

Context `{!PreOrder R} (HN : forall x y, R x y -> N x -> N y).

#[export] Instance grows_preorder : PreOrder grows.
Proof.
  split.
  - intros l. exists l, []. rewrite app_nil_r. split; [done|]. split; [|constructor].
    apply Forall_Forall2_diag, Forall_true. intros x. reflexivity.
  - intros l1 l2 l3 (o1 & n1 & -> & H1 & N1) (o2 & n2 & -> & H2 & N2).
    apply Forall2_app_inv_l in H2 as (o3 & n3 & H3 & H4 & ->).
    exists o3, (n3 ++ n2). rewrite app_assoc. split; [done|]. split.
    + clear -H1 H3 PreOrder0. revert o3 H3. induction H1; intros o3 H3; inversion H3; subst;
        constructor; [by etransitivity | auto].
    + apply Forall_app. split; [|done]. clear -N1 H4 HN. revert n3 H4.
      induction N1; intros n3 H4; inversion H4; subst; constructor; eauto.
Qed.

Lemma grows_app l news : Forall N news -> grows l (l ++ news).
Proof.
  intros Hn. exists l, news. split; [done|]. split; [|done].
  apply Forall_Forall2_diag, Forall_true. intros x. reflexivity.
Qed.

Lemma grows_map (f : A -> A) l : (forall x, R x (f x)) -> grows l (map f l).
Proof.
  intros Hf. exists (map f l), []. rewrite app_nil_r. split; [done|]. split; [|constructor].
  induction l; constructor; auto.
Qed.

Lemma grows_in l l' x : grows l l' -> In x l -> exists x', In x' l' /\ R x x'.
Proof.
  intros (o & n & -> & H2 & _) Hx. induction H2 as [|a b l o Hab H2 IH]; [done|].
  destruct Hx as [->|Hx]; [exists b; split; [by left | done]|].
  destruct (IH Hx) as (x' & Hin & HR). exists x'. split; [by right | done].
Qed.
End Grows.

(** [sort.Slice(s, less)] from Go's standard library: its documentation
    promises a permutation ordered by [less], and explicitly not stability. *)
Class GoSort := go_sort : forall {A : Type}, (A -> A -> bool) -> list A -> list A.

Class StrictWeak {A} (less : A -> A -> bool) : Prop := {
  sw_asym x y : less x y = true -> less y x = false;
  sw_trans x y z : less y x = false -> less z y = false -> less z x = false;
}.

Class GoSortLaws `{GoSort} : Prop := {
  go_sort_perm A (less : A -> A -> bool) l : Permutation l (go_sort less l);
  go_sort_sorted A (less : A -> A -> bool) l :
    StrictWeak less -> StronglySorted (fun x y => less y x = false) (go_sort less l);
}.

Lemma go_sort_in `{GoSortLaws} {A} (less : A -> A -> bool) l x : In x (go_sort less l) <-> In x l.
Proof.
  split; apply Permutation_in; [symmetry|]; apply go_sort_perm.
Qed.

(** An instance, so that the interface is inhabited and witnesses compute:
    stable insertion sort. *)
Section InsertionSort.
Context {A : Type} (less : A -> A -> bool).

Fixpoint insert_by (x : A) (l : list A) : list A :=
  match l with
  | [] => [x]
  | y :: l' => if less y x then y :: insert_by x l' else x :: l
  end.

Definition insertion_sort (l : list A) : list A := foldr insert_by [] l.

Lemma insert_by_perm x l : Permutation (x :: l) (insert_by x l).
Proof.
  induction l as [|y l IH]; cbn; [done|].
  destruct (less y x); [|done].
  etransitivity; [apply perm_swap|]. by constructor.
Qed.

Lemma insertion_sort_perm l : Permutation l (insertion_sort l).
Proof.
  induction l as [|x l IH]; cbn; [done|].
  etransitivity; [by constructor; apply IH | apply insert_by_perm].
Qed.

Lemma insert_by_sorted x l :
  StrictWeak less ->
  StronglySorted (fun x y => less y x = false) l ->
  StronglySorted (fun x y => less y x = false) (insert_by x l).
Proof.
  intros Hsw. induction l as [|y l IH]; cbn; intros Hs; [by repeat constructor|].
  apply StronglySorted_inv in Hs as [Hs Hall].
  destruct (less y x) eqn:E; constructor; [by apply IH | | by constructor |].
  - eapply Permutation_Forall; [apply insert_by_perm|].
    constructor; [by apply sw_asym | done].
  - constructor; [done|]. eapply List.Forall_impl; [|apply Hall].
    intros z Hz. by eapply sw_trans.
Qed.

Lemma insertion_sort_sorted l :
  StrictWeak less -> StronglySorted (fun x y => less y x = false) (insertion_sort l).
Proof.
  intros Hsw. induction l as [|x l IH]; cbn; [constructor|].
  by apply insert_by_sorted.
Qed.
End InsertionSort.

Definition stable_sort : GoSort := fun A => @insertion_sort A.

Lemma stable_sort_laws : @GoSortLaws stable_sort.
Proof.
  split; intros; [apply insertion_sort_perm | by apply insertion_sort_sorted].
Qed.
