(* ===== verification/GoStrings.v ===== *)
(** * Go's [strings] and [strconv] on byte strings

    The functions of Go's standard library that the modelled code calls.  A Go
    string is a byte string; case folding and white space are those of the ASCII
    range, the only one these call sites meet (scopes, header names, versions,
    platform names). *)

From S2P Require Import Prelude.
From Stdlib Require Export Ascii.

#[global] Open Scope string_scope.
#[global] Open Scope list_scope.

Fixpoint sdrop (n : nat) (s : string) : string :=
  match n, s with
  | O, _ => s
  | _, EmptyString => EmptyString
  | S n', String _ s' => sdrop n' s'
  end.

Fixpoint stake (n : nat) (s : string) : string :=
  match n, s with
  | O, _ => EmptyString
  | _, EmptyString => EmptyString
  | S n', String c s' => String c (stake n' s')
  end.

(** [strings.HasPrefix], [TrimPrefix], [HasSuffix], [TrimSuffix] *)
Definition has_prefix (s p : string) : bool := String.prefix p s.
Definition trim_prefix (s p : string) : string :=
  if has_prefix s p then sdrop (String.length p) s else s.
Definition has_suffix (s p : string) : bool :=
  (String.length p <=? String.length s)%nat &&
  String.eqb (sdrop (String.length s - String.length p) s) p.
Definition trim_suffix (s p : string) : string :=
  if has_suffix s p then stake (String.length s - String.length p) s else s.

(** [strings.Contains] *)
Fixpoint contains (s sub : string) : bool :=
  has_prefix s sub ||
  match s with
  | EmptyString => false
  | String _ s' => contains s' sub
  end.

(** [strings.ContainsAny] and [strings.IndexAny] (cut before the first hit) *)
Definition char_in (c : ascii) (set : string) : bool :=
  List.existsb (Ascii.eqb c) (String.list_ascii_of_string set).

Fixpoint contains_any (s set : string) : bool :=
  match s with
  | EmptyString => false
  | String c s' => char_in c set || contains_any s' set
  end.

(** [if idx := strings.IndexAny(s, set); idx != -1 { s = s[:idx] }] *)
Fixpoint cut_any (s set : string) : string :=
  match s with
  | EmptyString => EmptyString
  | String c s' => if char_in c set then EmptyString else String c (cut_any s' set)
  end.

(** [strings.Split(s, c)] for a one-byte separator *)
Fixpoint split_on (c : ascii) (s : string) : list string :=
  match s with
  | EmptyString => [EmptyString]
  | String d s' =>
      if Ascii.eqb d c then EmptyString :: split_on c s'
      else match split_on c s' with
           | [] => [String d EmptyString]
           | w :: ws => String d w :: ws
           end
  end.

(** [strings.SplitN(s, c, 2)] *)
Fixpoint split2 (c : ascii) (s : string) : string * option string :=
  match s with
  | EmptyString => (EmptyString, None)
  | String d s' =>
      if Ascii.eqb d c then (EmptyString, Some s')
      else let r := split2 c s' in (String d (fst r), snd r)
  end.

Definition is_space (c : ascii) : bool :=
  let n := nat_of_ascii c in (n =? 32)%nat || ((9 <=? n)%nat && (n <=? 13)%nat).

Fixpoint trim_left (s : string) : string :=
  match s with
  | EmptyString => EmptyString
  | String c s' => if is_space c then trim_left s' else s
  end.

Fixpoint trim_right (s : string) : string :=
  match s with
  | EmptyString => EmptyString
  | String c s' =>
      match trim_right s' with
      | EmptyString => if is_space c then EmptyString else String c EmptyString
      | t => String c t
      end
  end.

(** [strings.TrimSpace] *)
Definition trim_space (s : string) : string := trim_right (trim_left s).

Definition lower (c : ascii) : ascii :=
  let n := nat_of_ascii c in
  if (65 <=? n)%nat && (n <=? 90)%nat then ascii_of_nat (n + 32) else c.

(** [strings.ToLower], [strings.EqualFold] *)
Fixpoint to_lower (s : string) : string :=
  match s with
  | EmptyString => EmptyString
  | String c s' => String (lower c) (to_lower s')
  end.
Definition equal_fold (s t : string) : bool := String.eqb (to_lower s) (to_lower t).

(** ** [strconv.Atoi] *)

Definition digit (c : ascii) : option Z :=
  let n := nat_of_ascii c in
  if (48 <=? n)%nat && (n <=? 57)%nat then Some (Z.of_nat (n - 48)) else None.

Inductive num_error := ErrSyntax | ErrRange.

(** [strconv.ParseUint(s, 10, 64)] after the emptiness check: the range error
    is reported at the digit that overflows, before the rest is read. *)
Fixpoint parse_uint (acc : Z) (s : string) : Z * option num_error :=
  match s with
  | EmptyString => (acc, None)
  | String c s' =>
      match digit c with
      | None => (0%Z, Some ErrSyntax)
      | Some d =>
          let n := (acc * 10 + d)%Z in
          if (n <? 2^64)%Z then parse_uint n s' else ((2^64 - 1)%Z, Some ErrRange)
      end
  end.

(** [strconv.Atoi]: the value that accompanies a range error is the clamped
    bound, the one that accompanies a syntax error is 0. *)
Definition atoi (s : string) : Z * option num_error :=
  let '(neg, body) :=
    match s with
    | String c s' =>
        if Ascii.eqb c "-" then (true, s')
        else if Ascii.eqb c "+" then (false, s') else (false, s)
    | EmptyString => (false, s)
    end in
  match body with
  | EmptyString => (0%Z, Some ErrSyntax)
  | _ =>
      match parse_uint 0 body with
      | (_, Some ErrSyntax) => (0%Z, Some ErrSyntax)
      | (un, e) =>
          if negb neg && (2^63 <=? un)%Z then ((2^63 - 1)%Z, Some ErrRange)
          else if neg && (2^63 <? un)%Z then ((- 2^63)%Z, Some ErrRange)
          else ((if neg then - un else un)%Z, e)
      end
  end.

(** [crypto/sha256] with [hex.EncodeToString]: a digest has no white space. *)
Class Sha256 := sha256_hex : string -> string.
Class Sha256Laws `{Sha256} : Prop :=
  sha256_hex_trimmed d : trim_space (sha256_hex d) = sha256_hex d.

(** ** Facts *)

Lemma append_cons c p s : String c p +:+ s = String c (p +:+ s).
Proof. done. Qed.

Lemma append_nil_l s : "" +:+ s = s.
Proof. done. Qed.

Create Rewrite HintDb gostr.
#[export] Hint Rewrite append_cons append_nil_l : gostr.

Lemma append_nil_r s : s +:+ "" = s.
Proof.
  induction s as [|c s IH]; autorewrite with gostr; [done | by f_equal].
Qed.

Lemma append_assoc_s a b c : (a +:+ b) +:+ c = a +:+ (b +:+ c).
Proof.
  induction a as [|x a IH]; autorewrite with gostr; [done | by f_equal].
Qed.

Lemma append_inj_l p s t : p +:+ s = p +:+ t -> s = t.
Proof.
  induction p as [|c p IH]; autorewrite with gostr; [done|].
  intros [=]. by apply IH.
Qed.

Lemma length_append_s p s :
  String.length (p +:+ s) = (String.length p + String.length s)%nat.
Proof.
  induction p as [|c p IH]; autorewrite with gostr; cbn; [done | by f_equal].
Qed.

Lemma append_inj_r a b s : a +:+ s = b +:+ s -> a = b.
Proof.
  revert b. induction a as [|x a IH]; intros [|y b] E; [done | | |].
  1,2: apply (f_equal String.length) in E; rewrite !length_append_s in E; cbn in E; lia.
  injection E as -> E. f_equal. by apply IH.
Qed.

Lemma prefix_app p s : String.prefix p (p +:+ s) = true.
Proof.
  induction p as [|c p IH]; autorewrite with gostr; simpl; [by destruct s|].
  destruct (ascii_dec c c); [exact IH | congruence].
Qed.

Lemma sdrop_app p s : sdrop (String.length p) (p +:+ s) = s.
Proof.
  induction p as [|c p IH]; autorewrite with gostr; cbn; [by destruct s | done].
Qed.

Lemma prefix_spec p s :
  String.prefix p s = true -> s = p +:+ sdrop (String.length p) s.
Proof.
  revert s. induction p as [|c p IH]; intros s; [by destruct s|].
  destruct s as [|d s]; simpl; [done|]. destruct (ascii_dec c d) as [->|]; [|done].
  intros H. rewrite append_cons. f_equal. by apply IH.
Qed.

Lemma has_prefix_iff s p : has_prefix s p = true <-> exists r, s = p +:+ r.
Proof.
  unfold has_prefix. split.
  - intros H. eexists. by apply prefix_spec.
  - intros [r ->]. apply prefix_app.
Qed.

Lemma trim_prefix_app p s : trim_prefix (p +:+ s) p = s.
Proof.
  unfold trim_prefix, has_prefix. by rewrite prefix_app, sdrop_app.
Qed.

Lemma trim_prefix_cons_ne c p d s :
  c <> d -> trim_prefix (String d s) (String c p) = String d s.
Proof.
  intros Hne. unfold trim_prefix, has_prefix. cbn [String.prefix].
  by destruct (ascii_dec c d).
Qed.

Lemma split_on_nonempty c s : split_on c s <> [].
Proof.
  induction s as [|d s IH]; cbn; [done|].
  destruct (Ascii.eqb d c); [done|]. by destruct (split_on c s).
Qed.

Lemma digit_bounds c d : digit c = Some d -> (0 <= d <= 9)%Z.
Proof.
  unfold digit. destruct (Nat.leb_spec 48 (nat_of_ascii c)); [|done].
  destruct (Nat.leb_spec (nat_of_ascii c) 57); [|done]. intros [= <-]. lia.
Qed.

Lemma parse_uint_bounds acc s :
  (0 <= acc < 2^64)%Z -> (0 <= fst (parse_uint acc s) < 2^64)%Z.
Proof.
  revert acc. induction s as [|c s IH]; intros acc Ha; cbn; [done|].
  unfold digit. destruct (_ && _) eqn:E; cbn; [|lia].
  bools. apply Nat.leb_le in H, H0.
  destruct (Z.ltb_spec (acc * 10 + Z.of_nat (nat_of_ascii c - 48)) (2^64)); cbn; [|lia].
  apply IH. lia.
Qed.

(** [Atoi] always yields a machine integer. *)
Lemma atoi_bounds s : int64_ok (fst (atoi s)).
Proof.
  unfold atoi, int64_ok.
  destruct (match s with EmptyString => _ | String _ _ => _ end) as [neg body].
  destruct body as [|c body]; cbn [fst]; [lia|].
  pose proof (parse_uint_bounds 0 (String c body) ltac:(lia)) as Hb.
  destruct (parse_uint 0 (String c body)) as [un [[]|]]; cbn [fst] in *;
    repeat case_goal; cbn [fst];
    repeat match goal with
    | H : (_ && _)%bool = false |- _ => apply andb_false_iff in H
    | H : (_ && _)%bool = true |- _ => apply andb_prop in H as [? ?]
    end; destruct neg; cbn in *; lia.
Qed.

(** ** Ends of strings *)

Fixpoint last_char (s : string) : option ascii :=
  match s with
  | EmptyString => None
  | String c EmptyString => Some c
  | String _ s' => last_char s'
  end.

Lemma last_char_app p s : s <> "" -> last_char (p +:+ s) = last_char s.
Proof.
  intros Hs. induction p as [|c p IH]; [done|]. rewrite append_cons.
  cbn [last_char]. destruct (p +:+ s) as [|d t] eqn:E; [|exact IH].
  destruct p; [rewrite append_nil_l in E; done | rewrite append_cons in E; done].
Qed.

Lemma stake_sdrop n s : s = stake n s +:+ sdrop n s.
Proof.
  revert s. induction n as [|n IH]; intros [|c s]; cbn [stake sdrop]; try reflexivity.
  rewrite append_cons. f_equal. apply IH.
Qed.

Lemma has_suffix_split s suf : has_suffix s suf = true -> exists p, s = p +:+ suf.
Proof.
  unfold has_suffix. intros H. bools.
  exists (stake (String.length s - String.length suf) s).
  rewrite <- H0 at 2. apply stake_sdrop.
Qed.

Lemma has_suffix_last s suf :
  suf <> "" -> has_suffix s suf = true -> last_char s = last_char suf.
Proof. intros Hne [p ->]%has_suffix_split. by apply last_char_app. Qed.

Lemma contains_last s c : last_char s = Some c -> contains s (String c "") = true.
Proof.
  induction s as [|d s IH]; [done|]. destruct s as [|e s].
  - intros [=->]. cbn. destruct (ascii_dec c c); done.
  - intros Hl.
    change (has_prefix (String d (String e s)) (String c "") ||
            contains (String e s) (String c "") = true).
    rewrite (IH Hl). apply orb_true_r.
Qed.

(** [TrimSpace] leaves alone what neither starts nor ends with white space. *)
Lemma trim_right_id s c : last_char s = Some c -> is_space c = false -> trim_right s = s.
Proof.
  intros Hl Hc. induction s as [|d s IH]; [done|]. destruct s as [|e s].
  - injection Hl as ->. cbn. by rewrite Hc.
  - change (match trim_right (String e s) with
            | EmptyString => if is_space d then EmptyString else String d EmptyString
            | t => String d t end = String d (String e s)).
    by rewrite (IH Hl).
Qed.

Lemma trim_space_id d s c :
  is_space d = false -> last_char (String d s) = Some c -> is_space c = false ->
  trim_space (String d s) = String d s.
Proof.
  intros Hd Hl Hc. unfold trim_space. cbn [trim_left]. rewrite Hd. by eapply trim_right_id.
Qed.

(** [error.Error()] *)
Fixpoint Error (e : gerror) : string :=
  match e with
  | ErrSentinel n => n
  | ErrDB op => op
  | ErrExt what => what
  | ErrMsg m => m
  | ErrWrap ctx e' => ctx +:+ ": " +:+ Error e'
  end.
