(* ===== verification/SemVer.v ===== *)
(** * Version comparison

    The two comparators of the mirror code: [CompareSemver] of
    [internal/mirror/filter.go] and [compareTerraformSemver] of
    [internal/jobs/terraform_mirror_sync.go].  Both reduce a version string to
    three machine integers and compare them lexicographically; they differ in
    how the string is cut and in how a component that is not a number is read. *)

From S2P Require Import Prelude GoStrings.

#[local] Open Scope Z_scope.

(** ** Definitions *)

(** [for i := 0; i < 3 && i < len(parts); i++ { result[i] = f(parts[i]) }] *)
Definition fill3 (f : string -> Z) (parts : list string) : list Z :=
  (fun i => match parts !! i with Some p => f p | None => 0 end) <$> [0; 1; 2]%nat.

(** The comparison loop over the two [3]int arrays. *)
Fixpoint compare_parts (a b : list Z) : Z :=
  match a, b with
  | x :: a', y :: b' =>
      if x <? y then -1 else if y <? x then 1 else compare_parts a' b'
  | _, _ => 0
  end.

Module Mirror.
Definition parseSemverParts (version : string) : list Z :=
  let version := trim_prefix version "v" in
  let version := cut_any version "-" in
  fill3 (fun p => fst (atoi p)) (split_on "." version).

Definition CompareSemver (a b : string) : Z :=
  compare_parts (parseSemverParts a) (parseSemverParts b).
End Mirror.

Module TfJob.
Definition hasPreReleaseSuffix (version : string) : bool :=
  let v := trim_prefix version "v" in
  contains v "-" || contains v "+".

(** The inner loop: digits accumulate in an [int], anything else is skipped. *)
Fixpoint digits_of (n : Z) (s : string) : Z :=
  match s with
  | EmptyString => n
  | String c s' =>
      match digit c with
      | Some d => digits_of (wrap64 (n * 10 + d)) s'
      | None => digits_of n s'
      end
  end.

(** [SplitN(v, ".", 4)]: only the first three parts are read, and they are
    those of [Split]. *)
Definition splitSemver (v : string) : list Z :=
  fill3 (digits_of 0) (split_on "." v).

Definition compareTerraformSemver (a b : string) : Z :=
  let a := trim_prefix a "v" in
  let b := trim_prefix b "v" in
  let a := cut_any a "-+" in
  let b := cut_any b "-+" in
  compare_parts (splitSemver a) (splitSemver b).
End TfJob.

(** ** Reference semantics: a release number and its printed form *)

Record release := Release { major : Z; minor : Z; patch : Z }.

Definition release_ok (r : release) : Prop :=
  0 <= major r < 10^18 /\ 0 <= minor r < 10^18 /\ 0 <= patch r < 10^18.

(** Decimal printing, most significant digit first; [fuel] bounds the number
    of digits and 20 is enough below 10^20. *)
Fixpoint show_fuel (fuel : nat) (n : Z) (acc : string) : string :=
  match fuel with
  | O => acc
  | S f =>
      let acc' := String (ascii_of_nat (48 + Z.to_nat (n mod 10))) acc in
      if n <? 10 then acc' else show_fuel f (n / 10) acc'
  end.
Definition show (n : Z) : string := show_fuel 20 n "".

Definition print_release (r : release) : string :=
  show (major r) +:+ "." +:+ show (minor r) +:+ "." +:+ show (patch r).

Definition release_list (r : release) : list Z := [major r; minor r; patch r].

(** Lexicographic order of releases, independent of the code. *)
Definition release_lt (a b : release) : Prop :=
  major a < major b \/
  (major a = major b /\ (minor a < minor b \/
    (minor a = minor b /\ patch a < patch b))).

(** ** The comparators are total preorders *)

Lemma compare_parts_range a b :
  compare_parts a b = -1 \/ compare_parts a b = 0 \/ compare_parts a b = 1.
Proof.
  revert b. induction a as [|x a IH]; intros [|y b]; cbn; try tauto.
  destruct (x <? y), (y <? x); try tauto. apply IH.
Qed.

Lemma compare_parts_antisym a b : compare_parts b a = - compare_parts a b.
Proof.
  revert b. induction a as [|x a IH]; intros [|y b]; cbn; try done.
  destruct (Z.ltb_spec x y), (Z.ltb_spec y x); try lia. apply IH.
Qed.

Lemma compare_parts_trans a b c :
  length a = length b -> length b = length c ->
  compare_parts a b <= 0 -> compare_parts b c <= 0 -> compare_parts a c <= 0.
Proof.
  revert b c. induction a as [|x a IH]; intros [|y b] [|z c]; cbn; try lia.
  intros [=Hab] [=Hbc].
  destruct (Z.ltb_spec x y), (Z.ltb_spec y x), (Z.ltb_spec y z), (Z.ltb_spec z y),
    (Z.ltb_spec x z), (Z.ltb_spec z x); try lia.
  by apply IH.
Qed.

Lemma compare_parts_eq a b :
  length a = length b -> compare_parts a b = 0 <-> a = b.
Proof.
  revert b. induction a as [|x a IH]; intros [|y b]; cbn; try done.
  intros [=Hl].
  destruct (Z.ltb_spec x y), (Z.ltb_spec y x); try (split; [lia|intros [=]; lia]).
  rewrite (IH b Hl). assert (x = y) as -> by lia.
  split; [by intros -> | by intros [=->]].
Qed.

Lemma fill3_length f p : length (fill3 f p) = 3%nat.
Proof. done. Qed.

(** An order on strings obtained from a key of fixed length. *)
Section Keyed.
Context {V : Type} (key : V -> list Z) (n : nat).
Context (key_length : forall v, length (key v) = n).

Let cmp (a b : V) : Z := compare_parts (key a) (key b).

Lemma keyed_trans a b c : cmp a b <= 0 -> cmp b c <= 0 -> cmp a c <= 0.
Proof. apply compare_parts_trans; by rewrite !key_length. Qed.

(** Descending order by [key] is a strict weak order, as [sort.Slice] needs. *)
Lemma keyed_strict_weak : StrictWeak (fun a b => 0 <? cmp a b).
Proof.
  split.
  - intros x y Hxy. apply Z.ltb_lt in Hxy. apply Z.ltb_ge.
    unfold cmp in *. rewrite compare_parts_antisym. lia.
  - intros x y z Hyx Hzy. apply Z.ltb_ge in Hyx, Hzy. apply Z.ltb_ge.
    by eapply keyed_trans.
Qed.
End Keyed.

Lemma semver_key_length v : length (Mirror.parseSemverParts v) = 3%nat.
Proof. done. Qed.

Definition tf_key (v : string) : list Z :=
  TfJob.splitSemver (cut_any (trim_prefix v "v") "-+").

Lemma tf_compare_key a b :
  TfJob.compareTerraformSemver a b = compare_parts (tf_key a) (tf_key b).
Proof. done. Qed.

(** ** Printing and parsing *)

(** A string of decimal digits. *)
Fixpoint all_digits (s : string) : bool :=
  match s with
  | EmptyString => true
  | String c s' => match digit c with Some _ => all_digits s' | None => false end
  end.

Lemma digit_chr d : 0 <= d < 10 -> digit (ascii_of_nat (48 + Z.to_nat d)) = Some d.
Proof.
  intros Hd. unfold digit.
  rewrite nat_ascii_embedding by lia.
  replace (_ && _)%bool with true
    by (symmetry; apply andb_true_iff; split; apply Nat.leb_le; lia).
  f_equal. lia.
Qed.

(** Horner value of a digit string. *)
Fixpoint dval (k : Z) (s : string) : Z :=
  match s with
  | EmptyString => k
  | String c s' => match digit c with Some d => dval (k * 10 + d) s' | None => dval k s' end
  end.

Lemma dval_app k a b : dval k (a +:+ b) = dval (dval k a) b.
Proof.
  revert k. induction a as [|c a IH]; intros k; autorewrite with gostr; cbn; [done|].
  destruct (digit c); apply IH.
Qed.

Lemma all_digits_app a b : all_digits (a +:+ b) = all_digits a && all_digits b.
Proof.
  induction a as [|c a IH]; autorewrite with gostr; cbn; [done|].
  by destruct (digit c).
Qed.

Lemma dval_ge k s : 0 <= k -> k <= dval k s.
Proof.
  revert k. induction s as [|c s IH]; intros k Hk; cbn; [lia|].
  destruct (digit c) as [d|] eqn:E; [|by apply IH].
  apply digit_bounds in E. etransitivity; [|apply IH]; lia.
Qed.

Lemma show_fuel_spec fuel n acc :
  0 <= n < 10 ^ Z.of_nat fuel -> (fuel > 0)%nat ->
  exists ds, show_fuel fuel n acc = ds +:+ acc /\ ds <> "" /\
    all_digits ds = true /\ dval 0 ds = n.
Proof.
  revert n acc. induction fuel as [|f IH]; intros n acc Hn Hf; [lia|]. cbn [show_fuel].
  assert (Hm : 0 <= n mod 10 < 10) by (apply Z.mod_pos_bound; lia).
  destruct (Z.ltb_spec n 10).
  - exists (String (ascii_of_nat (48 + Z.to_nat (n mod 10))) "").
    cbn [all_digits dval]. rewrite digit_chr by done.
    repeat split; try done. rewrite Z.mod_small; lia.
  - rewrite Nat2Z.inj_succ, Z.pow_succ_r in Hn by lia.
    destruct f as [|f]; [cbn in Hn; lia|].
    assert (Hdiv : 0 <= n / 10 < 10 ^ Z.of_nat (S f)).
    { split; [apply Z.div_pos; lia | apply Z.div_lt_upper_bound; lia]. }
    edestruct (IH (n / 10)) as (ds & -> & Hne & Had & Hv); [exact Hdiv | lia |].
    exists (ds +:+ String (ascii_of_nat (48 + Z.to_nat (n mod 10))) "").
    rewrite append_assoc_s, all_digits_app, dval_app, Had, Hv.
    cbn [all_digits dval]. rewrite digit_chr by done.
    repeat split; try done; [by destruct ds|].
    pose proof (Z.div_mod n 10 ltac:(lia)). lia.
Qed.

Lemma show_spec n :
  0 <= n < 10^18 ->
  show n <> "" /\ all_digits (show n) = true /\ dval 0 (show n) = n.
Proof.
  intros Hn. unfold show.
  destruct (show_fuel_spec 20 n "") as (ds & -> & H); [|lia|].
  - change (Z.of_nat 20) with 20. lia.
  - by rewrite append_nil_r.
Qed.

(* Printed numbers are reasoned about through [show_spec]. *)
#[local] Opaque show.

Lemma parse_uint_digits k s :
  all_digits s = true -> 0 <= k -> dval k s < 2^64 -> parse_uint k s = (dval k s, None).
Proof.
  revert k. induction s as [|c s IH]; intros k Hd Hk Hv; cbn in *; [done|].
  destruct (digit c) as [d|] eqn:E; [|done]. apply digit_bounds in E.
  pose proof (dval_ge (k * 10 + d) s ltac:(lia)).
  rewrite (proj2 (Z.ltb_lt _ _)) by lia. apply IH; [done | lia | done].
Qed.

Lemma digits_of_digits k s :
  all_digits s = true -> 0 <= k -> dval k s < 2^63 -> TfJob.digits_of k s = dval k s.
Proof.
  revert k. induction s as [|c s IH]; intros k Hd Hk Hv; cbn in *; [done|].
  destruct (digit c) as [d|] eqn:E; [|done]. apply digit_bounds in E.
  pose proof (dval_ge (k * 10 + d) s ltac:(lia)).
  rewrite wrap64_id by (unfold int64_ok; lia). apply IH; [done | lia | done].
Qed.

Lemma digit_not c d n :
  digit c = Some d -> (nat_of_ascii n < 48 \/ 57 < nat_of_ascii n)%nat ->
  Ascii.eqb c n = false.
Proof.
  unfold digit. destruct (_ && _) eqn:E; [|done]. intros _ Hn. bools.
  apply Nat.leb_le in H, H0. apply Ascii.eqb_neq. intros ->. lia.
Qed.

Ltac not_digit := first [eassumption | left; apply Nat.ltb_lt; reflexivity].

(** Reading back one printed component. *)
Lemma atoi_show n : 0 <= n < 10^18 -> atoi (show n) = (n, None).
Proof.
  intros Hn. destruct (show_spec n Hn) as (Hne & Hd & Hv).
  destruct (show n) as [|c s] eqn:E; [done|].
  unfold atoi. cbn [all_digits] in Hd. destruct (digit c) as [d|] eqn:Ed; [|done].
  rewrite !(digit_not c d) by not_digit.
  rewrite parse_uint_digits; [|by cbn; rewrite Ed | lia | lia].
  rewrite Hv. cbn [negb andb]. rewrite (proj2 (Z.leb_gt _ _)) by lia. done.
Qed.

Lemma digits_of_show n : 0 <= n < 10^18 -> TfJob.digits_of 0 (show n) = n.
Proof.
  intros Hn. destruct (show_spec n Hn) as (Hne & Hd & Hv).
  rewrite digits_of_digits; [done | done | lia | lia].
Qed.

(** Digits contain neither the separators nor the suffix marks. *)
Lemma split_on_digits s t :
  all_digits s = true -> split_on "." (s +:+ "." +:+ t) = s :: split_on "." t.
Proof.
  induction s as [|c s IH]; intros Hd; [done|].
  rewrite append_cons. cbn [all_digits] in Hd. destruct (digit c) as [d|] eqn:E; [|done].
  cbn [split_on]. rewrite (digit_not c d) by not_digit.
  by rewrite IH.
Qed.

Lemma split_on_digits_end s : all_digits s = true -> split_on "." s = [s].
Proof.
  induction s as [|c s IH]; intros Hd; [done|].
  cbn [all_digits] in Hd. destruct (digit c) as [d|] eqn:E; [|done].
  cbn [split_on]. rewrite (digit_not c d) by not_digit.
  by rewrite IH.
Qed.

Lemma cut_any_digits s t set :
  all_digits s = true -> (set = "-" \/ set = "-+") ->
  cut_any (s +:+ t) set = s +:+ cut_any t set.
Proof.
  intros Hd Hset. induction s as [|c s IH]; [done|].
  rewrite !append_cons. cbn [all_digits] in Hd. destruct (digit c) as [d|] eqn:E; [|done].
  cbn [cut_any]. unfold char_in.
  destruct Hset as [->| ->]; cbn; rewrite !(digit_not c d) by not_digit; cbn;
    by rewrite IH.
Qed.

Lemma cut_any_digits_dot s t set :
  all_digits s = true -> (set = "-" \/ set = "-+") ->
  cut_any (s +:+ "." +:+ t) set = s +:+ "." +:+ cut_any t set.
Proof.
  intros Hd Hset. rewrite cut_any_digits by done. f_equal.
  by destruct Hset as [->| ->].
Qed.

(** A suffix that starts a pre-release part, or nothing. *)
Definition pre_suffix (s : string) : Prop := s = "" \/ exists t, s = "-" +:+ t.

Lemma cut_pre_suffix s set :
  pre_suffix s -> (set = "-" \/ set = "-+") -> cut_any s set = "".
Proof. intros [->|[t ->]] [->| ->]; done. Qed.

Lemma cut_print_release r s set :
  release_ok r -> pre_suffix s -> (set = "-" \/ set = "-+") ->
  cut_any (print_release r +:+ s) set = print_release r.
Proof.
  intros (Hx & Hy & Hz) Hs Hset. unfold print_release. rewrite !append_assoc_s.
  destruct (show_spec _ Hx) as (_ & Hdx & _), (show_spec _ Hy) as (_ & Hdy & _),
    (show_spec _ Hz) as (_ & Hdz & _).
  rewrite cut_any_digits_dot by assumption.
  rewrite cut_any_digits_dot by assumption.
  rewrite cut_any_digits by assumption.
  rewrite cut_pre_suffix by assumption.
  rewrite append_nil_r. reflexivity.
Qed.

Lemma split_print_release r :
  release_ok r ->
  split_on "." (print_release r) = [show (major r); show (minor r); show (patch r)].
Proof.
  intros (Hx & Hy & Hz). unfold print_release.
  destruct (show_spec _ Hx) as (_ & Hdx & _), (show_spec _ Hy) as (_ & Hdy & _),
    (show_spec _ Hz) as (_ & Hdz & _).
  rewrite split_on_digits by assumption.
  rewrite split_on_digits by assumption.
  rewrite split_on_digits_end by assumption. reflexivity.
Qed.

(** The optional [v] of a tag name. *)
Lemma trim_v_print r s v :
  release_ok r -> v = "" \/ v = "v" ->
  trim_prefix (v +:+ print_release r +:+ s) "v" = print_release r +:+ s.
Proof.
  intros (Hx & _) [->| ->]; [|apply trim_prefix_app].
  rewrite append_nil_l. unfold print_release. rewrite append_assoc_s.
  destruct (show_spec _ Hx) as (Hne & Hd & _).
  destruct (show (major r)) as [|c t]; [done|].
  cbn [all_digits] in Hd. destruct (digit c) as [d|] eqn:E; [|done].
  rewrite append_cons, trim_prefix_cons_ne; [reflexivity|].
  intros <-. discriminate E.
Qed.

Section PrintParse.
Context (r : release) (s v : string).
Context (Hr : release_ok r) (Hs : pre_suffix s) (Hv : v = "" \/ v = "v").

Lemma parse_print_release :
  Mirror.parseSemverParts (v +:+ print_release r +:+ s) = release_list r.
Proof.
  unfold Mirror.parseSemverParts.
  rewrite trim_v_print, cut_print_release, split_print_release by auto.
  destruct Hr as (Hx & Hy & Hz). unfold fill3, release_list.
  cbn [fmap list_fmap lookup list_lookup].
  rewrite !atoi_show by assumption. reflexivity.
Qed.

Lemma split_print_release_tf :
  tf_key (v +:+ print_release r +:+ s) = release_list r.
Proof.
  unfold tf_key, TfJob.splitSemver.
  rewrite trim_v_print, cut_print_release, split_print_release by auto.
  destruct Hr as (Hx & Hy & Hz). unfold fill3, release_list.
  cbn [fmap list_fmap lookup list_lookup].
  rewrite !digits_of_show by assumption. reflexivity.
Qed.
End PrintParse.

Lemma compare_release_list a b :
  (compare_parts (release_list a) (release_list b) < 0 <-> release_lt a b) /\
  (compare_parts (release_list a) (release_list b) = 0 <-> a = b).
Proof.
  destruct a as [x y z], b as [x' y' z']. unfold release_list, release_lt; cbn.
  split.
  - repeat case_goal; repeat match goal with
      | H : (_ <? _) = true |- _ => apply Z.ltb_lt in H
      | H : (_ <? _) = false |- _ => apply Z.ltb_ge in H end; lia.
  - repeat case_goal; repeat match goal with
      | H : (_ <? _) = true |- _ => apply Z.ltb_lt in H
      | H : (_ <? _) = false |- _ => apply Z.ltb_ge in H end;
      (split; [intros; f_equal; lia | intros [=]; lia]).
Qed.

(** ** Properties *)

(** on version strings that print a release, with or without the leading
    [v] and a pre-release suffix, both comparators decide the lexicographic
    order of the release numbers; in particular they agree. *)
Theorem comparators_decide_release_order (a b : release) (sa sb va vb : string) :
  release_ok a -> release_ok b -> pre_suffix sa -> pre_suffix sb ->
  (va = "" \/ va = "v") -> (vb = "" \/ vb = "v") ->
  let x := va +:+ print_release a +:+ sa in
  let y := vb +:+ print_release b +:+ sb in
  (Mirror.CompareSemver x y = -1 <-> release_lt a b) /\
  (Mirror.CompareSemver x y = 0 <-> a = b) /\
  TfJob.compareTerraformSemver x y = Mirror.CompareSemver x y.
Proof.
  intros Ha Hb Hsa Hsb Hva Hvb x y. subst x y.
  rewrite tf_compare_key, !split_print_release_tf by done.
  unfold Mirror.CompareSemver. rewrite !parse_print_release by done.
  pose proof (compare_release_list a b) as [Hlt Heq].
  pose proof (compare_parts_range (release_list a) (release_list b)).
  repeat split; try tauto; intros; (apply Hlt; lia) || (apply Hlt in H0; lia).
Qed.

Theorem comparators_decide_release_order_witness :
  Mirror.CompareSemver "v1.9.8" "1.10.0-rc1" = -1 <-> release_lt (Release 1 9 8) (Release 1 10 0).
Proof.
  refine (proj1 (comparators_decide_release_order (Release 1 9 8) (Release 1 10 0)
            "" "-rc1" "v" "" _ _ _ _ _ _)).
  - unfold release_ok; cbn; lia.
  - unfold release_ok; cbn; lia.
  - by left.
  - right. by exists "rc1".
  - by right.
  - by left.
Defined.

(** What [sort.Slice] and the range filters need of a comparator. *)
Definition total_preorder (cmp : string -> string -> Z) : Prop :=
  forall a b c : string,
    (cmp a b = -1 \/ cmp a b = 0 \/ cmp a b = 1) /\
    cmp b a = - cmp a b /\
    (cmp a b <= 0 -> cmp b c <= 0 -> cmp a c <= 0).

(** both comparators are total preorders on arbitrary strings: they answer
    -1, 0 or 1, swap sign with their arguments, and are transitive, so sorting
    by them is well defined whatever the upstream sends. *)
Theorem comparators_total_preorder :
  total_preorder Mirror.CompareSemver /\ total_preorder TfJob.compareTerraformSemver.
Proof.
  split; intros a b c; rewrite ?tf_compare_key;
    (split; [apply compare_parts_range | split;
      [apply compare_parts_antisym | by apply compare_parts_trans]]).
Qed.

(** ** What the filter parser needs of printed numbers *)

Lemma digit_not_space c d : digit c = Some d -> is_space c = false.
Proof.
  unfold digit, is_space. destruct (_ && _) eqn:E; [|done]. intros _. bools.
  apply Nat.leb_le in H, H0. apply orb_false_iff. split.
  - apply Nat.eqb_neq. lia.
  - apply andb_false_iff. right. apply Nat.leb_gt. lia.
Qed.

Lemma all_digits_last s :
  s <> "" -> all_digits s = true -> exists c d, last_char s = Some c /\ digit c = Some d.
Proof.
  induction s as [|c s IH]; [done|]. intros _ Hd. cbn [all_digits] in Hd.
  destruct (digit c) as [d|] eqn:E; [|done].
  destruct s as [|e s]; [by exists c, d|]. by apply IH.
Qed.

(** A filter [String k p] followed by digits is untouched by [TrimSpace] and has
    neither of the prefix-filter suffixes. *)
Lemma digits_end_filter k p s :
  is_space k = false -> s <> "" -> all_digits s = true ->
  let f := String k p +:+ s in
  trim_space f = f /\ has_suffix f "." = false /\ has_suffix f ".x" = false.
Proof.
  intros Hk Hs Hd. destruct (all_digits_last s Hs Hd) as (c & d & Hl & Hc).
  assert (Hlf : last_char (String k p +:+ s) = Some c) by by rewrite last_char_app.
  rewrite append_cons in *. cbn zeta. split; [|split].
  - eapply trim_space_id; [done | exact Hlf | by eapply digit_not_space].
  - destruct (has_suffix _ ".") eqn:E; [|done].
    apply has_suffix_last in E; [|done]. rewrite Hlf in E. by injection E as ->.
  - destruct (has_suffix _ ".x") eqn:E; [|done].
    apply has_suffix_last in E; [|done]. rewrite Hlf in E. by injection E as ->.
Qed.

Lemma print_release_last r :
  release_ok r -> exists c d, last_char (print_release r) = Some c /\ digit c = Some d.
Proof.
  intros (_ & _ & Hz). destruct (show_spec _ Hz) as (Hne & Hd & _).
  destruct (all_digits_last _ Hne Hd) as (c & d & Hl & Hc).
  exists c, d. split; [|done]. unfold print_release.
  rewrite <- !append_assoc_s, last_char_app by done. exact Hl.
Qed.

Lemma print_release_head r :
  release_ok r -> exists c d t, print_release r = String c t /\ digit c = Some d.
Proof.
  intros (Hx & _). destruct (show_spec _ Hx) as (Hne & Hd & _).
  unfold print_release. destruct (show (major r)) as [|c t]; [done|].
  cbn [all_digits] in Hd. destruct (digit c) as [d|] eqn:E; [|done].
  exists c, d. eexists. split; [by rewrite append_cons | done].
Qed.

Lemma trim_print_release r : release_ok r -> trim_space (print_release r) = print_release r.
Proof.
  intros Hr. destruct (print_release_head r Hr) as (k & dk & t & Ht & Hk).
  destruct (print_release_last r Hr) as (c & d & Hl & Hc). rewrite Ht in *.
  eapply trim_space_id; [by eapply digit_not_space | exact Hl | by eapply digit_not_space].
Qed.
