(* ===== verification/VersionFilter.v ===== *)
(** * Version filters

    The [version_filter] expression of a mirror configuration:
    [FilterVersions] of [internal/mirror/filter.go] (provider mirror and
    pull-through cache) and [filterTerraformVersions] of
    [internal/jobs/terraform_mirror_sync.go] (binary mirror).  Both read nothing
    of an upstream entry but its [Version] field, which is what the class
    [HasVersion] offers; both sort with [sort.Slice], which is the interface
    [GoSort]. *)

From S2P Require Import Prelude GoStrings SemVer.
From stdpp Require Import gmap sets.
From Stdlib Require Import Sorting.Permutation Sorting.Sorted.

Class HasVersion (V : Type) := version_of : V -> string.

#[local] Open Scope Z_scope.

Inductive cmp_op := OpGe | OpLe | OpGt | OpLt.

Definition op_holds (op : cmp_op) (cmp : Z) : bool :=
  match op with
  | OpGe => 0 <=? cmp
  | OpLe => cmp <=? 0
  | OpGt => 0 <? cmp
  | OpLt => cmp <? 0
  end.

(** The [switch] that splits a constraint into operator and target. *)
Definition split_op (constraint : string) : option (cmp_op * string) :=
  if has_prefix constraint ">=" then Some (OpGe, trim_prefix constraint ">=")
  else if has_prefix constraint "<=" then Some (OpLe, trim_prefix constraint "<=")
  else if has_prefix constraint ">" then Some (OpGt, trim_prefix constraint ">")
  else if has_prefix constraint "<" then Some (OpLt, trim_prefix constraint "<")
  else None.

Definition wanted_set (lst : string) : gset string :=
  list_to_set (trim_space <$> split_on "," lst).

Module ProviderFilter.
Section Filter.
Context {V : Type} `{HasVersion V} `{GoSort}.

Definition filterLatestVersions (versions : list V) (count : Z) : list V :=
  if Z.of_nat (length versions) <=? count then versions
  else take (Z.to_nat count)
    (go_sort (fun a b => 0 <? Mirror.CompareSemver (version_of a) (version_of b)) versions).

Definition filterVersionsByPrefix (versions : list V) (prefix : string) : list V :=
  List.filter (fun v => has_prefix (version_of v) prefix) versions.

Definition filterVersionsByList (versions : list V) (lst : string) : list V :=
  let wanted := wanted_set lst in
  List.filter (fun v => bool_decide (version_of v ∈ wanted)) versions.

Definition filterVersionsBySemverConstraint (versions : list V) (constraint : string) : list V :=
  match split_op constraint with
  | None => versions
  | Some (op, target) =>
      let target := trim_space target in
      List.filter (fun v => op_holds op (Mirror.CompareSemver (version_of v) target)) versions
  end.

Definition FilterVersions (versions : list V) (filter : option string) : list V :=
  match filter with
  | None => versions
  | Some f =>
      if String.eqb f "" then versions
      else
        let fs := trim_space f in
        if has_prefix fs "latest:" then
          let '(count, err) := atoi (trim_prefix fs "latest:") in
          if (match err with Some _ => true | None => false end) || (count <=? 0)
          then versions
          else filterLatestVersions versions count
        else if has_suffix fs "." || has_suffix fs ".x" then
          filterVersionsByPrefix versions (trim_suffix fs "x")
        else if has_prefix fs ">=" || has_prefix fs ">" ||
                has_prefix fs "<=" || has_prefix fs "<" then
          filterVersionsBySemverConstraint versions fs
        else if contains fs "," then filterVersionsByList versions fs
        else
          match filterVersionsByPrefix versions (fs +:+ ".") with
          | [] => filterVersionsByList versions fs
          | filtered => filtered
          end
  end.
End Filter.
End ProviderFilter.

Module TfFilter.
Section Filter.
Context {V : Type} `{HasVersion V} `{GoSort}.

Definition filterTFLatest (versions : list V) (count : Z) : list V :=
  if Z.of_nat (length versions) <=? count then versions
  else take (Z.to_nat count)
    (go_sort (fun a b => 0 <? Mirror.CompareSemver (version_of a) (version_of b)) versions).

Definition filterTFByPrefix (versions : list V) (prefix : string) : list V :=
  List.filter (fun v => has_prefix (version_of v) prefix) versions.

Definition filterTFByList (versions : list V) (lst : string) : list V :=
  let wanted := wanted_set lst in
  List.filter (fun v => bool_decide (version_of v ∈ wanted)) versions.

(** What one token of a comma-separated list selects. *)
Definition token_matches (versions : list V) (t : string) : list V :=
  if has_suffix t "." || has_suffix t ".x" then
    filterTFByPrefix versions (trim_suffix t "x")
  else
    match filterTFByPrefix versions (t +:+ ".") with
    | [] => filterTFByList versions t
    | filtered => filtered
    end.

(** [for _, v := range matched { if !seen[v.Version] { ... } }] *)
Fixpoint add_unseen (seen : gset string) (out : list V) (matched : list V)
  : gset string * list V :=
  match matched with
  | [] => (seen, out)
  | v :: vs =>
      if bool_decide (version_of v ∈ seen) then add_unseen seen out vs
      else add_unseen ({[version_of v]} ∪ seen) (out ++ [v]) vs
  end.

Fixpoint token_loop (versions : list V) (seen : gset string) (out : list V)
  (tokens : list string) : list V :=
  match tokens with
  | [] => out
  | token :: ts =>
      let t := trim_space token in
      if String.eqb t "" then token_loop versions seen out ts
      else
        let '(seen, out) := add_unseen seen out (token_matches versions t) in
        token_loop versions seen out ts
  end.

Definition filterTFByTokenList (versions : list V) (lst : string) : list V :=
  token_loop versions ∅ [] (split_on "," lst).

Definition filterTFBySemver (versions : list V) (constraint : string) : list V :=
  match split_op constraint with
  | None => versions
  | Some (op, target) =>
      let target := trim_space target in
      List.filter (fun v => op_holds op (Mirror.CompareSemver (version_of v) target)) versions
  end.

Definition filterTerraformVersions (versions : list V) (filter : option string) : list V :=
  match filter with
  | None => versions
  | Some f =>
      if String.eqb (trim_space f) "" then versions
      else
        let fs := trim_space f in
        if has_prefix fs "latest:" then
          let '(count, err) := atoi (trim_prefix fs "latest:") in
          if (match err with Some _ => true | None => false end) || (count <=? 0)
          then versions
          else filterTFLatest versions count
        else if has_suffix fs "." || has_suffix fs ".x" then
          filterTFByPrefix versions (trim_suffix fs "x")
        else if has_prefix fs ">=" || has_prefix fs ">" ||
                has_prefix fs "<=" || has_prefix fs "<" then
          filterTFBySemver versions fs
        else if contains fs "," then filterTFByTokenList versions fs
        else
          match filterTFByPrefix versions (fs +:+ ".") with
          | [] => filterTFByList versions fs
          | filtered => filtered
          end
  end.
End Filter.
End TfFilter.

(** ** Lemmas *)

#[export] Instance string_version : HasVersion string := id.

(** [sel] was selected from [all]: nothing is invented and no entry is used
    twice. *)
Definition selected_from {V} (sel all : list V) : Prop :=
  exists rest, Permutation all (sel ++ rest).

Section Selection.
Context {V : Type}.
Implicit Types l : list V.

Lemma selected_refl l : selected_from l l.
Proof. exists []. by rewrite app_nil_r. Qed.

Lemma selected_filter (f : V -> bool) l : selected_from (List.filter f l) l.
Proof.
  exists (List.filter (fun x => negb (f x)) l).
  induction l as [|x l IH]; cbn; [done|].
  destruct (f x); cbn; [by constructor|].
  etransitivity; [by constructor; exact IH | apply Permutation_middle].
Qed.

Lemma selected_perm_take n l l' : Permutation l l' -> selected_from (take n l') l.
Proof. intros Hp. exists (drop n l'). by rewrite take_drop. Qed.

Lemma selected_In l l' x : selected_from l l' -> In x l -> In x l'.
Proof.
  intros [rest Hp] Hx. eapply Permutation_in; [symmetry; exact Hp|].
  apply in_or_app. by left.
Qed.

Lemma selected_NoDup l l' : NoDup l -> incl l l' -> selected_from l l'.
Proof.
  revert l'. induction l as [|x l IH]; intros l' Hnd Hincl; [by exists l'|].
  apply NoDup_cons in Hnd as [Hx Hnd].
  destruct (in_split x l' (Hincl x (or_introl eq_refl))) as (a & b & ->).
  destruct (IH (a ++ b) Hnd) as [rest Hp].
  - intros y Hy. assert (Hy' : In y (a ++ x :: b)) by (apply Hincl; by right).
    apply in_app_iff in Hy' as [Ha|[<-|Hb]]; apply in_or_app; auto.
    destruct Hx. by apply list_elem_of_In.
  - exists rest. cbn. rewrite <- Hp. symmetry. apply Permutation_middle.
Qed.
End Selection.
#[export] Hint Resolve selected_refl selected_filter : registry.

(** The operators of a range filter, printed, and what they ask of a release. *)
Definition op_text (op : cmp_op) : string :=
  match op with OpGe => ">=" | OpLe => "<=" | OpGt => ">" | OpLt => "<" end.

Definition release_rel (op : cmp_op) (a r : release) : Prop :=
  match op with
  | OpGe => ~ release_lt a r
  | OpLe => ~ release_lt r a
  | OpGt => release_lt r a
  | OpLt => release_lt a r
  end.

Lemma op_holds_release op a r sa va :
  release_ok a -> release_ok r -> pre_suffix sa -> va = "" \/ va = "v" ->
  op_holds op (Mirror.CompareSemver (va +:+ print_release a +:+ sa) (print_release r)) = true
  <-> release_rel op a r.
Proof.
  intros Ha Hr Hsa Hva. unfold Mirror.CompareSemver.
  rewrite (parse_print_release a) by done.
  replace (print_release r) with ("" +:+ print_release r +:+ "")
    by (by rewrite append_nil_l, append_nil_r).
  rewrite (parse_print_release r) by (done || by left).
  pose proof (compare_release_list a r) as [H1 _].
  pose proof (compare_release_list r a) as [H2 _].
  rewrite compare_parts_antisym in H2.
  revert H1 H2. generalize (compare_parts (release_list a) (release_list r)) as c.
  intros c H1 H2.
  destruct op; unfold op_holds, release_rel; rewrite ?Z.leb_le, ?Z.ltb_lt, <- ?H1, <- ?H2; lia.
Qed.

Lemma split_op_text op r :
  release_ok r -> split_op (op_text op +:+ print_release r) = Some (op, print_release r).
Proof.
  intros Hr. destruct (print_release_head r Hr) as (k & d & t & -> & Hk).
  assert (k <> "="%char) by (intros ->; discriminate Hk).
  assert (Hp : forall c, has_prefix (String c (String k t)) (String c "=") = false).
  { intros c. unfold has_prefix. cbn [String.prefix].
    destruct (ascii_dec c c); [|done]. by destruct (ascii_dec "=" k). }
  unfold split_op. destruct op; cbn [op_text]; rewrite ?append_cons, ?append_nil_l.
  - by destruct t.
  - by destruct t.
  - rewrite Hp. by destruct t.
  - rewrite Hp. by destruct t.
Qed.

Section Theorems.
Context {V : Type} `{HasVersion V} `{GoSort}.
Implicit Types vs : list V.

(** A range filter is dispatched to the constraint filter. *)
Lemma range_dispatch op r vs :
  release_ok r ->
  let f := op_text op +:+ print_release r in
  ProviderFilter.FilterVersions vs (Some f) =
    List.filter (fun v => op_holds op (Mirror.CompareSemver (version_of v) (print_release r))) vs
  /\ TfFilter.filterTerraformVersions vs (Some f) = ProviderFilter.FilterVersions vs (Some f).
Proof.
  intros Hr f.
  destruct (print_release_last r Hr) as (c & d & Hl & Hc).
  assert (Hne : print_release r <> "") by (intros E; by rewrite E in Hl).
  assert (Hlf : last_char f = Some c) by by (unfold f; rewrite last_char_app).
  assert (Hop : exists k t, op_text op = String k t /\ is_space k = false /\ k <> "l"%char
            /\ has_prefix f ">=" || has_prefix f ">" || has_prefix f "<=" || has_prefix f "<" = true).
  { unfold f. destruct op; eexists _, _; repeat split; try done;
      cbn [op_text]; rewrite ?append_cons, ?append_nil_l;
      destruct (print_release_head r Hr) as (? & ? & ? & -> & _); unfold has_prefix;
      cbn -[has_prefix]; rewrite ?orb_true_r; reflexivity. }
  destruct Hop as (k & t & Hk & Hsp & Hl' & Hpre).
  assert (Hf : f = String k (t +:+ print_release r)) by (unfold f; by rewrite Hk, append_cons).
  assert (Htrim : trim_space f = f).
  { rewrite Hf in *. eapply trim_space_id; [done | exact Hlf | by eapply digit_not_space]. }
  assert (Hsuf : has_suffix f "." || has_suffix f ".x" = false).
  { apply orb_false_iff. split; destruct (has_suffix f _) eqn:E; try done;
      apply has_suffix_last in E; try done; rewrite Hlf in E; injection E as ->; done. }
  assert (Hlat : has_prefix f "latest:" = false).
  { unfold has_prefix. rewrite Hf. cbn [String.prefix]. by destruct (ascii_dec "l" k). }
  assert (Hemp : String.eqb f "" = false) by by rewrite Hf.
  unfold ProviderFilter.FilterVersions, TfFilter.filterTerraformVersions.
  rewrite Htrim, Hemp, Hlat, Hsuf, Hpre. cbv zeta.
  unfold ProviderFilter.filterVersionsBySemverConstraint, TfFilter.filterTFBySemver.
  unfold f. rewrite split_op_text by done. by rewrite trim_print_release.
Qed.

(** [latest:N] is dispatched to the latest filter with the number read back. *)
Lemma latest_dispatch n vs :
  1 <= n < 10^18 ->
  let f := "latest:" +:+ show n in
  ProviderFilter.FilterVersions vs (Some f) = ProviderFilter.filterLatestVersions vs n /\
  TfFilter.filterTerraformVersions vs (Some f) = ProviderFilter.FilterVersions vs (Some f).
Proof.
  intros Hn f. destruct (show_spec n ltac:(lia)) as (Hne & Hd & _).
  destruct (digits_end_filter "l" "atest:" (show n)) as (Ht & _); try done.
  fold f in Ht. unfold ProviderFilter.FilterVersions, TfFilter.filterTerraformVersions.
  rewrite Ht. replace (String.eqb f "") with false by done.
  replace (has_prefix f "latest:") with true by (symmetry; apply has_prefix_iff; by eexists).
  replace (trim_prefix f "latest:") with (show n) by (symmetry; apply trim_prefix_app).
  rewrite atoi_show by lia. cbn [orb].
  by rewrite (proj2 (Z.leb_gt n 0)) by lia.
Qed.

Lemma newest_strict_weak :
  StrictWeak (fun a b : V => 0 <? Mirror.CompareSemver (version_of a) (version_of b)).
Proof.
  apply (keyed_strict_weak (fun v : V => Mirror.parseSemverParts (version_of v)) 3).
  done.
Qed.

(** [latest:N] keeps, in both filters, exactly [min(N, len)] of the
    upstream entries, and no entry it drops has a higher release than an
    entry it keeps. *)
Theorem latest_filter_keeps_newest `{!GoSortLaws} (n : Z) vs :
  1 <= n < 10^18 ->
  let kept := ProviderFilter.FilterVersions vs (Some ("latest:" +:+ show n)) in
  TfFilter.filterTerraformVersions vs (Some ("latest:" +:+ show n)) = kept /\
  exists dropped,
    Permutation vs (kept ++ dropped) /\
    Z.of_nat (length kept) = Z.min n (Z.of_nat (length vs)) /\
    forall k d, In k kept -> In d dropped ->
      Mirror.CompareSemver (version_of d) (version_of k) <= 0.
Proof.
  intros Hn kept. destruct (latest_dispatch n vs Hn) as [Hp Ht].
  split; [exact Ht|]. subst kept. rewrite Hp. unfold ProviderFilter.filterLatestVersions.
  destruct (Z.leb_spec (Z.of_nat (length vs)) n).
  - exists []. rewrite app_nil_r. repeat split; [done | lia | done].
  - set (less := fun a b => _). set (sorted := go_sort less vs).
    assert (Hperm : Permutation vs sorted) by apply go_sort_perm.
    exists (drop (Z.to_nat n) sorted).
    rewrite take_drop. split; [exact Hperm|]. split.
    + rewrite length_take, <- (Permutation_length Hperm). lia.
    + intros k d Hk Hd.
      assert (Hs : StronglySorted (fun x y => less y x = false) sorted)
        by apply go_sort_sorted, newest_strict_weak.
      rewrite <- (take_drop (Z.to_nat n) sorted) in Hs.
      pose proof (StronglySorted_app_rel _ _ _ _ _ Hs Hk Hd) as Hr.
      by apply Z.ltb_ge in Hr.
Qed.

(** a range filter ([>=], [<=], [>], [<] followed by a release) keeps an
    entry whose version prints a release, with or without [v] and a
    pre-release suffix, exactly when that release is in the range; the
    provider and the binary mirror agree. *)
Theorem range_filter_selects_range (op : cmp_op) (r a : release) (sa va : string) vs (v : V) :
  release_ok r -> release_ok a -> pre_suffix sa -> (va = "" \/ va = "v") ->
  version_of v = va +:+ print_release a +:+ sa ->
  let f := Some (op_text op +:+ print_release r) in
  (In v (ProviderFilter.FilterVersions vs f) <-> In v vs /\ release_rel op a r) /\
  TfFilter.filterTerraformVersions vs f = ProviderFilter.FilterVersions vs f.
Proof.
  intros Hr Ha Hsa Hva Hv f. destruct (range_dispatch op r vs Hr) as [Hp Ht].
  split; [|exact Ht]. unfold f. rewrite Hp, filter_In, Hv.
  by rewrite op_holds_release.
Qed.
End Theorems.

Theorem latest_filter_keeps_newest_witness :
  exists dropped,
    Permutation ["1.2.0"; "1.10.0"; "1.9.9"]
      (@ProviderFilter.FilterVersions string string_version stable_sort
         ["1.2.0"; "1.10.0"; "1.9.9"] (Some ("latest:" +:+ show 2)) ++ dropped).
Proof.
  pose proof stable_sort_laws as Hlaws.
  destruct (@latest_filter_keeps_newest string string_version stable_sort Hlaws 2
              ["1.2.0"; "1.10.0"; "1.9.9"]) as (_ & dropped & Hp & _); [lia|].
  exists dropped. exact Hp.
Defined.

Theorem range_filter_selects_range_witness :
  In "v1.10.0-rc1"
    (@ProviderFilter.FilterVersions string string_version stable_sort
       ["1.9.8"; "v1.10.0-rc1"] (Some (op_text OpGe +:+ print_release (Release 1 9 9))))
  <-> In "v1.10.0-rc1" ["1.9.8"; "v1.10.0-rc1"] /\
      release_rel OpGe (Release 1 10 0) (Release 1 9 9).
Proof.
  refine (proj1 (@range_filter_selects_range string string_version stable_sort OpGe
    (Release 1 9 9) (Release 1 10 0) "-rc1" "v" _ _ _ _ _ _ _)).
  - unfold release_ok; cbn; lia.
  - unfold release_ok; cbn; lia.
  - right. by exists "rc1".
  - by right.
  - vm_compute. reflexivity.
Defined.

Section Tokens.
Context {V : Type} `{HasVersion V} `{GoSort}.
Implicit Types vs out : list V.

#[local] Abbreviation names l := (version_of <$> l).

Lemma names_snoc x out v : x ∈ names (out ++ [v]) <-> x ∈ names out \/ x = version_of v.
Proof. rewrite fmap_app, elem_of_app. cbn. by rewrite list_elem_of_singleton. Qed.

Lemma names_cons x v vs : x ∈ names (v :: vs) <-> x = version_of v \/ x ∈ names vs.
Proof. by rewrite fmap_cons, elem_of_cons. Qed.

Lemma add_unseen_spec vs seen out s' out' :
  NoDup (names out) -> (forall x, x ∈ seen <-> x ∈ names out) ->
  TfFilter.add_unseen seen out vs = (s', out') ->
  NoDup (names out') /\ (forall x, x ∈ s' <-> x ∈ names out') /\
  (forall x, x ∈ names out' <-> x ∈ names out \/ x ∈ names vs) /\
  (forall v, In v out' -> In v out \/ In v vs).
Proof.
  revert seen out.
  induction vs as [|v vs IH]; intros seen out Hnd Hs; cbn [TfFilter.add_unseen].
  - intros [= <- <-]. repeat split; try done; try (by left).
    + apply Hs.
    + apply Hs.
    + intros [?|Hx]; [done | by apply elem_of_nil in Hx].
  - case_bool_decide as Hin.
    + intros Hau. destruct (IH _ _ Hnd Hs Hau) as (H1 & H2 & H3 & H4).
      split; [done|]. split; [done|]. split.
      * intros x. rewrite H3, names_cons. apply Hs in Hin.
        split; [tauto|]. intros [?|[->|?]]; tauto.
      * intros w Hw. destruct (H4 w Hw); [by left | right; by right].
    + intros Hau. rewrite Hs in Hin. eapply IH in Hau as (H1 & H2 & H3 & H4).
      * split; [done|]. split; [done|]. split.
        -- intros x. rewrite H3, names_snoc, names_cons. tauto.
        -- intros w Hw. destruct (H4 w Hw) as [Hw'|]; [|right; by right].
           apply in_app_or in Hw' as [?|[<-|[]]]; [by left | right; by left].
      * rewrite fmap_app. apply NoDup_app. split; [done|]. split.
        -- intros x Hx Hv. cbn in Hv. apply list_elem_of_singleton in Hv as ->. done.
        -- cbn. apply NoDup_singleton.
      * intros x. rewrite names_snoc, elem_of_union, elem_of_singleton, Hs. tauto.
Qed.

Lemma token_loop_spec vs tokens seen out :
  NoDup (names out) -> (forall x, x ∈ seen <-> x ∈ names out) ->
  let res := TfFilter.token_loop vs seen out tokens in
  NoDup (names res) /\
  (forall x, x ∈ names res <-> x ∈ names out \/
     exists t, t ∈ trim_space <$> tokens /\ t <> "" /\ x ∈ names (TfFilter.token_matches vs t)) /\
  (forall v, In v res -> In v out \/ In v vs).
Proof.
  revert seen out. induction tokens as [|tok ts IH]; intros seen out Hnd Hs;
    cbn [TfFilter.token_loop].
  - split; [done|]. split; [|by left].
    intros x. split; [by left | intros [?|(t & Ht & _)]; [done|]].
    by apply elem_of_nil in Ht.
  - destruct (String.eqb_spec (trim_space tok) "") as [E|E].
    + destruct (IH seen out Hnd Hs) as (H1 & H2 & H3). split; [done|]. split; [|done].
      intros x. rewrite H2, fmap_cons. setoid_rewrite elem_of_cons. naive_solver.
    + destruct (TfFilter.add_unseen _ _ _) as [s' out'] eqn:Hau.
      pose proof (add_unseen_spec _ _ _ _ _ Hnd Hs Hau) as (A1 & A2 & A3 & A4).
      destruct (IH s' out' A1 A2) as (H1 & H2 & H3). split; [done|]. split.
      * intros x. rewrite H2, A3, fmap_cons. setoid_rewrite elem_of_cons. naive_solver.
      * intros v Hv. destruct (H3 v Hv) as [Hv'|]; [|by right].
        destruct (A4 v Hv') as [|Hm]; [by left | right].
        unfold TfFilter.token_matches in Hm. repeat case_hyp Hm;
          try (apply filter_In in Hm as [? _]; done).
        rewrite <- Heql in Hm. by apply filter_In in Hm as [? _].
Qed.

(** a comma-separated filter of the binary mirror is the union of its
    non-blank tokens, each read on its own as a prefix or an exact version:
    a version string is kept exactly when some token selects it, it is kept
    once, and every entry kept is an upstream entry. *)
Theorem token_list_is_union vs (f : string) :
  let kept := TfFilter.filterTFByTokenList vs f in
  NoDup (version_of <$> kept) /\
  selected_from kept vs /\
  forall s, s ∈ version_of <$> kept <->
    exists t, t ∈ trim_space <$> split_on "," f /\ t <> "" /\
              s ∈ version_of <$> TfFilter.token_matches vs t.
Proof.
  intros kept. subst kept. unfold TfFilter.filterTFByTokenList.
  destruct (token_loop_spec vs (split_on "," f) ∅ []) as (H1 & H2 & H3).
  - constructor.
  - intros x. rewrite elem_of_nil. set_solver.
  - split; [done|]. split.
    + apply selected_NoDup; [by eapply NoDup_fmap_1|].
      intros v Hv. by destruct (H3 v Hv).
    + intros s. rewrite (H2 s). cbn. rewrite elem_of_nil. tauto.
Qed.

(** on every filter that is not blank and names no list, the binary
    mirror's filter is the provider mirror's; on a non-empty filter of white
    space alone they part: the binary mirror takes every version, the
    provider mirror none (upstream versions being neither empty nor led by a
    dot). *)
Theorem filters_agree_except_blank_and_lists vs (f : string) :
  (trim_space f <> "" -> contains (trim_space f) "," = false ->
     TfFilter.filterTerraformVersions vs (Some f) = ProviderFilter.FilterVersions vs (Some f)) /\
  (trim_space f = "" -> f <> "" ->
     (forall v, In v vs -> version_of v <> "" /\ has_prefix (version_of v) "." = false) ->
     TfFilter.filterTerraformVersions vs (Some f) = vs /\
     ProviderFilter.FilterVersions vs (Some f) = []).
Proof.
  unfold TfFilter.filterTerraformVersions, ProviderFilter.FilterVersions. split.
  - intros Hne Hc. rewrite Hc.
    destruct (String.eqb_spec f "") as [->|_]; [done|].
    by destruct (String.eqb_spec (trim_space f) "").
  - intros He Hf Hall. rewrite He.
    destruct (String.eqb_spec f "") as [|_]; [done|]. cbn [String.eqb]. cbv zeta.
    split; [done|].
    assert (Hno : forall g : V -> bool, (forall v, In v vs -> g v = false) -> List.filter g vs = []).
    { intros g Hg. clear -Hg. induction vs as [|v vs IH]; cbn; [done|].
      rewrite (Hg v) by (by left). apply IH. intros w Hw. apply Hg. by right. }
    change (has_prefix "" "latest:") with false.
    change (has_suffix "" "." || has_suffix "" ".x") with false.
    change (has_prefix "" ">=" || has_prefix "" ">" || has_prefix "" "<=" || has_prefix "" "<")
      with false.
    change (contains "" ",") with false. cbv iota.
    unfold ProviderFilter.filterVersionsByPrefix, ProviderFilter.filterVersionsByList.
    change ("" +:+ ".") with ".".
    rewrite Hno by (intros v Hv; by apply Hall).
    apply Hno. intros v Hv. apply bool_decide_eq_false. intros Hw.
    apply elem_of_list_to_set in Hw. cbn in Hw.
    apply list_elem_of_singleton in Hw. by destruct (Hall v Hv).
Qed.
End Tokens.

Theorem filters_agree_except_blank_and_lists_witness :
  @TfFilter.filterTerraformVersions string string_version stable_sort ["1.2.3"] (Some "  ") = ["1.2.3"] /\
  @ProviderFilter.FilterVersions string string_version stable_sort ["1.2.3"] (Some "  ") = [].
Proof.
  apply (@filters_agree_except_blank_and_lists string string_version stable_sort ["1.2.3"] "  ").
  - reflexivity.
  - discriminate.
  - intros v [<-|[]]. split; [discriminate | reflexivity].
Defined.
