(* ===== verification/AutoApprove.v ===== *)
(** * Auto-approve rules of the version approval gate

    [internal/mirror/auto_approve.go] and its three callers: the provider mirror
    ([resolveProviderApproval], [internal/jobs/mirror_sync.go]), the binary
    mirror ([resolveTerraformApproval], [internal/jobs/terraform_mirror_sync.go])
    and the scanner updater ([resolveScannerApproval],
    [internal/jobs/scanner_update_job.go]).

    Versions and constraints are those of hashicorp/go-version and the rules are
    decoded by [encoding/json] into a struct; both are interfaces here
    ([GoVersion], [RulesCodec]). *)

From S2P Require Import Prelude GoStrings SemVer VersionFilter.

#[local] Open Scope Z_scope.

(** ** Interfaces *)

(** hashicorp/go-version: parsed versions, their numeric segments, the order,
    and constraint strings. *)
Class GoVersion := {
  gover : Type;
  gocon : Type;
  NewVersion : string -> option gover;
  Segments : gover -> list Z;
  GreaterThan : gover -> gover -> bool;
  VEqual : gover -> gover -> bool;
  NewConstraint : string -> option gocon;
  CheckConstraint : gocon -> gover -> bool;
}.

(** What the package documents: [GreaterThan] is the strict part of a total
    preorder (pre-releases and metadata included), and [Equal] is the absence of
    a strict comparison either way. *)
Class GoVersionLaws `{GoVersion} : Prop := {
  gt_strict_weak :: StrictWeak GreaterThan;
  equal_incomparable a b : VEqual a b = negb (GreaterThan a b) && negb (GreaterThan b a);
}.

(** validation/semver.go *)
Definition ValidateSemver `{GoVersion} (version : string) : option gerror :=
  match NewVersion version with None => Some (ErrMsg "invalid semantic version") | Some _ => None end.

Record AutoApproveRule := {
  Type_ : string;
  Hours : option Z;
  Constraint : string;
}.
Record AutoApproveRules := {
  Rules : list AutoApproveRule;
  Mode : string;
}.

(** [json.Unmarshal] of the rules column. *)
Class RulesCodec := unmarshal_rules : string -> res AutoApproveRules.

Record AutoApproveInput := {
  Version : string;
  GPGVerified : bool;
  ExistingVersions : list string;
  VersionAge : Z;
}.

Definition VersionApprovalStatusPending := "pending_approval".
Definition VersionApprovalStatusApproved := "approved".
Definition VersionApprovalStatusRejected := "rejected".

(** [time.Hour] in nanoseconds *)
Definition time_Hour : Z := 3600 * 10^9.

Section Evaluator.
Context `{GoVersion}.

(** The loop that keeps the greatest parsed version other than the candidate. *)
Fixpoint highest_other (cand : gover) (highest : option gover) (existing : list string)
  : option gover :=
  match existing with
  | [] => highest
  | e :: es =>
      match NewVersion e with
      | None => highest_other cand highest es
      | Some ev =>
          if VEqual ev cand then highest_other cand highest es
          else
            match highest with
            | None => highest_other cand (Some ev) es
            | Some h => highest_other cand (Some (if GreaterThan ev h then ev else h)) es
            end
      end
  end.

Definition isPatchBump (version : string) (existing : list string) : bool :=
  match NewVersion version with
  | None => false
  | Some cand =>
      match highest_other cand None existing with
      | None => false
      | Some h =>
          (nth 0 (Segments cand) 0 =? nth 0 (Segments h) 0) &&
          (nth 1 (Segments cand) 0 =? nth 1 (Segments h) 0) &&
          GreaterThan cand h
      end
  end.

Definition matchesConstraint (version constraint : string) : bool :=
  if String.eqb constraint "" then false
  else
    match NewVersion version with
    | None => false
    | Some v =>
        match NewConstraint constraint with
        | None => false
        | Some c => CheckConstraint c v
        end
    end.

Definition evalRule (r : AutoApproveRule) (i : AutoApproveInput) : bool :=
  if String.eqb (Type_ r) "gpg_verified" then GPGVerified i
  else if String.eqb (Type_ r) "patch_only" then isPatchBump (Version i) (ExistingVersions i)
  else if String.eqb (Type_ r) "semver_constraint" then
    matchesConstraint (Version i) (Constraint r)
  else if String.eqb (Type_ r) "delay_hours" then
    match Hours r with
    | None => false
    | Some h => if h <=? 0 then false else wrap64 (h * time_Hour) <=? VersionAge i
    end
  else false.

Fixpoint rules_loop (mode : string) (rs : list AutoApproveRule) (i : AutoApproveInput)
  : bool * string :=
  match rs with
  | [] => if String.eqb mode "all" then (true, "all") else (false, "")
  | r :: rs' =>
      let ok := evalRule r i in
      if String.eqb mode "all"
      then if negb ok then (false, "") else rules_loop mode rs' i
      else if ok then (true, Type_ r) else rules_loop mode rs' i
  end.

Definition EvaluateAutoApprove (rules : option AutoApproveRules) (i : AutoApproveInput)
  : bool * string :=
  match rules with
  | None => (false, "")
  | Some rl =>
      match Rules rl with
      | [] => (false, "")
      | _ =>
          let mode := if String.eqb (Mode rl) "" then "any" else Mode rl in
          rules_loop mode (Rules rl) i
      end
  end.
End Evaluator.

Section Gate.
Context `{GoVersion} `{RulesCodec}.

Definition ParseAutoApproveRules (raw : option string) : res (option AutoApproveRules) :=
  match raw with
  | None => Ok None
  | Some s =>
      if String.eqb s "" || String.eqb s "null" then Ok None
      else match unmarshal_rules s with
           | Err e => Err e
           | Ok rules => Ok (Some rules)
           end
  end.

(** The listing of the versions already mirrored is a repository call. *)
Context {W : Type} (list_versions : prog W (res (list string))).

Definition resolveProviderApproval (RequiresApproval : bool) (rules_column : option string)
  (version : string) (gpgVerified : bool) : prog W (option string * string) :=
  if negb RequiresApproval then ret (None, "")
  else
    match ParseAutoApproveRules rules_column with
    | Err _ => ret (Some VersionApprovalStatusPending, "")
    | Ok None => ret (Some VersionApprovalStatusPending, "")
    | Ok (Some rules) =>
        let! l := list_versions in
        let existing := match l with Ok vs => vs | Err _ => [] end in
        let '(matched, rule) := EvaluateAutoApprove (Some rules)
          {| Version := version; GPGVerified := gpgVerified;
             ExistingVersions := existing; VersionAge := 0 |} in
        if matched then ret (Some VersionApprovalStatusApproved, rule)
        else ret (Some VersionApprovalStatusPending, "")
    end.

Definition resolveTerraformApproval (RequiresApproval : bool) (rules_column : option string)
  (version : string) : prog W (option string) :=
  if negb RequiresApproval then ret None
  else
    match ParseAutoApproveRules rules_column with
    | Err _ => ret (Some VersionApprovalStatusPending)
    | Ok None => ret (Some VersionApprovalStatusPending)
    | Ok (Some rules) =>
        let! l := list_versions in
        let existing := match l with Ok vs => vs | Err _ => [] end in
        let '(matched, _) := EvaluateAutoApprove (Some rules)
          {| Version := version; GPGVerified := false;
             ExistingVersions := existing; VersionAge := 0 |} in
        if matched then ret (Some VersionApprovalStatusApproved)
        else ret (Some VersionApprovalStatusPending)
    end.

Definition resolveScannerApproval (RequiresApproval : bool) (rules_setting : string)
  (version : string) (signatureVerified : bool) (existing : list string)
  : option string * string :=
  if negb RequiresApproval then (Some VersionApprovalStatusApproved, "")
  else
    match ParseAutoApproveRules (Some rules_setting) with
    | Err _ => (Some VersionApprovalStatusPending, "")
    | Ok None => (Some VersionApprovalStatusPending, "")
    | Ok (Some rules) =>
        let '(matched, rule) := EvaluateAutoApprove (Some rules)
          {| Version := version; GPGVerified := signatureVerified;
             ExistingVersions := existing; VersionAge := 0 |} in
        if matched then (Some VersionApprovalStatusApproved, rule)
        else (Some VersionApprovalStatusPending, "")
    end.
End Gate.

(** ** A concrete [GoVersion]: releases compared by their three numbers *)

Record triple := Triple { t0 : Z; t1 : Z; t2 : Z }.
Definition triple_list (t : triple) : list Z := [t0 t; t1 t; t2 t].
Definition triple_of (s : string) : triple :=
  match Mirror.parseSemverParts s with
  | [x; y; z] => Triple x y z
  | _ => Triple 0 0 0
  end.
Definition triple_cmp (a b : triple) : Z := compare_parts (triple_list a) (triple_list b).

Definition release_version : GoVersion := {|
  gover := triple;
  gocon := cmp_op * triple;
  NewVersion s := if String.eqb s "" then None else Some (triple_of s);
  Segments := triple_list;
  GreaterThan a b := 0 <? triple_cmp a b;
  VEqual a b := triple_cmp a b =? 0;
  NewConstraint s :=
    match split_op s with
    | Some (op, t) => Some (op, triple_of (trim_space t))
    | None => None
    end;
  CheckConstraint c v := op_holds (fst c) (triple_cmp v (snd c));
|}.

Lemma release_version_laws : @GoVersionLaws release_version.
Proof.
  split.
  - exact (keyed_strict_weak triple_list 3 (fun _ => eq_refl)).
  - intros a b.
    change (VEqual a b) with (triple_cmp a b =? 0).
    change (GreaterThan a b) with (0 <? triple_cmp a b).
    change (GreaterThan b a) with (0 <? triple_cmp b a).
    unfold triple_cmp. rewrite (compare_parts_antisym (triple_list a) (triple_list b)).
    destruct (compare_parts_range (triple_list a) (triple_list b)) as [->|[->| ->]]; done.
Qed.

(** ** Lemmas *)

Section Lemmas.
Context `{GoVersion}.

Lemma rules_loop_all rs i :
  rules_loop "all" rs i =
  if List.forallb (fun r => evalRule r i) rs then (true, "all") else (false, "").
Proof.
  induction rs as [|r rs IH]; cbn [rules_loop List.forallb String.eqb]; [done|].
  rewrite IH. by destruct (evalRule r i).
Qed.

Lemma rules_loop_any mode rs i :
  mode <> "all" ->
  rules_loop mode rs i =
  match List.find (fun r => evalRule r i) rs with
  | Some r => (true, Type_ r)
  | None => (false, "")
  end.
Proof.
  intros Hm. assert (E : String.eqb mode "all" = false) by by apply String.eqb_neq.
  induction rs as [|r rs IH]; cbn [rules_loop List.find]; rewrite E; [done|].
  destruct (evalRule r i); [done | exact IH].
Qed.

(** [h] is a greatest element of the parsed versions other than the
    candidate. *)
Definition other_version (cand : gover) (existing : list string) (ev : gover) : Prop :=
  exists e, In e existing /\ NewVersion e = Some ev /\ VEqual ev cand = false.

Definition greatest (P : gover -> Prop) (h : gover) : Prop :=
  P h /\ forall x, P x -> GreaterThan x h = false.

Lemma other_version_cons cand e es ev :
  other_version cand (e :: es) ev <->
  (NewVersion e = Some ev /\ VEqual ev cand = false) \/ other_version cand es ev.
Proof.
  unfold other_version. split.
  - intros (x & [<-|Hin] & H1 & H2); [by left | right; by exists x].
  - intros [[H1 H2]|(x & Hin & H1 & H2)]; [exists e | exists x]; repeat split; try done;
      [by left | by right].
Qed.

Lemma greatest_ext P Q h : (forall x, P x <-> Q x) -> greatest P h -> greatest Q h.
Proof. intros E [H1 H2]. split; [by apply E | intros x Hx; by apply H2, E]. Qed.

Lemma gt_irrefl `{!GoVersionLaws} a : GreaterThan a a = false.
Proof. destruct (GreaterThan a a) eqn:E; [|done]. by rewrite (sw_asym _ _ E) in E. Qed.

(** Keeping the greater of two candidates for the maximum loses nothing. *)
Lemma greatest_step `{!GoVersionLaws} (P : gover -> Prop) ev h0 h :
  greatest (fun x => x = (if GreaterThan ev h0 then ev else h0) \/ P x) h ->
  greatest (fun x => x = h0 \/ (x = ev \/ P x)) h.
Proof.
  intros [H1 H2]. split; [destruct (GreaterThan ev h0); tauto|].
  pose proof (H2 _ (or_introl eq_refl)) as Hm.
  intros x [->|[->|Hx]]; [| |by apply H2; right];
    destruct (GreaterThan ev h0) eqn:E; try done;
    eapply (sw_trans (less := GreaterThan)); try exact Hm; [by apply sw_asym | exact E].
Qed.

Lemma highest_other_spec `{!GoVersionLaws} cand existing h0 :
  match highest_other cand h0 existing with
  | None => h0 = None /\ forall ev, ~ other_version cand existing ev
  | Some h => greatest (fun x => h0 = Some x \/ other_version cand existing x) h
  end.
Proof.
  revert h0. induction existing as [|e es IH]; intros h0; cbn [highest_other].
  - destruct h0 as [h|]; [|split; [done | by intros ev (? & [] & _)]].
    split; [by left|]. intros x [[=->]|(? & [] & _)]. apply gt_irrefl.
  - assert (Hskip : (forall ev, ~ (NewVersion e = Some ev /\ VEqual ev cand = false)) ->
      match highest_other cand h0 es with
      | None => h0 = None /\ forall ev, ~ other_version cand (e :: es) ev
      | Some h => greatest (fun x => h0 = Some x \/ other_version cand (e :: es) x) h
      end).
    { intros Hno. specialize (IH h0). destruct (highest_other cand h0 es).
      - eapply greatest_ext; [|exact IH]. intros x. rewrite other_version_cons.
        specialize (Hno x). tauto.
      - destruct IH as [-> IH]. split; [done|]. intros ev.
        rewrite other_version_cons. specialize (Hno ev). specialize (IH ev). tauto. }
    destruct (NewVersion e) as [ev|] eqn:Ee; [|apply Hskip; by intros ? []].
    destruct (VEqual ev cand) eqn:Eq; [apply Hskip; intros ? [[=->] ?]; congruence|].
    clear Hskip. destruct h0 as [h0|].
    + specialize (IH (Some (if GreaterThan ev h0 then ev else h0))).
      destruct (highest_other cand _ es) as [h|]; [|by destruct IH].
      eapply greatest_ext; [|apply (greatest_step (other_version cand es) ev h0)].
      * intros x. rewrite other_version_cons, Ee.
        split; [intros [->|[->|?]] | intros [[=->]|[[[=->] _]|?]]]; tauto.
      * eapply greatest_ext; [|exact IH]. intros x. cbn.
        split; [intros [[=->]|?] | intros [->|?]]; tauto.
    + specialize (IH (Some ev)).
      destruct (highest_other cand _ es) as [h|]; [|by destruct IH].
      eapply greatest_ext; [|exact IH]. intros x. rewrite other_version_cons, Ee.
      split; [intros [[=->]|?] | intros [[=]|[[[=->] _]|?]]]; tauto.
Qed.
End Lemmas.

(** ** Properties *)

(** the decision of the evaluator.  Mode [all] approves exactly when there
    is a rule and every rule holds, and reports [all]; any other mode approves
    exactly when some rule holds, and reports the type of the first one that
    does; no rules approve nothing. *)
Theorem auto_approve_decision `{GoVersion} (rules : option AutoApproveRules) (i : AutoApproveInput) :
  EvaluateAutoApprove rules i =
  match rules with
  | None => (false, "")
  | Some rl =>
      if decide (Rules rl = []) then (false, "")
      else if String.eqb (Mode rl) "all" then
        if List.forallb (fun r => evalRule r i) (Rules rl) then (true, "all") else (false, "")
      else
        match List.find (fun r => evalRule r i) (Rules rl) with
        | Some r => (true, Type_ r)
        | None => (false, "")
        end
  end.
Proof.
  destruct rules as [[rs mode]|]; [|done]. cbn. destruct rs as [|r rs]; [done|].
  destruct (decide (_ = _)) as [|_]; [done|]. cbn [Mode].
  destruct (String.eqb_spec mode "") as [->|_].
  - cbn [String.eqb]. by apply rules_loop_any.
  - destruct (String.eqb_spec mode "all") as [->|Hne].
    + apply rules_loop_all.
    + by apply rules_loop_any.
Qed.

(** [patch_only] never approves a downgrade or a new line.  When it holds,
    the candidate is strictly greater than every other parseable mirrored
    version, and shares major and minor with the greatest of them. *)
Theorem patch_bump_is_newest `{GoVersion} `{!GoVersionLaws}
  (version : string) (existing : list string) :
  isPatchBump version existing = true ->
  exists cand h,
    NewVersion version = Some cand /\
    greatest (other_version cand existing) h /\
    nth 0 (Segments cand) 0 = nth 0 (Segments h) 0 /\
    nth 1 (Segments cand) 0 = nth 1 (Segments h) 0 /\
    forall x, other_version cand existing x -> GreaterThan cand x = true.
Proof.
  unfold isPatchBump. destruct (NewVersion version) as [cand|]; [|done].
  pose proof (highest_other_spec cand existing None) as Hh.
  destruct (highest_other cand None existing) as [h|]; [|done].
  intros Hb. bools. apply Z.eqb_eq in H1, H3.
  assert (Hg : greatest (other_version cand existing) h).
  { eapply greatest_ext; [|exact Hh]. intros x. split; [by intros [|] | by right]. }
  exists cand, h. repeat split; try done; try apply Hg.
  intros x Hx. destruct Hg as [_ Hmax]. specialize (Hmax x Hx).
  destruct (GreaterThan cand x) eqn:E; [done|].
  rewrite (sw_trans (less := GreaterThan) h x cand) in H2; done.
Qed.

Theorem patch_bump_is_newest_witness :
  exists cand h : @gover release_version,
    @greatest release_version (@other_version release_version cand ["5.30.0"; "5.31.0"; "4.0.9"]) h /\
    nth 1 (@Segments release_version h) 0 = 31.
Proof.
  destruct (@patch_bump_is_newest release_version release_version_laws "5.31.1"
              ["5.30.0"; "5.31.0"; "4.0.9"]) as (cand & h & Hc & Hg & _ & Hm & _);
    [vm_compute; reflexivity|].
  exists cand, h. split; [exact Hg|].
  rewrite <- Hm. vm_compute in Hc. injection Hc as <-. vm_compute. reflexivity.
Defined.

(** The highest mirrored version decides, whatever its line: a patch of an
    older line is never a patch bump once a newer line is mirrored, although it
    is one against its own line alone. *)
Theorem patch_bump_ignores_older_lines :
  @isPatchBump release_version "5.31.1" ["5.31.0"] = true /\
  @isPatchBump release_version "5.31.1" ["5.31.0"; "6.0.0"] = false.
Proof. split; vm_compute; reflexivity. Qed.

(** [delay_hours] as every caller evaluates it, at age 0: up to 2562047
    hours it never holds; from 2562048 hours on, as far as the product wraps
    below zero, it holds at once, before any delay. *)
Theorem delay_rule_at_sync `{GoVersion} (r : AutoApproveRule) (i : AutoApproveInput) (h : Z) :
  Type_ r = "delay_hours" -> Hours r = Some h -> VersionAge i = 0 ->
  (h <= 2562047 -> evalRule r i = false) /\
  (2562048 <= h <= 5124095 -> evalRule r i = true).
Proof.
  intros Ht Hh Ha. unfold evalRule. rewrite Ht, Hh, Ha. cbn [String.eqb Ascii.eqb Bool.eqb].
  unfold time_Hour, wrap64. split; intros Hb; destruct (Z.leb_spec h 0); try done; try lia.
  - apply Z.leb_gt. rewrite Z.mod_small; lia.
  - apply Z.leb_le.
    replace (h * (3600 * 10 ^ 9) + 2 ^ 63) with ((h * (3600 * 10 ^ 9) - 2 ^ 63) + 1 * 2 ^ 64) by lia.
    rewrite Z.mod_add, Z.mod_small; lia.
Qed.

Theorem delay_rule_at_sync_witness :
  @evalRule release_version {| Type_ := "delay_hours"; Hours := Some 2562048; Constraint := "" |}
    {| Version := "1.0.0"; GPGVerified := false; ExistingVersions := []; VersionAge := 0 |} = true.
Proof.
  refine (proj2 (@delay_rule_at_sync release_version
    {| Type_ := "delay_hours"; Hours := Some 2562048; Constraint := "" |}
    {| Version := "1.0.0"; GPGVerified := false; ExistingVersions := []; VersionAge := 0 |}
    2562048 _ _ _) _); reflexivity || lia.
Defined.

Section GateTheorems.
Context `{GoVersion} `{RulesCodec} {W : Type} (list_versions : prog W (res (list string))).

(** What the listing yields to the evaluator. *)
Definition listed (w : W) : list string :=
  match fst (list_versions w) with Ok vs => vs | Err _ => [] end.

Definition at_sync (version : string) (gpg : bool) (existing : list string) : AutoApproveInput :=
  {| Version := version; GPGVerified := gpg; ExistingVersions := existing; VersionAge := 0 |}.

(** the approval gate fails closed.  An ungated mirror stores no status; a
    gated one stores [approved] only when its rules decode and the evaluator
    matches at age 0, the binary mirror never counting the signature; every
    other case, undecodable rules included, stores [pending_approval]. *)
Theorem approval_gate_fails_closed (gated : bool) (column : option string)
  (version : string) (gpg : bool) (w : W) :
  let provider := fst (fst (resolveProviderApproval list_versions gated column version gpg w)) in
  let terraform := fst (resolveTerraformApproval list_versions gated column version w) in
  (provider = None <-> gated = false) /\
  (terraform = None <-> gated = false) /\
  (provider = Some VersionApprovalStatusApproved <->
     gated = true /\ exists rules, ParseAutoApproveRules column = Ok (Some rules) /\
       fst (EvaluateAutoApprove (Some rules) (at_sync version gpg (listed w))) = true) /\
  (terraform = Some VersionApprovalStatusApproved <->
     gated = true /\ exists rules, ParseAutoApproveRules column = Ok (Some rules) /\
       fst (EvaluateAutoApprove (Some rules) (at_sync version false (listed w))) = true) /\
  (gated = true -> provider <> Some VersionApprovalStatusApproved ->
     provider = Some VersionApprovalStatusPending) /\
  (gated = true -> terraform <> Some VersionApprovalStatusApproved ->
     terraform = Some VersionApprovalStatusPending).
Proof.
  unfold resolveProviderApproval, resolveTerraformApproval, listed, at_sync.
  destruct gated; [|cbn; naive_solver].
  destruct (ParseAutoApproveRules column) as [[rules|]|e];
    cbn -[EvaluateAutoApprove]; [|naive_solver..].
  unfold bind. destruct (list_versions w) as [l w']; cbn -[EvaluateAutoApprove].
  assert (Hinj : forall e, (exists r, Ok (A:=option AutoApproveRules) (Some rules) = Ok (Some r) /\
      fst (EvaluateAutoApprove (Some r) e) = true) <-> fst (EvaluateAutoApprove (Some rules) e) = true).
  { intros e. split; [by intros (r & [=->] & ?) | by exists rules]. }
  rewrite !Hinj. clear Hinj.
  repeat match goal with
    | |- context [EvaluateAutoApprove ?r ?i] => destruct (EvaluateAutoApprove r i) as [[] ?]
    end; cbn; naive_solver.
Qed.
End GateTheorems.
