(* ===== verification/Regexp.v ===== *)
(** * Anchored regular expressions

    The patterns the repository compiles with Go's [regexp] are anchored at both
    ends and built from character classes repeated greedily or lazily, literals,
    optional and alternative literals, and numbered groups without nesting.
    [find_submatch] is [FindStringSubmatch] on such a pattern, with the package's
    leftmost-first semantics: of all ways to match, the one a backtracking search
    finds first. *)

From S2P Require Import Prelude GoStrings.

Inductive item :=
| One (p : ascii -> bool)                     (** one character of a class *)
| Rep (greedy : bool) (p : ascii -> bool)     (** [p*] or [p*?] *)
| Lit (l : string)
| Opt (l : string)                            (** [(?:l)?] *)
| Alts (ls : list string)                     (** [(?:l1|l2|...)] *)
| Open
| Close.

(** [p+] and [p+?] *)
Definition re_plus (greedy : bool) (p : ascii -> bool) : list item := [One p; Rep greedy p].

Definition group (r : list item) : list item := Open :: r ++ [Close].

Definition orelse {A} (a b : option A) : option A :=
  match a with Some _ => a | None => b end.

(** The part of [start] before its suffix [s]. *)
Definition before (start s : string) : string :=
  stake (String.length start - String.length s) start.

(** [cap] is where the open group began; the result lists the groups' texts. *)
Fixpoint run_re (r : list item) (cap : string) (s : string) : option (list string) :=
  match r with
  | [] => match s with EmptyString => Some [] | _ => None end
  | One p :: r' =>
      match s with
      | String c s' => if p c then run_re r' cap s' else None
      | EmptyString => None
      end
  | Rep greedy p :: r' =>
      (fix rep (s : string) : option (list string) :=
         let stop := run_re r' cap s in
         match s with
         | String c s' =>
             if p c
             then if greedy then orelse (rep s') stop else orelse stop (rep s')
             else stop
         | EmptyString => stop
         end) s
  | Lit l :: r' => if has_prefix s l then run_re r' cap (trim_prefix s l) else None
  | Opt l :: r' =>
      if has_prefix s l then orelse (run_re r' cap (trim_prefix s l)) (run_re r' cap s)
      else run_re r' cap s
  | Alts ls :: r' =>
      (fix alts (ls : list string) : option (list string) :=
         match ls with
         | [] => None
         | l :: ls' =>
             orelse (if has_prefix s l then run_re r' cap (trim_prefix s l) else None) (alts ls')
         end) ls
  | Open :: r' => run_re r' s s
  | Close :: r' => (fun caps => before cap s :: caps) <$> run_re r' cap s
  end.

(** The submatches [m[1], m[2], ...], [None] when there is no match. *)
Definition find_submatch (r : list item) (s : string) : option (list string) := run_re r "" s.

(** ** Character classes *)

Definition code (c : ascii) : nat := nat_of_ascii c.
Definition in_range (lo hi : ascii) (c : ascii) : bool :=
  (code lo <=? code c)%nat && (code c <=? code hi)%nat.
Definition dot (c : ascii) : bool := negb (code c =? 10)%nat.
Definition re_digit : ascii -> bool := in_range "0" "9".
Definition re_lower : ascii -> bool := in_range "a" "z".
(** [\s]: tab, newline, form feed, carriage return, space *)
Definition re_space (c : ascii) : bool :=
  let n := code c in
  (n =? 9)%nat || (n =? 10)%nat || (n =? 12)%nat || (n =? 13)%nat || (n =? 32)%nat.

(** ** What a match says

    [denotes r s]: [s] belongs to the language of [r], groups forgotten. *)
Inductive denotes : list item -> string -> Prop :=
| den_nil : denotes [] ""
| den_one p c r s : p c = true -> denotes r s -> denotes (One p :: r) (String c s)
| den_stop greedy p r s : denotes r s -> denotes (Rep greedy p :: r) s
| den_more greedy p c r s :
    p c = true -> denotes (Rep greedy p :: r) s -> denotes (Rep greedy p :: r) (String c s)
| den_lit l r s : denotes r s -> denotes (Lit l :: r) (l +:+ s)
| den_opt l r s : denotes r s -> denotes (Opt l :: r) (l +:+ s)
| den_skip l r s : denotes r s -> denotes (Opt l :: r) s
| den_alt l ls r s : In l ls -> denotes r s -> denotes (Alts ls :: r) (l +:+ s)
| den_open r s : denotes r s -> denotes (Open :: r) s
| den_close r s : denotes r s -> denotes (Close :: r) s.

Lemma orelse_is {A} (a b : option A) :
  is_Some (orelse a b) <-> is_Some a \/ is_Some b.
Proof. destruct a; cbn; split; intros Q; try naive_solver; by left. Qed.

Lemma has_prefix_split s l : has_prefix s l = true -> s = l +:+ trim_prefix s l.
Proof. intros [t ->]%has_prefix_iff. by rewrite trim_prefix_app. Qed.

Lemma has_prefix_app l s : has_prefix (l +:+ s) l = true.
Proof. apply has_prefix_iff. by exists s. Qed.

Lemma run_re_denotes r : forall cap s, is_Some (run_re r cap s) <-> denotes r s.
Proof.
  induction r as [|i r IH]; intros cap s.
  { destruct s; cbn; split; intros Q; solve [apply den_nil | by eexists | by destruct Q | inversion Q]. }
  destruct i as [p|greedy p|l|l|ls| |]; cbn [run_re].
  - destruct s as [|c s]; [split; [by intros [] | by intros Q; inversion Q]|].
    destruct (p c) eqn:E; split.
    + intros Q. apply den_one; [done | by apply (IH cap)].
    + intros Q. inversion Q; subst. by apply IH.
    + by intros [].
    + intros Q. inversion Q; subst. congruence.
  - induction s as [|c s IHs]; cbn.
    + rewrite IH. split; [by apply den_stop | by intros Q; inversion Q; subst].
    + destruct (p c) eqn:E.
      * assert (Hor : is_Some ((fix rep (s0 : string) : option (list string) :=
            let stop := run_re r cap s0 in
            match s0 with
            | "" => stop
            | String c s' => if p c
                then if greedy then orelse (rep s') stop else orelse stop (rep s')
                else stop
            end) s) \/ is_Some (run_re r cap (String c s)) <-> denotes (Rep greedy p :: r) (String c s)).
        { rewrite IHs, IH. split.
          - intros [Q|Q]; [by apply den_more | by apply den_stop].
          - intros Q. inversion Q; subst; [by right | by left]. }
        rewrite <- Hor. destruct greedy; rewrite orelse_is; tauto.
      * rewrite IH. split; [by apply den_stop|].
        intros Q. inversion Q; subst; [done | congruence].
  - destruct (has_prefix s l) eqn:E.
    + rewrite IH. split.
      * intros Q. rewrite (has_prefix_split _ _ E). by apply den_lit.
      * intros Q. inversion Q; subst. by rewrite trim_prefix_app.
    + split; [by intros []|]. intros Q. inversion Q; subst. by rewrite has_prefix_app in E.
  - destruct (has_prefix s l) eqn:E.
    + rewrite orelse_is, !IH. split.
      * intros [Q|Q]; [|by apply den_skip].
        rewrite (has_prefix_split _ _ E). by apply den_opt.
      * intros Q. inversion Q; subst; [left; by rewrite trim_prefix_app | by right].
    + rewrite IH. split; [by apply den_skip|].
      intros Q. inversion Q; subst; [by rewrite has_prefix_app in E | done].
  - induction ls as [|l ls IHls]; [split; [by intros [] | by intros Q; inversion Q]|].
    rewrite orelse_is, IHls. split.
    + intros [Q|Q].
      * destruct (has_prefix s l) eqn:E; [|by destruct Q].
        rewrite (has_prefix_split _ _ E). apply den_alt; [by left | by eapply IH].
      * inversion Q; subst. apply den_alt; [by right | done].
    + intros Q. inversion Q as [| | | | | | |l' ls' r' s' Hin Hd| |]; subst.
      destruct Hin as [->|Hin]; [left | right; by apply den_alt].
      rewrite has_prefix_app, trim_prefix_app. by apply IH.
  - rewrite IH. split; [by apply den_open | by intros Q; inversion Q; subst].
  - rewrite fmap_is_Some, IH. split; [by apply den_close | by intros Q; inversion Q; subst].
Qed.

(** A pattern matches a text exactly when the text is in its language. *)
Lemma find_submatch_denotes r s : is_Some (find_submatch r s) <-> denotes r s.
Proof. apply run_re_denotes. Qed.

Lemma find_submatch_some r s m : find_submatch r s = Some m -> denotes r s.
Proof. intros Q. apply find_submatch_denotes. by rewrite Q. Qed.

(** ** What a group captures *)

Fixpoint every (p : ascii -> bool) (s : string) : bool :=
  match s with EmptyString => true | String c s' => p c && every p s' end.

Lemma stake_app x t : stake (String.length x) (x +:+ t) = x.
Proof.
  induction x as [|c x IH]; [by destruct t|]. rewrite append_cons. cbn. by rewrite IH.
Qed.

Lemma before_app x t : before (x +:+ t) t = x.
Proof.
  unfold before. rewrite length_append_s.
  replace (String.length x + String.length t - String.length t)%nat
    with (String.length x) by lia. apply stake_app.
Qed.

Lemma rep_close greedy p r cap s m :
  run_re (Rep greedy p :: Close :: r) cap s = Some m ->
  exists x t m', s = x +:+ t /\ every p x = true /\ m = before cap t :: m' /\
                 run_re r cap t = Some m'.
Proof.
  revert m. induction s as [|c s IH]; intros m.
  - cbn. destruct (run_re r cap "") as [m'|] eqn:E; [|done]. intros [= <-].
    by exists "", "", m'.
  - assert (Hstop : run_re (Close :: r) cap (String c s) = Some m ->
      exists x t m', String c s = x +:+ t /\ every p x = true /\ m = before cap t :: m' /\
                     run_re r cap t = Some m').
    { cbn [run_re]. destruct (run_re r cap (String c s)) as [m'|] eqn:E; [|done].
      intros [= <-]. by exists "", (String c s), m'. }
    cbn [run_re] in *. destruct (p c) eqn:Ep; [|exact Hstop].
    assert (Hmore : (fix rep (s0 : string) : option (list string) :=
         let stop := (fun caps => before cap s0 :: caps) <$> run_re r cap s0 in
         match s0 with
         | "" => stop
         | String c s' => if p c
             then if greedy then orelse (rep s') stop else orelse stop (rep s')
             else stop
         end) s = Some m ->
      exists x t m', String c s = x +:+ t /\ every p x = true /\ m = before cap t :: m' /\
                     run_re r cap t = Some m').
    { intros Q. destruct (IH _ Q) as (x & t & m' & -> & Hx & Hm & Hr).
      exists (String c x), t, m'. rewrite append_cons. cbn. by rewrite Ep. }
    unfold orelse. destruct greedy.
    + destruct (_ s) eqn:E; [|exact Hstop]. intros [= ->]. by apply Hmore.
    + destruct (run_re r cap (String c s)) eqn:E; [exact Hstop | exact Hmore].
Qed.

(** A group of repeated characters captures a non-empty part of the text, all of
    it in the class, and the rest of the pattern matches what follows. *)
Lemma group_captures greedy p r cap s m :
  run_re (group (re_plus greedy p) ++ r) cap s = Some m ->
  exists x t m', s = x +:+ t /\ x <> "" /\ every p x = true /\ m = x :: m' /\
                 run_re r s t = Some m'.
Proof.
  unfold group, re_plus. cbn [app]. cbn [run_re].
  destruct s as [|c s]; [done|]. destruct (p c) eqn:Ep; [|done]. intros Q.
  destruct (rep_close greedy p r (String c s) s m Q) as (x & t & m' & -> & Hx & -> & Hr).
  rewrite <- append_cons in *. exists (String c x), t, m'. rewrite before_app.
  repeat split; [done | cbn [every]; by rewrite Ep, Hx | done].
Qed.

Lemma lit_captures l r cap s m :
  run_re (Lit l :: r) cap s = Some m ->
  exists t, s = l +:+ t /\ run_re r cap t = Some m.
Proof.
  cbn [run_re]. destruct (has_prefix s l) eqn:E; [|done].
  intros Q. exists (trim_prefix s l). split; [by apply has_prefix_split | done].
Qed.

Lemma denotes_group greedy p r x s :
  x <> "" -> every p x = true -> denotes r s ->
  denotes (group (re_plus greedy p) ++ r) (x +:+ s).
Proof.
  intros Hx Ha Hr. unfold group, re_plus. cbn [app]. apply den_open.
  destruct x as [|c x]; [done|]. cbn in Ha. bools. rewrite append_cons. apply den_one; [done|].
  clear Hx H. induction x as [|d x IH].
  - rewrite append_nil_l. by apply den_stop, den_close.
  - cbn in H0. bools. rewrite append_cons. apply den_more; [done | by apply IH].
Qed.

(** Splitting at the last occurrence of a character is unique. *)
Lemma last_split_unique (c : ascii) x y x' y' :
  every (fun d => negb (Ascii.eqb d c)) y = true ->
  every (fun d => negb (Ascii.eqb d c)) y' = true ->
  x +:+ String c y = x' +:+ String c y' -> x = x' /\ y = y'.
Proof.
  assert (Habs : forall u v, every (fun d => negb (Ascii.eqb d c)) (u +:+ String c v) = true -> False).
  { intros u v. induction u as [|d u IH]; cbn [every].
    - rewrite append_nil_l. cbn. by rewrite Ascii.eqb_refl.
    - rewrite append_cons. cbn. intros Q. bools. by apply IH. }
  intros Hy Hy'. revert x'. induction x as [|d x IH]; intros [|d' x'];
    rewrite ?append_nil_l, ?append_cons; intros Q; injection Q; intros; subst.
  - done.
  - destruct (Habs _ _ Hy).
  - destruct (Habs _ _ Hy').
  - by destruct (IH x') as [-> ->].
Qed.
