(* ===== verification/Filepath.v ===== *)
(** * Go's [path/filepath] on Unix

    The functions the storage backend and the archive code call.  A path is
    cleaned segment by segment: empty segments and [.] are dropped, [..] removes
    the segment before it, stays at the front of a relative path and disappears at
    the root. *)

From S2P Require Import Prelude GoStrings.

(** ** Functions *)

(** One segment onto the reversed cleaned segments. *)
Definition clean_step (rooted : bool) (acc : list string) (seg : string) : list string :=
  if String.eqb seg "" || String.eqb seg "." then acc
  else if String.eqb seg ".." then
    match acc with
    | [] => if rooted then [] else [".."]
    | x :: acc' => if String.eqb x ".." then ".." :: acc else acc'
    end
  else seg :: acc.

Definition IsAbs (path : string) : bool := has_prefix path "/".

(** The segments of the cleaned path. *)
Definition segs (path : string) : list string :=
  rev (fold_left (clean_step (IsAbs path)) (split_on "/" path) []).

Fixpoint join_segs (l : list string) : string :=
  match l with
  | [] => ""
  | [s] => s
  | s :: l' => s +:+ "/" +:+ join_segs l'
  end.

(** The cleaned path with the given segments. *)
Definition render (rooted : bool) (l : list string) : string :=
  match l with
  | [] => if rooted then "/" else "."
  | _ => (if rooted then "/" else "") +:+ join_segs l
  end.

Definition Clean (path : string) : string :=
  if String.eqb path "" then "." else render (IsAbs path) (segs path).

(** [filepath.Join(a, b)] *)
Definition Join (a b : string) : string :=
  if String.eqb a "" then (if String.eqb b "" then "" else Clean b)
  else Clean (a +:+ "/" +:+ b).

(** Up to and including the last slash. *)
Fixpoint upto_slash (s : string) : string :=
  match s with
  | EmptyString => EmptyString
  | String c s' =>
      match upto_slash s' with
      | EmptyString => if Ascii.eqb c "/" then String c "" else EmptyString
      | t => String c t
      end
  end.

Definition Dir (path : string) : string := Clean (upto_slash path).

(** The parts of two lists after their common prefix. *)
Fixpoint after_common (a b : list string) : list string * list string :=
  match a, b with
  | x :: a', y :: b' => if String.eqb x y then after_common a' b' else (a, b)
  | _, _ => (a, b)
  end.

Definition Rel (basepath targpath : string) : res string :=
  if String.eqb (Clean targpath) (Clean basepath) then Ok "."
  else if negb (Bool.eqb (IsAbs basepath) (IsAbs targpath)) then Err (ErrMsg "Rel: can't make relative")
  else
    let '(rb, rt) := after_common (segs basepath) (segs targpath) in
    if match rb with x :: _ => String.eqb x ".." | [] => false end
    then Err (ErrMsg "Rel: can't make relative")
    else Ok (join_segs (map (fun _ => "..") rb ++ rt)).

Example clean_1 : Clean "a//b/../c/./" = "a/c". Proof. reflexivity. Qed.
Example clean_2 : Clean "/../../x" = "/x". Proof. reflexivity. Qed.
Example clean_3 : Clean "../a/../../b" = "../../b". Proof. reflexivity. Qed.
Example dir_1 : Dir "./storage/a" = "storage". Proof. reflexivity. Qed.
Example rel_1 : Rel "/a/b" "/a/c/d" = Ok "../c/d". Proof. reflexivity. Qed.

(** ** Cleaned segments *)

Fixpoint no_slash (s : string) : bool :=
  match s with EmptyString => true | String c s' => negb (Ascii.eqb c "/") && no_slash s' end.

(** A segment a cleaned path consists of, parent references apart. *)
Definition proper (s : string) : Prop :=
  s <> "" /\ s <> "." /\ s <> ".." /\ no_slash s = true.

Lemma split_on_cons c s : exists w ws, split_on c s = w :: ws.
Proof.
  destruct (split_on c s) as [|w ws] eqn:E; [|by exists w, ws].
  exfalso. destruct s as [|d s]; [done|]. cbn in E. destruct (Ascii.eqb d c); [done|].
  by destruct (split_on c s).
Qed.

Lemma split_no_slash s : Forall (fun w => no_slash w = true) (split_on "/" s).
Proof.
  induction s as [|c s IH]; [by repeat constructor|]. cbn [split_on].
  destruct (Ascii.eqb c "/") eqn:E; [by constructor|].
  destruct (split_on_cons "/" s) as (w & ws & Ew). rewrite Ew in IH |- *.
  pose proof (Forall_inv IH) as Hw; pose proof (Forall_inv_tail IH) as Hws; cbn beta in Hw. apply List.Forall_cons; [|exact Hws].
  cbn [no_slash]. rewrite E, Hw. reflexivity.
Qed.

Lemma split_app_slash a b : split_on "/" (a +:+ "/" +:+ b) = split_on "/" a ++ split_on "/" b.
Proof.
  induction a as [|c a IH].
  - reflexivity.
  - rewrite append_cons. cbn [split_on]. rewrite IH.
    destruct (Ascii.eqb c "/"); [reflexivity|].
    destruct (split_on_cons "/" a) as (w & ws & ->). reflexivity.
Qed.

Lemma split_one s : no_slash s = true -> split_on "/" s = [s].
Proof.
  induction s as [|c s IH]; [done|]. cbn [no_slash split_on]. intros Hs. bools.
  by rewrite H, IH.
Qed.

(** The segment lists cleaned paths have: parent references at the front of a
    relative path only, proper segments after them. *)
Definition canon (rooted : bool) (l : list string) : Prop :=
  exists n ps, l = replicate n ".." ++ ps /\ Forall proper ps /\ (rooted = true -> n = 0%nat).

Lemma canon_nil r : canon r [].
Proof. by exists 0%nat, []. Qed.

Lemma canon_app r l rest : canon r l -> Forall proper rest -> canon r (l ++ rest).
Proof.
  intros (n & ps & -> & Hp & Hn) Hr. exists n, (ps ++ rest).
  rewrite app_assoc. split; [done|]. split; [by apply Forall_app | done].
Qed.

Lemma canon_rooted l : canon true l -> Forall proper l.
Proof. intros (n & ps & -> & Hp & Hn). by rewrite Hn. Qed.

Lemma proper_canon r l : Forall proper l -> canon r l.
Proof. intros Hl. by exists 0%nat, l. Qed.

(** What [..] does to a cleaned list. *)
Lemma canon_up r l x :
  canon r (l ++ [x]) -> if String.eqb x ".." then canon r (l ++ [x; ".."]) else canon r l.
Proof.
  intros (n & ps & E & Hp & Hn). destruct ps as [|y ps _] using rev_ind.
  - rewrite app_nil_r in E. destruct n as [|n]; [by destruct l|].
    rewrite replicate_S_end in E. apply app_inj_tail in E as [-> ->]. cbn.
    exists (S (S n)), []. rewrite !replicate_S_end, app_nil_r, <- app_assoc.
    split; [done|]. split; [done|]. intros Hr. by specialize (Hn Hr).
  - rewrite app_assoc in E. apply app_inj_tail in E as [-> ->].
    apply Forall_app in Hp as [Hp Hy]. apply Forall_cons_1 in Hy as [(_ & _ & Hy & _) _].
    destruct (String.eqb_spec y ".."); [done|]. by exists n, ps.
Qed.

Lemma clean_step_canon r acc s :
  no_slash s = true -> canon r (rev acc) -> canon r (rev (clean_step r acc s)).
Proof.
  intros Hs Hacc. unfold clean_step.
  destruct (String.eqb_spec s "") as [E1|E1]; [done|].
  destruct (String.eqb_spec s ".") as [E2|E2]; [done|]. cbn [orb].
  destruct (String.eqb_spec s "..") as [E3|E3].
  - destruct acc as [|x acc]; [destruct r; [done|] |].
    + exists 1%nat, []. by repeat split.
    + cbn [rev] in *. apply canon_up in Hacc. destruct (String.eqb_spec x "..") as [->|]; [|done].
      cbn. by rewrite <- app_assoc.
  - cbn [rev]. apply canon_app; [done|]. by repeat constructor.
Qed.

Lemma clean_fold_canon r l acc :
  Forall (fun w => no_slash w = true) l -> canon r (rev acc) ->
  canon r (rev (fold_left (clean_step r) l acc)).
Proof.
  revert acc. induction l as [|s l IH]; intros acc Hl Hacc; [done|].
  apply Forall_cons_1 in Hl as [Hs Hl]. cbn [fold_left]. apply IH; [done|].
  by apply clean_step_canon.
Qed.

Lemma segs_canon path : canon (IsAbs path) (segs path).
Proof. apply clean_fold_canon; [apply split_no_slash | apply canon_nil]. Qed.

Lemma canon_no_slash r l : canon r l -> Forall (fun s => no_slash s = true /\ s <> "") l.
Proof.
  intros (n & ps & -> & Hp & _). apply Forall_app. split.
  - apply Forall_replicate. by split.
  - eapply List.Forall_impl; [|exact Hp]. by intros s (? & _ & _ & ?).
Qed.

(** Proper segments pass through the loop, and so does a cleaned list. *)
Lemma clean_fold_proper rooted l acc :
  Forall proper l -> fold_left (clean_step rooted) l acc = rev l ++ acc.
Proof.
  revert acc. induction l as [|s l IH]; intros acc Hl; [done|].
  apply Forall_cons_1 in Hl as [(H1 & H2 & H3 & _) Hl]. cbn [fold_left rev].
  rewrite IH by done. unfold clean_step.
  destruct (String.eqb_spec s ""), (String.eqb_spec s "."), (String.eqb_spec s ".."); try done.
  cbn. by rewrite <- app_assoc.
Qed.

Lemma clean_fold_up n k :
  fold_left (clean_step false) (replicate n "..") (replicate k "..") = replicate (n + k) "..".
Proof.
  revert k. induction n as [|n IH]; intros k; [done|]. cbn [replicate fold_left].
  replace (clean_step false (replicate k "..") "..") with (replicate (S k) "..") by by destruct k.
  rewrite IH. f_equal. lia.
Qed.

Lemma clean_fold_canon_id r l : canon r l -> fold_left (clean_step r) l [] = rev l.
Proof.
  intros (n & ps & -> & Hp & Hn). rewrite fold_left_app, clean_fold_proper, rev_app_distr by done.
  f_equal. destruct r; [by rewrite Hn|].
  pose proof (clean_fold_up n 0) as E. rewrite Nat.add_0_r in E. cbn [replicate] in E.
  rewrite E. clear. induction n as [|n IH]; [done|].
  rewrite replicate_S_end at 2. rewrite rev_app_distr, <- IH. done.
Qed.

Lemma split_join l :
  Forall (fun s => no_slash s = true /\ s <> "") l -> l <> [] -> split_on "/" (join_segs l) = l.
Proof.
  intros Hl Hne. induction Hl as [|s l [Hs _] Hl IH]; [done|].
  destruct l as [|s' l]; [by apply split_one|].
  change (join_segs (s :: s' :: l)) with (s +:+ "/" +:+ join_segs (s' :: l)).
  rewrite split_app_slash, IH, split_one by done. done.
Qed.

Lemma IsAbs_slash s : IsAbs ("/" +:+ s) = true.
Proof. unfold IsAbs. apply has_prefix_iff. by exists s. Qed.

Lemma IsAbs_app a b : a <> "" -> IsAbs (a +:+ b) = IsAbs a.
Proof.
  intros Ha. destruct a as [|c a]; [done|]. rewrite append_cons. unfold IsAbs, has_prefix.
  cbn [String.prefix]. destruct (ascii_dec "/" c); [|done]. by destruct a, b.
Qed.

Lemma IsAbs_no_slash s b : no_slash s = true -> s <> "" -> IsAbs (s +:+ b) = false.
Proof.
  intros Hs Hne. rewrite IsAbs_app by done. destruct s as [|c s]; [done|]. cbn in Hs. bools.
  unfold IsAbs, has_prefix. cbn [String.prefix]. destruct (ascii_dec "/" c) as [<-|]; [|done].
  by rewrite Ascii.eqb_refl in H.
Qed.

Lemma render_cons r s l : render r (s :: l) = (if r then "/" else "") +:+ join_segs (s :: l).
Proof. done. Qed.

Lemma render_nonempty r l : Forall (fun s => no_slash s = true /\ s <> "") l -> render r l <> "".
Proof.
  intros Hl. destruct l as [|s l]; [by destruct r|]. rewrite render_cons. destruct r; [done|].
  apply Forall_cons_1 in Hl as [[_ Hs] _]. cbn. destruct s as [|c s]; [done|]. by destruct l.
Qed.

Lemma IsAbs_render r l : Forall (fun s => no_slash s = true /\ s <> "") l -> IsAbs (render r l) = r.
Proof.
  intros Hl. destruct l as [|s l]; [by destruct r|]. rewrite render_cons.
  destruct r; [apply IsAbs_slash|]. apply Forall_cons_1 in Hl as [[H1 H2] _].
  destruct l as [|s' l].
  - cbn [join_segs]. rewrite append_nil_l, <- (append_nil_r s). by apply IsAbs_no_slash.
  - by apply (IsAbs_no_slash s).
Qed.

Lemma segs_render r l : canon r l -> segs (render r l) = l.
Proof.
  intros Hc. pose proof (canon_no_slash _ _ Hc) as Hl. unfold segs. rewrite IsAbs_render by done.
  destruct l as [|s l]; [by destruct r|]. rewrite render_cons. set (t := s :: l) in *.
  assert (Hs : fold_left (clean_step r) (split_on "/" ((if r then "/" else "") +:+ join_segs t)) []
               = fold_left (clean_step r) t []).
  { destruct r; [|by rewrite append_nil_l, split_join].
    change ("/" +:+ join_segs t) with ("" +:+ "/" +:+ join_segs t).
    by rewrite split_app_slash, split_join. }
  by rewrite Hs, clean_fold_canon_id, rev_involutive.
Qed.

Lemma Clean_render path : Clean path = render (IsAbs path) (segs path).
Proof. unfold Clean. by destruct (String.eqb_spec path "") as [->|]. Qed.

Lemma render_inj r l l' : canon r l -> canon r l' -> render r l = render r l' -> l = l'.
Proof. intros Hl Hl' E. by rewrite <- (segs_render r l), <- (segs_render r l'), E. Qed.

Lemma IsAbs_Clean path : IsAbs (Clean path) = IsAbs path.
Proof. rewrite Clean_render. eapply IsAbs_render, canon_no_slash, segs_canon. Qed.

Lemma segs_Clean path : segs (Clean path) = segs path.
Proof. rewrite Clean_render. apply segs_render, segs_canon. Qed.

(** Cleaning is idempotent. *)
Lemma Clean_idem path : Clean (Clean path) = Clean path.
Proof. by rewrite (Clean_render (Clean path)), IsAbs_Clean, segs_Clean, <- Clean_render. Qed.

Lemma Clean_canon r l : canon r l -> Clean (render r l) = render r l.
Proof.
  intros Hc. rewrite Clean_render, segs_render by done. f_equal.
  eapply IsAbs_render, canon_no_slash, Hc.
Qed.

(** Joining continues from the segments of the first path. *)
Definition join_onto (r : bool) (base : list string) (name : string) : list string :=
  rev (fold_left (clean_step r) (split_on "/" name) (rev base)).

Lemma join_onto_canon r base name : canon r base -> canon r (join_onto r base name).
Proof. intros Hb. apply clean_fold_canon; [apply split_no_slash|]. by rewrite rev_involutive. Qed.

Lemma Join_onto base name :
  base <> "" -> Join base name = render (IsAbs base) (join_onto (IsAbs base) (segs base) name).
Proof.
  intros Hne. unfold Join. destruct (String.eqb_spec base "") as [|_]; [done|].
  rewrite Clean_render, IsAbs_app by done. f_equal. unfold join_onto, segs.
  by rewrite IsAbs_app, split_app_slash, fold_left_app, rev_involutive.
Qed.

(** A relative path without parent references only adds segments. *)
Lemma clean_fold_down rooted l acc :
  ~ In ".." l ->
  exists rest, fold_left (clean_step rooted) l acc = rest ++ acc /\
    rest = fold_left (clean_step false) l [] /\ ~ In ".." rest.
Proof.
  revert rooted acc. induction l as [|s l IH]; intros rooted acc Hl.
  - exists []. split; [done|]. split; [done|]. by intros [].
  - cbn [fold_left]. assert (Hs : s <> "..") by (intros ->; apply Hl; by left).
    assert (Hl' : ~ In ".." l) by (intros Hin; apply Hl; by right).
    assert (Hstep : forall r acc, clean_step r acc s =
      (if String.eqb s "" || String.eqb s "." then [] else [s]) ++ acc).
    { intros r a. unfold clean_step. destruct (String.eqb s "" || String.eqb s "."); [done|].
      by destruct (String.eqb_spec s ".."). }
    rewrite !Hstep, app_nil_r.
    destruct (IH rooted ((if String.eqb s "" || String.eqb s "." then [] else [s]) ++ acc) Hl')
      as (r1 & E1 & Er1 & Hn1).
    destruct (IH false (if String.eqb s "" || String.eqb s "." then [] else [s]) Hl')
      as (r2 & E2 & Er2 & Hn2).
    exists (r1 ++ (if String.eqb s "" || String.eqb s "." then [] else [s])).
    rewrite E1, E2, Er1, Er2, <- app_assoc. split; [done|]. split; [done|].
    rewrite <- Er2. intros Hin%in_app_or. destruct Hin as [Hin|Hin]; [done|].
    destruct (_ || _) in Hin; [done|]. by destruct Hin as [->|[]].
Qed.

(** ** Parents and siblings *)

Lemma upto_slash_none s : no_slash s = true -> upto_slash s = "".
Proof.
  induction s as [|c s IH]; [done|]. cbn [no_slash upto_slash]. intros Hs. bools.
  by rewrite IH, H.
Qed.

Lemma upto_slash_app p s : no_slash s = true -> upto_slash (p +:+ "/" +:+ s) = p +:+ "/".
Proof.
  intros Hs. induction p as [|c p IH].
  - rewrite append_nil_l. change ("/" +:+ s) with (String "/" s). cbn [upto_slash]. by rewrite upto_slash_none.
  - rewrite (append_cons c p ("/" +:+ s)), (append_cons c p "/"). cbn [upto_slash]. rewrite IH. by destruct p.
Qed.

Lemma join_segs_snoc l s : l <> [] -> join_segs (l ++ [s]) = join_segs l +:+ "/" +:+ s.
Proof.
  intros Hl. induction l as [|x l IH]; [done|]. destruct l as [|y l]; [done|].
  change (join_segs ((x :: y :: l) ++ [s])) with (x +:+ "/" +:+ join_segs ((y :: l) ++ [s])).
  rewrite IH by done. change (join_segs (x :: y :: l)) with (x +:+ "/" +:+ join_segs (y :: l)).
  by rewrite !append_assoc_s.
Qed.

Lemma render_snoc r l s : l <> [] -> render r (l ++ [s]) = render r l +:+ "/" +:+ s.
Proof.
  intros Hl. destruct l as [|x l]; [done|]. cbn [app]. rewrite !render_cons.
  change (x :: l ++ [s]) with ((x :: l) ++ [s]). rewrite join_segs_snoc by done.
  by rewrite append_assoc_s.
Qed.

Lemma Clean_slash r l : canon r l -> l <> [] -> Clean (render r l +:+ "/") = render r l.
Proof.
  intros Hc Hl. pose proof (canon_no_slash _ _ Hc) as Hn.
  assert (Ha : forall b, IsAbs (render r l +:+ b) = r).
  { intros b. rewrite IsAbs_app by by apply render_nonempty. by apply IsAbs_render. }
  change (render r l +:+ "/") with (render r l +:+ "/" +:+ ""). rewrite Clean_render, Ha.
  f_equal. pose proof (segs_render r l Hc) as Es. unfold segs in *.
  rewrite Ha, split_app_slash, fold_left_app. rewrite IsAbs_render in Es by done.
  cbn [split_on fold_left]. unfold clean_step at 1. cbn [String.eqb orb]. exact Es.
Qed.

(** The directory of a cleaned path is the path without its last segment. *)
Lemma Dir_snoc r l s : canon r (l ++ [s]) -> canon r l -> Dir (render r (l ++ [s])) = render r l.
Proof.
  intros Hc Hl. pose proof (canon_no_slash _ _ Hc) as Hn.
  apply Forall_app in Hn as [_ Hs]. apply Forall_cons_1 in Hs as [[Hs _] _]. unfold Dir.
  destruct l as [|x l].
  - cbn [app]. rewrite render_cons. cbn [join_segs]. destruct r.
    + change ("/" +:+ s) with ("" +:+ "/" +:+ s). by rewrite upto_slash_app.
    + by rewrite append_nil_l, upto_slash_none.
  - rewrite render_snoc, upto_slash_app by done. by apply Clean_slash.
Qed.

Lemma Dir_nil r : Dir (render r []) = render r [].
Proof. by destruct r. Qed.

(** ** Prefixes *)

(** The segments, each followed by a slash. *)
Fixpoint slashed (l : list string) : string :=
  match l with [] => "" | s :: l' => s +:+ "/" +:+ slashed l' end.

Lemma join_slashed l : l <> [] -> join_segs l +:+ "/" = slashed l.
Proof.
  intros Hl. induction l as [|x l IH]; [done|]. destruct l as [|y l]; [done|].
  change (join_segs (x :: y :: l)) with (x +:+ "/" +:+ join_segs (y :: l)).
  rewrite !append_assoc_s, IH by done. done.
Qed.

Lemma slash_split x y a b :
  no_slash x = true -> no_slash y = true -> x +:+ "/" +:+ a = y +:+ "/" +:+ b -> x = y /\ a = b.
Proof.
  intros Hx Hy E.
  pose proof (f_equal (split_on "/") E) as Es.
  rewrite !split_app_slash, (split_one x), (split_one y) in Es by done. cbn [app] in Es. injection Es as -> _.
  split; [done|]. apply append_inj_l in E. by apply append_inj_l in E.
Qed.

Lemma slashed_app a b : slashed (a ++ b) = slashed a +:+ slashed b.
Proof.
  induction a as [|x a IH]; [done|]. cbn [app slashed]. by rewrite IH, !append_assoc_s.
Qed.

(** Prefix of strings is prefix of segments once every segment ends in a slash. *)
Lemma slashed_prefix l b :
  Forall (fun s => no_slash s = true /\ s <> "") l ->
  Forall (fun s => no_slash s = true /\ s <> "") b ->
  has_prefix (slashed l) (slashed b) = true <-> exists rest, l = b ++ rest.
Proof.
  intros Hl Hb. rewrite has_prefix_iff. split.
  - intros [r E]. revert l Hl r E. induction Hb as [|x b [Hx Hx'] Hb IH]; intros l Hl r E; [by exists l|].
    cbn [slashed] in E. rewrite !append_assoc_s in E. destruct Hl as [|y l [Hy _] Hl].
    { exfalso. cbn in E. by destruct x. }
    cbn [slashed] in E. apply slash_split in E as [-> E]; [|done|done].
    destruct (IH l Hl r E) as [rest ->]. by exists rest.
  - intros [rest ->]. exists (slashed rest). apply slashed_app.
Qed.

Lemma render_slash r l : l <> [] -> render r l +:+ "/" = (if r then "/" else "") +:+ slashed l.
Proof.
  intros Hl. rewrite <- join_slashed by done. destruct l as [|x l]; [done|].
  by rewrite render_cons, append_assoc_s.
Qed.

Lemma has_prefix_common c a b : has_prefix (c +:+ a) (c +:+ b) = has_prefix a b.
Proof.
  apply eq_true_iff_eq. rewrite !has_prefix_iff. split; intros [r E].
  - exists r. rewrite append_assoc_s in E. by apply append_inj_l in E.
  - exists r. by rewrite append_assoc_s, <- E.
Qed.

(** The prefix test of a containment check, for a directory that is neither the
    root nor the current one. *)
Lemma render_prefix r l b :
  canon r l -> canon r b -> b <> [] ->
  has_prefix (render r l +:+ "/") (render r b +:+ "/") = true <-> exists rest, l = b ++ rest.
Proof.
  intros Hl Hb Hne. pose proof (canon_no_slash _ _ Hl) as Hls. pose proof (canon_no_slash _ _ Hb) as Hbs.
  destruct (decide (l = [])) as [->|Hl0].
  - split; [|intros [rest E]; by destruct b]. rewrite (render_slash r b Hne), has_prefix_iff.
    intros [q E]. exfalso. destruct b as [|b0 bs]; [done|]. apply Forall_cons_1 in Hbs as [[H1 H2] _].
    destruct b0 as [|c b0]; [done|]. destruct r; cbn in E.
    + injection E as Ec _. by subst c.
    + injection E as Ec E. subst c. destruct b0 as [|c b0].
      * destruct Hb as (n & ps & Eb & Hp & _). destruct n as [|n]; [|done].
        destruct ps as [|p ps]; [done|]. injection Eb as <- _.
        apply Forall_cons_1 in Hp as [(_ & Hp & _) _]. done.
      * cbn in E. injection E as Ec _. by subst c.
  - rewrite !render_slash, has_prefix_common by done. by apply slashed_prefix.
Qed.

(** Cleaning a relative path first does not change where it leads. *)
Lemma clean_fold_clean l a acc :
  Forall (fun w => no_slash w = true) l -> canon false (rev a) ->
  fold_left (clean_step true) l (fold_left (clean_step true) (rev a) acc) =
  fold_left (clean_step true) (rev (fold_left (clean_step false) l a)) acc.
Proof.
  revert a. induction l as [|s l IH]; intros a Hl Ha; [done|].
  apply Forall_cons_1 in Hl as [Hs Hl]. cbn [fold_left].
  rewrite <- IH; [|done|by apply clean_step_canon]. f_equal.
  unfold clean_step at 4. unfold clean_step at 1.
  destruct (String.eqb s "" || String.eqb s ".") eqn:E1; [done|].
  destruct (String.eqb_spec s "..") as [->|E2].
  - destruct a as [|x a]; [done|]. destruct (String.eqb_spec x "..") as [->|Hx].
    + cbn [rev]. by rewrite !fold_left_app.
    + cbn [rev] in *. rewrite fold_left_app. cbn [fold_left].
      destruct Ha as (n & ps & E & Hp & _). destruct ps as [|y ps _] using rev_ind.
      { rewrite app_nil_r in E. destruct n as [|n]; [by destruct (rev a)|].
        rewrite replicate_S_end in E. apply app_inj_tail in E as [_ ->]. done. }
      rewrite app_assoc in E. apply app_inj_tail in E as [_ ->].
      apply Forall_app in Hp as [_ Hy]. apply Forall_cons_1 in Hy as [(Hy1 & Hy2 & Hy3 & _) _].
      unfold clean_step at 1.
      destruct (String.eqb_spec y ""), (String.eqb_spec y "."), (String.eqb_spec y ".."); try done.
      cbn. destruct (String.eqb_spec y ".."); done.
  - cbn [rev]. rewrite fold_left_app. cbn [fold_left]. unfold clean_step at 2. rewrite E1.
    by destruct (String.eqb_spec s "..").
Qed.

Lemma canon_last r l s : canon r (l ++ [s]) -> s <> ".." -> canon r l /\ proper s.
Proof.
  intros (n & ps & E & Hp & Hn) Hs. destruct ps as [|y ps _] using rev_ind.
  - rewrite app_nil_r in E. destruct n as [|n]; [by destruct l|].
    rewrite replicate_S_end in E. by apply app_inj_tail in E as [_ ->].
  - rewrite app_assoc in E. apply app_inj_tail in E as [-> ->].
    apply Forall_app in Hp as [Hp Hy]. apply Forall_cons_1 in Hy as [Hy _]. split; [by exists n, ps | done].
Qed.

Lemma canon_init r l s : canon r (l ++ [s]) -> canon r l.
Proof.
  intros Hc. destruct (decide (s = "..")) as [->|]; [|by eapply canon_last].
  destruct Hc as (n & ps & E & Hp & Hn). destruct ps as [|y ps _] using rev_ind.
  - rewrite app_nil_r in E. destruct n as [|n]; [by destruct l|].
    rewrite replicate_S_end in E. apply app_inj_tail in E as [-> _].
    exists n, []. rewrite app_nil_r. split; [done|]. split; [done|]. intros Hr. by specialize (Hn Hr).
  - rewrite app_assoc in E. apply app_inj_tail in E as [-> <-].
    apply Forall_app in Hp as [Hp _]. by exists n, ps.
Qed.

(** The directory of any cleaned path is a cleaned path with fewer segments, or
    the root or current directory again. *)
Lemma Dir_render r l : canon r l -> exists l', Dir (render r l) = render r l' /\ canon r l' /\ (length l' <= length l)%nat.
Proof.
  intros Hc. destruct l as [|s l _] using rev_ind; [exists []; by destruct r|].
  exists l. pose proof (canon_init _ _ _ Hc). rewrite Dir_snoc, length_app by done. repeat split; [done|lia].
Qed.
