(* ===== verification/Os.v ===== *)
(** * Go's [os] and [io] on a directory tree

    The file system calls the storage backend and the archive code make, on a tree
    of directories and files without symbolic links (the modelled code creates
    none).  A path denotes the list of its segments from the root; a relative path
    starts at the process's working directory.  File modes and times are left
    out.  Any call can fail for a reason of its own ([faults] of the world); a
    write that fails may have written a part of its data ([torn]). *)

From S2P Require Import Prelude GoStrings Filepath.
From stdpp Require Import gmap.

Inductive node :=
| Dir
| File (content : string).

#[export] Instance node_eq_dec : EqDecision node.
Proof. solve_decision. Defined.

Abbreviation tree :=
  (@gmap (list string) (@list_eq_dec string String.eq_dec)
     (@list_countable string String.eq_dec String.countable) node).

Record fs := Fs {
  nodes : tree;
  (** how many bytes the next failing writes leave *)
  torn : list nat;
}.

Definition ErrNotExist := ErrSentinel "os.ErrNotExist".
(** [os.IsNotExist] *)
Definition IsNotExist (e : gerror) : bool := bool_decide (e = ErrNotExist).

(** ** The tree *)

Definition node_at (t : tree) (p : list string) : option node :=
  match p with [] => Some Dir | _ => t !! p end.

(** Resolution from [pre] down to [pre ++ rest]. *)
Fixpoint reach (t : tree) (pre rest : list string) : res node :=
  match node_at t pre with
  | None => Err ErrNotExist
  | Some n =>
      match rest with
      | [] => Ok n
      | s :: rest' =>
          match n with
          | Dir => reach t (pre ++ [s]) rest'
          | File _ => Err (ErrExt "ENOTDIR")
          end
      end
  end.

Definition stat_at (t : tree) (p : list string) : res node := reach t [] p.

Definition has_child (t : tree) (p : list string) : bool :=
  List.existsb (fun q => bool_decide (take (length p) q = p) && (length p <? length q)%nat)
    (map fst (map_to_list t)).

(** The data over the file's previous content. *)
Definition patch (data old : string) : string := data +:+ sdrop (String.length data) old.

Definition patch_at (p : list string) (data : string) (t : tree) : tree :=
  match t !! p with Some (File old) => <[p := File (patch data old)]> t | _ => t end.

Definition set_nodes (s : fs) (t : tree) : fs := Fs t (torn s).

(** ** Calls *)

Definition call {A} (op : string) (f : tree -> res A * tree) : prog (env fs) (res A) :=
  db op (fun s => let r := f (nodes s) in (fst r, set_nodes s (snd r))).

(** [os.Mkdir] in an existing directory. *)
Definition mkdir_at (p : list string) : prog (env fs) (res unit) :=
  call "mkdir" (fun t => (Ok tt, <[p := Dir]> t)).

(** [os.MkdirAll] below the existing directory [pre]. *)
Fixpoint mkdir_all (pre rest : list string) : prog (env fs) (res unit) :=
  match rest with
  | [] => ret (Ok tt)
  | s :: rest' =>
      let! n := gets (fun s' => node_at (nodes s') (pre ++ [s])) in
      match n with
      | Some Dir => mkdir_all (pre ++ [s]) rest'
      | Some (File _) => ret (Err (ErrExt "ENOTDIR"))
      | None => let? _u := mkdir_at (pre ++ [s]) in mkdir_all (pre ++ [s]) rest'
      end
  end.

(** Opening for writing with [O_CREATE], and [O_TRUNC] when [trunc]. *)
Definition open_create (trunc : bool) (p : list string) : prog (env fs) (res unit) :=
  call "open" (fun t =>
    match stat_at t p with
    | Ok Dir => (Err (ErrExt "EISDIR"), t)
    | Ok (File old) => (Ok tt, <[p := File (if trunc then "" else old)]> t)
    | Err e =>
        if IsNotExist e then
          match stat_at t (removelast p) with
          | Ok Dir => (Ok tt, <[p := File ""]> t)
          | Ok (File _) => (Err (ErrExt "ENOTDIR"), t)
          | Err e' => (Err e', t)
          end
        else (Err e, t)
    end).

(** Writing at the beginning of the open file. *)
Definition write_at (p : list string) (data : string) : prog (env fs) (res unit) :=
  fun w =>
    match faults w with
    | true :: fls =>
        let s := st w in
        (Err (ErrDB "write"),
         Env (Fs (patch_at p (stake (hd 0%nat (torn s)) data) (nodes s)) (tail (torn s)))
             fls (clock w) (ticks w))
    | _ => call "write" (fun t => (Ok tt, patch_at p data t)) w
    end.

(** A reader: what it delivers, and the error it ends with, if not the end of
    the file. *)
Definition reader : Type := string * option gerror.

(** [io.Copy] into the open file: how many bytes were read, or the error. *)
Definition copy_to (p : list string) (r : reader) : prog (env fs) (res Z) :=
  let? _u := write_at p (fst r) in
  ret (match snd r with
       | None => Ok (Z.of_nat (String.length (fst r)))
       | Some e => Err e
       end).

(** [os.WriteFile] *)
Definition write_file_at (p : list string) (data : string) : prog (env fs) (res unit) :=
  let? _u := open_create true p in write_at p data.

(** [os.Open]: a directory opens, and fails when it is read. *)
Definition open_at (p : list string) : prog (env fs) (res reader) :=
  call "open" (fun t =>
    (match stat_at t p with
     | Ok (File c) => Ok (c, None)
     | Ok Dir => Ok ("", Some (ErrExt "EISDIR"))
     | Err e => Err e
     end, t)).

(** Reading an open file to its end. *)
Definition read_all (r : reader) : prog (env fs) (res string) :=
  call "read" (fun t => (match snd r with None => Ok (fst r) | Some e => Err e end, t)).

(** [os.ReadFile] *)
Definition read_at (p : list string) : prog (env fs) (res string) :=
  let? r := open_at p in read_all r.

Definition stat_call (p : list string) : prog (env fs) (res node) :=
  call "stat" (fun t => (stat_at t p, t)).

Definition remove_at (p : list string) : prog (env fs) (res unit) :=
  call "remove" (fun t =>
    match p with
    | [] => (Err (ErrExt "EBUSY"), t)
    | _ =>
        match stat_at t p with
        | Err e => (Err e, t)
        | Ok (File _) => (Ok tt, delete p t)
        | Ok Dir => if has_child t p then (Err (ErrExt "ENOTEMPTY"), t) else (Ok tt, delete p t)
        end
    end).

(** ** Paths *)

Section Paths.
Context (cwd : list string).

(** The segments a path denotes. *)
Definition loc (path : string) : list string :=
  if IsAbs path then segs path else join_onto true cwd path.

Definition on_path {A} (path : string) (k : list string -> prog (env fs) (res A)) : prog (env fs) (res A) :=
  if String.eqb path "" then ret (Err ErrNotExist) else k (loc path).

Definition MkdirAll (path : string) := on_path path (mkdir_all []).
Definition Create (path : string) := on_path path (open_create true).
Definition Copy (path : string) (r : reader) := on_path path (fun p => copy_to p r).
Definition WriteFile (path data : string) := on_path path (fun p => write_file_at p data).
Definition ReadFile (path : string) := on_path path read_at.
Definition Open (path : string) := on_path path open_at.
Definition Stat (path : string) := on_path path stat_call.

(** [rmdir] refuses a path that ends in a dot. *)
Definition Remove (path : string) : prog (env fs) (res unit) :=
  match rev (segs path) with
  | [] =>
      if IsAbs path then on_path path remove_at
      else call "remove" (fun t => (Err (ErrExt "EINVAL"), t))
  | x :: _ =>
      if String.eqb x ".." then call "remove" (fun t => (Err (ErrExt "ENOTEMPTY"), t))
      else on_path path remove_at
  end.
End Paths.

(** ** Well-formed trees *)

(** Everything lies in a directory. *)
Definition closed (t : tree) : Prop :=
  forall p s n, t !! (p ++ [s]) = Some n -> node_at t p = Some Dir.

Lemma node_at_insert t p q n :
  p <> [] -> node_at (<[p := n]> t) q = if decide (p = q) then Some n else node_at t q.
Proof.
  intros Hp. destruct q as [|x q]; [by destruct (decide _)|]. cbn.
  destruct (decide (p = x :: q)) as [->|]; [apply lookup_insert_eq | by apply lookup_insert_ne].
Qed.

Lemma closed_prefix t p rest n :
  closed t -> node_at t (p ++ rest) = Some n -> rest <> [] -> node_at t p = Some Dir.
Proof.
  intros Hc. revert n. induction rest as [|s rest IH] using rev_ind; intros n Hn Hne; [done|].
  rewrite app_assoc in Hn. assert (Hn' : t !! ((p ++ rest) ++ [s]) = Some n) by by destruct (p ++ rest).
  apply Hc in Hn'. destruct rest as [|x rest]; [by rewrite app_nil_r in Hn'|]. by eapply IH.
Qed.

Lemma reach_ok t pre rest n : reach t pre rest = Ok n -> node_at t (pre ++ rest) = Some n.
Proof.
  revert pre. induction rest as [|s rest IH]; intros pre; cbn [reach].
  - rewrite app_nil_r. destruct (node_at t pre) as [m|]; [by intros [= ->] | done].
  - destruct (node_at t pre) as [[|c]|]; [|done|done]. intros H.
    apply IH in H. by rewrite <- app_assoc in H.
Qed.

Lemma reach_closed t pre rest n :
  closed t -> node_at t (pre ++ rest) = Some n -> reach t pre rest = Ok n.
Proof.
  intros Hc. revert pre. induction rest as [|s rest IH]; intros pre Hn; cbn [reach].
  - rewrite app_nil_r in Hn. by rewrite Hn.
  - rewrite (closed_prefix _ _ _ _ Hc Hn) by done. apply IH. by rewrite <- app_assoc.
Qed.

Lemma stat_iff t p n : closed t -> stat_at t p = Ok n <-> node_at t p = Some n.
Proof. intros Hc. split; [apply (reach_ok t []) | by apply (reach_closed t [])]. Qed.

(** The error of a path that is not there. *)
Lemma reach_err t pre rest e : reach t pre rest = Err e ->
  e = ErrNotExist \/ (e = ErrExt "ENOTDIR" /\ exists q r c, pre ++ rest = q ++ r /\ r <> [] /\ node_at t q = Some (File c)).
Proof.
  revert pre. induction rest as [|s rest IH]; intros pre; cbn [reach];
    destruct (node_at t pre) as [[|c]|] eqn:E; try done; try (intros [= <-]; by left).
  - intros H. apply IH in H as [->|(-> & q & r & c & Hq & ?)]; [by left|]. right. split; [done|].
    exists q, r, c. by rewrite <- app_assoc in Hq.
  - intros [= <-]. right. split; [done|]. by exists pre, (s :: rest), c.
Qed.

Lemma has_child_false t p q n :
  has_child t p = false -> t !! q = Some n -> take (length p) q = p -> (length q <= length p)%nat.
Proof.
  unfold has_child. intros Hf Hq Ht.
  assert (Hin : In q (map fst (map_to_list t))).
  { apply in_map_iff. exists (q, n). split; [done|]. apply list_elem_of_In. by apply elem_of_map_to_list. }
  destruct (Nat.le_gt_cases (length q) (length p)) as [|Hlt]; [done|]. exfalso.
  apply not_true_iff_false in Hf. apply Hf, existsb_exists. exists q. split; [done|].
  rewrite bool_decide_eq_true_2 by done. by apply Nat.ltb_lt.
Qed.

(** ** What the calls change *)

Definition strictly_under (b p : list string) : Prop := exists s rest, p = b ++ s :: rest.

(** [within b t t']: only nodes strictly below [b] have changed, and missing
    directories on the way to [b] may have been made. *)
Definition within (b : list string) (t t' : tree) : Prop :=
  forall p, ~ strictly_under b p ->
    t' !! p = t !! p \/ (t !! p = None /\ t' !! p = Some Dir /\ exists rest, b = p ++ rest).

(** The tree stays closed, and only changes below [b]. *)
Definition moves_below (b : list string) (s s' : fs) : Prop :=
  (closed (nodes s) -> closed (nodes s')) /\ within b (nodes s) (nodes s').

#[export] Instance moves_below_preorder b : PreOrder (moves_below b).
Proof.
  split.
  - intros s. split; [done|]. intros p _. by left.
  - intros s1 s2 s3 [C1 W1] [C2 W2]. split; [auto|]. intros p Hp.
    destruct (W1 p Hp) as [E1|(N1 & D1 & P1)], (W2 p Hp) as [E2|(N2 & D2 & P2)].
    + left. by rewrite E2.
    + right. by rewrite <- E1.
    + right. by rewrite E2.
    + by rewrite D1 in N2.
Qed.

Lemma closed_insert t p n :
  closed t -> node_at t (removelast p) = Some Dir ->
  (node_at t p = None \/ n = Dir \/ exists c, t !! p = Some (File c)) -> closed (<[p := n]> t).
Proof.
  intros Hc Hpar Hold q s m Hq. destruct (decide (p = [])) as [->|Hp].
  { rewrite lookup_insert_ne in Hq by by destruct q. destruct q as [|x q]; [done|].
    cbn. rewrite lookup_insert_ne by done. exact (Hc (x :: q) s m Hq). }
  rewrite node_at_insert by done. destruct (decide (p = q)) as [->|Hne].
  - (* a child of the new node *)
    destruct (decide (q = q ++ [s])) as [E|_]; [exfalso; apply (f_equal length) in E; rewrite length_app in E; cbn in E; lia|].
    rewrite lookup_insert_ne in Hq by (intros E; apply (f_equal length) in E; rewrite length_app in E; cbn in E; lia).
    apply Hc in Hq. destruct Hold as [Hn|[->|[c Hn]]]; [by rewrite Hn in Hq | done|].
    destruct q as [|x q]; [done|]. cbn in Hq. by rewrite Hn in Hq.
  - destruct (decide (p = q ++ [s])) as [->|Hne'].
    + by rewrite removelast_last in Hpar.
    + rewrite lookup_insert_ne in Hq by done. by apply Hc in Hq.
Qed.

Lemma within_insert b t p n : strictly_under b p -> within b t (<[p := n]> t).
Proof.
  intros Hp q Hq. left. rewrite lookup_insert_ne; [done|]. by intros <-.
Qed.

Lemma within_delete b t p : strictly_under b p -> within b t (delete p t).
Proof.
  intros Hp q Hq. left. rewrite lookup_delete_ne; [done|]. by intros <-.
Qed.

Lemma call_moves b {A} (op : string) (f : tree -> res A * tree) :
  (forall t, (closed t -> closed (snd (f t))) /\ within b t (snd (f t))) ->
  preserves (on_st (moves_below b)) (call op f).
Proof. intros Hf. apply preserves_db; [typeclasses eauto|]. intros s. apply (Hf (nodes s)). Qed.

Lemma call_reads b {A} (op : string) (f : tree -> res A) : preserves (on_st (moves_below b)) (call op (fun t => (f t, t))).
Proof. apply call_moves. intros t. split; [done|]. intros p _. by left. Qed.

Lemma read_moves b p : preserves (on_st (moves_below b)) (read_at p).
Proof.
  apply preserves_bind; [typeclasses eauto | apply call_reads|].
  intros [r|e]; [apply call_reads | apply preserves_ret; typeclasses eauto].
Qed.

Lemma parent_dir t p : node_at t p = Some Dir -> p <> [] -> closed t -> node_at t (removelast p) = Some Dir.
Proof.
  intros Hn Hp Hc. destruct p as [|s p _] using rev_ind; [done|]. rewrite removelast_last.
  by apply (closed_prefix t p [s] Dir).
Qed.

Lemma closed_delete t p :
  closed t -> (forall q n, t !! q = Some n -> take (length p) q = p -> (length q <= length p)%nat) ->
  closed (delete p t).
Proof.
  intros Hc Hleaf q s n Hq. apply lookup_delete_Some in Hq as [Hne Hq].
  pose proof (Hc _ _ _ Hq) as Hd. destruct q as [|x q]; [done|]. cbn.
  destruct (decide (p = x :: q)) as [->|Hpq]; [|by rewrite lookup_delete_ne].
  exfalso. specialize (Hleaf _ _ Hq). rewrite take_app_length, length_app in Hleaf. cbn in Hleaf.
  specialize (Hleaf eq_refl). lia.
Qed.

Lemma patch_at_cases p data t :
  patch_at p data t = t \/ exists old, t !! p = Some (File old) /\ patch_at p data t = <[p := File (patch data old)]> t.
Proof. unfold patch_at. destruct (t !! p) as [[|old]|]; [by left | right; by exists old | by left]. Qed.

Lemma under_nonempty b p : strictly_under b p -> p <> [].
Proof. intros (s & rest & ->). by destruct b. Qed.

Lemma patch_at_moves b p data t :
  strictly_under b p -> (closed t -> closed (patch_at p data t)) /\ within b t (patch_at p data t).
Proof.
  intros Hu. destruct (patch_at_cases p data t) as [->|(old & Hp & ->)].
  - split; [done|]. intros q _. by left.
  - split; [|by apply within_insert]. intros Hc. apply closed_insert; [done| |by eauto].
    apply under_nonempty in Hu. destruct p as [|y p _] using rev_ind; [done|].
    rewrite removelast_last. exact (Hc p y (File old) Hp).
Qed.

Lemma write_moves b p data : strictly_under b p -> preserves (on_st (moves_below b)) (write_at p data).
Proof.
  intros Hu w. unfold write_at, on_st.
  pose proof (call_moves b "write" (fun t => (Ok tt, patch_at p data t)) (fun t => patch_at_moves b p data t Hu) w) as Hc.
  destruct (faults w) as [|[] fls]; [exact Hc| |exact Hc].
  cbn. apply patch_at_moves, Hu.
Qed.

Lemma open_moves b trunc p : strictly_under b p -> preserves (on_st (moves_below b)) (open_create trunc p).
Proof.
  intros Hu. apply call_moves. intros t.
  assert (Hid : (closed t -> closed t) /\ within b t t) by (split; [done | intros q _; by left]).
  destruct (stat_at t p) as [[|old]|e] eqn:E; [exact Hid| |].
  - split; [|by apply within_insert]. intros Hc. apply stat_iff in E; [|done].
    assert (Hp : p <> []) by by intros ->.
    apply closed_insert; [done| |right; right; exists old; by destruct p].
    destruct p as [|s p _] using rev_ind; [done|]. rewrite removelast_last. by eapply closed_prefix.
  - destruct (IsNotExist e); [|exact Hid].
    destruct (stat_at t (removelast p)) as [[|c]|e'] eqn:E'; [|exact Hid|exact Hid].
    split; [|by apply within_insert]. intros Hc. apply stat_iff in E'; [|done].
    apply closed_insert; [done | exact E' | left].
    destruct (node_at t p) as [n|] eqn:En; [|done]. apply stat_iff in En; [|done]. by rewrite En in E.
Qed.

Lemma remove_moves b p : strictly_under b p -> preserves (on_st (moves_below b)) (remove_at p).
Proof.
  intros Hu. apply call_moves. intros t.
  assert (Hid : (closed t -> closed t) /\ within b t t) by (split; [done | intros q _; by left]).
  destruct p as [|s p]; [exact Hid|].
  destruct (stat_at t (s :: p)) as [[|old]|e] eqn:E; [| |exact Hid].
  - destruct (has_child t (s :: p)) eqn:Ec; [exact Hid|].
    split; [|by apply within_delete]. intros Hc. apply closed_delete; [done|].
    intros q n Hq Ht. by eapply has_child_false.
  - split; [|by apply within_delete]. intros Hc. apply closed_delete; [done|].
    apply stat_iff in E; [|done]. intros q n Hq Ht.
    destruct (Nat.le_gt_cases (length q) (length (s :: p))) as [|Hlt]; [done|]. exfalso.
    rewrite <- (take_drop (length (s :: p)) q), Ht in Hq.
    assert (Hn : node_at t ((s :: p) ++ drop (length (s :: p)) q) = Some n) by exact Hq.
    apply closed_prefix in Hn; [by rewrite Hn in E | done|].
    intros E0. apply (f_equal length) in E0. rewrite length_drop in E0. cbn [length] in *. lia.
Qed.

Lemma write_file_moves b p data :
  strictly_under b p -> preserves (on_st (moves_below b)) (write_file_at p data).
Proof.
  intros Hu. apply preserves_bind; [typeclasses eauto | by apply open_moves|].
  intros [u|e]; [by apply write_moves | apply preserves_ret; typeclasses eauto].
Qed.

Lemma copy_moves b p r : strictly_under b p -> preserves (on_st (moves_below b)) (copy_to p r).
Proof.
  intros Hu. apply preserves_bind; [typeclasses eauto | by apply write_moves|].
  intros [u|e]; apply preserves_ret; typeclasses eauto.
Qed.

(** Directories may be made below [b] and on the way to it. *)
Definition comparable (b p : list string) : Prop :=
  strictly_under b p \/ exists rest, b = p ++ rest.

Lemma comparable_app b pre s rest : comparable b (pre ++ s :: rest) -> comparable b (pre ++ [s]).
Proof.
  intros [(x & r & E)|[r ->]]; [|right; exists (rest ++ r); by rewrite <- !app_assoc].
  destruct (Nat.le_gt_cases (length (pre ++ [s])) (length b)) as [Hle|Hgt].
  - right. exists (drop (length (pre ++ [s])) b). rewrite <- (take_drop (length (pre ++ [s])) b) at 1.
    f_equal. change (pre ++ s :: rest) with (pre ++ [s] ++ rest) in E. rewrite app_assoc in E.
    apply (f_equal (take (length (pre ++ [s])))) in E.
    by rewrite take_app_length, take_app_le in E by done.
  - left. change (pre ++ s :: rest) with (pre ++ [s] ++ rest) in E. rewrite app_assoc in E.
    apply (f_equal (take (length (pre ++ [s])))) in E. rewrite take_app_length, take_app_ge in E by lia.
    destruct (length (pre ++ [s]) - length b)%nat as [|k] eqn:Ek; [lia|]. by exists x, (take k r).
Qed.

Lemma insert_dir_moves b t p :
  comparable b p -> t !! p = None -> p <> [] -> node_at t (removelast p) = Some Dir ->
  (closed t -> closed (<[p := Dir]> t)) /\ within b t (<[p := Dir]> t).
Proof.
  intros Hb Hn Hp Hpar. split; [intros Hc; apply closed_insert; auto|].
  destruct Hb as [Hu|[rest ->]]; [by apply within_insert|].
  intros q _. destruct (decide (p = q)) as [<-|Hne].
  - right. split; [done|]. split; [apply lookup_insert_eq | by exists rest].
  - left. by apply lookup_insert_ne.
Qed.

Lemma mkdir_all_moves b pre rest w :
  comparable b (pre ++ rest) -> node_at (nodes (st w)) pre = Some Dir ->
  on_st (moves_below b) w (snd (mkdir_all pre rest w)).
Proof.
  revert pre w. induction rest as [|s rest IH]; intros pre w Hc Hd; cbn [mkdir_all].
  { apply (preserves_ret (on_st (moves_below b))). }
  assert (Hc1 : comparable b (pre ++ [s])) by by eapply comparable_app.
  assert (Hc2 : comparable b ((pre ++ [s]) ++ rest)) by by rewrite <- app_assoc.
  unfold bind at 1, gets. cbn [fst snd].
  destruct (node_at (nodes (st w)) (pre ++ [s])) as [[|c]|] eqn:En; [by apply IH | reflexivity|].
  assert (Hne : pre ++ [s] <> []) by by destruct pre.
  assert (En' : nodes (st w) !! (pre ++ [s]) = None) by by destruct (pre ++ [s]).
  pose proof (insert_dir_moves b _ _ Hc1 En' Hne) as Hi. rewrite removelast_last in Hi. specialize (Hi Hd).
  assert (Hgo : forall w1, nodes (st w1) = <[pre ++ [s] := Dir]> (nodes (st w)) ->
            on_st (moves_below b) w (snd (mkdir_all (pre ++ [s]) rest w1))).
  { intros w1 E. transitivity w1; [unfold on_st, moves_below; by rewrite E|]. apply IH; [done|].
    by rewrite E, node_at_insert, decide_True by done. }
  unfold bind, mkdir_at, call, db.
  destruct (faults w) as [|[] fls]; cbn [fst snd]; [by apply Hgo | | by apply Hgo].
  change (moves_below b (st w) (st w)). reflexivity.
Qed.

(** ** Where cleaned paths lead *)

Lemma loc_render cwd r l :
  canon r l -> loc cwd (render r l) = if r then l else rev (fold_left (clean_step true) l (rev cwd)).
Proof.
  intros Hc. pose proof (canon_no_slash _ _ Hc) as Hs. unfold loc. rewrite IsAbs_render by done.
  destruct r; [by apply segs_render|]. unfold join_onto. f_equal.
  destruct l as [|x l]; [done|]. rewrite render_cons, append_nil_l. by rewrite split_join.
Qed.

Lemma loc_app cwd r l rest :
  canon r l -> Forall proper rest -> loc cwd (render r (l ++ rest)) = loc cwd (render r l) ++ rest.
Proof.
  intros Hl Hr. rewrite !loc_render by (try apply canon_app; done). destruct r; [done|].
  by rewrite fold_left_app, clean_fold_proper, rev_app_distr, rev_involutive.
Qed.

Lemma loc_Clean cwd path : loc cwd (Clean path) = loc cwd path.
Proof.
  rewrite Clean_render, loc_render by apply segs_canon. unfold loc.
  pose proof (segs_canon path) as Hc. destruct (IsAbs path) eqn:E; [done|].
  unfold join_onto, segs. rewrite E. f_equal. symmetry.
  apply (clean_fold_clean _ []); [apply split_no_slash | apply canon_nil].
Qed.

Lemma on_path_render {A} r l (k : list string -> prog (env fs) (res A)) cwd :
  canon r l -> on_path cwd (render r l) k = k (loc cwd (render r l)).
Proof.
  intros Hc. unfold on_path. destruct (String.eqb_spec (render r l) "") as [E|]; [|done].
  by apply render_nonempty in E; [|eapply canon_no_slash].
Qed.

(** The sibling a suffix names. *)
Lemma render_suffix r l s suf : render r (l ++ [s]) +:+ suf = render r (l ++ [s +:+ suf]).
Proof.
  destruct l as [|x l]; [cbn [app]; by rewrite !render_cons, append_assoc_s|].
  by rewrite !render_snoc, !append_assoc_s by done.
Qed.

Lemma proper_suffix s : proper s -> proper (s +:+ ".sha256").
Proof.
  intros (H1 & H2 & H3 & H4).
  assert (Hns : no_slash (s +:+ ".sha256") = true).
  { clear -H4. induction s as [|c s IH]; [done|]. rewrite append_cons. cbn [no_slash] in *.
    bools. rewrite H. by apply IH. }
  assert (Hl : (7 <= String.length (s +:+ ".sha256"))%nat) by (rewrite length_append_s; cbn; lia).
  repeat split; [| | |done]; intros E; rewrite E in Hl; cbn in Hl; lia.
Qed.

(** [Remove] on a cleaned path that does not end in a parent reference. *)
Lemma Remove_render cwd r l s :
  canon r (l ++ [s]) -> s <> ".." -> Remove cwd (render r (l ++ [s])) = remove_at (loc cwd (render r (l ++ [s]))).
Proof.
  intros Hc Hs. unfold Remove. rewrite segs_render, rev_app_distr by done. cbn [rev app].
  destruct (String.eqb_spec s ".."); [done|]. by apply on_path_render.
Qed.

(** ** What happens to files *)

(** Outside [Q] the files are the same, with the same content. *)
Definition keeps (Q : list (list string)) (s s' : fs) : Prop :=
  forall p c, ~ In p Q -> nodes s !! p = Some (File c) <-> nodes s' !! p = Some (File c).

#[export] Instance keeps_preorder Q : PreOrder (keeps Q).
Proof.
  split; [by intros s p c|]. intros s1 s2 s3 H1 H2 p c Hp. by rewrite (H1 p c Hp), (H2 p c Hp).
Qed.

Lemma call_keeps Q {A} (op : string) (f : tree -> res A * tree) :
  (forall t p c, ~ In p Q -> t !! p = Some (File c) <-> snd (f t) !! p = Some (File c)) ->
  preserves (on_st (keeps Q)) (call op f).
Proof. intros Hf. apply preserves_db; [typeclasses eauto|]. intros s p c. apply Hf. Qed.

Lemma reading_keeps Q {A} (op : string) (f : tree -> res A) :
  preserves (on_st (keeps Q)) (call op (fun t => (f t, t))).
Proof. by apply call_keeps. Qed.

Lemma read_keeps Q p : preserves (on_st (keeps Q)) (read_at p).
Proof.
  apply preserves_bind; [typeclasses eauto | apply reading_keeps|].
  intros [r|e]; [apply reading_keeps | apply preserves_ret; typeclasses eauto].
Qed.

Lemma other_file (t : tree) p q n c : p <> q -> t !! q = Some (File c) <-> <[p := n]> t !! q = Some (File c).
Proof. intros Hne. by rewrite lookup_insert_ne. Qed.

Lemma patch_at_keeps p data t q c :
  p <> q -> t !! q = Some (File c) <-> patch_at p data t !! q = Some (File c).
Proof.
  intros Hne. destruct (patch_at_cases p data t) as [->|(old & _ & ->)]; [done|]. by apply other_file.
Qed.

Lemma write_keeps Q p data : In p Q -> preserves (on_st (keeps Q)) (write_at p data).
Proof.
  intros HQ w. unfold write_at, on_st.
  assert (Hk : forall d, keeps Q (st w) (set_nodes (st w) (patch_at p d (nodes (st w))))).
  { intros d q c Hq. apply patch_at_keeps. by intros ->. }
  destruct (faults w) as [|[] fls] eqn:E.
  - unfold call, db. rewrite E. apply Hk.
  - apply Hk.
  - unfold call, db. rewrite E. apply Hk.
Qed.

Lemma open_keeps Q trunc p : In p Q -> preserves (on_st (keeps Q)) (open_create trunc p).
Proof.
  intros HQ. apply call_keeps. intros t q c Hq. assert (p <> q) by by intros ->.
  repeat case_goal; cbn; by try apply other_file.
Qed.

Lemma remove_file_keeps Q p : In p Q -> preserves (on_st (keeps Q)) (remove_at p).
Proof.
  intros HQ. apply call_keeps. intros t q c Hq. assert (p <> q) by by intros ->.
  repeat case_goal; cbn; try done; by rewrite lookup_delete_ne.
Qed.

Lemma mkdir_all_keeps Q pre rest w : on_st (keeps Q) w (snd (mkdir_all pre rest w)).
Proof.
  revert pre w. induction rest as [|s rest IH]; intros pre w; cbn [mkdir_all]; [reflexivity|].
  unfold bind at 1, gets. cbn [fst snd].
  destruct (node_at (nodes (st w)) (pre ++ [s])) as [[|c]|] eqn:En; [apply IH | reflexivity|].
  assert (En' : nodes (st w) !! (pre ++ [s]) = None) by by destruct (pre ++ [s]).
  unfold bind, mkdir_at, call, db.
  destruct (faults w) as [|[] fls]; cbn [fst snd].
  2: change (keeps Q (st w) (st w)); reflexivity.
  all: etransitivity; [|apply IH]; intros p c Hp; cbn; destruct (decide (pre ++ [s] = p)) as [<-|Hne];
    [by rewrite En', lookup_insert_eq | by apply other_file].
Qed.

(** Removing a directory keeps every file. *)
Lemma remove_dir_keeps Q p w :
  (forall c, nodes (st w) !! p <> Some (File c)) -> on_st (keeps Q) w (snd (remove_at p w)).
Proof.
  intros Hd. unfold remove_at, call, db, on_st. destruct (faults w) as [|[] fls]; cbn [fst snd st].
  2: reflexivity.
  all: intros q c Hq; cbn; repeat case_goal; cbn; try done.
  all: destruct (decide (p = q)) as [<-|Hne]; subst; rewrite ?lookup_delete_ne, ?lookup_delete_eq by done; try done.
  all: split; [intros E; by apply Hd in E | done].
Qed.

(** ** Outcomes *)

Lemma call_ok {A} (op : string) (f : tree -> res A * tree) (w : env fs) (a : A) :
  fst (call op f w) = Ok a ->
  fst (f (nodes (st w))) = Ok a /\ nodes (st (snd (call op f w))) = snd (f (nodes (st w))).
Proof. unfold call. intros Hr. apply db_ok in Hr as [H1 H2]. by rewrite H2. Qed.

Lemma create_ok p w u :
  fst (open_create true p w) = Ok u -> nodes (st (snd (open_create true p w))) !! p = Some (File "").
Proof.
  unfold open_create. intros Hr. apply call_ok in Hr as [Hr ->]. revert Hr.
  repeat case_goal; cbn; try done; intros _; apply lookup_insert_eq.
Qed.

Lemma write_ok p d w u old :
  fst (write_at p d w) = Ok u -> nodes (st w) !! p = Some (File old) ->
  nodes (st (snd (write_at p d w))) !! p = Some (File (patch d old)).
Proof.
  unfold write_at. intros Hr Hp. destruct (faults w) as [|[] fls] eqn:E; [|done|].
  all: apply call_ok in Hr as [_ ->]; cbn; unfold patch_at; rewrite Hp; apply lookup_insert_eq.
Qed.

Lemma patch_empty d : patch d "" = d.
Proof. unfold patch. destruct (String.length d); cbn; apply append_nil_r. Qed.

Lemma copy_ok p r w n :
  fst (copy_to p r w) = Ok n -> nodes (st w) !! p = Some (File "") ->
  nodes (st (snd (copy_to p r w))) !! p = Some (File (fst r)) /\ snd r = None /\
  n = Z.of_nat (String.length (fst r)).
Proof.
  unfold copy_to. intros Hr Hp. apply bind_ok in Hr as (u & Hu & Hk & ->).
  pose proof (write_ok _ _ _ _ _ Hu Hp) as Hw. rewrite patch_empty in Hw. cbn in Hk |- *.
  destruct (snd r); [done|]. by injection Hk as <-.
Qed.

(** Removal only ever removes. *)
Definition shrinks (s s' : fs) : Prop := forall p, nodes s !! p = None -> nodes s' !! p = None.

#[export] Instance shrinks_preorder : PreOrder shrinks.
Proof. split; [by intros s p | intros s1 s2 s3 H1 H2 p Hp; auto]. Qed.

Lemma remove_shrinks p : preserves (on_st shrinks) (remove_at p).
Proof.
  apply preserves_db; [typeclasses eauto|]. intros s q Hq. cbn.
  repeat case_goal; cbn; try done; by apply lookup_delete_None; right.
Qed.

Lemma Remove_shrinks cwd path : preserves (on_st shrinks) (Remove cwd path).
Proof.
  assert (He : forall e, preserves (on_st shrinks) (call "remove" (fun t => (Err e, t)) : prog (env fs) (res unit)))
    by (intros e; apply preserves_db; [typeclasses eauto | by intros s q Hq]).
  unfold Remove, on_path. pose proof remove_shrinks. preserve.
Qed.

(** The outcome of a removal in a closed tree. *)
Lemma remove_outcome p w :
  closed (nodes (st w)) -> p <> [] ->
  match fst (remove_at p w) with
  | Ok _ => (exists n, nodes (st w) !! p = Some n) /\ nodes (st (snd (remove_at p w))) = delete p (nodes (st w))
  | Err e => nodes (st (snd (remove_at p w))) = nodes (st w) /\
             (e = ErrNotExist -> nodes (st w) !! p = None)
  end.
Proof.
  intros Hc Hp. unfold remove_at, call, db. destruct p as [|x p]; [done|].
  assert (Hs : forall r, stat_at (nodes (st w)) (x :: p) = Ok r -> nodes (st w) !! (x :: p) = Some r)
    by (intros r E; by apply stat_iff in E).
  assert (He : forall e, stat_at (nodes (st w)) (x :: p) = Err e -> nodes (st w) !! (x :: p) = None).
  { intros e E. destruct (nodes (st w) !! (x :: p)) as [n|] eqn:En; [|done].
    assert (E2 : node_at (nodes (st w)) (x :: p) = Some n) by done. apply stat_iff in E2; [congruence | done]. }
  destruct (faults w) as [|[] fls]; cbn [fst snd st]; [|done|].
  all: destruct (stat_at _ _) as [[|c]|e] eqn:E; cbn;
    [destruct (has_child _ _); cbn; eauto 6; split; [done | done] | eauto 6 | split; [done | intros _; by eapply He]].
Qed.

(** A boolean version of [closed], for concrete trees. *)
Definition closedb (t : tree) : bool :=
  List.forallb (fun kv => match node_at t (removelast (fst kv)) with Some Dir => true | _ => false end)
    (map_to_list t).

Lemma closedb_sound t : closedb t = true -> closed t.
Proof.
  unfold closedb. intros Hb p y n Hp. rewrite forallb_forall in Hb.
  assert (Hin : In (p ++ [y], n) (map_to_list t)) by by apply list_elem_of_In, elem_of_map_to_list.
  specialize (Hb _ Hin). cbn in Hb. rewrite removelast_last in Hb. by repeat case_hyp Hb.
Qed.
