(* ===== verification/LocalStorage.v ===== *)
(** * The local storage backend

    [internal/storage/local/local.go] on the directory tree of [Os]: every
    operation of the [Storage] interface the backend implements.  Reading a
    directory's size and the modification time of a file are left out. *)

From S2P Require Import Prelude GoStrings Filepath Os.
From stdpp Require Import gmap.

Record LocalStorage := {
  basePath : string;
  serveDirectly : bool;
  baseURL : string;
}.

Record UploadResult := { ur_Path : string; ur_Size : Z; ur_Checksum : string }.
Record FileMetadata := { fm_Path : string; fm_Size : Z; fm_Checksum : string }.

Section Local.
Context (cwd : list string) `{Sha256} (dir_size : Z).

Definition New (BasePath : string) (ServeDirectly : bool) (serverBaseURL : string)
  : prog (env fs) (res LocalStorage) :=
  let! r := MkdirAll cwd BasePath in
  match r with
  | Err e => ret (Err (ErrWrap "failed to create storage directory" e))
  | Ok _ => ret (Ok {| basePath := BasePath; serveDirectly := ServeDirectly; baseURL := serverBaseURL |})
  end.

Section Methods.
Context (s : LocalStorage).

Definition safeJoin (path : string) : res string :=
  let full := Filepath.Join (basePath s) path in
  let base := Clean (basePath s) +:+ "/" in
  if negb (has_prefix (Clean full +:+ "/") base)
  then Err (ErrMsg ("path escapes storage root: " +:+ path))
  else Ok full.

Definition Upload (path : string) (r : reader) (size : Z) : prog (env fs) (res UploadResult) :=
  match safeJoin path with
  | Err e => ret (Err e)
  | Ok fullPath =>
      let! m := MkdirAll cwd (Filepath.Dir fullPath) in
      match m with
      | Err e => ret (Err (ErrWrap "failed to create directory" e))
      | Ok _ =>
          let! f := Create cwd fullPath in
          match f with
          | Err e => ret (Err (ErrWrap "failed to create file" e))
          | Ok _ =>
              let! written := Copy cwd fullPath r in
              match written with
              | Err e =>
                  run! Remove cwd fullPath in
                  ret (Err (ErrWrap "failed to write file" e))
              | Ok n =>
                  let checksum := sha256_hex (fst r) in
                  run! WriteFile cwd (fullPath +:+ ".sha256") checksum in
                  ret (Ok {| ur_Path := path; ur_Size := n; ur_Checksum := checksum |})
              end
          end
      end
  end.

Definition Download (path : string) : prog (env fs) (res reader) :=
  match safeJoin path with
  | Err e => ret (Err e)
  | Ok fullPath =>
      let! f := Open cwd fullPath in
      match f with
      | Err e =>
          if IsNotExist e then ret (Err (ErrMsg ("file not found: " +:+ path)))
          else ret (Err (ErrWrap "failed to open file" e))
      | Ok file => ret (Ok file)
      end
  end.

(** [for dir != s.basePath { ... dir = filepath.Dir(dir) }]; [None]: the fuel
    did not suffice. *)
Fixpoint prune (fuel : nat) (dir : string) : prog (env fs) (option unit) :=
  match fuel with
  | O => ret None
  | S fuel' =>
      if String.eqb dir (basePath s) then ret (Some tt)
      else
        let! r := Remove cwd dir in
        match r with
        | Err _ => ret (Some tt)
        | Ok _ => prune fuel' (Filepath.Dir dir)
        end
  end.

Definition Delete (path : string) : prog (env fs) (res unit) :=
  match safeJoin path with
  | Err e => ret (Err e)
  | Ok fullPath =>
      let! r := Remove cwd fullPath in
      match r with
      | Err e =>
          if IsNotExist e then ret (Ok tt) else ret (Err (ErrWrap "failed to delete file" e))
      | Ok _ =>
          run! Remove cwd (fullPath +:+ ".sha256") in
          run! prune (S (length (segs fullPath))) (Filepath.Dir fullPath) in
          ret (Ok tt)
      end
  end.

Definition Exists (path : string) : prog (env fs) (res bool) :=
  match safeJoin path with
  | Err e => ret (Err e)
  | Ok fullPath =>
      let! r := Stat cwd fullPath in
      match r with
      | Err e =>
          if IsNotExist e then ret (Ok false)
          else ret (Err (ErrWrap "failed to check file existence" e))
      | Ok _ => ret (Ok true)
      end
  end.

Definition GetURL (path : string) : prog (env fs) (res string) :=
  let? exists_ := Exists path in
  if negb exists_ then ret (Err (ErrMsg ("file not found: " +:+ path)))
  else if serveDirectly s then ret (Ok (baseURL s +:+ "/v1/files/" +:+ path))
  else match safeJoin path with
       | Err e => ret (Err e)
       | Ok fullPath => ret (Ok ("file://" +:+ fullPath))
       end.

(** [os.FileInfo.Size]: for a directory, whatever the system says. *)
Definition info_size (n : node) : Z :=
  match n with File c => Z.of_nat (String.length c) | Dir => dir_size end.

Definition GetMetadata (path : string) : prog (env fs) (res FileMetadata) :=
  match safeJoin path with
  | Err e => ret (Err e)
  | Ok fullPath =>
      let! r := Stat cwd fullPath in
      match r with
      | Err e =>
          if IsNotExist e then ret (Err (ErrMsg ("file not found: " +:+ path)))
          else ret (Err (ErrWrap "failed to get file metadata" e))
      | Ok info =>
          let sidecarPath := fullPath +:+ ".sha256" in
          let! data := ReadFile cwd sidecarPath in
          match data with
          | Ok d =>
              ret (Ok {| fm_Path := path; fm_Size := info_size info; fm_Checksum := trim_space d |})
          | Err _ =>
              let! file := Open cwd fullPath in
              match file with
              | Err e => ret (Err (ErrWrap "failed to open file for checksum" e))
              | Ok r =>
                  let! content := read_all r in
                  match content with
                  | Err e => ret (Err (ErrWrap "failed to calculate checksum" e))
                  | Ok c =>
                      let checksum := sha256_hex c in
                      run! WriteFile cwd sidecarPath checksum in
                      ret (Ok {| fm_Path := path; fm_Size := info_size info; fm_Checksum := checksum |})
                  end
              end
          end
      end
  end.
End Methods.
End Local.

(** A store under [./storage] in the working directory [/srv], as configured by
    default. *)
#[local] Instance demo_sha : Sha256 := fun d => "d-" +:+ d.
Definition store : LocalStorage :=
  {| basePath := "./storage"; serveDirectly := true; baseURL := "https://registry.example.com" |}.
Definition srv : env fs := quiet (Fs {[ ["srv"] := Dir; ["srv"; "storage"] := Dir ]} []).

Example upload_1 :
  let w := snd (Upload ["srv"] store "m/a.zip" ("ZIP", None) 3 srv) in
  fst (Download ["srv"] store "m/a.zip" w) = Ok ("ZIP", None) /\
  fst (Download ["srv"] store "m/a.zip.sha256" w) = Ok ("d-ZIP", None) /\
  is_ok (fst (Upload ["srv"] store "../x" ("ZIP", None) 3 srv)) = false.
Proof. vm_compute. done. Qed.

(** ** Paths of objects *)

Section Objects.
Context (cwd : list string) `{Sha256} (dir_size : Z) (s : LocalStorage).

Abbreviation rooted := (IsAbs (basePath s)).
Abbreviation base := (segs (basePath s)).
Abbreviation root := (loc cwd (basePath s)).

(** The base directory is named, not reached through parent references alone. *)
Definition named : Prop := exists l x, base = l ++ [x] /\ x <> "..".

(** The key denotes something below the base directory. *)
Definition below_root (path : string) : Prop := join_onto rooted base path <> base.

Lemma base_canon : canon rooted base.
Proof. apply segs_canon. Qed.

Lemma named_rest rest : named -> canon rooted (base ++ rest) -> Forall proper rest.
Proof.
  intros (l & x & E & Hx) (n & ps & E2 & Hp & _). rewrite E in E2.
  destruct (Nat.le_gt_cases (length (l ++ [x])) n) as [Hle|Hgt].
  - exfalso. apply (f_equal (fun q => nth_error q (length l))) in E2.
    rewrite <- app_assoc in E2. rewrite nth_error_app2, Nat.sub_diag in E2 by lia. cbn [nth_error app] in E2.
    rewrite length_app in Hle. cbn in Hle.
    rewrite nth_error_app1 in E2 by (rewrite length_replicate; lia).
    symmetry in E2. apply nth_error_In in E2. apply list_elem_of_In, elem_of_replicate in E2 as [E2 _]. done.
  - assert (Er : rest = drop (length (l ++ [x])) (replicate n ".." ++ ps)) by by rewrite <- E2, drop_app_length.
    rewrite Er, drop_app_ge by (rewrite length_replicate; lia). by apply Forall_drop.
Qed.

Lemma named_canon rest : Forall proper rest -> canon rooted (base ++ rest).
Proof. intros Hr. apply canon_app; [apply base_canon | done]. Qed.

Lemma base_nonempty : named -> basePath s <> "".
Proof. intros (l & x & E & _) E0. rewrite E0 in E. by destruct l. Qed.

(** [safeJoin] accepts exactly the keys that stay below the base directory. *)
Lemma safeJoin_iff path full :
  named ->
  safeJoin s path = Ok full <->
  exists rest, join_onto rooted base path = base ++ rest /\ Forall proper rest /\
               full = render rooted (base ++ rest).
Proof.
  intros Hn. pose proof (base_nonempty Hn) as Hb. unfold safeJoin. rewrite Join_onto by done.
  set (l := join_onto rooted base path).
  assert (Hl : canon rooted l) by apply join_onto_canon, base_canon.
  rewrite Clean_canon, (Clean_render (basePath s)) by done.
  assert (Hbne : base <> []) by (destruct Hn as (l0 & x & -> & _); by destruct l0).
  pose proof (render_prefix rooted l base Hl base_canon Hbne) as Hpre.
  destruct (has_prefix _ _) eqn:E; cbn [negb].
  - destruct (proj1 Hpre eq_refl) as [rest El]. split.
    + intros [= <-]. exists rest. split; [done|]. rewrite El. split; [|done].
      apply named_rest; [done|]. by rewrite <- El.
    + intros (rest' & El' & _ & ->). by rewrite El'.
  - split; [done|]. intros (rest & El & _). exfalso.
    assert (false = true) by (apply Hpre; by exists rest). done.
Qed.

(** ** Confinement *)

(** The file and directory a key below the root denotes. *)
Lemma safeJoin_object path full :
  named -> below_root path -> safeJoin s path = Ok full ->
  exists ds x, Forall proper ds /\ proper x /\ full = render rooted ((base ++ ds) ++ [x]).
Proof.
  intros Hn Hb Hs. apply safeJoin_iff in Hs as (rest & E & Hr & ->); [|done].
  destruct rest as [|x ds _] using rev_ind; [by rewrite app_nil_r in E|].
  apply Forall_app in Hr as [Hd Hx]. apply Forall_cons_1 in Hx as [Hx _].
  exists ds, x. by rewrite <- app_assoc.
Qed.

Lemma root_render : root = loc cwd (render rooted base).
Proof. by rewrite <- loc_Clean, Clean_render. Qed.

Lemma loc_object ds : Forall proper ds -> loc cwd (render rooted (base ++ ds)) = root ++ ds.
Proof. intros Hd. rewrite root_render. apply loc_app; [apply base_canon | done]. Qed.

Lemma under_object ds x : strictly_under root (root ++ ds ++ [x]).
Proof. destruct ds as [|d ds]; [by exists x, [] | by exists d, (ds ++ [x])]. Qed.

Abbreviation confined := (preserves (on_st (moves_below root))).

Section Object.
Context (ds : list string) (x : string) (Hd : Forall proper ds) (Hx : proper x).
Abbreviation file := (render rooted ((base ++ ds) ++ [x])).
Abbreviation sidecar := (render rooted ((base ++ ds) ++ [x +:+ ".sha256"])).

Lemma dir_canon : canon rooted (base ++ ds).
Proof. by apply named_canon. Qed.
Lemma file_canon y : proper y -> canon rooted ((base ++ ds) ++ [y]).
Proof. intros Hy. apply canon_app; [apply dir_canon | by apply Forall_singleton]. Qed.

Lemma file_loc y : proper y -> loc cwd (render rooted ((base ++ ds) ++ [y])) = root ++ ds ++ [y].
Proof.
  intros Hy. rewrite <- app_assoc. apply loc_object. apply Forall_app. split; [done | by apply Forall_singleton].
Qed.

Lemma file_Dir : Filepath.Dir file = render rooted (base ++ ds).
Proof. apply Dir_snoc; [by apply file_canon | apply dir_canon]. Qed.

Lemma file_sidecar : file +:+ ".sha256" = sidecar.
Proof. apply render_suffix. Qed.

Lemma mkdir_confined : confined (MkdirAll cwd (Filepath.Dir file)).
Proof.
  intros w. rewrite file_Dir. unfold MkdirAll. rewrite on_path_render by apply dir_canon.
  rewrite loc_object by done. apply mkdir_all_moves; [|done]. cbn [app].
  destruct ds as [|d ds']; [right; exists []; by rewrite !app_nil_r | left; by exists d, ds'].
Qed.

Lemma create_confined : confined (Create cwd file).
Proof.
  unfold Create. rewrite on_path_render by by apply file_canon. rewrite file_loc by done.
  apply open_moves, under_object.
Qed.

Lemma copy_confined r : confined (Copy cwd file r).
Proof.
  unfold Copy. rewrite on_path_render by by apply file_canon. rewrite file_loc by done.
  apply copy_moves, under_object.
Qed.

Lemma sidecar_confined d : confined (WriteFile cwd (file +:+ ".sha256") d).
Proof.
  rewrite file_sidecar. pose proof (proper_suffix _ Hx) as Hx'.
  unfold WriteFile. rewrite on_path_render by by apply file_canon. rewrite file_loc by done.
  apply write_file_moves, under_object.
Qed.

Lemma remove_confined y : proper y -> confined (Remove cwd (render rooted ((base ++ ds) ++ [y]))).
Proof.
  intros Hy. rewrite Remove_render; [|by apply file_canon|by destruct Hy as (_ & _ & ? & _)].
  rewrite file_loc by done. apply remove_moves, under_object.
Qed.
End Object.

Lemma read_confined path : confined (ReadFile cwd path).
Proof.
  unfold ReadFile, on_path. destruct (String.eqb path "").
  - apply preserves_ret. typeclasses eauto.
  - apply read_moves.
Qed.

Lemma open_confined path : confined (Open cwd path).
Proof.
  unfold Open, on_path. destruct (String.eqb path "").
  - apply preserves_ret. typeclasses eauto.
  - apply call_reads.
Qed.

Lemma read_all_confined r : confined (read_all r).
Proof. apply call_reads. Qed.

Lemma stat_confined path : confined (Stat cwd path).
Proof.
  unfold Stat, on_path. destruct (String.eqb path "").
  - apply preserves_ret. typeclasses eauto.
  - apply call_reads.
Qed.

Lemma prune_confined fuel ds :
  Clean (basePath s) = basePath s -> Forall proper ds ->
  confined (prune cwd s fuel (render rooted (base ++ ds))).
Proof.
  intros Hc. revert ds. induction fuel as [|fuel IH]; intros ds Hd; cbn [prune].
  { apply preserves_ret. typeclasses eauto. }
  destruct (String.eqb_spec (render rooted (base ++ ds)) (basePath s)) as [|Hne].
  { apply preserves_ret. typeclasses eauto. }
  destruct ds as [|x ds _] using rev_ind.
  { by rewrite app_nil_r, <- Clean_render in Hne. }
  apply Forall_app in Hd as [Hd Hx]. apply Forall_cons_1 in Hx as [Hx _].
  rewrite (app_assoc base ds [x]). rewrite file_Dir by done.
  apply preserves_bind; [typeclasses eauto | by apply remove_confined|].
  intros [u|e]; [by apply IH | apply preserves_ret; typeclasses eauto].
Qed.

#[local] Hint Resolve mkdir_confined create_confined copy_confined sidecar_confined remove_confined
  read_confined open_confined read_all_confined stat_confined proper_suffix : registry.

Lemma upload_confined path r size : named -> below_root path -> confined (Upload cwd s path r size).
Proof.
  intros Hn Hb. unfold Upload.
  destruct (safeJoin s path) as [full|e] eqn:E; [|preserve].
  destruct (safeJoin_object _ _ Hn Hb E) as (ds & x & Hd & Hx & ->). preserve.
Qed.

Lemma metadata_confined path : named -> below_root path -> confined (GetMetadata cwd dir_size s path).
Proof.
  intros Hn Hb. unfold GetMetadata.
  destruct (safeJoin s path) as [full|e] eqn:E; [|preserve].
  destruct (safeJoin_object _ _ Hn Hb E) as (ds & x & Hd & Hx & ->). preserve.
Qed.

Lemma reads_confined path :
  confined (Download cwd s path) /\ confined (Exists cwd s path) /\ confined (GetURL cwd s path).
Proof.
  assert (He : confined (Exists cwd s path)) by (unfold Exists; preserve).
  split; [unfold Download; preserve|]. split; [exact He|]. unfold GetURL. preserve.
Qed.

Lemma delete_confined path :
  named -> Clean (basePath s) = basePath s -> below_root path -> confined (Delete cwd s path).
Proof.
  intros Hn Hc Hb. unfold Delete.
  destruct (safeJoin s path) as [full|e] eqn:E; [|preserve].
  destruct (safeJoin_object _ _ Hn Hb E) as (ds & x & Hd & Hx & ->).
  rewrite file_sidecar, file_Dir by done. pose proof (prune_confined) as Hp. preserve.
Qed.

(** *** Any key at all *)

(** On a well-formed tree with its base directory, only nodes below the base
    directory change. *)
Definition stays_below (f f' : fs) : Prop :=
  closed (nodes f) -> node_at (nodes f) root = Some Dir -> moves_below root f f'.

Lemma root_nonempty : named -> root <> [].
Proof.
  intros Hn E. pose proof Hn as (l & x & Eb & Hx). pose proof base_canon as Hc. rewrite Eb in Hc.
  destruct (canon_last _ _ _ Hc Hx) as [Hl Hp]. rewrite root_render, Eb, loc_app in E by
    (try done; by apply Forall_singleton). by destruct (loc cwd (render rooted l)).
Qed.

Lemma root_survives f f' :
  root <> [] -> node_at (nodes f) root = Some Dir -> moves_below root f f' ->
  node_at (nodes f') root = Some Dir.
Proof.
  intros Hne Hd [_ Hw]. destruct (Hw root) as [E|(E & _ & _)].
  - intros (y & rest & E). apply (f_equal length) in E. rewrite length_app in E. cbn in E. lia.
  - destruct root; [done|]. cbn in *. by rewrite E.
  - destruct root; [done|]. cbn in Hd. congruence.
Qed.

#[export] Instance stays_below_preorder : root <> [] -> PreOrder stays_below.
Proof.
  intros Hne. split; [intros f _ _; reflexivity|]. intros f1 f2 f3 H12 H23 Hc Hd.
  specialize (H12 Hc Hd). etransitivity; [exact H12|].
  apply H23; [by apply H12 | by eapply root_survives].
Qed.

(** A key that denotes the base directory itself is refused by the system. *)
Lemma upload_at_base path r size w :
  named -> safeJoin s path = Ok (render rooted base) ->
  on_st stays_below w (snd (Upload cwd s path r size w)).
Proof.
  intros Hn Hs Hc Hd. pose proof (root_nonempty Hn) as Hne. unfold Upload. rewrite Hs.
  assert (Hm : on_st (moves_below root) w (snd (MkdirAll cwd (Filepath.Dir (render rooted base)) w))).
  { pose proof Hn as (l & x & Eb & Hx). pose proof base_canon as Hcb. rewrite Eb in Hcb.
    destruct (canon_last _ _ _ Hcb Hx) as [Hl Hp]. rewrite Eb, Dir_snoc by done.
    unfold MkdirAll. rewrite on_path_render by done. apply mkdir_all_moves; [|done]. cbn [app].
    right. exists [x]. rewrite root_render, Eb. apply loc_app; [done | by apply Forall_singleton]. }
  unfold bind at 1. destruct (MkdirAll _ _ w) as [[u|e] w1]; cbn [fst snd] in *; [|exact Hm].
  pose proof (root_survives _ _ Hne Hd Hm) as Hd1.
  assert (Hf : exists e, fst (Create cwd (render rooted base) w1) = Err e /\
                         st (snd (Create cwd (render rooted base) w1)) = st w1).
  { unfold Create. rewrite on_path_render, <- root_render by apply base_canon.
    unfold open_create, call, db. rewrite (proj2 (stat_iff _ _ Dir (proj1 Hm Hc)) Hd1).
    destruct (faults w1) as [|[] fs']; cbn; eexists; (split; [done|]); by destruct (st w1). }
  destruct Hf as (e & He & Est). unfold bind at 1. rewrite He. cbn [snd ret]. rewrite Est. exact Hm.
Qed.

Lemma upload_stays path r size : named -> preserves (on_st stays_below) (Upload cwd s path r size).
Proof.
  intros Hn w. destruct (safeJoin s path) as [full|e] eqn:E.
  2:{ unfold Upload. rewrite E. intros _ _. reflexivity. }
  destruct (decide (join_onto rooted base path = base)) as [Eb|Hb].
  - apply upload_at_base; [done|]. apply safeJoin_iff in E as (rest & Er & _ & ->); [|done].
    rewrite Eb in Er. assert (rest = []) as -> by (apply (f_equal length) in Er; rewrite length_app in Er;
      destruct rest; [done | cbn in Er; lia]).
    apply safeJoin_iff; [done|]. exists []. by rewrite app_nil_r.
  - intros _ _. by apply upload_confined.
Qed.
End Objects.
