(* ===== verification/StorageSpec.v ===== *)
(** * What the local backend promises

    The backend as a map from keys to contents: [objects] reads the map off the
    directory tree, and each operation is proved to act on it as the [Storage]
    interface says.  Then confinement to the base directory, the metadata round
    trip, the termination of the directory clean-up, and where the promise ends. *)

From S2P Require Import Prelude GoStrings Filepath Os LocalStorage.
From stdpp Require Import gmap.

(** Segment lists and strings determine each other. *)
Lemma join_split k : join_segs (split_on "/" k) = k.
Proof.
  induction k as [|c k IH]; [done|]. cbn [split_on].
  destruct (split_on_cons "/" k) as (w & ws & E). rewrite E in IH |- *.
  destruct (Ascii.eqb_spec c "/") as [->|].
  - change (join_segs ("" :: w :: ws)) with ("" +:+ "/" +:+ join_segs (w :: ws)). by rewrite IH.
  - rewrite <- IH. destruct ws; [done|]. done.
Qed.

Lemma split_inj k k' : split_on "/" k = split_on "/" k' -> k = k'.
Proof. intros E. by rewrite <- (join_split k), E, join_split. Qed.

Lemma has_suffix_app k suf : has_suffix (k +:+ suf) suf = true.
Proof.
  unfold has_suffix. rewrite length_append_s.
  replace (String.length k + String.length suf - String.length suf)%nat with (String.length k) by lia.
  rewrite sdrop_app, String.eqb_refl. apply andb_true_iff. split; [apply Nat.leb_le; lia | done].
Qed.

(** ** Keys and objects *)

(** A clean relative key that is not a checksum sidecar's. *)
Definition file_key (k : string) : Prop :=
  Forall proper (split_on "/" k) /\ has_suffix k ".sha256" = false.

#[export] Instance proper_dec x : Decision (proper x).
Proof. unfold proper. apply _. Defined.
#[export] Instance file_key_dec k : Decision (file_key k).
Proof. unfold file_key. apply _. Defined.

(** ** The specification *)

(** What callers see: contents by key. *)
Definition store_map : Type := string -> option string.

Inductive request :=
| RUpload (k : string) (r : reader)
| RDownload (k : string)
| RExists (k : string)
| RDelete (k : string).

Inductive reply :=
| Stored (size : Z) (checksum : string)
| Content (c : string)
| Found (b : bool)
| Deleted
| Failed.

Definition same_but (k : string) (m m' : store_map) : Prop := forall k', k' <> k -> m' k' = m k'.

Section Spec.
Context `{Sha256}.

(** What a store may do.  An upload or a deletion that fails leaves every other
    key alone; reading never changes anything, and a key that is not found has no
    content. *)
Inductive store_does : request -> store_map -> reply -> store_map -> Prop :=
| upload_stores k c m m' :
    same_but k m m' -> m' k = Some c ->
    store_does (RUpload k (c, None)) m (Stored (Z.of_nat (String.length c)) (sha256_hex c)) m'
| upload_fails k r m m' : same_but k m m' -> store_does (RUpload k r) m Failed m'
| download_reads k c m m' :
    (forall k', m' k' = m k') -> m k = Some c -> store_does (RDownload k) m (Content c) m'
| download_fails k m m' : (forall k', m' k' = m k') -> store_does (RDownload k) m Failed m'
| exists_finds k b m m' :
    (forall k', m' k' = m k') -> (is_Some (m k) -> b = true) -> store_does (RExists k) m (Found b) m'
| exists_fails k m m' : (forall k', m' k' = m k') -> store_does (RExists k) m Failed m'
| delete_removes k m m' :
    same_but k m m' -> m' k = None -> store_does (RDelete k) m Deleted m'
| delete_fails k m m' : same_but k m m' -> store_does (RDelete k) m Failed m'.

(** The backend's answer to a request. *)
Definition serve (cwd : list string) (s : LocalStorage) (q : request) : prog (env fs) reply :=
  match q with
  | RUpload k r =>
      let! u := Upload cwd s k r (Z.of_nat (String.length (fst r))) in
      ret (match u with Ok u => Stored (ur_Size u) (ur_Checksum u) | Err _ => Failed end)
  | RDownload k =>
      let! f := Download cwd s k in
      ret (match f with Ok (c, None) => Content c | _ => Failed end)
  | RExists k =>
      let! b := LocalStorage.Exists cwd s k in ret (match b with Ok b => Found b | Err _ => Failed end)
  | RDelete k =>
      let! d := LocalStorage.Delete cwd s k in ret (match d with Ok _ => Deleted | Err _ => Failed end)
  end.

Definition key_of (q : request) : string :=
  match q with RUpload k _ | RDownload k | RExists k | RDelete k => k end.
End Spec.

Section Refinement.
Context (cwd : list string) `{Sha256} (dir_size : Z) (s : LocalStorage) (Hn : named s).

Abbreviation root := (loc cwd (basePath s)).
Definition object_at (k : string) : list string := root ++ split_on "/" k.

(** The object stored under a key. *)
Definition objects (w : env fs) : store_map := fun k =>
  if decide (file_key k) then
    match node_at (nodes (st w)) (object_at k) with Some (File c) => Some c | _ => None end
  else None.

Lemma object_at_nonempty k : object_at k <> [].
Proof.
  unfold object_at. destruct (split_on_cons "/" k) as (x & xs & ->). by destruct root.
Qed.

Lemma object_lookup w k c :
  objects w k = Some c <-> file_key k /\ nodes (st w) !! object_at k = Some (File c).
Proof.
  unfold objects. pose proof (object_at_nonempty k) as Hne.
  destruct (decide (file_key k)) as [Hk|Hk]; [|split; [done | by intros [? _]]].
  destruct (object_at k) as [|y l]; [done|]. cbn.
  destruct (_ !! _) as [[|d]|]; split; try (intros [? ?]); try split; congruence.
Qed.

Lemma object_at_inj k k' : object_at k = object_at k' -> k = k'.
Proof. intros E. by apply app_inv_head, split_inj in E. Qed.

(** A key's file: its directory, its name and its sidecar. *)
Lemma key_path k :
  file_key k ->
  exists ds x, split_on "/" k = ds ++ [x] /\ Forall proper ds /\ proper x /\
    safeJoin s k = Ok (render (IsAbs (basePath s)) ((segs (basePath s) ++ ds) ++ [x])) /\
    root ++ ds ++ [x] = object_at k /\
    root ++ ds ++ [x +:+ ".sha256"] = object_at (k +:+ ".sha256").
Proof.
  intros [Hk _].
  assert (Hex : exists ds x, split_on "/" k = ds ++ [x]).
  { destruct (split_on "/" k) as [|x ds _] eqn:E using rev_ind; [|by exists ds, x].
    by apply split_on_nonempty in E. }
  destruct Hex as (ds & x & E). rewrite E in Hk.
  pose proof Hk as [Hd Hx]%Forall_app. apply Forall_cons_1 in Hx as [Hx _].
  exists ds, x. split; [done|]. split; [done|]. split; [done|]. split; [|split].
  - apply safeJoin_iff; [done|]. exists (ds ++ [x]). rewrite <- app_assoc. split; [|by split].
    unfold join_onto. rewrite E, clean_fold_proper by done.
    by rewrite rev_app_distr, !rev_involutive.
  - unfold object_at. by rewrite E.
  - unfold object_at. f_equal. rewrite <- (join_split k), E.
    change (join_segs (ds ++ [x]) +:+ ".sha256") with (join_segs (ds ++ [x]) +:+ ".sha256").
    assert (Ej : join_segs (ds ++ [x]) +:+ ".sha256" = join_segs (ds ++ [x +:+ ".sha256"])).
    { destruct ds as [|d ds]; [done|]. by rewrite !join_segs_snoc, !append_assoc_s by done. }
    rewrite Ej, split_join; [done| |by destruct ds].
    apply Forall_app. split; [eapply List.Forall_impl; [|exact Hd]; by intros y (? & _ & _ & ?)|].
    apply Forall_singleton. pose proof (proper_suffix _ Hx) as (? & _ & _ & ?). done.
Qed.

Lemma key_below k : file_key k -> below_root s k.
Proof.
  intros Hk E. destruct (key_path k Hk) as (ds & x & Es & Hd & Hx & _).
  unfold join_onto in E. rewrite Es, clean_fold_proper in E.
  - rewrite rev_app_distr, !rev_involutive in E. apply (f_equal length) in E.
    rewrite !length_app in E. cbn in E. lia.
  - apply Forall_app. split; [done | by apply Forall_singleton].
Qed.

(** The other keys' objects, when only a key's file and sidecar change. *)
Lemma keeps_objects w w' k :
  on_st (keeps [object_at k; object_at (k +:+ ".sha256")]) w w' -> same_but k (objects w) (objects w').
Proof.
  intros Hk k' Hne.
  assert (Hout : file_key k' -> ~ In (object_at k') [object_at k; object_at (k +:+ ".sha256")]).
  { intros [_ Hs] [E|[E|[]]]; apply object_at_inj in E; [by subst|].
    subst k'. by rewrite has_suffix_app in Hs. }
  apply option_eq. intros c. rewrite !object_lookup. split; intros [Hf Hc]; (split; [done|]);
    destruct (Hk _ c (Hout Hf)); auto.
Qed.

Lemma keeps_all w w' : on_st (keeps []) w w' -> forall k, objects w' k = objects w k.
Proof.
  intros Hk k. apply option_eq. intros c. rewrite !object_lookup.
  split; intros [Hf Hc]; (split; [done|]);
    destruct (Hk (object_at k) c (in_nil (a := _))); auto.
Qed.

(** ** The clean-up of empty directories *)

(** Removing the directory a cleaned path names: either it fails and changes
    nothing, or the directory was there and its parent is not a file. *)
Lemma Remove_dir r l w :
  canon r l -> closed (nodes (st w)) ->
  match fst (Remove cwd (render r l) w) with
  | Err _ => nodes (st (snd (Remove cwd (render r l) w))) = nodes (st w)
  | Ok _ => exists l' y, l = l' ++ [y] /\ canon r l' /\
      node_at (nodes (st w)) (loc cwd (render r l')) = Some Dir /\
      loc cwd (render r l) = loc cwd (render r l') ++ [y] /\
      nodes (st (snd (Remove cwd (render r l) w))) = delete (loc cwd (render r l)) (nodes (st w))
  end.
Proof.
  intros Hc Hcl. unfold Remove. rewrite segs_render by done.
  assert (He : forall e, match fst (call (A := unit) "remove" (fun t => (Err e, t)) w) with
            | Err _ => nodes (st (snd (call (A := unit) "remove" (fun t => (Err e, t)) w))) = nodes (st w)
            | Ok _ => False end).
  { intros e. unfold call, db. by destruct (faults w) as [|[] fls]. }
  destruct l as [|y l _] using rev_ind.
  - cbn [rev]. rewrite IsAbs_render by constructor. destruct r.
    + rewrite on_path_render by done. unfold remove_at, call, db.
      by destruct (faults w) as [|[] fls].
    + specialize (He (ErrExt "EINVAL")). by destruct (call _ _ w) as [[u|e] w'].
  - rewrite rev_app_distr. cbn [rev app]. destruct (String.eqb_spec y "..") as [->|Hy].
    + specialize (He (ErrExt "ENOTEMPTY")). by destruct (call _ _ w) as [[u|e] w'].
    + rewrite on_path_render by done. pose proof (canon_last r l y Hc Hy) as [Hl Hp].
      rewrite (loc_app cwd r l [y] Hl (proj2 (Forall_singleton _ _) Hp)).
      assert (Hne : loc cwd (render r l) ++ [y] <> []) by by destruct (loc cwd (render r l)).
      pose proof (remove_outcome _ w Hcl Hne) as Ho.
      destruct (remove_at _ w) as [[u|e] w']; cbn [fst snd] in *; [|by destruct Ho].
      destruct Ho as [[n En] ->]. exists l, y. split; [done|]. split; [done|]. split; [|by split].
      exact (Hcl _ y n En).
Qed.

Lemma closed_remove path w : closed (nodes (st w)) -> closed (nodes (st (snd (Remove cwd path w)))).
Proof.
  assert (Hm : preserves (on_st (moves_below [])) (Remove cwd path)); [|intros Hc; by apply (Hm w)].
  assert (Hr : forall p, preserves (on_st (moves_below [])) (remove_at p)).
  { intros [|x p]; [apply call_reads | apply remove_moves; by exists x, p]. }
  unfold Remove, on_path. preserve; apply call_reads.
Qed.

Lemma prune_keeps Q fuel r l w :
  canon r l -> closed (nodes (st w)) ->
  (forall c, node_at (nodes (st w)) (loc cwd (render r l)) <> Some (File c)) ->
  on_st (keeps Q) w (snd (prune cwd s fuel (render r l) w)).
Proof.
  revert l w. induction fuel as [|fuel IH]; intros l w Hc Hcl Hd; cbn [prune]; [reflexivity|].
  destruct (String.eqb _ _); [reflexivity|]. unfold bind. cbn.
  pose proof (Remove_dir r l w Hc Hcl) as Hr. pose proof (closed_remove (render r l) w Hcl) as Hcl'.
  destruct (Remove cwd (render r l) w) as [[u|e] w1] eqn:E; cbn [fst snd ret] in *.
  - destruct Hr as (l' & y & -> & Hc' & Hpar & Hloc & Hdel).
    rewrite Hloc in *. set (q := loc cwd (render r l')) in *.
    assert (Hq : q ++ [y] <> []) by by destruct q.
    assert (Hna : forall t : tree, node_at t (q ++ [y]) = t !! (q ++ [y])) by by destruct q.
    rewrite Hna in Hd. assert (Hk : on_st (keeps Q) w w1).
    { intros p c _. cbn. rewrite Hdel. destruct (decide (q ++ [y] = p)) as [<-|Hne].
      - rewrite lookup_delete_eq. split; [intros E'; by apply Hd in E' | done].
      - by rewrite lookup_delete_ne. }
    etransitivity; [exact Hk|]. rewrite Dir_snoc by done. apply IH; [done|done|].
    intros c. fold q. rewrite Hdel. destruct q as [|z q']; [done|]. cbn. rewrite lookup_delete_ne.
    + cbn in Hpar. congruence.
    + intros E'. apply (f_equal length) in E'. cbn in E'. rewrite length_app in E'. cbn in E'. lia.
  - intros p c _. cbn. by rewrite Hr.
Qed.

(** The loop ends: each round drops a segment, and the path without segments
    cannot be removed. *)
Lemma prune_ends fuel r l w :
  canon r l -> closed (nodes (st w)) -> (length l < fuel)%nat ->
  fst (prune cwd s fuel (render r l) w) = Some tt.
Proof.
  revert l w. induction fuel as [|fuel IH]; intros l w Hc Hcl Hf; [lia|]. cbn [prune].
  destruct (String.eqb _ _); [done|]. unfold bind.
  pose proof (Remove_dir r l w Hc Hcl) as Hr. pose proof (closed_remove (render r l) w Hcl) as Hcl'.
  destruct (Remove cwd (render r l) w) as [[u|e] w1] eqn:E; cbn [fst snd ret] in *; [|done].
  destruct Hr as (l' & y & -> & Hc' & _). rewrite Dir_snoc by done. apply IH; [done|done|].
  rewrite length_app in Hf. cbn in Hf. lia.
Qed.

Lemma prune_shrinks fuel d : preserves (on_st shrinks) (prune cwd s fuel d).
Proof.
  revert d. induction fuel as [|fuel IH]; intros d; cbn [prune]; pose proof (Remove_shrinks cwd); preserve.
Qed.

(** ** Operations on one key *)

Section Key.
Context (k : string) (ds : list string) (x : string) (Hd : Forall proper ds) (Hx : proper x)
  (Hfile : root ++ ds ++ [x] = object_at k)
  (Hside : root ++ ds ++ [x +:+ ".sha256"] = object_at (k +:+ ".sha256")).

Abbreviation rooted := (IsAbs (basePath s)).
Abbreviation dir := (segs (basePath s) ++ ds).
Abbreviation file := (render rooted (dir ++ [x])).
Abbreviation mine := [object_at k; object_at (k +:+ ".sha256")].

Lemma on_file {A} (f : list string -> prog (env fs) (res A)) : on_path cwd file f = f (object_at k).
Proof. rewrite on_path_render by by apply file_canon. by rewrite file_loc, Hfile. Qed.

Lemma on_sidecar {A} (f : list string -> prog (env fs) (res A)) :
  on_path cwd (file +:+ ".sha256") f = f (object_at (k +:+ ".sha256")).
Proof.
  pose proof (proper_suffix _ Hx). rewrite file_sidecar, on_path_render by by apply file_canon.
  by rewrite file_loc, Hside.
Qed.

Lemma Remove_file : Remove cwd file = remove_at (object_at k).
Proof.
  rewrite Remove_render; [|by apply file_canon | by destruct Hx as (_ & _ & ? & _)].
  by rewrite file_loc, Hfile.
Qed.

Lemma Remove_sidecar : Remove cwd (file +:+ ".sha256") = remove_at (object_at (k +:+ ".sha256")).
Proof.
  pose proof (proper_suffix _ Hx) as Hx'.
  rewrite file_sidecar, Remove_render; [|by apply file_canon | by destruct Hx' as (_ & _ & ? & _)].
  by rewrite file_loc, Hside.
Qed.

Lemma file_not_sidecar : object_at k <> object_at (k +:+ ".sha256").
Proof.
  intros E%object_at_inj. apply (f_equal String.length) in E. rewrite length_append_s in E.
  cbn in E. lia.
Qed.

Lemma mkdir_keeps Q path : preserves (on_st (keeps Q)) (MkdirAll cwd path).
Proof.
  intros w. unfold MkdirAll, on_path. destruct (String.eqb path ""); [cbn; reflexivity|].
  apply mkdir_all_keeps.
Qed.

Lemma sidecar_keeps d : preserves (on_st (keeps [object_at (k +:+ ".sha256")])) (WriteFile cwd (file +:+ ".sha256") d).
Proof.
  unfold WriteFile. rewrite on_sidecar. apply preserves_bind; [typeclasses eauto | by apply open_keeps; left|].
  intros [u|e]; [by apply write_keeps; left | apply preserves_ret; typeclasses eauto].
Qed.

Lemma keeps_weaken Q Q' {A} (c : prog (env fs) A) :
  (forall p, In p Q -> In p Q') -> preserves (on_st (keeps Q)) c -> preserves (on_st (keeps Q')) c.
Proof. intros HQ Hc w p d Hp. apply (Hc w). auto. Qed.

Lemma copy_keeps r : preserves (on_st (keeps mine)) (Copy cwd file r).
Proof.
  unfold Copy. rewrite on_file. apply preserves_bind; [typeclasses eauto | by apply write_keeps; left|].
  intros [u|e]; apply preserves_ret; typeclasses eauto.
Qed.

Lemma create_keeps : preserves (on_st (keeps mine)) (Create cwd file).
Proof. unfold Create. rewrite on_file. apply open_keeps. by left. Qed.

Lemma remove_keeps : preserves (on_st (keeps mine)) (Remove cwd file).
Proof. rewrite Remove_file. apply remove_file_keeps. by left. Qed.

Lemma upload_keeps r size :
  safeJoin s k = Ok file -> preserves (on_st (keeps mine)) (Upload cwd s k r size).
Proof.
  intros Hs. unfold Upload. rewrite Hs.
  pose proof (mkdir_keeps mine) as H1. pose proof create_keeps as H2. pose proof (copy_keeps r) as H3.
  pose proof remove_keeps as H4.
  assert (H5 : forall d, preserves (on_st (keeps mine)) (WriteFile cwd (file +:+ ".sha256") d)).
  { intros d. eapply keeps_weaken; [|apply sidecar_keeps]. intros p [<-|[]]. right. by left. }
  preserve.
Qed.

(** A successful upload leaves its data under the key. *)
Lemma upload_outcome r size w u :
  safeJoin s k = Ok file -> fst (Upload cwd s k r size w) = Ok u ->
  nodes (st (snd (Upload cwd s k r size w))) !! object_at k = Some (File (fst r)) /\
  snd r = None /\ u = {| ur_Path := k; ur_Size := Z.of_nat (String.length (fst r));
                         ur_Checksum := sha256_hex (fst r) |}.
Proof.
  intros Hs. destruct (Upload cwd s k r size w) as [o w'] eqn:E. cbn [fst snd]. intros ->.
  unfold Upload in E. rewrite Hs in E. unfold Create, Copy in E. rewrite !on_file in E. unfold bind in E.
  destruct (MkdirAll cwd (Filepath.Dir file) w) as [[m|e] w1]; cbn [fst snd ret] in E; [|done].
  pose proof (create_ok (object_at k) w1) as Hc.
  destruct (open_create true (object_at k) w1) as [[f|e] w2]; cbn [fst snd ret] in *; [|done].
  specialize (Hc f eq_refl). pose proof (copy_ok (object_at k) r w2) as Hw.
  destruct (copy_to (object_at k) r w2) as [[n|e] w3]; cbn [fst snd ret] in *; [|done].
  destruct (Hw n eq_refl Hc) as (Hw3 & Hr & ->). injection E as <- <-.
  split; [|by split]. apply (sidecar_keeps (sha256_hex (fst r)) w3); [|done].
  intros [E|[]]. by apply file_not_sidecar.
Qed.

(** A directory survives the removal of something in it. *)
Lemma dir_survives p y w : closed (nodes (st w)) -> node_at (nodes (st w)) p = Some Dir ->
  node_at (nodes (st (snd (remove_at (p ++ [y]) w)))) p = Some Dir.
Proof.
  intros Hc Hp. assert (Hne : p ++ [y] <> []) by by destruct p.
  pose proof (remove_outcome (p ++ [y]) w Hc Hne) as Ho.
  destruct (remove_at _ w) as [[u|e] w']; cbn [fst snd] in *; destruct Ho as [Ho Ho'].
  - rewrite Ho'. destruct p as [|z p]; [done|]. cbn. rewrite lookup_delete_ne; [done|].
    intros E. apply (f_equal length) in E. cbn in E. rewrite length_app in E. cbn in E. lia.
  - by rewrite Ho.
Qed.

(** Deleting changes at most the key's file and its sidecar; when it succeeds the
    file is gone. *)
Lemma delete_outcome w :
  safeJoin s k = Ok file -> closed (nodes (st w)) ->
  on_st (keeps mine) w (snd (LocalStorage.Delete cwd s k w)) /\
  (is_ok (fst (LocalStorage.Delete cwd s k w)) = true ->
   nodes (st (snd (LocalStorage.Delete cwd s k w))) !! object_at k = None).
Proof.
  intros Hs Hcl. unfold LocalStorage.Delete. rewrite Hs, Remove_file, Remove_sidecar. unfold bind.
  pose proof (remove_outcome (object_at k) w Hcl (object_at_nonempty k)) as Ho.
  pose proof (remove_file_keeps mine (object_at k) (or_introl eq_refl) w) as Hk1.
  pose proof (closed_remove file w Hcl) as Hcl1. rewrite Remove_file in Hcl1.
  assert (Hpar : forall n, nodes (st w) !! object_at k = Some n ->
            node_at (nodes (st (snd (remove_at (object_at k) w)))) (root ++ ds) = Some Dir).
  { intros n En. rewrite <- Hfile, app_assoc in En |- *. apply dir_survives; [done|]. by eapply Hcl. }
  destruct (remove_at (object_at k) w) as [[u|e] w1]; cbn [fst snd] in *.
  - destruct Ho as [[n En] Ho]. specialize (Hpar n En). rewrite file_Dir by done.
    pose proof (remove_file_keeps mine (object_at (k +:+ ".sha256")) (or_intror (or_introl eq_refl)) w1) as Hk2.
    pose proof (remove_shrinks (object_at (k +:+ ".sha256")) w1) as Hs2.
    pose proof (closed_remove (file +:+ ".sha256") w1 Hcl1) as Hcl2. rewrite Remove_sidecar in Hcl2.
    pose proof (dir_survives (root ++ ds) (x +:+ ".sha256") w1 Hcl1 Hpar) as Hpar2.
    rewrite <- app_assoc, Hside in Hpar2.
    destruct (remove_at (object_at (k +:+ ".sha256")) w1) as [r2 w2]; cbn [fst snd] in *.
    set (fuel := S (length (segs file))).
    assert (Hdc : canon rooted dir) by (apply named_canon; done).
    pose proof (prune_keeps mine fuel rooted dir w2 Hdc Hcl2) as Hk3.
    rewrite loc_object in Hk3 by done. specialize (Hk3 ltac:(intros c; by rewrite Hpar2)).
    pose proof (prune_shrinks fuel (render rooted dir) w2) as Hs3.
    destruct (prune cwd s fuel (render rooted dir) w2) as [r3 w3]; cbn [fst snd ret] in *.
    split; [by etransitivity; [|etransitivity]|]. intros _. apply Hs3, Hs2. rewrite Ho. apply lookup_delete_eq.
  - destruct Ho as [Ho Hne]. unfold IsNotExist. destruct (bool_decide (e = ErrNotExist)) eqn:Eb;
      cbn [fst snd ret is_ok]; (split; [exact Hk1|]); [|done].
    intros _. rewrite Ho. apply Hne. by apply bool_decide_eq_true in Eb.
Qed.
End Key.

(** ** The refinement *)

Lemma serve_closed q w : closed (nodes (st w)) -> file_key (key_of q) -> closed (nodes (st (snd (serve cwd s q w)))).
Proof.
  intros Hcl Hk. pose proof (key_below _ Hk) as Hb.
  assert (Hm : forall A (c : prog (env fs) A), preserves (on_st (moves_below root)) c ->
            closed (nodes (st (snd (c w))))) by (intros A c Hc; by apply (Hc w)).
  destruct q as [k r|k|k|k]; cbn [key_of serve] in *; unfold bind; cbn [fst snd ret].
  - by apply Hm, upload_confined.
  - by apply Hm, reads_confined.
  - by apply Hm, reads_confined.
  - assert (Hpr : forall fuel d w1, closed (nodes (st w1)) -> closed (nodes (st (snd (prune cwd s fuel d w1))))).
    { induction fuel as [|fuel IH]; intros d w1 Hc1; cbn [prune]; [done|].
      destruct (String.eqb _ _); [done|]. unfold bind. pose proof (closed_remove d w1 Hc1).
      by destruct (Remove cwd d w1) as [[u|e] w2]; [apply IH|]. }
    unfold LocalStorage.Delete. destruct (safeJoin s k) as [full|e]; [|done]. unfold bind.
    pose proof (closed_remove full w Hcl) as H1.
    destruct (Remove cwd full w) as [[u|e] w1]; cbn [fst snd ret] in *; [|by destruct (IsNotExist e)].
    by apply Hpr, closed_remove.
Qed.

(** Reading one key. *)
Lemma stat_key k w n :
  file_key k -> closed (nodes (st w)) -> stat_at (nodes (st w)) (object_at k) = Ok n ->
  objects w k = match n with File c => Some c | Dir => None end.
Proof.
  intros Hk Hc Hs. apply stat_iff in Hs; [|done]. unfold objects. rewrite decide_True by done.
  by rewrite Hs.
Qed.

Lemma stat_absent k w :
  closed (nodes (st w)) -> stat_at (nodes (st w)) (object_at k) = Err ErrNotExist -> objects w k = None.
Proof.
  intros Hc Hs. destruct (objects w k) as [c|] eqn:E; [|done]. apply object_lookup in E as [_ E].
  assert (En : node_at (nodes (st w)) (object_at k) = Some (File c)).
  { pose proof (object_at_nonempty k). by destruct (object_at k). }
  apply stat_iff in En; [|done]. by rewrite En in Hs.
Qed.

Lemma serve_refines q w :
  file_key (key_of q) -> closed (nodes (st w)) ->
  store_does q (objects w) (fst (serve cwd s q w)) (objects (snd (serve cwd s q w))).
Proof.
  intros Hk Hcl. destruct (key_path _ Hk) as (ds & x & _ & Hd & Hx & Hs & Hf & Hsd).
  assert (Hrd : forall {A} (c : prog (env fs) A), preserves (on_st (keeps [])) c ->
            forall k', objects (snd (c w)) k' = objects w k') by (intros A c Hc; by apply keeps_all).
  destruct q as [k [c re]|k|k|k]; cbn [key_of serve] in *; unfold bind; cbn [fst snd ret].
  - pose proof (upload_keeps k ds x Hd Hx Hf Hsd (c, re) (Z.of_nat (String.length c)) Hs w) as Hkp.
    pose proof (fun u => upload_outcome k ds x Hd Hx Hf Hsd (c, re) (Z.of_nat (String.length c)) w u Hs) as Ho.
    destruct (Upload cwd s k (c, re) _ w) as [[u|e] w']; cbn [fst snd] in *.
    + destruct (Ho u eq_refl) as (Hn' & -> & ->). constructor; [by apply keeps_objects|].
      by apply object_lookup.
    + constructor. by apply keeps_objects.
  - unfold Download. rewrite Hs. unfold Open. rewrite (on_file k ds x Hd Hx Hf). unfold bind.
    pose proof (Hrd _ (open_at (object_at k)) (reading_keeps [] _ _)) as Hsame.
    assert (Ho : forall r, fst (open_at (object_at k) w) = Ok r -> snd r = None -> objects w k = Some (fst r)).
    { intros r Hr Hn'. apply call_ok in Hr as [Hr _]. cbn in Hr.
      destruct (stat_at _ _) as [[|d]|e] eqn:E; simplify_eq. by rewrite (stat_key _ _ _ Hk Hcl E). }
    destruct (open_at (object_at k) w) as [[[d [e|]]|e] w']; cbn [fst snd ret] in *.
    + by constructor.
    + constructor; [done|]. exact (Ho _ eq_refl eq_refl).
    + destruct (IsNotExist e); by constructor.
  - unfold LocalStorage.Exists. rewrite Hs. unfold Stat. rewrite (on_file k ds x Hd Hx Hf). unfold bind.
    pose proof (Hrd _ (stat_call (object_at k)) (reading_keeps [] _ _)) as Hsame.
    assert (Ho : fst (stat_call (object_at k) w) = Err ErrNotExist -> objects w k = None).
    { unfold stat_call, call, db. destruct (faults w) as [|[] fls]; [|done|]; by apply stat_absent. }
    destruct (stat_call (object_at k) w) as [[n|e] w']; cbn [fst snd ret] in *.
    + by constructor.
    + unfold IsNotExist. destruct (bool_decide _) eqn:Eb; cbn [fst snd ret]; constructor; try done.
      apply bool_decide_eq_true in Eb as ->. rewrite (Ho eq_refl). by intros [? ?].
  - destruct (delete_outcome k ds x Hd Hx Hf Hsd w Hs Hcl) as [Hkp Ho].
    destruct (LocalStorage.Delete cwd s k w) as [[u|e] w']; cbn [fst snd is_ok] in *.
    + constructor; [by apply keeps_objects|]. specialize (Ho eq_refl).
      destruct (objects w' k) as [c|] eqn:E; [|done]. apply object_lookup in E as [_ E]. congruence.
    + constructor. by apply keeps_objects.
Qed.

(** A sequence of requests. *)
Fixpoint serve_all (qs : list request) : prog (env fs) (list reply) :=
  match qs with
  | [] => ret []
  | q :: qs' =>
      let! a := serve cwd s q in
      let! r := serve_all qs' in ret (a :: r)
  end.
End Refinement.

Inductive store_runs `{Sha256} : list request -> store_map -> list reply -> store_map -> Prop :=
| runs_nil m : store_runs [] m [] m
| runs_cons q qs a r m m1 m' :
    store_does q m a m1 -> store_runs qs m1 r m' -> store_runs (q :: qs) m (a :: r) m'.

(** C9: the local backend implements the store it promises: on a well-formed
    directory tree and clean keys, whatever system calls fail, every sequence of
    uploads, downloads, existence checks and deletions answers and acts as a map
    from keys to contents: an upload that reports success stores exactly the data
    read, with its size and digest, a download returns what is stored, a deletion
    that reports success leaves nothing, no operation changes another key, and no
    stored key is reported missing. *)
Theorem local_storage_refines_map `{Sha256} cwd s qs w :
  named s -> Forall (fun q => file_key (key_of q)) qs -> closed (nodes (st w)) ->
  store_runs qs (objects cwd s w) (fst (serve_all cwd s qs w)) (objects cwd s (snd (serve_all cwd s qs w))).
Proof.
  intros Hn Hq. revert w. induction Hq as [|q qs Hk Hq IH]; intros w Hcl; cbn [serve_all].
  { constructor. }
  unfold bind at 1 4. cbn [fst snd]. econstructor; [by apply serve_refines | by apply IH, serve_closed].
Qed.

(** ** Calls that meet no failure *)

Definition calm (w w' : env fs) : Prop := faults w = [] -> faults w' = [].

#[export] Instance calm_preorder : PreOrder calm.
Proof. split; [by intros w Hw | intros w1 w2 w3 H1 H2; unfold calm; auto]. Qed.

Lemma call_calm {A} (op : string) (f : tree -> res A * tree) : preserves calm (call op f).
Proof. intros w Hw. unfold call, db. by rewrite Hw. Qed.

Lemma write_calm p d : preserves calm (write_at p d).
Proof. intros w Hw. unfold write_at. rewrite Hw. unfold call, db. by rewrite Hw. Qed.

Lemma mkdir_all_calm pre rest : preserves calm (mkdir_all pre rest).
Proof.
  revert pre. induction rest as [|y rest IH]; intros pre; cbn [mkdir_all].
  - apply preserves_ret. typeclasses eauto.
  - apply preserves_bind; [typeclasses eauto | by intros w|]. intros [[|c]|]; [apply IH | |].
    + apply preserves_ret. typeclasses eauto.
    + apply preserves_bind; [typeclasses eauto | apply call_calm|].
      intros [u|e]; [apply IH | apply preserves_ret; typeclasses eauto].
Qed.

Lemma remove_calm p : preserves calm (remove_at p).
Proof. apply call_calm. Qed.

Lemma on_path_calm {A} cwd path (f : list string -> prog (env fs) (res A)) :
  (forall p, preserves calm (f p)) -> preserves calm (on_path cwd path f).
Proof.
  intros Hf. unfold on_path. destruct (String.eqb path ""); [|apply Hf].
  apply preserves_ret. typeclasses eauto.
Qed.

Lemma copy_calm p r : preserves calm (copy_to p r).
Proof. unfold copy_to. pose proof (write_calm p (fst r)). preserve. Qed.

Lemma write_file_at_calm p d : preserves calm (write_file_at p d).
Proof.
  unfold write_file_at. pose proof (write_calm p d).
  apply preserves_bind; [typeclasses eauto | apply call_calm|]. intros [u|e]; [done|].
  apply preserves_ret. typeclasses eauto.
Qed.

Lemma upload_calm `{Sha256} cwd s k r size : preserves calm (Upload cwd s k r size).
Proof.
  assert (H1 : forall path, preserves calm (MkdirAll cwd path)) by (intros path; apply on_path_calm, mkdir_all_calm).
  assert (H2 : forall path, preserves calm (Create cwd path)) by (intros path; apply on_path_calm; intros p; apply call_calm).
  assert (H3 : forall path, preserves calm (Copy cwd path r)) by (intros path; apply on_path_calm; intros p; apply copy_calm).
  assert (H4 : forall path, preserves calm (Remove cwd path)).
  { intros path. unfold Remove. pose proof (on_path_calm cwd path _ remove_calm). preserve; apply call_calm. }
  assert (H5 : forall path d, preserves calm (WriteFile cwd path d))
    by (intros path d; apply on_path_calm; intros p; apply write_file_at_calm).
  unfold Upload. preserve.
Qed.

Lemma open_calm_file trunc p w c :
  faults w = [] -> closed (nodes (st w)) -> nodes (st w) !! p = Some (File c) -> p <> [] ->
  fst (open_create trunc p w) = Ok tt.
Proof.
  intros Hw Hc Hp Hne. assert (Hn : node_at (nodes (st w)) p = Some (File c)) by by destruct p.
  apply stat_iff in Hn; [|done]. unfold open_create, call, db. rewrite Hw. cbn. by rewrite Hn.
Qed.

Lemma open_err_same trunc p w e :
  fst (open_create trunc p w) = Err e -> nodes (st (snd (open_create trunc p w))) = nodes (st w).
Proof.
  unfold open_create, call, db. destruct (faults w) as [|[] fls]; cbn; [|done|]; by repeat case_goal; cbn.
Qed.

(** Writing a file without a failure: a file found there afterwards has that
    content. *)
Lemma write_file_calm p d w c :
  faults w = [] -> closed (nodes (st w)) -> p <> [] ->
  nodes (st (snd (write_file_at p d w))) !! p = Some (File c) -> c = d.
Proof.
  intros Hw Hcl Hne. unfold write_file_at, bind. pose proof (create_ok p w) as Hc.
  pose proof (open_err_same true p w) as He.
  pose proof (call_calm "open" _ w Hw : faults (snd (open_create true p w)) = []) as Hw1.
  pose proof (fun c' Hp => open_calm_file true p w c' Hw Hcl Hp Hne) as Hf.
  destruct (open_create true p w) as [[u|e] w1]; cbn [fst snd ret] in *.
  - specialize (Hc u eq_refl). unfold write_at. rewrite Hw1. unfold call, db. rewrite Hw1. cbn.
    unfold patch_at. rewrite Hc, lookup_insert_eq. intros [= <-]. apply patch_empty.
  - rewrite (He e eq_refl). intros Hp. by apply Hf in Hp.
Qed.

Section Roundtrip.
Context (cwd : list string) `{Sha256} `{!Sha256Laws} (dir_size : Z) (s : LocalStorage) (Hn : named s).

Lemma upload_sidecar k ds x r size w u c :
  Forall proper ds -> proper x ->
  loc cwd (basePath s) ++ ds ++ [x] = object_at cwd s k ->
  loc cwd (basePath s) ++ ds ++ [x +:+ ".sha256"] = object_at cwd s (k +:+ ".sha256") ->
  safeJoin s k = Ok (render (IsAbs (basePath s)) ((segs (basePath s) ++ ds) ++ [x])) ->
  faults w = [] -> closed (nodes (st w)) -> fst (Upload cwd s k r size w) = Ok u ->
  nodes (st (snd (Upload cwd s k r size w))) !! object_at cwd s (k +:+ ".sha256") = Some (File c) ->
  c = sha256_hex (fst r).
Proof.
  intros Hd Hx Hf Hsd Hs Hw Hcl. destruct (Upload cwd s k r size w) as [o w'] eqn:E. cbn [fst snd]. intros ->.
  unfold Upload in E. rewrite Hs in E. unfold bind in E.
  set (file := render (IsAbs (basePath s)) ((segs (basePath s) ++ ds) ++ [x])) in *.
  pose proof (mkdir_confined cwd s ds x Hd Hx w) as [Hc1 _].
  pose proof (on_path_calm cwd (Filepath.Dir file) _ (mkdir_all_calm []) w Hw) as Hw1.
  fold (MkdirAll cwd (Filepath.Dir file)) in Hw1. fold file in Hc1.
  destruct (MkdirAll cwd (Filepath.Dir file) w) as [[m|e] w1]; cbn [fst snd ret] in *; [|done].
  pose proof (create_confined cwd s ds x Hd Hx w1) as [Hc2 _].
  pose proof (on_path_calm cwd file _ (fun p => call_calm _ _) w1 Hw1 : faults (snd (Create cwd file w1)) = []) as Hw2.
  fold file in Hc2.
  destruct (Create cwd file w1) as [[f|e] w2]; cbn [fst snd ret] in *; [|done].
  pose proof (copy_confined cwd s ds x Hd Hx r w2) as [Hc3 _].
  pose proof (on_path_calm cwd file _ (fun p => copy_calm p r) w2 Hw2) as Hw3.
  fold (Copy cwd file r) in Hw3. fold file in Hc3.
  destruct (Copy cwd file r w2) as [[n|e] w3]; cbn [fst snd ret] in *; [|done].
  injection E as <- <-. unfold WriteFile. subst file. rewrite (on_sidecar cwd s k ds x Hd Hx Hsd).
  apply write_file_calm; [done | auto | apply object_at_nonempty].
Qed.

(** C32: what is uploaded is what is served: after an upload that met no failure,
    the key exists, downloading it yields the bytes uploaded, and its metadata are
    the size and the SHA-256 digest the upload reported, read from the checksum
    sidecar or, if there is none, computed from the content. *)
Theorem upload_roundtrip k c size w u :
  file_key k -> closed (nodes (st w)) -> faults w = [] ->
  fst (Upload cwd s k (c, None) size w) = Ok u ->
  let w' := snd (Upload cwd s k (c, None) size w) in
  fst (LocalStorage.Exists cwd s k w') = Ok true /\ fst (Download cwd s k w') = Ok (c, None) /\
  fst (GetMetadata cwd dir_size s k w') =
    Ok {| fm_Path := k; fm_Size := ur_Size u; fm_Checksum := ur_Checksum u |} /\
  ur_Size u = Z.of_nat (String.length c) /\ ur_Checksum u = sha256_hex c.
Proof.
  intros Hk Hcl Hw Hu. destruct (key_path cwd s Hn k Hk) as (ds & x & _ & Hd & Hx & Hs & Hf & Hsd).
  destruct (upload_outcome cwd s k ds x Hd Hx Hf Hsd (c, None) size w u Hs Hu) as (Hfile & _ & ->).
  pose proof (fun d => upload_sidecar k ds x (c, None) size w _ d Hd Hx Hf Hsd Hs Hw Hcl Hu) as Hside.
  pose proof (upload_confined cwd s k (c, None) size Hn (key_below cwd s Hn k Hk) w) as [Hcl' _].
  specialize (Hcl' Hcl). pose proof (upload_calm cwd s k (c, None) size w Hw) as Hw'.
  destruct (Upload cwd s k (c, None) size w) as [o w']. cbn [fst snd] in *. clear Hu o.
  assert (Hst : stat_at (nodes (st w')) (object_at cwd s k) = Ok (File c)).
  { apply stat_iff; [done|]. pose proof (object_at_nonempty cwd s k). by destruct (object_at cwd s k). }
  assert (Hcall : forall {A} (op : string) (f : tree -> res A * tree) w1, faults w1 = [] -> 
            call op f w1 = (fst (f (nodes (st w1))), Env (set_nodes (st w1) (snd (f (nodes (st w1))))) [] (clock w1) (ticks w1))).
  { intros A op f w1 H1. unfold call, db. by rewrite H1. }
  split; [|split; [|split; [|done]]].
  - unfold LocalStorage.Exists. rewrite Hs. unfold Stat, bind. rewrite (on_file cwd s k ds x Hd Hx Hf).
    unfold stat_call. rewrite Hcall by done. cbn. by rewrite Hst.
  - unfold Download. rewrite Hs. unfold Open, bind. rewrite (on_file cwd s k ds x Hd Hx Hf).
    unfold open_at. rewrite Hcall by done. cbn. by rewrite Hst.
  - unfold GetMetadata. rewrite Hs. unfold Stat, ReadFile, Open, WriteFile.
    rewrite !(on_sidecar cwd s k ds x Hd Hx Hsd), !(on_file cwd s k ds x Hd Hx Hf). unfold bind, stat_call.
    rewrite Hcall by done. cbn [fst snd]. rewrite Hst. set (w1 := Env _ _ _ _).
    assert (Hn1 : nodes (st w1) = nodes (st w')) by done. assert (Hw1 : faults w1 = []) by done.
    unfold read_at, open_at, read_all, bind. rewrite !Hcall by (try done; by rewrite Hcall). cbn [fst snd].
    rewrite Hn1. destruct (stat_at (nodes (st w')) (object_at cwd s (k +:+ ".sha256"))) as [[|d]|e] eqn:Ed.
    1,3: cbn; rewrite ?Hn1, ?Hst; repeat (rewrite Hcall by done; cbn; rewrite ?Hn1, ?Hst); done.
    apply stat_iff in Ed; [|done].
    assert (d = sha256_hex c) as ->.
    { apply Hside. pose proof (object_at_nonempty cwd s (k +:+ ".sha256")).
      by destruct (object_at cwd s (k +:+ ".sha256")). }
    rewrite Hcall by done. cbn -[trim_space]. by rewrite sha256_hex_trimmed.
Qed.
End Roundtrip.

(** the backend stays in its directory: whatever key is passed and whichever
    calls fail, reading changes nothing outside the base directory, and for keys
    that denote something below it neither do uploads and metadata queries - up to
    making the base directory and its parents where they are missing - nor, when
    the configured path is written in its cleaned form, deletions; and the
    directory tree stays well formed. *)
Theorem storage_stays_in_root `{Sha256} cwd dir_size s k w :
  named s -> below_root s k ->
  let inside w' := moves_below (loc cwd (basePath s)) (st w) (st w') in
  inside (snd (Download cwd s k w)) /\ inside (snd (LocalStorage.Exists cwd s k w)) /\
  inside (snd (GetURL cwd s k w)) /\ inside (snd (GetMetadata cwd dir_size s k w)) /\
  (forall r size, inside (snd (Upload cwd s k r size w))) /\
  (Clean (basePath s) = basePath s -> inside (snd (LocalStorage.Delete cwd s k w))).
Proof.
  intros Hn Hb inside. destruct (reads_confined cwd s k) as (H1 & H2 & H3).
  split; [apply H1|]. split; [apply H2|]. split; [apply H3|].
  split; [by apply metadata_confined|]. split; [intros r size; by apply upload_confined|].
  intros Hc. by apply delete_confined.
Qed.

(** the clean-up after a deletion ends: on a well-formed tree the loop over
    the parent directories stops within as many rounds as the path has segments,
    whether or not it ever meets the base directory. *)
Theorem delete_cleanup_ends cwd s k full w :
  safeJoin s k = Ok full -> closed (nodes (st w)) ->
  fst (prune cwd s (S (length (segs full))) (Filepath.Dir full) w) = Some tt.
Proof.
  intros Hs Hc.
  assert (HC : forall p, exists r l, Clean p = render r l /\ canon r l).
  { intros p. exists (IsAbs p), (segs p). split; [apply Clean_render | apply segs_canon]. }
  assert (Hf : full = "" \/ exists r l, full = render r l /\ canon r l).
  { unfold safeJoin in Hs. destruct (negb _); [done|]. injection Hs as <-. unfold Filepath.Join.
    destruct (String.eqb (basePath s) ""); [destruct (String.eqb k "")|]; auto. }
  destruct Hf as [->|(r & l & -> & Hl)].
  - apply (prune_ends cwd s 1 false []); [apply canon_nil | done | cbn; lia].
  - destruct (Dir_render r l Hl) as (l' & -> & Hl' & Hlen). rewrite segs_render by done.
    apply prune_ends; [done|done|lia].
Qed.

(** ** Concrete stores *)

(** A store under [/srv/registry], holding a module archive; the directory above
    it holds nothing else. *)
Definition registry : LocalStorage :=
  {| basePath := "/srv/registry"; serveDirectly := true; baseURL := "https://registry.example.com" |}.
Definition disk : env fs := quiet (Fs {[
  ["srv"] := Dir; ["srv"; "registry"] := Dir; ["srv"; "registry"; "m"] := Dir;
  ["srv"; "registry"; "m"; "a.zip"] := File "ZIP" ]} []).

#[local] Instance demo_sha : Sha256 := fun d => "d-" +:+ d.

Definition requests : list request :=
  [RExists "m/a.zip"; RDelete "m/a.zip"; RUpload "m/b.zip" ("NEW", None); RDownload "m/b.zip"].

Example requests_served :
  fst (serve_all ["srv"] registry requests disk)
  = [Found true; Deleted; Stored 3 "d-NEW"; Content "NEW"].
Proof. vm_compute. reflexivity. Qed.

Lemma disk_closed : closed (nodes (st disk)).
Proof. apply closedb_sound. vm_compute. reflexivity. Qed.

Lemma registry_named : named registry.
Proof. by exists ["srv"], "registry". Qed.

Theorem local_storage_refines_map_witness :
  Forall (fun q => file_key (key_of q)) requests /\
  store_runs requests (objects ["srv"] registry disk) [Found true; Deleted; Stored 3 "d-NEW"; Content "NEW"]
    (objects ["srv"] registry (snd (serve_all ["srv"] registry requests disk))).
Proof.
  assert (Hk : Forall (fun q => file_key (key_of q)) requests)
    by (apply (bool_decide_eq_true_1 _); vm_compute; reflexivity).
  split; [exact Hk|].
  exact (local_storage_refines_map ["srv"] registry requests disk registry_named Hk
           disk_closed).
Defined.

#[local] Instance tick_sha_laws : @Sha256Laws (fun _ => "abc").
Proof. by intros d. Qed.

Theorem upload_roundtrip_witness :
  faults disk = [] /\
  let w' := snd (@Upload ["srv"] (fun _ => "abc") registry "m/c.zip" ("NEW", None) 3 disk) in
  fst (Download ["srv"] registry "m/c.zip" w') = Ok ("NEW", None).
Proof.
  split; [reflexivity|].
  assert (Hk : file_key "m/c.zip") by (apply (bool_decide_eq_true_1 _); vm_compute; reflexivity).
  apply (@upload_roundtrip ["srv"] (fun _ => "abc") tick_sha_laws 4096 registry registry_named "m/c.zip" "NEW" 3
          disk {| ur_Path := "m/c.zip"; ur_Size := 3; ur_Checksum := "abc" |} Hk
          disk_closed eq_refl ltac:(vm_compute; reflexivity)).
Defined.

Theorem storage_stays_in_root_witness :
  Clean (basePath registry) = basePath registry /\
  moves_below ["srv"; "registry"] (st disk) (st (snd (LocalStorage.Delete ["srv"] registry "m/a.zip" disk))).
Proof.
  split; [reflexivity|].
  apply (storage_stays_in_root ["srv"] 4096 registry "m/a.zip" disk registry_named); [|reflexivity].
  intros E. vm_compute in E. discriminate.
Defined.

Theorem delete_cleanup_ends_witness :
  safeJoin registry "m/a.zip" = Ok "/srv/registry/m/a.zip" /\
  fst (prune ["srv"] registry 5 "/srv/registry/m" disk) = Some tt.
Proof.
  assert (Hs : safeJoin registry "m/a.zip" = Ok "/srv/registry/m/a.zip") by (vm_compute; reflexivity).
  split; [exact Hs|].
  exact (delete_cleanup_ends ["srv"] registry "m/a.zip" "/srv/registry/m/a.zip" disk Hs
           disk_closed).
Defined.

(** Where the promise ends: deleting the last object of the default store
    ([./storage]) also removes the store's own directory, since the loop compares
    cleaned directories with the path as configured; a checksum sidecar that could
    not be rewritten keeps the digest of the previous content, and the metadata
    report it; and a base directory reached through a parent reference alone does
    not contain its keys. *)
Example storage_edges :
  nodes (st (snd (LocalStorage.Delete ["srv"] store "a.zip"
    (quiet (Fs {[ ["srv"] := Dir; ["srv"; "storage"] := Dir; ["srv"; "storage"; "a.zip"] := File "ZIP" ]} [])))))
  = {[ ["srv"] := Dir ]} /\
  (let w1 := snd (Upload ["srv"] registry "m/b.zip" ("OLD", None) 3 disk) in
   let w2 := snd (Upload ["srv"] registry "m/b.zip" ("NEW", None) 3
                    (Env (st w1) [false; false; true] 0 [])) in
   fst (Download ["srv"] registry "m/b.zip" w2) = Ok ("NEW", None) /\
   fst (GetMetadata ["srv"] 4096 registry "m/b.zip" w2) =
     Ok {| fm_Path := "m/b.zip"; fm_Size := 3; fm_Checksum := "d-OLD" |}) /\
  safeJoin {| basePath := ".."; serveDirectly := true; baseURL := "" |} "../etc" = Ok "../../etc".
Proof. vm_compute. repeat split. Qed.
