(* ===== verification/Archive.v ===== *)
(** * Module archives

    The validator of uploaded archives ([internal/validation/archive.go]), the
    README extractor ([internal/validation/readme.go]) and the extractor used by the
    scanner, the analyzer and the SCM publisher ([internal/archiver/tarball.go]).
    A gzipped tar file is the sequence of entries Go's readers deliver from it;
    entries come with their bodies, and a body or the sequence may end in a read
    error.  The extractor works on the directory tree of [Os]. *)

From S2P Require Import Prelude GoStrings Filepath Os.
From stdpp Require Import gmap.

#[local] Open Scope Z_scope.

(** ** Archives as Go's readers deliver them *)

Definition TypeReg : ascii := "0".
Definition TypeLink : ascii := "1".
Definition TypeSymlink : ascii := "2".
Definition TypeDir : ascii := "5".

Record entry := {
  Name : string;
  Typeflag : ascii;
  body : reader;
}.

(** The entries, and how the sequence ends ([None]: [io.EOF]). *)
Definition archive : Type := list entry * option gerror.

(** [gzip.NewReader] and [tar.NewReader] over the given compressed bytes. *)
Class TarGz := open_targz : string -> res archive.

(** [io.LimitReader] *)
Fixpoint limit_string (n : Z) (s : string) : string :=
  match s with
  | EmptyString => EmptyString
  | String c s' => if n <=? 0 then EmptyString else String c (limit_string (n - 1) s')
  end.

Definition slen (s : string) : Z := Z.of_nat (String.length s).

(** The reader of a body cut at [n] bytes: a read error behind the cut is not
    met. *)
Definition limit_reader (n : Z) (r : reader) : reader :=
  (limit_string n (fst r), if n <=? slen (fst r) then None else snd r).

(** What [tar.Reader.Next] meets on its way to the next entry when a body has
    been read up to [n] bytes. *)
Definition skip_error (n : Z) (r : reader) : option gerror :=
  if n <=? slen (fst r) then snd r else None.

(** ** Validation *)

Definition MaxArchiveSize : Z := 100 * 1024 * 1024.
Definition MaxArchiveEntries : Z := 100000.

(** [len(path) >= 3 && path[1] == ':' && (path[2] == '\\' || path[2] == '/')] *)
Definition windows_absolute (path : string) : bool :=
  match path with
  | String _ (String c (String d _)) => Ascii.eqb c ":" && (Ascii.eqb d "\" || Ascii.eqb d "/")
  | _ => false
  end.

Definition validatePath (path : string) : option gerror :=
  let path := Clean path in
  if IsAbs path then Some (ErrMsg "absolute paths not allowed")
  else if windows_absolute path then Some (ErrMsg "absolute paths not allowed")
  else if contains path ".." then Some (ErrMsg "path traversal not allowed")
  else if has_prefix path "." && negb (String.eqb path ".") && has_prefix path ".git"
  then Some (ErrMsg "git directories not allowed in archives")
  else None.

Definition is_link (h : entry) : bool :=
  Ascii.eqb (Typeflag h) TypeSymlink || Ascii.eqb (Typeflag h) TypeLink.

Fixpoint validate_entries (maxSize totalSize fileCount : Z) (entries : list entry) (eof : option gerror)
  : option gerror :=
  match entries with
  | [] =>
      match eof with
      | Some e => Some (ErrWrap "invalid tar format" e)
      | None => if fileCount =? 0 then Some (ErrMsg "archive is empty") else None
      end
  | header :: entries' =>
      let fileCount := fileCount + 1 in
      if MaxArchiveEntries <? fileCount then Some (ErrMsg "archive exceeds maximum entry count")
      else match validatePath (Name header) with
      | Some e => Some (ErrWrap "invalid file path in archive" e)
      | None =>
      if is_link header then Some (ErrMsg "symlinks and hard links are not allowed in module archives")
      else
        let limited := limit_reader (wrap64 (maxSize - totalSize + 1)) (body header) in
        match snd limited with
        | Some e => Some (ErrWrap "failed to read archive entry" e)
        | None =>
            let totalSize := totalSize + slen (fst limited) in
            if maxSize <? totalSize then Some (ErrMsg "archive size exceeds maximum allowed size")
            else validate_entries maxSize totalSize fileCount entries' eof
        end
      end
  end.

Definition ValidateArchive `{TarGz} (r : string) (maxSize : Z) : option gerror :=
  let maxSize := if maxSize <=? 0 then MaxArchiveSize else maxSize in
  match open_targz (limit_string (wrap64 (maxSize + 1)) r) with
  | Err e => Some (ErrWrap "invalid gzip format" e)
  | Ok (entries, eof) => validate_entries maxSize 0 0 entries eof
  end.

(** ** The README *)

Definition readmeNames : list string :=
  ["README.md"; "readme.md"; "README.MD"; "README"; "readme"; "README.txt"; "readme.txt"].

Definition maxReadmeSize : Z := 1024 * 1024.

(** The first priority whose name folds to the file's. *)
Fixpoint match_readme (priority : nat) (names : list string) (fileName : string) : option nat :=
  match names with
  | [] => None
  | n :: names' =>
      if equal_fold fileName n then Some priority else match_readme (S priority) names' fileName
  end.

Fixpoint collect_readmes (candidates : gmap nat string) (entries : list entry) (eof : option gerror)
  : res (gmap nat string) :=
  match entries with
  | [] => match eof with Some e => Err (ErrWrap "failed to read tar entry" e) | None => Ok candidates end
  | header :: entries' =>
      let fileName := trim_prefix (Name header) "./" in
      let skip n :=
        match skip_error n (body header) with
        | Some e => Err (ErrWrap "failed to read tar entry" e)
        | None => collect_readmes candidates entries' eof
        end in
      if Ascii.eqb (Typeflag header) TypeDir then skip 0
      else if contains fileName "/" then skip 0
      else match match_readme 0 readmeNames fileName with
      | None => skip 0
      | Some priority =>
          match candidates !! priority with
          | Some _ => skip 0
          | None =>
              let limited := limit_reader maxReadmeSize (body header) in
              match snd limited with
              | Some e => Err (ErrWrap "failed to read README content" e)
              | None =>
                  match skip_error maxReadmeSize (body header) with
                  | Some e => Err (ErrWrap "failed to read tar entry" e)
                  | None => collect_readmes (<[priority := fst limited]> candidates) entries' eof
                  end
              end
          end
      end
  end.

Fixpoint best_readme (candidates : gmap nat string) (priorities : list nat) : string :=
  match priorities with
  | [] => ""
  | p :: ps => match candidates !! p with Some c => c | None => best_readme candidates ps end
  end.

Definition ExtractReadme `{TarGz} (r : string) : res string :=
  match open_targz r with
  | Err e => Err (ErrWrap "failed to create gzip reader" e)
  | Ok (entries, eof) =>
      match collect_readmes ∅ entries eof with
      | Err e => Err e
      | Ok candidates => Ok (best_readme candidates (seq 0 (length readmeNames)))
      end
  end.

(** ** Extraction *)

Definition maxExtractBytes : Z := Z.shiftl 100 20.
Definition maxExtractEntries : Z := 100000.
Definition maxCompressedInputBytes : Z := Z.shiftl 100 20.

(** The containment check of an entry's path, and where it is extracted. *)
Definition entry_target (destDir name : string) : res string :=
  let cleanDest := Clean destDir in
  let target := Filepath.Join cleanDest name in
  match Rel cleanDest target with
  | Err _ => Err (ErrMsg ("invalid file path in archive: " +:+ name))
  | Ok rel =>
      if String.eqb rel ".." || has_prefix rel "../" || IsAbs rel
      then Err (ErrMsg ("invalid file path in archive: " +:+ name))
      else Ok target
  end.

Section Extract.
Context (cwd : list string) (destDir : string).

(** [os.OpenFile] with [O_CREATE] and without [O_TRUNC]. *)
Definition OpenFile (path : string) := on_path cwd path (open_create false).

Fixpoint extract_entries (totalWritten entryCount : Z) (entries : list entry) (eof : option gerror)
  : prog (env fs) (option gerror) :=
  match entries with
  | [] => ret (match eof with Some e => Some (ErrWrap "read tar" e) | None => None end)
  | header :: entries' =>
      let entryCount := entryCount + 1 in
      let next total n :=
        match skip_error n (body header) with
        | Some e => ret (Some (ErrWrap "read tar" e))
        | None => extract_entries total entryCount entries' eof
        end in
      if maxExtractEntries <? entryCount
      then ret (Some (ErrMsg "archive exceeds maximum entry count"))
      else match entry_target destDir (Name header) with
      | Err e => ret (Some e)
      | Ok target =>
          if Ascii.eqb (Typeflag header) TypeDir then
            let! m := MkdirAll cwd target in
            match m with
            | Err e => ret (Some (ErrWrap "mkdir" e))
            | Ok _ => next totalWritten 0
            end
          else if Ascii.eqb (Typeflag header) TypeReg then
            let! m := MkdirAll cwd (Filepath.Dir target) in
            match m with
            | Err e => ret (Some (ErrWrap "mkdir parent" e))
            | Ok _ =>
                let! f := OpenFile target in
                match f with
                | Err e => ret (Some (ErrWrap "create file" e))
                | Ok _ =>
                    let remaining := maxExtractBytes - totalWritten in
                    let! n := Copy cwd target (limit_reader (remaining + 1) (body header)) in
                    match n with
                    | Err e => ret (Some (ErrWrap "write file" e))
                    | Ok n =>
                        let totalWritten := totalWritten + n in
                        if maxExtractBytes <? totalWritten
                        then ret (Some (ErrMsg "archive exceeds extraction size limit"))
                        else next totalWritten (remaining + 1)
                    end
                end
            end
          else next totalWritten 0
      end
  end.

Definition ExtractTarGz `{TarGz} (r : string) : prog (env fs) (option gerror) :=
  if negb (IsAbs destDir) then ret (Some (ErrMsg "destDir must be an absolute path"))
  else match open_targz (limit_string (maxCompressedInputBytes + 1) r) with
  | Err e => ret (Some (ErrWrap "open gzip" e))
  | Ok (entries, eof) => extract_entries 0 0 entries eof
  end.
End Extract.

(** ** Cut readers *)

Lemma slen_nonneg s : 0 <= slen s.
Proof. unfold slen. lia. Qed.

Lemma slen_cons c s : slen (String c s) = slen s + 1.
Proof. unfold slen. cbn [String.length]. lia. Qed.

Lemma limit_length n s : slen (limit_string n s) = Z.max 0 (Z.min n (slen s)).
Proof.
  revert n. induction s as [|c s IH]; intros n; cbn [limit_string]; [unfold slen; cbn; lia|].
  pose proof (slen_nonneg s). rewrite slen_cons. destruct (Z.leb_spec n 0) as [Hn|Hn].
  - unfold slen at 1. cbn. lia.
  - rewrite slen_cons, IH. lia.
Qed.

Lemma limit_all n s : slen s < n -> limit_string n s = s.
Proof.
  revert n. induction s as [|c s IH]; intros n Hn; cbn [limit_string]; [done|].
  rewrite slen_cons in Hn. pose proof (slen_nonneg s). destruct (Z.leb_spec n 0); [lia|].
  by rewrite IH by lia.
Qed.

Lemma limit_reader_all n r : slen (fst r) < n -> limit_reader n r = r /\ skip_error n r = None.
Proof.
  intros Hn. unfold limit_reader, skip_error. rewrite limit_all by done.
  destruct (Z.leb_spec n (slen (fst r))); [lia|]. by destruct r.
Qed.

(** A cut that leaves fewer bytes than it allows has read the whole body. *)
Lemma limit_reader_short n r :
  slen (fst (limit_reader n r)) < n -> limit_reader n r = r.
Proof.
  cbn [limit_reader fst]. rewrite limit_length. intros Hn. apply limit_reader_all.
  pose proof (slen_nonneg (fst r)). lia.
Qed.

(** ** What validation accepts *)

Definition bytes_of (entries : list entry) : Z := foldr (fun h acc => slen (fst (body h)) + acc) 0 entries.

Lemma bytes_cons h l : bytes_of (h :: l) = slen (fst (body h)) + bytes_of l.
Proof. done. Qed.

Lemma bytes_nonneg l : 0 <= bytes_of l.
Proof.
  induction l as [|h l IH]; [done|]. rewrite bytes_cons.
  pose proof (slen_nonneg (fst (body h))). lia.
Qed.

(** An entry that passes on its own. *)
Definition entry_ok (h : entry) : Prop :=
  validatePath (Name h) = None /\ is_link h = false /\ snd (body h) = None.

Lemma validate_entries_iff maxSize total count entries eof :
  0 <= total <= maxSize -> maxSize < 2^63 - 1 -> 0 <= count ->
  validate_entries maxSize total count entries eof = None <->
  eof = None /\ Forall entry_ok entries /\ total + bytes_of entries <= maxSize /\
  0 < count + Z.of_nat (length entries) /\
  (entries = [] \/ count + Z.of_nat (length entries) <= MaxArchiveEntries).
Proof.
  intros Ht Hm. revert total count Ht. induction entries as [|h entries IH]; intros total count Ht Hc.
  - cbn [validate_entries length]. change (bytes_of []) with 0. destruct eof as [e|]; [split; [done | by intros [? _]]|].
    destruct (Z.eqb_spec count 0) as [->|Hne].
    + split; [done|]. intros (_ & _ & _ & Hl & _). cbn in Hl. lia.
    + split; [|done]. intros _. split; [done|]. split; [constructor|]. cbn.
      split; [lia|]. split; [lia | by left].
  - rewrite bytes_cons. cbn [validate_entries length].
    pose proof (bytes_nonneg entries) as Hb. pose proof (slen_nonneg (fst (body h))) as Hh.
    destruct (Z.ltb_spec MaxArchiveEntries (count + 1)) as [Hn|Hn].
    { split; [done|]. intros (_ & _ & _ & _ & [?|?]); [done|lia]. }
    destruct (validatePath (Name h)) as [e|] eqn:Ep.
    { split; [done|]. intros (_ & Hf & _). apply Forall_cons_1 in Hf as [(? & _) _]. congruence. }
    destruct (is_link h) eqn:El.
    { split; [done|]. intros (_ & Hf & _). apply Forall_cons_1 in Hf as [(_ & ? & _) _]. congruence. }
    rewrite wrap64_id by (unfold int64_ok; lia). set (n := maxSize - total + 1).
    destruct (Z.le_gt_cases (slen (fst (body h))) (maxSize - total)) as [Hfit|Hbig].
    + destruct (limit_reader_all n (body h)) as [-> _]; [unfold n; lia|].
      destruct (snd (body h)) as [e|] eqn:Ee.
      { split; [done|]. intros (_ & Hf & _). apply Forall_cons_1 in Hf as [(_ & _ & ?) _]. congruence. }
      destruct (Z.ltb_spec maxSize (total + slen (fst (body h)))); [lia|]. rewrite IH by lia.
      split; intros (H1 & H2 & H3 & H4 & H5); (split; [done|]); (split; [|split; [lia|split; [lia|]]]).
      * constructor; [by split | done].
      * right. destruct H5 as [->|?]; cbn [length]; lia.
      * by apply Forall_cons_1 in H2 as [_ ?].
      * destruct H5 as [?|?]; [done|]. destruct entries; [by left | right; lia].
    + assert (Hcut : limit_reader n (body h) = (limit_string n (fst (body h)), None)).
      { unfold limit_reader. by destruct (Z.leb_spec n (slen (fst (body h)))); [|unfold n in *; lia]. }
      rewrite Hcut. cbn [fst snd]. rewrite limit_length.
      destruct (Z.ltb_spec maxSize (total + Z.max 0 (Z.min n (slen (fst (body h)))))); [|unfold n in *; lia].
      split; [done|]. intros (_ & _ & ? & _). lia.
Qed.

(** ** Paths of entries *)

Lemma contains_app a x b : contains (a +:+ x +:+ b) x = true.
Proof.
  induction a as [|c a IH].
  - rewrite append_nil_l. destruct (x +:+ b) eqn:E; cbn [contains]; rewrite <- E; apply orb_true_iff; left;
      apply has_prefix_iff; by exists b.
  - rewrite append_cons. cbn [contains]. by rewrite IH, orb_true_r.
Qed.

Lemma contains_join l x : In x l -> contains (join_segs l) x = true.
Proof.
  intros Hx. apply in_split in Hx as (l1 & l2 & ->).
  assert (Hj : exists a b, join_segs (l1 ++ x :: l2) = a +:+ x +:+ b).
  { induction l1 as [|y l1 (a & b & IH)].
    - destruct l2 as [|z l2]; [exists "", ""; by rewrite append_nil_l, append_nil_r|].
      exists "", ("/" +:+ join_segs (z :: l2)). done.
    - exists (y +:+ "/" +:+ a), b.
      assert (E : join_segs ((y :: l1) ++ x :: l2) = y +:+ "/" +:+ join_segs (l1 ++ x :: l2)) by by destruct l1.
      by rewrite E, IH, !append_assoc_s. }
  destruct Hj as (a & b & ->). apply contains_app.
Qed.

(** An accepted name is relative, and leads downward only. *)
Lemma valid_name_proper name :
  validatePath name = None -> IsAbs name = false /\ Forall proper (segs name).
Proof.
  unfold validatePath. rewrite IsAbs_Clean. destruct (IsAbs name) eqn:Ea; [done|].
  destruct (windows_absolute _); [done|]. destruct (contains _ "..") eqn:Ec; [done|]. intros _.
  split; [done|]. pose proof (segs_canon name) as (n & ps & E & Hp & _).
  destruct n as [|n]; [by rewrite E|]. exfalso.
  rewrite Clean_render, Ea in Ec. rewrite E in Ec. cbn [replicate app] in Ec.
  rewrite render_cons, append_nil_l, contains_join in Ec; [done | by left].
Qed.

(** Joining such a name appends its segments. *)
Lemma join_valid_name base name :
  validatePath name = None -> join_onto true base name = base ++ segs name.
Proof.
  intros Hv. apply valid_name_proper in Hv as [Ha Hp]. unfold join_onto.
  pose proof (clean_fold_clean (split_on "/" name) [] (rev base) (split_no_slash name) (canon_nil false)) as E.
  cbn [rev fold_left] in E. rewrite E. unfold segs in Hp |- *. rewrite Ha in *.
  by rewrite clean_fold_proper, rev_app_distr, rev_involutive, rev_involutive.
Qed.

Lemma after_common_prefix b rest : after_common b (b ++ rest) = ([], rest).
Proof. induction b as [|x b IH]; [by destruct rest|]. cbn. by rewrite String.eqb_refl. Qed.

Lemma after_common_nil b l rest : after_common b l = ([], rest) -> l = b ++ rest.
Proof.
  revert l. induction b as [|x b IH]; intros l; cbn; [by intros [= ->]|].
  destruct l as [|y l]; [done|]. destruct (String.eqb_spec x y) as [->|]; [|done].
  intros E. by rewrite (IH l E).
Qed.

Lemma after_common_incl b l rb rl : after_common b l = (rb, rl) ->
  Forall proper b -> Forall proper l -> Forall proper rb /\ Forall proper rl.
Proof.
  revert l. induction b as [|x b IH]; intros l; cbn.
  - by intros [= <- <-] Hb Hl.
  - destruct l as [|y l]; [by intros [= <- <-]|].
    destruct (String.eqb x y); [|by intros [= <- <-]].
    intros E Hb Hl. apply Forall_cons_1 in Hb as [_ Hb]. apply Forall_cons_1 in Hl as [_ Hl]. eauto.
Qed.

Lemma proper_parts l : Forall proper l -> Forall (fun s => no_slash s = true /\ s <> "") l.
Proof. intros Hl. eapply List.Forall_impl; [|exact Hl]. by intros s (? & _ & _ & ?). Qed.

(** The check admits exactly what stays under the destination. *)
Lemma entry_target_iff dest name target :
  IsAbs dest = true ->
  entry_target dest name = Ok target <->
  exists rest, join_onto true (segs dest) name = segs dest ++ rest /\ target = render true (segs dest ++ rest).
Proof.
  intros Ha. unfold entry_target. set (b := segs dest). set (l := join_onto true b name).
  assert (Hb : canon true b) by (rewrite <- Ha; apply segs_canon).
  assert (Hl : canon true l) by by apply join_onto_canon.
  pose proof (canon_rooted _ Hb) as Hbp. pose proof (canon_rooted _ Hl) as Hlp.
  assert (HC : Clean dest = render true b) by by rewrite Clean_render, Ha.
  assert (Hne : render true b <> "") by (apply render_nonempty; by eapply canon_no_slash).
  rewrite HC, Join_onto, IsAbs_render, segs_render by (try done; by eapply canon_no_slash). fold l.
  unfold Rel. rewrite !Clean_canon, !IsAbs_render, !segs_render by (try done; by eapply canon_no_slash).
  destruct (String.eqb_spec (render true l) (render true b)) as [E|E].
  { cbn. apply render_inj in E; [|done|done]. split; [intros [= <-]; exists []; by rewrite app_nil_r, E|].
    intros (rest & El & ->). by rewrite <- El. }
  cbn [Bool.eqb negb]. destruct (after_common b l) as [rb rl] eqn:Ec.
  destruct (after_common_incl _ _ _ _ Ec Hbp Hlp) as [Hrb Hrl].
  destruct rb as [|x rb].
  - apply after_common_nil in Ec. cbn [map app].
    destruct rl as [|y rl]; [by rewrite app_nil_r in Ec; rewrite Ec in E|].
    pose proof (split_join _ (proper_parts _ Hrl) ltac:(done)) as Es.
    pose proof Hrl as [(Hy & _ & Hy2 & Hy3) _]%Forall_cons_1.
    destruct (String.eqb_spec (join_segs (y :: rl)) "..") as [E1|_].
    { rewrite E1 in Es. injection Es as <- _. done. }
    destruct (has_prefix (join_segs (y :: rl)) "../") eqn:E2.
    { apply has_prefix_iff in E2 as [r Er]. change ("../" +:+ r) with (".." +:+ "/" +:+ r) in Er.
      rewrite Er, split_app_slash in Es. injection Es as <- _. done. }
    replace (IsAbs (join_segs (y :: rl))) with false.
    2:{ symmetry. rewrite <- (append_nil_l (join_segs (y :: rl))), <- (render_cons false).
        apply IsAbs_render. by apply proper_parts. }
    cbn [orb]. split; [intros [= <-]; exists (y :: rl); by rewrite <- Ec|].
    intros (rest & El & ->). by rewrite <- El.
  - pose proof Hrb as [(_ & _ & Hx & _) _]%Forall_cons_1.
    assert (Hno : ~ exists rest, l = b ++ rest).
    { intros [rest ->]. rewrite after_common_prefix in Ec. done. }
    destruct (String.eqb_spec x ".."); [done|].
    assert (Hrej : (String.eqb (join_segs (map (fun _ => "..") (x :: rb) ++ rl)) ".."
                    || has_prefix (join_segs (map (fun _ => "..") (x :: rb) ++ rl)) "../") = true).
    { cbn [map app]. destruct (map _ rb ++ rl) as [|z zs]; [done|].
      apply orb_true_iff. right. apply has_prefix_iff. by exists (join_segs (z :: zs)). }
    rewrite Hrej. cbn [orb]. split; [done|]. intros (rest & El & _). exfalso. apply Hno. by exists rest.
Qed.
