(* ===== verification/ArchiveSafety.v ===== *)
(** * What validation, extraction and the README guarantee

    Containment and bounds of the extractor, the files a successful extraction
    delivers, its agreement with the upload
    validator, and the choice of the README, proved over the definitions of
    [Archive] and the file lemmas of [Os]. *)

From S2P Require Import Prelude GoStrings Filepath Os Archive.
From stdpp Require Import gmap.

#[local] Open Scope Z_scope.

(** ** Where extraction writes *)

Section Inside.
Context (cwd : list string) (dest : string) (Ha : IsAbs dest = true).

Abbreviation base := (segs dest).

(** The destination exists in a well-formed tree. *)
Definition ready (w : env fs) : Prop := closed (nodes (st w)) /\ node_at (nodes (st w)) base = Some Dir.

Lemma ready_stable : stable (on_st (moves_below base)) ready.
Proof.
  intros w w' [Hc Hw] [Hcl Hd]. split; [by apply Hc|].
  destruct base as [|x b] eqn:E; [done|]. cbn in Hd |- *.
  assert (Hn : ~ strictly_under (x :: b) (x :: b)).
  { intros (y & rest & Ey). apply (f_equal length) in Ey. rewrite length_app in Ey. cbn in Ey. lia. }
  destruct (Hw _ Hn) as [->|(Hn' & _)]; [done | congruence].
Qed.

Lemma base_rooted : canon true base.
Proof. rewrite <- Ha. apply segs_canon. Qed.

Lemma target_canon rest : Forall proper rest -> canon true (base ++ rest).
Proof. intros Hr. apply canon_app; [apply base_rooted | done]. Qed.

Lemma target_path {A} rest (k : list string -> prog (env fs) (res A)) :
  Forall proper rest -> on_path cwd (render true (base ++ rest)) k = k (base ++ rest).
Proof.
  intros Hr. rewrite on_path_render by by apply target_canon. by rewrite loc_render by by apply target_canon.
Qed.

Lemma mkdir_inside rest : Forall proper rest ->
  preserves (on_st (moves_below base)) (MkdirAll cwd (render true (base ++ rest))).
Proof.
  intros Hr w. unfold MkdirAll. rewrite target_path by done. apply mkdir_all_moves; [|done]. cbn [app].
  destruct rest as [|d rest]; [right; exists []; by rewrite !app_nil_r | left; by exists d, rest].
Qed.

Lemma mkdir_parent_inside rest : Forall proper rest ->
  preserves (on_st (moves_below base)) (MkdirAll cwd (Filepath.Dir (render true (base ++ rest)))).
Proof.
  intros Hr w. destruct (Dir_render true (base ++ rest) (target_canon _ Hr)) as (l' & El & Hl & _).
  destruct rest as [|x rest _] using rev_ind.
  - (* the parent of the destination *)
    rewrite app_nil_r in *. rewrite El. unfold MkdirAll. rewrite on_path_render, loc_render by done.
    apply mkdir_all_moves; [|done]. cbn [app]. right.
    destruct base as [|y b _] eqn:Eb using rev_ind.
    + rewrite Dir_nil in El. apply render_inj in El as <-; [|apply canon_nil|done]. by exists [].
    + pose proof base_rooted as Hb. rewrite Eb in Hb. pose proof (canon_init _ _ _ Hb).
      rewrite Dir_snoc in El by done. apply render_inj in El as <-; [|done|done]. by exists [y].
  - apply Forall_app in Hr as [Hr Hx]. rewrite app_assoc, Dir_snoc.
    + by apply mkdir_inside.
    + rewrite <- app_assoc. apply target_canon. by apply Forall_app.
    + by apply target_canon.
Qed.

Lemma under_base rest : rest <> [] -> strictly_under base (base ++ rest).
Proof. destruct rest as [|x rest]; [done|]. by exists x, rest. Qed.

Lemma open_inside rest w : Forall proper rest -> ready w ->
  on_st (moves_below base) w (snd (OpenFile cwd (render true (base ++ rest)) w)) /\
  (is_ok (fst (OpenFile cwd (render true (base ++ rest)) w)) = true -> rest <> []).
Proof.
  intros Hr [Hcl Hd]. unfold OpenFile. rewrite target_path by done.
  destruct rest as [|x rest].
  - rewrite app_nil_r. apply stat_iff in Hd; [|done].
    unfold open_create, call, db, on_st. rewrite Hd.
    destruct (faults w) as [|[] fls]; cbn; (split; [|done]); change (moves_below base (st w) (st w)); reflexivity.
  - split; [|done]. by apply open_moves, under_base.
Qed.

Lemma copy_inside rest r : Forall proper rest -> rest <> [] ->
  preserves (on_st (moves_below base)) (Copy cwd (render true (base ++ rest)) r).
Proof. intros Hr Hne. unfold Copy. rewrite target_path by done. by apply copy_moves, under_base. Qed.

Lemma join_onto_proper name rest : join_onto true base name = base ++ rest -> Forall proper rest.
Proof.
  intros E. pose proof (join_onto_canon true base name base_rooted) as Hc. rewrite E in Hc.
  apply canon_rooted, Forall_app in Hc. by destruct Hc.
Qed.

Lemma extract_inside entries total count eof w :
  ready w -> on_st (moves_below base) w (snd (extract_entries cwd dest total count entries eof w)).
Proof.
  revert total count w. induction entries as [|h entries IH]; intros total count w Hw; cbn [extract_entries].
  { cbn. reflexivity. }
  assert (Hnext : forall total' n w', on_st (moves_below base) w w' ->
    on_st (moves_below base) w (snd ((match skip_error n (body h) with
        | Some e => ret (Some (ErrWrap "read tar" e))
        | None => extract_entries cwd dest total' (count + 1) entries eof end) w'))).
  { intros total' n w' Hm. destruct (skip_error n (body h)); [exact Hm|].
    etransitivity; [exact Hm|]. apply IH. by eapply ready_stable. }
  destruct (_ <? _); [cbn; reflexivity|].
  destruct (entry_target dest (Name h)) as [target|e] eqn:Et; [|cbn; reflexivity].
  apply entry_target_iff in Et as (rest & Ej & ->); [|done]. pose proof (join_onto_proper _ _ Ej) as Hr.
  destruct (Ascii.eqb (Typeflag h) TypeDir).
  { unfold bind. pose proof (mkdir_inside rest Hr w) as Hm.
    destruct (MkdirAll cwd _ w) as [[u|e] w1]; cbn [fst snd] in *; [by apply Hnext | exact Hm]. }
  destruct (Ascii.eqb (Typeflag h) TypeReg); [|by apply Hnext; cbn; reflexivity].
  unfold bind. pose proof (mkdir_parent_inside rest Hr w) as Hm.
  destruct (MkdirAll cwd _ w) as [[u|e] w1]; cbn [fst snd] in *; [|exact Hm].
  assert (Hw1 : ready w1) by by eapply ready_stable.
  destruct (open_inside rest w1 Hr Hw1) as [Ho Hne].
  destruct (OpenFile cwd _ w1) as [[u'|e] w2]; cbn [fst snd is_ok] in *; [|by etransitivity].
  pose proof (copy_inside rest (limit_reader (maxExtractBytes - total + 1) (body h)) Hr (Hne eq_refl) w2) as Hc.
  assert (Hm2 : on_st (moves_below base) w (snd (Copy cwd (render true (base ++ rest))
            (limit_reader (maxExtractBytes - total + 1) (body h)) w2)))
    by (etransitivity; [exact Hm|]; by etransitivity).
  destruct (Copy cwd _ _ w2) as [[n|e] w3]; cbn [fst snd] in *; [|exact Hm2].
  destruct (_ <? _); [exact Hm2 | by apply Hnext].
Qed.
End Inside.

(** ** What extraction delivers *)

(** The file at [p], if one is there. *)
Definition file_at (t : tree) (p : list string) : option string :=
  match t !! p with Some (File c) => Some c | _ => None end.

Lemma keeps_file Q s s' p : keeps Q s s' -> ~ In p Q -> file_at (nodes s') p = file_at (nodes s) p.
Proof.
  intros Hk Hp. unfold file_at. pose proof (fun c => Hk p c Hp) as H.
  destruct (nodes s !! p) as [[|c]|] eqn:E, (nodes s' !! p) as [[|c']|] eqn:E'; try done.
  1,5: by discriminate (proj2 (H c') eq_refl).
  1,3: by discriminate (proj1 (H c) eq_refl).
  by injection (proj1 (H c) eq_refl) as ->.
Qed.

Lemma file_at_insert t p q c :
  file_at (<[p := File c]> t) q = if decide (p = q) then Some c else file_at t q.
Proof.
  unfold file_at. destruct (decide (p = q)) as [->|Hne]; [by rewrite lookup_insert_eq|].
  by rewrite lookup_insert_ne.
Qed.

(** Where the body of an entry is written. *)
Definition lands (dest : string) (h : entry) : option (list string) :=
  if Ascii.eqb (Typeflag h) TypeReg
  then match entry_target dest (Name h) with Ok target => Some (segs target) | Err _ => None end
  else None.

(** The file at [p] after the entries: each body goes over the beginning of what the
    one before it left. *)
Definition delivered (dest : string) (p : list string) (entries : list entry) (old : option string)
  : option string :=
  foldl (fun acc h => if decide (lands dest h = Some p)
                      then Some (patch (fst (body h)) (default "" acc)) else acc) old entries.

Lemma reach_missing t pre rest s :
  reach t pre rest = Ok Dir -> reach t pre (rest ++ [s]) = Err ErrNotExist ->
  node_at t (pre ++ rest ++ [s]) = None.
Proof.
  revert pre. induction rest as [|x rest IH]; intros pre; cbn [reach app].
  - destruct (node_at t pre) as [[|c]|]; [|done|done]. intros _.
    by destruct (node_at t (pre ++ [s])).
  - destruct (node_at t pre) as [[|c]|]; [|done|done]. intros Hr Hm.
    specialize (IH _ Hr Hm). by rewrite <- app_assoc in IH.
Qed.

(** Opening without truncation keeps the file, or makes an empty one. *)
Lemma opened_file p w u q :
  p <> [] -> fst (open_create false p w) = Ok u ->
  file_at (nodes (st (snd (open_create false p w)))) q =
  if decide (p = q) then Some (default "" (file_at (nodes (st w)) p)) else file_at (nodes (st w)) q.
Proof.
  intros Hp. unfold open_create. intros Hr. apply call_ok in Hr as [Hr ->].
  destruct (stat_at (nodes (st w)) p) as [[|old]|e] eqn:Es; [done| |].
  - cbn. rewrite file_at_insert. apply (reach_ok _ []) in Es. cbn [app] in Es.
    destruct p; [done|]. cbn [node_at] in Es. unfold file_at at 2. by rewrite Es.
  - destruct (IsNotExist e) eqn:En; [|done]. apply bool_decide_eq_true in En as ->.
    destruct (stat_at _ (removelast p)) as [[|c]|e'] eqn:Ep; [|done..]. cbn. rewrite file_at_insert.
    destruct p as [|x p _] using rev_ind; [done|]. rewrite removelast_last in Ep.
    pose proof (reach_missing _ [] _ _ Ep Es) as Hm. cbn [app] in Hm.
    unfold file_at at 2. destruct (p ++ [x]); [done|]. cbn [node_at] in Hm. by rewrite Hm.
Qed.

(** A copy that succeeds goes over the beginning of the file. *)
Lemma copied_file p r w n old q :
  fst (copy_to p r w) = Ok n -> file_at (nodes (st w)) p = Some old ->
  n = slen (fst r) /\
  file_at (nodes (st (snd (copy_to p r w)))) q =
  if decide (p = q) then Some (patch (fst r) old) else file_at (nodes (st w)) q.
Proof.
  unfold copy_to. intros Hr Ho. apply bind_ok in Hr as (u & Hu & Hk & ->). cbn in Hk |- *.
  split; [destruct (snd r); [done|]; by injection Hk as <-|].
  assert (Hn : nodes (st w) !! p = Some (File old)).
  { unfold file_at in Ho. destruct (nodes (st w) !! p) as [[|c]|]; try done. by injection Ho as ->. }
  destruct (decide (p = q)) as [<-|Hne].
  - pose proof (write_ok _ _ _ _ _ Hu Hn) as Hw. unfold file_at. by rewrite Hw.
  - apply (keeps_file [p]); [|by intros [->|[]]]. apply write_keeps. by left.
Qed.

(** An extraction that succeeds has read the archive to its end, has written every
    body in full, and no other file. *)
Lemma extract_delivers cwd dest entries total count eof w w' p :
  IsAbs dest = true -> extract_entries cwd dest total count entries eof w = (None, w') ->
  eof = None /\ file_at (nodes (st w')) p = delivered dest p entries (file_at (nodes (st w)) p).
Proof.
  intros Ha. revert total count w. induction entries as [|h entries IH]; intros total count w;
    cbn [extract_entries].
  { destruct eof; cbn; [done|]. by intros [= <-]. }
  unfold delivered. cbn [foldl]. fold (delivered dest p entries).
  assert (Hnext : forall total' n w1,
    file_at (nodes (st w1)) p = (if decide (lands dest h = Some p)
      then Some (patch (fst (body h)) (default "" (file_at (nodes (st w)) p))) else file_at (nodes (st w)) p) ->
    match skip_error n (body h) with
    | Some e => ret (Some (ErrWrap "read tar" e))
    | None => extract_entries cwd dest total' (count + 1) entries eof end w1 = (None, w') ->
    eof = None /\ file_at (nodes (st w')) p = foldl (fun acc h => if decide (lands dest h = Some p)
      then Some (patch (fst (body h)) (default "" acc)) else acc) (if decide (lands dest h = Some p)
      then Some (patch (fst (body h)) (default "" (file_at (nodes (st w)) p))) else file_at (nodes (st w)) p) entries).
  { intros total' n w1 <-. destruct (skip_error n (body h)); [done|]. apply IH. }
  destruct (_ <? _); [done|]. revert Hnext.
  destruct (entry_target dest (Name h)) as [target|e] eqn:Et; [|done].
  assert (Hmk : forall path w0, file_at (nodes (st (snd (MkdirAll cwd path w0)))) p = file_at (nodes (st w0)) p).
  { intros path w0. apply (keeps_file []); [|by intros []]. unfold MkdirAll, on_path.
    destruct (String.eqb path ""); [reflexivity | apply mkdir_all_keeps]. }
  destruct (Ascii.eqb (Typeflag h) TypeDir) eqn:Ed.
  { assert (Hl : lands dest h <> Some p).
    { unfold lands. apply Ascii.eqb_eq in Ed as ->. done. }
    rewrite decide_False by done. intros Hnext. unfold bind. pose proof (Hmk target w) as Hm.
    destruct (MkdirAll cwd target w) as [[u|e] w1]; cbn [fst snd] in *; [|done]. by apply Hnext. }
  destruct (Ascii.eqb (Typeflag h) TypeReg) eqn:Er.
  2: { assert (Hl : lands dest h <> Some p) by (unfold lands; by rewrite Er).
       rewrite decide_False by done. intros Hnext. by apply Hnext. }
  assert (Hl : lands dest h = Some (segs target)) by (unfold lands; by rewrite Er, Et).
  rewrite Hl. intros Hnext. unfold bind. pose proof (Hmk (Filepath.Dir target) w) as Hm.
  destruct (MkdirAll cwd _ w) as [[u|e] w1]; cbn [fst snd] in *; [|done].
  assert (Hpath : forall A (k : list string -> prog (env fs) (res A)), on_path cwd target k = k (segs target)).
  { intros A k. apply entry_target_iff in Et as (rest & Ej & ->); [|done].
    pose proof (join_onto_proper dest Ha _ _ Ej) as Hr. rewrite (target_path cwd dest Ha) by done.
    by rewrite segs_render by by apply target_canon. }
  assert (Hne : fst (OpenFile cwd target w1) = Ok tt -> segs target <> []).
  { unfold OpenFile. rewrite Hpath. intros Hr E. rewrite E in Hr. by apply call_ok in Hr as [Hr _]. }
  unfold OpenFile in *. rewrite Hpath in *. pose proof (opened_file (segs target) w1) as Ho.
  destruct (open_create false (segs target) w1) as [[[]|e] w2]; cbn [fst snd] in *; [|done].
  specialize (fun q => Ho tt q (Hne eq_refl) eq_refl). unfold Copy. rewrite Hpath.
  set (r := limit_reader _ _). pose proof (copied_file (segs target) r w2) as Hc.
  destruct (copy_to (segs target) r w2) as [[n|e] w3]; cbn [fst snd] in *; [|done].
  pose proof (Ho (segs target)) as Ho1. rewrite decide_True in Ho1 by done.
  destruct (Hc n _ p eq_refl Ho1) as [-> Hf].
  destruct (Z.ltb_spec maxExtractBytes (total + slen (fst r))); [done|]. apply Hnext. rewrite Hf.
  unfold r in *. rewrite limit_reader_short in * by lia. rewrite Ho, Hm.
  destruct (decide (segs target = p)) as [<-|Hne']; [by rewrite decide_True, Hm|].
  rewrite decide_False; [done | congruence].
Qed.

(** ** How much extraction writes *)

Definition node_size (n : node) : Z := match n with File c => slen c | Dir => 0 end.
Definition tree_bytes (t : tree) : Z := map_fold (fun _ n acc => node_size n + acc) 0 t.

Definition size_at (t : tree) (p : list string) : Z :=
  match t !! p with Some n => node_size n | None => 0 end.

Lemma node_size_nonneg n : 0 <= node_size n.
Proof. destruct n; cbn [node_size]; [lia | apply slen_nonneg]. Qed.

Lemma tree_bytes_fresh t p n : t !! p = None -> tree_bytes (<[p := n]> t) = node_size n + tree_bytes t.
Proof.
  intros Hp. unfold tree_bytes. rewrite map_fold_insert_L; [done| |done]. intros; lia.
Qed.

Lemma tree_bytes_insert t p n :
  tree_bytes (<[p := n]> t) = tree_bytes t - size_at t p + node_size n.
Proof.
  unfold size_at. destruct (t !! p) as [m|] eqn:Hp; [|rewrite tree_bytes_fresh by done; lia].
  rewrite <- (insert_delete_id t p m Hp) at 2. rewrite <- insert_delete_eq.
  rewrite !tree_bytes_fresh by apply lookup_delete_eq. lia.
Qed.

(** The tree has grown by at most [d] bytes. *)
Definition adds (d : Z) (w w' : env fs) : Prop := tree_bytes (nodes (st w')) <= tree_bytes (nodes (st w)) + d.

Lemma call_adds {A} (op : string) (f : tree -> res A * tree) d w :
  0 <= d -> (forall t, tree_bytes (snd (f t)) <= tree_bytes t + d) -> adds d w (snd (call op f w)).
Proof.
  intros Hd Hf. unfold adds, call, db. destruct (faults w) as [|[] fls]; cbn; [apply Hf | lia | apply Hf].
Qed.

Lemma patch_length data old : slen (patch data old) <= slen data + slen old.
Proof.
  unfold patch, slen. rewrite length_append_s.
  assert (Hd : forall n s, (String.length (sdrop n s) <= String.length s)%nat).
  { induction n as [|n IH]; intros [|c s]; cbn; try lia. specialize (IH s). lia. }
  specialize (Hd (String.length data) old). lia.
Qed.

Lemma patch_at_adds p data t : tree_bytes (patch_at p data t) <= tree_bytes t + slen data.
Proof.
  pose proof (slen_nonneg data). destruct (patch_at_cases p data t) as [->|(old & Hp & ->)]; [lia|].
  rewrite tree_bytes_insert. unfold size_at. rewrite Hp. cbn [node_size].
  pose proof (patch_length data old). lia.
Qed.

Lemma stake_length n s : slen (stake n s) <= slen s.
Proof.
  revert s. induction n as [|n IH]; intros [|c s]; cbn [stake]; try (unfold slen; cbn; lia).
  rewrite !slen_cons. specialize (IH s). lia.
Qed.

Lemma write_adds p data w : adds (slen data) w (snd (write_at p data w)).
Proof.
  unfold write_at. pose proof (slen_nonneg data).
  destruct (faults w) as [|[] fls]; [by apply call_adds; [|intros t; apply patch_at_adds]| |
    by apply call_adds; [|intros t; apply patch_at_adds]].
  unfold adds. cbn. set (d := stake _ data).
  pose proof (patch_at_adds p d (nodes (st w))) as Hp. pose proof (stake_length (hd 0%nat (torn (st w))) data) as Hl.
  fold d in Hl. lia.
Qed.

Lemma open_adds p w : adds 0 w (snd (open_create false p w)).
Proof.
  apply call_adds; [lia|]. intros t. destruct (stat_at t p) as [[|old]|e] eqn:Es; cbn; [lia| |].
  - rewrite tree_bytes_insert. unfold size_at. apply (reach_ok t []) in Es. cbn in Es.
    destruct p as [|x p]; [done|]. cbn in Es. rewrite Es. lia.
  - destruct (IsNotExist e); cbn; [|lia]. destruct (stat_at t (removelast p)) as [[|c]|e']; cbn; try lia.
    rewrite tree_bytes_insert. unfold size_at. pose proof (node_size_nonneg) as Hn.
    destruct (t !! p) as [n|]; [specialize (Hn n)|]; cbn [node_size slen String.length]; unfold slen; cbn; lia.
Qed.

Lemma mkdir_adds pre rest w : adds 0 w (snd (mkdir_all pre rest w)).
Proof.
  revert pre w. induction rest as [|s rest IH]; intros pre w; cbn [mkdir_all]; [unfold adds; cbn; lia|].
  unfold bind at 1, gets. cbn [fst snd].
  destruct (node_at _ _) as [[|c]|]; [apply IH | unfold adds; cbn; lia|].
  unfold bind. assert (Hm : adds 0 w (snd (mkdir_at (pre ++ [s]) w))).
  { apply call_adds; [lia|]. intros t. cbn. rewrite tree_bytes_insert. unfold size_at.
    pose proof node_size_nonneg as Hn. destruct (t !! _) as [n|]; [specialize (Hn n)|]; cbn [node_size]; lia. }
  destruct (mkdir_at (pre ++ [s]) w) as [[u|e] w1]; cbn [fst snd] in *; [|exact Hm].
  specialize (IH (pre ++ [s]) w1). unfold adds in *. lia.
Qed.

Lemma on_path_adds {A} cwd path (k : list string -> prog (env fs) (res A)) d w :
  0 <= d -> (forall p, adds d w (snd (k p w))) -> adds d w (snd (on_path cwd path k w)).
Proof.
  intros Hd Hk. unfold on_path. destruct (String.eqb path ""); [unfold adds; cbn; lia | apply Hk].
Qed.

Lemma copy_adds p r w : adds (slen (fst r)) w (snd (copy_to p r w)).
Proof.
  unfold copy_to, bind. pose proof (write_adds p (fst r) w) as Hw.
  by destruct (write_at p (fst r) w) as [[u|e] w1].
Qed.

Lemma copy_count cwd path r w n : fst (Copy cwd path r w) = Ok n -> n = slen (fst r).
Proof.
  unfold Copy, on_path, copy_to. destruct (String.eqb path ""); [done|]. intros Hr.
  apply bind_ok in Hr as (u & _ & Hk & _). cbn in Hk. by destruct (snd r); [|injection Hk as <-].
Qed.

Lemma extract_adds cwd dest entries total count eof w :
  total <= maxExtractBytes ->
  adds (maxExtractBytes + 1 - total) w (snd (extract_entries cwd dest total count entries eof w)).
Proof.
  revert total count w. induction entries as [|h entries IH]; intros total count w Ht; cbn [extract_entries].
  { unfold adds. cbn. lia. }
  assert (Hnext : forall total' n w', total' <= maxExtractBytes -> adds (total' - total) w w' ->
    adds (maxExtractBytes + 1 - total) w (snd ((match skip_error n (body h) with
        | Some e => ret (Some (ErrWrap "read tar" e))
        | None => extract_entries cwd dest total' (count + 1) entries eof end) w'))).
  { intros total' n w' Ht' Hm. destruct (skip_error n (body h)); [unfold adds in *; cbn; lia|].
    specialize (IH total' (count + 1) w' Ht'). unfold adds in *. lia. }
  destruct (_ <? _); [unfold adds; cbn; lia|].
  destruct (entry_target dest (Name h)) as [target|e]; [|unfold adds; cbn; lia].
  assert (Hmk : forall path, adds 0 w (snd (MkdirAll cwd path w)))
    by (intros path; apply on_path_adds; [lia | intros p; apply mkdir_adds]).
  destruct (Ascii.eqb (Typeflag h) TypeDir).
  { unfold bind. specialize (Hmk target).
    destruct (MkdirAll cwd target w) as [[u|e] w1]; cbn [fst snd] in *; [|unfold adds in *; cbn; lia].
    apply Hnext; [done | unfold adds in *; lia]. }
  destruct (Ascii.eqb (Typeflag h) TypeReg); [|apply Hnext; [done | unfold adds; lia]].
  unfold bind. specialize (Hmk (Filepath.Dir target)).
  destruct (MkdirAll cwd _ w) as [[u|e] w1]; cbn [fst snd] in *; [|unfold adds in *; cbn; lia].
  assert (Ho : adds 0 w1 (snd (OpenFile cwd target w1))) by (apply on_path_adds; [lia | intros p; apply open_adds]).
  destruct (OpenFile cwd target w1) as [[u'|e] w2]; cbn [fst snd] in *; [|unfold adds in *; cbn; lia].
  set (r := limit_reader (maxExtractBytes - total + 1) (body h)).
  assert (Hlen : 0 <= slen (fst r) <= maxExtractBytes + 1 - total).
  { subst r. cbn [limit_reader fst]. rewrite limit_length. pose proof (slen_nonneg (fst (body h))). lia. }
  assert (Hc : adds (slen (fst r)) w2 (snd (Copy cwd target r w2)))
    by (apply on_path_adds; [lia | intros p; apply copy_adds]).
  pose proof (copy_count cwd target r w2) as Hn.
  destruct (Copy cwd target r w2) as [[n|e] w3]; cbn [fst snd] in *; [|unfold adds in *; cbn; lia].
  rewrite (Hn n eq_refl). destruct (Z.ltb_spec maxExtractBytes (total + slen (fst r))); [unfold adds in *; cbn; lia|].
  apply Hnext; [lia | unfold adds in *; lia].
Qed.

(** ** Validated archives extract *)

(** The errors of the file system. *)
Definition fs_error (e : gerror) : Prop :=
  (exists c e', e = ErrWrap c e' /\ In c ["mkdir"; "mkdir parent"; "create file"]) \/
  e = ErrWrap "write file" (ErrDB "write").

Lemma valid_target dest name :
  IsAbs dest = true -> validatePath name = None ->
  entry_target dest name = Ok (render true (segs dest ++ segs name)).
Proof.
  intros Ha Hv. apply entry_target_iff; [done|]. exists (segs name). split; [by apply join_valid_name | done].
Qed.

Lemma copy_error cwd path r w e :
  path <> "" -> snd r = None -> fst (Copy cwd path r w) = Err e -> e = ErrDB "write".
Proof.
  intros Hp Hr. unfold Copy, on_path, copy_to, bind. destruct (String.eqb_spec path ""); [done|].
  assert (Hw : forall p d w1 e1, fst (write_at p d w1) = Err e1 -> e1 = ErrDB "write").
  { intros p d w1 e1. unfold write_at. destruct (faults w1) as [|[] fls] eqn:E; unfold call, db; rewrite ?E; cbn;
      [done | by intros [= <-] | done]. }
  specialize (Hw (loc cwd path) (fst r) w). destruct (write_at _ _ w) as [[u|e1] w1]; cbn in *; rewrite ?Hr.
  - done.
  - intros [= <-]. by apply Hw.
Qed.

Lemma extract_valid cwd dest entries total count w :
  IsAbs dest = true -> Forall entry_ok entries -> 0 <= total ->
  total + bytes_of entries <= maxExtractBytes -> count + Z.of_nat (length entries) <= maxExtractEntries ->
  match fst (extract_entries cwd dest total count entries None w) with None => True | Some e => fs_error e end.
Proof.
  intros Ha Hv. revert total count w. induction Hv as [|h entries (Hp & _ & Hb) Hv IH];
    intros total count w H0 Ht Hc; cbn [extract_entries]; [done|].
  rewrite bytes_cons in Ht. cbn [length] in Hc. pose proof (slen_nonneg (fst (body h))) as Hs.
  pose proof (bytes_nonneg entries) as Hbn.
  assert (Hsk : forall n, skip_error n (body h) = None) by (intros n; unfold skip_error; rewrite Hb; by destruct (_ <=? _)).
  destruct (Z.ltb_spec maxExtractEntries (count + 1)); [lia|]. rewrite valid_target by done.
  set (target := render true (segs dest ++ segs (Name h))).
  assert (Htn : target <> "").
  { apply render_nonempty. eapply canon_no_slash. apply (target_canon dest Ha). by apply valid_name_proper. }
  destruct (Ascii.eqb (Typeflag h) TypeDir).
  { unfold bind. destruct (MkdirAll cwd target w) as [[u|e] w1]; cbn [fst snd].
    - rewrite Hsk. apply IH; lia.
    - left. exists "mkdir", e. split; [done | by left]. }
  destruct (Ascii.eqb (Typeflag h) TypeReg); [|rewrite Hsk; apply IH; lia].
  unfold bind. destruct (MkdirAll cwd _ w) as [[u|e] w1]; cbn [fst snd].
  2: left; exists "mkdir parent", e; split; [done | right; by left].
  destruct (OpenFile cwd target w1) as [[u'|e] w2]; cbn [fst snd].
  2: left; exists "create file", e; split; [done | right; right; by left].
  destruct (limit_reader_all (maxExtractBytes - total + 1) (body h)) as [-> _]; [lia|].
  pose proof (copy_count cwd target (body h) w2) as Hn. pose proof (copy_error cwd target (body h) w2) as He.
  destruct (Copy cwd target (body h) w2) as [[n|e] w3]; cbn [fst snd] in *.
  - rewrite (Hn n eq_refl). destruct (Z.ltb_spec maxExtractBytes (total + slen (fst (body h)))); [lia|].
    rewrite Hsk. apply IH; lia.
  - right. by rewrite (He e Htn Hb eq_refl).
Qed.

(** what the upload validator accepts, exactly: the gzip and tar streams are
    well formed, there are between 1 and 100000 entries, each with an admissible
    path, none a link, each body readable, and the bodies together are at most the
    limit (100 MiB when none is given). *)
Theorem validation_accepts `{TarGz} r maxSize :
  maxSize < 2^63 - 1 ->
  let limit := if maxSize <=? 0 then MaxArchiveSize else maxSize in
  ValidateArchive r maxSize = None <->
  exists entries, open_targz (limit_string (limit + 1) r) = Ok (entries, None) /\
    (0 < length entries)%nat /\ Z.of_nat (length entries) <= MaxArchiveEntries /\
    Forall entry_ok entries /\ bytes_of entries <= limit.
Proof.
  intros Hm limit. unfold ValidateArchive. fold limit.
  assert (Hl : 0 <= limit < 2^63 - 1) by (unfold limit, MaxArchiveSize; destruct (Z.leb_spec maxSize 0); lia).
  rewrite wrap64_id by (unfold int64_ok; lia). destruct (open_targz _) as [[entries eof]|e].
  - rewrite validate_entries_iff by lia. split.
    + intros (-> & Hf & Hb & Hc & Hn). exists entries. split; [done|].
      repeat split; [lia | | done | lia]. destruct Hn as [->|?]; [unfold MaxArchiveEntries; cbn; lia | lia].
    + intros (es & [= -> ->] & Hp & Hn & Hf & Hb). repeat split; [done | lia | lia | right; lia].
  - split; [done|]. by intros (es & [=] & _).
Qed.

(** the validator and the extractor agree: an archive the upload validator
    accepts is extracted - into any absolute directory, in any state of the disk -
    without a complaint about its format, its paths, its entry count or its size;
    only the file system can still refuse. *)
Theorem validated_archive_extracts `{TarGz} cwd dest r w :
  IsAbs dest = true -> ValidateArchive r 0 = None ->
  match fst (ExtractTarGz cwd dest r w) with None => True | Some e => fs_error e end.
Proof.
  intros Ha Hv. unfold ValidateArchive in Hv. cbn [Z.leb Z.compare] in Hv.
  rewrite wrap64_id in Hv by (vm_compute; split; [discriminate | reflexivity]).
  change (MaxArchiveSize + 1) with (maxCompressedInputBytes + 1) in Hv.
  unfold ExtractTarGz. rewrite Ha. cbn [negb].
  destruct (open_targz _) as [[entries eof]|e]; [|done].
  apply validate_entries_iff in Hv as (-> & Hf & Hb & _ & Hn);
    [|vm_compute; split; discriminate | vm_compute; reflexivity | lia].
  apply extract_valid; [done|done|lia|exact Hb|].
  destruct Hn as [->|?]; [vm_compute; discriminate | exact H0].
Qed.

(** C33: extraction is confined and bounded: whatever the archive - hostile paths
    included - and whichever system calls fail, extracting into an existing
    directory of a well-formed tree changes nothing outside that directory, keeps
    the tree well formed, and makes its contents grow by at most 100 MiB and one
    byte. *)
Theorem extraction_is_contained `{TarGz} cwd dest r w :
  IsAbs dest = true -> closed (nodes (st w)) -> node_at (nodes (st w)) (segs dest) = Some Dir ->
  let w' := snd (ExtractTarGz cwd dest r w) in
  moves_below (segs dest) (st w) (st w') /\
  tree_bytes (nodes (st w')) <= tree_bytes (nodes (st w)) + maxExtractBytes + 1.
Proof.
  intros Ha Hc Hd w'. subst w'. unfold ExtractTarGz. rewrite Ha. cbn [negb].
  destruct (open_targz _) as [[entries eof]|e].
  - split; [by apply (extract_inside cwd dest Ha)|].
    pose proof (extract_adds cwd dest entries 0 0 eof w ltac:(vm_compute; discriminate)) as Hb.
    unfold adds in Hb. lia.
  - cbn [ret snd]. split; [reflexivity|]. assert (0 <= maxExtractBytes) by by vm_compute. lia.
Qed.

(** ** The README chosen *)

(** The priority of a file in the root of the archive. *)
Definition readme_of (h : entry) : option nat :=
  if Ascii.eqb (Typeflag h) TypeDir then None
  else if contains (trim_prefix (Name h) "./") "/" then None
  else match_readme 0 readmeNames (trim_prefix (Name h) "./").

Definition readme_text (h : entry) : string := limit_string maxReadmeSize (fst (body h)).

(** The first entry, in archive order, with the given priority. *)
Definition first_readme (p : nat) (entries : list entry) : option entry :=
  List.find (fun h => match readme_of h with Some q => Nat.eqb q p | None => false end) entries.

Lemma collect_lookup candidates entries eof m p :
  collect_readmes candidates entries eof = Ok m ->
  m !! p = match candidates !! p with
           | Some c => Some c
           | None => option_map readme_text (first_readme p entries)
           end.
Proof.
  revert candidates. induction entries as [|h entries IH]; intros candidates; cbn [collect_readmes].
  { destruct eof as [e|]; [done|]. intros [= <-]. cbn. by destruct (candidates !! p). }
  unfold first_readme. cbn [List.find]. fold (first_readme p entries). unfold readme_of at 1.
  assert (Hskip : forall n, match skip_error n (body h) with
      | Some e => Err (ErrWrap "failed to read tar entry" e)
      | None => collect_readmes candidates entries eof end = Ok m ->
    m !! p = match candidates !! p with Some c => Some c | None => option_map readme_text (first_readme p entries) end).
  { intros n. destruct (skip_error n (body h)); [done|]. apply IH. }
  destruct (Ascii.eqb (Typeflag h) TypeDir); [apply Hskip|].
  destruct (contains _ "/"); [apply Hskip|].
  destruct (match_readme 0 readmeNames _) as [q|]; [|apply Hskip].
  destruct (candidates !! q) as [c|] eqn:Eq.
  - intros Hm. rewrite (Hskip 0 Hm). destruct (Nat.eqb_spec q p) as [->|]; [|done]. by rewrite Eq.
  - destruct (snd (limit_reader maxReadmeSize (body h))); [done|].
    destruct (skip_error maxReadmeSize (body h)); [done|]. intros Hm. rewrite (IH _ Hm).
    destruct (Nat.eqb_spec q p) as [->|].
    + by rewrite lookup_insert_eq, Eq.
    + by rewrite lookup_insert_ne.
Qed.

(** Names that fold alike have one priority: the first of them. *)
Lemma match_readme_cases f :
  match match_readme 0 readmeNames f with
  | Some p => p = 0%nat /\ equal_fold f "README.md" = true \/
              p = 3%nat /\ equal_fold f "README" = true \/
              p = 5%nat /\ equal_fold f "README.txt" = true
  | None => True
  end.
Proof.
  unfold equal_fold. cbn [match_readme readmeNames]. unfold equal_fold.
  change (to_lower "README.md") with "readme.md". change (to_lower "readme.md") with "readme.md".
  change (to_lower "README.MD") with "readme.md". change (to_lower "README") with "readme".
  change (to_lower "readme") with "readme". change (to_lower "README.txt") with "readme.txt".
  change (to_lower "readme.txt") with "readme.txt".
  destruct (String.eqb_spec (to_lower f) "readme.md"); [left; by split|].
  destruct (String.eqb_spec (to_lower f) "readme"); [right; left; by split|].
  by destruct (String.eqb_spec (to_lower f) "readme.txt"); [right; right; split|].
Qed.

Lemma first_readme_none p entries : p <> 0%nat -> p <> 3%nat -> p <> 5%nat -> first_readme p entries = None.
Proof.
  intros H0 H3 H5. destruct (first_readme p entries) as [h|] eqn:E; [|done].
  apply find_some in E as [_ E]. unfold readme_of in E.
  destruct (Ascii.eqb _ _); [done|]. destruct (contains _ _); [done|].
  pose proof (match_readme_cases (trim_prefix (Name h) "./")) as Hc.
  destruct (match_readme _ _ _) as [q|]; [|done]. apply Nat.eqb_eq in E as ->.
  by destruct Hc as [[-> _]|[[-> _]|[-> _]]].
Qed.

(** the README that is shown: when extraction of the README succeeds, it is the
    text (its first MiB) of the first file in the archive's root called readme.md,
    whatever the case of its letters; failing that, of the first called readme;
    failing that, of the first called readme.txt; and empty if there is none. *)
Theorem readme_choice `{TarGz} r text :
  ExtractReadme r = Ok text ->
  exists entries, open_targz r = Ok (entries, None) /\
  text = match first_readme 0 entries, first_readme 3 entries, first_readme 5 entries with
         | Some h, _, _ | None, Some h, _ | None, None, Some h => readme_text h
         | None, None, None => ""
         end /\
  (forall h, In h entries -> readme_of h = None \/
     exists p name, readme_of h = Some p /\ In (p, name) [(0, "README.md"); (3, "README"); (5, "README.txt")]%nat /\
                    equal_fold (trim_prefix (Name h) "./") name = true).
Proof.
  unfold ExtractReadme. destruct (open_targz r) as [[entries eof]|e]; [|done].
  destruct (collect_readmes ∅ entries eof) as [m|e] eqn:Em; [|done]. intros [= <-].
  exists entries. assert (Heof : eof = None).
  { revert Em. generalize (∅ : gmap nat string). induction entries as [|h entries IH]; intros c; cbn [collect_readmes].
    - by destruct eof.
    - repeat case_goal; try done; apply IH. }
  subst eof. split; [done|]. split.
  - cbn [best_readme seq length readmeNames]. rewrite !(fun p => collect_lookup _ _ _ _ p Em), !lookup_empty.
    rewrite (first_readme_none 1), (first_readme_none 2), (first_readme_none 4), (first_readme_none 6) by done.
    destruct (first_readme 0 entries), (first_readme 3 entries), (first_readme 5 entries); done.
  - intros h _. unfold readme_of. destruct (Ascii.eqb _ _); [by left|]. destruct (contains _ _); [by left|].
    pose proof (match_readme_cases (trim_prefix (Name h) "./")) as Hc.
    destruct (match_readme _ _ _) as [p|]; [right|by left].
    destruct Hc as [[-> Hf]|[[-> Hf]|[-> Hf]]]; eexists _, _; (split; [done|]); (split; [|exact Hf]); cbn; auto.
Qed.

(** ** A concrete archive *)

Definition module_entries : list entry := [
  {| Name := "./"; Typeflag := TypeDir; body := ("", None) |};
  {| Name := "./main.tf"; Typeflag := TypeReg; body := ("variable x {}", None) |};
  {| Name := "./readme.md"; Typeflag := TypeReg; body := ("lower", None) |};
  {| Name := "./README.md"; Typeflag := TypeReg; body := ("upper", None) |}].

#[local] Instance demo_targz : TarGz := fun bytes =>
  if String.eqb bytes "" then Err (ErrExt "EOF")
  else if String.eqb bytes "evil"
  then Ok ([{| Name := "../../etc/passwd"; Typeflag := TypeReg; body := ("root", None) |}], None)
  else Ok (module_entries, None).

Definition scratch : env fs :=
  quiet (Fs {[ ["tmp"] := Dir; ["tmp"; "x"] := Dir; ["etc"] := Dir; ["etc"; "passwd"] := File "safe" ]} []).

Lemma scratch_closed : closed (nodes (st scratch)).
Proof. apply closedb_sound. vm_compute. reflexivity. Qed.

Example evil_refused :
  fst (ExtractTarGz [] "/tmp/x" "evil" scratch) = Some (ErrMsg "invalid file path in archive: ../../etc/passwd").
Proof. vm_compute. reflexivity. Qed.

Example module_extracted :
  nodes (st (snd (ExtractTarGz [] "/tmp/x" "module" scratch))) !! ["tmp"; "x"; "main.tf"] = Some (File "variable x {}").
Proof. vm_compute. reflexivity. Qed.

(** An entry that comes twice is not replaced: the file is opened without being
    truncated, so the tail of the longer first body stays. *)
Example repeated_entry_is_mixed :
  nodes (st (snd (extract_entries [] "/tmp/x" 0 0
    [{| Name := "a.tf"; Typeflag := TypeReg; body := ("0123456789", None) |};
     {| Name := "a.tf"; Typeflag := TypeReg; body := ("new", None) |}] None scratch)))
  !! ["tmp"; "x"; "a.tf"] = Some (File "new3456789").
Proof. vm_compute. reflexivity. Qed.

Theorem validation_accepts_witness :
  MaxArchiveSize < 2^63 - 1 /\ ValidateArchive "module" MaxArchiveSize = None /\ Forall entry_ok module_entries.
Proof.
  assert (Hm : MaxArchiveSize < 2^63 - 1) by (vm_compute; reflexivity).
  assert (Hv : ValidateArchive "module" MaxArchiveSize = None) by (vm_compute; reflexivity).
  split; [exact Hm|]. split; [exact Hv|].
  destruct (proj1 (validation_accepts "module" MaxArchiveSize Hm) Hv) as (es & He & _ & _ & Hf & _).
  vm_compute in He. injection He as <-. exact Hf.
Defined.

Theorem validated_archive_extracts_witness :
  ValidateArchive "module" 0 = None /\
  match fst (ExtractTarGz [] "/tmp/x" "module" scratch) with None => True | Some e => fs_error e end.
Proof.
  assert (Hv : ValidateArchive "module" 0 = None) by (vm_compute; reflexivity).
  split; [exact Hv|]. exact (validated_archive_extracts [] "/tmp/x" "module" scratch eq_refl Hv).
Defined.

Theorem extraction_is_contained_witness :
  IsAbs "/tmp/x" = true /\
  moves_below ["tmp"; "x"] (st scratch) (st (snd (ExtractTarGz [] "/tmp/x" "evil" scratch))).
Proof.
  split; [reflexivity|].
  exact (proj1 (extraction_is_contained [] "/tmp/x" "evil" scratch eq_refl scratch_closed eq_refl)).
Defined.

Theorem readme_choice_witness :
  ExtractReadme "module" = Ok "lower" /\ exists entries, open_targz "module" = Ok (entries, None).
Proof.
  assert (He : ExtractReadme "module" = Ok "lower") by (vm_compute; reflexivity).
  split; [exact He|]. destruct (readme_choice "module" "lower" He) as (es & Ho & _). by exists es.
Defined.
