(* ===== verification/Validation.v ===== *)
(** * Input validators

    [internal/validation]: registry identifier segments ([segment.go]),
    storage file names ([filename.go]) and provider platforms ([platform.go]).
    The validators read their argument and return an error or nothing. *)

From S2P Require Import Prelude GoStrings.

(** ** Segments: [^[a-z0-9][a-z0-9_-]{0,63}$] *)

Definition between (lo hi : nat) (c : ascii) : bool :=
  let n := nat_of_ascii c in (lo <=? n)%nat && (n <=? hi)%nat.

Definition seg_first (c : ascii) : bool := between 97 122 c || between 48 57 c.
Definition seg_rest (c : ascii) : bool :=
  seg_first c || Ascii.eqb c "_" || Ascii.eqb c "-".

Fixpoint all_chars (f : ascii -> bool) (s : string) : bool :=
  match s with
  | EmptyString => true
  | String c s' => f c && all_chars f s'
  end.

Definition reRegistrySegment (s : string) : bool :=
  match s with
  | EmptyString => false
  | String c s' => seg_first c && all_chars seg_rest s' && (String.length s' <=? 63)%nat
  end.

Definition ValidateRegistrySegment (s : string) : option gerror :=
  if reRegistrySegment s then None else Some (ErrMsg "not a valid registry identifier").

(** ** Storage file names *)

Definition ValidateStorageFilename (name : string) : option gerror :=
  if String.eqb name "" then Some (ErrMsg "filename cannot be empty")
  else if contains_any name "/\" then Some (ErrMsg "filename must not contain path separators")
  else if contains name ".." then Some (ErrMsg "filename must not contain '..'")
  else None.

(** ** Platforms *)

Definition SupportedOS : list string :=
  ["darwin"; "freebsd"; "linux"; "openbsd"; "solaris"; "windows"].
Definition SupportedArch : list string := ["386"; "amd64"; "arm"; "arm64"].

Definition isValidOS (os : string) : bool := List.existsb (String.eqb os) SupportedOS.
Definition isValidArch (arch : string) : bool := List.existsb (String.eqb arch) SupportedArch.
Definition validateOSArchCombination (os arch : string) : option gerror := None.

Definition ValidatePlatform (os arch : string) : option gerror :=
  if String.eqb os "" then Some (ErrMsg "operating system cannot be empty")
  else if String.eqb arch "" then Some (ErrMsg "architecture cannot be empty")
  else if negb (isValidOS os) then Some (ErrMsg "unsupported operating system")
  else if negb (isValidArch arch) then Some (ErrMsg "unsupported architecture")
  else validateOSArchCombination os arch.

Definition FormatPlatformKey (os arch : string) : string := os +:+ "_" +:+ arch.

(** ** Lemmas *)

(** [c] occurs in [s]. *)
Fixpoint mem_char (c : ascii) (s : string) : bool :=
  match s with
  | EmptyString => false
  | String d s' => Ascii.eqb d c || mem_char c s'
  end.

Lemma all_chars_mem f s c : all_chars f s = true -> mem_char c s = true -> f c = true.
Proof.
  induction s as [|d s IH]; cbn; [done|]. intros Ha Hm. bools.
  apply orb_true_iff in Hm as [E|Hm]; [|by apply IH].
  apply Ascii.eqb_eq in E as ->. done.
Qed.

Lemma segment_char s c :
  reRegistrySegment s = true -> mem_char c s = true -> seg_rest c = true.
Proof.
  destruct s as [|d s]; [done|]. cbn. intros Hr Hm. bools.
  apply orb_true_iff in Hm as [E|Hm].
  - apply Ascii.eqb_eq in E as ->. unfold seg_rest. by rewrite H.
  - by eapply all_chars_mem.
Qed.

Lemma contains_any_mem s set c :
  contains_any s set = false -> char_in c set = true -> mem_char c s = false.
Proof.
  induction s as [|d s IH]; cbn; [done|]. intros Hc Hin. bools.
  apply orb_false_iff. split; [|by apply IH].
  destruct (Ascii.eqb_spec d c) as [->|]; [congruence | done].
Qed.

(** a registry segment is safe as a URL or storage path component: at most
    64 bytes, none of them a slash, a backslash, a dot or white space; so it is
    also a safe storage file name. *)
Theorem segment_is_path_safe (s : string) :
  ValidateRegistrySegment s = None ->
  (1 <= String.length s <= 64)%nat /\
  (forall c, mem_char c s = true -> c <> "/"%char /\ c <> "\"%char /\ c <> "."%char /\
                                    is_space c = false) /\
  ValidateStorageFilename s = None.
Proof.
  unfold ValidateRegistrySegment. destruct (reRegistrySegment s) eqn:E; [|done]. intros _.
  assert (Hc : forall c, mem_char c s = true -> c <> "/"%char /\ c <> "\"%char /\
              c <> "."%char /\ is_space c = false).
  { intros c Hm. pose proof (segment_char s c E Hm) as Hr.
    repeat split; [intros ->; discriminate Hr.. |].
    unfold seg_rest, seg_first, between, is_space in *.
    destruct (Ascii.eqb_spec c "_") as [->|]; [done|].
    destruct (Ascii.eqb_spec c "-") as [->|]; [done|].
    rewrite !orb_false_r in Hr. apply orb_false_iff. rewrite andb_false_iff.
    apply orb_true_iff in Hr as [Hr|Hr]; bools; apply Nat.leb_le in H, H0;
      (split; [apply Nat.eqb_neq | right; apply Nat.leb_gt]); lia. }
  split; [|split; [exact Hc|]].
  - destruct s as [|c s]; [done|]. cbn in E |- *. bools. apply Nat.leb_le in H0. lia.
  - unfold ValidateStorageFilename.
    assert (Hno : forall c, mem_char c s = true -> char_in c "/\" = false).
    { intros c Hm. destruct (Hc c Hm) as (H1 & H2 & _). unfold char_in. cbn.
      by rewrite (proj2 (Ascii.eqb_neq _ _) H1), (proj2 (Ascii.eqb_neq _ _) H2). }
    destruct (String.eqb_spec s "") as [->|_]; [done|].
    replace (contains_any s "/\") with false.
    2:{ clear -Hno. induction s as [|d s IH]; [done|]. cbn [contains_any].
        rewrite (Hno d) by (cbn; by rewrite Ascii.eqb_refl).
        apply IH. intros c Hm. apply Hno. cbn. rewrite Hm. apply orb_true_r. }
    replace (contains s "..") with false; [done|].
    clear -Hc. induction s as [|d s IH]; [done|].
    change (contains (String d s) "..") with (has_prefix (String d s) ".." || contains s "..").
    rewrite <- IH by (intros c Hm; apply Hc; cbn; rewrite Hm; apply orb_true_r).
    destruct (Hc d) as (_ & _ & Hd & _); [cbn; by rewrite Ascii.eqb_refl|].
    unfold has_prefix. cbn [String.prefix]. by destruct (ascii_dec "." d) as [<-|].
Qed.

Theorem segment_is_path_safe_witness :
  (1 <= String.length "hashi-corp_1" <= 64)%nat /\ ValidateStorageFilename "hashi-corp_1" = None.
Proof.
  destruct (segment_is_path_safe "hashi-corp_1") as (H1 & _ & H3); [vm_compute; reflexivity|].
  exact (conj H1 H3).
Defined.

(** A platform is accepted exactly when both halves are in the supported
    lists. *)
Lemma platform_accepted_iff (os arch : string) :
  ValidatePlatform os arch = None <-> In os SupportedOS /\ In arch SupportedArch.
Proof.
  unfold ValidatePlatform, isValidOS, isValidArch, validateOSArchCombination.
  assert (Hin : forall x l, List.existsb (String.eqb x) l = true <-> In x l).
  { intros x l. rewrite existsb_exists. split.
    - intros (y & Hy & E). by apply String.eqb_eq in E as ->.
    - intros Hx. exists x. by rewrite String.eqb_refl. }
  rewrite <- !Hin.
  destruct (String.eqb_spec os "") as [->|]; [split; [done | by intros [? _]]|].
  destruct (String.eqb_spec arch "") as [->|]; [split; [done | by intros [_ ?]]|].
  destruct (List.existsb _ SupportedOS), (List.existsb _ SupportedArch); cbn;
    (split; [done | by intros []]).
Qed.
