(* ===== verification/Web.v ===== *)
(** * Requests, the registry's tables and the identity module

    What a middleware sees: the gin context of the request ([ginctx]), the
    tables of the registry's own schema that authorization reads and writes
    ([regdb]), and the shared identity module (users, API keys, tokens,
    organization memberships, scope arithmetic), which is third-party code and
    appears as the interfaces [Identity] and [ScopeLib]. *)

From S2P Require Import Prelude GoStrings.
From stdpp Require Import gmap.

(** ** Values kept in a gin context *)

Record apikey := {
  ak_ID : string;
  ak_UserID : option string;
  ak_OrganizationID : string;
  ak_KeyHash : string;
  ak_ExpiresAt : option Z;
  ak_Scopes : list string;
}.
Record user := { u_ID : string }.
Record claims := {
  JTI : string;
  IssuedAt : option Z;
  cl_ExpiresAt : option Z;
  cl_UserID : string;
  cl_Scopes : list string;
}.
Record member := { mb_RoleTemplateID : option string }.
Record member_role := {
  mr_RoleTemplateID : option string;
  mr_RoleTemplateScopes : list string;
}.

(** An [interface{}] value by its dynamic type. *)
Inductive ctxval :=
| VStrings (l : list string)
| VString (s : string)
| VStringPtr (s : option string)
| VAPIKey (k : apikey)
| VUser (u : user)
| VClaims (c : claims)
| VOther.

Record ginctx := {
  keys : gmap string ctxval;
  header : gmap string string;
  cookie : gmap string string;
  param : gmap string string;
  (** the body fields of a multipart form, or the parse error *)
  form : res (gmap string string);
  (** the raw body, or the read error *)
  body : res string;
  method : string;
  path : string;
  (** [AbortWithStatusJSON]: status and error message *)
  aborted : option (Z * string);
  (** how often [c.Next()] was called *)
  nexts : nat;
}.

(** ** Tables of the registry schema *)

Record claim := {
  cm_Namespace : string;
  cm_OrganizationID : string;
  cm_ClaimedBy : option string;
}.
Record artifact := {
  a_ID : string;
  a_OrganizationID : option string;
  a_Namespace : string;
}.
Record regdb := {
  namespace_claims : gmap string claim;
  modules : list artifact;
  providers : list artifact;
  user_token_revocations : gmap string Z;
}.

Record web (X : Type) := Web { gin : ginctx; tables : regdb; ext : X }.
Arguments Web {X} _ _ _.
Arguments gin {X} _.
Arguments tables {X} _.
Arguments ext {X} _.

(** ** The identity module *)

Class Identity (X : Type) := {
  GetUserByID : string -> X -> res (option user) * X;
  GetAPIKeysByPrefix : string -> X -> res (list apikey) * X;
  UpdateLastUsed : string -> X -> X;
  IsTokenRevoked : string -> X -> res bool * X;
  GetUserScopesForOrg : string -> string -> X -> res (list string) * X;
  GetMember : string -> string -> X -> res (option member) * X;
  GetMemberWithRole : string -> string -> X -> res (option member_role) * X;
  (** the organization IDs of a user's memberships *)
  GetUserMemberships : string -> X -> res (list string) * X;
  ValidateJWT : string -> X -> option claims;
  ValidateAPIKey : string -> string -> bool;
}.

(** Scope arithmetic.  [ReadWritePairs] maps a read scope to the write scope
    that implies it. *)
Definition ReadWritePairs := gmap string string.

Class ScopeLib := {
  idScopeUsersRead : string;
  idScopeUsersWrite : string;
  idScopeOrganizationsRead : string;
  idScopeOrganizationsWrite : string;
  idScopeOrganizationsCreate : string;
  idScopeAPIKeysManage : string;
  idScopeAuditRead : string;
  idScopeAdmin : string;
  idHasScope : list string -> string -> ReadWritePairs -> bool;
  idHasAnyScope : list string -> list string -> ReadWritePairs -> bool;
  idHasAllScopes : list string -> list string -> ReadWritePairs -> bool;
  idRoleScopesPermittedBy : list string -> list string -> ReadWritePairs -> bool;
  idValidateProvisionableScopes : list string -> option gerror;
}.

(** ** gin operations *)

Section GinOps.
Context {X : Type}.

Definition set_gin (f : ginctx -> ginctx) (s : web X) : web X :=
  Web (f (gin s)) (tables s) (ext s).

Definition c_Get (k : string) : prog (env (web X)) (option ctxval) :=
  gets (fun s => keys (gin s) !! k).

(** [c.GetString]: the zero value unless the key holds a string. *)
Definition c_GetString (k : string) : prog (env (web X)) string :=
  gets (fun s => match keys (gin s) !! k with Some (VString v) => v | _ => "" end).

Definition c_Set (k : string) (v : ctxval) : prog (env (web X)) unit :=
  modify (set_gin (fun g => {|
    keys := <[k := v]> (keys g); header := header g; cookie := cookie g;
    param := param g; form := form g; body := body g; method := method g;
    path := path g; aborted := aborted g; nexts := nexts g |})).

Definition c_Param (k : string) : prog (env (web X)) string :=
  gets (fun s => default "" (param (gin s) !! k)).
Definition c_GetHeader (k : string) : prog (env (web X)) string :=
  gets (fun s => default "" (header (gin s) !! k)).
Definition c_Cookie (k : string) : prog (env (web X)) (option string) :=
  gets (fun s => cookie (gin s) !! k).

Definition c_Abort (status : Z) (msg : string) : prog (env (web X)) unit :=
  modify (set_gin (fun g => {|
    keys := keys g; header := header g; cookie := cookie g;
    param := param g; form := form g; body := body g; method := method g;
    path := path g; aborted := Some (status, msg); nexts := nexts g |})).

Definition c_Next : prog (env (web X)) unit :=
  modify (set_gin (fun g => {|
    keys := keys g; header := header g; cookie := cookie g;
    param := param g; form := form g; body := body g; method := method g;
    path := path g; aborted := aborted g; nexts := S (nexts g) |})).

(** A call into the identity module. *)
Definition ident {A} (f : X -> A * X) : prog (env (web X)) A :=
  state (fun s => let r := f (ext s) in (fst r, Web (gin s) (tables s) (snd r))).

(** A statement on the registry's tables. *)
Definition sql {A} (op : string) (f : regdb -> res A * regdb) : prog (env (web X)) (res A) :=
  db op (fun s => let r := f (tables s) in (fst r, Web (gin s) (snd r) (ext s))).
End GinOps.

Definition query {X A} (op : string) (f : regdb -> res A) : prog (env (web X)) (res A) :=
  sql op (fun t => (f t, t)).

(** A request as it enters the chain. *)
Definition fresh_req (g : ginctx) : Prop := aborted g = None /\ nexts g = O.

(** The request went on to the next handler, or was answered here. *)
Definition admitted {X} (w : env (web X)) : Prop :=
  aborted (gin (st w)) = None /\ nexts (gin (st w)) = 1%nat.
Definition refused {X} (w : env (web X)) (status : Z) : Prop :=
  (exists msg, aborted (gin (st w)) = Some (status, msg)) /\ nexts (gin (st w)) = O.

(** ** Lemmas *)

(** Reading the context moves nothing. *)
Section Reads.
Context {X : Type} (R : web X -> web X -> Prop) `{!PreOrder R}.

Lemma preserves_Get k : preserves (on_st R) (c_Get k).
Proof. apply preserves_gets. apply _. Qed.
Lemma preserves_GetString k : preserves (on_st R) (c_GetString k).
Proof. apply preserves_gets. apply _. Qed.
Lemma preserves_Param k : preserves (on_st R) (c_Param k).
Proof. apply preserves_gets. apply _. Qed.
Lemma preserves_GetHeader k : preserves (on_st R) (c_GetHeader k).
Proof. apply preserves_gets. apply _. Qed.
Lemma preserves_Cookie k : preserves (on_st R) (c_Cookie k).
Proof. apply preserves_gets. apply _. Qed.
End Reads.
#[export] Hint Resolve preserves_Get preserves_GetString preserves_Param
  preserves_GetHeader preserves_Cookie : registry.

(** A middleware that never writes the tables. *)
Definition same_tables {X} (s s' : web X) : Prop := tables s' = tables s.

#[export] Instance same_tables_preorder {X} : PreOrder (@same_tables X).
Proof. split; [by intros s | intros a b c H1 H2; unfold same_tables in *; congruence]. Qed.

Section SameTables.
Context {X : Type}.
#[local] Abbreviation R := (on_st (@same_tables X)).

Lemma same_tables_set k v : preserves R (c_Set k v).
Proof. apply preserves_modify. done. Qed.
Lemma same_tables_abort st m : preserves R (c_Abort st m).
Proof. apply preserves_modify. done. Qed.
Lemma same_tables_next : preserves R c_Next.
Proof. apply preserves_modify. done. Qed.
Lemma same_tables_ident {A} (f : X -> A * X) : preserves R (ident f).
Proof. apply preserves_state. done. Qed.
Lemma same_tables_query {A} op (f : regdb -> res A) : preserves R (query op f).
Proof. apply preserves_db; [apply _ | done]. Qed.
End SameTables.
#[export] Hint Resolve same_tables_set same_tables_abort same_tables_next
  same_tables_ident same_tables_query : registry.

(** ** A concrete identity module

    A directory of users, keys, sessions and memberships, so that the theorems
    over [Identity] can be evaluated. *)
Record directory := {
  d_users : list string;
  d_keys : list apikey;
  d_sessions : list (string * claims);
  d_revoked : list string;
  (** user, organization, role, role scopes *)
  d_members : list (string * string * option string * list string);
}.

Definition d_member (u o : string) (d : directory)
  : option (string * string * option string * list string) :=
  List.find (fun m => String.eqb (fst (fst (fst m))) u && String.eqb (snd (fst (fst m))) o)
    (d_members d).

#[export] Instance directory_identity : Identity directory := {|
  GetUserByID u d :=
    (Ok (if List.existsb (String.eqb u) (d_users d) then Some {| u_ID := u |} else None), d);
  GetAPIKeysByPrefix p d :=
    (Ok (List.filter (fun k => has_prefix (ak_KeyHash k) ("#" +:+ p)) (d_keys d)), d);
  UpdateLastUsed _ d := d;
  IsTokenRevoked j d := (Ok (List.existsb (String.eqb j) (d_revoked d)), d);
  GetUserScopesForOrg u o d :=
    (Ok (match d_member u o d with Some (_, sc) => sc | None => [] end), d);
  GetMember o u d :=
    (Ok (match d_member u o d with
         | Some (_, r, _) => Some {| mb_RoleTemplateID := r |} | None => None end), d);
  GetMemberWithRole o u d :=
    (Ok (match d_member u o d with
         | Some (_, r, sc) => Some {| mr_RoleTemplateID := r; mr_RoleTemplateScopes := sc |}
         | None => None end), d);
  GetUserMemberships u d :=
    (Ok (map (fun m => snd (fst (fst m)))
       (List.filter (fun m => String.eqb (fst (fst (fst m))) u) (d_members d))), d);
  ValidateJWT t d :=
    match List.find (fun s => String.eqb (fst s) t) (d_sessions d) with
    | Some (_, c) => Some c
    | None => None
    end;
  ValidateAPIKey k h := String.eqb h ("#" +:+ k);
|}.

Definition request (ks : list (string * ctxval)) (params : list (string * string)) : ginctx := {|
  keys := list_to_map ks; header := ∅; cookie := ∅; param := list_to_map params;
  form := Ok ∅; body := Ok ""; method := "GET"; path := "/";
  aborted := None; nexts := O |}.

Definition empty_db : regdb := {|
  namespace_claims := ∅; modules := []; providers := []; user_token_revocations := ∅ |}.
