(* ===== verification/Rbac.v ===== *)
(** * Scopes and role-based access control

    [internal/auth/scopes.go] (the registry's scopes over the identity module's
    scope arithmetic) and [internal/middleware/rbac.go] (the scope and
    organization middlewares). *)

From S2P Require Import Prelude GoStrings Web.
From stdpp Require Import gmap.

(** ** Scopes *)

Section Scopes.
Context `{ScopeLib}.

Definition Scope := string.

Definition ScopeModulesRead : Scope := "modules:read".
Definition ScopeModulesWrite : Scope := "modules:write".
Definition ScopeProvidersRead : Scope := "providers:read".
Definition ScopeProvidersWrite : Scope := "providers:write".
Definition ScopeMirrorsRead : Scope := "mirrors:read".
Definition ScopeMirrorsManage : Scope := "mirrors:manage".
Definition ScopeSCMRead : Scope := "scm:read".
Definition ScopeSCMManage : Scope := "scm:manage".
Definition ScopeScanningRead : Scope := "scanning:read".
Definition ScopeSCIMProvision : Scope := "scim:provision".
Definition ScopeUsersRead : Scope := idScopeUsersRead.
Definition ScopeUsersWrite : Scope := idScopeUsersWrite.
Definition ScopeOrganizationsRead : Scope := idScopeOrganizationsRead.
Definition ScopeOrganizationsWrite : Scope := idScopeOrganizationsWrite.
Definition ScopeAPIKeysManage : Scope := idScopeAPIKeysManage.
Definition ScopeAuditRead : Scope := idScopeAuditRead.
Definition ScopeAdmin : Scope := idScopeAdmin.
Definition ScopeOrganizationsCreate : Scope := idScopeOrganizationsCreate.

Definition pair_list : list (Scope * Scope) := [
  (ScopeModulesRead, ScopeModulesWrite);
  (ScopeProvidersRead, ScopeProvidersWrite);
  (ScopeUsersRead, ScopeUsersWrite);
  (ScopeMirrorsRead, ScopeMirrorsManage);
  (ScopeOrganizationsRead, ScopeOrganizationsWrite);
  (ScopeSCMRead, ScopeSCMManage)].
Definition readWritePairs : ReadWritePairs := list_to_map pair_list.

Definition AllScopes : list Scope := [
  ScopeModulesRead; ScopeModulesWrite; ScopeProvidersRead; ScopeProvidersWrite;
  ScopeMirrorsRead; ScopeMirrorsManage; ScopeUsersRead; ScopeUsersWrite;
  ScopeOrganizationsRead; ScopeOrganizationsWrite; ScopeOrganizationsCreate;
  ScopeSCMRead; ScopeSCMManage; ScopeAPIKeysManage; ScopeAuditRead;
  ScopeScanningRead; ScopeSCIMProvision; ScopeAdmin].

Definition ValidScopes : gset string := list_to_set AllScopes.

Definition ValidateScopeString (scope : string) : option gerror :=
  if bool_decide (scope ∈ ValidScopes) then None else Some (ErrMsg "invalid scope").

Fixpoint ValidateScopes (scopes : list string) : option gerror :=
  match scopes with
  | [] => None
  | scope :: rest =>
      if bool_decide (scope ∈ ValidScopes) then ValidateScopes rest
      else Some (ErrMsg ("invalid scope: " +:+ scope))
  end.

Definition HasScope (userScopes : list string) (required : Scope) : bool :=
  idHasScope userScopes required readWritePairs.
Definition HasAnyScope (userScopes : list string) (required : list Scope) : bool :=
  idHasAnyScope userScopes required readWritePairs.
Definition HasAllScopes (userScopes : list string) (required : list Scope) : bool :=
  match required with
  | [] => true
  | _ => idHasAllScopes userScopes required readWritePairs
  end.
Definition RoleScopesPermittedBy (callerScopes roleScopes : list string) : bool :=
  idRoleScopesPermittedBy callerScopes roleScopes readWritePairs.
Definition GetDefaultScopes : list string := [ScopeModulesRead; ScopeProvidersRead].
Definition GetAdminScopes : list string := AllScopes.
Definition ValidateProvisionableScopes (scopes : list string) : option gerror :=
  idValidateProvisionableScopes scopes.
End Scopes.

(** What the identity module documents of its scope functions, and that the
    scope names it owns differ from each other and from the registry's. *)
Class ScopeLibLaws `{ScopeLib} : Prop := {
  has_scope_iff us r pairs :
    idHasScope us r pairs = true <->
    idScopeAdmin ∈ us \/ r ∈ us \/ exists w, pairs !! r = Some w /\ w ∈ us;
  has_any_iff us rs pairs :
    idHasAnyScope us rs pairs = true <-> exists r, r ∈ rs /\ idHasScope us r pairs = true;
  has_all_iff us rs pairs :
    idHasAllScopes us rs pairs = true <->
    rs <> [] /\ forall r, r ∈ rs -> idHasScope us r pairs = true;
  permitted_iff caller role pairs :
    idRoleScopesPermittedBy caller role pairs = true <->
    role = [] \/ idScopeAdmin ∈ caller \/
    ((idScopeAdmin ∉ role) /\ forall r, r ∈ role -> idHasScope caller r pairs = true);
  provisionable_iff scopes :
    idValidateProvisionableScopes scopes = None <-> idScopeAdmin ∉ scopes;
  scope_names_distinct : NoDup AllScopes;
}.

(** ** Middlewares *)

Section Middleware.
Context {X : Type} `{Identity X} `{ScopeLib}.
#[local] Abbreviation handler := (prog (env (web X)) unit).

Definition RequireScope (scope : Scope) : handler :=
  let! scopesVal := c_Get "scopes" in
  match scopesVal with
  | None => c_Abort 403 "Insufficient permissions"
  | Some (VStrings userScopes) =>
      if negb (HasScope userScopes scope) then c_Abort 403 "Missing required scope"
      else c_Next
  | Some _ => c_Abort 403 "Invalid scopes format"
  end.

Definition RequireAnyScope (scopes : list Scope) : handler :=
  let! scopesVal := c_Get "scopes" in
  match scopesVal with
  | None => c_Abort 403 "Insufficient permissions"
  | Some (VStrings userScopes) =>
      if negb (HasAnyScope userScopes scopes) then c_Abort 403 "Missing required scope"
      else c_Next
  | Some _ => c_Abort 403 "Invalid scopes format"
  end.

Definition RequireAllScopes (scopes : list Scope) : handler :=
  let! scopesVal := c_Get "scopes" in
  match scopesVal with
  | None => c_Abort 403 "Insufficient permissions"
  | Some (VStrings userScopes) =>
      if negb (HasAllScopes userScopes scopes)
      then c_Abort 403 "Missing one or more required scopes"
      else c_Next
  | Some _ => c_Abort 403 "Invalid scopes format"
  end.

Definition RequireOrgScopeForPathOrg (scope : Scope) : handler :=
  let! scopesVal := c_Get "scopes" in
  match scopesVal with
  | None => c_Abort 403 "Insufficient permissions"
  | Some (VStrings callerScopes) =>
      if HasScope callerScopes ScopeAdmin then c_Next
      else
        let! userVal := c_Get "user_id" in
        match userVal with
        | None => c_Abort 403 "User not authenticated"
        | Some (VString userID) =>
            if String.eqb userID "" then c_Abort 403 "Invalid user ID format"
            else
              let! orgID := c_Param "id" in
              if String.eqb orgID "" then c_Abort 400 "Organization ID is required"
              else
                let! r := ident (GetUserScopesForOrg userID orgID) in
                match r with
                | Err _ => c_Abort 500 "Failed to verify organization membership"
                | Ok orgScopes =>
                    if negb (HasScope orgScopes scope)
                    then c_Abort 403 "Missing required scope for this organization"
                    else c_Next
                end
        | Some _ => c_Abort 403 "Invalid user ID format"
        end
  | Some _ => c_Abort 403 "Invalid scopes format"
  end.

Definition RequireOrgMembership : handler :=
  let! userVal := c_Get "user_id" in
  match userVal with
  | None => c_Abort 403 "User not authenticated"
  | Some (VString userID) =>
      let! orgVal := c_Get "organization_id" in
      match orgVal with
      | None => c_Abort 403 "Organization context not found"
      | Some (VString orgID) =>
          let! r := ident (GetMember orgID userID) in
          match r with
          | Err _ => c_Abort 500 "Failed to check organization membership"
          | Ok None => c_Abort 403 "Not a member of organization"
          | Ok (Some m) =>
              run! c_Set "org_role_template_id" (VStringPtr (mb_RoleTemplateID m)) in
              c_Next
          end
      | Some _ => c_Abort 403 "Invalid organization ID format"
      end
  | Some _ => c_Abort 403 "Invalid user ID format"
  end.

Definition RequireOrgScope (scope : Scope) : handler :=
  let! userVal := c_Get "user_id" in
  match userVal with
  | None => c_Abort 403 "User not authenticated"
  | Some (VString userID) =>
      let! orgVal := c_Get "organization_id" in
      match orgVal with
      | None => c_Abort 403 "Organization context not found"
      | Some (VString orgID) =>
          let! r := ident (GetMemberWithRole orgID userID) in
          match r with
          | Err _ => c_Abort 500 "Failed to check organization membership"
          | Ok None => c_Abort 403 "Not a member of organization"
          | Ok (Some m) =>
              if negb (HasScope (mr_RoleTemplateScopes m) scope)
              then c_Abort 403 "Missing required scope for organization"
              else
                run! c_Set "org_role_template_id" (VStringPtr (mr_RoleTemplateID m)) in
                run! c_Set "org_role_template_scopes" (VStrings (mr_RoleTemplateScopes m)) in
                c_Next
          end
      | Some _ => c_Abort 403 "Invalid organization ID format"
      end
  | Some _ => c_Abort 403 "Invalid user ID format"
  end.
End Middleware.

(** ** A concrete identity module's scope arithmetic *)

Definition core_has (us : list string) (r : string) (pairs : ReadWritePairs) : bool :=
  bool_decide ("admin" ∈ us) || bool_decide (r ∈ us) ||
  match pairs !! r with Some w => bool_decide (w ∈ us) | None => false end.

Definition core_scopes : ScopeLib := {|
  idScopeUsersRead := "users:read";
  idScopeUsersWrite := "users:write";
  idScopeOrganizationsRead := "organizations:read";
  idScopeOrganizationsWrite := "organizations:write";
  idScopeOrganizationsCreate := "organizations:create";
  idScopeAPIKeysManage := "api_keys:manage";
  idScopeAuditRead := "audit:read";
  idScopeAdmin := "admin";
  idHasScope := core_has;
  idHasAnyScope us rs pairs := List.existsb (fun r => core_has us r pairs) rs;
  idHasAllScopes us rs pairs :=
    match rs with [] => false | _ => List.forallb (fun r => core_has us r pairs) rs end;
  idRoleScopesPermittedBy caller role pairs :=
    match role with
    | [] => true
    | _ => bool_decide ("admin" ∈ caller) ||
           (bool_decide ("admin" ∉ role) && List.forallb (fun r => core_has caller r pairs) role)
    end;
  idValidateProvisionableScopes scopes :=
    if bool_decide ("admin" ∈ scopes) then Some (ErrMsg "admin") else None;
|}.

Lemma core_scopes_laws : @ScopeLibLaws core_scopes.
Proof.
  split.
  - intros us r pairs. cbn. unfold core_has.
    destruct (pairs !! r) as [w|]; rewrite ?orb_false_r, !orb_true_iff, !bool_decide_eq_true;
      naive_solver.
  - intros us rs pairs. cbn. rewrite existsb_exists. by setoid_rewrite <- list_elem_of_In.
  - intros us rs pairs. change (idHasAllScopes us rs pairs) with
      (match rs with [] => false | _ => List.forallb (fun r => core_has us r pairs) rs end).
    destruct rs as [|r rs]; [split; [done | by intros []]|].
    rewrite forallb_forall. setoid_rewrite <- list_elem_of_In.
    split; [intros Hr; split; [done | exact Hr] | by intros []].
  - intros caller role pairs.
    change (idRoleScopesPermittedBy caller role pairs) with
      (match role with
       | [] => true
       | _ => bool_decide ("admin" ∈ caller) ||
           (bool_decide ("admin" ∉ role) && List.forallb (fun r => core_has caller r pairs) role)
       end).
    destruct role as [|r rs]; [split; [by left | done]|].
    rewrite orb_true_iff, andb_true_iff, !bool_decide_eq_true, forallb_forall.
    setoid_rewrite <- list_elem_of_In.
    split; [by intros ?; right | by intros [|]].
  - intros scopes. cbn. by case_bool_decide.
  - apply (bool_decide_unpack (NoDup (@AllScopes core_scopes))). vm_compute. exact I.
Qed.

(** ** Lemmas *)

Section ScopeLemmas.
Context `{ScopeLibLaws}.

(** The scopes a requirement is satisfied by. *)
Definition satisfies (us : list string) (r : string) : Prop :=
  ScopeAdmin ∈ us \/ r ∈ us \/ exists w, readWritePairs !! r = Some w /\ w ∈ us.

Lemma HasScope_iff us r : HasScope us r = true <-> satisfies us r.
Proof. apply has_scope_iff. Qed.

Lemma HasAllScopes_iff us rs :
  HasAllScopes us rs = true <-> forall r, r ∈ rs -> satisfies us r.
Proof.
  destruct rs as [|r rs].
  - split; [|done]. intros _ r Hr. by apply elem_of_nil in Hr.
  - change (HasAllScopes us (r :: rs)) with (idHasAllScopes us (r :: rs) readWritePairs).
    rewrite has_all_iff. setoid_rewrite has_scope_iff. split; [by intros [] | done].
Qed.

Lemma HasAnyScope_iff us rs :
  HasAnyScope us rs = true <-> exists r, r ∈ rs /\ satisfies us r.
Proof.
  unfold HasAnyScope. rewrite has_any_iff. by setoid_rewrite has_scope_iff.
Qed.

(** [i]-th and [j]-th scope names differ. *)
Lemma scope_ne i j x : AllScopes !! i = Some x -> AllScopes !! j = Some x -> i = j.
Proof. intros Hi Hj. exact (NoDup_lookup _ _ _ _ scope_names_distinct Hi Hj). Qed.
End ScopeLemmas.

Section HandlerLemmas.
Context {X : Type} `{Identity X} `{ScopeLib}.

Lemma rbac_same_tables scope scopes :
  preserves (on_st same_tables) (RequireScope scope : prog (env (web X)) unit) /\
  preserves (on_st same_tables) (RequireAnyScope scopes : prog (env (web X)) unit) /\
  preserves (on_st same_tables) (RequireAllScopes scopes : prog (env (web X)) unit) /\
  preserves (on_st same_tables) (RequireOrgScopeForPathOrg scope : prog (env (web X)) unit) /\
  preserves (on_st same_tables) (RequireOrgMembership : prog (env (web X)) unit) /\
  preserves (on_st same_tables) (RequireOrgScope scope : prog (env (web X)) unit).
Proof.
  unfold RequireScope, RequireAnyScope, RequireAllScopes, RequireOrgScopeForPathOrg,
    RequireOrgMembership, RequireOrgScope.
  repeat split; preserve.
Qed.
End HandlerLemmas.

(** The end of a handler: it either passed the request on or refused it. *)
Ltac by_outcome :=
  unfold admitted, refused; cbn;
  repeat match goal with
  | H : fresh_req ?g |- _ => destruct H as [? ?]
  | H : aborted ?g = _ |- context [aborted ?g] => rewrite H
  | H : nexts ?g = _ |- context [nexts ?g] => rewrite H
  end; naive_solver.

(** ** Properties *)

Section Properties.
Context {X : Type} `{Identity X} `{ScopeLibLaws}.
Implicit Types w : env (web X).

(** creating organizations is never implied: a caller has that scope only
    by holding it, or [admin], explicitly. *)
Theorem organizations_create_not_implied (us : list string) :
  HasScope us ScopeOrganizationsCreate = true <->
  ScopeAdmin ∈ us \/ ScopeOrganizationsCreate ∈ us.
Proof.
  rewrite HasScope_iff. unfold satisfies. split; [|naive_solver].
  intros [?|[?|(wr & Hw & _)]]; [by left | by right|]. exfalso.
  apply elem_of_list_to_map_2 in Hw. unfold pair_list in Hw.
  rewrite !elem_of_cons, elem_of_nil in Hw.
  assert (Hc : AllScopes !! 10%nat = Some ScopeOrganizationsCreate) by done.
  destruct Hw as [[= E _]|[[= E _]|[[= E _]|[[= E _]|[[= E _]|[[= E _]|[]]]]]]];
    rewrite E in Hc;
    [ pose proof (scope_ne 10 0 _ Hc eq_refl) | pose proof (scope_ne 10 2 _ Hc eq_refl)
    | pose proof (scope_ne 10 6 _ Hc eq_refl) | pose proof (scope_ne 10 4 _ Hc eq_refl)
    | pose proof (scope_ne 10 8 _ Hc eq_refl) | pose proof (scope_ne 10 11 _ Hc eq_refl) ];
    discriminate.
Qed.

(** the three scope middlewares decide by the context's scopes alone: they
    pass a request on exactly when the scopes are present as a string slice and
    satisfy the requirement ([admin], the scope itself, or the write scope that
    implies it) - one scope, one of several, or all of several, an empty
    requirement being satisfied by every authenticated caller; otherwise they
    answer 403. *)
Theorem scope_middlewares_decide w (scope : Scope) (scopes : list Scope) :
  fresh_req (gin (st w)) ->
  let has P := exists us, keys (gin (st w)) !! "scopes" = Some (VStrings us) /\ P us in
  (has (fun us => satisfies us scope) /\ admitted (snd (RequireScope scope w)) \/
   ~ has (fun us => satisfies us scope) /\ refused (snd (RequireScope scope w)) 403) /\
  (has (fun us => exists r, r ∈ scopes /\ satisfies us r) /\
     admitted (snd (RequireAnyScope scopes w)) \/
   ~ has (fun us => exists r, r ∈ scopes /\ satisfies us r) /\
     refused (snd (RequireAnyScope scopes w)) 403) /\
  (has (fun us => forall r, r ∈ scopes -> satisfies us r) /\
     admitted (snd (RequireAllScopes scopes w)) \/
   ~ has (fun us => forall r, r ∈ scopes -> satisfies us r) /\
     refused (snd (RequireAllScopes scopes w)) 403).
Proof.
  intros Hf has. subst has. cbv beta.
  unfold RequireScope, RequireAnyScope, RequireAllScopes, bind, c_Get, gets. cbn [fst snd].
  destruct (keys (gin (st w)) !! "scopes") as [[us| | | | | |]|];
    [|repeat split; right; (split; [naive_solver | by_outcome])..].
  destruct (HasScope us scope) eqn:E1; [|rewrite <- not_true_iff_false in E1];
    rewrite HasScope_iff in E1;
  (destruct (HasAnyScope us scopes) eqn:E2; [|rewrite <- not_true_iff_false in E2]);
    rewrite HasAnyScope_iff in E2;
  (destruct (HasAllScopes us scopes) eqn:E3; [|rewrite <- not_true_iff_false in E3]);
    rewrite HasAllScopes_iff in E3;
  cbn [negb]; repeat split;
    first [left; split; [by eexists | by_outcome]
          | right; split; [intros (? & [=<-] & ?); contradiction | by_outcome]].
Qed.

(** Who passes the path-organization check. *)
Definition path_org_ok w (scope : Scope) : Prop :=
  exists us, keys (gin (st w)) !! "scopes" = Some (VStrings us) /\
    (satisfies us ScopeAdmin \/
     exists uid orgID osc x',
       keys (gin (st w)) !! "user_id" = Some (VString uid) /\ uid <> "" /\
       default "" (param (gin (st w)) !! "id") = orgID /\ orgID <> "" /\
       GetUserScopesForOrg uid orgID (ext (st w)) = (Ok osc, x') /\ satisfies osc scope).

(** A branch that refuses: nobody who passes the check reaches it. *)
Ltac path_org_refused :=
  split;
  [ split;
    [ unfold admitted; cbn; intros []; congruence
    | intros (us' & Hs' & [Hadm|(uid' & o' & osc' & x'' & Hu' & Hne' & Ho' & Hne'' & Hg' & Hsat')]);
      simplify_eq; try congruence; try contradiction ]
  | intros _; unfold refused; cbn;
    match goal with Hn : nexts _ = _ |- _ => rewrite Hn end; naive_solver ].

(** C19: [RequireOrgScopeForPathOrg] never trusts the combined scopes for the
    path's organization: it passes a request on exactly when the caller is a
    global [admin], or an identified user whose scopes in that very
    organization, read from the identity module for this request, satisfy the
    requirement. *)
Theorem path_org_scope_is_per_org w (scope : Scope) :
  fresh_req (gin (st w)) ->
  let w' := snd (RequireOrgScopeForPathOrg scope w) in
  (admitted w' <-> path_org_ok w scope) /\
  (~ path_org_ok w scope -> refused w' 403 \/ refused w' 400 \/ refused w' 500).
Proof.
  intros [Ha Hn] w'. subst w'. unfold path_org_ok.
  unfold RequireOrgScopeForPathOrg, bind, c_Get, c_Param, gets, ident, state. cbn [fst snd].
  assert (Hr : forall us r, HasScope us r = false -> ~ satisfies us r).
  { intros us r. rewrite <- HasScope_iff. by rewrite not_true_iff_false. }
  destruct (keys (gin (st w)) !! "scopes") as [[us| | | | | |]|] eqn:Es;
    [|path_org_refused..].
  destruct (HasScope us ScopeAdmin) eqn:Ea.
  { apply HasScope_iff in Ea. split; [|intros []; exists us; tauto].
    split; [intros _; exists us; tauto|]. unfold admitted; cbn. by rewrite Ha, Hn. }
  apply Hr in Ea.
  destruct (keys (gin (st w)) !! "user_id") as [[|uid| | | | |]|] eqn:Eu;
    [path_org_refused| |path_org_refused..].
  destruct (String.eqb_spec uid "") as [->|Hu]; [path_org_refused|].
  destruct (String.eqb_spec (default "" (param (gin (st w)) !! "id")) "") as [Ei|Hi];
    [path_org_refused|].
  destruct (GetUserScopesForOrg uid _ (ext (st w))) as [[osc|e] x'] eqn:Eg; cbn [fst snd];
    [|path_org_refused].
  destruct (HasScope osc scope) eqn:Eh; cbn [negb].
  - apply HasScope_iff in Eh.
    split; [split; [intros _|intros _] | intros []].
    2:{ unfold admitted; cbn. by rewrite Ha, Hn. }
    all: exists us; split; [done|]; right;
      by exists uid, (default "" (param (gin (st w)) !! "id")), osc, x'.
  - apply Hr in Eh. path_org_refused.
Qed.
End Properties.

#[local] Existing Instances core_scopes core_scopes_laws.

(** Alice may write in organization [o1] only. *)
Definition alice : directory := {|
  d_users := ["alice"]; d_keys := []; d_sessions := []; d_revoked := [];
  d_members := [("alice", "o1", Some "rw", ["organizations:write"])] |}.

Definition alice_on (org : string) : env (web directory) :=
  quiet (Web (request [("scopes", VStrings ["organizations:write"]); ("user_id", VString "alice")]
                [("id", org)]) empty_db alice).

Theorem scope_middlewares_decide_witness :
  admitted (snd (RequireScope ScopeOrganizationsRead (alice_on "o2"))).
Proof.
  destruct (scope_middlewares_decide (alice_on "o2") ScopeOrganizationsRead []) as ([[_ H]|[H _]] & _).
  - split; reflexivity.
  - exact H.
  - exfalso. apply H. exists ["organizations:write"]. split; [reflexivity|].
    right; right. exists "organizations:write". split; [vm_compute; reflexivity | by left].
Defined.

Theorem path_org_scope_is_per_org_witness :
  admitted (snd (RequireOrgScopeForPathOrg ScopeOrganizationsWrite (alice_on "o1"))) /\
  ~ admitted (snd (RequireOrgScopeForPathOrg ScopeOrganizationsWrite (alice_on "o2"))).
Proof.
  split.
  - apply (path_org_scope_is_per_org); [split; reflexivity|].
    exists ["organizations:write"]. split; [vm_compute; reflexivity|]. right.
    exists "alice", "o1", ["organizations:write"], alice.
    repeat split; try (vm_compute; reflexivity); [discriminate..|].
    right; left. by left.
  - vm_compute. intros []. discriminate.
Defined.

Theorem organizations_create_not_implied_witness :
  HasScope ["organizations:write"; "organizations:read"] ScopeOrganizationsCreate <> true.
Proof.
  intros H. apply organizations_create_not_implied in H.
  rewrite !elem_of_cons, !elem_of_nil in H. vm_compute in H. intuition discriminate.
Defined.
