(* ===== verification/AuthMiddleware.v ===== *)
(** * Authentication middlewares

    [AuthMiddleware] and [OptionalAuthMiddleware] of
    [internal/middleware/auth.go], and the revocation watermarks of
    [internal/db/repositories/user_token_revocation_repository.go].  Session
    tokens, API key hashes and the user store belong to the identity module
    ([Identity]). *)

From S2P Require Import Prelude GoStrings Web.
From stdpp Require Import gmap.

#[local] Open Scope Z_scope.

(** ** Revocation watermarks *)

Section Watermarks.
Context {X : Type}.

Definition set_watermarks (f : gmap string Z -> gmap string Z) (t : regdb) : regdb := {|
  namespace_claims := namespace_claims t; modules := modules t; providers := providers t;
  user_token_revocations := f (user_token_revocations t) |}.

(** [NOW()] is the clock of the database, the world's clock. *)
Definition RevokeAllUserTokens (userID : string) : prog (env (web X)) (res unit) :=
  let! now := time_now in
  sql "RevokeAllUserTokens" (fun t => (Ok tt, set_watermarks <[userID := now]> t)).

Definition TokensRevokedSince (userID : string) (issuedAt : Z) : prog (env (web X)) (res bool) :=
  query "TokensRevokedSince" (fun t =>
    Ok (match user_token_revocations t !! userID with
        | Some revoked_before => issuedAt <? revoked_before
        | None => false
        end)).

Definition CleanupExpiredWatermarks (maxTokenTTL : Z) : prog (env (web X)) (res unit) :=
  let! now := time_now in
  sql "CleanupExpiredWatermarks" (fun t =>
    (Ok tt, set_watermarks (filter (fun kv => ~ (kv.2 < now - maxTokenTTL))) t)).
End Watermarks.

(** ** The middlewares *)

Section Auth.
Context {X : Type} `{Identity X}.
(** [tokenRepo != nil] and [userRevocations != nil] *)
Context (hasTokenRepo hasUserRevocations : bool).
#[local] Abbreviation handler := (prog (env (web X)) unit).

(** The token of a request: the bearer token, else the cookie. *)
Definition pick_token (bearer : string) (ck : option string) : string * bool :=
  if String.eqb bearer "" then
    match ck with
    | Some v => if String.eqb v "" then ("", false) else (v, true)
    | None => ("", false)
    end
  else (bearer, false).

Definition authenticateAPIKey (providedKey keyPrefix : string)
  : prog (env (web X)) (res (option apikey)) :=
  let? ks := ident (GetAPIKeysByPrefix keyPrefix) in
  ret (Ok (List.find (fun k => ValidateAPIKey providedKey (ak_KeyHash k)) ks)).

(** [claims.JTI != "" && tokenRepo != nil], then [IsTokenRevoked]; [Ok false]
    when there is nothing to ask. *)
Definition check_jti (cl : claims) : prog (env (web X)) (res bool) :=
  if negb (String.eqb (JTI cl) "") && hasTokenRepo then ident (IsTokenRevoked (JTI cl))
  else ret (Ok false).

(** [claims.IssuedAt != nil && userRevocations != nil], then the watermark. *)
Definition check_watermark (cl : claims) : prog (env (web X)) (res bool) :=
  match IssuedAt cl with
  | Some t => if hasUserRevocations then TokensRevokedSince (cl_UserID cl) t else ret (Ok false)
  | None => ret (Ok false)
  end.

Definition set_api_key (k : apikey) : handler :=
  run! c_Set "api_key" (VAPIKey k) in
  run! c_Set "api_key_id" (VString (ak_ID k)) in
  run! c_Set "auth_method" (VString "api_key") in
  run! c_Set "organization_id" (VString (ak_OrganizationID k)) in
  run! c_Set "scopes" (VStrings (ak_Scopes k)) in
  match ak_UserID k with
  | Some uid =>
      let! r := ident (GetUserByID uid) in
      match r with
      | Ok (Some u) => run! c_Set "user" (VUser u) in c_Set "user_id" (VString (u_ID u))
      | _ => ret tt
      end
  | None => ret tt
  end.

Definition auth_jwt (cl : claims) (fromCookie : bool) : handler :=
  let! r := check_jti cl in
  match r with
  | Err _ => c_Abort 500 "Auth check failed"
  | Ok true => c_Abort 401 "Token has been revoked"
  | Ok false =>
      let! r := check_watermark cl in
      match r with
      | Err _ => c_Abort 500 "Auth check failed"
      | Ok true => c_Abort 401 "Token has been revoked"
      | Ok false =>
          let! r := ident (GetUserByID (cl_UserID cl)) in
          match r with
          | Err _ => c_Abort 500 "Failed to load user"
          | Ok None => c_Abort 401 "User not found"
          | Ok (Some u) =>
              run! c_Set "user" (VUser u) in
              run! c_Set "user_id" (VString (u_ID u)) in
              run! c_Set "auth_method" (VString (if fromCookie then "jwt_cookie" else "jwt")) in
              run! c_Set "jwt_claims" (VClaims cl) in
              run! c_Set "scopes" (VStrings (cl_Scopes cl)) in
              c_Next
          end
      end
  end.

Definition auth_key (token : string) : handler :=
  let! r := authenticateAPIKey token (stake 10 token) in
  match r with
  | Err _ => c_Abort 500 "Authentication failed"
  | Ok (Some k) =>
      let! expired :=
        match ak_ExpiresAt k with
        | Some e => let! now := time_now in ret (e <? now)
        | None => ret false
        end in
      if expired then c_Abort 401 "API key expired"
      else
        run! ident (fun x => (tt, UpdateLastUsed (ak_ID k) x)) in
        run! set_api_key k in
        c_Next
  | Ok None => c_Abort 401 "Invalid credentials"
  end.

Definition AuthMiddleware : handler :=
  let! authHeader := c_GetHeader "Authorization" in
  if negb (String.eqb authHeader "") && negb (has_prefix authHeader "Bearer ")
  then c_Abort 401 "Authorization header must start with 'Bearer '"
  else
    let bearer :=
      if String.eqb authHeader "" then "" else trim_space (trim_prefix authHeader "Bearer ") in
    let! ck := c_Cookie "tfr_auth_token" in
    let '(token, fromCookie) := pick_token bearer ck in
    if String.eqb token "" then
      let! m := c_GetString "auth_method" in
      if String.eqb m "mtls" then c_Next
      else c_Abort 401 "Missing authorization credentials"
    else
      let! jwt := gets (fun s => ValidateJWT token (ext s)) in
      match jwt with
      | Some cl => auth_jwt cl fromCookie
      | None =>
          if fromCookie then c_Abort 401 "Invalid authentication cookie"
          else auth_key token
      end.

Definition optional_jwt (cl : claims) (fromCookie : bool) : handler :=
  let! r := check_jti cl in
  let revoked := match r with Ok b => b | Err _ => false end in
  let! revoked :=
    if revoked then ret true
    else let! r := check_watermark cl in
         ret (match r with Ok b => b | Err _ => false end) in
  run!
    (if revoked then ret tt
     else
       let! r := ident (GetUserByID (cl_UserID cl)) in
       match r with
       | Ok (Some u) =>
           run! c_Set "user" (VUser u) in
           run! c_Set "user_id" (VString (u_ID u)) in
           run! c_Set "auth_method" (VString (if fromCookie then "jwt_cookie" else "jwt")) in
           c_Set "scopes" (VStrings (cl_Scopes cl))
       | _ => ret tt
       end) in
  c_Next.

Definition optional_key (token : string) : handler :=
  let! r := authenticateAPIKey token (stake 10 token) in
  run!
    match r with
    | Ok (Some k) =>
        let! live :=
          match ak_ExpiresAt k with
          | Some e => let! now := time_now in ret (now <? e)
          | None => ret true
          end in
        if live then
          run! ident (fun x => (tt, UpdateLastUsed (ak_ID k) x)) in
          set_api_key k
        else ret tt
    | _ => ret tt
    end in
  c_Next.

Definition OptionalAuthMiddleware : handler :=
  let! authHeader := c_GetHeader "Authorization" in
  let bearer :=
    if negb (String.eqb authHeader "") && has_prefix authHeader "Bearer "
    then trim_space (trim_prefix authHeader "Bearer ") else "" in
  let! ck := c_Cookie "tfr_auth_token" in
  let '(token, fromCookie) := pick_token bearer ck in
  if String.eqb token "" then c_Next
  else
    let! jwt := gets (fun s => ValidateJWT token (ext s)) in
    match jwt with
    | Some cl => optional_jwt cl fromCookie
    | None => if fromCookie then c_Next else optional_key token
    end.
End Auth.

(** ** Lemmas *)

Section AuthLemmas.
Context {X : Type} `{Identity X} (hasTokenRepo hasUserRevocations : bool).
Implicit Types w : env (web X).

(** Every context key a program may have written, by value. *)
Definition key w k : option ctxval := keys (gin (st w)) !! k.

Lemma key_set k v w k' :
  key (snd (c_Set k v w)) k' = if decide (k = k') then Some v else key w k'.
Proof.
  unfold key, c_Set, modify, set_gin. cbn. case_decide as Hk.
  - subst. apply lookup_insert_eq.
  - by apply lookup_insert_ne.
Qed.

(** Programs that neither abort nor pass on. *)
Definition same_flow (s s' : web X) : Prop :=
  aborted (gin s') = aborted (gin s) /\ nexts (gin s') = nexts (gin s).
#[global] Instance same_flow_preorder : PreOrder same_flow.
Proof.
  split; [by intros s|].
  intros a b c [H1 H2] [H3 H4]. split; congruence.
Qed.

Lemma flow_set k v : preserves (on_st same_flow) (c_Set k v).
Proof. apply preserves_modify. done. Qed.
Lemma flow_ident {A} (f : X -> A * X) : preserves (on_st same_flow) (ident f).
Proof. apply preserves_state. done. Qed.
Lemma flow_query {A} op (f : regdb -> res A) : preserves (on_st same_flow) (query op f).
Proof. apply preserves_db; [apply _ | done]. Qed.
#[local] Hint Resolve flow_set flow_ident flow_query : registry.

Lemma flow_api_key k : preserves (on_st same_flow) (set_api_key k).
Proof. unfold set_api_key. preserve. Qed.

Lemma flow_jti cl : preserves (on_st same_flow) (check_jti hasTokenRepo cl).
Proof. unfold check_jti. preserve. Qed.

Lemma flow_watermark cl : preserves (on_st same_flow) (check_watermark hasUserRevocations cl).
Proof. unfold check_watermark, TokensRevokedSince. preserve. Qed.

Lemma flow_authenticate t p : preserves (on_st same_flow) (authenticateAPIKey t p).
Proof. unfold authenticateAPIKey. preserve. Qed.
#[local] Hint Resolve flow_api_key flow_jti flow_watermark flow_authenticate : registry.

(** A program that only prepares, followed by [c.Next()]. *)
Lemma next_after {A} (c : prog (env (web X)) A) w :
  preserves (on_st same_flow) c -> fresh_req (gin (st w)) ->
  admitted (snd (bind c (fun _ => c_Next) w)).
Proof.
  intros Hp [Ha Hn]. unfold bind, admitted, c_Next, modify, set_gin. cbn.
  destruct (Hp w) as [H1 H2]. rewrite H1, H2. by rewrite Ha, Hn.
Qed.

Lemma next_after_bind {A B} (c : prog (env (web X)) A) (k : A -> prog (env (web X)) B) w :
  preserves (on_st same_flow) c ->
  (forall a w, fresh_req (gin (st w)) -> admitted (snd (k a w))) ->
  fresh_req (gin (st w)) -> admitted (snd (bind c k w)).
Proof.
  intros Hp Hk [Ha Hn]. unfold bind. cbn. apply Hk. split.
  - destruct (Hp w) as [-> _]. done.
  - destruct (Hp w) as [_ ->]. done.
Qed.

Lemma abort_not_admitted status msg w : ~ admitted (snd (c_Abort status msg w)).
Proof. unfold admitted, c_Abort, modify, set_gin. cbn. by intros []. Qed.

Lemma key_next w k : key (snd (c_Next w)) k = key w k.
Proof. done. Qed.

Lemma key_ident {A} (f : X -> A * X) w k : key (snd (ident f w)) k = key w k.
Proof. done. Qed.

(** What the middlewares publish for an API key. *)
Lemma set_api_key_keys k w :
  let w' := snd (set_api_key k w) in
  key w' "scopes" = Some (VStrings (ak_Scopes k)) /\
  key w' "api_key" = Some (VAPIKey k) /\
  key w' "organization_id" = Some (VString (ak_OrganizationID k)) /\
  key w' "auth_method" = Some (VString "api_key").
Proof.
  unfold set_api_key, bind. cbn [fst snd]. destruct (ak_UserID k) as [uid|].
  - cbn [fst snd]. destruct (fst (ident (GetUserByID uid) _)) as [[u|]|e]; cbn [fst snd ret];
      repeat rewrite ?key_set, ?key_ident; repeat split; reflexivity.
  - cbn [fst snd ret]. repeat rewrite key_set. repeat split; reflexivity.
Qed.

Lemma clock_set_api_key k w : clock (snd (set_api_key k w)) = clock w.
Proof.
  unfold set_api_key, bind. cbn [fst snd]. destruct (ak_UserID k) as [uid|]; [|done].
  cbn [fst snd]. by destruct (fst (ident (GetUserByID uid) _)) as [[u|]|e].
Qed.

(** *** Evidence a request needs *)

(** A session token that is not revoked, of a user that exists. *)
Definition session_ok w (w' : env (web X)) (cl : claims) (fromCookie : bool) : Prop :=
  (JTI cl <> "" -> hasTokenRepo = true -> fst (IsTokenRevoked (JTI cl) (ext (st w))) = Ok false) /\
  (forall iat rb, IssuedAt cl = Some iat -> hasUserRevocations = true ->
     user_token_revocations (tables (st w)) !! cl_UserID cl = Some rb -> rb <= iat) /\
  (exists x u, fst (GetUserByID (cl_UserID cl) x) = Ok (Some u) /\
     key w' "user_id" = Some (VString (u_ID u))) /\
  key w' "scopes" = Some (VStrings (cl_Scopes cl)) /\
  key w' "auth_method" = Some (VString (if fromCookie then "jwt_cookie" else "jwt")).

(** A stored, unexpired API key whose hash the token matches. *)
Definition api_key_ok w (w' : env (web X)) (token : string) : Prop :=
  exists ks k,
    fst (GetAPIKeysByPrefix (stake 10 token) (ext (st w))) = Ok ks /\ In k ks /\
    ValidateAPIKey token (ak_KeyHash k) = true /\
    (forall e, ak_ExpiresAt k = Some e -> clock w' <= e) /\
    key w' "scopes" = Some (VStrings (ak_Scopes k)) /\
    key w' "api_key" = Some (VAPIKey k) /\
    key w' "organization_id" = Some (VString (ak_OrganizationID k)) /\
    key w' "auth_method" = Some (VString "api_key").

Lemma check_jti_false cl w w1 :
  check_jti hasTokenRepo cl w = (Ok false, w1) ->
  (JTI cl <> "" -> hasTokenRepo = true -> fst (IsTokenRevoked (JTI cl) (ext (st w))) = Ok false) /\
  tables (st w1) = tables (st w).
Proof.
  unfold check_jti. destruct (String.eqb_spec (JTI cl) ""); cbn [negb andb].
  - intros [=<-]. done.
  - destruct hasTokenRepo; [|by intros [=<-]].
    unfold ident, state. cbn. intros [= E <-]. done.
Qed.

Lemma check_watermark_false cl w w1 :
  check_watermark hasUserRevocations cl w = (Ok false, w1) ->
  forall iat rb, IssuedAt cl = Some iat -> hasUserRevocations = true ->
    user_token_revocations (tables (st w)) !! cl_UserID cl = Some rb -> rb <= iat.
Proof.
  unfold check_watermark, TokensRevokedSince, query, sql, db. intros E iat rb Hi Hu Hrb.
  rewrite Hi, Hu in E. cbn in E. rewrite Hrb in E.
  destruct (faults w) as [|[] fs]; cbn in E; try discriminate E;
    injection E as E _; by apply Z.ltb_ge in E.
Qed.

Lemma auth_jwt_sound cl fc w :
  admitted (snd (auth_jwt hasTokenRepo hasUserRevocations cl fc w)) ->
  session_ok w (snd (auth_jwt hasTokenRepo hasUserRevocations cl fc w)) cl fc.
Proof.
  unfold session_ok, auth_jwt, bind. cbn [fst snd].
  destruct (check_jti hasTokenRepo cl w) as [[[]|e] w1] eqn:E1; cbn [fst snd];
    try (intros Ha; by apply abort_not_admitted in Ha).
  destruct (check_watermark hasUserRevocations cl w1) as [[[]|e] w2] eqn:E2; cbn [fst snd];
    try (intros Ha; by apply abort_not_admitted in Ha).
  apply check_jti_false in E1 as [H1 Ht]. pose proof (check_watermark_false _ _ _ E2) as H2.
  rewrite Ht in H2.
  destruct (fst (ident (GetUserByID (cl_UserID cl)) w2)) as [[u|]|e] eqn:E3; cbn [fst snd];
    try (intros Ha; by apply abort_not_admitted in Ha).
  intros _. split; [exact H1|]. split; [exact H2|].
  repeat rewrite ?key_next, ?key_set. split; [|split; reflexivity].
  exists (ext (st w2)), u. split; [exact E3 | reflexivity].
Qed.

Lemma auth_key_sound token w :
  admitted (snd (auth_key token w)) -> api_key_ok w (snd (auth_key token w)) token.
Proof.
  unfold api_key_ok, auth_key, authenticateAPIKey, bind. cbn [fst snd].
  destruct (fst (ident (GetAPIKeysByPrefix (stake 10 token)) w)) as [ks|e] eqn:E1; cbn [fst snd ret];
    [|intros Ha; by apply abort_not_admitted in Ha].
  destruct (List.find _ ks) as [k|] eqn:E2; [|intros Ha; by apply abort_not_admitted in Ha].
  apply find_some in E2 as [Hin Hv].
  set (w1 := snd (ident _ w)). intros Ha. exists ks, k.
  split; [exact E1|]. split; [exact Hin|]. split; [exact Hv|].
  revert Ha. destruct (ak_ExpiresAt k) as [e|]; cbn [fst snd ret].
  - destruct (Z.ltb_spec e (fst (time_now w1))) as [Hlt|Hge];
      [intros Ha; by apply abort_not_admitted in Ha|].
    intros _. split.
    + intros e' [=<-].
      change (clock (snd (set_api_key k (snd (ident (fun x => (tt, UpdateLastUsed (ak_ID k) x))
                (snd (time_now w1)))))) <= e).
      rewrite clock_set_api_key. exact Hge.
    + rewrite !key_next. apply set_api_key_keys.
  - intros _. split; [done|]. rewrite !key_next. apply set_api_key_keys.
Qed.
End AuthLemmas.

(** ** Properties *)

Section AuthProperties.
Context {X : Type} `{Identity X} (hasTokenRepo hasUserRevocations : bool).
Implicit Types w : env (web X).

(** The credentials of a request as the middleware reads them. *)
Definition request_token w : string * bool :=
  let authHeader := default "" (header (gin (st w)) !! "Authorization") in
  pick_token
    (if String.eqb authHeader "" then "" else trim_space (trim_prefix authHeader "Bearer "))
    (cookie (gin (st w)) !! "tfr_auth_token").

Definition auth_header w : string := default "" (header (gin (st w)) !! "Authorization").

(** Reading the header and the cookie changes nothing. *)
Lemma auth_unfold w :
  AuthMiddleware hasTokenRepo hasUserRevocations w =
  if negb (String.eqb (auth_header w) "") && negb (has_prefix (auth_header w) "Bearer ")
  then c_Abort 401 "Authorization header must start with 'Bearer '" w
  else if String.eqb (fst (request_token w)) "" then
    (let! m := c_GetString "auth_method" in
     if String.eqb m "mtls" then c_Next
     else c_Abort 401 "Missing authorization credentials") w
  else match ValidateJWT (fst (request_token w)) (ext (st w)) with
       | Some cl => auth_jwt hasTokenRepo hasUserRevocations cl (snd (request_token w)) w
       | None => if snd (request_token w) then c_Abort 401 "Invalid authentication cookie" w
                 else auth_key (fst (request_token w)) w
       end.
Proof.
  unfold AuthMiddleware, request_token, auth_header, bind. cbn [c_GetHeader gets fst snd].
  destruct (_ && _); [done|]. cbn [c_Cookie gets fst snd].
  destruct (pick_token _ _) as [token fc]. cbn [fst snd].
  destruct (String.eqb token ""); [done|]. cbn [gets fst snd].
  destruct (ValidateJWT token (ext (st w))); [done|]. by destruct fc.
Qed.

Lemma optional_unfold w :
  has_prefix (auth_header w) "Bearer " = true \/ auth_header w = "" ->
  OptionalAuthMiddleware hasTokenRepo hasUserRevocations w =
  if String.eqb (fst (request_token w)) "" then c_Next w
  else match ValidateJWT (fst (request_token w)) (ext (st w)) with
       | Some cl => optional_jwt hasTokenRepo hasUserRevocations cl (snd (request_token w)) w
       | None => if snd (request_token w) then c_Next w
                 else optional_key (fst (request_token w)) w
       end.
Proof.
  intros Hh. unfold OptionalAuthMiddleware, request_token, bind. cbn [c_GetHeader gets fst snd].
  fold (auth_header w).
  replace (if negb (String.eqb (auth_header w) "") && has_prefix (auth_header w) "Bearer "
           then trim_space (trim_prefix (auth_header w) "Bearer ") else "")
    with (if String.eqb (auth_header w) "" then ""
          else trim_space (trim_prefix (auth_header w) "Bearer ")).
  2:{ destruct Hh as [E|E]; rewrite E; [by destruct (String.eqb _ "") | done]. }
  cbn [c_Cookie gets fst snd].
  destruct (pick_token _ _) as [token fc]. cbn [fst snd].
  destruct (String.eqb token ""); [done|]. cbn [gets fst snd].
  destruct (ValidateJWT token (ext (st w))); [done|]. by destruct fc.
Qed.

(** C1: [AuthMiddleware] passes a request on only with valid credentials: an
    mTLS identity established earlier when the request carries no token, a
    session token that validates, is revoked neither by its identifier nor by
    the user's watermark and belongs to an existing user, or (never from the
    cookie) an unexpired API key whose stored hash the token matches; and the
    scopes the later middlewares read are those of that credential. *)
Theorem auth_admits_only_valid_credentials w :
  fresh_req (gin (st w)) ->
  let w' := snd (AuthMiddleware hasTokenRepo hasUserRevocations w) in
  let token := fst (request_token w) in
  let fromCookie := snd (request_token w) in
  admitted w' ->
  (token = "" /\ key w "auth_method" = Some (VString "mtls")) \/
  (token <> "" /\ exists cl, ValidateJWT token (ext (st w)) = Some cl /\
     session_ok hasTokenRepo hasUserRevocations w w' cl fromCookie) \/
  (token <> "" /\ fromCookie = false /\ ValidateJWT token (ext (st w)) = None /\
     api_key_ok w w' token).
Proof.
  intros Hf. cbv zeta. rewrite auth_unfold.
  destruct (negb (String.eqb (auth_header w) "") && negb (has_prefix (auth_header w) "Bearer "));
    [intros Ha; by apply abort_not_admitted in Ha|].
  destruct (request_token w) as [token fc]. cbn [fst snd].
  destruct (String.eqb_spec token "") as [->|Hne].
  - unfold bind, c_GetString, gets. cbn [fst snd]. unfold key.
    destruct (keys (gin (st w)) !! "auth_method") as [[|m| | | | |]|];
      try (intros Ha; by apply abort_not_admitted in Ha).
    destruct (String.eqb_spec m "mtls") as [->|];
      [by left | intros Ha; by apply abort_not_admitted in Ha].
  - destruct (ValidateJWT token (ext (st w))) as [cl|] eqn:Ev.
    + intros Ha. right; left. split; [done|]. exists cl. split; [done|]. by apply auth_jwt_sound.
    + destruct fc; intros Ha; [by apply abort_not_admitted in Ha|].
      right; right. split; [done|]. split; [done|]. split; [done|]. by apply auth_key_sound.
Qed.

(** C35: [OptionalAuthMiddleware] answers no request itself: whatever the
    credentials, the database and the identity module do, the request goes on
    to the next handler exactly once. *)
Theorem optional_auth_never_refuses w :
  fresh_req (gin (st w)) ->
  admitted (snd (OptionalAuthMiddleware hasTokenRepo hasUserRevocations w)).
Proof.
  intros Hf.
  assert (Hnext : forall w, fresh_req (gin (st w)) -> admitted (snd (c_Next w))).
  { intros w1 [Ha Hn]. unfold admitted, c_Next, modify, set_gin. cbn. by rewrite Ha, Hn. }
  unfold OptionalAuthMiddleware.
  apply next_after_bind; [apply preserves_GetHeader, _ | intros h w1 Hf1 | exact Hf].
  apply next_after_bind; [apply preserves_Cookie, _ | intros ck w2 Hf2 | exact Hf1].
  destruct (pick_token _ ck) as [token fc].
  destruct (String.eqb token ""); [by apply Hnext|].
  apply next_after_bind; [apply preserves_gets, _ | intros jwt w3 Hf3 | exact Hf2].
  destruct jwt as [cl|].
  - unfold optional_jwt.
    apply next_after_bind; [apply flow_jti | intros r1 w4 Hf4 | exact Hf3].
    apply next_after_bind; [ | intros r2 w5 Hf5 | exact Hf4].
    { destruct (match r1 with Ok b => b | Err _ => false end);
        [apply preserves_ret, _|].
      apply preserves_bind; [apply _ | apply flow_watermark | intros; apply preserves_ret, _]. }
    apply next_after; [|exact Hf5].
    destruct r2; [apply preserves_ret, _|].
    apply preserves_bind; [apply _ | apply flow_ident | intros r3].
    destruct r3 as [[u|]|]; [|apply preserves_ret, _..].
    repeat (apply preserves_bind; [apply _ | apply flow_set | intros _]). apply flow_set.
  - destruct fc; [by apply Hnext|]. unfold optional_key.
    apply next_after_bind; [apply flow_authenticate | intros r w4 Hf4 | exact Hf3].
    apply next_after; [|exact Hf4].
    destruct r as [[k|]|]; [|apply preserves_ret, _..].
    apply preserves_bind; [apply _ | | intros live].
    { destruct (ak_ExpiresAt k); [|apply preserves_ret, _].
      apply preserves_bind; [apply _ | apply preserves_now, _ | intros; apply preserves_ret, _]. }
    destruct live; [|apply preserves_ret, _].
    apply preserves_bind; [apply _ | apply flow_ident | intros _; apply flow_api_key].
Qed.

(** the two middlewares disagree when the revocation list cannot be read:
    the strict one answers 500, the optional one carries on as if the token
    were not revoked and publishes the session's scopes. *)
Theorem revocation_outage_fails_open w token fc cl u e :
  fresh_req (gin (st w)) ->
  request_token w = (token, fc) -> token <> "" ->
  has_prefix (auth_header w) "Bearer " = true \/ auth_header w = "" ->
  ValidateJWT token (ext (st w)) = Some cl ->
  JTI cl <> "" -> hasTokenRepo = true -> IssuedAt cl = None ->
  fst (IsTokenRevoked (JTI cl) (ext (st w))) = Err e ->
  fst (GetUserByID (cl_UserID cl) (snd (IsTokenRevoked (JTI cl) (ext (st w))))) = Ok (Some u) ->
  refused (snd (AuthMiddleware hasTokenRepo hasUserRevocations w)) 500 /\
  key (snd (OptionalAuthMiddleware hasTokenRepo hasUserRevocations w)) "scopes"
    = Some (VStrings (cl_Scopes cl)).
Proof.
  intros [Hab Hn] Ht Hne Hh Hv Hj Htr Hi He Hu.
  rewrite auth_unfold, optional_unfold, Ht by exact Hh. cbn [fst snd].
  replace (negb (String.eqb (auth_header w) "") && negb (has_prefix (auth_header w) "Bearer "))
    with false by (destruct Hh as [E|E]; rewrite E; [by rewrite andb_false_r | done]).
  apply String.eqb_neq in Hne, Hj. rewrite Hne, Hv.
  unfold auth_jwt, optional_jwt, check_jti, check_watermark, bind.
  rewrite Hj, Htr, Hi. cbn [negb andb]. unfold ident, state.
  destruct (IsTokenRevoked (JTI cl) (ext (st w))) as [r x1]. cbn in He, Hu. subst r.
  cbn [fst snd ret st ext]. rewrite Hu. cbn [fst snd ret]. split.
  - unfold refused, c_Abort, modify, set_gin. cbn. split; [by eexists | exact Hn].
  - rewrite key_next, !key_set. reflexivity.
Qed.
End AuthProperties.

(** ** Watermark properties *)

Section WatermarkProperties.
Context {X : Type}.
Implicit Types w : env (web X).

Definition watermark w uid : option Z := user_token_revocations (tables (st w)) !! uid.

Lemma watermark_query w uid iat :
  fst (TokensRevokedSince uid iat w) =
  match faults w with
  | true :: _ => Err (ErrDB "TokensRevokedSince")
  | _ => Ok (match watermark w uid with Some rb => iat <? rb | None => false end)
  end.
Proof.
  unfold TokensRevokedSince, query, sql, db, watermark. by destruct (faults w) as [|[] fs].
Qed.

Lemma watermark_revoke w uid uid' w1 :
  RevokeAllUserTokens uid w = (Ok tt, w1) ->
  watermark w1 uid' = if decide (uid = uid') then Some (clock w1) else watermark w uid'.
Proof.
  unfold RevokeAllUserTokens, bind, time_now, sql, db. cbn [fst snd faults].
  destruct (faults w) as [|[] fs]; cbn [fst snd st clock]; intros [=<-]; unfold watermark; cbn;
    (case_decide as Hu; [subst; by rewrite lookup_insert_eq | by rewrite lookup_insert_ne]).
Qed.

Lemma watermark_cleanup w ttl uid w1 rb :
  snd (CleanupExpiredWatermarks ttl w) = w1 -> clock w1 - ttl <= rb ->
  watermark w uid = Some rb -> watermark w1 uid = Some rb.
Proof.
  unfold CleanupExpiredWatermarks, bind, time_now, sql, db. cbn [fst snd faults].
  destruct (faults w) as [|[] fs]; cbn [fst snd st clock]; intros <- Hrb Hw;
    unfold watermark in *; cbn in *; [|done|];
    apply map_lookup_filter_Some; (split; [done | cbn; lia]).
Qed.

(** revoking all tokens of a user is effective and lasts: once it
    succeeds, every token of that user issued before is reported revoked, and
    no clean-up run with a retention that covers the token's age changes that;
    the watermarks of other users are untouched. *)
Theorem revoke_all_outlasts_cleanup w uid (ttl iat : Z) w1 :
  RevokeAllUserTokens uid w = (Ok tt, w1) ->
  let w2 := snd (CleanupExpiredWatermarks ttl w1) in
  iat < clock w1 -> clock w2 - ttl <= iat ->
  (fst (TokensRevokedSince uid iat w1) = Ok true \/
     exists e, fst (TokensRevokedSince uid iat w1) = Err e) /\
  (fst (TokensRevokedSince uid iat w2) = Ok true \/
     exists e, fst (TokensRevokedSince uid iat w2) = Err e) /\
  (forall uid', uid' <> uid -> watermark w1 uid' = watermark w uid').
Proof.
  intros Hr w2 Hiat Hage. pose proof (watermark_revoke w uid uid w1 Hr) as Hw1.
  rewrite decide_True in Hw1 by done.
  assert (Hw2 : watermark w2 uid = Some (clock w1)).
  { eapply watermark_cleanup; [reflexivity | | exact Hw1]. fold w2. lia. }
  assert (Hq : forall w', watermark w' uid = Some (clock w1) ->
    fst (TokensRevokedSince uid iat w') = Ok true \/
    exists e, fst (TokensRevokedSince uid iat w') = Err e).
  { intros w' Hw'. rewrite watermark_query, Hw'. rewrite (proj2 (Z.ltb_lt _ _) Hiat).
    destruct (faults w') as [|[] fs]; [by left | right; by eexists | by left]. }
  split; [by apply Hq|]. split; [by apply Hq|].
  intros uid' Hne. rewrite (watermark_revoke w uid uid' w1 Hr). by rewrite decide_False.
Qed.
End WatermarkProperties.

(** ** Witnesses *)

Definition with_bearer (h : string) (g : ginctx) : ginctx := {|
  keys := keys g; header := {["Authorization" := h]}; cookie := cookie g;
  param := param g; form := form g; body := body g; method := method g;
  path := path g; aborted := aborted g; nexts := nexts g |}.

Definition ci_key : apikey := {|
  ak_ID := "k1"; ak_UserID := Some "bob"; ak_OrganizationID := "o1";
  ak_KeyHash := "#tfr_0123456789"; ak_ExpiresAt := Some 100; ak_Scopes := ["modules:write"] |}.
Definition bob : directory := {|
  d_users := ["bob"]; d_keys := [ci_key]; d_sessions := []; d_revoked := []; d_members := [] |}.
Definition ci_request : env (web directory) :=
  Env (Web (with_bearer "Bearer tfr_0123456789" (request [] [])) empty_db bob) [] 50 [].

Theorem auth_admits_only_valid_credentials_witness :
  api_key_ok ci_request (snd (AuthMiddleware true true ci_request)) "tfr_0123456789".
Proof.
  destruct (auth_admits_only_valid_credentials true true ci_request)
    as [[H _]|[(_ & cl & H & _)|(_ & _ & _ & H)]].
  - split; reflexivity.
  - split; vm_compute; reflexivity.
  - vm_compute in H. discriminate H.
  - vm_compute in H. discriminate H.
  - exact H.
Defined.

Theorem optional_auth_never_refuses_witness :
  admitted (snd (OptionalAuthMiddleware true true ci_request)).
Proof. apply optional_auth_never_refuses. split; reflexivity. Defined.

(** The same directory, with the revocation list unreachable. *)
Definition outage : Identity directory := {|
  GetUserByID := GetUserByID; GetAPIKeysByPrefix := GetAPIKeysByPrefix;
  UpdateLastUsed := UpdateLastUsed;
  IsTokenRevoked _ d := (Err (ErrExt "connection refused"), d);
  GetUserScopesForOrg := GetUserScopesForOrg; GetMember := GetMember;
  GetMemberWithRole := GetMemberWithRole; GetUserMemberships := GetUserMemberships;
  ValidateJWT := ValidateJWT; ValidateAPIKey := ValidateAPIKey |}.

Definition session : claims :=
  {| JTI := "j1"; IssuedAt := None; cl_ExpiresAt := None; cl_UserID := "bob"; cl_Scopes := ["admin"] |}.
Definition bob_session : env (web directory) :=
  quiet (Web (with_bearer "Bearer jwt" (request [] [])) empty_db
    {| d_users := ["bob"]; d_keys := []; d_sessions := [("jwt", session)];
       d_revoked := ["j1"]; d_members := [] |}).

Theorem revocation_outage_fails_open_witness :
  refused (snd (@AuthMiddleware directory outage true true bob_session)) 500 /\
  key (snd (@OptionalAuthMiddleware directory outage true true bob_session)) "scopes"
    = Some (VStrings ["admin"]).
Proof.
  refine (@revocation_outage_fails_open directory outage true true bob_session
    "jwt" false session {| u_ID := "bob" |} (ErrExt "connection refused") _ _ _ _ _ _ _ _ _ _).
  - split; reflexivity.
  - vm_compute. reflexivity.
  - discriminate.
  - left. vm_compute. reflexivity.
  - vm_compute. reflexivity.
  - discriminate.
  - reflexivity.
  - reflexivity.
  - reflexivity.
  - reflexivity.
Defined.

Theorem revoke_all_outlasts_cleanup_witness :
  fst (TokensRevokedSince "bob" 40 (snd (CleanupExpiredWatermarks 86400
         (snd (RevokeAllUserTokens "bob" ci_request))))) = Ok true.
Proof.
  destruct (revoke_all_outlasts_cleanup ci_request "bob" 86400 40
              (snd (RevokeAllUserTokens "bob" ci_request))) as (_ & [H|[e H]] & _).
  - vm_compute. reflexivity.
  - vm_compute. reflexivity.
  - vm_compute. discriminate.
  - exact H.
  - vm_compute in H. discriminate H.
Defined.
