(* ===== verification/NamespaceAuthz.v ===== *)
(** * Namespace ownership and object-level authorization

    [internal/db/repositories/namespace_claim_repository.go] (the ownership
    bindings), [CascadeOrganizationRename] of [organization_repository.go] and
    [internal/middleware/namespace_authz.go] (who may mutate what in which
    namespace).  JSON decoding and UUID parsing are library calls ([Codec]). *)

From S2P Require Import Prelude GoStrings Web Rbac Validation.
From stdpp Require Import gmap.

#[local] Open Scope Z_scope.

(** ** The claims table *)

Section Claims.
Context {X : Type}.

Definition set_claims (f : gmap string claim -> gmap string claim) (t : regdb) : regdb := {|
  namespace_claims := f (namespace_claims t); modules := modules t; providers := providers t;
  user_token_revocations := user_token_revocations t |}.

Definition GetClaim (namespace : string) : prog (env (web X)) (res (option claim)) :=
  query "GetClaim" (fun t => Ok (namespace_claims t !! namespace)).

(** [INSERT ... ON CONFLICT (namespace) DO NOTHING] *)
Definition insert_claim (namespace organizationID : string) (claimedBy : option string)
  : prog (env (web X)) (res unit) :=
  sql "ClaimNamespace" (fun t =>
    (Ok tt,
     match namespace_claims t !! namespace with
     | Some _ => t
     | None => set_claims <[namespace := {| cm_Namespace := namespace;
                 cm_OrganizationID := organizationID; cm_ClaimedBy := claimedBy |}]> t
     end)).

Definition ClaimNamespace (namespace organizationID : string) (claimedBy : option string)
  : prog (env (web X)) (res claim) :=
  let? _u := insert_claim namespace organizationID claimedBy in
  let? c := GetClaim namespace in
  match c with
  | None => ret (Err (ErrMsg "failed to claim namespace: claim not found after insert"))
  | Some c => ret (Ok c)
  end.

Definition orgs_in (namespace : string) (rows : list artifact) : list string :=
  omap a_OrganizationID
    (List.filter (fun a => String.eqb (a_Namespace a) namespace) rows).

Definition ArtifactOrganizations (namespace : string) : prog (env (web X)) (res (list string)) :=
  query "ArtifactOrganizations" (fun t =>
    Ok (remove_dups (orgs_in namespace (modules t) ++ orgs_in namespace (providers t)))).

Definition CountByOrganization (organizationID : string) : prog (env (web X)) (res nat) :=
  query "CountByOrganization" (fun t =>
    Ok (size (filter (fun kv => cm_OrganizationID kv.2 = organizationID) (namespace_claims t)))).

Definition owns (organizationID : string) (a : artifact) : bool :=
  bool_decide (a_OrganizationID a = Some organizationID).

Definition OwnsArtifacts (organizationID : string) : prog (env (web X)) (res bool) :=
  query "OwnsArtifacts" (fun t =>
    Ok (List.existsb (owns organizationID) (modules t) ||
        List.existsb (owns organizationID) (providers t))).

(** [UPDATE ... SET namespace = new WHERE organization_id = org AND namespace = old] *)
Definition rename_artifact (orgID oldName newName : string) (a : artifact) : artifact :=
  if owns orgID a && String.eqb (a_Namespace a) oldName
  then {| a_ID := a_ID a; a_OrganizationID := a_OrganizationID a; a_Namespace := newName |}
  else a.

(** The same on the claims, whose primary key is the namespace: a second claim
    on the new name is a unique violation. *)
Definition rename_claim (orgID oldName newName : string) (m : gmap string claim)
  : res (gmap string claim) :=
  match m !! oldName with
  | Some c =>
      if negb (String.eqb (cm_OrganizationID c) orgID) then Ok m
      else if String.eqb oldName newName then Ok m
      else match m !! newName with
           | Some _ => Err (ErrMsg "duplicate key value violates unique constraint")
           | None => Ok (<[newName := {| cm_Namespace := newName;
                           cm_OrganizationID := cm_OrganizationID c;
                           cm_ClaimedBy := cm_ClaimedBy c |}]> (delete oldName m))
           end
  | None => Ok m
  end.

(** One transaction: the statements run on the open transaction's tables, and
    [Rollback] restores those of [BeginTx]. *)
Definition tx {A} (body : prog (env (web X)) (res A)) : prog (env (web X)) (res A) :=
  let? saved := query "BeginTx" Ok in
  let! r := body in
  match r with
  | Ok a => let! c := sql "Commit" (fun t => (Ok tt, t)) in
            match c with
            | Ok _ => ret (Ok a)
            | Err e => run! modify (fun s => Web (gin s) saved (ext s)) in ret (Err e)
            end
  | Err e => run! modify (fun s => Web (gin s) saved (ext s)) in ret (Err e)
  end.

Definition CascadeOrganizationRename (orgID oldName newName : string)
  : prog (env (web X)) (res unit) :=
  tx (let? _u := sql "cascade rename to modules" (fun t =>
        (Ok tt, {| namespace_claims := namespace_claims t;
                   modules := map (rename_artifact orgID oldName newName) (modules t);
                   providers := providers t;
                   user_token_revocations := user_token_revocations t |})) in
      let? _u := sql "cascade rename to providers" (fun t =>
        (Ok tt, {| namespace_claims := namespace_claims t; modules := modules t;
                   providers := map (rename_artifact orgID oldName newName) (providers t);
                   user_token_revocations := user_token_revocations t |})) in
      sql "cascade rename to namespace claims" (fun t =>
        match rename_claim orgID oldName newName (namespace_claims t) with
        | Ok m => (Ok tt, set_claims (fun _ => m) t)
        | Err e => (Err e, t)
        end)).

(** [GetModuleByID] scans [organization_id] into a plain string, which fails on
    NULL; [GetProviderByID] scans it into a [sql.NullString]. *)
Definition GetModuleByID (id : string) : prog (env (web X)) (res (option artifact)) :=
  query "GetModuleByID" (fun t =>
    match List.find (fun a => String.eqb (a_ID a) id) (modules t) with
    | None => Ok None
    | Some a => match a_OrganizationID a with
                | None => Err (ErrMsg "converting NULL to string is unsupported")
                | Some _ => Ok (Some a)
                end
    end).
Definition GetProviderByID (id : string) : prog (env (web X)) (res (option artifact)) :=
  query "GetProviderByID" (fun t =>
    Ok (List.find (fun a => String.eqb (a_ID a) id) (providers t))).

Definition org_field (a : artifact) : string := default "" (a_OrganizationID a).
End Claims.

(** ** The authorizer *)

Class Codec := {
  (** [json.Unmarshal] of the publish body: [namespace] and [organization_id] *)
  unmarshal_publish : string -> option (string * string);
  (** of the update body: [namespace], which may be absent *)
  unmarshal_update : string -> option (option string);
  uuid_Parse : string -> bool;
}.

Definition errAmbiguousOwnership : gerror := ErrSentinel "errAmbiguousOwnership".

Section Authorizer.
Context {X : Type} `{Identity X} `{ScopeLib} `{Codec}.
#[local] Abbreviation P := (prog (env (web X))).

Definition callerIsAdmin : P bool :=
  let! scopesVal := c_Get "scopes" in
  match scopesVal with
  | Some (VStrings userScopes) => ret (HasScope userScopes ScopeAdmin)
  | _ => ret false
  end.

Definition callerUserID : P (option string) :=
  let! userVal := c_Get "user_id" in
  match userVal with
  | Some (VString uid) => ret (if String.eqb uid "" then None else Some uid)
  | _ => ret None
  end.

(** The last check of [authorizeOrgAccess]: the user's membership. *)
Definition memberAccess (ownerOrgID : string) (scope : Scope) : P (Z * string) :=
  let! userVal := c_Get "user_id" in
  match userVal with
  | None => ret (403, "Organization context required")
  | Some (VString userID) =>
      if String.eqb userID "" then ret (403, "Invalid user ID format")
      else
        let! r := ident (GetMemberWithRole ownerOrgID userID) in
        match r with
        | Err _ => ret (500, "Failed to check organization membership")
        | Ok None => ret (403, "Namespace is owned by another organization")
        | Ok (Some m) =>
            if negb (HasScope (mr_RoleTemplateScopes m) scope)
            then ret (403, "Missing required scope in the owning organization")
            else ret (0, "")
        end
  | Some _ => ret (403, "Invalid user ID format")
  end.

Definition authorizeOrgAccess (ownerOrgID : string) (scope : Scope) : P (Z * string) :=
  let! scopesVal := c_Get "scopes" in
  match scopesVal with
  | None => ret (403, "Insufficient permissions")
  | Some (VStrings userScopes) =>
      if HasScope userScopes ScopeAdmin then ret (0, "")
      else
        let! keyVal := c_Get "api_key" in
        match keyVal with
        | None => memberAccess ownerOrgID scope
        | Some (VAPIKey k) =>
            if negb (String.eqb (ak_OrganizationID k) "") then
              if String.eqb (ak_OrganizationID k) ownerOrgID then ret (0, "")
              else ret (403, "Namespace is owned by another organization")
            else memberAccess ownerOrgID scope
        | Some _ => ret (403, "Invalid API key context")
        end
  | Some _ => ret (403, "Invalid scopes format")
  end.

Definition resolveOwnerOrg (namespace : string) : P (res string) :=
  let? c := GetClaim namespace in
  match c with
  | Some c => ret (Ok (cm_OrganizationID c))
  | None =>
      let? orgIDs := ArtifactOrganizations namespace in
      match orgIDs with
      | [] => ret (Ok "")
      | [o] => ret (Ok o)
      | _ => ret (Err errAmbiguousOwnership)
      end
  end.

Definition ownerOrgForArtifact (namespace artifactOrgID : string) : P (res string) :=
  let? c := GetClaim namespace in
  match c with
  | Some c => ret (Ok (cm_OrganizationID c))
  | None => ret (Ok artifactOrgID)
  end.

Definition resolveCallerOrg : P (string * Z * string) :=
  let! keyVal := c_Get "api_key" in
  let bound := match keyVal with Some (VAPIKey k) => ak_OrganizationID k | _ => "" end in
  if negb (String.eqb bound "") then ret (bound, 0, "")
  else
    let! req := c_GetString "requested_org_id" in
    let requestedOrg := trim_space req in
    if negb (String.eqb requestedOrg "") then
      let! adm := callerIsAdmin in
      if adm then ret (requestedOrg, 0, "")
      else
        let! uid := callerUserID in
        match uid with
        | Some uid =>
            let! r := ident (GetUserMemberships uid) in
            match r with
            | Err _ => ret ("", 500, "Failed to resolve organization memberships")
            | Ok ms =>
                if List.existsb (String.eqb requestedOrg) ms then ret (requestedOrg, 0, "")
                else ret ("", 403, "You are not a member of the requested organization")
            end
        | None => ret ("", 403, "You are not a member of the requested organization")
        end
    else
      let! uid := callerUserID in
      match uid with
      | Some uid =>
          let! r := ident (GetUserMemberships uid) in
          match r with
          | Err _ => ret ("", 500, "Failed to resolve organization memberships")
          | Ok [o] => ret (o, 0, "")
          | Ok [] => ret ("", 403, "No organization context")
          | Ok _ => ret ("", 403, "Ambiguous organization")
          end
      | None => ret ("", 403, "No organization context")
      end.

(** First publish into an unowned namespace. *)
Definition first_publish (namespace : string) (scope : Scope) : P bool :=
  match ValidateRegistrySegment namespace with
  | Some _ => run! c_Abort 400 "Invalid namespace" in ret false
  | None =>
      let! r := resolveCallerOrg in
      let '(callerOrgID, status, msg) := r in
      if negb (status =? 0) then run! c_Abort status msg in ret false
      else
        let! uid := callerUserID in
        let! r := ClaimNamespace namespace callerOrgID uid in
        match r with
        | Err _ => run! c_Abort 500 "Failed to claim namespace" in ret false
        | Ok c =>
            let! ok :=
              if negb (String.eqb (cm_OrganizationID c) callerOrgID) then
                let! a := authorizeOrgAccess (cm_OrganizationID c) scope in
                if negb (fst a =? 0) then run! c_Abort (fst a) (snd a) in ret false
                else ret true
              else ret true in
            if ok then
              run! c_Set "owner_org_id" (VString (cm_OrganizationID c)) in ret true
            else ret false
        end
  end.

Definition authorizeNamespaceMutation (namespace : string) (scope : Scope) (allowClaim : bool)
  : P bool :=
  let! r := resolveOwnerOrg namespace in
  match r with
  | Err e =>
      if errors_is e errAmbiguousOwnership then
        let! adm := callerIsAdmin in
        if adm then ret true
        else run! c_Abort 403 "Namespace ownership is ambiguous; contact an administrator" in
             ret false
      else run! c_Abort 500 "Failed to resolve namespace ownership" in ret false
  | Ok ownerOrgID =>
      if negb (String.eqb ownerOrgID "") then
        let! a := authorizeOrgAccess ownerOrgID scope in
        if negb (fst a =? 0) then run! c_Abort (fst a) (snd a) in ret false
        else run! c_Set "owner_org_id" (VString ownerOrgID) in ret true
      else if negb allowClaim then ret true
      else first_publish namespace scope
  end.

(** ** The route middlewares *)

Definition RequireNamespaceAccessFromPath (scope : Scope) : P unit :=
  let! namespace := c_Param "namespace" in
  if String.eqb namespace "" then c_Abort 403 "Namespace not present in request path"
  else
    let! ok := authorizeNamespaceMutation namespace scope false in
    if ok then c_Next else ret tt.

Definition RequirePublishAccessFromForm (scope : Scope) : P unit :=
  let! f := gets (fun s => form (gin s)) in
  match f with
  | Err _ => c_Abort 400 "Failed to parse multipart form"
  | Ok fields =>
      let namespace := default "" (fields !! "namespace") in
      if String.eqb namespace "" then c_Next
      else
        run! c_Set "requested_org_id" (VString (default "" (fields !! "organization_id"))) in
        let! ok := authorizeNamespaceMutation namespace scope true in
        if ok then c_Next else ret tt
  end.

Definition RequirePublishAccessFromJSON (scope : Scope) : P unit :=
  let! b := gets (fun s => body (gin s)) in
  match b with
  | Err _ => c_Abort 400 "Failed to read request body"
  | Ok raw =>
      match unmarshal_publish raw with
      | None => c_Next
      | Some (namespace, organizationID) =>
          if String.eqb namespace "" then c_Next
          else
            run! c_Set "requested_org_id" (VString organizationID) in
            let! ok := authorizeNamespaceMutation namespace scope true in
            if negb ok then ret tt
            else
              let! adm := callerIsAdmin in
              if negb (String.eqb organizationID "") && negb adm then
                let! r := resolveOwnerOrg namespace in
                match r with
                | Err _ => c_Abort 403 "organization_id does not match the namespace's owning organization"
                | Ok ownerOrgID =>
                    if String.eqb ownerOrgID "" || negb (String.eqb organizationID ownerOrgID)
                    then c_Abort 403 "organization_id does not match the namespace's owning organization"
                    else c_Next
                end
              else c_Next
      end
  end.

(** [(module, ownerOrgID, true)]: [Some (Some _, o)]; missing or malformed:
    [Some (None, "")]; aborted: [None]. *)
Definition moduleAccessByID (scope : Scope) : P (option (option artifact * string)) :=
  let! id := c_Param "id" in
  if negb (uuid_Parse id) then ret (Some (None, ""))
  else
    let! r := GetModuleByID id in
    match r with
    | Err _ => run! c_Abort 500 "Failed to get module" in ret None
    | Ok None => ret (Some (None, ""))
    | Ok (Some m) =>
        let! r := ownerOrgForArtifact (a_Namespace m) (org_field m) in
        match r with
        | Err _ => run! c_Abort 500 "Failed to resolve namespace ownership" in ret None
        | Ok ownerOrgID =>
            let! a := authorizeOrgAccess ownerOrgID scope in
            if negb (fst a =? 0) then run! c_Abort (fst a) (snd a) in ret None
            else
              run! c_Set "owner_org_id" (VString ownerOrgID) in
              ret (Some (Some m, ownerOrgID))
        end
    end.

Definition RequireModuleAccessByID (scope : Scope) : P unit :=
  let! r := moduleAccessByID scope in
  match r with Some _ => c_Next | None => ret tt end.

(** Moving a module to the namespace [target]. *)
Definition authorize_move (target currentOwner : string) : P unit :=
  let! r := resolveOwnerOrg target in
  match r with
  | Err e =>
      if errors_is e errAmbiguousOwnership then
        let! adm := callerIsAdmin in
        if adm then c_Next
        else c_Abort 403 "Namespace ownership is ambiguous; contact an administrator"
      else c_Abort 500 "Failed to resolve namespace ownership"
  | Ok targetOwner =>
      if String.eqb targetOwner "" then
        match ValidateRegistrySegment target with
        | Some _ => c_Abort 400 "Invalid namespace"
        | None =>
            let! uid := callerUserID in
            let! r := ClaimNamespace target currentOwner uid in
            match r with
            | Err _ => c_Abort 500 "Failed to claim namespace"
            | Ok c =>
                let! adm := callerIsAdmin in
                if negb (String.eqb (cm_OrganizationID c) currentOwner) && negb adm
                then c_Abort 403 "Namespace is owned by another organization"
                else c_Next
            end
        end
      else if negb (String.eqb targetOwner currentOwner) then
        let! adm := callerIsAdmin in
        if negb adm then c_Abort 403 "Namespace is owned by another organization"
        else c_Next
      else c_Next
  end.

Definition RequireModuleUpdateAccess (scope : Scope) : P unit :=
  let! r := moduleAccessByID scope in
  match r with
  | None => ret tt
  | Some (None, _) => c_Next
  | Some (Some m, currentOwner) =>
      let! b := gets (fun s => body (gin s)) in
      match b with
      | Err _ => c_Abort 400 "Failed to read request body"
      | Ok raw =>
          match unmarshal_update raw with
          | Some (Some target) =>
              if String.eqb target "" || String.eqb target (a_Namespace m) then c_Next
              else authorize_move target currentOwner
          | _ => c_Next
          end
      end
  end.

Definition RequireProviderAccessByID (scope : Scope) : P unit :=
  let! id := c_Param "id" in
  if negb (uuid_Parse id) then c_Next
  else
    let! r := GetProviderByID id in
    match r with
    | Err _ => c_Abort 500 "Failed to get provider"
    | Ok None => c_Next
    | Ok (Some p) =>
        let! r := ownerOrgForArtifact (a_Namespace p) (org_field p) in
        match r with
        | Err _ => c_Abort 500 "Failed to resolve namespace ownership"
        | Ok ownerOrgID =>
            let! a := authorizeOrgAccess ownerOrgID scope in
            if negb (fst a =? 0) then c_Abort (fst a) (snd a) else c_Next
        end
    end.
End Authorizer.

(** ** Claims are set once *)

(** The claims table only grows: no binding is changed or dropped. *)
Definition claims_grow {X} (s s' : web X) : Prop :=
  namespace_claims (tables s) ⊆ namespace_claims (tables s').

#[export] Instance claims_grow_preorder {X} : PreOrder (@claims_grow X).
Proof.
  split; [intros s | intros a b c]; unfold claims_grow; [reflexivity | apply transitivity].
Qed.

Section Grow.
Context {X : Type}.
#[local] Abbreviation R := (on_st (@claims_grow X)).

Lemma grow_set k v : preserves R (c_Set k v).
Proof. apply preserves_modify. intros s. unfold claims_grow. reflexivity. Qed.
Lemma grow_abort n m : preserves R (c_Abort n m).
Proof. apply preserves_modify. intros s. unfold claims_grow. reflexivity. Qed.
Lemma grow_next : preserves R c_Next.
Proof. apply preserves_modify. intros s. unfold claims_grow. reflexivity. Qed.
Lemma grow_ident {A} (f : X -> A * X) : preserves R (ident f).
Proof. apply preserves_state. intros s. unfold claims_grow. reflexivity. Qed.
Lemma grow_query {A} op (f : regdb -> res A) : preserves R (query op f).
Proof. apply preserves_db; [apply _ | intros s; unfold claims_grow; reflexivity]. Qed.

Lemma grow_insert ns o by_ : preserves R (insert_claim ns o by_).
Proof.
  apply preserves_db; [apply _|]. intros s. unfold claims_grow. cbn.
  destruct (namespace_claims (tables s) !! ns) eqn:E; [done|].
  by apply insert_subseteq.
Qed.
End Grow.
#[export] Hint Resolve grow_set grow_abort grow_next grow_ident grow_query grow_insert : registry.

(** The helpers of the authorizer, one preservation lemma each, for any
    relation that the context operations and the claim insertion respect. *)
Section HelperGrowth.
Context {X : Type} `{Identity X} `{ScopeLib} `{Codec}.
#[local] Abbreviation R := (on_st (@claims_grow X)).

Lemma grow_callerIsAdmin : preserves R callerIsAdmin.
Proof. unfold callerIsAdmin. preserve. Qed.
Lemma grow_callerUserID : preserves R callerUserID.
Proof. unfold callerUserID. preserve. Qed.
Lemma grow_GetClaim ns : preserves R (GetClaim ns).
Proof. unfold GetClaim. preserve. Qed.
#[local] Hint Resolve grow_callerIsAdmin grow_callerUserID grow_GetClaim : registry.
Lemma grow_ClaimNamespace ns o u : preserves R (ClaimNamespace ns o u).
Proof. unfold ClaimNamespace. preserve. Qed.
Lemma grow_resolveOwnerOrg ns : preserves R (resolveOwnerOrg ns).
Proof. unfold resolveOwnerOrg, ArtifactOrganizations. preserve. Qed.
Lemma grow_ownerOrgForArtifact ns o : preserves R (ownerOrgForArtifact ns o).
Proof. unfold ownerOrgForArtifact. preserve. Qed.
Lemma grow_authorizeOrgAccess o sc : preserves R (authorizeOrgAccess o sc).
Proof. unfold authorizeOrgAccess, memberAccess. preserve. Qed.
Lemma grow_resolveCallerOrg : preserves R resolveCallerOrg.
Proof. unfold resolveCallerOrg. preserve. Qed.
#[local] Hint Resolve grow_ClaimNamespace grow_resolveOwnerOrg grow_ownerOrgForArtifact
  grow_authorizeOrgAccess grow_resolveCallerOrg : registry.
Lemma grow_first_publish ns sc : preserves R (first_publish ns sc).
Proof. unfold first_publish. preserve. Qed.
#[local] Hint Resolve grow_first_publish : registry.
Lemma grow_authorizeNamespaceMutation ns sc b : preserves R (authorizeNamespaceMutation ns sc b).
Proof. unfold authorizeNamespaceMutation. preserve. Qed.
Lemma grow_moduleAccessByID sc : preserves R (moduleAccessByID sc).
Proof. unfold moduleAccessByID, GetModuleByID. preserve. Qed.
Lemma grow_authorize_move t o : preserves R (authorize_move t o).
Proof. unfold authorize_move. preserve. Qed.
End HelperGrowth.
#[export] Hint Resolve grow_callerIsAdmin grow_callerUserID grow_GetClaim grow_ClaimNamespace
  grow_resolveOwnerOrg grow_ownerOrgForArtifact grow_authorizeOrgAccess grow_resolveCallerOrg
  grow_first_publish grow_authorizeNamespaceMutation grow_moduleAccessByID grow_authorize_move
  : registry.

(** ** What each helper decides *)

(** A statement that reads: the component state is untouched. *)
Lemma query_run {X A} op (f : regdb -> res A) (w : env (web X)) :
  st (snd (query op f w)) = st w /\
  (fst (query op f w) = f (tables (st w)) \/ fst (query op f w) = Err (ErrDB op)) /\
  (faults w = [] -> fst (query op f w) = f (tables (st w)) /\ faults (snd (query op f w)) = []).
Proof.
  destruct w as [[g t x] fl c k]. unfold query, sql, db. cbn [faults].
  destruct fl as [|[] fl]; cbn; (split; [done|]; split; [|by intros]).
  - by left.
  - by right.
  - by left.
Qed.

Section Decisions.
Context {X : Type} `{Identity X} `{ScopeLibLaws} `{Codec}.
Implicit Types w : env (web X).

(** Who owns a namespace, by the tables alone. *)
Definition ownership (t : regdb) (ns : string) : res string :=
  match namespace_claims t !! ns with
  | Some c => Ok (cm_OrganizationID c)
  | None =>
      match remove_dups (orgs_in ns (modules t) ++ orgs_in ns (providers t)) with
      | [] => Ok ""
      | [o] => Ok o
      | _ => Err errAmbiguousOwnership
      end
  end.

(** The caller described by the context [g], against the identity module's
    state [x], may write in organization [owner]: global admin, key bound to
    that organization, or (for sessions and unbound keys) a member whose role
    there satisfies the scope. *)
Definition is_admin (g : ginctx) : Prop :=
  exists us, keys g !! "scopes" = Some (VStrings us) /\ satisfies us ScopeAdmin.

Definition bound_key (g : ginctx) (o : string) : Prop :=
  exists k, keys g !! "api_key" = Some (VAPIKey k) /\ ak_OrganizationID k = o /\ o <> "".

Definition unbound (g : ginctx) : Prop :=
  keys g !! "api_key" = None \/
  exists k, keys g !! "api_key" = Some (VAPIKey k) /\ ak_OrganizationID k = "".

Definition member_may (g : ginctx) (x : X) (owner : string) (scope : Scope) : Prop :=
  exists uid m, keys g !! "user_id" = Some (VString uid) /\ uid <> "" /\
    fst (GetMemberWithRole owner uid x) = Ok (Some m) /\
    satisfies (mr_RoleTemplateScopes m) scope.

Definition caller_may (g : ginctx) (x : X) (owner : string) (scope : Scope) : Prop :=
  is_admin g \/
  (exists us, keys g !! "scopes" = Some (VStrings us)) /\
  (bound_key g owner \/ unbound g /\ member_may g x owner scope).

(** The organization a first publish by this caller founds a namespace for. *)
Definition may_found (g : ginctx) (x : X) (o : string) : Prop :=
  bound_key g o \/
  (exists req, keys g !! "requested_org_id" = Some (VString req) /\ trim_space req = o /\ o <> "" /\
     (is_admin g \/
      exists uid ms, keys g !! "user_id" = Some (VString uid) /\
        fst (GetUserMemberships uid x) = Ok ms /\ In o ms)) \/
  (exists uid, keys g !! "user_id" = Some (VString uid) /\
     fst (GetUserMemberships uid x) = Ok [o]).

Lemma resolveOwnerOrg_run ns w :
  let r := resolveOwnerOrg ns w in
  st (snd r) = st w /\
  (fst r = ownership (tables (st w)) ns \/ exists op, fst r = Err (ErrDB op)) /\
  (faults w = [] -> fst r = ownership (tables (st w)) ns /\ faults (snd r) = []).
Proof.
  cbv zeta. unfold resolveOwnerOrg, bind. cbn [fst snd].
  destruct (query_run "GetClaim" (fun t => Ok (namespace_claims t !! ns)) w) as (Hs & Hr & Hq).
  fold (GetClaim ns (X := X)) in *. destruct (GetClaim ns w) as [r1 w1]. cbn [fst snd] in *.
  unfold ownership. rewrite <- Hs.
  destruct Hr as [->| ->]; cbn [fst snd ret].
  2:{ split; [done|]. split; [right; by eexists|]. intros Hf. by destruct (Hq Hf). }
  rewrite <- Hs. destruct (namespace_claims (tables (st w1)) !! ns) as [c|] eqn:Ec.
  { cbn [fst snd ret]. split; [done|]. split; [by left|]. intros Hf. by destruct (Hq Hf). }
  unfold ArtifactOrganizations.
  set (f := fun t => Ok (remove_dups (orgs_in ns (modules t) ++ orgs_in ns (providers t)))).
  destruct (query_run "ArtifactOrganizations" f w1) as (Hs2 & Hr2 & Hq2).
  destruct (query "ArtifactOrganizations" f w1) as [r2 w2]. cbn [fst snd] in *.
  destruct Hr2 as [->| ->]; cbn [fst snd ret].
  2:{ split; [done|]. split; [right; by eexists|]. intros Hf.
      destruct (Hq Hf) as [_ Hf1]. by destruct (Hq2 Hf1). }
  unfold f. destruct (remove_dups _) as [|o [|o' os]]; cbn [fst snd ret];
    (split; [done|]; split; [by left|]; intros Hf; destruct (Hq Hf) as [_ Hf1];
     by destruct (Hq2 Hf1)).
Qed.

Lemma callerIsAdmin_run w :
  snd (callerIsAdmin w) = w /\ (fst (callerIsAdmin w) = true <-> is_admin (gin (st w))).
Proof.
  unfold callerIsAdmin, bind, c_Get, gets, is_admin. cbn [fst snd].
  destruct (keys (gin (st w)) !! "scopes") as [[us| | | | | |]|]; cbn; split; try done;
    try (split; [done | naive_solver]).
  rewrite HasScope_iff. naive_solver.
Qed.

Lemma callerUserID_run w :
  snd (callerUserID w) = w /\
  (forall uid, fst (callerUserID w) = Some uid ->
     keys (gin (st w)) !! "user_id" = Some (VString uid) /\ uid <> "").
Proof.
  unfold callerUserID, bind, c_Get, gets. cbn [fst snd].
  destruct (keys (gin (st w)) !! "user_id") as [[|u| | | | |]|]; cbn; split; try done.
  intros uid. destruct (String.eqb_spec u ""); cbn; [done|]. by intros [=<-].
Qed.

Lemma HasScope_false us r : HasScope us r = false -> ~ satisfies us r.
Proof. rewrite <- HasScope_iff. by rewrite not_true_iff_false. Qed.

(** The shape of the lemmas on checks: a check leaves request and tables alone
    and answers status 0 exactly when [ok]. *)
Definition decides w (r : Z * string * env (web X)) (ok : Prop) : Prop :=
  gin (st (snd r)) = gin (st w) /\ tables (st (snd r)) = tables (st w) /\
  (fst (fst r) = 0 <-> ok) /\
  (fst (fst r) = 0 \/ fst (fst r) = 403 \/ fst (fst r) = 500).

Ltac decide_frame :=
  unfold decides; cbn; (split; [done|]); (split; [done|]); (split; [|tauto]).
Ltac decide_yes := decide_frame; (split; [intros _ | done]).
Ltac decide_not := decide_frame; (split; [done|]).
Ltac decide_no := decide_not; naive_solver.

Lemma memberAccess_run o scope w :
  decides w (memberAccess o scope w) (member_may (gin (st w)) (ext (st w)) o scope).
Proof.
  unfold memberAccess, bind, c_Get, gets, member_may. cbn [fst snd].
  destruct (keys (gin (st w)) !! "user_id") as [[|uid| | | | |]|] eqn:Eu;
    [decide_no| |decide_no..].
  destruct (String.eqb_spec uid "") as [->|Hne]; [decide_no|].
  unfold ident, state. cbn [fst snd].
  destruct (GetMemberWithRole o uid (ext (st w))) as [[[m|]|e] x'] eqn:Em; cbn [fst snd];
    [|decide_not; intros (uid' & m' & [=<-] & _ & Hm & _); by rewrite Em in Hm..].
  destruct (HasScope (mr_RoleTemplateScopes m) scope) eqn:Es; cbn [negb].
  - apply HasScope_iff in Es. decide_yes. exists uid, m. by rewrite Em.
  - apply HasScope_false in Es. decide_not.
    intros (uid' & m' & [=<-] & _ & Hm & Hs). rewrite Em in Hm. by injection Hm as <-.
Qed.

Lemma authorizeOrgAccess_run o scope w :
  decides w (authorizeOrgAccess o scope w) (caller_may (gin (st w)) (ext (st w)) o scope).
Proof.
  unfold authorizeOrgAccess, bind, c_Get, gets, caller_may, is_admin, bound_key, unbound.
  cbn [fst snd].
  destruct (keys (gin (st w)) !! "scopes") as [[us| | | | | |]|] eqn:Es; [|decide_no..].
  destruct (HasScope us ScopeAdmin) eqn:Ea.
  { apply HasScope_iff in Ea. decide_yes. left. by exists us. }
  apply HasScope_false in Ea.
  pose proof (memberAccess_run o scope w) as (M1 & M2 & M3 & M4).
  destruct (keys (gin (st w)) !! "api_key") as [[| | |k| | |]|] eqn:Ek;
    [decide_no|decide_no|decide_no| |decide_no|decide_no|decide_no|].
  - destruct (String.eqb_spec (ak_OrganizationID k) "") as [E|E]; cbn [negb].
    + split; [done|]. split; [done|]. split; [|done]. rewrite M3. naive_solver.
    + destruct (String.eqb_spec (ak_OrganizationID k) o) as [Eo|Eo].
      * decide_yes. right. split; [by eexists|]. left. exists k. by subst.
      * decide_no.
  - split; [done|]. split; [done|]. split; [|done]. rewrite M3. naive_solver.
Qed.
Lemma resolveCallerOrg_run w :
  let r := resolveCallerOrg w in
  gin (st (snd r)) = gin (st w) /\ tables (st (snd r)) = tables (st w) /\
  (snd (fst (fst r)) = 0 -> may_found (gin (st w)) (ext (st w)) (fst (fst (fst r)))) /\
  (snd (fst (fst r)) = 0 \/ snd (fst (fst r)) = 403 \/ snd (fst (fst r)) = 500).
Proof.
  cbv zeta. unfold resolveCallerOrg, bind. cbn [c_Get c_GetString gets fst snd].
  unfold may_found, bound_key.
  set (bound := match keys (gin (st w)) !! "api_key" with
                | Some (VAPIKey k) => ak_OrganizationID k | _ => "" end).
  destruct (String.eqb_spec bound "") as [Eb|Eb]; cbn [negb].
  2:{ split; [done|]. split; [done|]. split; [|by left]. intros _. left. subst bound.
      destruct (keys (gin (st w)) !! "api_key") as [[]|]; try done. by eexists. }
  set (req := match keys (gin (st w)) !! "requested_org_id" with Some (VString v) => v | _ => "" end).
  destruct (callerUserID_run w) as [Hu1 Hu2].
  destruct (String.eqb_spec (trim_space req) "") as [Er|Er]; cbn [negb].
  - rewrite Hu1. destruct (fst (callerUserID w)) as [uid|] eqn:Eu;
      [|cbn; split; [done|]; split; [done|]; split; [done | tauto]].
    destruct (Hu2 uid eq_refl) as [Hk _]. unfold ident, state. cbn [fst snd].
    destruct (GetUserMemberships uid (ext (st w))) as [[[|o [|o' os]]|e] x'] eqn:Em; cbn;
      (split; [done|]; split; [done|]; split; [|tauto]; intros Hz; try discriminate Hz).
    right; right. exists uid. by rewrite Em.
  - assert (Hreq : keys (gin (st w)) !! "requested_org_id" = Some (VString req)).
    { subst req. by destruct (keys (gin (st w)) !! "requested_org_id") as [[]|]. }
    destruct (callerIsAdmin_run w) as [Ha1 Ha2]. rewrite Ha1.
    destruct (fst (callerIsAdmin w)).
    { cbn. split; [done|]. split; [done|]. split; [|tauto]. intros _. right; left.
      exists req. repeat split; try done. left. by apply Ha2. }
    rewrite Hu1. destruct (fst (callerUserID w)) as [uid|] eqn:Eu;
      [|cbn; split; [done|]; split; [done|]; split; [done | tauto]].
    destruct (Hu2 uid eq_refl) as [Hk _]. unfold ident, state. cbn [fst snd].
    destruct (GetUserMemberships uid (ext (st w))) as [[ms|e] x'] eqn:Em; cbn [fst snd];
      [|cbn; split; [done|]; split; [done|]; split; [done | tauto]].
    destruct (List.existsb (String.eqb (trim_space req)) ms) eqn:Ex; cbn;
      (split; [done|]; split; [done|]; split; [|tauto]; intros Hz; try discriminate Hz).
    right; left. exists req. repeat split; try done. right. exists uid, ms. rewrite Em.
    repeat split; try done. apply existsb_exists in Ex as (y & Hy & E).
    by apply String.eqb_eq in E as ->.
Qed.

(** [ClaimNamespace] reports the binding that is in the table afterwards: its
    own when the namespace was free, else the earlier one. *)
Lemma ClaimNamespace_run ns o by_ w :
  let r := ClaimNamespace ns o by_ w in
  gin (st (snd r)) = gin (st w) /\ ext (st (snd r)) = ext (st w) /\
  (forall c, fst r = Ok c ->
     namespace_claims (tables (st (snd r))) !! ns = Some c /\
     match namespace_claims (tables (st w)) !! ns with
     | Some c0 => c = c0
     | None => cm_OrganizationID c = o
     end).
Proof.
  cbv zeta. destruct w as [[g t x] fl ck tk].
  unfold ClaimNamespace, insert_claim, GetClaim, query, sql, db, bind. cbn [faults st gin tables ext].
  destruct fl as [|[] fl]; cbn [fst snd st gin tables ext faults];
    [| split; [done|]; split; [done|]; by intros |].
  - destruct (namespace_claims t !! ns) as [c0|] eqn:E; cbn.
    + rewrite E. cbn. split; [done|]. split; [done|]. intros c [=<-]. by rewrite E.
    + rewrite lookup_insert_eq. cbn. split; [done|]. split; [done|]. intros c [=<-].
      by rewrite lookup_insert_eq.
  - destruct fl as [|[] fl]; cbn [tail];
      destruct (namespace_claims t !! ns) as [c0|] eqn:E; cbn;
      rewrite ?E, ?lookup_insert_eq; cbn; (split; [done|]; split; [done|]);
      try (by intros); intros c [=<-]; by rewrite ?E, ?lookup_insert_eq.
Qed.

(** The request was answered here. *)
Definition stopped w w' : Prop :=
  (exists status msg, aborted (gin (st w')) = Some (status, msg) /\
     (status = 400 \/ status = 403 \/ status = 500)) /\
  nexts (gin (st w')) = nexts (gin (st w)).

(** The request may go on; only the owner was noted in its context. *)
Definition goes_on w w' : Prop :=
  aborted (gin (st w')) = aborted (gin (st w)) /\ nexts (gin (st w')) = nexts (gin (st w)) /\
  (forall k, k <> "owner_org_id" -> keys (gin (st w')) !! k = keys (gin (st w)) !! k).

(** A first publish that succeeded: a valid segment, bound to an organization
    the caller may found it for, or already bound to one where the caller may
    write. *)
Definition published w w' (ns : string) (scope : Scope) : Prop :=
  ValidateRegistrySegment ns = None /\
  exists o c, may_found (gin (st w)) (ext (st w)) o /\
    namespace_claims (tables (st w')) !! ns = Some c /\
    keys (gin (st w')) !! "owner_org_id" = Some (VString (cm_OrganizationID c)) /\
    (cm_OrganizationID c = o \/ exists x, caller_may (gin (st w)) x (cm_OrganizationID c) scope).

Lemma first_publish_run ns scope w :
  let r := first_publish ns scope w in
  (fst r = true -> goes_on w (snd r) /\ published w (snd r) ns scope) /\
  (fst r = false -> stopped w (snd r)).
Proof.
  cbv zeta. unfold first_publish, published.
  destruct (ValidateRegistrySegment ns) as [e|].
  { cbn. split; [done|]. intros _. split; [|done]. by eexists _, _; split; [done | left]. }
  unfold bind. cbn [fst snd].
  destruct (resolveCallerOrg_run w) as (G1 & T1 & F1 & S1).
  destruct (resolveCallerOrg w) as [[[o status] msg] w1]. cbn [fst snd] in *.
  destruct (Z.eqb_spec status 0) as [->|Hst]; cbn [negb].
  2:{ cbn. split; [done|]. intros _. split; [|cbn; by rewrite G1].
      eexists _, _. split; [done|]. tauto. }
  specialize (F1 eq_refl).
  destruct (callerUserID_run w1) as [-> _].
  destruct (ClaimNamespace_run ns o (fst (callerUserID w1)) w1) as (G2 & X2 & C2).
  destruct (ClaimNamespace ns o (fst (callerUserID w1)) w1) as [[c|e] w2];
    cbn [fst snd] in *.
  all: assert (Hg : gin (st w2) = gin (st w)) by congruence.
  2:{ cbn. split; [done|]. intros _. split; [|cbn; by rewrite Hg].
      eexists _, _. split; [done|]. tauto. }
  destruct (C2 c eq_refl) as [Hc _].
  destruct (String.eqb_spec (cm_OrganizationID c) o) as [Eo|Eo]; cbn [negb fst snd ret].
  { split; [|done]. intros _. cbn. split.
    - unfold goes_on. cbn. rewrite Hg. split; [done|]. split; [done|].
      intros k Hk. by rewrite lookup_insert_ne.
    - split; [done|]. exists o, c. split; [done|]. split; [done|].
      split; [apply lookup_insert_eq | by left]. }
  destruct (authorizeOrgAccess_run (cm_OrganizationID c) scope w2) as (G3 & T3 & A3 & S3).
  destruct (authorizeOrgAccess (cm_OrganizationID c) scope w2) as [[a m] w3]. cbn [fst snd] in *.
  rewrite Hg in G3, A3. destruct (Z.eqb_spec a 0) as [->|Ha]; cbn [negb fst snd ret].
  - split; [|done]. intros _. cbn. split.
    + unfold goes_on. cbn. rewrite G3. split; [done|]. split; [done|].
      intros k Hk. by rewrite lookup_insert_ne.
    + split; [done|]. exists o, c. split; [done|]. split; [by rewrite T3|].
      split; [apply lookup_insert_eq|]. right. exists (ext (st w2)). by apply A3.
  - cbn. split; [done|]. intros _. split; [|cbn; by rewrite G3].
    eexists _, _. split; [done|]. tauto.
Qed.

(** Whom the tables permit to write under a namespace. *)
Definition permitted (g : ginctx) (x : X) (t : regdb) (ns : string) (scope : Scope) : Prop :=
  match ownership t ns with
  | Ok o => o = "" \/ caller_may g x o scope
  | Err _ => is_admin g
  end.

(** Nobody owns the namespace: no claim names an organization and neither does an artifact
    under it.  Artifacts without an organization may be there. *)
Definition unowned (t : regdb) (ns : string) : Prop :=
  match namespace_claims t !! ns with
  | Some c => cm_OrganizationID c = ""
  | None => forall a o, a ∈ modules t ++ providers t -> a_Namespace a = ns -> a_OrganizationID a = Some o -> o = ""
  end.

Lemma orgs_in_spec ns rows o :
  o ∈ orgs_in ns rows <-> exists a, a ∈ rows /\ a_Namespace a = ns /\ a_OrganizationID a = Some o.
Proof.
  unfold orgs_in. rewrite list_elem_of_omap. split.
  - intros (a & Ha & Ho). apply list_elem_of_In, filter_In in Ha as [Ha%list_elem_of_In Hn%String.eqb_eq]. by exists a.
  - intros (a & Ha & Hn & Ho). exists a. split; [|done]. apply list_elem_of_In, filter_In.
    split; [by apply list_elem_of_In | by apply String.eqb_eq].
Qed.

Lemma unowned_iff t ns : ownership t ns = Ok "" <-> unowned t ns.
Proof.
  unfold ownership, unowned. destruct (namespace_claims t !! ns) as [c|]; [split; [by intros [=] | by intros ->]|].
  assert (Hin : forall o, o ∈ remove_dups (orgs_in ns (modules t) ++ orgs_in ns (providers t)) <->
      exists a, a ∈ modules t ++ providers t /\ a_Namespace a = ns /\ a_OrganizationID a = Some o).
  { intros o. rewrite elem_of_remove_dups, elem_of_app, !orgs_in_spec. setoid_rewrite elem_of_app. naive_solver. }
  pose proof (NoDup_remove_dups (orgs_in ns (modules t) ++ orgs_in ns (providers t))) as Hnd.
  destruct (remove_dups _) as [|o [|o' os]].
  - split; [|done]. intros _ a o Ha Hn Ho. exfalso. apply (not_elem_of_nil o), Hin. by exists a.
  - split.
    + intros [= ->] a o' Ha Hn Ho. apply list_elem_of_singleton, Hin. by exists a.
    + intros Hu. destruct (proj1 (Hin o)) as (a & Ha & Hn & Ho); [by left|]. by rewrite (Hu a o Ha Hn Ho).
  - split; [done|]. intros Hu.
    destruct (proj1 (Hin o)) as (a & Ha & Hn & Ho); [by left|].
    destruct (proj1 (Hin o')) as (a' & Ha' & Hn' & Ho'); [right; by left|].
    apply NoDup_cons in Hnd as [Hnd _]. destruct Hnd. rewrite (Hu a o Ha Hn Ho), (Hu a' o' Ha' Hn' Ho'). by left.
Qed.

Lemma authorizeNamespaceMutation_run ns scope allowClaim w :
  let r := authorizeNamespaceMutation ns scope allowClaim w in
  (fst r = true ->
     goes_on w (snd r) /\ permitted (gin (st w)) (ext (st w)) (tables (st w)) ns scope /\
     (allowClaim = true -> ownership (tables (st w)) ns = Ok "" -> published w (snd r) ns scope)) /\
  (fst r = false -> stopped w (snd r)) /\
  (faults w = [] -> allowClaim = false ->
     permitted (gin (st w)) (ext (st w)) (tables (st w)) ns scope -> fst r = true).
Proof.
  cbv zeta. unfold authorizeNamespaceMutation, bind, permitted. cbn [fst snd].
  destruct (resolveOwnerOrg_run ns w) as (S1 & O1 & F1).
  destruct (resolveOwnerOrg ns w) as [r1 w1]. cbn [fst snd] in *.
  assert (Hgo : goes_on w w1) by (unfold goes_on; by rewrite S1).
  destruct r1 as [o|e].
  2:{ destruct (errors_is e errAmbiguousOwnership) eqn:Ee.
      - destruct O1 as [O1|[op [=->]]]; [|done].
        destruct (callerIsAdmin_run w1) as [-> Ha]. rewrite <- O1, S1 in *.
        destruct (fst (callerIsAdmin w1)); cbn.
        + split; [|done]. intros _. split; [done|]. split; [by apply Ha | done].
        + split; [done|]. split.
          * intros _. split; [|cbn; by rewrite S1]. eexists _, _. split; [done|]. tauto.
          * intros _ _ Hp. by apply Ha in Hp.
      - cbn. split; [done|]. split.
        + intros _. split; [|cbn; by rewrite S1]. eexists _, _. split; [done|]. tauto.
        + intros Hf _ Hp. destruct (F1 Hf) as [F2 _].
          exfalso. unfold ownership in F2.
          destruct (namespace_claims (tables (st w)) !! ns); [done|].
          destruct (remove_dups _) as [|? [|]]; try done. injection F2 as ->. done. }
  destruct O1 as [O1|[op O1]]; [|done]. rewrite <- O1 in *.
  destruct (String.eqb_spec o "") as [->|Ho]; cbn [negb].
  - destruct allowClaim; cbn [negb].
    + destruct (first_publish_run ns scope w1) as [P1 P2]. split.
      * intros Ht. destruct (P1 Ht) as [Hg Hp]. split; [|split; [by left|]].
        -- unfold goes_on in *. by rewrite S1 in Hg.
        -- intros _ _. unfold published in *. by rewrite S1 in Hp.
      * split; [|done]. intros Hf. specialize (P2 Hf). unfold stopped in *. by rewrite S1 in P2.
    + cbn. split; [|done]. intros _. split; [done|]. split; [by left | done].
  - destruct (authorizeOrgAccess_run o scope w1) as (G2 & T2 & A2 & St2).
    destruct (authorizeOrgAccess o scope w1) as [[a m] w2]. cbn [fst snd] in *.
    rewrite S1 in *. destruct (Z.eqb_spec a 0) as [->|Ha]; cbn [negb fst snd ret].
    + split; [|done]. intros _. split; [|split; [right; by apply A2 | by intros _ [=->]]].
      unfold goes_on. cbn. rewrite G2. split; [done|]. split; [done|].
      intros k Hk. by rewrite lookup_insert_ne.
    + cbn. split; [done|]. split.
      * intros _. split; [|cbn; by rewrite G2]. eexists _, _. split; [done|]. tauto.
      * intros _ _ [->|Hp]; [done|]. by apply A2 in Hp.
Qed.
End Decisions.

(** Without the first-publish path nothing is written. *)
Section Readers.
Context {X : Type} `{Identity X} `{ScopeLib} `{Codec}.
#[local] Abbreviation R := (on_st (@same_tables X)).

Lemma authorize_path_tables ns sc : preserves R (authorizeNamespaceMutation ns sc false).
Proof.
  unfold authorizeNamespaceMutation, resolveOwnerOrg, GetClaim, ArtifactOrganizations,
    authorizeOrgAccess, memberAccess, callerIsAdmin. cbn [negb]. preserve.
Qed.
End Readers.

Section Theorems.
Context {X : Type} `{Identity X} `{ScopeLibLaws} `{Codec}.
Implicit Types w : env (web X).
Implicit Types s : web X.

(** C10: a namespace's owner is set exactly once: whatever the request, the
    caller, the database and the identity module do, none of the six route
    middlewares changes or drops an existing claim. *)
Theorem claims_are_set_once w (scope : Scope) (ns : string) (c : claim) :
  namespace_claims (tables (st w)) !! ns = Some c ->
  let kept (h : prog (env (web X)) unit) :=
    namespace_claims (tables (st (snd (h w)))) !! ns = Some c in
  kept (RequireNamespaceAccessFromPath scope) /\
  kept (RequirePublishAccessFromForm scope) /\
  kept (RequirePublishAccessFromJSON scope) /\
  kept (RequireModuleAccessByID scope) /\
  kept (RequireModuleUpdateAccess scope) /\
  kept (RequireProviderAccessByID scope).
Proof.
  intros Hc. cbv zeta.
  assert (Hk : forall h : prog (env (web X)) unit, preserves (on_st claims_grow) h ->
    namespace_claims (tables (st (snd (h w)))) !! ns = Some c).
  { intros h Hh. specialize (Hh w). unfold on_st, claims_grow in Hh.
    by eapply lookup_weaken. }
  repeat split; apply Hk;
    unfold RequireNamespaceAccessFromPath, RequirePublishAccessFromForm,
      RequirePublishAccessFromJSON, RequireModuleAccessByID, RequireModuleUpdateAccess,
      RequireProviderAccessByID, GetProviderByID; preserve.
Qed.

(** A middleware's last step: pass on, or not. *)
Lemma goes_on_next w w' :
  fresh_req (gin (st w)) -> goes_on w w' -> admitted (snd (c_Next w')).
Proof.
  intros [Ha Hn] (Q1 & Q2 & _). unfold admitted, c_Next, modify, set_gin. cbn.
  by rewrite Q1, Q2, Ha, Hn.
Qed.

Lemma stopped_not_admitted w w' : stopped w w' -> ~ admitted w'.
Proof. intros [(status & msg & Ha & _) _] [Hn _]. congruence. Qed.

Lemma abort_not_admitted' status msg w : ~ admitted (snd (c_Abort status msg w)).
Proof. unfold admitted, c_Abort, modify, set_gin. cbn. by intros []. Qed.

(** C4: a mutation addressed by the path's namespace goes through only for the
    namespace's owner.  When the claim, or failing that the artifacts, name one
    owning organization, the request is admitted only if the caller is a global
    admin, holds a key bound to that organization, or is a member of it whose
    role satisfies the scope; ambiguous ownership admits admins only.  A namespace
    without a claim whose artifacts, if any, name no organization is unowned and
    admits anybody, its artifacts included.  Without database failures those callers
    are indeed admitted. *)
Theorem namespace_mutation_is_owner_only w (scope : Scope) :
  fresh_req (gin (st w)) ->
  let ns := default "" (param (gin (st w)) !! "namespace") in
  let ok := permitted (gin (st w)) (ext (st w)) (tables (st w)) ns scope in
  let w' := snd (RequireNamespaceAccessFromPath scope w) in
  (admitted w' -> ns <> "" /\ ok) /\
  (faults w = [] -> ns <> "" -> ok -> admitted w') /\
  tables (st w') = tables (st w) /\
  (ownership (tables (st w)) ns = Ok "" <-> unowned (tables (st w)) ns).
Proof.
  intros Hf ns ok. cbv zeta. rewrite unowned_iff. unfold RequireNamespaceAccessFromPath, bind. cbn [c_Param gets fst snd].
  fold ns. destruct (String.eqb_spec ns "") as [E|E].
  { split; [intros Ha; by apply abort_not_admitted' in Ha | done]. }
  destruct (authorizeNamespaceMutation_run ns scope false w) as (Q1 & Q2 & Q3).
  assert (Ht : tables (st (snd (authorizeNamespaceMutation ns scope false w))) = tables (st w)).
  { pose proof (authorize_path_tables ns scope w) as Ht. exact Ht. }
  destruct (authorizeNamespaceMutation ns scope false w) as [[] w1]; cbn [fst snd ret] in *.
  - destruct (Q1 eq_refl) as (Hg & Hp & _). split; [done|]. split; [|by split; [exact Ht|]].
    intros _ _ _. by eapply goes_on_next.
  - split; [|split; [|by split; [exact Ht|]]].
    + intros Ha. exfalso. by eapply stopped_not_admitted; [apply Q2|].
    + intros Hfl _ Hok. by specialize (Q3 Hfl eq_refl Hok).
Qed.

(** C6: a publish that names its namespace in a JSON body is admitted only for
    the owner, as on the path routes; into an unowned namespace it is admitted
    only after the namespace has been bound, to the organization of the
    caller's key, to the one the caller named (as its member, or as an admin),
    or to the caller's only organization - or to another one that won the race
    and where the caller may write; and a non-admin that names an organization
    must name the owner. *)
Theorem json_publish_is_owner_only w (scope : Scope) (raw ns org : string) :
  fresh_req (gin (st w)) ->
  body (gin (st w)) = Ok raw -> unmarshal_publish raw = Some (ns, org) -> ns <> "" ->
  let w0 := snd (c_Set "requested_org_id" (VString org) w) in
  let w' := snd (RequirePublishAccessFromJSON scope w) in
  admitted w' ->
  permitted (gin (st w0)) (ext (st w)) (tables (st w)) ns scope /\
  (ownership (tables (st w)) ns = Ok "" -> published w0 w' ns scope) /\
  (org <> "" -> ~ is_admin (gin (st w)) -> ownership (tables (st w')) ns = Ok org).
Proof.
  intros Hf Hb Hu Hns w0. cbv zeta. unfold RequirePublishAccessFromJSON, bind. cbn [gets fst snd].
  rewrite Hb, Hu. apply String.eqb_neq in Hns. rewrite Hns.
  change (snd (c_Set "requested_org_id" (VString org) w)) with w0.
  destruct (authorizeNamespaceMutation_run ns scope true w0) as (Q1 & Q2 & _).
  destruct (authorizeNamespaceMutation ns scope true w0) as [[] w1]; cbn [fst snd negb ret] in *.
  2:{ intros Ha. exfalso. by eapply stopped_not_admitted; [apply Q2|]. }
  destruct (Q1 eq_refl) as (Hg & Hp & Hpub). clear Q1 Q2.
  destruct (callerIsAdmin_run w1) as [Hsnd Hadm]. rewrite Hsnd.
  assert (Hsame : is_admin (gin (st w1)) <-> is_admin (gin (st w))).
  { unfold is_admin. destruct Hg as (_ & _ & Hk). rewrite (Hk "scopes") by done.
    cbn. by rewrite lookup_insert_ne by done. }
  assert (Hpub' : forall w2, st w2 = st w1 -> ownership (tables (st w)) ns = Ok "" ->
            published w0 (snd (c_Next w2)) ns scope).
  { intros w2 E Ho. specialize (Hpub eq_refl Ho). unfold published in *.
    cbn. by rewrite E. }
  destruct (negb (String.eqb org "") && negb (fst (callerIsAdmin w1))) eqn:Eb.
  - destruct (resolveOwnerOrg_run ns w1) as (S1 & O1 & _).
    destruct (resolveOwnerOrg ns w1) as [r w2]. cbn [fst snd] in *.
    destruct r as [o|e]; [|intros Ha; by apply abort_not_admitted' in Ha].
    destruct (String.eqb_spec o "") as [->|Ho]; [intros Ha; by apply abort_not_admitted' in Ha|].
    destruct (String.eqb_spec org o) as [<-|Hne]; cbn [orb negb];
      [|intros Ha; by apply abort_not_admitted' in Ha].
    intros _. split; [exact Hp|]. split; [exact (Hpub' w2 S1)|]. intros _ _.
    destruct O1 as [E|[op Hop]]; [|discriminate Hop].
    change (ownership (tables (st w2)) ns = Ok org). by rewrite S1.
  - intros _. split; [exact Hp|]. split; [exact (Hpub' _ eq_refl)|]. intros Horg Hna.
    apply andb_false_iff in Eb as [Eb|Eb]; apply negb_false_iff in Eb.
    + by apply String.eqb_eq in Eb.
    + by apply Hadm, Hsame in Eb.
Qed.

(** a multipart publish is judged by the namespace of the form's body. *)
Theorem form_publish_is_owner_only w (scope : Scope) (fields : gmap string string) :
  fresh_req (gin (st w)) ->
  form (gin (st w)) = Ok fields ->
  let ns := default "" (fields !! "namespace") in
  let org := default "" (fields !! "organization_id") in
  ns <> "" ->
  let w0 := snd (c_Set "requested_org_id" (VString org) w) in
  let w' := snd (RequirePublishAccessFromForm scope w) in
  admitted w' ->
  permitted (gin (st w0)) (ext (st w)) (tables (st w)) ns scope /\
  (ownership (tables (st w)) ns = Ok "" -> published w0 w' ns scope).
Proof.
  intros Hf Hfm ns org Hns w0. cbv zeta. unfold RequirePublishAccessFromForm, bind.
  cbn [gets fst snd]. rewrite Hfm. fold ns org. apply String.eqb_neq in Hns. rewrite Hns.
  change (snd (c_Set "requested_org_id" (VString org) w)) with w0.
  destruct (authorizeNamespaceMutation_run ns scope true w0) as (Q1 & Q2 & _).
  destruct (authorizeNamespaceMutation ns scope true w0) as [[] w1]; cbn [fst snd ret] in *.
  - destruct (Q1 eq_refl) as (_ & Hp & Hpub). intros _. split; [exact Hp|].
    intros Ho. specialize (Hpub eq_refl Ho). exact Hpub.
  - intros Ha. exfalso. by eapply stopped_not_admitted; [apply Q2|].
Qed.

(** racing first publishes agree.  As soon as one request's insert has
    returned, there is one winner: every later read of the claim - this
    request's own or any other's, after whatever else ran in between - finds
    that same binding or fails, and every later claim attempt reports it. *)
Theorem racing_claims_agree ns o by_ w w1 :
  insert_claim ns o by_ w = (Ok tt, w1) ->
  exists winner,
    match namespace_claims (tables (st w)) !! ns with
    | Some c0 => winner = c0
    | None => cm_OrganizationID winner = o
    end /\
    forall w2, claims_grow (st w1) (st w2) ->
      (fst (GetClaim ns w2) = Ok (Some winner) \/ exists op, fst (GetClaim ns w2) = Err (ErrDB op)) /\
      (forall o' by' c, fst (ClaimNamespace ns o' by' w2) = Ok c -> c = winner).
Proof.
  intros Hins.
  assert (Hw : exists c, namespace_claims (tables (st w1)) !! ns = Some c /\
    match namespace_claims (tables (st w)) !! ns with
    | Some c0 => c = c0 | None => cm_OrganizationID c = o end).
  { destruct w as [[g t x] fl ck tk]. unfold insert_claim, sql, db in Hins. cbn in Hins |- *.
    destruct fl as [|[] fl]; cbn in Hins; try discriminate Hins; injection Hins as <-; cbn;
      (destruct (namespace_claims t !! ns) as [c0|] eqn:E; cbn;
       [exists c0; by rewrite E | eexists; split; [apply lookup_insert_eq | done]]). }
  destruct Hw as (c & Hc & Hwin). exists c. split; [exact Hwin|].
  intros w2 Hgrow. pose proof (lookup_weaken _ _ _ _ Hc Hgrow) as Hc2. split.
  - unfold GetClaim.
    destruct (query_run "GetClaim" (fun t => Ok (namespace_claims t !! ns)) w2) as (_ & [->| ->] & _);
      [left; by rewrite Hc2 | right; by eexists].
  - intros o' by' c' Hok.
    destruct (ClaimNamespace_run ns o' by' w2) as (_ & _ & Hr).
    destruct (Hr c' Hok) as [_ Hm]. by rewrite Hc2 in Hm.
Qed.

(** The organization an artifact row is governed by. *)
Definition row_owner (t : regdb) (a : artifact) : string :=
  match namespace_claims t !! a_Namespace a with
  | Some c => cm_OrganizationID c
  | None => org_field a
  end.

Lemma ownerOrgForArtifact_run a w :
  let r := ownerOrgForArtifact (a_Namespace a) (org_field a) w in
  st (snd r) = st w /\
  (fst r = Ok (row_owner (tables (st w)) a) \/ exists op, fst r = Err (ErrDB op)).
Proof.
  cbv zeta. unfold ownerOrgForArtifact, GetClaim, bind, row_owner. cbn [fst snd].
  destruct (query_run "GetClaim" (fun t => Ok (namespace_claims t !! a_Namespace a)) w)
    as (Hs & Hr & _).
  destruct (query _ _ w) as [r1 w1]. cbn [fst snd] in *.
  destruct Hr as [->| ->]; [|split; [done | right; by eexists]].
  destruct (namespace_claims (tables (st w)) !! a_Namespace a); (split; [done | by left]).
Qed.

Definition module_by_id w : option artifact :=
  List.find (fun a => String.eqb (a_ID a) (default "" (param (gin (st w)) !! "id")))
    (modules (tables (st w))).

(** The module route either stops, or finds nothing to protect, or has checked
    the caller against the row's owner. *)
Lemma moduleAccessByID_run scope w :
  let r := moduleAccessByID scope w in
  match fst r with
  | None => stopped w (snd r)
  | Some (None, _) => goes_on w (snd r) /\
      (uuid_Parse (default "" (param (gin (st w)) !! "id")) = false \/ module_by_id w = None)
  | Some (Some m, o) =>
      goes_on w (snd r) /\ tables (st (snd r)) = tables (st w) /\
      body (gin (st (snd r))) = body (gin (st w)) /\ module_by_id w = Some m /\
      o = row_owner (tables (st w)) m /\ caller_may (gin (st w)) (ext (st w)) o scope
  end.
Proof.
  cbv zeta. unfold moduleAccessByID, module_by_id, bind. cbn [c_Param gets fst snd].
  set (id := default "" (param (gin (st w)) !! "id")).
  destruct (uuid_Parse id) eqn:Eid; cbn [negb fst snd ret]; [|split; [done | by left]].
  unfold GetModuleByID.
  match goal with |- context [query "GetModuleByID" ?f w] =>
    destruct (query_run "GetModuleByID" f w) as (Hs & Hr & _);
    destruct (query "GetModuleByID" f w) as [r1 w1] end. cbn [fst snd] in *.
  assert (Hst : forall n m, (n = 400 \/ n = 403 \/ n = 500) ->
            forall w2, gin (st w2) = gin (st w) -> stopped w (snd (c_Abort n m w2))).
  { intros n m Hn w2 Hg. split; cbn; [by exists n, m | by rewrite Hg]. }
  destruct Hr as [->| ->]; [|cbn; apply Hst; [tauto | by rewrite Hs]].
  destruct (List.find _ (modules (tables (st w)))) as [m|]; cbn [fst snd ret].
  2:{ split; [|by right]. unfold goes_on. by rewrite Hs. }
  destruct (a_OrganizationID m) eqn:Eo; [|cbn; apply Hst; [tauto | by rewrite Hs]].
  destruct (ownerOrgForArtifact_run m w1) as [S1 O1].
  destruct (ownerOrgForArtifact _ _ w1) as [r2 w2]. cbn [fst snd] in *.
  rewrite Hs in *. destruct O1 as [->|[op ->]]; [|cbn; apply Hst; [tauto | by rewrite S1]].
  destruct (authorizeOrgAccess_run (row_owner (tables (st w)) m) scope w2) as (G3 & T3 & A3 & S3).
  destruct (authorizeOrgAccess _ scope w2) as [[a msg] w3]. cbn [fst snd] in *.
  rewrite S1 in *. destruct (Z.eqb_spec a 0) as [->|Ha]; cbn [negb fst snd ret].
  - unfold goes_on. cbn. rewrite G3, T3. repeat split; try done; [|by apply A3].
    intros k Hk. by rewrite lookup_insert_ne.
  - apply Hst; [tauto | done].
Qed.

Lemma authorize_move_run target owner w :
  admitted (snd (authorize_move target owner w)) ->
  is_admin (gin (st w)) \/
  ownership (tables (st (snd (authorize_move target owner w)))) target = Ok owner.
Proof.
  unfold authorize_move, bind. cbn [fst snd].
  destruct (resolveOwnerOrg_run target w) as (S1 & O1 & _).
  destruct (resolveOwnerOrg target w) as [r1 w1]. cbn [fst snd] in *.
  destruct (callerIsAdmin_run w1) as [Hc1 Ha1]. rewrite S1 in Ha1.
  destruct r1 as [o|e].
  2:{ destruct (errors_is e errAmbiguousOwnership);
        [|intros Ha; by apply abort_not_admitted' in Ha].
      destruct (fst (callerIsAdmin w1)) eqn:Ea; [intros _; left; by apply Ha1|].
      intros Ha; by apply abort_not_admitted' in Ha. }
  destruct O1 as [O1|[op O1]]; [|discriminate O1].
  destruct (String.eqb_spec o "") as [->|Ho].
  - destruct (ValidateRegistrySegment target); [intros Ha; by apply abort_not_admitted' in Ha|].
    destruct (callerUserID_run w1) as [-> _].
    destruct (ClaimNamespace_run target owner (fst (callerUserID w1)) w1) as (G2 & _ & C2).
    destruct (ClaimNamespace target owner (fst (callerUserID w1)) w1) as [[c|e] w2];
      cbn [fst snd] in *; [|intros Ha; by apply abort_not_admitted' in Ha].
    destruct (C2 c eq_refl) as [Hc _].
    destruct (callerIsAdmin_run w2) as [Hc2 Ha2]. rewrite Hc2. rewrite G2, S1 in Ha2.
    destruct (String.eqb_spec (cm_OrganizationID c) owner) as [Eo|Eo]; cbn [negb andb].
    + intros _. right. cbn. unfold ownership. by rewrite Hc, Eo.
    + destruct (fst (callerIsAdmin w2)) eqn:Ea; cbn [negb];
        [intros _; left; by apply Ha2 | intros Ha; by apply abort_not_admitted' in Ha].
  - destruct (String.eqb_spec o owner) as [->|Hne]; cbn [negb].
    + intros _. right. change (ownership (tables (st w1)) target = Ok owner). by rewrite S1.
    + rewrite Hc1. destruct (fst (callerIsAdmin w1)) eqn:Ea; cbn [negb];
        [intros _; left; by apply Ha1 | intros Ha; by apply abort_not_admitted' in Ha].
Qed.

(** a module stays within its organization.  Updating an existing module is
    admitted only for callers who may write in the organization that owns the
    module's namespace; and when the update moves the module, a non-admin is
    admitted only if that same organization owns the target namespace when the
    request is passed on (an unowned target having just been claimed for it). *)
Theorem module_update_stays_in_org w (scope : Scope) (m : artifact) (raw target : string) :
  fresh_req (gin (st w)) ->
  uuid_Parse (default "" (param (gin (st w)) !! "id")) = true -> module_by_id w = Some m ->
  body (gin (st w)) = Ok raw -> unmarshal_update raw = Some (Some target) ->
  target <> "" -> target <> a_Namespace m ->
  let w' := snd (RequireModuleUpdateAccess scope w) in
  let owner := row_owner (tables (st w)) m in
  admitted w' ->
  caller_may (gin (st w)) (ext (st w)) owner scope /\
  (is_admin (gin (st w)) \/ ownership (tables (st w')) target = Ok owner).
Proof.
  intros Hf Hid Hm Hb Hu Ht1 Ht2. cbv zeta. unfold RequireModuleUpdateAccess, bind. cbn [fst snd].
  pose proof (moduleAccessByID_run scope w) as Hacc. cbv zeta in Hacc.
  destruct (moduleAccessByID scope w) as [[[[m'|] o]|] w1]; cbn [fst snd gets ret] in *.
  - destruct Hacc as (Hg & Ht & Hb1 & Hm' & -> & Hmay). rewrite Hm in Hm'. injection Hm' as <-.
    rewrite Hb1, Hb, Hu. apply String.eqb_neq in Ht1, Ht2. rewrite Ht1, Ht2. cbn [orb].
    intros Ha. split; [exact Hmay|]. apply authorize_move_run in Ha as [Hadm|]; [left | by right].
    unfold is_admin in *. destruct Hg as (_ & _ & Hk). by rewrite (Hk "scopes") in Hadm.
  - destruct Hacc as [_ [E|E]]; congruence.
  - intros Ha. exfalso. by eapply stopped_not_admitted.
Qed.
End Theorems.

(** ** Renaming an organization *)

Section Rename.
Context {X : Type}.
Implicit Types w : env (web X).

(** The tables after a complete cascade. *)
Definition renamed (orgID oldName newName : string) (t : regdb) (m : gmap string claim) : regdb := {|
  namespace_claims := m;
  modules := map (rename_artifact orgID oldName newName) (modules t);
  providers := map (rename_artifact orgID oldName newName) (providers t);
  user_token_revocations := user_token_revocations t |}.

(** the rename cascade is all or nothing: on failure, whichever statement
    (or the commit) failed, modules, providers and claims are as before; on
    success all three tables are renamed, and the organization's own claim
    moved only onto a name that nobody had claimed. *)
Theorem rename_cascade_is_atomic w (orgID oldName newName : string) :
  let r := CascadeOrganizationRename orgID oldName newName w in
  match fst r with
  | Err _ => tables (st (snd r)) = tables (st w)
  | Ok _ => exists m,
      rename_claim orgID oldName newName (namespace_claims (tables (st w))) = Ok m /\
      tables (st (snd r)) = renamed orgID oldName newName (tables (st w)) m /\
      (forall c, namespace_claims (tables (st w)) !! oldName = Some c ->
         cm_OrganizationID c = orgID -> oldName <> newName ->
         namespace_claims (tables (st w)) !! newName = None /\
         m !! oldName = None /\
         exists c', m !! newName = Some c' /\ cm_OrganizationID c' = orgID)
  end.
Proof.
  cbv zeta. destruct w as [[g t x] fl ck tk].
  unfold CascadeOrganizationRename, tx, query, sql, db, modify, bind, ret. cbn [faults st gin tables ext].
  assert (Hok : forall m, rename_claim orgID oldName newName (namespace_claims t) = Ok m ->
    forall c, namespace_claims t !! oldName = Some c ->
         cm_OrganizationID c = orgID -> oldName <> newName ->
         namespace_claims t !! newName = None /\ m !! oldName = None /\
         exists c', m !! newName = Some c' /\ cm_OrganizationID c' = orgID).
  { intros m Hm c Hc Ho Hne. unfold rename_claim in Hm. rewrite Hc in Hm.
    apply String.eqb_eq in Ho as Ho'. rewrite Ho' in Hm.
    apply String.eqb_neq in Hne as Hne'. rewrite Hne' in Hm. cbn in Hm.
    destruct (namespace_claims t !! newName); [discriminate Hm|]. injection Hm as <-.
    split; [done|]. rewrite lookup_insert_ne, lookup_delete_eq by done. split; [done|].
    eexists. by rewrite lookup_insert_eq. }
  destruct fl as [|[] fl]; cbn; [|done|].
  - destruct (rename_claim orgID oldName newName (namespace_claims t)) as [m|e] eqn:Em; cbn;
      [|done]. exists m. split; [done|]. split; [done|]. by apply Hok.
  - destruct fl as [|[] fl]; cbn; [|done|];
    [|destruct fl as [|[] fl]; cbn; [|done|];
      [|destruct fl as [|[] fl]; cbn; [|done|]]];
      destruct (rename_claim orgID oldName newName (namespace_claims t)) as [m|e] eqn:Em; cbn;
      try done; try (destruct fl as [|[] fl]; cbn; try done);
      exists m; (split; [done|]; split; [done | by apply Hok]).
Qed.

(** Nothing in the cascade looks at who owns the new name: the artifacts of an
    organization without a claim of its own land in another's namespace. *)
Theorem rename_may_enter_foreign_namespace (x : X) (g : ginctx) :
  let t := {| namespace_claims := {["infra" := {| cm_Namespace := "infra";
                cm_OrganizationID := "o2"; cm_ClaimedBy := None |}]};
              modules := [{| a_ID := "m1"; a_OrganizationID := Some "o1"; a_Namespace := "old" |}];
              providers := []; user_token_revocations := ∅ |} in
  let r := CascadeOrganizationRename "o1" "old" "infra" (quiet (Web g t x)) in
  fst r = Ok tt /\
  ownership (tables (st (snd r))) "infra" = Ok "o2" /\
  In {| a_ID := "m1"; a_OrganizationID := Some "o1"; a_Namespace := "infra" |}
     (modules (tables (st (snd r)))).
Proof. split; [reflexivity|]. split; [reflexivity|]. by left. Qed.
End Rename.

(** ** Witnesses *)

#[local] Existing Instances core_scopes core_scopes_laws.

(** Bodies of the form [namespace|organization], and any identifier. *)
#[local] Instance bar_codec : Codec := {|
  unmarshal_publish s :=
    match split2 "|" s with (n, Some o) => Some (n, o) | (_, None) => None end;
  unmarshal_update s := Some (Some s);
  uuid_Parse _ := true |}.

Definition carol : directory := {|
  d_users := ["carol"]; d_keys := []; d_sessions := []; d_revoked := [];
  d_members := [("carol", "o1", Some "rw", ["modules:write"])] |}.

Definition team_tables : regdb := {|
  namespace_claims := {["team" := {| cm_Namespace := "team"; cm_OrganizationID := "o1";
                                     cm_ClaimedBy := None |}]};
  modules := [{| a_ID := "m1"; a_OrganizationID := Some "o1"; a_Namespace := "team" |}];
  providers := []; user_token_revocations := ∅ |}.

Definition carol_request (params : list (string * string)) (b : string) : env (web directory) :=
  quiet (Web {|
    keys := list_to_map [("scopes", VStrings ["modules:write"]); ("user_id", VString "carol")];
    header := ∅; cookie := ∅; param := list_to_map params;
    form := Ok (list_to_map [("namespace", "team")]); body := Ok b;
    method := "POST"; path := "/"; aborted := None; nexts := O |} team_tables carol).

(** An artifact may be under a namespace nobody owns: its row names no organization, and
    the middleware lets a stranger pass. *)
Definition ownerless : regdb := {|
  namespace_claims := ∅; modules := [{| a_ID := "m1"; a_OrganizationID := None; a_Namespace := "team" |}];
  providers := []; user_token_revocations := ∅ |}.
Example ownerless_artifacts_are_open :
  let w := carol_request [("namespace", "team")] "" in
  let w' := snd (RequireNamespaceAccessFromPath ScopeModulesWrite
    (quiet (Web (gin (st w)) ownerless (ext (st w))))) in
  aborted (gin (st w')) = None /\ nexts (gin (st w')) = 1%nat.
Proof. by vm_compute. Qed.

Theorem claims_are_set_once_witness :
  namespace_claims (tables (st (snd (RequirePublishAccessFromJSON ScopeModulesWrite
    (carol_request [] "team|o2"))))) !! "team" = team_tables.(namespace_claims) !! "team".
Proof.
  rewrite (proj1 (proj2 (proj2 (claims_are_set_once (carol_request [] "team|o2")
    ScopeModulesWrite "team" {| cm_Namespace := "team"; cm_OrganizationID := "o1";
                                cm_ClaimedBy := None |} eq_refl)))).
  reflexivity.
Defined.

Theorem namespace_mutation_is_owner_only_witness :
  permitted (gin (st (carol_request [("namespace", "team")] ""))) carol team_tables "team"
    ScopeModulesWrite.
Proof.
  refine (proj2 (proj1 (namespace_mutation_is_owner_only
    (carol_request [("namespace", "team")] "") ScopeModulesWrite _) _)).
  - split; reflexivity.
  - split; vm_compute; reflexivity.
Defined.

Theorem json_publish_is_owner_only_witness :
  ownership (tables (st (snd (RequirePublishAccessFromJSON ScopeModulesWrite
    (carol_request [] "fresh-ns|o1"))))) "fresh-ns" = Ok "o1".
Proof.
  refine (proj2 (proj2 (json_publish_is_owner_only (carol_request [] "fresh-ns|o1")
    ScopeModulesWrite "fresh-ns|o1" "fresh-ns" "o1" _ _ _ _ _)) _ _).
  - split; reflexivity.
  - reflexivity.
  - reflexivity.
  - discriminate.
  - split; vm_compute; reflexivity.
  - discriminate.
  - intros (us & Hk & Hs). vm_compute in Hk. injection Hk as <-.
    apply (HasScope_iff ["modules:write"] ScopeAdmin) in Hs. vm_compute in Hs. discriminate Hs.
Defined.

Theorem form_publish_is_owner_only_witness :
  permitted (gin (st (snd (c_Set "requested_org_id" (VString "") (carol_request [] "")))))
    carol team_tables "team" ScopeModulesWrite.
Proof.
  refine (proj1 (form_publish_is_owner_only (carol_request [] "") ScopeModulesWrite
    (list_to_map [("namespace", "team")]) _ _ _ _)).
  - split; reflexivity.
  - reflexivity.
  - discriminate.
  - split; vm_compute; reflexivity.
Defined.

Theorem racing_claims_agree_witness :
  exists winner, cm_OrganizationID winner = "o1" /\
    fst (ClaimNamespace "new" "o2" None
      (snd (insert_claim "new" "o1" None (carol_request [] "")))) = Ok winner.
Proof.
  destruct (racing_claims_agree "new" "o1" None (carol_request [] "")
              (snd (insert_claim "new" "o1" None (carol_request [] "")))) as (c & Ho & Hl);
    [reflexivity|].
  exists c. split; [exact Ho|].
  destruct (Hl (snd (insert_claim "new" "o1" None (carol_request [] "")))) as [_ Hc].
  - unfold claims_grow. reflexivity.
  - vm_compute. f_equal. eapply (Hc "o2" None). vm_compute. reflexivity.
Defined.

Theorem module_update_stays_in_org_witness :
  caller_may (gin (st (carol_request [("id", "m1")] "spare"))) carol "o1" ScopeModulesWrite.
Proof.
  refine (proj1 (module_update_stays_in_org (carol_request [("id", "m1")] "spare")
    ScopeModulesWrite {| a_ID := "m1"; a_OrganizationID := Some "o1"; a_Namespace := "team" |}
    "spare" "spare" _ _ _ _ _ _ _ _)); try reflexivity; try discriminate.
  - split; reflexivity.
  - split; vm_compute; reflexivity.
Defined.
