(* ===== verification/TfReleases.v ===== *)
(** * Release clients of the binary mirror

    [internal/mirror/terraform_releases.go], [github_releases.go] and
    [signing.go]: the client for releases.hashicorp.com-style servers and the one
    for GitHub releases, behind the interface [terraformReleasesClient] of
    [internal/jobs/terraform_mirror_sync.go].  The network is the class [Http],
    JSON decoding the class [ReleaseCodec]; both clients are programs over the
    outside state [Y]. *)

From S2P Require Import Prelude GoStrings SemVer Regexp.
From stdpp Require Import gmap.

#[local] Open Scope Z_scope.

(** ** Upstream URLs and product names *)

(** [strings.TrimRight(s, "/")] *)
Fixpoint trim_slashes (s : string) : string :=
  match s with
  | EmptyString => EmptyString
  | String c s' =>
      match trim_slashes s' with
      | EmptyString => if Ascii.eqb c "/" then EmptyString else String c EmptyString
      | t => String c t
      end
  end.

Definition IsGitHubReleasesURL (upstreamURL : string) : bool :=
  contains (to_lower (trim_slashes upstreamURL)) "github.com".

Definition github_prefixes : list string :=
  ["https://api.github.com/repos/"; "http://api.github.com/repos/";
   "https://github.com/"; "http://github.com/"].

(** The first matching prefix is dropped, whatever its case. *)
Fixpoint strip_prefix (prefixes : list string) (u : string) : string :=
  match prefixes with
  | [] => u
  | p :: ps => if has_prefix (to_lower u) (to_lower p) then sdrop (String.length p) u
               else strip_prefix ps u
  end.

Definition ParseGitHubOwnerRepo (upstreamURL : string) : res (string * string) :=
  match split_on "/" (strip_prefix github_prefixes (trim_slashes upstreamURL)) with
  | owner :: repo :: _ =>
      if String.eqb owner "" || String.eqb repo ""
      then Err (ErrMsg "cannot parse GitHub owner/repo from URL")
      else Ok (owner, trim_suffix repo ".git")
  | _ => Err (ErrMsg "cannot parse GitHub owner/repo from URL")
  end.

Definition productNameForTool (tool : string) : string :=
  let t := to_lower tool in
  if String.eqb t "opentofu" then "opentofu"
  else if String.eqb t "packer" then "packer"
  else if String.eqb t "sentinel" then "sentinel"
  else if String.eqb t "opa" then "opa"
  else if String.eqb t "terraform-docs" then "terraform-docs"
  else "terraform".

Definition githubBinaryPrefix (productName : string) : string :=
  if String.eqb (to_lower productName) "opentofu" then "tofu" else productName.

Definition IsUnsignedUpstreamTool (tool : string) : bool :=
  let t := to_lower (trim_space tool) in
  String.eqb t "opa" || String.eqb t "terraform-docs".

(** The two implementations of the client interface. *)
Inductive releases_client :=
| TerraformReleasesClient (UpstreamURL ProductName : string)
| GitHubReleasesClient (Owner Repo ProductName : string).

Definition NewTerraformReleasesClientWithGuard (upstreamURL productName : string)
  : releases_client :=
  TerraformReleasesClient (trim_slashes upstreamURL)
    (if String.eqb productName "" then "terraform" else productName).

Definition NewGitHubReleasesClientWithGuard (upstreamURL productName : string)
  : res releases_client :=
  match ParseGitHubOwnerRepo upstreamURL with
  | Err e => Err e
  | Ok (owner, repo) =>
      Ok (GitHubReleasesClient owner repo
            (if String.eqb productName "" then repo else productName))
  end.

Definition newReleasesClient (upstreamURL productName : string) : res releases_client :=
  if IsGitHubReleasesURL upstreamURL
  then NewGitHubReleasesClientWithGuard upstreamURL (githubBinaryPrefix productName)
  else Ok (NewTerraformReleasesClientWithGuard upstreamURL productName).

(** ** Release metadata *)

Record TerraformReleaseBuild := {
  b_Name : string; b_Version : string; b_OS : string; b_Arch : string;
  b_Filename : string; b_URL : string;
}.

Record TerraformVersionInfo := {
  vi_Version : string;
  vi_SHASumsURL : string;
  vi_SHASumsSignature : string;
  vi_SHASumsSignatures : list string;
  vi_Builds : list TerraformReleaseBuild;
  vi_PerFileSHAURLs : gmap string string;
}.

Record TerraformIndexVersion := {
  ix_Version : string;
  ix_SHASums : string;
  ix_SHASumsSignature : string;
  ix_SHASumsSignatures : list string;
  ix_Builds : list TerraformReleaseBuild;
}.

Record gitHubAsset := { a_Name : string; a_URL : string }.
Record gitHubRelease := { TagName : string; Draft : bool; Assets : list gitHubAsset }.

(** The interface the sync job programs against. *)
Class ReleasesClient (Y : Type) := {
  client_ListVersions : releases_client -> prog Y (res (list TerraformVersionInfo));
  client_FetchSHASums : releases_client -> string -> prog Y (res (gmap string string * string));
  client_FetchSHASumsSignature : releases_client -> string -> prog Y (res string);
  (** the request, then what reading its body to the end gives *)
  client_DownloadBinaryStream : releases_client -> string -> prog Y (res (res string));
}.

(** ** Checksum files *)

(** [strings.Fields] *)
Fixpoint fields_from (word : string) (s : string) : list string :=
  match s with
  | EmptyString => if String.eqb word "" then [] else [word]
  | String c s' =>
      if is_space c
      then if String.eqb word "" then fields_from "" s' else word :: fields_from "" s'
      else fields_from (word +:+ String c "") s'
  end.
Definition fields (s : string) : list string := fields_from "" s.

Definition newline : ascii := ascii_of_nat 10.

Definition sums_line (result : gmap string string) (line : string) : gmap string string :=
  let line := trim_space line in
  if String.eqb line "" then result
  else match fields line with
       | [hash; file] => <[file := hash]> result
       | _ => result
       end.

Definition ParseSHASums (data : string) : gmap string string :=
  fold_left sums_line (split_on newline data) ∅.

(** ** Asset names *)

Definition no_underscore (c : ascii) : bool := negb (Ascii.eqb c "_").
Definition lower_digit (c : ascii) : bool := re_lower c || re_digit c.
Definition no_hyphen_space (c : ascii) : bool := negb (Ascii.eqb c "-" || re_space c).

Definition binaryZipRE : list item :=
  group (re_plus false dot) ++ [Lit "_"] ++ group (re_plus true no_underscore) ++ [Lit "_"] ++
  group (re_plus true no_underscore) ++ [Lit "_"] ++ group (re_plus true no_underscore) ++ [Lit ".zip"].

Definition bareBinaryRE : list item :=
  group (re_plus false dot) ++ [Lit "_"] ++ group (re_plus true re_lower) ++ [Lit "_"] ++
  group (re_plus false lower_digit) ++ [Opt "_static"; Opt ".exe"].

Definition perFileSHA256RE : list item := group (re_plus true dot) ++ [Lit ".sha256"].

Definition sha256sumsRE : list item :=
  group (re_plus false dot) ++ [Lit "_"] ++ group (re_plus true no_underscore) ++ [Lit "_SHA256SUMS"].

Definition sha256sumsSigRE : list item :=
  group (re_plus false dot) ++ [Lit "_"] ++ group (re_plus true no_underscore) ++
  [Lit "_SHA256SUMS."; Rep true dot; Lit "sig"].

Definition tfDocsArchiveRE : list item :=
  group (re_plus true dot) ++ [Lit "-v"] ++ group [One re_digit; Rep true no_hyphen_space] ++
  [Lit "-"] ++ group (re_plus true lower_digit) ++ [Lit "-"] ++ group (re_plus true lower_digit) ++
  [Lit "."; Alts ["tar.gz"; "zip"]].

Definition tfDocsSumsRE : list item :=
  group (re_plus true dot) ++ [Lit "-v"] ++ group [One re_digit; Rep true no_hyphen_space] ++
  [Lit ".sha256sum"].

(** ** GitHub releases *)

Record release_scan := {
  rs_builds : list TerraformReleaseBuild;
  rs_sums : string;
  rs_sig : string;
  rs_perFile : gmap string string;
}.

Definition add_build (version product osName arch : string) (a : gitHubAsset)
  (s : release_scan) : release_scan := {|
  rs_builds := rs_builds s ++ [{| b_Name := product; b_Version := version; b_OS := osName;
                                  b_Arch := arch; b_Filename := a_Name a; b_URL := a_URL a |}];
  rs_sums := rs_sums s; rs_sig := rs_sig s; rs_perFile := rs_perFile s |}.

(** One turn of the loop over the assets: the first pattern that matches the
    name decides, even when the product is another one. *)
Definition scan_asset (productName version : string) (s : release_scan) (a : gitHubAsset)
  : release_scan :=
  let name := a_Name a in
  let ours product := equal_fold product productName in
  match find_submatch binaryZipRE name with
  | Some [product; _; osName; arch] =>
      if ours product then add_build version product osName arch a s else s
  | Some _ => s
  | None =>
  match find_submatch tfDocsArchiveRE name with
  | Some [product; _; osName; arch] =>
      if ours product then add_build version product osName arch a s else s
  | Some _ => s
  | None =>
  match find_submatch perFileSHA256RE name with
  | Some [file] => {| rs_builds := rs_builds s; rs_sums := rs_sums s; rs_sig := rs_sig s;
                      rs_perFile := <[file := a_URL a]> (rs_perFile s) |}
  | Some _ => s
  | None =>
  let set_sums := {| rs_builds := rs_builds s; rs_sums := a_URL a; rs_sig := rs_sig s;
                     rs_perFile := rs_perFile s |} in
  match find_submatch sha256sumsRE name with
  | Some (product :: _) => if ours product then set_sums else s
  | Some [] => s
  | None =>
  match find_submatch tfDocsSumsRE name with
  | Some (product :: _) => if ours product then set_sums else s
  | Some [] => s
  | None =>
  match find_submatch sha256sumsSigRE name with
  | Some (product :: _) =>
      if ours product
      then {| rs_builds := rs_builds s; rs_sums := rs_sums s; rs_sig := a_URL a;
              rs_perFile := rs_perFile s |}
      else s
  | Some [] => s
  | None =>
  match find_submatch bareBinaryRE name with
  | Some [product; osName; arch] =>
      if ours product then add_build version product osName arch a s else s
  | _ => s
  end end end end end end end.

Definition parseRelease (productName : string) (rel : gitHubRelease)
  : option TerraformVersionInfo :=
  let version := trim_prefix (TagName rel) "v" in
  let s := fold_left (scan_asset productName version) (Assets rel)
             {| rs_builds := []; rs_sums := ""; rs_sig := ""; rs_perFile := ∅ |} in
  match rs_builds s with
  | [] => None
  | builds =>
      Some {| vi_Version := version; vi_SHASumsURL := rs_sums s; vi_SHASumsSignature := rs_sig s;
              vi_SHASumsSignatures := []; vi_Builds := builds;
              vi_PerFileSHAURLs := if String.eqb (rs_sums s) "" then rs_perFile s else ∅ |}
  end.

(** ** The network *)

Class Http (Y : Type) := {
  (** GET: a transport error, or the status and what reading the body gives *)
  http_get : string -> prog Y (res (Z * res string));
  (** GET with the long time-out of the download client *)
  http_download : string -> prog Y (res (Z * res string));
}.

(** [encoding/json] on the upstream documents; in the index, an entry that does
    not decode is passed over ([None]). *)
Class ReleaseCodec := {
  decode_index : string -> res (list (string * option TerraformIndexVersion));
  decode_releases : string -> res (list gitHubRelease);
  decode_release : string -> res gitHubRelease;
}.

(** [io.ReadAll(io.LimitReader(body, n))] *)
Definition read_limited (n : Z) (body : res string) : res string :=
  match body with
  | Ok s => Ok (if Z.of_nat (String.length s) <=? n then s else stake (Z.to_nat n) s)
  | Err e => Err e
  end.

Section Clients.
Context {Y : Type} `{Http Y} `{ReleaseCodec}.

(** A GET whose status must be 200 and whose body is read up to a cap. *)
Definition fetch_ok (what : string) (n : Z) (url : string) : prog Y (res string) :=
  let! r := http_get url in
  match r with
  | Err e => ret (Err (ErrWrap what e))
  | Ok (status, body) =>
      if negb (status =? 200) then ret (Err (ErrMsg (what +:+ ": upstream returned an error")))
      else ret (read_limited n body)
  end.

Definition download_stream (url : string) : prog Y (res (res string)) :=
  let! r := http_download url in
  match r with
  | Err e => ret (Err (ErrWrap "failed to download binary" e))
  | Ok (status, body) =>
      if negb (status =? 200) then ret (Err (ErrMsg "upstream returned an error for binary download"))
      else ret (Ok body)
  end.

(** The caps stated in the code: 64 MB index, 1 MB checksums, 64 KB signature,
    256 bytes of a sidecar. *)
Definition maxTerraformIndexBytes : Z := (64 * 2^20).
Definition maxSums : Z := (2^20).
Definition maxSig : Z := 65536.
Definition maxUpstreamResponseBytes : Z := (10 * 2^20).

(** *** releases.hashicorp.com and its like *)

Definition version_info (UpstreamURL ProductName : string)
  (e : string * option TerraformIndexVersion) : option TerraformVersionInfo :=
  let '(versionStr, entry) := e in
  match entry with
  | None => None
  | Some ix =>
      let url := if negb (String.eqb (ix_SHASums ix) "") && negb (has_prefix (ix_SHASums ix) "http")
                 then UpstreamURL +:+ "/" +:+ ProductName +:+ "/" +:+ versionStr +:+ "/" +:+ ix_SHASums ix
                 else ix_SHASums ix in
      Some {| vi_Version := if String.eqb (ix_Version ix) "" then versionStr else ix_Version ix;
              vi_SHASumsURL := url; vi_SHASumsSignature := ix_SHASumsSignature ix;
              vi_SHASumsSignatures := ix_SHASumsSignatures ix; vi_Builds := ix_Builds ix;
              vi_PerFileSHAURLs := ∅ |}
  end.

Definition hc_ListVersions (UpstreamURL ProductName : string)
  : prog Y (res (list TerraformVersionInfo)) :=
  let? raw := fetch_ok "failed to fetch terraform index" maxTerraformIndexBytes
                (UpstreamURL +:+ "/" +:+ ProductName +:+ "/index.json") in
  match decode_index raw with
  | Err e => ret (Err (ErrWrap "failed to read index" e))
  | Ok entries => ret (Ok (omap (version_info UpstreamURL ProductName) entries))
  end.

Definition sums_url (UpstreamURL ProductName version : string) : string :=
  UpstreamURL +:+ "/" +:+ ProductName +:+ "/" +:+ version +:+ "/" +:+
  ProductName +:+ "_" +:+ version +:+ "_SHA256SUMS".

Definition hc_FetchSHASums (UpstreamURL ProductName version : string)
  : prog Y (res (gmap string string * string)) :=
  let? raw := fetch_ok "failed to fetch shasums" maxSums
                (sums_url UpstreamURL ProductName version) in
  ret (Ok (ParseSHASums raw, raw)).

Definition hc_FetchSHASumsSignature (UpstreamURL ProductName version : string)
  : prog Y (res string) :=
  fetch_ok "failed to fetch signature" maxSig
    (sums_url UpstreamURL ProductName version +:+ ".72D7468F.sig").

(** *** GitHub *)

Definition fetchReleasesPage (Owner Repo : string) (page : Z)
  : prog Y (res (list gitHubRelease)) :=
  let? raw := fetch_ok "failed to call GitHub releases API" maxUpstreamResponseBytes
                ("https://api.github.com/repos/" +:+ Owner +:+ "/" +:+ Repo +:+
                 "/releases?per_page=100&page=" +:+ show page) in
  match decode_releases raw with
  | Err e => ret (Err (ErrWrap "failed to decode GitHub releases response" e))
  | Ok releases => ret (Ok releases)
  end.

(** [ListVersions] asks for page after page until a short one: the fuel bounds
    the number of pages, [None] says it ran out. *)
Fixpoint gh_pages (Owner Repo ProductName : string) (fuel : nat) (page : Z)
  (allVersions : list TerraformVersionInfo) : prog Y (option (res (list TerraformVersionInfo))) :=
  match fuel with
  | O => ret None
  | S fuel' =>
      let! r := fetchReleasesPage Owner Repo page in
      match r with
      | Err e => ret (Some (Err e))
      | Ok releases =>
          let found := omap (parseRelease ProductName)
                         (List.filter (fun rel => negb (Draft rel)) releases) in
          if (length releases =? 0)%nat then ret (Some (Ok allVersions))
          else if (length releases <? 100)%nat then ret (Some (Ok (allVersions ++ found)))
          else gh_pages Owner Repo ProductName fuel' (page + 1) (allVersions ++ found)
      end
  end.

Definition gh_ListVersions (Owner Repo ProductName : string) (fuel : nat)
  : prog Y (option (res (list TerraformVersionInfo))) :=
  gh_pages Owner Repo ProductName fuel 1 [].

Definition fetchReleaseByTag (Owner Repo tag : string) : prog Y (res gitHubRelease) :=
  let? raw := fetch_ok "release by tag" maxUpstreamResponseBytes
                ("https://api.github.com/repos/" +:+ Owner +:+ "/" +:+ Repo +:+
                 "/releases/tags/" +:+ tag) in
  ret (decode_release raw).

(** The first of the tags that can be fetched. *)
Fixpoint first_release (Owner Repo : string) (tags : list string)
  : prog Y (option gitHubRelease) :=
  match tags with
  | [] => ret None
  | tag :: tags' =>
      let! r := fetchReleaseByTag Owner Repo tag in
      match r with
      | Ok rel => ret (Some rel)
      | Err _ => first_release Owner Repo tags'
      end
  end.

Definition release_tags (version : string) : list string := ["v" +:+ version; version].

(** The first asset, in release order, one of whose patterns matches with our
    product. *)
Definition asset_is (ProductName : string) (patterns : list (list item)) (a : gitHubAsset) : bool :=
  List.existsb (fun re => match find_submatch re (a_Name a) with
                          | Some (product :: _) => equal_fold product ProductName
                          | _ => false
                          end) patterns.

Definition findAssetURL (Owner Repo ProductName version : string) (patterns : list (list item))
  : prog Y (res string) :=
  let! found := first_release Owner Repo (release_tags version) in
  match found with
  | None => ret (Ok "")
  | Some rel =>
      match List.find (asset_is ProductName patterns) (Assets rel) with
      | Some a => ret (Ok (a_URL a))
      | None => ret (Ok "")
      end
  end.

(** A call that may also panic: [None] is a run-time panic. *)
Definition sidecar_hash (raw : string) : option string :=
  match fields raw with
  | [] => None
  | hash :: _ => Some (trim_space hash)
  end.

Fixpoint sidecars (assets : list gitHubAsset) (sums : gmap string string) (combined : string)
  : prog Y (option (gmap string string * string)) :=
  match assets with
  | [] => ret (Some (sums, combined))
  | a :: assets' =>
      match find_submatch perFileSHA256RE (a_Name a) with
      | Some [binaryFilename] =>
          let! r := fetch_ok "sidecar" 256 (a_URL a) in
          match r with
          | Err _ => sidecars assets' sums combined
          | Ok raw =>
              match sidecar_hash raw with
              | None => ret None
              | Some hash =>
                  sidecars assets' (<[binaryFilename := hash]> sums)
                    (combined +:+ hash +:+ "  " +:+ binaryFilename +:+ String newline "")
              end
          end
      | _ => sidecars assets' sums combined
      end
  end.

Definition fetchPerFileSHASums (Owner Repo version : string)
  : prog Y (option (res (gmap string string * string))) :=
  let! found := first_release Owner Repo (release_tags version) in
  match found with
  | None => ret (Some (Err (ErrMsg "no release found for version")))
  | Some rel =>
      let! r := sidecars (Assets rel) ∅ "" in
      match r with
      | None => ret None
      | Some (sums, combined) =>
          if bool_decide (sums = ∅)
          then ret (Some (Err (ErrMsg "no SHA256SUMS or .sha256 sidecar files found")))
          else ret (Some (Ok (sums, combined)))
      end
  end.

Definition gh_FetchSHASums (Owner Repo ProductName version : string)
  : prog Y (option (res (gmap string string * string))) :=
  let! u := findAssetURL Owner Repo ProductName version [sha256sumsRE; tfDocsSumsRE] in
  match u with
  | Err e => ret (Some (Err e))
  | Ok sumsURL =>
      if negb (String.eqb sumsURL "")
      then let! r := fetch_ok "failed to fetch SHA256SUMS" maxSums sumsURL in
           match r with
           | Err e => ret (Some (Err e))
           | Ok raw => ret (Some (Ok (ParseSHASums raw, raw)))
           end
      else fetchPerFileSHASums Owner Repo version
  end.

Definition gh_FetchSHASumsSignature (Owner Repo ProductName version : string)
  : prog Y (res string) :=
  let? sigURL := findAssetURL Owner Repo ProductName version [sha256sumsSigRE] in
  if String.eqb sigURL "" then ret (Err (ErrMsg "no SHA256SUMS signature asset found"))
  else fetch_ok "failed to fetch signature" maxSig sigURL.
End Clients.

(** ** Checksum files: what is written is what is read *)

(** A non-empty text without white space. *)
Fixpoint no_space (s : string) : bool :=
  match s with EmptyString => true | String c s' => negb (is_space c) && no_space s' end.
Definition word (s : string) : Prop := s <> "" /\ no_space s = true.

Definition sums_entry (e : string * string) : string :=
  fst e +:+ "  " +:+ snd e +:+ String newline "".

(** A file of ["<hash>  <file>"] lines. *)
Fixpoint render_sums (es : list (string * string)) : string :=
  match es with
  | [] => ""
  | e :: es' => sums_entry e +:+ render_sums es'
  end.

Definition sums_map (es : list (string * string)) (m : gmap string string) : gmap string string :=
  fold_left (fun m e => <[snd e := fst e]> m) es m.

Lemma no_space_app a b : no_space (a +:+ b) = no_space a && no_space b.
Proof.
  induction a as [|c a IH]; [done|]. rewrite append_cons. cbn [no_space].
  by rewrite IH, andb_assoc.
Qed.

Lemma fields_word w acc rest :
  no_space w = true -> fields_from acc (w +:+ rest) = fields_from (acc +:+ w) rest.
Proof.
  revert acc. induction w as [|c w IH]; intros acc Hw.
  - by rewrite append_nil_r, append_nil_l.
  - cbn [no_space] in Hw. bools. rewrite append_cons. cbn [fields_from].
    rewrite H, IH by done. rewrite append_assoc_s. reflexivity.
Qed.

Lemma fields_flush w rest :
  w <> "" -> is_space " " = true -> fields_from w (" " +:+ rest) = w :: fields_from "" rest.
Proof.
  intros Hw _. change (" " +:+ rest) with (String " " rest). cbn [fields_from is_space].
  destruct w; [done | reflexivity].
Qed.

Lemma fields_line h f : word h -> word f -> fields (h +:+ "  " +:+ f) = [h; f].
Proof.
  intros [Hh Nh] [Hf Nf]. unfold fields. rewrite fields_word, append_nil_l by done.
  change ("  " +:+ f) with (" " +:+ (" " +:+ f)).
  rewrite fields_flush by done. f_equal.
  change (" " +:+ f) with (String " " f). cbn [fields_from is_space].
  change (fields_from "" f = [f]). rewrite <- (append_nil_r f) at 1.
  rewrite fields_word, append_nil_l by done. cbn [fields_from]. by destruct f.
Qed.

Lemma no_space_last s c : no_space s = true -> last_char s = Some c -> is_space c = false.
Proof.
  induction s as [|d s IH]; [done|]. cbn [no_space last_char]. intros Hn Hl. bools.
  destruct s as [|e s]; [congruence | by apply IH].
Qed.

Lemma last_char_some s : s <> "" -> exists c, last_char s = Some c.
Proof.
  induction s as [|d s IH]; [done|]. intros _. destruct s as [|e s]; [by exists d|].
  apply IH. done.
Qed.

Lemma trim_line h f : word h -> word f -> trim_space (h +:+ "  " +:+ f) = h +:+ "  " +:+ f.
Proof.
  intros [Hh Nh] [Hf Nf]. destruct h as [|c h]; [done|].
  destruct (last_char_some f Hf) as [d Hd]. rewrite append_cons.
  cbn [no_space] in Nh. bools.
  apply (trim_space_id _ _ d); [done | | by eapply no_space_last].
  rewrite <- append_cons. rewrite last_char_app.
  - change ("  " +:+ f) with (String " " " " +:+ f). by rewrite last_char_app.
  - change ("  " +:+ f) with (String " " (" " +:+ f)). done.
Qed.

Lemma newline_space : is_space newline = true.
Proof. reflexivity. Qed.

(** No newline in [s]. *)
Fixpoint one_line (s : string) : bool :=
  match s with EmptyString => true | String c s' => negb (Ascii.eqb c newline) && one_line s' end.

Lemma no_space_one_line s : no_space s = true -> one_line s = true.
Proof.
  induction s as [|c s IH]; [done|]. cbn [no_space one_line]. intros Hn. bools.
  rewrite IH by done. rewrite andb_true_r. apply negb_true_iff, Ascii.eqb_neq.
  intros ->. by rewrite newline_space in H.
Qed.

Lemma one_line_app a b : one_line (a +:+ b) = one_line a && one_line b.
Proof.
  induction a as [|c a IH]; [done|]. rewrite append_cons. cbn [one_line].
  by rewrite IH, andb_assoc.
Qed.

Lemma split_line l rest :
  one_line l = true ->
  split_on newline (l +:+ String newline "" +:+ rest) = l :: split_on newline rest.
Proof.
  induction l as [|c l IH]; intros Hl.
  - rewrite append_nil_l, append_cons, append_nil_l. cbn [split_on].
    by rewrite Ascii.eqb_refl.
  - cbn [one_line] in Hl. bools. rewrite append_cons. cbn [split_on].
    rewrite H, IH by done. reflexivity.
Qed.

Lemma sums_line_entry m h f :
  word h -> word f -> sums_line m (h +:+ "  " +:+ f) = <[f := h]> m.
Proof.
  intros Hh Hf. unfold sums_line. rewrite trim_line, fields_line by done.
  destruct h as [|c h]; [by destruct Hh|]. reflexivity.
Qed.

Lemma entry_assoc (a b c d e : string) :
  (a +:+ b +:+ c +:+ d) +:+ e = (a +:+ b +:+ c) +:+ d +:+ e.
Proof. by rewrite !append_assoc_s. Qed.

Lemma parse_render es :
  Forall (fun e => word (fst e) /\ word (snd e)) es ->
  ParseSHASums (render_sums es) = sums_map es ∅.
Proof.
  unfold ParseSHASums, sums_map. generalize (∅ : gmap string string).
  induction es as [|[h f] es IH]; intros m Hes; [reflexivity|].
  apply Forall_cons in Hes as [[Hh Hf] Hes]. cbn [fst snd] in *.
  cbn [render_sums]. unfold sums_entry. cbn [fst snd].
  assert (Ho : one_line (h +:+ "  " +:+ f) = true).
  { rewrite !one_line_app. destruct Hh as [_ Hh], Hf as [_ Hf].
    by rewrite (no_space_one_line h Hh), (no_space_one_line f Hf). }
  rewrite (entry_assoc h "  " f (String newline "")). rewrite split_line by exact Ho. cbn [fold_left fst snd].
  rewrite sums_line_entry by done. apply IH, Hes.
Qed.

Lemma sums_map_lookup es m :
  NoDup (snd <$> es) -> forall h f, In (h, f) es -> sums_map es m !! f = Some h.
Proof.
  unfold sums_map. revert m. induction es as [|[h' f'] es IH]; intros m Hnd h f Hin; [done|].
  cbn [fmap list_fmap fst snd] in Hnd. apply NoDup_cons in Hnd as [Hnot Hnd].
  destruct Hin as [[= -> ->]|Hin]; [|by apply IH].
  cbn [fold_left fst snd]. clear IH Hnd. revert m.
  induction es as [|[h2 f2] es IH] using rev_ind; intros m.
  - cbn. by rewrite lookup_insert_eq.
  - rewrite fold_left_app. cbn [fold_left fst snd].
    rewrite fmap_app, not_elem_of_app in Hnot. destruct Hnot as [Hn1 Hn2].
    rewrite lookup_insert_ne; [by apply IH|].
    intros ->. apply Hn2. cbn. apply list_elem_of_singleton. done.
Qed.

(** a checksum file made of ["<hash>  <file>"] lines reads back as the map
    from each file name to its hash, whatever the hashes and file names, as long
    as they are non-empty and free of white space. *)
Theorem sums_file_reads_back (es : list (string * string)) :
  Forall (fun e => word (fst e) /\ word (snd e)) es ->
  NoDup (snd <$> es) ->
  forall h f, In (h, f) es -> ParseSHASums (render_sums es) !! f = Some h.
Proof. intros Hes Hnd h f Hin. rewrite parse_render by done. by apply sums_map_lookup. Qed.

Theorem sums_file_reads_back_witness :
  ParseSHASums (render_sums [("ab12", "t_1_linux_amd64.zip"); ("cd34", "t_1_darwin_arm64.zip")])
    !! "t_1_darwin_arm64.zip" = Some "cd34".
Proof.
  apply (sums_file_reads_back [("ab12", "t_1_linux_amd64.zip"); ("cd34", "t_1_darwin_arm64.zip")]).
  - repeat constructor; done.
  - apply (bool_decide_eq_true_1 _). vm_compute. reflexivity.
  - right. by left.
Defined.

(** ** Sidecar checksums *)

Lemma fields_from_words w s :
  no_space w = true -> Forall (fun x => word x) (fields_from w s).
Proof.
  revert w. induction s as [|c s IH]; intros w Hw; cbn [fields_from].
  - destruct w; cbn; constructor; [by split | constructor].
  - destruct (is_space c) eqn:E.
    + destruct w as [|d w]; [by apply IH|]. constructor; [by split | by apply IH].
    + apply IH. rewrite no_space_app, Hw. cbn. by rewrite E.
Qed.

Lemma word_trim w : word w -> trim_space w = w.
Proof.
  intros [Hw Nw]. destruct w as [|c w]; [done|].
  destruct (last_char_some (String c w)) as [d Hd]; [done|].
  pose proof (no_space_last _ _ Nw Hd). cbn [no_space] in Nw. bools.
  by apply (trim_space_id _ _ d).
Qed.

Lemma sidecar_hash_word raw h : sidecar_hash raw = Some h -> word h.
Proof.
  unfold sidecar_hash, fields. pose proof (fields_from_words "" raw eq_refl) as Q.
  destruct (fields_from "" raw) as [|w ws]; [done|]. intros [= <-].
  apply Forall_cons in Q as [Qw _]. by rewrite word_trim.
Qed.

Lemma render_sums_snoc es e : render_sums (es ++ [e]) = render_sums es +:+ sums_entry e.
Proof.
  induction es as [|e' es IH]; cbn [render_sums app].
  - by rewrite append_nil_r, append_nil_l.
  - by rewrite IH, append_assoc_s.
Qed.

Section Clients.
Context {Y : Type} `{Http Y} `{ReleaseCodec}.

(** The names of the files that have a sidecar among the assets. *)
Definition sidecar_names (assets : list gitHubAsset) : list string :=
  omap (fun a => match find_submatch perFileSHA256RE (a_Name a) with
                 | Some [file] => Some file | _ => None end) assets.

Lemma sidecars_render assets : forall es y sums combined y',
  Forall word (sidecar_names assets) ->
  Forall (fun e => word (fst e) /\ word (snd e)) es ->
  sidecars assets (sums_map es ∅) (render_sums es) y = (Some (sums, combined), y') ->
  exists es', Forall (fun e => word (fst e) /\ word (snd e)) es' /\
              sums = sums_map es' ∅ /\ combined = render_sums es'.
Proof.
  induction assets as [|a assets IH]; intros es y sums combined y' Hw Hes; cbn [sidecars].
  - intros [= <- <- _]. by exists es.
  - unfold sidecar_names in Hw. cbn [omap list_omap] in Hw.
    destruct (find_submatch perFileSHA256RE (a_Name a)) as [[|file [|]]|];
      [by apply IH | | by apply IH | by apply IH].
    apply Forall_cons in Hw as [Hfile Hw]. unfold bind.
    destruct (fetch_ok "sidecar" 256 (a_URL a) y) as [[raw|e] y1]; cbn [fst snd]; [|by apply IH].
    destruct (sidecar_hash raw) as [hash|] eqn:Eh; [|by intros [=]].
    apply sidecar_hash_word in Eh. intros Q.
    apply (IH (es ++ [(hash, file)]) y1 sums combined y'); [done | |].
    + apply Forall_app. split; [done|]. constructor; [done | constructor].
    + unfold sums_map in *. rewrite fold_left_app, render_sums_snoc. exact Q.
Qed.

(** the combined checksum text the GitHub client synthesises from per-file
    [.sha256] sidecars (it is stored and served as the release's SHA256SUMS) reads
    back as exactly the checksum map the sync verifies binaries against. *)
Theorem sidecar_text_reads_back (Owner Repo version : string) (y y' : Y) rel y1 sums combined :
  first_release Owner Repo (release_tags version) y = (Some rel, y1) ->
  Forall word (sidecar_names (Assets rel)) ->
  fetchPerFileSHASums Owner Repo version y = (Some (Ok (sums, combined)), y') ->
  sums <> ∅ /\ ParseSHASums combined = sums.
Proof.
  intros Hrel Hw. unfold fetchPerFileSHASums, bind. rewrite Hrel. cbn [fst snd].
  destruct (sidecars (Assets rel) ∅ "" y1) as [[[s c]|] y2] eqn:Es; cbn [fst snd]; [|by intros [=]].
  case_bool_decide as Ene; intros [= <- <- _]. split; [done|].
  destruct (sidecars_render (Assets rel) [] y1 s c y2) as (es & Hes & -> & ->);
    [done | constructor | exact Es |]. by apply parse_render.
Qed.

(** a blank sidecar file makes the GitHub client panic: [strings.Fields] of a
    white-space body is empty and its first element is read unconditionally, and
    this is the only way the loop over the sidecars panics. *)
Theorem blank_sidecar_panics (assets : list gitHubAsset) sums combined (y : Y) :
  (exists y', sidecars assets sums combined y = (None, y')) <->
  (exists pre a post file sums' combined' y1 raw y2,
     assets = pre ++ a :: post /\
     find_submatch perFileSHA256RE (a_Name a) = Some [file] /\
     sidecars pre sums combined y = (Some (sums', combined'), y1) /\
     fetch_ok "sidecar" 256 (a_URL a) y1 = (Ok raw, y2) /\ fields raw = []).
Proof.
  revert sums combined y. induction assets as [|a assets IH]; intros sums combined y.
  { split; [by intros [? [=]]|]. intros (pre & a & post & ? & ? & ? & ? & ? & ? & E & _).
    by destruct pre. }
  assert (Hskip : forall y0 s0 c0,
    sidecars [a] sums combined y = (Some (s0, c0), y0) ->
    sidecars (a :: assets) sums combined y = sidecars assets s0 c0 y0 ->
    (forall file raw y2, find_submatch perFileSHA256RE (a_Name a) = Some [file] ->
       fetch_ok "sidecar" 256 (a_URL a) y = (Ok raw, y2) -> fields raw <> []) ->
    (forall pre, sidecars (a :: pre) sums combined y = sidecars pre s0 c0 y0) ->
    (exists y', sidecars (a :: assets) sums combined y = (None, y')) <->
    (exists pre a' post file sums' combined' y1 raw y2,
     a :: assets = pre ++ a' :: post /\
     find_submatch perFileSHA256RE (a_Name a') = Some [file] /\
     sidecars pre sums combined y = (Some (sums', combined'), y1) /\
     fetch_ok "sidecar" 256 (a_URL a') y1 = (Ok raw, y2) /\ fields raw = [])).
  { intros y0 s0 c0 _ -> Hnb Hpre. rewrite IH. split.
    - intros (pre & a' & post & file & s' & c' & y1 & raw & y2 & -> & Hf & Hp & Hg & Hr).
      exists (a :: pre), a', post, file, s', c', y1, raw, y2.
      split; [done|]. rewrite Hpre. done.
    - intros (pre & a' & post & file & s' & c' & y1 & raw & y2 & E & Hf & Hp & Hg & Hr).
      destruct pre as [|b pre].
      + injection E as <- <-. injection Hp as <- <- <-. by destruct (Hnb _ _ _ Hf Hg).
      + injection E as <- ->. rewrite Hpre in Hp.
        by exists pre, a', post, file, s', c', y1, raw, y2. }
  destruct (find_submatch perFileSHA256RE (a_Name a)) as [m|] eqn:Em.
  2:{ apply (Hskip y sums combined); cbn [sidecars]; rewrite ?Em; try done;
        intros pre; cbn [sidecars]; by rewrite ?Em. }
  destruct m as [|file [|? ?]].
  1,3: apply (Hskip y sums combined); cbn [sidecars]; rewrite ?Em; try done;
       intros pre; cbn [sidecars]; by rewrite ?Em.
  destruct (fetch_ok "sidecar" 256 (a_URL a) y) as [[raw|e] y1] eqn:Ef.
  2:{ apply (Hskip y1 sums combined); cbn [sidecars]; rewrite ?Em; unfold bind;
        rewrite ?Ef; cbn [fst snd]; try done;
        intros pre; cbn [sidecars]; rewrite ?Em; unfold bind; by rewrite ?Ef. }
  destruct (sidecar_hash raw) as [hash|] eqn:Eh.
  - eapply (Hskip y1); cbn [sidecars]; rewrite ?Em; unfold bind; rewrite ?Ef; cbn [fst snd];
      rewrite ?Eh; try done.
    intros file' raw' y2 _ [= <- _]. unfold sidecar_hash in Eh. by destruct (fields raw).
  - split; intros _.
    + exists [], a, assets, file, sums, combined, y, raw, y1. repeat split; try done.
      unfold sidecar_hash in Eh. by destruct (fields raw).
    + cbn [sidecars]. rewrite ?Em. unfold bind. rewrite Ef. cbn [fst snd]. rewrite Eh. by exists y1.
Qed.
End Clients.

(** ** Asset names *)

(** A non-empty name part of a class. *)
Definition part (p : ascii -> bool) (s : string) : Prop := s <> "" /\ every p s = true.

Definition zip_name (product version osName arch : string) : string :=
  product +:+ "_" +:+ version +:+ "_" +:+ osName +:+ "_" +:+ arch +:+ ".zip".

Lemma every_app p a b : every p (a +:+ b) = every p a && every p b.
Proof.
  induction a as [|c a IH]; [done|]. rewrite append_cons. cbn [every].
  by rewrite IH, andb_assoc.
Qed.

Lemma zip_assoc (p v o a : string) :
  zip_name p v o a =
    (p +:+ "_" +:+ v +:+ "_" +:+ o) +:+ String "_" (a +:+ ".zip") /\
  p +:+ "_" +:+ v +:+ "_" +:+ o = (p +:+ "_" +:+ v) +:+ String "_" o /\
  p +:+ "_" +:+ v = p +:+ String "_" v.
Proof. unfold zip_name. rewrite !append_assoc_s. done. Qed.

Lemma zip_name_unique p v o a p' v' o' a' :
  every no_underscore v = true -> every no_underscore o = true -> every no_underscore a = true ->
  every no_underscore v' = true -> every no_underscore o' = true -> every no_underscore a' = true ->
  zip_name p v o a = zip_name p' v' o' a' -> p = p' /\ v = v' /\ o = o' /\ a = a'.
Proof.
  intros Hv Ho Ha Hv' Ho' Ha' Q.
  destruct (zip_assoc p v o a) as (E1 & E2 & E3).
  destruct (zip_assoc p' v' o' a') as (E1' & E2' & E3').
  rewrite E1, E1' in Q. apply (last_split_unique "_") in Q as [Q Qa];
    [|change (every no_underscore (a +:+ ".zip") = true); by rewrite every_app, Ha
     |change (every no_underscore (a' +:+ ".zip") = true); by rewrite every_app, Ha'].
  rewrite E2, E2' in Q. apply (last_split_unique "_") in Q as [Q Qo]; [|done..].
  rewrite E3, E3' in Q. apply (last_split_unique "_") in Q as [Q Qv]; [|done..].
  apply append_inj_r in Qa. done.
Qed.

Lemma zip_captures s m :
  find_submatch binaryZipRE s = Some m ->
  exists p v o a, s = zip_name p v o a /\ m = [p; v; o; a] /\
    part dot p /\ part no_underscore v /\ part no_underscore o /\ part no_underscore a.
Proof.
  unfold find_submatch, binaryZipRE. intros Q.
  apply group_captures in Q as (p & t1 & m1 & -> & Hp & Ap & -> & Q).
  apply lit_captures in Q as (t2 & -> & Q).
  apply group_captures in Q as (v & t3 & m2 & -> & Hv & Av & -> & Q).
  apply lit_captures in Q as (t4 & -> & Q).
  apply group_captures in Q as (o & t5 & m3 & -> & Ho & Ao & -> & Q).
  apply lit_captures in Q as (t6 & -> & Q).
  apply group_captures in Q as (a & t7 & m4 & -> & Ha & Aa & -> & Q).
  apply lit_captures in Q as (t8 & -> & Q).
  cbn [run_re] in Q. destruct t8; [|done]. injection Q as <-.
  exists p, v, o, a. unfold part. rewrite append_nil_r. done.
Qed.

Lemma zip_name_matches p v o a :
  part dot p -> part no_underscore v -> part no_underscore o -> part no_underscore a ->
  find_submatch binaryZipRE (zip_name p v o a) = Some [p; v; o; a].
Proof.
  intros [Hp Ap] [Hv Av] [Ho Ao] [Ha Aa].
  assert (Hd : denotes binaryZipRE (zip_name p v o a)).
  { unfold binaryZipRE, zip_name.
    apply denotes_group; [done | done |]. apply den_lit.
    apply denotes_group; [done | done |]. apply den_lit.
    apply denotes_group; [done | done |]. apply den_lit.
    apply denotes_group; [done | done |]. rewrite <- (append_nil_r ".zip").
    apply den_lit, den_nil. }
  apply find_submatch_denotes in Hd as [m Hm].
  destruct (zip_captures _ _ Hm) as (p' & v' & o' & a' & E & -> & _ & [_ Av'] & [_ Ao'] & [_ Aa']).
  apply zip_name_unique in E as (-> & -> & -> & ->); done.
Qed.

(** What a scan has recorded is never lost, and a build is one of the assets. *)
Definition builds_from (version productName : string) (assets : list gitHubAsset)
  (b : TerraformReleaseBuild) : Prop :=
  b_Version b = version /\ equal_fold (b_Name b) productName = true /\
  exists a, In a assets /\ b_Filename b = a_Name a /\ b_URL b = a_URL a.

Lemma scan_asset_builds productName version s a :
  rs_builds (scan_asset productName version s a) = rs_builds s \/
  exists b, rs_builds (scan_asset productName version s a) = rs_builds s ++ [b] /\
            builds_from version productName [a] b.
Proof.
  unfold scan_asset.
  repeat match goal with
  | |- context [match find_submatch ?r ?n with _ => _ end] =>
      destruct (find_submatch r n) as [[|? [|? [|? [|? [|? ?]]]]]|]
  | |- context [if equal_fold ?x ?y then _ else _] => destruct (equal_fold x y) eqn:?
  end; cbn [rs_builds add_build]; try (left; reflexivity);
  right; eexists; (split; [reflexivity|]); unfold builds_from; cbn;
  (split; [done|]); (split; [done|]); exists a; (split; [by left | done]).
Qed.

Lemma scan_keeps productName version assets s b :
  In b (rs_builds s) -> In b (rs_builds (fold_left (scan_asset productName version) assets s)).
Proof.
  revert s. induction assets as [|a assets IH]; intros s Hb; [done|]. cbn [fold_left].
  apply IH. destruct (scan_asset_builds productName version s a) as [->|(b' & -> & _)]; [done|].
  apply in_or_app. by left.
Qed.

Lemma scan_from productName version assets s b :
  In b (rs_builds (fold_left (scan_asset productName version) assets s)) ->
  In b (rs_builds s) \/ builds_from version productName assets b.
Proof.
  revert s. induction assets as [|a assets IH]; intros s; cbn [fold_left]; [by left|].
  intros Hb. apply IH in Hb as [Hb|(Hv & Hn & a' & Ha' & Hf & Hu)].
  - destruct (scan_asset_builds productName version s a) as [E|(b' & E & Hv & Hn & a' & Ha' & Hf & Hu)];
      rewrite E in Hb; [by left|].
    apply in_app_or in Hb as [Hb|[<-|[]]]; [by left | right].
    split; [done|]. split; [done|]. exists a'.
    destruct Ha' as [<-|[]]. split; [by left | done].
  - right. split; [done|]. split; [done|]. exists a'. split; [by right | done].
Qed.

(** a GitHub release is translated soundly and its zips completely: every
    build of the result is one of the release's assets, of our product, under the
    release's version; and every asset named <product>_<version>_<os>_<arch>.zip of
    our product (product names may contain underscores) is listed with that
    operating system, architecture and download URL. *)
Theorem release_builds_are_its_assets (productName : string) (rel : gitHubRelease) :
  (forall vi b, parseRelease productName rel = Some vi -> In b (vi_Builds vi) ->
     builds_from (trim_prefix (TagName rel) "v") productName (Assets rel) b) /\
  (forall p v o a asset,
     part dot p -> part no_underscore v -> part no_underscore o -> part no_underscore a ->
     equal_fold p productName = true -> In asset (Assets rel) ->
     a_Name asset = zip_name p v o a ->
     exists vi, parseRelease productName rel = Some vi /\
       In {| b_Name := p; b_Version := trim_prefix (TagName rel) "v"; b_OS := o; b_Arch := a;
             b_Filename := a_Name asset; b_URL := a_URL asset |} (vi_Builds vi)).
Proof.
  unfold parseRelease. set (version := trim_prefix (TagName rel) "v").
  set (s0 := {| rs_builds := [] |}). split.
  - intros vi b. pose proof (scan_from productName version (Assets rel) s0 b) as Q.
    destruct (rs_builds _) as [|b0 bs]; [done|]. intros [= <-]. cbn [vi_Builds]. intros Hb.
    by destruct (Q Hb).
  - intros p v o a asset Hp Hv Ho Ha Hours Hin Hname.
    set (b := {| b_Name := p |}).
    assert (Hb : In b (rs_builds (fold_left (scan_asset productName version) (Assets rel) s0))).
    { apply in_split in Hin as (pre & post & ->). rewrite fold_left_app. cbn [fold_left].
      apply scan_keeps. unfold scan_asset at 1. rewrite Hname, zip_name_matches, Hours by done.
      cbn [rs_builds add_build]. apply in_or_app. right. left. unfold b. by rewrite Hname. }
    destruct (rs_builds _) as [|b0 bs]; [done|]. eexists. split; [reflexivity | exact Hb].
Qed.

Definition demo_release : gitHubRelease := {|
  TagName := "v1.9.0"; Draft := false;
  Assets := [{| a_Name := "tofu_1.9.0_SHA256SUMS"; a_URL := "u0" |};
             {| a_Name := "tofu_1.9.0_linux_amd64.zip"; a_URL := "u1" |};
             {| a_Name := "tofu_linux_arm64.sha256"; a_URL := "u2" |}] |}.

Theorem release_builds_are_its_assets_witness :
  exists vi, parseRelease "tofu" demo_release = Some vi /\
    In {| b_Name := "tofu"; b_Version := "1.9.0"; b_OS := "linux"; b_Arch := "amd64";
          b_Filename := "tofu_1.9.0_linux_amd64.zip"; b_URL := "u1" |} (vi_Builds vi).
Proof.
  apply (proj2 (release_builds_are_its_assets "tofu" demo_release) "tofu" "1.9.0" "linux" "amd64"
           {| a_Name := "tofu_1.9.0_linux_amd64.zip"; a_URL := "u1" |});
    try (by split); try reflexivity. right. by left.
Defined.

(** ** Paging *)

Section Paging.
Context {Y : Type} `{Http Y} `{ReleaseCodec} (Owner Repo ProductName : string).

(** The upstream answers the requests from [page] on with the given lists. *)
Definition serves (page : Z) (pages : list (list gitHubRelease)) : Prop :=
  forall (i : nat) y, (i < length pages)%nat -> exists y',
    fetchReleasesPage Owner Repo (page + Z.of_nat i) y = (Ok (nth i pages []), y').

Definition listed (rels : list gitHubRelease) : list TerraformVersionInfo :=
  omap (parseRelease ProductName) (List.filter (fun rel => negb (Draft rel)) rels).

Lemma omap_app_list {A B} (f : A -> option B) l k : omap f (l ++ k) = omap f l ++ omap f k.
Proof. apply omap_app. Qed.

Lemma listed_app l k : listed (l ++ k) = listed l ++ listed k.
Proof. unfold listed. by rewrite List.filter_app, omap_app_list. Qed.

Lemma gh_pages_collects full last fuel page acc y :
  serves page (full ++ [last]) ->
  Forall (fun p => length p = 100%nat) full -> (length last < 100)%nat ->
  (length full < fuel)%nat ->
  exists y', gh_pages Owner Repo ProductName fuel page acc y =
             (Some (Ok (acc ++ listed (mjoin full ++ last))), y').
Proof.
  revert full page acc y. induction fuel as [|fuel IH]; intros full page acc y Hs Hfull Hlast Hf; [lia|].
  cbn [gh_pages]. unfold bind. destruct (Hs 0%nat y) as [y1 E]; [rewrite length_app; cbn; lia|].
  rewrite Z.add_0_r in E. rewrite E. cbn [fst snd].
  destruct full as [|p full]; cbn [nth app].
  - destruct (Nat.eqb_spec (length last) 0) as [E0|E0].
    + destruct last; [|done]. exists y1. cbn. by rewrite app_nil_r.
    + destruct (Nat.ltb_spec (length last) 100); [by exists y1 | lia].
  - apply Forall_cons in Hfull as [Hp Hfull]. rewrite Hp. cbn [Nat.eqb].
    destruct (Nat.ltb_spec 100 100); [lia|].
    destruct (IH full (page + 1) (acc ++ listed p) y1) as [y2 E2]; [|done|done|cbn in Hf; lia|].
    + intros i y0 Hi. destruct (Hs (S i) y0) as [y3 E3]; [cbn; lia|]. exists y3.
      replace (page + 1 + Z.of_nat i) with (page + Z.of_nat (S i)) by lia. exact E3.
    + exists y2. unfold listed in E2 at 1. rewrite E2. cbn [mjoin list_join].
      rewrite <- app_assoc, <- listed_app. cbn. by rewrite app_assoc.
Qed.

(** listing a GitHub repository terminates and is complete: when the pages
    are full (100 releases) up to a last shorter one, as many requests as there
    are pages collect the non-draft releases of all of them, in order. *)
Theorem github_listing_complete (full : list (list gitHubRelease)) (last : list gitHubRelease) (y : Y) :
  serves 1 (full ++ [last]) ->
  Forall (fun p => length p = 100%nat) full -> (length last < 100)%nat ->
  forall fuel, (length full < fuel)%nat ->
  exists y', gh_ListVersions Owner Repo ProductName fuel y =
             (Some (Ok (listed (mjoin full ++ last))), y').
Proof.
  intros Hs Hfull Hlast fuel Hf. by apply (gh_pages_collects full last fuel 1 [] y).
Qed.
End Paging.

(** An upstream with one page. *)
#[local] Instance one_page_http : Http unit := {|
  http_get url := ret (Ok (200, Ok (if has_suffix url "page=1" then "1" else "0")));
  http_download url := ret (Ok (200, Ok ""));
|}.
#[local] Instance one_page_codec : ReleaseCodec := {|
  decode_index _ := Ok [];
  decode_releases s := Ok (if String.eqb s "1" then [demo_release] else []);
  decode_release _ := Ok demo_release;
|}.

Theorem github_listing_complete_witness :
  exists y', gh_ListVersions "o" "r" "tofu" 1 tt =
             (Some (Ok (listed "tofu" (mjoin [] ++ [demo_release]))), y').
Proof.
  apply (github_listing_complete (Y := unit) "o" "r" "tofu" [] [demo_release] tt).
  - intros [|i] y Hi; [|cbn in Hi; lia]. exists tt. destruct y. vm_compute. reflexivity.
  - constructor.
  - cbn. lia.
  - cbn. lia.
Defined.

(** A release with one sidecar. *)
Definition opa_release : gitHubRelease := {|
  TagName := "v1.0"; Draft := false;
  Assets := [{| a_Name := "opa_linux_amd64"; a_URL := "bin" |};
             {| a_Name := "opa_linux_amd64.sha256"; a_URL := "side" |}] |}.
#[local] Instance opa_http : Http nat := {|
  http_get url := ret (Ok (200, Ok (if String.eqb url "side" then "ab12 opa" else "release")));
  http_download url := ret (Ok (200, Ok ""));
|}.
#[local] Instance opa_codec : ReleaseCodec := {|
  decode_index _ := Ok [];
  decode_releases _ := Ok [];
  decode_release _ := Ok opa_release;
|}.

Theorem sidecar_text_reads_back_witness :
  <["opa_linux_amd64" := "ab12"]> ∅ <> (∅ : gmap string string) /\
  ParseSHASums ("ab12" +:+ "  " +:+ "opa_linux_amd64" +:+ String newline "") =
    <["opa_linux_amd64" := "ab12"]> ∅.
Proof.
  apply (sidecar_text_reads_back (H := opa_http) (H0 := opa_codec) "o" "r" "1.0" 0%nat 0%nat
           opa_release 0%nat).
  - reflexivity.
  - constructor; [split; [discriminate | reflexivity] | constructor].
  - vm_compute. reflexivity.
Defined.
