(* ===== verification/Checksums.v ===== *)
(** * Checksums

    [pkg/checksum/checksum.go], the checksum-file readers of
    [internal/jobs/mirror_sync.go] and [internal/validation/gpg.go], and how they
    relate to [ParseSHASums] of the release clients.  Archives are read through
    [ZipReader]: opening, reading and closing an entry is one step that gives its
    content or fails. *)

From S2P Require Import Prelude GoStrings SemVer TfReleases.
From stdpp Require Import gmap sorting.
From Stdlib Require Import OrderedTypeEx.

#[local] Open Scope Z_scope.

(** ** Interfaces *)

(** [archive/zip]: the entries of an archive in directory order. *)
Class ZipReader := zip_entries : string -> res (list (string * res string)).

(** The SHA-256 of a string in standard base64. *)
Class Sha256Base64 := sha256_base64 : string -> string.

(** ** Definitions *)

Section Checksum.
Context `{Sha256} `{Sha256Base64} `{ZipReader} `{GoSort}.

(** A reader is what reading it to the end gives. *)
Definition CalculateSHA256 (reader : res string) : res string :=
  match reader with
  | Err e => Err (ErrWrap "failed to calculate checksum" e)
  | Ok data => Ok (sha256_hex data)
  end.

Definition VerifySHA256 (reader : res string) (expectedChecksum : string) : res bool :=
  match CalculateSHA256 reader with
  | Err e => Err e
  | Ok actualChecksum => Ok (String.eqb actualChecksum expectedChecksum)
  end.

(** The manifest: one line per name, in the order given. *)
Fixpoint manifest (files : gmap string (res string)) (names : list string) : res string :=
  match names with
  | [] => Ok ""
  | name :: names' =>
      match files !! name with
      | None => Err (ErrMsg "nil file")
      | Some (Err e) => Err (ErrWrap ("failed to hash zip entry " +:+ name) e)
      | Some (Ok content) =>
          match manifest files names' with
          | Err e => Err e
          | Ok rest => Ok (sha256_hex content +:+ "  " +:+ name +:+ String newline "" +:+ rest)
          end
      end
  end.

(** [files[f.Name] = f] in order: the last entry of a name stays. *)
Definition files_of (es : list (string * res string)) : gmap string (res string) :=
  list_to_map (rev es).

Definition hashZipReader (es : list (string * res string)) : res string :=
  match manifest (files_of es) (go_sort String.ltb (fst <$> es)) with
  | Err e => Err e
  | Ok lines => Ok ("h1:" +:+ sha256_base64 lines)
  end.

Definition HashZip (zipContent : string) : res string :=
  match zip_entries zipContent with
  | Err e => Err (ErrWrap "failed to read zip archive" e)
  | Ok es => hashZipReader es
  end.

(** The same over an open file of [size] bytes. *)
Definition HashZipFile (file : string) (size : Z) : res string :=
  match zip_entries (stake (Z.to_nat size) file) with
  | Err e => Err (ErrWrap "failed to read zip archive" e)
  | Ok es => hashZipReader es
  end.
End Checksum.

(** [strings.SplitN(s, sep, 2)]: what precedes the first [sep] and what follows it. *)
Fixpoint cut_sub (sep s : string) : option (string * string) :=
  if has_prefix s sep then Some ("", sdrop (String.length sep) s)
  else match s with
       | EmptyString => None
       | String c s' =>
           match cut_sub sep s' with
           | Some (before, after) => Some (String c before, after)
           | None => None
           end
       end.

(** [parseSHASUMFile] *)
Definition shasum_line (result : gmap string string) (line : string) : gmap string string :=
  let line := trim_space line in
  if String.eqb line "" then result
  else match cut_sub "  " line with
       | Some (hash, file) => <[file := hash]> result
       | None => result
       end.

Definition parseSHASUMFile (content : string) : gmap string string :=
  fold_left shasum_line (split_on newline content) ∅.

(** [ExtractChecksumFromShasums] *)
Definition join_words (ws : list string) : string := String.concat " " ws.

Definition checksum_in_line (filename line : string) : option string :=
  let line := trim_space line in
  if String.eqb line "" then None
  else match fields line with
       | checksum :: ((_ :: _) as rest) =>
           let file := trim_space (trim_prefix (join_words rest) "*") in
           if String.eqb file filename then Some checksum else None
       | _ => None
       end.

Fixpoint first_checksum (filename : string) (lines : list string) : option string :=
  match lines with
  | [] => None
  | line :: lines' =>
      match checksum_in_line filename line with
      | Some c => Some c
      | None => first_checksum filename lines'
      end
  end.

Definition ExtractChecksumFromShasums (shasumsContent filename : string) : res string :=
  match first_checksum filename (split_on newline shasumsContent) with
  | Some c => Ok c
  | None => Err (ErrMsg ("checksum not found for file: " +:+ filename))
  end.

Definition ValidateChecksumMatch (calculated expected : string) : option gerror :=
  if String.eqb (to_lower calculated) (to_lower expected) then None
  else Some (ErrMsg ("checksum mismatch: expected " +:+ to_lower expected +:+ ", got " +:+
                     to_lower calculated)).

(** ** The h1 hash does not depend on the order of the archive *)

Lemma ltb_lt a b : String.ltb a b = true <-> String_as_OT.lt a b.
Proof.
  rewrite <- String_as_OT.cmp_lt. unfold String.ltb, String_as_OT.cmp.
  by destruct (String.compare a b).
Qed.

Lemma ltb_total a b : String.ltb a b = false -> String.ltb b a = false -> a = b.
Proof.
  unfold String.ltb. rewrite (String.compare_antisym b a).
  destruct (String.compare a b) eqn:E; cbn; try done. intros _ _. by apply String.compare_eq_iff.
Qed.

#[export] Instance ltb_strict_weak : StrictWeak String.ltb.
Proof.
  split.
  - intros x y. unfold String.ltb. rewrite (String.compare_antisym y x).
    by destruct (String.compare x y).
  - intros x y z Hxy Hyz. destruct (String.ltb z x) eqn:E; [|done].
    apply ltb_lt in E. destruct (String.ltb x y) eqn:E1.
    + apply ltb_lt in E1. by rewrite (proj2 (ltb_lt z y)) in Hyz by (by eapply String_as_OT.lt_trans).
    + rewrite (ltb_total x y E1 Hxy) in E. by rewrite (proj2 (ltb_lt z y) E) in Hyz.
Qed.

Lemma go_sort_strings `{GoSortLaws} (l l' : list string) :
  Permutation l l' -> go_sort String.ltb l = go_sort String.ltb l'.
Proof.
  intros Hp. assert (AntiSymm (=) (fun x y => String.ltb y x = false)) as Ha
    by (intros x y Hx Hy; by apply ltb_total).
  apply (StronglySorted_unique (fun x y => String.ltb y x = false));
    [apply go_sort_sorted, _ | apply go_sort_sorted, _ |].
  rewrite <- !go_sort_perm. done.
Qed.

Section Order.
Context `{Sha256} `{Sha256Base64} `{GoSortLaws}.

(** the h1 hash of an archive depends on what its files contain, not on the
    order they are stored in: two archives with the same entries, no name twice,
    have the same hash or fail alike. *)
Theorem h1_ignores_order (es es' : list (string * res string)) :
  NoDup (fst <$> es) -> Permutation es es' -> hashZipReader es = hashZipReader es'.
Proof.
  intros Hnd Hp. unfold hashZipReader.
  rewrite (go_sort_strings (fst <$> es) (fst <$> es')) by (by apply fmap_Permutation).
  replace (files_of es') with (files_of es); [done|]. unfold files_of.
  apply list_to_map_proper.
  - by rewrite <- Permutation_rev.
  - by rewrite <- !Permutation_rev.
Qed.
End Order.

(** ** The three readers of a checksum file *)

Lemma cut_sub_none_prefix h f :
  no_space h = true -> cut_sub "  " (h +:+ "  " +:+ f) = Some (h, f).
Proof.
  induction h as [|c h IH]; intros Hn.
  { change ("" +:+ "  " +:+ f) with (String " " (String " " f)). cbn [cut_sub].
    assert (has_prefix (String " " (String " " f)) "  " = true) as -> by (by destruct f).
    reflexivity. }
  cbn [no_space] in Hn. bools. rewrite append_cons. cbn [cut_sub].
  rewrite IH by done.
  assert (has_prefix (String c (h +:+ "  " +:+ f)) "  " = false) as ->; [|done].
  unfold has_prefix. cbn [String.prefix]. destruct (ascii_dec " " c) as [<-|]; done.
Qed.

Lemma shasum_line_entry m h f :
  word h -> word f -> shasum_line m (h +:+ "  " +:+ f) = <[f := h]> m.
Proof.
  intros Hh Hf. unfold shasum_line. rewrite trim_line by done.
  rewrite cut_sub_none_prefix by apply Hh. by destruct h; [destruct Hh|].
Qed.

Lemma extract_line_entry h f name :
  word h -> word f -> has_prefix f "*" = false ->
  checksum_in_line name (h +:+ "  " +:+ f) = if String.eqb f name then Some h else None.
Proof.
  intros Hh Hf Hs. unfold checksum_in_line. rewrite trim_line, fields_line by done.
  assert (String.eqb (h +:+ "  " +:+ f) "" = false) as -> by (by destruct h; [destruct Hh|]).
  cbn [join_words String.concat]. unfold trim_prefix. rewrite Hs. by rewrite word_trim.
Qed.

(** Any reader that goes line by line, on a rendered file. *)
Lemma fold_lines {A} (step : A -> string -> A) (on_entry : A -> string * string -> A) es a :
  (forall a' e, In e es -> step a' (fst e +:+ "  " +:+ snd e) = on_entry a' e) ->
  (forall a', step a' "" = a') ->
  Forall (fun e => word (fst e) /\ word (snd e)) es ->
  fold_left step (split_on newline (render_sums es)) a = fold_left on_entry es a.
Proof.
  intros Hstep Hnil Hes. revert a. induction es as [|[h f] es IH]; intros a; [cbn; by rewrite Hnil|].
  apply Forall_cons_1 in Hes as [[Hh Hf] Hes]. cbn [fst snd] in *.
  cbn [render_sums]. unfold sums_entry. cbn [fst snd].
  assert (Ho : one_line (h +:+ "  " +:+ f) = true).
  { rewrite !one_line_app. destruct Hh as [_ Hh], Hf as [_ Hf].
    by rewrite (no_space_one_line h Hh), (no_space_one_line f Hf). }
  rewrite (entry_assoc h "  " f (String newline "")), split_line by exact Ho.
  cbn [fold_left]. pose proof (Hstep a (h, f) (or_introl eq_refl)) as Hs. cbn [fst snd] in Hs. rewrite Hs.
  apply IH; [|done]. intros a' e Hin. apply Hstep. by right.
Qed.

Lemma first_checksum_fold name lines :
  first_checksum name lines =
  fold_left (fun acc line => match acc with Some c => Some c | None => checksum_in_line name line end)
    lines None.
Proof.
  assert (Hs : forall l c, fold_left (fun acc line =>
            match acc with Some c => Some c | None => checksum_in_line name line end) l (Some c)
          = Some c) by (intros l c; by induction l).
  induction lines as [|l lines IH]; [done|]. cbn. destruct (checksum_in_line name l); [by rewrite Hs | done].
Qed.

Lemma sums_map_in es m h f :
  sums_map es m !! f = Some h -> In (h, f) es \/ m !! f = Some h.
Proof.
  unfold sums_map. revert m. induction es as [|[h' f'] es IH]; intros m Hm; [by right|].
  cbn [fold_left fst snd] in Hm. destruct (IH _ Hm) as [Hin|Hm']; [by left; right|].
  destruct (decide (f' = f)) as [->|Hne].
  - rewrite lookup_insert_eq in Hm'. simplify_eq. left. by left.
  - rewrite lookup_insert_ne in Hm' by done. by right.
Qed.

(** the three readers agree on a checksum file in the ["<hash>  <file>"]
    format, whatever the hashes and file names, as long as they are free of white
    space, no file name starts with a star and none is listed twice: the mirror's
    and the release clients' readers build the same map, it holds exactly the
    listed entries, and the upload validator's lookup returns its values. *)
Theorem checksum_readers_agree (es : list (string * string)) :
  Forall (fun e => word (fst e) /\ word (snd e)) es ->
  Forall (fun e => has_prefix (snd e) "*" = false) es ->
  NoDup (snd <$> es) ->
  parseSHASUMFile (render_sums es) = ParseSHASums (render_sums es) /\
  (forall h f, In (h, f) es <-> ParseSHASums (render_sums es) !! f = Some h) /\
  (forall f, ParseSHASums (render_sums es) !! f =
     match ExtractChecksumFromShasums (render_sums es) f with Ok c => Some c | Err _ => None end).
Proof.
  intros Hes Hstar Hnd. rewrite parse_render by done.
  assert (Hmap : forall f, sums_map es ∅ !! f =
            first_checksum f (split_on newline (render_sums es))).
  { intros f. rewrite first_checksum_fold.
    rewrite (fold_lines _ (fun acc e => match acc with
              | Some c => Some c | None => if String.eqb (snd e) f then Some (fst e) else None end));
      [|intros acc e Hin | by intros [] | done].
    - unfold sums_map.
      enough (Hg : forall m acc, (forall x, acc = Some x -> f ∉ (snd <$> es)) ->
        m !! f = acc -> fold_left (fun m e => <[snd e := fst e]> m) es m !! f =
        fold_left (fun acc e => match acc with
          | Some c => Some c | None => if String.eqb (snd e) f then Some (fst e) else None end) es acc)
        by (by apply Hg).
      clear Hes Hstar. induction es as [|[h g] es IH]; intros m acc Hacc Hm; [done|].
      cbn [fmap list_fmap fst snd] in *. apply NoDup_cons in Hnd as [Hng Hnd].
      cbn [fold_left fst snd]. apply IH; [done | |].
      + intros x Hx. destruct acc as [c|]; [specialize (Hacc c eq_refl); set_solver|].
        destruct (String.eqb g f) eqn:E; [bools; by subst | done].
      + destruct (String.eqb g f) eqn:E; bools.
        * subst g. rewrite lookup_insert_eq. destruct acc as [c|]; [|done].
          exfalso. specialize (Hacc c eq_refl). set_solver.
        * rewrite lookup_insert_ne, Hm by done. by destruct acc.
    - destruct acc; [done|]. rewrite List.Forall_forall in Hes, Hstar.
      destruct (Hes e Hin). by apply extract_line_entry; [| |apply Hstar]. }
  split; [|split].
  - unfold parseSHASUMFile, sums_map. apply fold_lines; [|done|done].
    intros m e Hin. rewrite List.Forall_forall in Hes. destruct (Hes e Hin). by apply shasum_line_entry.
  - intros h f. split; [by apply sums_map_lookup|]. intros Hl.
    by destruct (sums_map_in es ∅ h f Hl).
  - intros f. rewrite Hmap. unfold ExtractChecksumFromShasums.
    by destruct (first_checksum f _).
Qed.

Theorem checksum_readers_agree_witness :
  let es := [("ab12", "t_1_linux_amd64.zip"); ("cd34", "t_1_darwin_arm64.zip")] in
  parseSHASUMFile (render_sums es) = ParseSHASums (render_sums es) /\
  (forall h f, In (h, f) es <-> ParseSHASums (render_sums es) !! f = Some h) /\
  (forall f, ParseSHASums (render_sums es) !! f =
     match ExtractChecksumFromShasums (render_sums es) f with Ok c => Some c | Err _ => None end).
Proof.
  apply (checksum_readers_agree [("ab12", "t_1_linux_amd64.zip"); ("cd34", "t_1_darwin_arm64.zip")]).
  - repeat constructor; done.
  - repeat constructor.
  - apply (bool_decide_eq_true_1 _). vm_compute. reflexivity.
Defined.

(** They differ outside that format: a single blank, or the star of a binary entry. *)
Example readers_differ_on_one_blank :
  ParseSHASums "ab12 t.zip" !! "t.zip" = Some "ab12" /\ parseSHASUMFile "ab12 t.zip" = ∅.
Proof. split; vm_compute; reflexivity. Qed.

Example readers_differ_on_star :
  parseSHASUMFile "ab12  *t.zip" !! "t.zip" = None /\
  ExtractChecksumFromShasums "ab12  *t.zip" "t.zip" = Ok "ab12".
Proof. split; vm_compute; reflexivity. Qed.

Definition demo_base64 : Sha256Base64 := fun s => s.
Definition demo_digest : Sha256 := fun s => s.

Theorem h1_ignores_order_witness :
  @hashZipReader demo_digest demo_base64 stable_sort [("b", Ok "1"); ("a", Ok "2")] =
  @hashZipReader demo_digest demo_base64 stable_sort [("a", Ok "2"); ("b", Ok "1")].
Proof.
  apply (@h1_ignores_order demo_digest demo_base64 stable_sort stable_sort_laws).
  - apply (bool_decide_eq_true_1 _). vm_compute. reflexivity.
  - apply perm_swap.
Defined.
