(* ===== verification/TfMirrorRepo.v ===== *)
(** * The binary mirror's tables

    [internal/db/models/terraform_mirror.go] and
    [internal/db/repositories/terraform_mirror_repository.go]: mirror
    configurations, the version and platform catalogue and the sync history,
    with the statements that read and write them.  A table is the list of its
    rows in insertion order; row identifiers are drawn fresh ([uuid.New]) from a
    counter.  The audit columns [created_at] and [updated_at] are left out. *)

From S2P Require Import Prelude GoStrings SemVer.
From stdpp Require Import gmap.

#[local] Open Scope Z_scope.

Definition uuid := nat.

(** ** Rows *)

Record TerraformMirrorConfig := {
  cfg_ID : uuid;
  cfg_Name : string;
  cfg_Description : option string;
  cfg_Tool : string;
  cfg_Enabled : bool;
  cfg_UpstreamURL : string;
  cfg_PlatformFilter : option string;
  cfg_VersionFilter : option string;
  cfg_GPGVerify : bool;
  cfg_StableOnly : bool;
  cfg_SyncIntervalHours : Z;
  cfg_RequiresApproval : bool;
  cfg_AutoApproveRules : option string;
  cfg_LastSyncAt : option Z;
  cfg_LastSyncStatus : option string;
  cfg_LastSyncError : option string;
  cfg_CustomGPGKey : option string;
  cfg_SkipGPGVerify : bool;
  cfg_VerifyGitHubAttestation : bool;
}.

Record TerraformVersion := {
  v_ID : uuid;
  v_ConfigID : uuid;
  v_Version : string;
  v_IsLatest : bool;
  v_IsDeprecated : bool;
  v_ReleaseDate : option Z;
  v_SyncStatus : string;
  v_SyncError : option string;
  v_SyncedAt : option Z;
  v_ApprovalStatus : option string;
  v_SumsStorageKey : option string;
  v_SigStorageKey : option string;
}.

Record TerraformVersionPlatform := {
  p_ID : uuid;
  p_VersionID : uuid;
  p_OS : string;
  p_Arch : string;
  p_UpstreamURL : string;
  p_Filename : string;
  p_SHA256 : string;
  p_StorageKey : option string;
  p_StorageBackend : option string;
  p_SHA256Verified : bool;
  p_GPGVerified : bool;
  p_AttestationVerified : bool;
  p_SyncStatus : string;
  p_SyncError : option string;
  p_SyncedAt : option Z;
  p_DownloadCount : Z;
}.

Record TerraformSyncHistory := {
  h_ID : uuid;
  h_ConfigID : uuid;
  h_TriggeredBy : string;
  h_StartedAt : Z;
  h_CompletedAt : option Z;
  h_Status : string;
  h_VersionsSynced : Z;
  h_PlatformsSynced : Z;
  h_VersionsFailed : Z;
  h_ErrorMessage : option string;
  h_Details : option string;
}.

Record tfdb := {
  terraform_mirror_configs : list TerraformMirrorConfig;
  terraform_versions : list TerraformVersion;
  terraform_version_platforms : list TerraformVersionPlatform;
  terraform_sync_history : list TerraformSyncHistory;
  next_uuid : uuid;
}.

(** ** Updates of single rows *)

Definition set_latest (b : bool) (v : TerraformVersion) : TerraformVersion := {|
  v_ID := v_ID v; v_ConfigID := v_ConfigID v; v_Version := v_Version v; v_IsLatest := b;
  v_IsDeprecated := v_IsDeprecated v; v_ReleaseDate := v_ReleaseDate v;
  v_SyncStatus := v_SyncStatus v; v_SyncError := v_SyncError v; v_SyncedAt := v_SyncedAt v;
  v_ApprovalStatus := v_ApprovalStatus v; v_SumsStorageKey := v_SumsStorageKey v;
  v_SigStorageKey := v_SigStorageKey v |}.

Definition set_deprecated (b : bool) (v : TerraformVersion) : TerraformVersion := {|
  v_ID := v_ID v; v_ConfigID := v_ConfigID v; v_Version := v_Version v;
  v_IsLatest := v_IsLatest v; v_IsDeprecated := b; v_ReleaseDate := v_ReleaseDate v;
  v_SyncStatus := v_SyncStatus v; v_SyncError := v_SyncError v; v_SyncedAt := v_SyncedAt v;
  v_ApprovalStatus := v_ApprovalStatus v; v_SumsStorageKey := v_SumsStorageKey v;
  v_SigStorageKey := v_SigStorageKey v |}.

Definition set_approval (a : option string) (v : TerraformVersion) : TerraformVersion := {|
  v_ID := v_ID v; v_ConfigID := v_ConfigID v; v_Version := v_Version v;
  v_IsLatest := v_IsLatest v; v_IsDeprecated := v_IsDeprecated v;
  v_ReleaseDate := v_ReleaseDate v; v_SyncStatus := v_SyncStatus v;
  v_SyncError := v_SyncError v; v_SyncedAt := v_SyncedAt v; v_ApprovalStatus := a;
  v_SumsStorageKey := v_SumsStorageKey v; v_SigStorageKey := v_SigStorageKey v |}.

Definition set_version_sync (status : string) (err : option string) (at_ : option Z)
  (v : TerraformVersion) : TerraformVersion := {|
  v_ID := v_ID v; v_ConfigID := v_ConfigID v; v_Version := v_Version v;
  v_IsLatest := v_IsLatest v; v_IsDeprecated := v_IsDeprecated v;
  v_ReleaseDate := v_ReleaseDate v; v_SyncStatus := status; v_SyncError := err;
  v_SyncedAt := at_; v_ApprovalStatus := v_ApprovalStatus v;
  v_SumsStorageKey := v_SumsStorageKey v; v_SigStorageKey := v_SigStorageKey v |}.

(** SQL's [COALESCE(new, old)] *)
Definition coalesce {A} (a b : option A) : option A :=
  match a with Some _ => a | None => b end.

Definition set_release_date (d : option Z) (v : TerraformVersion) : TerraformVersion := {|
  v_ID := v_ID v; v_ConfigID := v_ConfigID v; v_Version := v_Version v;
  v_IsLatest := v_IsLatest v; v_IsDeprecated := v_IsDeprecated v;
  v_ReleaseDate := coalesce d (v_ReleaseDate v); v_SyncStatus := v_SyncStatus v;
  v_SyncError := v_SyncError v; v_SyncedAt := v_SyncedAt v;
  v_ApprovalStatus := v_ApprovalStatus v; v_SumsStorageKey := v_SumsStorageKey v;
  v_SigStorageKey := v_SigStorageKey v |}.

Definition set_signature_keys (sums sig : option string) (v : TerraformVersion)
  : TerraformVersion := {|
  v_ID := v_ID v; v_ConfigID := v_ConfigID v; v_Version := v_Version v;
  v_IsLatest := v_IsLatest v; v_IsDeprecated := v_IsDeprecated v;
  v_ReleaseDate := v_ReleaseDate v; v_SyncStatus := v_SyncStatus v;
  v_SyncError := v_SyncError v; v_SyncedAt := v_SyncedAt v;
  v_ApprovalStatus := v_ApprovalStatus v;
  v_SumsStorageKey := coalesce sums (v_SumsStorageKey v);
  v_SigStorageKey := coalesce sig (v_SigStorageKey v) |}.

Definition set_upstream (url filename sha : string) (p : TerraformVersionPlatform)
  : TerraformVersionPlatform := {|
  p_ID := p_ID p; p_VersionID := p_VersionID p; p_OS := p_OS p; p_Arch := p_Arch p;
  p_UpstreamURL := url; p_Filename := filename; p_SHA256 := sha;
  p_StorageKey := p_StorageKey p; p_StorageBackend := p_StorageBackend p;
  p_SHA256Verified := p_SHA256Verified p; p_GPGVerified := p_GPGVerified p;
  p_AttestationVerified := p_AttestationVerified p; p_SyncStatus := p_SyncStatus p;
  p_SyncError := p_SyncError p; p_SyncedAt := p_SyncedAt p;
  p_DownloadCount := p_DownloadCount p |}.

Definition set_platform_sync (status : string) (key backend : option string)
  (sha gpg att : bool) (err : option string) (at_ : option Z) (p : TerraformVersionPlatform)
  : TerraformVersionPlatform := {|
  p_ID := p_ID p; p_VersionID := p_VersionID p; p_OS := p_OS p; p_Arch := p_Arch p;
  p_UpstreamURL := p_UpstreamURL p; p_Filename := p_Filename p; p_SHA256 := p_SHA256 p;
  p_StorageKey := coalesce key (p_StorageKey p);
  p_StorageBackend := coalesce backend (p_StorageBackend p);
  p_SHA256Verified := sha; p_GPGVerified := gpg; p_AttestationVerified := att;
  p_SyncStatus := status; p_SyncError := err; p_SyncedAt := at_;
  p_DownloadCount := p_DownloadCount p |}.

Definition set_flags (sha gpg att : TerraformVersionPlatform -> bool) (digest : string)
  (count : Z) (p : TerraformVersionPlatform) : TerraformVersionPlatform := {|
  p_ID := p_ID p; p_VersionID := p_VersionID p; p_OS := p_OS p; p_Arch := p_Arch p;
  p_UpstreamURL := p_UpstreamURL p; p_Filename := p_Filename p; p_SHA256 := digest;
  p_StorageKey := p_StorageKey p; p_StorageBackend := p_StorageBackend p;
  p_SHA256Verified := sha p; p_GPGVerified := gpg p; p_AttestationVerified := att p;
  p_SyncStatus := p_SyncStatus p; p_SyncError := p_SyncError p; p_SyncedAt := p_SyncedAt p;
  p_DownloadCount := count |}.

Definition set_digest (sha : string) (p : TerraformVersionPlatform) :=
  set_flags p_SHA256Verified p_GPGVerified p_AttestationVerified sha (p_DownloadCount p) p.
Definition set_gpg (b : bool) (p : TerraformVersionPlatform) :=
  set_flags p_SHA256Verified (fun _ => b) p_AttestationVerified (p_SHA256 p) (p_DownloadCount p) p.
Definition set_attestation (b : bool) (p : TerraformVersionPlatform) :=
  set_flags p_SHA256Verified p_GPGVerified (fun _ => b) (p_SHA256 p) (p_DownloadCount p) p.
Definition incr_downloads (p : TerraformVersionPlatform) :=
  set_flags p_SHA256Verified p_GPGVerified p_AttestationVerified (p_SHA256 p)
    (p_DownloadCount p + 1) p.

(** ** Table updates: [UPDATE ... SET upd WHERE cond] *)

Definition update_rows {R} (cond : R -> bool) (upd : R -> R) (rows : list R) : list R :=
  map (fun r => if cond r then upd r else r) rows.

Definition on_configs (f : list TerraformMirrorConfig -> list TerraformMirrorConfig) (t : tfdb) := {|
  terraform_mirror_configs := f (terraform_mirror_configs t);
  terraform_versions := terraform_versions t;
  terraform_version_platforms := terraform_version_platforms t;
  terraform_sync_history := terraform_sync_history t; next_uuid := next_uuid t |}.
Definition on_versions (f : list TerraformVersion -> list TerraformVersion) (t : tfdb) := {|
  terraform_mirror_configs := terraform_mirror_configs t;
  terraform_versions := f (terraform_versions t);
  terraform_version_platforms := terraform_version_platforms t;
  terraform_sync_history := terraform_sync_history t; next_uuid := next_uuid t |}.
Definition on_platforms (f : list TerraformVersionPlatform -> list TerraformVersionPlatform)
  (t : tfdb) := {|
  terraform_mirror_configs := terraform_mirror_configs t;
  terraform_versions := terraform_versions t;
  terraform_version_platforms := f (terraform_version_platforms t);
  terraform_sync_history := terraform_sync_history t; next_uuid := next_uuid t |}.
Definition on_history (f : list TerraformSyncHistory -> list TerraformSyncHistory) (t : tfdb) := {|
  terraform_mirror_configs := terraform_mirror_configs t;
  terraform_versions := terraform_versions t;
  terraform_version_platforms := terraform_version_platforms t;
  terraform_sync_history := f (terraform_sync_history t); next_uuid := next_uuid t |}.
Definition bump_uuid (t : tfdb) : tfdb := {|
  terraform_mirror_configs := terraform_mirror_configs t;
  terraform_versions := terraform_versions t;
  terraform_version_platforms := terraform_version_platforms t;
  terraform_sync_history := terraform_sync_history t; next_uuid := S (next_uuid t) |}.

(** ** Statements *)

(** The mirror's world: its tables, and the state [Y] of everything outside the
    process (upstream, storage backend, temporary files). *)
Record mir (Y : Type) := Mir { tdb : tfdb; mext : Y }.
Arguments Mir {Y} _ _.
Arguments tdb {Y} _.
Arguments mext {Y} _.

(** The semantic-version sort key of the SQL queries, [None] when a [CAST]
    fails: one leading [v] off, cut at the first [-] or [+], the first three
    dot-separated parts as 32-bit integers, an empty part counting 0. *)
Definition sql_part (s : string) : option Z :=
  if String.eqb s "" then Some 0
  else match atoi (trim_space s) with
       | (n, None) => if (- 2^31 <=? n) && (n <? 2^31) then Some n else None
       | _ => None
       end.

Definition semverOrder (version : string) : option (list Z) :=
  let parts := split_on "." (cut_any (trim_prefix version "v") "-+") in
  let part i := match parts !! i with Some p => sql_part p | None => Some 0 end in
  match part 0%nat, part 1%nat, part 2%nat with
  | Some a, Some b, Some c => Some [a; b; c]
  | _, _, _ => None
  end.

Definition sort_key (v : TerraformVersion) : list Z := default [0; 0; 0] (semverOrder (v_Version v)).

Section Repo.
Context {Y : Type} `{GoSort}.
#[local] Abbreviation P := (prog (env (mir Y))).

Definition tsql {A} (op : string) (f : tfdb -> res A * tfdb) : P (res A) :=
  db op (fun s => let r := f (tdb s) in (fst r, Mir (snd r) (mext s))).
Definition tquery {A} (op : string) (f : tfdb -> res A) : P (res A) :=
  tsql op (fun t => (f t, t)).
Definition texec (op : string) (f : tfdb -> tfdb) : P (res unit) :=
  tsql op (fun t => (Ok tt, f t)).

Definition uuid_New : P uuid :=
  state (fun s => (next_uuid (tdb s), Mir (bump_uuid (tdb s)) (mext s))).

(** *** Configurations *)

Definition Create (c : TerraformMirrorConfig) : P (res uuid) :=
  let! id := (if (cfg_ID c =? 0)%nat then uuid_New else ret (cfg_ID c)) in
  tsql "Create" (fun t =>
    if List.existsb (fun c' => String.eqb (cfg_Name c') (cfg_Name c)) (terraform_mirror_configs t)
    then (Err (ErrMsg "duplicate key value violates unique constraint"), t)
    else (Ok id, on_configs (fun rows => rows ++ [{|
      cfg_ID := id; cfg_Name := cfg_Name c; cfg_Description := cfg_Description c; cfg_Tool := cfg_Tool c; cfg_Enabled := cfg_Enabled c;
      cfg_UpstreamURL := cfg_UpstreamURL c; cfg_PlatformFilter := cfg_PlatformFilter c;
      cfg_VersionFilter := cfg_VersionFilter c; cfg_GPGVerify := cfg_GPGVerify c;
      cfg_StableOnly := cfg_StableOnly c; cfg_SyncIntervalHours := cfg_SyncIntervalHours c;
      cfg_RequiresApproval := cfg_RequiresApproval c;
      cfg_AutoApproveRules := cfg_AutoApproveRules c; cfg_LastSyncAt := None;
      cfg_LastSyncStatus := None; cfg_LastSyncError := None;
      cfg_CustomGPGKey := None; cfg_SkipGPGVerify := false;
      cfg_VerifyGitHubAttestation := cfg_VerifyGitHubAttestation c |}]) t)).

(** The columns every configuration query selects: all but [custom_gpg_key] and
    [skip_gpg_verify], whose struct fields keep their zero values. *)
Definition scanned (c : TerraformMirrorConfig) : TerraformMirrorConfig := {|
  cfg_ID := cfg_ID c; cfg_Name := cfg_Name c; cfg_Description := cfg_Description c; cfg_Tool := cfg_Tool c;
  cfg_Enabled := cfg_Enabled c; cfg_UpstreamURL := cfg_UpstreamURL c;
  cfg_PlatformFilter := cfg_PlatformFilter c; cfg_VersionFilter := cfg_VersionFilter c;
  cfg_GPGVerify := cfg_GPGVerify c; cfg_StableOnly := cfg_StableOnly c;
  cfg_SyncIntervalHours := cfg_SyncIntervalHours c; cfg_RequiresApproval := cfg_RequiresApproval c;
  cfg_AutoApproveRules := cfg_AutoApproveRules c; cfg_LastSyncAt := cfg_LastSyncAt c;
  cfg_LastSyncStatus := cfg_LastSyncStatus c; cfg_LastSyncError := cfg_LastSyncError c;
  cfg_CustomGPGKey := None; cfg_SkipGPGVerify := false;
  cfg_VerifyGitHubAttestation := cfg_VerifyGitHubAttestation c |}.

Definition GetByID (id : uuid) : P (res (option TerraformMirrorConfig)) :=
  tquery "GetByID" (fun t =>
    Ok (scanned <$> List.find (fun c => (cfg_ID c =? id)%nat) (terraform_mirror_configs t))).

Definition GetByName (name : string) : P (res (option TerraformMirrorConfig)) :=
  tquery "GetByName" (fun t =>
    Ok (scanned <$> List.find (fun c => String.eqb (cfg_Name c) name) (terraform_mirror_configs t))).

Definition name_before (a b : TerraformMirrorConfig) : bool := String.ltb (cfg_Name a) (cfg_Name b).

Definition ListAll : P (res (list TerraformMirrorConfig)) :=
  tquery "ListAll" (fun t => Ok (scanned <$> go_sort name_before (terraform_mirror_configs t))).

Definition ListEnabled : P (res (list TerraformMirrorConfig)) :=
  tquery "ListEnabled" (fun t =>
    Ok (scanned <$> go_sort name_before (List.filter cfg_Enabled (terraform_mirror_configs t)))).

(** [enabled AND (last_sync_at IS NULL OR last_sync_at + interval <= NOW())],
    never-synced ones first, then the longest unsynced. *)
Definition needs_sync (now : Z) (c : TerraformMirrorConfig) : bool :=
  cfg_Enabled c &&
  match cfg_LastSyncAt c with
  | None => true
  | Some t => t + cfg_SyncIntervalHours c * (3600 * 10^9) <=? now
  end.

Definition sync_before (a b : TerraformMirrorConfig) : bool :=
  match cfg_LastSyncAt a, cfg_LastSyncAt b with
  | None, Some _ => true
  | Some x, Some y => x <? y
  | _, _ => false
  end.

Definition GetConfigsNeedingSync : P (res (list TerraformMirrorConfig)) :=
  let! now := time_now in
  tquery "GetConfigsNeedingSync" (fun t =>
    Ok (scanned <$> go_sort sync_before
          (List.filter (needs_sync now) (terraform_mirror_configs t)))).

Definition Update (c : TerraformMirrorConfig) : P (res unit) :=
  texec "Update" (on_configs (update_rows (fun r => (cfg_ID r =? cfg_ID c)%nat) (fun r => {|
    cfg_ID := cfg_ID r; cfg_Name := cfg_Name c; cfg_Description := cfg_Description c; cfg_Tool := cfg_Tool c;
    cfg_Enabled := cfg_Enabled c; cfg_UpstreamURL := cfg_UpstreamURL c;
    cfg_PlatformFilter := cfg_PlatformFilter c; cfg_VersionFilter := cfg_VersionFilter c;
    cfg_GPGVerify := cfg_GPGVerify c; cfg_StableOnly := cfg_StableOnly c;
    cfg_SyncIntervalHours := cfg_SyncIntervalHours c;
    cfg_RequiresApproval := cfg_RequiresApproval c;
    cfg_AutoApproveRules := cfg_AutoApproveRules c; cfg_LastSyncAt := cfg_LastSyncAt r;
    cfg_LastSyncStatus := cfg_LastSyncStatus r; cfg_LastSyncError := cfg_LastSyncError r;
    cfg_CustomGPGKey := cfg_CustomGPGKey r; cfg_SkipGPGVerify := cfg_SkipGPGVerify r;
    cfg_VerifyGitHubAttestation := cfg_VerifyGitHubAttestation c |}))).

(** Deleting a configuration cascades to its versions, their platforms and its
    history. *)
Definition Delete (id : uuid) : P (res unit) :=
  texec "Delete" (fun t =>
    let gone := v_ID <$> List.filter (fun v => (v_ConfigID v =? id)%nat) (terraform_versions t) in
    on_configs (List.filter (fun c => negb (cfg_ID c =? id)%nat))
      (on_versions (List.filter (fun v => negb (v_ConfigID v =? id)%nat))
        (on_platforms (List.filter (fun p => negb (List.existsb (Nat.eqb (p_VersionID p)) gone)))
          (on_history (List.filter (fun h => negb (h_ConfigID h =? id)%nat)) t)))).

Definition UpdateSyncStatus (id : uuid) (status : string) (syncErr : option string)
  : P (res unit) :=
  let! now := time_now in
  texec "UpdateSyncStatus" (on_configs (update_rows (fun r => (cfg_ID r =? id)%nat) (fun r => {|
    cfg_ID := cfg_ID r; cfg_Name := cfg_Name r; cfg_Description := cfg_Description r; cfg_Tool := cfg_Tool r;
    cfg_Enabled := cfg_Enabled r; cfg_UpstreamURL := cfg_UpstreamURL r;
    cfg_PlatformFilter := cfg_PlatformFilter r; cfg_VersionFilter := cfg_VersionFilter r;
    cfg_GPGVerify := cfg_GPGVerify r; cfg_StableOnly := cfg_StableOnly r;
    cfg_SyncIntervalHours := cfg_SyncIntervalHours r;
    cfg_RequiresApproval := cfg_RequiresApproval r;
    cfg_AutoApproveRules := cfg_AutoApproveRules r; cfg_LastSyncAt := Some now;
    cfg_LastSyncStatus := Some status; cfg_LastSyncError := syncErr;
    cfg_CustomGPGKey := cfg_CustomGPGKey r; cfg_SkipGPGVerify := cfg_SkipGPGVerify r;
    cfg_VerifyGitHubAttestation := cfg_VerifyGitHubAttestation r |}))).

(** *** Versions *)

Definition same_version (a b : TerraformVersion) : bool :=
  (v_ConfigID a =? v_ConfigID b)%nat && String.eqb (v_Version a) (v_Version b).

(** [INSERT ... ON CONFLICT (config_id, version) DO UPDATE SET release_date];
    the row in the table is returned. *)
Definition UpsertVersion (v : TerraformVersion) : P (res TerraformVersion) :=
  let! id := (if (v_ID v =? 0)%nat then uuid_New else ret (v_ID v)) in
  tsql "UpsertVersion" (fun t =>
    if negb (List.existsb (fun c => (cfg_ID c =? v_ConfigID v)%nat) (terraform_mirror_configs t))
    then (Err (ErrMsg "violates foreign key constraint"), t)
    else
    match List.find (same_version v) (terraform_versions t) with
    | Some old =>
        (Ok (set_release_date (v_ReleaseDate v) old),
         on_versions (update_rows (same_version v) (set_release_date (v_ReleaseDate v))) t)
    | None =>
        let row := {|
          v_ID := id; v_ConfigID := v_ConfigID v; v_Version := v_Version v;
          v_IsLatest := v_IsLatest v; v_IsDeprecated := v_IsDeprecated v;
          v_ReleaseDate := v_ReleaseDate v; v_SyncStatus := v_SyncStatus v;
          v_SyncError := None; v_SyncedAt := None; v_ApprovalStatus := v_ApprovalStatus v;
          v_SumsStorageKey := None; v_SigStorageKey := None |} in
        (Ok row, on_versions (fun rows => rows ++ [row]) t)
    end).

Definition GetVersionByString (configID : uuid) (version : string)
  : P (res (option TerraformVersion)) :=
  tquery "GetVersionByString" (fun t =>
    Ok (List.find (fun v => (v_ConfigID v =? configID)%nat && String.eqb (v_Version v) version)
          (terraform_versions t))).

Definition GetLatestVersion (configID : uuid) : P (res (option TerraformVersion)) :=
  tquery "GetLatestVersion" (fun t =>
    Ok (List.find (fun v => (v_ConfigID v =? configID)%nat && v_IsLatest v)
          (terraform_versions t))).

Definition in_listing (configID : uuid) (syncedOnly : bool) (v : TerraformVersion) : bool :=
  (v_ConfigID v =? configID)%nat &&
  (negb syncedOnly || String.eqb (v_SyncStatus v) "synced").

(** Highest version first; one version string that is not numeric makes the
    whole query fail. *)
Definition ListVersions (configID : uuid) (syncedOnly : bool) : P (res (list TerraformVersion)) :=
  tquery "ListVersions" (fun t =>
    let rows := List.filter (in_listing configID syncedOnly) (terraform_versions t) in
    if List.forallb (fun v => match semverOrder (v_Version v) with Some _ => true | None => false end)
         rows
    then Ok (go_sort (fun a b => 0 <? compare_parts (sort_key a) (sort_key b)) rows)
    else Err (ErrMsg "invalid input syntax for type integer")).

(** One page of the same listing, and the count of all rows. *)
Definition ListVersionsPaginated (configID : uuid) (syncedOnly : bool) (limit offset : Z)
  : P (res (list TerraformVersion * Z)) :=
  let? total := tquery "failed to count terraform versions" (fun t =>
    Ok (Z.of_nat (length (List.filter (in_listing configID syncedOnly) (terraform_versions t))))) in
  tquery "failed to list terraform versions" (fun t =>
    let rows := List.filter (in_listing configID syncedOnly) (terraform_versions t) in
    if List.forallb (fun v => match semverOrder (v_Version v) with Some _ => true | None => false end)
         rows
    then Ok (take (Z.to_nat limit) (drop (Z.to_nat offset)
               (go_sort (fun a b => 0 <? compare_parts (sort_key a) (sort_key b)) rows)), total)
    else Err (ErrMsg "invalid input syntax for type integer")).

Definition UpdateVersionSignatureStorage (id : uuid) (sumsKey sigKey : option string)
  : P (res unit) :=
  texec "UpdateVersionSignatureStorage"
    (on_versions (update_rows (fun v => (v_ID v =? id)%nat) (set_signature_keys sumsKey sigKey))).

Definition UpdateVersionSyncStatus (id : uuid) (status : string) (syncErr : option string)
  : P (res unit) :=
  let! now := time_now in
  let syncedAt := if String.eqb status "synced" then Some now else None in
  texec "UpdateVersionSyncStatus"
    (on_versions (update_rows (fun v => (v_ID v =? id)%nat)
       (set_version_sync status syncErr syncedAt))).

(** A transaction: on failure of a statement or of the commit, the tables are
    those of [BEGIN]. *)
Definition ttx {A} (body : P (res A)) : P (res A) :=
  let? saved := tquery "BeginTx" Ok in
  let! r := body in
  match r with
  | Ok a =>
      let! c := texec "Commit" id in
      match c with
      | Ok _ => ret (Ok a)
      | Err e => run! modify (fun s => Mir saved (mext s)) in ret (Err e)
      end
  | Err e => run! modify (fun s => Mir saved (mext s)) in ret (Err e)
  end.

Definition SetLatestVersion (configID versionID : uuid) : P (res unit) :=
  ttx (let? _u := texec "failed to clear is_latest"
         (on_versions (update_rows (fun v => (v_ConfigID v =? configID)%nat && v_IsLatest v)
            (set_latest false))) in
       texec "failed to set is_latest"
         (on_versions (update_rows (fun v => (v_ID v =? versionID)%nat) (set_latest true)))).

Definition DeleteVersion (versionID : uuid) : P (res unit) :=
  texec "DeleteVersion" (fun t =>
    on_versions (List.filter (fun v => negb (v_ID v =? versionID)%nat))
      (on_platforms (List.filter (fun p => negb (p_VersionID p =? versionID)%nat)) t)).

Definition SetVersionDeprecated (versionID : uuid) (deprecated : bool) : P (res unit) :=
  texec "SetVersionDeprecated"
    (on_versions (update_rows (fun v => (v_ID v =? versionID)%nat) (set_deprecated deprecated))).

(** *** Platforms *)

Definition same_platform (a b : TerraformVersionPlatform) : bool :=
  (p_VersionID a =? p_VersionID b)%nat && String.eqb (p_OS a) (p_OS b) &&
  String.eqb (p_Arch a) (p_Arch b).

(** [INSERT ... ON CONFLICT (version_id, os, arch) DO UPDATE SET upstream_url,
    filename, sha256 RETURNING id]; [version_id] references a version. *)
Definition UpsertPlatform (p : TerraformVersionPlatform) : P (res uuid) :=
  let! id := (if (p_ID p =? 0)%nat then uuid_New else ret (p_ID p)) in
  tsql "UpsertPlatform" (fun t =>
    if negb (List.existsb (fun v => (v_ID v =? p_VersionID p)%nat) (terraform_versions t))
    then (Err (ErrMsg "violates foreign key constraint"), t)
    else
      match List.find (same_platform p) (terraform_version_platforms t) with
      | Some old =>
          (Ok (p_ID old),
           on_platforms (update_rows (same_platform p)
             (set_upstream (p_UpstreamURL p) (p_Filename p) (p_SHA256 p))) t)
      | None =>
          (Ok id, on_platforms (fun rows => rows ++ [{|
             p_ID := id; p_VersionID := p_VersionID p; p_OS := p_OS p; p_Arch := p_Arch p;
             p_UpstreamURL := p_UpstreamURL p; p_Filename := p_Filename p;
             p_SHA256 := p_SHA256 p; p_StorageKey := p_StorageKey p;
             p_StorageBackend := p_StorageBackend p; p_SHA256Verified := p_SHA256Verified p;
             p_GPGVerified := p_GPGVerified p; p_AttestationVerified := p_AttestationVerified p;
             p_SyncStatus := p_SyncStatus p; p_SyncError := p_SyncError p;
             p_SyncedAt := p_SyncedAt p; p_DownloadCount := 0 |}]) t)
      end).

Definition GetPlatform (versionID : uuid) (os arch : string)
  : P (res (option TerraformVersionPlatform)) :=
  tquery "GetPlatform" (fun t =>
    Ok (List.find (fun p => (p_VersionID p =? versionID)%nat && String.eqb (p_OS p) os &&
                            String.eqb (p_Arch p) arch) (terraform_version_platforms t))).

Definition IncrementDownloadCount (platformID : uuid) : P (res unit) :=
  texec "IncrementDownloadCount"
    (on_platforms (update_rows (fun p => (p_ID p =? platformID)%nat) incr_downloads)).

(** [ORDER BY os, arch], in byte order. *)
Definition platform_before (a b : TerraformVersionPlatform) : bool :=
  String.ltb (p_OS a) (p_OS b) ||
  (String.eqb (p_OS a) (p_OS b) && String.ltb (p_Arch a) (p_Arch b)).

Definition ListPlatformsForVersion (versionID : uuid) : P (res (list TerraformVersionPlatform)) :=
  tquery "ListPlatformsForVersion" (fun t =>
    Ok (go_sort platform_before
          (List.filter (fun p => (p_VersionID p =? versionID)%nat)
             (terraform_version_platforms t)))).

Definition is_pending (p : TerraformVersionPlatform) : bool :=
  String.eqb (p_SyncStatus p) "pending" || String.eqb (p_SyncStatus p) "failed".

(** Rows are listed in creation order, which is the order of the table. *)
Definition ListPendingPlatforms (configID : uuid) : P (res (list TerraformVersionPlatform)) :=
  tquery "ListPendingPlatforms" (fun t =>
    Ok (List.filter (fun p =>
          is_pending p &&
          List.existsb (fun v => (v_ID v =? p_VersionID p)%nat && (v_ConfigID v =? configID)%nat &&
                                 negb (v_IsDeprecated v)) (terraform_versions t))
          (terraform_version_platforms t))).

Definition UpdatePlatformSyncStatus (id : uuid) (status : string)
  (storageKey storageBackend : option string)
  (sha256Verified gpgVerified attestationVerified : bool) (syncErr : option string)
  : P (res unit) :=
  let! now := time_now in
  let syncedAt := if String.eqb status "synced" then Some now else None in
  texec "UpdatePlatformSyncStatus"
    (on_platforms (update_rows (fun p => (p_ID p =? id)%nat)
       (set_platform_sync status storageKey storageBackend sha256Verified gpgVerified
          attestationVerified syncErr syncedAt))).

Definition UpdatePlatformSHA256 (id : uuid) (sha256Hex : string) : P (res unit) :=
  texec "UpdatePlatformSHA256"
    (on_platforms (update_rows (fun p => (p_ID p =? id)%nat) (set_digest sha256Hex))).

Definition UpdatePlatformAttestationVerified (id : uuid) (verified : bool) : P (res unit) :=
  texec "UpdatePlatformAttestationVerified"
    (on_platforms (update_rows (fun p => (p_ID p =? id)%nat) (set_attestation verified))).

(** [sums[p.Filename]] with the rows whose digest is known, and those not synced,
    passed over. *)
Definition missing_digest (sums : gmap string string) (p : TerraformVersionPlatform)
  : option string :=
  if negb (String.eqb (p_SHA256 p) "") || negb (String.eqb (p_SyncStatus p) "synced") then None
  else match sums !! p_Filename p with
       | Some hash => if String.eqb hash "" then None else Some hash
       | None => None
       end.

Fixpoint backfill_rows (sums : gmap string string) (ps : list TerraformVersionPlatform)
  : P (res unit) :=
  match ps with
  | [] => ret (Ok tt)
  | p :: ps' =>
      match missing_digest sums p with
      | None => backfill_rows sums ps'
      | Some hash => let? _u := UpdatePlatformSHA256 (p_ID p) hash in backfill_rows sums ps'
      end
  end.

Definition BackfillPlatformSHA256 (versionID : uuid) (sums : gmap string string)
  : P (res unit) :=
  if bool_decide (sums = ∅) then ret (Ok tt)
  else let? platforms := ListPlatformsForVersion versionID in backfill_rows sums platforms.

Definition UpdateGPGVerifiedForVersion (versionID : uuid) (gpgVerified : bool) : P (res unit) :=
  texec "UpdateGPGVerifiedForVersion"
    (on_platforms (update_rows
       (fun p => (p_VersionID p =? versionID)%nat && String.eqb (p_SyncStatus p) "synced")
       (set_gpg gpgVerified))).

Definition CountVersionStats (configID : uuid) : P (res (nat * nat * nat)) :=
  tquery "CountVersionStats" (fun t =>
    let ps := List.filter (fun p =>
                List.existsb (fun v => (v_ID v =? p_VersionID p)%nat && (v_ConfigID v =? configID)%nat)
                  (terraform_versions t)) (terraform_version_platforms t) in
    Ok (size (list_to_set (p_VersionID <$> ps) : gset uuid), length ps,
        length (List.filter is_pending ps))).

(** *** Sync history *)

Definition CreateSyncHistory (h : TerraformSyncHistory) : P (res uuid) :=
  let! id := (if (h_ID h =? 0)%nat then uuid_New else ret (h_ID h)) in
  tsql "CreateSyncHistory" (fun t =>
    if negb (List.existsb (fun c => (cfg_ID c =? h_ConfigID h)%nat) (terraform_mirror_configs t))
    then (Err (ErrMsg "violates foreign key constraint"), t)
    else (Ok id, on_history (fun rows => rows ++ [{|
      h_ID := id; h_ConfigID := h_ConfigID h; h_TriggeredBy := h_TriggeredBy h;
      h_StartedAt := h_StartedAt h; h_CompletedAt := None; h_Status := h_Status h;
      h_VersionsSynced := h_VersionsSynced h; h_PlatformsSynced := h_PlatformsSynced h;
      h_VersionsFailed := h_VersionsFailed h; h_ErrorMessage := None; h_Details := None |}]) t)).

Definition CompleteSyncHistory (id : uuid) (status : string)
  (versionsSynced platformsSynced versionsFailed : Z) (errMsg details : option string)
  : P (res unit) :=
  let! now := time_now in
  texec "CompleteSyncHistory" (on_history (update_rows (fun h => (h_ID h =? id)%nat) (fun h => {|
    h_ID := h_ID h; h_ConfigID := h_ConfigID h; h_TriggeredBy := h_TriggeredBy h;
    h_StartedAt := h_StartedAt h; h_CompletedAt := Some now; h_Status := status;
    h_VersionsSynced := versionsSynced; h_PlatformsSynced := platformsSynced;
    h_VersionsFailed := versionsFailed; h_ErrorMessage := errMsg; h_Details := details |}))).

Definition ListSyncHistory (configID : uuid) (limit : Z) : P (res (list TerraformSyncHistory)) :=
  tquery "ListSyncHistory" (fun t =>
    Ok (take (Z.to_nat (if limit <=? 0 then 50 else limit))
          (go_sort (fun a b => h_StartedAt b <? h_StartedAt a)
             (List.filter (fun h => (h_ConfigID h =? configID)%nat) (terraform_sync_history t))))).

End Repo.

(** *** The platform filter column *)

(** [encoding/json] on a list of strings. *)
Class StringsCodec := {
  unmarshal_strings : string -> res (list string);
  marshal_strings : list string -> res string;
}.

Class StringsCodecLaws `{StringsCodec} : Prop := {
  strings_roundtrip l s : marshal_strings l = Ok s -> unmarshal_strings s = Ok l;
  marshal_nonempty l s : marshal_strings l = Ok s -> s <> "";
  marshal_strings_ok l : exists s, marshal_strings l = Ok s;
}.

Section PlatformFilter.
Context `{StringsCodec}.

Definition ParsePlatformFilter (raw : option string) : res (list string) :=
  match raw with
  | None => Ok []
  | Some s => if String.eqb s "" then Ok []
              else match unmarshal_strings s with
                   | Ok l => Ok l
                   | Err e => Err (ErrWrap "invalid platform_filter JSON" e)
                   end
  end.

Definition EncodePlatformFilter (platforms : list string) : res (option string) :=
  match platforms with
  | [] => Ok None
  | _ => match marshal_strings platforms with
         | Ok s => Ok (Some s)
         | Err e => Err (ErrWrap "failed to encode platform_filter" e)
         end
  end.
End PlatformFilter.
