(* ===== verification/TfMirrorSync.v ===== *)
(** * The binary mirror's sync job

    [internal/jobs/terraform_mirror_sync.go]: one run for one configuration
    ([doSync], [performSync]) with everything it calls - the per-version and
    per-platform downloads, the four back-fills and the choice of the latest
    version.  The upstream, the storage backend, temporary files, signatures and
    attestations are classes over the outside state [Y]. *)

From S2P Require Import Prelude GoStrings SemVer VersionFilter AutoApprove Validation.
From S2P Require Import LocalStorage TfReleases TfMirrorRepo.
From stdpp Require Import gmap.

#[local] Open Scope Z_scope.

(** ** Interfaces *)

(** [internal/storage.Storage], the two methods the job calls. *)
Class Storage (Y : Type) := {
  storage_Exists : string -> prog Y (res bool);
  storage_Upload : string -> string -> prog Y (res UploadResult);
}.

(** What the storage backend documents: its objects, changed by an upload of
    their path only; a failed upload may or may not have written. *)
Class StorageLaws (Y : Type) `{Storage Y} := {
  objects : Y -> gmap string string;
  exists_reads k y : objects (snd (storage_Exists k y)) = objects y;
  upload_writes k d y :
    objects (snd (storage_Upload k d y)) = <[k := d]> (objects y) \/
    (objects (snd (storage_Upload k d y)) = objects y /\ is_ok (fst (storage_Upload k d y)) = false);
}.

(** Every object that changed holds what [A] allows under its key. *)
Section Writes.
Context {Y : Type} `{StorageLaws Y}.

Definition only_writes (A : string -> string -> Prop) (y y' : Y) : Prop :=
  forall k, objects y' !! k = objects y !! k \/
            exists d, objects y' !! k = Some d /\ A k d.

#[export] Instance only_writes_preorder A : PreOrder (only_writes A).
Proof.
  split.
  - intros y k. by left.
  - intros y1 y2 y3 H12 H23 k. destruct (H23 k) as [->|Q]; [apply H12 | by right].
Qed.

Lemma only_writes_eq A y y' : objects y' = objects y -> only_writes A y y'.
Proof. intros E k. left. by rewrite E. Qed.
End Writes.

(** [os.CreateTemp], the writes [io.Copy] makes to the file, [File.Seek]. *)
Class TempFiles (Y : Type) := {
  CreateTemp : prog Y (res unit);
  CopyToTemp : string -> prog Y (res unit);
  SeekStart : prog Y (res unit);
  (** reading the file to its end *)
  ReadBack : prog Y (res unit);
}.

(** ProtonMail's openpgp. *)
Class OpenPGP := {
  keyring : Type;
  ReadArmoredKeyRing : string -> res keyring;
  (** [None]: not armored; otherwise reading the armored body *)
  armor_Decode : string -> option (res string);
  CheckDetachedSignature : keyring -> string -> string -> option gerror;
}.

(** The attestation service of a repository (owner, name), as the interface
    [attestationVerifier] of the job; [None] is success. *)
Class Attestations (Y : Type) :=
  VerifyBinaryAttestation : string * string -> string -> prog Y (option gerror).

(** The release keys: the resolver installed by [main] ([""] when there is none or
    it has no key) and the embedded ones. *)
Class ReleaseKeys := {
  ResolveReleasesKey : string -> string;
  HashiCorpReleasesGPGKey : string;
  OpenTofuReleasesGPGKey : string;
}.

(** The order in which Go ranges over a map with the given entries. *)
Class MapRange := map_range : forall {A : Type}, list A -> list A.
Class MapRangeLaws `{MapRange} : Prop :=
  map_range_perm : forall A (l : list A), Permutation l (map_range l).

(** [json.Marshal] of [terraformSyncDetails]. *)
Class DetailsCodec := marshal_details : Z -> res string.

(** ** Signatures *)

Section Signatures.
Context `{OpenPGP}.

Definition VerifySignature (publicKeyArmored data signature : string) : option gerror :=
  if String.eqb publicKeyArmored "" then Some (ErrMsg "public key cannot be empty")
  else if String.eqb data "" then Some (ErrMsg "data to verify cannot be empty")
  else if String.eqb signature "" then Some (ErrMsg "signature cannot be empty")
  else
    match ReadArmoredKeyRing publicKeyArmored with
    | Err e => Some (ErrWrap "failed to parse public key" e)
    | Ok keys =>
        match armor_Decode signature with
        | Some (Err e) => Some (ErrWrap "failed to read armored signature" e)
        | decoded =>
            let sig := match decoded with Some (Ok s) => s | _ => signature end in
            match CheckDetachedSignature keys data sig with
            | Some e => Some (ErrWrap "signature verification failed" e)
            | None => None
            end
        end
    end.

Context `{ReleaseKeys}.

Definition gpgKeyForTool (tool : string) : string :=
  let k := ResolveReleasesKey tool in
  if negb (String.eqb k "") then k
  else
    let t := to_lower tool in
    if String.eqb t "terraform" || String.eqb t "packer" || String.eqb t "sentinel"
    then HashiCorpReleasesGPGKey
    else if String.eqb t "opentofu" then OpenTofuReleasesGPGKey
    else "".

Definition gpgKeyForConfig (cfg : TerraformMirrorConfig) : string :=
  if cfg_SkipGPGVerify cfg then ""
  else
    match cfg_CustomGPGKey cfg with
    | Some k => if negb (String.eqb k "") then k else gpgKeyForTool (cfg_Tool cfg)
    | None => gpgKeyForTool (cfg_Tool cfg)
    end.
End Signatures.

(** ** Attestations *)

Definition ErrAttestationNotFound := ErrSentinel "no release attestation found for digest".
Definition ErrAttestationUnavailable := ErrSentinel "attestation verification unavailable".

Definition attestationVerifierForConfig (cfg : TerraformMirrorConfig) : option (string * string) :=
  if negb (cfg_VerifyGitHubAttestation cfg) || negb (IsGitHubReleasesURL (cfg_UpstreamURL cfg))
  then None
  else match ParseGitHubOwnerRepo (cfg_UpstreamURL cfg) with
       | Ok v => Some v
       | Err _ => None
       end.

Section Sync.
Context {Y : Type} `{GoSort} `{GoVersion} `{RulesCodec} `{StringsCodec} `{MapRange}.
Context `{ReleasesClient Y} `{Storage Y} `{TempFiles Y} `{Sha256} `{OpenPGP} `{ReleaseKeys}.
Context `{Attestations Y} `{DetailsCodec}.
#[local] Abbreviation P := (prog (env (mir Y))).

(** A call to the outside. *)
Definition ext {A} (c : prog Y A) : P A :=
  state (fun s => let r := c (mext s) in (fst r, Mir (tdb s) (snd r))).

Definition verifyBinaryAttestation (verifier : option (string * string)) (sha256Hex : string)
  : P bool :=
  match verifier with
  | None => ret false
  | Some v =>
      if String.eqb sha256Hex "" then ret false
      else
        let! err := ext (VerifyBinaryAttestation v sha256Hex) in
        match err with
        | None => ret true
        | Some e =>
            if errors_is e ErrAttestationNotFound then ret false
            else if errors_is e ErrAttestationUnavailable then ret false
            else ret false
        end
  end.

(** ** One platform *)

Definition fail_platform (p : TerraformVersionPlatform) (sha gpg att : bool) (errStr : string)
  : P bool :=
  run! UpdatePlatformSyncStatus (p_ID p) "failed" None None sha gpg att (Some errStr) in
  ret false.

Definition storage_path (version : string) (p : TerraformVersionPlatform) : string :=
  "terraform-binaries/" +:+ version +:+ "/" +:+ p_OS p +:+ "/" +:+ p_Arch p +:+ "/" +:+ p_Filename p.

(** The upload and the final status: the file [data] is on disk, [sha] and [att]
    say what was verified. *)
Definition store_binary (storageBackendName version : string) (p : TerraformVersionPlatform)
  (data : string) (sha sumsGPGVerified att : bool) : P bool :=
  let! seekErr := ext SeekStart in
  match seekErr with
  | Err e => fail_platform p sha sumsGPGVerified att ("failed to seek temp file: " +:+ Error e)
  | Ok _ =>
      match ValidateStorageFilename (p_Filename p) with
      | Some e => fail_platform p sha sumsGPGVerified att
                    ("unsafe filename from upstream releases index: " +:+ Error e)
      | None =>
          let! uploadErr := ext (storage_Upload (storage_path version p) data) in
          match uploadErr with
          | Err e => fail_platform p sha sumsGPGVerified att (Error e)
          | Ok _ =>
              run! UpdatePlatformSyncStatus (p_ID p) "synced" (Some (storage_path version p))
                     (Some storageBackendName) sha sumsGPGVerified att None in
              ret true
          end
      end
  end.

(** The checksum comparison: [None] is a mismatch. *)
Definition check_sum (sums : option (gmap string string)) (filename actual : string) : option bool :=
  match sums with
  | None => Some false
  | Some m =>
      match m !! filename with
      | Some expectedHash => if equal_fold actual expectedHash then Some true else None
      | None => Some false
      end
  end.

Definition download_platform (storageBackendName : string) (client : releases_client)
  (version : string) (p : TerraformVersionPlatform) (sums : option (gmap string string))
  (sumsGPGVerified : bool) (attestVerifier : option (string * string)) : P bool :=
  let! dl := ext (client_DownloadBinaryStream client (p_UpstreamURL p)) in
  match dl with
  | Err e => fail_platform p false false false (Error e)
  | Ok body =>
      let! tmp := ext CreateTemp in
      match tmp with
      | Err e => fail_platform p false false false ("failed to create temp file: " +:+ Error e)
      | Ok _ =>
          let! copied := (match body with
                          | Ok data => ext (CopyToTemp data)
                          | Err e => ret (Err e)
                          end) in
          match body, copied with
          | Err e, _ | _, Err e =>
              fail_platform p false false false ("failed to stream binary to disk: " +:+ Error e)
          | Ok data, Ok _ =>
              let actualSHA256 := sha256_hex data in
              match check_sum sums (p_Filename p) actualSHA256 with
              | None => fail_platform p false false false "sha256 mismatch"
              | Some sha256Verified =>
                  run! (if sha256Verified
                        then let! _r := UpdatePlatformSHA256 (p_ID p) (to_lower actualSHA256) in
                             ret tt
                        else ret tt) in
                  let! att := verifyBinaryAttestation attestVerifier actualSHA256 in
                  store_binary storageBackendName version p data sha256Verified sumsGPGVerified att
              end
          end
      end
  end.

Definition syncOnePlatform (storageBackendName : string) (client : releases_client)
  (version : string) (p : TerraformVersionPlatform) (sums : option (gmap string string))
  (sumsGPGVerified : bool) (attestVerifier : option (string * string)) : P bool :=
  let download := download_platform storageBackendName client version p sums sumsGPGVerified
                    attestVerifier in
  match p_StorageKey p with
  | None => download
  | Some key =>
      let! r := ext (storage_Exists key) in
      match r with
      | Ok true =>
          let! att := verifyBinaryAttestation attestVerifier (p_SHA256 p) in
          run! UpdatePlatformSyncStatus (p_ID p) "synced" (Some key) (Some storageBackendName)
                 true sumsGPGVerified att None in
          ret true
      | _ => download
      end
  end.

(** ** One version *)

Definition upload_file (path data : string) : P (option string) :=
  if String.eqb data "" then ret None
  else let! r := ext (storage_Upload path data) in
       match r with Ok _ => ret (Some path) | Err _ => ret None end.

Definition storeVersionVerificationFiles (cfg : TerraformMirrorConfig) (version : string)
  (versionID : uuid) (sumsRaw sigBytes : string) : P unit :=
  if String.eqb sumsRaw "" && String.eqb sigBytes "" then ret tt
  else
    let! sumsKey := upload_file ("terraform-binaries/" +:+ version +:+ "/SHA256SUMS") sumsRaw in
    let! sigKey := upload_file ("terraform-binaries/" +:+ version +:+ "/SHA256SUMS." +:+
                                cfg_Tool cfg +:+ ".sig") sigBytes in
    match sumsKey, sigKey with
    | None, None => ret tt
    | _, _ => let! _r := UpdateVersionSignatureStorage versionID sumsKey sigKey in ret tt
    end.

(** Fetch the detached signature of [sumsRaw] and verify it: the signature when
    it verifies. *)
Definition verified_signature (client : releases_client) (gpgKey version sumsRaw : string)
  : P (option string) :=
  let! sig := ext (client_FetchSHASumsSignature client version) in
  match sig with
  | Err _ => ret None
  | Ok sigBytes =>
      match VerifySignature gpgKey sumsRaw sigBytes with
      | Some _ => ret None
      | None => ret (Some sigBytes)
      end
  end.

Definition syncVersionBinaries (storageBackendName : string) (client : releases_client)
  (cfg : TerraformMirrorConfig) (version : string) (versionID : uuid)
  (platforms : list TerraformVersionPlatform) : P (Z * Z * Z) :=
  let! _r := UpdateVersionSyncStatus versionID "syncing" None in
  let! fetched := ext (client_FetchSHASums client version) in
  let sums := match fetched with Ok (m, _) => Some m | Err _ => None end in
  let sumsRaw := match fetched with Ok (_, raw) => Some raw | Err _ => None end in
  let gpgKey := gpgKeyForConfig cfg in
  let! verified :=
    (match sumsRaw with
     | Some raw => if cfg_GPGVerify cfg && negb (String.eqb gpgKey "")
                   then verified_signature client gpgKey version raw else ret None
     | None => ret None
     end) in
  let sumsGPGVerified := match verified with Some _ => true | None => false end in
  run! storeVersionVerificationFiles cfg version versionID (default "" sumsRaw)
         (default "" verified) in
  let! _g := (if sumsGPGVerified then UpdateGPGVerifiedForVersion versionID true
              else ret (Ok tt)) in
  let attestVerifier := attestationVerifierForConfig cfg in
  let! counts :=
    fold_prog (fun '(okc, failc) p =>
      let! ok := syncOnePlatform storageBackendName client version p sums sumsGPGVerified
                   attestVerifier in
      ret (if ok : bool then (okc + 1, failc) else (okc, failc + 1))) (0, 0) platforms in
  let '(platformOK, platformFail) := counts in
  if (platformFail =? 0) && (0 <? platformOK) then
    let! _r := UpdateVersionSyncStatus versionID "synced" None in ret (1, platformOK, 0)
  else if platformOK =? 0 then
    let! _r := UpdateVersionSyncStatus versionID "failed" None in ret (0, platformOK, 1)
  else
    let! _r := UpdateVersionSyncStatus versionID "partial" None in ret (1, platformOK, 0).

(** ** Back-fills *)

#[local] Instance vi_version : HasVersion TerraformVersionInfo := vi_Version.

Definition wanted_versions (filtered : list TerraformVersionInfo) : gset string :=
  list_to_set (vi_Version <$> filtered).

(** The loop the four back-fills share: the synced versions of the configuration
    that the filters select. *)
Definition for_wanted (configID : uuid) (filtered : list TerraformVersionInfo)
  (body : TerraformVersion -> P unit) : P (res unit) :=
  let! listed := ListVersions configID true in
  match listed with
  | Err e => ret (Err (ErrWrap "failed to list synced versions" e))
  | Ok syncedVersions =>
      run! for_each syncedVersions (fun sv =>
        if bool_decide (v_Version sv ∈ wanted_versions filtered) then body sv else ret tt) in
      ret (Ok tt)
  end.

Definition backfillSHA256 (client : releases_client) (cfg : TerraformMirrorConfig)
  (filtered : list TerraformVersionInfo) : P (res unit) :=
  for_wanted (cfg_ID cfg) filtered (fun sv =>
    let! pl := ListPlatformsForVersion (v_ID sv) in
    match pl with
    | Err _ => ret tt
    | Ok platforms =>
        if List.existsb (fun p => String.eqb (p_SyncStatus p) "synced" && String.eqb (p_SHA256 p) "")
             platforms
        then
          let! fetched := ext (client_FetchSHASums client (v_Version sv)) in
          match fetched with
          | Err _ => ret tt
          | Ok (sums, _) =>
              if bool_decide (sums = ∅) then ret tt
              else let! _r := BackfillPlatformSHA256 (v_ID sv) sums in ret tt
          end
        else ret tt
    end).

Definition backfillGPGVerification (client : releases_client) (cfg : TerraformMirrorConfig)
  (filtered : list TerraformVersionInfo) : P (res unit) :=
  let gpgKey := gpgKeyForConfig cfg in
  if String.eqb gpgKey "" then ret (Ok tt)
  else for_wanted (cfg_ID cfg) filtered (fun sv =>
    let! pl := ListPlatformsForVersion (v_ID sv) in
    match pl with
    | Err _ => ret tt
    | Ok platforms =>
        if List.existsb (fun p => negb (p_GPGVerified p)) platforms
        then
          let! fetched := ext (client_FetchSHASums client (v_Version sv)) in
          match fetched with
          | Err _ => ret tt
          | Ok (_, sumsRaw) =>
              let! verified := verified_signature client gpgKey (v_Version sv) sumsRaw in
              match verified with
              | None => ret tt
              | Some _ => let! _r := UpdateGPGVerifiedForVersion (v_ID sv) true in ret tt
              end
          end
        else ret tt
    end).

Definition stored (key : option string) : bool :=
  match key with Some k => negb (String.eqb k "") | None => false end.

Definition backfillSignatureStorage (client : releases_client) (cfg : TerraformMirrorConfig)
  (filtered : list TerraformVersionInfo) : P (res unit) :=
  let gpgKey := gpgKeyForConfig cfg in
  for_wanted (cfg_ID cfg) filtered (fun sv =>
    if stored (v_SumsStorageKey sv) &&
       (stored (v_SigStorageKey sv) || negb (cfg_GPGVerify cfg) || String.eqb gpgKey "")
    then ret tt
    else
      let! fetched := ext (client_FetchSHASums client (v_Version sv)) in
      match fetched with
      | Err _ => ret tt
      | Ok (_, sumsRaw) =>
          let! verified :=
            (if cfg_GPGVerify cfg && negb (String.eqb gpgKey "")
             then verified_signature client gpgKey (v_Version sv) sumsRaw else ret None) in
          storeVersionVerificationFiles cfg (v_Version sv) (v_ID sv) sumsRaw (default "" verified)
      end).

Definition backfillAttestation (cfg : TerraformMirrorConfig)
  (filtered : list TerraformVersionInfo) : P (res unit) :=
  match attestationVerifierForConfig cfg with
  | None => ret (Ok tt)
  | Some verifier =>
      for_wanted (cfg_ID cfg) filtered (fun sv =>
        let! pl := ListPlatformsForVersion (v_ID sv) in
        match pl with
        | Err _ => ret tt
        | Ok platforms =>
            for_each platforms (fun p =>
              if negb (String.eqb (p_SyncStatus p) "synced") || String.eqb (p_SHA256 p) "" ||
                 p_AttestationVerified p
              then ret tt
              else
                let! ok := verifyBinaryAttestation (Some verifier) (p_SHA256 p) in
                if ok : bool
                then let! _r := UpdatePlatformAttestationVerified (p_ID p) true in ret tt
                else ret tt)
        end)
  end.

(** ** The latest version *)

(** Ungated or approved. *)
Definition visible (v : TerraformVersion) : bool :=
  match v_ApprovalStatus v with
  | None => true
  | Some s => String.eqb s VersionApprovalStatusApproved
  end.

Definition stable_first (vs : list TerraformVersion) : list TerraformVersion :=
  let stable := List.filter (fun v => negb (TfJob.hasPreReleaseSuffix (v_Version v))) vs in
  let candidates := match stable with [] => vs | _ => stable end in
  go_sort (fun a b => 0 <? TfJob.compareTerraformSemver (v_Version a) (v_Version b)) candidates.

Definition updateLatestVersion (configID : uuid) : P (res unit) :=
  let? syncedVersions := ListVersions configID true in
  match stable_first (List.filter visible syncedVersions) with
  | [] => ret (Ok tt)
  | best :: _ => SetLatestVersion configID (v_ID best)
  end.

(** ** One run *)

Definition platform_allowed (cfg : TerraformMirrorConfig) (b : TerraformReleaseBuild) : bool :=
  match cfg_PlatformFilter cfg with
  | None => true
  | Some raw =>
      if String.eqb raw "" then true
      else match unmarshal_strings raw with
           | Err _ | Ok [] => true
           | Ok platforms =>
               bool_decide (to_lower (b_OS b) +:+ "/" +:+ to_lower (b_Arch b) ∈
                            (list_to_set (to_lower <$> platforms) : gset string))
           end
  end.

Definition version_strings (configID : uuid) : P (res (list string)) :=
  let? vs := ListVersions configID false in ret (Ok (v_Version <$> vs)).

Definition new_platform (versionID : uuid) (b : TerraformReleaseBuild) : TerraformVersionPlatform := {|
  p_ID := 0%nat; p_VersionID := versionID; p_OS := b_OS b; p_Arch := b_Arch b;
  p_UpstreamURL := b_URL b; p_Filename := b_Filename b; p_SHA256 := "";
  p_StorageKey := None; p_StorageBackend := None; p_SHA256Verified := false;
  p_GPGVerified := false; p_AttestationVerified := false; p_SyncStatus := "pending";
  p_SyncError := None; p_SyncedAt := None; p_DownloadCount := 0 |}.

Definition new_version (configID : uuid) (version : string) (approval : option string)
  : TerraformVersion := {|
  v_ID := 0%nat; v_ConfigID := configID; v_Version := version; v_IsLatest := false;
  v_IsDeprecated := false; v_ReleaseDate := None; v_SyncStatus := "pending";
  v_SyncError := None; v_SyncedAt := None; v_ApprovalStatus := approval;
  v_SumsStorageKey := None; v_SigStorageKey := None |}.

(** Step 4 for one upstream version: its row and those of its builds. *)
Definition record_version (cfg : TerraformMirrorConfig) (vi : TerraformVersionInfo) : P unit :=
  let! approval := resolveTerraformApproval (version_strings (cfg_ID cfg))
                     (cfg_RequiresApproval cfg) (cfg_AutoApproveRules cfg) (vi_Version vi) in
  let! v := UpsertVersion (new_version (cfg_ID cfg) (vi_Version vi) approval) in
  match v with
  | Err _ => ret tt
  | Ok row =>
      for_each (vi_Builds vi) (fun b =>
        if platform_allowed cfg b
        then let! _r := UpsertPlatform (new_platform (v_ID row) b) in ret tt
        else ret tt)
  end.

(** The pending platforms by version, in the order the versions are first met. *)
Definition platform_group : Type := string * uuid * list TerraformVersionPlatform.

Fixpoint add_to_group (dbVersions : list TerraformVersion) (p : TerraformVersionPlatform)
  (groups : list platform_group) : list platform_group :=
  match groups with
  | [] =>
      match List.find (fun v => (v_ID v =? p_VersionID p)%nat) dbVersions with
      | Some v => [(v_Version v, v_ID v, [p])]
      | None => []
      end
  | (version, versionID, ps) :: gs =>
      if (versionID =? p_VersionID p)%nat then (version, versionID, ps ++ [p]) :: gs
      else (version, versionID, ps) :: add_to_group dbVersions p gs
  end.

Definition group_platforms (dbVersions : list TerraformVersion)
  (pending : list TerraformVersionPlatform) : list platform_group :=
  fold_left (fun gs p => add_to_group dbVersions p gs) pending [].

Definition selected_versions (cfg : TerraformMirrorConfig) (all : list TerraformVersionInfo)
  : list TerraformVersionInfo :=
  let stable := if cfg_StableOnly cfg
                then List.filter (fun v => negb (TfJob.hasPreReleaseSuffix (vi_Version v))) all
                else all in
  TfFilter.filterTerraformVersions stable (cfg_VersionFilter cfg).

(** Counters, the number of versions found upstream, and the error. *)
Record sync_result := {
  versionsSynced : Z; platformsSynced : Z; versionsFailed : Z;
  VersionsFound : Z; syncErr : option gerror;
}.

Definition sync_failed (found : Z) (e : gerror) : sync_result := {|
  versionsSynced := 0; platformsSynced := 0; versionsFailed := 0;
  VersionsFound := found; syncErr := Some e |}.

(** Steps 6 and 7; their errors are only logged. *)
Definition after_downloads (client : releases_client) (cfg : TerraformMirrorConfig)
  (filtered : list TerraformVersionInfo) : P unit :=
  let! _g := (if cfg_GPGVerify cfg && negb (String.eqb (gpgKeyForConfig cfg) "")
              then backfillGPGVerification client cfg filtered else ret (Ok tt)) in
  let! _s := backfillSHA256 client cfg filtered in
  let! _f := backfillSignatureStorage client cfg filtered in
  let! _a := backfillAttestation cfg filtered in
  let! _l := updateLatestVersion (cfg_ID cfg) in
  ret tt.

Definition performSync (storageBackendName : string) (cfg : TerraformMirrorConfig) : P sync_result :=
  match newReleasesClient (cfg_UpstreamURL cfg) (productNameForTool (cfg_Tool cfg)) with
  | Err e => ret (sync_failed 0 (ErrWrap "failed to create releases client" e))
  | Ok client =>
      let! fetched := ext (client_ListVersions client) in
      match fetched with
      | Err e => ret (sync_failed 0 (ErrWrap "failed to fetch upstream index" e))
      | Ok all =>
          let found := Z.of_nat (length all) in
          let filtered := selected_versions cfg all in
          run! for_each filtered (record_version cfg) in
          let! pending := ListPendingPlatforms (cfg_ID cfg) in
          match pending with
          | Err e => ret (sync_failed found (ErrWrap "failed to list pending platforms" e))
          | Ok pendingPlatforms =>
              let! dbv := ListVersions (cfg_ID cfg) false in
              match dbv with
              | Err e => ret (sync_failed found (ErrWrap "failed to list versions for grouping" e))
              | Ok dbVersions =>
                  let! counts :=
                    fold_prog (fun '(vs, ps, vf) '(version, versionID, platforms) =>
                      let! c := syncVersionBinaries storageBackendName client cfg version versionID
                                  platforms in
                      let '(a, b, d) := c in ret (vs + a, ps + b, vf + d))
                      (0, 0, 0) (map_range (group_platforms dbVersions pendingPlatforms)) in
                  run! after_downloads client cfg filtered in
                  let '(vs, ps, vf) := counts in
                  ret {| versionsSynced := vs; platformsSynced := ps; versionsFailed := vf;
                         VersionsFound := found; syncErr := None |}
              end
          end
      end
  end.

(** [doSync] without the release of the [activeSyncs] entry, which is a deferred
    call.  [histRecord.ID] is assigned before the insert, so a failed insert leaves an
    identifier no row has. *)
Definition record_history (configID : uuid) (triggeredBy : string) : P uuid :=
  let! now := time_now in
  let! id := uuid_New in
  let! _r := CreateSyncHistory {| h_ID := id; h_ConfigID := configID;
               h_TriggeredBy := triggeredBy; h_StartedAt := now; h_CompletedAt := None;
               h_Status := "running"; h_VersionsSynced := 0; h_PlatformsSynced := 0;
               h_VersionsFailed := 0; h_ErrorMessage := None; h_Details := None |} in
  ret id.

Definition doSync (storageBackendName : string) (configID : uuid) (triggeredBy : string) : P unit :=
  let! found := GetByID configID in
  match found with
  | Err _ | Ok None => ret tt
  | Ok (Some cfg) =>
      let! histID := record_history configID triggeredBy in
      let! r := performSync storageBackendName cfg in
      let status := match syncErr r with Some _ => "failed" | None => "success" end in
      let errMsg := Error <$> syncErr r in
      let detailsStr := match marshal_details (VersionsFound r) with
                        | Ok s => Some s | Err _ => None end in
      let! _c := CompleteSyncHistory histID status (versionsSynced r) (platformsSynced r)
                   (versionsFailed r) errMsg detailsStr in
      let! _u := UpdateSyncStatus configID status errMsg in
      ret tt
  end.
End Sync.
