(* ===== verification/TfMirrorSafety.v ===== *)
(** * What a mirror run may do

    Theorems about [TfMirrorSync.performSync]: what it keeps of the catalogue,
    what it may write to storage, when it raises the signature flag and which
    version it marks latest; and about the statements of [TfMirrorRepo]. *)

From S2P Require Import Prelude GoStrings SemVer VersionFilter AutoApprove Validation.
From S2P Require Import LocalStorage TfReleases TfMirrorRepo TfMirrorSync.
From stdpp Require Import gmap.
From Stdlib Require Import Sorting.Permutation Sorting.Sorted.

#[local] Open Scope Z_scope.

(** ** Relations between catalogues *)

(** The identity of a version and the decisions an operator takes about it. *)
Definition same_decision (v v' : TerraformVersion) : Prop :=
  v_ID v' = v_ID v /\ v_ConfigID v' = v_ConfigID v /\ v_Version v' = v_Version v /\
  v_ApprovalStatus v' = v_ApprovalStatus v /\ v_IsDeprecated v' = v_IsDeprecated v.

(** The identity of a platform, its download counter, and where it is stored:
    a storage key may be replaced but is never lost. *)
Definition same_artifact (p p' : TerraformVersionPlatform) : Prop :=
  p_ID p' = p_ID p /\ p_VersionID p' = p_VersionID p /\ p_OS p' = p_OS p /\
  p_Arch p' = p_Arch p /\ p_DownloadCount p' = p_DownloadCount p /\
  (p_StorageKey p' = None -> p_StorageKey p = None).

(** A row a run for [cfg] inserts: of that configuration, not deprecated, and
    ungated exactly when the configuration is. *)
Definition admitted (cfg : TerraformMirrorConfig) (v : TerraformVersion) : Prop :=
  v_ConfigID v = cfg_ID cfg /\ v_IsDeprecated v = false /\
  (v_ApprovalStatus v = None <-> cfg_RequiresApproval cfg = false).

#[export] Instance same_decision_preorder : PreOrder same_decision.
Proof. split; unfold same_decision; [done | intros x y z Hx Hy; naive_solver congruence]. Qed.

#[export] Instance same_artifact_preorder : PreOrder same_artifact.
Proof.
  split; unfold same_artifact; [done|].
  intros x y z (? & ? & ? & ? & ? & ?) (? & ? & ? & ? & ? & ?).
  repeat (split; [congruence|]). auto.
Qed.

Lemma admitted_same cfg x y : same_decision x y -> admitted cfg x -> admitted cfg y.
Proof.
  unfold same_decision, admitted. intros (_ & -> & _ & -> & ->). done.
Qed.

(** What every statement of a run for [cfg] does to the tables. *)
Record keeps (cfg : TerraformMirrorConfig) (t t' : tfdb) : Prop := {
  keeps_configs : terraform_mirror_configs t' = terraform_mirror_configs t;
  keeps_versions :
    grows same_decision (admitted cfg) (terraform_versions t) (terraform_versions t');
  keeps_platforms :
    grows same_artifact (fun _ => True) (terraform_version_platforms t)
      (terraform_version_platforms t');
  keeps_history : terraform_sync_history t' = terraform_sync_history t;
}.

#[export] Instance grows_decision cfg : PreOrder (grows same_decision (admitted cfg)).
Proof. apply grows_preorder; [typeclasses eauto | apply admitted_same]. Qed.

#[export] Instance grows_artifact : PreOrder (grows same_artifact (fun _ => True)).
Proof. apply grows_preorder; [typeclasses eauto | done]. Qed.

#[export] Instance keeps_preorder cfg : PreOrder (keeps cfg).
Proof.
  split.
  - intros t. constructor; reflexivity.
  - intros t1 t2 t3 [] []. constructor; solve [congruence | etransitivity; eassumption].
Qed.

(** Tables along a relation, the outside along another. *)
Definition moves {Y} (R : tfdb -> tfdb -> Prop) (O : Y -> Y -> Prop) (s s' : mir Y) : Prop :=
  R (tdb s) (tdb s') /\ O (mext s) (mext s').

#[export] Instance moves_preorder {Y} R (O : Y -> Y -> Prop) `{!PreOrder R, !PreOrder O} :
  PreOrder (moves R O).
Proof.
  split; unfold moves; [intros s; split; reflexivity|].
  intros s1 s2 s3 [? ?] [? ?]. split; by etransitivity.
Qed.

(** Platform rows are identified by their id, and ids are drawn below the counter. *)
Definition wf (t : tfdb) : Prop :=
  (next_uuid t <> 0)%nat /\
  (forall p, In p (terraform_version_platforms t) -> (p_ID p < next_uuid t)%nat) /\
  (forall p q, In p (terraform_version_platforms t) -> In q (terraform_version_platforms t) ->
     p_ID p = p_ID q -> p_VersionID p = p_VersionID q).

Definition fresh_rows (t t' : tfdb) : Prop :=
  (next_uuid t <= next_uuid t')%nat /\
  forall p', In p' (terraform_version_platforms t') ->
    (exists p, In p (terraform_version_platforms t) /\ p_ID p = p_ID p' /\
               p_VersionID p = p_VersionID p') \/ (next_uuid t <= p_ID p')%nat.

(** A signature flag that is up was up, or belongs to a version satisfying [Ver]. *)
Definition flagged (Ver : string -> Prop) (t t' : tfdb) : Prop :=
  forall p', In p' (terraform_version_platforms t') -> p_GPGVerified p' = true ->
    (exists p, In p (terraform_version_platforms t) /\ p_ID p = p_ID p' /\
               p_VersionID p = p_VersionID p' /\ p_GPGVerified p = true) \/
    (exists v, In v (terraform_versions t') /\ v_ID v = p_VersionID p' /\ Ver (v_Version v)).

Record run_step (cfg : TerraformMirrorConfig) (Ver : string -> Prop) (t t' : tfdb) : Prop := {
  step_keeps : keeps cfg t t';
  step_flags : flagged Ver t t';
  step_fresh : fresh_rows t t';
  step_wf : wf t -> wf t';
}.

Lemma flagged_trans cfg Ver t1 t2 t3 :
  keeps cfg t2 t3 -> flagged Ver t1 t2 -> flagged Ver t2 t3 -> flagged Ver t1 t3.
Proof.
  intros Hk H12 H23 p3 Hin Hg. destruct (H23 p3 Hin Hg) as [(p2 & Hin2 & Hid & Hv & Hg2)|Hv]; [|by right].
  destruct (H12 p2 Hin2 Hg2) as [(p1 & Hin1 & Hid1 & Hv1 & Hg1)|(v & Hin1 & Hid1 & Hver)].
  - left. exists p1. repeat (split; [congruence || done|]). done.
  - right. destruct (grows_in _ _ _ _ _ (keeps_versions _ _ _ Hk) Hin1) as (v' & Hin' & E1 & E2 & E3 & _).
    exists v'. rewrite E1, E3. split; [done|]. split; [congruence | done].
Qed.

#[export] Instance run_step_preorder cfg Ver : PreOrder (run_step cfg Ver).
Proof.
  split.
  - intros t. constructor; [reflexivity | | | done].
    + intros p Hin Hg. left. by exists p.
    + split; [lia|]. intros p Hin. left. by exists p.
  - intros t1 t2 t3 [K1 F1 R1 W1] [K2 F2 R2 W2]. constructor; [by etransitivity | | | auto].
    + by eapply flagged_trans.
    + destruct R1 as [N1 R1], R2 as [N2 R2]. split; [lia|]. intros p3 Hin.
      destruct (R2 p3 Hin) as [(p2 & Hin2 & E1 & E2)|Hn]; [|right; lia].
      destruct (R1 p2 Hin2) as [(p1 & Hin1 & E3 & E4)|Hn].
      * left. exists p1. split; [done|]. split; congruence.
      * right. congruence.
Qed.

(** *** Single statements *)

Section Steps.
Context (cfg : TerraformMirrorConfig) (Ver : string -> Prop).

Lemma step_versions cond f t :
  (forall v, same_decision v (f v)) ->
  run_step cfg Ver t (on_versions (update_rows cond f) t).
Proof.
  intros Hf. constructor; [|intros p Hin Hg; left; by exists p
    |split; [done|]; intros p Hin; left; by exists p | done].
  constructor; try done; cbn.
  apply grows_map. intros v. destruct (cond v); [apply Hf | reflexivity].
Qed.

Lemma in_update_rows {R} cond (f : R -> R) rows r' :
  In r' (update_rows cond f rows) -> exists r, In r rows /\ r' = if cond r then f r else r.
Proof. unfold update_rows. rewrite in_map_iff. intros (r & <- & Hin). by exists r. Qed.

(** An update of platform rows that may raise the flag of the rows in [up]. *)
Lemma step_platforms_gen cond f t :
  (forall p, same_artifact p (f p)) ->
  (forall p, In p (terraform_version_platforms t) -> cond p = true -> p_GPGVerified (f p) = true ->
     p_GPGVerified p = true \/
     exists v, In v (terraform_versions t) /\ v_ID v = p_VersionID p /\ Ver (v_Version v)) ->
  run_step cfg Ver t (on_platforms (update_rows cond f) t).
Proof.
  intros Hf Hg.
  assert (Hsame : forall p', In p' (update_rows cond f (terraform_version_platforms t)) ->
    exists p, In p (terraform_version_platforms t) /\ p_ID p' = p_ID p /\
              p_VersionID p' = p_VersionID p /\ p' = (if cond p then f p else p)).
  { intros p' Hin. apply in_update_rows in Hin as (p & Hin & ->). exists p.
    split; [done|]. destruct (cond p); [|done]. destruct (Hf p) as (-> & -> & _). done. }
  constructor.
  - constructor; try done; cbn.
    apply grows_map. intros p. destruct (cond p); [apply Hf | reflexivity].
  - intros p' Hin Hup. destruct (Hsame p' Hin) as (p & Hp & E1 & E2 & ->).
    destruct (cond p) eqn:Ec; [|left; by exists p].
    destruct (Hg p Hp Ec Hup) as [Hold|(v & Hv & Hid & HV)].
    + left. by exists p.
    + right. exists v. rewrite E2. done.
  - split; [done|]. intros p' Hin. destruct (Hsame p' Hin) as (p & Hp & E1 & E2 & _).
    left. exists p. split; [done|]. by rewrite E1, E2.
  - intros (W0 & W1 & W2). split; [done|]. split; cbn.
    + intros p' Hin. destruct (Hsame p' Hin) as (p & Hp & -> & _). by apply W1.
    + intros p' q' Hin Hin'. destruct (Hsame p' Hin) as (p & Hp & -> & -> & _).
      destruct (Hsame q' Hin') as (q & Hq & -> & -> & _). by apply W2.
Qed.

Lemma step_platforms cond f t :
  (forall p, same_artifact p (f p)) -> (forall p, p_GPGVerified (f p) = true -> p_GPGVerified p = true) ->
  run_step cfg Ver t (on_platforms (update_rows cond f) t).
Proof. intros Hf Hg. apply step_platforms_gen; [done|]. intros p _ _ Hup. left. by apply Hg. Qed.

Lemma step_new_version t row :
  admitted cfg row -> run_step cfg Ver t (on_versions (fun rows => rows ++ [row]) t).
Proof.
  intros Ha. constructor; [|intros p Hin Hg; left; by exists p
    |split; [done|]; intros p Hin; left; by exists p | done].
  constructor; try done; cbn. apply grows_app; [typeclasses eauto|].
  by constructor.
Qed.

Lemma step_bump t : run_step cfg Ver t (bump_uuid t).
Proof.
  constructor.
  - constructor; reflexivity.
  - intros p Hin Hg. left. by exists p.
  - split; [cbn; lia|]. intros p Hin. left. by exists p.
  - intros (W0 & W1 & W2). split; [done|]. split; [|done]. intros p Hin. cbn in *.
    specialize (W1 p Hin). lia.
Qed.

Lemma step_new_platform t row :
  p_ID row = next_uuid t -> p_GPGVerified row = false ->
  run_step cfg Ver t (on_platforms (fun rows => rows ++ [row]) (bump_uuid t)).
Proof.
  intros Hid Hg. constructor.
  - constructor; try done; cbn. apply grows_app; [typeclasses eauto|].
    by repeat constructor.
  - intros p Hin Hup. cbn in Hin. apply in_app_or in Hin as [Hin|[<-|[]]]; [|congruence].
    left. by exists p.
  - split; [cbn; lia|]. intros p Hin. cbn in Hin. apply in_app_or in Hin as [Hin|[<-|[]]].
    + left. by exists p.
    + right. lia.
  - intros (W0 & W1 & W2). split; [done|]. split; cbn.
    + intros p Hin. apply in_app_or in Hin as [Hin|[<-|[]]]; [specialize (W1 p Hin)|]; lia.
    + intros p q Hp Hq. apply in_app_or in Hp as [Hp|[<-|[]]], Hq as [?|[<-|[]]]; intros E; try done.
      * by apply W2.
      * specialize (W1 p Hp). lia.
      * specialize (W1 q ltac:(done)). lia.
Qed.
End Steps.

Section Moves.
Context {Y : Type} (R : tfdb -> tfdb -> Prop) (O : Y -> Y -> Prop) `{!PreOrder R, !PreOrder O}.

Lemma moves_tsql {A} op (f : tfdb -> res A * tfdb) :
  (forall t, R t (snd (f t))) -> preserves (on_st (moves R O)) (tsql op f).
Proof.
  intros Hf. apply preserves_db; [typeclasses eauto|]. intros s. split; [apply Hf | cbn; reflexivity].
Qed.

Lemma moves_texec op f : (forall t, R t (f t)) -> preserves (on_st (moves R O)) (texec (Y := Y) op f).
Proof. intros Hf. by apply moves_tsql. Qed.

Lemma moves_tquery {A} op (f : tfdb -> res A) :
  preserves (on_st (moves R O)) (tquery (Y := Y) op f).
Proof. apply moves_tsql. intros t. cbn. reflexivity. Qed.

Lemma moves_ext {A} (c : prog Y A) : preserves O c -> preserves (on_st (moves R O)) (ext c).
Proof.
  intros Hc. apply preserves_state. intros s. split; [cbn; reflexivity | apply Hc].
Qed.

Lemma moves_now : preserves (on_st (moves R O)) (@time_now (mir Y)).
Proof. apply preserves_now. typeclasses eauto. Qed.

(** A transaction moves the tables as its body does, or not at all. *)
Lemma moves_ttx {A} (body : prog (env (mir Y)) (res A)) :
  preserves (on_st (moves R O)) body ->
  preserves (on_st (moves R O)) (ttx body).
Proof.
  intros Hb w. unfold ttx, bind.
  pose proof (moves_tquery "BeginTx" Ok w) as Hq.
  assert (Hst : forall r w1, tquery "BeginTx" Ok w = (r, w1) -> st w1 = st w /\
            forall t, r = Ok t -> t = tdb (st w)).
  { intros r w1. unfold tquery, tsql, db. destruct (faults w) as [|[] fs]; intros [= <- <-]; cbn;
      (split; [by destruct (st w) | by intros ? [=]]). }
  destruct (tquery "BeginTx" Ok w) as [r w1] eqn:E; cbn [fst snd].
  destruct (Hst _ _ eq_refl) as [Hw1 Hsaved].
  destruct r as [saved|e]; [|exact Hq]. rewrite (Hsaved saved eq_refl). clear Hsaved Hq.
  pose proof (Hb w1) as Hb1. pose proof (proj2 Hb1) as Ho1. unfold on_st in *.
  rewrite Hw1 in *.
  destruct (body w1) as [[a|e] w2]; cbn [fst snd] in *.
  - pose proof (moves_texec "Commit" id (fun t => reflexivity t) w2) as Hc.
    destruct (texec "Commit" id w2) as [[u|e] w3] eqn:Ec; cbn [fst snd] in *.
    + unfold on_st in Hc. cbn. by etransitivity.
    + cbn. destruct Hc as [_ Hc]. split; [cbn; reflexivity | cbn; by etransitivity].
  - cbn. split; cbn; [reflexivity | exact Ho1].
Qed.
End Moves.

(** ** Storage *)

(** The other outside calls do not touch the backend. *)
Class OutsideLaws (Y : Type) `{StorageLaws Y} `{ReleasesClient Y} `{TempFiles Y}
  `{Attestations Y} : Prop := {
  list_keeps c y : objects (snd (client_ListVersions c y)) = objects y;
  sums_keeps c v y : objects (snd (client_FetchSHASums c v y)) = objects y;
  sig_keeps c v y : objects (snd (client_FetchSHASumsSignature c v y)) = objects y;
  download_keeps c u y : objects (snd (client_DownloadBinaryStream c u y)) = objects y;
  temp_keeps y : objects (snd (CreateTemp y)) = objects y;
  copy_keeps d y : objects (snd (CopyToTemp d y)) = objects y;
  seek_keeps y : objects (snd (SeekStart y)) = objects y;
  attest_keeps v h y : objects (snd (VerifyBinaryAttestation v h y)) = objects y;
}.

Section Safety.
Context {Y : Type} `{GoSort} `{GoVersion} `{RulesCodec} `{StringsCodec} `{MapRange}.
Context `{RC : ReleasesClient Y} `{ST : Storage Y} `{TF : TempFiles Y} `{Sha256} `{OpenPGP} `{ReleaseKeys}.
Context `{AT : Attestations Y} `{DetailsCodec}.
Context `{SL : !StorageLaws Y} `{OL : !OutsideLaws Y} `{GSL : !GoSortLaws} `{MRL : !MapRangeLaws}.

(** A value some call of the upstream returned. *)
Definition sums_of (client : releases_client) (version : string)
  (r : res (gmap string string * string)) : Prop :=
  exists y, fst (client_FetchSHASums client version y) = r.
Definition signature_of (client : releases_client) (version sig : string) : Prop :=
  exists y, fst (client_FetchSHASumsSignature client version y) = Ok sig.

(** The upstream served, for this version, a checksum file and a signature of it
    that verifies under the configuration's key; the configuration asks for it. *)
Definition signed (client : releases_client) (cfg : TerraformMirrorConfig) (version : string) : Prop :=
  cfg_GPGVerify cfg = true /\
  exists sums raw sig, sums_of client version (Ok (sums, raw)) /\ signature_of client version sig /\
    VerifySignature (gpgKeyForConfig cfg) raw sig = None.

(** What a run may write: a checksum file as fetched, a signature that verifies
    over a fetched checksum file, or a binary with a safe file name whose digest
    is the one listed for it, if the checksum file could be fetched and lists it. *)
Inductive authentic (client : releases_client) (cfg : TerraformMirrorConfig)
  : string -> string -> Prop :=
| auth_sums version sums raw :
    sums_of client version (Ok (sums, raw)) ->
    authentic client cfg ("terraform-binaries/" +:+ version +:+ "/SHA256SUMS") raw
| auth_sig version sums raw sig :
    sums_of client version (Ok (sums, raw)) -> signature_of client version sig ->
    VerifySignature (gpgKeyForConfig cfg) raw sig = None ->
    authentic client cfg ("terraform-binaries/" +:+ version +:+ "/SHA256SUMS." +:+
                          cfg_Tool cfg +:+ ".sig") sig
| auth_binary version p fetched data :
    sums_of client version fetched ->
    ValidateStorageFilename (p_Filename p) = None ->
    (forall sums raw h, fetched = Ok (sums, raw) -> sums !! p_Filename p = Some h ->
       equal_fold (sha256_hex data) h = true) ->
    authentic client cfg (storage_path version p) data.

Section Run.
Context (cfg : TerraformMirrorConfig) (client : releases_client).

(** The relation every part of a run follows. *)
Definition along : env (mir Y) -> env (mir Y) -> Prop :=
  on_st (moves (run_step cfg (signed client cfg)) (only_writes (authentic client cfg))).

#[export] Instance along_preorder : PreOrder along.
Proof. unfold along. typeclasses eauto. Qed.

(** *** Outside calls *)

Lemma along_ext {A} (c : prog Y A) :
  (forall y, objects (snd (c y)) = objects y) -> preserves along (ext c).
Proof. intros Hc. apply moves_ext; [typeclasses eauto|]. intros y. by apply only_writes_eq. Qed.

Lemma along_upload k d : authentic client cfg k d -> preserves along (ext (storage_Upload k d)).
Proof.
  intros Ha. apply moves_ext; [typeclasses eauto|]. intros y k'.
  destruct (upload_writes k d y) as [->|[-> _]]; [|by left].
  destruct (decide (k' = k)) as [->|Hne].
  - right. exists d. by rewrite lookup_insert_eq.
  - left. by rewrite lookup_insert_ne.
Qed.

Lemma ext_returns {A} (c : prog Y A) : returns (fun a => exists y, fst (c y) = a) (ext c).
Proof. intros w. by eexists. Qed.

(** *** Statements *)

Lemma along_query {A} op (f : tfdb -> res A) : preserves along (tquery op f).
Proof. apply moves_tquery; typeclasses eauto. Qed.

Lemma along_exec op f :
  (forall t, run_step cfg (signed client cfg) t (f t)) -> preserves along (texec op f).
Proof. intros Hf. apply moves_texec; [typeclasses eauto | typeclasses eauto | exact Hf]. Qed.

Lemma along_now : preserves along time_now.
Proof. apply preserves_now. typeclasses eauto. Qed.

Lemma along_versions op cond f :
  (forall v, same_decision v (f v)) ->
  preserves along (texec op (on_versions (update_rows cond f))).
Proof. intros Hf. apply along_exec. intros t. by apply step_versions. Qed.

Lemma along_platforms op cond f :
  (forall p, same_artifact p (f p)) ->
  (forall p, p_GPGVerified (f p) = true -> p_GPGVerified p = true) ->
  preserves along (texec op (on_platforms (update_rows cond f))).
Proof. intros Hf Hg. apply along_exec. intros t. by apply step_platforms. Qed.

Lemma along_version_status id status err : preserves along (UpdateVersionSyncStatus id status err).
Proof.
  apply preserves_bind; [typeclasses eauto | apply along_now | intros now].
  by apply along_versions.
Qed.

Lemma along_signature_storage id sums sig :
  preserves along (UpdateVersionSignatureStorage id sums sig).
Proof. by apply along_versions. Qed.

Lemma coalesce_none {A} (a b : option A) : coalesce a b = None -> b = None.
Proof. by destruct a. Qed.

Lemma along_platform_failed id sha att err :
  preserves along (UpdatePlatformSyncStatus id "failed" None None sha false att err).
Proof.
  apply preserves_bind; [typeclasses eauto | apply along_now | intros now].
  apply along_platforms; [|by intros p].
  intros p. unfold same_artifact. cbn. tauto.
Qed.

Lemma along_sha id h : preserves along (UpdatePlatformSHA256 id h).
Proof. apply along_platforms; [intros p; unfold same_artifact; cbn; tauto | done]. Qed.

Lemma along_attestation id b : preserves along (UpdatePlatformAttestationVerified id b).
Proof. apply along_platforms; [intros p; unfold same_artifact; cbn; tauto | done]. Qed.

Lemma along_backfill_rows sums ps : preserves along (backfill_rows sums ps).
Proof.
  induction ps as [|p ps IH]; cbn [backfill_rows]; [apply preserves_ret; typeclasses eauto|].
  destruct (missing_digest sums p); [|exact IH].
  apply preserves_bind; [typeclasses eauto | apply along_sha|].
  intros [|]; [exact IH | apply preserves_ret; typeclasses eauto].
Qed.

Lemma along_set_latest c v : preserves along (SetLatestVersion c v).
Proof.
  apply moves_ttx; [typeclasses eauto | typeclasses eauto|].
  apply preserves_bind; [typeclasses eauto | by apply along_versions|].
  intros [|]; [by apply along_versions | apply preserves_ret; typeclasses eauto].
Qed.

Lemma along_upsert_version version approval :
  (approval = None <-> cfg_RequiresApproval cfg = false) ->
  preserves along (UpsertVersion (new_version (cfg_ID cfg) version approval)).
Proof.
  intros Ha. unfold UpsertVersion. cbn [v_ID new_version Nat.eqb].
  apply preserves_bind; [typeclasses eauto | |intros id].
  - apply preserves_state. intros s. split; [apply step_bump | cbn; reflexivity].
  - apply moves_tsql; [typeclasses eauto | typeclasses eauto|]. intros t.
    destruct (negb _); [cbn; reflexivity|].
    destruct (List.find _ _); cbn [snd].
    + by apply step_versions.
    + apply step_new_version. by split.
Qed.

Lemma along_upsert_platform versionID b :
  preserves along (UpsertPlatform (new_platform versionID b)).
Proof.
  intros w. unfold UpsertPlatform, bind. cbn [p_ID new_platform Nat.eqb].
  cbn [fst snd state]. set (f := fun t : tfdb => _). set (t := tdb (st w)) in f.
  assert (Hf : run_step cfg (signed client cfg) t (snd (f (bump_uuid t)))).
  { unfold f. destruct (negb _); [apply step_bump|].
    destruct (List.find _ _); cbn [snd].
    - etransitivity; [apply step_bump | by apply step_platforms].
    - by apply step_new_platform. }
  unfold along, on_st, moves, tsql, db. cbn -[f].
  destruct (faults w) as [|[] fs]; cbn -[f]; (split; [|reflexivity]);
    solve [exact Hf | apply step_bump].
Qed.

(** *** Calls under an invariant *)

Definition under {A} (K : env (mir Y) -> Prop) (c : prog (env (mir Y)) A) : Prop :=
  ensures along K c (fun _ => K).

Section Under.
Context (K : env (mir Y) -> Prop) (HK : stable along K).

Lemma under_pres {A} (c : prog (env (mir Y)) A) : preserves along c -> under K c.
Proof. intros Hc. by apply ensures_preserves. Qed.

Lemma under_ret {A} (a : A) : under K (ret a).
Proof. apply under_pres, preserves_ret. typeclasses eauto. Qed.

Lemma under_bind {A B} (c : prog (env (mir Y)) A) (k : A -> prog (env (mir Y)) B) :
  under K c -> (forall a, under K (k a)) -> under K (bind c k).
Proof. intros Hc Hk. eapply ensures_bind; [typeclasses eauto | exact Hc | exact Hk]. Qed.

Lemma under_bind_ret {A B} (Q : A -> Prop) (c : prog (env (mir Y)) A)
  (k : A -> prog (env (mir Y)) B) :
  under K c -> returns Q c -> (forall a, Q a -> under K (k a)) -> under K (bind c k).
Proof.
  intros Hc Hq Hk w HP. destruct (Hc w HP) as [Hr Hw].
  destruct (Hk _ (Hq w) _ Hw) as [Hr' Hw']. split; [by etransitivity | exact Hw'].
Qed.

Lemma under_ext {A} (c : prog Y A) :
  (forall y, objects (snd (c y)) = objects y) -> under K (ext c).
Proof. intros Hc. by apply under_pres, along_ext. Qed.

Lemma under_verify_attestation verifier h : under K (verifyBinaryAttestation verifier h).
Proof.
  unfold verifyBinaryAttestation. destruct verifier as [v|]; [|apply under_ret].
  destruct (String.eqb h ""); [apply under_ret|].
  apply under_bind; [apply under_ext; intros y; apply attest_keeps | intros [e|]]; [|apply under_ret].
  repeat destruct (errors_is _ _); apply under_ret.
Qed.

Lemma under_upload_file path data :
  (data <> "" -> authentic client cfg path data) -> under K (upload_file path data).
Proof.
  intros Ha. unfold upload_file. destruct (String.eqb_spec data "") as [->|Hne]; [apply under_ret|].
  apply under_bind; [by apply under_pres, along_upload, Ha | intros [|]; apply under_ret].
Qed.

Lemma under_verification_files version versionID raw sig :
  (raw <> "" -> exists sums, sums_of client version (Ok (sums, raw))) ->
  (sig <> "" -> exists sums raw, sums_of client version (Ok (sums, raw)) /\
     signature_of client version sig /\ VerifySignature (gpgKeyForConfig cfg) raw sig = None) ->
  under K (storeVersionVerificationFiles cfg version versionID raw sig).
Proof.
  intros Hraw Hsig. unfold storeVersionVerificationFiles.
  destruct (_ && _); [apply under_ret|].
  apply under_bind; [apply under_upload_file | intros sumsKey].
  { intros Hne. destruct (Hraw Hne) as [sums Hs]. by eapply auth_sums. }
  apply under_bind; [apply under_upload_file | intros sigKey].
  { intros Hne. destruct (Hsig Hne) as (sums & raw' & Hs & Hg & Hv). by eapply auth_sig. }
  destruct sumsKey, sigKey; try apply under_ret;
    (apply under_bind; [apply under_pres, along_signature_storage | intros r; apply under_ret]).
Qed.

(** A verified signature is one the upstream served. *)
Lemma verified_signature_spec version raw :
  returns (fun r => forall sig, r = Some sig -> signature_of client version sig /\
             VerifySignature (gpgKeyForConfig cfg) raw sig = None)
    (verified_signature client (gpgKeyForConfig cfg) version raw).
Proof.
  intros w. unfold verified_signature, bind, ext, state. cbn [fst snd].
  destruct (client_FetchSHASumsSignature client version (mext (st w))) as [[sig|e] y] eqn:E;
    cbn [fst snd]; [|done].
  destruct (VerifySignature _ _ _) eqn:Ev; [done|]. intros sig' [= <-]. split; [|done].
  exists (mext (st w)). by rewrite E.
Qed.

Lemma under_verified_signature version raw :
  under K (verified_signature client (gpgKeyForConfig cfg) version raw).
Proof.
  unfold verified_signature. apply under_bind; [apply under_ext; intros y; apply sig_keeps|].
  intros [sig|e]; [|apply under_ret]. destruct (VerifySignature _ _ _); apply under_ret.
Qed.
End Under.

(** *** One version *)

Definition named (t : tfdb) (versionID : uuid) (version : string) : Prop :=
  exists v, In v (terraform_versions t) /\ v_ID v = versionID /\ v_Version v = version.

(** The rows carrying the id of [p] are rows of its version. *)
Definition owned (t : tfdb) (p : TerraformVersionPlatform) : Prop :=
  (p_ID p < next_uuid t)%nat /\
  forall q, In q (terraform_version_platforms t) -> p_ID q = p_ID p -> p_VersionID q = p_VersionID p.

(** A version of the catalogue with platforms of its own. *)
Definition version_rows (versionID : uuid) (version : string) (ps : list TerraformVersionPlatform)
  (w : env (mir Y)) : Prop :=
  named (tdb (st w)) versionID version /\
  forall p, In p ps -> p_VersionID p = versionID /\ owned (tdb (st w)) p.

Lemma named_stable t t' id version :
  run_step cfg (signed client cfg) t t' -> named t id version -> named t' id version.
Proof.
  intros [Hk _ _ _] (v & Hin & <- & <-).
  destruct (grows_in _ _ _ _ _ (keeps_versions _ _ _ Hk) Hin) as (v' & Hin' & E1 & _ & E3 & _).
  by exists v'.
Qed.

Lemma owned_stable t t' p :
  run_step cfg (signed client cfg) t t' -> owned t p -> owned t' p.
Proof.
  intros [_ _ [Hn Hf] _] [Hlt Ho]. split; [lia|]. intros q Hin E.
  destruct (Hf q Hin) as [(q0 & Hin0 & E1 & E2)|Hge]; [|lia].
  rewrite <- E2. apply Ho; [done | congruence].
Qed.

Lemma version_rows_stable versionID version ps : stable along (version_rows versionID version ps).
Proof.
  intros w w' [Hs _] [Hn Hp]. split; [by eapply named_stable|].
  intros p Hin. destruct (Hp p Hin) as [E Ho]. split; [done | by eapply owned_stable].
Qed.

Section Version.
Context (versionID : uuid) (version : string) (ps : list TerraformVersionPlatform).
#[local] Abbreviation K := (version_rows versionID version ps).
Let HK : stable along K := version_rows_stable versionID version ps.

Lemma under_platform_status p status key backend sha gpg att err :
  In p ps -> (gpg = true -> signed client cfg version) ->
  under K (UpdatePlatformSyncStatus (p_ID p) status key backend sha gpg att err).
Proof.
  intros Hin Hg. unfold UpdatePlatformSyncStatus.
  apply under_bind; [by apply under_pres, along_now | intros now].
  intros w HKw. assert (Hstep : forall t, t = tdb (st w) ->
    run_step cfg (signed client cfg) t
      (on_platforms (update_rows (fun q => (p_ID q =? p_ID p)%nat)
         (set_platform_sync status key backend sha gpg att err
            (if String.eqb status "synced" then Some now else None))) t)).
  { intros t ->. apply step_platforms_gen.
    - intros q. unfold same_artifact. cbn. repeat (split; [done|]). apply coalesce_none.
    - intros q Hq Hid Hup. cbn in Hup. right. apply Nat.eqb_eq in Hid.
      destruct HKw as [(v & Hv & Hvid & Hver) Hps]. destruct (Hps p Hin) as [Hpv [_ Ho]].
      exists v. split; [done|]. rewrite (Ho q Hq Hid), Hpv, Hver.
      split; [congruence | by apply Hg]. }
  assert (Halong : along w (snd (texec "UpdatePlatformSyncStatus"
      (on_platforms (update_rows (fun q => (p_ID q =? p_ID p)%nat)
         (set_platform_sync status key backend sha gpg att err
            (if String.eqb status "synced" then Some now else None)))) w))).
  { unfold along, on_st, moves, texec, tsql, db. destruct (faults w) as [|[] fs]; cbn;
      (split; [|reflexivity]); solve [by apply Hstep | reflexivity]. }
  split; [exact Halong | by eapply HK].
Qed.

Lemma under_fail_platform p sha gpg att err :
  In p ps -> (gpg = true -> signed client cfg version) ->
  under K (fail_platform p sha gpg att err).
Proof.
  intros Hin Hg. apply under_bind; [by apply under_platform_status | intros r; by apply under_ret].
Qed.

Lemma under_store_binary name p data sha gpg att fetched :
  In p ps -> (gpg = true -> signed client cfg version) ->
  sums_of client version fetched ->
  (forall sums raw h, fetched = Ok (sums, raw) -> sums !! p_Filename p = Some h ->
     equal_fold (sha256_hex data) h = true) ->
  under K (store_binary name version p data sha gpg att).
Proof.
  intros Hin Hg Hs Hsum. unfold store_binary.
  apply under_bind; [apply under_ext; [done | intros y; apply seek_keeps] | intros [u|e]];
    [|by apply under_fail_platform].
  destruct (ValidateStorageFilename (p_Filename p)) eqn:Ef; [by apply under_fail_platform|].
  apply under_bind; [apply under_pres; [done|]; apply along_upload; by eapply auth_binary
                    | intros [u'|e]]; [|by apply under_fail_platform].
  apply under_bind; [by apply under_platform_status | intros r; by apply under_ret].
Qed.

Definition fetched_sums (fetched : res (gmap string string * string)) : option (gmap string string) :=
  match fetched with Ok (m, _) => Some m | Err _ => None end.

Lemma check_sum_ok fetched filename actual b :
  check_sum (fetched_sums fetched) filename actual = Some b ->
  forall sums raw h, fetched = Ok (sums, raw) -> sums !! filename = Some h ->
    equal_fold actual h = true.
Proof.
  intros Hc sums raw h -> Hh. cbn in Hc. rewrite Hh in Hc. by destruct (equal_fold actual h).
Qed.

Lemma under_download name p fetched gpg verifier :
  In p ps -> (gpg = true -> signed client cfg version) -> sums_of client version fetched ->
  under K (download_platform name client version p (fetched_sums fetched) gpg verifier).
Proof.
  intros Hin Hg Hs. unfold download_platform.
  apply under_bind; [apply under_ext; [done | intros y; apply download_keeps] | intros [body|e]];
    [|by apply under_fail_platform].
  apply under_bind; [apply under_ext; [done | intros y; apply temp_keeps] | intros [u|e]];
    [|by apply under_fail_platform].
  apply under_bind.
  { destruct body; [apply under_ext; [done | intros y; apply copy_keeps] | by apply under_ret]. }
  intros copied. destruct body as [data|e]; [|by destruct copied; apply under_fail_platform].
  destruct copied as [u'|e]; [|by apply under_fail_platform].
  destruct (check_sum _ _ _) as [ok|] eqn:Ec; [|by apply under_fail_platform].
  apply under_bind.
  { destruct ok; [|by apply under_ret].
    apply under_bind; [by apply under_pres, along_sha | intros r; by apply under_ret]. }
  intros r. apply under_bind; [by apply under_verify_attestation | intros att].
  eapply under_store_binary; try done. by eapply check_sum_ok.
Qed.

Lemma under_sync_platform name p fetched gpg verifier :
  In p ps -> (gpg = true -> signed client cfg version) -> sums_of client version fetched ->
  under K (syncOnePlatform name client version p (fetched_sums fetched) gpg verifier).
Proof.
  intros Hin Hg Hs. unfold syncOnePlatform.
  destruct (p_StorageKey p) as [key|]; [|by apply under_download].
  apply under_bind; [apply under_ext; [done | intros y; apply exists_reads] | intros [[]|e]];
    [|by apply under_download..].
  apply under_bind; [by apply under_verify_attestation | intros att].
  apply under_bind; [by apply under_platform_status | intros r; by apply under_ret].
Qed.

(** The rows of the version are flagged once its checksum file is signed. *)
Lemma under_flag_version :
  signed client cfg version -> under K (UpdateGPGVerifiedForVersion versionID true).
Proof.
  intros Hs w HKw. unfold UpdateGPGVerifiedForVersion.
  set (upd := on_platforms _). assert (Hstep : run_step cfg (signed client cfg) (tdb (st w)) (upd (tdb (st w)))).
  { apply step_platforms_gen; [intros q; unfold same_artifact; cbn; tauto|].
    intros q Hq Hid _. right. apply andb_prop in Hid as [Hid _]. apply Nat.eqb_eq in Hid.
    destruct HKw as [(v & Hv & Hvid & Hver) _]. exists v. split; [done|].
    rewrite Hver. split; [congruence | done]. }
  assert (Halong : along w (snd (texec "UpdateGPGVerifiedForVersion" upd w))).
  { unfold along, on_st, moves, texec, tsql, db. destruct (faults w) as [|[] fs]; cbn -[upd];
      (split; [|reflexivity]); solve [exact Hstep | reflexivity]. }
  split; [exact Halong | by eapply HK].
Qed.
End Version.

Lemma under_sync_version name versionID version ps :
  under (version_rows versionID version ps)
    (syncVersionBinaries name client cfg version versionID ps).
Proof.
  pose proof (version_rows_stable versionID version ps) as HK. unfold syncVersionBinaries.
  apply under_bind; [by apply under_pres, along_version_status | intros r0].
  apply (under_bind_ret _ (sums_of client version));
    [apply under_ext; [done | intros y; apply sums_keeps] | |].
  { intros w. exists (mext (st w)). reflexivity. }
  intros fetched Hs.
  apply (under_bind_ret _ (fun r => forall sig, r = Some sig ->
    exists sums raw, fetched = Ok (sums, raw) /\ cfg_GPGVerify cfg = true /\
      signature_of client version sig /\ VerifySignature (gpgKeyForConfig cfg) raw sig = None)).
  { destruct fetched as [[m raw]|e]; [|by apply under_ret].
    destruct (_ && _); [by apply under_verified_signature | by apply under_ret]. }
  { destruct fetched as [[m raw]|e]; [|by intros w].
    destruct (cfg_GPGVerify cfg && _) eqn:Eg; [|by intros w]. bools.
    intros w sig Hsig. destruct (verified_signature_spec version raw w sig Hsig).
    by exists m, raw. }
  intros verified Hver. set (gpg := match verified with Some _ => true | None => false end).
  assert (Hsigned : gpg = true -> signed client cfg version).
  { unfold gpg. destruct verified as [sig|]; [|done]. intros _.
    destruct (Hver sig eq_refl) as (sums & raw & -> & Hg & Hsig & Hv).
    split; [done|]. by exists sums, raw, sig. }
  apply under_bind.
  { apply under_verification_files; [done| |].
    - destruct fetched as [[m raw]|e]; [|done]. intros _. by exists m.
    - destruct verified as [sig|]; [|done]. intros _.
      destruct (Hver sig eq_refl) as (sums & raw & -> & Hg & Hsig & Hv). by exists sums, raw. }
  intros u. apply under_bind.
  { destruct verified; [by apply under_flag_version, Hsigned | by apply under_ret]. }
  intros g. apply under_bind.
  { apply ensures_fold; [typeclasses eauto|]. intros [okc failc] p Hin.
    apply under_bind; [by apply under_sync_platform | intros []; by apply under_ret]. }
  intros [okc failc]. repeat destruct (_ && _); repeat destruct (_ =? _);
    (apply under_bind; [by apply under_pres, along_version_status | intros r; by apply under_ret]).
Qed.

(** *** Back-fills and the whole run *)

Lemma under_sub {A} (K V : env (mir Y) -> Prop) (c : prog (env (mir Y)) A) :
  stable along K -> (forall w, K w -> V w) -> under V c -> under K c.
Proof.
  intros HK HV Hc w HKw. destruct (Hc w (HV w HKw)) as [Hr _]. split; [done | by eapply HK].
Qed.

Definition listed_rows (vs : list TerraformVersion) (w : env (mir Y)) : Prop :=
  forall v, In v vs -> In v (terraform_versions (tdb (st w))).

Definition named_all (vs : list TerraformVersion) (w : env (mir Y)) : Prop :=
  forall v, In v vs -> named (tdb (st w)) (v_ID v) (v_Version v).

Lemma named_all_stable vs : stable along (named_all vs).
Proof. intros w w' [Hs _] Hn v Hin. eapply named_stable; [exact Hs | by apply Hn]. Qed.

Lemma list_versions_spec c b w :
  forall vs, fst (ListVersions c b w) = Ok vs ->
  listed_rows vs (snd (ListVersions c b w)) /\
  forall v, In v vs <-> In v (terraform_versions (tdb (st w))) /\ in_listing c b v = true.
Proof.
  unfold ListVersions, tquery, tsql, db. destruct (faults w) as [|[] fs]; cbn; try done;
    destruct (List.forallb _ _); cbn; try done; intros vs [= <-];
    (split; [intros v Hv|intros v]); rewrite ?go_sort_in, ?filter_In in *; tauto.
Qed.

Lemma ensures_list_versions K c b :
  stable along K ->
  ensures along K (ListVersions c b)
    (fun r w => K w /\ forall vs, r = Ok vs -> named_all vs w).
Proof.
  intros HK w HKw. split; [apply along_query|].
  split; [by eapply HK; [apply along_query|]|].
  intros vs Hvs. destruct (list_versions_spec c b w vs Hvs) as [Hl _].
  intros v Hin. exists v. split; [by apply Hl | done].
Qed.

Lemma along_for_wanted filtered body :
  (forall sv, under (version_rows (v_ID sv) (v_Version sv) []) (body sv)) ->
  preserves along (for_wanted (cfg_ID cfg) filtered body).
Proof.
  intros Hb. apply (preserves_ensures _ _ (fun _ _ => True)). unfold for_wanted.
  eapply ensures_bind; [typeclasses eauto | by apply ensures_list_versions|].
  intros [vs|e] w.
  2:{ intros _. split; [cbn; reflexivity | done]. }
  intros [_ Hn]. specialize (Hn vs eq_refl).
  assert (Hloop : under (named_all vs) (for_each vs (fun sv =>
     if bool_decide (v_Version sv ∈ wanted_versions filtered) then body sv else ret tt))).
  { apply ensures_for_each; [typeclasses eauto|]. intros sv Hin.
    pose proof (named_all_stable vs) as Hst.
    destruct (bool_decide _); [|by apply under_ret].
    apply (under_sub _ (version_rows (v_ID sv) (v_Version sv) []) _ Hst); [|apply Hb].
    intros w' Hw'. split; [by apply Hw' | done]. }
  destruct (Hloop w Hn) as [Hr _]. unfold bind, ret. cbn. by split.
Qed.

Lemma along_backfill_sums versionID sums : preserves along (BackfillPlatformSHA256 versionID sums).
Proof.
  unfold BackfillPlatformSHA256. destruct (bool_decide _); [apply preserves_ret; typeclasses eauto|].
  apply preserves_bind; [typeclasses eauto | apply along_query|].
  intros [ps|e]; [apply along_backfill_rows | apply preserves_ret; typeclasses eauto].
Qed.

Lemma under_fetch_sums K version :
  stable along K -> under K (ext (client_FetchSHASums client version)).
Proof. intros HK. apply under_ext; [done | intros y; apply sums_keeps]. Qed.

Lemma fetch_sums_returns version :
  returns (sums_of client version) (ext (client_FetchSHASums client version)).
Proof. intros w. exists (mext (st w)). reflexivity. Qed.

Lemma along_backfill_sha filtered : preserves along (backfillSHA256 client cfg filtered).
Proof.
  apply along_for_wanted. intros sv. pose proof (version_rows_stable (v_ID sv) (v_Version sv) []) as HK.
  apply under_bind; [by apply under_pres, along_query | intros [ps|e]]; [|by apply under_ret].
  destruct (List.existsb _ _); [|by apply under_ret].
  apply under_bind; [by apply under_fetch_sums | intros [[m raw]|e]]; [|by apply under_ret].
  destruct (bool_decide _); [by apply under_ret|].
  apply under_bind; [by apply under_pres, along_backfill_sums | intros r; by apply under_ret].
Qed.

Lemma along_backfill_gpg filtered :
  cfg_GPGVerify cfg = true -> preserves along (backfillGPGVerification client cfg filtered).
Proof.
  intros Hg. unfold backfillGPGVerification.
  destruct (String.eqb _ _); [apply preserves_ret; typeclasses eauto|].
  apply along_for_wanted. intros sv. pose proof (version_rows_stable (v_ID sv) (v_Version sv) []) as HK.
  apply under_bind; [by apply under_pres, along_query | intros [ps|e]]; [|by apply under_ret].
  destruct (List.existsb _ _); [|by apply under_ret].
  eapply under_bind_ret; [by apply under_fetch_sums | apply fetch_sums_returns|].
  intros [[m raw]|e] Hs; [|by apply under_ret].
  eapply under_bind_ret; [by apply under_verified_signature | apply verified_signature_spec|].
  intros [sig|] Hsig; [|by apply under_ret]. destruct (Hsig sig eq_refl).
  apply under_bind; [|intros r; by apply under_ret].
  apply under_flag_version. split; [done|]. by exists m, raw, sig.
Qed.

Lemma along_backfill_sig filtered : preserves along (backfillSignatureStorage client cfg filtered).
Proof.
  apply along_for_wanted. intros sv. pose proof (version_rows_stable (v_ID sv) (v_Version sv) []) as HK.
  destruct (_ && _); [by apply under_ret|].
  eapply under_bind_ret; [by apply under_fetch_sums | apply fetch_sums_returns|].
  intros [[m raw]|e] Hs; [|by apply under_ret].
  apply (under_bind_ret _ (fun r => forall sig, r = Some sig ->
    signature_of client (v_Version sv) sig /\ VerifySignature (gpgKeyForConfig cfg) raw sig = None)).
  { destruct (_ && _); [by apply under_verified_signature | by apply under_ret]. }
  { destruct (_ && _); [apply verified_signature_spec | by intros w]. }
  intros verified Hv. apply under_verification_files; [done | intros _; by exists m|].
  destruct verified as [sig|]; [|done]. intros _. destruct (Hv sig eq_refl). by exists m, raw.
Qed.

Lemma along_backfill_attestation filtered : preserves along (backfillAttestation cfg filtered).
Proof.
  unfold backfillAttestation.
  destruct (attestationVerifierForConfig cfg); [|apply preserves_ret; typeclasses eauto].
  apply along_for_wanted. intros sv. pose proof (version_rows_stable (v_ID sv) (v_Version sv) []) as HK.
  apply under_bind; [by apply under_pres, along_query | intros [ps|e]]; [|by apply under_ret].
  apply ensures_for_each; [typeclasses eauto|]. intros q _.
  destruct (_ || _); [by apply under_ret|].
  apply under_bind; [by apply under_verify_attestation | intros []]; [|by apply under_ret].
  apply under_bind; [by apply under_pres, along_attestation | intros r; by apply under_ret].
Qed.

Lemma along_update_latest c : preserves along (updateLatestVersion c).
Proof.
  unfold updateLatestVersion. apply preserves_bind; [typeclasses eauto | apply along_query|].
  intros [vs|e]; [|apply preserves_ret; typeclasses eauto].
  destruct (stable_first _); [apply preserves_ret; typeclasses eauto | apply along_set_latest].
Qed.

Lemma along_after_downloads filtered : preserves along (after_downloads client cfg filtered).
Proof.
  unfold after_downloads.
  apply preserves_bind; [typeclasses eauto | | intros r1].
  { destruct (cfg_GPGVerify cfg) eqn:Eg; cbn [andb]; [|apply preserves_ret; typeclasses eauto].
    destruct (negb _); [by apply along_backfill_gpg | apply preserves_ret; typeclasses eauto]. }
  apply preserves_bind; [typeclasses eauto | apply along_backfill_sha | intros r2].
  apply preserves_bind; [typeclasses eauto | apply along_backfill_sig | intros r3].
  apply preserves_bind; [typeclasses eauto | apply along_backfill_attestation | intros r4].
  apply preserves_bind; [typeclasses eauto | apply along_update_latest | intros r5].
  apply preserves_ret. typeclasses eauto.
Qed.

Lemma approval_gate version :
  returns (fun a => a = None <-> cfg_RequiresApproval cfg = false)
    (resolveTerraformApproval (version_strings (Y := Y) (cfg_ID cfg)) (cfg_RequiresApproval cfg)
       (cfg_AutoApproveRules cfg) version).
Proof.
  intros w. unfold resolveTerraformApproval. destruct (cfg_RequiresApproval cfg); [|by cbn].
  cbn [negb]. destruct (ParseAutoApproveRules _) as [[rules|]|e]; [|by cbn..].
  unfold bind. cbn [fst snd]. destruct (EvaluateAutoApprove _ _) as [[] ?]; by cbn.
Qed.

Lemma along_approval version :
  preserves along
    (resolveTerraformApproval (version_strings (cfg_ID cfg)) (cfg_RequiresApproval cfg)
       (cfg_AutoApproveRules cfg) version).
Proof.
  unfold resolveTerraformApproval.
  destruct (negb _); [apply preserves_ret; typeclasses eauto|].
  destruct (ParseAutoApproveRules _) as [[rules|]|e]; try (apply preserves_ret; typeclasses eauto).
  apply preserves_bind; [typeclasses eauto | |intros l].
  - apply preserves_bind; [typeclasses eauto | apply along_query|].
    intros [vs|e]; apply preserves_ret; typeclasses eauto.
  - destruct (EvaluateAutoApprove _ _) as [[] ?]; apply preserves_ret; typeclasses eauto.
Qed.

Lemma along_record_version vi : preserves along (record_version cfg vi).
Proof.
  unfold record_version.
  eapply preserves_bind_ret; [typeclasses eauto | apply along_approval | apply approval_gate|].
  intros approval Ha. apply preserves_bind; [typeclasses eauto | by apply along_upsert_version|].
  intros [row|e]; [|apply preserves_ret; typeclasses eauto].
  apply preserves_for_each; [typeclasses eauto|]. intros b.
  destruct (platform_allowed cfg b); [|apply preserves_ret; typeclasses eauto].
  apply preserves_bind; [typeclasses eauto | apply along_upsert_platform|].
  intros r. apply preserves_ret. typeclasses eauto.
Qed.

(** Every group is a listed version with pending platforms of its own. *)
Definition group_ok (dbv : list TerraformVersion) (pending : list TerraformVersionPlatform)
  (g : platform_group) : Prop :=
  let '(version, versionID, ps) := g in
  (exists v, In v dbv /\ v_ID v = versionID /\ v_Version v = version) /\
  forall p, In p ps -> In p pending /\ p_VersionID p = versionID.

Lemma add_to_group_ok dbv pending p gs :
  In p pending -> Forall (group_ok dbv pending) gs ->
  Forall (group_ok dbv pending) (add_to_group dbv p gs).
Proof.
  intros Hp Hgs. induction Hgs as [|[[version id] ps] gs [Hv Hps] Hgs IH]; cbn [add_to_group].
  - destruct (List.find _ _) as [v|] eqn:Ef; [|constructor].
    apply find_some in Ef as [Hin E]. apply Nat.eqb_eq in E.
    constructor; [|constructor]. split; [by exists v|].
    intros q [<-|[]]. split; [done | congruence].
  - destruct (Nat.eqb_spec id (p_VersionID p)) as [E|E]; constructor; try done.
    split; [done|]. intros q Hq. apply in_app_or in Hq as [Hq|[<-|[]]]; [by apply Hps|].
    split; [done | congruence].
Qed.

Lemma group_platforms_ok dbv pending : Forall (group_ok dbv pending) (group_platforms dbv pending).
Proof.
  unfold group_platforms.
  assert (Hgen : forall l gs, incl l pending -> Forall (group_ok dbv pending) gs ->
    Forall (group_ok dbv pending) (fold_left (fun gs p => add_to_group dbv p gs) l gs)).
  { induction l as [|p l IH]; intros gs Hl Hgs; [done|]. cbn [fold_left]. apply IH.
    - intros q Hq. apply Hl. by right.
    - apply add_to_group_ok; [apply Hl; by left | done]. }
  apply Hgen; [apply incl_refl | constructor].
Qed.

Definition all_owned (ps : list TerraformVersionPlatform) (w : env (mir Y)) : Prop :=
  forall p, In p ps -> owned (tdb (st w)) p.

Lemma all_owned_stable ps : stable along (all_owned ps).
Proof. intros w w' [Hs _] Ho p Hin. eapply owned_stable; [exact Hs | by apply Ho]. Qed.

Lemma ensures_pending c :
  ensures along (fun w => wf (tdb (st w))) (ListPendingPlatforms c)
    (fun r w => forall ps, r = Ok ps -> all_owned ps w).
Proof.
  intros w Hwf. split; [apply along_query|].
  unfold ListPendingPlatforms, tquery, tsql, db.
  assert (Ho : forall p, In p (List.filter (fun p => is_pending p &&
      List.existsb (fun v => (v_ID v =? p_VersionID p)%nat && (v_ConfigID v =? c)%nat &&
        negb (v_IsDeprecated v)) (terraform_versions (tdb (st w))))
      (terraform_version_platforms (tdb (st w)))) -> owned (tdb (st w)) p).
  { intros p Hin. apply filter_In in Hin as [Hin _]. destruct Hwf as (_ & W1 & W2).
    split; [by apply W1|]. intros q Hq E. by apply W2. }
  destruct (faults w) as [|[] fs]; cbn; try done; intros ps [= <-]; exact Ho.
Qed.

Lemma under_groups name dbv pending :
  forall w, named_all dbv w -> all_owned pending w ->
  along w (snd (fold_prog (fun '(vs, ps, vf) '(version, versionID, platforms) =>
      let! c := syncVersionBinaries name client cfg version versionID platforms in
      let '(a, b, d) := c in ret (vs + a, ps + b, vf + d))
    (0, 0, 0) (map_range (group_platforms dbv pending)) w)).
Proof.
  intros w Hn Ho. set (K := fun w => named_all dbv w /\ all_owned pending w).
  assert (HK : stable along K).
  { intros w1 w2 Hr [H1' H2']. split; [by eapply named_all_stable | by eapply all_owned_stable]. }
  apply (ensures_fold along K); [|by split].
  intros [[vs ps] vf] [[version id] platforms] Hin.
  apply (under_bind K); [|intros [[a b] d]; by apply under_ret].
  apply (under_sub K (version_rows id version platforms)); [done | | apply under_sync_version].
  intros w' [Hn' Ho']. pose proof (group_platforms_ok dbv pending) as Hg.
  rewrite List.Forall_forall in Hg.
  destruct (Hg (version, id, platforms)) as [(v & Hv & <- & <-) Hps].
  { eapply Permutation_in; [symmetry; apply map_range_perm | exact Hin]. }
  split; [by apply Hn'|]. intros p Hp. destruct (Hps p Hp). split; [done | by apply Ho'].
Qed.

Definition wf_world (w : env (mir Y)) : Prop := wf (tdb (st w)).

Lemma wf_world_stable : stable along wf_world.
Proof. intros w1 w2 [[_ _ _ Hs] _] Hw1. by apply Hs. Qed.

Lemma ensures_pre {A} (K P : env (mir Y) -> Prop) (c : prog (env (mir Y)) A) Q :
  (forall w, P w -> K w) -> ensures along K c Q -> ensures along P c Q.
Proof. intros HP Hc w Hw. apply Hc. by apply HP. Qed.

Lemma ensures_performSync name :
  newReleasesClient (cfg_UpstreamURL cfg) (productNameForTool (cfg_Tool cfg)) = Ok client ->
  ensures along wf_world (performSync name cfg) (fun _ _ => True).
Proof.
  intros Hc. pose proof wf_world_stable as Hst. unfold performSync. rewrite Hc.
  assert (Hret : forall P r, ensures along P (ret r) (fun (_ : sync_result) _ => True)).
  { intros P r w _. split; [cbn; reflexivity | done]. }
  eapply ensures_bind; [typeclasses eauto | |].
  { apply (under_ext wf_world Hst). intros y. apply list_keeps. }
  intros [all|e]; [|apply Hret]. eapply ensures_bind; [typeclasses eauto | |].
  { apply (under_pres wf_world Hst). apply preserves_for_each; [typeclasses eauto|].
    apply along_record_version. }
  intros u. eapply ensures_bind; [typeclasses eauto | apply ensures_pending|].
  intros [pending|e]; [|apply Hret].
  eapply ensures_bind; [typeclasses eauto | |].
  { apply (ensures_pre (all_owned pending)); [intros w Hp; by apply Hp|].
    apply (ensures_list_versions (all_owned pending)), all_owned_stable. }
  intros [dbv|e]; [|apply Hret]. cbv beta.
  intros w [Ho Hn]. specialize (Hn dbv eq_refl). split; [|done].
  pose proof (under_groups name dbv pending w Hn Ho) as Hg. unfold bind at 1.
  destruct (fold_prog _ _ _ w) as [[[vs ps] vf] w'] eqn:E; cbn [fst snd] in *.
  etransitivity; [exact Hg|].
  apply (along_after_downloads (selected_versions cfg all) w').
Qed.
End Run.

(** A run whose client cannot be built does nothing. *)
Lemma performSync_no_client name cfg e w :
  newReleasesClient (cfg_UpstreamURL cfg) (productNameForTool (cfg_Tool cfg)) = Err e ->
  snd (performSync name cfg w) = w.
Proof. intros Hc. unfold performSync. by rewrite Hc. Qed.

(** a mirror run never overrides an operator.  Whatever the upstream serves
    and whichever statements fail, every version row keeps its place, identity,
    approval status and deprecation, every platform row its identity, download
    count and (once stored) a storage key; the rows a run adds belong to its
    configuration, are not deprecated and carry an approval status exactly when
    the configuration is gated; configurations and histories are untouched. *)
Theorem sync_keeps_decisions (name : string) (cfg : TerraformMirrorConfig) (w : env (mir Y)) :
  wf (tdb (st w)) ->
  keeps cfg (tdb (st w)) (tdb (st (snd (performSync name cfg w)))) /\
  wf (tdb (st (snd (performSync name cfg w)))).
Proof.
  intros Hwf.
  destruct (newReleasesClient (cfg_UpstreamURL cfg) (productNameForTool (cfg_Tool cfg)))
    as [client|e] eqn:Hc.
  - destruct (ensures_performSync cfg client name Hc w Hwf) as [[[Hk _ _ Hw] _] _].
    split; [done | by apply Hw].
  - rewrite (performSync_no_client name cfg e w Hc). by split.
Qed.

(** C20: nothing unverified is published.  Every object a run writes to the
    storage backend is a checksum file as the upstream served it, a signature that
    verifies over such a file under the configuration's key, or a binary under its
    version, platform and safe file name whose SHA-256 is the one the version's
    checksum file lists for it (when that file could be fetched and lists it). *)
Theorem sync_writes_only_verified (name : string) (cfg : TerraformMirrorConfig)
  (client : releases_client) (w : env (mir Y)) :
  wf (tdb (st w)) ->
  newReleasesClient (cfg_UpstreamURL cfg) (productNameForTool (cfg_Tool cfg)) = Ok client ->
  only_writes (authentic client cfg) (mext (st w)) (mext (st (snd (performSync name cfg w)))).
Proof. intros Hwf Hc. apply (ensures_performSync cfg client name Hc w Hwf). Qed.

(** C26: the signature flag is earned.  A platform row a run leaves with
    [gpg_verified] set either had it before, under the same id and version, or
    belongs to a catalogue version for which the configuration asks for
    verification and the upstream served a checksum file and a signature of it
    that verifies under the configuration's key. *)
Theorem signature_flag_is_earned (name : string) (cfg : TerraformMirrorConfig)
  (client : releases_client) (w : env (mir Y)) :
  wf (tdb (st w)) ->
  newReleasesClient (cfg_UpstreamURL cfg) (productNameForTool (cfg_Tool cfg)) = Ok client ->
  flagged (signed client cfg) (tdb (st w)) (tdb (st (snd (performSync name cfg w)))).
Proof. intros Hwf Hc. apply (ensures_performSync cfg client name Hc w Hwf). Qed.

(** *** The latest version *)

Lemma by_version_strict_weak :
  StrictWeak (fun a b => 0 <? TfJob.compareTerraformSemver (v_Version a) (v_Version b)).
Proof. by apply (keyed_strict_weak (fun v => tf_key (v_Version v)) 3). Qed.

Definition stable_version (v : TerraformVersion) : bool :=
  negb (TfJob.hasPreReleaseSuffix (v_Version v)).

Lemma stable_first_spec vs :
  vs <> [] ->
  exists best rest, stable_first vs = best :: rest /\ In best vs /\
    ((exists v, In v vs /\ stable_version v = true) -> stable_version best = true) /\
    (forall v, In v vs -> stable_version v = true \/ stable_version best = false ->
       0 <= TfJob.compareTerraformSemver (v_Version best) (v_Version v)).
Proof.
  intros Hne. unfold stable_first.
  set (stables := List.filter _ vs). set (cands := match stables with [] => vs | _ => stables end).
  assert (Hc : cands <> [] /\ (forall v, In v cands -> In v vs) /\
               (stables <> [] -> cands = stables) /\ (stables = [] -> cands = vs)).
  { unfold cands. destruct stables as [|x l] eqn:E; [done|]. split; [done|]. split; [|done].
    intros v Hv. rewrite <- E in Hv. by apply filter_In in Hv as [? _]. }
  destruct Hc as (Hcne & Hsub & Hstab & Hunstab).
  pose proof (go_sort_sorted _ (fun a b => 0 <? TfJob.compareTerraformSemver (v_Version a) (v_Version b))
                cands by_version_strict_weak) as Hsorted.
  pose proof (fun v => go_sort_in (fun a b => 0 <? TfJob.compareTerraformSemver (v_Version a) (v_Version b))
                cands v) as Hin.
  destruct (go_sort _ cands) as [|best rest].
  { destruct cands as [|x l]; [done|]. exfalso. apply (Hin x). by left. }
  exists best, rest. split; [done|].
  assert (Hb : In best cands) by (apply Hin; by left).
  assert (Hmax : forall v, In v cands ->
            0 <= TfJob.compareTerraformSemver (v_Version best) (v_Version v)).
  { intros v Hv. apply Hin in Hv as [<-|Hv].
    - rewrite !tf_compare_key. pose proof (compare_parts_antisym (tf_key (v_Version best)) (tf_key (v_Version best))). lia.
    - apply StronglySorted_inv in Hsorted as [_ Hall]. rewrite List.Forall_forall in Hall.
      specialize (Hall v Hv). apply Z.ltb_ge in Hall. rewrite tf_compare_key in *.
      rewrite compare_parts_antisym in Hall. lia. }
  split; [by apply Hsub|].
  assert (Hst : stables <> [] -> stable_version best = true).
  { intros Hs. rewrite (Hstab Hs) in Hb. by apply filter_In in Hb as [_ ?]. }
  assert (Hins : forall v, In v vs -> stable_version v = true -> In v stables).
  { intros v Hv Hs. by apply filter_In. }
  split.
  - intros (v & Hv & Hs). apply Hst. intros E. specialize (Hins v Hv Hs). by rewrite E in Hins.
  - intros v Hv Hor. apply Hmax.
    destruct stables as [|x l] eqn:E; [by rewrite Hunstab|].
    rewrite Hstab by done. destruct Hor as [Hs|Hs]; [by apply Hins|]. by rewrite Hst in Hs.
Qed.

(** The candidates for latest: synced and visible rows of the configuration. *)
Definition candidate (configID : uuid) (v : TerraformVersion) : Prop :=
  v_ConfigID v = configID /\ v_SyncStatus v = "synced" /\ visible v = true.

Lemma set_latest_run c id (w : env (mir Y)) :
  faults w = [] ->
  SetLatestVersion c id w =
    (Ok tt, Env (Mir (on_versions (update_rows (fun v => (v_ID v =? id)%nat) (set_latest true))
                        (on_versions (update_rows (fun v => (v_ConfigID v =? c)%nat && v_IsLatest v)
                           (set_latest false)) (tdb (st w)))) (mext (st w)))
              [] (clock w) (ticks w)).
Proof.
  destruct w as [[t y] fs ck tk]. cbn. intros ->. reflexivity.
Qed.

(** the latest version is the right one.  When the database answers and some
    version of the configuration is synced and visible (ungated or approved), the
    rows marked latest afterwards are those of one such version; it is stable if
    any candidate is, and no candidate (no stable one, if it is stable) is newer. *)
Theorem latest_is_highest_visible (configID : uuid) (w : env (mir Y)) :
  faults w = [] ->
  (forall v, In v (terraform_versions (tdb (st w))) -> semverOrder (v_Version v) <> None) ->
  (exists v, In v (terraform_versions (tdb (st w))) /\ candidate configID v) ->
  let t := tdb (st w) in
  let t' := tdb (st (snd (updateLatestVersion configID w))) in
  exists best, In best (terraform_versions t) /\ candidate configID best /\
    ((exists v, In v (terraform_versions t) /\ candidate configID v /\ stable_version v = true) ->
     stable_version best = true) /\
    (forall v, In v (terraform_versions t) -> candidate configID v ->
       stable_version v = true \/ stable_version best = false ->
       0 <= TfJob.compareTerraformSemver (v_Version best) (v_Version v)) /\
    (forall v', In v' (terraform_versions t') -> v_ConfigID v' = configID ->
       (v_IsLatest v' = true <-> v_ID v' = v_ID best)).
Proof.
  intros Hf Hnum (v0 & Hv0 & Hc0) t t'.
  pose proof (list_versions_spec configID true w) as Hlist.
  assert (Hl : exists vs, ListVersions configID true w = (Ok vs, w)).
  { unfold ListVersions, tquery, tsql, db. rewrite Hf. cbn.
    assert (E : List.forallb (fun v => match semverOrder (v_Version v) with Some _ => true | None => false end)
       (List.filter (in_listing configID true) (terraform_versions (tdb (st w)))) = true).
    { apply forallb_forall. intros v Hv. apply filter_In in Hv as [Hv _].
      specialize (Hnum v Hv). by destruct (semverOrder (v_Version v)). }
    rewrite E. cbn. eexists. f_equal. destruct w as [[ty yy] fs ck tk]. cbn in *. by subst fs. }
  destruct Hl as [vs Hvs]. rewrite Hvs in Hlist. cbn [fst snd] in Hlist.
  destruct (Hlist vs eq_refl) as [_ Hin]. clear Hlist.
  assert (Hcand : forall v, In v (List.filter visible vs) <->
                    In v (terraform_versions t) /\ candidate configID v).
  { intros v. rewrite filter_In, Hin. unfold in_listing, candidate, t. cbn [negb orb].
    rewrite andb_true_iff, Nat.eqb_eq, String.eqb_eq. tauto. }
  destruct (stable_first_spec (List.filter visible vs)) as (best & rest & Hbest & Hinb & Hstab & Hmax).
  { intros E. assert (Hx : In v0 []); [|done]. rewrite <- E. by apply Hcand. }
  assert (Ht' : t' = on_versions (update_rows (fun v => (v_ID v =? v_ID best)%nat) (set_latest true))
      (on_versions (update_rows (fun v => (v_ConfigID v =? configID)%nat && v_IsLatest v)
         (set_latest false)) t)).
  { unfold t', updateLatestVersion, bind. rewrite Hvs. cbn [fst snd]. rewrite Hbest.
    by rewrite set_latest_run. }
  exists best. apply Hcand in Hinb as [Hb1 Hb2].
  repeat (split; [done|]). split; [|split].
  - intros (v & Hv & Hc & Hs). apply Hstab. exists v. split; [by apply Hcand | done].
  - intros v Hv Hc Hor. apply Hmax; [by apply Hcand | done].
  - intros v'. rewrite Ht'. cbn [terraform_versions on_versions]. intros Hv' Hcfg.
    apply in_update_rows in Hv' as (v1 & Hv1 & ->).
    apply in_update_rows in Hv1 as (v2 & Hv2 & ->).
    destruct (v_ConfigID v2 =? configID)%nat eqn:E1, (v_IsLatest v2) eqn:E2; cbn [andb] in *;
      cbn [v_ID set_latest] in *;
      (destruct (Nat.eqb_spec (v_ID v2) (v_ID best)) as [E3|E3]; cbn in *; [tauto|]);
      rewrite ?E2; try (split; congruence); exfalso;
      apply Nat.eqb_neq in E1; by apply E1.
Qed.
End Safety.

(** ** Divergences *)

Section Divergences.
Context {Y : Type} `{GoSort} `{OpenPGP} `{ReleaseKeys}.

(** a custom release key is never used: every configuration a run loads
    verifies with the key of its tool, whatever [custom_gpg_key] and
    [skip_gpg_verify] hold in the row, because the query does not select them. *)
Theorem custom_key_is_never_used (configID : uuid) (w : env (mir Y)) (c : TerraformMirrorConfig) :
  fst (GetByID configID w) = Ok (Some c) -> gpgKeyForConfig c = gpgKeyForTool (cfg_Tool c).
Proof.
  unfold GetByID, tquery, tsql, db.
  destruct (faults w) as [|[] fs]; cbn; try done;
    destruct (List.find _ _); cbn; try done; intros [= <-]; reflexivity.
Qed.

(** recording an upstream build again erases the digest known for it: the row
    keeps its identity, status and flags, but its [sha256] becomes empty. *)
Theorem rerecording_erases_digest (versionID : uuid) (b : TerraformReleaseBuild)
  (w : env (mir Y)) (p : TerraformVersionPlatform) :
  faults w = [] ->
  In p (terraform_version_platforms (tdb (st w))) ->
  p_VersionID p = versionID -> p_OS p = b_OS b -> p_Arch p = b_Arch b ->
  (exists v, In v (terraform_versions (tdb (st w))) /\ v_ID v = versionID) ->
  exists p', In p' (terraform_version_platforms
                      (tdb (st (snd (UpsertPlatform (new_platform versionID b) w))))) /\
    p_ID p' = p_ID p /\ p_SyncStatus p' = p_SyncStatus p /\
    p_SHA256Verified p' = p_SHA256Verified p /\ p_SHA256 p' = "".
Proof.
  intros Hf Hin Hv Ho Ha (v & Hinv & Hid).
  assert (Hsame : same_platform (new_platform versionID b) p = true).
  { unfold same_platform. cbn. by rewrite Hv, Ho, Ha, Nat.eqb_refl, !String.eqb_refl. }
  exists (set_upstream (b_URL b) (b_Filename b) "" p). split; [|done].
  unfold UpsertPlatform, bind, tsql, db. cbn -[List.existsb List.find]. rewrite Hf.
  cbn -[List.existsb List.find].
  assert (E : List.existsb (fun v => (v_ID v =? versionID)%nat) (terraform_versions (tdb (st w))) = true).
  { apply existsb_exists. exists v. split; [done | by apply Nat.eqb_eq]. }
  rewrite E. cbn -[List.find].
  destruct (List.find _ _) as [old|] eqn:Ef.
  - cbn. apply in_map_iff. exists p. by rewrite Hsame.
  - exfalso. pose proof (find_none _ _ Ef p Hin) as Q. cbn in Q. by rewrite Hsame in Q.
Qed.
End Divergences.

(** ** A concrete mirror

    Upstream, storage and verification of a small setting in which every
    interface of the run is a function that computes. *)
Module Demo.
Definition world := gmap string string.

Definition linux_build : TerraformReleaseBuild := {|
  b_Name := "terraform"; b_Version := "1.9.0"; b_OS := "linux"; b_Arch := "amd64";
  b_Filename := "terraform_1.9.0_linux_amd64.zip"; b_URL := "zip" |}.
Definition upstream_version : TerraformVersionInfo := {|
  vi_Version := "1.9.0"; vi_SHASumsURL := ""; vi_SHASumsSignature := "";
  vi_SHASumsSignatures := []; vi_Builds := [linux_build]; vi_PerFileSHAURLs := ∅ |}.
Definition sums_text := "d-ZIP  terraform_1.9.0_linux_amd64.zip".

#[export] Instance demo_client : ReleasesClient world := {|
  client_ListVersions _ := ret (Ok [upstream_version]);
  client_FetchSHASums _ _ := ret (Ok (ParseSHASums sums_text, sums_text));
  client_FetchSHASumsSignature _ _ := ret (Ok "SIG");
  client_DownloadBinaryStream _ _ := ret (Ok (Ok "ZIP"));
|}.
#[export] Instance demo_storage : Storage world := {|
  storage_Exists k := fun y => (Ok (bool_decide (is_Some (y !! k))), y);
  storage_Upload k d := fun y =>
    (Ok {| ur_Path := k; ur_Size := Z.of_nat (String.length d); ur_Checksum := "" |}, <[k := d]> y);
|}.
#[export] Instance demo_temp : TempFiles world := {|
  CreateTemp := ret (Ok tt); CopyToTemp _ := ret (Ok tt); SeekStart := ret (Ok tt);
  ReadBack := ret (Ok tt) |}.
#[export] Instance demo_sha : Sha256 := fun d => "d-" +:+ d.
#[export] Instance demo_pgp : OpenPGP := {|
  keyring := string;
  ReadArmoredKeyRing k := Ok k;
  armor_Decode _ := None;
  CheckDetachedSignature k _ s := if String.eqb k "KEY" && String.eqb s "SIG" then None
                                  else Some (ErrExt "bad signature");
|}.
#[export] Instance demo_keys : ReleaseKeys := {|
  ResolveReleasesKey _ := ""; HashiCorpReleasesGPGKey := "KEY"; OpenTofuReleasesGPGKey := "TOFU" |}.
#[export] Instance demo_attestations : Attestations world :=
  fun _ _ => ret (Some ErrAttestationNotFound).
#[export] Instance demo_details : DetailsCodec := fun _ => Ok "{}".
#[export] Instance demo_strings : StringsCodec := {|
  unmarshal_strings _ := Err (ErrMsg "json"); marshal_strings _ := Err (ErrMsg "json") |}.
#[export] Instance demo_rules : RulesCodec := fun _ => Err (ErrMsg "json").
#[export] Instance demo_range : MapRange := fun _ l => l.
#[export] Instance demo_range_laws : MapRangeLaws.
Proof. by intros A l. Qed.
#[export] Instance demo_sort : GoSort := stable_sort.
#[export] Instance demo_sort_laws : GoSortLaws := stable_sort_laws.
#[export] Instance demo_versions : GoVersion := release_version.

#[export] Program Instance demo_storage_laws : StorageLaws world := {| objects y := y |}.
Next Obligation. done. Qed.
Next Obligation. by left. Qed.
#[export] Instance demo_outside_laws : OutsideLaws world.
Proof. by split. Qed.

Definition config : TerraformMirrorConfig := {|
  cfg_ID := 1%nat; cfg_Name := "tf"; cfg_Description := None; cfg_Tool := "terraform"; cfg_Enabled := true;
  cfg_UpstreamURL := "https://releases.hashicorp.com"; cfg_PlatformFilter := None;
  cfg_VersionFilter := Some "1.9."; cfg_GPGVerify := true; cfg_StableOnly := true;
  cfg_SyncIntervalHours := 24; cfg_RequiresApproval := true; cfg_AutoApproveRules := None;
  cfg_LastSyncAt := None; cfg_LastSyncStatus := None; cfg_LastSyncError := None;
  cfg_CustomGPGKey := None; cfg_SkipGPGVerify := false; cfg_VerifyGitHubAttestation := false |}.

Definition old_version : TerraformVersion := {|
  v_ID := 2%nat; v_ConfigID := 1%nat; v_Version := "1.8.0"; v_IsLatest := false;
  v_IsDeprecated := true; v_ReleaseDate := None; v_SyncStatus := "synced"; v_SyncError := None;
  v_SyncedAt := None; v_ApprovalStatus := Some "approved"; v_SumsStorageKey := None;
  v_SigStorageKey := None |}.

Definition start : env (mir world) := quiet (Mir {|
  terraform_mirror_configs := [config]; terraform_versions := [old_version];
  terraform_version_platforms := []; terraform_sync_history := []; next_uuid := 3%nat |} ∅).

Definition hashicorp : releases_client :=
  TerraformReleasesClient "https://releases.hashicorp.com" "terraform".

Lemma start_wf : wf (tdb (st start)).
Proof. split; [done|]. split; [by intros p [] | by intros p q []]. Qed.

(** The run of the witnesses does publish: binary, checksums, signature, flag. *)
Example run_publishes :
  let w := snd (performSync "local" config start) in
  mext (st w) !! "terraform-binaries/1.9.0/linux/amd64/terraform_1.9.0_linux_amd64.zip" = Some "ZIP" /\
  mext (st w) !! "terraform-binaries/1.9.0/SHA256SUMS" = Some sums_text /\
  mext (st w) !! "terraform-binaries/1.9.0/SHA256SUMS.terraform.sig" = Some "SIG" /\
  (p_GPGVerified <$> terraform_version_platforms (tdb (st w))) = [true] /\
  (v_Version <$> terraform_versions (tdb (st w))) = ["1.8.0"; "1.9.0"].
Proof. vm_compute. repeat split. Qed.
End Demo.

Import Demo.

Theorem sync_keeps_decisions_witness :
  keeps config (tdb (st start)) (tdb (st (snd (performSync "local" config start)))) /\
  wf (tdb (st (snd (performSync "local" config start)))).
Proof. apply (sync_keeps_decisions "local" config start start_wf). Defined.

Theorem sync_writes_only_verified_witness :
  only_writes (authentic hashicorp config) (mext (st start))
    (mext (st (snd (performSync "local" config start)))).
Proof. apply (sync_writes_only_verified "local" config hashicorp start start_wf eq_refl). Defined.

Theorem signature_flag_is_earned_witness :
  flagged (signed hashicorp config) (tdb (st start)) (tdb (st (snd (performSync "local" config start)))).
Proof. apply (signature_flag_is_earned "local" config hashicorp start start_wf eq_refl). Defined.

Theorem latest_is_highest_visible_witness :
  exists best, In best [old_version] /\ candidate 1%nat best /\
    ((exists v, In v [old_version] /\ candidate 1%nat v /\ stable_version v = true) ->
     stable_version best = true) /\
    (forall v, In v [old_version] -> candidate 1%nat v ->
       stable_version v = true \/ stable_version best = false ->
       0 <= TfJob.compareTerraformSemver (v_Version best) (v_Version v)) /\
    (forall v', In v' (terraform_versions (tdb (st (snd (updateLatestVersion 1%nat start))))) ->
       v_ConfigID v' = 1%nat -> (v_IsLatest v' = true <-> v_ID v' = v_ID best)).
Proof.
  apply (latest_is_highest_visible 1%nat start).
  - reflexivity.
  - intros v [<-|[]]. discriminate.
  - exists old_version. split; [by left | by split].
Defined.

(** A row with a key of its own; the query hands out [config]. *)
Definition custom_world : env (mir world) := quiet (Mir {|
  terraform_mirror_configs := [{|
    cfg_ID := 1%nat; cfg_Name := "tf"; cfg_Description := None; cfg_Tool := "terraform"; cfg_Enabled := true;
    cfg_UpstreamURL := "https://releases.hashicorp.com"; cfg_PlatformFilter := None;
    cfg_VersionFilter := Some "1.9."; cfg_GPGVerify := true; cfg_StableOnly := true;
    cfg_SyncIntervalHours := 24; cfg_RequiresApproval := true; cfg_AutoApproveRules := None;
    cfg_LastSyncAt := None; cfg_LastSyncStatus := None; cfg_LastSyncError := None;
    cfg_CustomGPGKey := Some "MINE"; cfg_SkipGPGVerify := false;
    cfg_VerifyGitHubAttestation := false |}];
  terraform_versions := []; terraform_version_platforms := []; terraform_sync_history := [];
  next_uuid := 3%nat |} ∅).

Theorem custom_key_is_never_used_witness :
  gpgKeyForConfig config = gpgKeyForTool (cfg_Tool config).
Proof. apply (custom_key_is_never_used (Y := world) 1%nat custom_world config). reflexivity. Defined.

Definition stored_platform : TerraformVersionPlatform := {|
  p_ID := 7%nat; p_VersionID := 2%nat; p_OS := "linux"; p_Arch := "amd64"; p_UpstreamURL := "";
  p_Filename := ""; p_SHA256 := "ab"; p_StorageKey := Some "k"; p_StorageBackend := Some "local";
  p_SHA256Verified := true; p_GPGVerified := true; p_AttestationVerified := false;
  p_SyncStatus := "synced"; p_SyncError := None; p_SyncedAt := None; p_DownloadCount := 0 |}.

Definition synced_world : env (mir world) := quiet (Mir {|
  terraform_mirror_configs := [config]; terraform_versions := [old_version];
  terraform_version_platforms := [stored_platform]; terraform_sync_history := [];
  next_uuid := 8%nat |} ∅).

Theorem rerecording_erases_digest_witness :
  exists p', In p' (terraform_version_platforms
               (tdb (st (snd (UpsertPlatform (new_platform 2%nat linux_build) synced_world))))) /\
    p_ID p' = 7%nat /\ p_SyncStatus p' = "synced" /\ p_SHA256Verified p' = true /\ p_SHA256 p' = "".
Proof.
  apply (rerecording_erases_digest 2%nat linux_build synced_world stored_platform); try reflexivity.
  - by left.
  - exists old_version. split; [by left | done].
Defined.
