(* ===== verification/SyncSchedule.v ===== *)
(** * Scheduling of mirror runs

    The part of [internal/jobs/terraform_mirror_sync.go] (binary mirror) and
    [internal/jobs/mirror_sync.go] (provider mirror) that starts and ends runs: the
    [activeSyncs] set under its mutex, the scheduled tick, the manual triggers and
    the deferred release.  Goroutines interleave freely: each of the steps below is
    one critical section or one channel operation, and a state is reachable when
    some interleaving leads to it. *)

From S2P Require Import Prelude TfMirrorRepo.
From stdpp Require Import gmap relations.

(** ** State *)

Record jobs := {
  activeSyncs : gset uuid;
  (** the manual trigger channel of the binary mirror *)
  manualTriggerCh : list uuid;
  stopped : bool;
  (** configurations the current tick has still to look at *)
  scheduling : list uuid;
  (** manual runs spawned but not yet past the mutex *)
  spawned : list uuid;
  (** manual provider runs past the mutex, loading their configuration *)
  loading : list uuid;
  (** runs in progress *)
  running : list uuid;
}.

Definition idle : jobs := {|
  activeSyncs := ∅; manualTriggerCh := []; stopped := false; scheduling := [];
  spawned := []; loading := []; running := [] |}.

(** One occurrence less. *)
Fixpoint remove1 (x : uuid) (l : list uuid) : list uuid :=
  match l with
  | [] => []
  | y :: l' => if (y =? x)%nat then l' else y :: remove1 x l'
  end.

Definition upd (active : gset uuid) (ch sch sp ld rn : list uuid) (s : jobs) : jobs := {|
  activeSyncs := active; manualTriggerCh := ch; stopped := stopped s; scheduling := sch;
  spawned := sp; loading := ld; running := rn |}.

(** ** The critical sections *)

(** [if j.activeSyncs[id] { return }; j.activeSyncs[id] = true], then the run. *)
Definition begin_run (id : uuid) (s : jobs) : jobs :=
  if bool_decide (id ∈ activeSyncs s) then s
  else upd ({[id]} ∪ activeSyncs s) (manualTriggerCh s) (scheduling s) (spawned s) (loading s)
         (running s ++ [id]) s.

(** The deferred function of [doSync] and [syncMirror]; it runs on return and on
    panic alike. *)
Definition end_run (id : uuid) (s : jobs) : jobs :=
  upd (activeSyncs s ∖ {[id]}) (manualTriggerCh s) (scheduling s) (spawned s) (loading s)
    (remove1 id (running s)) s.

(** A tick takes the configurations due; each turn of its loop is one section. *)
Definition begin_tick (due : list uuid) (s : jobs) : jobs :=
  upd (activeSyncs s) (manualTriggerCh s) due (spawned s) (loading s) (running s) s.

Definition schedule_next (s : jobs) : jobs :=
  match scheduling s with
  | [] => s
  | id :: rest =>
      begin_run id (upd (activeSyncs s) (manualTriggerCh s) rest (spawned s) (loading s) (running s) s)
  end.

Definition channel_capacity : nat := 16.

(** [TriggerSync]: a non-blocking send; [false] is the queue-full error. *)
Definition TriggerSync (id : uuid) (s : jobs) : bool * jobs :=
  if (length (manualTriggerCh s) <? channel_capacity)%nat
  then (true, upd (activeSyncs s) (manualTriggerCh s ++ [id]) (scheduling s) (spawned s)
                (loading s) (running s) s)
  else (false, s).

(** The loop receives from the channel and spawns [syncConfig]. *)
Definition dispatch (s : jobs) : jobs :=
  match manualTriggerCh s with
  | [] => s
  | id :: ch => upd (activeSyncs s) ch (scheduling s) (spawned s ++ [id]) (loading s) (running s) s
  end.

(** The critical section of [syncConfig]. *)
Definition syncConfig (id : uuid) (s : jobs) : jobs :=
  begin_run id (upd (activeSyncs s) (manualTriggerCh s) (scheduling s) (remove1 id (spawned s))
                  (loading s) (running s) s).

(** [TriggerManualSync] of the provider mirror: mark, load, then run or unmark. *)
Definition TriggerManualSync (id : uuid) (s : jobs) : bool * jobs :=
  if bool_decide (id ∈ activeSyncs s) then (false, s)
  else (true, upd ({[id]} ∪ activeSyncs s) (manualTriggerCh s) (scheduling s) (spawned s)
                (loading s ++ [id]) (running s) s).

Definition config_loaded (id : uuid) (s : jobs) : jobs :=
  upd (activeSyncs s) (manualTriggerCh s) (scheduling s) (spawned s) (remove1 id (loading s))
    (running s ++ [id]) s.

Definition config_missing (id : uuid) (s : jobs) : jobs :=
  upd (activeSyncs s ∖ {[id]}) (manualTriggerCh s) (scheduling s) (spawned s)
    (remove1 id (loading s)) (running s) s.

Definition Stop (s : jobs) : jobs := {|
  activeSyncs := activeSyncs s; manualTriggerCh := manualTriggerCh s; stopped := true;
  scheduling := scheduling s; spawned := spawned s; loading := loading s; running := running s |}.

(** ** Interleavings *)

Inductive job := BinaryMirror | ProviderMirror.

Inductive step : job -> jobs -> jobs -> Prop :=
| step_tick j due s : scheduling s = [] -> step j s (begin_tick due s)
| step_schedule j s : scheduling s <> [] -> step j s (schedule_next s)
| step_end j id s : In id (running s) -> step j s (end_run id s)
| step_stop j s : step j s (Stop s)
| step_trigger id s : step BinaryMirror s (snd (TriggerSync id s))
| step_dispatch s : scheduling s = [] -> manualTriggerCh s <> [] -> step BinaryMirror s (dispatch s)
| step_manual id s : In id (spawned s) -> step BinaryMirror s (syncConfig id s)
| step_manual_mark id s : step ProviderMirror s (snd (TriggerManualSync id s))
| step_loaded id s : In id (loading s) -> step ProviderMirror s (config_loaded id s)
| step_missing id s : In id (loading s) -> step ProviderMirror s (config_missing id s).

Definition reachable (j : job) (s : jobs) : Prop := rtc (step j) idle s.

(** ** Exclusion *)

(** Who holds a configuration: a run, or a manual trigger about to become one. *)
Definition holders (s : jobs) : list uuid := running s ++ loading s.

Definition exclusive (s : jobs) : Prop :=
  NoDup (holders s) /\ (forall id, id ∈ activeSyncs s <-> id ∈ holders s) /\
  (length (manualTriggerCh s) <= channel_capacity)%nat.

Lemma remove1_perm x l : x ∈ l -> Permutation l (x :: remove1 x l).
Proof.
  induction l as [|y l IH]; intros Hx; [by apply elem_of_nil in Hx|]. cbn [remove1].
  destruct (Nat.eqb_spec y x) as [->|Hne]; [done|].
  apply elem_of_cons in Hx as [->|Hx]; [done|].
  etransitivity; [apply Permutation_skip, IH, Hx | apply perm_swap].
Qed.

(** Two states with the same holders up to order, marks and a short channel. *)
Lemma exclusive_perm s s' :
  exclusive s -> Permutation (holders s) (holders s') -> activeSyncs s' = activeSyncs s ->
  (length (manualTriggerCh s') <= channel_capacity)%nat -> exclusive s'.
Proof.
  intros (Hn & Ha & _) Hp E Hc. split; [by rewrite <- Hp|]. split; [|done].
  intros id. rewrite E, Ha. by rewrite Hp.
Qed.

Lemma exclusive_same s s' :
  exclusive s -> running s' = running s -> loading s' = loading s ->
  activeSyncs s' = activeSyncs s -> (length (manualTriggerCh s') <= channel_capacity)%nat ->
  exclusive s'.
Proof.
  intros Hs E1 E2 E3 Hc. apply (exclusive_perm s); try done. unfold holders. by rewrite E1, E2.
Qed.

Lemma exclusive_channel s : exclusive s -> (length (manualTriggerCh s) <= channel_capacity)%nat.
Proof. intros Hs. apply Hs. Qed.

Lemma exclusive_acquire id s s' :
  exclusive s -> id ∉ activeSyncs s -> Permutation (id :: holders s) (holders s') ->
  activeSyncs s' = {[id]} ∪ activeSyncs s -> manualTriggerCh s' = manualTriggerCh s ->
  exclusive s'.
Proof.
  intros (Hn & Ha & Hc) Hid Hp E E'. split; [|split; [|by rewrite E']].
  - rewrite <- Hp. apply NoDup_cons. by rewrite <- Ha.
  - intros x. rewrite E, <- Hp, elem_of_cons, elem_of_union, elem_of_singleton, Ha. done.
Qed.

Lemma exclusive_release id s s' :
  exclusive s -> Permutation (holders s) (id :: holders s') ->
  activeSyncs s' = activeSyncs s ∖ {[id]} -> manualTriggerCh s' = manualTriggerCh s ->
  exclusive s'.
Proof.
  intros (Hn & Ha & Hc) Hp E E'. rewrite Hp in Hn. apply NoDup_cons in Hn as [Hid Hn].
  split; [done|]. split; [|by rewrite E'].
  intros x. rewrite E, elem_of_difference, elem_of_singleton, Ha, Hp, elem_of_cons.
  split; [tauto|]. intros Hx. split; [tauto|]. intros ->. done.
Qed.

Lemma begin_run_exclusive id s : exclusive s -> exclusive (begin_run id s).
Proof.
  intros Hs. unfold begin_run. case_bool_decide as Hid; [done|].
  apply (exclusive_acquire id s); try done. unfold holders, upd. cbn.
  rewrite <- app_assoc. apply Permutation_middle.
Qed.

Lemma step_exclusive j s s' : step j s s' -> exclusive s -> exclusive s'.
Proof.
  intros Hstep Hs. destruct Hstep as [j due s E|j s E|j id s Hid|j s|id s|s E E'|id s Hid|id s|id s Hid|id s Hid].
  - apply (exclusive_same s); try done; by apply exclusive_channel.
  - unfold schedule_next. destruct (scheduling s) as [|id rest]; [done|].
    apply begin_run_exclusive. apply (exclusive_same s); try done; by apply exclusive_channel.
  - apply (exclusive_release id s); try done. unfold holders, end_run, upd. cbn.
    apply list_elem_of_In in Hid. by rewrite (remove1_perm id (running s)) at 1.
  - apply (exclusive_same s); try done; by apply exclusive_channel.
  - unfold TriggerSync. destruct (Nat.ltb_spec (length (manualTriggerCh s)) channel_capacity); [|done].
    apply (exclusive_same s); try done. cbn. rewrite length_app. cbn. lia.
  - unfold dispatch. destruct (manualTriggerCh s) as [|id ch] eqn:Ech; [done|].
    apply (exclusive_same s); try done. cbn. destruct Hs as (_ & _ & Hc). rewrite Ech in Hc.
    cbn in Hc. lia.
  - apply begin_run_exclusive. apply (exclusive_same s); try done; by apply exclusive_channel.
  - unfold TriggerManualSync. case_bool_decide as Hid; [done|]. cbn [snd].
    apply (exclusive_acquire id s); try done. unfold holders, upd. cbn.
    rewrite app_assoc. by rewrite <- (Permutation_cons_append (running s ++ loading s)).
  - apply (exclusive_perm s); try done; [|by apply Hs]. unfold holders, config_loaded, upd. cbn.
    apply list_elem_of_In in Hid. rewrite (remove1_perm id (loading s)) at 1 by done.
    by rewrite <- app_assoc.
  - apply (exclusive_release id s); try done. unfold holders, config_missing, upd. cbn.
    apply list_elem_of_In in Hid. rewrite (remove1_perm id (loading s)) at 1 by done.
    by rewrite Permutation_middle.
Qed.

(** a configuration never has two runs.  In every state either job can reach,
    under any interleaving of ticks, manual triggers, lookups and ends of runs, the
    runs in progress are of distinct configurations, [activeSyncs] holds exactly the
    configurations with a run or an accepted manual trigger, and the trigger channel
    never holds more than its capacity; so a configuration without a run is never
    left marked, and beginning one always succeeds. *)
Theorem one_run_per_configuration (j : job) (s : jobs) :
  reachable j s ->
  NoDup (running s) /\
  (forall id, id ∈ activeSyncs s <-> id ∈ running s \/ id ∈ loading s) /\
  (length (manualTriggerCh s) <= 16)%nat /\
  (forall id, id ∉ running s -> id ∉ loading s -> id ∈ running (begin_run id s)).
Proof.
  intros Hr. assert (Hs : exclusive s).
  { apply (rtc_ind_r (R := step j) exclusive idle); [| |exact Hr].
    - split; [constructor|]. split; [|cbn; lia]. intros id. cbn. set_solver.
    - intros s1 s2 _ Hstep Hs1. by eapply step_exclusive. }
  destruct Hs as (Hn & Ha & Hc). unfold holders in *.
  split; [by apply NoDup_app in Hn as (? & _)|].
  assert (Hact : forall id, id ∈ activeSyncs s <-> id ∈ running s \/ id ∈ loading s).
  { intros id. by rewrite Ha, elem_of_app. }
  split; [done|]. split; [done|]. intros id Hnr Hnl. unfold begin_run.
  rewrite bool_decide_eq_false_2 by (rewrite Hact; tauto).
  cbn. apply elem_of_app. right. by apply list_elem_of_singleton.
Qed.

(** Two ticks and a manual trigger race for configuration 7. *)
Definition race : jobs :=
  syncConfig 7 (dispatch (snd (TriggerSync 7 (schedule_next (begin_tick [7] idle)))))%nat.

Theorem one_run_per_configuration_witness :
  NoDup (running race) /\
  (forall id, id ∈ activeSyncs race <-> id ∈ running race \/ id ∈ loading race) /\
  (length (manualTriggerCh race) <= 16)%nat /\
  (forall id, id ∉ running race -> id ∉ loading race -> id ∈ running (begin_run id race)).
Proof.
  apply (one_run_per_configuration BinaryMirror race).
  eapply rtc_l; [apply (step_tick _ [7%nat]); reflexivity|].
  eapply rtc_l; [apply step_schedule; discriminate|].
  eapply rtc_l; [apply (step_trigger 7%nat)|].
  eapply rtc_l; [apply step_dispatch; [reflexivity | discriminate]|].
  apply rtc_once. apply (step_manual 7%nat). by left.
Defined.
