(* ===== verification/Tables.v ===== *)
(** * Statements over the tables of a component

    A component's tables [T] beside the state [Y] of everything outside the process.
    A statement reads or rewrites the tables in one step, or fails and leaves them
    alone; identifiers are drawn fresh from a counter among the tables. *)

From S2P Require Import Prelude.

Record beside (T Y : Type) := Beside { tabs : T; around : Y }.
Arguments Beside {T Y} _ _.
Arguments tabs {T Y} _.
Arguments around {T Y} _.

(** Row identifiers; [uuid.New] never repeats one. *)
Class Serial (T : Type) := { next_id : T -> nat; used_id : T -> T }.

Section Statements.
Context {T Y : Type}.
#[local] Abbreviation P := (prog (env (beside T Y))).

Definition sql {A} (op : string) (f : T -> res A * T) : P (res A) :=
  db op (fun s => let r := f (tabs s) in (fst r, Beside (snd r) (around s))).
Definition query {A} (op : string) (f : T -> res A) : P (res A) := sql op (fun t => (f t, t)).
Definition exec (op : string) (f : T -> T) : P (res unit) := sql op (fun t => (Ok tt, f t)).

Definition draw_id `{Serial T} : P nat :=
  state (fun s => (next_id (tabs s), Beside (used_id (tabs s)) (around s))).

(** A call to the outside. *)
Definition outward {A} (c : prog Y A) : P A :=
  state (fun s => let r := c (around s) in (fst r, Beside (tabs s) (snd r))).
End Statements.

(** The tables move along [R] and the outside along [O]. *)
Definition both {T Y} (R : T -> T -> Prop) (O : Y -> Y -> Prop) (s s' : beside T Y) : Prop :=
  R (tabs s) (tabs s') /\ O (around s) (around s').

#[export] Instance both_preorder {T Y} (R : T -> T -> Prop) (O : Y -> Y -> Prop)
  `{!PreOrder R, !PreOrder O} : PreOrder (both R O).
Proof.
  split; unfold both; [intros s; split; reflexivity|].
  intros s1 s2 s3 [? ?] [? ?]. split; by etransitivity.
Qed.

Section Kept.
Context {T Y : Type} (R : T -> T -> Prop) (O : Y -> Y -> Prop) `{!PreOrder R, !PreOrder O}.
#[local] Abbreviation along := (on_st (both R O)).

Lemma kept_sql {A} op (f : T -> res A * T) :
  (forall t, R t (snd (f t))) -> preserves along (sql op f).
Proof. intros Hf. apply preserves_db; [typeclasses eauto|]. intros s. split; cbn; [apply Hf | done]. Qed.

Lemma kept_query {A} op (f : T -> res A) : preserves along (query op f).
Proof. apply kept_sql. intros t. cbn. reflexivity. Qed.

Lemma kept_exec op f : (forall t, R t (f t)) -> preserves along (exec op f).
Proof. intros Hf. by apply kept_sql. Qed.

Lemma kept_draw `{Serial T} : (forall t, R t (used_id t)) -> preserves along draw_id.
Proof. intros Hb. apply preserves_state. intros s. split; cbn; [apply Hb | done]. Qed.

Lemma kept_outward {A} (c : prog Y A) :
  (forall y, O y (snd (c y))) -> preserves along (outward c).
Proof. intros Hc. apply preserves_state. intros s. split; cbn; [reflexivity | apply Hc]. Qed.

Lemma kept_now : preserves along (@time_now (beside T Y)).
Proof. apply preserves_now. typeclasses eauto. Qed.
End Kept.

(** No statement fails from here on. *)
Lemma sql_quiet {T Y A} op (f : T -> res A * T) (w : env (beside T Y)) :
  faults w = [] ->
  sql op f w = (fst (f (tabs (st w))),
                Env (Beside (snd (f (tabs (st w)))) (around (st w))) [] (clock w) (ticks w)).
Proof. intros Hf. unfold sql, db. by rewrite Hf. Qed.
