(* ===== verification/ReleasesKeys.v ===== *)
(** * Release-signing keys

    [internal/mirror/key_fetcher.go], [internal/mirror/gpg_resolve.go],
    [internal/db/repositories/releases_gpg_key_repository.go] and
    [internal/jobs/releases_key_refresh_job.go]: reading a key block, fetching a
    key under a fingerprint pin, and the job that caches the fetched keys for the
    binary mirror ([TfMirrorSync.gpgKeyForTool]).  Times are nanoseconds; the
    metrics are the outcome labels the job counts. *)

From S2P Require Import Prelude GoStrings SemVer TfReleases TfMirrorRepo TfMirrorSync.
From stdpp Require Import gmap.

#[local] Open Scope Z_scope.

(** ** Interfaces *)

(** The parts of an openpgp signature, subkey and entity the code reads. *)
Record pgp_sig := {
  FlagsValid : bool;
  FlagSign : bool;
  KeyLifetimeSecs : option Z;
}.
Record pgp_subkey := {
  sub_CreationTime : Z;
  sub_Sig : option pgp_sig;
}.
Record pgp_primary := {
  pk_CreationTime : Z;
  (** hexadecimal, as [%X] prints it *)
  pk_Fingerprint : string;
}.
Record pgp_entity := {
  PrimaryKey : option pgp_primary;
  Subkeys : list pgp_subkey;
  (** the self-signatures of its identities, keyed by name in Go *)
  Identities : list (option pgp_sig);
}.

(** The entities of a key ring, in the order they were read. *)
Class OpenPGPEntities `{OpenPGP} := entities : keyring -> list pgp_entity.

(** ** Reading a key block *)

Definition ErrFingerprintMismatch := ErrSentinel "releases key: primary fingerprint mismatch".
Definition ErrNoUsableSigningKey := ErrSentinel "releases key: no unexpired signing-capable key".
Definition ErrEmptyKeyring := ErrSentinel "releases key: empty keyring".

Record ReleasesKeyInfo := {
  PrimaryFingerprint : string;
  (** [None] is Go's zero time *)
  LatestSigningExpiry : option Z;
  HasUsableSigningKey : bool;
}.

Definition upper (c : ascii) : ascii :=
  let n := N_of_ascii c in
  if ((97 <=? n) && (n <=? 122))%N then ascii_of_N (n - 32) else c.
Fixpoint to_upper (s : string) : string :=
  match s with
  | EmptyString => EmptyString
  | String c s' => String (upper c) (to_upper s')
  end.

Definition second : Z := 10 ^ 9.

Definition lifetime (created : Z) (sig : pgp_sig) : option Z :=
  match KeyLifetimeSecs sig with
  | None => None
  | Some secs => Some (created + wrap64 (secs * second))
  end.

Definition subkeyExpiry (sub : pgp_subkey) : option Z :=
  match sub_Sig sub with
  | None => None
  | Some sig => lifetime (sub_CreationTime sub) sig
  end.

Definition can_sign (sig : option pgp_sig) : bool :=
  match sig with Some s => FlagsValid s && FlagSign s | None => false end.

(** [if expiry.After(latest) { latest = expiry }] *)
Definition later (latest : option Z) (expiry : Z) : option Z :=
  match latest with
  | None => Some expiry
  | Some l => if l <? expiry then Some expiry else latest
  end.

(** The loop over the subkeys: the latest expiry met, and whether one is usable. *)
Definition walk_subkey (now : Z) (acc : option Z * bool) (sub : pgp_subkey) : option Z * bool :=
  let '(latest, hasUsable) := acc in
  if negb (can_sign (sub_Sig sub)) then acc
  else match subkeyExpiry sub with
       | None => (latest, true)
       | Some expiry => (later latest expiry, if expiry <? now then hasUsable else true)
       end.

Section Keys.
Context `{OpenPGPEntities} `{MapRange}.

Definition primaryIdentity (e : pgp_entity) : option (option pgp_sig) :=
  head (map_range (Identities e)).

Definition primary_usable (now : Z) (pk : pgp_primary) (e : pgp_entity) (latest : option Z)
  : option Z * bool :=
  match primaryIdentity e with
  | Some (Some sig) =>
      if can_sign (Some sig) then
        match lifetime (pk_CreationTime pk) sig with
        | None => (latest, true)
        | Some expiry => (later latest expiry, negb (expiry <? now))
        end
      else (latest, false)
  | _ => (latest, false)
  end.

Definition key_info (now : Z) (pk : pgp_primary) (e : pgp_entity) : ReleasesKeyInfo :=
  let '(latest, hasUsable) := fold_left (walk_subkey now) (Subkeys e) (None, false) in
  let '(latest, hasUsable) :=
    if hasUsable : bool then (latest, true) else primary_usable now pk e latest in
  {| PrimaryFingerprint := to_upper (pk_Fingerprint pk); LatestSigningExpiry := latest;
     HasUsableSigningKey := hasUsable |}.

(** The information, present even when no key is usable, and the error. *)
Definition ParseReleasesKey {S} (armored : string)
  : prog (env S) (option ReleasesKeyInfo * option gerror) :=
  match ReadArmoredKeyRing armored with
  | Err e => ret (None, Some (ErrWrap "releases key: parse armored" e))
  | Ok ring =>
      match entities ring with
      | [] => ret (None, Some ErrEmptyKeyring)
      | e :: _ =>
          match PrimaryKey e with
          | None => ret (None, Some (ErrMsg "releases key: entity has no primary key"))
          | Some pk =>
              let! now := time_now in
              let info := key_info now pk e in
              ret (Some info, if HasUsableSigningKey info then None else Some ErrNoUsableSigningKey)
          end
      end
  end.

Definition HasUsableGPGKey {S} (armored : string) : prog (env S) bool :=
  let! r := ParseReleasesKey armored in
  ret match r with (Some info, None) => HasUsableSigningKey info | _ => false end.

Definition hashiCorpFingerprint := "C874011F0AB405110D02105534365D9472D7468F".

Context `{ReleaseKeys}.

Definition ResolveExpiredGPGKey {S} (armored : string) : prog (env S) string :=
  let! r := ParseReleasesKey armored in
  ret match r with
      | (_, Some e) =>
          if negb (errors_is e ErrNoUsableSigningKey) then armored
          else match r with
               | (Some info, _) =>
                   if HasUsableSigningKey info then armored
                   else if String.eqb (PrimaryFingerprint info) hashiCorpFingerprint
                   then HashiCorpReleasesGPGKey else armored
               | (None, _) => armored
               end
      | (Some info, None) =>
          if HasUsableSigningKey info then armored
          else if String.eqb (PrimaryFingerprint info) hashiCorpFingerprint
          then HashiCorpReleasesGPGKey else armored
      | (None, None) => armored
      end.

(** ** Fetching under a pin *)

Definition fingerprintHexLen : nat := 40.
Definition maxKeyBodyBytes : Z := Z.shiftl 1 20.

Definition is_hex (c : ascii) : bool :=
  char_in c "0123456789ABCDEFabcdef".
Fixpoint all_hex (s : string) : bool :=
  match s with EmptyString => true | String c s' => is_hex c && all_hex s' end.
Definition isAllowedFingerprintShape (fpr : string) : bool :=
  (String.length fpr =? fingerprintHexLen)%nat && all_hex fpr.

(** ** The cached keys *)

Record ReleasesGPGKey := {
  k_Tool : string;
  k_ArmoredKey : string;
  k_PrimaryFingerprint : string;
  k_KeyExpiresAt : option Z;
  k_SourceURL : string;
}.

(** The table, the job's in-process cache and the outside. *)
Record keystore (Y : Type) := KeyStore {
  releases_gpg_keys : list ReleasesGPGKey;
  cache : gmap string string;
  kext : Y;
}.
Arguments KeyStore {Y} _ _ _.
Arguments releases_gpg_keys {Y} _.
Arguments cache {Y} _.
Arguments kext {Y} _.

Record toolEndpoint := { tool : string; url : string; fingerprint : string }.

Record ReleasesGPGKeysConfig := { HashiCorpURL : string; OpenTofuURL : string }.

Section Job.
Context {Y : Type} `{Http Y}.
#[local] Abbreviation P := (prog (env (keystore Y))).

Definition kget (u : string) : P (res (Z * res string)) :=
  state (fun s => let r := http_get u (kext s) in
                  (fst r, KeyStore (releases_gpg_keys s) (cache s) (snd r))).

(** The body and what is known of the key; on an error the information may still be
    there. *)
Definition FetchReleasesKey (u allowedFingerprint : string)
  : P (string * option ReleasesKeyInfo * option gerror) :=
  if negb (isAllowedFingerprintShape allowedFingerprint)
  then ret ("", None, Some (ErrMsg "releases key: allowed fingerprint must be 40 hex chars"))
  else
    let! resp := kget u in
    match resp with
    | Err e => ret ("", None, Some (ErrWrap ("releases key: fetch " +:+ u) e))
    | Ok (status, body) =>
        if negb (status =? 200)
        then ret ("", None, Some (ErrMsg ("releases key: fetch " +:+ u +:+ ": status")))
        else
          match read_limited maxKeyBodyBytes body with
          | Err e => ret ("", None, Some (ErrWrap "releases key: read body" e))
          | Ok text =>
              let armored := trim_space text in
              let! r := ParseReleasesKey armored in
              match r with
              | (info, Some e) => ret ("", info, Some e)
              | (Some info, None) =>
                  if negb (equal_fold (PrimaryFingerprint info) allowedFingerprint)
                  then ret ("", Some info, Some (ErrWrap (PrimaryFingerprint info)
                                                   ErrFingerprintMismatch))
                  else ret (armored, Some info, None)
              | (None, None) => ret ("", None, None)
              end
          end
    end.

Definition Get (t : string) : P (res (option ReleasesGPGKey)) :=
  db "Get" (fun s => (Ok (List.find (fun r => String.eqb (k_Tool r) t) (releases_gpg_keys s)), s)).

Definition Upsert (row : ReleasesGPGKey) : P (res unit) :=
  db "Upsert" (fun s =>
    let rows := releases_gpg_keys s in
    let same r := String.eqb (k_Tool r) (k_Tool row) in
    (Ok tt, KeyStore (if List.existsb same rows then update_rows same (fun _ => row) rows
                      else rows ++ [row]) (cache s) (kext s))).

Definition set_cache (t armored : string) : P unit :=
  modify (fun s => KeyStore (releases_gpg_keys s) (<[t := armored]> (cache s)) (kext s)).

(** ** The job *)

(** The tools with their pins; OpenTofu's comes from the embedded key, whose parse
    must succeed. *)
Definition NewReleasesKeyRefreshJob (cfg : ReleasesGPGKeysConfig) : P (res (list toolEndpoint)) :=
  let! r := ParseReleasesKey OpenTofuReleasesGPGKey in
  match r with
  | (_, Some e) => ret (Err (ErrWrap "releases key refresh: parse embedded OpenTofu key" e))
  | (None, None) => ret (Err (ErrMsg "nil key information"))
  | (Some opentofuInfo, None) =>
      ret (Ok [ {| tool := "terraform"; url := HashiCorpURL cfg;
                   fingerprint := hashiCorpFingerprint |};
                {| tool := "opentofu"; url := OpenTofuURL cfg;
                   fingerprint := PrimaryFingerprint opentofuInfo |} ])
  end.

Definition prime_one (t : toolEndpoint) : P unit :=
  let! r := Get (tool t) in
  match r with
  | Err _ | Ok None => ret tt
  | Ok (Some row) =>
      if negb (equal_fold (k_PrimaryFingerprint row) (fingerprint t)) then ret tt
      else set_cache (tool t) (k_ArmoredKey row)
  end.

Definition primeCacheFromDB (tools : list toolEndpoint) : P unit := for_each tools prime_one.

(** The outcome is the label of the metric the branch counts. *)
Definition refresh_failure (err : gerror) : string :=
  if errors_is err ErrFingerprintMismatch then "fingerprint_mismatch"
  else if errors_is err ErrNoUsableSigningKey || errors_is err ErrEmptyKeyring ||
          contains (Error err) "parse armored" then "parse_failed"
  else "fetch_failed".

Definition refreshOne (t : toolEndpoint) : P string :=
  let! r := FetchReleasesKey (url t) (fingerprint t) in
  match r with
  | (_, _, Some err) => ret (refresh_failure err)
  | (armored, info, None) =>
      let! prev := gets (fun s => cache s !! tool t) in
      if bool_decide (prev = Some armored) then ret "skipped_unchanged"
      else
        let! up := Upsert {| k_Tool := tool t; k_ArmoredKey := armored;
                     k_PrimaryFingerprint := match info with Some i => PrimaryFingerprint i
                                                           | None => "" end;
                     k_KeyExpiresAt := match info with Some i => LatestSigningExpiry i
                                                     | None => None end;
                     k_SourceURL := url t |} in
        match up with
        | Err _ => ret "db_failed"
        | Ok _ => run! set_cache (tool t) armored in ret "success"
        end
  end.

Definition runCycle (tools : list toolEndpoint) : P unit :=
  for_each tools (fun t => let! _l := refreshOne t in ret tt).

(** The loop of [Start], for [n] further ticks. *)
Fixpoint cycles (n : nat) (tools : list toolEndpoint) : P unit :=
  match n with
  | O => ret tt
  | S n' => run! runCycle tools in cycles n' tools
  end.

Definition Start (n : nat) (tools : list toolEndpoint) : P unit :=
  run! primeCacheFromDB tools in
  run! runCycle tools in cycles n tools.

Definition embeddedKeyForTool (t : string) : string :=
  let t := to_lower t in
  if String.eqb t "terraform" then HashiCorpReleasesGPGKey
  else if String.eqb t "opentofu" then OpenTofuReleasesGPGKey else "".
End Job.

(** The job as the resolver [gpgKeyForTool] consults. *)
Definition job_keys (c : gmap string string) : ReleaseKeys := {|
  TfMirrorSync.ResolveReleasesKey t := default "" (c !! to_lower t);
  TfMirrorSync.HashiCorpReleasesGPGKey := HashiCorpReleasesGPGKey;
  TfMirrorSync.OpenTofuReleasesGPGKey := OpenTofuReleasesGPGKey |}.
End Keys.
Arguments KeyStore {Y} _ _ _.
Arguments releases_gpg_keys {Y} _.
Arguments cache {Y} _.
Arguments kext {Y} _.

(** ** Theorems *)

(** What openpgp documents of detached signatures: a key ring accepts the signature
    of any of its entities. *)
Class OpenPGPLaws `{OpenPGPEntities} := {
  entity_signs : pgp_entity -> string -> string -> Prop;
  check_any ring data sig :
    CheckDetachedSignature ring data sig = None <->
    exists e, In e (entities ring) /\ entity_signs e data sig;
}.

Section KeyTheorems.
Context `{EN : OpenPGPEntities} `{MapRange} `{ReleaseKeys}.

(** *** Reading *)

Definition expired (now : Z) (expiry : option Z) : bool :=
  match expiry with Some x => x <? now | None => false end.

Definition live_subkey (now : Z) (sub : pgp_subkey) : bool :=
  can_sign (sub_Sig sub) && negb (expired now (subkeyExpiry sub)).

Lemma walk_subkeys now subs acc :
  snd (fold_left (walk_subkey now) subs acc) = snd acc || List.existsb (live_subkey now) subs.
Proof.
  revert acc. induction subs as [|sub subs IH]; intros [l u]; cbn [fold_left List.existsb].
  - by rewrite orb_false_r.
  - rewrite IH, orb_assoc. f_equal. unfold walk_subkey, live_subkey.
    destruct (can_sign (sub_Sig sub)); cbn; [|by rewrite orb_false_r].
    destruct (subkeyExpiry sub) as [x|]; cbn; [|by rewrite orb_true_r].
    by destruct (x <? now), u.
Qed.

Definition live_primary (now : Z) (pk : pgp_primary) (e : pgp_entity) : bool :=
  match primaryIdentity e with
  | Some (Some sig) => can_sign (Some sig) && negb (expired now (lifetime (pk_CreationTime pk) sig))
  | _ => false
  end.

(** A key is usable when some signing subkey, or failing that the primary key
    under its identity's self-signature, may sign and has not expired. *)
Lemma key_usability now pk e :
  HasUsableSigningKey (key_info now pk e) =
  List.existsb (live_subkey now) (Subkeys e) || live_primary now pk e.
Proof.
  unfold key_info. pose proof (walk_subkeys now (Subkeys e) (None, false)) as Hw.
  destruct (fold_left _ _ _) as [l u]; cbn in Hw |- *. rewrite <- Hw.
  destruct u; [done|]. cbn. unfold primary_usable, live_primary.
  destruct (primaryIdentity e) as [[sig|]|]; try done.
  destruct (can_sign (Some sig)); [|done]. by destruct (lifetime _ sig).
Qed.

Lemma key_info_fingerprint now pk e :
  PrimaryFingerprint (key_info now pk e) = to_upper (pk_Fingerprint pk).
Proof.
  unfold key_info. destruct (fold_left _ _ _) as [l []]; [done|]. by destruct (primary_usable _ _ _ _).
Qed.

(** The first entity of an armored block and its primary key. *)
Definition first_key (armored : string) : option (pgp_primary * pgp_entity) :=
  match ReadArmoredKeyRing armored with
  | Err _ => None
  | Ok ring => match entities ring with
               | e :: _ => (fun pk => (pk, e)) <$> PrimaryKey e
               | [] => None
               end
  end.

Lemma parse_spec {S} armored (w : env S) :
  let '(info, err) := fst (ParseReleasesKey armored w) in
  st (snd (ParseReleasesKey armored w)) = st w /\
  match first_key armored with
  | Some (pk, e) =>
      let i := key_info (fst (time_now w)) pk e in
      info = Some i /\ err = if HasUsableSigningKey i then None else Some ErrNoUsableSigningKey
  | None => info = None /\ exists e, err = Some e /\ errors_is e ErrNoUsableSigningKey = false
            \/ err = Some e /\ exists e', e = ErrWrap "releases key: parse armored" e'
  end.
Proof.
  unfold ParseReleasesKey, first_key.
  destruct (ReadArmoredKeyRing armored) as [ring|e]; cbn -[errors_is key_info].
  2:{ split; [done|]. split; [done|]. eexists. right. by split; [|eexists]. }
  destruct (entities ring) as [|e es]; cbn -[errors_is key_info].
  { split; [done|]. split; [done|]. exists ErrEmptyKeyring. by left. }
  destruct (PrimaryKey e) as [pk|]; cbn -[errors_is key_info].
  2:{ split; [done|]. split; [done|]. eexists. by left. }
  unfold bind. destruct (time_now w) as [now w1] eqn:E. cbn -[key_info].
  split; [unfold time_now in E; by simplify_eq/= | done].
Qed.

Lemma parse_ok {S} armored (w : env S) info :
  fst (ParseReleasesKey armored w) = (Some info, None) ->
  exists pk e, first_key armored = Some (pk, e) /\ info = key_info (fst (time_now w)) pk e /\
               HasUsableSigningKey info = true.
Proof.
  intros E. pose proof (parse_spec armored w) as Hp. rewrite E in Hp. destruct Hp as [_ Hp].
  destruct (first_key armored) as [[pk e]|]; [|naive_solver].
  destruct Hp as [Hi He]. simplify_eq. exists pk, e. split; [done|]. split; [done|].
  by destruct (HasUsableSigningKey _).
Qed.

(** *** The pin *)

Definition pinned (fpr armored : string) : Prop :=
  exists pk e, first_key armored = Some (pk, e) /\
               equal_fold (to_upper (pk_Fingerprint pk)) fpr = true.

Section Pin.
Context {Y : Type} `{Http Y}.
#[local] Abbreviation W := (env (keystore Y)).

Lemma fetch_pinned u fpr (w : W) armored info :
  fst (FetchReleasesKey u fpr w) = (armored, info, None) ->
  exists i, info = Some i /\ pinned fpr armored /\
            equal_fold (PrimaryFingerprint i) fpr = true /\
            exists pk e, first_key armored = Some (pk, e) /\
                         PrimaryFingerprint i = to_upper (pk_Fingerprint pk).
Proof.
  unfold FetchReleasesKey. destruct (isAllowedFingerprintShape fpr); cbn [negb]; [|by intros [=]].
  unfold bind. destruct (kget u w) as [[[status body]|e] w1]; cbn [fst snd]; [|by intros [=]].
  destruct (status =? 200); cbn [negb]; [|by intros [=]].
  destruct (read_limited _ body) as [text|e]; [|by intros [=]].
  destruct (fst (ParseReleasesKey (trim_space text) w1)) as [[i|] [e|]] eqn:E; cbn [fst snd];
    try by intros [=].
  - destruct (parse_ok _ _ _ E) as (pk & en & Hf & Hi & _).
    destruct (equal_fold (PrimaryFingerprint i) fpr) eqn:Ef; cbn [negb]; [|by intros [=]].
    intros [= <- <-]. exists i. split; [done|]. rewrite Hi, key_info_fingerprint in Ef.
    split; [by exists pk, en|]. split; [by rewrite Hi, key_info_fingerprint|].
    exists pk, en. by rewrite Hi, key_info_fingerprint.
  - intros [= <- <-]. pose proof (parse_spec (trim_space text) w1) as Hp. rewrite E in Hp.
    destruct Hp as [_ Hp]. destruct (first_key (trim_space text)) as [[pk en]|];
      [by destruct Hp as [? ?]|]. naive_solver.
Qed.

Lemma fetch_state u fpr (w : W) :
  let s' := st (snd (FetchReleasesKey u fpr w)) in
  releases_gpg_keys s' = releases_gpg_keys (st w) /\ cache s' = cache (st w).
Proof.
  unfold FetchReleasesKey. destruct (isAllowedFingerprintShape fpr); cbn [negb]; [|done].
  unfold bind. assert (Hk : releases_gpg_keys (st (snd (kget u w))) = releases_gpg_keys (st w) /\
    cache (st (snd (kget u w))) = cache (st w)) by done.
  destruct (kget u w) as [[[status body]|e] w1]; cbn [fst snd] in *; [|done].
  destruct (status =? 200); cbn [negb]; [|done].
  destruct (read_limited _ body) as [text|e]; [|done].
  pose proof (parse_spec (trim_space text) w1) as Hp.
  destruct (fst (ParseReleasesKey (trim_space text) w1)) as [[i|] [e|]] eqn:E;
    destruct Hp as [Hs _]; cbn [fst snd];
    try (destruct (negb _)); cbn; by rewrite Hs.
Qed.

(** A keystore whose cache, and whose rows, hold keys that carry their pin. *)
Definition honest (tools : list toolEndpoint) (s : keystore Y) : Prop :=
  (forall t armored, In t tools -> cache s !! tool t = Some armored ->
     pinned (fingerprint t) armored) /\
  (forall t row, In t tools -> In row (releases_gpg_keys s) -> k_Tool row = tool t ->
     equal_fold (k_PrimaryFingerprint row) (fingerprint t) = true ->
     pinned (fingerprint t) (k_ArmoredKey row)).

Definition keeps_honest (tools : list toolEndpoint) (s s' : keystore Y) : Prop :=
  honest tools s -> honest tools s'.

#[local] Instance keeps_honest_preorder tools : PreOrder (keeps_honest tools).
Proof. split; [by intros s Hs | intros a b c; unfold keeps_honest; auto]. Qed.

Section Honest.
Context (tools : list toolEndpoint).
Context (Hname : forall t t', In t tools -> In t' tools -> tool t = tool t' -> t = t').

Lemma honest_cache t armored (s : keystore Y) :
  In t tools -> pinned (fingerprint t) armored -> honest tools s ->
  honest tools (KeyStore (releases_gpg_keys s) (<[tool t := armored]> (cache s)) (kext s)).
Proof.
  intros Ht Hp [Hc Hr]. split; [|done]. cbn. intros t' a Ht' Hl.
  destruct (decide (tool t = tool t')) as [E|E].
  - rewrite (Hname _ _ Ht Ht' E) in *. rewrite lookup_insert_eq in Hl. by simplify_eq.
  - rewrite lookup_insert_ne in Hl by done. by apply Hc.
Qed.

Lemma prime_honest t : In t tools -> preserves (on_st (keeps_honest tools)) (prime_one t).
Proof.
  intros Ht w. unfold prime_one, bind, on_st. destruct (Get (tool t) w) as [r w1] eqn:E.
  unfold Get, db in E.
  assert (st w1 = st w) as Hs by (destruct (faults w) as [|[] ?]; by simplify_eq/=).
  assert (forall row, r = Ok (Some row) ->
    List.find (fun r => String.eqb (k_Tool r) (tool t)) (releases_gpg_keys (st w)) = Some row) as Hf
    by (intros row ->; destruct (faults w) as [|[] ?]; by simplify_eq/=).
  cbn [fst snd]. destruct r as [[row|]|e]; [|by cbn; rewrite Hs..].
  destruct (equal_fold (k_PrimaryFingerprint row) (fingerprint t)) eqn:Ef; cbn [negb];
    [|by cbn; rewrite Hs].
  cbn. rewrite Hs. intros Hh. apply honest_cache; [done | | done].
  destruct (List.find_some _ _ (Hf row eq_refl)) as [Hin Heq]. bools.
  by apply (proj2 Hh t row).
Qed.

Lemma upsert_honest t row (s : keystore Y) :
  In t tools -> k_Tool row = tool t -> pinned (fingerprint t) (k_ArmoredKey row) -> honest tools s ->
  forall w, st w = s -> honest tools (st (snd (Upsert row w))).
Proof.
  intros Ht Hn Hp [Hc Hr] w <-. unfold Upsert, db.
  assert (Hall : forall r, In r (if List.existsb (fun r => String.eqb (k_Tool r) (k_Tool row))
            (releases_gpg_keys (st w))
          then update_rows (fun r => String.eqb (k_Tool r) (k_Tool row)) (fun _ => row)
                 (releases_gpg_keys (st w))
          else releases_gpg_keys (st w) ++ [row]) -> r = row \/ In r (releases_gpg_keys (st w))).
  { intros r. destruct (List.existsb _ _).
    - unfold update_rows. intros (r0 & E & Hin)%in_map_iff. destruct (String.eqb _ _);
        subst; auto.
    - intros [?|[?|[]]]%in_app_or; auto. }
  assert (Hgoal : honest tools (KeyStore (if List.existsb (fun r => String.eqb (k_Tool r) (k_Tool row))
            (releases_gpg_keys (st w))
          then update_rows (fun r => String.eqb (k_Tool r) (k_Tool row)) (fun _ => row)
                 (releases_gpg_keys (st w))
          else releases_gpg_keys (st w) ++ [row]) (cache (st w)) (kext (st w)))).
  { split; [done|]. cbn. intros t' r Ht' Hin Hn' Hf. destruct (Hall r Hin) as [->|Hin'].
    - assert (t' = t) as -> by (apply Hname; congruence). done.
    - by apply (Hr t'). }
  by destruct (faults w) as [|[] ?].
Qed.

Lemma refresh_honest t : In t tools -> preserves (on_st (keeps_honest tools)) (refreshOne t).
Proof.
  intros Ht w Hh. unfold refreshOne, bind at 1.
  pose proof (fetch_pinned (url t) (fingerprint t) w) as Hp.
  destruct (fetch_state (url t) (fingerprint t) w) as [Hr Hc].
  assert (honest tools (st (snd (FetchReleasesKey (url t) (fingerprint t) w)))) as Hh1.
  { destruct Hh as [Hh1 Hh2]. split; [by rewrite Hc | by rewrite Hr]. }
  destruct (FetchReleasesKey (url t) (fingerprint t) w) as [[[armored info] [err|]] w1];
    cbn [fst snd] in *; [done|].
  destruct (Hp _ _ eq_refl) as (i & -> & Hpin & _). unfold bind, gets. cbn [fst snd].
  destruct (bool_decide _); [done|]. set (row := Build_ReleasesGPGKey _ _ _ _ _).
  pose proof (upsert_honest t row (st w1) Ht eq_refl Hpin Hh1 w1 eq_refl) as Hu.
  destruct (Upsert row w1) as [[u|e] w2]; cbn [fst snd] in *; [|done]. by apply honest_cache.
Qed.

Lemma cycle_honest : preserves (on_st (keeps_honest tools)) (runCycle tools).
Proof.
  apply (preserves_ensures (on_st (keeps_honest tools)) _ (fun _ _ => True)).
  eapply ensures_weaken; [apply ensures_for_each; [typeclasses eauto|] | done].
  intros t Ht. apply ensures_true. apply preserves_bind;
    [typeclasses eauto | by apply refresh_honest | intros; apply preserves_ret; typeclasses eauto].
Qed.

Lemma start_honest n : preserves (on_st (keeps_honest tools)) (Start n tools).
Proof.
  assert (Hc : preserves (on_st (keeps_honest tools)) (cycles n tools)).
  { induction n as [|n IH]; cbn [cycles]; [apply preserves_ret; typeclasses eauto|].
    apply preserves_bind; [typeclasses eauto | apply cycle_honest | by intros _]. }
  unfold Start. apply preserves_bind; [typeclasses eauto | |].
  - apply (preserves_ensures (on_st (keeps_honest tools)) _ (fun _ _ => True)).
    eapply ensures_weaken; [apply ensures_for_each; [typeclasses eauto|] | done].
    intros t Ht. apply ensures_true. by apply prime_honest.
  - intros _. apply preserves_bind; [typeclasses eauto | apply cycle_honest | by intros _].
Qed.
End Honest.

Lemma new_job_tools cfg (w w' : W) tools :
  NewReleasesKeyRefreshJob cfg w = (Ok tools, w') ->
  exists pk e, first_key OpenTofuReleasesGPGKey = Some (pk, e) /\
    tools = [ {| tool := "terraform"; url := HashiCorpURL cfg; fingerprint := hashiCorpFingerprint |};
              {| tool := "opentofu"; url := OpenTofuURL cfg;
                 fingerprint := to_upper (pk_Fingerprint pk) |} ].
Proof.
  unfold NewReleasesKeyRefreshJob, bind.
  destruct (fst (ParseReleasesKey OpenTofuReleasesGPGKey w)) as [[i|] [e|]] eqn:E; [done| |done..].
  intros [= <- _]. destruct (parse_ok _ _ _ E) as (pk & en & Hf & -> & _).
  exists pk, en. by rewrite key_info_fingerprint.
Qed.

(** C38: whatever the key servers answer, the key block of a tool starts with a pinned
    key.  Once the refresh job is constructed, and starting from a key table whose rows
    carry the fingerprint they claim, after priming and any number of refresh cycles the
    armored block [gpgKeyForTool] gives for a tool is the embedded one, or one whose
    first key has the tool's pinned fingerprint; the table stays sound for the next
    start.  Nothing is said of the keys after the first: they are not pinned, and a
    signature by one of them is accepted as well ([pin_covers_first_key_only]). *)
Theorem cached_keys_are_pinned (cfg : ReleasesGPGKeysConfig) (w0 w1 w : W)
  (tools : list toolEndpoint) (n : nat) :
  NewReleasesKeyRefreshJob cfg w0 = (Ok tools, w1) ->
  honest tools (st w) ->
  let s' := st (snd (Start n tools w)) in
  honest tools s' /\
  forall t, In t tools ->
    let k := @gpgKeyForTool (job_keys (cache s')) (tool t) in
    pinned (fingerprint t) k \/ k = embeddedKeyForTool (tool t).
Proof.
  intros Hn Hh s'. destruct (new_job_tools _ _ _ _ Hn) as (pk & e & Hf & Et).
  assert (Hs : honest tools s').
  { apply (start_honest tools); [|done]. subst tools.
    by intros t t' [<-|[<-|[]]] [<-|[<-|[]]]. }
  clearbody s'. subst tools.
  split; [done|]. intros t Ht. unfold gpgKeyForTool, job_keys; cbn [ResolveReleasesKey].
  assert (to_lower (tool t) = tool t) as Hl by (by destruct Ht as [<-|[<-|[]]]).
  rewrite Hl. destruct (cache s' !! tool t) as [armored|] eqn:Ec; cbv beta delta [id from_option] iota zeta.
  - destruct (String.eqb armored "") eqn:E0; cbn [negb]; [|left; exact (proj1 Hs t armored Ht Ec)].
    right. destruct Ht as [<-|[<-|[]]]; reflexivity.
  - right. destruct Ht as [<-|[<-|[]]]; reflexivity.
Qed.

(** the pin covers the first key of the block only.  When the server answers
    with a block whose first key carries the pinned fingerprint and is usable, the
    fetch accepts the whole block, whatever keys follow, and signature
    verification under the cached block accepts the signature of any of them. *)
Theorem pin_covers_first_key_only `{OL : !OpenPGPLaws} (u fpr body : string) (w : W)
  (ring : keyring) (e e' : pgp_entity) (es : list pgp_entity) (pk : pgp_primary)
  (data sig : string) :
  isAllowedFingerprintShape fpr = true ->
  fst (http_get u (kext (st w))) = Ok (200, Ok body) ->
  Z.of_nat (String.length body) <= maxKeyBodyBytes ->
  ReadArmoredKeyRing (trim_space body) = Ok ring ->
  entities ring = e :: es -> PrimaryKey e = Some pk ->
  equal_fold (to_upper (pk_Fingerprint pk)) fpr = true ->
  HasUsableSigningKey (key_info (fst (time_now w)) pk e) = true ->
  In e' es -> entity_signs e' data sig ->
  armor_Decode sig = None -> data <> "" -> sig <> "" -> trim_space body <> "" ->
  (exists info, fst (FetchReleasesKey u fpr w) = (trim_space body, Some info, None)) /\
  VerifySignature (trim_space body) data sig = None.
Proof.
  intros Hshape Hget Hlen Hring Hes Hpk Hfpr Huse Hin Hsig Harm Hd Hs Hb. split.
  - assert (Hfk : first_key (trim_space body) = Some (pk, e)).
    { unfold first_key. rewrite Hring, Hes. cbn. by rewrite Hpk. }
    pose proof (parse_spec (trim_space body) (snd (kget u w))) as Hp. rewrite Hfk in Hp.
    unfold FetchReleasesKey. rewrite Hshape. cbn [negb]. unfold bind.
    assert (fst (kget u w) = Ok (200, Ok body)) as -> by done.
    change (200 =? 200) with true. cbn [negb read_limited].
    rewrite (proj2 (Z.leb_le _ _) Hlen).
    destruct (fst (ParseReleasesKey (trim_space body) (snd (kget u w)))) as [info err].
    destruct Hp as [_ [-> ->]].
    change (fst (time_now (snd (kget u w)))) with (fst (time_now w)).
    rewrite Huse, key_info_fingerprint, Hfpr. by eexists.
  - unfold VerifySignature. rewrite !(proj2 (String.eqb_neq _ _)) by done.
    rewrite Hring, Harm. cbn.
    replace (CheckDetachedSignature ring data sig) with (@None gerror); [done|].
    symmetry. apply check_any. exists e'. rewrite Hes. split; [by right | done].
Qed.

(** the refresh job starts only while the embedded OpenTofu key is usable.
    Its constructor fails exactly when that key block has no readable first key
    or that key has expired, although the pin it needs is still known then. *)
Theorem expired_snapshot_disables_refresh (cfg : ReleasesGPGKeysConfig) (w : W) :
  is_ok (fst (NewReleasesKeyRefreshJob cfg w)) = true <->
  exists pk e, first_key OpenTofuReleasesGPGKey = Some (pk, e) /\
    (List.existsb (live_subkey (fst (time_now w))) (Subkeys e) ||
     live_primary (fst (time_now w)) pk e = true).
Proof.
  unfold NewReleasesKeyRefreshJob, bind.
  pose proof (parse_spec OpenTofuReleasesGPGKey w) as Hp.
  destruct (fst (ParseReleasesKey OpenTofuReleasesGPGKey w)) as [info err].
  set (now := fst (time_now w)) in *. clearbody now.
  destruct Hp as [_ Hp]. destruct (first_key OpenTofuReleasesGPGKey) as [[pk e]|].
  - destruct Hp as [-> ->]. rewrite key_usability.
    destruct (List.existsb _ _ || _) eqn:E; cbn.
    + split; [by exists pk, e | done].
    + split; [done|]. intros (pk' & e' & Heq & Hu). simplify_eq. congruence.
  - split; [|by intros (? & ? & ? & _)].
    destruct Hp as [-> (x & [[-> _]|[-> _]])]; done.
Qed.

(** priming trusts the fingerprint column.  A row whose column matches the
    pin is installed as the tool's key whatever key it holds. *)
Theorem priming_trusts_the_column (t : toolEndpoint) (row : ReleasesGPGKey) (w : W) :
  faults w = [] ->
  List.find (fun r => String.eqb (k_Tool r) (tool t)) (releases_gpg_keys (st w)) = Some row ->
  equal_fold (k_PrimaryFingerprint row) (fingerprint t) = true ->
  cache (st (snd (prime_one t w))) !! tool t = Some (k_ArmoredKey row).
Proof.
  intros Hf Hfind He. unfold prime_one, bind, Get, db. rewrite Hf. cbn [fst snd].
  rewrite Hfind, He. cbn. apply lookup_insert_eq.
Qed.
End Pin.

(** Substitution happens for an expired key of the one known fingerprint only. *)
Lemma resolve_expired_key {S} armored (w : env S) :
  fst (ResolveExpiredGPGKey armored w) = armored \/
  (fst (ResolveExpiredGPGKey armored w) = HashiCorpReleasesGPGKey /\
   exists pk e, first_key armored = Some (pk, e) /\
     to_upper (pk_Fingerprint pk) = hashiCorpFingerprint /\
     HasUsableSigningKey (key_info (fst (time_now w)) pk e) = false).
Proof.
  unfold ResolveExpiredGPGKey, bind, ret. cbn [fst].
  pose proof (parse_spec armored w) as Hp.
  destruct (fst (ParseReleasesKey armored w)) as [info err]. destruct Hp as [_ Hp].
  destruct (first_key armored) as [[pk e]|].
  - destruct Hp as [-> ->]. rewrite key_info_fingerprint.
    destruct (HasUsableSigningKey _) eqn:Hu; [by left|]. cbn.
    destruct (String.eqb _ _) eqn:Ef; [right|by left]. bools. split; [done|]. by exists pk, e.
  - left. destruct Hp as [-> (x & [[-> Hx]|[-> _]])]; by destruct (errors_is x _).
Qed.
End KeyTheorems.

(** ** Witnesses *)

(** Armored blocks are lists of fingerprints separated by spaces; [expired] ones
    start with [X]; the signature of [d] under a key is [fingerprint:d]. *)
Module Demo.
Definition block_entity (word : string) : pgp_entity := {|
  PrimaryKey := Some {| pk_CreationTime := 0; pk_Fingerprint := trim_prefix word "X" |};
  Subkeys := [ {| sub_CreationTime := 0;
                  sub_Sig := Some {| FlagsValid := true; FlagSign := true;
                    KeyLifetimeSecs := if has_prefix word "X" then Some 1 else None |} |} ];
  Identities := [] |}.

#[export] Instance demo_pgp : OpenPGP := {|
  keyring := list pgp_entity;
  ReadArmoredKeyRing s := Ok (block_entity <$> fields s);
  armor_Decode _ := None;
  CheckDetachedSignature ring data sig :=
    if List.existsb (fun e => match PrimaryKey e with
                              | Some pk => String.eqb sig (pk_Fingerprint pk +:+ ":" +:+ data)
                              | None => false end) ring
    then None else Some (ErrMsg "bad signature") |}.
#[export] Instance demo_entities : @OpenPGPEntities demo_pgp := fun r => r.
#[export] Instance demo_range : MapRange := fun _ l => l.

Definition pin := hashiCorpFingerprint.
Definition other := "0123456789ABCDEF0123456789ABCDEF01234567".

#[export] Instance demo_embedded : ReleaseKeys := {|
  TfMirrorSync.ResolveReleasesKey _ := "";
  TfMirrorSync.HashiCorpReleasesGPGKey := pin;
  TfMirrorSync.OpenTofuReleasesGPGKey := other |}.

(** The upstream: what every URL answers. *)
#[export] Instance demo_http : Http string := {|
  http_get _ y := (Ok (200, Ok y), y);
  http_download _ y := (Ok (200, Ok y), y) |}.

#[export] Program Instance demo_laws : OpenPGPLaws := {|
  entity_signs e data sig := match PrimaryKey e with
    | Some pk => sig = pk_Fingerprint pk +:+ ":" +:+ data | None => False end |}.
Next Obligation.
  intros ring data sig. cbn. destruct (List.existsb _ ring) eqn:E.
  - apply List.existsb_exists in E as (e & Hin & He). split; [|done]. intros _. exists e.
    split; [done|]. destruct (PrimaryKey e); [by apply String.eqb_eq | done].
  - split; [done|]. intros (e & Hin & He).
    enough (false = true) by done. rewrite <- E. apply List.existsb_exists. exists e.
    split; [done|]. destruct (PrimaryKey e); [by apply String.eqb_eq | done].
Qed.

Definition cfg : ReleasesGPGKeysConfig := {|
  HashiCorpURL := "https://hc/key"; OpenTofuURL := "https://tofu/key" |}.
Definition start (served : string) : env (keystore string) := quiet (KeyStore [] ∅ served).
Definition tools : list toolEndpoint :=
  [ {| tool := "terraform"; url := "https://hc/key"; fingerprint := pin |};
    {| tool := "opentofu"; url := "https://tofu/key"; fingerprint := other |} ].

Lemma start_honest_demo served : honest tools (st (start served)).
Proof. by split. Qed.
End Demo.
Import Demo.

(** The terraform key is fetched, OpenTofu's is refused. *)
Theorem cached_keys_are_pinned_witness :
  let s' := st (snd (Start 2 Demo.tools (Demo.start Demo.pin))) in
  cache s' !! "terraform" = Some Demo.pin /\ cache s' !! "opentofu" = None /\
  (honest Demo.tools s' /\
   forall t, In t Demo.tools ->
     let k := @gpgKeyForTool (job_keys (cache s')) (tool t) in
     pinned (fingerprint t) k \/ k = embeddedKeyForTool (tool t)).
Proof.
  split; [by vm_compute|]. split; [by vm_compute|].
  apply (cached_keys_are_pinned Demo.cfg (Demo.start "") (Demo.start "") (Demo.start Demo.pin)
           Demo.tools 2); [reflexivity | apply Demo.start_honest_demo].
Defined.

Theorem pin_covers_first_key_only_witness :
  (exists info, fst (FetchReleasesKey "https://hc/key" Demo.pin
     (Demo.start (Demo.pin +:+ " " +:+ Demo.other)))
     = (Demo.pin +:+ " " +:+ Demo.other, Some info, None)) /\
  VerifySignature (Demo.pin +:+ " " +:+ Demo.other) "sums" (Demo.other +:+ ":sums") = None.
Proof.
  apply (pin_covers_first_key_only (OL := Demo.demo_laws) "https://hc/key" Demo.pin
    (Demo.pin +:+ " " +:+ Demo.other) (Demo.start (Demo.pin +:+ " " +:+ Demo.other))
    [Demo.block_entity Demo.pin; Demo.block_entity Demo.other] (Demo.block_entity Demo.pin)
    (Demo.block_entity Demo.other) [Demo.block_entity Demo.other]
    {| pk_CreationTime := 0; pk_Fingerprint := Demo.pin |} "sums" (Demo.other +:+ ":sums"));
    try done; try (by left); by vm_compute.
Defined.

Theorem priming_trusts_the_column_witness :
  cache (st (snd (prime_one (hd {| tool := ""; url := ""; fingerprint := "" |} Demo.tools)
    (quiet (KeyStore [ {| k_Tool := "terraform"; k_ArmoredKey := Demo.other;
                          k_PrimaryFingerprint := Demo.pin; k_KeyExpiresAt := None;
                          k_SourceURL := "" |} ] ∅ ""))))) !! "terraform" = Some Demo.other.
Proof.
  apply (priming_trusts_the_column (hd {| tool := ""; url := ""; fingerprint := "" |} Demo.tools)
    {| k_Tool := "terraform"; k_ArmoredKey := Demo.other; k_PrimaryFingerprint := Demo.pin;
       k_KeyExpiresAt := None; k_SourceURL := "" |}); reflexivity.
Defined.
