(* ===== verification/VersionApproval.v ===== *)
(** * The version approval gate

    [internal/db/repositories/version_approval_repository.go] and the handlers of
    [internal/api/admin/version_approvals.go]: approving and rejecting gated
    versions of the provider mirror, the binary mirror and the scanner tools, with
    the audit event of every decision and the choice of the latest binary version
    that follows from it.  The binary mirror's tables are those of [TfMirrorRepo]. *)

From S2P Require Import Prelude GoStrings SemVer AutoApprove TfMirrorRepo TfMirrorSync.
From stdpp Require Import gmap.
From Stdlib Require Import Sorting.Permutation Sorting.Sorted.

#[local] Open Scope Z_scope.

(** ** Tables *)

(** [mirrored_provider_versions] and [scanner_binary_versions]: the columns the
    gate reads or writes. *)
Record gated_row := {
  g_ID : uuid;
  g_Version : string;
  g_ApprovalStatus : option string;
}.

Record VersionApprovalEvent := {
  ev_MirroredProviderVersionID : option uuid;
  ev_TerraformVersionID : option uuid;
  ev_ScannerBinaryVersionID : option uuid;
  ev_Action : string;
  ev_PerformedBy : option uuid;
  ev_Notes : option string;
  ev_AutoApproveRule : option string;
}.

Record approvaldb := {
  mirrored_provider_versions : list gated_row;
  binaries : tfdb;
  scanner_binary_versions : list gated_row;
  version_approval_events : list VersionApprovalEvent;
}.

Definition with_providers rows (s : approvaldb) : approvaldb := {|
  mirrored_provider_versions := rows; binaries := binaries s;
  scanner_binary_versions := scanner_binary_versions s;
  version_approval_events := version_approval_events s |}.
Definition with_binaries t (s : approvaldb) : approvaldb := {|
  mirrored_provider_versions := mirrored_provider_versions s; binaries := t;
  scanner_binary_versions := scanner_binary_versions s;
  version_approval_events := version_approval_events s |}.
Definition with_scanners rows (s : approvaldb) : approvaldb := {|
  mirrored_provider_versions := mirrored_provider_versions s; binaries := binaries s;
  scanner_binary_versions := rows; version_approval_events := version_approval_events s |}.
Definition with_events evs (s : approvaldb) : approvaldb := {|
  mirrored_provider_versions := mirrored_provider_versions s; binaries := binaries s;
  scanner_binary_versions := scanner_binary_versions s; version_approval_events := evs |}.

Definition VersionApprovalActionAuto := "auto_approved".
Definition VersionApprovalActionApproved := "approved".
Definition VersionApprovalActionRejected := "rejected".

Definition ErrNoRows := ErrSentinel "sql: no rows in result set".

(** ** Statements *)

#[local] Abbreviation P := (prog (env approvaldb)).

(** Begin, body, commit; the deferred rollback restores the tables. *)
Definition in_tx {A} (body : P (res A)) : P (res A) :=
  let? saved := db "BeginTxx" (fun s => (Ok s, s)) in
  let! r := body in
  match r with
  | Ok a =>
      let! c := db "Commit" (fun s => (Ok tt, s)) in
      match c with
      | Ok _ => ret (Ok a)
      | Err e => run! modify (fun _ => saved) in ret (Err e)
      end
  | Err e => run! modify (fun _ => saved) in ret (Err e)
  end.

(** [WHERE id = $1 AND approval_status IS NOT NULL] *)
Definition gated (id : uuid) (row_id : uuid) (status : option string) : bool :=
  (row_id =? id)%nat && match status with Some _ => true | None => false end.

Definition set_row_status (id : uuid) (newStatus : string) (r : gated_row) : gated_row :=
  if gated id (g_ID r) (g_ApprovalStatus r)
  then {| g_ID := g_ID r; g_Version := g_Version r; g_ApprovalStatus := Some newStatus |}
  else r.

Definition set_version_status (id : uuid) (newStatus : string) (v : TerraformVersion)
  : TerraformVersion :=
  if gated id (v_ID v) (v_ApprovalStatus v) then set_approval (Some newStatus) v else v.

Definition affected_rows (id : uuid) (rows : list gated_row) : nat :=
  length (List.filter (fun r => gated id (g_ID r) (g_ApprovalStatus r)) rows).
Definition affected_versions (id : uuid) (rows : list TerraformVersion) : nat :=
  length (List.filter (fun v => gated id (v_ID v) (v_ApprovalStatus v)) rows).

(** Each update returns the number of rows it changed. *)
Definition update_provider_status (id : uuid) (newStatus : string) : P (res nat) :=
  db "failed to update provider version status" (fun s =>
    (Ok (affected_rows id (mirrored_provider_versions s)),
     with_providers (map (set_row_status id newStatus) (mirrored_provider_versions s)) s)).
Definition update_terraform_status (id : uuid) (newStatus : string) : P (res nat) :=
  db "failed to update terraform version status" (fun s =>
    (Ok (affected_versions id (terraform_versions (binaries s))),
     with_binaries (on_versions (map (set_version_status id newStatus)) (binaries s)) s)).
Definition update_scanner_status (id : uuid) (newStatus : string) : P (res nat) :=
  db "failed to update scanner binary version status" (fun s =>
    (Ok (affected_rows id (scanner_binary_versions s)),
     with_scanners (map (set_row_status id newStatus) (scanner_binary_versions s)) s)).

Definition is_set {A} (o : option A) : nat := match o with Some _ => 1 | None => 0 end.

(** The table's checks: exactly one target, a known action. *)
Definition event_ok (ev : VersionApprovalEvent) : bool :=
  (is_set (ev_MirroredProviderVersionID ev) + is_set (ev_TerraformVersionID ev) +
   is_set (ev_ScannerBinaryVersionID ev) =? 1)%nat &&
  (String.eqb (ev_Action ev) VersionApprovalActionAuto ||
   String.eqb (ev_Action ev) VersionApprovalActionApproved ||
   String.eqb (ev_Action ev) VersionApprovalActionRejected).

Definition insert_event (ev : VersionApprovalEvent) : P (res unit) :=
  db "failed to insert approval event" (fun s =>
    if event_ok ev then (Ok tt, with_events (version_approval_events s ++ [ev]) s)
    else (Err (ErrMsg "violates check constraint"), s)).

Definition insertEvent (mpvID tfvID sbvID : option uuid) (action : string)
  (performedBy : option uuid) (notes rule : option string) : P (res unit) :=
  insert_event {| ev_MirroredProviderVersionID := mpvID; ev_TerraformVersionID := tfvID;
    ev_ScannerBinaryVersionID := sbvID; ev_Action := action; ev_PerformedBy := performedBy;
    ev_Notes := notes; ev_AutoApproveRule := rule |}.

Definition RecordEvent (ev : VersionApprovalEvent) : P (res unit) := insert_event ev.

(** The versions that may become latest. *)
Definition latest_candidate (configID : uuid) (v : TerraformVersion) : bool :=
  (v_ConfigID v =? configID)%nat && String.eqb (v_SyncStatus v) "synced" &&
  negb (v_IsDeprecated v) && visible v.

Section Approval.
Context `{GoSort}.

(** [ORDER BY semverOrder LIMIT 1]: highest numbers first, pre-release suffixes
    and build metadata cut off; a part that is not an integer fails the query. *)
Definition highest_candidate (configID : uuid) (rows : list TerraformVersion)
  : res (option TerraformVersion) :=
  let cands := List.filter (latest_candidate configID) rows in
  if List.forallb (fun v => match semverOrder (v_Version v) with Some _ => true | None => false end)
       cands
  then Ok (head (go_sort (fun a b => 0 <? compare_parts (sort_key a) (sort_key b)) cands))
  else Err (ErrMsg "invalid input syntax for type integer").

Definition recalcTerraformLatest (configID : uuid) : P (res unit) :=
  let? _u := db "failed to clear is_latest" (fun s =>
    (Ok tt, with_binaries (on_versions (update_rows
       (fun v => (v_ConfigID v =? configID)%nat && v_IsLatest v) (set_latest false)) (binaries s)) s)) in
  db "failed to set is_latest" (fun s =>
    match highest_candidate configID (terraform_versions (binaries s)) with
    | Err e => (Err e, s)
    | Ok None => (Ok tt, s)
    | Ok (Some best) =>
        (Ok tt, with_binaries (on_versions (update_rows
           (fun v => (v_ID v =? v_ID best)%nat) (set_latest true)) (binaries s)) s)
    end).

Definition config_of (id : uuid) : P (res uuid) :=
  db "failed to load config for latest recalc" (fun s =>
    match List.find (fun v => (v_ID v =? id)%nat) (terraform_versions (binaries s)) with
    | Some v => (Ok (v_ConfigID v), s)
    | None => (Err ErrNoRows, s)
    end).

Definition action_of (newStatus : string) : string :=
  if String.eqb newStatus VersionApprovalStatusRejected then VersionApprovalActionRejected
  else VersionApprovalActionApproved.

(** The statements between begin and commit. *)
Definition status_change (id : uuid) (newStatus : string) (performedBy : option uuid)
  (notes : option string) : P (res unit) :=
  let action := action_of newStatus in
  let? n := update_provider_status id newStatus in
  if (0 <? n)%nat then insertEvent (Some id) None None action performedBy notes None
  else
    let? n := update_terraform_status id newStatus in
    if (0 <? n)%nat then
      let? _e := insertEvent None (Some id) None action performedBy notes None in
      let? configID := config_of id in
      recalcTerraformLatest configID
    else
      let? n := update_scanner_status id newStatus in
      if (n =? 0)%nat then ret (Err ErrNoRows)
      else insertEvent None None (Some id) action performedBy notes None.

Definition SetStatus (id : uuid) (newStatus : string) (performedBy : option uuid)
  (notes : option string) : P (res unit) :=
  in_tx (status_change id newStatus performedBy notes).

Definition pending_rows (rows : list gated_row) : nat :=
  length (List.filter (fun r => bool_decide (g_ApprovalStatus r = Some VersionApprovalStatusPending))
            rows).

Definition PendingCount : P (res nat) :=
  db "failed to count pending approvals" (fun s =>
    (Ok (pending_rows (mirrored_provider_versions s) +
         length (List.filter (fun v =>
           bool_decide (v_ApprovalStatus v = Some VersionApprovalStatusPending))
           (terraform_versions (binaries s))) +
         pending_rows (scanner_binary_versions s))%nat, s)).

(** ** Handlers *)

Context (uuid_Parse : string -> option uuid).

(** The user id of the request, when there is one and it parses. *)
Definition currentUserID (user_id : option string) : option uuid :=
  match user_id with
  | None => None
  | Some s => if String.eqb s "" then None else uuid_Parse s
  end.

(** The response status and the message. *)
Definition setStatus (param_id : string) (user_id notes : option string) (status : string)
  : P (Z * string) :=
  match uuid_Parse param_id with
  | None => ret (400, "Invalid version id")
  | Some id =>
      let! r := SetStatus id status (currentUserID user_id) notes in
      match r with
      | Ok _ => ret (200, "Version " +:+ status)
      | Err e =>
          if errors_is e ErrNoRows then ret (404, "Version not found or not subject to approval")
          else ret (500, "Failed to update version status")
      end
  end.

Definition Approve (param_id : string) (user_id notes : option string) :=
  setStatus param_id user_id notes VersionApprovalStatusApproved.
Definition Reject (param_id : string) (user_id notes : option string) :=
  setStatus param_id user_id notes VersionApprovalStatusRejected.

Record VersionApprovalBulkResponse := {
  Approved : nat; Rejected : nat; Failures : list string;
}.

Definition count_one (status : string) (r : VersionApprovalBulkResponse)
  : VersionApprovalBulkResponse :=
  if String.eqb status VersionApprovalStatusApproved
  then {| Approved := S (Approved r); Rejected := Rejected r; Failures := Failures r |}
  else {| Approved := Approved r; Rejected := S (Rejected r); Failures := Failures r |}.
Definition count_failure (raw : string) (r : VersionApprovalBulkResponse)
  : VersionApprovalBulkResponse :=
  {| Approved := Approved r; Rejected := Rejected r; Failures := Failures r ++ [raw] |}.

(** The request binds when it lists at least one id. *)
Definition bulk (IDs : list string) (user_id notes : option string) (status : string)
  : P (res VersionApprovalBulkResponse) :=
  match IDs with
  | [] => ret (Err (ErrMsg "ids is required"))
  | _ =>
      let! resp := fold_prog (fun resp raw =>
        match uuid_Parse raw with
        | None => ret (count_failure raw resp)
        | Some id =>
            let! r := SetStatus id status (currentUserID user_id) notes in
            match r with
            | Err _ => ret (count_failure raw resp)
            | Ok _ => ret (count_one status resp)
            end
        end) {| Approved := 0; Rejected := 0; Failures := [] |} IDs in
      ret (Ok resp)
  end.
End Approval.

(** ** Lemmas *)

Lemma in_tx_spec {A} (body : P (res A)) w :
  (forall e, fst (in_tx body w) = Err e -> st (snd (in_tx body w)) = st w) /\
  (forall a, fst (in_tx body w) = Ok a ->
     exists w1, st w1 = st w /\ fst (body w1) = Ok a /\
                st (snd (body w1)) = st (snd (in_tx body w))).
Proof.
  unfold in_tx. set (begin := db "BeginTxx" _).
  assert (Hbegin : (exists e w1, begin w = (Err e, w1) /\ st w1 = st w) \/
                   (exists w1, begin w = (Ok (st w), w1) /\ st w1 = st w)).
  { unfold begin, db. destruct (faults w) as [|[] fs]; [right | left | right]; repeat eexists. }
  clearbody begin. unfold bind.
  destruct Hbegin as [(e & w1 & -> & Hw1)|(w1 & -> & Hw1)]; cbn [fst snd ret]; [by split|].
  destruct (body w1) as [[a|e] w2] eqn:Eb; cbn [fst snd ret modify st]; [|by split].
  set (commit := db "Commit" _).
  assert (Hc : (exists e w3, commit w2 = (Err e, w3)) \/
               (exists w3, commit w2 = (Ok tt, w3) /\ st w3 = st w2)).
  { unfold commit, db. destruct (faults w2) as [|[] fs]; [right | left | right]; repeat eexists. }
  clearbody commit.
  destruct Hc as [(e & w3 & ->)|(w3 & -> & Hw3)]; cbn [fst snd ret modify st]; [by split|].
  split; [done|]. intros a' [= <-]. exists w1. by rewrite Eb.
Qed.

Lemma filter_nonempty {A} (f : A -> bool) l :
  (0 < length (List.filter f l))%nat <-> exists x, In x l /\ f x = true.
Proof.
  split.
  - destruct (List.filter f l) as [|x k] eqn:E; [cbn; lia|]. intros _.
    assert (Hx : In x (List.filter f l)) by (rewrite E; by left).
    apply filter_In in Hx. by exists x.
  - intros (x & Hx). apply filter_In in Hx. destruct (List.filter f l); [done | cbn; lia].
Qed.

(** A version row without its latest mark. *)
Definition unmarked (v : TerraformVersion) : TerraformVersion := set_latest false v.

Lemma unmarked_set b v : unmarked (set_latest b v) = unmarked v.
Proof. done. Qed.

Lemma unmarked_update cond b rows :
  map unmarked (update_rows cond (set_latest b) rows) = map unmarked rows.
Proof.
  unfold update_rows. rewrite map_map. apply map_ext. intros v. by destruct (cond v).
Qed.

(** The rows with their latest marks recomputed for a configuration. *)
Definition marked (configID : uuid) (best : option TerraformVersion) (rows : list TerraformVersion)
  : list TerraformVersion :=
  let cleared := update_rows (fun v => (v_ConfigID v =? configID)%nat && v_IsLatest v)
                   (set_latest false) rows in
  match best with
  | Some b => update_rows (fun v => (v_ID v =? v_ID b)%nat) (set_latest true) cleared
  | None => cleared
  end.

Lemma unmarked_marked configID best rows :
  map unmarked (marked configID best rows) = map unmarked rows.
Proof. unfold marked. destruct best; by rewrite !unmarked_update. Qed.

Section Theorems.
Context `{GSL : GoSortLaws}.

Lemma candidate_unmarked configID v :
  latest_candidate configID (unmarked v) = latest_candidate configID v.
Proof. done. Qed.

Lemma recalc_ok configID (w : env approvaldb) :
  fst (recalcTerraformLatest configID w) = Ok tt ->
  exists best, highest_candidate configID
                 (marked configID None (terraform_versions (binaries (st w)))) = Ok best /\
    st (snd (recalcTerraformLatest configID w)) =
      with_binaries (on_versions (marked configID best) (binaries (st w))) (st w).
Proof.
  intros Hok. unfold recalcTerraformLatest in *.
  apply bind_ok in Hok as (u & H1' & H2' & ->).
  apply db_ok in H1' as [_ E1]. set (w1 := snd (db _ _ w)) in *. clearbody w1.
  apply db_ok in H2' as [E2 ->]. rewrite E1 in *. cbn -[update_rows] in E2 |- *.
  unfold marked at 1. destruct (highest_candidate configID _) as [[b|]|e]; cbn -[update_rows] in *;
    [..|done]; eexists; (split; [reflexivity|]); destruct (st w) as [ps [c v p h n] sc evs]; reflexivity.
Qed.

Lemma insert_ok ev (w : env approvaldb) u :
  fst (insert_event ev w) = Ok u ->
  event_ok ev = true /\
  st (snd (insert_event ev w)) = with_events (version_approval_events (st w) ++ [ev]) (st w).
Proof.
  unfold insert_event. intros Q. apply db_ok in Q as [E ->]. by destruct (event_ok ev).
Qed.

Lemma map_id_rows {A} (f : A -> A) (g : A -> bool) l :
  (forall x, g x = false -> f x = x) -> ~ (0 < length (List.filter g l))%nat -> map f l = l.
Proof.
  intros Hf Hn. rewrite filter_nonempty in Hn. induction l as [|x l IH]; [done|]. cbn. f_equal.
  - apply Hf. destruct (g x) eqn:E; [|done]. exfalso. apply Hn. exists x. split; [by left | done].
  - apply IH. intros (y & Hy & Eg). apply Hn. exists y. split; [by right | done].
Qed.

Lemma no_provider_change id newStatus (s : approvaldb) :
  ~ (0 < affected_rows id (mirrored_provider_versions s))%nat ->
  with_providers (map (set_row_status id newStatus) (mirrored_provider_versions s)) s = s.
Proof.
  intros Hn. rewrite (map_id_rows _ (fun r => gated id (g_ID r) (g_ApprovalStatus r)));
    [by destruct s | | exact Hn].
  intros r Hr. unfold set_row_status. by rewrite Hr.
Qed.

Lemma no_version_change id newStatus (s : approvaldb) :
  ~ (0 < affected_versions id (terraform_versions (binaries s)))%nat ->
  with_binaries (on_versions (map (set_version_status id newStatus)) (binaries s)) s = s.
Proof.
  intros Hn. unfold on_versions.
  rewrite (map_id_rows _ (fun v => gated id (v_ID v) (v_ApprovalStatus v)));
    [by destruct s as [ps [c v p h n] sc evs] | | exact Hn].
  intros v Hv. unfold set_version_status. by rewrite Hv.
Qed.

(** What a successful body has done, by kind of version. *)
Definition decided (id : uuid) (newStatus : string) (performedBy : option uuid)
  (notes : option string) (s s' : approvaldb) : Prop :=
  exists ev, version_approval_events s' = version_approval_events s ++ [ev] /\
    ev_Action ev = action_of newStatus /\ ev_PerformedBy ev = performedBy /\
    ev_Notes ev = notes /\ event_ok ev = true /\
    ((ev_MirroredProviderVersionID ev = Some id /\
      (exists r, In r (mirrored_provider_versions s) /\
                 gated id (g_ID r) (g_ApprovalStatus r) = true) /\
      s' = with_events (version_approval_events s ++ [ev])
             (with_providers (map (set_row_status id newStatus) (mirrored_provider_versions s)) s)) \/
     (ev_TerraformVersionID ev = Some id /\
      (exists v, In v (terraform_versions (binaries s)) /\
                 gated id (v_ID v) (v_ApprovalStatus v) = true) /\
      let rows := map (set_version_status id newStatus) (terraform_versions (binaries s)) in
      exists v best, In v rows /\ v_ID v = id /\
        highest_candidate (v_ConfigID v) (marked (v_ConfigID v) None rows) = Ok best /\
        s' = with_events (version_approval_events s ++ [ev])
               (with_binaries (on_versions (fun _ => marked (v_ConfigID v) best rows) (binaries s)) s)) \/
     (ev_ScannerBinaryVersionID ev = Some id /\
      (exists r, In r (scanner_binary_versions s) /\
                 gated id (g_ID r) (g_ApprovalStatus r) = true) /\
      s' = with_events (version_approval_events s ++ [ev])
             (with_scanners (map (set_row_status id newStatus) (scanner_binary_versions s)) s))).

(** The binary-mirror branch, from the update on. *)
Lemma terraform_branch id newStatus performedBy notes (s : approvaldb) (w : env approvaldb) u :
  (0 < affected_versions id (terraform_versions (binaries s)))%nat ->
  st w = with_binaries (on_versions (map (set_version_status id newStatus)) (binaries s)) s ->
  let c := let? _e := insertEvent None (Some id) None (action_of newStatus) performedBy notes None in
           let? configID := config_of id in recalcTerraformLatest configID in
  fst (c w) = Ok u -> decided id newStatus performedBy notes s (st (snd (c w))).
Proof.
  intros Hn S1 c Hc. unfold c in *.
  apply bind_ok in Hc as (u1 & Hi & Hc & ->). apply insert_ok in Hi as [Hev S2].
  fold (insertEvent None (Some id) None (action_of newStatus) performedBy notes None) in *.
  set (w2 := snd (insertEvent None (Some id) None (action_of newStatus) performedBy notes None w)) in *.
  clearbody w2.
  apply bind_ok in Hc as (cfg & Hg & Hc & ->).
  assert (S3 : st (snd (config_of id w2)) = st w2 /\
    exists v, In v (terraform_versions (binaries (st w2))) /\ v_ID v = id /\ v_ConfigID v = cfg).
  { unfold config_of in *. apply db_ok in Hg as [Hg ->].
    destruct (List.find _ _) as [v|] eqn:Ef; [|done]. injection Hg as <-. split; [done|].
    apply find_some in Ef as [Hin E]. apply Nat.eqb_eq in E. by exists v. }
  set (w3 := snd (config_of id w2)) in *. clearbody w3. destruct u. destruct S3 as [S3 (v & Hv & Hid & <-)].
  apply recalc_ok in Hc as (best & Hb & ->). rewrite S3, S2, S1 in *. clear -Hn Hev Hv Hid Hb.
  eexists. split; [reflexivity|]. repeat (split; [done|]). right. left. split; [done|].
  split; [by apply filter_nonempty|]. by exists v, best.
Qed.

Lemma SetStatus_decided (id : uuid) (newStatus : string)
  (performedBy : option uuid) (notes : option string) (w : env approvaldb) :
  let r := SetStatus id newStatus performedBy notes w in
  match fst r with
  | Err _ => st (snd r) = st w
  | Ok _ => decided id newStatus performedBy notes (st w) (st (snd r))
  end.
Proof.
  intros r. destruct (in_tx_spec (status_change id newStatus performedBy notes) w) as [Herr Hok].
  change (in_tx _ w) with r in Herr, Hok.
  destruct (fst r) as [u|e] eqn:Er; [|by eapply Herr].
  destruct (Hok u eq_refl) as (w1 & Hw1 & Hbody & Hst). rewrite <- Hst, <- Hw1.
  clear Herr Hok Hst Hw1 Er r w. rename w1 into w. unfold status_change in *.
  apply bind_ok in Hbody as (n1 & E1 & Hbody & ->). unfold update_provider_status in *.
  apply db_ok in E1 as [E1 S1]. injection E1 as <-. cbn [snd] in S1.
  set (w1 := snd (db _ _ w)) in *. clearbody w1.
  destruct (Nat.ltb_spec 0 (affected_rows id (mirrored_provider_versions (st w)))) as [Hn|Hn].
  { apply insert_ok in Hbody as [Hev E]. unfold insertEvent. rewrite E, S1.
    eexists. split; [reflexivity|]. repeat (split; [done|]). left.
    split; [done|]. split; [by apply filter_nonempty | done]. }
  rewrite no_provider_change in S1 by lia. rewrite <- S1 in *. clear Hn S1 w. rename w1 into w.
  apply bind_ok in Hbody as (n2 & E2 & Hbody & ->). unfold update_terraform_status in *.
  apply db_ok in E2 as [E2 S2]. injection E2 as <-. cbn [snd] in S2.
  set (w1 := snd (db _ _ w)) in *. clearbody w1.
  destruct (Nat.ltb_spec 0 (affected_versions id (terraform_versions (binaries (st w))))) as [Hn|Hn].
  { by apply terraform_branch with (u := u). }
  rewrite no_version_change in S2 by lia. rewrite <- S2 in *. clear Hn S2 w. rename w1 into w.
  apply bind_ok in Hbody as (n3 & E3 & Hbody & ->). unfold update_scanner_status in *.
  apply db_ok in E3 as [E3 S3]. injection E3 as <-. cbn [snd] in S3.
  set (w1 := snd (db _ _ w)) in *. clearbody w1.
  destruct (Nat.eqb_spec (affected_rows id (scanner_binary_versions (st w))) 0) as [Hn|Hn]; [done|].
  apply insert_ok in Hbody as [Hev E]. unfold insertEvent. rewrite E, S3.
  eexists. split; [reflexivity|]. repeat (split; [done|]). right. right.
  split; [done|]. split; [apply filter_nonempty; unfold affected_rows in Hn; lia | done].
Qed.

(** an approval decision is all or nothing and always audited.  When
    [SetStatus] fails, whatever failed, no table has changed; when it succeeds,
    exactly one event was appended, with the decision, its author and notes and the
    version as its only target, that version was gated (its status was not null),
    and no other row's status, deprecation or identity has changed: the id is
    looked up among provider, then binary, then scanner versions. *)
Theorem decision_is_atomic_and_audited (id : uuid) (newStatus : string)
  (performedBy : option uuid) (notes : option string) (w : env approvaldb) :
  let r := SetStatus id newStatus performedBy notes w in
  match fst r with
  | Err _ => st (snd r) = st w
  | Ok _ => decided id newStatus performedBy notes (st w) (st (snd r))
  end.
Proof. apply SetStatus_decided. Qed.

(** Highest first. *)
Lemma sort_key_strict_weak :
  StrictWeak (fun a b => 0 <? compare_parts (sort_key a) (sort_key b)).
Proof.
  apply (keyed_strict_weak sort_key 3). intros v. unfold sort_key, semverOrder.
  cbv zeta. repeat case_goal; reflexivity.
Qed.

Lemma highest_candidate_spec configID rows best :
  highest_candidate configID rows = Ok best ->
  match best with
  | None => forall v, In v rows -> latest_candidate configID v = false
  | Some b => In b rows /\ latest_candidate configID b = true /\
      forall v, In v rows -> latest_candidate configID v = true ->
        0 <= compare_parts (sort_key b) (sort_key v)
  end.
Proof.
  unfold highest_candidate. destruct (List.forallb _ _); [|done].
  set (cands := List.filter _ rows). set (less := fun a b => _).
  pose proof (go_sort_sorted _ less cands sort_key_strict_weak) as Hs.
  pose proof (go_sort_perm _ less cands) as Hp.
  destruct (go_sort less cands) as [|b l]; intros [= <-]; cbn [head].
  - intros v Hv. destruct (latest_candidate configID v) eqn:E; [|done].
    assert (Hin : In v cands) by by apply filter_In.
    by apply (Permutation_in _ Hp) in Hin.
  - assert (Hb : In b cands) by (apply (Permutation_in _ (Permutation_sym Hp)); by left).
    apply filter_In in Hb as [Hb1 Hb2]. split; [done|]. split; [done|]. intros v Hv Hc.
    assert (Hin : In v cands) by by apply filter_In.
    apply (Permutation_in _ Hp) in Hin as [<-|Hin].
    + pose proof (compare_parts_antisym (sort_key b) (sort_key b)). lia.
    + apply StronglySorted_inv in Hs as [_ Hall]. rewrite List.Forall_forall in Hall.
      specialize (Hall v Hin). unfold less in Hall. apply Z.ltb_ge in Hall.
      rewrite compare_parts_antisym in Hall. lia.
Qed.

Lemma id_unique (rows : list TerraformVersion) x y :
  NoDup (v_ID <$> rows) -> In x rows -> In y rows -> v_ID x = v_ID y -> x = y.
Proof.
  induction rows as [|r rows IH]; [done|]. cbn [fmap list_fmap]. intros Hnd Hx Hy E.
  apply NoDup_cons in Hnd as [Hn Hnd]. rewrite list_elem_of_In in Hn.
  destruct Hx as [->|Hx], Hy as [->|Hy]; try done.
  - exfalso. apply Hn. rewrite E. by apply in_map.
  - exfalso. apply Hn. rewrite <- E. by apply in_map.
  - by apply IH.
Qed.

Lemma marked_latest configID best rows v :
  In v (marked configID best rows) -> v_ConfigID v = configID ->
  (v_IsLatest v = true <-> exists b, best = Some b /\ v_ID v = v_ID b).
Proof.
  intros Hin Hc.
  assert (Hclear : forall u, In u (update_rows (fun v => (v_ConfigID v =? configID)%nat && v_IsLatest v)
            (set_latest false) rows) -> v_ConfigID u = configID -> v_IsLatest u = false).
  { intros u Hu Hcu. apply in_map_iff in Hu as (r & <- & _).
    destruct (v_ConfigID r =? configID)%nat eqn:E1, (v_IsLatest r) eqn:E2; cbn [andb] in *; try done.
    apply Nat.eqb_neq in E1. by destruct E1. }
  unfold marked in Hin. destruct best as [b|].
  - apply in_map_iff in Hin as (u & <- & Hu).
    destruct (Nat.eqb_spec (v_ID u) (v_ID b)) as [E|E].
    + split; [intros _; by exists b | done].
    + rewrite (Hclear u Hu Hc). split; [done|]. by intros (b' & [= <-] & ?).
  - rewrite (Hclear v Hin Hc). split; [done|]. by intros (b' & [=] & _).
Qed.

Lemma in_unmarked v rows rows' :
  map unmarked rows = map unmarked rows' -> In v rows ->
  exists v', In v' rows' /\ unmarked v' = unmarked v.
Proof.
  intros E Hv. assert (Hu : In (unmarked v) (map unmarked rows')) by (rewrite <- E; by apply in_map).
  apply in_map_iff in Hu as (v' & Hv' & Hin). by exists v'.
Qed.

Lemma unmarked_same v v' :
  unmarked v' = unmarked v ->
  v_ID v' = v_ID v /\ v_ConfigID v' = v_ConfigID v /\ sort_key v' = sort_key v /\
  forall c, latest_candidate c v' = latest_candidate c v.
Proof.
  destruct v, v'. unfold unmarked, set_latest. cbn. intros [=]; subst. done.
Qed.

Lemma unmarked_ids rows rows' :
  map unmarked rows = map unmarked rows' -> v_ID <$> rows = v_ID <$> rows'.
Proof.
  revert rows'. induction rows as [|v rows IH]; intros [|v' rows']; try done.
  cbn [map fmap list_fmap]. intros E. injection E as E1 E2 E3 E4 E5 E6 E7 E8 E9 E10 E11 E.
  f_equal; [done | by apply IH].
Qed.

(** after every decision about a binary version the latest mark is where it
    belongs: the marked row of its configuration is synced, not deprecated, visible
    (ungated or approved) and no such row has a higher version number; there is at
    most one marked row, and there is one as soon as some row qualifies. *)
Theorem decision_moves_latest (id : uuid) (newStatus : string) (performedBy : option uuid)
  (notes : option string) (w : env approvaldb) (v0 : TerraformVersion) :
  let rows := terraform_versions (binaries (st w)) in
  let r := SetStatus id newStatus performedBy notes w in
  let rows' := terraform_versions (binaries (st (snd r))) in
  let c := v_ConfigID v0 in
  fst r = Ok tt -> NoDup (v_ID <$> rows) -> In v0 rows -> v_ID v0 = id ->
  (forall g, In g (mirrored_provider_versions (st w)) \/
             In g (scanner_binary_versions (st w)) -> g_ID g <> id) ->
  (forall v, In v rows' -> v_ConfigID v = c -> v_IsLatest v = true ->
     latest_candidate c v = true /\
     forall v1, In v1 rows' -> latest_candidate c v1 = true ->
       0 <= compare_parts (sort_key v) (sort_key v1)) /\
  (forall v v1, In v rows' -> In v1 rows' -> v_ConfigID v = c -> v_ConfigID v1 = c ->
     v_IsLatest v = true -> v_IsLatest v1 = true -> v = v1) /\
  ((exists v1, In v1 rows' /\ latest_candidate c v1 = true) ->
   exists v, In v rows' /\ v_ConfigID v = c /\ v_IsLatest v = true).
Proof.
  intros rows r rows' c Hok Hnd Hv0 Hid Hother.
  pose proof (SetStatus_decided id newStatus performedBy notes w) as Hd. cbv zeta in Hd.
  fold r in Hd. rewrite Hok in Hd.
  assert (Hdec : exists v best,
    In v (map (set_version_status id newStatus) rows) /\ v_ID v = id /\
    highest_candidate (v_ConfigID v) (marked (v_ConfigID v) None
      (map (set_version_status id newStatus) rows)) = Ok best /\
    rows' = marked (v_ConfigID v) best (map (set_version_status id newStatus) rows)).
  { destruct Hd as (ev & _ & _ & _ & _ & _ & [Hp|[Ht|Hs]]).
    - destruct Hp as (_ & (g & Hg & Hgate) & _). exfalso.
      apply andb_prop in Hgate as [Hgate _]. apply Nat.eqb_eq in Hgate.
      apply (Hother g); [by left | done].
    - destruct Ht as (_ & _ & v & best & Hv & Hvid & Hb & E). exists v, best.
      repeat (split; [done|]). unfold rows'. by rewrite E.
    - destruct Hs as (_ & (g & Hg & Hgate) & _). exfalso.
      apply andb_prop in Hgate as [Hgate _]. apply Nat.eqb_eq in Hgate.
      apply (Hother g); [by right | done]. }
  clear Hd Hok Hother. destruct Hdec as (v & best & Hv & Hvid & Hb & Hrows).
  set (rows1 := map (set_version_status id newStatus) rows) in *.
  assert (Hids : v_ID <$> rows1 = v_ID <$> rows).
  { unfold rows1. clear. induction rows as [|x l IH]; [done|]. cbn [map fmap list_fmap] in *.
    f_equal; [|exact IH]. unfold set_version_status. by destruct (gated _ _ _). }
  assert (Hc : v_ConfigID v = c).
  { apply in_map_iff in Hv as (u & <- & Hu).
    assert (Eu : v_ID (set_version_status id newStatus u) = v_ID u /\
                 v_ConfigID (set_version_status id newStatus u) = v_ConfigID u).
    { unfold set_version_status. by destruct (gated _ _ _). }
    destruct Eu as [E1 ->]. rewrite E1 in Hvid. unfold c.
    by rewrite (id_unique rows u v0 Hnd Hu Hv0 ltac:(congruence)). }
  rewrite Hc in *. clear Hv Hvid Hc v Hv0.
  set (rows0 := marked c None rows1) in *.
  assert (E0 : map unmarked rows' = map unmarked rows0).
  { rewrite Hrows. unfold rows0. by rewrite !unmarked_marked. }
  assert (Hnd0 : NoDup (v_ID <$> rows0)).
  { rewrite (unmarked_ids rows0 rows1); [by rewrite Hids | apply unmarked_marked]. }
  assert (Hnd' : NoDup (v_ID <$> rows')) by by rewrite (unmarked_ids _ _ E0).
  apply highest_candidate_spec in Hb.
  assert (Hmark : forall v, In v rows' -> v_ConfigID v = c ->
            (v_IsLatest v = true <-> exists b, best = Some b /\ v_ID v = v_ID b)).
  { intros v Hv Hcv. rewrite Hrows in Hv. by eapply marked_latest. }
  clearbody rows0. clear Hrows Hids Hnd. split; [|split].
  - intros v Hv Hcv Hl. apply Hmark in Hl as (b & -> & Hvb); [|done..].
    destruct Hb as (Hb & Hcand & Hmax).
    destruct (in_unmarked v rows' rows0 E0 Hv) as (v' & Hv' & Eu).
    destruct (unmarked_same _ _ Eu) as (E1 & _ & E3 & E4).
    rewrite (id_unique rows0 v' b Hnd0 Hv' Hb ltac:(congruence)) in *.
    split; [by rewrite <- E4|]. intros v1 Hv1 Hc1.
    destruct (in_unmarked v1 rows' rows0 E0 Hv1) as (v1' & Hv1' & Eu1).
    destruct (unmarked_same _ _ Eu1) as (_ & _ & E5 & E6).
    rewrite <- E3, <- E5. apply Hmax; [done | by rewrite E6].
  - intros v v1 Hv Hv1 Hcv Hcv1 Hl Hl1.
    apply Hmark in Hl as (b & Eb & Hvb); [|done..].
    apply Hmark in Hl1 as (b1 & Eb1 & Hvb1); [|done..].
    apply (id_unique rows'); [done.. | congruence].
  - intros (v1 & Hv1 & Hc1).
    destruct (in_unmarked v1 rows' rows0 E0 Hv1) as (v1' & Hv1' & Eu1).
    destruct (unmarked_same _ _ Eu1) as (_ & _ & _ & E6). rewrite <- E6 in Hc1.
    destruct best as [b|]; [|by rewrite (Hb v1' Hv1') in Hc1].
    destruct Hb as (Hb & Hcand & _).
    destruct (in_unmarked b rows0 rows' (eq_sym E0) Hb) as (v & Hv & Eu).
    destruct (unmarked_same _ _ Eu) as (E1 & E2 & _).
    assert (Hcb : v_ConfigID b = c).
    { unfold latest_candidate in Hcand. bools. by apply Nat.eqb_eq. }
    exists v. split; [done|]. split; [congruence|].
    apply Hmark; [done | congruence|]. by exists b.
Qed.
End Theorems.

(** ** The two ways to choose the latest version

    After a decision the numbers alone decide; the sync job prefers stable versions
    but does not look at deprecation. *)
#[local] Existing Instance stable_sort.

Definition demo_row (id : uuid) (version status : string) (latest deprecated : bool)
  : TerraformVersion := {|
  v_ID := id; v_ConfigID := 1%nat; v_Version := version; v_IsLatest := latest;
  v_IsDeprecated := deprecated; v_ReleaseDate := None; v_SyncStatus := "synced";
  v_SyncError := None; v_SyncedAt := None; v_ApprovalStatus := Some status;
  v_SumsStorageKey := None; v_SigStorageKey := None |}.

Definition demo_tables : tfdb := {|
  terraform_mirror_configs := [];
  terraform_versions := [demo_row 2%nat "1.9.0" "approved" true false;
                         demo_row 3%nat "1.10.0-rc1" "approved" false false;
                         demo_row 4%nat "1.9.5" "approved" false true;
                         demo_row 5%nat "1.8.0" "pending_approval" false false];
  terraform_version_platforms := []; terraform_sync_history := []; next_uuid := 6%nat |}.

Definition demo_db : env approvaldb := quiet {|
  mirrored_provider_versions := []; binaries := demo_tables; scanner_binary_versions := [];
  version_approval_events := [] |}.

Definition latest_versions (rows : list TerraformVersion) : list string :=
  v_Version <$> List.filter v_IsLatest rows.

(** the approval gate and the sync job disagree about the latest version: on
    one and the same catalogue (1.9.0, 1.10.0-rc1 and a deprecated 1.9.5 visible,
    1.8.0 pending) the sync job marks the deprecated 1.9.5 latest, while approving
    the unrelated 1.8.0 marks the pre-release 1.10.0-rc1. *)
Theorem latest_rules_disagree :
  latest_versions (terraform_versions (tdb (st (snd
    (updateLatestVersion 1%nat (quiet (Mir demo_tables tt))))))) = ["1.9.5"] /\
  latest_versions (terraform_versions (binaries (st (snd
    (SetStatus 5%nat VersionApprovalStatusApproved None None demo_db))))) = ["1.10.0-rc1"].
Proof. vm_compute. split; reflexivity. Qed.

Theorem decision_moves_latest_witness :
  let rows' := terraform_versions (binaries (st (snd
     (SetStatus 5%nat VersionApprovalStatusApproved None None demo_db)))) in
  (forall v, In v rows' -> v_ConfigID v = 1%nat -> v_IsLatest v = true ->
     latest_candidate 1%nat v = true /\
     forall v1, In v1 rows' -> latest_candidate 1%nat v1 = true ->
       0 <= compare_parts (sort_key v) (sort_key v1)) /\
  (forall v v1, In v rows' -> In v1 rows' -> v_ConfigID v = 1%nat -> v_ConfigID v1 = 1%nat ->
     v_IsLatest v = true -> v_IsLatest v1 = true -> v = v1) /\
  ((exists v1, In v1 rows' /\ latest_candidate 1%nat v1 = true) ->
   exists v, In v rows' /\ v_ConfigID v = 1%nat /\ v_IsLatest v = true).
Proof.
  apply (decision_moves_latest (GSL := stable_sort_laws) 5%nat VersionApprovalStatusApproved None None
           demo_db (demo_row 5%nat "1.8.0" "pending_approval" false false)).
  - vm_compute. reflexivity.
  - apply (bool_decide_eq_true_1 _). vm_compute. reflexivity.
  - right. right. right. by left.
  - reflexivity.
  - by intros g [[]|[]].
Defined.
