(* ===== verification/ProvRepo.v ===== *)
(** * The provider mirror's tables

    [internal/db/models/mirror.go] and [provider.go] with the statements of
    [internal/db/repositories/mirror_repository.go], [provider_repository.go] and
    [provider_docs_repository.go] the provider mirror and the registry protocol
    run, one Module per repository.  A table is the list of its rows in insertion
    order; the uniqueness and foreign-key constraints are those of the
    [internal/db/migrations] schema.  Audit columns and the names joined from
    [users] are left out; identifiers are drawn fresh from a counter, so parsing
    one never fails. *)

From S2P Require Import Prelude GoStrings SemVer VersionFilter AutoApprove.
From S2P Require Import TfMirrorRepo VersionApproval.
From stdpp Require Import gmap.

#[local] Open Scope Z_scope.

(** ** Rows *)

Record MirrorConfiguration := {
  mc_ID : uuid;
  mc_Name : string;
  mc_UpstreamRegistryURL : string;
  mc_OrganizationID : option uuid;
  mc_NamespaceFilter : option string;
  mc_ProviderFilter : option string;
  mc_VersionFilter : option string;
  mc_PlatformFilter : option string;
  mc_Enabled : bool;
  mc_SyncIntervalHours : Z;
  mc_RequiresApproval : bool;
  mc_AutoApproveRules : option string;
  mc_PullThroughEnabled : bool;
  mc_LastSyncAt : option Z;
  mc_LastSyncStatus : option string;
  mc_LastSyncError : option string;
}.

Record Provider := {
  pr_ID : uuid;
  pr_OrganizationID : option uuid;
  pr_Namespace : string;
  pr_Type : string;
  pr_Description : option string;
  pr_Source : option string;
}.

Record ProviderVersionRow := {
  pv_ID : uuid;
  pv_ProviderID : uuid;
  pv_Version : string;
  pv_Protocols : list string;
  pv_GPGPublicKey : string;
  pv_ShasumURL : string;
  pv_ShasumSignatureURL : string;
  pv_ShasumStorageKey : option string;
  pv_ShasumSignatureStorageKey : option string;
  pv_Deprecated : bool;
}.

Record ProviderPlatformRow := {
  pp_ID : uuid;
  pp_ProviderVersionID : uuid;
  pp_OS : string;
  pp_Arch : string;
  pp_Filename : string;
  pp_StoragePath : string;
  pp_StorageBackend : string;
  pp_SizeBytes : Z;
  pp_Shasum : string;
  pp_H1Hash : option string;
  pp_DownloadCount : Z;
}.

Record ProviderVersionShasum := {
  ps_ProviderVersionID : uuid;
  ps_Filename : string;
  ps_SHA256Hex : string;
}.

Record ProviderVersionDoc := {
  pd_ProviderVersionID : uuid;
  pd_UpstreamDocID : string;
  pd_Title : string;
  pd_Slug : string;
  pd_Category : string;
  pd_Subcategory : option string;
  pd_Path : option string;
  pd_Language : string;
}.

Record MirroredProvider := {
  mp_ID : uuid;
  mp_MirrorConfigID : uuid;
  mp_ProviderID : uuid;
  mp_UpstreamNamespace : string;
  mp_UpstreamType : string;
  mp_LastSyncedAt : Z;
  mp_LastSyncVersion : option string;
  mp_SyncEnabled : bool;
}.

Record MirroredProviderVersion := {
  mpv_ID : uuid;
  mpv_MirroredProviderID : uuid;
  mpv_ProviderVersionID : uuid;
  mpv_UpstreamVersion : string;
  mpv_SyncedAt : Z;
  mpv_ShasumVerified : bool;
  mpv_GPGVerified : bool;
  mpv_ApprovalStatus : option string;
}.

Record MirrorSyncHistory := {
  sh_ID : uuid;
  sh_MirrorConfigID : uuid;
  sh_StartedAt : Z;
  sh_CompletedAt : option Z;
  sh_Status : string;
  sh_ProvidersSynced : Z;
  sh_ProvidersFailed : Z;
  sh_ErrorMessage : option string;
  sh_SyncDetails : option string;
}.

Record pdb := PDB {
  mirror_configurations : list MirrorConfiguration;
  providers : list Provider;
  provider_versions : list ProviderVersionRow;
  provider_platforms : list ProviderPlatformRow;
  provider_version_shasums : list ProviderVersionShasum;
  provider_version_docs : list ProviderVersionDoc;
  mirrored_providers : list MirroredProvider;
  mirrored_versions : list MirroredProviderVersion;
  mirror_sync_history : list MirrorSyncHistory;
  approval_events : list VersionApprovalEvent;
  pnext : uuid;
}.

(** Updates of one table. *)
Definition on_mirrors f (t : pdb) : pdb :=
  let '(PDB a b c d e g h i j k n) := t in PDB (f a) b c d e g h i j k n.
Definition on_providers f (t : pdb) : pdb :=
  let '(PDB a b c d e g h i j k n) := t in PDB a (f b) c d e g h i j k n.
Definition on_pversions f (t : pdb) : pdb :=
  let '(PDB a b c d e g h i j k n) := t in PDB a b (f c) d e g h i j k n.
Definition on_pplatforms f (t : pdb) : pdb :=
  let '(PDB a b c d e g h i j k n) := t in PDB a b c (f d) e g h i j k n.
Definition on_shasums f (t : pdb) : pdb :=
  let '(PDB a b c d e g h i j k n) := t in PDB a b c d (f e) g h i j k n.
Definition on_docs f (t : pdb) : pdb :=
  let '(PDB a b c d e g h i j k n) := t in PDB a b c d e (f g) h i j k n.
Definition on_mirrored f (t : pdb) : pdb :=
  let '(PDB a b c d e g h i j k n) := t in PDB a b c d e g (f h) i j k n.
Definition on_tracking f (t : pdb) : pdb :=
  let '(PDB a b c d e g h i j k n) := t in PDB a b c d e g h (f i) j k n.
Definition on_runs f (t : pdb) : pdb :=
  let '(PDB a b c d e g h i j k n) := t in PDB a b c d e g h i (f j) k n.
Definition on_events f (t : pdb) : pdb :=
  let '(PDB a b c d e g h i j k n) := t in PDB a b c d e g h i j (f k) n.
Definition bump (t : pdb) : pdb :=
  let '(PDB a b c d e g h i j k n) := t in PDB a b c d e g h i j k (S n).

(** ** Row updates *)

Definition set_sync_status (now : Z) (status : string) (err : option string)
  (c : MirrorConfiguration) : MirrorConfiguration := {|
  mc_ID := mc_ID c; mc_Name := mc_Name c; mc_UpstreamRegistryURL := mc_UpstreamRegistryURL c;
  mc_OrganizationID := mc_OrganizationID c; mc_NamespaceFilter := mc_NamespaceFilter c;
  mc_ProviderFilter := mc_ProviderFilter c; mc_VersionFilter := mc_VersionFilter c;
  mc_PlatformFilter := mc_PlatformFilter c; mc_Enabled := mc_Enabled c;
  mc_SyncIntervalHours := mc_SyncIntervalHours c; mc_RequiresApproval := mc_RequiresApproval c;
  mc_AutoApproveRules := mc_AutoApproveRules c; mc_PullThroughEnabled := mc_PullThroughEnabled c;
  mc_LastSyncAt := Some now; mc_LastSyncStatus := Some status; mc_LastSyncError := err |}.

(** [ResetStaleSyncs] leaves [last_sync_at] alone. *)
Definition set_interrupted (msg : string) (c : MirrorConfiguration) : MirrorConfiguration := {|
  mc_ID := mc_ID c; mc_Name := mc_Name c; mc_UpstreamRegistryURL := mc_UpstreamRegistryURL c;
  mc_OrganizationID := mc_OrganizationID c; mc_NamespaceFilter := mc_NamespaceFilter c;
  mc_ProviderFilter := mc_ProviderFilter c; mc_VersionFilter := mc_VersionFilter c;
  mc_PlatformFilter := mc_PlatformFilter c; mc_Enabled := mc_Enabled c;
  mc_SyncIntervalHours := mc_SyncIntervalHours c; mc_RequiresApproval := mc_RequiresApproval c;
  mc_AutoApproveRules := mc_AutoApproveRules c; mc_PullThroughEnabled := mc_PullThroughEnabled c;
  mc_LastSyncAt := mc_LastSyncAt c; mc_LastSyncStatus := Some "failed";
  mc_LastSyncError := Some msg |}.

Definition set_version_flags (key : string) (dep : bool) (v : ProviderVersionRow)
  : ProviderVersionRow := {|
  pv_ID := pv_ID v; pv_ProviderID := pv_ProviderID v; pv_Version := pv_Version v;
  pv_Protocols := pv_Protocols v; pv_GPGPublicKey := key; pv_ShasumURL := pv_ShasumURL v;
  pv_ShasumSignatureURL := pv_ShasumSignatureURL v; pv_ShasumStorageKey := pv_ShasumStorageKey v;
  pv_ShasumSignatureStorageKey := pv_ShasumSignatureStorageKey v; pv_Deprecated := dep |}.

Definition set_gpg_key (key : string) (v : ProviderVersionRow) :=
  set_version_flags key (pv_Deprecated v) v.
(** [COALESCE]: a missing key leaves the column. *)
Definition set_signature_storage (sumsKey sigKey : option string) (v : ProviderVersionRow)
  : ProviderVersionRow := {|
  pv_ID := pv_ID v; pv_ProviderID := pv_ProviderID v; pv_Version := pv_Version v;
  pv_Protocols := pv_Protocols v; pv_GPGPublicKey := pv_GPGPublicKey v;
  pv_ShasumURL := pv_ShasumURL v; pv_ShasumSignatureURL := pv_ShasumSignatureURL v;
  pv_ShasumStorageKey := coalesce sumsKey (pv_ShasumStorageKey v);
  pv_ShasumSignatureStorageKey := coalesce sigKey (pv_ShasumSignatureStorageKey v);
  pv_Deprecated := pv_Deprecated v |}.
Definition set_version_deprecated (dep : bool) (v : ProviderVersionRow) :=
  set_version_flags (pv_GPGPublicKey v) dep v.

(** What a conflicting insert writes: everything but the approval status. *)
Definition set_tracking (row : MirroredProviderVersion) (m : MirroredProviderVersion)
  : MirroredProviderVersion := {|
  mpv_ID := mpv_ID m; mpv_MirroredProviderID := mpv_MirroredProviderID m;
  mpv_ProviderVersionID := mpv_ProviderVersionID row;
  mpv_UpstreamVersion := mpv_UpstreamVersion m; mpv_SyncedAt := mpv_SyncedAt row;
  mpv_ShasumVerified := mpv_ShasumVerified row; mpv_GPGVerified := mpv_GPGVerified row;
  mpv_ApprovalStatus := mpv_ApprovalStatus m |}.

Definition set_tracking_gpg (b : bool) (m : MirroredProviderVersion)
  : MirroredProviderVersion := {|
  mpv_ID := mpv_ID m; mpv_MirroredProviderID := mpv_MirroredProviderID m;
  mpv_ProviderVersionID := mpv_ProviderVersionID m;
  mpv_UpstreamVersion := mpv_UpstreamVersion m; mpv_SyncedAt := mpv_SyncedAt m;
  mpv_ShasumVerified := mpv_ShasumVerified m; mpv_GPGVerified := b;
  mpv_ApprovalStatus := mpv_ApprovalStatus m |}.

Definition set_mirrored_sync (at_ : Z) (version : option string) (enabled : bool)
  (m : MirroredProvider) : MirroredProvider := {|
  mp_ID := mp_ID m; mp_MirrorConfigID := mp_MirrorConfigID m; mp_ProviderID := mp_ProviderID m;
  mp_UpstreamNamespace := mp_UpstreamNamespace m; mp_UpstreamType := mp_UpstreamType m;
  mp_LastSyncedAt := at_; mp_LastSyncVersion := version; mp_SyncEnabled := enabled |}.

Definition set_history (row : MirrorSyncHistory) (h : MirrorSyncHistory) : MirrorSyncHistory := {|
  sh_ID := sh_ID h; sh_MirrorConfigID := sh_MirrorConfigID h; sh_StartedAt := sh_StartedAt h;
  sh_CompletedAt := sh_CompletedAt row; sh_Status := sh_Status row;
  sh_ProvidersSynced := sh_ProvidersSynced row; sh_ProvidersFailed := sh_ProvidersFailed row;
  sh_ErrorMessage := sh_ErrorMessage row; sh_SyncDetails := sh_SyncDetails row |}.

Definition incr_platform_downloads (p : ProviderPlatformRow) : ProviderPlatformRow := {|
  pp_ID := pp_ID p; pp_ProviderVersionID := pp_ProviderVersionID p; pp_OS := pp_OS p;
  pp_Arch := pp_Arch p; pp_Filename := pp_Filename p; pp_StoragePath := pp_StoragePath p;
  pp_StorageBackend := pp_StorageBackend p; pp_SizeBytes := pp_SizeBytes p;
  pp_Shasum := pp_Shasum p; pp_H1Hash := pp_H1Hash p; pp_DownloadCount := pp_DownloadCount p + 1 |}.

(** ** Statements *)

(** The tables and the state [Y] of everything outside the process. *)
Record pm (Y : Type) := PM { ptab : pdb; pext : Y }.
Arguments PM {Y} _ _.
Arguments ptab {Y} _.
Arguments pext {Y} _.

Definition dup_key := ErrMsg "duplicate key value violates unique constraint".
Definition no_parent := ErrMsg "violates foreign key constraint".
Definition no_rows (what : string) : gerror := ErrMsg (what +:+ " not found").

Section Statements.
Context {Y : Type}.
#[local] Abbreviation P := (prog (env (pm Y))).

Definition psql {A} (op : string) (f : pdb -> res A * pdb) : P (res A) :=
  db op (fun s => let r := f (ptab s) in (fst r, PM (snd r) (pext s))).
Definition pquery {A} (op : string) (f : pdb -> res A) : P (res A) :=
  psql op (fun t => (f t, t)).
Definition pexec (op : string) (f : pdb -> pdb) : P (res unit) :=
  psql op (fun t => (Ok tt, f t)).

(** An update or deletion that reports when no row matched. *)
Definition pexec_found (op what : string) (hit : pdb -> bool) (f : pdb -> pdb) : P (res unit) :=
  psql op (fun t => if hit t then (Ok tt, f t) else (Err (no_rows what), t)).

Definition new_uuid : P uuid := state (fun s => (pnext (ptab s), PM (bump (ptab s)) (pext s))).

(** An insert whose identifier the database draws. *)
Definition pinsert (op : string) (valid : pdb -> option gerror) (f : uuid -> pdb -> pdb)
  : P (res uuid) :=
  psql op (fun t => match valid t with
                    | Some e => (Err (ErrWrap op e), t)
                    | None => (Ok (pnext t), f (pnext t) (bump t))
                    end).

(** A transaction: on failure of a statement or of the commit, the tables are
    those of [BEGIN]. *)
Definition ptx {A} (body : P (res A)) : P (res A) :=
  let? saved := pquery "failed to begin transaction" Ok in
  let! r := body in
  match r with
  | Ok a =>
      let! c := pexec "failed to commit" id in
      match c with
      | Ok _ => ret (Ok a)
      | Err e => run! modify (fun s => PM saved (pext s)) in ret (Err e)
      end
  | Err e => run! modify (fun s => PM saved (pext s)) in ret (Err e)
  end.
End Statements.

(** ** Relations kept by statements *)

(** The tables move along [T] and the outside along [O]. *)
Definition pmoves {Y} (T : pdb -> pdb -> Prop) (O : Y -> Y -> Prop) (s s' : pm Y) : Prop :=
  T (ptab s) (ptab s') /\ O (pext s) (pext s').

#[export] Instance pmoves_preorder {Y} T (O : Y -> Y -> Prop) `{!PreOrder T, !PreOrder O} :
  PreOrder (pmoves T O).
Proof.
  split; unfold pmoves; [intros s; split; reflexivity|].
  intros s1 s2 s3 [? ?] [? ?]. split; by etransitivity.
Qed.

Section Moves.
Context {Y : Type} (T : pdb -> pdb -> Prop) (O : Y -> Y -> Prop) `{!PreOrder T, !PreOrder O}.
#[local] Abbreviation along := (on_st (pmoves T O)).

Lemma along_psql {A} op (f : pdb -> res A * pdb) :
  (forall t, T t (snd (f t))) -> preserves along (psql op f).
Proof. intros Hf. apply preserves_db; [typeclasses eauto|]. intros s. split; cbn; [apply Hf | done]. Qed.

Lemma along_pquery {A} op (f : pdb -> res A) : preserves along (pquery op f).
Proof. apply along_psql. intros t. cbn. reflexivity. Qed.

Lemma along_pexec op f : (forall t, T t (f t)) -> preserves along (pexec op f).
Proof. intros Hf. by apply along_psql. Qed.

Lemma along_pexec_found op what hit f :
  (forall t, T t (f t)) -> preserves along (pexec_found op what hit f).
Proof.
  intros Hf. apply along_psql. intros t. destruct (hit t); cbn; [apply Hf | reflexivity].
Qed.

Lemma along_pinsert op valid f :
  (forall t, valid t = None -> T t (f (pnext t) (bump t))) -> preserves along (pinsert op valid f).
Proof.
  intros Hf. apply along_psql. intros t. destruct (valid t) eqn:E; cbn; [reflexivity | by apply Hf].
Qed.

Lemma along_uuid : (forall t, T t (bump t)) -> preserves along new_uuid.
Proof. intros Hb. apply preserves_state. intros s. split; cbn; [apply Hb | done]. Qed.

Lemma along_ptx {A} (body : prog (env (pm Y)) (res A)) :
  preserves along body -> preserves along (ptx body).
Proof.
  intros Hb w. unfold ptx, bind at 1.
  assert (Hq : forall r w1, pquery "failed to begin transaction" Ok w = (r, w1) ->
    st w1 = st w /\ forall t, r = Ok t -> t = ptab (st w)).
  { intros r w1. unfold pquery, psql, db. destruct (faults w) as [|[] fs]; intros [= <- <-]; cbn;
      (split; [by destruct (st w)|]); intros t [=]; done. }
  destruct (pquery _ _ w) as [r w1] eqn:E. destruct (Hq _ _ eq_refl) as [Hs Hr]. cbn [fst snd].
  assert (Hback : forall w2 e, along w1 w2 ->
    along w (snd ((run! modify (fun s => PM (ptab (st w)) (pext s)) in ret (Err (A := A) e)) w2))).
  { intros w2 e [_ Ho]. split; cbn; [reflexivity | by rewrite Hs in Ho]. }
  destruct r as [t|e]; [|unfold on_st; cbn; rewrite Hs; reflexivity].
  rewrite (Hr t eq_refl). unfold bind at 1. specialize (Hb w1).
  destruct (body w1) as [[a|e] w2]; cbn [fst snd] in *; [|by apply Hback].
  unfold bind at 1. pose proof (along_pexec "failed to commit" id (fun t => reflexivity t) w2) as Hc.
  destruct (pexec "failed to commit" id w2) as [[u|e] w3]; cbn [fst snd ret] in *.
  - unfold on_st in *. rewrite <- Hs. by etransitivity.
  - apply Hback. by etransitivity.
Qed.
End Moves.

Definition has {R} (cond : R -> bool) (rows : list R) : bool := List.existsb cond rows.

(** The cascades of the schema: events go with their tracking row, platforms,
    checksums, documents and tracking rows with their version. *)
Definition drop_tracking (gone : MirroredProviderVersion -> bool) (t : pdb) : pdb :=
  let ids := mpv_ID <$> List.filter gone (mirrored_versions t) in
  on_tracking (List.filter (fun m => negb (gone m)))
    (on_events (List.filter (fun ev => negb match ev_MirroredProviderVersionID ev with
                                            | Some i => has (Nat.eqb i) ids
                                            | None => false end)) t).

Definition drop_versions (gone : ProviderVersionRow -> bool) (t : pdb) : pdb :=
  let ids := pv_ID <$> List.filter gone (provider_versions t) in
  let keep i := negb (has (Nat.eqb i) ids) in
  on_pversions (List.filter (fun v => negb (gone v)))
    (on_pplatforms (List.filter (fun p => keep (pp_ProviderVersionID p)))
      (on_shasums (List.filter (fun s => keep (ps_ProviderVersionID s)))
        (on_docs (List.filter (fun d => keep (pd_ProviderVersionID d)))
          (drop_tracking (fun m => negb (keep (mpv_ProviderVersionID m))) t)))).

(** [VersionApprovalRepository.RecordEvent] on these tables. *)
Definition RecordEvent {Y} (ev : VersionApprovalEvent) : prog (env (pm Y)) (res unit) :=
  psql "failed to insert approval event" (fun t =>
    if negb (event_ok ev) then (Err (ErrMsg "violates check constraint"), t)
    else if negb match ev_MirroredProviderVersionID ev with
                 | Some i => has (fun m => (mpv_ID m =? i)%nat) (mirrored_versions t)
                 | None => true end
    then (Err no_parent, t)
    else (Ok tt, on_events (fun evs => evs ++ [ev]) t)).

(** ** [internal/db/repositories/mirror_repository.go] *)

Module MirrorRepository.
Section MirrorRepository.
Context {Y : Type} `{GoSort} `{StringsCodec}.
#[local] Abbreviation P := (prog (env (pm Y))).

(** The table's checks on a configuration. *)
Definition config_ok (c : MirrorConfiguration) : bool :=
  (0 <? mc_SyncIntervalHours c) && has_prefix (mc_UpstreamRegistryURL c) "http".

Definition name_taken (c : MirrorConfiguration) (rows : list MirrorConfiguration) : bool :=
  has (fun r => String.eqb (mc_Name r) (mc_Name c) && negb (mc_ID r =? mc_ID c)%nat) rows.

Definition Create (config : MirrorConfiguration) : P (res unit) :=
  psql "failed to create mirror configuration" (fun t =>
    if has (fun r => String.eqb (mc_Name r) (mc_Name config) || (mc_ID r =? mc_ID config)%nat)
         (mirror_configurations t)
    then (Err dup_key, t)
    else if negb (config_ok config) then (Err (ErrMsg "violates check constraint"), t)
    else (Ok tt, on_mirrors (fun rows => rows ++ [{|
      mc_ID := mc_ID config; mc_Name := mc_Name config;
      mc_UpstreamRegistryURL := mc_UpstreamRegistryURL config;
      mc_OrganizationID := mc_OrganizationID config;
      mc_NamespaceFilter := mc_NamespaceFilter config;
      mc_ProviderFilter := mc_ProviderFilter config;
      mc_VersionFilter := mc_VersionFilter config;
      mc_PlatformFilter := mc_PlatformFilter config; mc_Enabled := mc_Enabled config;
      mc_SyncIntervalHours := mc_SyncIntervalHours config;
      mc_RequiresApproval := mc_RequiresApproval config;
      mc_AutoApproveRules := mc_AutoApproveRules config;
      mc_PullThroughEnabled := mc_PullThroughEnabled config;
      mc_LastSyncAt := None; mc_LastSyncStatus := None; mc_LastSyncError := None |}]) t)).

Definition GetByID (id : uuid) : P (res (option MirrorConfiguration)) :=
  pquery "failed to get mirror configuration" (fun t =>
    Ok (List.find (fun c => (mc_ID c =? id)%nat) (mirror_configurations t))).

Definition GetByName (name : string) : P (res (option MirrorConfiguration)) :=
  pquery "failed to get mirror configuration by name" (fun t =>
    Ok (List.find (fun c => String.eqb (mc_Name c) name) (mirror_configurations t))).

Definition Update (config : MirrorConfiguration) : P (res unit) :=
  psql "failed to update mirror configuration" (fun t =>
    if negb (has (fun r => (mc_ID r =? mc_ID config)%nat) (mirror_configurations t))
    then (Err (no_rows "mirror configuration"), t)
    else if name_taken config (mirror_configurations t) then (Err dup_key, t)
    else if negb (config_ok config) then (Err (ErrMsg "violates check constraint"), t)
    else (Ok tt, on_mirrors (update_rows (fun r => (mc_ID r =? mc_ID config)%nat) (fun r => {|
      mc_ID := mc_ID r; mc_Name := mc_Name config;
      mc_UpstreamRegistryURL := mc_UpstreamRegistryURL config;
      mc_OrganizationID := mc_OrganizationID config;
      mc_NamespaceFilter := mc_NamespaceFilter config;
      mc_ProviderFilter := mc_ProviderFilter config;
      mc_VersionFilter := mc_VersionFilter config;
      mc_PlatformFilter := mc_PlatformFilter config; mc_Enabled := mc_Enabled config;
      mc_SyncIntervalHours := mc_SyncIntervalHours config;
      mc_RequiresApproval := mc_RequiresApproval config;
      mc_AutoApproveRules := mc_AutoApproveRules config;
      mc_PullThroughEnabled := mc_PullThroughEnabled config;
      mc_LastSyncAt := mc_LastSyncAt r; mc_LastSyncStatus := mc_LastSyncStatus r;
      mc_LastSyncError := mc_LastSyncError r |})) t)).

(** The histories and tracking rows of the configuration go with it; the
    providers it created stay. *)
Definition Delete (id : uuid) : P (res unit) :=
  pexec_found "failed to delete mirror configuration" "mirror configuration"
    (fun t => has (fun c => (mc_ID c =? id)%nat) (mirror_configurations t)) (fun t =>
    let gone := mp_ID <$> List.filter (fun m => (mp_MirrorConfigID m =? id)%nat)
                            (mirrored_providers t) in
    on_mirrors (List.filter (fun c => negb (mc_ID c =? id)%nat))
      (on_runs (List.filter (fun h => negb (sh_MirrorConfigID h =? id)%nat))
        (on_mirrored (List.filter (fun m => negb (mp_MirrorConfigID m =? id)%nat))
          (drop_tracking (fun m => has (Nat.eqb (mpv_MirroredProviderID m)) gone) t)))).

Definition UpdateSyncStatus (id : uuid) (status : string) (syncError : option string)
  : P (res unit) :=
  let! now := time_now in
  pexec "failed to update sync status"
    (on_mirrors (update_rows (fun c => (mc_ID c =? id)%nat) (set_sync_status now status syncError))).

Definition interrupted := "Sync interrupted: backend process restarted".

Definition stale_history (now : Z) (h : MirrorSyncHistory) : MirrorSyncHistory := {|
  sh_ID := sh_ID h; sh_MirrorConfigID := sh_MirrorConfigID h; sh_StartedAt := sh_StartedAt h;
  sh_CompletedAt := Some now; sh_Status := "failed";
  sh_ProvidersSynced := sh_ProvidersSynced h; sh_ProvidersFailed := sh_ProvidersFailed h;
  sh_ErrorMessage := Some interrupted; sh_SyncDetails := sh_SyncDetails h |}.

Definition is_running (h : MirrorSyncHistory) : bool := String.eqb (sh_Status h) "running".
Definition in_progress (c : MirrorConfiguration) : bool :=
  match mc_LastSyncStatus c with Some s => String.eqb s "in_progress" | None => false end.

Definition ResetStaleSyncs : P (res nat) :=
  let! now := time_now in
  let! n := psql "failed to reset stale sync history" (fun t =>
              (Ok (length (List.filter is_running (mirror_sync_history t))),
               on_runs (update_rows is_running (stale_history now)) t)) in
  match n with
  | Err e => ret (Err e)
  | Ok historyRows =>
      let? _u := pexec "failed to reset stale mirror sync status"
                   (on_mirrors (update_rows in_progress (set_interrupted interrupted))) in
      ret (Ok historyRows)
  end.

(** [enabled AND (last_sync_at IS NULL OR last_sync_at < NOW() - interval) AND
    (last_sync_status IS NULL OR last_sync_status != 'in_progress')] *)
Definition mirror_due (now : Z) (c : MirrorConfiguration) : bool :=
  mc_Enabled c &&
  match mc_LastSyncAt c with
  | None => true
  | Some t => t <? now - mc_SyncIntervalHours c * (3600 * 10^9)
  end && negb (in_progress c).

Definition synced_before (a b : MirrorConfiguration) : bool :=
  match mc_LastSyncAt a, mc_LastSyncAt b with
  | None, Some _ => true
  | Some x, Some y => x <? y
  | _, _ => false
  end.

Definition GetMirrorsNeedingSync : P (res (list MirrorConfiguration)) :=
  let! now := time_now in
  pquery "failed to get mirrors needing sync" (fun t =>
    Ok (go_sort synced_before (List.filter (mirror_due now) (mirror_configurations t)))).

Definition CreateSyncHistory (history : MirrorSyncHistory) : P (res unit) :=
  psql "failed to create sync history" (fun t =>
    if has (fun h => (sh_ID h =? sh_ID history)%nat) (mirror_sync_history t) then (Err dup_key, t)
    else if negb (has (fun c => (mc_ID c =? sh_MirrorConfigID history)%nat) (mirror_configurations t))
    then (Err no_parent, t)
    else (Ok tt, on_runs (fun rows => rows ++ [{|
      sh_ID := sh_ID history; sh_MirrorConfigID := sh_MirrorConfigID history;
      sh_StartedAt := sh_StartedAt history; sh_CompletedAt := None;
      sh_Status := sh_Status history; sh_ProvidersSynced := sh_ProvidersSynced history;
      sh_ProvidersFailed := sh_ProvidersFailed history; sh_ErrorMessage := None;
      sh_SyncDetails := None |}]) t)).

Definition UpdateSyncHistory (history : MirrorSyncHistory) : P (res unit) :=
  pexec "failed to update sync history"
    (on_runs (update_rows (fun h => (sh_ID h =? sh_ID history)%nat) (set_history history))).

Definition GetSyncHistory (mirrorConfigID : uuid) (limit : nat) : P (res (list MirrorSyncHistory)) :=
  pquery "failed to get sync history" (fun t =>
    Ok (take limit (go_sort (fun a b => sh_StartedAt b <? sh_StartedAt a)
          (List.filter (fun h => (sh_MirrorConfigID h =? mirrorConfigID)%nat)
             (mirror_sync_history t))))).

Definition GetActiveSyncHistory (mirrorConfigID : uuid) : P (res (option MirrorSyncHistory)) :=
  pquery "failed to get active sync history" (fun t =>
    Ok (head (go_sort (fun a b => sh_StartedAt b <? sh_StartedAt a)
          (List.filter (fun h => (sh_MirrorConfigID h =? mirrorConfigID)%nat && is_running h)
             (mirror_sync_history t))))).

(** *** Mirrored providers *)

Definition CreateMirroredProvider (mp : MirroredProvider) : P (res unit) :=
  psql "failed to create mirrored provider" (fun t =>
    if has (fun m => (mp_ID m =? mp_ID mp)%nat || (mp_ProviderID m =? mp_ProviderID mp)%nat ||
                     ((mp_MirrorConfigID m =? mp_MirrorConfigID mp)%nat &&
                      String.eqb (mp_UpstreamNamespace m) (mp_UpstreamNamespace mp) &&
                      String.eqb (mp_UpstreamType m) (mp_UpstreamType mp)))
         (mirrored_providers t)
    then (Err dup_key, t)
    else if negb (has (fun c => (mc_ID c =? mp_MirrorConfigID mp)%nat) (mirror_configurations t)) ||
            negb (has (fun p => (pr_ID p =? mp_ProviderID mp)%nat) (providers t))
    then (Err no_parent, t)
    else (Ok tt, on_mirrored (fun rows => rows ++ [mp]) t)).

Definition GetMirroredProvider (mirrorConfigID : uuid) (upstreamNamespace upstreamType : string)
  : P (res (option MirroredProvider)) :=
  pquery "failed to get mirrored provider" (fun t =>
    Ok (List.find (fun m => (mp_MirrorConfigID m =? mirrorConfigID)%nat &&
                            String.eqb (mp_UpstreamNamespace m) upstreamNamespace &&
                            String.eqb (mp_UpstreamType m) upstreamType) (mirrored_providers t))).

Definition GetMirroredProviderByProviderID (providerID : uuid)
  : P (res (option MirroredProvider)) :=
  pquery "failed to get mirrored provider" (fun t =>
    Ok (List.find (fun m => (mp_ProviderID m =? providerID)%nat) (mirrored_providers t))).

Definition UpdateMirroredProvider (mp : MirroredProvider) : P (res unit) :=
  pexec "failed to update mirrored provider"
    (on_mirrored (update_rows (fun m => (mp_ID m =? mp_ID mp)%nat)
       (set_mirrored_sync (mp_LastSyncedAt mp) (mp_LastSyncVersion mp) (mp_SyncEnabled mp)))).

(** *** Mirrored versions *)

Definition same_tracking (a b : MirroredProviderVersion) : bool :=
  (mpv_MirroredProviderID a =? mpv_MirroredProviderID b)%nat &&
  String.eqb (mpv_UpstreamVersion a) (mpv_UpstreamVersion b).

(** [INSERT ... ON CONFLICT (mirrored_provider_id, upstream_version) DO UPDATE] *)
Definition CreateMirroredProviderVersion (mpv : MirroredProviderVersion) : P (res unit) :=
  psql "failed to create mirrored provider version" (fun t =>
    if has (fun m => (mpv_ID m =? mpv_ID mpv)%nat) (mirrored_versions t) then (Err dup_key, t)
    else if
       negb (has (fun m => (mp_ID m =? mpv_MirroredProviderID mpv)%nat) (mirrored_providers t)) ||
       negb (has (fun v => (pv_ID v =? mpv_ProviderVersionID mpv)%nat) (provider_versions t))
    then (Err no_parent, t)
    else if has (same_tracking mpv) (mirrored_versions t)
    then (Ok tt, on_tracking (update_rows (same_tracking mpv) (set_tracking mpv)) t)
    else (Ok tt, on_tracking (fun rows => rows ++ [mpv]) t)).

Definition UpdateMirroredProviderVersionGPGStatus (id : uuid) (gpgVerified : bool)
  : P (res unit) :=
  pexec "failed to update mirrored provider version GPG status"
    (on_tracking (update_rows (fun m => (mpv_ID m =? id)%nat) (set_tracking_gpg gpgVerified))).

Definition GetMirroredProviderVersion (mirroredProviderID : uuid) (version : string)
  : P (res (option MirroredProviderVersion)) :=
  pquery "failed to get mirrored provider version" (fun t =>
    Ok (List.find (fun m => (mpv_MirroredProviderID m =? mirroredProviderID)%nat &&
                            String.eqb (mpv_UpstreamVersion m) version) (mirrored_versions t))).

Definition GetMirroredProviderVersionByVersionID (providerVersionID : uuid)
  : P (res (option MirroredProviderVersion)) :=
  pquery "failed to get mirrored provider version by version ID" (fun t =>
    Ok (List.find (fun m => (mpv_ProviderVersionID m =? providerVersionID)%nat)
          (mirrored_versions t))).

Definition tracking_key (m : MirroredProviderVersion) : list Z :=
  default [0; 0; 0] (semverOrder (mpv_UpstreamVersion m)).

(** One version string that is not numeric makes the whole query fail. *)
Definition ListMirroredProviderVersions (mirroredProviderID : uuid)
  : P (res (list MirroredProviderVersion)) :=
  pquery "failed to list mirrored provider versions" (fun t =>
    let rows := List.filter (fun m => (mpv_MirroredProviderID m =? mirroredProviderID)%nat)
                  (mirrored_versions t) in
    if List.forallb (fun m => bool_decide (is_Some (semverOrder (mpv_UpstreamVersion m)))) rows
    then Ok (go_sort (fun a b => 0 <? compare_parts (tracking_key a) (tracking_key b)) rows)
    else Err (ErrMsg "invalid input syntax for type integer")).

(** *** Pull-through configurations *)

Definition matchesJSONFilter (filter : option string) (value : string) : bool :=
  match filter with
  | None => true
  | Some f =>
      if String.eqb f "" then true
      else if negb (contains f value) then false
      else match unmarshal_strings f with
           | Err _ => true
           | Ok values => has (String.eqb value) values
           end
  end.

Definition nonblank (o : option string) : bool :=
  match o with Some s => negb (String.eqb s "") | None => false end.

Definition specificity (cfg : MirrorConfiguration) : Z :=
  (if nonblank (mc_ProviderFilter cfg) then 2 else 0) +
  (if nonblank (mc_NamespaceFilter cfg) then 1 else 0).

(** The inner loop: [matched[i]] moves left past the strictly less specific ones
    of the prefix, which is held last element first. *)
Fixpoint sink (x : MirrorConfiguration) (prefix : list MirrorConfiguration)
  : list MirrorConfiguration :=
  match prefix with
  | y :: prefix' =>
      if specificity y <? specificity x then y :: sink x prefix' else x :: prefix
  | [] => [x]
  end.

Definition most_specific_first (matched : list MirrorConfiguration) : list MirrorConfiguration :=
  rev (fold_left (fun prefix x => sink x prefix) matched []).

(** Rows are listed in creation order, which is the order of the table. *)
Definition GetPullThroughConfigsForProvider (orgID : uuid) (namespace providerType : string)
  : P (res (list MirrorConfiguration)) :=
  pquery "failed to query pull-through configs" (fun t =>
    let all := List.filter (fun c => bool_decide (mc_OrganizationID c = Some orgID) &&
                                     mc_Enabled c && mc_PullThroughEnabled c)
                 (mirror_configurations t) in
    Ok (most_specific_first
          (List.filter (fun c => matchesJSONFilter (mc_NamespaceFilter c) namespace &&
                                 matchesJSONFilter (mc_ProviderFilter c) providerType) all))).
End MirrorRepository.
End MirrorRepository.

(** ** [internal/db/repositories/provider_repository.go] *)

Module ProviderRepository.
Section ProviderRepository.
Context {Y : Type} `{GoSort} {map_order : forall A, list A -> list A}.
#[local] Abbreviation P := (prog (env (pm Y))).

(** *** Providers *)

(** [UNIQUE (organization_id, namespace, type)]: rows without an organization never
    conflict. *)
Definition same_provider (a b : Provider) : bool :=
  match pr_OrganizationID a, pr_OrganizationID b with
  | Some x, Some y => (x =? y)%nat
  | _, _ => false
  end && String.eqb (pr_Namespace a) (pr_Namespace b) && String.eqb (pr_Type a) (pr_Type b).

Definition with_provider_id (id : uuid) (p : Provider) : Provider := {|
  pr_ID := id; pr_OrganizationID := pr_OrganizationID p; pr_Namespace := pr_Namespace p;
  pr_Type := pr_Type p; pr_Description := pr_Description p; pr_Source := pr_Source p |}.

(** The identifier the database returns is written into [provider]. *)
Definition CreateProvider (provider : Provider) : P (res Provider) :=
  let? id := pinsert "failed to create provider"
    (fun t => if has (same_provider provider) (providers t) then Some dup_key else None)
    (fun id => on_providers (fun rows => rows ++ [with_provider_id id provider])) in
  ret (Ok (with_provider_id id provider)).

Definition GetProviderByID (id : uuid) : P (res (option Provider)) :=
  pquery "failed to get provider by ID" (fun t =>
    Ok (List.find (fun p => (pr_ID p =? id)%nat) (providers t))).

Definition named (namespace providerType : string) (p : Provider) : bool :=
  String.eqb (pr_Namespace p) namespace && String.eqb (pr_Type p) providerType.

Definition in_org (orgID : uuid) (p : Provider) : bool :=
  bool_decide (pr_OrganizationID p = Some orgID).

(** [WHERE org = $1 OR org IS NULL ORDER BY org = $1 first, created_at DESC LIMIT 1] *)
Definition GetProvider (orgID : uuid) (namespace providerType : string)
  : P (res (option Provider)) :=
  pquery "failed to get provider" (fun t =>
    let rows := rev (List.filter (named namespace providerType) (providers t)) in
    Ok (match List.find (in_org orgID) rows with
        | Some p => Some p
        | None => List.find (fun p => bool_decide (pr_OrganizationID p = None)) rows
        end)).

(** Without an organization any row of that name may be returned ([LIMIT 1] without
    an order); here it is the oldest. *)
Definition GetProviderByNamespaceType (orgID : option uuid) (namespace providerType : string)
  : P (res (option Provider)) :=
  pquery "failed to get provider" (fun t =>
    Ok (List.find (fun p => match orgID with Some o => in_org o p | None => true end &&
                            named namespace providerType p) (providers t))).

Definition UpdateProvider (provider : Provider) : P (res unit) :=
  pexec_found "failed to update provider" "provider"
    (fun t => has (fun p => (pr_ID p =? pr_ID provider)%nat) (providers t))
    (on_providers (update_rows (fun p => (pr_ID p =? pr_ID provider)%nat) (fun p => {|
       pr_ID := pr_ID p; pr_OrganizationID := pr_OrganizationID p;
       pr_Namespace := pr_Namespace p; pr_Type := pr_Type p;
       pr_Description := pr_Description provider; pr_Source := pr_Source provider |}))).

Definition DeleteProvider (providerID : uuid) : P (res unit) :=
  pexec_found "failed to delete provider" "provider"
    (fun t => has (fun p => (pr_ID p =? providerID)%nat) (providers t)) (fun t =>
    let gone := mp_ID <$> List.filter (fun m => (mp_ProviderID m =? providerID)%nat)
                            (mirrored_providers t) in
    on_providers (List.filter (fun p => negb (pr_ID p =? providerID)%nat))
      (on_mirrored (List.filter (fun m => negb (mp_ProviderID m =? providerID)%nat))
        (drop_versions (fun v => (pv_ProviderID v =? providerID)%nat)
          (drop_tracking (fun m => has (Nat.eqb (mpv_MirroredProviderID m)) gone) t)))).

(** *** Versions *)

Definition with_version_id (id : uuid) (v : ProviderVersionRow) : ProviderVersionRow := {|
  pv_ID := id; pv_ProviderID := pv_ProviderID v; pv_Version := pv_Version v;
  pv_Protocols := pv_Protocols v; pv_GPGPublicKey := pv_GPGPublicKey v;
  pv_ShasumURL := pv_ShasumURL v; pv_ShasumSignatureURL := pv_ShasumSignatureURL v;
  pv_ShasumStorageKey := pv_ShasumStorageKey v;
  pv_ShasumSignatureStorageKey := pv_ShasumSignatureStorageKey v;
  pv_Deprecated := false |}.

Definition same_pversion (a b : ProviderVersionRow) : bool :=
  (pv_ProviderID a =? pv_ProviderID b)%nat && String.eqb (pv_Version a) (pv_Version b).

Definition version_valid (v : ProviderVersionRow) (t : pdb) : option gerror :=
  if has (same_pversion v) (provider_versions t) then Some dup_key
  else if has (fun p => (pr_ID p =? pv_ProviderID v)%nat) (providers t) then None
  else Some no_parent.

Definition CreateVersion (version : ProviderVersionRow) : P (res uuid) :=
  pinsert "failed to create provider version" (version_valid version)
    (fun id => on_pversions (fun rows => rows ++ [with_version_id id version])).

Definition GetVersion (providerID : uuid) (version : string)
  : P (res (option ProviderVersionRow)) :=
  pquery "failed to get provider version" (fun t =>
    Ok (List.find (fun v => (pv_ProviderID v =? providerID)%nat && String.eqb (pv_Version v) version)
          (provider_versions t))).

(** [None]: no tracking row, or one whose status is NULL. *)
Definition GetVersionApprovalStatus (providerVersionID : uuid) : P (res (option string)) :=
  pquery "failed to get version approval status" (fun t =>
    Ok (match List.find (fun m => (mpv_ProviderVersionID m =? providerVersionID)%nat)
                (mirrored_versions t) with
        | Some m => mpv_ApprovalStatus m
        | None => None
        end)).

Definition gates (v : ProviderVersionRow) (m : MirroredProviderVersion) : bool :=
  (mpv_ProviderVersionID m =? pv_ID v)%nat &&
  match mpv_ApprovalStatus m with
  | Some s => String.eqb s VersionApprovalStatusPending || String.eqb s VersionApprovalStatusRejected
  | None => false
  end.

(** [approvalExclusionClause] *)
Definition not_gated (t : pdb) (v : ProviderVersionRow) : bool :=
  negb (has (gates v) (mirrored_versions t)).

Definition compareSemver (a b : string) : Z :=
  compare_parts (Mirror.parseSemverParts a) (Mirror.parseSemverParts b).

Definition listVersions (providerID : uuid) (onlyVisible : bool)
  : P (res (list ProviderVersionRow)) :=
  pquery "failed to list provider versions" (fun t =>
    Ok (go_sort (fun a b => 0 <? compareSemver (pv_Version a) (pv_Version b))
          (List.filter (fun v => (pv_ProviderID v =? providerID)%nat &&
                                 (negb onlyVisible || not_gated t v)) (provider_versions t)))).

Definition ListVersions (providerID : uuid) := listVersions providerID false.
Definition ListVisibleVersions (providerID : uuid) := listVersions providerID true.

(** Newest first; the count and the page are two statements. *)
Definition ListVersionsPaginated (providerID : uuid) (limit offset : nat)
  : P (res (list ProviderVersionRow * nat)) :=
  let shown t := List.filter (fun v => (pv_ProviderID v =? providerID)%nat && not_gated t v)
                   (provider_versions t) in
  let? total := pquery "failed to count provider versions" (fun t => Ok (length (shown t))) in
  let? versions := pquery "failed to list provider versions" (fun t =>
                     Ok (take limit (drop offset (rev (shown t))))) in
  ret (Ok (versions, total)).

Definition version_exists (versionID : uuid) (t : pdb) : bool :=
  has (fun v => (pv_ID v =? versionID)%nat) (provider_versions t).

Definition DeleteVersion (versionID : uuid) : P (res unit) :=
  pexec_found "failed to delete provider version" "provider version" (version_exists versionID)
    (drop_versions (fun v => (pv_ID v =? versionID)%nat)).

Definition DeprecateVersion (versionID : uuid) : P (res unit) :=
  pexec_found "failed to deprecate provider version" "provider version" (version_exists versionID)
    (on_pversions (update_rows (fun v => (pv_ID v =? versionID)%nat) (set_version_deprecated true))).

Definition UndeprecateVersion (versionID : uuid) : P (res unit) :=
  pexec_found "failed to undeprecate provider version" "provider version"
    (version_exists versionID)
    (on_pversions (update_rows (fun v => (pv_ID v =? versionID)%nat) (set_version_deprecated false))).

Definition UpdateVersionSignatureStorage (versionID : uuid) (sumsKey sigKey : option string)
  : P (res unit) :=
  pexec "failed to update provider version signature storage"
    (on_pversions (update_rows (fun v => (pv_ID v =? versionID)%nat)
       (set_signature_storage sumsKey sigKey))).

Definition UpdateVersionGPGKey (versionID : uuid) (gpgKey : string) : P (res unit) :=
  pexec "failed to update provider version GPG key"
    (on_pversions (update_rows (fun v => (pv_ID v =? versionID)%nat) (set_gpg_key gpgKey))).

(** *** Platforms *)

Definition same_pplatform (a b : ProviderPlatformRow) : bool :=
  (pp_ProviderVersionID a =? pp_ProviderVersionID b)%nat && String.eqb (pp_OS a) (pp_OS b) &&
  String.eqb (pp_Arch a) (pp_Arch b).

Definition with_platform_id (id : uuid) (p : ProviderPlatformRow) : ProviderPlatformRow := {|
  pp_ID := id; pp_ProviderVersionID := pp_ProviderVersionID p; pp_OS := pp_OS p;
  pp_Arch := pp_Arch p; pp_Filename := pp_Filename p; pp_StoragePath := pp_StoragePath p;
  pp_StorageBackend := pp_StorageBackend p; pp_SizeBytes := pp_SizeBytes p;
  pp_Shasum := pp_Shasum p; pp_H1Hash := pp_H1Hash p; pp_DownloadCount := 0 |}.

Definition platform_valid (p : ProviderPlatformRow) (t : pdb) : option gerror :=
  if has (same_pplatform p) (provider_platforms t) then Some dup_key
  else if version_exists (pp_ProviderVersionID p) t then None else Some no_parent.

Definition CreatePlatform (platform : ProviderPlatformRow) : P (res uuid) :=
  pinsert "failed to create provider platform" (platform_valid platform)
    (fun id => on_pplatforms (fun rows => rows ++ [with_platform_id id platform])).

Definition GetPlatform (versionID : uuid) (os arch : string)
  : P (res (option ProviderPlatformRow)) :=
  pquery "failed to get provider platform" (fun t =>
    Ok (List.find (fun p => (pp_ProviderVersionID p =? versionID)%nat && String.eqb (pp_OS p) os &&
                            String.eqb (pp_Arch p) arch) (provider_platforms t))).

(** [ORDER BY os, arch], in byte order. *)
Definition before_platform (a b : ProviderPlatformRow) : bool :=
  String.ltb (pp_OS a) (pp_OS b) ||
  (String.eqb (pp_OS a) (pp_OS b) && String.ltb (pp_Arch a) (pp_Arch b)).

Definition ListPlatforms (versionID : uuid) : P (res (list ProviderPlatformRow)) :=
  pquery "failed to list provider platforms" (fun t =>
    Ok (go_sort before_platform
          (List.filter (fun p => (pp_ProviderVersionID p =? versionID)%nat)
             (provider_platforms t)))).

Definition IncrementDownloadCount (platformID : uuid) : P (res unit) :=
  pexec "failed to increment download count"
    (on_pplatforms (update_rows (fun p => (pp_ID p =? platformID)%nat) incr_platform_downloads)).

Definition GetTotalDownloadCount (providerID : uuid) : P (res Z) :=
  pquery "failed to get total download count" (fun t =>
    let mine p := has (fun v => (pv_ID v =? pp_ProviderVersionID p)%nat &&
                                (pv_ProviderID v =? providerID)%nat) (provider_versions t) in
    Ok (foldr (fun p n => pp_DownloadCount p + n) 0 (List.filter mine (provider_platforms t)))).

Definition DeletePlatform (platformID : uuid) : P (res unit) :=
  pexec_found "failed to delete provider platform" "provider platform"
    (fun t => has (fun p => (pp_ID p =? platformID)%nat) (provider_platforms t))
    (on_pplatforms (List.filter (fun p => negb (pp_ID p =? platformID)%nat))).

(** *** Checksums *)

Definition is_shasum (versionID : uuid) (filename : string) (s : ProviderVersionShasum) : bool :=
  (ps_ProviderVersionID s =? versionID)%nat && String.eqb (ps_Filename s) filename.

(** [INSERT ... ON CONFLICT (provider_version_id, filename) DO UPDATE SET sha256_hex] *)
Definition upsert_shasum (versionID : uuid) (filename hash : string) : P (res unit) :=
  psql "failed to upsert shasum" (fun t =>
    let row := {| ps_ProviderVersionID := versionID; ps_Filename := filename; ps_SHA256Hex := hash |} in
    if negb (version_exists versionID t) then (Err no_parent, t)
    else if has (is_shasum versionID filename) (provider_version_shasums t)
    then (Ok tt, on_shasums (update_rows (is_shasum versionID filename) (fun _ => row)) t)
    else (Ok tt, on_shasums (fun rows => rows ++ [row]) t)).

Fixpoint upsert_shasums (versionID : uuid) (entries : list (string * string)) : P (res unit) :=
  match entries with
  | [] => ret (Ok tt)
  | (filename, hash) :: es =>
      let? _u := upsert_shasum versionID filename hash in upsert_shasums versionID es
  end.

(** The map is ranged over in Go's order, [map_order]. *)
Definition UpsertProviderVersionShasums (versionID : uuid) (shasums : gmap string string)
  : P (res unit) :=
  if bool_decide (shasums = ∅) then ret (Ok tt)
  else ptx (let? _u := pquery "failed to prepare upsert statement" (fun _ => Ok tt) in
            upsert_shasums versionID (map_order _ (map_to_list shasums))).

Definition ListProviderVersionShasums (versionID : uuid) : P (res (list ProviderVersionShasum)) :=
  pquery "failed to list provider version shasums" (fun t =>
    Ok (go_sort (fun a b => String.ltb (ps_Filename a) (ps_Filename b))
          (List.filter (fun s => (ps_ProviderVersionID s =? versionID)%nat)
             (provider_version_shasums t)))).

(** *** Pull-through *)

Definition UpsertProvider (orgID : uuid) (namespace providerType : string) : P (res Provider) :=
  let? existing := GetProvider orgID namespace providerType in
  match existing with
  | Some p => ret (Ok p)
  | None => CreateProvider {| pr_ID := 0%nat; pr_OrganizationID := Some orgID;
              pr_Namespace := namespace; pr_Type := providerType;
              pr_Description := Some "Pull-through cached provider"; pr_Source := None |}
  end.

Definition UpsertVersion (providerID : uuid) (version : string) (protocols : list string)
  (shasumURL shasumSigURL gpgKey : string) : P (res ProviderVersionRow) :=
  let? existing := GetVersion providerID version in
  match existing with
  | Some v => ret (Ok v)
  | None =>
      let v := {| pv_ID := 0%nat; pv_ProviderID := providerID; pv_Version := version;
                  pv_Protocols := protocols; pv_GPGPublicKey := gpgKey;
                  pv_ShasumURL := shasumURL; pv_ShasumSignatureURL := shasumSigURL;
                  pv_ShasumStorageKey := None; pv_ShasumSignatureStorageKey := None;
                  pv_Deprecated := false |} in
      let? id := CreateVersion v in ret (Ok (with_version_id id v))
  end.
End ProviderRepository.
End ProviderRepository.

(** ** [internal/db/repositories/provider_docs_repository.go] *)

Module ProviderDocsRepository.
Section ProviderDocsRepository.
Context {Y : Type}.
#[local] Abbreviation P := (prog (env (pm Y))).

Definition batchSize : nat := 500.

Definition same_doc (a b : ProviderVersionDoc) : bool :=
  (pd_ProviderVersionID a =? pd_ProviderVersionID b)%nat &&
  String.eqb (pd_UpstreamDocID a) (pd_UpstreamDocID b).

Definition of_version (versionID : uuid) (d : ProviderVersionDoc) : ProviderVersionDoc := {|
  pd_ProviderVersionID := versionID; pd_UpstreamDocID := pd_UpstreamDocID d;
  pd_Title := pd_Title d; pd_Slug := pd_Slug d; pd_Category := pd_Category d;
  pd_Subcategory := pd_Subcategory d; pd_Path := pd_Path d; pd_Language := pd_Language d |}.

(** [ON CONFLICT DO NOTHING] *)
Definition insert_doc (rows : list ProviderVersionDoc) (d : ProviderVersionDoc)
  : list ProviderVersionDoc :=
  if has (same_doc d) rows then rows else rows ++ [d].

Definition insert_batch (versionID : uuid) (batch : list ProviderVersionDoc) : P (res unit) :=
  psql "failed to bulk insert provider version docs" (fun t =>
    if negb (ProviderRepository.version_exists versionID t) then (Err no_parent, t)
    else (Ok tt, on_docs (fun rows => fold_left insert_doc (of_version versionID <$> batch) rows) t)).

(** [for i := 0; i < len(docs); i += batchSize]; every batch is a statement of its
    own, and [length docs] batches are enough. *)
Fixpoint batches (fuel : nat) (versionID : uuid) (docs : list ProviderVersionDoc)
  : P (res unit) :=
  match fuel, docs with
  | _, [] | O, _ => ret (Ok tt)
  | S fuel', _ =>
      let? _u := insert_batch versionID (take batchSize docs) in
      batches fuel' versionID (drop batchSize docs)
  end.

Definition BulkCreateProviderVersionDocs (versionID : uuid) (docs : list ProviderVersionDoc)
  : P (res unit) := batches (length docs) versionID docs.

Definition CountProviderVersionDocs (versionID : uuid) : P (res nat) :=
  pquery "failed to count provider version docs" (fun t =>
    Ok (length (List.filter (fun d => (pd_ProviderVersionID d =? versionID)%nat)
                  (provider_version_docs t)))).

Definition GetProviderVersionDocBySlug (versionID : uuid) (category slug : string)
  : P (res (option ProviderVersionDoc)) :=
  pquery "failed to get provider version doc by slug" (fun t =>
    Ok (List.find (fun d => (pd_ProviderVersionID d =? versionID)%nat &&
                            String.eqb (pd_Category d) category && String.eqb (pd_Slug d) slug)
          (provider_version_docs t))).

Definition DeleteProviderVersionDocs (versionID : uuid) : P (res unit) :=
  pexec "failed to delete provider version docs"
    (on_docs (List.filter (fun d => negb (pd_ProviderVersionID d =? versionID)%nat))).
End ProviderDocsRepository.
End ProviderDocsRepository.
