(* ===== verification/Upstream.v ===== *)
(** * The upstream registry client

    [internal/mirror/client_interface.go] and the wire types of
    [internal/mirror/upstream.go].  A client is its base URL; fields no caller
    reads are left out. *)

From S2P Require Import Prelude GoStrings.

#[local] Open Scope Z_scope.

Record upstream_platform := { up_OS : string; up_Arch : string }.

Record ProviderVersion := {
  uv_Version : string;
  uv_Protocols : list string;
  uv_Platforms : list upstream_platform;
}.

Record ProviderPackageResponse := {
  pkg_Filename : string;
  pkg_DownloadURL : string;
  pkg_SHASumsURL : string;
  pkg_SHASumsSignatureURL : string;
  pkg_SHA256Sum : string;
  (** [SigningKeys.GPGPublicKeys[i].ASCIIArmor] *)
  pkg_GPGPublicKeys : list string;
}.

Record ProviderDocEntry := {
  de_ID : string;
  de_Title : string;
  de_Slug : string;
  de_Category : string;
  de_Subcategory : option string;
  de_Path : string;
  de_Language : string;
}.

(** [UpstreamRegistryClient]; the base URL comes first. *)
Class UpstreamRegistryClient (Y : Type) := {
  DiscoverServices : string -> prog Y (res string);
  ListProviderVersions : string -> string -> string -> prog Y (res (list ProviderVersion));
  GetProviderPackage :
    string -> string -> string -> string -> string -> string ->
    prog Y (res ProviderPackageResponse);
  DownloadFile : string -> string -> prog Y (res string);
  (** the response, then what reading its body to the end gives *)
  DownloadFileStream : string -> string -> prog Y (res (res string));
  GetProviderDocIndexByVersion :
    string -> string -> string -> string -> prog Y (res (list ProviderDocEntry));
}.
