(* ===== verification/UpstreamHttp.v ===== *)
(** * The HTTP client of an upstream registry

    [internal/mirror/upstream.go]: service discovery, version listings, package
    descriptors, downloads and the documentation index, as programs over [Http].
    What [encoding/json] and [net/url] make of a text are interfaces; cancellation
    and the back-off pauses between download attempts are left out. *)

From S2P Require Import Prelude GoStrings SemVer TfReleases Upstream.

#[local] Open Scope Z_scope.

(** An entry of the v2 provider-docs list. *)
Record providerDocEntryV2 := {
  v2_ID : string;
  v2_Category : string;
  v2_Language : string;
  v2_Path : string;
  v2_Slug : string;
  v2_Subcategory : string;
  v2_Title : string;
}.

(** [encoding/json] on the documents of the registry. *)
Class UpstreamCodec := {
  (** [providers.v1] of the discovery document *)
  decode_discovery : string -> res string;
  decode_versions : string -> res (list ProviderVersion);
  decode_package : string -> res ProviderPackageResponse;
  (** [data.id] *)
  decode_v2_provider : string -> res string;
  (** [id] and [attributes.version] of every entry *)
  decode_v2_versions : string -> res (list (string * string));
  decode_v2_docs : string -> res (list providerDocEntryV2);
  (** [data.attributes.content] *)
  decode_v2_content : string -> res string;
}.

(** [net/url]: [url.Parse(base).ResolveReference(url.Parse(ref)).String()] for
    references that parse (the code discards the parse error and would
    dereference nil), [PathEscape] and [QueryEscape]. *)
Class UrlText := {
  resolve_reference : string -> string -> string;
  path_escape : string -> string;
  query_escape : string -> string;
}.

Section Client.
Context {Y : Type} `{Http Y} `{UpstreamCodec} `{UrlText}.

Definition maxUpstreamResponseBytes : Z := Z.shiftl 10 20.
Definition maxDownloadFileBytes : Z := Z.shiftl 10 20.

(** A client is its base URL, without trailing slashes. *)
Definition NewUpstreamRegistryWithGuard (baseURL : string) : string := trim_slashes baseURL.

(** A metadata request: the status must be 200, and of the body the first 10 MB are
    decoded.  The decoder stops at the end of the document; here a body that breaks
    off after it counts as broken.  The three texts are those of the errors of the
    request, the status (its excerpt of the body is left out) and the document. *)
Definition fetch_json {A} (failed refused garbled : string) (decode : string -> res A) (u : string)
  : prog Y (res A) :=
  let! resp := http_get u in
  match resp with
  | Err e => ret (Err (ErrWrap failed e))
  | Ok (status, body) =>
      if negb (status =? 200) then ret (Err (ErrMsg (refused +:+ " failed with status " +:+ show status)))
      else match read_limited maxUpstreamResponseBytes body with
           | Err e => ret (Err (ErrWrap garbled e))
           | Ok text => match decode text with
                        | Err e => ret (Err (ErrWrap garbled e))
                        | Ok a => ret (Ok a)
                        end
           end
  end.

Definition DiscoverServices (BaseURL : string) : prog Y (res string) :=
  fetch_json "failed to perform discovery request" "discovery request"
    "failed to decode discovery response" decode_discovery (BaseURL +:+ "/.well-known/terraform.json").

Definition providers_base (BaseURL ProvidersV1 : string) : string :=
  trim_suffix (resolve_reference BaseURL ProvidersV1) "/".

Definition versions_url (base namespace providerName : string) : string :=
  base +:+ "/" +:+ namespace +:+ "/" +:+ providerName +:+ "/versions".

(** A provider the upstream does not know has no versions. *)
Definition ListProviderVersions (BaseURL namespace providerName : string)
  : prog Y (res (list ProviderVersion)) :=
  let! disc := DiscoverServices BaseURL in
  match disc with
  | Err e => ret (Err (ErrWrap "service discovery failed" e))
  | Ok ProvidersV1 =>
      let! resp := http_get (versions_url (providers_base BaseURL ProvidersV1) namespace
                               providerName) in
      match resp with
      | Err e => ret (Err (ErrWrap "failed to fetch provider versions" e))
      | Ok (status, body) =>
          if status =? 404 then ret (Ok [])
          else if negb (status =? 200) then ret (Err (ErrMsg ("versions request failed with status " +:+ show status)))
          else match read_limited maxUpstreamResponseBytes body with
               | Err e => ret (Err (ErrWrap "failed to read response body" e))
               | Ok text => match decode_versions text with
                            | Err e => ret (Err (ErrWrap "failed to decode versions response" e))
                            | Ok vs => ret (Ok vs)
                            end
               end
      end
  end.

Definition package_url (base namespace providerName version os arch : string) : string :=
  base +:+ "/" +:+ namespace +:+ "/" +:+ providerName +:+ "/" +:+ version +:+ "/download/" +:+
  os +:+ "/" +:+ arch.

Definition GetProviderPackage (BaseURL namespace providerName version os arch : string)
  : prog Y (res ProviderPackageResponse) :=
  let! disc := DiscoverServices BaseURL in
  match disc with
  | Err e => ret (Err (ErrWrap "service discovery failed" e))
  | Ok ProvidersV1 =>
      fetch_json "failed to fetch provider package info" "package request"
        "failed to decode package response" decode_package
        (package_url (providers_base BaseURL ProvidersV1) namespace providerName version os arch)
  end.

(** ** Downloads *)

Definition downloadFileOnce (fileURL : string) : prog Y (res string) :=
  let! resp := http_download fileURL in
  match resp with
  | Err e => ret (Err (ErrWrap "failed to download file" e))
  | Ok (status, body) =>
      if negb (status =? 200) then ret (Err (ErrMsg ("download failed with status " +:+ show status)))
      else match read_limited maxDownloadFileBytes body with
           | Err e => ret (Err (ErrWrap "failed to read download content" e))
           | Ok data => ret (Ok data)
           end
  end.

Definition maxRetries : nat := 3.

Fixpoint download_attempts (attempts : nat) (fileURL : string) (lastErr : gerror)
  : prog Y (res string) :=
  match attempts with
  | O => ret (Err (ErrWrap "download failed after 3 attempts" lastErr))
  | S attempts' =>
      let! r := downloadFileOnce fileURL in
      match r with
      | Ok data => ret (Ok data)
      | Err e => download_attempts attempts' fileURL e
      end
  end.

Definition DownloadFile (fileURL : string) : prog Y (res string) :=
  download_attempts maxRetries fileURL (ErrMsg "<nil>").

(** One attempt; the body is read by the caller. *)
Definition DownloadFileStream (fileURL : string) : prog Y (res (res string)) :=
  let! resp := http_download fileURL in
  match resp with
  | Err e => ret (Err (ErrWrap "failed to start download" e))
  | Ok (status, body) =>
      if negb (status =? 200) then ret (Err (ErrMsg ("download failed with status " +:+ show status)))
      else ret (Ok body)
  end.

(** ** The documentation index

    Both listings are asked page by page until one is not full; [None] says that
    the fuel, a number of pages, ran out. *)

Definition pageSize : nat := 100.

Definition v2_versions_url (base providerID : string) (page : Z) : string :=
  base +:+ "/v2/providers/" +:+ providerID +:+ "/provider-versions?page[size]=100&page[number]=" +:+
  show page.

Fixpoint find_version (fuel : nat) (base providerID semver : string) (missing : gerror) (page : Z)
  : prog Y (option (res string)) :=
  match fuel with
  | O => ret None
  | S fuel' =>
      let! r := fetch_json ("failed to fetch v2 provider-versions (page " +:+ show page +:+ ")")
                  "v2 provider-versions request"
                  ("failed to decode v2 provider-versions response (page " +:+ show page +:+ ")")
                  decode_v2_versions (v2_versions_url base providerID page) in
      match r with
      | Err e => ret (Some (Err e))
      | Ok entries =>
          match List.find (fun e => String.eqb (snd e) semver) entries with
          | Some e => ret (Some (Ok (fst e)))
          | None =>
              if (length entries <? pageSize)%nat
              then ret (Some (Err missing))
              else find_version fuel' base providerID semver missing (page + 1)
          end
      end
  end.

Definition v2_provider_url (base namespace providerName : string) : string :=
  base +:+ "/v2/providers/" +:+ path_escape namespace +:+ "/" +:+ path_escape providerName.

Definition resolveProviderVersionID (fuel : nat) (BaseURL namespace providerName semver : string)
  : prog Y (option (res string)) :=
  let base := trim_suffix BaseURL "/" in
  let! r := fetch_json "failed to fetch v2 provider" "v2 provider lookup"
              "failed to decode v2 provider response" decode_v2_provider
              (v2_provider_url base namespace providerName) in
  match r with
  | Err e => ret (Some (Err e))
  | Ok ID =>
      if String.eqb ID "" then ret (Some (Err (ErrMsg ("v2 provider lookup returned empty ID for " +:+
                 namespace +:+ "/" +:+ providerName))))
      else find_version fuel base ID semver
             (ErrMsg ("provider version " +:+ namespace +:+ "/" +:+ providerName +:+ "@" +:+ semver +:+
                " not found in upstream v2 versions API")) 1
  end.

Definition doc_entry (e : providerDocEntryV2) : ProviderDocEntry := {|
  de_ID := v2_ID e; de_Title := v2_Title e; de_Slug := v2_Slug e; de_Category := v2_Category e;
  de_Subcategory := if String.eqb (v2_Subcategory e) "" then None else Some (v2_Subcategory e);
  de_Path := v2_Path e; de_Language := v2_Language e |}.

Definition v2_docs_url (base versionID : string) (page : Z) : string :=
  base +:+ "/v2/provider-docs?filter[provider-version]=" +:+ query_escape versionID +:+
  "&filter[language]=hcl&page[size]=100&page[number]=" +:+ show page.

Fixpoint doc_pages (fuel : nat) (base versionID : string) (pageNum : Z)
  (all : list ProviderDocEntry) : prog Y (option (res (list ProviderDocEntry))) :=
  match fuel with
  | O => ret None
  | S fuel' =>
      let! r := fetch_json ("failed to fetch v2 provider doc index (page " +:+ show pageNum +:+ ")")
                  "v2 provider doc index request"
                  ("failed to decode v2 provider doc index response (page " +:+ show pageNum +:+ ")")
                  decode_v2_docs (v2_docs_url base versionID pageNum) in
      match r with
      | Err e => ret (Some (Err e))
      | Ok page =>
          let all' := all ++ (doc_entry <$> page) in
          if (length page <? pageSize)%nat then ret (Some (Ok all'))
          else doc_pages fuel' base versionID (pageNum + 1) all'
      end
  end.

Definition GetProviderDocIndexByVersion (fuel : nat) (BaseURL namespace providerName version : string)
  : prog Y (option (res (list ProviderDocEntry))) :=
  let! v := resolveProviderVersionID fuel BaseURL namespace providerName version in
  match v with
  | None => ret None
  | Some (Err e) => ret (Some (Err (ErrWrap ("could not resolve v2 version ID for " +:+ namespace +:+ "/" +:+
                             providerName +:+ "@" +:+ version) e)))
  | Some (Ok versionID) => doc_pages fuel (trim_suffix BaseURL "/") versionID 1 []
  end.

Definition GetProviderDocContent (BaseURL upstreamDocID : string) : prog Y (res string) :=
  fetch_json "failed to fetch provider doc content" "provider doc content request"
    "failed to decode v2 provider doc response" decode_v2_content
    (trim_suffix BaseURL "/" +:+ "/v2/provider-docs/" +:+ upstreamDocID).
End Client.

(** The client as the mirror run sees it.  [pages] bounds the listings followed, where
    the code goes on for as long as the upstream sends full pages. *)
Definition http_upstream {Y} `{Http Y} `{UpstreamCodec} `{UrlText} (pages : nat)
  : UpstreamRegistryClient Y := {|
  Upstream.DiscoverServices b := DiscoverServices (NewUpstreamRegistryWithGuard b);
  Upstream.ListProviderVersions b := ListProviderVersions (NewUpstreamRegistryWithGuard b);
  Upstream.GetProviderPackage b := GetProviderPackage (NewUpstreamRegistryWithGuard b);
  Upstream.DownloadFile _ := DownloadFile;
  Upstream.DownloadFileStream _ := DownloadFileStream;
  Upstream.GetProviderDocIndexByVersion b namespace providerName version :=
    let! r := GetProviderDocIndexByVersion pages (NewUpstreamRegistryWithGuard b) namespace
                providerName version in
    ret (default (Err (ErrMsg "no short page")) r) |}.

(** ** An upstream whose answers do not change *)

Section Static.
Context {Y : Type} `{Http Y} `{UpstreamCodec} `{UrlText}.
Context (answers : string -> res (Z * res string)).
Context (Hstatic : forall u y, http_get u y = (answers u, y)).

Definition answered {A} (decode : string -> res A) (u : string) (a : A) : Prop :=
  exists text, answers u = Ok (200, Ok text) /\
    Z.of_nat (String.length text) <= maxUpstreamResponseBytes /\ decode text = Ok a.

Lemma fetch_answered {A} failed refused garbled decode u (a : A) y :
  answered decode u a -> fetch_json failed refused garbled decode u y = (Ok a, y).
Proof.
  intros (text & Ha & Hl & Hd). unfold fetch_json, bind. rewrite Hstatic, Ha. cbn [fst snd].
  cbn [Z.eqb negb]. unfold read_limited. rewrite (proj2 (Z.leb_le _ _) Hl), Hd. done.
Qed.

(** The pages of a listing, asked for from page [from] on: all but the last full. *)
Definition listed_pages {A} (decode : string -> res (list A)) (url : Z -> string) (from : Z)
  (pages : list (list A)) : Prop :=
  forall i p, pages !! i = Some p -> answered decode (url (from + Z.of_nat i)) p.

Definition full_but_last {A} (pages : list (list A)) : Prop :=
  exists init lastp, pages = init ++ [lastp] /\
    Forall (fun p => (pageSize <= length p)%nat) init /\ (length lastp < pageSize)%nat.

Lemma listed_cons {A} decode url from (p : list A) pages :
  listed_pages decode url from (p :: pages) ->
  answered decode (url from) p /\ listed_pages decode url (from + 1) pages.
Proof.
  intros Hl. split.
  - specialize (Hl 0%nat p eq_refl). by rewrite Z.add_0_r in Hl.
  - intros i q Hq. specialize (Hl (S i) q Hq). by replace (from + 1 + Z.of_nat i) with (from + Z.of_nat (S i)) by lia.
Qed.

Lemma doc_pages_spec base vid pages fuel from all y :
  listed_pages decode_v2_docs (v2_docs_url base vid) from pages -> full_but_last pages ->
  (length pages <= fuel)%nat ->
  doc_pages fuel base vid from all y = (Some (Ok (all ++ (doc_entry <$> concat pages))), y).
Proof.
  intros Hl (init & lastp & -> & Hi & Hs). revert from all fuel Hl.
  induction Hi as [|p init Hp Hi IH]; intros from all fuel Hl Hf; cbn [app length] in *;
    (destruct fuel as [|fuel]; [lia|]); apply listed_cons in Hl as [Ha Hl]; cbn [doc_pages];
    unfold bind at 1; rewrite (fetch_answered _ _ _ _ _ _ _ Ha); cbn [fst snd].
  - rewrite (proj2 (Nat.ltb_lt _ _) Hs). cbn [concat]. by rewrite app_nil_r.
  - rewrite (proj2 (Nat.ltb_ge _ _) Hp). rewrite (IH _ _ fuel Hl) by lia.
    cbn [concat]. by rewrite fmap_app, app_assoc.
Qed.

Definition lacks (semver : string) (page : list (string * string)) : Prop :=
  forall e, In e page -> snd e <> semver.

Lemma find_lacks semver page :
  lacks semver page -> List.find (fun e => String.eqb (snd e) semver) page = None.
Proof.
  intros Hl. destruct (List.find _ page) as [e|] eqn:E; [|done].
  apply find_some in E as [Hin He]. bools. by destruct (Hl e).
Qed.

Lemma find_version_spec base pid semver missing pages page id fuel from y :
  listed_pages decode_v2_versions (v2_versions_url base pid) from (pages ++ [page]) ->
  Forall (fun p => (pageSize <= length p)%nat /\ lacks semver p) pages ->
  List.find (fun e => String.eqb (snd e) semver) page = Some (id, semver) ->
  (length pages < fuel)%nat ->
  find_version fuel base pid semver missing from y = (Some (Ok id), y).
Proof.
  intros Hl Hp Hfind. revert from fuel Hl.
  induction Hp as [|p pages [Hlen Hlack] Hp IH]; intros from fuel Hl Hf; cbn [app length] in *;
    (destruct fuel as [|fuel]; [lia|]); apply listed_cons in Hl as [Ha Hl]; cbn [find_version];
    unfold bind at 1; rewrite (fetch_answered _ _ _ _ _ _ _ Ha); cbn [fst snd].
  - by rewrite Hfind.
  - rewrite (find_lacks _ _ Hlack), (proj2 (Nat.ltb_ge _ _) Hlen). apply IH; [done | lia].
Qed.

(** C27: the documentation index is complete and ends.  When the upstream knows the
    provider, lists the version on some page after full pages without it, and sends
    the documents as full pages followed by a short one, the client returns exactly
    the documents of all pages, in order, after as many requests as there are
    pages: any fuel that reaches them gives this result. *)
Theorem doc_index_is_complete (BaseURL namespace providerName version pid vid : string)
  vpages vpage dpages fuel y :
  let base := trim_suffix BaseURL "/" in
  answered decode_v2_provider (v2_provider_url base namespace providerName) pid -> pid <> "" ->
  listed_pages decode_v2_versions (v2_versions_url base pid) 1 (vpages ++ [vpage]) ->
  Forall (fun p => (pageSize <= length p)%nat /\ lacks version p) vpages ->
  List.find (fun e => String.eqb (snd e) version) vpage = Some (vid, version) ->
  listed_pages decode_v2_docs (v2_docs_url base vid) 1 dpages -> full_but_last dpages ->
  (length vpages < fuel)%nat -> (length dpages <= fuel)%nat ->
  GetProviderDocIndexByVersion fuel BaseURL namespace providerName version y =
    (Some (Ok (doc_entry <$> concat dpages)), y).
Proof.
  intros base Hp Hpid Hv Hvp Hfind Hd Hfull Hf1 Hf2.
  unfold GetProviderDocIndexByVersion, resolveProviderVersionID. fold base.
  unfold bind at 1 2. rewrite (fetch_answered _ _ _ _ _ _ _ Hp). cbn [fst snd].
  rewrite (proj2 (String.eqb_neq _ _) Hpid). rewrite (find_version_spec _ _ _ _ _ _ _ _ _ _ Hv Hvp Hfind Hf1).
  cbn [fst snd]. by rewrite (doc_pages_spec _ _ _ _ _ _ _ Hd Hfull Hf2).
Qed.

Lemma doc_pages_endless base vid fuel from all y :
  (forall i, exists page, answered decode_v2_docs (v2_docs_url base vid i) page /\
                          (pageSize <= length page)%nat) ->
  fst (doc_pages fuel base vid from all y) = None.
Proof.
  intros Hfull. revert from all. induction fuel as [|fuel IH]; intros from all; [done|]. cbn [doc_pages].
  destruct (Hfull from) as (page & Ha & Hl). unfold bind at 1. rewrite (fetch_answered _ _ _ _ _ _ _ Ha).
  cbn [fst snd]. rewrite (proj2 (Nat.ltb_ge _ _) Hl). apply IH.
Qed.

(** nothing bounds the pages followed.  An upstream that answers every page of the
    documentation listing with a full page keeps the client asking: however many
    pages are allowed, the call has not returned, and all entries so far are kept in
    memory. *)
Theorem endless_listing_is_followed (BaseURL namespace providerName version vid : string) fuel y :
  let base := trim_suffix BaseURL "/" in
  fst (resolveProviderVersionID fuel BaseURL namespace providerName version y) = Some (Ok vid) ->
  (forall i, exists page, answered decode_v2_docs (v2_docs_url base vid i) page /\
                          (pageSize <= length page)%nat) ->
  fst (GetProviderDocIndexByVersion fuel BaseURL namespace providerName version y) = None.
Proof.
  intros base Hv Hfull. unfold GetProviderDocIndexByVersion, bind at 1. rewrite Hv.
  by apply doc_pages_endless.
Qed.
End Static.

(** ** Downloads *)

Section Downloads.
Context {Y : Type} `{Http Y}.

Lemma stake_all n s : (String.length s <= n)%nat -> stake n s = s.
Proof.
  revert s. induction n as [|n IH]; intros [|c s] Hl; cbn in *; try done; try lia.
  by rewrite IH by lia.
Qed.

Lemma read_limited_ok n body : read_limited n (Ok body) = Ok (stake (Z.to_nat n) body).
Proof. unfold read_limited. destruct (Z.leb_spec (Z.of_nat (String.length body)) n); [rewrite stake_all by lia|]; done. Qed.

(** The outside after [n] requests for [u]. *)
Fixpoint after_requests (n : nat) (u : string) (y : Y) : Y :=
  match n with O => y | S n' => after_requests n' u (snd (http_download u y)) end.

Lemma once_next u y : snd (downloadFileOnce u y) = snd (http_download u y).
Proof.
  unfold downloadFileOnce, bind. destruct (http_download u y) as [[[status body]|e] y']; cbn; [|done].
  destruct (negb _); [done|]. by destruct (read_limited _ _).
Qed.

Lemma once_answered u y d :
  fst (downloadFileOnce u y) = Ok d <->
  exists body, fst (http_download u y) = Ok (200, Ok body) /\
               d = stake (Z.to_nat maxDownloadFileBytes) body.
Proof.
  unfold downloadFileOnce, bind. generalize maxDownloadFileBytes as m. intros m.
  destruct (http_download u y) as [[[status [body|e]]|e] y']; cbn [fst snd].
  - destruct (Z.eqb_spec status 200) as [->|Hne]; cbn [negb].
    + rewrite read_limited_ok. split; [intros [= <-]; eauto | by intros (b & [= <-] & ->)].
    + split; [done|]. by intros (b & [= ? _] & _).
  - destruct (negb (status =? 200)); (split; [done|]); by intros (b & ? & _).
  - split; [done|]. by intros (b & ? & _).
Qed.

Lemma attempts_cases k u e y :
  let r := download_attempts k u e y in
  (exists n d, (n < k)%nat /\ fst r = Ok d /\
     fst (downloadFileOnce u (after_requests n u y)) = Ok d /\
     snd r = after_requests (S n) u y) \/
  (is_ok (fst r) = false /\ snd r = after_requests k u y /\
   forall n, (n < k)%nat -> is_ok (fst (downloadFileOnce u (after_requests n u y))) = false).
Proof.
  revert e y. induction k as [|k IH]; intros e y; cbn [download_attempts].
  { right. split; [done|]. split; [done|]. intros n Hn. lia. }
  unfold bind. pose proof (once_next u y) as Hn.
  destruct (downloadFileOnce u y) as [[d|e'] y'] eqn:E; cbn [fst snd] in *; subst y'.
  - left. exists 0%nat, d. split; [lia|]. split; [done|]. split; [by cbn; rewrite E | done].
  - destruct (IH e' (snd (http_download u y))) as [(n & d & Hlt & Hr & Ho & Hs)|(Hr & Hs & Hall)].
    + left. exists (S n), d. split; [lia|]. by split.
    + right. split; [done|]. split; [done|]. intros [|n] Hlt; [by cbn; rewrite E|].
      apply Hall. lia.
Qed.

(** a download makes at most three requests, and what it returns is bounded.
    [DownloadFile] succeeds exactly when one of three requests in a row is answered
    200 with a readable body; it then returns the first 10 MB of that body - a longer
    file is cut without an error - and otherwise fails after the third. *)
Theorem download_is_bounded (u : string) (y : Y) :
  let r := DownloadFile u y in
  (exists n body, (n < 3)%nat /\ fst (http_download u (after_requests n u y)) = Ok (200, Ok body) /\
     snd r = after_requests (S n) u y /\
     fst r = Ok (stake (Z.to_nat maxDownloadFileBytes) body)) \/
  (is_ok (fst r) = false /\ snd r = after_requests 3 u y /\
   forall n body, (n < 3)%nat ->
     fst (http_download u (after_requests n u y)) <> Ok (200, Ok body)).
Proof.
  intros r. destruct (attempts_cases maxRetries u (ErrMsg "<nil>") y) as
    [(n & d & Hlt & Hr & Ho & Hs)|(Hr & Hs & Hall)]; [left | right].
  - apply once_answered in Ho as (body & Hb & ->). by exists n, body.
  - split; [exact Hr|]. split; [exact Hs|]. intros n body Hn E. specialize (Hall n Hn).
    by rewrite (proj2 (once_answered _ _ _) (ex_intro _ body (conj E eq_refl))) in Hall.
Qed.
End Downloads.

(** ** An upstream with one provider *)

Module Demo.
Definition page1 : list providerDocEntryV2 :=
  replicate 100 (Build_providerDocEntryV2 "1" "resources" "hcl" "docs/r/a.md" "a" "" "A").
Definition page2 : list providerDocEntryV2 :=
  [Build_providerDocEntryV2 "2" "overview" "hcl" "docs/index.md" "index" "sub" "Index"].

#[local] Instance codec : UpstreamCodec := {|
  decode_discovery t := Ok t;
  decode_versions _ := Ok [];
  decode_package _ := Err (ErrMsg "no package");
  decode_v2_provider t := Ok t;
  decode_v2_versions t := Ok (if String.eqb t "full" then replicate 100 ("8", "0.9.0") else [("9", "1.0.0")]);
  decode_v2_docs t := Ok (if String.eqb t "page1" then page1 else page2);
  decode_v2_content t := Ok t |}.

#[local] Instance urls : UrlText := {|
  resolve_reference base r := base +:+ r; path_escape s := s; query_escape s := s |}.

Definition base : string := "https://up".

Definition answers (u : string) : res (Z * res string) :=
  let ok t := Ok (200, Ok t) in
  if String.eqb u (v2_provider_url base "hashicorp" "aws") then ok "7"
  else if String.eqb u (v2_versions_url base "7" 1) then ok "full"
  else if String.eqb u (v2_versions_url base "7" 2) then ok "short"
  else if String.eqb u (v2_docs_url base "9" 1) then ok "page1"
  else if String.eqb u (v2_docs_url base "9" 2) then ok "page2"
  else Ok (404, Ok "").

(** The outside is the number of files asked for so far; every third request for a
    file is answered. *)
#[local] Instance http : Http nat := {|
  http_get u y := (answers u, y);
  http_download u y := (if (y mod 3 =? 2)%nat then Ok (200, Ok "data") else Ok (503, Ok ""), S y) |}.

(** As above, with every page of the documentation full. *)
Definition endless (u : string) : res (Z * res string) :=
  if String.prefix (base +:+ "/v2/provider-docs") u then Ok (200, Ok "page1") else answers u.
Definition http_endless : Http nat := {|
  http_get u y := (endless u, y); http_download u y := (Err (ErrMsg "down"), y) |}.

Lemma v2_docs_prefix vid i : endless (v2_docs_url base vid i) = Ok (200, Ok "page1").
Proof. unfold endless, v2_docs_url. done. Qed.
End Demo.

Lemma listed_two {A} (answers : string -> res (Z * res string)) `{UpstreamCodec}
  (decode : string -> res (list A)) url p q :
  answered answers decode (url 1) p -> answered answers decode (url 2) q ->
  listed_pages answers decode url 1 [p; q].
Proof.
  intros Hp Hq [|[|i]] r Hr; [injection Hr as <-; exact Hp | injection Hr as <-; exact Hq |].
  by rewrite lookup_ge_None_2 in Hr by (cbn; lia).
Qed.

Theorem doc_index_is_complete_witness :
  GetProviderDocIndexByVersion (H := Demo.http) (H0 := Demo.codec) (H1 := Demo.urls) 3 Demo.base
    "hashicorp" "aws" "1.0.0" 0%nat =
  (Some (Ok (doc_entry <$> concat [Demo.page1; Demo.page2])), 0%nat).
Proof.
  apply (doc_index_is_complete (H := Demo.http) (H0 := Demo.codec) (H1 := Demo.urls) Demo.answers
           (fun u y => eq_refl) Demo.base "hashicorp" "aws" "1.0.0" "7" "9"
           [replicate 100 ("8", "0.9.0")] [("9", "1.0.0")] [Demo.page1; Demo.page2] 3%nat 0%nat).
  - exists "7". split; [reflexivity|]. split; [vm_compute; congruence | reflexivity].
  - congruence.
  - apply (@listed_two _ Demo.answers Demo.codec (@decode_v2_versions Demo.codec)).
    + exists "full". split; [reflexivity|]. split; [vm_compute; congruence | reflexivity].
    + exists "short". split; [reflexivity|]. split; [vm_compute; congruence | reflexivity].
  - constructor; [|constructor]. split; [vm_compute; lia|].
    intros e He. change (In e (repeat ("8", "0.9.0") 100)) in He.
    rewrite (repeat_spec _ _ _ He). cbn. congruence.
  - reflexivity.
  - apply (@listed_two _ Demo.answers Demo.codec (@decode_v2_docs Demo.codec)).
    + exists "page1". split; [reflexivity|]. split; [vm_compute; congruence | reflexivity].
    + exists "page2". split; [reflexivity|]. split; [vm_compute; congruence | reflexivity].
  - exists [Demo.page1], Demo.page2. split; [reflexivity|].
    split; [constructor; [vm_compute; lia | constructor] | vm_compute; lia].
  - vm_compute. lia.
  - vm_compute. lia.
Defined.

Theorem endless_listing_is_followed_witness :
  fst (GetProviderDocIndexByVersion (H := Demo.http_endless) (H0 := Demo.codec) (H1 := Demo.urls) 50%nat
         Demo.base "hashicorp" "aws" "1.0.0" 0%nat) = None.
Proof.
  apply (endless_listing_is_followed (H := Demo.http_endless) (H0 := Demo.codec) (H1 := Demo.urls)
           Demo.endless (fun u y => eq_refl) Demo.base "hashicorp" "aws" "1.0.0" "9").
  - vm_compute. reflexivity.
  - intros i. exists Demo.page1. split; [|vm_compute; lia].
    exists "page1". split; [apply Demo.v2_docs_prefix|]. split; [vm_compute; congruence | reflexivity].
Defined.

(** Two refusals and then the file. *)
Example third_attempt : DownloadFile (H := Demo.http) "https://up/f" 0%nat = (Ok "data", 3%nat).
Proof. vm_compute. reflexivity. Qed.
