(* ===== verification/ProvSync.v ===== *)
(** * The provider mirror's sync job

    [internal/jobs/mirror_sync.go]: one run for one configuration ([syncMirror],
    [performSync]) with everything it calls, as programs over the tables of
    [ProvRepo] and the outside.  Scheduling and mutual exclusion of the runs are
    [SyncSchedule].  The text of an error that quotes values ([%q], [%d]) is
    abridged. *)

From S2P Require Import Prelude GoStrings SemVer VersionFilter AutoApprove Validation.
From S2P Require Import LocalStorage TfReleases Checksums TfMirrorRepo TfMirrorSync ReleasesKeys.
From S2P Require Import VersionApproval ProvRepo Upstream.
From stdpp Require Import gmap.

#[local] Open Scope Z_scope.

(** The organization store of the identity module: the default organization. *)
Class Organizations (Y : Type) := GetDefaultOrganization : prog Y (res (option uuid)).

Record SyncedProvider := {
  sp_Namespace : string;
  sp_Name : string;
  sp_Versions : list string;
  sp_VersionsNew : Z;
}.

Record SyncDetails := {
  sd_Namespaces : list string;
  sd_ProvidersFound : Z;
  sd_ProvidersSynced : Z;
  sd_ProvidersFailed : Z;
  sd_Errors : list string;
  sd_SyncedProviders : list SyncedProvider;
}.

(** [json.Marshal] of the details. *)
Class SyncDetailsCodec := marshal_sync_details : SyncDetails -> string.

(** ** Signatures *)

Section Signatures.
Context `{OpenPGP}.

(** [VerifyProviderSignature]: [None] when some key verifies. *)
Fixpoint try_keys (shasums sig : string) (keys : list string) (lastErr : gerror) : option gerror :=
  match keys with
  | [] => Some (ErrMsg ("signature verification failed with all provided keys: " +:+ Error lastErr))
  | key :: keys' =>
      if String.eqb key "" then try_keys shasums sig keys' lastErr
      else match VerifySignature key shasums sig with
           | None => None
           | Some e => try_keys shasums sig keys' e
           end
  end.

Definition VerifyProviderSignature (shasumsContent signatureContent : string)
  (publicKeys : list string) : option gerror :=
  if String.eqb shasumsContent "" then Some (ErrMsg "SHASUM content is empty")
  else if String.eqb signatureContent "" then Some (ErrMsg "signature content is empty")
  else match publicKeys with
       | [] => Some (ErrMsg "no public keys provided")
       | _ => try_keys shasumsContent signatureContent publicKeys (ErrMsg "<nil>")
       end.

Definition verifyGPGSignature (shasumContent signatureContent : string) (publicKeys : list string)
  : bool :=
  match VerifyProviderSignature shasumContent signatureContent publicKeys with
  | None => true
  | Some _ => false
  end.
End Signatures.

Section Sync.
Context {Y : Type} `{GoSort} `{GoVersion} `{RulesCodec} `{StringsCodec} `{MapRange}.
Context `{UpstreamRegistryClient Y} `{Storage Y} `{TempFiles Y} `{Organizations Y}.
Context `{Sha256} `{Sha256Base64} `{ZipReader} `{OpenPGP} `{!OpenPGPEntities} `{ReleaseKeys}.
Context `{SyncDetailsCodec}.
(** [j.storageBackendName], whether [providerDocsRepo] and [approvalRepo] are set. *)
Context (storageBackendName : string) (docsRepo approvalRepo : bool).
#[local] Abbreviation P := (prog (env (pm Y))).

(** A call to the outside. *)
Definition out {A} (c : prog Y A) : P A :=
  state (fun s => let r := c (pext s) in (fst r, PM (ptab s) (snd r))).

#[local] Instance uv_version : HasVersion ProviderVersion := uv_Version.

(** ** Filters *)

Definition platform_key (p : upstream_platform) : string := up_OS p +:+ "/" +:+ up_Arch p.

Definition filterPlatforms (platforms : list upstream_platform) (filter : option string)
  : list upstream_platform :=
  match filter with
  | None => platforms
  | Some f =>
      if String.eqb f "" then platforms
      else match unmarshal_strings f with
           | Err _ | Ok [] => platforms
           | Ok allowedPlatforms =>
               let allowedSet : gset string :=
                 list_to_set ((fun p => to_lower (trim_space p)) <$> allowedPlatforms) in
               List.filter (fun p =>
                 bool_decide (to_lower (up_OS p) +:+ "/" +:+ to_lower (up_Arch p) ∈ allowedSet))
                 platforms
           end
  end.

(** ** One platform binary *)

Definition provider_path (namespace providerName version : string) (p : upstream_platform)
  (filename : string) : string :=
  "providers/" +:+ namespace +:+ "/" +:+ providerName +:+ "/" +:+ version +:+ "/" +:+ up_OS p +:+
  "/" +:+ up_Arch p +:+ "/" +:+ filename.

Definition expected_checksum (pkg : ProviderPackageResponse) (shasumMap : gmap string string)
  : string :=
  if String.eqb (pkg_SHA256Sum pkg) "" then default "" (shasumMap !! pkg_Filename pkg)
  else pkg_SHA256Sum pkg.

Definition platform_row (versionID : uuid) (p : upstream_platform) (filename path data : string)
  : ProviderPlatformRow := {|
  pp_ID := 0%nat; pp_ProviderVersionID := versionID; pp_OS := up_OS p; pp_Arch := up_Arch p;
  pp_Filename := filename; pp_StoragePath := path; pp_StorageBackend := storageBackendName;
  pp_SizeBytes := Z.of_nat (String.length data); pp_Shasum := sha256_hex data;
  pp_H1Hash := match HashZipFile data (Z.of_nat (String.length data)) with
               | Ok h1 => Some h1
               | Err _ => None
               end;
  pp_DownloadCount := 0 |}.

(** From the checksum comparison on, [data] being in the temporary file. *)
Definition store_platform (versionID : uuid) (namespace providerName version : string)
  (p : upstream_platform) (pkg : ProviderPackageResponse) (shasumMap : gmap string string)
  (data : string) : P (res unit) :=
  let expectedChecksum := expected_checksum pkg shasumMap in
  if negb (String.eqb expectedChecksum "") && negb (String.eqb (sha256_hex data) expectedChecksum)
  then ret (Err (ErrMsg ("checksum mismatch: expected " +:+ expectedChecksum +:+ ", got " +:+
                         sha256_hex data)))
  else
    match ValidateStorageFilename (pkg_Filename pkg) with
    | Some e => ret (Err (ErrWrap "unsafe filename from upstream package descriptor" e))
    | None =>
        let! seek := out SeekStart in
        match seek with
        | Err e => ret (Err (ErrWrap "failed to seek temp file" e))
        | Ok _ =>
            let! up := out (storage_Upload
                              (provider_path namespace providerName version p (pkg_Filename pkg)) data) in
            match up with
            | Err e => ret (Err (ErrWrap "failed to store binary" e))
            | Ok uploadResult =>
                let! row := ProviderRepository.CreatePlatform
                              (platform_row versionID p (pkg_Filename pkg) (ur_Path uploadResult) data) in
                match row with
                | Err e => ret (Err (ErrWrap "failed to create platform record" e))
                | Ok _ => ret (Ok tt)
                end
            end
        end
    end.

Definition syncPlatformBinary (base : string) (versionID : uuid)
  (namespace providerName version : string) (p : upstream_platform)
  (shasumMap : gmap string string) : P (res unit) :=
  let! info := out (GetProviderPackage base namespace providerName version (up_OS p) (up_Arch p)) in
  match info with
  | Err e => ret (Err (ErrWrap "failed to get package info" e))
  | Ok pkg =>
      let! stream := out (DownloadFileStream base (pkg_DownloadURL pkg)) in
      match stream with
      | Err e => ret (Err (ErrWrap "failed to download binary" e))
      | Ok body =>
          let! tmp := out CreateTemp in
          match tmp with
          | Err e => ret (Err (ErrWrap "failed to create temp file" e))
          | Ok _ =>
              let! copied := (match body with
                              | Ok data => out (CopyToTemp data)
                              | Err e => ret (Err e)
                              end) in
              match body, copied with
              | Err e, _ | _, Err e => ret (Err (ErrWrap "failed to stream binary to disk" e))
              | Ok data, Ok _ =>
                  store_platform versionID namespace providerName version p pkg shasumMap data
              end
          end
      end
  end.

(** ** Documentation index *)

Definition doc_row (d : ProviderDocEntry) : ProviderVersionDoc := {|
  pd_ProviderVersionID := 0%nat; pd_UpstreamDocID := de_ID d; pd_Title := de_Title d;
  pd_Slug := de_Slug d; pd_Category := de_Category d; pd_Subcategory := de_Subcategory d;
  pd_Path := Some (de_Path d); pd_Language := de_Language d |}.

Definition store_docs (base : string) (versionID : uuid) (namespace providerName version : string)
  : P unit :=
  let! docs := out (GetProviderDocIndexByVersion base namespace providerName version) in
  match docs with
  | Err _ | Ok [] => ret tt
  | Ok docEntries =>
      let! _r := ProviderDocsRepository.BulkCreateProviderVersionDocs versionID
                   (doc_row <$> docEntries) in
      ret tt
  end.

Definition store_shasums (versionID : uuid) (shasumMap : gmap string string) : P unit :=
  if bool_decide (shasumMap = ∅) then ret tt
  else let! _r := ProviderRepository.UpsertProviderVersionShasums
                    (map_order := fun A => @map_range _ A) versionID shasumMap in ret tt.

(** ** A new version *)

Definition list_upstream_versions (mirroredProviderID : uuid) : P (res (list string)) :=
  let? vs := MirrorRepository.ListMirroredProviderVersions mirroredProviderID in
  ret (Ok (mpv_UpstreamVersion <$> vs)).

(** The keys of the package, those expired replaced. *)
Fixpoint resolve_keys (keys : list string) : P (list string) :=
  match keys with
  | [] => ret []
  | key :: keys' =>
      if String.eqb key "" then resolve_keys keys'
      else let! k := ResolveExpiredGPGKey key in
           let! ks := resolve_keys keys' in ret (k :: ks)
  end.

(** The key stored with the version: the first one of the package. *)
Definition package_key (pkg : ProviderPackageResponse) : P string :=
  match pkg_GPGPublicKeys pkg with
  | key :: _ => if String.eqb key "" then ret "" else ResolveExpiredGPGKey key
  | [] => ret ""
  end.

(** Download the checksum file and verify its signature; a failure only leaves
    the flag down. *)
Definition fetch_shasums (base : string) (pkg : ProviderPackageResponse) (gpgPublicKey : string)
  : P (string * bool) :=
  let! sums := out (DownloadFile base (pkg_SHASumsURL pkg)) in
  let shasumContent := match sums with Ok c => c | Err _ => "" end in
  if String.eqb shasumContent "" || String.eqb gpgPublicKey "" then ret (shasumContent, false)
  else
    let! sig := out (DownloadFile base (pkg_SHASumsSignatureURL pkg)) in
    match sig with
    | Err _ => ret (shasumContent, false)
    | Ok sigContent =>
        let! publicKeys := resolve_keys (pkg_GPGPublicKeys pkg) in
        match publicKeys with
        | [] => ret (shasumContent, false)
        | _ => ret (shasumContent, verifyGPGSignature shasumContent sigContent publicKeys)
        end
    end.

(** The tracking row of a freshly synced version, with its approval status. *)
Definition track_version (config : MirrorConfiguration) (mp : MirroredProvider) (versionID : uuid)
  (version shasumContent : string) (gpgVerified : bool) : P unit :=
  let! mpvID := new_uuid in
  let! approval := resolveProviderApproval (list_upstream_versions (mp_ID mp))
                     (mc_RequiresApproval config) (mc_AutoApproveRules config) version gpgVerified in
  let '(approvalStatus, autoRule) := approval in
  let! now := time_now in
  let! created := MirrorRepository.CreateMirroredProviderVersion {|
    mpv_ID := mpvID; mpv_MirroredProviderID := mp_ID mp; mpv_ProviderVersionID := versionID;
    mpv_UpstreamVersion := version; mpv_SyncedAt := now;
    mpv_ShasumVerified := negb (String.eqb shasumContent ""); mpv_GPGVerified := gpgVerified;
    mpv_ApprovalStatus := approvalStatus |} in
  match created with
  | Err _ => ret tt
  | Ok _ =>
      if negb (String.eqb autoRule "") && approvalRepo
      then let! _r := RecordEvent {|
             ev_MirroredProviderVersionID := Some mpvID; ev_TerraformVersionID := None;
             ev_ScannerBinaryVersionID := None; ev_Action := VersionApprovalActionAuto;
             ev_PerformedBy := None; ev_Notes := None; ev_AutoApproveRule := Some autoRule |} in
           ret tt
      else ret tt
  end.

Definition remove_version (versionID : uuid) (e : gerror) : P (res unit) :=
  let! _r := ProviderRepository.DeleteVersion versionID in ret (Err e).

Definition download_platforms (base : string) (versionID : uuid)
  (namespace providerName version : string) (shasumMap : gmap string string)
  (platforms : list upstream_platform) : P Z :=
  fold_prog (fun n p =>
    let! r := syncPlatformBinary base versionID namespace providerName version p shasumMap in
    ret (if is_ok r then n + 1 else n)) 0 platforms.

Definition syncProviderVersion (base : string) (localProvider : Provider) (mp : MirroredProvider)
  (namespace providerName : string) (version : ProviderVersion) (config : MirrorConfiguration)
  : P (res unit) :=
  let platforms := filterPlatforms (uv_Platforms version) (mc_PlatformFilter config) in
  match uv_Platforms version with
  | [] => ret (Err (ErrMsg ("no platforms available for version " +:+ uv_Version version)))
  | firstPlatform :: _ =>
      let! info := out (GetProviderPackage base namespace providerName (uv_Version version)
                          (up_OS firstPlatform) (up_Arch firstPlatform)) in
      match info with
      | Err e => ret (Err (ErrWrap "failed to get package info" e))
      | Ok pkg =>
          let! gpgPublicKey := package_key pkg in
          let! fetched := fetch_shasums base pkg gpgPublicKey in
          let '(shasumContent, gpgVerified) := fetched in
          let shasumMap := parseSHASUMFile shasumContent in
          let! created := ProviderRepository.CreateVersion {|
            pv_ID := 0%nat; pv_ProviderID := pr_ID localProvider; pv_Version := uv_Version version;
            pv_Protocols := uv_Protocols version; pv_GPGPublicKey := gpgPublicKey;
            pv_ShasumURL := pkg_SHASumsURL pkg;
            pv_ShasumSignatureURL := pkg_SHASumsSignatureURL pkg;
            pv_ShasumStorageKey := None; pv_ShasumSignatureStorageKey := None;
            pv_Deprecated := false |} in
          match created with
          | Err e => ret (Err (ErrWrap "failed to create version record" e))
          | Ok versionID =>
              run! store_shasums versionID shasumMap in
              run! (if docsRepo
                    then store_docs base versionID namespace providerName (uv_Version version)
                    else ret tt) in
              let! platformsDownloaded :=
                download_platforms base versionID namespace providerName (uv_Version version)
                  shasumMap platforms in
              if (platformsDownloaded =? 0) && negb (bool_decide (platforms = []))
              then remove_version versionID (ErrMsg ("failed to download any platforms for version "
                                                     +:+ uv_Version version))
              else if bool_decide (platforms = [])
              then remove_version versionID (ErrMsg ("no platforms match filter for version "
                                                     +:+ uv_Version version))
              else run! track_version config mp versionID (uv_Version version) shasumContent
                          gpgVerified in
                   ret (Ok tt)
          end
      end
  end.

(** ** A version already there *)

(** The tracking row is created when it is missing; no approval status is given. *)
Definition ensure_tracking (mp : MirroredProvider) (existing : ProviderVersionRow)
  (version : string) : P unit :=
  let! t := MirrorRepository.GetMirroredProviderVersionByVersionID (pv_ID existing) in
  match t with
  | Ok (Some _) => ret tt
  | _ =>
      let! id := new_uuid in
      let! now := time_now in
      let! _r := MirrorRepository.CreateMirroredProviderVersion {|
        mpv_ID := id; mpv_MirroredProviderID := mp_ID mp;
        mpv_ProviderVersionID := pv_ID existing; mpv_UpstreamVersion := version;
        mpv_SyncedAt := now; mpv_ShasumVerified := false; mpv_GPGVerified := false;
        mpv_ApprovalStatus := None |} in
      ret tt
  end.

Definition backfill_key (existing : ProviderVersionRow) (pkg : ProviderPackageResponse) : P unit :=
  match pkg_GPGPublicKeys pkg with
  | [] => ret tt
  | key :: _ =>
      let! resolved := ResolveExpiredGPGKey key in
      if String.eqb resolved "" then ret tt
      else let! _r := ProviderRepository.UpdateVersionGPGKey (pv_ID existing) resolved in ret tt
  end.

Definition backfill_flag (base : string) (tracking : MirroredProviderVersion)
  (pkg : ProviderPackageResponse) : P unit :=
  let! sums := out (DownloadFile base (pkg_SHASumsURL pkg)) in
  let! sig := out (DownloadFile base (pkg_SHASumsSignatureURL pkg)) in
  let shasumContent := match sums with Ok c => c | Err _ => "" end in
  let sigContent := match sig with Ok c => c | Err _ => "" end in
  if String.eqb shasumContent "" || String.eqb sigContent "" then ret tt
  else
    let! resolvedKeys := resolve_keys (pkg_GPGPublicKeys pkg) in
    if verifyGPGSignature shasumContent sigContent resolvedKeys
    then let! _r := MirrorRepository.UpdateMirroredProviderVersionGPGStatus (mpv_ID tracking) true in
         ret tt
    else ret tt.

Definition backfill_gpg (base namespace providerName : string) (version : ProviderVersion)
  (existing : ProviderVersionRow) : P unit :=
  let! needsGPGKeyBackfill :=
    (if String.eqb (pv_GPGPublicKey existing) "" then ret true
     else let! ok := HasUsableGPGKey (pv_GPGPublicKey existing) in ret (negb ok)) in
  let! t := MirrorRepository.GetMirroredProviderVersionByVersionID (pv_ID existing) in
  let trackingRecord := match t with
                        | Ok (Some m) => if mpv_GPGVerified m then None else Some m
                        | _ => None
                        end in
  match needsGPGKeyBackfill, trackingRecord, uv_Platforms version with
  | false, None, _ | _, _, [] => ret tt
  | _, _, p0 :: _ =>
      let! info := out (GetProviderPackage base namespace providerName (uv_Version version)
                          (up_OS p0) (up_Arch p0)) in
      match info with
      | Err _ => ret tt
      | Ok pkg =>
          run! (if needsGPGKeyBackfill : bool then backfill_key existing pkg else ret tt) in
          match trackingRecord with
          | Some m => backfill_flag base m pkg
          | None => ret tt
          end
      end
  end.

Definition backfill_docs (base namespace providerName : string) (version : ProviderVersion)
  (existing : ProviderVersionRow) : P unit :=
  if docsRepo then
    let! n := ProviderDocsRepository.CountProviderVersionDocs (pv_ID existing) in
    match n with
    | Ok O => store_docs base (pv_ID existing) namespace providerName (uv_Version version)
    | _ => ret tt
    end
  else ret tt.

(** The checksums of a re-sync: no signature is looked at. *)
Definition resync_shasums (base namespace providerName : string) (version : ProviderVersion)
  (firstPlatform : upstream_platform) (existing : ProviderVersionRow) : P (gmap string string) :=
  let! info := out (GetProviderPackage base namespace providerName (uv_Version version)
                      (up_OS firstPlatform) (up_Arch firstPlatform)) in
  match info with
  | Err _ => ret ∅
  | Ok pkg =>
      let! sums := out (DownloadFile base (pkg_SHASumsURL pkg)) in
      let shasumMap := parseSHASUMFile (match sums with Ok c => c | Err _ => "" end) in
      run! store_shasums (pv_ID existing) shasumMap in
      ret shasumMap
  end.

(** Platforms the tables lack are downloaded; the number of those stored. *)
Definition sync_missing (base namespace providerName : string) (version : ProviderVersion)
  (config : MirrorConfiguration) (existing : ProviderVersionRow) : P Z :=
  let! pl := ProviderRepository.ListPlatforms (pv_ID existing) in
  match pl with
  | Err _ => ret 0
  | Ok existingPlatforms =>
      let existingPlatformSet : gset string :=
        list_to_set ((fun p => pp_OS p +:+ "/" +:+ pp_Arch p) <$> existingPlatforms) in
      let missingPlatforms :=
        List.filter (fun p => negb (bool_decide (platform_key p ∈ existingPlatformSet)))
          (filterPlatforms (uv_Platforms version) (mc_PlatformFilter config)) in
      match missingPlatforms, uv_Platforms version with
      | [], _ | _, [] =>
          run! backfill_docs base namespace providerName version existing in ret 0
      | _, firstPlatform :: _ =>
          let! shasumMap := resync_shasums base namespace providerName version firstPlatform
                              existing in
          download_platforms base (pv_ID existing) namespace providerName (uv_Version version)
            shasumMap missingPlatforms
      end
  end.

Definition sync_existing (base namespace providerName : string) (version : ProviderVersion)
  (config : MirrorConfiguration) (mp : MirroredProvider) (existing : ProviderVersionRow) : P Z :=
  run! ensure_tracking mp existing (uv_Version version) in
  run! backfill_gpg base namespace providerName version existing in
  sync_missing base namespace providerName version config existing.

(** ** One provider *)

(** [config.OrganizationID], or the default organization. *)
Definition provider_org (config : MirrorConfiguration) : P (option uuid) :=
  match mc_OrganizationID config with
  | Some o => ret (Some o)
  | None =>
      let! d := out GetDefaultOrganization in
      ret match d with Ok o => o | Err _ => None end
  end.

Definition new_mirrored (config : MirrorConfiguration) (providerID : uuid)
  (namespace providerName : string) : P MirroredProvider :=
  let! id := new_uuid in
  let! now := time_now in
  ret {| mp_ID := id; mp_MirrorConfigID := mc_ID config; mp_ProviderID := providerID;
         mp_UpstreamNamespace := namespace; mp_UpstreamType := providerName;
         mp_LastSyncedAt := now; mp_LastSyncVersion := None; mp_SyncEnabled := true |}.

(** A failed insert is only logged: the record is used all the same. *)
Definition start_tracking (config : MirrorConfiguration) (p : Provider)
  (namespace providerName : string) : P MirroredProvider :=
  let! mp := new_mirrored config (pr_ID p) namespace providerName in
  run! MirrorRepository.CreateMirroredProvider mp in
  ret mp.

(** The local provider and its tracking record, created where they are missing. *)
Definition ensure_provider (config : MirrorConfiguration) (orgID : option uuid)
  (namespace providerName : string) : P (res (Provider * MirroredProvider)) :=
  let! found := ProviderRepository.GetProviderByNamespaceType orgID namespace providerName in
  match found with
  | Err e => ret (Err (ErrWrap "failed to check existing provider" e))
  | Ok None =>
      let! created := ProviderRepository.CreateProvider {|
        pr_ID := 0%nat; pr_OrganizationID := orgID; pr_Namespace := namespace;
        pr_Type := providerName;
        pr_Description := Some ("Mirrored from " +:+ mc_UpstreamRegistryURL config);
        pr_Source := Some (mc_UpstreamRegistryURL config +:+ "/" +:+ namespace +:+ "/" +:+
                           providerName) |} in
      match created with
      | Err e => ret (Err (ErrWrap "failed to create local provider" e))
      | Ok localProvider =>
          let! mp := start_tracking config localProvider namespace providerName in
          ret (Ok (localProvider, mp))
      end
  | Ok (Some localProvider) =>
      let! t := MirrorRepository.GetMirroredProviderByProviderID (pr_ID localProvider) in
      match t with
      | Ok (Some mp) => ret (Ok (localProvider, mp))
      | _ =>
          let! mp := start_tracking config localProvider namespace providerName in
          ret (Ok (localProvider, mp))
      end
  end.

Definition sync_version (base namespace providerName : string) (config : MirrorConfiguration)
  (localProvider : Provider) (mp : MirroredProvider) (existingVersions : list ProviderVersionRow)
  (version : ProviderVersion) : P Z :=
  match List.find (fun v => String.eqb (pv_Version v) (uv_Version version)) existingVersions with
  | Some existing => sync_existing base namespace providerName version config mp existing
  | None =>
      let! r := syncProviderVersion base localProvider mp namespace providerName version config in
      ret (if is_ok r then 1 else 0)
  end.

(** The highest of the versions, the first among equals. *)
Definition highest_version (versions : list ProviderVersion) : option string :=
  match versions with
  | [] => None
  | v :: vs => Some (fold_left (fun highest v =>
                 if 0 <? Mirror.CompareSemver (uv_Version v) highest then uv_Version v else highest)
                 vs (uv_Version v))
  end.

Definition finish_provider (mp : MirroredProvider) (versions : list ProviderVersion) : P unit :=
  let! now := time_now in
  let! _r := MirrorRepository.UpdateMirroredProvider
    (set_mirrored_sync now (match highest_version versions with
                            | Some h => Some h
                            | None => mp_LastSyncVersion mp
                            end) (mp_SyncEnabled mp) mp) in
  ret tt.

Definition syncProvider (base : string) (config : MirrorConfiguration)
  (namespace providerName : string) : P (res SyncedProvider) :=
  let! listed := out (ListProviderVersions base namespace providerName) in
  match listed with
  | Err e => ret (Err (ErrWrap "failed to list versions" e))
  | Ok [] => ret (Err (ErrMsg "no versions found"))
  | Ok allVersions =>
      let versions := ProviderFilter.FilterVersions allVersions (mc_VersionFilter config) in
      match versions with
      | [] => ret (Err (ErrMsg ("no versions match filter " +:+ default "" (mc_VersionFilter config))))
      | _ =>
          let! orgID := provider_org config in
          let! ensured := ensure_provider config orgID namespace providerName in
          match ensured with
          | Err e => ret (Err e)
          | Ok (localProvider, mp) =>
              let! ev := ProviderRepository.ListVersions (pr_ID localProvider) in
              match ev with
              | Err e => ret (Err (ErrWrap "failed to list existing versions" e))
              | Ok existingVersions =>
                  let! fresh := fold_prog (fun n version =>
                    let! k := sync_version base namespace providerName config localProvider mp
                                existingVersions version in ret (n + k)) 0 versions in
                  run! finish_provider mp versions in
                  ret (Ok {| sp_Namespace := namespace; sp_Name := providerName;
                             sp_Versions := uv_Version <$> versions; sp_VersionsNew := fresh |})
              end
          end
      end
  end.

(** ** One run *)

Definition no_details : SyncDetails := {|
  sd_Namespaces := []; sd_ProvidersFound := 0; sd_ProvidersSynced := 0; sd_ProvidersFailed := 0;
  sd_Errors := []; sd_SyncedProviders := [] |}.

Definition add_result (namespace providerName : string) (r : res SyncedProvider) (d : SyncDetails)
  : SyncDetails :=
  match r with
  | Err e => {|
      sd_Namespaces := sd_Namespaces d; sd_ProvidersFound := sd_ProvidersFound d;
      sd_ProvidersSynced := sd_ProvidersSynced d; sd_ProvidersFailed := sd_ProvidersFailed d + 1;
      sd_Errors := sd_Errors d ++ [namespace +:+ "/" +:+ providerName +:+ ": " +:+ Error e];
      sd_SyncedProviders := sd_SyncedProviders d |}
  | Ok p => {|
      sd_Namespaces := sd_Namespaces d; sd_ProvidersFound := sd_ProvidersFound d;
      sd_ProvidersSynced := sd_ProvidersSynced d + 1; sd_ProvidersFailed := sd_ProvidersFailed d;
      sd_Errors := sd_Errors d; sd_SyncedProviders := sd_SyncedProviders d ++ [p] |}
  end.

Definition json_filter (filter : option string) (what : string) : res (list string) :=
  match filter with
  | None => Ok []
  | Some f => if String.eqb f "" then Ok []
              else match unmarshal_strings f with
                   | Ok l => Ok l
                   | Err e => Err (ErrWrap what e)
                   end
  end.

(** The combinations to sync, or why there are none. *)
Definition selected_providers (config : MirrorConfiguration) : res (list string * list string) :=
  match json_filter (mc_NamespaceFilter config) "invalid namespace filter" with
  | Err e => Err e
  | Ok namespaces =>
      match json_filter (mc_ProviderFilter config) "invalid provider filter" with
      | Err e => Err e
      | Ok providerNames =>
          match namespaces, providerNames with
          | [], [] => Err (ErrMsg ("full registry mirroring not yet implemented - please configure" +:+
                                 " namespace and/or provider filters"))
          | [], _ => Ok (["hashicorp"], providerNames)
          | _, [] => Err (ErrMsg ("provider enumeration not yet implemented - please also" +:+
             " configure provider filters (e.g., 'aws', 'azurerm', 'google')"))
          | _, _ => Ok (namespaces, providerNames)
          end
      end
  end.

Definition performSync (config : MirrorConfiguration) : P (SyncDetails * option gerror) :=
  let base := mc_UpstreamRegistryURL config in
  let! disc := out (DiscoverServices base) in
  match disc with
  | Err e => ret (no_details, Some (ErrWrap "service discovery failed" e))
  | Ok _ =>
      match selected_providers config with
      | Err e => ret (no_details, Some e)
      | Ok (namespaces, providerNames) =>
          let! details := fold_prog (fun d namespace =>
            fold_prog (fun d providerName =>
              let! r := syncProvider base config namespace providerName in
              ret (add_result namespace providerName r d)) d providerNames)
            no_details namespaces in
          ret ({| sd_Namespaces := namespaces;
                  sd_ProvidersFound := Z.of_nat (length namespaces) * Z.of_nat (length providerNames);
                  sd_ProvidersSynced := sd_ProvidersSynced details;
                  sd_ProvidersFailed := sd_ProvidersFailed details;
                  sd_Errors := sd_Errors details;
                  sd_SyncedProviders := sd_SyncedProviders details |}, None)
      end
  end.

(** [syncMirror] without the release of the [activeSyncs] entry, which is a deferred
    call ([SyncSchedule]). *)
Definition syncMirror (config : MirrorConfiguration) : P unit :=
  let! id := new_uuid in
  let! startedAt := time_now in
  let history := {|
    sh_ID := id; sh_MirrorConfigID := mc_ID config; sh_StartedAt := startedAt;
    sh_CompletedAt := None; sh_Status := "running"; sh_ProvidersSynced := 0;
    sh_ProvidersFailed := 0; sh_ErrorMessage := None; sh_SyncDetails := None |} in
  let! created := MirrorRepository.CreateSyncHistory history in
  match created with
  | Err _ => ret tt
  | Ok _ =>
      run! MirrorRepository.UpdateSyncStatus (mc_ID config) "in_progress" None in
      let! outcome := performSync config in
      let '(details, err) := outcome in
      let! now := time_now in
      let errMsg := Error <$> err in
      let status := match err with Some _ => "failed" | None => "success" end in
      run! MirrorRepository.UpdateSyncStatus (mc_ID config) status errMsg in
      let! _r := MirrorRepository.UpdateSyncHistory {|
        sh_ID := id; sh_MirrorConfigID := mc_ID config; sh_StartedAt := startedAt;
        sh_CompletedAt := Some now; sh_Status := status;
        sh_ProvidersSynced := sd_ProvidersSynced details;
        sh_ProvidersFailed := sd_ProvidersFailed details; sh_ErrorMessage := errMsg;
        sh_SyncDetails := Some (marshal_sync_details details) |} in
      ret tt
  end.
End Sync.
