(* ===== verification/ProvSchema.v ===== *)
(** * The provider tables keep their schema

    The primary keys, uniqueness constraints and references of the
    [internal/db/migrations] schema as an invariant of the tables of [ProvRepo],
    kept by every operation of the three repositories, whichever statements
    fail. *)

From S2P Require Import Prelude GoStrings TfMirrorRepo TfMirrorSync VersionApproval ProvRepo.
From stdpp Require Import gmap.

#[local] Open Scope nat_scope.

(** ** Keys and references *)

(** Every row of [rows] refers to an identifier among [ids]. *)
Definition refs {R} (f : R -> uuid) (rows : list R) (ids : list uuid) : Prop :=
  Forall (fun r => f r ∈ ids) rows.

Definition event_target (ids : list uuid) (ev : VersionApprovalEvent) : Prop :=
  match ev_MirroredProviderVersionID ev with Some i => i ∈ ids | None => True end.

Definition org_key (p : Provider) : option (uuid * string * string) :=
  (fun o => (o, pr_Namespace p, pr_Type p)) <$> pr_OrganizationID p.

Definition below (n : uuid) (ids : list uuid) : Prop := Forall (fun i => i < n) ids.

Record schema (t : pdb) : Prop := {
  config_ids : NoDup (mc_ID <$> mirror_configurations t);
  config_names : NoDup (mc_Name <$> mirror_configurations t);
  provider_ids : NoDup (pr_ID <$> providers t);
  provider_fresh : below (pnext t) (pr_ID <$> providers t);
  provider_keys : NoDup (omap org_key (providers t));
  version_ids : NoDup (pv_ID <$> provider_versions t);
  version_fresh : below (pnext t) (pv_ID <$> provider_versions t);
  version_keys : NoDup ((fun v => (pv_ProviderID v, pv_Version v)) <$> provider_versions t);
  version_refs : refs pv_ProviderID (provider_versions t) (pr_ID <$> providers t);
  platform_ids : NoDup (pp_ID <$> provider_platforms t);
  platform_fresh : below (pnext t) (pp_ID <$> provider_platforms t);
  platform_keys :
    NoDup ((fun p => (pp_ProviderVersionID p, pp_OS p, pp_Arch p)) <$> provider_platforms t);
  platform_refs : refs pp_ProviderVersionID (provider_platforms t) (pv_ID <$> provider_versions t);
  shasum_keys :
    NoDup ((fun s => (ps_ProviderVersionID s, ps_Filename s)) <$> provider_version_shasums t);
  shasum_refs :
    refs ps_ProviderVersionID (provider_version_shasums t) (pv_ID <$> provider_versions t);
  doc_keys :
    NoDup ((fun d => (pd_ProviderVersionID d, pd_UpstreamDocID d)) <$> provider_version_docs t);
  doc_refs : refs pd_ProviderVersionID (provider_version_docs t) (pv_ID <$> provider_versions t);
  mirrored_ids : NoDup (mp_ID <$> mirrored_providers t);
  mirrored_keys : NoDup (mp_ProviderID <$> mirrored_providers t);
  mirrored_sources :
    NoDup ((fun m => (mp_MirrorConfigID m, mp_UpstreamNamespace m, mp_UpstreamType m))
             <$> mirrored_providers t);
  mirrored_configs :
    refs mp_MirrorConfigID (mirrored_providers t) (mc_ID <$> mirror_configurations t);
  mirrored_provider_refs : refs mp_ProviderID (mirrored_providers t) (pr_ID <$> providers t);
  tracking_ids : NoDup (mpv_ID <$> mirrored_versions t);
  tracking_keys :
    NoDup ((fun m => (mpv_MirroredProviderID m, mpv_UpstreamVersion m)) <$> mirrored_versions t);
  tracking_mirrored :
    refs mpv_MirroredProviderID (mirrored_versions t) (mp_ID <$> mirrored_providers t);
  tracking_versions :
    refs mpv_ProviderVersionID (mirrored_versions t) (pv_ID <$> provider_versions t);
  run_ids : NoDup (sh_ID <$> mirror_sync_history t);
  run_refs : refs sh_MirrorConfigID (mirror_sync_history t) (mc_ID <$> mirror_configurations t);
  event_refs : Forall (event_target (mpv_ID <$> mirrored_versions t)) (approval_events t);
}.

(** ** Facts on keys *)

Lemma has_spec {R} (cond : R -> bool) rows :
  has cond rows = true <-> exists r, In r rows /\ cond r = true.
Proof. apply List.existsb_exists. Qed.

Lemma has_false {R} (cond : R -> bool) rows r :
  has cond rows = false -> In r rows -> cond r = false.
Proof.
  intros Hf Hin. destruct (cond r) eqn:E; [|done].
  assert (has cond rows = true) by (apply has_spec; eauto). congruence.
Qed.

Lemma has_id {R} (f : R -> uuid) rows i :
  has (fun r => f r =? i) rows = true <-> i ∈ f <$> rows.
Proof.
  rewrite has_spec, list_elem_of_fmap. split.
  - intros (r & Hin & E). apply Nat.eqb_eq in E. exists r. by rewrite list_elem_of_In.
  - intros (r & -> & Hin). exists r. by rewrite Nat.eqb_refl, <- list_elem_of_In.
Qed.

Lemma has_eqb i ids : has (Nat.eqb i) ids = true <-> i ∈ ids.
Proof.
  rewrite has_spec, list_elem_of_In. split.
  - intros (j & Hin & E). apply Nat.eqb_eq in E. by subst.
  - intros Hin. exists i. by rewrite Nat.eqb_refl.
Qed.

Lemma keyed_snoc {R K} (key : R -> K) (cond : R -> bool) rows r :
  (forall r', key r' = key r -> cond r' = true) ->
  has cond rows = false -> NoDup (key <$> rows) -> NoDup (key <$> (rows ++ [r])).
Proof.
  intros Hc Hf Hn. rewrite fmap_app, NoDup_app. split; [done|]. split; [|cbn; apply NoDup_singleton].
  intros k (r' & -> & Hin)%list_elem_of_fmap [E|[]%not_elem_of_nil]%elem_of_cons.
  rewrite list_elem_of_In in Hin. pose proof (has_false _ _ _ Hf Hin) as Hcf.
  rewrite (Hc r') in Hcf by done. done.
Qed.

Lemma fresh_snoc {R} (key : R -> uuid) n rows r :
  below n (key <$> rows) -> key r = n -> NoDup (key <$> rows) -> NoDup (key <$> (rows ++ [r])).
Proof.
  intros Hb Hr Hn. rewrite fmap_app, NoDup_app. split; [done|]. split; [|cbn; apply NoDup_singleton].
  intros k Hk [->|[]%not_elem_of_nil]%elem_of_cons.
  pose proof (proj1 (Forall_forall _ _) Hb _ Hk). cbn in *. lia.
Qed.

Lemma below_snoc {R} (key : R -> uuid) n rows r :
  below n (key <$> rows) -> key r < S n -> below (S n) (key <$> (rows ++ [r])).
Proof.
  intros Hb Hr. unfold below. rewrite fmap_app, Forall_app. split; [|by apply Forall_singleton].
  eapply Forall_impl; [exact Hb | intros i Hi; cbn in *; lia].
Qed.

Lemma below_S n ids : below n ids -> below (S n) ids.
Proof. intros Hb. eapply Forall_impl; [exact Hb | intros i Hi; cbn in *; lia]. Qed.

Lemma in_filter_fmap {R K} (key : R -> K) f rows k :
  k ∈ key <$> List.filter f rows -> k ∈ key <$> rows.
Proof.
  intros (r & -> & Hin)%list_elem_of_fmap. apply list_elem_of_fmap. exists r. split; [done|].
  rewrite list_elem_of_In in Hin |- *. by apply filter_In in Hin as [? _].
Qed.

Lemma keyed_filter {R K} (key : R -> K) f rows :
  NoDup (key <$> rows) -> NoDup (key <$> List.filter f rows).
Proof.
  induction rows as [|r rows IH]; [done|]. cbn [fmap list_fmap List.filter].
  intros [Hnot Hn]%NoDup_cons. destruct (f r); [|by apply IH].
  cbn [fmap list_fmap]. apply NoDup_cons. split; [|by apply IH].
  intros Hin. apply Hnot. by eapply in_filter_fmap.
Qed.

Lemma okeyed_filter {R K} (key : R -> option K) f rows :
  NoDup (omap key rows) -> NoDup (omap key (List.filter f rows)).
Proof.
  induction rows as [|r rows IH]; [done|]. cbn [omap list_omap List.filter].
  assert (Hsub : forall k, k ∈ omap key (List.filter f rows) -> k ∈ omap key rows).
  { intros k (r' & Hin & E)%list_elem_of_omap. apply list_elem_of_omap. exists r'. split; [|done].
    rewrite list_elem_of_In in Hin |- *. by apply filter_In in Hin as [? _]. }
  destruct (key r) as [k|] eqn:E.
  - intros [Hnot Hn]%NoDup_cons. destruct (f r); [|by apply IH].
    cbn [omap list_omap]. rewrite E. apply NoDup_cons. auto.
  - intros Hn. destruct (f r); [cbn [omap list_omap]; rewrite E|]; by apply IH.
Qed.

Lemma below_filter {R} (key : R -> uuid) n f rows :
  below n (key <$> rows) -> below n (key <$> List.filter f rows).
Proof.
  unfold below. rewrite !Forall_forall. intros Hb i Hi. by eapply Hb, in_filter_fmap.
Qed.

Lemma update_key {R K} (key : R -> K) cond upd rows :
  (forall r, key (upd r) = key r) -> key <$> update_rows cond upd rows = key <$> rows.
Proof.
  intros Hk. unfold update_rows. induction rows as [|r rows IH]; [done|]. cbn in *.
  rewrite IH. by destruct (cond r); rewrite ?Hk.
Qed.

(** A row is replaced by one with the key it was found by. *)
Lemma replace_key {R K} (key : R -> K) cond row rows :
  (forall r, cond r = true -> key r = key row) ->
  key <$> update_rows cond (fun _ => row) rows = key <$> rows.
Proof.
  intros Hk. unfold update_rows. induction rows as [|r rows IH]; [done|]. cbn in *.
  rewrite IH. destruct (cond r) eqn:E; [by rewrite (Hk r E) | done].
Qed.

Lemma refs_fmap {R} (f : R -> uuid) rows ids : refs f rows ids <-> Forall (.∈ ids) (f <$> rows).
Proof. unfold refs. by rewrite Forall_fmap. Qed.

Lemma refs_mono {R} (f : R -> uuid) rows ids ids' :
  refs f rows ids -> ids ⊆ ids' -> refs f rows ids'.
Proof. intros Hr Hi. eapply Forall_impl; [exact Hr | intros r; cbn; auto]. Qed.

Lemma refs_snoc {R} (f : R -> uuid) rows ids r :
  refs f rows ids -> f r ∈ ids -> refs f (rows ++ [r]) ids.
Proof. intros. apply Forall_app. split; [done | by repeat constructor]. Qed.

Lemma refs_filter {R} (f : R -> uuid) rows ids c :
  refs f rows ids -> refs f (List.filter c rows) ids.
Proof.
  unfold refs. rewrite !List.Forall_forall. intros Hr r [Hin _]%filter_In. auto.
Qed.

Lemma kept_id {R} (key : R -> uuid) gone rows i :
  i ∈ key <$> rows -> ~ i ∈ key <$> List.filter gone rows ->
  i ∈ key <$> List.filter (fun r => negb (gone r)) rows.
Proof.
  intros (r & -> & Hin)%list_elem_of_fmap Hnot. apply list_elem_of_fmap. exists r. split; [done|].
  rewrite list_elem_of_In in *. apply filter_In. split; [done|].
  destruct (gone r) eqn:E; [|done]. exfalso. apply Hnot, list_elem_of_fmap. exists r.
  split; [done|]. by apply list_elem_of_In, filter_In.
Qed.

(** Rows of a child table survive with their parent. *)
Lemma refs_cascade {R S} (f : R -> uuid) (key : S -> uuid) rows parents gone keep :
  refs f rows (key <$> parents) ->
  (forall i, keep i = true -> ~ i ∈ key <$> List.filter gone parents) ->
  refs f (List.filter (fun r => keep (f r)) rows)
         (key <$> List.filter (fun p => negb (gone p)) parents).
Proof.
  unfold refs. rewrite !List.Forall_forall. intros Hr Hk r [Hin Hkeep]%filter_In.
  apply kept_id; auto.
Qed.

(** Deleting a parent by its identifier. *)
Lemma refs_cascade_id {R S} (f : R -> uuid) (key : S -> uuid) rows parents id :
  refs f rows (key <$> parents) ->
  refs f (List.filter (fun r => negb (f r =? id)) rows)
         (key <$> List.filter (fun p => negb (key p =? id)) parents).
Proof.
  intros Hr. apply (refs_cascade f key rows parents (fun p => key p =? id) (fun i => negb (i =? id)));
    [done|]. intros i Hi (p & -> & Hin)%list_elem_of_fmap.
  rewrite list_elem_of_In in Hin. apply filter_In in Hin as [_ E]. by rewrite E in Hi.
Qed.

(** ** Every statement *)

Create HintDb schema.
#[export] Hint Resolve keyed_filter okeyed_filter below_filter refs_filter below_S
  refs_cascade_id : schema.

Section Tables.

Lemma schema_bump t : schema t -> schema (bump t).
Proof. destruct t as [ta tb tc td te tg th ti tj tk tn]. intros Hs. destruct Hs. constructor; cbn in *; auto with schema. Qed.

(** Updates that leave every key and reference alone. *)
Lemma schema_mirrors cond upd t :
  (forall c, mc_ID (upd c) = mc_ID c) -> (forall c, mc_Name (upd c) = mc_Name c) ->
  schema t -> schema (on_mirrors (update_rows cond upd) t).
Proof.
  destruct t as [ta tb tc td te tg th ti tj tk tn]. intros Hi Hn Hs. destruct Hs. constructor; cbn in *;
    rewrite ?(update_key mc_ID), ?(update_key mc_Name) by done; auto.
Qed.

Lemma schema_pversions cond upd t :
  (forall v, pv_ID (upd v) = pv_ID v) -> (forall v, pv_ProviderID (upd v) = pv_ProviderID v) ->
  (forall v, pv_Version (upd v) = pv_Version v) ->
  schema t -> schema (on_pversions (update_rows cond upd) t).
Proof.
  destruct t as [ta tb tc td te tg th ti tj tk tn]. intros Hi Hp Hv Hs. destruct Hs.
  assert (Hk : forall v, (pv_ProviderID (upd v), pv_Version (upd v)) = (pv_ProviderID v, pv_Version v))
    by (intros v; by rewrite Hp, Hv).
  constructor; cbn in *;
    rewrite ?refs_fmap, ?(update_key pv_ID), ?(update_key pv_ProviderID),
      ?(update_key (fun v => (pv_ProviderID v, pv_Version v))) by done;
    rewrite ?refs_fmap in *; auto.
Qed.

Lemma schema_pplatforms cond upd t :
  (forall p, pp_ID (upd p) = pp_ID p) ->
  (forall p, pp_ProviderVersionID (upd p) = pp_ProviderVersionID p) ->
  (forall p, pp_OS (upd p) = pp_OS p) -> (forall p, pp_Arch (upd p) = pp_Arch p) ->
  schema t -> schema (on_pplatforms (update_rows cond upd) t).
Proof.
  destruct t as [ta tb tc td te tg th ti tj tk tn]. intros Hi Hp Ho Ha Hs. destruct Hs.
  assert (Hk : forall p, (pp_ProviderVersionID (upd p), pp_OS (upd p), pp_Arch (upd p)) =
    (pp_ProviderVersionID p, pp_OS p, pp_Arch p)) by (intros p; by rewrite Hp, Ho, Ha).
  constructor; cbn in *;
    rewrite ?(update_key pp_ID), ?(update_key (fun p => (pp_ProviderVersionID p, pp_OS p, pp_Arch p)))
      by done; auto.
  rewrite refs_fmap in *. by rewrite update_key.
Qed.

Lemma schema_providers_upd cond upd t :
  (forall p, pr_ID (upd p) = pr_ID p) -> (forall p, org_key (upd p) = org_key p) ->
  schema t -> schema (on_providers (update_rows cond upd) t).
Proof.
  destruct t as [ta tb tc td te tg th ti tj tk tn]. intros Hi Ho Hs. destruct Hs. constructor; cbn in *;
    rewrite ?(update_key pr_ID) by done; auto.
  unfold update_rows. rewrite (list_omap_ext org_key org_key _ tb); [done|].
  apply Forall2_fmap_l, Forall_Forall2_diag, Forall_true. intros p.
  cbn. destruct (cond p); [apply Ho | reflexivity].
Qed.

Lemma schema_mirrored_upd cond upd t :
  (forall m, mp_ID (upd m) = mp_ID m) -> (forall m, mp_ProviderID (upd m) = mp_ProviderID m) ->
  (forall m, (mp_MirrorConfigID (upd m), mp_UpstreamNamespace (upd m), mp_UpstreamType (upd m)) =
             (mp_MirrorConfigID m, mp_UpstreamNamespace m, mp_UpstreamType m)) ->
  schema t -> schema (on_mirrored (update_rows cond upd) t).
Proof.
  destruct t as [ta tb tc td te tg th ti tj tk tn]. intros Hi Hp Hk Hs. destruct Hs.
  assert (Hc : forall m, mp_MirrorConfigID (upd m) = mp_MirrorConfigID m)
    by (intros m; by specialize (Hk m); simplify_eq/=).
  constructor; cbn in *;
    rewrite ?refs_fmap, ?(update_key mp_ID), ?(update_key mp_ProviderID),
      ?(update_key mp_MirrorConfigID),
      ?(update_key (fun m => (mp_MirrorConfigID m, mp_UpstreamNamespace m, mp_UpstreamType m)))
      by done; rewrite ?refs_fmap in *; auto.
Qed.

(** A tracking row may move to another version that exists. *)
Lemma schema_tracking_upd cond upd t :
  (forall m, mpv_ID (upd m) = mpv_ID m) ->
  (forall m, mpv_MirroredProviderID (upd m) = mpv_MirroredProviderID m) ->
  (forall m, mpv_UpstreamVersion (upd m) = mpv_UpstreamVersion m) ->
  (forall m, mpv_ProviderVersionID (upd m) = mpv_ProviderVersionID m \/
             mpv_ProviderVersionID (upd m) ∈ pv_ID <$> provider_versions t) ->
  schema t -> schema (on_tracking (update_rows cond upd) t).
Proof.
  destruct t as [ta tb tc td te tg th ti tj tk tn]. intros Hi Hm Hu Hv Hs. destruct Hs.
  assert (Hk : forall m, (mpv_MirroredProviderID (upd m), mpv_UpstreamVersion (upd m)) =
    (mpv_MirroredProviderID m, mpv_UpstreamVersion m)) by (intros m; by rewrite Hm, Hu).
  constructor; cbn in *;
    rewrite ?(update_key mpv_ID),
      ?(update_key (fun m => (mpv_MirroredProviderID m, mpv_UpstreamVersion m))) by done; auto.
  - rewrite refs_fmap in *. by rewrite update_key.
  - unfold refs, update_rows in *. apply Forall_fmap. eapply Forall_impl; [exact tracking_versions0|].
    intros m Hin. cbn in *. destruct (cond m); [|done]. by destruct (Hv m) as [->|].
Qed.

Lemma schema_runs_upd cond upd t :
  (forall h, sh_ID (upd h) = sh_ID h) -> (forall h, sh_MirrorConfigID (upd h) = sh_MirrorConfigID h) ->
  schema t -> schema (on_runs (update_rows cond upd) t).
Proof.
  destruct t as [ta tb tc td te tg th ti tj tk tn]. intros Hi Hc Hs. destruct Hs. constructor; cbn in *;
    rewrite ?refs_fmap, ?(update_key sh_ID), ?(update_key sh_MirrorConfigID) by done;
    rewrite ?refs_fmap in *; auto.
Qed.

(** *** Deletions *)

Lemma schema_drop_tracking gone t : schema t -> schema (drop_tracking gone t).
Proof.
  destruct t as [ta tb tc td te tg th ti tj tk tn]. intros Hs. destruct Hs. constructor; cbn in *; auto with schema.
  rewrite List.Forall_forall in *. intros ev [Hin Hk]%filter_In.
  specialize (event_refs0 ev Hin). unfold event_target in *.
  destruct (ev_MirroredProviderVersionID ev) as [i|]; [|done]. apply kept_id; [done|].
  intros Hi. apply has_eqb in Hi. apply negb_true_iff in Hk.
  exact (eq_true_false_abs _ Hi Hk).
Qed.

(** What a version is deleted with. *)
Lemma drop_versions_refs {R} (f : R -> uuid) rows (vs : list ProviderVersionRow) gone :
  refs f rows (pv_ID <$> vs) ->
  refs f (List.filter (fun r => negb (has (Nat.eqb (f r)) (pv_ID <$> List.filter gone vs))) rows)
         (pv_ID <$> List.filter (fun v => negb (gone v)) vs).
Proof.
  intros Hr. apply (refs_cascade f pv_ID rows vs gone
    (fun i => negb (has (Nat.eqb i) (pv_ID <$> List.filter gone vs)))); [done|].
  intros i Hi Hin. apply has_eqb in Hin. apply negb_true_iff in Hi.
  exact (eq_true_false_abs _ Hin Hi).
Qed.

Lemma schema_drop_versions gone t : schema t -> schema (drop_versions gone t).
Proof.
  intros Hs. unfold drop_versions.
  pose proof (schema_drop_tracking (fun m => negb (negb (has (Nat.eqb (mpv_ProviderVersionID m))
    (pv_ID <$> List.filter gone (provider_versions t))))) t Hs) as Hd.
  destruct t as [ta tb tc td te tg th ti tj tk tn], Hs; cbn in *.
  destruct Hd. constructor; cbn in *; auto with schema; try by apply drop_versions_refs.
  pose proof (drop_versions_refs mpv_ProviderVersionID ti tc gone tracking_versions0) as Hv.
  erewrite List.filter_ext; [exact Hv|]. intros m. cbn. by rewrite negb_involutive.
Qed.
End Tables.

(** ** Every operation *)

Definition keeps_schema (t t' : pdb) : Prop := schema t -> schema t'.

#[export] Instance keeps_schema_preorder : PreOrder keeps_schema.
Proof. split; [by intros t Ht | intros t1 t2 t3 ? ? ?; auto]. Qed.

(** A row with the key of the new one meets the conflict test. *)
Ltac same_key :=
  let r := fresh "r" in let E := fresh "E" in
  intros r E; cbn in E |- *;
  unfold MirrorRepository.same_tracking, ProviderRepository.same_pversion,
    ProviderRepository.same_pplatform, ProviderRepository.is_shasum,
    ProviderDocsRepository.same_doc; cbn;
  simplify_eq; repeat match goal with H : _ r = _ |- _ => rewrite H; clear H end;
  rewrite ?Nat.eqb_refl, ?String.eqb_refl, ?orb_true_r; reflexivity.

Lemma valid_none (b c : bool) (e e' : gerror) :
  (if b then Some e else if c then None else Some e') = None -> b = false /\ c = true.
Proof. by destruct b, c. Qed.

Section Operations.
Context {Y : Type} (O : Y -> Y -> Prop) `{!PreOrder O} `{GoSort} `{StringsCodec}.
Context {map_order : forall A, list A -> list A}.
#[local] Abbreviation keeps c := (preserves (on_st (pmoves keeps_schema O)) c).

Lemma keeps_uuid : keeps new_uuid.
Proof. apply along_uuid; [typeclasses eauto..|]. intros t ?. by apply schema_bump. Qed.

(** *** Configurations and runs *)

Lemma keeps_create_config c : keeps (MirrorRepository.Create c).
Proof.
  apply along_psql; [typeclasses eauto..|]. intros t.
  destruct (has _ (mirror_configurations t)) eqn:E; [by intros ?|]. destruct (negb _); [by intros ?|].
  intros Hs. destruct t as [ta tb tc td te tg th ti tj tk tn], Hs; constructor; cbn in *; auto.
  - eapply keyed_snoc; [|exact E|done]. same_key.
  - eapply keyed_snoc; [|exact E|done]. same_key.
  - eapply refs_mono; [done|]. rewrite fmap_app. set_solver.
  - eapply refs_mono; [done|]. rewrite fmap_app. set_solver.
Qed.

Lemma update_keeps_names c rows :
  NoDup (mc_ID <$> rows) -> NoDup (mc_Name <$> rows) -> MirrorRepository.name_taken c rows = false ->
  forall upd, (forall r, mc_Name (upd r) = mc_Name c) ->
  NoDup (mc_Name <$> update_rows (fun r => mc_ID r =? mc_ID c) upd rows).
Proof.
  intros Hi Hn Ht upd Hu. unfold update_rows. induction rows as [|r rows IH]; [constructor|].
  cbn [map fmap list_fmap] in *. apply NoDup_cons in Hi as [Hni Hi], Hn as [Hnn Hn].
  unfold MirrorRepository.name_taken, has in *. cbn [List.existsb] in Ht.
  apply orb_false_elim in Ht as [Hr0 Hrs]. specialize (IH Hi Hn Hrs). apply NoDup_cons. split; [|done].
  intros (x & E & Hx)%list_elem_of_fmap. rewrite list_elem_of_In in Hx.
  apply in_map_iff in Hx as (r' & <- & Hr').
  assert (Hr'' : r' ∈ rows) by (by rewrite list_elem_of_In).
  destruct (mc_ID r =? mc_ID c) eqn:Ec, (mc_ID r' =? mc_ID c) eqn:Ec'; rewrite ?Hu in E.
  - apply Nat.eqb_eq in Ec, Ec'. apply Hni. rewrite Ec, <- Ec'. by apply list_elem_of_fmap_2.
  - pose proof (has_false _ _ r' Hrs Hr') as Hf. cbn in Hf. rewrite <- E, String.eqb_refl, Ec' in Hf. done.
  - by rewrite E, String.eqb_refl in Hr0.
  - apply Hnn. rewrite E. by apply list_elem_of_fmap_2.
Qed.

Lemma keeps_update_config c : keeps (MirrorRepository.Update c).
Proof.
  apply along_psql; [typeclasses eauto..|]. intros t.
  destruct (negb (has _ _)); [by intros ?|].
  destruct (MirrorRepository.name_taken _ _) eqn:E; [by intros ?|]. destruct (negb _); [by intros ?|].
  intros Hs. destruct t as [ta tb tc td te tg th ti tj tk tn], Hs; constructor; cbn in *;
    rewrite ?(update_key mc_ID) by done; auto.
  by apply update_keeps_names.
Qed.

Lemma keeps_delete_config id : keeps (MirrorRepository.Delete id).
Proof.
  apply along_pexec_found; [typeclasses eauto..|]. intros t Hs.
  set (gone := mp_ID <$> _).
  pose proof (schema_drop_tracking (fun m => has (Nat.eqb (mpv_MirroredProviderID m)) gone) t Hs) as Hd.
  destruct t as [ta tb tc td te tg th ti tj tk tn], Hs, Hd; constructor; cbn in *; auto with schema.
  apply (refs_cascade mpv_MirroredProviderID mp_ID ti th (fun m => mp_MirrorConfigID m =? id)
    (fun i => negb (has (Nat.eqb i) gone))); [done|].
  intros i Hi Hin. apply has_eqb in Hin. apply negb_true_iff in Hi. exact (eq_true_false_abs _ Hin Hi).
Qed.

Lemma keeps_status id s e : keeps (MirrorRepository.UpdateSyncStatus id s e).
Proof.
  apply preserves_bind; [typeclasses eauto | apply preserves_now; typeclasses eauto|]. intros now.
  apply along_pexec; [typeclasses eauto..|]. intros t ?. by apply schema_mirrors.
Qed.

Lemma keeps_reset : keeps MirrorRepository.ResetStaleSyncs.
Proof.
  apply preserves_bind; [typeclasses eauto | apply preserves_now; typeclasses eauto|]. intros now.
  apply preserves_bind; [typeclasses eauto | |].
  - apply along_psql; [typeclasses eauto..|]. intros t ?. by apply schema_runs_upd.
  - intros [n|e]; [|apply preserves_ret; typeclasses eauto].
    apply preserves_bind; [typeclasses eauto | |].
    + apply along_pexec; [typeclasses eauto..|]. intros t ?. by apply schema_mirrors.
    + intros [u|e]; apply preserves_ret; typeclasses eauto.
Qed.

Lemma keeps_create_run h : keeps (MirrorRepository.CreateSyncHistory h).
Proof.
  apply along_psql; [typeclasses eauto..|]. intros t.
  destruct (has _ (mirror_sync_history t)) eqn:E; [by intros ?|].
  destruct (negb _) eqn:Ec; [by intros ?|]. apply negb_false_iff, has_id in Ec.
  intros Hs. destruct t as [ta tb tc td te tg th ti tj tk tn], Hs; constructor; cbn in *; auto.
  - eapply keyed_snoc; [|exact E|done]. same_key.
  - by apply refs_snoc.
Qed.

Lemma keeps_update_run h : keeps (MirrorRepository.UpdateSyncHistory h).
Proof. apply along_pexec; [typeclasses eauto..|]. intros t ?. by apply schema_runs_upd. Qed.

(** *** Tracking *)

Lemma keeps_create_mirrored mp : keeps (MirrorRepository.CreateMirroredProvider mp).
Proof.
  apply along_psql; [typeclasses eauto..|]. intros t.
  destruct (has _ (mirrored_providers t)) eqn:E; [by intros ?|].
  destruct (negb _ || negb _) eqn:Ec; [by intros ?|]. bools. apply has_id in H1, H2.
  intros Hs. destruct t as [ta tb tc td te tg th ti tj tk tn], Hs; constructor; cbn in *; auto.
  - eapply keyed_snoc; [|exact E|done]. same_key.
  - eapply keyed_snoc; [|exact E|done]. same_key.
  - eapply keyed_snoc; [|exact E|done]. same_key.
  - by apply refs_snoc.
  - by apply refs_snoc.
  - eapply refs_mono; [done|]. rewrite fmap_app. set_solver.
Qed.

Lemma keeps_update_mirrored mp : keeps (MirrorRepository.UpdateMirroredProvider mp).
Proof. apply along_pexec; [typeclasses eauto..|]. intros t ?. by apply schema_mirrored_upd. Qed.

Lemma keeps_create_tracking m : keeps (MirrorRepository.CreateMirroredProviderVersion m).
Proof.
  apply along_psql; [typeclasses eauto..|]. intros t.
  destruct (has _ (mirrored_versions t)) eqn:E; [by intros ?|].
  destruct (negb _ || negb _) eqn:Ec; [by intros ?|]. bools. apply has_id in H1, H2.
  destruct (has (MirrorRepository.same_tracking m) _) eqn:Es.
  { intros ?. cbn [snd]. apply schema_tracking_upd; try done. intros m'. by right. }
  intros Hs. destruct t as [ta tb tc td te tg th ti tj tk tn], Hs; constructor; cbn in *; auto.
  - eapply keyed_snoc; [|exact E|done]. same_key.
  - eapply keyed_snoc; [|exact Es|done]. same_key.
  - by apply refs_snoc.
  - by apply refs_snoc.
  - eapply Forall_impl; [exact event_refs0|]. intros ev. unfold event_target.
    destruct (ev_MirroredProviderVersionID ev); [|done]. rewrite fmap_app. set_solver.
Qed.

Lemma keeps_tracking_gpg id b : keeps (MirrorRepository.UpdateMirroredProviderVersionGPGStatus id b).
Proof.
  apply along_pexec; [typeclasses eauto..|]. intros t ?. apply schema_tracking_upd; try done. by left.
Qed.

Lemma keeps_event ev : keeps (RecordEvent ev).
Proof.
  apply along_psql; [typeclasses eauto..|]. intros t.
  destruct (negb (event_ok ev)); [by intros ?|]. destruct (negb _) eqn:E; [by intros ?|].
  intros Hs. destruct t as [ta tb tc td te tg th ti tj tk tn], Hs; constructor; cbn in *; auto.
  apply Forall_app. split; [done|]. apply Forall_singleton. unfold event_target.
  apply negb_false_iff in E. destruct (ev_MirroredProviderVersionID ev); [|done]. by apply has_id in E.
Qed.

(** *** Providers *)

Lemma org_key_snoc p rows :
  has (ProviderRepository.same_provider p) rows = false ->
  NoDup (omap org_key rows) -> forall p', org_key p' = org_key p -> NoDup (omap org_key (rows ++ [p'])).
Proof.
  intros Hf Hn p' Ep. rewrite omap_app. cbn [omap list_omap]. rewrite Ep.
  destruct (org_key p) as [k|] eqn:E; [|by rewrite app_nil_r].
  apply NoDup_app. split; [done|]. split; [|apply NoDup_singleton].
  intros k' (r & Hin & Er)%list_elem_of_omap [->|[]%not_elem_of_nil]%elem_of_cons.
  rewrite list_elem_of_In in Hin. pose proof (has_false _ _ r Hf Hin) as Hs.
  unfold ProviderRepository.same_provider, org_key in *.
  rewrite <- E in Er. destruct (pr_OrganizationID p), (pr_OrganizationID r); try done.
  cbn in Er. injection Er as E1 E2 E3. by rewrite E1, E2, E3, Nat.eqb_refl, !String.eqb_refl in Hs.
Qed.

Lemma keeps_create_provider p : keeps (ProviderRepository.CreateProvider p).
Proof.
  apply preserves_bind; [typeclasses eauto | |].
  2:{ intros [u|e]; apply preserves_ret; typeclasses eauto. }
  apply along_pinsert; [typeclasses eauto..|]. intros t.
  destruct (has _ _) eqn:E; [done|]. intros _.
  intros Hs. destruct t as [ta tb tc td te tg th ti tj tk tn], Hs; constructor; cbn in *;
    auto using below_S.
  - by eapply fresh_snoc.
  - apply below_snoc; [done | cbn; lia].
  - by eapply org_key_snoc.
  - eapply refs_mono; [done|]. rewrite fmap_app. set_solver.
  - eapply refs_mono; [done|]. rewrite fmap_app. set_solver.
Qed.

Lemma keeps_update_provider p : keeps (ProviderRepository.UpdateProvider p).
Proof. apply along_pexec_found; [typeclasses eauto..|]. intros t ?. by apply schema_providers_upd. Qed.

Lemma keeps_delete_provider id : keeps (ProviderRepository.DeleteProvider id).
Proof.
  apply along_pexec_found; [typeclasses eauto..|]. intros t Hs.
  set (gone := mp_ID <$> _).
  pose proof (schema_drop_tracking (fun m => has (Nat.eqb (mpv_MirroredProviderID m)) gone) t Hs) as Hd.
  pose proof (schema_drop_versions (fun v => pv_ProviderID v =? id) _ Hd) as Hv.
  destruct t as [ta tb tc td te tg th ti tj tk tn]. cbn in *.
  pose proof (mirrored_provider_refs _ Hv) as Hm. pose proof (version_refs _ Hs) as Hr.
  pose proof (tracking_mirrored _ Hs) as Ht.
  destruct Hv; constructor; cbn in *; auto with schema.
  apply refs_filter.
  apply (refs_cascade mpv_MirroredProviderID mp_ID ti th (fun m => mp_ProviderID m =? id)
    (fun i => negb (has (Nat.eqb i) gone))); [done|].
  intros i Hi Hin. apply has_eqb in Hin. apply negb_true_iff in Hi. exact (eq_true_false_abs _ Hin Hi).
Qed.

(** *** Versions and platforms *)

Lemma keeps_create_version v : keeps (ProviderRepository.CreateVersion v).
Proof.
  apply along_pinsert; [typeclasses eauto..|]. intros t [E Ep%has_id]%valid_none Hs.
  destruct t as [ta tb tc td te tg th ti tj tk tn], Hs; constructor; cbn in *; auto using below_S;
    try (eapply refs_mono; [done|]; rewrite fmap_app; set_solver).
  - by eapply fresh_snoc.
  - apply below_snoc; [done | cbn; lia].
  - eapply keyed_snoc; [|exact E|done]. same_key.
  - by apply refs_snoc.
Qed.

Lemma keeps_delete_version id : keeps (ProviderRepository.DeleteVersion id).
Proof. apply along_pexec_found; [typeclasses eauto..|]. intros t ?. by apply schema_drop_versions. Qed.

Lemma keeps_deprecate id : keeps (ProviderRepository.DeprecateVersion id).
Proof. apply along_pexec_found; [typeclasses eauto..|]. intros t ?. by apply schema_pversions. Qed.

Lemma keeps_undeprecate id : keeps (ProviderRepository.UndeprecateVersion id).
Proof. apply along_pexec_found; [typeclasses eauto..|]. intros t ?. by apply schema_pversions. Qed.

Lemma keeps_gpg_key id k : keeps (ProviderRepository.UpdateVersionGPGKey id k).
Proof. apply along_pexec; [typeclasses eauto..|]. intros t ?. by apply schema_pversions. Qed.

Lemma keeps_signature_storage id a b :
  keeps (ProviderRepository.UpdateVersionSignatureStorage id a b).
Proof. apply along_pexec; [typeclasses eauto..|]. intros t ?. by apply schema_pversions. Qed.

Lemma keeps_create_platform p : keeps (ProviderRepository.CreatePlatform p).
Proof.
  apply along_pinsert; [typeclasses eauto..|]. intros t [E Ep%has_id]%valid_none Hs.
  destruct t as [ta tb tc td te tg th ti tj tk tn], Hs; constructor; cbn in *; auto using below_S.
  - by eapply fresh_snoc.
  - apply below_snoc; [done | cbn; lia].
  - eapply keyed_snoc; [|exact E|done]. same_key.
  - by apply refs_snoc.
Qed.

Lemma keeps_downloads id : keeps (ProviderRepository.IncrementDownloadCount id).
Proof. apply along_pexec; [typeclasses eauto..|]. intros t ?. by apply schema_pplatforms. Qed.

Lemma keeps_delete_platform id : keeps (ProviderRepository.DeletePlatform id).
Proof.
  apply along_pexec_found; [typeclasses eauto..|]. intros t Hs.
  destruct t as [ta tb tc td te tg th ti tj tk tn], Hs; constructor; cbn in *; auto with schema.
Qed.

(** *** Checksums and documents *)

Lemma keeps_upsert_shasum id f h : keeps (ProviderRepository.upsert_shasum id f h).
Proof.
  apply along_psql; [typeclasses eauto..|]. intros t.
  destruct (negb _) eqn:Ev; [by intros ?|]. apply negb_false_iff, has_id in Ev.
  set (row := Build_ProviderVersionShasum id f h).
  assert (Hk : forall s, ProviderRepository.is_shasum id f s = true ->
            (ps_ProviderVersionID s, ps_Filename s) = (id, f)).
  { intros s E. unfold ProviderRepository.is_shasum in E. bools. by apply Nat.eqb_eq in H1; subst. }
  destruct (has _ (provider_version_shasums t)) eqn:E; intros Hs;
    destruct t as [ta tb tc td te tg th ti tj tk tn], Hs; constructor; cbn in *; auto.
  - by rewrite replace_key.
  - rewrite refs_fmap, replace_key; [by rewrite refs_fmap in shasum_refs0|].
    intros s Hs. by specialize (Hk s Hs) as [= -> _].
  - eapply keyed_snoc; [|exact E|done]. same_key.
  - by apply refs_snoc.
Qed.

Lemma keeps_upsert_shasums id es : keeps (ProviderRepository.upsert_shasums id es).
Proof.
  induction es as [|[f h] es IH]; cbn; [apply preserves_ret; typeclasses eauto|].
  apply preserves_bind; [typeclasses eauto | apply keeps_upsert_shasum|].
  intros [u|e]; [exact IH | apply preserves_ret; typeclasses eauto].
Qed.

Lemma keeps_shasums id m :
  keeps (ProviderRepository.UpsertProviderVersionShasums (map_order := map_order) id m).
Proof.
  unfold ProviderRepository.UpsertProviderVersionShasums.
  destruct (bool_decide _); [apply preserves_ret; typeclasses eauto|].
  apply along_ptx; [typeclasses eauto..|].
  apply preserves_bind; [typeclasses eauto | apply along_pquery; typeclasses eauto|].
  intros [u|e]; [apply keeps_upsert_shasums | apply preserves_ret; typeclasses eauto].
Qed.

Lemma insert_docs_schema id ds rows ids :
  id ∈ ids ->
  NoDup ((fun d => (pd_ProviderVersionID d, pd_UpstreamDocID d)) <$> rows) ->
  refs pd_ProviderVersionID rows ids ->
  let rows' := fold_left ProviderDocsRepository.insert_doc
                 (ProviderDocsRepository.of_version id <$> ds) rows in
  NoDup ((fun d => (pd_ProviderVersionID d, pd_UpstreamDocID d)) <$> rows') /\
  refs pd_ProviderVersionID rows' ids.
Proof.
  intros Hid. revert rows. induction ds as [|d ds IH]; intros rows Hn Hr; [done|]. cbn.
  set (x := ProviderDocsRepository.of_version id d).
  destruct (has (ProviderDocsRepository.same_doc x) rows) eqn:E;
    (assert (Hi : ProviderDocsRepository.insert_doc rows x =
       if has (ProviderDocsRepository.same_doc x) rows then rows else rows ++ [x]) by done);
    rewrite E in Hi; rewrite Hi; [by apply IH|]. apply IH; [|by apply refs_snoc].
  eapply keyed_snoc; [|exact E|done]. same_key.
Qed.

Lemma keeps_batches fuel id ds : keeps (ProviderDocsRepository.batches fuel id ds).
Proof.
  revert ds. induction fuel as [|fuel IH]; intros ds; cbn;
    [destruct ds; apply preserves_ret; typeclasses eauto|].
  destruct ds as [|d ds]; [apply preserves_ret; typeclasses eauto|].
  apply preserves_bind; [typeclasses eauto | |].
  2:{ intros [u|e]; [apply IH | apply preserves_ret; typeclasses eauto]. }
  apply along_psql; [typeclasses eauto..|]. intros t.
  destruct (negb _) eqn:Ev; [by intros ?|]. apply negb_false_iff, has_id in Ev.
  intros Hs. destruct t as [ta tb tc td te tg th ti tj tk tn], Hs; constructor; cbn -[take] in *; auto.
  all: by destruct (insert_docs_schema id (take ProviderDocsRepository.batchSize (d :: ds)) tg
                      (pv_ID <$> tc)).
Qed.

Lemma keeps_docs id ds : keeps (ProviderDocsRepository.BulkCreateProviderVersionDocs id ds).
Proof. apply keeps_batches. Qed.

Lemma keeps_delete_docs id : keeps (ProviderDocsRepository.DeleteProviderVersionDocs id).
Proof.
  apply along_pexec; [typeclasses eauto..|]. intros t Hs.
  destruct t as [ta tb tc td te tg th ti tj tk tn], Hs; constructor; cbn in *; auto with schema.
Qed.
End Operations.

(** ** Any sequence of operations *)

(** The calls of the repositories that change a table. *)
Inductive operation :=
| OpCreateConfig (c : MirrorConfiguration)
| OpUpdateConfig (c : MirrorConfiguration)
| OpDeleteConfig (id : uuid)
| OpUpdateSyncStatus (id : uuid) (status : string) (e : option string)
| OpResetStaleSyncs
| OpCreateSyncHistory (h : MirrorSyncHistory)
| OpUpdateSyncHistory (h : MirrorSyncHistory)
| OpCreateMirroredProvider (m : MirroredProvider)
| OpUpdateMirroredProvider (m : MirroredProvider)
| OpCreateMirroredVersion (m : MirroredProviderVersion)
| OpUpdateGPGStatus (id : uuid) (b : bool)
| OpRecordEvent (ev : VersionApprovalEvent)
| OpCreateProvider (p : Provider)
| OpUpdateProvider (p : Provider)
| OpDeleteProvider (id : uuid)
| OpCreateVersion (v : ProviderVersionRow)
| OpDeleteVersion (id : uuid)
| OpDeprecateVersion (id : uuid)
| OpUndeprecateVersion (id : uuid)
| OpUpdateVersionGPGKey (id : uuid) (key : string)
| OpUpdateSignatureStorage (id : uuid) (sumsKey sigKey : option string)
| OpCreatePlatform (p : ProviderPlatformRow)
| OpIncrementDownloadCount (id : uuid)
| OpDeletePlatform (id : uuid)
| OpUpsertShasums (id : uuid) (m : gmap string string)
| OpBulkCreateDocs (id : uuid) (ds : list ProviderVersionDoc)
| OpDeleteDocs (id : uuid).

Section Sequences.
Context {Y : Type} (map_order : forall A, list A -> list A).

Definition ignore {A} (c : prog (env (pm Y)) A) : prog (env (pm Y)) unit :=
  let! _r := c in ret tt.

Definition run_operation (o : operation) : prog (env (pm Y)) unit :=
  match o with
  | OpCreateConfig c => ignore (MirrorRepository.Create c)
  | OpUpdateConfig c => ignore (MirrorRepository.Update c)
  | OpDeleteConfig id => ignore (MirrorRepository.Delete id)
  | OpUpdateSyncStatus id s e => ignore (MirrorRepository.UpdateSyncStatus id s e)
  | OpResetStaleSyncs => ignore MirrorRepository.ResetStaleSyncs
  | OpCreateSyncHistory h => ignore (MirrorRepository.CreateSyncHistory h)
  | OpUpdateSyncHistory h => ignore (MirrorRepository.UpdateSyncHistory h)
  | OpCreateMirroredProvider m => ignore (MirrorRepository.CreateMirroredProvider m)
  | OpUpdateMirroredProvider m => ignore (MirrorRepository.UpdateMirroredProvider m)
  | OpCreateMirroredVersion m => ignore (MirrorRepository.CreateMirroredProviderVersion m)
  | OpUpdateGPGStatus id b => ignore (MirrorRepository.UpdateMirroredProviderVersionGPGStatus id b)
  | OpRecordEvent ev => ignore (RecordEvent ev)
  | OpCreateProvider p => ignore (ProviderRepository.CreateProvider p)
  | OpUpdateProvider p => ignore (ProviderRepository.UpdateProvider p)
  | OpDeleteProvider id => ignore (ProviderRepository.DeleteProvider id)
  | OpCreateVersion v => ignore (ProviderRepository.CreateVersion v)
  | OpDeleteVersion id => ignore (ProviderRepository.DeleteVersion id)
  | OpDeprecateVersion id => ignore (ProviderRepository.DeprecateVersion id)
  | OpUndeprecateVersion id => ignore (ProviderRepository.UndeprecateVersion id)
  | OpUpdateVersionGPGKey id k => ignore (ProviderRepository.UpdateVersionGPGKey id k)
  | OpUpdateSignatureStorage id a b =>
      ignore (ProviderRepository.UpdateVersionSignatureStorage id a b)
  | OpCreatePlatform p => ignore (ProviderRepository.CreatePlatform p)
  | OpIncrementDownloadCount id => ignore (ProviderRepository.IncrementDownloadCount id)
  | OpDeletePlatform id => ignore (ProviderRepository.DeletePlatform id)
  | OpUpsertShasums id m =>
      ignore (ProviderRepository.UpsertProviderVersionShasums (map_order := map_order) id m)
  | OpBulkCreateDocs id ds => ignore (ProviderDocsRepository.BulkCreateProviderVersionDocs id ds)
  | OpDeleteDocs id => ignore (ProviderDocsRepository.DeleteProviderVersionDocs id)
  end.

#[local] Instance any_preorder : PreOrder (fun _ _ : Y => True).
Proof. by split. Qed.

Lemma keeps_ignore {A} (c : prog (env (pm Y)) A) :
  preserves (on_st (pmoves keeps_schema (fun _ _ => True))) c ->
  preserves (on_st (pmoves keeps_schema (fun _ _ => True))) (ignore c).
Proof.
  intros Hc. apply preserves_bind; [typeclasses eauto | done|].
  intros a. apply preserves_ret. typeclasses eauto.
Qed.

Lemma keeps_operation o :
  preserves (on_st (pmoves keeps_schema (fun _ _ => True))) (run_operation o).
Proof.
  destruct o; apply keeps_ignore.
  - by apply keeps_create_config.
  - by apply keeps_update_config.
  - by apply keeps_delete_config.
  - by apply keeps_status.
  - by apply keeps_reset.
  - by apply keeps_create_run.
  - by apply keeps_update_run.
  - by apply keeps_create_mirrored.
  - by apply keeps_update_mirrored.
  - by apply keeps_create_tracking.
  - by apply keeps_tracking_gpg.
  - by apply keeps_event.
  - by apply keeps_create_provider.
  - by apply keeps_update_provider.
  - by apply keeps_delete_provider.
  - by apply keeps_create_version.
  - by apply keeps_delete_version.
  - by apply keeps_deprecate.
  - by apply keeps_undeprecate.
  - by apply keeps_gpg_key.
  - by apply keeps_signature_storage.
  - by apply keeps_create_platform.
  - by apply keeps_downloads.
  - by apply keeps_delete_platform.
  - by apply keeps_shasums.
  - by apply keeps_docs.
  - by apply keeps_delete_docs.
Qed.

(** So the tables the properties of the provider files assume to follow the schema do
    whenever they come of a sequence of repository calls, whichever statements or
    commits fail. *)
Lemma operations_keep_schema (ops : list operation) (w : env (pm Y)) :
  schema (ptab (st w)) -> schema (ptab (st (snd (for_each ops run_operation w)))).
Proof.
  intros Hs. apply (preserves_for_each (on_st (pmoves keeps_schema (fun _ _ => True))) ops
    run_operation keeps_operation w), Hs.
Qed.
End Sequences.

Definition empty_tables : pdb := PDB [] [] [] [] [] [] [] [] [] [] 1.

Definition demo_provider : Provider := {|
  pr_ID := 0; pr_OrganizationID := Some 7; pr_Namespace := "hashicorp"; pr_Type := "aws";
  pr_Description := None; pr_Source := None |}.
Definition demo_pversion (provider : uuid) : ProviderVersionRow := {|
  pv_ID := 0; pv_ProviderID := provider; pv_Version := "1.0.0"; pv_Protocols := ["5.0"];
  pv_GPGPublicKey := ""; pv_ShasumURL := ""; pv_ShasumSignatureURL := "";
  pv_ShasumStorageKey := None; pv_ShasumSignatureStorageKey := None; pv_Deprecated := false |}.

(** Two inserts, a duplicate that is refused, a deletion that cascades. *)
Definition demo_operations : list operation :=
  [OpCreateProvider demo_provider; OpCreateProvider demo_provider;
   OpCreateVersion (demo_pversion 1); OpUpsertShasums 2 {["a.zip" := "ab12"]};
   OpDeleteProvider 1].

Example demo_run :
  let run n := ptab (st (snd (for_each (take n demo_operations)
    (@run_operation unit (fun A l => l)) (quiet (PM empty_tables tt))))) in
  (length (providers (run 2)), length (provider_version_shasums (run 4)),
   length (provider_version_shasums (run 5))) = (1, 1, 0).
Proof. by vm_compute. Qed.
