(* ===== verification/ProvSafety.v ===== *)
(** * What a provider mirror run does to the registry

    Theorems about [ProvSync]: what reaches the storage backend and the platform
    table, what a run keeps of the operators' decisions, what a failed version
    leaves behind, how a gated version becomes visible, and how a run is
    recorded. *)

From S2P Require Import Prelude GoStrings SemVer VersionFilter AutoApprove Validation.
From S2P Require Import LocalStorage TfReleases Checksums TfMirrorRepo TfMirrorSync ReleasesKeys.
From S2P Require Import VersionApproval ProvRepo ProvSchema Upstream ProvSync.
From stdpp Require Import gmap.

#[local] Open Scope nat_scope.
#[local] Existing Instance uv_version.

(** ** Relations on the tables *)

(** A version row keeps everything but its signing key. *)
Definition same_version_row (v v' : ProviderVersionRow) : Prop :=
  pv_ID v' = pv_ID v /\ pv_ProviderID v' = pv_ProviderID v /\ pv_Version v' = pv_Version v /\
  pv_Protocols v' = pv_Protocols v /\ pv_Deprecated v' = pv_Deprecated v.

(** A tracking row keeps its place and its approval status. *)
Definition same_approval (m m' : MirroredProviderVersion) : Prop :=
  mpv_ID m' = mpv_ID m /\ mpv_MirroredProviderID m' = mpv_MirroredProviderID m /\
  mpv_UpstreamVersion m' = mpv_UpstreamVersion m /\
  mpv_ApprovalStatus m' = mpv_ApprovalStatus m.

#[export] Instance same_version_row_preorder : PreOrder same_version_row.
Proof. split; [by intros v | unfold same_version_row; intros a b c; intuition congruence]. Qed.
#[export] Instance same_approval_preorder : PreOrder same_approval.
Proof. split; [by intros v | unfold same_approval; intros a b c; intuition congruence]. Qed.

Definition anything {R} (_ : R) : Prop := True.

Lemma grows_refl {A} (R : A -> A -> Prop) N `{!PreOrder R} l : grows R N l l.
Proof.
  exists l, []. rewrite app_nil_r. split; [done|]. split; [|constructor].
  apply Forall_Forall2_diag, Forall_true. intros x. reflexivity.
Qed.

Lemma grows_trans {A} (R : A -> A -> Prop) (N : A -> Prop) `{!PreOrder R} l1 l2 l3 :
  (forall x y, R x y -> N x -> N y) -> grows R N l1 l2 -> grows R N l2 l3 -> grows R N l1 l3.
Proof. intros HN. by apply (grows_preorder R N HN). Qed.

(** What a run, and every part of it, does to the tables; [good] is what holds of the
    platform rows it adds. *)
Record run_step (good : ProviderPlatformRow -> Prop) (t t' : pdb) : Prop := {
  rs_next : pnext t <= pnext t';
  rs_configs : mirror_configurations t' = mirror_configurations t;
  rs_runs : mirror_sync_history t' = mirror_sync_history t;
  rs_providers : grows eq anything (providers t) (providers t');
  rs_versions : grows same_version_row anything (provider_versions t) (provider_versions t');
  rs_platforms : grows eq good (provider_platforms t) (provider_platforms t');
  rs_tracking : grows same_approval anything (mirrored_versions t) (mirrored_versions t');
}.

#[export] Instance run_step_preorder good : PreOrder (run_step good).
Proof.
  split.
  - intros t. constructor; try done; apply grows_refl, _.
  - intros t1 t2 t3 [A1 B1 C1 D1 E1 F1 G1] [A2 B2 C2 D2 E2 F2 G2].
    constructor; [lia | congruence | congruence | | | |];
      (eapply grows_trans; [typeclasses eauto | | eassumption..]); try done. by intros x y ->.
Qed.

Definition runs (good : ProviderPlatformRow -> Prop) (t t' : pdb) : Prop :=
  schema t -> schema t' /\ run_step good t t'.

#[export] Instance runs_preorder good : PreOrder (runs good).
Proof.
  split; [intros t Hs; split; [done | reflexivity]|].
  intros t1 t2 t3 H12 H23 Hs. destruct (H12 Hs) as [Hs2 ?]. destruct (H23 Hs2).
  split; [done | by etransitivity].
Qed.

(** Rows of other versions. *)
Definition others {R} (f : R -> uuid) (vid : uuid) (rows : list R) : list R :=
  List.filter (fun r => negb (f r =? vid)) rows.

(** Work on one version: everything else stays. *)
Record builds (good : ProviderPlatformRow -> Prop) (vid : uuid) (t t' : pdb) : Prop := {
  b_next : pnext t <= pnext t';
  b_configs : mirror_configurations t' = mirror_configurations t;
  b_providers : providers t' = providers t;
  b_versions : provider_versions t' = provider_versions t;
  b_platforms : exists new, provider_platforms t' = provider_platforms t ++ new /\
                  Forall (fun p => pp_ProviderVersionID p = vid /\ good p) new;
  b_shasums : others ps_ProviderVersionID vid (provider_version_shasums t') =
              others ps_ProviderVersionID vid (provider_version_shasums t);
  b_docs : others pd_ProviderVersionID vid (provider_version_docs t') =
           others pd_ProviderVersionID vid (provider_version_docs t);
  b_mirrored : mirrored_providers t' = mirrored_providers t;
  b_tracking : mirrored_versions t' = mirrored_versions t;
  b_runs : mirror_sync_history t' = mirror_sync_history t;
  b_events : approval_events t' = approval_events t;
}.

Definition building good vid (t t' : pdb) : Prop := keeps_schema t t' /\ builds good vid t t'.

#[export] Instance builds_preorder good vid : PreOrder (builds good vid).
Proof.
  split.
  - intros t. constructor; try done. exists []. by rewrite app_nil_r.
  - intros t1 t2 t3 [A1 B1 C1 D1 (n1 & E1 & F1) G1 H1 I1 J1 L1 M1]
      [A2 B2 C2 D2 (n2 & E2 & F2) G2 H2 I2 J2 L2 M2].
    constructor; try congruence; [lia|].
    exists (n1 ++ n2). rewrite E2, E1, app_assoc. split; [done|]. by apply Forall_app.
Qed.

#[export] Instance building_preorder good vid : PreOrder (building good vid).
Proof.
  split; [intros t; split; reflexivity|].
  intros t1 t2 t3 [K1 B1] [K2 B2]. split; by etransitivity.
Qed.

Lemma building_runs good vid t t' : building good vid t t' -> runs good t t'.
Proof.
  intros [Hk Hb] Hs. split; [by apply Hk|]. destruct Hb as [? ? Ep Ev (new & El & Hn) ? ? ? Et ? ?].
  constructor; try done.
  - rewrite Ep. apply grows_refl, _.
  - rewrite Ev. apply grows_refl, _.
  - rewrite El. apply grows_app; [typeclasses eauto|]. eapply Forall_impl; [exact Hn | by intros p []].
  - rewrite Et. apply grows_refl, _.
Qed.

(** *** The life of a version that ends in its removal *)

Lemma filter_all {A} (f : A -> bool) l : (forall x, In x l -> f x = true) -> List.filter f l = l.
Proof. intros Hf. by apply forallb_filter_id, List.forallb_forall. Qed.

Lemma filter_none {A} (f : A -> bool) l : (forall x, In x l -> f x = false) -> List.filter f l = [].
Proof.
  intros Hf. destruct (List.filter f l) as [|x l'] eqn:E; [done|].
  assert (Hin : In x (List.filter f l)) by (rewrite E; by left).
  apply filter_In in Hin as [Hin Hx]. by rewrite (Hf x Hin) in Hx.
Qed.

Lemma refs_below {R} (f : R -> uuid) rows ids n r :
  refs f rows ids -> below n ids -> In r rows -> f r < n.
Proof.
  unfold refs, below. rewrite !Forall_forall. intros Hr Hb Hin. apply Hb, Hr. by apply list_elem_of_In.
Qed.

Lemma others_fresh {R} (f : R -> uuid) rows ids n :
  refs f rows ids -> below n ids -> others f n rows = rows.
Proof.
  intros Hr Hb. apply filter_all. intros r Hin. pose proof (refs_below _ _ _ _ _ Hr Hb Hin).
  apply negb_true_iff, Nat.eqb_neq. lia.
Qed.

Lemma has_singleton i vid : has (Nat.eqb i) [vid] = (i =? vid).
Proof. unfold has. cbn. by rewrite orb_false_r. Qed.

(** The tables but for the counter. *)
Definition same_tables (t t' : pdb) : Prop :=
  let '(PDB a b c d e g h i j k _) := t in
  let '(PDB a' b' c' d' e' g' h' i' j' k' _) := t' in
  a = a' /\ b = b' /\ c = c' /\ d = d' /\ e = e' /\ g = g' /\ h = h' /\ i = i' /\ j = j' /\ k = k'.

Lemma removed_version good v t t2 :
  schema t ->
  builds good (pnext t)
    (on_pversions (fun rows => rows ++ [ProviderRepository.with_version_id (pnext t) v]) (bump t)) t2 ->
  same_tables t (drop_versions (fun v => pv_ID v =? pnext t) t2).
Proof.
  intros Hs Hb. set (vid := pnext t) in *.
  assert (Hvs : forall v, In v (provider_versions t) -> (pv_ID v =? vid) = false).
  { intros v' Hin. apply Nat.eqb_neq. pose proof (version_fresh _ Hs) as Hf.
    unfold below in Hf. rewrite Forall_fmap, List.Forall_forall in Hf. specialize (Hf v' Hin).
    cbn in Hf. unfold vid. lia. }
  assert (Htr : forall m, In m (mirrored_versions t) -> (mpv_ProviderVersionID m =? vid) = false).
  { intros m Hin. apply Nat.eqb_neq.
    pose proof (refs_below _ _ _ _ _ (tracking_versions _ Hs) (version_fresh _ Hs) Hin).
    unfold vid. lia. }
  assert (Hkeep : forall R (f : R -> uuid) rows,
    List.filter (fun r => negb (has (Nat.eqb (f r)) [vid])) rows = others f vid rows).
  { intros R f rows. apply List.filter_ext. intros r. by rewrite has_singleton. }
  pose proof (others_fresh pp_ProviderVersionID _ _ vid (platform_refs _ Hs) (version_fresh _ Hs)) as Hp0.
  pose proof (others_fresh ps_ProviderVersionID _ _ vid (shasum_refs _ Hs) (version_fresh _ Hs)) as Hs0.
  pose proof (others_fresh pd_ProviderVersionID _ _ vid (doc_refs _ Hs) (version_fresh _ Hs)) as Hd0.
  clear Hs. clearbody vid.
  destruct Hb as [_ Hc Hp Hv (new & Hl & Hn) Hsh Hd Hm Ht Hr He].
  destruct t as [ua ub uc ud ue ug uh ui uj uk un], t2 as [ta tb tc td te tg th ti tj tk tn].
  cbn in Hc, Hp, Hv, Hl, Hsh, Hd, Hm, Ht, Hr, He, Hvs, Htr, Hp0, Hs0, Hd0. subst.
  assert (Hgone : List.filter (fun v => pv_ID v =? vid)
                    (uc ++ [ProviderRepository.with_version_id vid v])
                  = [ProviderRepository.with_version_id vid v]).
  { rewrite List.filter_app, (filter_none _ _ Hvs). cbn. by rewrite Nat.eqb_refl. }
  unfold drop_versions. cbn [provider_versions]. rewrite Hgone.
  cbn [fmap list_fmap ProviderRepository.with_version_id pv_ID].
  unfold drop_tracking. cbn [mirrored_versions].
  rewrite (filter_none (fun m => negb (negb (has (Nat.eqb (mpv_ProviderVersionID m)) [vid])))
             ui) by (intros m Hin; rewrite negb_involutive, has_singleton; by apply Htr).
  cbn [fmap list_fmap on_pversions on_pplatforms on_shasums on_docs on_tracking on_events same_tables].
  rewrite !Hkeep. unfold others in *. rewrite Hsh, Hd, Hs0, Hd0, !List.filter_app, Hp0.
  rewrite (filter_none _ new), app_nil_r
    by (intros p Hin; rewrite List.Forall_forall in Hn; destruct (Hn p Hin) as [-> _];
        by rewrite Nat.eqb_refl).
  rewrite (filter_all _ uc) by (intros x Hx; by rewrite Hvs). cbn. rewrite Nat.eqb_refl, app_nil_r.
  rewrite (filter_all _ ui)
    by (intros m Hin; rewrite negb_involutive, orb_false_r; by rewrite Htr).
  rewrite (filter_all _ uk) by (intros ev _; by destruct (ev_MirroredProviderVersionID ev)).
  done.
Qed.

Lemma along_both {Y A} (T1 T2 : pdb -> pdb -> Prop) (O : Y -> Y -> Prop)
  (c : prog (env (pm Y)) A) :
  preserves (on_st (pmoves T1 O)) c -> preserves (on_st (pmoves T2 O)) c ->
  preserves (on_st (pmoves (fun t t' => T1 t t' /\ T2 t t') O)) c.
Proof. intros H1 H2 w. destruct (H1 w), (H2 w). by split. Qed.

Lemma along_weaken {Y A} (T T' : pdb -> pdb -> Prop) (O : Y -> Y -> Prop)
  (c : prog (env (pm Y)) A) :
  (forall t t', T t t' -> T' t t') ->
  preserves (on_st (pmoves T O)) c -> preserves (on_st (pmoves T' O)) c.
Proof. intros HT Hc w. destruct (Hc w). split; [by apply HT | done]. Qed.

(** ** When no statement fails *)

(** No fault to come stays so. *)
Definition calm {S} (w w' : env S) : Prop := faults w = [] -> faults w' = [].

#[export] Instance calm_preorder {S} : PreOrder (@calm S).
Proof. split; [by intros w Ha | intros a b c Hab Hbc Ha; auto]. Qed.

Section Calm.
Context {Y : Type}.
#[local] Abbreviation still := (preserves (@calm (pm Y))).

Lemma calm_psql {A} op (f : pdb -> res A * pdb) : still (psql op f).
Proof. intros w Hf. unfold psql, db. by rewrite Hf. Qed.

Lemma calm_out {A} (c : prog Y A) : still (out c).
Proof. by intros w Hf. Qed.

Lemma calm_uuid : still new_uuid.
Proof. by intros w Hf. Qed.

Lemma calm_now : still time_now.
Proof. by intros w Hf. Qed.

Lemma calm_ptx {A} (body : prog (env (pm Y)) (res A)) : still body -> still (ptx body).
Proof.
  intros Hb. apply preserves_bind; [typeclasses eauto | apply calm_psql|]. intros [t|e]; [|by intros ? ?].
  apply preserves_bind; [typeclasses eauto | done|]. intros [a|e]; [|by intros ? ?].
  apply preserves_bind; [typeclasses eauto | apply calm_psql|]. intros [u|e]; by intros ? ?.
Qed.

Context `{OpenPGP} `{!OpenPGPEntities} `{MapRange} `{ReleaseKeys}.

Lemma calm_parse armored : still (ParseReleasesKey armored).
Proof.
  unfold ParseReleasesKey. destruct (ReadArmoredKeyRing armored); [|by intros ? ?].
  destruct (entities _) as [|e ?]; [by intros ? ?|]. destruct (PrimaryKey e); by intros ? ?.
Qed.

Lemma calm_resolve armored : still (ResolveExpiredGPGKey armored).
Proof. apply preserves_bind; [typeclasses eauto | apply calm_parse | by intros ? ? ?]. Qed.

Lemma calm_usable armored : still (HasUsableGPGKey armored).
Proof. apply preserves_bind; [typeclasses eauto | apply calm_parse | by intros ? ? ?]. Qed.
End Calm.

Ltac calmly :=
  repeat first
    [ apply preserves_ret; typeclasses eauto
    | apply calm_psql | apply calm_out | apply calm_uuid | apply calm_now | apply calm_resolve | apply calm_usable
    | apply calm_ptx
    | apply preserves_bind; [typeclasses eauto | | intros ?]
    | match goal with |- preserves _ (match ?x with _ => _ end) => destruct x end
    | progress cbv zeta ].

(** What a call returns in some world of the outside. *)
Definition served {Y A} (c : prog Y A) (a : A) : Prop := exists y, fst (c y) = a.

(** How far the outside moves in a run that stores [allowed] objects only: along [O],
    whatever is asked of the upstream, the temporary file and the organization
    store, and along [O] by the upload of an allowed object. *)
Class RunFrame (Y : Type) `{Storage Y} `{UpstreamRegistryClient Y} `{TempFiles Y}
  `{Organizations Y} (allowed : string -> string -> Prop) (O : Y -> Y -> Prop) : Prop := {
  frame_preorder :: PreOrder O;
  frame_discover b y : O y (snd (DiscoverServices b y));
  frame_versions b n p y : O y (snd (ListProviderVersions b n p y));
  frame_package b n p v os arch y : O y (snd (GetProviderPackage b n p v os arch y));
  frame_file b u y : O y (snd (DownloadFile b u y));
  frame_stream b u y : O y (snd (DownloadFileStream b u y));
  frame_docs b n p v y : O y (snd (GetProviderDocIndexByVersion b n p v y));
  frame_create_temp y : O y (snd (CreateTemp y));
  frame_copy d y : O y (snd (CopyToTemp d y));
  frame_seek y : O y (snd (SeekStart y));
  frame_org y : O y (snd (GetDefaultOrganization y));
  frame_upload k d y : allowed k d -> O y (snd (storage_Upload k d y));
}.

(** A successful upload reports the path it was given. *)
Class UploadPath (Y : Type) `{Storage Y} : Prop :=
  upload_path k d y r : fst (storage_Upload k d y) = Ok r -> ur_Path r = k.

Section Safety.
Context {Y : Type} `{GoSort} `{GoVersion} `{RulesCodec} `{StringsCodec} `{MapRange}.
Context `{SY : Storage Y} `{UP : !UploadPath Y}.
Context `{UR : UpstreamRegistryClient Y} `{TF : TempFiles Y} `{OG : Organizations Y}.
Context `{Sha256} `{Sha256Base64} `{ZipReader} `{OpenPGP} `{!OpenPGPEntities} `{ReleaseKeys}.
Context `{SyncDetailsCodec}.
Context (storageBackendName : string) (docsRepo approvalRepo : bool).
#[local] Abbreviation P := (prog (env (pm Y))).

(** ** What may be stored *)

(** What the fetch of a checksum file gives: its entries, and none when it fails. *)
Definition sums_of (answer : res string) : gmap string string :=
  match answer with Ok content => parseSHASUMFile content | Err _ => ∅ end.

(** The checksums a run uses for a version: the upstream's answer to the fetch of the
    checksum file that the descriptor of the version's first platform names; none
    when it answered no such descriptor. *)
Definition sums_served (base namespace providerName : string) (v : ProviderVersion)
  (m : gmap string string) : Prop :=
  exists first rest descriptor,
    uv_Platforms v = first :: rest /\
    served (GetProviderPackage base namespace providerName (uv_Version v) (up_OS first) (up_Arch first))
      descriptor /\
    match descriptor with
    | Ok pkg => exists answer, served (DownloadFile base (pkg_SHASumsURL pkg)) answer /\ m = sums_of answer
    | Err _ => m = ∅
    end.

(** The digest is the descriptor's, or, when the descriptor has none, the one the
    checksums name for the file, if they name one. *)
Definition digest_agrees (m : gmap string string) (pkg : ProviderPackageResponse) (digest : string)
  : Prop :=
  (pkg_SHA256Sum pkg <> "" -> digest = pkg_SHA256Sum pkg) /\
  (pkg_SHA256Sum pkg = "" -> forall d, m !! pkg_Filename pkg = Some d -> d <> "" -> digest = d).

(** A listed, selected platform of a listed, selected version. *)
Definition offered (config : MirrorConfiguration) (namespace providerName : string)
  (v : ProviderVersion) (p : upstream_platform) : Prop :=
  (exists vs, served (ListProviderVersions (mc_UpstreamRegistryURL config) namespace providerName)
                (Ok vs) /\
              In v (ProviderFilter.FilterVersions vs (mc_VersionFilter config))) /\
  In p (filterPlatforms (uv_Platforms v) (mc_PlatformFilter config)).

(** [data] was served as the binary of an offered platform, has the expected digest,
    and [path] is the one the run makes for it. *)
Inductive checked (config : MirrorConfiguration) (namespace providerName : string)
  (p : upstream_platform) (path data : string) : Prop :=
| Checked v pkg m :
    offered config namespace providerName v p ->
    served (GetProviderPackage (mc_UpstreamRegistryURL config) namespace providerName
              (uv_Version v) (up_OS p) (up_Arch p)) (Ok pkg) ->
    served (DownloadFileStream (mc_UpstreamRegistryURL config) (pkg_DownloadURL pkg))
      (Ok (Ok data)) ->
    sums_served (mc_UpstreamRegistryURL config) namespace providerName v m ->
    digest_agrees m pkg (sha256_hex data) ->
    ValidateStorageFilename (pkg_Filename pkg) = None ->
    path = provider_path namespace providerName (uv_Version v) p (pkg_Filename pkg) ->
    checked config namespace providerName p path data.

Context (config : MirrorConfiguration).

(** What a run may write to the storage backend, and the platform rows it may add. *)
Definition published (path data : string) : Prop :=
  exists namespace providerName p, checked config namespace providerName p path data.

Definition recorded (row : ProviderPlatformRow) : Prop :=
  exists namespace providerName p data,
    checked config namespace providerName p (pp_StoragePath row) data /\
    pp_OS row = up_OS p /\ pp_Arch row = up_Arch p /\
    pp_Shasum row = sha256_hex data /\ pp_SizeBytes row = Z.of_nat (String.length data) /\
    pp_StorageBackend row = storageBackendName.

Context (outside : Y -> Y -> Prop) `{FR : !RunFrame Y published outside}.
#[local] Abbreviation moving T := (on_st (pmoves T outside)).
#[local] Abbreviation step := (moving (runs recorded)).
#[local] Abbreviation work vid := (moving (building recorded vid)).

(** ** Calls to the outside *)

Lemma out_along {A} (T : pdb -> pdb -> Prop) `{!PreOrder T} (c : prog Y A) :
  (forall y, outside y (snd (c y))) -> preserves (moving T) (out c).
Proof. intros Hc. apply preserves_state. intros s. split; cbn; [reflexivity | apply Hc]. Qed.

Lemma out_returns {A} (c : prog Y A) : returns (served c) (out c).
Proof. intros w. by exists (pext (st w)). Qed.

Lemma upload_along (T : pdb -> pdb -> Prop) `{!PreOrder T} path data :
  published path data -> preserves (moving T) (out (storage_Upload path data)).
Proof. intros Hp. apply out_along; [done|]. intros y. by apply frame_upload. Qed.

Lemma moving_now T `{!PreOrder T} : preserves (moving T) (@time_now (pm Y)).
Proof. apply preserves_now. typeclasses eauto. Qed.

Lemma along_resolve T `{!PreOrder T} armored :
  preserves (moving T) (ResolveExpiredGPGKey (S := pm Y) armored).
Proof.
  intros w. unfold ResolveExpiredGPGKey, bind, ret. cbn [snd].
  pose proof (parse_spec armored w) as Hp. destruct (fst (ParseReleasesKey armored w)).
  destruct Hp as [Hs _]. unfold on_st. rewrite Hs. reflexivity.
Qed.

Lemma along_usable T `{!PreOrder T} armored :
  preserves (moving T) (HasUsableGPGKey (S := pm Y) armored).
Proof.
  intros w. unfold HasUsableGPGKey, bind, ret. cbn [snd].
  pose proof (parse_spec armored w) as Hp. destruct (fst (ParseReleasesKey armored w)).
  destruct Hp as [Hs _]. unfold on_st. rewrite Hs. reflexivity.
Qed.

(** Calls that leave the tables and the objects alone. *)
Ltac quietly :=
  first
    [ apply preserves_ret; typeclasses eauto
    | apply moving_now; typeclasses eauto
    | apply along_resolve; typeclasses eauto
    | apply along_usable; typeclasses eauto
    | apply along_pquery; typeclasses eauto
    | apply out_along; [typeclasses eauto | intros ?;
        first [apply frame_docs | apply frame_package | apply frame_file | apply frame_stream
              | apply frame_versions | apply frame_create_temp | apply frame_copy
              | apply frame_seek | apply frame_org | apply frame_discover]] ].
Ltac then_ := apply preserves_bind; [typeclasses eauto | try quietly | intros ?; try quietly].
(** The same, keeping what the call returned. *)
Ltac then_served H :=
  eapply preserves_bind_ret; [typeclasses eauto | try quietly | apply out_returns | intros ? H].
Ltac walk :=
  repeat first
    [ quietly | then_
    | match goal with |- preserves _ (match ?x with _ => _ end) => destruct x end ].

(** ** Work on one version *)

Lemma work_statement vid {A} (c : prog (env (pm Y)) A) :
  preserves (moving keeps_schema) c -> preserves (moving (builds recorded vid)) c ->
  preserves (work vid) c.
Proof. intros Hk Hb w. destruct (Hk w), (Hb w). by split. Qed.

Lemma recorded_with_id id row :
  recorded (ProviderRepository.with_platform_id id row) <-> recorded row.
Proof. done. Qed.

Lemma work_platform vid row :
  pp_ProviderVersionID row = vid -> recorded row ->
  preserves (work vid) (ProviderRepository.CreatePlatform row).
Proof.
  intros Hv Hr. apply work_statement; [apply keeps_create_platform; typeclasses eauto|].
  apply along_pinsert; [typeclasses eauto..|]. intros [ta tb tc td te tg th ti tj tk tn] _.
  constructor; cbn; try done; [lia|]. eexists. split; [done|]. by apply Forall_singleton.
Qed.

Lemma others_update {R} (f : R -> uuid) vid cond row (rows : list R) :
  (forall r, cond r = true -> f r = vid) -> f row = vid ->
  others f vid (update_rows cond (fun _ => row) rows) = others f vid rows.
Proof.
  intros Hc Hr. unfold others, update_rows. induction rows as [|r rows IH]; [done|]. cbn.
  destruct (cond r) eqn:E; cbn; rewrite IH; [|done].
  by rewrite Hr, (Hc r E), !Nat.eqb_refl.
Qed.

Lemma others_snoc {R} (f : R -> uuid) vid row (rows : list R) :
  f row = vid -> others f vid (rows ++ [row]) = others f vid rows.
Proof.
  intros Hr. unfold others. rewrite List.filter_app. cbn. by rewrite Hr, Nat.eqb_refl, app_nil_r.
Qed.

Lemma builds_shasum vid file hash :
  preserves (moving (builds recorded vid)) (ProviderRepository.upsert_shasum vid file hash).
Proof.
  apply along_psql; [typeclasses eauto..|]. intros [ta tb tc td te tg th ti tj tk tn].
  destruct (negb _); [reflexivity|]. cbn [provider_version_shasums].
  destruct (has _ te); constructor; cbn; try done; try (by exists []; rewrite app_nil_r).
  - apply others_update; [|done]. intros r Hr. unfold ProviderRepository.is_shasum in Hr. bools.
    by apply Nat.eqb_eq.
  - by apply others_snoc.
Qed.

Lemma builds_shasums vid es :
  preserves (moving (builds recorded vid)) (ProviderRepository.upsert_shasums vid es).
Proof.
  induction es as [|[f h] es IH]; cbn; [apply preserves_ret; typeclasses eauto|].
  apply preserves_bind; [typeclasses eauto | apply builds_shasum|].
  intros [u|e]; [exact IH | apply preserves_ret; typeclasses eauto].
Qed.

Lemma work_shasums vid m : preserves (work vid) (store_shasums vid m).
Proof.
  unfold store_shasums. destruct (bool_decide _); [apply preserves_ret; typeclasses eauto|].
  apply preserves_bind; [typeclasses eauto | | intros r; apply preserves_ret; typeclasses eauto].
  apply work_statement; [apply keeps_shasums; typeclasses eauto|].
  unfold ProviderRepository.UpsertProviderVersionShasums.
  destruct (bool_decide _); [apply preserves_ret; typeclasses eauto|].
  apply along_ptx; [typeclasses eauto..|].
  apply preserves_bind; [typeclasses eauto | apply along_pquery; typeclasses eauto|].
  intros [u|e]; [apply builds_shasums | apply preserves_ret; typeclasses eauto].
Qed.

Lemma others_docs vid ds rows :
  others pd_ProviderVersionID vid
    (fold_left ProviderDocsRepository.insert_doc (ProviderDocsRepository.of_version vid <$> ds) rows)
  = others pd_ProviderVersionID vid rows.
Proof.
  revert rows. induction ds as [|d ds IH]; intros rows; [done|]. cbn [fmap list_fmap fold_left].
  rewrite IH. unfold ProviderDocsRepository.insert_doc. destruct (has _ _); [done|].
  by apply others_snoc.
Qed.

Lemma builds_batches fuel vid ds :
  preserves (moving (builds recorded vid)) (ProviderDocsRepository.batches fuel vid ds).
Proof.
  revert ds. induction fuel as [|fuel IH]; intros ds; cbn [ProviderDocsRepository.batches];
    [destruct ds; apply preserves_ret; typeclasses eauto|].
  destruct ds as [|d ds]; [apply preserves_ret; typeclasses eauto|].
  apply preserves_bind; [typeclasses eauto | |].
  2:{ intros [u|e]; [apply IH | apply preserves_ret; typeclasses eauto]. }
  apply along_psql; [typeclasses eauto..|]. intros [ta tb tc td te tg th ti tj tk tn].
  destruct (negb _); [reflexivity|].
  constructor; cbn -[take]; try done; try (by exists []; rewrite app_nil_r). apply others_docs.
Qed.

Lemma work_docs vid namespace providerName version :
  preserves (work vid) (store_docs (mc_UpstreamRegistryURL config) vid namespace providerName version).
Proof.
  then_. destruct a as [[|d ds]|e]; try quietly. then_.
  apply work_statement; [apply keeps_docs; typeclasses eauto | apply builds_batches].
Qed.

Lemma recorded_row vid namespace providerName p filename path data :
  checked config namespace providerName p path data ->
  recorded (platform_row storageBackendName vid p filename path data).
Proof. intros Hc. by exists namespace, providerName, p, data. Qed.

Lemma work_store vid namespace providerName v p pkg m data :
  (ValidateStorageFilename (pkg_Filename pkg) = None -> digest_agrees m pkg (sha256_hex data) ->
   checked config namespace providerName p
     (provider_path namespace providerName (uv_Version v) p (pkg_Filename pkg)) data) ->
  preserves (work vid) (store_platform storageBackendName vid namespace providerName (uv_Version v)
                          p pkg m data).
Proof.
  intros Hc. unfold store_platform.
  destruct (_ && _) eqn:Ed; [quietly|].
  assert (Hd : digest_agrees m pkg (sha256_hex data)).
  { unfold digest_agrees. apply andb_false_iff in Ed. unfold expected_checksum in Ed.
    destruct (String.eqb_spec (pkg_SHA256Sum pkg) "") as [E|E]; (split; [intros Hn | intros He]); try done.
    - intros d Hl Hne. rewrite Hl in Ed. cbn [default] in Ed. by destruct Ed as [Ed|Ed]; bools.
    - by destruct Ed as [Ed|Ed]; bools. }
  destruct (ValidateStorageFilename _); [quietly|]. specialize (Hc eq_refl Hd).
  then_. destruct a as [u|e]; [|quietly].
  set (path := provider_path _ _ _ _ _) in *.
  apply (preserves_bind_ret _ (fun r => forall u, r = Ok u -> ur_Path u = path)).
  - apply upload_along; [typeclasses eauto|]. by exists namespace, providerName, p.
  - intros w r Hr. exact (upload_path path data (pext (st w)) r Hr).
  - intros [r|e] Hr; [|quietly]. then_; [|by destruct a; quietly].
    apply work_platform; [done|]. rewrite (Hr r eq_refl). by eapply recorded_row.
Qed.

Lemma work_binary vid namespace providerName v p m :
  offered config namespace providerName v p ->
  sums_served (mc_UpstreamRegistryURL config) namespace providerName v m ->
  preserves (work vid) (syncPlatformBinary storageBackendName (mc_UpstreamRegistryURL config) vid
                          namespace providerName (uv_Version v) p m).
Proof.
  intros Ho Hm. unfold syncPlatformBinary.
  then_served Hpkg. destruct a as [pkg|e]; [|quietly].
  then_served Hs. destruct a as [body|e]; [|quietly].
  then_. destruct a as [u|e]; [|quietly].
  then_; [by destruct body; quietly|].
  destruct body as [data|e], a as [u'|e']; try quietly.
  apply work_store. intros Hf Hd. by econstructor.
Qed.

Lemma preserves_fold_in {W A B} (R : W -> W -> Prop) `{!PreOrder R} (f : B -> A -> prog W B) xs b :
  (forall b x, In x xs -> preserves R (f b x)) -> preserves R (fold_prog f b xs).
Proof.
  revert b. induction xs as [|x xs IH]; intros b Hf; cbn; [by apply preserves_ret|].
  apply preserves_bind; [done | apply Hf; by left|]. intros b'. apply IH. intros. apply Hf. by right.
Qed.

Lemma work_downloads vid namespace providerName v ps m :
  (forall p, In p ps -> offered config namespace providerName v p) ->
  sums_served (mc_UpstreamRegistryURL config) namespace providerName v m ->
  preserves (work vid) (download_platforms storageBackendName (mc_UpstreamRegistryURL config) vid
                          namespace providerName (uv_Version v) m ps).
Proof.
  intros Ho Hm. apply preserves_fold_in; [typeclasses eauto|]. intros n p Hp. then_.
  apply work_binary; auto.
Qed.

(** ** The whole run *)

Lemma step_statement {A} (c : prog (env (pm Y)) A) :
  preserves (moving keeps_schema) c -> preserves (moving (run_step recorded)) c ->
  preserves step c.
Proof. intros Hk Hr w. destruct (Hk w), (Hr w). split; [by split; auto | done]. Qed.

Lemma step_work vid {A} (c : prog (env (pm Y)) A) : preserves (work vid) c -> preserves step c.
Proof. apply along_weaken. intros t t'. apply building_runs. Qed.

Ltac same_rows := constructor; cbn; auto with arith; try (apply grows_refl; typeclasses eauto).

Lemma grows_update {A} (R : A -> A -> Prop) N `{!PreOrder R} cond upd (rows : list A) :
  (forall r, R r (upd r)) -> grows R N rows (update_rows cond upd rows).
Proof.
  intros Hu. unfold update_rows. apply grows_map. intros r. destruct (cond r); [done | reflexivity].
Qed.

Lemma step_uuid : preserves step new_uuid.
Proof.
  apply step_statement; [apply keeps_uuid; typeclasses eauto|].
  apply along_uuid; [typeclasses eauto..|]. intros [ta tb tc td te tg th ti tj tk tn]. same_rows.
Qed.

Lemma step_tracking m : preserves step (MirrorRepository.CreateMirroredProviderVersion m).
Proof.
  apply step_statement; [apply keeps_create_tracking; typeclasses eauto|].
  apply along_psql; [typeclasses eauto..|]. intros [ta tb tc td te tg th ti tj tk tn].
  cbn [mirrored_versions mirrored_providers provider_versions].
  destruct (has _ ti); [reflexivity|]. destruct (_ || _); [reflexivity|].
  destruct (has _ ti); same_rows.
  - apply grows_update; [typeclasses eauto|]. by intros r.
  - apply grows_app; [typeclasses eauto|]. by apply Forall_singleton.
Qed.

Lemma step_gpg_status id b :
  preserves step (MirrorRepository.UpdateMirroredProviderVersionGPGStatus id b).
Proof.
  apply step_statement; [apply keeps_tracking_gpg; typeclasses eauto|].
  apply along_pexec; [typeclasses eauto..|]. intros [ta tb tc td te tg th ti tj tk tn]. same_rows.
  apply grows_update; [typeclasses eauto|]. by intros r.
Qed.

Lemma step_event ev : preserves step (RecordEvent ev).
Proof.
  apply step_statement; [apply keeps_event; typeclasses eauto|].
  apply along_psql; [typeclasses eauto..|]. intros [ta tb tc td te tg th ti tj tk tn].
  destruct (negb _); [reflexivity|]. destruct (negb _); [reflexivity|]. same_rows.
Qed.

Lemma step_gpg_key id key : preserves step (ProviderRepository.UpdateVersionGPGKey id key).
Proof.
  apply step_statement; [apply keeps_gpg_key; typeclasses eauto|].
  apply along_pexec; [typeclasses eauto..|]. intros [ta tb tc td te tg th ti tj tk tn]. same_rows.
  apply grows_update; [typeclasses eauto|]. by intros r.
Qed.

Lemma step_provider p : preserves step (ProviderRepository.CreateProvider p).
Proof.
  apply step_statement; [apply keeps_create_provider; typeclasses eauto|].
  apply preserves_bind; [typeclasses eauto | |].
  2:{ intros [u|e]; apply preserves_ret; typeclasses eauto. }
  apply along_pinsert; [typeclasses eauto..|]. intros [ta tb tc td te tg th ti tj tk tn] _. same_rows.
  apply grows_app; [typeclasses eauto|]. by apply Forall_singleton.
Qed.

Lemma step_mirrored m : preserves step (MirrorRepository.CreateMirroredProvider m).
Proof.
  apply step_statement; [apply keeps_create_mirrored; typeclasses eauto|].
  apply along_psql; [typeclasses eauto..|]. intros [ta tb tc td te tg th ti tj tk tn].
  destruct (has _ _); [reflexivity|]. destruct (_ || _); [reflexivity|]. same_rows.
Qed.

Lemma step_update_mirrored m : preserves step (MirrorRepository.UpdateMirroredProvider m).
Proof.
  apply step_statement; [apply keeps_update_mirrored; typeclasses eauto|].
  apply along_pexec; [typeclasses eauto..|]. intros [ta tb tc td te tg th ti tj tk tn]. same_rows.
Qed.

#[local] Hint Resolve step_uuid step_tracking step_gpg_status step_event step_gpg_key step_provider
  step_mirrored step_update_mirrored : registry.
Ltac steps :=
  repeat first
    [ quietly | solve [auto with registry] | then_
    | match goal with
      | |- preserves _ (match ?x with _ => _ end) => destruct x
      end ].

Lemma along_resolve_keys T `{!PreOrder T} keys : preserves (moving T) (resolve_keys (Y := Y) keys).
Proof.
  induction keys as [|k ks IH]; cbn; [quietly|]. destruct (String.eqb k ""); [exact IH|].
  then_. then_. exact IH.
Qed.

Lemma along_package_key T `{!PreOrder T} pkg : preserves (moving T) (package_key (Y := Y) pkg).
Proof. unfold package_key. walk. Qed.

Lemma along_fetch T `{!PreOrder T} base pkg key :
  preserves (moving T) (fetch_shasums base pkg key).
Proof.
  unfold fetch_shasums. then_. destruct (_ || _); [quietly|].
  then_. destruct a0 as [c|e]; [|quietly]. then_; [by apply along_resolve_keys|].
  destruct a0; quietly.
Qed.

Lemma returns_then {W A B} (Q : A -> Prop) (Q' : B -> Prop) (c : prog W A) (k : A -> prog W B) :
  returns Q c -> (forall a, Q a -> returns Q' (k a)) -> returns Q' (bind c k).
Proof. intros Hc Hk w. by apply Hk. Qed.

Lemma fetched_content base pkg key :
  returns (fun r => exists answer, served (DownloadFile base (pkg_SHASumsURL pkg)) answer /\
                    parseSHASUMFile (fst r) = sums_of answer)
    (fetch_shasums base pkg key).
Proof.
  apply (returns_then (served (DownloadFile base (pkg_SHASumsURL pkg)))); [apply out_returns|].
  intros sums Hs. cbv zeta.
  assert (Hr : forall b, (fun r : string * bool => exists answer,
      served (DownloadFile base (pkg_SHASumsURL pkg)) answer /\ parseSHASUMFile (fst r) = sums_of answer)
      (match sums with Ok c => c | Err _ => "" end, b)) by (intros b; exists sums; split; [done|]; by destruct sums).
  destruct (_ || _); [by apply returns_ret|].
  apply returns_bind. intros [sig|e]; cbv beta iota; [|by apply returns_ret].
  apply returns_bind. intros keys. by destruct keys; apply returns_ret.
Qed.

Lemma step_track cfg mp vid version content gpg :
  preserves step (track_version approvalRepo cfg mp vid version content gpg).
Proof.
  unfold track_version. then_; [apply step_uuid|]. then_.
  { unfold resolveProviderApproval. unfold list_upstream_versions. steps. }
  destruct a0 as [st rule]. steps.
Qed.

(** *** A new version *)

Definition with_version (v : ProviderVersionRow) (t : pdb) : pdb :=
  on_pversions (fun rows => rows ++ [ProviderRepository.with_version_id (pnext t) v]) (bump t).

(** What inserting a version leaves: nothing changed, or the row under a new
    identifier. *)
Lemma created_cases v (w : env (pm Y)) :
  let r := ProviderRepository.CreateVersion v w in
  pext (st (snd r)) = pext (st w) /\
  match fst r with
  | Err _ => ptab (st (snd r)) = ptab (st w)
  | Ok vid => vid = pnext (ptab (st w)) /\ ptab (st (snd r)) = with_version v (ptab (st w))
  end.
Proof.
  unfold ProviderRepository.CreateVersion, pinsert, psql, db.
  destruct (faults w) as [|[] fs]; cbn; try done;
    destruct (ProviderRepository.version_valid _ _); cbn; auto.
Qed.

Lemma runs_created v t t1 :
  (schema t -> schema t1) -> t1 = with_version v t -> runs recorded t t1.
Proof.
  intros Hs -> Ht. split; [by apply Hs|]. destruct t as [ta tb tc td te tg th ti tj tk tn]. same_rows.
  apply grows_app; [typeclasses eauto|]. by apply Forall_singleton.
Qed.

Lemma runs_same t t' :
  (schema t -> schema t') -> pnext t <= pnext t' -> same_tables t t' -> runs recorded t t'.
Proof.
  intros Hs Hn Ht Hst. split; [by apply Hs|].
  destruct t as [ta tb tc td te tg th ti tj tk tn], t' as [sa sb sc sd se sg sh si sj sk sn].
  destruct Ht as (-> & -> & -> & -> & -> & -> & -> & -> & -> & ->). same_rows.
Qed.

Lemma drop_next gone t : pnext (drop_versions gone t) = pnext t.
Proof. by destruct t. Qed.

(** Removing a version that was only built on goes back to the tables before it. *)
Lemma delete_cases v (w w2 : env (pm Y)) :
  let t := ptab (st w) in
  schema t -> building recorded (pnext t) (with_version v t) (ptab (st w2)) ->
  let r := ProviderRepository.DeleteVersion (pnext t) w2 in
  pext (st (snd r)) = pext (st w2) /\
  (ptab (st (snd r)) = ptab (st w2) \/
   same_tables t (ptab (st (snd r))) /\ pnext t <= pnext (ptab (st (snd r)))).
Proof.
  intros t Hs [_ Hb]. pose proof (removed_version _ _ _ _ Hs Hb) as Hr.
  assert (Hn : pnext t <= pnext (ptab (st w2))) by (apply b_next in Hb; destruct t; cbn in *; lia).
  unfold ProviderRepository.DeleteVersion, pexec_found, psql, db.
  destruct (faults w2) as [|[] fs]; cbn; [|by auto|];
    (destruct (ProviderRepository.version_exists _ _); cbn; [|by auto]);
    (split; [done | right; split; [exact Hr | by rewrite drop_next]]).
Qed.

Definition listed (namespace providerName : string) (v : ProviderVersion) : Prop :=
  exists vs, served (ListProviderVersions (mc_UpstreamRegistryURL config) namespace providerName)
               (Ok vs) /\
             In v (ProviderFilter.FilterVersions vs (mc_VersionFilter config)).

#[local] Abbreviation base := (mc_UpstreamRegistryURL config).

Lemma calm_resolve_keys keys : preserves calm (resolve_keys (Y := Y) keys).
Proof. induction keys as [|k ks IH]; cbn; [calmly|]. destruct (String.eqb k ""); [exact IH|]. calmly. exact IH. Qed.

Lemma calm_fetch url pkg key : preserves calm (fetch_shasums (Y := Y) url pkg key).
Proof. unfold fetch_shasums. calmly. apply calm_resolve_keys. Qed.

Lemma calm_shasums vid m : preserves calm (store_shasums (Y := Y) vid m).
Proof.
  unfold store_shasums, ProviderRepository.UpsertProviderVersionShasums. calmly.
  induction (map_range _) as [|[f h] es IH]; cbn; calmly. exact IH.
Qed.

Lemma calm_batches fuel vid ds :
  preserves calm (ProviderDocsRepository.batches (Y := Y) fuel vid ds).
Proof. revert ds. induction fuel as [|fuel IH]; intros ds; cbn; calmly. apply IH. Qed.

Lemma calm_docs url vid namespace providerName version :
  preserves calm (store_docs (Y := Y) url vid namespace providerName version).
Proof. unfold store_docs. calmly. apply calm_batches. Qed.

Lemma calm_downloads url vid namespace providerName version m ps :
  preserves calm (download_platforms (Y := Y) storageBackendName url vid namespace providerName
                    version m ps).
Proof.
  unfold download_platforms. generalize 0%Z.
  induction ps as [|p ps IH]; intros n; cbn [fold_prog]; [calmly|].
  apply preserves_bind; [typeclasses eauto | | intros k; apply IH].
  unfold syncPlatformBinary, store_platform, ProviderRepository.CreatePlatform, pinsert. calmly.
Qed.

(** The row [row] was inserted and worked on. *)
Record built (row : ProviderVersionRow) (w w2 : env (pm Y)) : Prop := {
  built_outside : outside (pext (st w)) (pext (st w2));
  built_schema : schema (ptab (st w)) -> schema (with_version row (ptab (st w)));
  built_tables : building recorded (pnext (ptab (st w))) (with_version row (ptab (st w)))
                   (ptab (st w2));
  built_calm : calm w w2;
}.

(** How storing a new version goes: it fails before it inserts anything, or the
    row it inserted is worked on and then either removed or tracked. *)
Inductive stored_version (lp : Provider) (mp : MirroredProvider) (v : ProviderVersion)
  (w : env (pm Y)) (r : res unit * env (pm Y)) : Prop :=
| NotInserted e :
    fst r = Err e -> ptab (st (snd r)) = ptab (st w) ->
    outside (pext (st w)) (pext (st (snd r))) -> stored_version lp mp v w r
| Removed row w2 e :
    built row w w2 -> r = remove_version (pnext (ptab (st w))) e w2 -> stored_version lp mp v w r
| Tracked row w2 content gpg :
    pv_Version row = uv_Version v -> pv_ProviderID row = pr_ID lp ->
    built row w w2 ->
    r = (run! track_version approvalRepo config mp (pnext (ptab (st w))) (uv_Version v) content gpg
         in ret (Ok tt)) w2 -> stored_version lp mp v w r.

(** Steps before the insert. *)
Definition hushed (w w' : env (pm Y)) : Prop := moving eq w w' /\ calm w w'.

Lemma preserves_hushed {A} (c : P A) :
  preserves (moving eq) c -> preserves calm c -> preserves hushed c.
Proof. intros Ht Hf w. by split. Qed.

Lemma stored_bind {A} (Q : A -> Prop) lp mp v (c : P A) k :
  preserves hushed c -> returns Q c ->
  (forall a w, Q a -> stored_version lp mp v w (k a w)) ->
  forall w, stored_version lp mp v w (bind c k w).
Proof.
  intros Hc Hq Hk w. unfold bind. cbn. destruct (Hc w) as [[Ht Ho] Hf].
  specialize (Hk _ (snd (c w)) (Hq w)). set (w' := snd (c w)) in *. clearbody w'.
  assert (Hb : forall row w2, built row w' w2 -> built row w w2).
  { intros row w2 [B1 B2 B3 B4]. rewrite <- Ht in *. split; try done;
      [by etransitivity | by etransitivity; [exact Hf|]]. }
  destruct Hk.
  - eapply NotInserted; [done | congruence |]. by etransitivity.
  - rewrite <- Ht in *. eapply Removed; eauto.
  - rewrite <- Ht in *. eapply Tracked; eauto.
Qed.

Lemma new_version_cases lp mp namespace providerName v w :
  listed namespace providerName v ->
  stored_version lp mp v w
    (syncProviderVersion storageBackendName docsRepo approvalRepo base lp mp namespace providerName v
       config w).
Proof.
  intros Hl. unfold syncProviderVersion.
  destruct (uv_Platforms v) as [|p0 ps] eqn:Ep; [by eapply NotInserted|]. rewrite <- Ep.
  eapply stored_bind; [apply preserves_hushed; [quietly | calmly] | apply out_returns |].
  clear w. intros [pkg|e] w Hpkg; [|by eapply NotInserted].
  eapply (stored_bind (fun _ => True)); [| done |].
  { apply preserves_hushed; [apply along_package_key; typeclasses eauto|].
    unfold package_key. calmly. }
  clear w. intros key w _. eapply stored_bind; [| apply fetched_content |].
  { apply preserves_hushed; [apply along_fetch; typeclasses eauto | apply calm_fetch]. }
  clear w. intros [content gpg] w Hc. cbn [fst] in Hc. cbv zeta.
  set (m := parseSHASUMFile content).
  assert (Hm : sums_served base namespace providerName v m) by by exists p0, ps, (Ok pkg).
  clearbody m. set (row := Build_ProviderVersionRow _ _ _ _ _ _ _ _ _ _).
  unfold bind at 1. pose proof (created_cases row w) as [He Hcase].
  pose proof (keeps_create_version outside row w) as [Hk _].
  assert (Hcalm : preserves calm (ProviderRepository.CreateVersion (Y := Y) row)) by apply calm_psql.
  specialize (Hcalm w). destruct (ProviderRepository.CreateVersion row w) as [[vid|e] w1]; cbn [fst snd] in *.
  2:{ eapply NotInserted; [done | exact Hcase | cbn; rewrite He; reflexivity]. }
  destruct Hcase as [-> Ht]. set (vid := pnext (ptab (st w))) in *.
  set (a := store_shasums vid m).
  set (b := if docsRepo then _ else _).
  set (c := download_platforms _ _ _ _ _ _ _ _).
  match goal with |- stored_version _ _ _ _ (bind a (fun _ => bind b (fun _ => bind c ?k)) w1) =>
    change (stored_version lp mp v w (bind (bind a (fun _ => bind b (fun _ => c))) k w1)) end.
  assert (Hwork : preserves (work vid) (bind a (fun _ => bind b (fun _ => c)))).
  { then_; [apply work_shasums|]. then_; [unfold b; destruct docsRepo; [apply work_docs | quietly]|].
    apply work_downloads; [|done]. intros p Hp. by split. }
  assert (Hstill : preserves calm (bind a (fun _ => bind b (fun _ => c)))).
  { apply preserves_bind; [typeclasses eauto | apply calm_shasums | intros _].
    apply preserves_bind; [typeclasses eauto | | intros _; apply calm_downloads].
    unfold b. destruct docsRepo; [apply calm_docs | calmly]. }
  unfold bind at 1. destruct (Hwork w1) as [Hb Ho]. specialize (Hstill w1).
  destruct (bind a _ w1) as [n w2]. cbn [fst snd] in *.
  assert (Hbuilt : built row w w2).
  { rewrite Ht in Hb, Hk. rewrite He in Ho. split; try done. by etransitivity. }
  destruct (_ && _); [by eapply Removed|].
  destruct (bool_decide _); [by eapply Removed|].
  by apply (Tracked _ _ _ _ _ row w2 content gpg).
Qed.

Lemma step_new_provider_version lp mp namespace providerName v :
  listed namespace providerName v ->
  preserves step (syncProviderVersion storageBackendName docsRepo approvalRepo base lp mp namespace
                    providerName v config).
Proof.
  intros Hl w. destruct (new_version_cases lp mp namespace providerName v w Hl)
    as [e _ Ht Ho|row w2 e [Ho Hs Hb _] ->|row w2 content gpg _ _ [Ho Hs Hb _] ->].
  - split; [rewrite Ht; reflexivity | exact Ho].
  - assert (Hrun : runs recorded (ptab (st w)) (ptab (st w2))).
    { etransitivity; [by apply (runs_created row) | by eapply building_runs]. }
    unfold remove_version, bind, ret. cbn [snd].
    pose proof (keeps_delete_version outside (pnext (ptab (st w))) w2) as [Hk _].
    split; [|by etransitivity; [exact Ho | apply (keeps_delete_version outside (pnext (ptab (st w))) w2)]].
    intros Hst. destruct (delete_cases row w w2 Hst Hb) as [_ [->|[Hd Hn]]]; [by apply Hrun|].
    apply runs_same; [|done..]. intros _. apply Hk. by apply Hrun.
  - assert (Hrun : step w w2).
    { split; [|done]. etransitivity; [by apply (runs_created row) | by eapply building_runs]. }
    etransitivity; [exact Hrun|]. unfold bind. cbn [snd ret]. apply step_track.
Qed.

(** *** A version already there *)

Lemma step_ensure_tracking mp existing version :
  preserves step (ensure_tracking (Y := Y) mp existing version).
Proof. unfold ensure_tracking. steps. Qed.

Lemma step_backfill_key existing pkg : preserves step (backfill_key (Y := Y) existing pkg).
Proof. unfold backfill_key. steps. Qed.

Lemma step_backfill_flag tracking pkg : preserves step (backfill_flag base tracking pkg).
Proof.
  unfold backfill_flag. then_. then_. cbv zeta. destruct (_ || _); [quietly|].
  then_; [by apply along_resolve_keys; typeclasses eauto|]. steps.
Qed.

Lemma step_backfill namespace providerName v existing :
  preserves step (backfill_gpg base namespace providerName v existing).
Proof.
  unfold backfill_gpg. then_; [by destruct (String.eqb _ _); [quietly | then_]|].
  rename a into needs. then_. cbv zeta. set (tracking := match a with Ok _ => _ | _ => _ end).
  clearbody tracking.
  assert (Hw : forall p, preserves step (
    let! info := out (GetProviderPackage base namespace providerName (uv_Version v)
                        (up_OS p) (up_Arch p)) in
    match info with
    | Err _ => ret tt
    | Ok pkg =>
        run! (if needs : bool then backfill_key existing pkg else ret tt) in
        match tracking with
        | Some m => backfill_flag base m pkg
        | None => ret tt
        end
    end)).
  { intros p. then_. destruct a0 as [pkg|e]; [|quietly].
    then_; [by destruct needs; [apply step_backfill_key | quietly]|].
    destruct tracking; [apply step_backfill_flag | quietly]. }
  destruct needs, tracking, (uv_Platforms v) as [|p ps]; quietly || apply (Hw p).
Qed.

Lemma step_missing namespace providerName v existing :
  listed namespace providerName v ->
  preserves step (sync_missing storageBackendName docsRepo base namespace providerName v config
                    existing).
Proof.
  intros Hl. unfold sync_missing, backfill_docs. then_. destruct a as [rows|e]; [|quietly]. cbv zeta.
  set (missing := List.filter _ _).
  assert (Hin : forall p, In p missing -> offered config namespace providerName v p)
    by (intros p Hp; split; [done | by apply filter_In in Hp as [Hp _]]).
  assert (Hdocs : preserves step (if docsRepo then
    let! n := ProviderDocsRepository.CountProviderVersionDocs (pv_ID existing) in
    match n with
    | Ok O => store_docs base (pv_ID existing) namespace providerName (uv_Version v)
    | _ => ret tt end else ret tt)).
  { destruct docsRepo; [|quietly]. then_. destruct a as [[|k]|e]; try quietly.
    eapply step_work, work_docs. }
  destruct missing as [|p ps]; [by then_|]. destruct (uv_Platforms v) as [|p0 ps0] eqn:Ev; [by then_|].
  eapply preserves_bind_ret with (Q := sums_served base namespace providerName v);
    [typeclasses eauto | | |].
  - unfold resync_shasums. then_. destruct a as [pkg|e]; [|quietly]. then_. cbv zeta. then_.
    eapply step_work, work_shasums.
  - unfold resync_shasums. eapply returns_then; [apply out_returns|].
    intros [pkg|e] Hp; [|apply returns_ret; by exists p0, ps0, (Err e)].
    eapply returns_then; [apply out_returns|]. intros sums Hs. cbv zeta.
    apply returns_bind. intros u. apply returns_ret.
    exists p0, ps0, (Ok pkg). split; [done|]. split; [done|]. exists sums. by destruct sums.
  - intros m Hm. eapply step_work, work_downloads; [|done]. exact Hin.
Qed.

Lemma step_version namespace providerName lp mp rows v :
  listed namespace providerName v ->
  preserves step (sync_version storageBackendName docsRepo approvalRepo base namespace providerName
                    config lp mp rows v).
Proof.
  intros Hl. unfold sync_version. destruct (List.find _ _) as [existing|].
  - unfold sync_existing. then_; [apply step_ensure_tracking|]. then_; [apply step_backfill|].
    by apply step_missing.
  - then_. by apply step_new_provider_version.
Qed.

(** *** Providers *)

Lemma step_ensure_provider org namespace providerName :
  preserves step (ensure_provider (Y := Y) config org namespace providerName).
Proof. unfold ensure_provider, start_tracking, new_mirrored. steps. Qed.

Lemma step_sync_provider namespace providerName :
  preserves step (syncProvider storageBackendName docsRepo approvalRepo base config namespace
                    providerName).
Proof.
  unfold syncProvider. then_served Hl. destruct a as [[|v0 vs0]|e]; try quietly. cbv zeta.
  set (vs := v0 :: vs0) in *. clearbody vs.
  set (kept := ProviderFilter.FilterVersions vs _). assert (Hk : forall v, In v kept ->
    listed namespace providerName v) by (intros v Hv; by exists vs). clearbody kept.
  destruct kept as [|v kept]; [quietly|].
  then_; [by unfold provider_org; walk|]. then_; [apply step_ensure_provider|].
  destruct a0 as [[lp mp]|e]; [|quietly]. then_. destruct a0 as [rows|e]; [|quietly].
  then_.
  - apply preserves_fold_in; [typeclasses eauto|]. intros n x Hx. then_. by apply step_version, Hk.
  - then_. unfold finish_provider. then_. then_. apply step_update_mirrored.
Qed.

Lemma step_run : preserves step (performSync storageBackendName docsRepo approvalRepo config).
Proof.
  unfold performSync. then_. destruct a as [u|e]; [|quietly].
  destruct (selected_providers config) as [[ns ps]|e]; [|quietly]. then_.
  apply preserves_fold; [typeclasses eauto|]. intros d n.
  apply preserves_fold; [typeclasses eauto|]. intros d' p. then_. apply step_sync_provider.
Qed.
End Safety.
