(* ===== verification/ProvOutcome.v ===== *)
(** * Guarantees of a provider mirror run

    The properties of [ProvSync] the lemmas of [ProvSafety] give: what a run
    publishes, what it keeps, how a gated version appears, what a failed version
    leaves behind and how the run itself is recorded; with a small setting in
    which every interface computes. *)

From S2P Require Import Prelude GoStrings SemVer VersionFilter AutoApprove Validation.
From S2P Require Import LocalStorage TfReleases Checksums TfMirrorRepo TfMirrorSync ReleasesKeys.
From S2P Require Import VersionApproval ProvRepo ProvSchema Upstream ProvSync ProvSafety.
From stdpp Require Import gmap.

#[local] Open Scope nat_scope.
#[local] Existing Instance uv_version.

(** What the outside documents: only uploads write to the storage backend. *)
Class UpstreamLaws (Y : Type) `{StorageLaws Y} `{UpstreamRegistryClient Y} `{TempFiles Y}
  `{Organizations Y} : Prop := {
  discover_quiet b y : objects (snd (DiscoverServices b y)) = objects y;
  versions_quiet b n p y : objects (snd (ListProviderVersions b n p y)) = objects y;
  package_quiet b n p v os arch y :
    objects (snd (GetProviderPackage b n p v os arch y)) = objects y;
  file_quiet b u y : objects (snd (DownloadFile b u y)) = objects y;
  stream_quiet b u y : objects (snd (DownloadFileStream b u y)) = objects y;
  docs_quiet b n p v y : objects (snd (GetProviderDocIndexByVersion b n p v y)) = objects y;
  create_temp_quiet y : objects (snd (CreateTemp y)) = objects y;
  copy_quiet d y : objects (snd (CopyToTemp d y)) = objects y;
  seek_quiet y : objects (snd (SeekStart y)) = objects y;
  org_quiet y : objects (snd (GetDefaultOrganization y)) = objects y;
}.

#[export] Instance writes_frame `{UpstreamLaws Y} (allowed : string -> string -> Prop) :
  RunFrame Y allowed (only_writes allowed).
Proof.
  constructor; intros; [typeclasses eauto | apply only_writes_eq ..|].
  1: apply discover_quiet. 1: apply versions_quiet. 1: apply package_quiet. 1: apply file_quiet.
  1: apply stream_quiet. 1: apply docs_quiet. 1: apply create_temp_quiet. 1: apply copy_quiet.
  1: apply seek_quiet. 1: apply org_quiet.
  intros key. destruct (upload_writes k d y) as [->|[-> _]]; [|by left].
  destruct (decide (k = key)) as [->|Hne]; [right | left].
  - exists d. by rewrite lookup_insert_eq.
  - by rewrite lookup_insert_ne.
Qed.

(** No assumption on the outside at all. *)
#[export] Instance any_frame {Y} `{Storage Y} `{UpstreamRegistryClient Y} `{TempFiles Y}
  `{Organizations Y} (allowed : string -> string -> Prop) : RunFrame Y allowed (fun _ _ => True).
Proof. by repeat constructor. Qed.

Section Outcome.
Context {Y : Type} `{GoSort} `{GoVersion} `{RulesCodec} `{StringsCodec} `{MapRange}.
Context `{SY : Storage Y} `{UP : !UploadPath Y}.
Context `{UR : UpstreamRegistryClient Y} `{TF : TempFiles Y} `{OG : Organizations Y}.
Context `{Sha256} `{Sha256Base64} `{ZipReader} `{OpenPGP} `{!OpenPGPEntities} `{ReleaseKeys}.
Context `{SyncDetailsCodec}.
Context (storageBackendName : string) (docsRepo approvalRepo : bool).
#[local] Abbreviation P := (prog (env (pm Y))).
#[local] Abbreviation run := (performSync storageBackendName docsRepo approvalRepo).

Lemma grows_eq {A} (N : A -> Prop) l l' :
  grows eq N l l' -> exists news, l' = l ++ news /\ Forall N news.
Proof.
  intros (o & n & -> & Ho & Hn). exists n. split; [|done]. f_equal. clear Hn.
  induction Ho; congruence.
Qed.

(** C21: what a provider run publishes was checked.  Whatever the upstream answers
    and whichever statements fail: every object the run wrote to the storage
    backend, and every platform row it added, is the binary of a platform that the
    upstream listed and the filters select, downloaded from the URL of that
    platform's package descriptor; it lies under the path made of the listed names
    and a filename that passed validation; its digest is the descriptor's checksum
    or, when the descriptor has none, the one that the checksum file of the version -
    the upstream's answer at the URL in the descriptor of its first platform - names
    for that filename; nothing is compared only when that file names no digest for it,
    or when the upstream failed to answer with that file or with the descriptor that
    points to it; and the row records the digest and the size of those bytes. *)
Theorem published_binaries_are_checked `{SL : !StorageLaws Y} `{UL : !UpstreamLaws Y}
  (config : MirrorConfiguration) (w : env (pm Y)) :
  schema (ptab (st w)) ->
  let w' := snd (run config w) in
  only_writes (published config) (pext (st w)) (pext (st w')) /\
  exists new, provider_platforms (ptab (st w')) = provider_platforms (ptab (st w)) ++ new /\
              Forall (recorded storageBackendName config) new.
Proof.
  intros Hs w'. destruct (step_run storageBackendName docsRepo approvalRepo config
                            (only_writes (published config)) w) as [Hr Ho].
  split; [exact Ho|]. destruct (Hr Hs) as [_ Hstep]. apply grows_eq, (rs_platforms _ _ _ Hstep).
Qed.

(** a provider run keeps what operators decided.  Whatever the upstream
    answers and whichever statements fail, afterwards the configurations and the
    run histories are untouched; every provider, every version - with its
    deprecation mark - and every platform row is still there; and every tracking row
    keeps its approval status, its place and its upstream version, also when the
    run meets that version again. *)
Theorem provider_sync_keeps_decisions (config : MirrorConfiguration) (w : env (pm Y)) :
  schema (ptab (st w)) ->
  let t := ptab (st w) in let t' := ptab (st (snd (run config w))) in
  mirror_configurations t' = mirror_configurations t /\
  mirror_sync_history t' = mirror_sync_history t /\
  (exists new, providers t' = providers t ++ new) /\
  (exists new, provider_platforms t' = provider_platforms t ++ new) /\
  (forall v, In v (provider_versions t) -> exists v', In v' (provider_versions t') /\
     pv_ID v' = pv_ID v /\ pv_ProviderID v' = pv_ProviderID v /\ pv_Version v' = pv_Version v /\
     pv_Deprecated v' = pv_Deprecated v) /\
  (forall m, In m (mirrored_versions t) -> exists m', In m' (mirrored_versions t') /\
     mpv_ID m' = mpv_ID m /\ mpv_MirroredProviderID m' = mpv_MirroredProviderID m /\
     mpv_UpstreamVersion m' = mpv_UpstreamVersion m /\
     mpv_ApprovalStatus m' = mpv_ApprovalStatus m) /\
  schema t'.
Proof.
  intros Hs t t'. destruct (step_run storageBackendName docsRepo approvalRepo config (fun _ _ => True) w)
                    as [Hr _].
  destruct (Hr Hs) as [Hs' [_ Hc Hh Hp Hv Hpl Ht]].
  split; [done|]. split; [done|].
  split; [by destruct (grows_eq _ _ _ Hp) as (n & E & _); exists n|].
  split; [by destruct (grows_eq _ _ _ Hpl) as (n & E & _); exists n|].
  split; [|split; [|done]].
  - intros v Hin. destruct (grows_in _ _ _ _ v Hv Hin) as (v' & Hin' & Hk). exists v'.
    split; [done|]. unfold same_version_row in Hk. intuition congruence.
  - intros m Hin. destruct (grows_in _ _ _ _ m Ht Hin) as (m' & Hin' & Hk). exists m'.
    split; [done|]. unfold same_approval in Hk. intuition congruence.
Qed.

(** a version that cannot be stored leaves nothing.  When no statement fails
    and [syncProviderVersion] returns an error - no package descriptor, a duplicate
    version, no platform matching the filter, or no platform that could be
    downloaded and verified - every table is as before: the version row it had
    inserted, its checksums, documents and platforms are gone again. *)
Theorem failed_version_leaves_nothing (config : MirrorConfiguration) (lp : Provider)
  (mp : MirroredProvider) (namespace providerName : string) (v : ProviderVersion) (w : env (pm Y)) e :
  faults w = [] -> schema (ptab (st w)) -> listed config namespace providerName v ->
  let r := syncProviderVersion storageBackendName docsRepo approvalRepo
             (mc_UpstreamRegistryURL config) lp mp namespace providerName v config w in
  fst r = Err e -> same_tables (ptab (st w)) (ptab (st (snd r))).
Proof.
  intros Hf Hs Hl r Hr. subst r.
  destruct (new_version_cases storageBackendName docsRepo approvalRepo config (fun _ _ => True) lp mp
    namespace providerName v w Hl) as [e' _ Ht _|row w2 e' Hb Er|row w2 content gpg _ _ Hb Er].
  - rewrite Ht. by destruct (ptab (st w)).
  - rewrite Er. destruct Hb as [_ _ Htab Hcalm]. pose proof (removed_version _ _ _ _ Hs (proj2 Htab)) as Hrem.
    assert (Hex : ProviderRepository.version_exists (pnext (ptab (st w))) (ptab (st w2)) = true).
    { apply has_id. destruct Htab as [_ Htab]. rewrite (b_versions _ _ _ _ Htab).
      destruct (ptab (st w)). cbn. rewrite fmap_app. apply elem_of_app. right. by apply list_elem_of_singleton. }
    unfold remove_version, bind, ProviderRepository.DeleteVersion, pexec_found, psql, db.
    rewrite (Hcalm Hf). cbn [fst snd ret st ptab]. rewrite Hex. exact Hrem.
  - by rewrite Er in Hr.
Qed.

(** *** The gate *)

(** What the rules of the column say of a version, given those already mirrored. *)
Definition rules_approve (column : option string) (version : string) : Prop :=
  exists rules gpg existing,
    ParseAutoApproveRules column = Ok (Some rules) /\
    fst (EvaluateAutoApprove (Some rules)
      {| Version := version; GPGVerified := gpg; ExistingVersions := existing; VersionAge := 0 |})
      = true.

Definition gated_status (column : option string) (version : string) (status : option string)
  : Prop :=
  status = Some VersionApprovalStatusPending \/
  status = Some VersionApprovalStatusApproved /\ rules_approve column version.

Lemma approval_cases id column version gpg (w : env (pm Y)) :
  faults w = [] ->
  let r := resolveProviderApproval (list_upstream_versions id) true column version gpg w in
  st (snd r) = st w /\ faults (snd r) = [] /\ gated_status column version (fst (fst r)).
Proof.
  intros Hf. unfold resolveProviderApproval. cbn [negb].
  destruct (ParseAutoApproveRules column) as [[rules|]|e] eqn:Er; try (split; [done|]; split; [done|]; by left).
  cbv zeta. unfold bind. set (l := list_upstream_versions id w).
  assert (Hl : st (snd l) = st w /\ faults (snd l) = []).
  { unfold l, list_upstream_versions, MirrorRepository.ListMirroredProviderVersions, pquery, psql,
      bind, db. rewrite Hf. cbn. destruct (List.forallb _ _); cbn; by destruct (st w). }
  destruct Hl as [Hs Hl].
  set (existing := match fst l with Ok vs => vs | Err _ => [] end). clearbody existing.
  destruct (EvaluateAutoApprove _ _) as [[] rule] eqn:Ee; (split; [exact Hs|]; split; [exact Hl|]).
  - right. split; [done|]. exists rules, gpg, existing. by rewrite Ee.
  - by left.
Qed.

Lemma record_event_rows ev (w : env (pm Y)) :
  let t := ptab (st w) in let t' := ptab (st (snd (RecordEvent ev w))) in
  mirrored_versions t' = mirrored_versions t /\ provider_versions t' = provider_versions t.
Proof.
  unfold RecordEvent, psql, db. destruct (faults w) as [|[] fs]; cbn; try done;
    destruct (negb (event_ok ev)); cbn; try done; destruct (negb _); cbn; try done;
    by destruct (ptab (st w)).
Qed.

Lemma track_gated config mp vid version content gpg (w : env (pm Y)) :
  let t := ptab (st w) in
  faults w = [] -> mc_RequiresApproval config = true ->
  mp_ID mp ∈ mp_ID <$> mirrored_providers t -> vid ∈ pv_ID <$> provider_versions t ->
  below (pnext t) (mpv_ID <$> mirrored_versions t) ->
  (forall m, In m (mirrored_versions t) -> mpv_MirroredProviderID m = mp_ID mp ->
     mpv_UpstreamVersion m <> version) ->
  exists w' m,
    track_version approvalRepo config mp vid version content gpg w = (tt, w') /\
    provider_versions (ptab (st w')) = provider_versions t /\
    mirrored_versions (ptab (st w')) = mirrored_versions t ++ [m] /\ mpv_ProviderVersionID m = vid /\
    gated_status (mc_AutoApproveRules config) version (mpv_ApprovalStatus m).
Proof.
  intros t Hf Hg Hmp Hv Hb Hnew. unfold track_version. rewrite Hg.
  unfold bind at 1. unfold new_uuid, state. cbn [fst snd]. fold t.
  set (w1 := Env _ _ _ _). unfold bind at 1.
  pose proof (approval_cases (mp_ID mp) (mc_AutoApproveRules config) version gpg w1 Hf) as Ha.
  cbv zeta in Ha. destruct (resolveProviderApproval _ _ _ _ _ w1) as [[status rule] w2].
  cbn [fst snd] in *. destruct Ha as (Hs2 & Hf2 & Hst).
  unfold bind at 1. set (now := fst (time_now w2)). set (w3 := snd (time_now w2)).
  assert (Hw3 : st w3 = st w1 /\ faults w3 = []) by done. destruct Hw3 as [Hs3 Hf3].
  clearbody w3 now. set (row := Build_MirroredProviderVersion _ _ _ _ _ _ _ _).
  assert (Hc : exists w4, MirrorRepository.CreateMirroredProviderVersion row w3 = (Ok tt, w4) /\
     provider_versions (ptab (st w4)) = provider_versions t /\
     mirrored_versions (ptab (st w4)) = mirrored_versions t ++ [row]).
  { unfold MirrorRepository.CreateMirroredProviderVersion, psql, db. rewrite Hf3, Hs3. cbn [st w1 ptab].
    assert (E1 : has (fun m => mpv_ID m =? mpv_ID row) (mirrored_versions (bump t)) = false).
    { apply not_true_iff_false. rewrite has_id. intros Hin.
      pose proof (proj1 (Forall_forall _ _) Hb (pnext t)) as Hlt.
      enough (pnext t < pnext t) by lia. apply Hlt. by destruct t. }
    assert (E2 : has (fun m => mp_ID m =? mpv_MirroredProviderID row) (mirrored_providers (bump t)) = true)
      by (apply has_id; by destruct t).
    assert (E3 : has (fun v => pv_ID v =? mpv_ProviderVersionID row) (provider_versions (bump t)) = true)
      by (apply has_id; by destruct t).
    assert (E4 : has (MirrorRepository.same_tracking row) (mirrored_versions (bump t)) = false).
    { apply not_true_iff_false. rewrite has_spec. intros (m & Hin & Hm).
      unfold MirrorRepository.same_tracking in Hm.
      apply andb_prop in Hm as [Hm1%Nat.eqb_eq Hm2%String.eqb_eq].
      apply (Hnew m); [by destruct t | done | done]. }
    rewrite E1, E2, E3, E4. cbn [negb orb fst snd]. eexists. split; [done|]. by destruct t. }
  destruct Hc as (w4 & Hc & Hv4 & Hm4). unfold bind at 1. rewrite Hc. cbn [fst snd].
  destruct (_ && approvalRepo).
  - unfold bind. set (ev := Build_VersionApprovalEvent _ _ _ _ _ _ _).
    eexists _, row. split; [done|]. destruct (record_event_rows ev w4) as [-> ->].
    split; [done|]. by split.
  - eexists _, row. split; [done|]. split; [done|]. by split.
Qed.

(** a new version of a gated mirror is pending unless a rule approves it.  When no
    statement fails, the provider is tracked and the version is not yet, storing
    the version successfully leaves its row together with a tracking row: either
    pending, and then the registry does not list the version, or approved, and
    then the configuration's auto-approve rules decode and match it. *)
Theorem new_version_is_gated (config : MirrorConfiguration) (lp : Provider)
  (mp : MirroredProvider) (namespace providerName : string) (v : ProviderVersion) (w : env (pm Y)) :
  let t := ptab (st w) in
  faults w = [] -> schema t -> below (pnext t) (mpv_ID <$> mirrored_versions t) ->
  mp_ID mp ∈ mp_ID <$> mirrored_providers t ->
  (forall m, In m (mirrored_versions t) -> mpv_MirroredProviderID m = mp_ID mp ->
     mpv_UpstreamVersion m <> uv_Version v) ->
  mc_RequiresApproval config = true -> listed config namespace providerName v ->
  let r := syncProviderVersion storageBackendName docsRepo approvalRepo
             (mc_UpstreamRegistryURL config) lp mp namespace providerName v config w in
  fst r = Ok tt ->
  let t' := ptab (st (snd r)) in
  exists row m,
    In row (provider_versions t') /\ pv_ProviderID row = pr_ID lp /\
    pv_Version row = uv_Version v /\
    In m (mirrored_versions t') /\ mpv_ProviderVersionID m = pv_ID row /\
    (mpv_ApprovalStatus m = Some VersionApprovalStatusPending /\
     ProviderRepository.not_gated t' row = false \/
     mpv_ApprovalStatus m = Some VersionApprovalStatusApproved /\
     rules_approve (mc_AutoApproveRules config) (uv_Version v)).
Proof.
  intros t Hf Hs Hb Hmp Hnew Hg Hl r Hr t'. subst r t'.
  destruct (new_version_cases storageBackendName docsRepo approvalRepo config (fun _ _ => True) lp mp
    namespace providerName v w Hl) as [e' He _ _|row w2 e' _ Er|row w2 content gpg Ev Ep Hbuilt Er].
  - congruence.
  - by rewrite Er in Hr.
  - rewrite Er. unfold bind. cbn [snd ret]. destruct Hbuilt as [_ _ [_ Htab] Hcalm]. fold t in Htab.
    destruct Htab as [Hn _ _ Hv _ _ _ Hmir Htr _ _].
    set (new := ProviderRepository.with_version_id (pnext t) row).
    assert (Hv2 : provider_versions (ptab (st w2)) = provider_versions t ++ [new])
      by (rewrite Hv; by destruct t).
    assert (Ht2 : mirrored_versions (ptab (st w2)) = mirrored_versions t) by (rewrite Htr; by destruct t).
    destruct (track_gated config mp (pnext t) (uv_Version v) content gpg w2)
      as (w' & m & Et & Hpv & Hm & Hid & Hgs).
    + by apply Hcalm.
    + done.
    + rewrite Hmir. by destruct t.
    + rewrite Hv2, fmap_app. apply elem_of_app. right. by apply list_elem_of_singleton.
    + rewrite Ht2. eapply Forall_impl; [exact Hb|]. intros i Hi. cbn in *.
      assert (pnext (with_version row t) = S (pnext t)) by (by destruct t). lia.
    + by rewrite Ht2.
    + unfold t in Et. rewrite Et. cbn [snd].
      assert (Hin : In m (mirrored_versions (ptab (st w')))) by (rewrite Hm; apply in_or_app; right; by left).
      exists new, m. split; [rewrite Hpv, Hv2; apply in_or_app; right; by left|].
      split; [done|]. split; [done|]. split; [done|]. split; [done|].
      destruct Hgs as [Hst|Hst]; [left | by right]. split; [done|].
      apply negb_false_iff, has_spec. exists m. split; [done|].
      unfold ProviderRepository.gates. by rewrite Hid, Hst, Nat.eqb_refl.
Qed.

(** *** The record of a run *)

#[local] Abbreviation still := (preserves (@calm (pm Y))).

Lemma calm_fold {A B} (f : B -> A -> P B) xs b : (forall b x, still (f b x)) -> still (fold_prog f b xs).
Proof. intros Hf. apply preserves_fold; [typeclasses eauto | done]. Qed.

Lemma calm_if {A} (b : bool) (c d : P A) : still c -> still d -> still (if b then c else d).
Proof. by destruct b. Qed.

Lemma calm_track config mp vid version content gpg :
  still (track_version approvalRepo config mp vid version content gpg).
Proof.
  unfold track_version, resolveProviderApproval, list_upstream_versions. calmly.
Qed.

Lemma calm_new_version base lp mp namespace providerName v config :
  still (syncProviderVersion storageBackendName docsRepo approvalRepo base lp mp namespace
           providerName v config).
Proof.
  unfold syncProviderVersion. destruct (uv_Platforms v); [calmly|].
  apply preserves_bind; [typeclasses eauto | calmly|]. intros [pkg|e]; [|calmly].
  apply preserves_bind; [typeclasses eauto | unfold package_key; calmly|]. intros key.
  apply preserves_bind; [typeclasses eauto | apply calm_fetch|]. intros [content gpg]. cbv zeta.
  apply preserves_bind; [typeclasses eauto | calmly|]. intros [vid|e]; [|calmly].
  apply preserves_bind; [typeclasses eauto | apply calm_shasums | intros _].
  apply preserves_bind; [typeclasses eauto | apply calm_if; [apply calm_docs | calmly] | intros _].
  apply preserves_bind; [typeclasses eauto | apply calm_downloads | intros n].
  repeat apply calm_if; [calmly..|]. apply preserves_bind; [typeclasses eauto | apply calm_track | calmly].
Qed.

Lemma calm_missing base namespace providerName v config existing :
  still (sync_missing storageBackendName docsRepo base namespace providerName v config existing).
Proof.
  unfold sync_missing. apply preserves_bind; [typeclasses eauto | calmly|]. intros [rows|e]; [|calmly].
  cbv zeta.
  assert (Hd : still (run! backfill_docs docsRepo base namespace providerName v existing in ret 0%Z)).
  { apply preserves_bind; [typeclasses eauto | | calmly]. unfold backfill_docs.
    apply calm_if; [|calmly]. apply preserves_bind; [typeclasses eauto | calmly|].
    intros [[|n]|e]; [apply calm_docs | calmly..]. }
  destruct (List.filter _ _); [exact Hd|]. destruct (uv_Platforms v); [exact Hd|].
  apply preserves_bind; [typeclasses eauto | | intros m; apply calm_downloads].
  unfold resync_shasums. apply preserves_bind; [typeclasses eauto | calmly|]. intros [pkg|e]; [|calmly].
  apply preserves_bind; [typeclasses eauto | calmly|]. intros sums. cbv zeta.
  apply preserves_bind; [typeclasses eauto | apply calm_shasums | calmly].
Qed.

Lemma calm_existing base namespace providerName v config mp existing :
  still (sync_existing storageBackendName docsRepo base namespace providerName v config mp existing).
Proof.
  apply preserves_bind; [typeclasses eauto | unfold ensure_tracking; calmly | intros _].
  apply preserves_bind; [typeclasses eauto | | intros _; apply calm_missing].
  unfold backfill_gpg.
  apply preserves_bind; [typeclasses eauto | calmly|]. intros needs.
  apply preserves_bind; [typeclasses eauto | calmly|]. intros t. cbv zeta.
  set (tracking := match t with Ok _ => _ | _ => _ end). clearbody tracking.
  assert (Hp : forall info, still match info with
    | Err _ => ret tt
    | Ok pkg =>
        run! (if needs : bool then backfill_key existing pkg else ret tt) in
        match tracking with Some m => backfill_flag base m pkg | None => ret tt end
    end).
  { intros [pkg|e]; [|calmly].
    apply preserves_bind; [typeclasses eauto | unfold backfill_key; calmly | intros _].
    destruct tracking; [|calmly]. unfold backfill_flag.
    do 2 (apply preserves_bind; [typeclasses eauto | calmly | intros ?]). cbv zeta.
    apply calm_if; [calmly|].
    apply preserves_bind; [typeclasses eauto | apply calm_resolve_keys | intros ?; calmly]. }
  destruct needs, tracking, (uv_Platforms v) as [|p ps];
    first [by calmly | by (apply preserves_bind; [typeclasses eauto | calmly | exact Hp])].
Qed.

Lemma calm_provider config namespace providerName :
  still (syncProvider storageBackendName docsRepo approvalRepo (mc_UpstreamRegistryURL config) config
           namespace providerName).
Proof.
  unfold syncProvider. apply preserves_bind; [typeclasses eauto | calmly|].
  intros [[|v vs]|e]; [calmly | | calmly]. cbv zeta.
  destruct (ProviderFilter.FilterVersions _ _) as [|v1 vs1]; [calmly|].
  apply preserves_bind; [typeclasses eauto | unfold provider_org; calmly|]. intros org.
  apply preserves_bind; [typeclasses eauto
    | unfold ensure_provider, start_tracking, new_mirrored; calmly|].
  intros [[lp mp]|e]; [|calmly]. apply preserves_bind; [typeclasses eauto | calmly|].
  intros [rows|e]; [|calmly]. apply preserves_bind; [typeclasses eauto | |].
  - apply calm_fold. intros n x. apply preserves_bind; [typeclasses eauto | | calmly].
    unfold sync_version. destruct (List.find _ _); [apply calm_existing|].
    apply preserves_bind; [typeclasses eauto | apply calm_new_version | calmly].
  - intros n. apply preserves_bind; [typeclasses eauto | unfold finish_provider; calmly | intros ?; calmly].
Qed.

Lemma calm_run config : still (run config).
Proof.
  unfold performSync. apply preserves_bind; [typeclasses eauto | calmly|]. intros [u|e]; [|calmly].
  destruct (selected_providers config) as [[ns ps]|e]; [|calmly].
  apply preserves_bind; [typeclasses eauto | | calmly].
  apply calm_fold. intros d n. apply calm_fold. intros d' p.
  apply preserves_bind; [typeclasses eauto | apply calm_provider | calmly].
Qed.

(** Every provider tried is counted once, and named in the details. *)
Definition counted (n : nat) (d : SyncDetails) : Prop :=
  (sd_ProvidersSynced d + sd_ProvidersFailed d = Z.of_nat n)%Z /\
  Z.of_nat (length (sd_Errors d)) = sd_ProvidersFailed d /\
  Z.of_nat (length (sd_SyncedProviders d)) = sd_ProvidersSynced d.

Lemma returns_fold {A B} (I : nat -> B -> Prop) m (f : B -> A -> P B) xs k b :
  I k b -> (forall k b x, I k b -> returns (I (k + m)) (f b x)) ->
  returns (I (k + m * length xs)) (fold_prog f b xs).
Proof.
  intros Hi Hf. revert k b Hi. induction xs as [|x xs IH]; intros k b Hi; cbn [length fold_prog].
  - rewrite Nat.mul_0_r, Nat.add_0_r. by apply returns_ret.
  - eapply returns_then; [by apply Hf|]. intros b' Hb'.
    replace (k + m * S (length xs)) with ((k + m) + m * length xs) by lia. by apply IH.
Qed.

Lemma add_result_counted n ns p r d : counted n d -> counted (n + 1) (add_result ns p r d).
Proof.
  intros (Hs & He & Hp). unfold counted, add_result.
  destruct r; cbn [sd_ProvidersSynced sd_ProvidersFailed sd_Errors sd_SyncedProviders];
    rewrite ?length_app, ?Nat2Z.inj_add; cbn [length]; lia.
Qed.

Definition settled (config : MirrorConfiguration) (r : SyncDetails * option gerror) : Prop :=
  match snd r with
  | Some _ => True
  | None => exists ns ps, selected_providers config = Ok (ns, ps) /\
      sd_ProvidersFound (fst r) = Z.of_nat (length ns * length ps) /\
      counted (length ns * length ps) (fst r)
  end.

Lemma run_settled config : returns (settled config) (run config).
Proof.
  unfold performSync. apply returns_bind. intros [u|e]; [|by apply returns_ret].
  destruct (selected_providers config) as [[ns ps]|e] eqn:Es; [|by apply returns_ret].
  eapply returns_then.
  - apply (returns_fold (fun n d => counted n d) (length ps) _ ns 0); [by repeat split|].
    intros k d n Hd. replace (k + length ps) with (k + 1 * length ps) by lia.
    apply returns_fold; [done|]. intros k' d' p Hd'. apply returns_bind. intros r. apply returns_ret.
    by apply add_result_counted.
  - intros d Hd. apply returns_ret. exists ns, ps. split; [done|].
    rewrite Nat.mul_comm in Hd. cbn. split; [lia | exact Hd].
Qed.

Lemma update_rows_twice {R} (f : R -> uuid) id upd upd' (rows : list R) :
  (forall r, f (upd r) = f r) ->
  update_rows (fun r => f r =? id) upd' (update_rows (fun r => f r =? id) upd rows) =
  update_rows (fun r => f r =? id) (fun r => upd' (upd r)) rows.
Proof.
  intros Hf. unfold update_rows. rewrite map_map. apply map_ext. intros r.
  destruct (f r =? id) eqn:E; [by rewrite Hf, E | by rewrite E].
Qed.

Lemma update_rows_last {R} (f : R -> uuid) id upd (rows : list R) row :
  below id (f <$> rows) -> f row = id ->
  update_rows (fun r => f r =? id) upd (rows ++ [row]) = rows ++ [upd row].
Proof.
  intros Hb Hr. unfold update_rows. rewrite map_app. cbn. rewrite Hr, Nat.eqb_refl. f_equal.
  rewrite <- (map_id rows) at 2. apply map_ext_in. intros r Hin.
  replace (f r =? id) with false; [done|]. symmetry. apply Nat.eqb_neq.
  unfold below in Hb. rewrite Forall_fmap, List.Forall_forall in Hb. specialize (Hb r Hin). cbn in Hb. lia.
Qed.

Definition running_row (config : MirrorConfiguration) (id : uuid) (at_ : Z) : MirrorSyncHistory := {|
  sh_ID := id; sh_MirrorConfigID := mc_ID config; sh_StartedAt := at_;
  sh_CompletedAt := None; sh_Status := "running"; sh_ProvidersSynced := 0;
  sh_ProvidersFailed := 0; sh_ErrorMessage := None; sh_SyncDetails := None |}.

Lemma create_run_ok config id at_ (w : env (pm Y)) :
  faults w = [] -> below id (sh_ID <$> mirror_sync_history (ptab (st w))) ->
  mc_ID config ∈ mc_ID <$> mirror_configurations (ptab (st w)) ->
  let r := MirrorRepository.CreateSyncHistory (running_row config id at_) w in
  fst r = Ok tt /\ faults (snd r) = [] /\
  ptab (st (snd r)) = on_runs (fun rows => rows ++ [running_row config id at_]) (ptab (st w)).
Proof.
  intros Hf Hb Hc. unfold MirrorRepository.CreateSyncHistory, psql, db. rewrite Hf. cbn [st].
  assert (E1 : has (fun h => sh_ID h =? sh_ID (running_row config id at_))
                 (mirror_sync_history (ptab (st w))) = false).
  { apply not_true_iff_false. rewrite has_id. intros Hin.
    pose proof (proj1 (Forall_forall _ _) Hb _ Hin) as Hlt. cbn in Hlt. lia. }
  assert (E2 : has (fun c => mc_ID c =? sh_MirrorConfigID (running_row config id at_))
                 (mirror_configurations (ptab (st w))) = true) by (by apply has_id).
  rewrite E1, E2. done.
Qed.

Lemma status_ok id status err (w : env (pm Y)) :
  faults w = [] -> exists now,
  let r := MirrorRepository.UpdateSyncStatus id status err w in
  faults (snd r) = [] /\
  ptab (st (snd r)) =
    on_mirrors (update_rows (fun c => mc_ID c =? id) (set_sync_status now status err)) (ptab (st w)).
Proof.
  intros Hf. unfold MirrorRepository.UpdateSyncStatus, bind, time_now, pexec, psql, db. cbn.
  rewrite Hf. by eexists.
Qed.

Lemma history_ok row (w : env (pm Y)) :
  faults w = [] ->
  ptab (st (snd (MirrorRepository.UpdateSyncHistory row w))) =
    on_runs (update_rows (fun h => sh_ID h =? sh_ID row) (set_history row)) (ptab (st w)).
Proof. intros Hf. unfold MirrorRepository.UpdateSyncHistory, pexec, psql, db. by rewrite Hf. Qed.

Lemma named_value {A} (Q : A -> Prop) (x : A) : (exists y, x = y /\ Q y) -> Q x.
Proof. by intros (y & -> & Hq). Qed.

(** every provider run is recorded as what it was.  When no statement fails, a run
    of a stored configuration adds exactly one history row: completed, "success"
    without a message or "failed" with one, and in the first case with every
    selected provider counted once, as synced or as failed; and the configuration's
    row ends with that very status and message, never "in_progress". *)
Theorem run_is_recorded (config : MirrorConfiguration) (w : env (pm Y)) :
  let t := ptab (st w) in
  faults w = [] -> schema t -> below (pnext t) (sh_ID <$> mirror_sync_history t) ->
  mc_ID config ∈ mc_ID <$> mirror_configurations t ->
  let t' := ptab (st (snd (syncMirror storageBackendName docsRepo approvalRepo config w))) in
  exists h now,
    mirror_sync_history t' = mirror_sync_history t ++ [h] /\
    sh_MirrorConfigID h = mc_ID config /\ is_Some (sh_CompletedAt h) /\
    mirror_configurations t' =
      update_rows (fun c => mc_ID c =? mc_ID config)
        (set_sync_status now (sh_Status h) (sh_ErrorMessage h)) (mirror_configurations t) /\
    (sh_Status h = "failed" /\ is_Some (sh_ErrorMessage h) \/
     sh_Status h = "success" /\ sh_ErrorMessage h = None /\
     exists ns ps, selected_providers config = Ok (ns, ps) /\
       (sh_ProvidersSynced h + sh_ProvidersFailed h = Z.of_nat (length ns * length ps))%Z).
Proof.
  intros t Hf Hs Hb Hc t'. subst t'. cbv zeta.
  pattern (ptab (st (snd (syncMirror storageBackendName docsRepo approvalRepo config w)))).
  apply named_value. unfold syncMirror.
  unfold bind at 1. unfold new_uuid, state. cbn [fst snd]. fold t.
  set (w1 := Env _ _ _ _). unfold bind at 1.
  set (now1 := fst (time_now w1)). set (w2 := snd (time_now w1)).
  fold (running_row config (pnext t) now1).
  destruct (create_run_ok config (pnext t) now1 w2) as (Hr & Hf3 & Ht3);
    [done | by destruct t | by destruct t |].
  assert (Hs3 : schema (ptab (st (snd (MirrorRepository.CreateSyncHistory
                  (running_row config (pnext t) now1) w2))))).
  { apply (keeps_create_run (@eq Y) (running_row config (pnext t) now1) w2). by apply schema_bump. }
  unfold bind at 1. set (r3 := MirrorRepository.CreateSyncHistory _ w2) in *.
  rewrite Hr. set (w3 := snd r3) in *. clearbody w3. clear r3 Hr.
  destruct (status_ok (mc_ID config) "in_progress" None w3 Hf3) as (n4 & Hf4 & Ht4).
  pose proof (proj1 (keeps_status (@eq Y) (mc_ID config) "in_progress" None w3) Hs3) as Hs4.
  unfold bind at 1. set (w4 := snd (MirrorRepository.UpdateSyncStatus _ _ _ w3)) in *. clearbody w4.
  unfold bind at 1. pose proof (calm_run config w4 Hf4) as Hf5.
  destruct (step_run storageBackendName docsRepo approvalRepo config (fun _ _ => True) w4) as [Hrun _].
  destruct (Hrun Hs4) as [_ Hstep]. pose proof (rs_configs _ _ _ Hstep) as Hc5.
  pose proof (rs_runs _ _ _ Hstep) as Hh5. pose proof (run_settled config w4) as Hset.
  destruct (run config w4) as [[details err] w5]. cbn [fst snd] in *. clear Hrun Hstep.
  unfold bind at 1. set (now6 := fst (time_now w5)). set (w6 := snd (time_now w5)).
  assert (Hw6 : st w6 = st w5 /\ faults w6 = []) by done. destruct Hw6 as [Hs6 Hf6].
  clearbody w6 now6.
  set (status := match err with Some _ => "failed" | None => "success" end).
  destruct (status_ok (mc_ID config) status (Error <$> err) w6 Hf6) as (n7 & Hf7 & Ht7).
  unfold bind at 1. set (w7 := snd (MirrorRepository.UpdateSyncStatus _ _ _ w6)) in *. clearbody w7.
  unfold bind at 1. cbn [snd ret]. set (row := Build_MirrorSyncHistory _ _ _ _ _ _ _ _ _).
  rewrite (history_ok row w7 Hf7), Ht7, Hs6.
  eexists. split; [done|].
  exists (set_history row (running_row config (pnext t) now1)), n7.
  destruct (ptab (st w5)) as [a5 b5 c5 d5 e5 g5 h5 i5 j5 k5 p5]. cbn in Hc5, Hh5. subst a5 j5.
  rewrite Ht4, Ht3. cbn [w2 w1 time_now fst snd st ptab].
  destruct t as [ta tb tc td te tg th ti tj tk tn]. cbn in Hb |- *.
  split; [exact (update_rows_last sh_ID tn (set_history row) tj (running_row config tn now1)
                   Hb eq_refl)|].
  split; [done|]. split; [by eexists|]. 
  split; [by apply (update_rows_twice mc_ID (mc_ID config) (set_sync_status n4 "in_progress" None)
            (set_sync_status n7 status (Error <$> err)))|].
  unfold status. destruct err as [e|]; [left | right]; [by split; [|eexists]|].
  split; [done|]. split; [done|]. destruct Hset as (ns & ps & Hsel & _ & Hcount & _).
  by exists ns, ps.
Qed.
End Outcome.

(** ** A concrete mirror *)

Module Demo.
Definition world := gmap string string.

Definition linux : upstream_platform := {| up_OS := "linux"; up_Arch := "amd64" |}.
Definition upstream_version : ProviderVersion := {|
  uv_Version := "1.0.0"; uv_Protocols := ["5.0"]; uv_Platforms := [linux] |}.
Definition package (sum : string) : ProviderPackageResponse := {|
  pkg_Filename := "aws.zip"; pkg_DownloadURL := "zip"; pkg_SHASumsURL := "sums";
  pkg_SHASumsSignatureURL := "sig"; pkg_SHA256Sum := sum; pkg_GPGPublicKeys := ["KEY"] |}.

(** The digest the descriptor names depends on the type's name, so that ["bad"] is a
    provider whose binary never matches. *)
#[export] Instance demo_upstream : UpstreamRegistryClient world := {|
  DiscoverServices _ := ret (Ok "/v1/providers/");
  ListProviderVersions _ _ _ := ret (Ok [upstream_version]);
  GetProviderPackage _ _ name _ _ _ :=
    ret (Ok (package (if String.eqb name "bad" then "other" else "d-ZIP")));
  DownloadFile _ u := ret (Ok (if String.eqb u "sums" then "d-ZIP  aws.zip" else "SIG"));
  DownloadFileStream _ _ := ret (Ok (Ok "ZIP"));
  GetProviderDocIndexByVersion _ _ _ _ := ret (Ok []) |}.
#[export] Instance demo_storage : Storage world := {|
  storage_Exists k := fun y => (Ok (bool_decide (is_Some (y !! k))), y);
  storage_Upload k d := fun y =>
    (Ok {| ur_Path := k; ur_Size := Z.of_nat (String.length d); ur_Checksum := "" |}, <[k := d]> y);
|}.
#[export] Instance demo_temp : TempFiles world := {|
  CreateTemp := ret (Ok tt); CopyToTemp _ := ret (Ok tt); SeekStart := ret (Ok tt);
  ReadBack := ret (Ok tt) |}.
#[export] Instance demo_org : Organizations world := ret (Ok (Some 7)).
#[export] Instance demo_sha : Sha256 := fun d => "d-" +:+ d.
#[export] Instance demo_sha64 : Sha256Base64 := fun d => d.
#[export] Instance demo_zip : ZipReader := fun d => Err (ErrMsg "zip: not a valid zip file").
#[export] Instance demo_details : SyncDetailsCodec := fun _ => "{}".
#[export] Instance demo_strings : StringsCodec := {|
  unmarshal_strings s := Ok [s]; marshal_strings _ := Err (ErrMsg "json") |}.
#[export] Instance demo_rules : RulesCodec := fun _ => Err (ErrMsg "json").
#[export] Instance demo_sort : GoSort := stable_sort.
#[export] Instance demo_versions : GoVersion := release_version.

#[export] Program Instance demo_storage_laws : StorageLaws world := {| objects y := y |}.
Next Obligation. done. Qed.
Next Obligation. by left. Qed.
#[export] Instance demo_laws : UpstreamLaws world.
Proof. by split. Qed.
#[export] Instance demo_path : UploadPath world.
Proof. by intros k d y r [= <-]. Qed.

Import ReleasesKeys.Demo.

Definition mirror (gated : bool) (name : string) : MirrorConfiguration := {|
  mc_ID := 1; mc_Name := "m"; mc_UpstreamRegistryURL := "https://up"; mc_OrganizationID := None;
  mc_NamespaceFilter := Some "hashicorp"; mc_ProviderFilter := Some name; mc_VersionFilter := None;
  mc_PlatformFilter := None; mc_Enabled := true; mc_SyncIntervalHours := 24;
  mc_RequiresApproval := gated; mc_AutoApproveRules := None; mc_PullThroughEnabled := false;
  mc_LastSyncAt := None; mc_LastSyncStatus := None; mc_LastSyncError := None |}.

Definition tables (c : MirrorConfiguration) : pdb := PDB [c] [] [] [] [] [] [] [] [] [] 2.

Lemma tables_schema c : mc_ID c = 1 -> schema (tables c).
Proof. intros E. constructor; cbn; try apply NoDup_singleton; constructor. Qed.

Definition start (c : MirrorConfiguration) : env (pm world) := quiet (PM (tables c) ∅).
Definition sync c := snd (performSync "local" true true c (start c)).

(** What a client of the protocol sees of provider [p]. *)
Definition visible (p : uuid) (w : env (pm world)) : res (list string) :=
  match fst (ProviderRepository.ListVisibleVersions p (quiet (st w))) with
  | Ok vs => Ok (pv_Version <$> vs)
  | Err e => Err e
  end.
End Demo.
Import ReleasesKeys.Demo.
Import Demo.


(** A run in which the statements fail as [fs] says. *)
Definition after (c : MirrorConfiguration) (fs : list bool) (w : env (pm world)) : env (pm world) :=
  snd (performSync "local" true true c (Env (st w) fs 0 [])).
Definition statuses (w : env (pm world)) : list (option string) :=
  mpv_ApprovalStatus <$> mirrored_versions (ptab (st w)).

(** the approval gate fails open.  Of a gated mirror, a new version is hidden and
    pending when no statement fails.  When one of the two inserts that only log
    their failure fails - the record of the mirrored provider (the third statement of this
    run) or the tracking row (the eleventh) - the same version is served to clients
    without approval; and the next run, with every statement succeeding, repairs
    the tracking row without a status, so that the version stays visible. *)
Theorem gate_fails_open :
  let c := mirror true "aws" in let fail_at n := replicate n false ++ [true] in
  (visible 2 (after c [] (start c)) = Ok [] /\
   statuses (after c [] (start c)) = [Some VersionApprovalStatusPending]) /\
  Forall (fun n =>
    let w1 := after c (fail_at n) (start c) in let w2 := after c [] w1 in
    visible 2 w1 = Ok ["1.0.0"] /\ statuses w1 = [] /\
    visible 2 w2 = Ok ["1.0.0"] /\ statuses w2 = [None]) [2; 10].
Proof.
  split; [by split; vm_compute|]. repeat apply Forall_cons_2; [..|apply Forall_nil_2];
    (repeat split; by vm_compute).
Qed.

Lemma demo_listed c name : mc_VersionFilter c = None -> listed c "hashicorp" name upstream_version.
Proof. intros E. exists [upstream_version]. split; [by exists ∅|]. rewrite E. by left. Qed.

(** A checksum file that cannot be fetched is passed over: a binary whose descriptor has
    no checksum is then published without a comparison. *)
Module Lossy.
Definition lossy (sums : res string) : UpstreamRegistryClient world := {|
  DiscoverServices _ := ret (Ok "/v1/providers/");
  ListProviderVersions _ _ _ := ret (Ok [upstream_version]);
  GetProviderPackage _ _ _ _ _ _ := ret (Ok (package ""));
  DownloadFile _ u := ret (if String.eqb u "sums" then sums else Ok "SIG");
  DownloadFileStream _ _ := ret (Ok (Ok "TAMPERED"));
  GetProviderDocIndexByVersion _ _ _ _ := ret (Ok []) |}.

Definition binary_after (up : UpstreamRegistryClient world) : option string :=
  pext (st (snd (performSync "local" true true (mirror false "aws") (start (mirror false "aws")))))
  !! "providers/hashicorp/aws/1.0.0/linux/amd64/aws.zip".

Example unread_sums_publish_unchecked :
  binary_after (lossy (Ok "d-ZIP  aws.zip")) = None /\
  binary_after (lossy (Err (ErrMsg "connection reset"))) = Some "TAMPERED".
Proof. by vm_compute. Qed.
End Lossy.

Theorem published_binaries_are_checked_witness :
  let c := mirror true "aws" in let w' := snd (performSync "local" true true c (start c)) in
  pext (st w') !! "providers/hashicorp/aws/1.0.0/linux/amd64/aws.zip" = Some "ZIP" /\
  (only_writes (published c) ∅ (pext (st w')) /\
   exists new, provider_platforms (ptab (st w')) = [] ++ new /\ Forall (recorded "local" c) new).
Proof.
  split; [by vm_compute|].
  exact (published_binaries_are_checked "local" true true (mirror true "aws")
    (start (mirror true "aws")) (tables_schema (mirror true "aws") eq_refl)).
Defined.

(** The second run of the ungated mirror meets the version of the first. *)
Definition mirrored : env (pm world) := after (mirror false "aws") [] (start (mirror false "aws")).

Lemma mirrored_schema : schema (ptab (st mirrored)).
Proof.
  destruct (step_run "local" true true (mirror false "aws") (fun _ _ => True)
    (start (mirror false "aws"))) as [Hr _].
  by apply Hr, tables_schema.
Qed.

Theorem provider_sync_keeps_decisions_witness :
  let t' := ptab (st (snd (performSync "local" true true (mirror true "aws") mirrored))) in
  statuses mirrored = [None] /\
  forall m, In m (mirrored_versions (ptab (st mirrored))) ->
    exists m', In m' (mirrored_versions t') /\ mpv_ID m' = mpv_ID m /\
      mpv_ApprovalStatus m' = mpv_ApprovalStatus m.
Proof.
  split; [by vm_compute|]. intros m Hm.
  destruct (proj1 (proj2 (proj2 (proj2 (proj2 (proj2
    (provider_sync_keeps_decisions "local" true true (mirror true "aws") mirrored mirrored_schema))))))
    m Hm) as (m' & Hin & Hid & _ & _ & Ha).
  exact (ex_intro _ m' (conj Hin (conj Hid Ha))).
Defined.

Definition demo_local : Provider := {|
  pr_ID := 2; pr_OrganizationID := Some 7; pr_Namespace := "hashicorp"; pr_Type := "aws";
  pr_Description := None; pr_Source := None |}.
Definition demo_mirrored : MirroredProvider := {|
  mp_ID := 3; mp_MirrorConfigID := 1; mp_ProviderID := 2; mp_UpstreamNamespace := "hashicorp";
  mp_UpstreamType := "aws"; mp_LastSyncedAt := 0; mp_LastSyncVersion := None;
  mp_SyncEnabled := true |}.

(** The provider is tracked and has no version yet. *)
Definition tracked (c : MirrorConfiguration) : env (pm world) :=
  quiet (PM (PDB [c] [demo_local] [] [] [] [] [demo_mirrored] [] [] [] 4) ∅).

Lemma tracked_schema c : mc_ID c = 1 -> schema (ptab (st (tracked c))).
Proof.
  intros E. constructor; cbn; unfold below, refs;
    first [apply NoDup_singleton | apply NoDup_nil_2 | apply Forall_nil_2 | apply Forall_singleton];
    cbn; rewrite ?E; first [lia | by left].
Qed.

(** The binary of ["bad"] does not have the digest its descriptor names. *)
Theorem failed_version_leaves_nothing_witness :
  let c := mirror true "bad" in
  let r := syncProviderVersion "local" true true "https://up" demo_local demo_mirrored "hashicorp" "bad"
             upstream_version c (tracked c) in
  fst r = Err (ErrMsg "failed to download any platforms for version 1.0.0") /\
  same_tables (ptab (st (tracked c))) (ptab (st (snd r))).
Proof.
  split; [by vm_compute|].
  eapply (failed_version_leaves_nothing "local" true true (mirror true "bad") demo_local demo_mirrored
    "hashicorp" "bad" upstream_version (tracked (mirror true "bad"))
    (ErrMsg "failed to download any platforms for version 1.0.0"));
    [done | by apply tracked_schema | by apply demo_listed | by vm_compute].
Defined.

Theorem new_version_is_gated_witness :
  let c := mirror true "aws" in
  let t' := ptab (st (snd (syncProviderVersion "local" true true "https://up" demo_local demo_mirrored
              "hashicorp" "aws" upstream_version c (tracked c)))) in
  exists row m,
    In row (provider_versions t') /\ pv_ProviderID row = 2 /\ pv_Version row = "1.0.0" /\
    In m (mirrored_versions t') /\ mpv_ProviderVersionID m = pv_ID row /\
    (mpv_ApprovalStatus m = Some VersionApprovalStatusPending /\
     ProviderRepository.not_gated t' row = false \/
     mpv_ApprovalStatus m = Some VersionApprovalStatusApproved /\ rules_approve None "1.0.0").
Proof.
  apply (new_version_is_gated "local" true true (mirror true "aws") demo_local demo_mirrored "hashicorp"
    "aws" upstream_version (tracked (mirror true "aws"))).
  - done.
  - by apply tracked_schema.
  - constructor.
  - by left.
  - by intros m [].
  - done.
  - by apply demo_listed.
  - by vm_compute.
Defined.

Theorem run_is_recorded_witness :
  let c := mirror true "aws" in
  let t' := ptab (st (snd (syncMirror "local" true true c (start c)))) in
  (sh_Status <$> mirror_sync_history t') = ["success"] /\
  exists h now,
    mirror_sync_history t' = [] ++ [h] /\ sh_MirrorConfigID h = 1 /\ is_Some (sh_CompletedAt h) /\
    mirror_configurations t' =
      update_rows (fun r => mc_ID r =? 1) (set_sync_status now (sh_Status h) (sh_ErrorMessage h)) [c] /\
    (sh_Status h = "failed" /\ is_Some (sh_ErrorMessage h) \/
     sh_Status h = "success" /\ sh_ErrorMessage h = None /\
     exists ns ps, selected_providers c = Ok (ns, ps) /\
       (sh_ProvidersSynced h + sh_ProvidersFailed h = Z.of_nat (length ns * length ps))%Z).
Proof.
  split; [by vm_compute|].
  apply (run_is_recorded "local" true true (mirror true "aws") (start (mirror true "aws")));
    [done | by apply tables_schema | constructor | by left].
Defined.
