(* ===== verification/ProvLocal.v ===== *)
(** * The provider mirror on the local storage backend

    [ProvSync], [UpstreamHttp] and [LocalStorage] put together: a mirror run whose
    storage backend is a directory of the server.  The outside of the run is the
    world of its other interfaces - upstream, temporary files, organizations -
    beside the directory tree; the temporary files lie in a tree of their own. *)

From S2P Require Import Prelude GoStrings SemVer VersionFilter AutoApprove Filepath Os.
From S2P Require Import LocalStorage TfReleases Checksums TfMirrorRepo TfMirrorSync ReleasesKeys.
From S2P Require Import ProvRepo ProvSchema UpstreamHttp Upstream ProvSync ProvSafety ProvOutcome.
From stdpp Require Import gmap.

#[local] Open Scope nat_scope.

Section Disk.
Context {N : Type} `{Sha256} (cwd : list string) (s : LocalStorage).
#[local] Abbreviation world := (N * env fs)%type.

Definition beside_disk {A} (c : prog N A) : prog world A := fun y =>
  let r := c (fst y) in (fst r, (snd r, snd y)).

Definition on_disk {A} (c : prog (env fs) A) : prog world A := fun y =>
  let r := c (snd y) in (fst r, (fst y, snd r)).

(** The upload reads the temporary file, which does not fail half way. *)
Definition disk_storage : Storage world := {|
  storage_Exists k := on_disk (LocalStorage.Exists cwd s k);
  storage_Upload k d := on_disk (LocalStorage.Upload cwd s k (d, None) (Z.of_nat (String.length d)));
|}.

Definition disk_upstream `{UpstreamRegistryClient N} : UpstreamRegistryClient world := {|
  DiscoverServices b := beside_disk (DiscoverServices b);
  ListProviderVersions b n p := beside_disk (ListProviderVersions b n p);
  GetProviderPackage b n p v os arch := beside_disk (GetProviderPackage b n p v os arch);
  DownloadFile b u := beside_disk (DownloadFile b u);
  DownloadFileStream b u := beside_disk (DownloadFileStream b u);
  GetProviderDocIndexByVersion b n p v := beside_disk (GetProviderDocIndexByVersion b n p v);
|}.

Definition disk_temp `{TempFiles N} : TempFiles world := {|
  CreateTemp := beside_disk CreateTemp;
  CopyToTemp d := beside_disk (CopyToTemp d);
  SeekStart := beside_disk SeekStart;
  ReadBack := beside_disk ReadBack |}.

Definition disk_org `{Organizations N} : Organizations world :=
  beside_disk (@GetDefaultOrganization N _).

(** How the outside moves: the tree only below the base directory. *)
Definition disk_moves (y y' : world) : Prop := on_st (stays_below cwd s) (snd y) (snd y').

Lemma disk_preorder : named s -> PreOrder disk_moves.
Proof.
  intros Hn. pose proof (stays_below_preorder cwd s (root_nonempty cwd s Hn)) as Hp.
  split; [intros [n w] | intros [n1 w1] [n2 w2] [n3 w3]]; unfold disk_moves; cbn [snd];
    [reflexivity | apply transitivity].
Qed.

Lemma disk_frame `{UR : UpstreamRegistryClient N} `{TF : TempFiles N} `{OG : Organizations N} allowed :
  named s ->
  RunFrame (H := disk_storage) (H0 := disk_upstream) (H1 := disk_temp) (H2 := disk_org)
    world allowed disk_moves.
Proof.
  intros Hn. pose proof (disk_preorder Hn) as Hp.
  constructor; [exact Hp | intros; change (disk_moves y y); reflexivity.. |].
  intros k d y _. exact (upload_stays cwd s k _ _ Hn (snd y)).
Qed.

Lemma disk_path : UploadPath (H := disk_storage) world.
Proof.
  intros k d y r. cbn. unfold LocalStorage.Upload. destruct (safeJoin s k); [|done].
  unfold bind.
  repeat case_match; cbn [fst ret]; by intros [= <-].
Qed.
End Disk.

Section Run.
Context {N : Type} `{GoSort} `{GoVersion} `{RulesCodec} `{StringsCodec} `{MapRange}.
Context `{UR : UpstreamRegistryClient N} `{TF : TempFiles N} `{OG : Organizations N}.
Context `{Sha256} `{Sha256Base64} `{ZipReader} `{OpenPGP} `{!OpenPGPEntities} `{ReleaseKeys}.
Context `{SyncDetailsCodec}.
Context (cwd : list string) (s : LocalStorage) (docsRepo approvalRepo : bool).
#[local] Existing Instances disk_upstream disk_temp disk_org.
#[local] Instance run_storage : Storage (N * env fs) := disk_storage cwd s.

Definition disk_run (config : MirrorConfiguration)
  : prog (env (pm (N * env fs))) (SyncDetails * option gerror) :=
  performSync "local" docsRepo approvalRepo config.

(** C23: a mirror run writes only below the storage directory.  On the local backend,
    with a base directory that is named and exists, whatever the configuration, the
    upstream's names, versions, platforms, file names and contents are and whichever
    statements and system calls fail, the run changes nothing on the disk outside
    the base directory, keeps that directory, and leaves the tree well formed. *)
Theorem provider_run_stays_in_root (config : MirrorConfiguration) (w : env (pm (N * env fs))) :
  let disk w := st (snd (pext (st w))) in let root := loc cwd (basePath s) in
  named s -> closed (nodes (disk w)) -> node_at (nodes (disk w)) root = Some Dir ->
  let w' := snd (disk_run config w) in
  moves_below root (disk w) (disk w') /\ closed (nodes (disk w')) /\
  node_at (nodes (disk w')) root = Some Dir.
Proof.
  intros disk root Hn Hc Hd w'.
  assert (FR : RunFrame (N * env fs) (published (Y := N * env fs) config) (disk_moves cwd s))
    by by apply disk_frame.
  assert (UP : UploadPath (N * env fs)) by apply disk_path.
  pose proof (step_run "local" docsRepo approvalRepo config (disk_moves cwd s) w) as [_ Ho].
  specialize (Ho Hc Hd). split; [exact Ho|]. split; [by apply Ho|].
  exact (root_survives cwd s _ _ (root_nonempty cwd s Hn) Hd Ho).
Qed.
End Run.

(** ** A hostile upstream

    The upstream of [UpstreamHttp] with documents in which every name is chosen to
    leave the storage directory: versions and platforms are parent references.  The
    first version would reach [/etc/passwd] and is refused; the second one leaves its
    provider's directory, but not the backend's. *)

Module Hostile.
Import ProvOutcome.Demo ReleasesKeys.Demo.

Definition dots (version : string) : Upstream.ProviderVersion := {|
  uv_Version := version; uv_Protocols := ["5.0"];
  uv_Platforms := [{| up_OS := ".."; up_Arch := "etc" |}] |}.
Definition listing : list Upstream.ProviderVersion := [dots "../../../.."; dots ".."].
Definition descriptor : ProviderPackageResponse := {|
  pkg_Filename := "passwd"; pkg_DownloadURL := "https://up/file"; pkg_SHASumsURL := "";
  pkg_SHASumsSignatureURL := ""; pkg_SHA256Sum := ""; pkg_GPGPublicKeys := [] |}.

#[export] Instance codec : UpstreamCodec := {|
  decode_discovery t := Ok t;
  decode_versions _ := Ok listing;
  decode_package _ := Ok descriptor;
  decode_v2_provider _ := Err (ErrMsg "json");
  decode_v2_versions _ := Err (ErrMsg "json");
  decode_v2_docs _ := Err (ErrMsg "json");
  decode_v2_content _ := Err (ErrMsg "json") |}.
#[export] Instance urls : UrlText := {|
  resolve_reference base r := base +:+ r; path_escape s := s; query_escape s := s |}.

(** Every request is answered. *)
#[export] Instance http : Http unit := {|
  http_get _ := ret (Ok (200, Ok "{}")); http_download _ := ret (Ok (200, Ok "root::0:0")) |}%Z.
#[export] Instance temp : TempFiles unit := {|
  CreateTemp := ret (Ok tt); CopyToTemp _ := ret (Ok tt); SeekStart := ret (Ok tt);
  ReadBack := ret (Ok tt) |}.
#[export] Instance org : Organizations unit := ret (Ok None).
#[export] Instance upstream : UpstreamRegistryClient unit := http_upstream 10.

Definition registry : LocalStorage :=
  {| basePath := "/srv/registry"; serveDirectly := true; baseURL := "" |}.
Definition disk0 : gmap (list string) node :=
  {[ ["srv"] := Dir; ["srv"; "registry"] := Dir; ["etc"] := Dir; ["etc"; "passwd"] := File "root:x:0:0" ]}.
(** Namespace and type come from the configuration. *)
Definition config (namespace name : string) : MirrorConfiguration := {|
  mc_ID := 1; mc_Name := "m"; mc_UpstreamRegistryURL := "https://up"; mc_OrganizationID := None;
  mc_NamespaceFilter := Some namespace; mc_ProviderFilter := Some name; mc_VersionFilter := None;
  mc_PlatformFilter := None; mc_Enabled := true; mc_SyncIntervalHours := 24;
  mc_RequiresApproval := false; mc_AutoApproveRules := None; mc_PullThroughEnabled := false;
  mc_LastSyncAt := None; mc_LastSyncStatus := None; mc_LastSyncError := None |}.

Definition start (c : MirrorConfiguration) : env (pm (unit * env fs)) :=
  quiet (PM (tables c) (tt, quiet (Fs disk0 []))).

Definition run (c : MirrorConfiguration) : Os.tree :=
  nodes (st (snd (pext (st (snd (disk_run (N := unit) ["srv"] registry true true c (start c))))))).
End Hostile.
Import ReleasesKeys.Demo ProvOutcome.Demo Hostile.

Theorem provider_run_stays_in_root_witness :
  let c := config "hashicorp" "aws" in
  run c !! ["srv"; "registry"; "providers"; "etc"; "passwd"] = Some (File "root::0:0") /\
  run c !! ["etc"; "passwd"] = Some (File "root:x:0:0") /\
  (moves_below ["srv"; "registry"] (Fs disk0 []) (st (snd (pext (st (snd
     (disk_run (N := unit) ["srv"] registry true true c (start c))))))) /\
   closed (run c) /\ node_at (run c) ["srv"; "registry"] = Some Dir).
Proof.
  split; [by vm_compute|]. split; [by vm_compute|].
  apply (provider_run_stays_in_root (N := unit) ["srv"] registry true true (config "hashicorp" "aws")
           (start (config "hashicorp" "aws"))).
  - by exists ["srv"], "registry".
  - apply closedb_sound. by vm_compute.
  - by vm_compute.
Defined.
