(* ===== verification/ScmRepo.v ===== *)
(** * The tables of the source-control integration

    The rows of [internal/scm/types.go] and [internal/db/models/module.go] the
    integration works on, with the statements of
    [internal/db/repositories/scm_repository.go] and those of
    [module_repository.go] the publisher runs, one Module per repository.  The
    constraints are those of [internal/db/migrations]; the lengths of text columns,
    audit columns and joined names are left out, and so are the tables of users and
    organizations. *)

From S2P Require Import Prelude GoStrings SemVer TfMirrorRepo Tables.

#[local] Open Scope Z_scope.

(** ** Rows *)

(** [ProviderType], kept as the text it is stored as. *)
Definition ProviderGitHub : string := "github".
Definition ProviderAzureDevOps : string := "azuredevops".
Definition ProviderGitLab : string := "gitlab".
Definition ProviderBitbucketDC : string := "bitbucket_dc".

Definition AuthModeOAuthUser : string := "oauth_user".
Definition AuthModeEntraApp : string := "entra_app".
Definition AuthModeGitHubApp : string := "github_app".

Record SCMProvider := {
  scp_ID : uuid;
  scp_OrganizationID : uuid;
  scp_ProviderType : string;
  scp_Name : string;
  scp_BaseURL : option string;
  scp_TenantID : option string;
  scp_ClientID : string;
  scp_ClientSecretEncrypted : string;
  scp_WebhookSecret : string;
  scp_AuthMode : string;
  scp_GitHubAppID : option string;
  scp_GitHubInstallationID : option string;
  scp_EncryptedAppPrivateKey : option string;
  scp_IsActive : bool;
}.

Record SCMProviderToken := {
  pt_SCMProviderID : uuid;
  pt_AccessTokenEncrypted : string;
  pt_TokenType : string;
  pt_ExpiresAt : option Z;
}.

Record SCMOAuthToken := {
  ot_ID : uuid;
  ot_UserID : uuid;
  ot_SCMProviderID : uuid;
  ot_AccessTokenEncrypted : string;
  ot_RefreshTokenEncrypted : option string;
  ot_TokenType : string;
  ot_ExpiresAt : option Z;
  ot_Scopes : option string;
}.

Record ModuleSCMRepo := {
  ms_ID : uuid;
  ms_ModuleID : uuid;
  ms_SCMProviderID : uuid;
  ms_RepositoryOwner : string;
  ms_RepositoryName : string;
  ms_RepositoryURL : option string;
  ms_DefaultBranch : string;
  ms_ModulePath : string;
  ms_TagPattern : string;
  ms_AutoPublish : bool;
  ms_WebhookID : option string;
  ms_WebhookURL : option string;
  ms_WebhookEnabled : bool;
  ms_LastSyncAt : option Z;
  ms_LastSyncCommit : option string;
}.

(** Payload and headers as their JSON texts. *)
Record SCMWebhookEvent := {
  we_ID : uuid;
  we_ModuleSCMRepoID : uuid;
  we_EventID : option string;
  we_EventType : string;
  we_Ref : option string;
  we_CommitSHA : option string;
  we_TagName : option string;
  we_Payload : string;
  we_Headers : string;
  we_Signature : option string;
  we_SignatureValid : option bool;
  we_Processed : bool;
  we_ProcessingStartedAt : option Z;
  we_ProcessedAt : option Z;
  we_ResultVersionID : option uuid;
  we_Error : option string;
  we_RetryCount : Z;
  we_MaxRetries : Z;
  we_NextRetryAt : option Z;
  we_LastError : option string;
  we_CreatedAt : Z;
}.

Record VersionImmutabilityViolation := {
  vi_ID : uuid;
  vi_ModuleVersionID : uuid;
  vi_TagName : string;
  vi_OriginalCommitSHA : string;
  vi_DetectedCommitSHA : string;
  vi_DetectedAt : Z;
  vi_Resolved : bool;
  vi_ResolvedAt : option Z;
  vi_ResolvedBy : option uuid;
  vi_Notes : option string;
}.

Record Module := {
  mo_ID : uuid;
  mo_Namespace : string;
  mo_Name : string;
  mo_System : string;
  (** a user's identifier, as text *)
  mo_CreatedBy : option string;
}.

Record ModuleVersion := {
  mv_ID : uuid;
  mv_ModuleID : uuid;
  mv_Version : string;
  mv_StoragePath : string;
  mv_StorageBackend : string;
  mv_SizeBytes : Z;
  mv_Checksum : string;
  mv_Readme : option string;
  mv_CommitSHA : option string;
  mv_TagName : option string;
  mv_SCMRepoID : option uuid;
}.

(** ** Tables *)

Record sdb := SDB {
  scm_providers : list SCMProvider;
  scm_provider_tokens : list SCMProviderToken;
  scm_oauth_tokens : list SCMOAuthToken;
  module_scm_repos : list ModuleSCMRepo;
  scm_webhook_events : list SCMWebhookEvent;
  immutability_violations : list VersionImmutabilityViolation;
  modules : list Module;
  module_versions : list ModuleVersion;
  (** queued scans, and versions with documentation *)
  module_version_scans : list uuid;
  module_version_docs : list (uuid * string);
  snext : uuid;
}.

Definition on_scm_providers f (t : sdb) : sdb :=
  let '(SDB a b c d e g h i j k n) := t in SDB (f a) b c d e g h i j k n.
Definition on_provider_tokens f (t : sdb) : sdb :=
  let '(SDB a b c d e g h i j k n) := t in SDB a (f b) c d e g h i j k n.
Definition on_user_tokens f (t : sdb) : sdb :=
  let '(SDB a b c d e g h i j k n) := t in SDB a b (f c) d e g h i j k n.
Definition on_links f (t : sdb) : sdb :=
  let '(SDB a b c d e g h i j k n) := t in SDB a b c (f d) e g h i j k n.
Definition on_webhooks f (t : sdb) : sdb :=
  let '(SDB a b c d e g h i j k n) := t in SDB a b c d (f e) g h i j k n.
Definition on_violations f (t : sdb) : sdb :=
  let '(SDB a b c d e g h i j k n) := t in SDB a b c d e (f g) h i j k n.
Definition on_mversions f (t : sdb) : sdb :=
  let '(SDB a b c d e g h i j k n) := t in SDB a b c d e g h (f i) j k n.
Definition on_scans f (t : sdb) : sdb :=
  let '(SDB a b c d e g h i j k n) := t in SDB a b c d e g h i (f j) k n.
Definition on_mdocs f (t : sdb) : sdb :=
  let '(SDB a b c d e g h i j k n) := t in SDB a b c d e g h i j (f k) n.
Definition sbump (t : sdb) : sdb :=
  let '(SDB a b c d e g h i j k n) := t in SDB a b c d e g h i j k (S n).

#[export] Instance sdb_serial : Serial sdb := {| next_id := snext; used_id := sbump |}.

Definition any {R} (cond : R -> bool) (rows : list R) : bool := List.existsb cond rows.

Definition duplicate_key := ErrMsg "duplicate key value violates unique constraint".
Definition missing_parent := ErrMsg "violates foreign key constraint".
Definition check_failed := ErrMsg "violates check constraint".

(** The cascades of the schema: events go with their link, and a published version
    forgets it. *)
Definition drop_links (gone : ModuleSCMRepo -> bool) (t : sdb) : sdb :=
  let ids := ms_ID <$> List.filter gone (module_scm_repos t) in
  let hit i := any (Nat.eqb i) ids in
  on_links (List.filter (fun l => negb (gone l)))
    (on_webhooks (List.filter (fun e => negb (hit (we_ModuleSCMRepoID e))))
      (on_mversions (fmap (fun v => {|
         mv_ID := mv_ID v; mv_ModuleID := mv_ModuleID v; mv_Version := mv_Version v;
         mv_StoragePath := mv_StoragePath v; mv_StorageBackend := mv_StorageBackend v;
         mv_SizeBytes := mv_SizeBytes v; mv_Checksum := mv_Checksum v; mv_Readme := mv_Readme v;
         mv_CommitSHA := mv_CommitSHA v; mv_TagName := mv_TagName v;
         mv_SCMRepoID := match mv_SCMRepoID v with
                         | Some i => if hit i then None else Some i
                         | None => None end |})) t)).

(** [Scan] of a JSONB column into a [map[string]interface{}], as reading an event's
    payload and headers does.  [database/sql] has no such conversion and returns
    "unsupported Scan" for the bytes lib/pq delivers: false in production.  With a
    driver that converts, true. *)
Class JsonbScan := jsonb_scans : bool.

(** ** [internal/db/repositories/scm_repository.go] *)

Module SCMRepository.
Section SCMRepository.
Context {Y : Type} `{GoSort} `{JsonbScan}.
#[local] Abbreviation P := (prog (env (beside sdb Y))).

(** *** Providers *)

(** The table's checks. *)
Definition provider_ok (p : SCMProvider) : bool :=
  List.existsb (String.eqb (scp_ProviderType p))
    [ProviderGitHub; ProviderAzureDevOps; ProviderGitLab; ProviderBitbucketDC] &&
  List.existsb (String.eqb (scp_AuthMode p)) [AuthModeOAuthUser; AuthModeEntraApp; AuthModeGitHubApp] &&
  (negb (String.eqb (scp_AuthMode p) AuthModeGitHubApp) ||
   bool_decide (is_Some (scp_GitHubAppID p)) && bool_decide (is_Some (scp_GitHubInstallationID p)) &&
   bool_decide (is_Some (scp_EncryptedAppPrivateKey p))).

Definition same_name (p q : SCMProvider) : bool :=
  (scp_OrganizationID p =? scp_OrganizationID q)%nat &&
  String.eqb (scp_ProviderType p) (scp_ProviderType q) && String.eqb (scp_Name p) (scp_Name q).

Definition with_auth_mode (p : SCMProvider) : SCMProvider := {|
  scp_ID := scp_ID p; scp_OrganizationID := scp_OrganizationID p;
  scp_ProviderType := scp_ProviderType p; scp_Name := scp_Name p; scp_BaseURL := scp_BaseURL p;
  scp_TenantID := scp_TenantID p; scp_ClientID := scp_ClientID p;
  scp_ClientSecretEncrypted := scp_ClientSecretEncrypted p;
  scp_WebhookSecret := scp_WebhookSecret p;
  scp_AuthMode := if String.eqb (scp_AuthMode p) "" then AuthModeOAuthUser else scp_AuthMode p;
  scp_GitHubAppID := scp_GitHubAppID p; scp_GitHubInstallationID := scp_GitHubInstallationID p;
  scp_EncryptedAppPrivateKey := scp_EncryptedAppPrivateKey p; scp_IsActive := scp_IsActive p |}.

Definition CreateProvider (provider : SCMProvider) : P (res unit) :=
  let row := with_auth_mode provider in
  sql "CreateProvider" (fun t =>
    if any (fun p => (scp_ID p =? scp_ID row)%nat || same_name p row) (scm_providers t)
    then (Err duplicate_key, t)
    else if negb (provider_ok row) then (Err check_failed, t)
    else (Ok tt, on_scm_providers (fun rows => rows ++ [row]) t)).

Definition GetProviderByOrgAndName (orgID : uuid) (providerType name : string)
  : P (res (option SCMProvider)) :=
  query "GetProviderByOrgAndName" (fun t => Ok (List.find (fun p =>
    (scp_OrganizationID p =? orgID)%nat && String.eqb (scp_ProviderType p) providerType &&
    String.eqb (scp_Name p) name) (scm_providers t))).

Definition GetProvider (id : uuid) : P (res (option SCMProvider)) :=
  query "GetProvider" (fun t => Ok (List.find (fun p => (scp_ID p =? id)%nat) (scm_providers t))).

(** Newest first; [None] is [uuid.Nil], every organization's. *)
Definition ListProviders (orgID : option uuid) : P (res (list SCMProvider)) :=
  query "ListProviders" (fun t => Ok (rev (List.filter (fun p =>
    match orgID with Some org => (scp_OrganizationID p =? org)%nat | None => true end)
    (scm_providers t)))).

(** What an update writes: organization and type stay. *)
Definition set_provider (row p : SCMProvider) : SCMProvider := {|
  scp_ID := scp_ID p; scp_OrganizationID := scp_OrganizationID p;
  scp_ProviderType := scp_ProviderType p; scp_Name := scp_Name row; scp_BaseURL := scp_BaseURL row;
  scp_TenantID := scp_TenantID row; scp_ClientID := scp_ClientID row;
  scp_ClientSecretEncrypted := scp_ClientSecretEncrypted row;
  scp_WebhookSecret := scp_WebhookSecret row; scp_AuthMode := scp_AuthMode row;
  scp_GitHubAppID := scp_GitHubAppID row; scp_GitHubInstallationID := scp_GitHubInstallationID row;
  scp_EncryptedAppPrivateKey := scp_EncryptedAppPrivateKey row; scp_IsActive := scp_IsActive row |}.

Definition UpdateProvider (provider : SCMProvider) : P (res unit) :=
  let row := with_auth_mode provider in
  sql "UpdateProvider" (fun t =>
    match List.find (fun p => (scp_ID p =? scp_ID row)%nat) (scm_providers t) with
    | None => (Ok tt, t)
    | Some old =>
        let new := set_provider row old in
        if any (fun p => negb (scp_ID p =? scp_ID new)%nat && same_name p new) (scm_providers t)
        then (Err duplicate_key, t)
        else if negb (provider_ok new) then (Err check_failed, t)
        else (Ok tt, on_scm_providers
                (update_rows (fun p => (scp_ID p =? scp_ID row)%nat) (set_provider row)) t)
    end).

(** Its tokens and its links go with it. *)
Definition DeleteProvider (id : uuid) : P (res unit) :=
  exec "DeleteProvider" (fun t =>
    on_scm_providers (List.filter (fun p => negb (scp_ID p =? id)%nat))
      (on_provider_tokens (List.filter (fun k => negb (pt_SCMProviderID k =? id)%nat))
        (on_user_tokens (List.filter (fun k => negb (ot_SCMProviderID k =? id)%nat))
          (drop_links (fun l => (ms_SCMProviderID l =? id)%nat) t)))).

(** *** Tokens *)

Definition provider_exists (id : uuid) (t : sdb) : bool :=
  any (fun p => (scp_ID p =? id)%nat) (scm_providers t).

Definition GetProviderToken (providerID : uuid) : P (res (option SCMProviderToken)) :=
  query "GetProviderToken" (fun t =>
    Ok (List.find (fun k => (pt_SCMProviderID k =? providerID)%nat) (scm_provider_tokens t))).

Definition UpsertProviderToken (token : SCMProviderToken) : P (res unit) :=
  sql "UpsertProviderToken" (fun t =>
    if negb (provider_exists (pt_SCMProviderID token) t) then (Err missing_parent, t)
    else (Ok tt, on_provider_tokens (fun rows =>
            List.filter (fun k => negb (pt_SCMProviderID k =? pt_SCMProviderID token)%nat) rows
            ++ [token]) t)).

Definition DeleteProviderToken (providerID : uuid) : P (res unit) :=
  exec "DeleteProviderToken"
    (on_provider_tokens (List.filter (fun k => negb (pt_SCMProviderID k =? providerID)%nat))).

Definition same_user_token (a b : SCMOAuthToken) : bool :=
  (ot_UserID a =? ot_UserID b)%nat && (ot_SCMProviderID a =? ot_SCMProviderID b)%nat.

(** A conflicting insert keeps the row's identifier. *)
Definition set_user_token (token k : SCMOAuthToken) : SCMOAuthToken := {|
  ot_ID := ot_ID k; ot_UserID := ot_UserID k; ot_SCMProviderID := ot_SCMProviderID k;
  ot_AccessTokenEncrypted := ot_AccessTokenEncrypted token;
  ot_RefreshTokenEncrypted := ot_RefreshTokenEncrypted token; ot_TokenType := ot_TokenType token;
  ot_ExpiresAt := ot_ExpiresAt token; ot_Scopes := ot_Scopes token |}.

Definition SaveUserToken (token : SCMOAuthToken) : P (res unit) :=
  sql "SaveUserToken" (fun t =>
    if any (same_user_token token) (scm_oauth_tokens t)
    then (Ok tt, on_user_tokens (update_rows (same_user_token token) (set_user_token token)) t)
    else if any (fun k => (ot_ID k =? ot_ID token)%nat) (scm_oauth_tokens t)
    then (Err duplicate_key, t)
    else if negb (provider_exists (ot_SCMProviderID token) t) then (Err missing_parent, t)
    else (Ok tt, on_user_tokens (fun rows => rows ++ [token]) t)).

Definition user_token_of (userID providerID : uuid) (k : SCMOAuthToken) : bool :=
  (ot_UserID k =? userID)%nat && (ot_SCMProviderID k =? providerID)%nat.

Definition GetUserToken (userID providerID : uuid) : P (res (option SCMOAuthToken)) :=
  query "GetUserToken" (fun t => Ok (List.find (user_token_of userID providerID) (scm_oauth_tokens t))).

Definition DeleteUserToken (userID providerID : uuid) : P (res unit) :=
  exec "DeleteUserToken"
    (on_user_tokens (List.filter (fun k => negb (user_token_of userID providerID k)))).

(** *** Links between modules and repositories *)

Definition CreateModuleSourceRepo (link : ModuleSCMRepo) : P (res unit) :=
  sql "CreateModuleSourceRepo" (fun t =>
    if any (fun l => (ms_ID l =? ms_ID link)%nat || (ms_ModuleID l =? ms_ModuleID link)%nat)
         (module_scm_repos t)
    then (Err duplicate_key, t)
    else if negb (any (fun m => (mo_ID m =? ms_ModuleID link)%nat) (modules t) &&
                  provider_exists (ms_SCMProviderID link) t)
    then (Err missing_parent, t)
    else (Ok tt, on_links (fun rows => rows ++ [link]) t)).

Definition GetModuleSourceRepo (moduleID : uuid) : P (res (option ModuleSCMRepo)) :=
  query "GetModuleSourceRepo" (fun t =>
    Ok (List.find (fun l => (ms_ModuleID l =? moduleID)%nat) (module_scm_repos t))).

Definition GetModuleSourceRepoByID (id : uuid) : P (res (option ModuleSCMRepo)) :=
  query "GetModuleSourceRepoByID" (fun t =>
    Ok (List.find (fun l => (ms_ID l =? id)%nat) (module_scm_repos t))).

(** Module and provider of a link stay. *)
Definition set_link (link l : ModuleSCMRepo) : ModuleSCMRepo := {|
  ms_ID := ms_ID l; ms_ModuleID := ms_ModuleID l; ms_SCMProviderID := ms_SCMProviderID l;
  ms_RepositoryOwner := ms_RepositoryOwner link; ms_RepositoryName := ms_RepositoryName link;
  ms_RepositoryURL := ms_RepositoryURL link; ms_DefaultBranch := ms_DefaultBranch link;
  ms_ModulePath := ms_ModulePath link; ms_TagPattern := ms_TagPattern link;
  ms_AutoPublish := ms_AutoPublish link; ms_WebhookID := ms_WebhookID link;
  ms_WebhookURL := ms_WebhookURL link; ms_WebhookEnabled := ms_WebhookEnabled link;
  ms_LastSyncAt := ms_LastSyncAt link; ms_LastSyncCommit := ms_LastSyncCommit link |}.

Definition UpdateModuleSourceRepo (link : ModuleSCMRepo) : P (res unit) :=
  exec "UpdateModuleSourceRepo"
    (on_links (update_rows (fun l => (ms_ID l =? ms_ID link)%nat) (set_link link))).

Definition DeleteModuleSourceRepo (moduleID : uuid) : P (res unit) :=
  exec "DeleteModuleSourceRepo" (drop_links (fun l => (ms_ModuleID l =? moduleID)%nat)).

(** *** Webhook events *)

Definition version_exists (v : uuid) (t : sdb) : bool :=
  any (fun r => (mv_ID r =? v)%nat) (module_versions t).

Definition result_ok (v : option uuid) (t : sdb) : bool :=
  match v with Some v => version_exists v t | None => true end.

(** The retry columns take the table's defaults. *)
Definition CreateWebhookLog (log : SCMWebhookEvent) : P (res unit) :=
  sql "CreateWebhookLog" (fun t =>
    if any (fun e => (we_ID e =? we_ID log)%nat) (scm_webhook_events t)
    then (Err duplicate_key, t)
    else if negb (any (fun l => (ms_ID l =? we_ModuleSCMRepoID log)%nat) (module_scm_repos t) &&
                  result_ok (we_ResultVersionID log) t)
    then (Err missing_parent, t)
    else (Ok tt, on_webhooks (fun rows => rows ++ [{|
      we_ID := we_ID log; we_ModuleSCMRepoID := we_ModuleSCMRepoID log;
      we_EventID := we_EventID log; we_EventType := we_EventType log; we_Ref := we_Ref log;
      we_CommitSHA := we_CommitSHA log; we_TagName := we_TagName log; we_Payload := we_Payload log;
      we_Headers := we_Headers log; we_Signature := we_Signature log;
      we_SignatureValid := we_SignatureValid log; we_Processed := false;
      we_ProcessingStartedAt := we_ProcessingStartedAt log; we_ProcessedAt := we_ProcessedAt log;
      we_ResultVersionID := we_ResultVersionID log; we_Error := we_Error log; we_RetryCount := 0;
      we_MaxRetries := 3; we_NextRetryAt := None; we_LastError := None;
      we_CreatedAt := we_CreatedAt log |}]) t)).

(** A statement that reads whole rows of the table fails as soon as it meets one. *)
Definition scanned (rows : list SCMWebhookEvent) : res (list SCMWebhookEvent) :=
  match rows with
  | [] => Ok []
  | _ => if jsonb_scans then Ok rows else Err (ErrMsg "unsupported Scan")
  end.

Definition GetWebhookLog (id : uuid) : P (res (option SCMWebhookEvent)) :=
  query "GetWebhookLog" (fun t =>
    match scanned (List.filter (fun e => (we_ID e =? id)%nat) (scm_webhook_events t)) with
    | Ok rows => Ok (head rows)
    | Err e => Err e
    end).

Definition ListWebhookLogs (repoID : uuid) (limit : nat) : P (res (list SCMWebhookEvent)) :=
  query "ListWebhookLogs" (fun t =>
    scanned (take limit (go_sort (fun a b => we_CreatedAt b <? we_CreatedAt a)
      (List.filter (fun e => (we_ModuleSCMRepoID e =? repoID)%nat) (scm_webhook_events t))))).

Definition set_processing (now : Z) (e : SCMWebhookEvent) : SCMWebhookEvent := {|
  we_ID := we_ID e; we_ModuleSCMRepoID := we_ModuleSCMRepoID e; we_EventID := we_EventID e;
  we_EventType := we_EventType e; we_Ref := we_Ref e; we_CommitSHA := we_CommitSHA e;
  we_TagName := we_TagName e; we_Payload := we_Payload e; we_Headers := we_Headers e;
  we_Signature := we_Signature e; we_SignatureValid := we_SignatureValid e;
  we_Processed := we_Processed e; we_ProcessingStartedAt := Some now;
  we_ProcessedAt := we_ProcessedAt e; we_ResultVersionID := we_ResultVersionID e;
  we_Error := we_Error e; we_RetryCount := we_RetryCount e; we_MaxRetries := we_MaxRetries e;
  we_NextRetryAt := we_NextRetryAt e; we_LastError := we_LastError e;
  we_CreatedAt := we_CreatedAt e |}.

Definition set_processed (now : Z) (errorMsg : option string) (versionID : option uuid)
  (e : SCMWebhookEvent) : SCMWebhookEvent := {|
  we_ID := we_ID e; we_ModuleSCMRepoID := we_ModuleSCMRepoID e; we_EventID := we_EventID e;
  we_EventType := we_EventType e; we_Ref := we_Ref e; we_CommitSHA := we_CommitSHA e;
  we_TagName := we_TagName e; we_Payload := we_Payload e; we_Headers := we_Headers e;
  we_Signature := we_Signature e; we_SignatureValid := we_SignatureValid e;
  we_Processed := true; we_ProcessingStartedAt := we_ProcessingStartedAt e;
  we_ProcessedAt := Some now; we_ResultVersionID := versionID; we_Error := errorMsg;
  we_RetryCount := we_RetryCount e; we_MaxRetries := we_MaxRetries e;
  we_NextRetryAt := we_NextRetryAt e; we_LastError := we_LastError e;
  we_CreatedAt := we_CreatedAt e |}.

Definition set_retry (processed : bool) (count : Z) (lastError : option string) (nextRetryAt : Z)
  (e : SCMWebhookEvent) : SCMWebhookEvent := {|
  we_ID := we_ID e; we_ModuleSCMRepoID := we_ModuleSCMRepoID e; we_EventID := we_EventID e;
  we_EventType := we_EventType e; we_Ref := we_Ref e; we_CommitSHA := we_CommitSHA e;
  we_TagName := we_TagName e; we_Payload := we_Payload e; we_Headers := we_Headers e;
  we_Signature := we_Signature e; we_SignatureValid := we_SignatureValid e;
  we_Processed := processed; we_ProcessingStartedAt := we_ProcessingStartedAt e;
  we_ProcessedAt := we_ProcessedAt e; we_ResultVersionID := we_ResultVersionID e;
  we_Error := we_Error e; we_RetryCount := count; we_MaxRetries := we_MaxRetries e;
  we_NextRetryAt := Some nextRetryAt; we_LastError := lastError;
  we_CreatedAt := we_CreatedAt e |}.

Definition event_is (id : uuid) (e : SCMWebhookEvent) : bool := (we_ID e =? id)%nat.

Definition UpdateWebhookLogState (id : uuid) (state : string) (errorMsg : option string)
  (versionID : option uuid) : P (res unit) :=
  let! now := time_now in
  if String.eqb state "processing"
  then exec "UpdateWebhookLogState" (on_webhooks (update_rows (event_is id) (set_processing now)))
  else sql "UpdateWebhookLogState" (fun t =>
    if any (event_is id) (scm_webhook_events t) && negb (result_ok versionID t)
    then (Err missing_parent, t)
    else (Ok tt, on_webhooks (update_rows (event_is id) (set_processed now errorMsg versionID)) t)).

Definition retryable (now : Z) (e : SCMWebhookEvent) : bool :=
  negb (we_Processed e) &&
  match we_NextRetryAt e with Some t => t <=? now | None => false end &&
  (we_RetryCount e <? we_MaxRetries e).

Definition retry_at (e : SCMWebhookEvent) : Z := default 0 (we_NextRetryAt e).

Definition GetRetryableWebhookEvents (limit : nat) : P (res (list SCMWebhookEvent)) :=
  let! now := time_now in
  query "GetRetryableWebhookEvents" (fun t =>
    scanned (take limit (go_sort (fun a b => retry_at a <? retry_at b)
      (List.filter (retryable now) (scm_webhook_events t))))).

Definition SetWebhookRetryState (id : uuid) (retryCount : Z) (lastError : string) (nextRetryAt : Z)
  : P (res unit) :=
  exec "SetWebhookRetryState" (on_webhooks (update_rows (event_is id)
    (fun e => set_retry (we_Processed e) retryCount (Some lastError) nextRetryAt e))).

Definition MarkWebhookForRetry (id : uuid) (nextRetryAt : Z) : P (res unit) :=
  exec "MarkWebhookForRetry" (on_webhooks (update_rows (event_is id)
    (fun e => set_retry false (we_RetryCount e) (we_LastError e) nextRetryAt e))).

(** *** Immutability alerts *)

Definition CreateImmutabilityAlert (alert : VersionImmutabilityViolation) : P (res unit) :=
  sql "CreateImmutabilityAlert" (fun t =>
    if any (fun v => (vi_ID v =? vi_ID alert)%nat) (immutability_violations t)
    then (Err duplicate_key, t)
    else if negb (version_exists (vi_ModuleVersionID alert) t) then (Err missing_parent, t)
    else (Ok tt, on_violations (fun rows => rows ++ [alert]) t)).

Definition ListUnacknowledgedAlerts : P (res (list VersionImmutabilityViolation)) :=
  query "ListUnacknowledgedAlerts" (fun t =>
    Ok (go_sort (fun a b => vi_DetectedAt b <? vi_DetectedAt a)
          (List.filter (fun v => negb (vi_Resolved v)) (immutability_violations t)))).

Definition set_resolved (now : Z) (userID : uuid) (note : string) (v : VersionImmutabilityViolation)
  : VersionImmutabilityViolation := {|
  vi_ID := vi_ID v; vi_ModuleVersionID := vi_ModuleVersionID v; vi_TagName := vi_TagName v;
  vi_OriginalCommitSHA := vi_OriginalCommitSHA v; vi_DetectedCommitSHA := vi_DetectedCommitSHA v;
  vi_DetectedAt := vi_DetectedAt v; vi_Resolved := true; vi_ResolvedAt := Some now;
  vi_ResolvedBy := Some userID; vi_Notes := Some note |}.

Definition AcknowledgeAlert (id userID : uuid) (note : string) : P (res unit) :=
  let! now := time_now in
  exec "AcknowledgeAlert"
    (on_violations (update_rows (fun v => (vi_ID v =? id)%nat) (set_resolved now userID note))).
End SCMRepository.
End SCMRepository.

(** ** [internal/db/repositories/module_repository.go] and the module's satellites *)

Module ModuleRepository.
Section ModuleRepository.
Context {Y : Type}.
#[local] Abbreviation P := (prog (env (beside sdb Y))).

Definition GetModuleByID (id : uuid) : P (res (option Module)) :=
  query "failed to get module by ID" (fun t =>
    Ok (List.find (fun m => (mo_ID m =? id)%nat) (modules t))).

Definition version_is (moduleID : uuid) (version : string) (v : ModuleVersion) : bool :=
  (mv_ModuleID v =? moduleID)%nat && String.eqb (mv_Version v) version.

Definition GetVersion (moduleID : uuid) (version : string) : P (res (option ModuleVersion)) :=
  query "failed to get module version" (fun t =>
    Ok (List.find (version_is moduleID version) (module_versions t))).

(** The identifier is the one the database draws, written back into the caller's
    record; the identifier the record came with is not used. *)
Definition with_id (id : uuid) (v : ModuleVersion) : ModuleVersion := {|
  mv_ID := id; mv_ModuleID := mv_ModuleID v; mv_Version := mv_Version v;
  mv_StoragePath := mv_StoragePath v; mv_StorageBackend := mv_StorageBackend v;
  mv_SizeBytes := mv_SizeBytes v; mv_Checksum := mv_Checksum v; mv_Readme := mv_Readme v;
  mv_CommitSHA := mv_CommitSHA v; mv_TagName := mv_TagName v; mv_SCMRepoID := mv_SCMRepoID v |}.

Definition CreateVersion (version : ModuleVersion) : P (res ModuleVersion) :=
  sql "failed to create module version" (fun t =>
    if any (version_is (mv_ModuleID version) (mv_Version version)) (module_versions t)
    then (Err (ErrWrap "failed to create module version" duplicate_key), t)
    else if negb (any (fun m => (mo_ID m =? mv_ModuleID version)%nat) (modules t) &&
                  match mv_SCMRepoID version with
                  | Some l => any (fun r => (ms_ID r =? l)%nat) (module_scm_repos t)
                  | None => true end)
    then (Err (ErrWrap "failed to create module version" missing_parent), t)
    else let row := with_id (snext t) version in
         (Ok row, on_mversions (fun rows => rows ++ [row]) (sbump t))).

(** [ModuleScanRepository.CreatePendingScan] *)
Definition CreatePendingScan (moduleVersionID : uuid) : P (res unit) :=
  sql "create pending scan" (fun t =>
    if negb (any (fun r => (mv_ID r =? moduleVersionID)%nat) (module_versions t))
    then (Err missing_parent, t)
    else (Ok tt, on_scans (fun ids => if any (Nat.eqb moduleVersionID) ids then ids
                                      else ids ++ [moduleVersionID]) t)).

(** [ModuleDocsRepository.HasDocs] and [UpsertModuleDocs] *)
Definition HasDocs (moduleVersionID : uuid) : P (res bool) :=
  query "has docs" (fun t =>
    Ok (any (fun d => (fst d =? moduleVersionID)%nat) (module_version_docs t))).

Definition UpsertModuleDocs (moduleVersionID : uuid) (doc : string) : P (res unit) :=
  sql "upsert module docs" (fun t =>
    if negb (any (fun r => (mv_ID r =? moduleVersionID)%nat) (module_versions t))
    then (Err missing_parent, t)
    else (Ok tt, on_mdocs (fun rows =>
            List.filter (fun d => negb (fst d =? moduleVersionID)%nat) rows
            ++ [(moduleVersionID, doc)]) t)).
End ModuleRepository.
End ModuleRepository.
