(* ===== verification/ScmPublisher.v ===== *)
(** * Publishing modules from source control

    [internal/services/scm_publisher.go]: from a tag to a stored archive and a
    version row, for webhook deliveries and for manual synchronisations.  The
    temporary files lie on the directory tree of [Os]; archives are read by
    [Archive] and written by an interface.  Logging is left out. *)

From S2P Require Import Prelude GoStrings SemVer Regexp Filepath Os LocalStorage Archive.
From S2P Require Import TfMirrorRepo TfMirrorSync Tables ScmRepo.
From stdpp Require Import gmap.

#[local] Open Scope Z_scope.

(** ** Data *)

(** [scm.WebhookEvent] (the alias [IncomingHook]); the payload as its JSON text. *)
Record IncomingHook := {
  hk_ID : string;
  hk_Type : string;
  hk_Ref : string;
  hk_CommitSHA : string;
  hk_TagName : string;
  hk_Payload : string;
}.

Definition WebhookEventPush : string := "push".
Definition WebhookEventTag : string := "tag".
Definition WebhookEventPing : string := "ping".
Definition WebhookEventUnknown : string := "unknown".

Definition IsTagEvent (e : IncomingHook) : bool :=
  String.eqb (hk_Type e) WebhookEventTag ||
  (String.eqb (hk_Type e) WebhookEventPush && (0 <? slen (hk_TagName e))).

(** [scm.ConnectorSettings]; a connector is its settings. *)
Record ConnectorSettings := {
  Kind : string;
  InstanceBaseURL : string;
  ClientID : string;
  ClientSecret : string;
  CallbackURL : string;
}.

Record OAuthToken := { AccessToken : string; TokenType : string; ExpiresAt : option Z }.

Record GitTag := { gt_TagName : string; gt_TargetCommit : string }.

(** ** The outside *)

(** The HTTP calls of a connector. *)
Class Connector (Y : Type) := {
  (** the archive's bytes; a body that breaks off delivers what came *)
  DownloadSourceArchive :
    ConnectorSettings -> option OAuthToken -> string -> string -> string -> prog Y (res string);
  FetchTags : ConnectorSettings -> option OAuthToken -> string -> string -> prog Y (res (list GitTag));
}.

(** The disk temporary files lie on. *)
Class TempDisk (Y : Type) := {
  disk : Y -> env fs;
  set_disk : env fs -> Y -> Y;
}.

(** [archive/tar] and [compress/gzip] writing regular files, names with contents. *)
Class TarGzWriter := write_targz : list (string * string) -> string.

(** [google/uuid], and [time.Time.Format] with RFC 3339. *)
Class Texts := {
  uuid_text : uuid -> string;
  parse_uuid : string -> option uuid;
  format_time : Z -> string;
}.

(** [internal/crypto.TokenCipher.Open] *)
Class TokenCipher := open_token : string -> res string.

(** [internal/analyzer]: terraform-docs over an archive. *)
Class Analyzer := AnalyzeArchive : string -> res (option string).

(** [internal/scm/appcreds]: tokens of app-mode providers, when wired in. *)
Class SharedMinter (Y : Type) := MintProviderToken : option (SCMProvider -> prog Y (res OAuthToken)).

Class StorageReader (Y : Type) := storage_Download : string -> prog Y (res reader).

(** ** Versions in tags *)

Definition re_alnum_dash (c : ascii) : bool :=
  in_range "0" "9" c || in_range "A" "Z" c || in_range "a" "z" c || Ascii.eqb c "-".

(** [^(\d+)\.(\d+)\.(\d+)(-[0-9A-Za-z-]+)?(\+[0-9A-Za-z-]+)?$]: with or without
    either optional group. *)
Definition semverPattern (pre build : bool) : list item :=
  group (re_plus true re_digit) ++ [Lit "."] ++ group (re_plus true re_digit) ++ [Lit "."] ++
  group (re_plus true re_digit) ++
  (if pre then group (Lit "-" :: re_plus true re_alnum_dash) else []) ++
  (if build then group (Lit "+" :: re_plus true re_alnum_dash) else []).

Definition is_semver (s : string) : bool :=
  List.existsb (fun b => bool_decide (is_Some (find_submatch (semverPattern (fst b) (snd b)) s)))
    [(true, true); (true, false); (false, true); (false, false)].

(** The glob's parts with a greedy group of any characters between them. *)
Fixpoint globPattern (parts : list string) : list item :=
  match parts with
  | [] => []
  | [part] => [Lit part]
  | part :: parts' => Lit part :: group [Rep true dot] ++ globPattern parts'
  end.

Definition extractVersionFromTag (tag glob : string) : string :=
  if negb (contains glob "*") then
    if negb (String.eqb tag glob) then ""
    else let version := trim_prefix tag "v" in if is_semver version then version else ""
  else match find_submatch (globPattern (split_on "*" glob)) tag with
       | Some (m :: _) => let version := trim_prefix m "v" in if is_semver version then version else ""
       | _ => ""
       end.

Example tag_examples :
  extractVersionFromTag "v1.2.3" "v*" = "1.2.3" /\
  extractVersionFromTag "net/v1.2.3-rc1" "net/*" = "1.2.3-rc1" /\
  extractVersionFromTag "v1.2" "v*" = "" /\ extractVersionFromTag "1.2.3" "v*" = "" /\
  extractVersionFromTag "v1.2.3" "v1.2.3" = "1.2.3" /\ extractVersionFromTag "v1.2.3-rc.1" "v*" = "".
Proof. by vm_compute. Qed.

(** ** Directories *)

(** The entries of a directory, by name. *)
Definition entries_of (t : tree) (p : list string) : list (string * node) :=
  omap (fun kv => match drop (length p) (fst kv) with
                  | [name] => if bool_decide (take (length p) (fst kv) = p)
                              then Some (name, snd kv) else None
                  | _ => None end) (map_to_list t).

(** [filepath.Walk] visits by name, a directory's entries before its successors. *)
Fixpoint seg_before (a b : list string) : bool :=
  match a, b with
  | [], _ :: _ => true
  | x :: a', y :: b' => String.ltb x y || (String.eqb x y && seg_before a' b')
  | _, _ => false
  end.

(** The files below a directory: their relative paths and contents. *)
Definition files_below (t : tree) (p : list string) : list (list string * string) :=
  omap (fun kv => match snd kv with
                  | File c => if bool_decide (take (length p) (fst kv) = p) &&
                                 (length p <? length (fst kv))%nat
                              then Some (drop (length p) (fst kv), c) else None
                  | Dir => None end) (map_to_list t).

Section Disk.
Context (cwd : list string) `{GoSort}.

Definition ReadDir (path : string) : prog (env fs) (res (list (string * node))) :=
  on_path cwd path (fun p => call "readdir" (fun t =>
    (match stat_at t p with
     | Ok Dir => Ok (entries_of t p)
     | Ok (File _) => Err (ErrExt "ENOTDIR")
     | Err e => Err e
     end, t))).

(** A removal that fails removes nothing. *)
Definition RemoveAll (path : string) : prog (env fs) (res unit) :=
  on_path cwd path (fun p => call "removeall" (fun t =>
    (Ok tt, filter (fun kv => take (length p) (fst kv) <> p) t))).

(** [filepath.Glob] for ["*.tf"] in a directory whose path holds no pattern
    characters; it ignores failing calls. *)
Definition glob_tf (path : string) : prog (env fs) (list string) :=
  let! r := ReadDir path in
  ret (match r with
       | Ok es => List.filter (fun name => has_suffix name ".tf") (fst <$> es)
       | Err _ => []
       end).

(** The walk of [createImmutableTarball]: names of files with their contents. *)
Definition walked (t : tree) (p : list string) : list (string * string) :=
  (fun f => (join_segs (fst f), snd f)) <$>
  go_sort (fun a b => seg_before (fst a) (fst b)) (files_below t p).

Definition walk_files (path : string) : prog (env fs) (res (list (string * string))) :=
  on_path cwd path (fun p => call "walk" (fun t =>
    (match stat_at t p with
     | Ok Dir => Ok (walked t p)
     | Ok (File c) => Ok [(".", c)]
     | Err e => Err e
     end, t))).
End Disk.

(** ** The publisher *)

Section Publisher.
Context {Y : Type} `{GoSort} `{JsonbScan} `{Sha256} `{TarGz} `{TarGzWriter} `{Texts} `{TokenCipher}.
Context `{Analyzer} `{Connector Y} `{TempDisk Y} `{Storage Y} `{StorageReader Y} `{SharedMinter Y}.
(** The working directory, [os.TempDir()], and what is wired in: the scan queue with
    scanning enabled, and the documentation store. *)
Context (cwd : list string) (tempDir : string) (scanQueue moduleDocs : bool).
#[local] Abbreviation P := (prog (env (beside sdb Y))).

(** A call on the temporary disk. *)
Definition on_tmp {A} (c : prog (env fs) A) : P A :=
  outward (fun y => let r := c (disk y) in (fst r, set_disk (snd r) y)).

(** *** Packaging *)

Definition extractTarGz (r dest : string) : prog (env fs) (option gerror) := ExtractTarGz cwd dest r.

Definition validateModuleStructure (path : string) : prog (env fs) (option gerror) :=
  let! files := glob_tf cwd path in
  ret (match files with
       | [] => Some (ErrMsg "no .tf files found in module directory")
       | _ => None
       end).

Definition commit_manifest (commitSHA : string) (now : Z) : string * string :=
  (".terraform-registry-commit",
   "commit: " +:+ commitSHA +:+ String "010" ("published: " +:+ format_time now +:+ String "010" "")).

(** The digest is taken of the bytes written. *)
Definition createImmutableTarball (srcPath destPath commitSHA : string) (now : Z)
  : prog (env fs) (res string) :=
  let! f := Os.Create cwd destPath in
  match f with
  | Err e => ret (Err e)
  | Ok _ =>
      let! files := walk_files cwd srcPath in
      match files with
      | Err e => ret (Err e)
      | Ok fs =>
          let bytes := write_targz (commit_manifest commitSHA now :: fs) in
          let! n := Copy cwd destPath (bytes, None) in
          match n with
          | Err e => ret (Err (ErrWrap "failed to flush gzip writer" e))
          | Ok _ => ret (Ok (sha256_hex bytes))
          end
      end
  end.

Definition clean_subpath (subpath : string) : string :=
  let c := Clean subpath in if String.eqb c "/" then "." else c.

(** The extraction directory, and the directory that wraps everything in it. *)
Definition module_candidates (dir : string) : prog (env fs) (list string) :=
  let! es := ReadDir cwd dir in
  ret (match es with
       | Ok [(name, Dir)] => [dir; Filepath.Join dir name]
       | _ => [dir]
       end).

Fixpoint choose_module (bases : list string) (sub : string) (validateErr : option gerror)
  : prog (env fs) (option string * option gerror) :=
  match bases with
  | [] => ret (None, validateErr)
  | base :: bases' =>
      let cand := Filepath.Join base sub in
      let! st := Stat cwd cand in
      match st with
      | Ok Dir =>
          let! v := validateModuleStructure cand in
          match v with
          | Some e => choose_module bases' sub (Some e)
          | None => ret (Some cand, validateErr)
          end
      | _ => choose_module bases' sub validateErr
      end
  end.

(** From the extracted archive to the new one. *)
Definition package_module (archive dir subpath outputPath commitSHA : string) (now : Z)
  : prog (env fs) (res string) :=
  let! x := extractTarGz archive dir in
  match x with
  | Some e => ret (Err (ErrWrap "extraction failed" e))
  | None =>
      let! bases := module_candidates dir in
      let! m := choose_module bases (clean_subpath subpath) None in
      match m with
      | (None, Some e) => ret (Err (ErrWrap "invalid module structure" e))
      | (None, None) => ret (Err (ErrMsg ("module path " +:+ subpath +:+ " not found in repository")))
      | (Some modulePath, _) =>
          let! c := createImmutableTarball modulePath outputPath commitSHA now in
          match c with
          | Err e => ret (Err (ErrWrap "packaging failed" e))
          | Ok checksum => ret (Ok checksum)
          end
      end
  end.

Definition downloadAndPackage (connector : ConnectorSettings) (token : option OAuthToken)
  (owner repo commitSHA subpath : string) : P (res (string * string)) :=
  let! a := outward (DownloadSourceArchive connector token owner repo commitSHA) in
  match a with
  | Err e => ret (Err (ErrWrap "download failed" e))
  | Ok archive =>
      let! n := draw_id in
      let dir := Filepath.Join tempDir ("scm-publish-" +:+ uuid_text n) in
      let! m := on_tmp (MkdirAll cwd dir) in
      match m with
      | Err e => ret (Err e)
      | Ok _ =>
          let! k := draw_id in
          let outputPath := Filepath.Join tempDir ("module-" +:+ uuid_text k +:+ ".tar.gz") in
          let! now := time_now in
          let! r := on_tmp (package_module archive dir subpath outputPath commitSHA now) in
          run! on_tmp (RemoveAll cwd dir) in
          ret (match r with Ok checksum => Ok (outputPath, checksum) | Err e => Err e end)
      end
  end.

(** *** Publishing one version *)

Definition storage_path (module : Module) (version : string) : string :=
  "modules/" +:+ mo_Namespace module +:+ "/" +:+ mo_Name module +:+ "/" +:+ mo_System module +:+ "/" +:+
  mo_Name module +:+ "-" +:+ version +:+ ".tar.gz".

Definition readme_of (archivePath : string) : P (option string) :=
  let! f := on_tmp (Open cwd archivePath) in
  ret (match f with
       | Ok (bytes, _) => match ExtractReadme bytes with
                          | Ok readme => if String.eqb readme "" then None else Some readme
                          | Err _ => None
                          end
       | Err _ => None
       end).

Definition version_row (link : ModuleSCMRepo) (hook : IncomingHook) (module : Module)
  (version checksum : string) (size : Z) (readme : option string) : ModuleVersion := {|
  mv_ID := 0%nat; mv_ModuleID := ms_ModuleID link; mv_Version := version;
  mv_StoragePath := storage_path module version; mv_StorageBackend := "default";
  mv_SizeBytes := size; mv_Checksum := checksum; mv_Readme := readme;
  mv_CommitSHA := Some (hk_CommitSHA hook); mv_TagName := Some (hk_TagName hook);
  mv_SCMRepoID := Some (ms_ID link) |}.

(** Uploading the archive. *)
Definition store_archive (module : Module) (version archivePath : string) : P (res Z) :=
  let! f := on_tmp (Open cwd archivePath) in
  match f with
  | Err e => ret (Err (ErrWrap "open archive" e))
  | Ok (bytes, _) =>
      let! info := on_tmp (Stat cwd archivePath) in
      match info with
      | Err e => ret (Err (ErrWrap "stat temp file" e))
      | Ok n =>
          let! u := outward (storage_Upload (storage_path module version) bytes) in
          match u with
          | Err e => ret (Err (ErrWrap "upload to storage" e))
          | Ok _ => ret (Ok (match n with File c => slen c | Dir => 0 end))
          end
      end
  end.

Definition queue_scan (versionID : uuid) : P unit :=
  if scanQueue then run! ModuleRepository.CreatePendingScan versionID in ret tt else ret tt.

Definition store_module_docs (versionID : uuid) (archivePath : string) : P unit :=
  if moduleDocs then
    let! f := on_tmp (Open cwd archivePath) in
    match f with
    | Ok (bytes, _) =>
        match AnalyzeArchive bytes with
        | Ok (Some doc) => run! ModuleRepository.UpsertModuleDocs versionID doc in ret tt
        | _ => ret tt
        end
    | Err _ => ret tt
    end
  else ret tt.

(** The identifier returned is drawn before the insert, which draws another. *)
Definition record_version (link : ModuleSCMRepo) (hook : IncomingHook) (module : Module)
  (version archivePath checksum : string) (size : Z) : P (res uuid) :=
  let! readme := readme_of archivePath in
  let! versionID := draw_id in
  let! c := ModuleRepository.CreateVersion
              (version_row link hook module version checksum size readme) in
  match c with
  | Err e => ret (Err (ErrWrap "create version" e))
  | Ok row =>
      run! queue_scan (mv_ID row) in
      run! store_module_docs (mv_ID row) archivePath in
      ret (Ok versionID)
  end.

Definition publishModuleVersion (connector : ConnectorSettings) (token : option OAuthToken)
  (link : ModuleSCMRepo) (hook : IncomingHook) (version : string) : P (res uuid) :=
  let! m := ModuleRepository.GetModuleByID (ms_ModuleID link) in
  match m with
  | Err e => ret (Err (ErrWrap "look up module" e))
  | Ok None => ret (Err (ErrMsg ("module " +:+ uuid_text (ms_ModuleID link) +:+ " not found")))
  | Ok (Some module) =>
      let! a := downloadAndPackage connector token (ms_RepositoryOwner link) (ms_RepositoryName link)
                  (hk_CommitSHA hook) (ms_ModulePath link) in
      match a with
      | Err e => ret (Err (ErrWrap "download source" e))
      | Ok (archivePath, checksum) =>
          let! s := store_archive module version archivePath in
          let! r := match s with
                    | Err e => ret (Err e)
                    | Ok size => record_version link hook module version archivePath checksum size
                    end in
          run! on_tmp (Remove cwd archivePath) in
          ret r
      end
  end.

(** *** Tokens *)

Definition user_token (createdBy : option string) (providerID : uuid) : P (option OAuthToken) :=
  match createdBy with
  | None => ret None
  | Some text =>
      match parse_uuid text with
      | None => ret None
      | Some userID =>
          let! r := SCMRepository.GetUserToken userID providerID in
          ret (match r with
               | Ok (Some record) =>
                   match open_token (ot_AccessTokenEncrypted record) with
                   | Ok accessToken => Some {| AccessToken := accessToken;
                                               TokenType := ot_TokenType record;
                                               ExpiresAt := ot_ExpiresAt record |}
                   | Err _ => None
                   end
               | _ => None
               end)
      end
  end.

(** A provider in an app mode never falls back to a user's token. *)
Definition resolveSourceToken (createdBy : option string) (providerID : uuid)
  : P (option OAuthToken) :=
  match MintProviderToken with
  | None => user_token createdBy providerID
  | Some mint =>
      let! p := SCMRepository.GetProvider providerID in
      match p with
      | Ok (Some provider) =>
          if String.eqb (scp_AuthMode provider) AuthModeEntraApp ||
             String.eqb (scp_AuthMode provider) AuthModeGitHubApp
          then let! t := outward (mint provider) in
               ret (match t with Ok token => Some token | Err _ => None end)
          else user_token createdBy providerID
      | _ => user_token createdBy providerID
      end
  end.

(** *** Webhook deliveries *)

Definition minute : Z := 60 * 10 ^ 9.

(** Recording a failure, its text without the cause, and asking for a retry;
    failures of either statement are ignored. *)
Definition fail_event (logID : uuid) (errMsg : string) : P unit :=
  run! SCMRepository.UpdateWebhookLogState logID "failed" (Some errMsg) None in
  let! now := time_now in
  run! SCMRepository.MarkWebhookForRetry logID (now + minute) in
  ret tt.

Definition ProcessTagPush (logID : uuid) (link : ModuleSCMRepo) (hook : IncomingHook)
  (connector : ConnectorSettings) : P unit :=
  let! u := SCMRepository.UpdateWebhookLogState logID "processing" None None in
  match u with
  | Err _ => ret tt
  | Ok _ =>
      let version := extractVersionFromTag (hk_TagName hook) (ms_TagPattern link) in
      if String.eqb version "" then fail_event logID "could not extract version from tag"
      else
      let! existing := ModuleRepository.GetVersion (ms_ModuleID link) version in
      match existing with
      | Err _ => fail_event logID "failed to check for existing version"
      | Ok (Some _) =>
          run! SCMRepository.UpdateWebhookLogState logID "skipped"
                 (Some ("version " +:+ version +:+ " already exists, skipping")) None in ret tt
      | Ok None =>
          let! m := ModuleRepository.GetModuleByID (ms_ModuleID link) in
          match m with
          | Err _ => fail_event logID "failed to look up module"
          | Ok None => fail_event logID "module not found"
          | Ok (Some module) =>
              let! token := resolveSourceToken (mo_CreatedBy module) (ms_SCMProviderID link) in
              let! r := publishModuleVersion connector token link hook version in
              match r with
              | Err _ => fail_event logID "failed to publish version"
              | Ok versionID =>
                  run! SCMRepository.UpdateWebhookLogState logID "completed" None (Some versionID) in
                  ret tt
              end
          end
      end
  end.

(** *** Manual synchronisation

    [TriggerManualSync] starts a goroutine per tag and returns; the goroutines run
    concurrently with it and with each other. *)

Inductive sync_task :=
| PublishTag (hook : IncomingHook)
| Reanalyze (version : ModuleVersion).

Fixpoint manual_tasks (link : ModuleSCMRepo) (tagPattern : string) (tags : list GitTag)
  : P (list sync_task) :=
  match tags with
  | [] => ret []
  | tag :: tags' =>
      let version := extractVersionFromTag (gt_TagName tag) tagPattern in
      if String.eqb version "" then manual_tasks link tagPattern tags'
      else
        let! existing := ModuleRepository.GetVersion (ms_ModuleID link) version in
        let task := match existing with
                    | Ok (Some row) => Reanalyze row
                    | _ => PublishTag {| hk_ID := ""; hk_Type := ""; hk_Ref := "";
                                         hk_CommitSHA := gt_TargetCommit tag;
                                         hk_TagName := gt_TagName tag; hk_Payload := "null" |}
                    end in
        let! tasks := manual_tasks link tagPattern tags' in
        ret (task :: tasks)
  end.

Definition with_last_sync (now : Z) (l : ModuleSCMRepo) : ModuleSCMRepo := {|
  ms_ID := ms_ID l; ms_ModuleID := ms_ModuleID l; ms_SCMProviderID := ms_SCMProviderID l;
  ms_RepositoryOwner := ms_RepositoryOwner l; ms_RepositoryName := ms_RepositoryName l;
  ms_RepositoryURL := ms_RepositoryURL l; ms_DefaultBranch := ms_DefaultBranch l;
  ms_ModulePath := ms_ModulePath l; ms_TagPattern := ms_TagPattern l;
  ms_AutoPublish := ms_AutoPublish l; ms_WebhookID := ms_WebhookID l;
  ms_WebhookURL := ms_WebhookURL l; ms_WebhookEnabled := ms_WebhookEnabled l;
  ms_LastSyncAt := Some now; ms_LastSyncCommit := ms_LastSyncCommit l |}.

(** The tasks started, and the result. *)
Definition TriggerManualSync (link : ModuleSCMRepo) (connector : ConnectorSettings)
  (token : option OAuthToken) : P (list sync_task * res unit) :=
  let! tags := outward (FetchTags connector token (ms_RepositoryOwner link) (ms_RepositoryName link)) in
  match tags with
  | Err e => ret ([], Err (ErrWrap "failed to list tags" e))
  | Ok tags =>
      let tagPattern := if String.eqb (ms_TagPattern link) "" then "v*" else ms_TagPattern link in
      let! tasks := manual_tasks link tagPattern tags in
      let! now := time_now in
      let! u := SCMRepository.UpdateModuleSourceRepo (with_last_sync now link) in
      match u with
      | Err e => ret (tasks, Err (ErrWrap "failed to update last sync time" e))
      | Ok _ => ret (tasks, Ok tt)
      end
  end.

Definition processTagForManualSync (link : ModuleSCMRepo) (hook : IncomingHook)
  (connector : ConnectorSettings) (token : option OAuthToken) : P unit :=
  let version := extractVersionFromTag (hk_TagName hook) (ms_TagPattern link) in
  if String.eqb version "" then ret tt
  else
    let! existing := ModuleRepository.GetVersion (ms_ModuleID link) version in
    match existing with
    | Ok (Some _) => ret tt
    | _ => run! publishModuleVersion connector token link hook version in ret tt
    end.

Definition reanalyzeExistingVersion (version : ModuleVersion) : P unit :=
  if negb moduleDocs || String.eqb (mv_StoragePath version) "" then ret tt
  else
    let! has := ModuleRepository.HasDocs (mv_ID version) in
    match has with
    | Ok false =>
        let! r := outward (storage_Download (mv_StoragePath version)) in
        match r with
        | Err _ => ret tt
        | Ok archive =>
            let! n := draw_id in
            let tmp := Filepath.Join tempDir ("reanalyze-" +:+ uuid_text n +:+ ".tar.gz") in
            let! f := on_tmp (Os.Create cwd tmp) in
            match f with
            | Err _ => ret tt
            | Ok _ =>
                let! c := on_tmp (Copy cwd tmp archive) in
                run! match c with
                     | Err _ => ret tt
                     | Ok _ => match AnalyzeArchive (fst archive) with
                               | Ok (Some doc) =>
                                   run! ModuleRepository.UpsertModuleDocs (mv_ID version) doc in ret tt
                               | _ => ret tt
                               end
                     end in
                run! on_tmp (Remove cwd tmp) in
                ret tt
            end
        end
    | _ => ret tt
    end.

Definition run_task (link : ModuleSCMRepo) (connector : ConnectorSettings)
  (token : option OAuthToken) (task : sync_task) : P unit :=
  match task with
  | PublishTag hook => processTagForManualSync link hook connector token
  | Reanalyze version => reanalyzeExistingVersion version
  end.
End Publisher.
