(* ===== verification/ScmTags.v ===== *)
(** * Versions read off tags, and the storage keys made of them

    What [extractVersionFromTag] accepts, and that the key a published version is
    stored under is clean. *)

From S2P Require Import Prelude GoStrings SemVer Regexp Filepath Os Archive ArchiveSafety StorageSpec.
From S2P Require Import TfMirrorRepo Tables ScmRepo ScmPublisher.

#[local] Open Scope nat_scope.

(** ** The characters of a match *)

Section Within.
Context (q : ascii -> bool).

Definition item_within (i : item) : Prop :=
  match i with
  | One p | Rep _ p => forall c, p c = true -> q c = true
  | Lit l | Opt l => every q l = true
  | Alts ls => Forall (fun l => every q l = true) ls
  | Regexp.Open | Regexp.Close => True
  end.

Lemma every_both x y : every q (x +:+ y) = every q x && every q y.
Proof. induction x as [|c x IH]; [done|]. rewrite append_cons. cbn [every]. by rewrite IH, andb_assoc. Qed.

Lemma denotes_within r s : Forall item_within r -> denotes r s -> every q s = true.
Proof.
  intros Hr Hd. induction Hd as [|p c r s Hp _ IH|g p r s _ IH|g p c r s Hp _ IH|l r s _ IH|l r s _ IH
    |l r s _ IH|l ls r s Hin _ IH|r s _ IH|r s _ IH]; [done|..];
    pose proof (Forall_cons_1 _ _ _ Hr) as [Hi Hrest]; cbn [item_within] in Hi;
    rewrite ?every_both; cbn [every]; try (by auto);
    first [by rewrite (Hi _ Hp), IH | by rewrite Hi, IH | idtac].
  rewrite IH, andb_true_r by done. rewrite List.Forall_forall in Hi. by apply Hi.
Qed.
End Within.

(** ** Versions *)

Definition version_char (c : ascii) : bool :=
  re_alnum_dash c || Ascii.eqb c "." || Ascii.eqb c "+".

Lemma digit_char c : re_digit c = true -> version_char c = true.
Proof. intros Hd. unfold version_char, re_alnum_dash. unfold re_digit in Hd. by rewrite Hd. Qed.

Lemma alnum_char c : re_alnum_dash c = true -> version_char c = true.
Proof. intros Hd. unfold version_char. by rewrite Hd. Qed.

Lemma is_semver_denotes v :
  is_semver v = true -> exists pre build, denotes (semverPattern pre build) v.
Proof.
  unfold is_semver. rewrite existsb_exists. intros ([pre build] & _ & Hm). exists pre, build.
  bools. by apply find_submatch_denotes.
Qed.

(** An accepted version has only the characters of the pattern, and is not empty. *)
Lemma is_semver_chars v : is_semver v = true -> every version_char v = true /\ v <> "".
Proof.
  intros (pre & build & Hd)%is_semver_denotes. split.
  - eapply denotes_within; [|exact Hd].
    unfold semverPattern, group, re_plus.
    destruct pre, build; cbn [app]; repeat constructor; cbn [item_within]; auto using digit_char, alnum_char.
  - intros ->. inversion Hd as [| | | | | | | |r s Hd1 | ]; subst. inversion Hd1.
Qed.

(** ** The glob *)

Definition starless (s : string) : bool := every (fun c => negb (Ascii.eqb c "*")) s.

Lemma split_starless s : starless s = true -> split_on "*" s = [s].
Proof.
  unfold starless. induction s as [|c s IH]; [done|]. cbn [every split_on]. intros Hs. bools.
  rewrite H. by rewrite IH.
Qed.

Lemma split_star pre suf :
  starless pre = true -> starless suf = true -> split_on "*" (pre +:+ "*" +:+ suf) = [pre; suf].
Proof.
  intros Hp Hs. induction pre as [|c pre IH].
  - change ("" +:+ "*" +:+ suf) with (String "*" suf). cbn [split_on].
    by rewrite Ascii.eqb_refl, split_starless.
  - unfold starless in Hp. cbn [every] in Hp. bools. rewrite append_cons. cbn [split_on].
    rewrite H. by rewrite IH.
Qed.

Lemma star_match pre suf tag m :
  find_submatch (globPattern [pre; suf]) tag = Some m ->
  exists mid, tag = pre +:+ mid +:+ suf /\ every dot mid = true /\ m = [mid].
Proof.
  unfold find_submatch. cbn [globPattern group app]. intros (t & -> & Hm)%lit_captures.
  cbn [run_re] in Hm. change (run_re (Rep true dot :: Regexp.Close :: [Lit suf]) t t = Some m) in Hm.
  apply rep_close in Hm as (mid & t2 & m' & -> & Hd & -> & Hm). apply lit_captures in Hm as (t3 & -> & Hm).
  cbn in Hm. destruct t3; [|done]. injection Hm as <-. exists mid. rewrite append_nil_r. by rewrite before_app.
Qed.

Lemma star_matches pre suf mid :
  every dot mid = true -> find_submatch (globPattern [pre; suf]) (pre +:+ mid +:+ suf) = Some [mid].
Proof.
  intros Hd. destruct (find_submatch (globPattern [pre; suf]) (pre +:+ mid +:+ suf)) as [m|] eqn:E.
  - destruct (star_match _ _ _ _ E) as (x & Ex & _ & ->). apply append_inj_l in Ex.
    by rewrite <- (before_app mid suf), Ex, before_app.
  - exfalso. assert (Hs : is_Some (find_submatch (globPattern [pre; suf]) (pre +:+ mid +:+ suf))).
    { apply find_submatch_denotes. cbn [globPattern group app]. apply den_lit, den_open.
      clear E. induction mid as [|c mid IH].
      - rewrite append_nil_l. apply den_stop, den_close. rewrite <- (append_nil_r suf) at 2.
        apply den_lit, den_nil.
      - cbn [every] in Hd. bools. rewrite append_cons. apply den_more; auto. }
    rewrite E in Hs. by destruct Hs.
Qed.

(** which version a tag names.  For a pattern with one ["*"], the version extracted is
    [v] exactly when the tag is the pattern with a text without line breaks in
    place of the star, that text less one leading ["v"] is [v], and [v] has the form
    of a semantic version; for a pattern without a star, when the tag is the pattern
    and [v] the tag less one leading ["v"].  Every other tag is skipped. *)
Theorem tag_version_iff (pre suf tag v : string) :
  starless pre = true -> starless suf = true ->
  (extractVersionFromTag tag (pre +:+ "*" +:+ suf) = v /\ v <> "" <->
   exists mid, tag = pre +:+ mid +:+ suf /\ every dot mid = true /\ v = trim_prefix mid "v" /\
               is_semver v = true) /\
  (extractVersionFromTag tag pre = v /\ v <> "" <->
   tag = pre /\ v = trim_prefix tag "v" /\ is_semver v = true).
Proof.
  intros Hp Hs. unfold extractVersionFromTag. split.
  - rewrite contains_app. cbn [negb]. rewrite split_star by done. split.
    + intros [Hv Hne]. destruct (find_submatch _ tag) as [m|] eqn:E; [|congruence].
      destruct (star_match _ _ _ _ E) as (mid & -> & Hd & ->).
      destruct (is_semver (trim_prefix mid "v")) eqn:Em; [|congruence]. exists mid. by subst v.
    + intros (mid & -> & Hd & -> & Hm). rewrite star_matches by done. rewrite Hm.
      split; [done|]. by apply is_semver_chars.
  - assert (Hc : contains pre "*" = false).
    { clear -Hp. unfold starless in Hp. induction pre as [|c pre IH]; [done|]. cbn [every] in Hp. bools.
      cbn [contains]. rewrite IH by done. rewrite orb_false_r. unfold has_prefix. cbn [String.prefix].
      destruct (ascii_dec "*" c) as [<-|]; [by rewrite Ascii.eqb_refl in H | done]. }
    rewrite Hc. cbn [negb]. destruct (String.eqb_spec tag pre) as [->|Hne]; cbn [negb].
    + destruct (is_semver (trim_prefix pre "v")) eqn:Em; split.
      * intros [<- _]. done.
      * intros (_ & -> & Hm). split; [done|]. by apply is_semver_chars.
      * intros [<- ?]. done.
      * intros (_ & -> & Hm). congruence.
    + split; [by intros [<- ?] | by intros [? _]].
Qed.

Theorem tag_version_iff_witness :
  starless "net/v" = true /\ starless "" = true /\
  (extractVersionFromTag "net/v1.2.3" ("net/v" +:+ "*" +:+ "") = "1.2.3" /\ "1.2.3" <> "" <->
   exists mid, "net/v1.2.3" = "net/v" +:+ mid +:+ "" /\ every dot mid = true /\
               "1.2.3" = trim_prefix mid "v" /\ is_semver "1.2.3" = true).
Proof.
  split; [reflexivity|]. split; [reflexivity|].
  exact (proj1 (tag_version_iff "net/v" "" "net/v1.2.3" "1.2.3" eq_refl eq_refl)).
Defined.

(** ** The storage key *)

Lemma extract_semver tag glob :
  extractVersionFromTag tag glob <> "" -> is_semver (extractVersionFromTag tag glob) = true.
Proof.
  unfold extractVersionFromTag. destruct (negb (contains glob "*")).
  - destruct (negb _); [done|]. by destruct (is_semver (trim_prefix tag "v")) eqn:E.
  - destruct (find_submatch _ tag) as [[|m ms]|]; [done| |done].
    by destruct (is_semver (trim_prefix m "v")) eqn:E.
Qed.

Lemma version_no_slash v : every version_char v = true -> no_slash v = true.
Proof.
  induction v as [|c v IH]; [done|]. cbn [every]. intros Hv. bools. unfold no_slash in *. cbn.
  rewrite IH by done. rewrite andb_true_r. destruct (Ascii.eqb_spec c "/") as [->|]; [done | done].
Qed.
