(* ===== verification/ScmPackage.v ===== *)
(** * What the publisher packages

    From the downloaded archive to the new one: what the archive on the temporary
    disk holds when packaging succeeds, which files it is made of, and when a module
    path leads out of the repository. *)

From S2P Require Import Prelude GoStrings SemVer Filepath Os LocalStorage Archive ArchiveSafety.
From S2P Require Import TfMirrorRepo TfMirrorSync Tables ScmRepo ScmPublisher.
From stdpp Require Import gmap.

#[local] Open Scope Z_scope.

(** ** Keys of the tree *)

Definition proper_keys (t : tree) : Prop := forall p n, t !! p = Some n -> Forall proper p.

Definition proper_kept (s s' : fs) : Prop := proper_keys (nodes s) -> proper_keys (nodes s').

#[export] Instance proper_kept_preorder : PreOrder proper_kept.
Proof. split; [intros s H; exact H | intros s1 s2 s3 H1 H2 H; auto]. Qed.

Lemma proper_insert t p n : Forall proper p -> proper_keys t -> proper_keys (<[p := n]> t).
Proof.
  intros Hp Ht q m. destruct (decide (p = q)) as [<-|Hne]; [by intros _|].
  rewrite lookup_insert_ne by done. apply Ht.
Qed.

#[local] Abbreviation kept := (on_st proper_kept).

Lemma kept_call {A} op (f : tree -> res A * tree) :
  (forall t, proper_keys t -> proper_keys (snd (f t))) -> preserves kept (call op f).
Proof. intros Hf. apply preserves_db; [typeclasses eauto|]. intros s. exact (Hf (nodes s)). Qed.

Lemma kept_mkdir pre rest w :
  Forall proper (pre ++ rest) -> kept w (snd (mkdir_all pre rest w)).
Proof.
  revert pre w. induction rest as [|s rest IH]; intros pre w Hp; cbn [mkdir_all]; [cbn; reflexivity|].
  assert (Hp1 : Forall proper ((pre ++ [s]) ++ rest)) by by rewrite <- app_assoc.
  unfold bind at 1, gets. cbn [fst snd].
  destruct (node_at _ _) as [[|c]|]; [by apply IH | cbn; reflexivity|].
  assert (Hm : kept w (snd (mkdir_at (pre ++ [s]) w))).
  { apply kept_call. intros t Ht. cbn. apply proper_insert; [|done]. by apply Forall_app in Hp1 as []. }
  unfold bind. destruct (mkdir_at _ w) as [[u|e] w1]; cbn [fst snd] in *; [|exact Hm].
  etransitivity; [exact Hm | by apply IH].
Qed.

Lemma kept_open trunc p : Forall proper p -> preserves kept (open_create trunc p).
Proof.
  intros Hp. apply kept_call. intros t Ht. repeat case_goal; cbn; auto using proper_insert.
Qed.

Lemma patch_kept p d t : proper_keys t -> proper_keys (patch_at p d t).
Proof.
  intros Ht. destruct (patch_at_cases p d t) as [->|(old & E & ->)]; [done|].
  apply proper_insert; [by eapply Ht | done].
Qed.

Lemma kept_copy p r : preserves kept (copy_to p r).
Proof.
  apply preserves_bind; [typeclasses eauto| |intros [u|e]; apply preserves_ret; typeclasses eauto].
  intros w. unfold write_at, on_st, proper_kept. destruct (faults w) as [|[] fls] eqn:E.
  2: { intros Ht. by apply patch_kept. }
  all: unfold call, db; rewrite E; cbn; intros Ht; by apply patch_kept.
Qed.

Section Located.
Context (cwd : list string) (Hcwd : Forall proper cwd).

Lemma loc_proper path : Forall proper (loc cwd path).
Proof.
  unfold loc. destruct (IsAbs path) eqn:E; apply canon_rooted.
  - rewrite <- E. apply segs_canon.
  - by apply join_onto_canon, proper_canon.
Qed.

Lemma kept_path {A} path (k : list string -> prog (env fs) (res A)) :
  (forall p, Forall proper p -> preserves kept (k p)) -> preserves kept (on_path cwd path k).
Proof.
  intros Hk. unfold on_path. destruct (String.eqb path ""); [apply preserves_ret; typeclasses eauto|].
  apply Hk, loc_proper.
Qed.

Lemma kept_extract dest entries total count eof :
  preserves kept (extract_entries cwd dest total count entries eof).
Proof.
  revert total count. induction entries as [|h entries IH]; intros total count; cbn [extract_entries].
  { apply preserves_ret. typeclasses eauto. }
  assert (Hr : forall x : option gerror, preserves kept (ret x))
    by (intros x; apply preserves_ret; typeclasses eauto).
  assert (Hnext : forall total' n, preserves kept (match skip_error n (body h) with
        | Some e => ret (Some (ErrWrap "read tar" e))
        | None => extract_entries cwd dest total' (count + 1) entries eof end))
    by (intros total' n; destruct (skip_error n (body h)); auto).
  assert (Hmk : forall path, preserves kept (MkdirAll cwd path)).
  { intros path. apply kept_path. intros p Hp w. by apply kept_mkdir. }
  destruct (_ <? _); [apply Hr|]. destruct (entry_target dest (Name h)) as [target|e]; [|apply Hr].
  destruct (Ascii.eqb (Typeflag h) TypeDir).
  { apply preserves_bind; [typeclasses eauto | apply Hmk|]. intros [u|e]; auto. }
  destruct (Ascii.eqb (Typeflag h) TypeReg); [|auto].
  apply preserves_bind; [typeclasses eauto | apply Hmk|]. intros [u|e]; [|auto].
  apply preserves_bind; [typeclasses eauto | apply kept_path; intros p Hp; by apply kept_open|].
  intros [u'|e]; [|auto].
  apply preserves_bind; [typeclasses eauto | apply kept_path; intros p Hp; by apply kept_copy|].
  intros [n|e]; [|auto]. destruct (_ <? _); auto.
Qed.
End Located.

(** ** Module paths *)

(** The module path climbs when it leads above where it starts. *)
Definition climbs (subpath : string) : Prop := In ".." (segs subpath).

Lemma join_onto_relative r l rest :
  Forall proper rest -> join_onto true l (render r rest) = l ++ rest.
Proof.
  intros Hr. pose proof (canon_no_slash true rest (proper_canon true rest Hr)) as Hs.
  unfold join_onto. destruct rest as [|x rest].
  - rewrite app_nil_r. destruct r; cbn; by rewrite rev_involutive.
  - rewrite render_cons. assert (Hf : fold_left (clean_step true)
        (split_on "/" ((if r then "/" else "") +:+ join_segs (x :: rest))) (rev l) =
        fold_left (clean_step true) (x :: rest) (rev l)).
    { destruct r; [|by rewrite append_nil_l, split_join].
      change (("/" +:+ join_segs (x :: rest))) with ("" +:+ "/" +:+ join_segs (x :: rest)).
      rewrite split_app_slash, split_join by done. done. }
    rewrite Hf, clean_fold_proper by done. by rewrite rev_app_distr, !rev_involutive.
Qed.

Lemma unclimbing_proper sub : ~ climbs sub -> Forall proper (segs sub).
Proof.
  unfold climbs. intros Hn. destruct (segs_canon sub) as (n & ps & E & Hp & _). rewrite E in *.
  destruct n as [|n]; [done|]. exfalso. apply Hn. by left.
Qed.

Lemma clean_subpath_render sub :
  ~ climbs sub -> exists r, clean_subpath sub = render r (segs sub).
Proof.
  intros Hn. unfold clean_subpath. rewrite Clean_render.
  destruct (String.eqb_spec (render (IsAbs sub) (segs sub)) "/") as [E|]; [|by eexists].
  exists false. assert (Hs : segs sub = []); [|by rewrite Hs].
  apply (render_inj true); [by apply proper_canon, unclimbing_proper | apply canon_nil|].
  destruct (IsAbs sub) eqn:Ea; [done|]. exfalso. pose proof (unclimbing_proper _ Hn) as Hp.
  assert (Ha : IsAbs (render false (segs sub)) = true) by by rewrite E.
  rewrite IsAbs_render in Ha; [done|]. exact (canon_no_slash true _ (proper_canon true _ Hp)).
Qed.

(** Below an absolute directory a path that does not climb adds its segments. *)
Lemma join_below base sub :
  IsAbs base = true -> ~ climbs sub ->
  Filepath.Join base (clean_subpath sub) = render true (segs base ++ segs sub).
Proof.
  intros Ha Hn. destruct (clean_subpath_render sub Hn) as [r ->].
  rewrite Join_onto by (intros ->; done). rewrite Ha. f_equal.
  by apply join_onto_relative, unclimbing_proper.
Qed.

Lemma join_name base name :
  IsAbs base = true -> proper name ->
  Filepath.Join base name = render true (segs base ++ [name]).
Proof.
  intros Ha Hp. rewrite Join_onto by (intros ->; done). rewrite Ha. f_equal.
  change name with (render false [name]). apply join_onto_relative. by apply Forall_singleton.
Qed.

Lemma abs_canon base : IsAbs base = true -> canon true (segs base).
Proof. intros Ha. rewrite <- Ha. apply segs_canon. Qed.

Lemma segs_join_name base name :
  IsAbs base = true -> proper name ->
  segs (Filepath.Join base name) = segs base ++ [name] /\ IsAbs (Filepath.Join base name) = true.
Proof.
  intros Ha Hp. assert (Hc : canon true (segs base ++ [name])).
  { apply canon_app; [by apply abs_canon | by apply Forall_singleton]. }
  rewrite join_name by done. split; [by apply segs_render|].
  apply IsAbs_render. by eapply canon_no_slash.
Qed.

(** ** Packaging *)

Section Packaging.
Context `{GoSort} `{Sha256} `{TarGz} `{TarGzWriter} `{Texts}.
Context (cwd : list string) (Hcwd : Forall proper cwd).

(** What the walk of the directory or file at [p] delivers. *)
Definition packed (t : tree) (p : list string) (files : list (string * string)) : Prop :=
  match stat_at t p with
  | Ok Dir => files = walked t p
  | Ok (File c) => files = [(".", c)]
  | Err _ => False
  end.

(** The file [path] holds [bytes]. *)
Definition holds (path bytes : string) (w : env fs) : Prop :=
  nodes (st w) !! loc cwd path = Some (File bytes).

Lemma on_path_ok {A} path (k : list string -> prog (env fs) (res A)) w a :
  fst (on_path cwd path k w) = Ok a -> on_path cwd path k w = k (loc cwd path) w.
Proof. unfold on_path. by destruct (String.eqb path ""). Qed.

Lemma walk_ok src w files :
  fst (walk_files cwd src w) = Ok files ->
  packed (nodes (st w)) (loc cwd src) files /\
  nodes (st (snd (walk_files cwd src w))) = nodes (st w).
Proof.
  unfold walk_files. intros Hr. pose proof (on_path_ok _ _ _ _ Hr) as E. rewrite E in Hr |- *. clear E.
  apply call_ok in Hr as [Hr ->]. split; [|done]. cbn in Hr. unfold packed.
  destruct (stat_at _ _) as [[|c]|e]; [by injection Hr as <- .. | done].
Qed.

Lemma reading_same {A} (f : tree -> res A) op path w :
  nodes (st (snd (on_path cwd path (fun p => call op (fun t => (f t, t))) w))) = nodes (st w).
Proof.
  unfold on_path. destruct (String.eqb path ""); [done|]. unfold call, db.
  by destruct (faults w) as [|[] fls].
Qed.

Lemma stat_ok path w n : fst (Stat cwd path w) = Ok n -> stat_at (nodes (st w)) (loc cwd path) = Ok n.
Proof.
  unfold Stat. intros Hr. rewrite (on_path_ok _ _ _ _ Hr) in Hr. by apply call_ok in Hr as [Hr _].
Qed.

(** The digest is that of the new file, which holds what the walk delivered, on a
    disk that differs from the one before in no other file. *)
Lemma tarball_ok src dest commit now w c w' :
  createImmutableTarball cwd src dest commit now w = (Ok c, w') ->
  exists s files, keeps [loc cwd dest] (st w) s /\ packed (nodes s) (loc cwd src) files /\
    let bytes := write_targz (commit_manifest commit now :: files) in
    c = sha256_hex bytes /\ holds dest bytes w'.
Proof.
  unfold createImmutableTarball, bind at 1. destruct (Os.Create cwd dest w) as [[u|e] w1] eqn:E1;
    cbn [fst snd]; [|done].
  assert (Hr : fst (Os.Create cwd dest w) = Ok u) by by rewrite E1. unfold Os.Create in *.
  pose proof (on_path_ok _ _ _ _ Hr) as E. rewrite E in Hr, E1.
  assert (Hc : nodes (st w1) !! loc cwd dest = Some (File "")) by (apply create_ok in Hr; by rewrite E1 in Hr).
  assert (Hk : keeps [loc cwd dest] (st w) (st w1)).
  { pose proof (open_keeps [loc cwd dest] true (loc cwd dest) ltac:(by left) w) as K. by rewrite E1 in K. }
  clear E Hr. unfold bind at 1. destruct (walk_files cwd src w1) as [[files|e] w2] eqn:E2; cbn [fst snd]; [|done].
  destruct (walk_ok src w1 files) as [Hp Hn]; [by rewrite E2|]. rewrite E2 in Hn. cbn [snd] in Hn.
  set (bytes := write_targz _). unfold bind.
  destruct (Copy cwd dest (bytes, None) w2) as [[n|e] w3] eqn:E3; cbn [fst snd ret]; [|done].
  intros [= <- <-]. exists (st w1), files. split; [done|]. split; [done|]. split; [done|].
  assert (Hr : fst (Copy cwd dest (bytes, None) w2) = Ok n) by by rewrite E3. unfold Copy in *.
  pose proof (on_path_ok _ _ _ _ Hr) as E. rewrite E in Hr, E3. apply copy_ok in Hr as (Hf & _ & _); [|by rewrite Hn].
  rewrite E3 in Hf. exact Hf.
Qed.

(** The directories the module may lie in: the extraction directory, or the one that
    is all there is in it. *)
Definition base_of (t : tree) (dir base : string) : Prop :=
  base = dir \/
  exists name, proper name /\ entries_of t (loc cwd dir) = [(name, Dir)] /\ base = Filepath.Join dir name.

Lemma entries_proper t p name n : proper_keys t -> In (name, n) (entries_of t p) -> proper name.
Proof.
  intros Ht Hin. unfold entries_of in Hin. apply list_elem_of_In, list_elem_of_omap in Hin.
  destruct Hin as ([q m] & Hq & Hm). cbn [fst snd] in Hm.
  destruct (drop (length p) q) as [|x [|? ?]] eqn:Ed; try done.
  destruct (bool_decide _); [|done]. injection Hm as -> ->.
  apply elem_of_map_to_list in Hq. apply Ht in Hq.
  rewrite <- (take_drop (length p) q), Ed in Hq. by apply Forall_app in Hq as [_ [Hx _]%Forall_cons_1].
Qed.

Lemma candidates_bases dir w :
  proper_keys (nodes (st w)) ->
  Forall (base_of (nodes (st w)) dir) (fst (module_candidates cwd dir w)) /\
  nodes (st (snd (module_candidates cwd dir w))) = nodes (st w).
Proof.
  intros Ht. unfold module_candidates, bind. cbn [ret snd fst].
  split; [|apply reading_same].
  assert (Hone : Forall (base_of (nodes (st w)) dir) [dir]) by (apply Forall_singleton; by left).
  destruct (fst (ReadDir cwd dir w)) as [es|e] eqn:E; [|exact Hone].
  destruct es as [|[name [|c]] [|? ?]]; try exact Hone.
  apply Forall_cons; split; [by left|]. apply Forall_singleton. right. exists name.
  unfold ReadDir in E. pose proof (on_path_ok _ _ _ _ E) as E'. rewrite E' in E. apply call_ok in E as [E _]. cbn in E.
  destruct (stat_at _ _) as [[|c]|]; try done. injection E as E. split; [|done].
  apply (entries_proper (nodes (st w)) (loc cwd dir) name Dir Ht). rewrite E. by left.
Qed.

(** The directory chosen exists; choosing it changes nothing. *)
Lemma choose_from bases sub err w :
  nodes (st (snd (choose_module cwd bases sub err w))) = nodes (st w) /\
  forall path, fst (fst (choose_module cwd bases sub err w)) = Some path ->
  exists base, In base bases /\ path = Filepath.Join base sub /\
    stat_at (nodes (st w)) (loc cwd path) = Ok Dir.
Proof.
  revert err w. induction bases as [|b bases IH]; intros err w; cbn [choose_module]; [done|].
  assert (Hrest : forall err' w', nodes (st w') = nodes (st w) ->
    nodes (st (snd (choose_module cwd bases sub err' w'))) = nodes (st w) /\
    forall path, fst (fst (choose_module cwd bases sub err' w')) = Some path ->
    exists base, In base (b :: bases) /\ path = Filepath.Join base sub /\
      stat_at (nodes (st w)) (loc cwd path) = Ok Dir).
  { intros err' w' Hn. destruct (IH err' w') as [Hs Hp]. rewrite Hn in *. split; [done|].
    intros path Hr. destruct (Hp _ Hr) as (base & Hin & E). exists base. split; [by right | done]. }
  unfold bind at 1 3. pose proof (stat_ok (Filepath.Join b sub) w) as Hst.
  assert (Hn : nodes (st (snd (Stat cwd (Filepath.Join b sub) w))) = nodes (st w)).
  { unfold Stat, on_path. destruct (String.eqb _ ""); [done|]. unfold stat_call, call, db.
    by destruct (faults w) as [|[] fls]. }
  destruct (Stat cwd (Filepath.Join b sub) w) as [[[|c]|e] w1]; cbn [fst snd] in *; [|by apply Hrest..].
  unfold bind.
  assert (Hv : nodes (st (snd (validateModuleStructure cwd (Filepath.Join b sub) w1))) = nodes (st w)).
  { rewrite <- Hn. unfold validateModuleStructure, glob_tf, bind. cbn [snd ret]. apply reading_same. }
  destruct (validateModuleStructure cwd _ w1) as [[e|] w2]; cbn [fst snd ret] in *; [by apply Hrest|].
  split; [done|]. intros path [= <-]. exists b. split; [by left|]. split; [done | by apply Hst].
Qed.

(** What packaging did: on a disk with the files of [s0] the archive was unpacked to
    [dir]; the module path led to a directory of the checkout, taken from its root or
    from the directory that wraps it; and the new archive holds the manifest of the
    commit and what the walk of that directory delivered, on a disk to which only the
    file [dest] was added. *)
Definition packaged_from (archive dir sub dest commit : string) (now : Z) (s0 : fs) (bytes : string) : Prop :=
  exists w0 w1 s base files,
    let path := Filepath.Join base (clean_subpath sub) in
    keeps [] s0 (st w0) /\ extractTarGz cwd archive dir w0 = (None, w1) /\
    base_of (nodes (st w1)) dir base /\ stat_at (nodes (st w1)) (loc cwd path) = Ok Dir /\
    keeps [loc cwd dest] (st w1) s /\ packed (nodes s) (loc cwd path) files /\
    bytes = write_targz (commit_manifest commit now :: files).

Lemma package_ok archive dir sub dest commit now w c w' :
  proper_keys (nodes (st w)) ->
  package_module cwd archive dir sub dest commit now w = (Ok c, w') ->
  exists bytes, c = sha256_hex bytes /\ holds dest bytes w' /\
    forall s0, keeps [] s0 (st w) -> packaged_from archive dir sub dest commit now s0 bytes.
Proof.
  intros Ht. unfold package_module, bind at 1.
  assert (Ht1 : proper_keys (nodes (st (snd (extractTarGz cwd archive dir w))))).
  { unfold extractTarGz, ExtractTarGz. destruct (negb _); [done|].
    destruct (open_targz _) as [[es eof]|e]; [|done]. by apply kept_extract. }
  destruct (extractTarGz cwd archive dir w) as [[e|] w1] eqn:Ex; cbn [fst snd] in *; [done|].
  unfold bind at 1. pose proof (candidates_bases dir w1 Ht1) as [Hb Hn2].
  destruct (module_candidates cwd dir w1) as [bases w2]; cbn [fst snd] in *.
  unfold bind at 1. pose proof (choose_from bases (clean_subpath sub) None w2) as [Hn3 Hch].
  destruct (choose_module cwd bases _ None w2) as [[[path|] err] w3]; cbn [fst snd] in *;
    [|destruct err; done].
  destruct (Hch path eq_refl) as (base & Hin & -> & Hd). rewrite List.Forall_forall in Hb. specialize (Hb _ Hin).
  unfold bind. destruct (createImmutableTarball cwd _ dest commit now w3) as [[c'|e] w4] eqn:Et;
    cbn [fst snd ret]; [|done].
  intros [= <- <-]. apply tarball_ok in Et as (s & files & Hk & Hp & Hc & Hh).
  eexists. split; [exact Hc|]. split; [exact Hh|]. intros s0 Hs0. exists w, w1, s, base, files.
  rewrite Hn2 in Hd. unfold keeps in Hk. rewrite Hn3, Hn2 in Hk. done.
Qed.

(** ** What the new archive is made of *)

(** The files are those the entries of the archive deliver below the directory [path],
    under their names from there. *)
Definition made_of (dir : string) (path : list string) (entries : list entry) (files : list (string * string)) : Prop :=
  forall name c, In (name, c) files <->
    exists rel, rel <> [] /\ name = join_segs rel /\ delivered dir (path ++ rel) entries None = Some c.

Lemma walked_in `{!GoSortLaws} t q name c :
  In (name, c) (walked t q) <->
  exists rel, rel <> [] /\ name = join_segs rel /\ file_at t (q ++ rel) = Some c.
Proof.
  unfold walked. rewrite <- list_elem_of_In, list_elem_of_fmap. split.
  - intros ([rel c'] & [= -> ->] & Hin). apply list_elem_of_In, go_sort_in, list_elem_of_In in Hin.
    unfold files_below in Hin. apply list_elem_of_omap in Hin as ([p n] & Hp & Hm). cbn [fst snd] in *.
    destruct n as [|c2]; [done|].
    destruct (bool_decide_reflect (take (length q) p = q)) as [Hq|]; [|done]. cbn [andb] in Hm.
    destruct (Nat.ltb_spec (length q) (length p)); [|done]. injection Hm as <- ->.
    exists (drop (length q) p). apply elem_of_map_to_list in Hp.
    split; [intros E; apply (f_equal length) in E; rewrite length_drop in E; cbn in E; lia|]. split; [done|].
    rewrite <- Hq at 1. rewrite take_drop. unfold file_at. by rewrite Hp.
  - intros (rel & Hne & -> & Hf). exists (rel, c). split; [done|]. apply list_elem_of_In, go_sort_in, list_elem_of_In.
    unfold file_at in Hf. destruct (t !! (q ++ rel)) as [[|c']|] eqn:E; try done. injection Hf as ->.
    unfold files_below. apply list_elem_of_omap. exists (q ++ rel, File c).
    split; [by apply elem_of_map_to_list|]. cbn [fst snd]. rewrite take_app_length, bool_decide_eq_true_2 by done.
    destruct rel as [|x rel]; [done|]. rewrite length_app. cbn [length andb].
    destruct (Nat.ltb_spec (length q) (length q + S (length rel))); [|lia]. by rewrite drop_app_length.
Qed.

(** A path that does not climb, from a directory that was empty: the files are those
    of the archive. *)
Lemma packaged_entries `{!GoSortLaws} archive dir sub dest commit now s0 bytes :
  IsAbs dir = true -> ~ climbs sub ->
  (forall p c, nodes s0 !! (segs dir ++ p) <> Some (File c)) ->
  (forall p, segs dir ++ p <> loc cwd dest) ->
  packaged_from archive dir sub dest commit now s0 bytes ->
  exists entries mid files,
    open_targz (limit_string (maxCompressedInputBytes + 1) archive) = Ok (entries, None) /\
    (mid = [] \/ exists name, mid = [name]) /\
    made_of dir (segs dir ++ mid ++ segs sub) entries files /\
    bytes = write_targz (commit_manifest commit now :: files).
Proof.
  intros Ha Hn Hempty Hout (w0 & w1 & s & base & files & Hk0 & Hx & Hb & Hd & Hk1 & Hp & ->).
  unfold extractTarGz, ExtractTarGz in Hx. rewrite Ha in Hx. cbn [negb] in Hx.
  destruct (open_targz _) as [[entries eof]|e]; [|done].
  assert (Hx' : forall p, eof = None /\ file_at (nodes (st w1)) (segs dir ++ p) = delivered dir (segs dir ++ p) entries None).
  { intros p. destruct (extract_delivers _ _ _ _ _ _ _ _ (segs dir ++ p) Ha Hx) as [-> ->]. split; [done|].
    f_equal. rewrite (keeps_file [] s0) by (done || by intros []). unfold file_at.
    specialize (Hempty p). destruct (nodes s0 !! (segs dir ++ p)) as [[|c]|]; [done | by destruct (Hempty c) | done]. }
  destruct (Hx' []) as [-> _].
  assert (Hl : exists mid, (mid = [] \/ exists name, mid = [name]) /\ IsAbs base = true /\ segs base = segs dir ++ mid).
  { destruct Hb as [->|(name & Hname & _ & ->)]; [exists []; rewrite app_nil_r; auto|].
    destruct (segs_join_name dir name Ha Hname) as [E1 E2]. exists [name]. eauto. }
  destruct Hl as (mid & Hm & Hab & Es). rewrite join_below in Hp, Hd by done.
  rewrite loc_render in Hp, Hd by (apply canon_app; [by apply abs_canon | by apply unclimbing_proper]).
  rewrite Es, <- app_assoc in Hp, Hd. exists entries, mid, files. split; [done|]. split; [done|]. split; [|done].
  assert (Hf : forall p, file_at (nodes s) (segs dir ++ p) = delivered dir (segs dir ++ p) entries None).
  { intros p. rewrite <- (proj2 (Hx' p)). apply (keeps_file [loc cwd dest]); [done|]. intros [E|[]]. by apply (Hout p). }
  set (q := segs dir ++ mid ++ segs sub) in *. unfold packed in Hp.
  destruct (stat_at (nodes s) q) as [[|c]|e] eqn:Eq; [| |done].
  - subst files. intros name c. rewrite walked_in. split; intros (rel & Hr & -> & Hc); exists rel;
      (split; [done|]); (split; [done|]); unfold q in *; rewrite <- app_assoc in *; by rewrite Hf in * || by rewrite Hf.
  - exfalso. apply (reach_ok _ []) in Eq. apply (reach_ok _ []) in Hd. cbn [app] in Eq, Hd.
    assert (Hq : ~ In q [loc cwd dest]) by (intros [E|[]]; by apply (Hout (mid ++ segs sub))).
    destruct q as [|x q]; [done|]. cbn [node_at] in Eq, Hd. apply (Hk1 _ _ Hq) in Eq. congruence.
Qed.
End Packaging.
