(* ===== verification/ScmSafety.v ===== *)
(** * What a tag push changes

    [ProcessTagPush] over every answer of the outside and every failing statement:
    which rows it adds, what the storage backend holds for them, and what it leaves
    alone. *)

From S2P Require Import Prelude GoStrings SemVer Regexp Filepath Os LocalStorage Archive ArchiveSafety.
From S2P Require Import TfMirrorRepo TfMirrorSync Tables ScmRepo ScmPublisher ScmTags ScmPackage.
From stdpp Require Import gmap.

#[local] Open Scope Z_scope.

(** The outside as documented: only uploads write to the storage backend, and only
    calls on the temporary disk write to it. *)
Class ScmLaws (Y : Type) `{StorageLaws Y} `{Connector Y} `{TempDisk Y} `{SharedMinter Y} `{Texts}
  : Prop := {
  archive_quiet c t o r s y : objects (snd (DownloadSourceArchive c t o r s y)) = objects y;
  archive_disk c t o r s y : disk (snd (DownloadSourceArchive c t o r s y)) = disk y;
  minter_quiet mint p y : MintProviderToken = Some mint -> objects (snd (mint p y)) = objects y;
  minter_disk mint p y : MintProviderToken = Some mint -> disk (snd (mint p y)) = disk y;
  disk_set w y : disk (set_disk w y) = w;
  disk_apart w y : objects (set_disk w y) = objects y;
  upload_disk k d y : disk (snd (storage_Upload k d y)) = disk y;
  uuid_plain n : no_slash (uuid_text n) = true;
}.

(** ** Steps that publish nothing *)

Definition event_key (e : SCMWebhookEvent) :=
  (we_ID e, we_ModuleSCMRepoID e, we_EventType e, we_CommitSHA e, we_TagName e,
   we_SignatureValid e, we_MaxRetries e).

(** Everything but module versions: events keep what they are, scans and
    documentation may come. *)
Record aside (t t' : sdb) : Prop := {
  as_providers : scm_providers t' = scm_providers t;
  as_ptokens : scm_provider_tokens t' = scm_provider_tokens t;
  as_utokens : scm_oauth_tokens t' = scm_oauth_tokens t;
  as_links : module_scm_repos t' = module_scm_repos t;
  as_violations : immutability_violations t' = immutability_violations t;
  as_modules : modules t' = modules t;
  as_events : event_key <$> scm_webhook_events t' = event_key <$> scm_webhook_events t;
  as_next : (snext t <= snext t')%nat;
}.

#[export] Instance aside_preorder : PreOrder aside.
Proof.
  split; [by intros t; constructor|]. intros t1 t2 t3 [] []. constructor; try congruence. lia.
Qed.

(** No version is added. *)
Definition unpublished (t t' : sdb) : Prop := aside t t' /\ module_versions t' = module_versions t.

#[export] Instance unpublished_preorder : PreOrder unpublished.
Proof.
  split; [by intros t; split|]. intros t1 t2 t3 [] []. split; [by etransitivity | congruence].
Qed.

Lemma unpublished_bump t : unpublished t (sbump t).
Proof. destruct t. split; [constructor|]; cbn; try done. lia. Qed.

Lemma unpublished_events t cond f :
  (forall e, event_key (f e) = event_key e) -> unpublished t (on_webhooks (update_rows cond f) t).
Proof.
  intros Hf. destruct t. split; [constructor|]; cbn; try done.
  unfold update_rows. rewrite <- list_fmap_compose. apply list_fmap_ext. intros i e _. cbn. by destruct (cond e).
Qed.

Lemma unpublished_scans t f : unpublished t (on_scans f t).
Proof. destruct t. by split. Qed.
Lemma unpublished_docs t f : unpublished t (on_mdocs f t).
Proof. destruct t. by split. Qed.

Section Steps.
Context {Y : Type} `{GoSort} `{JsonbScan} `{Sha256} `{TarGz} `{TarGzWriter} `{Texts} `{TokenCipher}.
Context `{Analyzer} `{CN : Connector Y} `{TD : TempDisk Y} `{SY : Storage Y} `{SL : !StorageLaws Y}.
Context `{StorageReader Y} `{MI : SharedMinter Y} `{LAWS : !ScmLaws Y}.
Context (cwd : list string) (tempDir : string) (scanQueue moduleDocs : bool).
Context (Hcwd : Forall proper cwd) (Htmp : IsAbs tempDir = true).

(** Nothing is stored, and the temporary disk stays a tree. *)
Definition calm (y y' : Y) : Prop :=
  objects y' = objects y /\ proper_kept (st (disk y)) (st (disk y')).
#[export] Instance calm_preorder : PreOrder calm.
Proof.
  split; [by intros y; split|]. intros y1 y2 y3 [E1 K1] [E2 K2]. split; [congruence | by etransitivity].
Qed.

#[local] Abbreviation quiet_step := (on_st (both unpublished calm)).

(** Nothing is stored, and the temporary disk is left alone. *)
Definition still (y y' : Y) : Prop := objects y' = objects y /\ disk y' = disk y.
#[export] Instance still_preorder : PreOrder still.
Proof. split; [by intros y; split|]. intros y1 y2 y3 [] []. split; congruence. Qed.

#[local] Abbreviation still_step := (on_st (both unpublished still)).

Lemma still_quiet s s' : both unpublished still s s' -> both unpublished calm s s'.
Proof. intros [U [O D]]. split; [done|]. split; [done|]. unfold proper_kept. by rewrite D. Qed.

Lemma quiet_still {A} (c : prog (env (beside sdb Y)) A) : preserves still_step c -> preserves quiet_step c.
Proof. intros Hc w. apply still_quiet, Hc. Qed.

#[local] Abbreviation kept := (on_st proper_kept).

Lemma kept_reads {A} op (f : tree -> res A) : preserves kept (call op (fun t => (f t, t))).
Proof. by apply kept_call. Qed.

Lemma kept_opened path : preserves kept (Open cwd path).
Proof. apply kept_path; [done|]. intros p _. apply kept_reads. Qed.

Lemma kept_stat path : preserves kept (Stat cwd path).
Proof. apply kept_path; [done|]. intros p _. apply kept_reads. Qed.

Lemma kept_readdir path : preserves kept (ReadDir cwd path).
Proof. apply kept_path; [done|]. intros p _. apply kept_reads. Qed.

Lemma kept_walk path : preserves kept (walk_files cwd path).
Proof. apply kept_path; [done|]. intros p _. apply kept_reads. Qed.

Lemma kept_mkdirs path : preserves kept (MkdirAll cwd path).
Proof. apply kept_path; [done|]. intros p Hp w. by apply kept_mkdir. Qed.

Lemma kept_create path : preserves kept (Os.Create cwd path).
Proof. apply kept_path; [done|]. intros p Hp. by apply kept_open. Qed.

Lemma kept_copied path r : preserves kept (Copy cwd path r).
Proof. apply kept_path; [done|]. intros p Hp. by apply kept_copy. Qed.

Lemma kept_smaller {A} op (f : tree -> res A * tree) :
  (forall t p n, snd (f t) !! p = Some n -> t !! p = Some n) -> preserves kept (call op f).
Proof. intros Hf. apply kept_call. intros t Ht p n Hp. by eapply Ht, Hf. Qed.

Lemma kept_remove path : preserves kept (Remove cwd path).
Proof.
  assert (Hr : forall p, preserves kept (remove_at p)).
  { intros p. apply kept_smaller. intros t q n. repeat case_goal; cbn; try done.
    all: intros [_ ?]%lookup_delete_Some; done. }
  assert (He : forall e, preserves kept (call "remove" (fun t => (Err e, t)) : prog (env fs) (res unit)))
    by (intros e; by apply kept_call).
  unfold Remove, on_path. preserve.
Qed.

Lemma kept_removeall path : preserves kept (RemoveAll cwd path).
Proof.
  apply kept_path; [done|]. intros p _. apply kept_smaller. intros t q n. cbn.
  by intros [? _]%map_lookup_filter_Some.
Qed.

Lemma kept_module archive dir sub dest commit now :
  preserves kept (package_module cwd archive dir sub dest commit now).
Proof.
  pose proof kept_stat. pose proof kept_readdir. pose proof kept_walk. pose proof kept_create.
  pose proof kept_copied.
  assert (Hx : preserves kept (extractTarGz cwd archive dir)).
  { unfold extractTarGz, ExtractTarGz. destruct (negb _); [preserve|].
    destruct (open_targz _) as [[es eof]|e]; [by apply kept_extract | preserve]. }
  assert (Hv : forall path, preserves kept (validateModuleStructure cwd path)).
  { intros path. unfold validateModuleStructure, glob_tf. preserve. }
  assert (Hc : forall bases sub err, preserves kept (choose_module cwd bases sub err)).
  { induction bases as [|b bases IH]; intros sub' err; cbn [choose_module]; preserve. }
  unfold package_module, module_candidates, createImmutableTarball. preserve.
Qed.

Lemma quiet_tmp {A} (c : prog (env fs) A) : preserves kept c -> preserves quiet_step (on_tmp c).
Proof.
  intros Hc. apply kept_outward; [typeclasses eauto..|]. intros y. split; [apply disk_apart|].
  cbn [fst snd]. rewrite disk_set. apply Hc.
Qed.

Lemma still_query {A} op (f : sdb -> res A) : preserves still_step (query op f).
Proof. apply kept_query; typeclasses eauto. Qed.

Lemma still_now : preserves still_step (@time_now (beside sdb Y)).
Proof. apply kept_now; typeclasses eauto. Qed.

Lemma still_state id state msg v :
  preserves still_step (SCMRepository.UpdateWebhookLogState id state msg v).
Proof.
  apply preserves_bind; [typeclasses eauto | apply still_now|]. intros now.
  destruct (String.eqb state "processing").
  - apply kept_exec; [typeclasses eauto..|]. intros t. by apply unpublished_events.
  - apply kept_sql; [typeclasses eauto..|]. intros t. destruct (_ && _); cbn; [reflexivity|].
    by apply unpublished_events.
Qed.

Lemma still_token createdBy providerID :
  preserves still_step (resolveSourceToken createdBy providerID).
Proof.
  pose proof (fun A => @still_query A) as Hq.
  assert (Hu : preserves still_step (user_token createdBy providerID)).
  { unfold user_token, SCMRepository.GetUserToken. preserve. }
  unfold resolveSourceToken, SCMRepository.GetProvider. destruct MintProviderToken as [mint|] eqn:Em; [|exact Hu].
  assert (Hm : forall p, preserves still_step (outward (T := sdb) (mint p))).
  { intros p. apply kept_outward; [typeclasses eauto..|]. intros y. split; [by apply minter_quiet|].
    by apply (minter_disk mint). }
  preserve.
Qed.

Lemma quiet_query {A} op (f : sdb -> res A) : preserves quiet_step (query op f).
Proof. apply quiet_still, still_query. Qed.

Lemma quiet_now : preserves quiet_step (@time_now (beside sdb Y)).
Proof. apply quiet_still, still_now. Qed.

Lemma quiet_draw : preserves quiet_step (@draw_id sdb Y _).
Proof. apply kept_draw; [typeclasses eauto.. | apply unpublished_bump]. Qed.

Lemma quiet_state id state msg v :
  preserves quiet_step (SCMRepository.UpdateWebhookLogState id state msg v).
Proof. apply quiet_still, still_state. Qed.

Lemma quiet_mark id at_ : preserves quiet_step (SCMRepository.MarkWebhookForRetry id at_).
Proof. apply kept_exec; [typeclasses eauto..|]. intros t. by apply unpublished_events. Qed.

Lemma quiet_scan v : preserves quiet_step (ModuleRepository.CreatePendingScan v).
Proof.
  apply kept_sql; [typeclasses eauto..|]. intros t.
  destruct (negb _); cbn; [reflexivity | apply unpublished_scans].
Qed.

Lemma quiet_docs v d : preserves quiet_step (ModuleRepository.UpsertModuleDocs v d).
Proof.
  apply kept_sql; [typeclasses eauto..|]. intros t.
  destruct (negb _); cbn; [reflexivity | apply unpublished_docs].
Qed.

Ltac quietly :=
  first
    [ apply preserves_ret; typeclasses eauto
    | apply quiet_tmp; auto using kept_opened, kept_stat, kept_mkdirs, kept_remove, kept_removeall, kept_module
    | apply quiet_query | apply quiet_now | apply quiet_draw | apply quiet_state
    | apply quiet_mark | apply quiet_scan | apply quiet_docs
    | apply preserves_bind; [typeclasses eauto | quietly | intros ?; quietly]
    | progress cbv zeta; quietly
    | match goal with |- preserves _ (match ?x with _ => _ end) => destruct x; quietly end
    | idtac ].

Lemma quiet_fail logID msg : preserves quiet_step (fail_event logID msg).
Proof. unfold fail_event. quietly. Qed.

Lemma quiet_download c t o r s :
  preserves quiet_step (outward (T := sdb) (DownloadSourceArchive c t o r s)).
Proof. apply kept_outward; [typeclasses eauto..|]. intros y.
  split; [apply archive_quiet|]. unfold proper_kept. by rewrite archive_disk.
Qed.

Lemma quiet_package connector token owner repo sha sub :
  preserves quiet_step (downloadAndPackage cwd tempDir connector token owner repo sha sub).
Proof. unfold downloadAndPackage. quietly. apply quiet_download. Qed.

(** ** Publishing *)

Definition tmp_of (w : env (beside sdb Y)) : env fs := disk (around (st w)).

Lemma temp_loc name : proper name -> loc cwd (Filepath.Join tempDir name) = segs tempDir ++ [name].
Proof.
  intros Hn. rewrite join_name by done. rewrite loc_render; [done|].
  apply canon_app; [by apply abs_canon | by apply Forall_singleton].
Qed.

Lemma plain_proper pre suf n :
  no_slash pre = true -> no_slash suf = true -> (3 <= String.length pre)%nat ->
  proper (pre +:+ uuid_text n +:+ suf).
Proof.
  intros Hp Hs Hl.
  assert (Hns : no_slash (pre +:+ uuid_text n +:+ suf) = true).
  { assert (Happ : forall a b, no_slash a = true -> no_slash b = true -> no_slash (a +:+ b) = true).
    { intros a b Ha Hb. induction a as [|x a IH]; [done|]. rewrite append_cons. cbn [no_slash] in *.
      apply andb_prop in Ha as [E1 E2]. rewrite E1. by apply IH. }
    apply Happ; [done|]. apply Happ; [apply uuid_plain | done]. }
  assert (Hlen : (3 <= String.length (pre +:+ uuid_text n +:+ suf))%nat) by (rewrite length_append_s; lia).
  repeat split; [| | |done]; intros E; rewrite E in Hlen; cbn in Hlen; lia.
Qed.

Definition dir_name (n : uuid) : string := "scm-publish-" +:+ uuid_text n.
Definition out_name (k : uuid) : string := "module-" +:+ uuid_text k +:+ ".tar.gz".

Lemma dir_proper n : proper (dir_name n).
Proof.
  unfold dir_name. rewrite <- (append_nil_r (uuid_text n)). apply plain_proper; [done..|cbn; lia].
Qed.
Lemma out_proper k : proper (out_name k).
Proof. apply plain_proper; [done..|cbn; lia]. Qed.

Lemma names_apart n k : out_name k <> dir_name n.
Proof. unfold out_name, dir_name. intros [=]. Qed.

(** An archive made of what the connector answered when it was asked for the link's
    repository at the hook's commit: unpacked, on the disk as it is in [s], to a
    directory whose name is drawn after [s], and packed again from the directory of
    it the module path leads to. *)
Definition packaged (connector : ConnectorSettings) (link : ModuleSCMRepo) (hook : IncomingHook)
  (s : beside sdb Y) (bytes : string) : Prop :=
  exists token y archive n k now,
    fst (DownloadSourceArchive connector token (ms_RepositoryOwner link) (ms_RepositoryName link)
           (hk_CommitSHA hook) y) = Ok archive /\
    (snext (tabs s) <= n)%nat /\
    packaged_from cwd archive (Filepath.Join tempDir (dir_name n)) (ms_ModulePath link)
      (Filepath.Join tempDir (out_name k)) (hk_CommitSHA hook) now (st (disk (around s))) bytes.

Lemma packaged_before connector link hook s s' bytes :
  both unpublished still s s' -> packaged connector link hook s' bytes -> packaged connector link hook s bytes.
Proof.
  intros [[[] _] [_ D]] (token & y & archive & n & k & now & Ha & Hn & Hp). rewrite D in Hp.
  exists token, y, archive, n, k, now. split; [done|]. split; [lia | done].
Qed.

(** Clearing the extraction directory leaves the new archive. *)
Lemma cleared n k bytes w :
  holds cwd (Filepath.Join tempDir (out_name k)) bytes w ->
  holds cwd (Filepath.Join tempDir (out_name k)) bytes
    (snd (RemoveAll cwd (Filepath.Join tempDir (dir_name n)) w)).
Proof.
  unfold holds, RemoveAll. rewrite temp_loc by apply out_proper. unfold on_path.
  destruct (String.eqb _ ""); [done|]. rewrite temp_loc by apply dir_proper.
  intros Hh. assert (Hf : filter (fun kv : list string * node =>
      take (length (segs tempDir ++ [dir_name n])) (fst kv) <> segs tempDir ++ [dir_name n])
      (nodes (st w)) !! (segs tempDir ++ [out_name k]) = Some (File bytes)).
  { apply map_lookup_filter_Some. split; [exact Hh|]. cbn [fst].
    rewrite take_ge by (rewrite !length_app; cbn; lia).
    intros E. apply app_inj_tail in E as [_ E]. by eapply names_apart. }
  unfold call, db. destruct (faults w) as [|[] fls]; cbn; assumption.
Qed.

Lemma outward_eq {A} (c : prog Y A) (w : env (beside sdb Y)) :
  outward c w = (fst (c (around (st w))),
    Env (Beside (tabs (st w)) (snd (c (around (st w))))) (faults w) (clock w) (ticks w)).
Proof. done. Qed.

Lemma on_tmp_eq {A} (c : prog (env fs) A) w :
  on_tmp c w = (fst (c (tmp_of w)),
    Env (Beside (tabs (st w)) (set_disk (snd (c (tmp_of w))) (around (st w)))) (faults w) (clock w) (ticks w)).
Proof. done. Qed.

Lemma tmp_env t y fls c k : tmp_of (Env (Beside t y) fls c k) = disk y.
Proof. done. Qed.

Lemma download_ok connector token link hook w path c w' :
  proper_keys (nodes (st (tmp_of w))) ->
  downloadAndPackage cwd tempDir connector token (ms_RepositoryOwner link) (ms_RepositoryName link)
    (hk_CommitSHA hook) (ms_ModulePath link) w = (Ok (path, c), w') ->
  exists bytes k, path = Filepath.Join tempDir (out_name k) /\ c = sha256_hex bytes /\
    packaged connector link hook (st w) bytes /\ holds cwd path bytes (tmp_of w').
Proof.
  intros Ht. unfold downloadAndPackage, bind at 1. rewrite outward_eq. cbn [fst snd].
  pose proof (archive_disk connector token (ms_RepositoryOwner link) (ms_RepositoryName link)
    (hk_CommitSHA hook) (around (st w))) as Hd.
  destruct (DownloadSourceArchive _ _ _ _ _ _) as [[archive|e] y1] eqn:Ea; cbn [fst snd] in *; [|done].
  unfold bind at 1, draw_id, state. cbn [fst snd st tabs around]. set (n := next_id (tabs (st w))).
  unfold bind at 1. rewrite on_tmp_eq, tmp_env, Hd. cbn [fst snd st around tabs].
  set (dir := Filepath.Join tempDir ("scm-publish-" +:+ uuid_text n)).
  pose proof (kept_mkdirs dir (disk (around (st w)))) as Hk2.
  assert (Hf : keeps [] (st (disk (around (st w)))) (st (snd (MkdirAll cwd dir (disk (around (st w))))))).
  { unfold MkdirAll, on_path. destruct (String.eqb dir ""); [reflexivity | apply mkdir_all_keeps]. }
  destruct (MkdirAll cwd dir _) as [[u|e] d1]; cbn [fst snd] in *; [|done].
  unfold bind at 1, draw_id, state. cbn [fst snd st tabs around].
  unfold bind at 1, time_now. cbn [fst snd st]. unfold bind at 1. cbv zeta. rewrite on_tmp_eq, tmp_env, disk_set.
  cbn [fst snd st around tabs].
  match goal with |- context [package_module cwd archive dir _ (Filepath.Join _ (_ +:+ uuid_text ?k' +:+ _)) _ ?t d1] =>
    set (k := k'); set (now := t) end.
  destruct (package_module _ _ _ _ _ _ _ d1) as [r d2] eqn:Ep. cbn [fst snd]. unfold bind. cbn [ret fst snd]. intros [= Hr <-]. destruct r as [c'|e]; [|done].
  injection Hr as <- <-. apply package_ok in Ep as (bytes & -> & Hh & Hp); [|done|exact (Hk2 Ht)].
  exists bytes, k. split; [done|]. split; [done|]. split.
  { exists token, (around (st w)), archive, n, k, now. rewrite Ea. split; [done|].
    split; [exact (le_n _) | exact (Hp _ Hf)]. }
  unfold tmp_of, on_tmp, outward, state. cbn [snd st around]. rewrite !disk_set. by apply cleared.
Qed.

Lemma opened_holds path bytes w r :
  loc cwd path <> [] -> holds cwd path bytes w -> fst (Open cwd path w) = Ok r -> fst r = bytes.
Proof.
  unfold holds. intros Hne Hh Ho. unfold Open in Ho. pose proof (on_path_ok _ _ _ _ _ Ho) as E.
  rewrite E in Ho. apply call_ok in Ho as [Ho _]. cbn in Ho.
  destruct (stat_at _ _) as [[|c]|e] eqn:Es; [| |done]; apply reach_ok in Es; cbn [app] in Es;
    destruct (loc cwd path); try done; cbn [node_at] in Es; rewrite Hh in Es; [done|].
  by injection Es as ->; injection Ho as <-.
Qed.

Lemma stat_holds path bytes w n :
  loc cwd path <> [] -> holds cwd path bytes w -> fst (Stat cwd path w) = Ok n -> n = File bytes.
Proof.
  unfold holds. intros Hne Hh Ho. unfold Stat in Ho. pose proof (on_path_ok _ _ _ _ _ Ho) as E.
  rewrite E in Ho. apply call_ok in Ho as [Ho _]. cbn in Ho. apply reach_ok in Ho. cbn [app] in Ho.
  destruct (loc cwd path); [done|]. cbn [node_at] in Ho. congruence.
Qed.

(** What uploading may do: write the archive under its key; a failed upload may have. *)
Definition uploaded (key bytes : string) (y y' : Y) : Prop := objects y' = <[key := bytes]> (objects y).

Lemma store_outcome module v path bytes w r w' :
  loc cwd path <> [] -> holds cwd path bytes (tmp_of w) ->
  store_archive cwd module v path w = (r, w') ->
  tabs (st w') = tabs (st w) /\
  match r with
  | Ok n => n = slen bytes /\ uploaded (storage_path module v) bytes (around (st w)) (around (st w'))
  | Err _ => objects (around (st w')) = objects (around (st w)) \/
             uploaded (storage_path module v) bytes (around (st w)) (around (st w'))
  end.
Proof.
  intros Hne Hh. unfold store_archive, bind at 1. rewrite on_tmp_eq. cbn [fst snd].
  pose proof (opened_holds path bytes (tmp_of w)) as Ho.
  assert (Hn : nodes (st (snd (Open cwd path (tmp_of w)))) = nodes (st (tmp_of w))) by apply (reading_same cwd).
  destruct (Open cwd path (tmp_of w)) as [[[b err]|e] d1]; cbn [fst snd] in *.
  2: { intros [= <- <-]. cbn. split; [done|]. left. apply disk_apart. }
  specialize (Ho _ Hne Hh eq_refl). cbn in Ho. subst b. unfold bind at 1. rewrite on_tmp_eq.
  unfold tmp_of at 1 2. cbn [fst snd st around tabs]. rewrite disk_set.
  pose proof (stat_holds path bytes d1) as Hs. unfold holds in *. rewrite Hn in Hs.
  destruct (Stat cwd path d1) as [[n|e] d2]; cbn [fst snd] in *.
  2: { intros [= <- <-]. cbn. split; [done|]. left. by rewrite !disk_apart. }
  specialize (Hs _ Hne Hh eq_refl). subst n. unfold bind at 1, outward, state. cbn [fst snd st around tabs].
  match goal with |- context [storage_Upload ?k ?d ?y] =>
    pose proof (upload_writes k d y) as Hu; destruct (storage_Upload k d y) as [[u|e] y'] end;
    cbn [fst snd] in *; rewrite !disk_apart in Hu; intros [= <- <-]; cbn;
    (split; [done|]).
  - split; [done|]. destruct Hu as [Hu|[_ Hu]]; [exact Hu | done].
  - destruct Hu as [Hu|[Hu _]]; [by right | by left].
Qed.

(** One version more, for a module that did not have it. *)
Record adds (moduleID : uuid) (v : string) (ok : ModuleVersion -> Prop) (t t' : sdb) : Prop := {
  ad_aside : aside t t';
  ad_new : any (ModuleRepository.version_is moduleID v) (module_versions t) = false;
  ad_row : exists row, module_versions t' = module_versions t ++ [row] /\ ok row;
}.

Lemma adds_after moduleID v ok t1 t2 t3 :
  unpublished t1 t2 -> adds moduleID v ok t2 t3 -> adds moduleID v ok t1 t3.
Proof.
  intros [Ha Hv] [Ha' Hn Hr]. rewrite Hv in *. constructor; [by etransitivity | done..].
Qed.

Lemma adds_before moduleID v ok t1 t2 t3 :
  adds moduleID v ok t1 t2 -> unpublished t2 t3 -> adds moduleID v ok t1 t3.
Proof.
  intros [Ha Hn Hr] [Ha' Hv]. rewrite <- Hv in Hr. constructor; [by etransitivity | done..].
Qed.

(** The row the run writes. *)
Record row_of (link : ModuleSCMRepo) (hook : IncomingHook) (module : Module)
  (v checksum : string) (size : Z) (row : ModuleVersion) : Prop := {
  ro_module : mv_ModuleID row = ms_ModuleID link;
  ro_version : mv_Version row = v;
  ro_path : mv_StoragePath row = storage_path module v;
  ro_checksum : mv_Checksum row = checksum;
  ro_size : mv_SizeBytes row = size;
  ro_commit : mv_CommitSHA row = Some (hk_CommitSHA hook);
  ro_tag : mv_TagName row = Some (hk_TagName hook);
  ro_link : mv_SCMRepoID row = Some (ms_ID link);
}.

Lemma quiet_readme path : preserves quiet_step (readme_of cwd path).
Proof. unfold readme_of. quietly. Qed.

Lemma quiet_queue v : preserves quiet_step (queue_scan scanQueue v).
Proof. unfold queue_scan. quietly. Qed.

Lemma quiet_store_docs v path : preserves quiet_step (store_module_docs cwd moduleDocs v path).
Proof. unfold store_module_docs. quietly. Qed.

Definition written link hook module v checksum size (s s' : beside sdb Y) : Prop :=
  both (adds (ms_ModuleID link) v (row_of link hook module v checksum size)) calm s s'.

Lemma written_around link hook module v c n s1 s2 s3 s4 :
  both unpublished calm s1 s2 -> written link hook module v c n s2 s3 ->
  both unpublished calm s3 s4 -> written link hook module v c n s1 s4.
Proof.
  intros [U1 C1] [A C2] [U3 C3]. split; [|by etransitivity; [|etransitivity]].
  eapply adds_after; [done|]. by eapply adds_before.
Qed.

Lemma create_outcome link hook module v c n readme w r w' :
  ModuleRepository.CreateVersion (Y := Y) (version_row link hook module v c n readme) w = (r, w') ->
  match r with
  | Ok _ => written link hook module v c n (st w) (st w')
  | Err _ => st w' = st w
  end.
Proof.
  unfold ModuleRepository.CreateVersion, sql, db. cbn [mv_ModuleID mv_Version mv_SCMRepoID version_row].
  destruct (faults w) as [|[] fls]; cbn [fst snd]; [|by intros [= <- <-]|].
  all: destruct (any (ModuleRepository.version_is _ _) _) eqn:Ea; [by intros [= <- <-]; destruct (st w)|].
  all: destruct (negb _); [by intros [= <- <-]; destruct (st w)|].
  all: cbn; intros [= <- <-]; cbn; split; [|reflexivity]; cbn.
  all: split; [|exact Ea|]; destruct (tabs (st w)); cbn; [constructor; cbn; try done; lia|].
  all: eexists; split; [done|]; by constructor.
Qed.

Lemma record_outcome link hook module v path c n w r w' :
  record_version cwd scanQueue moduleDocs link hook module v path c n w = (r, w') ->
  quiet_step w w' \/ written link hook module v c n (st w) (st w').
Proof.
  unfold record_version, bind at 1. pose proof (quiet_readme path w) as Q1.
  destruct (readme_of cwd path w) as [readme w1]. cbn [fst snd] in *. unfold bind at 1.
  pose proof (quiet_draw w1) as Q2. destruct (draw_id w1) as [id w2]. cbn [fst snd] in *. unfold bind at 1.
  destruct (ModuleRepository.CreateVersion _ w2) as [r0 w3] eqn:Ec. cbn [fst snd].
  assert (Q12 : both unpublished calm (st w) (st w2)) by (etransitivity; [exact Q1 | exact Q2]).
  apply create_outcome in Ec. destruct r0 as [row|e]; cbn [ret fst snd].
  - intros E. right. eapply written_around; [exact Q12 | exact Ec|].
    assert (Hp : preserves quiet_step (run! queue_scan scanQueue (mv_ID row) in
        run! store_module_docs cwd moduleDocs (mv_ID row) path in ret (Ok (A := uuid) id))).
    { pose proof (quiet_queue (mv_ID row)). pose proof (quiet_store_docs (mv_ID row) path). preserve. }
    specialize (Hp w3). exact (eq_ind _ (fun x => quiet_step w3 x) Hp _ (f_equal snd E)).
  - unfold ret. intros [= _ <-]. left. unfold on_st. by rewrite Ec.
Qed.

(** *** The whole run *)

(** What a run for version [v] of [link]'s module may have done: nothing but moving
    the event; or, besides, put an archive that is [made] right under the version's key;
    or, besides that, recorded the version with the archive's digest and length. *)
Inductive run_effect (made : string -> Prop) (link : ModuleSCMRepo) (hook : IncomingHook) (v : string)
  (s s' : beside sdb Y) : Prop :=
| no_effect : unpublished (tabs s) (tabs s') -> objects (around s') = objects (around s) ->
    run_effect made link hook v s s'
| only_stored module bytes :
    In module (modules (tabs s)) -> mo_ID module = ms_ModuleID link ->
    made bytes ->
    uploaded (storage_path module v) bytes (around s) (around s') ->
    unpublished (tabs s) (tabs s') ->
    run_effect made link hook v s s'
| published module bytes :
    In module (modules (tabs s)) -> mo_ID module = ms_ModuleID link ->
    made bytes ->
    uploaded (storage_path module v) bytes (around s) (around s') ->
    adds (ms_ModuleID link) v
      (row_of link hook module v (sha256_hex bytes) (slen bytes)) (tabs s) (tabs s') ->
    run_effect made link hook v s s'.

Lemma effect_around made link hook v s1 s2 s3 s4 :
  both unpublished calm s1 s2 -> run_effect made link hook v s2 s3 -> both unpublished calm s3 s4 ->
  run_effect made link hook v s1 s4.
Proof.
  intros [U1 [O1 _]] He [U3 [O3 _]].
  assert (Hm : modules (tabs s2) = modules (tabs s1)) by apply U1.
  destruct He as [U2 O2 | m b Hin Hid Hp Hu U2 | m b Hin Hid Hp Hu A2]; rewrite ?Hm in *.
  - apply no_effect; [by do 2 (etransitivity; [done|]) | congruence].
  - eapply only_stored; try done; [unfold uploaded in *; congruence | by do 2 (etransitivity; [done|])].
  - eapply published; try done; [unfold uploaded in *; congruence|].
    eapply adds_after; [done|]. by eapply adds_before.
Qed.

Lemma publish_effect connector token link hook v s0 w r w' :
  proper_keys (nodes (st (tmp_of w))) -> both unpublished still s0 (st w) ->
  publishModuleVersion cwd tempDir scanQueue moduleDocs connector token link hook v w = (r, w') ->
  run_effect (packaged connector link hook s0) link hook v (st w) (st w').
Proof.
  intros Ht Hs0. unfold publishModuleVersion, bind at 1.
  pose proof (still_query "failed to get module by ID" (fun t => Ok (List.find
    (fun m => (mo_ID m =? ms_ModuleID link)%nat) (modules t))) w) as Q1.
  assert (Hm : forall m, fst (ModuleRepository.GetModuleByID (ms_ModuleID link) w) = Ok (Some m) ->
    In m (modules (tabs (st w))) /\ mo_ID m = ms_ModuleID link).
  { intros m E. unfold ModuleRepository.GetModuleByID, query, sql in E. apply db_ok in E as [E _].
    cbn in E. injection E as E. apply find_some in E as [Hin Hid]. split; [done|]. by apply Nat.eqb_eq. }
  unfold ModuleRepository.GetModuleByID in *.
  assert (Hno : forall wa, quiet_step w wa -> run_effect (packaged connector link hook s0) link hook v (st w) (st wa)).
  { intros wa [U [O _]]. by apply no_effect. }
  destruct (query _ _ w) as [[[module|]|e] w1]; cbn [fst snd] in *; pose proof (still_quiet _ _ Q1) as Q1'.
  2,3: unfold ret; intros [= <- <-]; by apply Hno.
  assert (Hs1 : both unpublished still s0 (st w1)) by (etransitivity; [exact Hs0 | exact Q1]).
  destruct (Hm _ eq_refl) as [Hin Hid]. clear Hm. unfold bind at 1.
  pose proof (quiet_package connector token (ms_RepositoryOwner link) (ms_RepositoryName link)
    (hk_CommitSHA hook) (ms_ModulePath link) w1) as Q2.
  destruct (downloadAndPackage _ _ _ _ _ _ _ _ w1) as [[[path c]|e] w2] eqn:Ed; cbn [fst snd] in *.
  2: unfold ret; intros [= <- <-]; apply Hno; by etransitivity.
  apply download_ok in Ed as (bytes & k & -> & -> & Hp & Hh); [|by destruct Q1' as [_ [_ Hk]]; apply Hk].
  apply (packaged_before _ _ _ _ _ _ Hs1) in Hp.
  assert (Q12 : both unpublished calm (st w) (st w2)) by (etransitivity; [exact Q1' | exact Q2]).
  set (path := Filepath.Join tempDir (out_name k)) in *.
  assert (Hne : loc cwd path <> []).
  { unfold path. rewrite temp_loc by apply out_proper. by destruct (segs tempDir). }
  unfold bind at 1. destruct (store_archive _ _ _ _ w2) as [s w3] eqn:Es. cbn [fst snd].
  destruct (store_outcome _ _ _ _ _ _ _ Hne Hh Es) as [Hts Hs].
  assert (Hin2 : In module (modules (tabs (st w2)))).
  { destruct Q12 as [[[] _] _]. congruence. }
  assert (U3 : unpublished (tabs (st w2)) (tabs (st w3))) by (rewrite Hts; reflexivity).
  unfold bind at 1. unfold bind. cbn [ret fst snd].
  pose proof (quiet_tmp _ (kept_remove path)) as Qr.
  intros [= <- <-].
  destruct s as [n|e]; cbn [ret fst snd].
  - destruct Hs as [-> Hup].
    destruct (record_version cwd scanQueue moduleDocs link hook module v path (sha256_hex bytes)
      (slen bytes) w3) as [r w4] eqn:Er. cbn [snd].
    eapply effect_around; [exact Q12 | | apply Qr].
    apply record_outcome in Er as [[U4 [O4 _]]|[A4 [O4 _]]].
    + eapply only_stored; try done; [unfold uploaded in *; congruence | by etransitivity].
    + eapply published; try done; [unfold uploaded in *; congruence | by eapply adds_after].
  - eapply effect_around; [exact Q12 | | apply Qr]. destruct Hs as [Ho|Hup].
    + by apply no_effect.
    + by eapply only_stored.
Qed.

Lemma still_find {A} op (f : sdb -> res A) w r w1 :
  query op f w = (r, w1) -> still_step w w1 /\ (forall a, r = Ok a -> f (tabs (st w)) = Ok a).
Proof.
  intros E. split; [pose proof (still_query op f w) as Q; by rewrite E in Q|].
  intros a ->. assert (Hr : fst (query op f w) = Ok a) by by rewrite E.
  unfold query, sql in Hr. by apply db_ok in Hr as [Hr _].
Qed.

(** The last part of the run, for a version that is not recorded. *)
Lemma new_version_effect logID link hook connector v s0 w1 :
  proper_keys (nodes (st (tmp_of w1))) -> both unpublished still s0 (st w1) ->
  run_effect (packaged connector link hook s0) link hook v (st w1) (st (snd (
    (let! m := ModuleRepository.GetModuleByID (ms_ModuleID link) in
     match m with
     | Err _ => fail_event logID "failed to look up module"
     | Ok None => fail_event logID "module not found"
     | Ok (Some module) =>
         let! token := resolveSourceToken (mo_CreatedBy module) (ms_SCMProviderID link) in
         let! r := publishModuleVersion cwd tempDir scanQueue moduleDocs connector token link hook v in
         match r with
         | Err _ => fail_event logID "failed to publish version"
         | Ok versionID =>
             run! SCMRepository.UpdateWebhookLogState logID "completed" None (Some versionID) in ret tt
         end
     end) w1))).
Proof.
  intros Ht Hs0. unfold bind at 1. unfold ModuleRepository.GetModuleByID.
  destruct (query _ _ w1) as [m w2] eqn:Em. apply still_find in Em as [Q1 _]. cbn [fst snd].
  assert (Hno : forall wa, quiet_step w2 wa -> run_effect (packaged connector link hook s0) link hook v (st w1) (st wa)).
  { intros wa Q. assert (Q' : both unpublished calm (st w1) (st wa))
      by (etransitivity; [exact (still_quiet _ _ Q1) | exact Q]).
    destruct Q' as [U [O _]]. by apply no_effect. }
  destruct m as [[module|]|e]; [|apply Hno, quiet_fail..].
  unfold bind at 1. pose proof (still_token (mo_CreatedBy module) (ms_SCMProviderID link) w2) as Q2.
  destruct (resolveSourceToken _ _ w2) as [token w3]. cbn [fst snd] in *. unfold bind at 1.
  assert (Q12 : both unpublished still (st w1) (st w3)) by (etransitivity; [exact Q1 | exact Q2]).
  destruct (publishModuleVersion _ _ _ _ _ _ _ _ _ w3) as [r w4] eqn:Ep. cbn [fst snd].
  apply (publish_effect _ _ _ _ _ s0) in Ep.
  2: { destruct (still_quiet _ _ Q12) as [_ [_ Hk]]. by apply Hk. }
  2: by etransitivity.
  eapply effect_around; [exact (still_quiet _ _ Q12) | exact Ep|].
  destruct r as [versionID|e]; [|apply quiet_fail].
  assert (Hq : preserves quiet_step (run! SCMRepository.UpdateWebhookLogState logID "completed" None
    (Some versionID) in ret tt)) by (pose proof quiet_state; preserve).
  apply Hq.
Qed.

Lemma push_effect logID link hook connector (w : env (beside sdb Y)) :
  proper_keys (nodes (st (disk (around (st w))))) ->
  let w' := snd (ProcessTagPush cwd tempDir scanQueue moduleDocs logID link hook connector w) in
  let v := extractVersionFromTag (hk_TagName hook) (ms_TagPattern link) in
  run_effect (packaged connector link hook (st w)) link hook v (st w) (st w') /\
  (is_semver v = false \/
   any (ModuleRepository.version_is (ms_ModuleID link) v) (module_versions (tabs (st w))) = true ->
   unpublished (tabs (st w)) (tabs (st w')) /\ objects (around (st w')) = objects (around (st w))).
Proof.
  intros Ht w' v.
  pose (goal := fun s' => run_effect (packaged connector link hook (st w)) link hook v (st w) s' /\
    (is_semver v = false \/
     any (ModuleRepository.version_is (ms_ModuleID link) v) (module_versions (tabs (st w))) = true ->
     unpublished (tabs (st w)) (tabs s') /\ objects (around s') = objects (around (st w)))).
  enough (Hg : goal (st w')) by exact Hg. subst w'. unfold ProcessTagPush. fold v. cbv zeta.
  assert (Hquiet : forall wa, quiet_step w wa -> goal (st wa)).
  { intros wa [U [O _]]. split; [by apply no_effect | by intros _]. }
  unfold bind at 1. pose proof (still_state logID "processing" None None w) as Q1s.
  pose proof (still_quiet _ _ Q1s) as Q1.
  destruct (SCMRepository.UpdateWebhookLogState _ _ _ _ w) as [u w1]. cbn [fst snd] in *.
  assert (Hthen : forall (c : prog (env (beside sdb Y)) unit), preserves quiet_step c ->
    quiet_step w (snd (c w1))) by (intros c Hc; etransitivity; [exact Q1 | apply Hc]).
  destruct u as [u|e]; [|by apply Hquiet].
  destruct (String.eqb_spec v "") as [Hv|Hv]; [apply Hquiet, Hthen, quiet_fail|].
  unfold bind at 1, ModuleRepository.GetVersion.
  destruct (query _ _ w1) as [ex w2] eqn:Eg. apply still_find in Eg as [Q2 Hf]. cbn [fst snd].
  assert (Q12s : both unpublished still (st w) (st w2)) by (etransitivity; [exact Q1s | exact Q2]).
  pose proof (still_quiet _ _ Q12s) as Q12.
  destruct ex as [[row|]|e].
  - apply Hquiet. assert (Hq : forall msg, preserves quiet_step (run! SCMRepository.UpdateWebhookLogState
      logID "skipped" msg None in ret tt)) by (intros msg; pose proof quiet_state; preserve).
    etransitivity; [exact Q12 | apply Hq].
  - split.
    + eapply effect_around; [exact Q12 | apply (new_version_effect logID link hook connector v (st w) w2); [|exact Q12s] | reflexivity].
      by destruct Q12 as [_ [_ Hk]]; apply Hk.
    + intros [Hs|Hs]; exfalso.
      * assert (Hs' : is_semver v = true) by by apply extract_semver. congruence.
      * specialize (Hf _ eq_refl). injection Hf as Hf. apply List.existsb_exists in Hs as (row & Hin & Hi).
        destruct Q1 as [[_ Hmv] _]. rewrite <- Hmv in Hin.
        pose proof (find_none _ _ Hf _ Hin). congruence.
  - apply Hquiet. etransitivity; [exact Q12 | apply quiet_fail].
Qed.

(** C12: a published version is what is stored for it.  Whatever statement, call or
    download fails, handling a tag push either only moves its event; or also puts
    an archive under the version's key; or also records exactly one version, which
    the module did not have, with the tag's version, the link's module, the tag and
    commit of the hook, and with the SHA-256 digest and the length of the bytes then
    stored under its key.  Those bytes are an archive of the commit's manifest and of
    what the walk of the module path delivers on the temporary disk of the run after
    the connector's answer, for the link's repository at the hook's commit, was
    unpacked there (the walk starts at the root of the checkout, or at the directory
    that is all there is in it).  Providers, tokens, links, modules, alerts and the
    versions already recorded stay as they are.  When the tag names no semantic
    version, or one that is recorded, nothing is stored or recorded. *)
Theorem published_version_is_what_is_stored logID link hook connector (w : env (beside sdb Y)) :
  proper_keys (nodes (st (disk (around (st w))))) ->
  let w' := snd (ProcessTagPush cwd tempDir scanQueue moduleDocs logID link hook connector w) in
  let v := extractVersionFromTag (hk_TagName hook) (ms_TagPattern link) in
  run_effect (packaged connector link hook (st w)) link hook v (st w) (st w') /\
  (is_semver v = false \/
   any (ModuleRepository.version_is (ms_ModuleID link) v) (module_versions (tabs (st w))) = true ->
   unpublished (tabs (st w)) (tabs (st w')) /\ objects (around (st w')) = objects (around (st w))).
Proof. exact (push_effect logID link hook connector w). Qed.

(** C24: a published archive is made of its checkout.  When the link's module path does
    not climb above its start, and the names to be drawn for extraction directories are
    not in use on the temporary disk, handling a tag push changes no stored object but
    to an archive that holds the commit's manifest and exactly the files the entries
    of the connector's archive, for the link's repository at the hook's commit,
    deliver below the module path: the module path is taken from the root of the
    checkout or from a directory in its root, every file has the content the bodies
    of its entries give it, no file of the host is among them, and the connector's
    archive was read to its end. *)
Theorem published_from_the_checkout `{!GoSortLaws} logID link hook connector (w : env (beside sdb Y)) key :
  proper_keys (nodes (st (disk (around (st w))))) -> ~ climbs (ms_ModulePath link) ->
  (forall n p nd, (snext (tabs (st w)) <= n)%nat ->
     nodes (st (disk (around (st w)))) !! (segs tempDir ++ dir_name n :: p) <> Some nd) ->
  let w' := snd (ProcessTagPush cwd tempDir scanQueue moduleDocs logID link hook connector w) in
  objects (around (st w')) !! key = objects (around (st w)) !! key \/
  exists token y archive entries n mid files now,
    fst (DownloadSourceArchive connector token (ms_RepositoryOwner link) (ms_RepositoryName link)
           (hk_CommitSHA hook) y) = Ok archive /\
    open_targz (limit_string (maxCompressedInputBytes + 1) archive) = Ok (entries, None) /\
    (mid = [] \/ exists name, mid = [name]) /\
    (let dir := Filepath.Join tempDir (dir_name n) in
     made_of dir (segs dir ++ mid ++ segs (ms_ModulePath link)) entries files) /\
    objects (around (st w')) !! key = Some (write_targz (commit_manifest (hk_CommitSHA hook) now :: files)).
Proof.
  intros Ht Hc Hfresh w'. destruct (push_effect logID link hook connector w Ht) as [He _]. fold w' in He.
  match goal with |- ?P => assert (Hput : forall k bytes, packaged connector link hook (st w) bytes ->
    uploaded k bytes (around (st w)) (around (st w')) -> P) end.
  { intros k bytes (token & y & archive & n & o & now & Ha & Hn & Hp) Hu. rewrite Hu.
    destruct (decide (k = key)) as [->|Hne]; [|left; by rewrite lookup_insert_ne]. right.
    destruct (segs_join_name tempDir (dir_name n) Htmp (dir_proper n)) as [Es Habs].
    apply packaged_entries in Hp as (entries & mid & files & Ho & Hm & Hf & ->); [|done|done|done|..].
    - exists token, y, archive, entries, n, mid, files, now. by rewrite lookup_insert_eq.
    - intros p c. rewrite Es, <- app_assoc. by apply Hfresh.
    - intros p. rewrite Es, temp_loc by apply out_proper. rewrite <- app_assoc.
      by intros [=]%app_inv_head. }
  destruct He as [_ Ho | m b _ _ Hp Hu _ | m b _ _ Hp Hu _]; [left; by rewrite Ho | by eapply Hput..].
Qed.
End Steps.

(** ** A small world

    An outside with one source archive, a repository wrapped in a directory; texts
    and digests by formulas. *)

Module Demo.

#[export] Instance sort : GoSort := stable_sort.
#[export] Instance sort_laws : GoSortLaws (H := sort) := stable_sort_laws.
#[export] Instance sha : Sha256 := fun d => "sha:" +:+ d.
#[export] Instance jsonb : JsonbScan := true.

Fixpoint unary (n : uuid) : string := match n with O => "" | S n' => String "i" (unary n') end.
#[export] Instance texts : Texts := {|
  uuid_text n := unary n;
  parse_uuid s := Some (String.length s);
  format_time _ := "now" |}.

Definition file (name content : string) : entry :=
  {| Name := name; Typeflag := TypeReg; body := (content, None) |}.
Definition checkout : list entry :=
  [file "repo/main.tf" "root"; file "repo/net/net.tf" "net"].

(** The checkout and what the writer writes. *)
#[export] Instance targz : TarGz := fun d =>
  if String.eqb d "checkout" then Ok (checkout, None) else Err (ErrMsg "gzip").
#[export] Instance writer : TarGzWriter := fun fs =>
  foldr (fun f acc => fst f +:+ "=" +:+ snd f +:+ ";" +:+ acc) "" fs.
#[export] Instance cipher : TokenCipher := fun s => Ok s.
#[export] Instance analyzer : Analyzer := fun _ => Ok (Some "docs").

Definition Yd : Type := env fs * gmap string string.

#[export] Instance connector : Connector Yd := {|
  DownloadSourceArchive _ _ _ _ _ := ret (Ok "checkout");
  FetchTags _ _ _ _ := ret (Ok []) |}.
#[export] Instance tempdisk : TempDisk Yd := {| disk := fst; set_disk d y := (d, snd y) |}.
#[export] Instance storage : Storage Yd := {|
  storage_Exists k := fun y => (Ok (bool_decide (is_Some (snd y !! k))), y);
  storage_Upload k d := fun y =>
    (Ok {| ur_Path := k; ur_Size := slen d; ur_Checksum := sha256_hex d |}, (fst y, <[k := d]> (snd y))) |}.
#[export] Instance reader : StorageReader Yd := fun k y =>
  (match snd y !! k with Some d => Ok (d, None) | None => Err (ErrMsg "not found") end, y).
#[export] Instance minter : SharedMinter Yd := None.

#[export] Instance storage_laws : StorageLaws Yd.
Proof. refine {| objects := snd |}; [done|]. intros k d y. by left. Defined.

Lemma unary_plain n : no_slash (unary n) = true.
Proof. induction n as [|n IH]; [done|]. cbn [unary no_slash]. by rewrite IH. Qed.

#[export] Instance laws : ScmLaws Yd.
Proof. constructor; try done. exact unary_plain. Qed.

Definition provider (kind : string) : SCMProvider := {|
  scp_ID := 1%nat; scp_OrganizationID := 0%nat; scp_ProviderType := kind; scp_Name := "scm";
  scp_BaseURL := Some "https://scm"; scp_TenantID := None; scp_ClientID := "client";
  scp_ClientSecretEncrypted := "secret"; scp_WebhookSecret := "key"; scp_AuthMode := AuthModeOAuthUser;
  scp_GitHubAppID := None; scp_GitHubInstallationID := None; scp_EncryptedAppPrivateKey := None;
  scp_IsActive := true |}.
Definition link (path pattern : string) : ModuleSCMRepo := {|
  ms_ID := 2%nat; ms_ModuleID := 3%nat; ms_SCMProviderID := 1%nat; ms_RepositoryOwner := "acme";
  ms_RepositoryName := "net"; ms_RepositoryURL := None; ms_DefaultBranch := "main";
  ms_ModulePath := path; ms_TagPattern := pattern; ms_AutoPublish := true; ms_WebhookID := None;
  ms_WebhookURL := Some "https://registry/webhooks/scm/2/hunter2"; ms_WebhookEnabled := true;
  ms_LastSyncAt := None; ms_LastSyncCommit := None |}.
Definition event : SCMWebhookEvent := {|
  we_ID := 4%nat; we_ModuleSCMRepoID := 2%nat; we_EventID := Some "e"; we_EventType := "tag";
  we_Ref := Some "refs/tags/v1.0.0"; we_CommitSHA := Some "c0ffee"; we_TagName := Some "v1.0.0";
  we_Payload := "null"; we_Headers := "{}"; we_Signature := None; we_SignatureValid := Some true;
  we_Processed := false; we_ProcessingStartedAt := None; we_ProcessedAt := None;
  we_ResultVersionID := None; we_Error := None; we_RetryCount := 0; we_MaxRetries := 3;
  we_NextRetryAt := None; we_LastError := None; we_CreatedAt := 0 |}.
Definition amodule : Module :=
  {| mo_ID := 3%nat; mo_Namespace := "acme"; mo_Name := "net"; mo_System := "aws"; mo_CreatedBy := None |}.
Definition hook : IncomingHook := {|
  hk_ID := "e"; hk_Type := "tag"; hk_Ref := "refs/tags/v1.0.0"; hk_CommitSHA := "c0ffee";
  hk_TagName := "v1.0.0"; hk_Payload := "null" |}.
Definition settings (kind : string) : ConnectorSettings := {|
  Kind := kind; InstanceBaseURL := "https://scm"; ClientID := "client"; ClientSecret := "secret";
  CallbackURL := "" |}.

Definition tables (l : ModuleSCMRepo) (kind : string) : sdb := {|
  scm_providers := [provider kind]; scm_provider_tokens := []; scm_oauth_tokens := [];
  module_scm_repos := [l]; scm_webhook_events := [event]; immutability_violations := [];
  modules := [amodule]; module_versions := []; module_version_scans := [];
  module_version_docs := []; snext := 5%nat |}.

Definition disk0 : gmap (list string) node :=
  {[ ["tmp"] := Dir; ["etc"] := Dir; ["etc"; "secret.tf"] := File "password" ]}.

Definition start (l : ModuleSCMRepo) (kind : string) : env (beside sdb Yd) :=
  quiet (Beside (tables l kind) (quiet (Fs disk0 []), ∅)).

Definition push (l : ModuleSCMRepo) : env (beside sdb Yd) :=
  snd (ProcessTagPush [] "/tmp" true true 4%nat l hook (settings ProviderBitbucketDC)
         (start l ProviderBitbucketDC)).

Lemma start_proper l kind : proper_keys (nodes (st (disk (around (st (start l kind)))))).
Proof.
  intros p n Hp. cbn in Hp. unfold disk0 in Hp.
  repeat (apply lookup_insert_Some in Hp as [[<- _]|[_ Hp]];
    [repeat (apply List.Forall_cons; [by split_and!|]); apply List.Forall_nil|]).
  apply lookup_singleton_Some in Hp as [<- _].
  repeat (apply List.Forall_cons; [by split_and!|]). apply List.Forall_nil.
Qed.
End Demo.
Import Demo.

Theorem published_version_is_what_is_stored_witness :
  let l := link "net" "v*" in let key := "modules/acme/net/aws/net-1.0.0.tar.gz" in
  let archive := ".terraform-registry-commit=commit: c0ffee" +:+ String "010" "published: now"
                 +:+ String "010" ";net.tf=net;" in
  objects (around (st (push l))) !! key = Some archive /\
  (mv_Checksum <$> module_versions (tabs (st (push l)))) = ["sha:" +:+ archive] /\
  run_effect (Y := Yd)
    (packaged [] "/tmp" (settings ProviderBitbucketDC) l hook (st (start l ProviderBitbucketDC)))
    l hook "1.0.0" (st (start l ProviderBitbucketDC)) (st (push l)).
Proof.
  split; [by vm_compute|]. split; [by vm_compute|].
  apply (published_version_is_what_is_stored [] "/tmp" true true (Forall_nil_2 _) eq_refl 4%nat
           (link "net" "v*") hook (settings ProviderBitbucketDC)
           (start (link "net" "v*") ProviderBitbucketDC)).
  apply start_proper.
Defined.

Theorem published_from_the_checkout_witness :
  let l := link "net" "v*" in let key := "modules/acme/net/aws/net-1.0.0.tar.gz" in
  objects (around (st (start l ProviderBitbucketDC))) !! key = None /\
  exists entries n mid files now,
    open_targz (limit_string (maxCompressedInputBytes + 1) "checkout") = Ok (entries, None) /\
    (let dir := Filepath.Join "/tmp" (dir_name n) in
     made_of dir (segs dir ++ mid ++ ["net"]) entries files) /\
    objects (around (st (push l))) !! key = Some (write_targz (commit_manifest "c0ffee" now :: files)).
Proof.
  intros l key. assert (Hn : objects (around (st (start l ProviderBitbucketDC))) !! key = None) by done.
  split; [done|].
  destruct (published_from_the_checkout [] "/tmp" true true (Forall_nil_2 _) eq_refl 4%nat
           (link "net" "v*") hook (settings ProviderBitbucketDC)
           (start (link "net" "v*") ProviderBitbucketDC) key) as
    [E|(token & y & archive & entries & n & mid & files & now & [= <-] & Ho & _ & Hf & Hk)].
  - apply start_proper.
  - unfold climbs. change (segs (ms_ModulePath (link "net" "v*"))) with ["net"]. by intros [?|[]].
  - intros n p nd _ Hl. change (disk0 !! (["tmp"] ++ dir_name n :: p) = Some nd) in Hl.
    unfold disk0 in Hl. repeat (apply lookup_insert_Some in Hl as [[[=] _]|[_ Hl]]).
    by apply lookup_singleton_Some in Hl as [[=] _].
  - exfalso. pose proof (eq_trans E Hn) as E'. revert E'. by vm_compute.
  - exists entries, n, mid, files, now. exact (conj Ho (conj Hf Hk)).
Defined.

(** A module path is stored as it was given: one that climbs publishes Terraform files
    of the host. *)
Theorem climbing_module_path_escapes :
  objects (around (st (push (link "../../etc" "v*")))) !! "modules/acme/net/aws/net-1.0.0.tar.gz" =
  Some (".terraform-registry-commit=commit: c0ffee" +:+ String "010" "published: now" +:+ String "010"
        ";secret.tf=password;").
Proof. by vm_compute. Qed.
