(* ===== verification/ScmOutcome.v ===== *)
(** * What a tag push reports

    How a webhook event ends: the outcome [ProcessTagPush] leaves on it, and what
    two runs for one version do to each other. *)

From S2P Require Import Prelude GoStrings SemVer Regexp Filepath Os LocalStorage Archive.
From S2P Require Import TfMirrorRepo TfMirrorSync Tables ScmRepo ScmPublisher ScmPackage ScmSafety.
From stdpp Require Import gmap.

#[local] Open Scope Z_scope.

Definition anything {Y} (_ _ : Y) : Prop := True.
#[export] Instance anything_preorder {Y} : PreOrder (@anything Y).
Proof. by split. Qed.

(** ** Walking through a run

    A relation the publisher's writes move along, the completion of an event aside. *)
Class PublisherMoves (R : sdb -> sdb -> Prop) : Prop := {
  pm_order :: PreOrder R;
  pm_bump t : R t (sbump t);
  pm_create t row : mv_ID row = snext t -> R t (on_mversions (fun rows => rows ++ [row]) (sbump t));
  pm_scans f t : R t (on_scans f t);
  pm_docs f t : R t (on_mdocs f t);
  pm_processing id now t : R t (on_webhooks (update_rows (SCMRepository.event_is id)
                                  (SCMRepository.set_processing now)) t);
  pm_failed id now msg v t : R t (on_webhooks (update_rows (SCMRepository.event_is id)
                                  (SCMRepository.set_processed now (Some msg) v)) t);
  pm_mark id at_ t : R t (on_webhooks (update_rows (SCMRepository.event_is id)
    (fun e => SCMRepository.set_retry false (we_RetryCount e) (we_LastError e) at_ e)) t);
}.

Section Walk.
Context {Y : Type} `{GoSort} `{JsonbScan} `{Sha256} `{TarGz} `{TarGzWriter} `{Texts} `{TokenCipher}.
Context `{Analyzer} `{CN : Connector Y} `{TD : TempDisk Y} `{SY : Storage Y}.
Context `{StorageReader Y} `{MI : SharedMinter Y}.
Context (cwd : list string) (tempDir : string) (scanQueue moduleDocs : bool).
Context (R : sdb -> sdb -> Prop) `{!PublisherMoves R}.

#[local] Abbreviation moves := (on_st (both R (@anything Y))).

Lemma mv_query {A} op (f : sdb -> res A) : preserves moves (query op f).
Proof. apply kept_query; typeclasses eauto. Qed.

Lemma mv_now : preserves moves (@time_now (beside sdb Y)).
Proof. apply kept_now; typeclasses eauto. Qed.

Lemma mv_outward {A} (c : prog Y A) : preserves moves (outward c).
Proof. apply kept_outward; [typeclasses eauto..|done]. Qed.

Lemma mv_tmp {A} (c : prog (env fs) A) : preserves moves (on_tmp c).
Proof. apply mv_outward. Qed.

Lemma mv_draw : preserves moves (@draw_id sdb Y _).
Proof. apply kept_draw; [typeclasses eauto..|apply pm_bump]. Qed.

(** Starting an event, and ending it with an error. *)
Lemma mv_start id msg v : preserves moves (SCMRepository.UpdateWebhookLogState id "processing" msg v).
Proof.
  apply preserves_bind; [typeclasses eauto | apply mv_now|]. intros now.
  apply kept_exec; [typeclasses eauto..|]. intros t. apply pm_processing.
Qed.

Lemma mv_end id state msg v :
  String.eqb state "processing" = false ->
  preserves moves (SCMRepository.UpdateWebhookLogState id state (Some msg) v).
Proof.
  intros E. apply preserves_bind; [typeclasses eauto | apply mv_now|]. intros now. rewrite E.
  apply kept_sql; [typeclasses eauto..|]. intros t. destruct (_ && _); cbn; [reflexivity | apply pm_failed].
Qed.

Lemma mv_mark id at_ : preserves moves (SCMRepository.MarkWebhookForRetry id at_).
Proof. apply kept_exec; [typeclasses eauto..|]. intros t. apply pm_mark. Qed.

Lemma mv_create v : preserves moves (ModuleRepository.CreateVersion v).
Proof.
  apply kept_sql; [typeclasses eauto..|]. intros t. cbv zeta.
  destruct (any _ _); [cbn; reflexivity|]. destruct (negb _); [cbn; reflexivity|]. by apply pm_create.
Qed.

Lemma mv_scan v : preserves moves (ModuleRepository.CreatePendingScan v).
Proof.
  apply kept_sql; [typeclasses eauto..|]. intros t. destruct (negb _); cbn; [reflexivity|]. apply pm_scans.
Qed.

Lemma mv_docs v d : preserves moves (ModuleRepository.UpsertModuleDocs v d).
Proof.
  apply kept_sql; [typeclasses eauto..|]. intros t. destruct (negb _); cbn; [reflexivity|]. apply pm_docs.
Qed.

#[local] Hint Resolve mv_query mv_now mv_outward mv_tmp mv_draw mv_mark mv_create mv_scan mv_docs : registry.

Lemma mv_fail id msg : preserves moves (fail_event id msg).
Proof. unfold fail_event. pose proof (mv_end id "failed" msg None eq_refl). preserve. Qed.

Lemma mv_readme path : preserves moves (readme_of cwd path).
Proof. unfold readme_of. preserve. Qed.

Lemma mv_after id path : preserves moves (run! queue_scan scanQueue id in
  run! store_module_docs cwd moduleDocs id path in ret tt).
Proof. unfold queue_scan, store_module_docs. preserve. Qed.

Lemma mv_download connector token owner repo sha sub :
  preserves moves (downloadAndPackage cwd tempDir connector token owner repo sha sub).
Proof. unfold downloadAndPackage. preserve. Qed.

Lemma mv_store module v path : preserves moves (store_archive cwd module v path).
Proof. unfold store_archive. preserve. Qed.

Lemma mv_record link hook module v path c size :
  preserves moves (record_version cwd scanQueue moduleDocs link hook module v path c size).
Proof. unfold record_version, readme_of, queue_scan, store_module_docs. preserve. Qed.

Lemma mv_publish connector token link hook v :
  preserves moves (publishModuleVersion cwd tempDir scanQueue moduleDocs connector token link hook v).
Proof.
  pose proof mv_download. pose proof mv_store. pose proof mv_record.
  unfold publishModuleVersion, ModuleRepository.GetModuleByID. preserve.
Qed.

Lemma mv_token createdBy providerID : preserves moves (resolveSourceToken createdBy providerID).
Proof.
  unfold resolveSourceToken, user_token, SCMRepository.GetUserToken, SCMRepository.GetProvider.
  destruct MintProviderToken; preserve.
Qed.
End Walk.

(** ** Success is not recorded *)

(** Version identifiers are drawn, and the event has not ended well. *)
Record unfinished (logID : uuid) (t : sdb) : Prop := {
  un_ids : forall v, In v (module_versions t) -> (mv_ID v < snext t)%nat;
  un_event : forall e, In e (scm_webhook_events t) -> we_ID e = logID ->
             we_Processed e = true -> we_Error e <> None;
}.

(** An identifier that was drawn and is no version's. *)
Definition lost (n : uuid) (t : sdb) : Prop :=
  (n < snext t)%nat /\ forall v, In v (module_versions t) -> mv_ID v <> n.

Definition still_unfinished (logID : uuid) (t t' : sdb) : Prop :=
  (unfinished logID t -> unfinished logID t') /\ forall n, lost n t -> lost n t'.

#[export] Instance still_preorder logID : PreOrder (still_unfinished logID).
Proof. split; [by split|]. intros t1 t2 t3 [U1 L1] [U2 L2]. split; auto. Qed.

Lemma still_events logID cond f t :
  (forall e, we_ID (f e) = we_ID e) ->
  (forall e, (we_Processed e = true -> we_Error e <> None) ->
             we_Processed (f e) = true -> we_Error (f e) <> None) ->
  still_unfinished logID t (on_webhooks (update_rows cond f) t).
Proof.
  intros Hid Hf. split; [|by destruct t]. intros [Hi He]. destruct t. constructor; cbn in *; [done|].
  intros e (e0 & <- & Hin)%in_map_iff. destruct (cond e0); [|by apply He].
  rewrite Hid. intros E. by apply Hf, (He _ Hin E).
Qed.

#[export] Instance still_moves logID : PublisherMoves (still_unfinished logID).
Proof.
  constructor; [typeclasses eauto| | | | | | |].
  - intros t. destruct t. split.
    + intros [Hi He]. constructor; cbn in *; [|done]. intros v Hv. specialize (Hi v Hv). lia.
    + intros n [Hn Hv]. split; [cbn in *; lia | exact Hv].
  - intros t row Hr. destruct t. cbn in Hr. split.
    + intros [Hi He]. constructor; cbn in *; [|done].
      intros r [Hin|[<-|[]]]%in_app_iff; [specialize (Hi r Hin)|]; lia.
    + intros n [Hn Hv]. cbn in *. split; [cbn; lia|]. cbn.
      intros r [Hin|[<-|[]]]%in_app_iff; [by apply Hv | lia].
  - intros f t. destruct t. split; [|done]. intros [Hi He]. by constructor.
  - intros f t. destruct t. split; [|done]. intros [Hi He]. by constructor.
  - intros id now t. by apply still_events.
  - intros id now msg v t. by apply still_events.
  - intros id at_ t. by apply still_events.
Qed.

Section Steps.
Context {Y : Type} `{GoSort} `{JsonbScan} `{Sha256} `{TarGz} `{TarGzWriter} `{Texts} `{TokenCipher}.
Context `{Analyzer} `{CN : Connector Y} `{TD : TempDisk Y} `{SY : Storage Y}.
Context `{StorageReader Y} `{MI : SharedMinter Y}.
Context (cwd : list string) (tempDir : string) (scanQueue moduleDocs : bool) (logID : uuid).

#[local] Abbreviation still := (on_st (both (still_unfinished logID) (@anything Y))).
#[local] Abbreviation R := (still_unfinished logID).

(** The identifier a successful publication returns is no version's. *)
Lemma record_lost link hook module v path c size w n w' :
  unfinished logID (tabs (st w)) ->
  record_version cwd scanQueue moduleDocs link hook module v path c size w = (Ok n, w') ->
  lost n (tabs (st w')).
Proof.
  intros Hu. unfold record_version, bind at 1.
  pose proof (mv_readme cwd R path w) as Q1. destruct (readme_of cwd path w) as [readme w1]. cbn [fst snd] in *.
  destruct Q1 as [[Q1 _] _]. specialize (Q1 Hu). unfold bind at 1, draw_id, state. cbn [fst snd].
  set (w2 := Env _ _ _ _).
  assert (Hl : lost (next_id (tabs (st w1))) (tabs (st w2))).
  { destruct Q1 as [Hi _]. split; cbn; destruct (tabs (st w1)); cbn in *; [lia|].
    intros r Hr. specialize (Hi r Hr). lia. }
  unfold bind at 1. match goal with |- context [ModuleRepository.CreateVersion ?row w2] =>
    pose proof (mv_create R row w2) as Q2; destruct (ModuleRepository.CreateVersion row w2) as [[row'|e] w3] end;
    cbn [fst snd] in *; [|done].
  destruct Q2 as [[_ Q2] _]. specialize (Q2 _ Hl).
  pose proof (mv_after cwd scanQueue moduleDocs R (mv_ID row') path w3) as Q3. intros E.
  assert (E1 : Ok (next_id (tabs (st w1))) = Ok n) by exact (f_equal fst E). injection E1 as <-. destruct Q3 as [[_ Q3] _]. specialize (Q3 _ Q2).
  exact (eq_ind _ (fun x => lost _ (tabs (st x))) Q3 _ (f_equal snd E)).
Qed.

Lemma publish_lost connector token link hook v w n w' :
  unfinished logID (tabs (st w)) ->
  publishModuleVersion cwd tempDir scanQueue moduleDocs connector token link hook v w = (Ok n, w') ->
  lost n (tabs (st w')).
Proof.
  intros Hu. unfold publishModuleVersion, bind at 1, ModuleRepository.GetModuleByID.
  match goal with |- context [query ?o ?f w] => pose proof (mv_query R o f w) as Q1;
    destruct (query o f w) as [[[module|]|e] w1] end; cbn [fst snd] in *; [|done..].
  unfold bind at 1. match goal with |- context [downloadAndPackage ?a ?b ?c ?d ?e ?f ?g ?h w1] =>
    pose proof (mv_download a b R c d e f g h w1) as Q2; destruct (downloadAndPackage a b c d e f g h w1) as [[[path c']|x] w2] end;
    cbn [fst snd] in *; [|done].
  unfold bind at 1. match goal with |- context [store_archive ?a ?b ?c ?d w2] =>
    pose proof (mv_store a R b c d w2) as Q3; destruct (store_archive a b c d w2) as [[size|e] w3] end; cbn [fst snd] in *.
  2: { unfold bind, ret. cbn [fst snd]. by intros [= ? ?]. }
  assert (Hu3 : unfinished logID (tabs (st w3))) by (apply Q3, Q2, Q1; exact Hu).
  unfold bind at 1. destruct (record_version _ _ _ _ _ _ _ _ _ _ w3) as [r w4] eqn:Er. cbn [fst snd].
  unfold bind. cbn [fst snd ret]. intros [= -> <-]. apply record_lost in Er; [|exact Hu3].
  by apply (mv_tmp R (Remove cwd path) w4).
Qed.

(** Recording the outcome: the version it names is not there. *)
Lemma completed_refused n : forall w, lost n (tabs (st w)) -> unfinished logID (tabs (st w)) ->
  unfinished logID (tabs (st (snd (SCMRepository.UpdateWebhookLogState (Y := Y) logID "completed" None
    (Some n) w)))).
Proof.
  intros w [_ Hl] Hu. unfold SCMRepository.UpdateWebhookLogState, bind, time_now, sql, db.
  cbn [fst snd st String.eqb Ascii.eqb Bool.eqb faults].
  assert (Hn : SCMRepository.result_ok (Some n) (tabs (st w)) = false).
  { cbn. unfold SCMRepository.version_exists, any. apply not_true_is_false.
    intros (r & Hr & E)%List.existsb_exists. apply Nat.eqb_eq in E. by apply (Hl r). }
  rewrite Hn. destruct (any (SCMRepository.event_is logID) (scm_webhook_events (tabs (st w)))) eqn:Ea.
  - destruct (faults w) as [|[] fls]; cbn; exact Hu.
  - assert (Hs : on_webhooks (update_rows (SCMRepository.event_is logID)
      (SCMRepository.set_processed (clock w + Z.max 0 (hd 0 (ticks w))) None (Some n))) (tabs (st w)) =
      tabs (st w)).
    { destruct (tabs (st w)) as [a b c d e g h i j k m]. cbn in *. f_equal. unfold update_rows, any in *.
      clear -Ea. induction e as [|x e IH]; [done|]. cbn in *. apply orb_false_elim in Ea as [-> Ea].
      by rewrite IH. }
    destruct (faults w) as [|[] fls]; cbn; rewrite ?Hs; exact Hu.
Qed.

(** a publication's success is never recorded.  The identifier the publisher reports is
    not the one the inserted version got, so the statement that would complete the
    event refers to no version and fails: however an unfinished event is handled, it
    does not become one that is processed without an error, even when the version
    has been published. *)
Theorem success_is_never_recorded link hook connector (w : env (beside sdb Y)) :
  unfinished logID (tabs (st w)) ->
  unfinished logID (tabs (st (snd
    (ProcessTagPush cwd tempDir scanQueue moduleDocs logID link hook connector w)))).
Proof.
  intros Hu. unfold ProcessTagPush. cbv zeta.
  assert (Hs : forall (c : prog (env (beside sdb Y)) unit) w', preserves still c ->
    unfinished logID (tabs (st w')) -> unfinished logID (tabs (st (snd (c w')))))
    by (intros c w' Hc; apply (Hc w')).
  unfold bind at 1. pose proof (mv_start R logID None None w) as Q1.
  destruct (SCMRepository.UpdateWebhookLogState _ _ _ _ w) as [[u|e] w1]; cbn [fst snd] in *;
    destruct Q1 as [[Q1 _] _]; specialize (Q1 Hu); [|done].
  destruct (String.eqb _ ""); [by apply Hs; [apply (mv_fail R)|]|].
  unfold bind at 1, ModuleRepository.GetVersion.
  match goal with |- context [query ?o ?f w1] => pose proof (mv_query R o f w1) as Q2;
    destruct (query o f w1) as [[[row|]|e] w2] end; cbn [fst snd] in *;
    destruct Q2 as [[Q2 _] _]; specialize (Q2 Q1); [| |by apply Hs; [apply (mv_fail R)|]].
  { apply Hs; [|done]. match goal with |- context [SCMRepository.UpdateWebhookLogState _ _ (Some ?m) _] =>
      pose proof (mv_end (Y := Y) R logID "skipped" m None eq_refl) end. preserve. }
  unfold bind at 1, ModuleRepository.GetModuleByID.
  match goal with |- context [query ?o ?f w2] => pose proof (mv_query R o f w2) as Q3;
    destruct (query o f w2) as [[[module|]|e] w3] end; cbn [fst snd] in *;
    destruct Q3 as [[Q3 _] _]; specialize (Q3 Q2); [|by apply Hs; [apply (mv_fail R)|]..].
  unfold bind at 1. pose proof (mv_token R (mo_CreatedBy module) (ms_SCMProviderID link) w3) as Q4.
  destruct (resolveSourceToken _ _ w3) as [token w4]. cbn [fst snd] in *.
  destruct Q4 as [[Q4 _] _]. specialize (Q4 Q3). unfold bind at 1.
  match goal with |- context [publishModuleVersion ?a ?b ?c ?d ?e ?f ?g ?h ?i w4] =>
    pose proof (mv_publish a b c d R e f g h i w4) as Q5;
    destruct (publishModuleVersion a b c d e f g h i w4) as [[n|x] w5] eqn:Ep end; cbn [fst snd] in *;
    destruct Q5 as [[Q5 _] _]; specialize (Q5 Q4); [|by apply Hs; [apply (mv_fail R)|]].
  unfold bind. cbn [ret snd]. apply completed_refused; [|done]. apply publish_lost in Ep; done.
Qed.
End Steps.

Import Demo.

(** The version is published, its scan queued and its documentation stored; the event
    stays as it was started. *)
Theorem success_is_never_recorded_witness :
  let t := tabs (st (push (link "net" "v*"))) in
  (length (module_versions t) = 1%nat /\ length (module_version_scans t) = 1%nat) /\
  (we_Processed <$> scm_webhook_events t) = [false] /\ unfinished 4%nat t.
Proof.
  split; [by vm_compute|]. split; [by vm_compute|].
  apply (success_is_never_recorded [] "/tmp" true true 4%nat (link "net" "v*") hook
           (settings ProviderBitbucketDC) (start (link "net" "v*") ProviderBitbucketDC)).
  split; [by intros v []|]. intros e [<-|[]] _. done.
Defined.

(** ** Two runs for one version

    Uploading and recording are separate steps, and the key of an archive is its
    version's: when two runs for one version interleave (two tags that name the same
    version under one pattern are published at once by a manual synchronisation),
    the row keeps the first archive's digest over the second one's bytes. *)
Module Race.
Definition tagged (tag commit : string) : IncomingHook := {|
  hk_ID := ""; hk_Type := ""; hk_Ref := ""; hk_CommitSHA := commit; hk_TagName := tag;
  hk_Payload := "null" |}.
Definition both_downloaded : env (beside sdb Yd) :=
  quiet (Beside (tables (link "net" "*") ProviderGitHub)
    (quiet (Fs {[ ["tmp"] := Dir; ["tmp"; "a"] := File "one"; ["tmp"; "b"] := File "two" ]} []), ∅)).
Definition key : string := "modules/acme/net/aws/net-1.0.0.tar.gz".

Definition after_uploads : env (beside sdb Yd) :=
  snd (store_archive [] amodule "1.0.0" "/tmp/b"
        (snd (store_archive [] amodule "1.0.0" "/tmp/a" both_downloaded))).
Definition first_recorded : env (beside sdb Yd) :=
  snd (record_version [] true true (link "net" "*") (tagged "v1.0.0" "aaa") amodule "1.0.0" "/tmp/a"
         (sha256_hex "one") 3 after_uploads).
Definition second : res uuid * env (beside sdb Yd) :=
  record_version [] true true (link "net" "*") (tagged "1.0.0" "bbb") amodule "1.0.0" "/tmp/b"
    (sha256_hex "two") 3 first_recorded.
End Race.

Lemma concurrent_publish_mismatch :
  extractVersionFromTag "v1.0.0" "*" = "1.0.0" /\ extractVersionFromTag "1.0.0" "*" = "1.0.0" /\
  is_ok (fst Race.second) = false /\
  objects (around (st (snd Race.second))) !! Race.key = Some "two" /\
  (mv_Checksum <$> module_versions (tabs (st (snd Race.second)))) = [sha256_hex "one"] /\
  (mv_CommitSHA <$> module_versions (tabs (st (snd Race.second)))) = [Some "aaa"].
Proof. by vm_compute. Qed.
