(* ===== verification/ScmWebhooks.v ===== *)
(** * Webhook deliveries and their retries

    The connectors' part in a delivery ([internal/scm/connector.go], [registry.go]
    and the four [connector.go] below it: settings, signatures and payloads), the
    endpoint [internal/api/webhooks/scm_webhook.go] and the background job
    [internal/jobs/webhook_retry_job.go].  JSON and HMAC are interfaces; the
    connectors' HTTP calls are those of [ScmPublisher]. *)

From S2P Require Import Prelude GoStrings SemVer Regexp Filepath Os LocalStorage Archive.
From S2P Require Import TfReleases TfMirrorRepo TfMirrorSync Tables ScmRepo ScmPublisher.
From stdpp Require Import gmap.

#[local] Open Scope Z_scope.

(** ** Connectors *)

Definition ErrInvalidProviderType := ErrSentinel "scm.ErrInvalidProviderType".
Definition ErrMissingClientID := ErrSentinel "scm.ErrMissingClientID".
Definition ErrMissingClientSecret := ErrSentinel "scm.ErrMissingClientSecret".
Definition ErrMissingRedirectURL := ErrSentinel "scm.ErrMissingRedirectURL".
Definition ErrWebhookPayloadInvalid := ErrSentinel "scm.ErrWebhookPayloadInvalid".

(** [ProviderType.Valid] and [IsPATBased] *)
Definition ValidKind (k : string) : bool :=
  List.existsb (String.eqb k) [ProviderGitHub; ProviderAzureDevOps; ProviderGitLab; ProviderBitbucketDC].
Definition IsPATBased (k : string) : bool := String.eqb k ProviderBitbucketDC.

(** [ConnectorSettings.Validate] *)
Definition ValidateSettings (s : ConnectorSettings) : option gerror :=
  if negb (ValidKind (Kind s)) then Some ErrInvalidProviderType
  else if IsPATBased (Kind s) then None
  else if String.eqb (ClientID s) "" then Some ErrMissingClientID
  else if String.eqb (ClientSecret s) "" then Some ErrMissingClientSecret
  else if String.eqb (CallbackURL s) "" then Some ErrMissingRedirectURL
  else None.

(** All four kinds are registered; of the builders only Bitbucket's can fail. *)
Definition BuildConnector (s : ConnectorSettings) : res ConnectorSettings :=
  match ValidateSettings s with
  | Some e => Err e
  | None =>
      if String.eqb (Kind s) ProviderBitbucketDC && String.eqb (InstanceBaseURL s) ""
      then Err (ErrMsg "instance base URL is required for Bitbucket Data Center")
      else Ok s
  end.

Class Hmac := hmac_sha256 : string -> string -> string.

Definition hex_digit (c : ascii) : option nat :=
  let n := nat_of_ascii c in
  if (48 <=? n)%nat && (n <=? 57)%nat then Some (n - 48)%nat
  else if (97 <=? n)%nat && (n <=? 102)%nat then Some (n - 87)%nat
  else if (65 <=? n)%nat && (n <=? 70)%nat then Some (n - 55)%nat
  else None.

(** [encoding/hex.DecodeString] *)
Fixpoint hex_decode (s : string) : option string :=
  match s with
  | EmptyString => Some EmptyString
  | String a (String b s') =>
      match hex_digit a, hex_digit b, hex_decode s' with
      | Some x, Some y, Some r => Some (String (ascii_of_nat (16 * x + y)) r)
      | _, _, _ => None
      end
  | _ => None
  end.

Definition hmac_agrees `{Hmac} (sig payload secret : string) : bool :=
  match hex_decode sig with
  | Some got => String.eqb got (hmac_sha256 secret payload)
  | None => false
  end.

(** The four connectors' [VerifyDeliverySignature]. *)
Definition VerifyDeliverySignature `{Hmac} (kind payload signatureHeader sharedSecret : string) : bool :=
  if String.eqb kind ProviderGitHub then
    if String.eqb sharedSecret "" then true
    else if negb (has_prefix signatureHeader "sha256=") then false
    else hmac_agrees (trim_prefix signatureHeader "sha256=") payload sharedSecret
  else if String.eqb kind ProviderGitLab then
    if String.eqb sharedSecret "" then true else String.eqb signatureHeader sharedSecret
  else if String.eqb kind ProviderAzureDevOps then true
  else
    if String.eqb signatureHeader "" || String.eqb sharedSecret "" then false
    else hmac_agrees (trim_prefix signatureHeader "sha256=") payload sharedSecret.

(** *** Payloads *)

Record githubPushPayload := { gh_Ref : string; gh_HeadCommitID : string }.
Record gitlabPushPayload := { gl_ObjectKind : string; gl_Ref : string; gl_CheckoutSHA : string }.
Record adoRefUpdate := { ado_Name : string; ado_NewObjectID : string; ado_OldObjectID : string }.
Record adoPushPayload := { ado_EventType : string; ado_ID : string; ado_RefUpdates : list adoRefUpdate }.
Record bbChange := { bb_RefID : string; bb_RefType : string; bb_DisplayID : string; bb_ToHash : string }.
Record bbWebhookPayload := { bb_EventKey : string; bb_Changes : list bbChange }.

(** [encoding/json] on deliveries; [canonical_object] is what a payload becomes when it
    is read into a map and written again. *)
Class DeliveryCodec := {
  decode_github : string -> res githubPushPayload;
  decode_gitlab : string -> res gitlabPushPayload;
  decode_ado : string -> res adoPushPayload;
  decode_bb : string -> res bbWebhookPayload;
  canonical_object : string -> string;
  encode_headers : gmap string string -> string;
}.

Definition header (h : gmap string string) (k : string) : string := default "" (h !! k).

Definition simple_hook (id type ref sha tag : string) : IncomingHook := {|
  hk_ID := id; hk_Type := type; hk_Ref := ref; hk_CommitSHA := sha; hk_TagName := tag;
  hk_Payload := "null" |}.

Definition parse_github `{DeliveryCodec} (payload : string) (h : gmap string string)
  : res IncomingHook :=
  if String.eqb payload "" then Err ErrWebhookPayloadInvalid
  else
    let event := if String.eqb (header h "X-GitHub-Event") "" then header h "X-Github-Event"
                 else header h "X-GitHub-Event" in
    if String.eqb event "ping" then Ok (simple_hook "" WebhookEventPing "" "" "")
    else if negb (String.eqb event "push") then Ok (simple_hook "" WebhookEventUnknown "" "" "")
    else match decode_github payload with
         | Err _ => Err ErrWebhookPayloadInvalid
         | Ok p =>
             if has_prefix (gh_Ref p) "refs/tags/"
             then Ok (simple_hook "" WebhookEventTag (gh_Ref p) (gh_HeadCommitID p)
                        (trim_prefix (gh_Ref p) "refs/tags/"))
             else Ok (simple_hook "" WebhookEventPush (gh_Ref p) (gh_HeadCommitID p) "")
         end.

Definition parse_gitlab `{DeliveryCodec} (payload : string) (h : gmap string string)
  : res IncomingHook :=
  let event := header h "X-Gitlab-Event" in
  if String.eqb payload "" || String.eqb event "" then Err ErrWebhookPayloadInvalid
  else match decode_gitlab payload with
       | Err _ => Err ErrWebhookPayloadInvalid
       | Ok p =>
           if (String.eqb event "Tag Push Hook" || String.eqb (gl_ObjectKind p) "tag_push") &&
              has_prefix (gl_Ref p) "refs/tags/"
           then Ok (simple_hook "" WebhookEventTag (gl_Ref p) (gl_CheckoutSHA p)
                      (trim_prefix (gl_Ref p) "refs/tags/"))
           else if String.eqb event "Push Hook" || String.eqb (gl_ObjectKind p) "push"
           then Ok (simple_hook "" WebhookEventPush (gl_Ref p) (gl_CheckoutSHA p) "")
           else Ok (simple_hook "" WebhookEventUnknown "" "" "")
       end.

Definition zeroOID : string := "0000000000000000000000000000000000000000".

(** The first newly created tag of the push. *)
Definition new_tag (r : adoRefUpdate) : bool :=
  has_prefix (ado_Name r) "refs/tags/" && String.eqb (ado_OldObjectID r) zeroOID.

Definition parse_ado `{DeliveryCodec} (payload : string) : res IncomingHook :=
  if String.eqb payload "" then Err ErrWebhookPayloadInvalid
  else match decode_ado payload with
       | Err _ => Err ErrWebhookPayloadInvalid
       | Ok p =>
           if negb (String.eqb (ado_EventType p) "git.push")
           then Ok (simple_hook (ado_ID p) WebhookEventUnknown "" "" "")
           else match List.find new_tag (ado_RefUpdates p) with
                | Some r => Ok (simple_hook (ado_ID p) WebhookEventTag (ado_Name r)
                                  (ado_NewObjectID r) (trim_prefix (ado_Name r) "refs/tags/"))
                | None => Ok (simple_hook (ado_ID p) WebhookEventPush "" "" "")
                end
       end.

(** The branch of a push is not read by anything. *)
Definition parse_bitbucket `{DeliveryCodec} (payload : string) (h : gmap string string)
  : res IncomingHook :=
  match decode_bb payload with
  | Err _ => Err ErrWebhookPayloadInvalid
  | Ok p =>
      let hook type ref sha tag := {|
        hk_ID := header h "X-Request-Id"; hk_Type := type; hk_Ref := ref; hk_CommitSHA := sha;
        hk_TagName := tag; hk_Payload := canonical_object payload |} in
      if String.eqb (bb_EventKey p) "repo:refs_changed" then
        match bb_Changes p with
        | [] => Ok (hook WebhookEventUnknown "" "" "")
        | c :: _ =>
            if String.eqb (bb_RefType c) "TAG"
            then Ok (hook WebhookEventTag (bb_RefID c) (bb_ToHash c) (bb_DisplayID c))
            else Ok (hook (if String.eqb (bb_RefType c) "BRANCH" then WebhookEventPush
                           else WebhookEventUnknown) (bb_RefID c) (bb_ToHash c) "")
        end
      else Ok (hook (if String.eqb (bb_EventKey p) "diagnostics:ping" then WebhookEventPing
                     else WebhookEventUnknown) "" "" "")
  end.

Definition ParseDelivery `{DeliveryCodec} (kind payload : string) (h : gmap string string)
  : res IncomingHook :=
  if String.eqb kind ProviderGitHub then parse_github payload h
  else if String.eqb kind ProviderGitLab then parse_gitlab payload h
  else if String.eqb kind ProviderAzureDevOps then parse_ado payload
  else parse_bitbucket payload h.

(** ** The endpoint *)

(** A request: its path parameters, its body, and its headers by canonical name with
    their first values. *)
Record webhook_request := {
  wr_module_source_repo_id : string;
  wr_secret : string;
  wr_body : res string;
  wr_headers : gmap string string;
}.

(** What [ProcessTagPush] is started with in the background. *)
Definition spawned : Type := uuid * ModuleSCMRepo * IncomingHook * ConnectorSettings.

Definition getSignatureHeader (h : gmap string string) (providerType : string) : string :=
  if String.eqb providerType ProviderGitHub then header h "X-Hub-Signature-256"
  else if String.eqb providerType ProviderGitLab then header h "X-Gitlab-Token"
  else if String.eqb providerType ProviderAzureDevOps then header h "X-Vss-Signature"
  else if String.eqb providerType ProviderBitbucketDC then header h "X-Hub-Signature"
  else "".

(** [path.Base] *)
Definition path_base (p : string) : string :=
  if String.eqb p "" then "."
  else let t := trim_slashes p in
       if String.eqb t "" then "/" else default "" (last (split_on "/" t)).

Definition connector_settings (provider : SCMProvider) (clientSecret : string)
  : ConnectorSettings := {|
  Kind := scp_ProviderType provider; InstanceBaseURL := default "" (scp_BaseURL provider);
  ClientID := scp_ClientID provider; ClientSecret := clientSecret; CallbackURL := "" |}.

Section Webhooks.
Context {Y : Type} `{GoSort} `{JsonbScan} `{Sha256} `{TarGz} `{TarGzWriter} `{Texts} `{TokenCipher}.
Context `{Analyzer} `{Connector Y} `{TempDisk Y} `{Storage Y} `{StorageReader Y} `{SharedMinter Y}.
Context `{Hmac} `{DeliveryCodec}.
Context (cwd : list string) (tempDir : string) (scanQueue moduleDocs : bool).
#[local] Abbreviation P := (prog (env (beside sdb Y))).

Definition webhook_log (logID repoID : uuid) (hook : IncomingHook) (h : gmap string string)
  (signatureHeader : string) (now : Z) : SCMWebhookEvent := {|
  we_ID := logID; we_ModuleSCMRepoID := repoID; we_EventID := Some (hk_ID hook);
  we_EventType := hk_Type hook; we_Ref := Some (hk_Ref hook);
  we_CommitSHA := Some (hk_CommitSHA hook); we_TagName := Some (hk_TagName hook);
  we_Payload := hk_Payload hook; we_Headers := encode_headers h;
  we_Signature := Some signatureHeader; we_SignatureValid := Some true; we_Processed := false;
  we_ProcessingStartedAt := None; we_ProcessedAt := None; we_ResultVersionID := None;
  we_Error := None; we_RetryCount := 0; we_MaxRetries := 0; we_NextRetryAt := None;
  we_LastError := None; we_CreatedAt := now |}.

(** The second half: the delivery is for [link] and its secret was right. *)
Definition accept_delivery (repoID : uuid) (link : ModuleSCMRepo) (payload : string)
  (h : gmap string string) (provider : SCMProvider) (connector : ConnectorSettings)
  : P (Z * option spawned) :=
  let signatureHeader := getSignatureHeader h (scp_ProviderType provider) in
  if negb (VerifyDeliverySignature (Kind connector) payload signatureHeader
             (scp_WebhookSecret provider))
  then ret (401, None)
  else match ParseDelivery (Kind connector) payload h with
  | Err _ => ret (400, None)
  | Ok hook =>
      let! logID := draw_id in
      let! now := time_now in
      let! c := SCMRepository.CreateWebhookLog (webhook_log logID repoID hook h signatureHeader now) in
      match c with
      | Err _ => ret (500, None)
      | Ok _ =>
          ret (200, if IsTagEvent hook && ms_AutoPublish link
                    then Some (logID, link, hook, connector) else None)
      end
  end.

(** The status, and what is started in the background. *)
Definition HandleWebhook (r : webhook_request) : P (Z * option spawned) :=
  match parse_uuid (wr_module_source_repo_id r) with
  | None => ret (400, None)
  | Some repoID =>
  match wr_body r with
  | Err _ => ret (400, None)
  | Ok payload =>
      let! l := SCMRepository.GetModuleSourceRepoByID repoID in
      match l with
      | Err _ => ret (500, None)
      | Ok None => ret (404, None)
      | Ok (Some link) =>
      match ms_WebhookURL link with
      | None => ret (500, None)
      | Some url =>
          if negb (String.eqb (path_base url) (wr_secret r)) then ret (401, None)
          else
          let! p := SCMRepository.GetProvider (ms_SCMProviderID link) in
          match p with
          | Err _ => ret (500, None)
          | Ok None => ret (404, None)
          | Ok (Some provider) =>
          match open_token (scp_ClientSecretEncrypted provider) with
          | Err _ => ret (500, None)
          | Ok clientSecret =>
          match BuildConnector (connector_settings provider clientSecret) with
          | Err _ => ret (500, None)
          | Ok connector => accept_delivery repoID link payload (wr_headers r) provider connector
          end end end
      end end
  end end.

Definition run_spawned (s : spawned) : P unit :=
  let '(logID, link, hook, connector) := s in
  ProcessTagPush cwd tempDir scanQueue moduleDocs logID link hook connector.

(** ** The retry job *)

(** [1<<uint(retryCount)] minutes in 64 bits. *)
Definition calculateBackoff (retryCount : Z) : Z :=
  wrap64 (minute * wrap64 (if 64 <=? retryCount then 0 else Z.shiftl 1 retryCount)).

(** [failRetry], and the end of [retryOne]. *)
Definition failRetry (MaxRetries : Z) (event : SCMWebhookEvent) (errMsg : string) : P unit :=
  let newRetryCount := we_RetryCount event + 1 in
  let! now := time_now in
  let next := if MaxRetries <=? newRetryCount then now else now + calculateBackoff newRetryCount in
  run! SCMRepository.SetWebhookRetryState (we_ID event) newRetryCount errMsg next in
  ret tt.

(** The hook as the event kept it. *)
Definition stored_hook (event : SCMWebhookEvent) : IncomingHook := {|
  hk_ID := default "" (we_EventID event); hk_Type := we_EventType event;
  hk_Ref := default "" (we_Ref event); hk_CommitSHA := default "" (we_CommitSHA event);
  hk_TagName := default "" (we_TagName event); hk_Payload := we_Payload event |}.

(** The counters of [telemetry] are left out. *)
Definition retryOne (MaxRetries : Z) (event : SCMWebhookEvent) : P unit :=
  let! l := SCMRepository.GetModuleSourceRepoByID (we_ModuleSCMRepoID event) in
  match l with
  | Err _ | Ok None => failRetry MaxRetries event "failed to load module SCM repo"
  | Ok (Some link) =>
      let! p := SCMRepository.GetProvider (ms_SCMProviderID link) in
      match p with
      | Err _ | Ok None => failRetry MaxRetries event "failed to load SCM provider"
      | Ok (Some provider) =>
      match open_token (scp_ClientSecretEncrypted provider) with
      | Err _ => failRetry MaxRetries event "failed to decrypt client secret"
      | Ok clientSecret =>
      match BuildConnector (connector_settings provider clientSecret) with
      | Err _ => failRetry MaxRetries event "failed to build connector"
      | Ok connector =>
          run! ProcessTagPush cwd tempDir scanQueue moduleDocs (we_ID event) link (stored_hook event)
                 connector in
          let! u := SCMRepository.GetWebhookLog (we_ID event) in
          match u with
          | Ok (Some updated) =>
              if we_Processed updated && bool_decide (we_Error updated = None) then ret tt
              else failRetry MaxRetries event
                     (match we_LastError updated, we_Error updated with
                      | Some e, _ => e
                      | None, Some e => e
                      | None, None => "unknown error"
                      end)
          | _ => failRetry MaxRetries event "unknown error"
          end
      end end end
  end.

Definition runRetryCycle (MaxRetries : Z) : P unit :=
  let! events := SCMRepository.GetRetryableWebhookEvents 10 in
  match events with
  | Err _ => ret tt
  | Ok events => for_each events (retryOne MaxRetries)
  end.

(** The loop of [Start], one cycle per tick: nothing happens when retries are
    disabled. *)
Definition retry_ticks (MaxRetries : Z) (ticks : nat) : P unit :=
  if MaxRetries =? 0 then ret tt
  else for_each (replicate ticks tt) (fun _ => runRetryCycle MaxRetries).
End Webhooks.
