(* ===== verification/ScmDelivery.v ===== *)
(** * Which deliveries are accepted, and how often events are retried

    The endpoint over every request and state of the tables; the retry job over any
    number of ticks. *)

From S2P Require Import Prelude GoStrings SemVer Regexp Filepath Os LocalStorage Archive.
From S2P Require Import TfReleases TfMirrorRepo TfMirrorSync Tables ScmRepo ScmPublisher ScmPackage.
From S2P Require Import ScmSafety ScmOutcome ScmWebhooks.
From stdpp Require Import gmap.

#[local] Open Scope Z_scope.

(** ** Deliveries *)

(** The URL's secret is the link's, and the body is signed with the provider's. *)
Record authentic `{Hmac} (r : webhook_request) (link : ModuleSCMRepo) (provider : SCMProvider)
  (payload : string) : Prop := {
  au_body : wr_body r = Ok payload;
  au_url : exists url, ms_WebhookURL link = Some url /\ path_base url = wr_secret r;
  au_kind : scp_ProviderType provider = ProviderBitbucketDC;
  au_secret : scp_WebhookSecret provider <> "";
  au_signed : hmac_agrees (trim_prefix (header (wr_headers r) "X-Hub-Signature") "sha256=") payload
                (scp_WebhookSecret provider) = true;
}.

Lemma query_same {T Y A} op (f : T -> res A) (w : env (beside T Y)) r w1 :
  query op f w = (r, w1) -> st w1 = st w /\ (forall a, r = Ok a -> f (tabs (st w)) = Ok a).
Proof.
  intros E. assert (Er : fst (query op f w) = r) by by rewrite E.
  assert (Ew : st w1 = st w).
  { assert (Es : st (snd (query op f w)) = st w); [|by rewrite E in Es].
    unfold query, sql, db. destruct (faults w) as [|[] fls]; cbn; by destruct (st w). }
  split; [done|]. intros a ->. unfold query, sql in Er. by apply db_ok in Er as [Er _].
Qed.

(** With the callback URL left empty only token-based providers have a connector. *)
Lemma built_is_bitbucket provider clientSecret connector :
  BuildConnector (connector_settings provider clientSecret) = Ok connector ->
  scp_ProviderType provider = ProviderBitbucketDC /\
  connector = connector_settings provider clientSecret.
Proof.
  unfold BuildConnector, ValidateSettings. cbn [Kind ClientID ClientSecret CallbackURL connector_settings].
  destruct (negb _); [done|]. unfold IsPATBased.
  destruct (String.eqb_spec (scp_ProviderType provider) ProviderBitbucketDC) as [E|E].
  - destruct (_ && _); [done|]. by intros [= <-].
  - destruct (String.eqb _ ""); [done|]. by destruct (String.eqb _ "").
Qed.

Lemma events_appended f t : scm_webhook_events (on_webhooks f (sbump t)) = f (scm_webhook_events t).
Proof. by destruct t. Qed.

Section Deliveries.
Context {Y : Type} `{Texts} `{TokenCipher} `{Hmac} `{DeliveryCodec}.

Definition events (w : env (beside sdb Y)) : list SCMWebhookEvent := scm_webhook_events (tabs (st w)).

(** What answering [r] may do. *)
Inductive answer (r : webhook_request) (w w' : env (beside sdb Y)) : Z * option spawned -> Prop :=
| refused status : status <> 200 -> events w' = events w -> answer r w w' (status, None)
| accepted repoID link provider payload connector hook log started :
    parse_uuid (wr_module_source_repo_id r) = Some repoID ->
    In link (module_scm_repos (tabs (st w))) -> ms_ID link = repoID ->
    In provider (scm_providers (tabs (st w))) -> scp_ID provider = ms_SCMProviderID link ->
    authentic r link provider payload ->
    ParseDelivery ProviderBitbucketDC payload (wr_headers r) = Ok hook ->
    events w' = events w ++ [log] -> we_ModuleSCMRepoID log = repoID -> we_Processed log = false ->
    (IsTagEvent hook && ms_AutoPublish link = true /\
     started = Some (we_ID log, link, hook, connector) \/
     IsTagEvent hook && ms_AutoPublish link = false /\ started = None) ->
    answer r w w' (200, started).

Lemma accept_answer r w w0 repoID link provider payload clientSecret :
  st w0 = st w ->
  parse_uuid (wr_module_source_repo_id r) = Some repoID ->
  In link (module_scm_repos (tabs (st w))) -> ms_ID link = repoID ->
  In provider (scm_providers (tabs (st w))) -> scp_ID provider = ms_SCMProviderID link ->
  wr_body r = Ok payload -> scp_ProviderType provider = ProviderBitbucketDC ->
  (exists url, ms_WebhookURL link = Some url /\ path_base url = wr_secret r) ->
  let a := accept_delivery repoID link payload (wr_headers r) provider
             (connector_settings provider clientSecret) w0 in
  answer r w (snd a) (fst a).
Proof.
  intros Hst Hid Hl Hlid Hp Hpid Hb Hk Hurl. cbv zeta.
  assert (Hno : forall s w1, s <> 200 -> st w1 = st w -> answer r w w1 (s, None)).
  { intros s w1 Hs E. apply refused; [done|]. unfold events. by rewrite E. }
  unfold accept_delivery. cbv zeta. cbn [Kind connector_settings]. rewrite Hk.
  destruct (VerifyDeliverySignature _ _ _ _) eqn:Ev; cbn [negb]; [|by apply Hno].
  destruct (ParseDelivery _ _ _) as [hook|e] eqn:Eh; [|by apply Hno].
  assert (Ha : authentic r link provider payload).
  { revert Ev. unfold VerifyDeliverySignature, getSignatureHeader. cbn [String.eqb Ascii.eqb Bool.eqb ProviderBitbucketDC].
    cbn. destruct (String.eqb_spec (scp_WebhookSecret provider) "") as [->|Hne]; rewrite ?orb_true_r; [done|].
    destruct (_ || _); [done|]. intros Hs. by constructor. }
  unfold bind at 1, draw_id, state. cbn [fst snd]. unfold bind at 1, time_now. cbn [fst snd st].
  unfold bind, SCMRepository.CreateWebhookLog, sql, db. cbn [st faults tabs around fst snd].
  destruct (faults w0) as [|[] fls]; cbn [fst snd].
  2: { cbn. apply refused; [done|]. unfold events. cbn. rewrite Hst. by destruct (tabs (st w)). }
  all: destruct (any _ _); cbn [fst snd]; [cbn; apply refused; [done|]; unfold events; cbn;
    rewrite Hst; by destruct (tabs (st w))|].
  all: destruct (negb _); cbn [fst snd]; [cbn; apply refused; [done|]; unfold events; cbn;
    rewrite Hst; by destruct (tabs (st w))|].
  all: cbn; eapply accepted with (connector := connector_settings provider clientSecret); try done.
  all: try (unfold events; cbn; rewrite Hst, events_appended; done).
  all: try done. all: cbn; rewrite Hst.
  all: destruct (IsTagEvent hook && ms_AutoPublish link); [left | right]; split; done.
Qed.

(** C25: who may deliver.  A delivery is answered 200 only when its URL names a link and ends in
    that link's secret, and its body carries the HMAC of a non-empty secret of that
    link's provider; then exactly one unprocessed event is added for the link, and
    a publication of the parsed hook starts exactly when it is a tag event and the
    link publishes by itself.  In every other case no event is added and nothing
    starts.  Every accepted delivery is for a Bitbucket Data Center provider: the
    endpoint builds its connectors without a callback URL, which the settings of
    every other kind require. *)
Theorem delivery_answer (r : webhook_request) (w : env (beside sdb Y)) :
  let a := HandleWebhook r w in answer r w (snd a) (fst a).
Proof.
  cbv zeta.
  assert (Hno : forall s w1, s <> 200 -> st w1 = st w -> answer r w w1 (s, None)).
  { intros s w1 Hs E. apply refused; [done|]. unfold events. by rewrite E. }
  unfold HandleWebhook. destruct (parse_uuid _) as [repoID|] eqn:Hid; [|by apply Hno].
  destruct (wr_body r) as [payload|e] eqn:Hb; [|by apply Hno].
  unfold bind at 1 3, SCMRepository.GetModuleSourceRepoByID.
  destruct (query _ _ w) as [l w1] eqn:El. apply query_same in El as [Hw1 Hl]. cbn [fst snd].
  destruct l as [[link|]|e]; [|by apply Hno..]. specialize (Hl _ eq_refl). injection Hl as Hl.
  apply find_some in Hl as [Hin Hlid]. apply Nat.eqb_eq in Hlid.
  destruct (ms_WebhookURL link) as [url|] eqn:Hu; [|by apply Hno].
  destruct (String.eqb_spec (path_base url) (wr_secret r)) as [Hs|Hs]; cbn [negb]; [|by apply Hno].
  unfold bind at 1 2, SCMRepository.GetProvider.
  destruct (query _ _ w1) as [p w2] eqn:Ep. apply query_same in Ep as [Hw2 Hp]. cbn [fst snd].
  rewrite Hw1 in *.
  destruct p as [[provider|]|e]; [|by apply Hno..]. specialize (Hp _ eq_refl). injection Hp as Hp.
  apply find_some in Hp as [Hpin Hpid]. apply Nat.eqb_eq in Hpid.
  destruct (open_token _) as [clientSecret|e]; [|by apply Hno].
  destruct (BuildConnector _) as [connector|e] eqn:Ec; [|by apply Hno].
  apply built_is_bitbucket in Ec as [Hk ->].
  apply accept_answer; try done. by exists url.
Qed.
End Deliveries.

(** ** Retries *)

Definition allowance (e : SCMWebhookEvent) : uuid * Z := (we_ID e, we_MaxRetries e).
Definition within_allowance (e : SCMWebhookEvent) : Prop := we_RetryCount e <= we_MaxRetries e.

(** No event's allowance changes, and none exceeds it. *)
Definition bounded (t t' : sdb) : Prop :=
  allowance <$> scm_webhook_events t' = allowance <$> scm_webhook_events t /\
  (Forall within_allowance (scm_webhook_events t) -> Forall within_allowance (scm_webhook_events t')).

#[export] Instance bounded_preorder : PreOrder bounded.
Proof. split; [by intros t; split|]. intros t1 t2 t3 [A1 B1] [A2 B2]. split; [congruence | auto]. Qed.

Lemma bounded_update cond f t :
  (forall e, In e (scm_webhook_events t) -> cond e = true ->
    allowance (f e) = allowance e /\ (within_allowance e -> within_allowance (f e))) ->
  bounded t (on_webhooks (update_rows cond f) t).
Proof.
  intros Hf. destruct t as [a b c d e g h i j k n]. unfold bounded, update_rows. cbn in *. split.
  - rewrite <- list_fmap_compose. apply list_fmap_ext. intros q x Hx. cbn.
    destruct (cond x) eqn:Ec; [|done]. apply Hf; [|done]. by apply list_elem_of_In, list_elem_of_lookup; exists q.
  - rewrite !List.Forall_forall. intros Hw x (y & <- & Hin)%in_map_iff.
    destruct (cond y) eqn:Ec; [apply Hf; auto | auto].
Qed.

#[export] Instance bounded_moves : PublisherMoves bounded.
Proof.
  constructor; [typeclasses eauto|..]; try (intros; by destruct t).
  all: intros; by apply bounded_update.
Qed.

Section Retries.
Context {Y : Type} `{GoSort} `{JsonbScan} `{Sha256} `{TarGz} `{TarGzWriter} `{Texts} `{TokenCipher}.
Context `{Analyzer} `{CN : Connector Y} `{TD : TempDisk Y} `{SY : Storage Y}.
Context `{StorageReader Y} `{MI : SharedMinter Y}.
Context (cwd : list string) (tempDir : string) (scanQueue moduleDocs : bool).

#[local] Abbreviation moves := (on_st (both bounded (@anything Y))).

Lemma bounded_state id state msg v :
  preserves moves (SCMRepository.UpdateWebhookLogState id state msg v).
Proof.
  destruct (String.eqb_spec state "processing") as [->|Hne]; [exact (mv_start bounded id msg v)|].
  apply String.eqb_neq in Hne. destruct msg as [msg|]; [exact (mv_end bounded id state msg v Hne)|].
  apply preserves_bind; [typeclasses eauto | exact (mv_now bounded)|]. intros now. rewrite Hne.
  apply kept_sql; [typeclasses eauto..|]. intros t. destruct (_ && _); cbn; [reflexivity|].
  by apply bounded_update.
Qed.

Lemma bounded_push logID link hook connector :
  preserves moves (ProcessTagPush cwd tempDir scanQueue moduleDocs logID link hook connector).
Proof.
  pose proof (fun A => mv_query (Y := Y) bounded (A := A)) as Hq. pose proof (mv_fail (Y := Y) bounded) as Hf.
  pose proof (mv_token (Y := Y) bounded) as Ht.
  pose proof (mv_publish (Y := Y) cwd tempDir scanQueue moduleDocs bounded) as Hp.
  pose proof bounded_state as Hs.
  unfold ProcessTagPush, ModuleRepository.GetVersion, ModuleRepository.GetModuleByID. preserve.
Qed.

(** The event's allowance is the table's, and is not used up. *)
Definition due (event : SCMWebhookEvent) (t : sdb) : Prop :=
  we_RetryCount event < we_MaxRetries event /\
  forall e, In e (scm_webhook_events t) -> we_ID e = we_ID event -> we_MaxRetries e = we_MaxRetries event.

Lemma due_moves event t t' : bounded t t' -> due event t -> due event t'.
Proof.
  intros [Ha _] [Hc Hm]. split; [done|]. intros e He Hid.
  assert (Hin : In (allowance e) (allowance <$> scm_webhook_events t)).
  { rewrite <- Ha. by apply in_map. }
  apply in_map_iff in Hin as (x & Ex & Hx). unfold allowance in Ex. injection Ex as E1 E2.
  rewrite <- E2. apply Hm; congruence.
Qed.

Lemma fail_bounded MaxRetries event errMsg (w : env (beside sdb Y)) :
  due event (tabs (st w)) -> moves w (snd (failRetry MaxRetries event errMsg w)).
Proof.
  intros Hd. unfold failRetry, bind, time_now, SCMRepository.SetWebhookRetryState, exec, sql, db, on_st.
  cbn [fst snd st faults].
  assert (Hb : forall n, bounded (tabs (st w)) (on_webhooks (update_rows
      (SCMRepository.event_is (we_ID event)) (fun e => SCMRepository.set_retry (we_Processed e)
        (we_RetryCount event + 1) (Some errMsg) n e)) (tabs (st w)))).
  { intros n. apply bounded_update. intros e He Hid. apply Nat.eqb_eq in Hid. split; [done|]. intros _.
    unfold within_allowance. cbn. rewrite (proj2 Hd e He Hid). destruct Hd as [Hd _]. lia. }
  destruct (faults w) as [|[] fls]; cbn; (split; [|done]); cbn;
    first [apply Hb | reflexivity].
Qed.

Lemma retry_bounded MaxRetries event (w : env (beside sdb Y)) :
  due event (tabs (st w)) ->
  moves w (snd (retryOne cwd tempDir scanQueue moduleDocs MaxRetries event w)).
Proof.
  intros Hd.
  assert (Hfail : forall msg w1, moves w w1 -> moves w (snd (failRetry MaxRetries event msg w1))).
  { intros msg w1 Hm. etransitivity; [exact Hm|]. apply fail_bounded. eapply due_moves; [apply Hm | done]. }
  assert (Hq : forall {A} op (f : sdb -> res A) w1, moves w w1 -> moves w (snd (query op f w1))).
  { intros A op f w1 Hm. etransitivity; [exact Hm | by apply (mv_query bounded)]. }
  unfold retryOne, SCMRepository.GetModuleSourceRepoByID, bind at 1.
  match goal with |- context [query ?o ?f w] => pose proof (mv_query bounded o f w) as Q1;
    destruct (query o f w) as [[[link|]|e] w1] end; cbn [fst snd] in *; [|by apply Hfail..].
  unfold bind at 1, SCMRepository.GetProvider.
  match goal with |- context [query ?o ?f w1] => pose proof (Hq _ o f w1 Q1) as Q2;
    destruct (query o f w1) as [[[provider|]|e] w2] end; cbn [fst snd] in *; [|by apply Hfail..].
  destruct (open_token _) as [secret|e]; [|by apply Hfail].
  destruct (BuildConnector _) as [connector|e]; [|by apply Hfail].
  unfold bind at 1. match goal with |- context [ProcessTagPush ?a ?b ?c ?d ?e ?f ?g ?h w2] =>
    pose proof (bounded_push e f g h w2) as Q3; destruct (ProcessTagPush a b c d e f g h w2) as [[] w3] end.
  cbn [fst snd] in *. unfold bind at 1, SCMRepository.GetWebhookLog.
  match goal with |- context [query ?o ?f w3] => assert (Q4 : moves w (snd (query o f w3)))
    by (apply Hq; by etransitivity); destruct (query o f w3) as [[[updated|]|e] w4] end;
    cbn [fst snd] in *; [|by apply Hfail..].
  destruct (_ && _); [exact Q4 | by apply Hfail].
Qed.

Lemma rows_bounded MaxRetries evs (w : env (beside sdb Y)) :
  (forall e, In e evs -> due e (tabs (st w))) ->
  moves w (snd (for_each evs (retryOne cwd tempDir scanQueue moduleDocs MaxRetries) w)).
Proof.
  revert w. induction evs as [|e evs IH]; intros w Hd; cbn [for_each]; [cbn; reflexivity|].
  unfold bind. pose proof (retry_bounded MaxRetries e w (Hd e (or_introl eq_refl))) as Q.
  destruct (retryOne _ _ _ _ MaxRetries e w) as [[] w1]. cbn [snd] in *.
  etransitivity; [exact Q|]. apply IH. intros x Hx. eapply due_moves; [apply Q|]. apply Hd. by right.
Qed.

Context `{!GoSortLaws}.

Lemma due_taken limit (w : env (beside sdb Y)) evs w' :
  NoDup (we_ID <$> scm_webhook_events (tabs (st w))) ->
  SCMRepository.GetRetryableWebhookEvents (Y := Y) limit w = (Ok evs, w') ->
  st w' = st w /\ (length evs <= limit)%nat /\ (forall e, In e evs -> due e (tabs (st w))).
Proof.
  intros Hnd. unfold SCMRepository.GetRetryableWebhookEvents, bind, time_now. cbn [fst snd].
  set (now := clock w + _). set (w1 := Env _ _ _ _). intros E. apply query_same in E as [Hs Hf].
  split; [done|]. specialize (Hf _ eq_refl). cbn [st w1] in Hf.
  set (rows := take limit _) in Hf.
  assert (Hevs : evs = rows).
  { unfold SCMRepository.scanned in Hf. destruct rows; [by injection Hf as <-|].
    destruct jsonb_scans; [by injection Hf as <- | done]. }
  subst evs. clear Hf. split; [unfold rows; rewrite length_take; lia|].
  intros e He. apply firstn_In in He. unfold rows in He.
  eapply Permutation_in in He; [|symmetry; apply go_sort_perm].
  apply filter_In_stdlib in He as [Hin He]. unfold SCMRepository.retryable in He.
  apply andb_prop in He as [_ Hc]. apply Z.ltb_lt in Hc. split; [done|].
  intros x Hx Hid. f_equal. apply list_elem_of_In in Hin, Hx.
  apply list_elem_of_lookup in Hin as [i Hi], Hx as [j Hj].
  assert (i = j); [|congruence]. eapply NoDup_lookup; [exact Hnd | |]; rewrite list_lookup_fmap.
  - by rewrite Hi.
  - rewrite Hj. cbn. by rewrite Hid.
Qed.

Lemma cycle_bounded MaxRetries (w : env (beside sdb Y)) :
  NoDup (we_ID <$> scm_webhook_events (tabs (st w))) ->
  moves w (snd (runRetryCycle cwd tempDir scanQueue moduleDocs MaxRetries w)).
Proof.
  intros Hnd. unfold runRetryCycle, bind at 1.
  destruct (SCMRepository.GetRetryableWebhookEvents 10 w) as [[evs|e] w1] eqn:E; cbn [fst snd].
  - apply due_taken in E as (Hs & _ & Hd); [|done].
    assert (Hm : moves w1 (snd (for_each evs (retryOne cwd tempDir scanQueue moduleDocs MaxRetries) w1))).
    { apply rows_bounded. by rewrite Hs. }
    unfold on_st in *. by rewrite <- Hs.
  - assert (Hs : st w1 = st w).
    { revert E. unfold SCMRepository.GetRetryableWebhookEvents, bind, time_now. cbn [fst snd]. intros E.
      by apply query_same in E as [Hs _]. }
    unfold on_st. cbn. rewrite Hs. reflexivity.
Qed.

Lemma ids_kept t t' : bounded t t' ->
  NoDup (we_ID <$> scm_webhook_events t) -> NoDup (we_ID <$> scm_webhook_events t').
Proof.
  intros [Ha _]. assert (E : forall l : list SCMWebhookEvent, we_ID <$> l = fst <$> (allowance <$> l)).
  { intros l. by rewrite <- list_fmap_compose. }
  by rewrite !E, Ha.
Qed.

(** retries are bounded.  Over any number of ticks of the retry job, whatever is retried
    and whatever fails, no event's number of retries exceeds the maximum stored with
    it, and that maximum, like the set of events, never changes. *)
Theorem retries_are_bounded MaxRetries (n : nat) (w : env (beside sdb Y)) :
  NoDup (we_ID <$> scm_webhook_events (tabs (st w))) ->
  Forall within_allowance (scm_webhook_events (tabs (st w))) ->
  let t' := tabs (st (snd (retry_ticks cwd tempDir scanQueue moduleDocs MaxRetries n w))) in
  allowance <$> scm_webhook_events t' = allowance <$> scm_webhook_events (tabs (st w)) /\
  Forall within_allowance (scm_webhook_events t').
Proof.
  intros Hnd Hw t'.
  assert (Hb : bounded (tabs (st w)) t'); [|destruct Hb as [Ha Hb]; auto].
  subst t'. unfold retry_ticks. destruct (MaxRetries =? 0); [cbn; reflexivity|].
  clear Hw. revert w Hnd. induction n as [|n IH]; intros w Hnd; cbn [replicate for_each]; [cbn; reflexivity|].
  unfold bind. pose proof (cycle_bounded MaxRetries w Hnd) as [Q _].
  destruct (runRetryCycle _ _ _ _ MaxRetries w) as [[] w1]. cbn [snd] in *.
  etransitivity; [exact Q|]. apply IH. by eapply ids_kept.
Qed.

(** the retry job does nothing in production.  Where the payload column cannot be read into
    the event's map, which is how [database/sql] treats it, no number of ticks
    changes anything: every cycle ends at the query that should find the events. *)
Theorem retries_need_jsonb MaxRetries (n : nat) (w : env (beside sdb Y)) :
  jsonb_scans = false ->
  st (snd (retry_ticks cwd tempDir scanQueue moduleDocs MaxRetries n w)) = st w.
Proof.
  intros Hj. unfold retry_ticks. destruct (MaxRetries =? 0); [done|].
  revert w. induction n as [|n IH]; intros w; cbn [replicate for_each]; [done|].
  unfold bind. rewrite IH. unfold runRetryCycle, bind.
  destruct (SCMRepository.GetRetryableWebhookEvents 10 w) as [r w1] eqn:E. cbn [fst snd].
  revert E. unfold SCMRepository.GetRetryableWebhookEvents, bind, time_now. cbn [fst snd]. intros E.
  apply query_same in E as [Hs Hf]. cbn [st] in Hs. destruct r as [evs|e]; [|exact Hs].
  specialize (Hf _ eq_refl). unfold SCMRepository.scanned in Hf. rewrite Hj in Hf.
  destruct (take _ _); [by injection Hf as <- | done].
Qed.
End Retries.

Module Trial.
Import Demo.

#[export] Instance hmac : Hmac := fun secret payload => secret +:+ ":" +:+ payload.
#[export] Instance codec : DeliveryCodec := {|
  decode_github _ := Ok {| gh_Ref := "refs/tags/v1.0.0"; gh_HeadCommitID := "c0ffee" |};
  decode_gitlab _ := Err (ErrMsg "json"); decode_ado _ := Err (ErrMsg "json");
  decode_bb _ := Ok {| bb_EventKey := "repo:refs_changed"; bb_Changes :=
    [{| bb_RefID := "refs/tags/v1.0.0"; bb_RefType := "TAG"; bb_DisplayID := "v1.0.0"; bb_ToHash := "c0ffee" |}] |};
  canonical_object s := s; encode_headers _ := "{}" |}.

(** ["key:x"] in hexadecimal. *)
Definition signature : string := "sha256=6b65793a78".
Definition delivery (secret signature : string) : webhook_request := {|
  wr_module_source_repo_id := "ii"; wr_secret := secret; wr_body := Ok "x";
  wr_headers := {[ "X-Hub-Signature" := signature; "X-Hub-Signature-256" := signature;
                   "X-GitHub-Event" := "push" ]} |}.
Definition answered (kind secret signature : string) : Z * bool :=
  let a := fst (HandleWebhook (delivery secret signature) (start (link "net" "v*") kind)) in
  (fst a, bool_decide (is_Some (snd a))).

(** The event after the first failure, at the time of its retry. *)
Definition failed (l : ModuleSCMRepo) (kind : string) : env (beside sdb Yd) :=
  let w := start l kind in
  Env (Beside (on_webhooks (fmap (SCMRepository.set_retry false 0 None minute)) (tabs (st w))) (around (st w)))
    [] minute [].
Definition retried (MaxRetries : Z) (ticks : nat) (l : ModuleSCMRepo) (kind : string) : list (Z * bool) :=
  (fun e => (we_RetryCount e, we_Processed e)) <$>
  scm_webhook_events (tabs (st (snd (retry_ticks [] "/tmp" true true MaxRetries ticks (failed l kind))))).
End Trial.
Import Demo Trial.

(** Right secret and signature; then a wrong one of either; then a GitHub provider. *)
Lemma answers :
  answered ProviderBitbucketDC "hunter2" signature = (200, true) /\
  answered ProviderBitbucketDC "hunter3" signature = (401, false) /\
  answered ProviderBitbucketDC "hunter2" "sha256=00" = (401, false) /\
  answered ProviderGitHub "hunter2" signature = (500, false).
Proof. by vm_compute. Qed.

Lemma failed_ids l kind : NoDup (we_ID <$> scm_webhook_events (tabs (st (failed l kind)))).
Proof. cbn. repeat constructor. by intros ?%elem_of_nil. Qed.

Lemma failed_within l kind : Forall within_allowance (scm_webhook_events (tabs (st (failed l kind)))).
Proof. cbn. by repeat constructor. Qed.

(** An event whose link has no usable connector fails at every retry that is due. *)
Theorem retries_are_bounded_witness :
  retried 3 1 (link "net" "v*") ProviderGitHub = [(1, false)] /\
  NoDup (we_ID <$> scm_webhook_events (tabs (st (failed (link "net" "v*") ProviderGitHub)))) /\
  Forall within_allowance (scm_webhook_events (tabs (st
    (snd (retry_ticks [] "/tmp" true true 3 1 (failed (link "net" "v*") ProviderGitHub)))))).
Proof.
  split; [by vm_compute|]. split; [apply failed_ids|].
  assert (laws : @GoSortLaws sort) by apply stable_sort_laws.
  apply (retries_are_bounded [] "/tmp" true true 3 1 (failed (link "net" "v*") ProviderGitHub)
           (failed_ids _ _) (failed_within _ _)).
Defined.

Theorem retries_need_jsonb_witness :
  let production : JsonbScan := false in
  st (snd (retry_ticks (H0 := production) [] "/tmp" true true 3 2 (failed (link "net" "v*") ProviderGitHub)))
  = st (failed (link "net" "v*") ProviderGitHub).
Proof. exact (retries_need_jsonb (H0 := false) [] "/tmp" true true 3 2 _ eq_refl). Defined.

(** When the job's limit is below the rows', an event it gave up on is taken up again:
    the next retry of an exhausted event is due at once. *)
Lemma exhausted_comes_back :
  retried 1 1 (link "net" "v*") ProviderGitHub = [(1, false)] /\
  retried 1 2 (link "net" "v*") ProviderGitHub = [(2, false)] /\
  retried 1 9 (link "net" "v*") ProviderGitHub = [(3, false)].
Proof. by vm_compute. Qed.
