(* ===== verification/SetupRepo.v ===== *)
(** * The tables of the setup wizard

    The singleton row of settings and the storage configurations
    ([internal/db/models/storage_config.go]) with the statements of
    [internal/db/repositories/oidc_config_repository.go] on the registry's own
    connection and of [storage_config_repository.go].  The OIDC configurations lie
    in the identity module.  Audit columns are left out. *)

From S2P Require Import Prelude GoStrings TfMirrorRepo Tables.

#[local] Open Scope Z_scope.

(** ** Rows *)

Record SystemSettings := {
  StorageConfigured : bool;
  StorageConfiguredAt : option Z;
  StorageConfiguredBy : option uuid;
  SetupCompleted : bool;
  SetupTokenHash : option string;
  OIDCConfigured : bool;
  PendingAdminEmail : option string;
  ScanningConfigured : bool;
  ScanningConfiguredAt : option Z;
  ScanningConfig : option string;
  AuthMethod : string;
  LDAPConfigured : bool;
  LDAPConfiguredAt : option Z;
  LDAPConfig : option string;
  NotificationsConfigured : bool;
  NotificationsConfiguredAt : option Z;
  NotificationsConfig : option string;
  AuditRetentionDays : Z;
}.

(** Prefixed: the code's input and response types share the field names. *)
Record StorageConfig := {
  sc_ID : uuid;
  sc_BackendType : string;
  sc_IsActive : bool;
  sc_LocalBasePath : option string;
  sc_LocalServeDirectly : option bool;
  sc_AzureAccountName : option string;
  sc_AzureAccountKeyEncrypted : option string;
  sc_AzureContainerName : option string;
  sc_AzureCDNURL : option string;
  sc_S3Endpoint : option string;
  sc_S3Region : option string;
  sc_S3Bucket : option string;
  sc_S3AuthMethod : option string;
  sc_S3AccessKeyIDEncrypted : option string;
  sc_S3SecretAccessKeyEncrypted : option string;
  sc_S3RoleARN : option string;
  sc_S3RoleSessionName : option string;
  sc_S3ExternalID : option string;
  sc_S3WebIdentityTokenFile : option string;
  sc_GCSBucket : option string;
  sc_GCSProjectID : option string;
  sc_GCSAuthMethod : option string;
  sc_GCSCredentialsFile : option string;
  sc_GCSCredentialsJSONEncrypted : option string;
  sc_GCSEndpoint : option string;
}.

(** The settings row is there from the first migration on; the code allows for its
    absence. *)
Record sudb := SUDB {
  system_settings : option SystemSettings;
  storage_config : list StorageConfig;
  sunext : uuid;
}.

#[export] Instance sudb_serial : Serial sudb := {|
  next_id := sunext;
  used_id t := SUDB (system_settings t) (storage_config t) (S (sunext t)) |}.

Definition on_settings (f : SystemSettings -> SystemSettings) (t : sudb) : sudb :=
  SUDB (f <$> system_settings t) (storage_config t) (sunext t).
Definition on_storage (f : list StorageConfig -> list StorageConfig) (t : sudb) : sudb :=
  SUDB (system_settings t) (f (storage_config t)) (sunext t).

(** ** What the updates set *)

Definition mark_completed (s : SystemSettings) : SystemSettings := {|
  StorageConfigured := StorageConfigured s; StorageConfiguredAt := StorageConfiguredAt s;
  StorageConfiguredBy := StorageConfiguredBy s; SetupCompleted := true; SetupTokenHash := None;
  OIDCConfigured := OIDCConfigured s; PendingAdminEmail := PendingAdminEmail s;
  ScanningConfigured := ScanningConfigured s; ScanningConfiguredAt := ScanningConfiguredAt s;
  ScanningConfig := ScanningConfig s; AuthMethod := AuthMethod s;
  LDAPConfigured := LDAPConfigured s; LDAPConfiguredAt := LDAPConfiguredAt s;
  LDAPConfig := LDAPConfig s; NotificationsConfigured := NotificationsConfigured s;
  NotificationsConfiguredAt := NotificationsConfiguredAt s;
  NotificationsConfig := NotificationsConfig s; AuditRetentionDays := AuditRetentionDays s |}.

Definition with_token_hash (hash : string) (s : SystemSettings) : SystemSettings := {|
  StorageConfigured := StorageConfigured s; StorageConfiguredAt := StorageConfiguredAt s;
  StorageConfiguredBy := StorageConfiguredBy s; SetupCompleted := SetupCompleted s;
  SetupTokenHash := Some hash; OIDCConfigured := OIDCConfigured s;
  PendingAdminEmail := PendingAdminEmail s; ScanningConfigured := ScanningConfigured s;
  ScanningConfiguredAt := ScanningConfiguredAt s; ScanningConfig := ScanningConfig s;
  AuthMethod := AuthMethod s; LDAPConfigured := LDAPConfigured s;
  LDAPConfiguredAt := LDAPConfiguredAt s; LDAPConfig := LDAPConfig s;
  NotificationsConfigured := NotificationsConfigured s;
  NotificationsConfiguredAt := NotificationsConfiguredAt s;
  NotificationsConfig := NotificationsConfig s; AuditRetentionDays := AuditRetentionDays s |}.

Definition mark_oidc (s : SystemSettings) : SystemSettings := {|
  StorageConfigured := StorageConfigured s; StorageConfiguredAt := StorageConfiguredAt s;
  StorageConfiguredBy := StorageConfiguredBy s; SetupCompleted := SetupCompleted s;
  SetupTokenHash := SetupTokenHash s; OIDCConfigured := true;
  PendingAdminEmail := PendingAdminEmail s; ScanningConfigured := ScanningConfigured s;
  ScanningConfiguredAt := ScanningConfiguredAt s; ScanningConfig := ScanningConfig s;
  AuthMethod := AuthMethod s; LDAPConfigured := LDAPConfigured s;
  LDAPConfiguredAt := LDAPConfiguredAt s; LDAPConfig := LDAPConfig s;
  NotificationsConfigured := NotificationsConfigured s;
  NotificationsConfiguredAt := NotificationsConfiguredAt s;
  NotificationsConfig := NotificationsConfig s; AuditRetentionDays := AuditRetentionDays s |}.

Definition with_admin_email (email : option string) (s : SystemSettings) : SystemSettings := {|
  StorageConfigured := StorageConfigured s; StorageConfiguredAt := StorageConfiguredAt s;
  StorageConfiguredBy := StorageConfiguredBy s; SetupCompleted := SetupCompleted s;
  SetupTokenHash := SetupTokenHash s; OIDCConfigured := OIDCConfigured s;
  PendingAdminEmail := email; ScanningConfigured := ScanningConfigured s;
  ScanningConfiguredAt := ScanningConfiguredAt s; ScanningConfig := ScanningConfig s;
  AuthMethod := AuthMethod s; LDAPConfigured := LDAPConfigured s;
  LDAPConfiguredAt := LDAPConfiguredAt s; LDAPConfig := LDAPConfig s;
  NotificationsConfigured := NotificationsConfigured s;
  NotificationsConfiguredAt := NotificationsConfiguredAt s;
  NotificationsConfig := NotificationsConfig s; AuditRetentionDays := AuditRetentionDays s |}.

Definition with_scanning (now : Z) (config : string) (s : SystemSettings) : SystemSettings := {|
  StorageConfigured := StorageConfigured s; StorageConfiguredAt := StorageConfiguredAt s;
  StorageConfiguredBy := StorageConfiguredBy s; SetupCompleted := SetupCompleted s;
  SetupTokenHash := SetupTokenHash s; OIDCConfigured := OIDCConfigured s;
  PendingAdminEmail := PendingAdminEmail s; ScanningConfigured := true;
  ScanningConfiguredAt := Some now; ScanningConfig := Some config; AuthMethod := AuthMethod s;
  LDAPConfigured := LDAPConfigured s; LDAPConfiguredAt := LDAPConfiguredAt s;
  LDAPConfig := LDAPConfig s; NotificationsConfigured := NotificationsConfigured s;
  NotificationsConfiguredAt := NotificationsConfiguredAt s;
  NotificationsConfig := NotificationsConfig s; AuditRetentionDays := AuditRetentionDays s |}.

Definition with_notifications (now : Z) (config : string) (s : SystemSettings) : SystemSettings := {|
  StorageConfigured := StorageConfigured s; StorageConfiguredAt := StorageConfiguredAt s;
  StorageConfiguredBy := StorageConfiguredBy s; SetupCompleted := SetupCompleted s;
  SetupTokenHash := SetupTokenHash s; OIDCConfigured := OIDCConfigured s;
  PendingAdminEmail := PendingAdminEmail s; ScanningConfigured := ScanningConfigured s;
  ScanningConfiguredAt := ScanningConfiguredAt s; ScanningConfig := ScanningConfig s;
  AuthMethod := AuthMethod s; LDAPConfigured := LDAPConfigured s;
  LDAPConfiguredAt := LDAPConfiguredAt s; LDAPConfig := LDAPConfig s;
  NotificationsConfigured := true; NotificationsConfiguredAt := Some now;
  NotificationsConfig := Some config; AuditRetentionDays := AuditRetentionDays s |}.

Definition with_ldap (now : Z) (config : string) (s : SystemSettings) : SystemSettings := {|
  StorageConfigured := StorageConfigured s; StorageConfiguredAt := StorageConfiguredAt s;
  StorageConfiguredBy := StorageConfiguredBy s; SetupCompleted := SetupCompleted s;
  SetupTokenHash := SetupTokenHash s; OIDCConfigured := OIDCConfigured s;
  PendingAdminEmail := PendingAdminEmail s; ScanningConfigured := ScanningConfigured s;
  ScanningConfiguredAt := ScanningConfiguredAt s; ScanningConfig := ScanningConfig s;
  AuthMethod := "ldap"; LDAPConfigured := true; LDAPConfiguredAt := Some now;
  LDAPConfig := Some config; NotificationsConfigured := NotificationsConfigured s;
  NotificationsConfiguredAt := NotificationsConfiguredAt s;
  NotificationsConfig := NotificationsConfig s; AuditRetentionDays := AuditRetentionDays s |}.

Definition with_auth_method (m : string) (s : SystemSettings) : SystemSettings := {|
  StorageConfigured := StorageConfigured s; StorageConfiguredAt := StorageConfiguredAt s;
  StorageConfiguredBy := StorageConfiguredBy s; SetupCompleted := SetupCompleted s;
  SetupTokenHash := SetupTokenHash s; OIDCConfigured := OIDCConfigured s;
  PendingAdminEmail := PendingAdminEmail s; ScanningConfigured := ScanningConfigured s;
  ScanningConfiguredAt := ScanningConfiguredAt s; ScanningConfig := ScanningConfig s;
  AuthMethod := m; LDAPConfigured := LDAPConfigured s; LDAPConfiguredAt := LDAPConfiguredAt s;
  LDAPConfig := LDAPConfig s; NotificationsConfigured := NotificationsConfigured s;
  NotificationsConfiguredAt := NotificationsConfiguredAt s;
  NotificationsConfig := NotificationsConfig s; AuditRetentionDays := AuditRetentionDays s |}.

Definition mark_storage (now : Z) (userID : option uuid) (s : SystemSettings) : SystemSettings := {|
  StorageConfigured := true; StorageConfiguredAt := Some now; StorageConfiguredBy := userID;
  SetupCompleted := SetupCompleted s; SetupTokenHash := SetupTokenHash s;
  OIDCConfigured := OIDCConfigured s; PendingAdminEmail := PendingAdminEmail s;
  ScanningConfigured := ScanningConfigured s; ScanningConfiguredAt := ScanningConfiguredAt s;
  ScanningConfig := ScanningConfig s; AuthMethod := AuthMethod s;
  LDAPConfigured := LDAPConfigured s; LDAPConfiguredAt := LDAPConfiguredAt s;
  LDAPConfig := LDAPConfig s; NotificationsConfigured := NotificationsConfigured s;
  NotificationsConfiguredAt := NotificationsConfiguredAt s;
  NotificationsConfig := NotificationsConfig s; AuditRetentionDays := AuditRetentionDays s |}.

Definition with_active (active : bool) (c : StorageConfig) : StorageConfig := {|
  sc_ID := sc_ID c; sc_BackendType := sc_BackendType c; sc_IsActive := active;
  sc_LocalBasePath := sc_LocalBasePath c; sc_LocalServeDirectly := sc_LocalServeDirectly c;
  sc_AzureAccountName := sc_AzureAccountName c;
  sc_AzureAccountKeyEncrypted := sc_AzureAccountKeyEncrypted c;
  sc_AzureContainerName := sc_AzureContainerName c; sc_AzureCDNURL := sc_AzureCDNURL c;
  sc_S3Endpoint := sc_S3Endpoint c; sc_S3Region := sc_S3Region c; sc_S3Bucket := sc_S3Bucket c;
  sc_S3AuthMethod := sc_S3AuthMethod c; sc_S3AccessKeyIDEncrypted := sc_S3AccessKeyIDEncrypted c;
  sc_S3SecretAccessKeyEncrypted := sc_S3SecretAccessKeyEncrypted c;
  sc_S3RoleARN := sc_S3RoleARN c; sc_S3RoleSessionName := sc_S3RoleSessionName c;
  sc_S3ExternalID := sc_S3ExternalID c; sc_S3WebIdentityTokenFile := sc_S3WebIdentityTokenFile c;
  sc_GCSBucket := sc_GCSBucket c; sc_GCSProjectID := sc_GCSProjectID c;
  sc_GCSAuthMethod := sc_GCSAuthMethod c; sc_GCSCredentialsFile := sc_GCSCredentialsFile c;
  sc_GCSCredentialsJSONEncrypted := sc_GCSCredentialsJSONEncrypted c;
  sc_GCSEndpoint := sc_GCSEndpoint c |}.

(** An update writes every column but the identifier. *)
Definition set_storage (row c : StorageConfig) : StorageConfig := {|
  sc_ID := sc_ID c; sc_BackendType := sc_BackendType row; sc_IsActive := sc_IsActive row;
  sc_LocalBasePath := sc_LocalBasePath row; sc_LocalServeDirectly := sc_LocalServeDirectly row;
  sc_AzureAccountName := sc_AzureAccountName row;
  sc_AzureAccountKeyEncrypted := sc_AzureAccountKeyEncrypted row;
  sc_AzureContainerName := sc_AzureContainerName row; sc_AzureCDNURL := sc_AzureCDNURL row;
  sc_S3Endpoint := sc_S3Endpoint row; sc_S3Region := sc_S3Region row;
  sc_S3Bucket := sc_S3Bucket row; sc_S3AuthMethod := sc_S3AuthMethod row;
  sc_S3AccessKeyIDEncrypted := sc_S3AccessKeyIDEncrypted row;
  sc_S3SecretAccessKeyEncrypted := sc_S3SecretAccessKeyEncrypted row;
  sc_S3RoleARN := sc_S3RoleARN row; sc_S3RoleSessionName := sc_S3RoleSessionName row;
  sc_S3ExternalID := sc_S3ExternalID row;
  sc_S3WebIdentityTokenFile := sc_S3WebIdentityTokenFile row; sc_GCSBucket := sc_GCSBucket row;
  sc_GCSProjectID := sc_GCSProjectID row; sc_GCSAuthMethod := sc_GCSAuthMethod row;
  sc_GCSCredentialsFile := sc_GCSCredentialsFile row;
  sc_GCSCredentialsJSONEncrypted := sc_GCSCredentialsJSONEncrypted row;
  sc_GCSEndpoint := sc_GCSEndpoint row |}.

(** What the wizard's status page shows. *)
Record SetupStatus := {
  ss_SetupCompleted : bool;
  ss_StorageConfigured : bool;
  ss_OIDCConfigured : bool;
  ss_AdminConfigured : bool;
  ss_ScanningConfigured : bool;
  ss_LDAPConfigured : bool;
  ss_AuthMethod : string;
  ss_SetupRequired : bool;
  ss_PendingFeatureSetup : bool;
  ss_StorageConfiguredAt : option Z;
  ss_AdminEmail : option string;
}.

Definition fresh_status : SetupStatus := {|
  ss_SetupCompleted := false; ss_StorageConfigured := false; ss_OIDCConfigured := false;
  ss_AdminConfigured := false; ss_ScanningConfigured := false; ss_LDAPConfigured := false;
  ss_AuthMethod := "oidc"; ss_SetupRequired := true; ss_PendingFeatureSetup := false;
  ss_StorageConfiguredAt := None; ss_AdminEmail := None |}.

Definition status_of (s : SystemSettings) : SetupStatus :=
  let pending := SetupCompleted s && negb (ScanningConfigured s) in {|
  ss_SetupCompleted := SetupCompleted s; ss_StorageConfigured := StorageConfigured s;
  ss_OIDCConfigured := OIDCConfigured s;
  ss_AdminConfigured := match PendingAdminEmail s with
                        | Some e => negb (String.eqb e "") | None => false end;
  ss_ScanningConfigured := ScanningConfigured s; ss_LDAPConfigured := LDAPConfigured s;
  ss_AuthMethod := AuthMethod s; ss_SetupRequired := negb (SetupCompleted s) || pending;
  ss_PendingFeatureSetup := pending; ss_StorageConfiguredAt := StorageConfiguredAt s;
  ss_AdminEmail := PendingAdminEmail s |}.

Definition norows := ErrSentinel "sql.ErrNoRows".

(** ** [internal/db/repositories/oidc_config_repository.go] *)

Module OIDCConfigRepository.
Section OIDCConfigRepository.
Context {Y : Type}.
#[local] Abbreviation P := (prog (env (beside sudb Y))).

(** A column of the settings row; without the row, [absent]. *)
Definition column {A} (op : string) (f : SystemSettings -> A) (absent : res A) : P (res A) :=
  query op (fun t => match system_settings t with Some s => Ok (f s) | None => absent end).

Definition IsSetupCompleted : P (res bool) := column "IsSetupCompleted" SetupCompleted (Ok false).

Definition SetSetupCompleted : P (res unit) := exec "SetSetupCompleted" (on_settings mark_completed).

Definition GetSetupTokenHash : P (res string) :=
  column "GetSetupTokenHash" (fun s => default "" (SetupTokenHash s)) (Err norows).

Definition SetSetupTokenHash (hash : string) : P (res unit) :=
  exec "SetSetupTokenHash" (on_settings (with_token_hash hash)).

Definition IsOIDCConfigured : P (res bool) := column "IsOIDCConfigured" OIDCConfigured (Ok false).

Definition SetOIDCConfigured : P (res unit) := exec "SetOIDCConfigured" (on_settings mark_oidc).

Definition SetPendingAdminEmail (email : string) : P (res unit) :=
  exec "SetPendingAdminEmail" (on_settings (with_admin_email (Some email))).

Definition GetPendingAdminEmail : P (res string) :=
  column "GetPendingAdminEmail" (fun s => default "" (PendingAdminEmail s)) (Err norows).

Definition ClearPendingAdminEmail : P (res unit) :=
  exec "ClearPendingAdminEmail" (on_settings (with_admin_email None)).

Definition GetEnhancedSetupStatus : P (res SetupStatus) :=
  column "GetEnhancedSetupStatus" status_of (Ok fresh_status).

Definition HasPendingFeatureSetup : P (res bool) :=
  column "HasPendingFeatureSetup" (fun s => SetupCompleted s && negb (ScanningConfigured s)) (Ok false).

Definition GetScanningConfigured : P (res bool) :=
  column "GetScanningConfigured" ScanningConfigured (Ok false).

Definition SetScanningConfig (configJSON : string) : P (res unit) :=
  let! now := time_now in exec "SetScanningConfig" (on_settings (with_scanning now configJSON)).

Definition GetScanningConfig : P (res (option string)) :=
  column "GetScanningConfig" ScanningConfig (Ok None).

Definition SetNotificationsConfig (configJSON : string) : P (res unit) :=
  let! now := time_now in exec "SetNotificationsConfig" (on_settings (with_notifications now configJSON)).

Definition GetNotificationsConfig : P (res (option string)) :=
  column "GetNotificationsConfig" NotificationsConfig (Ok None).

Definition SetLDAPConfig (configJSON : string) : P (res unit) :=
  let! now := time_now in exec "SetLDAPConfig" (on_settings (with_ldap now configJSON)).

Definition GetLDAPConfig : P (res (option string)) := column "GetLDAPConfig" LDAPConfig (Ok None).

Definition SetAuthMethod (method : string) : P (res unit) :=
  exec "SetAuthMethod" (on_settings (with_auth_method method)).
End OIDCConfigRepository.
End OIDCConfigRepository.

(** ** [internal/db/repositories/storage_config_repository.go] *)

Module StorageConfigRepository.
Section StorageConfigRepository.
Context {Y : Type}.
#[local] Abbreviation P := (prog (env (beside sudb Y))).

Definition GetSystemSettings : P (res (option SystemSettings)) :=
  query "GetSystemSettings" (fun t => Ok (system_settings t)).

Definition IsStorageConfigured : P (res bool) :=
  OIDCConfigRepository.column "IsStorageConfigured" StorageConfigured (Ok false).

(** [None] is [uuid.Nil], stored as NULL. *)
Definition SetStorageConfigured (userID : option uuid) : P (res unit) :=
  let! now := time_now in exec "SetStorageConfigured" (on_settings (mark_storage now userID)).

Definition config_is (id : uuid) (c : StorageConfig) : bool := (sc_ID c =? id)%nat.

Definition CreateStorageConfig (config : StorageConfig) : P (res unit) :=
  sql "CreateStorageConfig" (fun t =>
    if List.existsb (config_is (sc_ID config)) (storage_config t)
    then (Err (ErrMsg "duplicate key value violates unique constraint"), t)
    else (Ok tt, on_storage (fun rows => rows ++ [config]) t)).

Definition GetStorageConfig (id : uuid) : P (res (option StorageConfig)) :=
  query "GetStorageConfig" (fun t => Ok (List.find (config_is id) (storage_config t))).

(** LIMIT 1 over the active rows. *)
Definition GetActiveStorageConfig : P (res (option StorageConfig)) :=
  query "GetActiveStorageConfig" (fun t => Ok (List.find sc_IsActive (storage_config t))).

Definition ListStorageConfigs : P (res (list StorageConfig)) :=
  query "ListStorageConfigs" (fun t => Ok (rev (storage_config t))).

Definition UpdateStorageConfig (config : StorageConfig) : P (res unit) :=
  exec "UpdateStorageConfig" (on_storage (update_rows (config_is (sc_ID config)) (set_storage config))).

Definition DeleteStorageConfig (id : uuid) : P (res unit) :=
  exec "DeleteStorageConfig" (on_storage (List.filter (fun c => negb (config_is id c)))).

Definition deactivate_all : list StorageConfig -> list StorageConfig := fmap (with_active false).

Definition DeactivateAllStorageConfigs : P (res unit) :=
  exec "DeactivateAllStorageConfigs" (on_storage deactivate_all).

(** In one transaction: what the statements do becomes visible at the commit. *)
Definition ActivateStorageConfig (id : uuid) : P (res unit) :=
  let? _b := query "begin" (fun _ => Ok tt) in
  let? _d := query "deactivate" (fun _ => Ok tt) in
  let? _a := query "activate" (fun _ => Ok tt) in
  exec "commit" (on_storage (fun rows =>
    update_rows (config_is id) (with_active true) (deactivate_all rows))).
End StorageConfigRepository.
End StorageConfigRepository.
