(* ===== verification/Setup.v ===== *)
(** * The setup wizard

    [internal/api/setup/handlers.go], [install.go], [internal/middleware/setup.go],
    [handleSetupToken] of [cmd/server/main.go] and the loading of the saved
    configuration at start-up ([internal/api/router_startup.go]).

    A world is the settings tables, the memory of the process (the attempts of the
    rate limiter, the providers that serve logins, the scanning configuration) and
    the outside.  Bodies arrive bound; contexts, timeouts and logging are left out. *)

From S2P Require Import Prelude GoStrings SemVer Filepath TfMirrorRepo TfMirrorSync Tables SetupRepo.

#[local] Open Scope Z_scope.

(** ** Inputs *)

Record OIDCConfigInput := {
  oi_Name : string;
  oi_ProviderType : string;
  oi_IssuerURL : string;
  oi_ClientID : string;
  oi_ClientSecret : string;
  oi_RedirectURL : string;
  oi_Scopes : list string;
  (** the object as JSON text *)
  oi_ExtraConfig : option string;
}.

Record LDAPConfigInput := {
  li_Host : string;
  li_Port : Z;
  li_UseTLS : bool;
  li_StartTLS : bool;
  li_InsecureSkipVerify : bool;
  li_BindDN : string;
  li_BindPassword : string;
  li_BaseDN : string;
  li_UserFilter : string;
  li_UserAttrEmail : string;
  li_UserAttrName : string;
  li_GroupBaseDN : string;
  li_GroupFilter : string;
  li_GroupMemberAttr : string;
}.

Record StorageConfigInput := {
  si_BackendType : string;
  si_LocalBasePath : string;
  si_LocalServeDirectly : option bool;
  si_AzureAccountName : string;
  si_AzureAccountKey : string;
  si_AzureContainerName : string;
  si_AzureCDNURL : string;
  si_S3Endpoint : string;
  si_S3Region : string;
  si_S3Bucket : string;
  si_S3AuthMethod : string;
  si_S3AccessKeyID : string;
  si_S3SecretAccessKey : string;
  si_S3RoleARN : string;
  si_S3RoleSessionName : string;
  si_S3ExternalID : string;
  si_S3WebIdentityTokenFile : string;
  si_GCSBucket : string;
  si_GCSProjectID : string;
  si_GCSAuthMethod : string;
  si_GCSCredentialsFile : string;
  si_GCSCredentialsJSON : string;
  si_GCSEndpoint : string;
}.

Record TestScanningConfigInput := {
  ti_Tool : string;
  ti_BinaryPath : string;
  ti_ExpectedVersion : string;
}.

Record SaveScanningConfigInput := {
  ci_Enabled : bool;
  ci_Tool : string;
  ci_BinaryPath : string;
  ci_ExpectedVersion : string;
  ci_TimeoutSecs : Z;
  ci_WorkerCount : Z;
}.

(** ** Configurations *)

(** [config.OIDCConfig]; [Enabled] is always set here. *)
Record OIDCClient := {
  oc_IssuerURL : string;
  oc_ClientID : string;
  oc_ClientSecret : string;
  oc_RedirectURL : string;
  oc_Scopes : list string;
}.

(** The row of the identity module. *)
Record OIDCConfig := {
  or_ID : uuid;
  or_Name : string;
  or_ProviderType : string;
  or_IssuerURL : string;
  or_ClientID : string;
  or_ClientSecretCiphertext : string;
  or_RedirectURL : string;
  or_Scopes : list string;
  or_IsActive : bool;
  or_ExtraConfig : string;
}.

Record LDAPConfiguration := {
  lc_Host : string;
  lc_Port : Z;
  lc_UseTLS : bool;
  lc_StartTLS : bool;
  lc_InsecureSkipVerify : bool;
  lc_BindDN : string;
  lc_BindPassword : string;
  lc_BaseDN : string;
  lc_UserFilter : string;
  lc_UserAttrEmail : string;
  lc_UserAttrName : string;
  lc_GroupBaseDN : string;
  lc_GroupFilter : string;
  lc_GroupMemberAttr : string;
}.

Record ScannerAutoUpdate := {
  au_Enabled : bool;
  au_IntervalHours : Z;
  au_RequiresApproval : bool;
  au_AutoApproveRules : string;
}.

(** [config.ScanningConfig], without what only the scanners read. *)
Record ScanningConfiguration := {
  sg_Enabled : bool;
  sg_Tool : string;
  sg_BinaryPath : string;
  sg_ExpectedVersion : string;
  sg_SeverityThreshold : string;
  sg_Timeout : Z;
  sg_WorkerCount : Z;
  sg_ScanIntervalMins : Z;
  sg_InstallDir : string;
  sg_AutoUpdate : ScannerAutoUpdate;
}.

(** [config.ScanningConfigDB]: what the stored document decodes to. *)
Record ScanningConfigDB := {
  sd_Enabled : bool;
  sd_Tool : string;
  sd_BinaryPath : string;
  sd_ExpectedVersion : string;
  sd_SeverityThreshold : string;
  sd_TimeoutSecs : Z;
  sd_WorkerCount : Z;
  sd_ScanIntervalMins : Z;
  sd_InstallDir : string;
  sd_AutoUpdate : ScannerAutoUpdate;
}.

(** [config.Config.Storage], as far as the wizard fills it. *)
Record LocalStorageConfig := { lo_BasePath : string; lo_ServeDirectly : bool }.
Record AzureStorageConfig := {
  az_AccountName : string;
  az_AccountKey : string;
  az_ContainerName : string;
  az_CDNURL : string;
}.
Record S3StorageConfig := {
  s3_Endpoint : string;
  s3_Region : string;
  s3_Bucket : string;
  s3_AuthMethod : string;
  s3_AccessKeyID : string;
  s3_SecretAccessKey : string;
  s3_RoleARN : string;
  s3_RoleSessionName : string;
  s3_ExternalID : string;
  s3_WebIdentityTokenFile : string;
}.
Record GCSStorageConfig := {
  gc_Bucket : string;
  gc_ProjectID : string;
  gc_AuthMethod : string;
  gc_CredentialsFile : string;
  gc_CredentialsJSON : string;
  gc_Endpoint : string;
}.
Record StorageSection := {
  DefaultBackend : string;
  Local : LocalStorageConfig;
  Azure : AzureStorageConfig;
  S3 : S3StorageConfig;
  GCS : GCSStorageConfig;
}.

Definition no_local : LocalStorageConfig := {| lo_BasePath := ""; lo_ServeDirectly := false |}.
Definition no_azure : AzureStorageConfig := {|
  az_AccountName := ""; az_AccountKey := ""; az_ContainerName := ""; az_CDNURL := "" |}.
Definition no_s3 : S3StorageConfig := {|
  s3_Endpoint := ""; s3_Region := ""; s3_Bucket := ""; s3_AuthMethod := ""; s3_AccessKeyID := "";
  s3_SecretAccessKey := ""; s3_RoleARN := ""; s3_RoleSessionName := ""; s3_ExternalID := "";
  s3_WebIdentityTokenFile := "" |}.
Definition no_gcs : GCSStorageConfig := {|
  gc_Bucket := ""; gc_ProjectID := ""; gc_AuthMethod := ""; gc_CredentialsFile := "";
  gc_CredentialsJSON := ""; gc_Endpoint := "" |}.

(** The masked view of a storage configuration. *)
Record StorageConfigResponse := {
  sr_ID : uuid;
  sr_BackendType : string;
  sr_IsActive : bool;
  sr_LocalBasePath : string;
  sr_LocalServeDirectly : option bool;
  sr_AzureAccountName : string;
  sr_AzureAccountKeySet : bool;
  sr_AzureContainerName : string;
  sr_AzureCDNURL : string;
  sr_S3Endpoint : string;
  sr_S3Region : string;
  sr_S3Bucket : string;
  sr_S3AuthMethod : string;
  sr_S3AccessKeyIDSet : bool;
  sr_S3SecretAccessKeySet : bool;
  sr_S3RoleARN : string;
  sr_S3RoleSessionName : string;
  sr_S3ExternalID : string;
  sr_S3WebIdentityTokenFile : string;
  sr_GCSBucket : string;
  sr_GCSProjectID : string;
  sr_GCSAuthMethod : string;
  sr_GCSCredentialsFile : string;
  sr_GCSCredentialsJSONSet : bool;
  sr_GCSEndpoint : string;
}.

Definition is_set (s : option string) : bool :=
  match s with Some v => negb (String.eqb v "") | None => false end.

Definition ToResponse (s : StorageConfig) : StorageConfigResponse := {|
  sr_ID := sc_ID s; sr_BackendType := sc_BackendType s; sr_IsActive := sc_IsActive s;
  sr_LocalBasePath := default "" (sc_LocalBasePath s);
  sr_LocalServeDirectly := sc_LocalServeDirectly s;
  sr_AzureAccountName := default "" (sc_AzureAccountName s);
  sr_AzureAccountKeySet := is_set (sc_AzureAccountKeyEncrypted s);
  sr_AzureContainerName := default "" (sc_AzureContainerName s);
  sr_AzureCDNURL := default "" (sc_AzureCDNURL s);
  sr_S3Endpoint := default "" (sc_S3Endpoint s); sr_S3Region := default "" (sc_S3Region s);
  sr_S3Bucket := default "" (sc_S3Bucket s); sr_S3AuthMethod := default "" (sc_S3AuthMethod s);
  sr_S3AccessKeyIDSet := is_set (sc_S3AccessKeyIDEncrypted s);
  sr_S3SecretAccessKeySet := is_set (sc_S3SecretAccessKeyEncrypted s);
  sr_S3RoleARN := default "" (sc_S3RoleARN s);
  sr_S3RoleSessionName := default "" (sc_S3RoleSessionName s);
  sr_S3ExternalID := default "" (sc_S3ExternalID s);
  sr_S3WebIdentityTokenFile := default "" (sc_S3WebIdentityTokenFile s);
  sr_GCSBucket := default "" (sc_GCSBucket s); sr_GCSProjectID := default "" (sc_GCSProjectID s);
  sr_GCSAuthMethod := default "" (sc_GCSAuthMethod s);
  sr_GCSCredentialsFile := default "" (sc_GCSCredentialsFile s);
  sr_GCSCredentialsJSONSet := is_set (sc_GCSCredentialsJSONEncrypted s);
  sr_GCSEndpoint := default "" (sc_GCSEndpoint s) |}.

(** ** Answers *)

(** The JSON bodies; an [ErrMsg] is a fixed text. *)
Inductive body :=
| BError (e : gerror)
| BMissing (missing : list string)
| BStatus (s : SetupStatus) (scanning : bool)
| BTokenValid
| BTest (success : bool) (why : gerror)
| BOIDC (row : OIDCConfig)
| BStorage (c : StorageConfigResponse)
| BAdmin (email organization : string)
| BFeatureDone
| BDone (authMethod : string)
| BScanTest (success : bool) (version : string) (why : gerror)
| BScanSaved
| BLDAP (host : string) (port : Z)
| BInstall (success : bool) (tool version path : string) (why : gerror).

Definition reply : Type := Z * body.

(** ** The process and the outside *)

(** A provider object of the identity module is a handle; an LDAP provider is its
    configuration. *)
Record proc (Y : Type) := Proc {
  attempts : gmap string (list Z);
  oidcProvider : option nat;
  ldapProvider : option LDAPConfiguration;
  Scanning : ScanningConfiguration;
  (** how often the scanner job was started in the background *)
  scannerStarts : nat;
  world : Y;
}.
Arguments Proc {Y} _ _ _ _ _ _.
Arguments attempts {Y} _.
Arguments oidcProvider {Y} _.
Arguments ldapProvider {Y} _.
Arguments Scanning {Y} _.
Arguments scannerStarts {Y} _.
Arguments world {Y} _.

(** The identity module's users, organizations and OIDC configurations. *)
Class IdentityStore (Y : Type) := {
  (** identifier and display name *)
  GetDefaultOrganization : prog Y (res (option (string * string)));
  CreateUser : string -> string -> prog Y (res string);
  GetUserByEmail : string -> prog Y (res (option string));
  AddMemberWithParams : string -> string -> string -> prog Y (res unit);
  UpdateMemberRole : string -> string -> string -> prog Y (res unit);
  (** deactivates every other configuration in the same transaction *)
  CreateOIDCConfig : OIDCConfig -> prog Y (res unit);
  GetActiveOIDCConfig : prog Y (res (option OIDCConfig));
  (** discovery included *)
  NewProviderWithContext : OIDCClient -> prog Y (res nat);
}.

(** bcrypt, the token cipher and the random source.  [crypto/rand] gives the 32
    bytes already encoded. *)
Class Secrets (Y : Type) := {
  CompareHashAndPassword : string -> string -> bool;
  GenerateFromPassword : string -> prog Y (res string);
  rand_token : prog Y (res string);
  Seal : string -> prog Y (res string);
  Open : string -> res string;
}.

(** The files and commands of the host, the other packages the wizard calls. *)
Class Host (Y : Type) := {
  Stat : string -> prog Y (res unit);
  (** [scanner.Version]: by tool and path *)
  scanner_version : string -> string -> prog Y (res string);
  NewStorage : StorageSection -> prog Y (res nat);
  Exists : nat -> string -> prog Y (res bool);
  (** [installer.Handle]: version and path, or the message *)
  installer_Handle : string -> string -> string -> prog Y (res (string * string));
  getenv : string -> Y -> string;
  WriteFile : string -> string -> prog Y (res unit);
  (** the handler of the theme, another package *)
  PutTheme : prog Y reply;
}.

(** [encoding/json] on the stored documents. *)
Class SetupCodec := {
  marshal_scanning : SaveScanningConfigInput -> string;
  unmarshal_scanning : string -> res ScanningConfigDB;
  marshal_ldap : LDAPConfigInput -> string -> string;
}.

Definition no_auto_update : ScannerAutoUpdate := {|
  au_Enabled := false; au_IntervalHours := 0; au_RequiresApproval := false;
  au_AutoApproveRules := "" |}.

(** The fields the document lacks decode to their zero values. *)
Definition db_of_input (i : SaveScanningConfigInput) : ScanningConfigDB := {|
  sd_Enabled := ci_Enabled i; sd_Tool := ci_Tool i; sd_BinaryPath := ci_BinaryPath i;
  sd_ExpectedVersion := ci_ExpectedVersion i; sd_SeverityThreshold := "";
  sd_TimeoutSecs := ci_TimeoutSecs i; sd_WorkerCount := ci_WorkerCount i;
  sd_ScanIntervalMins := 0; sd_InstallDir := ""; sd_AutoUpdate := no_auto_update |}.

Class SetupCodecLaws `{SetupCodec} : Prop :=
  scanning_roundtrip i : unmarshal_scanning (marshal_scanning i) = Ok (db_of_input i).

(** ** Pure helpers *)

Definition toNullString (s : string) : option string := if String.eqb s "" then None else Some s.

Definition validScanningTools : list string := ["trivy"; "terrascan"; "snyk"; "checkov"; "custom"].
Definition IsValidScanningTool (tool : string) : bool := bool_decide (tool ∈ validScanningTools).

(** What is wrong, and the provider type with its default. *)
Definition validateOIDCInput (input : OIDCConfigInput) : res string :=
  if String.eqb (oi_IssuerURL input) "" then Err (ErrMsg "issuer_url is required")
  else if negb (has_prefix (oi_IssuerURL input) "https://")
          && negb (has_prefix (oi_IssuerURL input) "http://")
  then Err (ErrMsg "issuer_url must be a valid URL starting with https:// or http://")
  else if String.eqb (oi_ClientID input) "" then Err (ErrMsg "client_id is required")
  else if String.eqb (oi_ClientSecret input) "" then Err (ErrMsg "client_secret is required")
  else if String.eqb (oi_RedirectURL input) "" then Err (ErrMsg "redirect_url is required")
  else
    let t := if String.eqb (oi_ProviderType input) "" then "generic_oidc" else oi_ProviderType input in
    if negb (String.eqb t "generic_oidc") && negb (String.eqb t "azuread")
    then Err (ErrMsg "provider_type must be 'generic_oidc' or 'azuread'") else Ok t.

Definition validateLDAPInput (input : LDAPConfigInput) : option gerror :=
  if String.eqb (li_Host input) "" then Some (ErrMsg "host is required")
  else if String.eqb (li_BindDN input) "" then Some (ErrMsg "bind_dn is required")
  else if String.eqb (li_BindPassword input) "" then Some (ErrMsg "bind_password is required")
  else if String.eqb (li_BaseDN input) "" then Some (ErrMsg "base_dn is required")
  else if String.eqb (li_UserFilter input) "" then Some (ErrMsg "user_filter is required")
  else if (li_Port input <? 0) || (65535 <? li_Port input)
  then Some (ErrMsg "port must be between 0 and 65535")
  else None.

Definition or_else (s d : string) : string := if String.eqb s "" then d else s.

Definition ldapInputToConfig (input : LDAPConfigInput) : LDAPConfiguration := {|
  lc_Host := li_Host input;
  lc_Port := if li_Port input =? 0 then (if li_UseTLS input then 636 else 389) else li_Port input;
  lc_UseTLS := li_UseTLS input; lc_StartTLS := li_StartTLS input;
  lc_InsecureSkipVerify := li_InsecureSkipVerify input; lc_BindDN := li_BindDN input;
  lc_BindPassword := li_BindPassword input; lc_BaseDN := li_BaseDN input;
  lc_UserFilter := li_UserFilter input;
  lc_UserAttrEmail := or_else (li_UserAttrEmail input) "mail";
  lc_UserAttrName := or_else (li_UserAttrName input) "displayName";
  lc_GroupBaseDN := li_GroupBaseDN input; lc_GroupFilter := li_GroupFilter input;
  lc_GroupMemberAttr := or_else (li_GroupMemberAttr input) "member" |}.

(** [ldap.NewProvider]: the checks and the defaults; no connection is opened. *)
Definition NewLDAPProvider (cfg : LDAPConfiguration) : res LDAPConfiguration :=
  if String.eqb (lc_Host cfg) "" then Err (ErrMsg "ldap: host is required")
  else if String.eqb (lc_BaseDN cfg) "" then Err (ErrMsg "ldap: base_dn is required")
  else if String.eqb (lc_BindDN cfg) ""
  then Err (ErrMsg "ldap: bind_dn is required for search-bind authentication")
  else if String.eqb (lc_UserFilter cfg) "" then Err (ErrMsg "ldap: user_filter is required")
  else Ok {|
    lc_Host := lc_Host cfg;
    lc_Port := if lc_Port cfg =? 0 then (if lc_UseTLS cfg then 636 else 389) else lc_Port cfg;
    lc_UseTLS := lc_UseTLS cfg; lc_StartTLS := lc_StartTLS cfg;
    lc_InsecureSkipVerify := lc_InsecureSkipVerify cfg; lc_BindDN := lc_BindDN cfg;
    lc_BindPassword := lc_BindPassword cfg; lc_BaseDN := lc_BaseDN cfg;
    lc_UserFilter := lc_UserFilter cfg;
    lc_UserAttrEmail := or_else (lc_UserAttrEmail cfg) "mail";
    lc_UserAttrName := or_else (lc_UserAttrName cfg) "displayName";
    lc_GroupBaseDN := lc_GroupBaseDN cfg; lc_GroupFilter := lc_GroupFilter cfg;
    lc_GroupMemberAttr := or_else (lc_GroupMemberAttr cfg) "member" |}.

Definition buildTestStorageConfig (input : StorageConfigInput) : StorageSection :=
  let t := si_BackendType input in {|
  DefaultBackend := t;
  Local := if String.eqb t "local"
           then {| lo_BasePath := si_LocalBasePath input; lo_ServeDirectly := false |} else no_local;
  Azure := if String.eqb t "azure"
           then {| az_AccountName := si_AzureAccountName input; az_AccountKey := si_AzureAccountKey input;
                   az_ContainerName := si_AzureContainerName input; az_CDNURL := si_AzureCDNURL input |}
           else no_azure;
  S3 := if String.eqb t "s3"
        then {| s3_Endpoint := si_S3Endpoint input; s3_Region := si_S3Region input;
                s3_Bucket := si_S3Bucket input; s3_AuthMethod := si_S3AuthMethod input;
                s3_AccessKeyID := si_S3AccessKeyID input;
                s3_SecretAccessKey := si_S3SecretAccessKey input; s3_RoleARN := si_S3RoleARN input;
                s3_RoleSessionName := si_S3RoleSessionName input;
                s3_ExternalID := si_S3ExternalID input;
                s3_WebIdentityTokenFile := si_S3WebIdentityTokenFile input |}
        else no_s3;
  GCS := if String.eqb t "gcs"
         then {| gc_Bucket := si_GCSBucket input; gc_ProjectID := si_GCSProjectID input;
                 gc_AuthMethod := si_GCSAuthMethod input;
                 gc_CredentialsFile := si_GCSCredentialsFile input;
                 gc_CredentialsJSON := si_GCSCredentialsJSON input; gc_Endpoint := si_GCSEndpoint input |}
         else no_gcs |}.

Definition empty_storage (id : uuid) (backend : string) : StorageConfig := {|
  sc_ID := id; sc_BackendType := backend; sc_IsActive := true;
  sc_LocalBasePath := None; sc_LocalServeDirectly := None; sc_AzureAccountName := None;
  sc_AzureAccountKeyEncrypted := None; sc_AzureContainerName := None; sc_AzureCDNURL := None;
  sc_S3Endpoint := None; sc_S3Region := None; sc_S3Bucket := None; sc_S3AuthMethod := None;
  sc_S3AccessKeyIDEncrypted := None; sc_S3SecretAccessKeyEncrypted := None; sc_S3RoleARN := None;
  sc_S3RoleSessionName := None; sc_S3ExternalID := None; sc_S3WebIdentityTokenFile := None;
  sc_GCSBucket := None; sc_GCSProjectID := None; sc_GCSAuthMethod := None;
  sc_GCSCredentialsFile := None; sc_GCSCredentialsJSONEncrypted := None; sc_GCSEndpoint := None |}.

Definition local_storage (id : uuid) (i : StorageConfigInput) : StorageConfig := {|
  sc_ID := id; sc_BackendType := "local"; sc_IsActive := true;
  sc_LocalBasePath := toNullString (si_LocalBasePath i);
  sc_LocalServeDirectly := si_LocalServeDirectly i;
  sc_AzureAccountName := None; sc_AzureAccountKeyEncrypted := None; sc_AzureContainerName := None;
  sc_AzureCDNURL := None; sc_S3Endpoint := None; sc_S3Region := None; sc_S3Bucket := None;
  sc_S3AuthMethod := None; sc_S3AccessKeyIDEncrypted := None; sc_S3SecretAccessKeyEncrypted := None;
  sc_S3RoleARN := None; sc_S3RoleSessionName := None; sc_S3ExternalID := None;
  sc_S3WebIdentityTokenFile := None; sc_GCSBucket := None; sc_GCSProjectID := None;
  sc_GCSAuthMethod := None; sc_GCSCredentialsFile := None; sc_GCSCredentialsJSONEncrypted := None;
  sc_GCSEndpoint := None |}.

Definition azure_storage (id : uuid) (i : StorageConfigInput) (key : option string)
  : StorageConfig := {|
  sc_ID := id; sc_BackendType := "azure"; sc_IsActive := true;
  sc_LocalBasePath := None; sc_LocalServeDirectly := None;
  sc_AzureAccountName := toNullString (si_AzureAccountName i);
  sc_AzureAccountKeyEncrypted := key;
  sc_AzureContainerName := toNullString (si_AzureContainerName i);
  sc_AzureCDNURL := toNullString (si_AzureCDNURL i);
  sc_S3Endpoint := None; sc_S3Region := None; sc_S3Bucket := None; sc_S3AuthMethod := None;
  sc_S3AccessKeyIDEncrypted := None; sc_S3SecretAccessKeyEncrypted := None; sc_S3RoleARN := None;
  sc_S3RoleSessionName := None; sc_S3ExternalID := None; sc_S3WebIdentityTokenFile := None;
  sc_GCSBucket := None; sc_GCSProjectID := None; sc_GCSAuthMethod := None;
  sc_GCSCredentialsFile := None; sc_GCSCredentialsJSONEncrypted := None; sc_GCSEndpoint := None |}.

Definition s3_storage (id : uuid) (i : StorageConfigInput) (key secret : option string)
  : StorageConfig := {|
  sc_ID := id; sc_BackendType := "s3"; sc_IsActive := true;
  sc_LocalBasePath := None; sc_LocalServeDirectly := None; sc_AzureAccountName := None;
  sc_AzureAccountKeyEncrypted := None; sc_AzureContainerName := None; sc_AzureCDNURL := None;
  sc_S3Endpoint := toNullString (si_S3Endpoint i); sc_S3Region := toNullString (si_S3Region i);
  sc_S3Bucket := toNullString (si_S3Bucket i); sc_S3AuthMethod := toNullString (si_S3AuthMethod i);
  sc_S3AccessKeyIDEncrypted := key; sc_S3SecretAccessKeyEncrypted := secret;
  sc_S3RoleARN := toNullString (si_S3RoleARN i);
  sc_S3RoleSessionName := toNullString (si_S3RoleSessionName i);
  sc_S3ExternalID := toNullString (si_S3ExternalID i);
  sc_S3WebIdentityTokenFile := toNullString (si_S3WebIdentityTokenFile i);
  sc_GCSBucket := None; sc_GCSProjectID := None; sc_GCSAuthMethod := None;
  sc_GCSCredentialsFile := None; sc_GCSCredentialsJSONEncrypted := None; sc_GCSEndpoint := None |}.

Definition gcs_storage (id : uuid) (i : StorageConfigInput) (credentials : option string)
  : StorageConfig := {|
  sc_ID := id; sc_BackendType := "gcs"; sc_IsActive := true;
  sc_LocalBasePath := None; sc_LocalServeDirectly := None; sc_AzureAccountName := None;
  sc_AzureAccountKeyEncrypted := None; sc_AzureContainerName := None; sc_AzureCDNURL := None;
  sc_S3Endpoint := None; sc_S3Region := None; sc_S3Bucket := None; sc_S3AuthMethod := None;
  sc_S3AccessKeyIDEncrypted := None; sc_S3SecretAccessKeyEncrypted := None; sc_S3RoleARN := None;
  sc_S3RoleSessionName := None; sc_S3ExternalID := None; sc_S3WebIdentityTokenFile := None;
  sc_GCSBucket := toNullString (si_GCSBucket i); sc_GCSProjectID := toNullString (si_GCSProjectID i);
  sc_GCSAuthMethod := toNullString (si_GCSAuthMethod i);
  sc_GCSCredentialsFile := toNullString (si_GCSCredentialsFile i);
  sc_GCSCredentialsJSONEncrypted := credentials;
  sc_GCSEndpoint := toNullString (si_GCSEndpoint i) |}.

(** ** Programs *)

Section Wizard.
Context {Y : Type} `{IdentityStore Y} `{Secrets Y} `{Host Y} `{SetupCodec}.
#[local] Abbreviation P := (prog (env (beside sudb (proc Y)))).

Definition on_proc (f : proc Y -> proc Y) : P unit :=
  modify (fun s => Beside (tabs s) (f (around s))).

Definition out {A} (c : prog Y A) : P A :=
  outward (fun p => let r := c (world p) in
    (fst r, Proc (attempts p) (oidcProvider p) (ldapProvider p) (Scanning p) (scannerStarts p) (snd r))).

Definition scanning : P ScanningConfiguration := gets (fun s => Scanning (around s)).

Definition SetOIDCProvider (h : nat) : P unit := on_proc (fun p =>
  Proc (attempts p) (Some h) (ldapProvider p) (Scanning p) (scannerStarts p) (world p)).
Definition SetLDAPProvider (c : LDAPConfiguration) : P unit := on_proc (fun p =>
  Proc (attempts p) (oidcProvider p) (Some c) (Scanning p) (scannerStarts p) (world p)).
Definition set_scanning (c : ScanningConfiguration) : P unit := on_proc (fun p =>
  Proc (attempts p) (oidcProvider p) (ldapProvider p) c (scannerStarts p) (world p)).

(** ** The middleware *)

Definition setupMaxAttempts : nat := 5.
Definition setupRateWindow : Z := 60 * 10 ^ 9.

(** [setupRateLimiter.allow] *)
Definition recent (now : Z) (ts : list Z) : list Z :=
  List.filter (fun t => now - setupRateWindow <? t) ts.

Definition allow (ip : string) : P bool :=
  let! now := time_now in
  state (fun s =>
    let p := around s in
    let r := recent now (default [] (attempts p !! ip)) in
    let full := (setupMaxAttempts <=? List.length r)%nat in
    (negb full,
     Beside (tabs s) (Proc (<[ip := if full then r else r ++ [now]]> (attempts p))
       (oidcProvider p) (ldapProvider p) (Scanning p) (scannerStarts p) (world p)))).

Definition featureSetupAllowedPaths : list string :=
  ["/api/v1/setup/validate-token"; "/api/v1/setup/scanning/test"; "/api/v1/setup/scanning";
   "/api/v1/setup/scanning/install"; "/api/v1/setup/complete"].

Definition fail (status : Z) (msg : string) : P reply := ret (status, BError (ErrMsg msg)).

(** The token of the header. *)
Definition setup_token (authHeader : string) : res string :=
  if String.eqb authHeader "" then Err (ErrMsg "Authorization header required. Use: Authorization: SetupToken <token>")
  else match split2 " " authHeader with
       | (scheme, Some rest) =>
           if equal_fold scheme "SetupToken" then Ok (trim_space rest)
           else Err (ErrMsg "Invalid authorization scheme. Use: Authorization: SetupToken <token>")
       | (_, None) => Err (ErrMsg "Invalid authorization scheme. Use: Authorization: SetupToken <token>")
       end.

(** From the rate limit on; [next] is the handler. *)
Definition authenticate (ip authHeader : string) (next : P reply) : P reply :=
  let! ok := allow ip in
  if negb ok then fail 429 "Too many setup token attempts. Try again in one minute."
  else match setup_token authHeader with
  | Err e => ret (401, BError e)
  | Ok rawToken =>
      let! h := OIDCConfigRepository.GetSetupTokenHash in
      match h with
      | Err _ => fail 500 "Failed to validate setup token"
      | Ok storedHash =>
          if String.eqb storedHash ""
          then fail 403 "No setup token has been generated. Restart the server to generate one."
          else if CompareHashAndPassword storedHash rawToken then next
          else fail 401 "Invalid setup token"
      end
  end.

Definition SetupTokenMiddleware (fullPath ip authHeader : string) (next : P reply) : P reply :=
  let! completed := OIDCConfigRepository.IsSetupCompleted in
  match completed with
  | Err _ => fail 500 "Failed to check setup status"
  | Ok false => authenticate ip authHeader next
  | Ok true =>
      let! hasPending := OIDCConfigRepository.HasPendingFeatureSetup in
      match hasPending with
      | Err _ => fail 500 "Failed to check setup status"
      | Ok b =>
          if negb b || negb (bool_decide (fullPath ∈ featureSetupAllowedPaths))
          then fail 403 "Setup has already been completed. These endpoints are permanently disabled."
          else authenticate ip authHeader next
      end
  end.

(** ** Status and token *)

Definition value {A} (d : A) (r : res A) : A := match r with Ok a => a | Err _ => d end.

Definition GetSetupStatus : P reply :=
  let! r := OIDCConfigRepository.GetEnhancedSetupStatus in
  match r with
  | Err _ => fail 500 "failed to get setup status"
  | Ok status =>
      let! sc := OIDCConfigRepository.GetScanningConfigured in
      ret (200, BStatus status (value false sc))
  end.

Definition ValidateToken : P reply := ret (200, BTokenValid).

(** ** OIDC *)

Definition default_scopes (l : list string) : list string :=
  match l with [] => ["openid"; "email"; "profile"] | _ => l end.

Definition oidc_client (input : OIDCConfigInput) : OIDCClient := {|
  oc_IssuerURL := oi_IssuerURL input; oc_ClientID := oi_ClientID input;
  oc_ClientSecret := oi_ClientSecret input; oc_RedirectURL := oi_RedirectURL input;
  oc_Scopes := default_scopes (oi_Scopes input) |}.

Definition TestOIDCConfig (bound : res OIDCConfigInput) : P reply :=
  match bound with
  | Err e => ret (400, BError e)
  | Ok input =>
      match validateOIDCInput input with
      | Err e => ret (400, BError e)
      | Ok _ =>
          let! provider := out (NewProviderWithContext (oidc_client input)) in
          match provider with
          | Err e => ret (200, BTest false (ErrWrap "OIDC discovery failed" e))
          | Ok _ => ret (200, BTest true (ErrMsg "OIDC provider discovery succeeded. The provider is reachable and correctly configured."))
          end
      end
  end.

Definition oidc_row (id : uuid) (providerType sealed : string) (input : OIDCConfigInput) : OIDCConfig := {|
  or_ID := id; or_Name := or_else (oi_Name input) "default"; or_ProviderType := providerType;
  or_IssuerURL := oi_IssuerURL input; or_ClientID := oi_ClientID input;
  or_ClientSecretCiphertext := sealed; or_RedirectURL := oi_RedirectURL input;
  or_Scopes := default_scopes (oi_Scopes input); or_IsActive := true;
  or_ExtraConfig := default "{}" (oi_ExtraConfig input) |}.

(** Marking OIDC as configured and the live provider may fail. *)
Definition SaveOIDCConfig (bound : res OIDCConfigInput) : P reply :=
  match bound with
  | Err e => ret (400, BError e)
  | Ok input =>
  match validateOIDCInput input with
  | Err e => ret (400, BError e)
  | Ok providerType =>
      let! sealed := out (Seal (oi_ClientSecret input)) in
      match sealed with
      | Err _ => fail 500 "failed to encrypt client secret"
      | Ok encryptedSecret =>
          let! id := draw_id in
          let oidcCfg := oidc_row id providerType encryptedSecret input in
          let! created := out (CreateOIDCConfig oidcCfg) in
          match created with
          | Err _ => fail 500 "failed to save OIDC configuration"
          | Ok _ =>
              run! OIDCConfigRepository.SetOIDCConfigured in
              let! live := out (NewProviderWithContext (oidc_client input)) in
              run! (match live with Ok h => SetOIDCProvider h | Err _ => ret tt end) in
              ret (200, BOIDC oidcCfg)
          end
      end
  end end.

(** ** Storage *)

Definition TestStorageConfig (bound : res StorageConfigInput) : P reply :=
  match bound with
  | Err e => ret (400, BError e)
  | Ok input =>
      let! backend := out (NewStorage (buildTestStorageConfig input)) in
      match backend with
      | Err e => ret (200, BTest false (ErrWrap "Failed to initialize storage backend" e))
      | Ok b =>
          let! probe := out (Exists b ".connectivity-test") in
          match probe with
          | Err e => ret (200, BTest false (ErrWrap "Storage connectivity test failed" e))
          | Ok _ => ret (200, BTest true (ErrMsg "Storage backend is reachable and correctly configured."))
          end
      end
  end.

(** A secret goes to its column sealed, or stays NULL when it is empty. *)
Definition seal_field (secret : string) : P (res (option string)) :=
  if String.eqb secret "" then ret (Ok None)
  else let? encrypted := out (Seal secret) in ret (Ok (toNullString encrypted)).

Definition buildEncryptedStorageConfig (input : StorageConfigInput) : P (res StorageConfig) :=
  let! id := draw_id in
  if String.eqb (si_BackendType input) "local" then ret (Ok (local_storage id input))
  else if String.eqb (si_BackendType input) "azure" then
    let? key := seal_field (si_AzureAccountKey input) in
    ret (Ok (azure_storage id input key))
  else if String.eqb (si_BackendType input) "s3" then
    let? key := seal_field (si_S3AccessKeyID input) in
    let? secret := seal_field (si_S3SecretAccessKey input) in
    ret (Ok (s3_storage id input key secret))
  else if String.eqb (si_BackendType input) "gcs" then
    let? credentials := seal_field (si_GCSCredentialsJSON input) in
    ret (Ok (gcs_storage id input credentials))
  else ret (Ok (empty_storage id (si_BackendType input))).

Definition SaveStorageConfig (bound : res StorageConfigInput) : P reply :=
  match bound with
  | Err e => ret (400, BError e)
  | Ok input =>
      let! built := buildEncryptedStorageConfig input in
      match built with
      | Err _ => fail 500 "failed to encrypt storage credentials"
      | Ok storageCfg =>
          run! StorageConfigRepository.DeactivateAllStorageConfigs in
          let! created := StorageConfigRepository.CreateStorageConfig storageCfg in
          match created with
          | Err _ => fail 500 "failed to save storage configuration"
          | Ok _ =>
              run! StorageConfigRepository.SetStorageConfigured None in
              ret (200, BStorage (ToResponse storageCfg))
          end
      end
  end.

(** ** The first administrator *)

(** An existing user or membership is taken over. *)
Definition admin_user (email : string) : P (option string) :=
  let! created := out (CreateUser email email) in
  match created with
  | Ok userID => ret (Some userID)
  | Err _ =>
      let! found := out (GetUserByEmail email) in
      ret (match found with Ok (Some userID) => Some userID | _ => None end)
  end.

Definition admin_member (orgID userID : string) : P bool :=
  let! added := out (AddMemberWithParams orgID userID "admin") in
  match added with
  | Ok _ => ret true
  | Err _ => let! updated := out (UpdateMemberRole orgID userID "admin") in ret (is_ok updated)
  end.

Definition ConfigureAdmin (bound : res string) : P reply :=
  match bound with
  | Err _ => fail 400 "A valid email address is required"
  | Ok raw =>
      let email := trim_space (to_lower raw) in
      let! org := out GetDefaultOrganization in
      match org with
      | Ok (Some (orgID, displayName)) =>
          let! user := admin_user email in
          match user with
          | None => fail 500 "failed to create admin user"
          | Some userID =>
              let! member := admin_member orgID userID in
              if negb member then fail 500 "failed to add admin user to organization"
              else
                run! OIDCConfigRepository.SetPendingAdminEmail email in
                ret (200, BAdmin email displayName)
          end
      | _ => fail 500 "failed to find default organization"
      end
  end.

(** ** Completion *)

Definition missing (status : SetupStatus) : list string :=
  (if negb (ss_OIDCConfigured status) && negb (ss_LDAPConfigured status)
   then ["authentication (OIDC or LDAP)"] else [])
  ++ (if negb (ss_StorageConfigured status) then ["storage backend"] else [])
  ++ (if negb (ss_AdminConfigured status) then ["admin user"] else []).

Definition CompleteSetup : P reply :=
  let! r := OIDCConfigRepository.GetEnhancedSetupStatus in
  match r with
  | Err _ => fail 500 "failed to check setup status"
  | Ok status =>
      let! sc := OIDCConfigRepository.GetScanningConfigured in
      let scanningConfigured := value false sc in
      if ss_PendingFeatureSetup status then
        if negb scanningConfigured then ret (400, BMissing ["security scanning"])
        else
          let! done := OIDCConfigRepository.SetSetupCompleted in
          match done with
          | Err _ => fail 500 "failed to complete feature setup"
          | Ok _ => ret (200, BFeatureDone)
          end
      else
        match missing status with
        | [] =>
            let! done := OIDCConfigRepository.SetSetupCompleted in
            match done with
            | Err _ => fail 500 "failed to complete setup"
            | Ok _ => ret (200, BDone (if ss_LDAPConfigured status then "LDAP" else "OIDC"))
            end
        | ms => ret (400, BMissing ms)
        end
  end.

(** ** Scanning *)

(** With an install directory the binary must lie below it. *)
Definition inside_install_dir (installDir binaryPath : string) : bool :=
  String.eqb installDir "" || has_prefix (Clean binaryPath) (Clean installDir +:+ "/").

(** [scanner.ResolveBinaryPath] *)
Definition ResolveBinaryPath (binaryPath installDir tool : string) : P (option string) :=
  let! direct :=
    (if String.eqb binaryPath "" then ret false
     else let! r := out (Stat binaryPath) in ret (is_ok r)) in
  if (direct : bool) then ret (Some binaryPath)
  else if String.eqb installDir "" || String.eqb tool "" then ret None
  else
    let fallback := Join installDir tool in
    let! r := out (Stat fallback) in
    ret (if is_ok r then Some fallback else None).

(** [scanner.New]: a scanner is its tool and its binary. *)
Definition NewScanner (binaryPath installDir tool : string) : P (res (string * string)) :=
  let! resolved := ResolveBinaryPath binaryPath installDir tool in
  match resolved with
  | None => ret (Err (ErrMsg "scanner binary not accessible: no usable binary found"))
  | Some path =>
      ret (if IsValidScanningTool tool then Ok (tool, path)
           else Err (ErrMsg "unknown scanner tool (supported: trivy, terrascan, snyk, checkov, custom)"))
  end.

Definition scan_failed (version : string) (why : gerror) : P reply :=
  ret (200, BScanTest false version why).

Definition TestScanningConfig (bound : res TestScanningConfigInput) : P reply :=
  match bound with
  | Err e => ret (400, BError e)
  | Ok input =>
      if negb (IsValidScanningTool (ti_Tool input)) then scan_failed "" (ErrMsg "unsupported tool")
      else
      let! cfg := scanning in
      if negb (inside_install_dir (sg_InstallDir cfg) (ti_BinaryPath input))
      then fail 400 "binary_path must be within the scanner install directory"
      else
      let! stat := out (Stat (ti_BinaryPath input)) in
      match stat with
      | Err e => scan_failed "" (ErrWrap "binary not found" e)
      | Ok _ =>
          let! s := NewScanner (ti_BinaryPath input) "" (ti_Tool input) in
          match s with
          | Err e => scan_failed "" (ErrWrap "failed to initialize scanner" e)
          | Ok (tool, path) =>
              let! v := out (scanner_version tool path) in
              match v with
              | Err e => scan_failed "" (ErrWrap "failed to get scanner version" e)
              | Ok version =>
                  if negb (String.eqb (ti_ExpectedVersion input) "")
                     && negb (String.eqb version (ti_ExpectedVersion input))
                  then scan_failed version (ErrMsg "version mismatch")
                  else ret (200, BScanTest true version (ErrMsg ""))
              end
          end
      end
  end.

(** What the running process takes over from the input. *)
Definition apply_scanning (input : SaveScanningConfigInput) (c : ScanningConfiguration)
  : ScanningConfiguration := {|
  sg_Enabled := ci_Enabled input; sg_Tool := ci_Tool input; sg_BinaryPath := ci_BinaryPath input;
  sg_ExpectedVersion := ci_ExpectedVersion input; sg_SeverityThreshold := sg_SeverityThreshold c;
  sg_Timeout := if 0 <? ci_TimeoutSecs input then wrap64 (ci_TimeoutSecs input * 10 ^ 9) else sg_Timeout c;
  sg_WorkerCount := if 0 <? ci_WorkerCount input then ci_WorkerCount input else sg_WorkerCount c;
  sg_ScanIntervalMins := sg_ScanIntervalMins c; sg_InstallDir := sg_InstallDir c;
  sg_AutoUpdate := sg_AutoUpdate c |}.

Definition start_scanner_job : P unit := on_proc (fun p =>
  Proc (attempts p) (oidcProvider p) (ldapProvider p) (Scanning p) (S (scannerStarts p)) (world p)).

Definition SaveScanningConfig (bound : res SaveScanningConfigInput) : P reply :=
  match bound with
  | Err e => ret (400, BError e)
  | Ok input =>
      if negb (IsValidScanningTool (ci_Tool input)) then fail 400 "unsupported tool"
      else
      let! cfg := scanning in
      if negb (inside_install_dir (sg_InstallDir cfg) (ci_BinaryPath input))
      then fail 400 "binary_path must be within the scanner install directory"
      else
      let! stat := out (Stat (ci_BinaryPath input)) in
      match stat with
      | Err e =>
          if bool_decide (e = ErrSentinel "os.ErrNotExist") then fail 400 "binary_path does not exist"
          else fail 500 "failed to verify binary_path"
      | Ok _ =>
          let! saved := OIDCConfigRepository.SetScanningConfig (marshal_scanning input) in
          match saved with
          | Err _ => fail 500 "failed to save scanning configuration"
          | Ok _ =>
              run! set_scanning (apply_scanning input cfg) in
              run! (if ci_Enabled input then start_scanner_job else ret tt) in
              ret (200, BScanSaved)
          end
      end
  end.

Definition InstallScanner (bound : res (string * string)) : P reply :=
  match bound with
  | Err e => ret (400, BError e)
  | Ok (tool, version) =>
      let! cfg := scanning in
      let! r := out (installer_Handle (sg_InstallDir cfg) tool version) in
      match r with
      | Err e =>
          if String.eqb (Error e) "scanning.install_dir is not configured on the server"
          then ret (500, BError e)
          else ret (200, BInstall false tool "" "" e)
      | Ok (v, path) => ret (200, BInstall true tool v path (ErrMsg ""))
      end
  end.

(** ** LDAP *)

Definition TestLDAPConfig (bound : res LDAPConfigInput) : P reply :=
  match bound with
  | Err e => ret (400, BError e)
  | Ok input =>
      match validateLDAPInput input with
      | Some e => ret (400, BError e)
      | None =>
          match NewLDAPProvider (ldapInputToConfig input) with
          | Err e => ret (200, BTest false (ErrWrap "LDAP configuration error" e))
          | Ok _ => ret (200, BTest true (ErrMsg ("LDAP connection to " +:+ li_Host input +:+ ":"
                      +:+ show (lc_Port (ldapInputToConfig input))
                      +:+ " succeeded. Service account bind verified.")))
          end
      end
  end.

Definition SaveLDAPConfig (bound : res LDAPConfigInput) : P reply :=
  match bound with
  | Err e => ret (400, BError e)
  | Ok input =>
  match validateLDAPInput input with
  | Some e => ret (400, BError e)
  | None =>
      let! sealed := out (Seal (li_BindPassword input)) in
      match sealed with
      | Err _ => fail 500 "failed to encrypt bind password"
      | Ok encryptedPassword =>
          let! saved := OIDCConfigRepository.SetLDAPConfig (marshal_ldap input encryptedPassword) in
          match saved with
          | Err _ => fail 500 "failed to save LDAP configuration"
          | Ok _ =>
              run! OIDCConfigRepository.SetOIDCConfigured in
              run! (match NewLDAPProvider (ldapInputToConfig input) with
                    | Ok p => SetLDAPProvider p | Err _ => ret tt end) in
              ret (200, BLDAP (li_Host input) (li_Port input))
          end
      end
  end end.

(** ** The routes *)

Inductive route :=
| RStatus
| RValidate
| RTestOIDC (b : res OIDCConfigInput)
| ROIDC (b : res OIDCConfigInput)
| RTestLDAP (b : res LDAPConfigInput)
| RLDAP (b : res LDAPConfigInput)
| RTestStorage (b : res StorageConfigInput)
| RStorage (b : res StorageConfigInput)
| RAdmin (b : res string)
| RTestScanning (b : res TestScanningConfigInput)
| RScanning (b : res SaveScanningConfigInput)
| RInstall (b : res (string * string))
| RComplete
| RTheme.

Definition FullPath (r : route) : string :=
  "/api/v1/setup/" +:+
  match r with
  | RStatus => "status" | RValidate => "validate-token"
  | RTestOIDC _ => "oidc/test" | ROIDC _ => "oidc"
  | RTestLDAP _ => "ldap/test" | RLDAP _ => "ldap"
  | RTestStorage _ => "storage/test" | RStorage _ => "storage"
  | RAdmin _ => "admin" | RTestScanning _ => "scanning/test" | RScanning _ => "scanning"
  | RInstall _ => "scanning/install" | RComplete => "complete" | RTheme => "ui-theme"
  end.

Definition handler (r : route) : P reply :=
  match r with
  | RStatus => GetSetupStatus | RValidate => ValidateToken
  | RTestOIDC b => TestOIDCConfig b | ROIDC b => SaveOIDCConfig b
  | RTestLDAP b => TestLDAPConfig b | RLDAP b => SaveLDAPConfig b
  | RTestStorage b => TestStorageConfig b | RStorage b => SaveStorageConfig b
  | RAdmin b => ConfigureAdmin b | RTestScanning b => TestScanningConfig b
  | RScanning b => SaveScanningConfig b | RInstall b => InstallScanner b
  | RComplete => CompleteSetup | RTheme => out PutTheme
  end.

Record request := {
  rq_ClientIP : string;
  rq_Authorization : string;
  rq_route : route;
}.

(** The status is public; everything else is behind the middleware. *)
Definition serve (r : request) : P reply :=
  match rq_route r with
  | RStatus => handler RStatus
  | _ => SetupTokenMiddleware (FullPath (rq_route r)) (rq_ClientIP r) (rq_Authorization r)
           (handler (rq_route r))
  end.

(** ** Start-up *)

Definition featureSetupRearmAllowed : P bool :=
  gets (fun s => String.eqb (getenv "TFR_ALLOW_FEATURE_SETUP_REARM" (world (around s))) "true").

(** The token as printed, when one is made; a token file that cannot be written is
    only logged. *)
Definition mint_token : P (res (option string)) :=
  let! existing := OIDCConfigRepository.GetSetupTokenHash in
  match existing with
  | Err e => ret (Err (ErrWrap "failed to check existing setup token" e))
  | Ok existingHash =>
      if negb (String.eqb existingHash "") then ret (Ok None)
      else
      let! bytes := out rand_token in
      match bytes with
      | Err e => ret (Err (ErrWrap "failed to generate setup token" e))
      | Ok encoded =>
          let rawToken := "tfr_setup_" +:+ encoded in
          let! h := out (GenerateFromPassword rawToken) in
          match h with
          | Err e => ret (Err (ErrWrap "failed to hash setup token" e))
          | Ok hash =>
              let! stored := OIDCConfigRepository.SetSetupTokenHash hash in
              match stored with
              | Err e => ret (Err (ErrWrap "failed to store setup token hash" e))
              | Ok _ =>
                  let! tokenFile := gets (fun s => getenv "SETUP_TOKEN_FILE" (world (around s))) in
                  run! (if String.eqb tokenFile "" || contains tokenFile ".." then ret (Ok tt)
                        else out (WriteFile (Clean tokenFile) rawToken)) in
                  ret (Ok (Some rawToken))
              end
          end
      end
  end.

Definition handleSetupToken : P (res (option string)) :=
  let! c := OIDCConfigRepository.IsSetupCompleted in
  match c with
  | Err e => ret (Err (ErrWrap "failed to check setup status" e))
  | Ok false => mint_token
  | Ok true =>
      let! p := OIDCConfigRepository.HasPendingFeatureSetup in
      match p with
      | Err e => ret (Err (ErrWrap "failed to check pending feature setup" e))
      | Ok false => ret (Ok None)
      | Ok true =>
          let! allowed := featureSetupRearmAllowed in
          if (allowed : bool) then mint_token else ret (Ok None)
      end
  end.

Definition GetScopes (row : OIDCConfig) : list string := default_scopes (or_Scopes row).

Definition applyPersistedOIDCProvider : P unit :=
  let! active := out GetActiveOIDCConfig in
  match active with
  | Ok (Some row) =>
      match Open (or_ClientSecretCiphertext row) with
      | Err _ => ret tt
      | Ok clientSecret =>
          let! provider := out (NewProviderWithContext {|
            oc_IssuerURL := or_IssuerURL row; oc_ClientID := or_ClientID row;
            oc_ClientSecret := clientSecret; oc_RedirectURL := or_RedirectURL row;
            oc_Scopes := GetScopes row |}) in
          match provider with Ok h => SetOIDCProvider h | Err _ => ret tt end
      end
  | _ => ret tt
  end.

(** The first part of [reloadScanningConfigFromDB]. *)
Definition take_over (d : ScanningConfigDB) (c : ScanningConfiguration) : ScanningConfiguration :=
  if negb (sd_Enabled d) || negb (IsValidScanningTool (sd_Tool d)) then c else {|
  sg_Enabled := sd_Enabled d; sg_Tool := sd_Tool d; sg_BinaryPath := sd_BinaryPath d;
  sg_ExpectedVersion := sd_ExpectedVersion d; sg_SeverityThreshold := sd_SeverityThreshold d;
  sg_Timeout := if 0 <? sd_TimeoutSecs d then wrap64 (sd_TimeoutSecs d * 10 ^ 9) else sg_Timeout c;
  sg_WorkerCount := sd_WorkerCount d;
  sg_ScanIntervalMins := if 0 <? sd_ScanIntervalMins d then sd_ScanIntervalMins d else sg_ScanIntervalMins c;
  sg_InstallDir := if String.eqb (sd_InstallDir d) "" then sg_InstallDir c else sd_InstallDir d;
  sg_AutoUpdate := sg_AutoUpdate c |}.

Definition with_auto_update (a : ScannerAutoUpdate) (c : ScanningConfiguration) : ScanningConfiguration := {|
  sg_Enabled := sg_Enabled c; sg_Tool := sg_Tool c; sg_BinaryPath := sg_BinaryPath c;
  sg_ExpectedVersion := sg_ExpectedVersion c; sg_SeverityThreshold := sg_SeverityThreshold c;
  sg_Timeout := sg_Timeout c; sg_WorkerCount := sg_WorkerCount c;
  sg_ScanIntervalMins := sg_ScanIntervalMins c; sg_InstallDir := sg_InstallDir c; sg_AutoUpdate := a |}.

(** The stored document, if it is there and decodes. *)
Definition saved_scanning : P (option ScanningConfigDB) :=
  let! r := OIDCConfigRepository.GetScanningConfig in
  ret (match r with
       | Ok (Some doc) => match unmarshal_scanning doc with Ok d => Some d | Err _ => None end
       | _ => None
       end).

Definition reloadScanningConfigFromDB : P unit :=
  let! c := scanning in
  run! (if sg_Enabled c then ret tt
        else let! d := saved_scanning in
             match d with Some d => set_scanning (take_over d c) | None => ret tt end) in
  let! d := saved_scanning in
  let! c' := scanning in
  match d with Some d => set_scanning (with_auto_update (sd_AutoUpdate d) c') | None => ret tt end.
End Wizard.
