(* ===== verification/SetupSafety.v ===== *)
(** * What the setup wizard lets through

    Without the token nothing moves; guesses are limited; once the setup is complete
    no request to the wizard touches identity, storage or the token; completion needs
    every part; what a restart finds. *)

From S2P Require Import Prelude GoStrings SemVer Filepath TfMirrorRepo TfMirrorSync Tables SetupRepo Setup.

#[local] Open Scope Z_scope.

(** ** The middleware *)

Definition with_attempts {Y} (a : gmap string (list Z)) (s : beside sudb (proc Y)) : beside sudb (proc Y) :=
  let p := around s in
  Beside (tabs s) (Proc a (oidcProvider p) (ldapProvider p) (Scanning p) (scannerStarts p) (world p)).

Section Safety.
Context {Y : Type} `{IdentityStore Y} `{Secrets Y} `{Host Y} `{SetupCodec}.
#[local] Abbreviation W := (env (beside sudb (proc Y))).
#[local] Abbreviation P := (prog W).

Definition completed (t : sudb) : Prop :=
  exists x, system_settings t = Some x /\ SetupCompleted x = true.

Definition pending (t : sudb) : Prop :=
  exists x, system_settings t = Some x /\ SetupCompleted x = true /\ ScanningConfigured x = false.

(** The header carries, after the scheme, a token whose hash is the stored one. *)
Definition holds_token (t : sudb) (authHeader : string) : Prop :=
  exists scheme token x hash, authHeader = scheme +:+ " " +:+ token /\ to_lower scheme = "setuptoken" /\
    system_settings t = Some x /\ SetupTokenHash x = Some hash /\ hash <> "" /\
    CompareHashAndPassword hash (trim_space token) = true.

Lemma split2_some c s a b : split2 c s = (a, Some b) -> s = a +:+ String c b.
Proof.
  revert a. induction s as [|d s IH]; intros a; cbn [split2]; [done|].
  destruct (Ascii.eqb_spec d c) as [->|]; [by intros [= <- <-]|].
  destruct (split2 c s) as [a' r]. cbn [fst snd]. intros [= <- ->]. rewrite append_cons. f_equal. by apply IH.
Qed.

Lemma token_of_header h token : setup_token h = Ok token ->
  exists scheme rest, h = scheme +:+ " " +:+ rest /\ to_lower scheme = "setuptoken" /\ token = trim_space rest.
Proof.
  unfold setup_token. destruct (String.eqb h ""); [done|].
  destruct (split2 " " h) as [scheme [rest|]] eqn:Es; [|done].
  destruct (equal_fold scheme "SetupToken") eqn:Ef; [|done]. intros [= <-].
  exists scheme, rest. split; [by apply split2_some in Es as ->|]. split; [|done].
  unfold equal_fold in Ef. by apply String.eqb_eq in Ef.
Qed.

(** A statement that only reads. *)
Lemma query_st {A} op (f : sudb -> res A) (w : W) :
  st (snd (query op f w)) = st w /\
  (fst (query op f w) = f (tabs (st w)) \/ fst (query op f w) = Err (ErrDB op)).
Proof.
  unfold query, sql, db. destruct (faults w) as [|[] fs]; cbn; split; auto;
    by destruct (st w).
Qed.

Lemma clock_query {A} op (f : sudb -> res A) (w : W) : clock (snd (query op f w)) = clock w.
Proof. unfold query, sql, db. by destruct (faults w) as [|[] fs]. Qed.

Lemma clock_exec op f (w : W) : clock (snd (exec op f w)) = clock w.
Proof. unfold exec, sql, db. by destruct (faults w) as [|[] fs]. Qed.

(** The limiter only records attempts. *)
Lemma allow_st ip (w : W) : exists a, st (snd (allow ip w)) = with_attempts a (st w).
Proof. eexists. reflexivity. Qed.

Definition refusal (r : reply) : Prop := fst r ∈ [401; 403; 429; 500].

Lemma authenticate_cases ip h (next : P reply) (w : W) :
  (exists a, st (snd (authenticate ip h next w)) = with_attempts a (st w) /\
             refusal (fst (authenticate ip h next w))) \/
  (exists a w1, st w1 = with_attempts a (st w) /\ authenticate ip h next w = next w1 /\
                holds_token (tabs (st w)) h).
Proof.
  unfold authenticate, bind. destruct (allow_st ip w) as [a Ha].
  destruct (allow ip w) as [ok w1] eqn:Ew. cbn [fst snd] in *. destruct ok; cbn [negb].
  2: { left. exists a. split; [done | unfold refusal; cbn; set_solver]. }
  destruct (setup_token h) as [token|e] eqn:Et; [|left; exists a; split; [done | unfold refusal; cbn; set_solver]].
  unfold OIDCConfigRepository.GetSetupTokenHash, OIDCConfigRepository.column.
  match goal with |- context [query ?o ?f w1] => pose proof (query_st o f w1) as [Hs Hq];
    destruct (query o f w1) as [r w2] eqn:Eq end.
  cbn [fst snd] in *. rewrite Ha in Hs.
  assert (Hrefuse : forall st' e, st' ∈ [401; 403; 429; 500] ->
    exists a, st w2 = with_attempts a (st w) /\ refusal (st', BError e)) by (intros; by exists a).
  destruct r as [hash|e]; [|left; cbn; apply Hrefuse; set_solver].
  destruct (String.eqb_spec hash "") as [->|Hne]; [left; cbn; apply Hrefuse; set_solver|].
  destruct (CompareHashAndPassword hash token) eqn:Ec; [|left; cbn; apply Hrefuse; set_solver].
  right. exists a, w2. do 2 (split; [done|]). apply token_of_header in Et as (scheme & rest & -> & Hsch & ->).
  exists scheme, rest.
  destruct Hq as [Hq|Hq]; [|done]. rewrite Ha in Hq. cbn in Hq.
  destruct (system_settings (tabs (st w))) as [x|]; [|done]. exists x.
  destruct (SetupTokenHash x) as [y|]; cbn in Hq; [|by simplify_eq]. exists hash. by simplify_eq.
Qed.

(** The request is turned away having at most been counted, or its handler runs: with
    the token, and after completion only for the pending feature. *)
Lemma middleware_cases fullPath ip h (next : P reply) (w : W) :
  let r := SetupTokenMiddleware fullPath ip h next w in
  (exists a, st (snd r) = with_attempts a (st w) /\ refusal (fst r)) \/
  (exists a w1, st w1 = with_attempts a (st w) /\ r = next w1 /\ holds_token (tabs (st w)) h /\
     (completed (tabs (st w)) ->
      pending (tabs (st w)) /\ fullPath ∈ featureSetupAllowedPaths)).
Proof.
  cbn zeta. unfold SetupTokenMiddleware, bind.
  unfold OIDCConfigRepository.IsSetupCompleted, OIDCConfigRepository.HasPendingFeatureSetup,
    OIDCConfigRepository.column.
  match goal with |- context [query ?o ?f w] => pose proof (query_st o f w) as [Hs Hq];
    destruct (query o f w) as [c w1] end.
  cbn [fst snd] in *.
  assert (Hself : st w1 = with_attempts (attempts (around (st w))) (st w))
    by (rewrite Hs; by destruct (st w) as [? []]).
  destruct c as [[]|e].
  - match goal with |- context [query ?o ?f w1] => pose proof (query_st o f w1) as [Hs2 Hq2];
      destruct (query o f w1) as [p w2] end.
    cbn [fst snd] in *. rewrite Hs in Hq2.
    destruct p as [b|e]; [|left; cbn; rewrite Hs2; eexists; split; [exact Hself | unfold refusal; cbn; set_solver]].
    destruct (negb b || _) eqn:Eb;
      [left; cbn; rewrite Hs2; eexists; split; [exact Hself | unfold refusal; cbn; set_solver]|].
    apply orb_false_elim in Eb as [Eb Ep]. apply negb_false_iff in Eb, Ep. subst b.
    apply bool_decide_eq_true in Ep.
    destruct (authenticate_cases ip h next w2) as [(a & Ha & Hr)|(a & w3 & Ha & Hr & Ht)];
      rewrite ?Hs2, ?Hs in *; [left; by exists a|].
    right. exists a, w3. do 3 (split; [done|]). intros _. split; [|done].
    destruct Hq2 as [Hq2|Hq2]; [|done].
    destruct (system_settings (tabs (st w))) as [x|] eqn:Ex; [|done].
    injection Hq2 as Hb. symmetry in Hb. apply andb_prop in Hb as [E1 E2].
    apply negb_true_iff in E2. by exists x.
  - destruct (authenticate_cases ip h next w1) as [(a & Ha & Hr)|(a & w2 & Ha & Hr & Ht)];
      rewrite ?Hs in *; [left; by exists a|].
    right. exists a, w2. do 3 (split; [done|]). intros (x & Ex & Hx).
    destruct Hq as [Hq|Hq]; [|done]. rewrite Ex in Hq. congruence.
  - left. cbn. eexists. split; [exact Hself | unfold refusal; cbn; set_solver].
Qed.

(** ** Nothing without the token *)

(** C40: A request to any route of the setup wizard but the status query whose
    Authorization header does not carry, after the scheme SetupToken, a token whose hash
    is the stored one changes nothing but the record of attempts, and is refused with
    401, 403, 429 or 500. *)
Theorem setup_needs_the_token (r : request) (w : W) :
  rq_route r <> RStatus -> ~ holds_token (tabs (st w)) (rq_Authorization r) ->
  (exists a, st (snd (serve r w)) = with_attempts a (st w)) /\ refusal (fst (serve r w)).
Proof.
  intros Hr Hn.
  assert (serve r w = SetupTokenMiddleware (FullPath (rq_route r)) (rq_ClientIP r)
            (rq_Authorization r) (handler (rq_route r)) w) as ->
    by (unfold serve; by destruct (rq_route r)).
  edestruct middleware_cases as [(a & Ha & Hs)|(a & w1 & _ & _ & Ht & _)]; [|done].
  split; [by exists a | done].
Qed.

(** ** A completed setup stays sealed *)

(** What the scanning feature may set aside. *)
Definition but_scanning (x : SystemSettings) : SystemSettings := with_scanning 0 "" x.

Section Sealed.
Context (O : Y -> Y -> Prop) `{!PreOrder O}.

(** The identity settings, the token, storage and the providers that serve logins are
    what they were; the outside moved along [O]. *)
Definition sealed (s s' : beside sudb (proc Y)) : Prop :=
  but_scanning <$> system_settings (tabs s) = but_scanning <$> system_settings (tabs s') /\
  storage_config (tabs s) = storage_config (tabs s') /\
  oidcProvider (around s) = oidcProvider (around s') /\
  ldapProvider (around s) = ldapProvider (around s') /\
  O (world (around s)) (world (around s')).

#[export] Instance sealed_preorder : PreOrder sealed.
Proof.
  split; [intros s; by repeat split|].
  intros s1 s2 s3 (?&?&?&?&?) (?&?&?&?&?). repeat split; try by etransitivity. 
Qed.

Lemma sealed_attempts a s : sealed s (with_attempts a s).
Proof. by repeat split. Qed.

Lemma sealed_completed s s' : sealed s s' -> completed (tabs s) -> completed (tabs s').
Proof.
  intros (Hs & _) (x & Hx & Hc). rewrite Hx in Hs.
  destruct (system_settings (tabs s')) as [y|] eqn:Ey; [|done]. cbn in Hs.
  exists y. split; [done|]. apply (f_equal (fun o => SetupCompleted <$> o)) in Hs.
  cbn in Hs. congruence.
Qed.

(** The host's side keeps to [O]. *)
Hypothesis stat_O : forall p y, O y (snd (Stat p y)).
Hypothesis version_O : forall t p y, O y (snd (scanner_version t p y)).
Hypothesis install_O : forall d t v y, O y (snd (installer_Handle d t v y)).

Lemma sealed_out {A} (c : prog Y A) : (forall y, O y (snd (c y))) -> preserves (on_st sealed) (out c).
Proof. intros Hc w. unfold on_st. repeat split. apply Hc. Qed.

Lemma sealed_query {A} op (f : sudb -> res A) :
  preserves (on_st sealed) (query (Y := proc Y) op f).
Proof. intros w. unfold on_st. destruct (query_st op f w) as [-> _]. reflexivity. Qed.

Lemma sealed_read {A} (f : beside sudb (proc Y) -> A) : preserves (on_st sealed) (gets f).
Proof. intros w. unfold on_st. reflexivity. Qed.

Lemma sealed_save doc : preserves (on_st sealed) (OIDCConfigRepository.SetScanningConfig (Y := proc Y) doc).
Proof.
  intros w. unfold on_st, OIDCConfigRepository.SetScanningConfig, exec, sql, db, bind. cbn.
  destruct (faults w) as [|[] fs]; cbn; repeat split; cbn;
    by destruct (system_settings (tabs (st w))).
Qed.

Lemma sealed_proc (f : proc Y -> proc Y) :
  (forall p, oidcProvider (f p) = oidcProvider p /\ ldapProvider (f p) = ldapProvider p /\
             world (f p) = world p) -> preserves (on_st sealed) (on_proc f).
Proof.
  intros Hf w. unfold on_st. destruct (Hf (around (st w))) as (E1 & E2 & E3).
  repeat split; cbn; by rewrite ?E1, ?E2, ?E3.
Qed.

Ltac sealed_step :=
  first [ apply preserves_ret; typeclasses eauto
        | apply sealed_query | apply sealed_read | apply sealed_save
        | apply sealed_out; intros; auto
        | apply sealed_proc; intros; by repeat split
        | apply preserves_bind; [typeclasses eauto | | intros] ].

Lemma sealed_scanner p d t : preserves (on_st sealed) (NewScanner p d t).
Proof.
  unfold NewScanner, ResolveBinaryPath. sealed_step.
  - sealed_step; [case_match; repeat sealed_step|].
    repeat (case_match || sealed_step).
  - case_match; repeat sealed_step.
Qed.

Lemma sealed_test_scanning b : preserves (on_st sealed) (TestScanningConfig b).
Proof.
  unfold TestScanningConfig, fail, scan_failed, scanning.
  repeat (case_match || apply sealed_scanner || sealed_step).
Qed.

Lemma sealed_save_scanning b : preserves (on_st sealed) (SaveScanningConfig b).
Proof.
  unfold SaveScanningConfig, fail, scanning, set_scanning, start_scanner_job.
  repeat (case_match || sealed_step).
Qed.

Lemma sealed_install b : preserves (on_st sealed) (InstallScanner b).
Proof. unfold InstallScanner, scanning. repeat (case_match || sealed_step). Qed.

(** While the feature is pending, completion is refused. *)
Lemma complete_pending (w : W) :
  pending (tabs (st w)) -> st (snd (CompleteSetup w)) = st w /\ fst (fst (CompleteSetup w)) <> 200.
Proof.
  intros (x & Hx & Hc & Hp). unfold CompleteSetup, bind, fail.
  unfold OIDCConfigRepository.GetEnhancedSetupStatus, OIDCConfigRepository.GetScanningConfigured,
    OIDCConfigRepository.column.
  match goal with |- context [query ?o ?f w] => pose proof (query_st o f w) as [Hs Hq];
    destruct (query o f w) as [c w1] end.
  cbn [fst snd] in *. rewrite Hx in Hq.
  destruct c as [status|e]; [|by cbn].
  match goal with |- context [query ?o ?f w1] => pose proof (query_st o f w1) as [Hs2 Hq2];
    destruct (query o f w1) as [p w2] end.
  cbn [fst snd] in *. destruct Hq as [Hq|Hq]; [|done]. injection Hq as ->.
  cbn. rewrite Hc, Hp. cbn. rewrite Hs, Hx, Hp in Hq2.
  destruct Hq2 as [->| ->]; cbn; by rewrite Hs2, Hs.
Qed.

Lemma sealed_handler (r : route) (w : W) :
  FullPath r ∈ featureSetupAllowedPaths -> pending (tabs (st w)) ->
  sealed (st w) (st (snd (handler r w))).
Proof.
  intros Hp Hw.
  assert (Hno : forall s, FullPath r = s -> bool_decide (s ∈ featureSetupAllowedPaths) = true)
    by (intros s <-; by apply bool_decide_eq_true).
  destruct r; cbn [handler];
    try (exfalso; specialize (Hno _ eq_refl); vm_compute in Hno; congruence).
  - reflexivity.
  - apply sealed_test_scanning.
  - apply sealed_save_scanning.
  - apply sealed_install.
  - destruct (complete_pending w Hw) as [-> _]. reflexivity.
Qed.

Lemma sealed_serve r (w : W) :
  completed (tabs (st w)) -> sealed (st w) (st (snd (serve r w))).
Proof.
  intros Hc. unfold serve.
  assert (Hm : sealed (st w) (st (snd (SetupTokenMiddleware (FullPath (rq_route r)) (rq_ClientIP r)
                 (rq_Authorization r) (handler (rq_route r)) w)))).
  { edestruct middleware_cases as [(a & -> & _)|(a & w1 & Ha & -> & _ & Hok)];
      [apply sealed_attempts|].
    destruct (Hok Hc) as [Hp Hin].
    transitivity (st w1); [rewrite Ha; apply sealed_attempts|].
    apply sealed_handler; [done | by rewrite Ha]. }
  destruct (rq_route r); try exact Hm.
  cbn [handler]. unfold GetSetupStatus, fail.
  apply (preserves_bind (on_st sealed)); [apply sealed_query|].
  intros a. repeat (case_match || sealed_step).
Qed.

Lemma sealed_serve_all rs (w : W) :
  completed (tabs (st w)) ->
  sealed (st w) (st (snd (for_each rs (fun r => run! serve r in ret tt) w))).
Proof.
  revert w. induction rs as [|r rs IH]; intros w Hc; [reflexivity|].
  pose proof (sealed_serve r w Hc) as Hr. cbn [for_each]. unfold bind. cbn.
  transitivity (st (snd (serve r w))); [done|].
  apply IH. by apply sealed_completed with (st w).
Qed.
End Sealed.

(** C15: Once the setup is complete, any sequence of requests to the wizard, valid
    token or not, leaves the identity settings, the token hash, the storage
    configurations and the providers that serve logins as they were; of the outside
    only the scanner's files and commands were used. *)
Theorem completed_setup_is_sealed (O : Y -> Y -> Prop) `{!PreOrder O} (rs : list request) (w : W)
  (Hstat : forall p y, O y (snd (Stat p y)))
  (Hversion : forall t p y, O y (snd (scanner_version t p y)))
  (Hinstall : forall d t v y, O y (snd (installer_Handle d t v y))) :
  completed (tabs (st w)) ->
  sealed O (st w) (st (snd (for_each rs (fun r => run! serve r in ret tt) w))).
Proof. by apply sealed_serve_all. Qed.

(** ** Guesses *)

(** The limiter's memory stands and the clock does not go back. *)
Definition calm (w w' : W) : Prop :=
  attempts (around (st w)) = attempts (around (st w')) /\ clock w <= clock w'.

#[export] Instance calm_preorder : PreOrder calm.
Proof. split; [by intros w | intros w1 w2 w3 [? ?] [? ?]; split; [congruence | lia]]. Qed.

Lemma calm_sql {A} op (f : sudb -> res A * sudb) : preserves calm (sql (Y := proc Y) op f).
Proof. intros w. unfold sql, db. by destruct (faults w) as [|[] fs]. Qed.

Lemma quiet_out {A} (c : prog Y A) : preserves calm (out c).
Proof. by intros w. Qed.

Lemma calm_draw : preserves calm (draw_id (T := sudb) (Y := proc Y)).
Proof. by intros w. Qed.

Lemma calm_gets {A} (f : beside sudb (proc Y) -> A) : preserves calm (gets f).
Proof. by intros w. Qed.

Lemma quiet_clock : preserves calm (@time_now (beside sudb (proc Y))).
Proof. intros w. split; cbn; [done | lia]. Qed.

Lemma calm_proc (f : proc Y -> proc Y) :
  (forall p, attempts (f p) = attempts p) -> preserves calm (on_proc f).
Proof. intros Hf w. split; cbn; [by rewrite Hf | done]. Qed.

Ltac calm_step :=
  first [ apply preserves_ret; typeclasses eauto
        | apply calm_sql | apply quiet_out | apply calm_draw | apply calm_gets | apply quiet_clock
        | apply calm_proc; by intros
        | apply preserves_bind; [typeclasses eauto | | intros] ].
Ltac calm_all := repeat (case_match || calm_step).

Lemma calm_scanner p d t : preserves calm (NewScanner p d t).
Proof. unfold NewScanner, ResolveBinaryPath. calm_all. Qed.

Lemma calm_seal s : preserves calm (seal_field s).
Proof. unfold seal_field. calm_all. Qed.

Lemma calm_build i : preserves calm (buildEncryptedStorageConfig i).
Proof. unfold buildEncryptedStorageConfig. repeat (case_match || apply calm_seal || calm_step). Qed.

Lemma calm_handler r : preserves calm (handler r).
Proof.
  destruct r; cbn [handler];
    unfold GetSetupStatus, ValidateToken, TestOIDCConfig, SaveOIDCConfig, TestLDAPConfig,
      SaveLDAPConfig, TestStorageConfig, SaveStorageConfig, ConfigureAdmin, admin_user,
      admin_member, TestScanningConfig, SaveScanningConfig, InstallScanner, CompleteSetup, fail,
      scan_failed, scanning, set_scanning, start_scanner_job, SetOIDCProvider, SetLDAPProvider,
      OIDCConfigRepository.SetScanningConfig, OIDCConfigRepository.SetLDAPConfig,
      StorageConfigRepository.SetStorageConfigured;
    repeat (case_match || apply calm_scanner || apply calm_build || calm_step).
Qed.

Definition wrong_guess (r : reply) : bool :=
  match r with
  | (s, BError (ErrMsg m)) => (s =? 401) && String.eqb m "Invalid setup token"
  | _ => false
  end.

Definition tries (ip : string) (w : W) : list Z := default [] (attempts (around (st w)) !! ip).

(** What a request does to the attempts of an address: nothing, a pruning, or a
    pruning to fewer than five and one more.  A wrong guess is the last. *)
Definition counted (ip : string) (w w' : W) (guess : bool) : Prop :=
  clock w <= clock w' /\
  ((guess = false /\ tries ip w' = tries ip w) \/
   exists now, clock w <= now <= clock w' /\
     ((guess = false /\ tries ip w' = recent now (tries ip w)) \/
      ((List.length (recent now (tries ip w)) < 5)%nat /\
       tries ip w' = recent now (tries ip w) ++ [now]))).

Lemma counted_calm ip (w w1 w2 : W) g : counted ip w w1 g -> calm w1 w2 -> counted ip w w2 g.
Proof.
  intros [Hc Hr] [Ha Hk]. split; [lia|]. unfold tries in *. rewrite <- Ha.
  destruct Hr as [Hr|(now & Hn & Hr)]; [by left | right; exists now; split; [lia | done]].
Qed.

Lemma calm_counted ip (w w1 w2 : W) g : calm w w1 -> counted ip w1 w2 g -> counted ip w w2 g.
Proof.
  intros [Ha Hk] [Hc Hr]. split; [lia|]. unfold tries in *. rewrite Ha.
  destruct Hr as [Hr|(now & Hn & Hr)]; [by left | right; exists now; split; [lia | done]].
Qed.

Lemma counted_none ip (w w' : W) : calm w w' -> counted ip w w' false.
Proof. intros [Ha Hk]. split; [done|]. left. unfold tries. by rewrite Ha. Qed.

Definition guess_of (ip : string) (r : request) (a : reply) : bool :=
  String.eqb ip (rq_ClientIP r) && wrong_guess a.

Lemma allow_counted ip ip' (w : W) (g : bool) :
  (g = true -> ip = ip' /\ fst (allow ip' w) = true) ->
  counted ip w (snd (allow ip' w)) g.
Proof.
  intros Hg. split; [cbn; lia|]. unfold tries, allow, bind, state, time_now in *.
  cbn -[Nat.leb] in *.
  destruct (decide (ip = ip')) as [<-|Hne].
  2: { left. rewrite lookup_insert_ne by done. split; [|done]. destruct g; [|done]. by destruct Hg. }
  right. eexists. split; [split; [|reflexivity]; lia|]. rewrite lookup_insert_eq. cbn -[Nat.leb].
  destruct (Nat.leb_spec setupMaxAttempts
    (List.length (recent (clock w + Z.max 0 (hd 0 (ticks w))) (default [] (attempts (around (st w)) !! ip)))))
    as [Hl|Hl].
  - left. split; [|done]. destruct g; [|done]. by destruct Hg.
  - right. unfold setupMaxAttempts in Hl. done.
Qed.

(** What follows an accepted attempt. *)
Lemma authenticate_counted ip ip' h (next : P reply) (w : W) :
  preserves calm next ->
  counted ip w (snd (authenticate ip' h next w))
    (String.eqb ip ip' && wrong_guess (fst (authenticate ip' h next w))).
Proof.
  intros Hn. unfold authenticate, bind.
  pose proof (allow_counted ip ip' w) as Hc.
  destruct (allow ip' w) as [ok w1] eqn:Ew. cbn [fst snd] in *.
  destruct ok; cbn [negb].
  - match goal with |- counted _ _ (snd ?t) ?g => apply (counted_calm ip w w1); [apply Hc|] end.
    { intros Hg. apply andb_prop in Hg as [E _]. apply String.eqb_eq in E. done. }
    case_match; [|apply calm_preorder].
    match goal with |- context [OIDCConfigRepository.GetSetupTokenHash w1] =>
      pose proof (calm_sql "GetSetupTokenHash" _ w1 : calm w1 (snd (OIDCConfigRepository.GetSetupTokenHash w1))) as Hq;
      destruct (OIDCConfigRepository.GetSetupTokenHash w1) as [r w2] end.
    cbn [fst snd] in *. etransitivity; [exact Hq|].
    destruct r; [|apply calm_preorder].
    case_match; [apply calm_preorder|]. case_match; [apply Hn | apply calm_preorder].
  - cbn. rewrite andb_false_r. apply Hc. done.
Qed.

Lemma middleware_counted ip fp ip' h (next : P reply) (w : W) :
  preserves calm next ->
  counted ip w (snd (SetupTokenMiddleware fp ip' h next w))
    (String.eqb ip ip' && wrong_guess (fst (SetupTokenMiddleware fp ip' h next w))).
Proof.
  intros Hn. unfold SetupTokenMiddleware, bind.
  pose proof (calm_sql "IsSetupCompleted" _ w
    : calm w (snd (OIDCConfigRepository.IsSetupCompleted w))) as H1'.
  destruct (OIDCConfigRepository.IsSetupCompleted w) as [c w1]. cbn [fst snd] in *.
  destruct c as [[]|e].
  - pose proof (calm_sql "HasPendingFeatureSetup" _ w1
      : calm w1 (snd (OIDCConfigRepository.HasPendingFeatureSetup w1))) as H2'.
    destruct (OIDCConfigRepository.HasPendingFeatureSetup w1) as [p w2]. cbn [fst snd] in *.
    assert (Hcalm : calm w w2) by (by transitivity w1).
    destruct p as [b|e]; [|cbn; rewrite andb_false_r; by apply counted_none].
    case_match; [cbn; rewrite andb_false_r; by apply counted_none|].
    eapply calm_counted; [exact Hcalm | by apply authenticate_counted].
  - eapply calm_counted; [exact H1' | by apply authenticate_counted].
  - cbn. rewrite andb_false_r. by apply counted_none.
Qed.

Lemma status_no_guess (w : W) : wrong_guess (fst (GetSetupStatus w)) = false.
Proof. unfold GetSetupStatus, bind. by case_match. Qed.

Lemma serve_counted ip r (w : W) :
  counted ip w (snd (serve r w)) (guess_of ip r (fst (serve r w))).
Proof.
  unfold serve, guess_of.
  destruct (rq_route r) eqn:Er; try (apply middleware_counted; apply calm_handler).
  cbn [handler]. rewrite status_no_guess, andb_false_r. apply counted_none.
  apply (calm_handler RStatus).
Qed.

(** The requests one after the other; how many were wrong guesses from [ip]. *)
Fixpoint guesses (ip : string) (rs : list request) : P nat :=
  match rs with
  | [] => ret O
  | r :: rs' =>
      let! a := serve r in
      let! n := guesses ip rs' in
      ret ((if guess_of ip r a then 1 else 0) + n)%nat
  end.

(** Entries from [t0] on are kept within the minute, and there are at most five. *)
Definition logged (t0 : Z) (ip : string) (n : nat) (w : W) : Prop :=
  (n <= List.length (List.filter (fun t => (t0 <=? t)%Z) (tries ip w)))%nat /\
  ((0 < n)%nat -> (List.length (tries ip w) <= 5)%nat).

Lemma recent_keeps t0 now ts :
  now < t0 + setupRateWindow ->
  List.filter (fun t => t0 <=? t) (recent now ts) = List.filter (fun t => t0 <=? t) ts.
Proof.
  intros Hn. unfold recent. induction ts as [|t ts IH]; [done|]. cbn.
  destruct (Z.ltb_spec (now - setupRateWindow) t); cbn; [by rewrite IH|].
  destruct (Z.leb_spec t0 t); [lia | done].
Qed.

Lemma recent_shorter now ts : (List.length (recent now ts) <= List.length ts)%nat.
Proof. apply List.filter_length_le. Qed.

Lemma logged_serve t0 ip n r (w : W) :
  t0 <= clock w -> clock (snd (serve r w)) < t0 + setupRateWindow -> logged t0 ip n w ->
  logged t0 ip ((if guess_of ip r (fst (serve r w)) then 1 else 0) + n) (snd (serve r w)).
Proof.
  intros Ht Hw [Hn Hl]. destruct (serve_counted ip r w) as [_ Hc].
  destruct Hc as [[-> Hs]|(now & Hnow & [[-> Hs]|[Hlt Hs]])]; unfold logged; rewrite Hs.
  - done.
  - rewrite recent_keeps by lia. split; [done|]. intros Hp. pose proof (recent_shorter now (tries ip w)).
    specialize (Hl Hp). lia.
  - rewrite List.filter_app, !List.length_app, recent_keeps by lia. cbn.
    replace (t0 <=? now) with true by (symmetry; apply Z.leb_le; lia). cbn.
    split; [destruct (guess_of _ _ _); lia | lia].
Qed.

Lemma guesses_clock ip rs (w : W) : clock w <= clock (snd (guesses ip rs w)).
Proof.
  revert w. induction rs as [|r rs IH]; intros w; [cbn; lia|].
  cbn [guesses]. unfold bind. cbn. pose proof (IH (snd (serve r w))).
  destruct (serve_counted ip r w) as [Hc _]. lia.
Qed.

Lemma logged_guesses t0 ip rs n (w : W) :
  t0 <= clock w -> clock (snd (guesses ip rs w)) < t0 + setupRateWindow -> logged t0 ip n w ->
  exists w', logged t0 ip (fst (guesses ip rs w) + n) w'.
Proof.
  revert n w. induction rs as [|r rs IH]; intros n w Ht Hw Hl; [by exists w|].
  cbn [guesses] in *. unfold bind in *. cbn in *.
  destruct (serve_counted ip r w) as [Hc _].
  pose proof (guesses_clock ip rs (snd (serve r w))).
  assert (Hl' : logged t0 ip ((if guess_of ip r (fst (serve r w)) then 1 else 0) + n)
                  (snd (serve r w))) by (apply logged_serve; [done | lia | done]).
  assert (Ha : t0 <= clock (snd (serve r w))) by lia.
  destruct (IH _ _ Ha Hw Hl') as [w' Hw'].
  exists w'. eapply (eq_rect _ (fun k => logged t0 ip k w') Hw'). lia.
Qed.

(** Whatever the requests in between, one address gets at most five wrong tokens
    answered as wrong within less than a minute. *)
Theorem guesses_per_minute (ip : string) (rs : list request) (w : W) :
  clock (snd (guesses ip rs w)) < clock w + setupRateWindow ->
  (fst (guesses ip rs w) <= setupMaxAttempts)%nat.
Proof.
  intros Hw. destruct (logged_guesses (clock w) ip rs 0 w) as [w' [H1' H2']]; [lia | done | |].
  - split; lia.
  - rewrite Nat.add_0_r in *. unfold setupMaxAttempts.
    pose proof (List.filter_length_le (fun t => clock w <=? t) (tries ip w')). lia.
Qed.

(** ** Completion *)

Lemma exec_ok op f (w : W) u : fst (exec op f w) = Ok u -> tabs (st (snd (exec op f w))) = f (tabs (st w)).
Proof. unfold exec, sql, db. by destruct (faults w) as [|[] fs]. Qed.

(** Under an answer of 200 everything required was there. *)
Lemma complete_ok (w : W) :
  fst (fst (CompleteSetup w)) = 200 ->
  exists x b, system_settings (tabs (st w)) = Some x /\ missing (status_of x) = [] /\
    snd (fst (CompleteSetup w)) = BDone b /\
    system_settings (tabs (st (snd (CompleteSetup w)))) = Some (mark_completed x).
Proof.
  intros Hr.
  assert (Hnp : ~ pending (tabs (st w))) by (intros Hp; by destruct (complete_pending w Hp)).
  revert Hr. unfold CompleteSetup, bind, fail.
  unfold OIDCConfigRepository.GetEnhancedSetupStatus, OIDCConfigRepository.GetScanningConfigured,
    OIDCConfigRepository.column, OIDCConfigRepository.SetSetupCompleted.
  match goal with |- context [query ?o ?f w] => pose proof (query_st o f w) as [Hs Hq];
    destruct (query o f w) as [c w1] end.
  cbn [fst snd] in *. destruct c as [status|e]; [|done].
  match goal with |- context [query ?o ?f w1] => pose proof (query_st o f w1) as [Hs2 _];
    destruct (query o f w1) as [p w2] end.
  cbn [fst snd] in *. destruct Hq as [Hq|Hq]; [|done].
  destruct (system_settings (tabs (st w))) as [x|] eqn:Ex; [|by injection Hq as ->].
  injection Hq as ->.
  assert (Hp : ss_PendingFeatureSetup (status_of x) = false).
  { destruct (ss_PendingFeatureSetup (status_of x)) eqn:E; [|done]. exfalso. apply Hnp.
    cbn in E. apply andb_prop in E as [E1 E2]. apply negb_true_iff in E2. by exists x. }
  rewrite Hp. destruct (missing (status_of x)) eqn:Em; [|done].
  pose proof (exec_ok "SetSetupCompleted" (on_settings mark_completed) w2 tt) as He.
  destruct (exec _ _ w2) as [[[]|e] w3]; [|done]. cbn in *. intros _.
  exists x, (if LDAPConfigured x then "LDAP" else "OIDC").
  rewrite Hs2, Hs in He. rewrite (He eq_refl). cbn. by rewrite Ex.
Qed.

Lemma nothing_missing x :
  missing (status_of x) = [] ->
  OIDCConfigured x || LDAPConfigured x = true /\ StorageConfigured x = true /\
  exists e, PendingAdminEmail x = Some e /\ e <> "".
Proof.
  unfold missing. cbn.
  destruct (OIDCConfigured x), (LDAPConfigured x), (StorageConfigured x); cbn; try done;
    (destruct (PendingAdminEmail x) as [e|]; [|done]; destruct (String.eqb_spec e ""); [done|];
     intros _; repeat split; by exists e).
Qed.

(** Completion is answered with 200 only when authentication, storage and an
    administrator are configured, and then the setup is marked completed and the token
    hash is gone; the answer for a pending feature is never given. *)
Theorem complete_needs_everything (w : W) :
  fst (fst (CompleteSetup w)) = 200 ->
  exists x, system_settings (tabs (st w)) = Some x /\
    OIDCConfigured x || LDAPConfigured x = true /\ StorageConfigured x = true /\
    (exists e, PendingAdminEmail x = Some e /\ e <> "") /\
    system_settings (tabs (st (snd (CompleteSetup w)))) = Some (mark_completed x) /\
    snd (fst (CompleteSetup w)) <> BFeatureDone.
Proof.
  intros Hr. destruct (complete_ok w Hr) as (x & b & Hx & Hm & Hb & Ht).
  destruct (nothing_missing x Hm) as (E1 & E2 & E3). exists x. rewrite Hb. by repeat split.
Qed.

(** ** The test of an LDAP configuration *)

Lemma ldap_provider_ok input :
  validateLDAPInput input = None -> exists c, NewLDAPProvider (ldapInputToConfig input) = Ok c.
Proof.
  unfold validateLDAPInput, NewLDAPProvider. cbn. intros Hv.
  destruct (String.eqb (li_Host input) ""); [done|]. destruct (String.eqb (li_BindDN input) ""); [done|].
  destruct (String.eqb (li_BindPassword input) ""); [done|].
  destruct (String.eqb (li_BaseDN input) ""); [done|].
  destruct (String.eqb (li_UserFilter input) ""); [done|]. by eexists.
Qed.

(** The test of an LDAP configuration that passes validation reports a verified
    bind of the service account in every world, and touches nothing outside. *)
Theorem ldap_test_is_blind (input : LDAPConfigInput) (w : W) :
  validateLDAPInput input = None ->
  exists msg, TestLDAPConfig (Ok input) w = ((200, BTest true (ErrMsg msg)), w).
Proof.
  intros Hv. unfold TestLDAPConfig. rewrite Hv.
  destruct (ldap_provider_ok input Hv) as [c ->]. by eexists.
Qed.

(** ** Storage *)

Lemma deactivated (rows : list StorageConfig) :
  List.filter sc_IsActive (StorageConfigRepository.deactivate_all rows) = [].
Proof. by induction rows. Qed.

Lemma seal_field_tabs s (w : W) :
  tabs (st (snd (seal_field s w))) = tabs (st w) /\ faults (snd (seal_field s w)) = faults w.
Proof.
  unfold seal_field, bind. destruct (String.eqb s ""); [done|].
  destruct (out (Seal s) w) as [[enc|e] w1] eqn:E; cbn; by inversion E.
Qed.

(** The row is built active, from the next identifier. *)
Lemma build_active i c (w : W) :
  fst (buildEncryptedStorageConfig i w) = Ok c ->
  sc_IsActive c = true /\ sc_ID c = sunext (tabs (st w)) /\
  storage_config (tabs (st (snd (buildEncryptedStorageConfig i w)))) = storage_config (tabs (st w)) /\
  faults (snd (buildEncryptedStorageConfig i w)) = faults w.
Proof.
  unfold buildEncryptedStorageConfig, bind. destruct (draw_id w) as [id w1] eqn:Ed.
  assert (Hid : id = sunext (tabs (st w)) /\ storage_config (tabs (st w1)) = storage_config (tabs (st w))
                /\ faults w1 = faults w) by (by inversion Ed).
  clear Ed. destruct Hid as (<- & <- & <-). cbn [fst snd].
  repeat match goal with
  | |- context [String.eqb (si_BackendType i) ?t] => destruct (String.eqb (si_BackendType i) t)
  | |- context [seal_field ?s ?v] =>
      pose proof (seal_field_tabs s v) as [? ?]; destruct (seal_field s v) as [[?|?] ?]; cbn [fst snd] in *
  end; cbn; intros Hok; try done; injection Hok as <-; cbn; repeat split; congruence.
Qed.

(** After a storage configuration was saved by statements that all succeed, it is
    the one active configuration; the older ones are kept, inactive. *)
Theorem one_active_storage (input : StorageConfigInput) (w : W) (c : StorageConfigResponse) :
  faults w = [] -> fst (SaveStorageConfig (Ok input) w) = (200, BStorage c) ->
  exists row, ToResponse row = c /\ sc_IsActive row = true /\
    storage_config (tabs (st (snd (SaveStorageConfig (Ok input) w)))) =
      StorageConfigRepository.deactivate_all (storage_config (tabs (st w))) ++ [row] /\
    List.filter sc_IsActive (storage_config (tabs (st (snd (SaveStorageConfig (Ok input) w))))) = [row].
Proof.
  intros Hf. unfold SaveStorageConfig, bind.
  pose proof (fun row => build_active input row w) as Hb.
  destruct (buildEncryptedStorageConfig input w) as [[row|e] w1]; [|done]. cbn [fst snd] in *.
  destruct (Hb row eq_refl) as (Ha & _ & Hr & Hf1). rewrite Hf in Hf1.
  unfold StorageConfigRepository.DeactivateAllStorageConfigs, StorageConfigRepository.CreateStorageConfig, exec.
  rewrite (sql_quiet _ _ w1) by done. cbn [fst snd st tabs].
  rewrite sql_quiet by done. cbn [fst snd st tabs].
  destruct (List.existsb _ _); cbn; [done|].
  intros Hc. injection Hc as <-. exists row. rewrite Hr. split; [done|]. split; [done|].
  assert (Hfil : List.filter sc_IsActive
    (StorageConfigRepository.deactivate_all (storage_config (tabs (st w))) ++ [row]) = [row])
    by (rewrite List.filter_app, deactivated; cbn; by rewrite Ha).
  done.
Qed.

(** ** Restarts *)

(** What a successful save leaves in the table and in memory. *)
Lemma scanning_saved input (w : W) :
  fst (SaveScanningConfig (Ok input) w) = (200, BScanSaved) ->
  let w' := snd (SaveScanningConfig (Ok input) w) in
  IsValidScanningTool (ci_Tool input) = true /\
  inside_install_dir (sg_InstallDir (Scanning (around (st w)))) (ci_BinaryPath input) = true /\
  (forall x, system_settings (tabs (st w')) = Some x ->
     ScanningConfig x = Some (marshal_scanning input)) /\
  Scanning (around (st w')) = apply_scanning input (Scanning (around (st w))).
Proof.
  unfold SaveScanningConfig, bind, fail. destruct (IsValidScanningTool (ci_Tool input)); [|done].
  cbn [negb scanning gets fst snd].
  destruct (inside_install_dir _ _); [|done]. cbn [negb].
  assert (Ho : forall (c : prog Y (res unit)) (v : W), tabs (st (snd (out c v))) = tabs (st v) /\
    Scanning (around (st (snd (out c v)))) = Scanning (around (st v))) by done.
  specialize (Ho (Stat (ci_BinaryPath input)) w).
  destruct (out (Stat (ci_BinaryPath input)) w) as [[u|e] w1]; [|cbn; destruct (bool_decide _); by cbn].
  cbn [fst snd] in *. destruct Ho as [Ht Hs].
  unfold OIDCConfigRepository.SetScanningConfig, bind.
  set (w2 := snd (time_now w1)). set (now := fst (time_now w1)).
  assert (Hw2 : tabs (st w2) = tabs (st w) /\ Scanning (around (st w2)) = Scanning (around (st w)))
    by (split; [exact Ht | exact Hs]).
  destruct Hw2 as [Ht2 Hs2]. clearbody w2 now.
  unfold exec, sql, db. intros Hr.
  assert (Hset : forall x, system_settings (on_settings (with_scanning now (marshal_scanning input)) (tabs (st w2))) = Some x
            -> ScanningConfig x = Some (marshal_scanning input)).
  { intros x. cbn. destruct (system_settings (tabs (st w2))); [|done]. cbn. by intros [= <-]. }
  destruct (faults w2) as [|[] fs]; cbn in *; try done; do 2 (split; [done|]);
    (destruct (ci_Enabled input); cbn; by split).
Qed.

Lemma saved_quiet (w : W) x doc d :
  faults w = [] -> system_settings (tabs (st w)) = Some x -> ScanningConfig x = Some doc ->
  unmarshal_scanning doc = Ok d -> fst (saved_scanning w) = Some d /\ snd (saved_scanning w) = Env (st w) [] (clock w) (ticks w).
Proof.
  intros Hf Hx Hd Hu. unfold saved_scanning, bind, OIDCConfigRepository.GetScanningConfig,
    OIDCConfigRepository.column, query.
  rewrite sql_quiet by done. cbn. rewrite Hx. cbn. rewrite Hd, Hu. split; [done|]. by destruct (st w).
Qed.

(** A restart takes over the scanner that was saved: tool, binary, pinned version and
    a given timeout are those of the running process.  The automatic updates, the severity
    threshold and an omitted worker count are lost. *)
Theorem restart_after_save `{!SetupCodecLaws} (input : SaveScanningConfigInput) (w w2 : W) (x : SystemSettings) :
  ci_Enabled input = true -> fst (SaveScanningConfig (Ok input) w) = (200, BScanSaved) ->
  tabs (st w2) = tabs (st (snd (SaveScanningConfig (Ok input) w))) ->
  system_settings (tabs (st w2)) = Some x ->
  faults w2 = [] -> sg_Enabled (Scanning (around (st w2))) = false ->
  let running := Scanning (around (st (snd (SaveScanningConfig (Ok input) w)))) in
  let loaded := Scanning (around (st (snd (reloadScanningConfigFromDB w2)))) in
  sg_Enabled loaded = true /\ sg_Tool loaded = sg_Tool running /\
  sg_BinaryPath loaded = sg_BinaryPath running /\
  sg_ExpectedVersion loaded = sg_ExpectedVersion running /\
  (0 < ci_TimeoutSecs input -> sg_Timeout loaded = sg_Timeout running) /\
  sg_WorkerCount loaded = ci_WorkerCount input /\
  sg_SeverityThreshold loaded = "" /\ sg_AutoUpdate loaded = no_auto_update.
Proof.
  intros He Hr Ht Hx Hf Hd. cbn zeta. destruct (scanning_saved input w Hr) as (Hv & _ & Hdoc & ->).
  rewrite Ht in Hx. specialize (Hdoc x Hx). rewrite <- Ht in Hx.
  pose proof (scanning_roundtrip input) as Hu.
  unfold reloadScanningConfigFromDB, bind. cbn [scanning gets fst snd]. rewrite Hd.
  destruct (saved_quiet w2 x _ _ Hf Hx Hdoc Hu) as [E1 E2].
  destruct (saved_scanning w2) as [d w3]. cbn [fst snd] in *. subst d w3. cbn [fst snd set_scanning on_proc modify].
  match goal with |- context [saved_scanning ?v] =>
    destruct (saved_quiet v x _ _ eq_refl Hx Hdoc Hu) as [E1 E2]; destruct (saved_scanning v) as [d w4] end.
  cbn [fst snd] in *. subst d w4. cbn. unfold take_over. cbn. rewrite He, Hv. cbn.
  repeat split. intros Hp. by replace (0 <? ci_TimeoutSecs input) with true by (symmetry; by apply Z.ltb_lt).
Qed.

(** The configuration of LDAP is written and never read: no start-up step installs
    a provider for it. *)
Lemma startup_ignores_ldap (w : W) :
  ldapProvider (around (st (snd ((run! reloadScanningConfigFromDB in run! applyPersistedOIDCProvider
    in handleSetupToken) w)))) = ldapProvider (around (st w)).
Proof.
  set (R := fun s s' : beside sudb (proc Y) => ldapProvider (around s) = ldapProvider (around s')).
  assert (HR : PreOrder R) by (split; [by intros s | by intros s1 s2 s3 ? ?; unfold R in *; congruence]).
  assert (Hsql : forall A op (f : sudb -> res A * sudb), preserves (on_st R) (sql (Y := proc Y) op f))
    by (intros A op f v; unfold on_st, sql, db; by destruct (faults v) as [|[] fs]).
  enough (Hp : preserves (on_st R) (run! reloadScanningConfigFromDB in run! applyPersistedOIDCProvider
    in handleSetupToken)) by (symmetry; apply Hp).
  unfold reloadScanningConfigFromDB, applyPersistedOIDCProvider, handleSetupToken, mint_token,
    featureSetupRearmAllowed, saved_scanning, set_scanning, SetOIDCProvider, scanning.
  repeat (case_match || first
    [ apply preserves_ret; typeclasses eauto | apply Hsql | (intros v; reflexivity)
    | apply preserves_bind; [typeclasses eauto | | intros] ]).
Qed.

(** ** The token *)

Lemma mint_token_ok (w : W) (token : string) :
  fst (mint_token w) = Ok (Some token) ->
  (forall x, system_settings (tabs (st w)) = Some x -> default "" (SetupTokenHash x) = "") /\
  exists hash y, fst (GenerateFromPassword token y) = Ok hash /\
    forall x, system_settings (tabs (st (snd (mint_token w)))) = Some x -> SetupTokenHash x = Some hash.
Proof.
  unfold mint_token, bind, OIDCConfigRepository.GetSetupTokenHash, OIDCConfigRepository.column.
  match goal with |- context [query ?o ?f w] => pose proof (query_st o f w) as [Hs Hq];
    destruct (query o f w) as [h w1] end.
  cbn [fst snd] in *. destruct h as [existing|e]; [|done].
  destruct (String.eqb_spec existing "") as [->|]; [|done]. cbn [negb].
  destruct (out rand_token w1) as [[encoded|e] w2]; [|done]. cbn [fst snd].
  set (raw := "tfr_setup_" +:+ encoded).
  assert (Hg : exists y, fst (GenerateFromPassword raw y) = fst (out (GenerateFromPassword raw) w2))
    by (by exists (world (around (st w2)))).
  destruct Hg as [y Hg].
  destruct (out (GenerateFromPassword raw) w2) as [[hash|e] w3]; [|done]. cbn [fst snd] in *.
  unfold OIDCConfigRepository.SetSetupTokenHash.
  pose proof (exec_ok "SetSetupTokenHash" (on_settings (with_token_hash hash)) w3 tt) as He.
  destruct (exec _ _ w3) as [[[]|e] w4]; [|done]. cbn [fst snd] in *. specialize (He eq_refl).
  intros Hr. assert (Htok : token = raw) by (destruct (_ || _) in Hr; cbn in Hr; congruence).
  subst token. split.
  - intros x Hx. destruct Hq as [Hq|Hq]; [|done]. rewrite Hx in Hq. congruence.
  - exists hash, y. split; [done|]. intros x.
    assert (Hset : system_settings (tabs (st w4)) = Some x -> SetupTokenHash x = Some hash).
    { rewrite He. cbn. destruct (system_settings (tabs (st w3))); [|done]. by intros [= <-]. }
    by destruct (_ || _).
Qed.

(** A start mints a token only while the setup is open, or when a feature is pending
    and the operator opted in; only where no hash is stored; and then the stored hash is
    that of the token it prints. *)
Theorem token_minted_when_due (w : W) (token : string) :
  fst (handleSetupToken w) = Ok (Some token) ->
  (completed (tabs (st w)) -> pending (tabs (st w)) /\
     getenv "TFR_ALLOW_FEATURE_SETUP_REARM" (world (around (st w))) = "true") /\
  (forall x, system_settings (tabs (st w)) = Some x -> default "" (SetupTokenHash x) = "") /\
  exists hash y, fst (GenerateFromPassword token y) = Ok hash /\
    forall x, system_settings (tabs (st (snd (handleSetupToken w)))) = Some x -> SetupTokenHash x = Some hash.
Proof.
  unfold handleSetupToken, bind, OIDCConfigRepository.IsSetupCompleted,
    OIDCConfigRepository.HasPendingFeatureSetup, OIDCConfigRepository.column.
  match goal with |- context [query ?o ?f w] => pose proof (query_st o f w) as [Hs Hq];
    destruct (query o f w) as [c w1] end.
  cbn [fst snd] in *. destruct c as [[]|e]; [| |done].
  - match goal with |- context [query ?o ?f w1] => pose proof (query_st o f w1) as [Hs2 Hq2];
      destruct (query o f w1) as [p w2] end.
    cbn [fst snd] in *. destruct p as [[]|e]; [| done | done].
    unfold featureSetupRearmAllowed, gets. cbn [fst snd].
    destruct (String.eqb_spec (getenv "TFR_ALLOW_FEATURE_SETUP_REARM" (world (around (st w2)))) "true")
      as [Ho|]; [|done].
    intros Hm. destruct (mint_token_ok w2 token Hm) as (E1 & E2). rewrite Hs2, Hs in *.
    split; [|done]. intros _. split; [|done].
    destruct Hq2 as [Hq2|Hq2]; [|done]. destruct (system_settings (tabs (st w))) as [x|] eqn:Ex; [|done].
    injection Hq2 as Hb. symmetry in Hb. apply andb_prop in Hb as [Hc Hp].
    apply negb_true_iff in Hp. by exists x.
  - intros Hm. destruct (mint_token_ok w1 token Hm) as (E1 & E2). rewrite Hs in *.
    split; [|done]. intros (x & Hx & Hc). destruct Hq as [Hq|Hq]; [|done]. rewrite Hx in Hq. congruence.
Qed.
End Safety.

(** ** A concrete world *)

Module Demo.
(** The outside is the journal of what was written there. *)
Definition journal : Type := list string.
Definition note {A} (line : string) (a : A) : prog journal A := fun y => (a, y ++ [line])%list.

#[export] Instance identity : IdentityStore journal := {|
  GetDefaultOrganization := ret (Ok (Some ("org", "Default")));
  CreateUser email _ := note ("user " +:+ email) (Ok email);
  GetUserByEmail email := ret (Ok (Some email));
  AddMemberWithParams _ u role := note ("member " +:+ u +:+ " " +:+ role) (Ok tt);
  UpdateMemberRole _ u role := note ("role " +:+ u +:+ " " +:+ role) (Ok tt);
  CreateOIDCConfig row := note ("oidc " +:+ or_IssuerURL row) (Ok tt);
  GetActiveOIDCConfig := ret (Ok None);
  NewProviderWithContext _ := ret (Ok 7%nat) |}.

#[export] Instance secrets : Secrets journal := {|
  CompareHashAndPassword hash token := String.eqb hash ("hash:" +:+ token);
  GenerateFromPassword token := ret (Ok ("hash:" +:+ token));
  rand_token := ret (Ok "abc");
  Seal s := ret (Ok ("sealed:" +:+ s));
  Open s := Ok (trim_prefix s "sealed:") |}.

#[export] Instance host : Host journal := {|
  Stat _ := ret (Ok tt);
  scanner_version _ _ := ret (Ok "0.50.0");
  NewStorage _ := ret (Ok O);
  Exists _ _ := ret (Ok true);
  installer_Handle _ tool v := ret (Ok (v, "/opt/scanners/" +:+ tool));
  getenv _ _ := "";
  WriteFile path _ := note ("file " +:+ path) (Ok tt);
  PutTheme := note "theme" (200, BTokenValid) |}.

(** A document is the bits of its fields. *)
Fixpoint bits (p : positive) : string :=
  match p with xH => "" | xO q => String "0" (bits q) | xI q => String "1" (bits q) end.
Fixpoint unbits (s : string) : positive :=
  match s with
  | "" => xH
  | String c s' => if Ascii.eqb c "1" then xI (unbits s') else xO (unbits s')
  end%string.

Lemma unbits_bits p : unbits (bits p) = p.
Proof. induction p; cbn; by rewrite ?IHp. Qed.

Definition fields (i : SaveScanningConfigInput) :=
  (ci_Enabled i, ci_Tool i, ci_BinaryPath i, ci_ExpectedVersion i, ci_TimeoutSecs i, ci_WorkerCount i).
Definition of_fields (t : bool * string * string * string * Z * Z) : SaveScanningConfigInput :=
  let '(e, tool, path, v, secs, n) := t in
  {| ci_Enabled := e; ci_Tool := tool; ci_BinaryPath := path; ci_ExpectedVersion := v;
     ci_TimeoutSecs := secs; ci_WorkerCount := n |}.

#[export] Instance codec : SetupCodec := {|
  marshal_scanning i := bits (encode (fields i));
  unmarshal_scanning s := match decode (unbits s) with
                          | Some t => Ok (db_of_input (of_fields t))
                          | None => Err (ErrMsg "invalid document")
                          end;
  marshal_ldap i sealed := li_Host i +:+ " " +:+ sealed |}.

#[export] Instance codec_laws : SetupCodecLaws.
Proof. intros i. cbn. rewrite unbits_bits, decode_encode. by destruct i. Qed.

Definition settings (done scanned : bool) (hash : option string) : SystemSettings := {|
  StorageConfigured := true; StorageConfiguredAt := None; StorageConfiguredBy := None;
  SetupCompleted := done; SetupTokenHash := hash; OIDCConfigured := true;
  PendingAdminEmail := Some "root@example.com"; ScanningConfigured := scanned;
  ScanningConfiguredAt := None; ScanningConfig := None; AuthMethod := "oidc";
  LDAPConfigured := false; LDAPConfiguredAt := None; LDAPConfig := None;
  NotificationsConfigured := false; NotificationsConfiguredAt := None; NotificationsConfig := None;
  AuditRetentionDays := 90 |}.

Definition file_config : ScanningConfiguration := {|
  sg_Enabled := false; sg_Tool := ""; sg_BinaryPath := ""; sg_ExpectedVersion := "";
  sg_SeverityThreshold := "HIGH"; sg_Timeout := 300 * 10 ^ 9; sg_WorkerCount := 2;
  sg_ScanIntervalMins := 5; sg_InstallDir := "/opt/scanners";
  sg_AutoUpdate := {| au_Enabled := true; au_IntervalHours := 24; au_RequiresApproval := true;
                      au_AutoApproveRules := "" |} |}.

Definition process : proc journal := Proc ∅ (Some 1%nat) None file_config 0 [].

Definition server (x : SystemSettings) (fs : list bool) : env (beside sudb (proc journal)) :=
  Env (Beside (SUDB (Some x) [] 1%nat) process) fs 0 [].

Definition open_setup := settings false false (Some "hash:tfr_setup_abc").
(** Completed, the scanners pending, a token minted again. *)
Definition rearmed := settings true false (Some "hash:tfr_setup_abc").

Definition ask (token : string) (r : route) : request := {|
  rq_ClientIP := "192.0.2.7"; rq_Authorization := "SetupToken " +:+ token; rq_route := r |}.

Definition scan_input (workers : Z) : SaveScanningConfigInput := {|
  ci_Enabled := true; ci_Tool := "trivy"; ci_BinaryPath := "/opt/scanners/trivy";
  ci_ExpectedVersion := "0.50.0"; ci_TimeoutSecs := 60; ci_WorkerCount := workers |}.

Definition ldap_input : LDAPConfigInput := {|
  li_Host := "ldap.example.com"; li_Port := 0; li_UseTLS := true; li_StartTLS := false;
  li_InsecureSkipVerify := false; li_BindDN := "cn=svc"; li_BindPassword := "secret";
  li_BaseDN := "dc=example"; li_UserFilter := "(uid=%s)"; li_UserAttrEmail := "";
  li_UserAttrName := ""; li_GroupBaseDN := ""; li_GroupFilter := ""; li_GroupMemberAttr := "" |}.

Definition local_input : StorageConfigInput := {|
  si_BackendType := "local"; si_LocalBasePath := "/data"; si_LocalServeDirectly := Some true;
  si_AzureAccountName := ""; si_AzureAccountKey := ""; si_AzureContainerName := "";
  si_AzureCDNURL := ""; si_S3Endpoint := ""; si_S3Region := ""; si_S3Bucket := "";
  si_S3AuthMethod := ""; si_S3AccessKeyID := ""; si_S3SecretAccessKey := ""; si_S3RoleARN := "";
  si_S3RoleSessionName := ""; si_S3ExternalID := ""; si_S3WebIdentityTokenFile := "";
  si_GCSBucket := ""; si_GCSProjectID := ""; si_GCSAuthMethod := ""; si_GCSCredentialsFile := "";
  si_GCSCredentialsJSON := ""; si_GCSEndpoint := "" |}.
End Demo.

Import Demo.

Lemma setup_needs_the_token_witness :
  refusal (fst (serve (ask "guess" RComplete) (server open_setup []))).
Proof.
  apply (setup_needs_the_token (ask "guess" RComplete) (server open_setup [])); [done|].
  intros (scheme & token & x & hash & E0 & E1 & E2 & E3 & _ & E4).
  vm_compute in E2. injection E2 as <-. vm_compute in E3. injection E3 as <-.
  cbn in E0.
  do 10 (destruct scheme as [|? scheme]; [done|]). destruct scheme; [|done].
  injection E0. rewrite !append_nil_l. intros. subst. vm_compute in E4. done.
Defined.

(** The feature is set up with the right token; the hash is still there, and the last
    step is refused. *)
Definition rearmed_requests : list request :=
  [ask "tfr_setup_abc" (RAdmin (Ok "mallory@example.com")); ask "tfr_setup_abc" (RScanning (Ok (scan_input 0)));
   ask "tfr_setup_abc" RComplete].

Lemma completed_setup_is_sealed_witness :
  sealed eq (st (server rearmed []))
    (st (snd (for_each rearmed_requests (fun r => run! serve r in ret tt) (server rearmed [])))).
Proof.
  apply (completed_setup_is_sealed eq rearmed_requests (server rearmed [])); try done.
  exists rearmed. by split.
Defined.

Example rearmed_token_survives :
  let w1 := snd (serve (ask "tfr_setup_abc" (RScanning (Ok (scan_input 0)))) (server rearmed [])) in
  fst (serve (ask "tfr_setup_abc" RComplete) (server rearmed [])) =
    (400, BMissing ["security scanning"]) /\
  fst (fst (serve (ask "tfr_setup_abc" RComplete) w1)) = 403 /\
  (SetupTokenHash <$> system_settings (tabs (st (snd (serve (ask "tfr_setup_abc" RComplete) w1))))) =
    Some (Some "hash:tfr_setup_abc").
Proof. vm_compute. repeat split. Qed.

Definition seven_guesses : list request := repeat (ask "guess" RValidate) 7.

Lemma guesses_per_minute_witness :
  (fst (guesses "192.0.2.7" seven_guesses (server open_setup [])) <= setupMaxAttempts)%nat.
Proof. apply guesses_per_minute. vm_compute. reflexivity. Defined.

Lemma complete_needs_everything_witness :
  exists x, system_settings (tabs (st (server open_setup []))) = Some x /\
    OIDCConfigured x || LDAPConfigured x = true.
Proof.
  destruct (complete_needs_everything (server open_setup []) eq_refl) as (x & E1 & E2 & _).
  by exists x.
Defined.

Lemma ldap_test_is_blind_witness :
  exists msg, fst (TestLDAPConfig (Ok ldap_input) (server open_setup [])) = (200, BTest true (ErrMsg msg)).
Proof.
  destruct (ldap_test_is_blind ldap_input (server open_setup []) eq_refl) as [msg E].
  exists msg. by rewrite E.
Defined.

Lemma one_active_storage_witness :
  List.length (List.filter sc_IsActive (storage_config (tabs (st
    (snd (SaveStorageConfig (Ok local_input) (server open_setup []))))))) = 1%nat.
Proof.
  destruct (one_active_storage local_input (server open_setup [])
    (ToResponse (local_storage 1%nat local_input)) eq_refl eq_refl) as (row & _ & _ & _ & E).
  by rewrite E.
Defined.

(** The deactivation fails, the save does not: two configurations are active. *)
Example two_active_storages :
  let w1 := snd (SaveStorageConfig (Ok local_input) (server open_setup [])) in
  let r := SaveStorageConfig (Ok local_input) (Env (st w1) [true] 0 []) in
  fst (fst r) = 200 /\
  List.length (List.filter sc_IsActive (storage_config (tabs (st (snd r))))) = 2%nat.
Proof. vm_compute. by split. Qed.

Lemma restart_after_save_witness :
  let w := server open_setup [] in
  let w2 := Env (Beside (tabs (st (snd (SaveScanningConfig (Ok (scan_input 0)) w)))) process) [] 0 [] in
  sg_WorkerCount (Scanning (around (st (snd (SaveScanningConfig (Ok (scan_input 0)) w))))) = 2 /\
  sg_WorkerCount (Scanning (around (st (snd (reloadScanningConfigFromDB w2))))) = 0.
Proof.
  cbn zeta. split; [vm_compute; reflexivity|].
  set (x := with_scanning 0 (marshal_scanning (scan_input 0)) open_setup).
  edestruct (restart_after_save (scan_input 0) (server open_setup []) (Env (Beside (tabs (st
    (snd (SaveScanningConfig (Ok (scan_input 0)) (server open_setup []))))) process) [] 0 []) x)
    as (_ & _ & _ & _ & _ & E & _); [vm_compute; reflexivity.. | exact E].
Defined.

Lemma token_minted_when_due_witness :
  exists hash y, fst (GenerateFromPassword (Y := journal) "tfr_setup_abc" y) = Ok hash.
Proof.
  destruct (token_minted_when_due (server (settings false false None) []) "tfr_setup_abc")
    as (_ & _ & hash & y & E & _); [vm_compute; reflexivity|].
  by exists hash, y.
Defined.
