(* ===== verification/Installer.v ===== *)
(** * The installer of scanner binaries

    [internal/scanner/installer]: the catalog of releases, the choice of the assets,
    download, checksum and signature checks, extraction and the switch of the
    [{tool}] link.  Files live on the tree of [Os]; the one symbolic link the package
    makes per tool is kept beside it, and nothing is opened through it.  Downloads
    are [Http] calls; a body that breaks off leaves nothing in the file it was
    copied to (that file is in the temporary directory).  Deadlines are left out. *)

From S2P Require Import Prelude GoStrings Filepath Regexp TfReleases TfMirrorSync Checksums Os Archive Tables.

#[local] Open Scope Z_scope.

(** ** The catalog *)

(** A pattern is the alternatives of an anchored expression. *)
Definition pattern : Type := list (list item).

Definition MatchString (p : pattern) (s : string) : bool :=
  List.existsb (fun r => match find_submatch r s with Some _ => true | None => false end) p.

Record SignatureSpec := {
  sp_Type : string;
  sp_Identity : string;
  sp_Issuer : string;
  sp_KeyURL : string;
  sp_Fingerprint : string;
}.

Record AssetSpec := {
  LatestReleaseAPI : string;
  VersionedAPI : string;
  AssetPattern : pattern;
  ChecksumsPattern : option pattern;
  SignaturePattern : option pattern;
  Signature : SignatureSpec;
  UseAssetDigest : bool;
  BinaryInArchive : string;
  ArchiveFormat : string;
}.

Definition trivySignature : SignatureSpec := {|
  sp_Type := "sigstore";
  sp_Identity := "https://github.com/aquasecurity/trivy/.github/workflows/reusable-release.yaml@refs/tags/v%s";
  sp_Issuer := "https://token.actions.githubusercontent.com"; sp_KeyURL := ""; sp_Fingerprint := "" |}.

Definition noSignature : SignatureSpec := {|
  sp_Type := "none"; sp_Identity := ""; sp_Issuer := ""; sp_KeyURL := ""; sp_Fingerprint := "" |}.

(** [[\d.]+] *)
Definition dotted : list item := re_plus true (fun c => re_digit c || Ascii.eqb c ".").

Definition trivy_spec (asset : string) : AssetSpec := {|
  LatestReleaseAPI := "https://api.github.com/repos/aquasecurity/trivy/releases/latest";
  VersionedAPI := "https://api.github.com/repos/aquasecurity/trivy/releases/tags/v%s";
  AssetPattern := [Lit "trivy_" :: dotted ++ [Lit asset]];
  ChecksumsPattern := Some [Lit "trivy_" :: dotted ++ [Lit "_checksums.txt"]];
  SignaturePattern := Some [Lit "trivy_" :: dotted ++ [Lit "_checksums.txt.sigstore.json"]];
  Signature := trivySignature; UseAssetDigest := false; BinaryInArchive := "trivy";
  ArchiveFormat := "tar.gz" |}.

Definition terrascan_spec (asset : string) : AssetSpec := {|
  LatestReleaseAPI := "https://api.github.com/repos/tenable/terrascan/releases/latest";
  VersionedAPI := "https://api.github.com/repos/tenable/terrascan/releases/tags/v%s";
  AssetPattern := [Lit "terrascan_" :: dotted ++ [Lit asset]];
  ChecksumsPattern := Some [Lit "terrascan_" :: dotted ++ [Lit "_checksums.txt"]; [Lit "checksums.txt"]];
  SignaturePattern := None; Signature := noSignature; UseAssetDigest := false;
  BinaryInArchive := "terrascan"; ArchiveFormat := "tar.gz" |}.

Definition checkov_spec (asset : string) : AssetSpec := {|
  LatestReleaseAPI := "https://api.github.com/repos/bridgecrewio/checkov/releases/latest";
  VersionedAPI := "https://api.github.com/repos/bridgecrewio/checkov/releases/tags/%s";
  AssetPattern := [[Lit asset]];
  ChecksumsPattern := None; SignaturePattern := None; Signature := noSignature;
  UseAssetDigest := true; BinaryInArchive := "checkov"; ArchiveFormat := "zip" |}.

(** By tool, then by platform. *)
Definition Catalog : list (string * list (string * AssetSpec)) :=
  [("trivy", [("linux/amd64", trivy_spec "_Linux-64bit.tar.gz");
              ("linux/arm64", trivy_spec "_Linux-ARM64.tar.gz");
              ("darwin/amd64", trivy_spec "_macOS-64bit.tar.gz");
              ("darwin/arm64", trivy_spec "_macOS-ARM64.tar.gz")]);
   ("terrascan", [("linux/amd64", terrascan_spec "_Linux_x86_64.tar.gz");
                  ("linux/arm64", terrascan_spec "_Linux_arm64.tar.gz");
                  ("darwin/amd64", terrascan_spec "_Darwin_x86_64.tar.gz");
                  ("darwin/arm64", terrascan_spec "_Darwin_arm64.tar.gz")]);
   ("checkov", [("linux/amd64", checkov_spec "checkov_linux_X86_64.zip");
                ("linux/arm64", checkov_spec "checkov_linux_arm64.zip");
                ("darwin/amd64", checkov_spec "checkov_darwin_X86_64.zip");
                ("darwin/arm64", checkov_spec "checkov_darwin_arm64.zip")])].

Fixpoint assoc {A} (k : string) (l : list (string * A)) : option A :=
  match l with
  | [] => None
  | (k', a) :: l' => if String.eqb k k' then Some a else assoc k l'
  end.

Definition Lookup (tool goos goarch : string) : option AssetSpec :=
  match assoc tool Catalog with
  | None => None
  | Some platforms => assoc (goos +:+ "/" +:+ goarch) platforms
  end.

Definition Supports (tool : string) : bool :=
  match assoc tool Catalog with Some _ => true | None => false end.

(** ** Releases and configurations *)

Record ghAsset := {
  ga_Name : string;
  ga_BrowserDownloadURL : string;
  ga_Digest : string;
}.
Record ghRelease := { gr_TagName : string; gr_Assets : list ghAsset }.

Record Result := {
  rs_BinaryPath : string;
  rs_Version : string;
  rs_Sha256 : string;
  rs_SourceURL : string;
  rs_SignatureVerified : bool;
  rs_SignatureType : string;
}.

Record LatestInfo := {
  lf_Tool : string;
  lf_LatestVersion : string;
  lf_ArchiveURL : string;
  lf_ChecksumsURL : string;
  lf_SignatureURL : string;
  lf_SignatureSupported : bool;
}.

Definition ErrUnsupportedTool := ErrSentinel "scanner tool not supported for auto-install".
Definition ErrUnsupportedPlatform := ErrSentinel "server OS/architecture is not supported for this tool".
Definition ErrChecksumMismatch := ErrSentinel "downloaded archive does not match published checksum".
Definition ErrAssetNotFound := ErrSentinel "no matching asset for this OS/arch in the release".
Definition ErrInstallDirNotWritable := ErrSentinel "install directory is not writable".
Definition ErrNonHTTPS := ErrSentinel "refusing to download from non-HTTPS URL".
Definition ErrArchiveTooLarge := ErrSentinel "archive exceeds size cap".
Definition ErrPathTraversal := ErrSentinel "archive contains a path-traversal entry".
Definition ErrUnsafePath := ErrSentinel "unsafe path component in a download name or version".
Definition errTrustRootUnavailable := ErrSentinel "sigstore trusted root unavailable".

Definition maxArchiveSize : Z := Z.shiftl 500 20.
Definition maxFileSize : Z := Z.shiftl 200 20.
Definition maxChecksumsSize : Z := Z.shiftl 8 10.
Definition maxSigBundleSize : Z := Z.shiftl 1 20.
Definition maxReleaseJSONSize : Z := Z.shiftl 1 20.

(** ** Interfaces *)

(** [archive/zip]: the entries with what opening and reading them gives. *)
Class Zip := open_zip : string -> res (list (string * res reader)).

(** [encoding/json] on a release, [goversion.NewSemver], the Sigstore verifier (bundle,
    artifact, identity, issuer) and the detached OpenPGP check (key, data, signature). *)
Class InstallerLibs := {
  decode_gh_release : string -> res ghRelease;
  NewSemver : string -> bool;
  sigstoreVerify : string -> string -> string -> string -> option gerror;
  gpg_verify : string -> string -> string -> option gerror;
}.

(** Random suffixes, and the fetched and pinned signing key. *)
Class InstallerWorld (Y : Type) := {
  rand_suffix : prog Y string;
  fetch_key : string -> string -> prog Y (res string);
}.

Record disk := Disk {
  files : fs;
  (** the symbolic links by their path *)
  links : gmap string string;
}.

(** ** Pure helpers *)

(** [fmt.Sprintf] with one [%s]. *)
Definition sprintf1 (fmt v : string) : string :=
  match cut_sub "%s" fmt with Some (b, a) => b +:+ v +:+ a | None => fmt end.

Definition find_asset (p : option pattern) (assets : list ghAsset) : option ghAsset :=
  match p with
  | None => None
  | Some p => List.find (fun a => MatchString p (ga_Name a)) assets
  end.

(** The archive, the checksums and the signature. *)
Definition matchAssets (spec : AssetSpec) (release : ghRelease)
  : option ghAsset * option ghAsset * option ghAsset :=
  (find_asset (Some (AssetPattern spec)) (gr_Assets release),
   find_asset (ChecksumsPattern spec) (gr_Assets release),
   find_asset (SignaturePattern spec) (gr_Assets release)).

Definition safeChildPath (dir name : string) : res string :=
  if String.eqb name "" || contains_any name "/\" || contains name ".."
  then Err (ErrWrap name ErrUnsafePath)
  else
    let p := Filepath.Join dir name in
    if negb (has_prefix p (Clean dir +:+ "/")) then Err (ErrWrap name ErrUnsafePath) else Ok p.

(** [filepath.Base] *)
Definition Base (path : string) : string :=
  if String.eqb path "" then "."
  else let t := trim_slashes path in
       if String.eqb t "" then "/" else List.last (split_on "/" t) "".

Definition is_hex (c : ascii) : bool :=
  re_digit c || in_range "a" "f" c || in_range "A" "F" c.

(** [hex.DecodeString]; bytes are written in lower-case hex. *)
Definition hex_decode (s : string) : option string :=
  if Nat.even (String.length s) && forallb is_hex (String.list_ascii_of_string s) then Some (to_lower s) else None.

Definition isHTTPS (u : string) : bool := has_prefix u "https://".

Definition verifyAssetDigest (digest archiveHash : string) : option gerror :=
  if negb (has_prefix digest "sha256:") then Some (ErrWrap digest ErrChecksumMismatch)
  else match hex_decode (trim_prefix digest "sha256:") with
       | None => Some (ErrWrap digest ErrChecksumMismatch)
       | Some expected =>
           if String.eqb expected archiveHash then None else Some (ErrWrap digest ErrChecksumMismatch)
       end.

(** A line of a checksums file decides, or is passed over ([None]). *)
Definition checksum_line (archiveName archiveHash line : string) : option (option gerror) :=
  let parts := fields (trim_space line) in
  match parts with
  | [] => None
  | [hash] =>
      match hex_decode hash with
      | None => None
      | Some expected =>
          Some (if String.eqb expected archiveHash then None else Some (ErrWrap hash ErrChecksumMismatch))
      end
  | hash :: _ =>
      if String.eqb (trim_prefix (List.last parts "") "*") archiveName then
        Some (match hex_decode hash with
              | None => Some (ErrMsg ("malformed checksum line: " +:+ line))
              | Some expected =>
                  if String.eqb expected archiveHash then None else Some (ErrWrap hash ErrChecksumMismatch)
              end)
      else None
  end.

Fixpoint checksum_lines (archiveName archiveHash : string) (lines : list string) : option gerror :=
  match lines with
  | [] => Some (ErrWrap archiveName ErrChecksumMismatch)
  | line :: lines' =>
      match checksum_line archiveName archiveHash line with
      | Some verdict => verdict
      | None => checksum_lines archiveName archiveHash lines'
      end
  end.

(** The check of an entry's name. *)
Definition entry_unsafe (name : string) : bool :=
  contains (Clean name) ".." || IsAbs (Clean name) || has_prefix name "/".

Definition is_target (targetEntry name : string) : bool :=
  String.eqb (Base name) targetEntry || String.eqb name targetEntry.

(** The body of the first matching entry. *)
Fixpoint tar_entry (targetEntry : string) (entries : list entry) (eof : option gerror) : res reader :=
  match entries with
  | [] => match eof with
          | None => Err (ErrWrap targetEntry ErrAssetNotFound)
          | Some e => Err (ErrWrap "tar read" e)
          end
  | header :: entries' =>
      if entry_unsafe (Name header) then Err (ErrWrap (Name header) ErrPathTraversal)
      else if is_target targetEntry (Name header) then Ok (body header)
      else match skip_error 0 (body header) with
           | Some e => Err (ErrWrap "tar read" e)
           | None => tar_entry targetEntry entries' eof
           end
  end.

Fixpoint zip_entry (targetEntry : string) (entries : list (string * res reader)) : res reader :=
  match entries with
  | [] => Err (ErrWrap targetEntry ErrAssetNotFound)
  | (name, content) :: entries' =>
      if entry_unsafe name then Err (ErrWrap name ErrPathTraversal)
      else if is_target targetEntry name then
        match content with Ok r => Ok r | Err e => Err (ErrWrap "zip entry open" e) end
      else zip_entry targetEntry entries'
  end.

Definition binary_of `{TarGz} `{Zip} (format targetEntry archive : string) : res reader :=
  if String.eqb format "tar.gz" then
    match open_targz archive with
    | Err e => Err (ErrWrap "gzip open" e)
    | Ok (entries, eof) => tar_entry targetEntry entries eof
    end
  else if String.eqb format "zip" then
    match open_zip archive with
    | Err e => Err (ErrWrap "zip open" e)
    | Ok entries => zip_entry targetEntry entries
    end
  else Err (ErrMsg ("unsupported archive format: " +:+ format)).

(** ** The installer *)

Section Install.
Context {Y : Type} `{Http Y} `{InstallerWorld Y} `{InstallerLibs} `{Sha256} `{TarGz} `{Zip}.
Context (cwd : list string) (goos goarch : string).
#[local] Abbreviation P := (prog (env (beside disk Y))).

(** A call on the file system. *)
Definition on_files {A} (c : prog (env fs) A) : P A := fun w =>
  let d := tabs (st w) in
  let r := c (Env (files d) (faults w) (clock w) (ticks w)) in
  let w' := snd r in
  (fst r, Env (Beside (Disk (st w') (links d)) (around (st w))) (faults w') (clock w') (ticks w')).

(** [os.RemoveAll] *)
Definition remove_tree (p : list string) : prog (env fs) (res unit) :=
  call "removeall" (fun t => (Ok tt, filter (fun kv => take (length p) (fst kv) <> p) t)).
Definition RemoveAll (path : string) : P (res unit) := on_files (on_path cwd path remove_tree).

(** [os.Mkdir] *)
Definition mkdir_new (p : list string) : prog (env fs) (res unit) :=
  call "mkdir" (fun t =>
    match stat_at t p with
    | Ok _ => (Err (ErrExt "EEXIST"), t)
    | Err e =>
        match stat_at t (removelast p) with
        | Ok Os.Dir => (Ok tt, <[p := Os.Dir]> t)
        | Ok (File _) => (Err (ErrExt "ENOTDIR"), t)
        | Err e' => (Err e', t)
        end
    end).

(** [os.MkdirTemp]; the suffix is drawn so that the name is new. *)
Definition MkdirTemp (dir prefix : string) : P (res string) :=
  let! sfx := outward rand_suffix in
  let path := Filepath.Join dir (prefix +:+ sfx) in
  let? _m := on_files (on_path cwd path mkdir_new) in
  ret (Ok path).

Definition ensureWritableDir (dir : string) : P (res unit) :=
  if String.eqb dir "" then ret (Err ErrInstallDirNotWritable)
  else
    let! m := on_files (MkdirAll cwd dir) in
    match m with
    | Err e => ret (Err (ErrWrap "mkdir" ErrInstallDirNotWritable))
    | Ok _ =>
        let probe := Filepath.Join dir ".write-probe" in
        let! f := on_files (Create cwd probe) in
        match f with
        | Err e => ret (Err (ErrWrap "probe" ErrInstallDirNotWritable))
        | Ok _ => run! on_files (Remove cwd probe) in ret (Ok tt)
        end
    end.

(** A GET whose status must be 200. *)
Definition get_ok (what u : string) : P (res (res string)) :=
  let! r := outward (http_get u) in
  match r with
  | Err e => ret (Err e)
  | Ok (status, content) =>
      if negb (status =? 200) then ret (Err (ErrMsg (what +:+ ": HTTP error"))) else ret (Ok content)
  end.

Definition resolveRelease (spec : AssetSpec) (pinnedVersion : string) : P (res ghRelease) :=
  let v := trim_prefix pinnedVersion "v" in
  if negb (String.eqb pinnedVersion "") && negb (NewSemver v)
  then ret (Err (ErrMsg ("invalid pinned version " +:+ pinnedVersion)))
  else
    let u := if String.eqb pinnedVersion "" then LatestReleaseAPI spec else sprintf1 (VersionedAPI spec) v in
    let? content := get_ok "GitHub API" u in
    ret (match read_limited maxReleaseJSONSize content with
         | Err e => Err (ErrWrap "decode release JSON" e)
         | Ok text => match decode_gh_release text with
                      | Err e => Err (ErrWrap "decode release JSON" e)
                      | Ok release => Ok release
                      end
         end).

(** The hash of what was written. *)
Definition downloadFile (u dest : string) (sizeLimit : Z) : P (res string) :=
  let? content := get_ok "download" u in
  let? _f := on_files (Create cwd dest) in
  match content with
  | Err e => ret (Err e)
  | Ok text =>
      let data := limit_string (sizeLimit + 1) text in
      let? written := on_files (Copy cwd dest (data, None)) in
      if sizeLimit <? written then
        run! on_files (Remove cwd dest) in ret (Err (ErrWrap u ErrArchiveTooLarge))
      else ret (Ok (sha256_hex data))
  end.

(** [bufio.Scanner] delivers the lines of what it could read. *)
Definition verifyChecksum (checksumsPath archiveName archiveHash : string) : P (option gerror) :=
  let! f := on_files (Os.Open cwd checksumsPath) in
  match f with
  | Err e => ret (Some (ErrWrap "open checksums" e))
  | Ok (text, _) => ret (checksum_lines archiveName archiveHash (split_on newline text))
  end.

(** The checksums, when a checksums file decided. *)
Definition verify_integrity (tmpDir : string) (spec : AssetSpec) (archiveAsset : ghAsset)
  (checksumsAsset : option ghAsset) (archiveHash : string) : P (res string) :=
  match checksumsAsset with
  | Some c =>
      match safeChildPath tmpDir (ga_Name c) with
      | Err e => ret (Err (ErrWrap "checksums" e))
      | Ok checksumsPath =>
          let! d := downloadFile (ga_BrowserDownloadURL c) checksumsPath maxChecksumsSize in
          match d with
          | Err e => ret (Err (ErrWrap "download checksums" e))
          | Ok _ =>
              let! v := verifyChecksum checksumsPath (ga_Name archiveAsset) archiveHash in
              match v with
              | Some e => ret (Err e)
              | None =>
                  let! data := on_files (ReadFile cwd checksumsPath) in
                  ret (Ok (match data with Ok text => text | Err _ => "" end))
              end
          end
      end
  | None =>
      if UseAssetDigest spec then
        match verifyAssetDigest (ga_Digest archiveAsset) archiveHash with
        | Some e => ret (Err e)
        | None => ret (Ok "")
        end
      else ret (Ok "")
  end.

Definition fetch_signature (sig : ghAsset) (cap : Z) : P (res string) :=
  if negb (isHTTPS (ga_BrowserDownloadURL sig)) then ret (Err (ErrWrap (ga_BrowserDownloadURL sig) ErrNonHTTPS))
  else
    let? content := get_ok "download signature" (ga_BrowserDownloadURL sig) in
    ret (read_limited cap content).

(** Whether a signature was verified, and of which kind. *)
Definition verifyArtifactSignature (spec : AssetSpec) (sig : option ghAsset) (checksums mode version : string)
  : P (res (bool * string)) :=
  let kind := sp_Type (Signature spec) in
  if String.eqb kind "" || String.eqb kind "none" then ret (Ok (false, "none"))
  else if String.eqb kind "gpg" then
    match sig with
    | None => ret (Err (ErrMsg "gpg signature verification configured but no signature asset found"))
    | Some s =>
        let? sigBytes := fetch_signature s maxChecksumsSize in
        let! key := outward (fetch_key (sp_KeyURL (Signature spec)) (sp_Fingerprint (Signature spec))) in
        match key with
        | Err e => ret (Err (ErrWrap "fetch signing key" e))
        | Ok k =>
            match gpg_verify k checksums sigBytes with
            | Some e => ret (Err (ErrWrap "signature verification failed" e))
            | None => ret (Ok (true, "gpg"))
            end
        end
    end
  else if String.eqb kind "sigstore" then
    let mode := if String.eqb mode "" then "enforce" else mode in
    if String.eqb mode "off" then ret (Ok (false, "sigstore"))
    else match sig with
    | None => ret (Ok (false, "sigstore"))
    | Some s =>
        if String.eqb checksums "" then ret (Ok (false, "sigstore"))
        else
          let? bundle := fetch_signature s maxSigBundleSize in
          match sigstoreVerify bundle checksums (sprintf1 (sp_Identity (Signature spec)) version)
                  (sp_Issuer (Signature spec)) with
          | None => ret (Ok (true, "sigstore"))
          | Some e =>
              if errors_is e errTrustRootUnavailable then ret (Ok (false, "sigstore"))
              else if String.eqb mode "enforce"
              then ret (Err (ErrWrap "sigstore signature verification failed" e))
              else ret (Ok (false, "sigstore"))
          end
    end
  else ret (Ok (false, kind)).

Definition writeExtractedFile (r : reader) (destPath : string) : P (res unit) :=
  let? _c := on_files (Create cwd destPath) in
  let? n := on_files (Copy cwd destPath (limit_reader (maxFileSize + 1) r)) in
  if maxFileSize <? n then
    run! on_files (Remove cwd destPath) in ret (Err (ErrMsg "extracted file exceeds size cap"))
  else ret (Ok tt).

(** [extractFromTarGz] and [extractFromZip] *)
Definition extract (spec : AssetSpec) (archivePath destPath : string) : P (res unit) :=
  let? r := on_files (Os.Open cwd archivePath) in
  match r with
  | (_, Some e) => ret (Err e)
  | (archive, None) =>
      match binary_of (ArchiveFormat spec) (BinaryInArchive spec) archive with
      | Err e => ret (Err e)
      | Ok content => writeExtractedFile content destPath
      end
  end.

Definition chmod (path : string) : P (res unit) :=
  on_files (on_path cwd path (fun p => call "chmod" (fun t =>
    (match stat_at t p with Ok _ => Ok tt | Err e => Err e end, t)))).

(** Into the directory of the version; what was there before is gone when the
    extraction fails. *)
Definition place_binary (installDir : string) (spec : AssetSpec) (tool version archivePath : string)
  : P (res string) :=
  match safeChildPath installDir (tool +:+ "-" +:+ version) with
  | Err e => ret (Err e)
  | Ok versionDir =>
      let! m := on_files (MkdirAll cwd versionDir) in
      match m with
      | Err e => ret (Err (ErrWrap "create version dir" e))
      | Ok _ =>
          let targetBinary := Filepath.Join versionDir (Base (BinaryInArchive spec)) in
          let! x := extract spec archivePath targetBinary in
          match x with
          | Err e => run! RemoveAll versionDir in ret (Err e)
          | Ok _ =>
              let! c := chmod targetBinary in
              match c with
              | Err e => ret (Err (ErrWrap "chmod" e))
              | Ok _ => ret (Ok targetBinary)
              end
          end
      end
  end.

(** Binary, hash, and what is known of the signature. *)
Definition verified_binary : Type := string * string * (bool * string).

(** The steps with the temporary directory. *)
Definition download_steps (tmpDir installDir mode : string) (spec : AssetSpec) (tool version : string)
  (archiveAsset : ghAsset) (checksumsAsset sigAsset : option ghAsset) : P (res verified_binary) :=
  match safeChildPath tmpDir (ga_Name archiveAsset) with
  | Err e => ret (Err e)
  | Ok archivePath =>
      let? archiveHash := downloadFile (ga_BrowserDownloadURL archiveAsset) archivePath maxArchiveSize in
      let? checksumsData := verify_integrity tmpDir spec archiveAsset checksumsAsset archiveHash in
      let? sig := verifyArtifactSignature spec sigAsset checksumsData mode version in
      let? targetBinary := place_binary installDir spec tool version archivePath in
      ret (Ok (targetBinary, archiveHash, sig))
  end.

Definition downloadExtract (installDir mode : string) (spec : AssetSpec) (tool version : string)
  (archiveAsset : ghAsset) (checksumsAsset sigAsset : option ghAsset) : P (res verified_binary) :=
  if negb (isHTTPS (ga_BrowserDownloadURL archiveAsset))
  then ret (Err (ErrWrap (ga_BrowserDownloadURL archiveAsset) ErrNonHTTPS))
  else if match checksumsAsset with Some c => negb (isHTTPS (ga_BrowserDownloadURL c)) | None => false end
  then ret (Err (ErrWrap "checksums" ErrNonHTTPS))
  else
    let! t := MkdirTemp installDir "tmp-install-" in
    match t with
    | Err e => ret (Err (ErrWrap "create temp dir" e))
    | Ok tmpDir =>
        let! r := download_steps tmpDir installDir mode spec tool version archiveAsset checksumsAsset sigAsset in
        run! RemoveAll tmpDir in
        ret r
    end.

Definition unsupported (tool : string) : gerror :=
  if Supports tool then ErrWrap tool ErrUnsupportedPlatform else ErrWrap tool ErrUnsupportedTool.

(** The release with the assets the specification names. *)
Definition resolve_assets (spec : AssetSpec) (pinnedVersion : string)
  : P (res (string * ghAsset * option ghAsset * option ghAsset)) :=
  let! r := resolveRelease spec pinnedVersion in
  match r with
  | Err e => ret (Err (ErrWrap "resolve release" e))
  | Ok release =>
      let version := trim_prefix (gr_TagName release) "v" in
      match matchAssets spec release with
      | (Some archiveAsset, checksumsAsset, sigAsset) =>
          if match checksumsAsset with None => negb (UseAssetDigest spec) | Some _ => false end
          then ret (Err (ErrWrap version ErrAssetNotFound))
          else ret (Ok (version, archiveAsset, checksumsAsset, sigAsset))
      | _ => ret (Err (ErrWrap version ErrAssetNotFound))
      end
  end.

(** What [Install] and [DownloadVerified] share. *)
Definition fetch_verified (installDir mode tool pinnedVersion : string) : P (res (string * string * verified_binary)) :=
  let? _w := ensureWritableDir installDir in
  match Lookup tool goos goarch with
  | None => ret (Err (unsupported tool))
  | Some spec =>
      let? a := resolve_assets spec pinnedVersion in
      let '(version, archiveAsset, checksumsAsset, sigAsset) := a in
      let? b := downloadExtract installDir mode spec tool version archiveAsset checksumsAsset sigAsset in
      ret (Ok (version, ga_BrowserDownloadURL archiveAsset, b))
  end.

Definition result_of (path version u : string) (b : verified_binary) : Result :=
  let '(_, hash, (verified, kind)) := b in {|
  rs_BinaryPath := path; rs_Version := version; rs_Sha256 := hash; rs_SourceURL := u;
  rs_SignatureVerified := verified; rs_SignatureType := kind |}.

(** A new link under a random name, renamed over the old one. *)
Definition atomicSymlink (target linkPath : string) : P (res unit) :=
  let! sfx := outward rand_suffix in
  let tmpLink := linkPath +:+ ".tmp-" +:+ sfx in
  let? _s := sql "symlink" (fun d =>
    match links d !! tmpLink with
    | Some _ => (Err (ErrExt "EEXIST"), d)
    | None => (Ok tt, Disk (files d) (<[tmpLink := target]> (links d)))
    end) in
  let! r := exec "rename" (fun d => Disk (files d) (<[linkPath := target]> (delete tmpLink (links d)))) in
  match r with
  | Ok _ => ret (Ok tt)
  | Err e => run! exec "remove" (fun d => Disk (files d) (delete tmpLink (links d))) in ret (Err e)
  end.

Definition Install (installDir mode tool pinnedVersion : string) : P (res Result) :=
  let? f := fetch_verified installDir mode tool pinnedVersion in
  let '(version, u, b) := f in
  let symlinkPath := Filepath.Join installDir tool in
  let! s := atomicSymlink (fst (fst b)) symlinkPath in
  match s with
  | Err e => ret (Err (ErrWrap "symlink" e))
  | Ok _ => ret (Ok (result_of symlinkPath version u b))
  end.

(** Present on disk, not activated. *)
Definition DownloadVerified (installDir mode tool pinnedVersion : string) : P (res Result) :=
  let? f := fetch_verified installDir mode tool pinnedVersion in
  let '(version, u, b) := f in
  ret (Ok (result_of (fst (fst b)) version u b)).

Definition CheckLatest (tool : string) : P (res LatestInfo) :=
  match Lookup tool goos goarch with
  | None => ret (Err (unsupported tool))
  | Some spec =>
      let? a := resolve_assets spec "" in
      let '(version, archiveAsset, checksumsAsset, sigAsset) := a in
      let url_of o := match o with Some c => ga_BrowserDownloadURL c | None => "" end in
      ret (Ok {| lf_Tool := tool; lf_LatestVersion := version;
                 lf_ArchiveURL := ga_BrowserDownloadURL archiveAsset;
                 lf_ChecksumsURL := url_of checksumsAsset; lf_SignatureURL := url_of sigAsset;
                 lf_SignatureSupported := String.eqb (sp_Type (Signature spec)) "gpg" ||
                                          String.eqb (sp_Type (Signature spec)) "sigstore" |})
  end.

(** The handlers' entry: the result, or the message. *)
Definition Handle (installDir tool version : string) : P (res Result) :=
  if negb (Supports tool) then ret (Err (ErrMsg ("auto-install is not available for " +:+ tool)))
  else if String.eqb installDir "" then ret (Err (ErrMsg "scanning.install_dir is not configured on the server"))
  else Install installDir "" tool version.
End Install.
