(* ===== verification/InstallerSafety.v ===== *)
(** * What the installer of scanner binaries guarantees

    Nothing outside the install directory is written, a failure leaves the links in
    place, and an installed binary is the entry of an archive whose digest was the
    published one. *)

From S2P Require Import Prelude GoStrings Filepath Regexp TfReleases TfMirrorSync Checksums Os Archive Tables Installer.

#[local] Open Scope Z_scope.

(** ** Child paths *)

Lemma plain_no_slash s : contains_any s "/\" = false -> no_slash s = true.
Proof.
  induction s as [|c s IH]; [done|]. cbn [contains_any no_slash]. intros Hc.
  apply orb_false_elim in Hc as [Hc Hs]. rewrite IH by done. rewrite andb_true_r.
  unfold char_in in Hc. cbn in Hc. apply orb_false_elim in Hc as [Hc _]. by rewrite Hc.
Qed.

Lemma dotdot_contains s : contains s ".." = false -> s <> "..".
Proof. by intros Hc ->. Qed.

Lemma prefix_length s p : has_prefix s p = true -> (String.length p <= String.length s)%nat.
Proof. intros [t ->]%has_prefix_iff. rewrite length_append_s. lia. Qed.

Lemma join_onto_one r base name :
  canon r base -> proper name -> join_onto r base name = base ++ [name].
Proof.
  intros Hb Hn. unfold join_onto. rewrite split_one by apply Hn. cbn [fold_left].
  destruct Hn as (H1 & H2 & H3 & _). unfold clean_step.
  destruct (String.eqb_spec name ""), (String.eqb_spec name "."), (String.eqb_spec name ".."); try done.
  cbn. by rewrite rev_involutive.
Qed.

Lemma Forall_one (s : string) : proper s -> Forall proper [s].
Proof. intros Hs. apply List.Forall_cons; [done | apply List.Forall_nil]. Qed.

Lemma Join_proper dir name :
  dir <> "" -> proper name -> Filepath.Join dir name = render (IsAbs dir) (segs dir ++ [name]).
Proof. intros Hd Hn. rewrite Join_onto, join_onto_one; [done | apply segs_canon | done | done]. Qed.

Lemma Join_dot dir : dir <> "" -> Filepath.Join dir "." = Clean dir.
Proof.
  intros Hd. rewrite Join_onto by done. unfold join_onto. cbn. by rewrite rev_involutive, Clean_render.
Qed.

Lemma loc_child cwd dir name :
  dir <> "" -> proper name -> loc cwd (Filepath.Join dir name) = loc cwd dir ++ [name].
Proof.
  intros Hd Hn. rewrite Join_proper, loc_app by (first [done | apply segs_canon | by apply Forall_one]).
  by rewrite <- Clean_render, loc_Clean.
Qed.

Lemma child_nonempty dir name : dir <> "" -> proper name -> Filepath.Join dir name <> "".
Proof.
  intros Hd Hn. rewrite Join_proper by done. apply render_nonempty.
  eapply canon_no_slash, canon_app; [apply segs_canon | by apply Forall_one].
Qed.

Lemma safe_child cwd dir name p :
  dir <> "" -> safeChildPath dir name = Ok p ->
  proper name /\ p = Filepath.Join dir name /\ p <> "" /\ loc cwd p = loc cwd dir ++ [name].
Proof.
  intros Hd. unfold safeChildPath. destruct (String.eqb_spec name "") as [|Hn]; [done|].
  destruct (contains_any name "/\") eqn:Ea; [done|]. destruct (contains name "..") eqn:Ed; [done|].
  cbn [orb]. destruct (has_prefix _ _) eqn:Ep; [|done]. intros [= <-].
  assert (Hp : proper name).
  { split; [done|]. split; [|split; [by apply dotdot_contains | by apply plain_no_slash]].
    intros ->. rewrite Join_dot in Ep by done. apply prefix_length in Ep.
    rewrite length_append_s in Ep. cbn in Ep. lia. }
  split; [done|]. split; [done|]. split; [by apply child_nonempty | by apply loc_child].
Qed.

Lemma on_path_loc {A} cwd p (k : list string -> prog (env fs) (res A)) :
  p <> "" -> on_path cwd p k = k (loc cwd p).
Proof. intros Hp. unfold on_path. by destruct (String.eqb_spec p ""). Qed.

Lemma proper_prefix a s :
  no_slash a = true -> no_slash s = true -> (2 < String.length a)%nat -> proper (a +:+ s).
Proof.
  intros Ha Hs Hl.
  assert (Hlen : (2 < String.length (a +:+ s))%nat) by (rewrite length_append_s; lia).
  repeat split; try (intros E; rewrite E in Hlen; cbn in Hlen; lia).
  clear -Ha Hs. induction a as [|c a IH]; [done|]. rewrite append_cons. cbn [no_slash] in *.
  apply andb_prop in Ha as [-> Ha]. by apply IH.
Qed.

(** ** The catalog *)

(** A string an expression matches ends in its last literal. *)
Lemma suffix_cons c s l : has_suffix s l = true -> has_suffix (String c s) l = true.
Proof.
  intros [p ->]%has_suffix_split. change (String c (p +:+ l)) with (String c p +:+ l).
  unfold has_suffix. rewrite length_append_s.
  replace (String.length (String c p) + String.length l - String.length l)%nat
    with (String.length (String c p)) by lia.
  rewrite sdrop_app, String.eqb_refl, andb_true_r. apply Nat.leb_le. cbn. lia.
Qed.

Lemma suffix_app p s l : has_suffix s l = true -> has_suffix (p +:+ s) l = true.
Proof.
  intros Hs. induction p as [|c p IH]; [done|]. rewrite append_cons. by apply suffix_cons.
Qed.

Lemma suffix_refl l : has_suffix l l = true.
Proof. unfold has_suffix. by rewrite Nat.sub_diag, Nat.leb_refl, String.eqb_refl. Qed.

Lemma denotes_suffix l r s : denotes r s -> forall q, r = q ++ [Lit l] -> has_suffix s l = true.
Proof.
  induction 1 as [|p c r s Hp Hd IH|g p r s Hd IH|g p c r s Hp Hd IH|l' r s Hd IH|l' r s Hd IH
    |l' r s Hd IH|l' ls r s Hi Hd IH|r s Hd IH|r s Hd IH]; intros q Hq;
    destruct q as [|i q]; cbn in Hq; try done; injection Hq as Hq1 Hr; subst; eauto using suffix_cons, suffix_app.
  all: try (by apply suffix_cons; eapply (IH (_ :: q))).
  all: inversion Hd; subst; rewrite append_nil_r; apply suffix_refl.
Qed.

(** Every alternative ends in a literal whose last character is [c]. *)
Definition ends_in (c : ascii) (p : pattern) : Prop :=
  forall r, In r p -> exists q l, r = q ++ [Lit l] /\ last_char l = Some c.

Lemma match_last c p s : ends_in c p -> MatchString p s = true -> last_char s = Some c.
Proof.
  unfold MatchString. intros Hp Hm. apply List.existsb_exists in Hm as (r & Hr & Hm).
  destruct (find_submatch r s) as [m|] eqn:E; [|done]. apply find_submatch_some in E.
  destruct (Hp r Hr) as (q & l & -> & Hl). rewrite <- Hl.
  apply has_suffix_last; [by intros -> | by eapply denotes_suffix].
Qed.

(** What the rest relies on of an entry of the catalog. *)
Record good (tool : string) (spec : AssetSpec) : Prop := {
  good_binary : proper (Base (BinaryInArchive spec));
  (** the archive and its checksums never have one name *)
  good_names name : MatchString (AssetPattern spec) name = true ->
    match ChecksumsPattern spec with Some p => MatchString p name = false | None => True end;
  (** no version directory looks like a temporary one *)
  good_dir version sfx : tool +:+ "-" +:+ version <> "tmp-install-" +:+ sfx;
  good_tool : proper tool;
}.

Lemma names_differ c d p q name :
  ends_in c p -> ends_in d q -> c <> d -> MatchString p name = true -> MatchString q name = false.
Proof.
  intros Hp Hq Hne Hm. destruct (MatchString q name) eqn:E; [|done]. exfalso.
  apply (match_last c) in Hm; [|done]. apply (match_last d) in E; [congruence | done].
Qed.

Lemma one_end c q l : last_char l = Some c -> ends_in c [q ++ [Lit l]].
Proof. intros Hl r [<-|[]]. by exists q, l. Qed.

Lemma dotted_end c x l : last_char l = Some c -> ends_in c [Lit x :: dotted ++ [Lit l]].
Proof. apply (one_end c (Lit x :: dotted)). Qed.

Lemma trivy_good a : last_char a = Some "z"%char -> good "trivy" (trivy_spec a).
Proof.
  intros Ha. split; [by repeat split | | done | by repeat split].
  intros name. apply (names_differ "z" "t"); [by apply dotted_end | by apply dotted_end | done].
Qed.

Lemma terrascan_good a : last_char a = Some "z"%char -> good "terrascan" (terrascan_spec a).
Proof.
  intros Ha. split; [by repeat split | | done | by repeat split].
  intros name. apply (names_differ "z" "t"); [by apply dotted_end | | done].
  intros r [<-|[<-|[]]]; [by exists (Lit "terrascan_" :: dotted), "_checksums.txt" | by exists [], "checksums.txt"].
Qed.

Lemma checkov_good a : good "checkov" (checkov_spec a).
Proof. by repeat split. Qed.

Lemma assoc_in {A} k (l : list (string * A)) a : assoc k l = Some a -> In (k, a) l.
Proof.
  induction l as [|[k' a'] l IH]; [done|]. cbn. destruct (String.eqb_spec k k') as [->|].
  - intros [= ->]. by left.
  - intros Ha. right. by apply IH.
Qed.

Lemma catalog_good tool os arch spec : Lookup tool os arch = Some spec -> good tool spec.
Proof.
  unfold Lookup. destruct (assoc tool Catalog) as [platforms|] eqn:E; [|done].
  apply assoc_in in E. intros Hs. apply assoc_in in Hs.
  destruct E as [E|[E|[E|[]]]]; injection E as <- <-;
    repeat (destruct Hs as [Hs|Hs]; [injection Hs as _ <-|]); try done;
    first [by apply trivy_good | by apply terrascan_good | apply checkov_good].
Qed.

(** ** Programs over the disk *)

Section Safety.
Context {Y : Type} `{Http Y} `{InstallerWorld Y} `{InstallerLibs} `{Sha256} `{TarGz} `{Zip}.
Context (cwd : list string) (goos goarch : string).
#[local] Abbreviation W := (env (beside disk Y)).
#[local] Abbreviation P := (prog W).

Definition tree_of (w : W) : tree := nodes (files (tabs (st w))).
Definition links_of (w : W) : gmap string string := links (tabs (st w)).

(** The files move along [R], the links stay. *)
Definition on_disk (R : fs -> fs -> Prop) (s s' : beside disk Y) : Prop :=
  R (files (tabs s)) (files (tabs s')) /\ links (tabs s) = links (tabs s').

#[export] Instance on_disk_preorder R `{!PreOrder R} : PreOrder (on_disk R).
Proof.
  split; [by intros s; split|]. intros s1 s2 s3 [? ?] [? ?]. split; [by etransitivity | congruence].
Qed.

(** The world of the file system. *)
Definition fsw (w : W) : env fs := Env (files (tabs (st w))) (faults w) (clock w) (ticks w).

Lemma on_files_tree {A} (c : prog (env fs) A) (w : W) :
  fst (on_files c w) = fst (c (fsw w)) /\ tree_of (snd (on_files c w)) = nodes (st (snd (c (fsw w)))) /\
  files (tabs (st (snd (on_files c w)))) = st (snd (c (fsw w))).
Proof. done. Qed.

Section Walk.
Context (R : fs -> fs -> Prop) `{!PreOrder R}.
#[local] Abbreviation along := (on_st (on_disk R)).

Lemma walk_files {A} (c : prog (env fs) A) : preserves (on_st R) c -> preserves along (on_files c).
Proof. intros Hc w. split; [apply (Hc (fsw w)) | done]. Qed.

Lemma walk_outward {A} (c : prog Y A) : preserves along (outward c).
Proof. intros w. split; cbn; reflexivity. Qed.

Lemma walk_get what u : preserves along (get_ok what u).
Proof.
  unfold get_ok. apply preserves_bind; [typeclasses eauto | apply walk_outward|].
  intros [[status content]|e]; [destruct (status =? 200)|]; apply preserves_ret; typeclasses eauto.
Qed.

Lemma walk_resolve spec v : preserves along (resolveRelease spec v).
Proof.
  unfold resolveRelease. destruct (_ && _); [apply preserves_ret; typeclasses eauto|].
  apply preserves_bind; [typeclasses eauto | apply walk_get|].
  intros [content|e]; apply preserves_ret; typeclasses eauto.
Qed.

Lemma walk_assets spec v : preserves along (resolve_assets spec v).
Proof.
  unfold resolve_assets. apply preserves_bind; [typeclasses eauto | apply walk_resolve|].
  intros [r|e]; [|apply preserves_ret; typeclasses eauto].
  repeat case_match; apply preserves_ret; typeclasses eauto.
Qed.

Lemma walk_fetch_signature s cap : preserves along (fetch_signature s cap).
Proof.
  unfold fetch_signature. destruct (negb _); [apply preserves_ret; typeclasses eauto|].
  apply preserves_bind; [typeclasses eauto | apply walk_get|].
  intros [content|e]; apply preserves_ret; typeclasses eauto.
Qed.

Lemma walk_signature spec sig checksums mode version :
  preserves along (verifyArtifactSignature spec sig checksums mode version).
Proof.
  unfold verifyArtifactSignature.
  repeat first [ case_match | apply preserves_ret; typeclasses eauto | apply walk_fetch_signature
               | apply walk_outward | apply preserves_bind; [typeclasses eauto| |intros] ].
Qed.

(** The steps that write, for paths the relation allows. *)
Context (allowed : list string -> Prop).
Context (Rcreate : forall p, allowed p -> preserves (on_st R) (open_create true p)).
Context (Rcopy : forall p r, allowed p -> preserves (on_st R) (copy_to p r)).
Context (Rremove : forall p, allowed p -> preserves (on_st R) (remove_at p)).
Context (Rread : forall A op (f : tree -> res A), preserves (on_st R) (call op (fun t => (f t, t)))).
Context (Rtree : forall p, allowed p -> preserves (on_st R) (remove_tree p)).

(** A path on which everything may happen. *)
Definition plain (path : string) : Prop :=
  path <> "" /\ allowed (loc cwd path) /\ Remove cwd path = remove_at (loc cwd path).

Ltac plain_path Hp := destruct Hp as (Hp1 & Hp2 & Hp3); unfold Create, Copy; rewrite ?Hp3, ?on_path_loc by done.

Lemma walk_create path : plain path -> preserves along (on_files (Create cwd path)).
Proof. intros Hp. apply walk_files. plain_path Hp. by apply Rcreate. Qed.
Lemma walk_copy path r : plain path -> preserves along (on_files (Copy cwd path r)).
Proof. intros Hp. apply walk_files. plain_path Hp. by apply Rcopy. Qed.
Lemma walk_remove path : plain path -> preserves along (on_files (Remove cwd path)).
Proof. intros Hp. apply walk_files. plain_path Hp. by apply Rremove. Qed.
Lemma walk_remove_all path : plain path -> preserves along (RemoveAll cwd path).
Proof. intros Hp. apply walk_files. plain_path Hp. by apply Rtree. Qed.

Lemma walk_reading {A} path op (f : list string -> tree -> res A) :
  preserves along (on_files (on_path cwd path (fun p => call op (fun t => (f p t, t))))).
Proof.
  apply walk_files. unfold on_path. destruct (String.eqb path "");
    [apply preserves_ret; typeclasses eauto | apply Rread].
Qed.

Lemma walk_open path : preserves along (on_files (Os.Open cwd path)).
Proof. apply walk_reading. Qed.
Lemma walk_chmod path : preserves along (chmod cwd path).
Proof. apply walk_reading. Qed.
Lemma walk_read path : preserves along (on_files (ReadFile cwd path)).
Proof.
  apply walk_files. unfold ReadFile, on_path. destruct (String.eqb path "");
    [apply preserves_ret; typeclasses eauto|].
  unfold read_at. apply preserves_bind; [typeclasses eauto | apply Rread|].
  intros [r|e]; [apply Rread | apply preserves_ret; typeclasses eauto].
Qed.

Lemma walk_download u dest limit : plain dest -> preserves along (downloadFile cwd u dest limit).
Proof.
  intros Hp. unfold downloadFile.
  repeat first [ case_match | apply preserves_ret; typeclasses eauto | apply walk_get
               | by apply walk_create | by apply walk_copy | by apply walk_remove
               | apply preserves_bind; [typeclasses eauto| |intros] ].
Qed.

Lemma walk_extract spec archive dest : plain dest -> preserves along (extract cwd spec archive dest).
Proof.
  intros Hp. unfold extract, writeExtractedFile.
  repeat first [ case_match | apply preserves_ret; typeclasses eauto | apply walk_open
               | by apply walk_create | by apply walk_copy | by apply walk_remove
               | apply preserves_bind; [typeclasses eauto| |intros] ].
Qed.

Lemma walk_integrity tmp spec a c h :
  (forall n p, safeChildPath tmp n = Ok p -> plain p) ->
  preserves along (verify_integrity cwd tmp spec a c h).
Proof.
  intros Hp. unfold verify_integrity, verifyChecksum. destruct c as [c|].
  - destruct (safeChildPath tmp (ga_Name c)) as [p|e] eqn:E; [|apply preserves_ret; typeclasses eauto].
    specialize (Hp _ _ E).
    repeat first [ case_match | apply preserves_ret; typeclasses eauto | by apply walk_download
                 | apply walk_open | apply walk_read | apply preserves_bind; [typeclasses eauto| |intros] ].
  - repeat case_match; apply preserves_ret; typeclasses eauto.
Qed.

(** One installation, its directory [dir]. *)
Context (dir : string) (Hrand : forall y, no_slash (fst (rand_suffix (Y := Y) y)) = true).
Context (Rnew : forall p, allowed p -> preserves (on_st R) (mkdir_new p)).
Context (Rmkdir : forall p, allowed p -> preserves (on_st R) (mkdir_all [] p)).
Context (Rdir : preserves (on_st R) (MkdirAll cwd dir)).
Context (Hkid : forall n, dir <> "" -> proper n -> plain (Filepath.Join dir n)).
Context (Hgrand : forall n m, dir <> "" -> proper n -> proper m -> plain (Filepath.Join (Filepath.Join dir n) m)).

Lemma walk_mkdir path : plain path -> preserves along (on_files (MkdirAll cwd path)).
Proof. intros Hp. apply walk_files. unfold MkdirAll. plain_path Hp. by apply Rmkdir. Qed.

Lemma walk_writable : preserves along (ensureWritableDir cwd dir).
Proof.
  unfold ensureWritableDir. destruct (String.eqb_spec dir "") as [|Hd]; [apply preserves_ret; typeclasses eauto|].
  assert (Hp : plain (Filepath.Join dir ".write-probe")) by (apply Hkid; [done | by repeat split]).
  apply preserves_bind; [typeclasses eauto | by apply walk_files |].
  repeat first [ case_match | apply preserves_ret; typeclasses eauto | by apply walk_create
               | by apply walk_remove | apply preserves_bind; [typeclasses eauto| |intros] | intros ].
Qed.

Definition tmp_name (n : string) : Prop := exists sfx, n = "tmp-install-" +:+ sfx /\ no_slash sfx = true.

Lemma tmp_proper n : tmp_name n -> proper n.
Proof. intros (sfx & -> & Hs). apply proper_prefix; [done | done | cbn; lia]. Qed.

Lemma temp_dir : returns (fun r => match r with
  | Ok p => exists n, tmp_name n /\ p = Filepath.Join dir n | Err _ => True end)
  (MkdirTemp cwd dir "tmp-install-" : P (res string)).
Proof.
  intros w. unfold MkdirTemp, bind. cbn [outward state fst snd].
  set (sfx := fst (rand_suffix (around (st w)))).
  destruct (on_files _ _) as [[u|e] w']; cbn; [|done].
  exists ("tmp-install-" +:+ sfx). split; [|done]. exists sfx. split; [done | apply Hrand].
Qed.

Lemma walk_temp : dir <> "" -> preserves along (MkdirTemp cwd dir "tmp-install-").
Proof.
  intros Hd. unfold MkdirTemp.
  apply (preserves_bind_ret _ (fun sfx => no_slash sfx = true)); [apply walk_outward | intros w; apply Hrand |].
  intros sfx Hs. apply preserves_bind; [typeclasses eauto | |
    intros [u|e]; apply preserves_ret; typeclasses eauto].
  assert (Hp : plain (Filepath.Join dir ("tmp-install-" +:+ sfx)))
    by (apply Hkid; [done | apply tmp_proper; by exists sfx]).
  apply walk_files. destruct Hp as (Hp1 & Hp2 & _). rewrite on_path_loc by done. by apply Rnew.
Qed.

Lemma walk_place spec tool version archive :
  dir <> "" -> good tool spec -> preserves along (place_binary cwd dir spec tool version archive).
Proof.
  intros Hd Hg. unfold place_binary.
  destruct (safeChildPath dir _) as [vd|e] eqn:E; [|apply preserves_ret; typeclasses eauto].
  apply (safe_child cwd) in E as (Hn & -> & _); [|done].
  pose proof (Hkid _ Hd Hn) as Hv. pose proof (Hgrand _ _ Hd Hn (good_binary _ _ Hg)) as Hb.
  repeat first [ case_match | apply preserves_ret; typeclasses eauto | by apply walk_mkdir
               | by apply walk_extract | by apply walk_remove_all | apply walk_chmod
               | apply preserves_bind; [typeclasses eauto| |intros] ].
Qed.

Lemma walk_steps n mode spec tool version a c s :
  dir <> "" -> tmp_name n -> good tool spec ->
  preserves along (download_steps cwd (Filepath.Join dir n) dir mode spec tool version a c s).
Proof.
  intros Hd Hn%tmp_proper Hg. unfold download_steps.
  assert (Hkids : forall m p, safeChildPath (Filepath.Join dir n) m = Ok p -> plain p).
  { intros m p Hm. apply (safe_child cwd) in Hm as (Hm & -> & _); [by apply Hgrand | by apply child_nonempty]. }
  destruct (safeChildPath _ (ga_Name a)) as [p|e] eqn:E; [|apply preserves_ret; typeclasses eauto].
  specialize (Hkids _ _ E) as Hp.
  apply preserves_bind; [typeclasses eauto | by apply walk_download |].
  intros [h|e]; [|apply preserves_ret; typeclasses eauto].
  apply preserves_bind; [typeclasses eauto | by apply walk_integrity |].
  intros [data|e]; [|apply preserves_ret; typeclasses eauto].
  apply preserves_bind; [typeclasses eauto | apply walk_signature |].
  intros [sig|e]; [|apply preserves_ret; typeclasses eauto].
  apply preserves_bind; [typeclasses eauto | by apply walk_place |].
  intros [t|e]; apply preserves_ret; typeclasses eauto.
Qed.

Lemma walk_downloadExtract mode spec tool version a c s :
  dir <> "" -> good tool spec -> preserves along (downloadExtract cwd dir mode spec tool version a c s).
Proof.
  intros Hd Hg. unfold downloadExtract.
  destruct (negb _); [apply preserves_ret; typeclasses eauto|].
  match goal with |- context [if ?b then _ else _] => destruct b end; [apply preserves_ret; typeclasses eauto|].
  eapply preserves_bind_ret; [typeclasses eauto | by apply walk_temp | apply temp_dir |].
  intros [t|e] Ht; [|apply preserves_ret; typeclasses eauto]. destruct Ht as (n & Hn & ->).
  apply preserves_bind; [typeclasses eauto | by apply walk_steps | intros r].
  apply preserves_bind; [typeclasses eauto | | intros; apply preserves_ret; typeclasses eauto].
  apply walk_remove_all, Hkid; [done | by apply tmp_proper].
Qed.

Lemma walk_fetch mode tool v : preserves along (fetch_verified cwd goos goarch dir mode tool v).
Proof.
  unfold fetch_verified.
  apply (preserves_bind_ret _ (fun r => match r with Ok _ => dir <> "" | Err _ => True end)).
  - apply walk_writable.
  - intros w. unfold ensureWritableDir, bind. destruct (String.eqb_spec dir "") as [|Hd]; [done|].
    repeat case_match; cbn; done.
  - intros [u|e] Hd; [|apply preserves_ret; typeclasses eauto].
    destruct (Lookup tool goos goarch) as [spec|] eqn:E; [|apply preserves_ret; typeclasses eauto].
    apply catalog_good in E.
    apply preserves_bind; [typeclasses eauto | apply walk_assets |].
    intros [[[[version a] c] s]|e]; [|apply preserves_ret; typeclasses eauto].
    apply preserves_bind; [typeclasses eauto | by apply walk_downloadExtract |].
    intros [b|e]; apply preserves_ret; typeclasses eauto.
Qed.
End Walk.

(** ** Nothing outside the directory *)

Lemma child_plain (allowed : list string -> Prop) d n :
  d <> "" -> proper n -> allowed (loc cwd d ++ [n]) -> plain allowed (Filepath.Join d n).
Proof.
  intros Hd Hn Ha. split; [by apply child_nonempty|]. split; [by rewrite loc_child|].
  rewrite Join_proper by done. apply Remove_render; [|apply Hn].
  apply canon_app; [apply segs_canon | by apply Forall_one].
Qed.

Lemma under_child b n : strictly_under b (b ++ [n]).
Proof. by exists n, []. Qed.
Lemma under_grandchild b n m : strictly_under b ((b ++ [n]) ++ [m]).
Proof. exists n, [m]. by rewrite <- app_assoc. Qed.

Lemma remove_tree_moves b p : strictly_under b p -> preserves (on_st (moves_below b)) (remove_tree p).
Proof.
  intros Hu. apply call_moves. intros t. cbn [snd]. split.
  - intros Hc q s n Hq. apply map_lookup_filter_Some in Hq as [Hq Hk]. cbn [fst] in Hk.
    pose proof (Hc _ _ _ Hq) as Hp. destruct q as [|x q]; [done|].
    apply map_lookup_filter_Some. split; [done|]. cbn [fst]. intros Ht. apply Hk.
    destruct (Nat.le_gt_cases (length p) (length (x :: q))) as [Hl|Hl]; [by rewrite take_app_le|].
    rewrite <- Ht. rewrite !take_ge; [|lia|rewrite length_app; cbn; apply (f_equal length) in Ht; rewrite length_take in Ht; cbn in *; lia].
    exfalso. apply (f_equal length) in Ht. rewrite length_take in Ht. lia.
  - intros q Hq. left. destruct (t !! q) as [n|] eqn:E.
    + apply map_lookup_filter_Some. split; [done|]. cbn [fst]. intros Ht. apply Hq.
      destruct Hu as (s & rest & ->). rewrite <- (take_drop (length (b ++ s :: rest)) q), Ht.
      exists s, (rest ++ drop (length (b ++ s :: rest)) q). by rewrite <- app_assoc.
    + apply map_lookup_filter_None. by left.
Qed.

Lemma mkdir_new_moves b p : strictly_under b p -> preserves (on_st (moves_below b)) (mkdir_new p).
Proof.
  intros Hu. apply call_moves. intros t.
  assert (Hid : (closed t -> closed t) /\ within b t t) by (split; [done | intros q _; by left]).
  destruct (stat_at t p) as [n|e] eqn:E; [exact Hid|].
  destruct (stat_at t (removelast p)) as [[|c]|e'] eqn:E'; [|exact Hid|exact Hid].
  split; [|by apply within_insert]. intros Hc. apply stat_iff in E'; [|done].
  apply closed_insert; [done | exact E' | by right; left].
Qed.

Lemma sql_cases {A} op (f : disk -> res A * disk) (w : W) :
  (fst (sql op f w) = Err (ErrDB op) /\ tabs (st (snd (sql op f w))) = tabs (st w)) \/
  (fst (sql op f w) = fst (f (tabs (st w))) /\ tabs (st (snd (sql op f w))) = snd (f (tabs (st w)))).
Proof. unfold sql, db. destruct (faults w) as [|[] fs]; cbn; auto. Qed.

(** The switch of the link: all, or nothing that was there before. *)
Lemma symlink_outcome target p (w : W) :
  let w' := snd (atomicSymlink target p w) in
  files (tabs (st w')) = files (tabs (st w)) /\
  match fst (atomicSymlink target p w) with
  | Ok _ => links_of w' = <[p := target]> (links_of w)
  | Err _ => links_of w ⊆ links_of w'
  end.
Proof.
  cbn zeta. unfold atomicSymlink, bind, links_of, exec.
  assert (Hw1 : tabs (st (snd (outward (rand_suffix (Y := Y)) w))) = tabs (st w)) by done.
  destruct (outward rand_suffix w) as [sfx w1]. cbn [fst snd] in *. rewrite <- Hw1.
  set (tmp := p +:+ ".tmp-" +:+ sfx).
  match goal with |- context [sql "symlink" ?f w1] => pose proof (sql_cases "symlink" f w1) as Hs;
    destruct (sql "symlink" f w1) as [r1 w2] end.
  cbn [fst snd] in Hs. destruct Hs as [[-> Hs]|[-> Hs]]; [by cbn; rewrite Hs|].
  destruct (links (tabs (st w1)) !! tmp) as [old|] eqn:Et; cbn [fst snd] in Hs |- *; [by cbn; rewrite Hs|].
  match goal with |- context [sql "rename" ?f w2] => pose proof (sql_cases "rename" f w2) as Hr;
    destruct (sql "rename" f w2) as [r2 w3] end.
  cbn [fst snd] in Hr. destruct Hr as [[-> Hr]|[-> Hr]]; rewrite Hs in Hr.
  2: { cbn. rewrite Hr. cbn. split; [done|]. by rewrite delete_insert_id. }
  cbn [fst snd]; cbv beta iota.
  match goal with |- context [sql "remove" ?f w3] => pose proof (sql_cases "remove" f w3) as Hd;
    destruct (sql "remove" f w3) as [r3 w4] end.
  cbn [fst snd] in Hd |- *. destruct Hd as [[_ Hd]|[_ Hd]]; rewrite Hr in Hd; cbn in Hd; cbn; rewrite Hd; cbn.
  - split; [done | by apply insert_subseteq].
  - split; [done | by rewrite delete_insert_id].
Qed.

(** Whatever the releases, names and archives are like, an installation writes only
    below its directory, which it may create, and keeps the tree well formed. *)
Theorem installer_stays_inside (dir mode tool version : string) (w : W)
  (Hrand : forall y, no_slash (fst (rand_suffix (Y := Y) y)) = true) :
  moves_below (loc cwd dir) (files (tabs (st w)))
    (files (tabs (st (snd (Install cwd goos goarch dir mode tool version w))))).
Proof.
  set (b := loc cwd dir).
  assert (Hf : preserves (on_st (on_disk (moves_below b))) (fetch_verified cwd goos goarch dir mode tool version)).
  { apply (walk_fetch (moves_below b) (strictly_under b)); try done.
    - intros p Hp. by apply open_moves.
    - intros p r Hp. by apply copy_moves.
    - intros p Hp. by apply remove_moves.
    - intros A op f. apply call_reads.
    - intros p Hp. by apply remove_tree_moves.
    - intros p Hp. by apply mkdir_new_moves.
    - intros p Hp v. apply mkdir_all_moves; [by left | done].
    - unfold MkdirAll, on_path. destruct (String.eqb dir ""); [apply preserves_ret; typeclasses eauto|].
      intros v. apply mkdir_all_moves; [right; exists []; by rewrite app_nil_r | done].
    - intros n Hd Hn. apply child_plain; [done | done | apply under_child].
    - intros n m Hd Hn Hm. apply child_plain; [exact (child_nonempty _ _ Hd Hn) | exact Hm |].
      rewrite loc_child by (exact Hd || exact Hn). apply under_grandchild. }
  unfold Install, bind. specialize (Hf w).
  destruct (fetch_verified cwd goos goarch dir mode tool version w) as [[[[v u] c]|e] w1]; [|apply Hf].
  destruct Hf as [Hf _]. etransitivity; [exact Hf|].
  pose proof (symlink_outcome (fst (fst c)) (Filepath.Join dir tool) w1) as [Hs _].
  cbn [fst snd]. cbv beta iota.
  destruct (atomicSymlink _ _ w1) as [[x|e] w2]; cbn [fst snd ret] in *; by rewrite Hs.
Qed.

(** ** The link is switched last *)

Definition anyhow (s s' : fs) : Prop := True.
#[export] Instance anyhow_preorder : PreOrder anyhow.
Proof. by split. Qed.

Lemma fetch_links dir mode tool version (w : W) :
  (forall y, no_slash (fst (rand_suffix (Y := Y) y)) = true) ->
  links_of (snd (fetch_verified cwd goos goarch dir mode tool version w)) = links_of w.
Proof.
  intros Hrand.
  assert (Hf : preserves (on_st (on_disk anyhow)) (fetch_verified cwd goos goarch dir mode tool version)).
  { apply (walk_fetch anyhow (fun _ => True)); try done.
    - intros n Hd Hn. by apply child_plain.
    - intros n m Hd Hn Hm. apply child_plain; [exact (child_nonempty _ _ Hd Hn) | done | done]. }
  destruct (Hf w) as [_ Hl]. symmetry. exact Hl.
Qed.

(** A failed installation leaves every link as it was; a successful one changes the
    link of the tool and no other; fetching without activation changes none. *)
Theorem link_switched_on_success (dir mode tool version : string) (w : W)
  (Hrand : forall y, no_slash (fst (rand_suffix (Y := Y) y)) = true) :
  (match Install cwd goos goarch dir mode tool version w with
   | (Err _, w') => links_of w ⊆ links_of w'
   | (Ok r, w') => exists target, rs_BinaryPath r = Filepath.Join dir tool /\
       links_of w' = <[Filepath.Join dir tool := target]> (links_of w)
   end) /\
  links_of (snd (DownloadVerified cwd goos goarch dir mode tool version w)) = links_of w.
Proof.
  pose proof (fetch_links dir mode tool version w Hrand) as Hl. unfold Install, DownloadVerified, bind.
  destruct (fetch_verified cwd goos goarch dir mode tool version w) as [[[[v u] c]|e] w1];
    cbn [fst snd ret] in *; [|by rewrite Hl].
  split; [|done].
  pose proof (symlink_outcome (fst (fst c)) (Filepath.Join dir tool) w1) as [_ Hs].
  destruct (atomicSymlink _ _ w1) as [[x|e] w2]; cbn [fst snd] in *; rewrite Hl in Hs; [|done].
  exists (fst (fst c)). split; [by destruct c as [[? ?] [? ?]] | done].
Qed.

(** ** What was installed *)

Lemma get_ok_tree what u (w : W) : tree_of (snd (get_ok what u w)) = tree_of w.
Proof. destruct (walk_get eq what u w) as [E _]. unfold tree_of. by rewrite E. Qed.

(** What the host answers, in some state of the outside, to a request for [u]. *)
Definition answered (u text : string) : Prop := exists y, fst (http_get u y) = Ok (200, Ok text).

Lemma get_ok_answered what u (w : W) text : fst (get_ok what u w) = Ok (Ok text) -> answered u text.
Proof.
  unfold get_ok, bind, outward, state. cbn [fst snd]. unfold answered.
  destruct (http_get u (around (st w))) as [[[status content]|e] y] eqn:E; cbn [fst snd]; [|done].
  destruct (Z.eqb_spec status 200) as [->|]; [|done]. cbn. intros [= ->].
  exists (around (st w)). by rewrite E.
Qed.

Lemma fetched_ok u dest limit (w : W) h :
  dest <> "" -> fst (downloadFile cwd u dest limit w) = Ok h ->
  exists data, h = sha256_hex data /\ answered u data /\
    tree_of (snd (downloadFile cwd u dest limit w)) !! loc cwd dest = Some (File data).
Proof.
  intros Hd Hr. unfold downloadFile in *. apply bind_ok in Hr as (content & Hget & Hr & ->).
  set (w1 := snd (get_ok "download" u w)) in *. clearbody w1.
  apply bind_ok in Hr as (x & Hc & Hr & ->).
  unfold Create in *. rewrite !on_path_loc in * by done.
  assert (Hf : tree_of (snd (on_files (open_create true (loc cwd dest)) w1)) !! loc cwd dest = Some (File ""))
    by exact (create_ok _ _ _ Hc).
  set (w2 := snd (on_files (open_create true (loc cwd dest)) w1)) in *. clearbody w2.
  destruct content as [text|e]; [|done].
  apply bind_ok in Hr as (n & Hn & Hr & ->). unfold Copy in *. rewrite !on_path_loc in * by done.
  destruct (copy_ok _ _ (fsw w2) n Hn Hf) as (Hdata & _ & Hlen). cbn [fst] in *.
  set (data := limit_string (limit + 1) text) in *.
  set (w3 := snd (on_files (copy_to (loc cwd dest) (data, None)) w2)) in *.
  assert (Ht : tree_of w3 !! loc cwd dest = Some (File data)) by exact Hdata. clearbody w3.
  destruct (Z.ltb_spec limit n) as [|Hle]; [by unfold bind in Hr|].
  cbn in Hr. injection Hr as <-. apply get_ok_answered in Hget.
  assert (Hs : data = text).
  { refine (f_equal fst (limit_reader_short (limit + 1) (text, None) _)).
    cbn [limit_reader fst]. fold data. unfold slen. lia. }
  rewrite Hs in *. by exists text.
Qed.

(** Files other than [q] stay. *)
Lemma download_keeps u dest limit (w : W) p c :
  plain (fun q => q = loc cwd dest) dest -> p <> loc cwd dest -> tree_of w !! p = Some (File c) ->
  tree_of (snd (downloadFile cwd u dest limit w)) !! p = Some (File c).
Proof.
  intros Hp Hne Hc.
  assert (Hk : preserves (on_st (on_disk (keeps [loc cwd dest]))) (downloadFile cwd u dest limit)).
  { apply (walk_download (keeps [loc cwd dest]) (fun q => q = loc cwd dest)); [| | |done].
    - intros q ->. apply open_keeps. by left.
    - intros q r ->. unfold copy_to. apply preserves_bind; [typeclasses eauto | apply write_keeps; by left |].
      intros [y|e]; apply preserves_ret; typeclasses eauto.
    - intros q ->. apply remove_file_keeps. by left. }
  destruct (Hk w) as [Hk' _]. apply Hk'; [|exact Hc]. by intros [<-|[]].
Qed.

(** A line of the text gives the digest, for the file [name] or for no file in particular. *)
Definition names_digest (name hash text : string) : Prop :=
  exists line d rest, In line (split_on newline text) /\ fields (trim_space line) = d :: rest /\
    to_lower d = hash /\
    (rest = [] \/ List.last rest "" = name \/ List.last rest "" = "*" +:+ name).

(** The digest is the one the release gives: in the checksums file the host answered
    with, or, for a release without one, in the entry of the asset. *)
Definition vouched (spec : AssetSpec) (a : ghAsset) (c : option ghAsset) (hash text : string) : Prop :=
  match c with
  | Some c => answered (ga_BrowserDownloadURL c) text /\ names_digest (ga_Name a) hash text
  | None => text = "" /\ UseAssetDigest spec = true /\
            exists d, ga_Digest a = "sha256:" +:+ d /\ to_lower d = hash
  end.

Lemma hex_decode_some d e : hex_decode d = Some e -> to_lower d = e.
Proof. unfold hex_decode. destruct (_ && _); [by intros [= <-] | done]. Qed.

Lemma asset_digest_ok digest hash :
  verifyAssetDigest digest hash = None -> exists d, digest = "sha256:" +:+ d /\ to_lower d = hash.
Proof.
  unfold verifyAssetDigest. destruct (has_prefix digest "sha256:") eqn:E; [|done]. cbn [negb].
  apply has_prefix_iff in E as [d ->]. rewrite trim_prefix_app.
  destruct (hex_decode d) as [e|] eqn:Eh; [|done]. destruct (String.eqb_spec e hash) as [<-|]; [|done].
  intros _. exists d. split; [done | by apply hex_decode_some].
Qed.

Lemma checksum_lines_ok name hash lines :
  checksum_lines name hash lines = None ->
  exists line d rest, In line lines /\ fields (trim_space line) = d :: rest /\ to_lower d = hash /\
    (rest = [] \/ List.last rest "" = name \/ List.last rest "" = "*" +:+ name).
Proof.
  induction lines as [|line lines IH]; cbn [checksum_lines]; [done|].
  assert (Hrest : checksum_lines name hash lines = None -> exists l d rest, In l (line :: lines) /\
    fields (trim_space l) = d :: rest /\ to_lower d = hash /\
    (rest = [] \/ List.last rest "" = name \/ List.last rest "" = "*" +:+ name)).
  { intros Hn. destruct (IH Hn) as (l & d & rest & Hin & Hl). exists l, d, rest. split; [by right | done]. }
  unfold checksum_line. destruct (fields (trim_space line)) as [|d [|x rest]] eqn:Ef; [done| |].
  - destruct (hex_decode d) as [e|] eqn:Eh; [|done]. destruct (String.eqb_spec e hash) as [<-|]; [|done].
    intros _. exists line, d, []. split; [by left|]. split; [done|]. split; [by apply hex_decode_some | by left].
  - destruct (String.eqb_spec (trim_prefix (List.last (d :: x :: rest) "") "*") name) as [En|]; [|done].
    destruct (hex_decode d) as [e|] eqn:Eh; [|done]. destruct (String.eqb_spec e hash) as [<-|]; [|done].
    intros _. exists line, d, (x :: rest). split; [by left|]. split; [done|].
    split; [by apply hex_decode_some|]. right. change (List.last (d :: x :: rest) "") with (List.last (x :: rest) "") in En.
    rewrite <- En. destruct (has_prefix (List.last (x :: rest) "") "*") eqn:E.
    + right. apply has_prefix_iff in E as [t Et]. by rewrite Et, trim_prefix_app.
    + left. unfold trim_prefix. by rewrite E.
Qed.

Lemma open_file path (w : W) r c :
  path <> "" -> loc cwd path <> [] -> fst (on_files (Os.Open cwd path) w) = Ok r ->
  tree_of w !! loc cwd path = Some (File c) -> r = (c, None).
Proof.
  intros Hp Hl Hr Hc. unfold Os.Open in Hr. rewrite on_path_loc in Hr by done.
  destruct (call_ok _ _ (fsw w) r Hr) as [Ho _]. change (nodes (st (fsw w))) with (tree_of w) in Ho.
  destruct (stat_at (tree_of w) (loc cwd path)) as [n|e] eqn:E; [|done].
  apply (reach_ok (tree_of w) []) in E. cbn in E.
  assert (En : node_at (tree_of w) (loc cwd path) = Some (File c)) by by destruct (loc cwd path).
  rewrite En in E. injection E as <-. by injection Ho as <-.
Qed.

Lemma open_tree path (w : W) : tree_of (snd (on_files (Os.Open cwd path) w)) = tree_of w.
Proof.
  unfold tree_of, on_files, Os.Open, on_path. destruct (String.eqb path ""); [done|].
  unfold open_at, call, db. cbn. by destruct (faults w) as [|[] fs].
Qed.

Lemma read_tree path (w : W) : tree_of (snd (on_files (ReadFile cwd path) w)) = tree_of w.
Proof.
  unfold tree_of, on_files, ReadFile, on_path. destruct (String.eqb path ""); [done|].
  unfold read_at, open_at, read_all, bind, call, db. cbn.
  destruct (faults w) as [|[] fs]; cbn; [| done |];
    (destruct (stat_at _ _) as [[|c]|e]; cbn; try done; by destruct fs as [|[] fs']).
Qed.

(** Reading back the file gives its content, or fails. *)
Lemma read_file path (w : W) c :
  path <> "" -> loc cwd path <> [] -> tree_of w !! loc cwd path = Some (File c) ->
  forall text, fst (on_files (ReadFile cwd path) w) = Ok text -> text = c.
Proof.
  intros Hp Hl Hc text. unfold ReadFile. rewrite on_path_loc by done.
  intros Hr. apply (bind_ok (W := env fs)) in Hr as (r & Ho & Hr & _).
  assert (Er : r = (c, None)).
  { apply (open_file path w r c); try done. unfold Os.Open. by rewrite on_path_loc. }
  subst r. apply call_ok in Hr as [Hr _]. by injection Hr as <-.
Qed.

Lemma integrity_ok tmp spec a c h (w : W) data :
  (forall n p, safeChildPath tmp n = Ok p -> p <> "" /\ loc cwd p = loc cwd tmp ++ [n] /\
     plain (fun q => q = loc cwd p) p) ->
  match c with Some c => ChecksumsPattern spec <> None /\ ga_Name c <> ga_Name a | None => UseAssetDigest spec = true end ->
  fst (verify_integrity cwd tmp spec a c h w) = Ok data ->
  (exists text, vouched spec a c h text /\ (data = text \/ data = "")) /\
  forall p x, p = loc cwd tmp ++ [ga_Name a] -> tree_of w !! p = Some (File x) ->
    tree_of (snd (verify_integrity cwd tmp spec a c h w)) !! p = Some (File x).
Proof.
  intros Hkids Hspec. unfold verify_integrity, bind. destruct c as [c|].
  - destruct Hspec as [Hpat Hne].
    destruct (safeChildPath tmp (ga_Name c)) as [p|e] eqn:Ep; [|done].
    destruct (Hkids _ _ Ep) as (Hp & Hloc & Hplain).
    pose proof (fetched_ok (ga_BrowserDownloadURL c) p maxChecksumsSize w) as Hd.
    pose proof (fun q x => download_keeps (ga_BrowserDownloadURL c) p maxChecksumsSize w q x Hplain) as Hk.
    destruct (downloadFile cwd _ p _ w) as [[h'|e] w1]; [|done]. cbn [fst snd] in *.
    destruct (Hd h' Hp eq_refl) as (text & _ & Hans & Hf).
    assert (Hl : loc cwd p <> []) by (rewrite Hloc; by destruct (loc cwd tmp)).
    unfold verifyChecksum, bind. pose proof (open_tree p w1) as Ht.
    pose proof (fun r Hr => open_file p w1 r text Hp Hl Hr Hf) as Ho.
    destruct (on_files (Os.Open cwd p) w1) as [[r|e] w2]; [|done]. cbn [fst snd] in *.
    rewrite (Ho r eq_refl). cbn [fst snd ret].
    destruct (checksum_lines _ _ _) as [e|] eqn:Ec; [done|]. cbn [fst snd].
    pose proof (read_tree p w2) as Ht2. rewrite <- Ht in Hf.
    pose proof (read_file p w2 text Hp Hl Hf) as Hr.
    destruct (on_files (ReadFile cwd p) w2) as [t w3]. cbn [fst snd ret] in *.
    intros [= <-]. split.
    + exists text. split; [by split; [|apply checksum_lines_ok]|]. destruct t as [t|e]; [left; by apply Hr | by right].
    + intros q x -> Hx. rewrite Ht2, Ht. apply Hk; [|done]. rewrite Hloc.
      intros E. apply app_inv_head in E. congruence.
  - rewrite Hspec. destruct (verifyAssetDigest _ _) as [e|] eqn:E; [done|]. intros [= <-].
    split; [|done]. exists "". split; [|by left]. by split_and!; [..|apply asset_digest_ok].
Qed.

(** A signature that counts: the bundle the host answered with verified the checksums for
    the release. *)
Definition signed (spec : AssetSpec) (s : option ghAsset) (checksums version : string) : Prop :=
  exists asset text bundle, s = Some asset /\ answered (ga_BrowserDownloadURL asset) text /\
    read_limited maxSigBundleSize (Ok text) = Ok bundle /\ checksums <> "" /\
    sigstoreVerify bundle checksums (sprintf1 (sp_Identity (Signature spec)) version)
      (sp_Issuer (Signature spec)) = None.

Lemma fetch_signature_ok s cap (w : W) bundle :
  fst (fetch_signature s cap w) = Ok bundle ->
  exists text, answered (ga_BrowserDownloadURL s) text /\ read_limited cap (Ok text) = Ok bundle.
Proof.
  unfold fetch_signature. destruct (negb _); [done|]. intros Hr.
  apply bind_ok in Hr as (content & Hg & Hr & _). destruct content as [text|e]; [|done].
  cbn in Hr. exists text. split; [by eapply get_ok_answered | done].
Qed.

Lemma signature_ok spec sig checksums mode version (w : W) kind :
  sp_Type (Signature spec) = "sigstore" ->
  fst (verifyArtifactSignature spec sig checksums mode version w) = Ok (true, kind) ->
  signed spec sig checksums version.
Proof.
  intros Ht. unfold verifyArtifactSignature. rewrite Ht. cbn [String.eqb Ascii.eqb Bool.eqb orb].
  match goal with |- context [String.eqb ?m "off"] => destruct (String.eqb m "off"); [done|] end.
  destruct sig as [s|]; [|done].
  destruct (String.eqb_spec checksums "") as [|Hne]; [done|]. intros Hr.
  apply bind_ok in Hr as (bundle & Hb & Hr & _). apply fetch_signature_ok in Hb as (text & Ha & Hb).
  destruct (sigstoreVerify _ _ _ _) as [e|] eqn:E; [|by exists s, text, bundle].
  destruct (errors_is _ _); [done|]. by destruct (String.eqb _ _).
Qed.

(** In enforce mode a bundle that is there and refuted stops the installation. *)
Lemma signature_enforced spec s checksums version (w : W) r :
  sp_Type (Signature spec) = "sigstore" -> checksums <> "" ->
  fst (verifyArtifactSignature spec (Some s) checksums "enforce" version w) = Ok r ->
  (fst r = true /\ signed spec (Some s) checksums version) \/
  exists bundle e, sigstoreVerify bundle checksums (sprintf1 (sp_Identity (Signature spec)) version)
    (sp_Issuer (Signature spec)) = Some e /\ errors_is e errTrustRootUnavailable = true.
Proof.
  intros Ht Hc. unfold verifyArtifactSignature. rewrite Ht. cbn [String.eqb Ascii.eqb Bool.eqb orb].
  destruct (String.eqb_spec checksums "") as [|_]; [done|]. intros Hr.
  apply bind_ok in Hr as (bundle & Hb & Hr & _). apply fetch_signature_ok in Hb as (text & Ha & Hb).
  destruct (sigstoreVerify _ _ _ _) as [e|] eqn:E.
  - destruct (errors_is _ _) eqn:Ee; [|done]. right. by exists bundle, e.
  - injection Hr as <-. left. split; [done | by exists s, text, bundle].
Qed.

Lemma mkdirs_keep path (w : W) p c :
  tree_of w !! p = Some (File c) -> tree_of (snd (on_files (MkdirAll cwd path) w)) !! p = Some (File c).
Proof.
  intros Hc. unfold tree_of, on_files, MkdirAll, on_path. destruct (String.eqb path ""); [done|]. cbn.
  assert (Hk : on_st (keeps []) (fsw w) (snd (mkdir_all [] (loc cwd path) (fsw w)))) by apply mkdir_all_keeps.
  apply Hk; [by intros [] | exact Hc].
Qed.

Lemma extract_ok spec archive dest (w : W) bytes u :
  archive <> "" -> loc cwd archive <> [] -> dest <> "" ->
  tree_of w !! loc cwd archive = Some (File bytes) ->
  fst (extract cwd spec archive dest w) = Ok u ->
  exists rd, binary_of (ArchiveFormat spec) (BinaryInArchive spec) bytes = Ok rd /\ snd rd = None /\
    slen (fst rd) <= maxFileSize /\
    tree_of (snd (extract cwd spec archive dest w)) !! loc cwd dest = Some (File (fst rd)).
Proof.
  intros Ha Hl Hd Hf Hr. unfold extract in *. apply bind_ok in Hr as (r & Ho & Hr & ->).
  rewrite (open_file _ _ _ _ Ha Hl Ho Hf) in *. cbv beta iota in *.
  set (w1 := snd (on_files (Os.Open cwd archive) w)) in *. clearbody w1.
  destruct (binary_of _ _ bytes) as [rd|e]; [|done]. exists rd. split; [done|].
  unfold writeExtractedFile in *. apply bind_ok in Hr as (x & Hc & Hr & ->).
  unfold Create in *. rewrite !on_path_loc in * by done.
  assert (He : tree_of (snd (on_files (open_create true (loc cwd dest)) w1)) !! loc cwd dest = Some (File ""))
    by exact (create_ok _ _ _ Hc).
  set (w2 := snd (on_files (open_create true (loc cwd dest)) w1)) in *. clearbody w2.
  apply bind_ok in Hr as (n & Hn & Hr & ->). unfold Copy in *. rewrite !on_path_loc in * by done.
  destruct (copy_ok _ _ (fsw w2) n Hn He) as (Hdata & Hend & Hlen).
  set (w3 := snd (on_files (copy_to (loc cwd dest) (limit_reader (maxFileSize + 1) rd)) w2)) in *.
  assert (Ht : tree_of w3 !! loc cwd dest = Some (File (fst (limit_reader (maxFileSize + 1) rd)))) by exact Hdata.
  clearbody w3. destruct (Z.ltb_spec maxFileSize n) as [|Hle]; [by unfold bind in Hr|].
  assert (Es : limit_reader (maxFileSize + 1) rd = rd).
  { apply limit_reader_short. unfold slen. lia. }
  rewrite Es in *. split; [done|]. split; [unfold slen; lia|]. exact Ht.
Qed.

Lemma place_ok spec tool version archive dir (w : W) bytes t :
  dir <> "" -> good tool spec -> archive <> "" -> loc cwd archive <> [] ->
  tree_of w !! loc cwd archive = Some (File bytes) ->
  fst (place_binary cwd dir spec tool version archive w) = Ok t ->
  exists rd, loc cwd t = loc cwd dir ++ [tool +:+ "-" +:+ version; Base (BinaryInArchive spec)] /\
    binary_of (ArchiveFormat spec) (BinaryInArchive spec) bytes = Ok rd /\ snd rd = None /\
    slen (fst rd) <= maxFileSize /\
    tree_of (snd (place_binary cwd dir spec tool version archive w)) !! loc cwd t = Some (File (fst rd)).
Proof.
  intros Hd Hg Ha Hl Hf. unfold place_binary, bind.
  destruct (safeChildPath dir _) as [vd|e] eqn:E; [|done].
  apply (safe_child cwd) in E as (Hn & -> & Hvd & Hloc); [|done].
  pose proof (good_binary _ _ Hg) as Hb.
  set (vd := Filepath.Join dir (tool +:+ "-" +:+ version)) in *.
  set (dest := Filepath.Join vd (Base (BinaryInArchive spec))).
  assert (Hdest : dest <> "" /\ loc cwd dest = loc cwd dir ++ [tool +:+ "-" +:+ version; Base (BinaryInArchive spec)]).
  { split; [by apply child_nonempty|]. unfold dest. rewrite loc_child by done. by rewrite Hloc, <- app_assoc. }
  clearbody dest. destruct Hdest as [Hne Hdl].
  pose proof (mkdirs_keep vd w _ _ Hf) as Hf1.
  destruct (on_files (MkdirAll cwd vd) w) as [[m|e] w1]; [|done]. cbn [fst snd] in *.
  pose proof (fun u => extract_ok spec archive dest w1 bytes u Ha Hl Hne Hf1) as Hx.
  destruct (extract cwd spec archive dest w1) as [[u|e] w2]; cbn [fst snd] in *;
    [|destruct (RemoveAll cwd vd w2); done].
  destruct (Hx u eq_refl) as (rd & H1' & H2' & H3' & H4').
  assert (Hc : tree_of (snd (chmod cwd dest w2)) = tree_of w2).
  { unfold tree_of, chmod, on_files, on_path. destruct (String.eqb dest ""); [done|].
    unfold call, db. cbn. by destruct (faults w2) as [|[] fs]. }
  destruct (chmod cwd dest w2) as [[c|e] w3]; cbn [fst snd ret] in *; [|done].
  intros [= <-]. exists rd. rewrite Hc. by repeat split.
Qed.

Lemma remove_tree_keeps tmp (w : W) p c :
  take (length (loc cwd tmp)) p <> loc cwd tmp -> tree_of w !! p = Some (File c) ->
  tree_of (snd (RemoveAll cwd tmp w)) !! p = Some (File c).
Proof.
  intros Hn Hc. unfold tree_of, RemoveAll, on_files, on_path. destruct (String.eqb tmp ""); [done|].
  unfold remove_tree, call, db. cbn.
  destruct (faults w) as [|[] fs]; cbn; [|done|]; by apply map_lookup_filter_Some.
Qed.

(** The file is the entry of the archive the host answered with, whose digest the release
    gives; a signature is reported only where the bundle verified the same checksums. *)
Definition obtained (spec : AssetSpec) (a : ghAsset) (c s : option ghAsset) (version hash : string)
  (verified : bool) (t : tree) (target : string) : Prop :=
  exists archive rd text, answered (ga_BrowserDownloadURL a) archive /\ hash = sha256_hex archive /\
    vouched spec a c hash text /\
    binary_of (ArchiveFormat spec) (BinaryInArchive spec) archive = Ok rd /\ snd rd = None /\
    slen (fst rd) <= maxFileSize /\ t !! loc cwd target = Some (File (fst rd)) /\
    (verified = true -> sp_Type (Signature spec) = "sigstore" -> signed spec s text version).

(** The release the host answered with, the latest one or the one pinned. *)
Definition released (spec : AssetSpec) (pinned : string) (release : ghRelease) : Prop :=
  exists text json,
    answered (if String.eqb pinned "" then LatestReleaseAPI spec
              else sprintf1 (VersionedAPI spec) (trim_prefix pinned "v")) text /\
    read_limited maxReleaseJSONSize (Ok text) = Ok json /\ decode_gh_release json = Ok release.

(** An installed binary comes from the first asset of the release with a fitting name, over
    HTTPS, as do the checksums. *)
Definition installed (spec : AssetSpec) (pinned version url hash : string) (verified : bool) (t : tree)
  (target : string) : Prop :=
  exists release a,
    let c := find_asset (ChecksumsPattern spec) (gr_Assets release) in
    let s := find_asset (SignaturePattern spec) (gr_Assets release) in
    released spec pinned release /\ version = trim_prefix (gr_TagName release) "v" /\
    find_asset (Some (AssetPattern spec)) (gr_Assets release) = Some a /\
    url = ga_BrowserDownloadURL a /\ isHTTPS url = true /\
    match c with Some c => isHTTPS (ga_BrowserDownloadURL c) = true | None => True end /\
    obtained spec a c s version hash verified t target.

Lemma steps_ok n dir mode spec tool version a c s (w : W) target hash verified kind :
  dir <> "" -> good tool spec -> tmp_name n ->
  MatchString (AssetPattern spec) (ga_Name a) = true ->
  match c with Some c => exists p, ChecksumsPattern spec = Some p /\ MatchString p (ga_Name c) = true
             | None => UseAssetDigest spec = true end ->
  fst (download_steps cwd (Filepath.Join dir n) dir mode spec tool version a c s w) =
    Ok (target, hash, (verified, kind)) ->
  obtained spec a c s version hash verified
    (tree_of (snd (download_steps cwd (Filepath.Join dir n) dir mode spec tool version a c s w))) target /\
  loc cwd target = loc cwd dir ++ [tool +:+ "-" +:+ version; Base (BinaryInArchive spec)].
Proof.
  intros Hd Hg Hn Hma Hc. apply tmp_proper in Hn.
  pose proof (child_nonempty _ _ Hd Hn) as Htmp. set (tmp := Filepath.Join dir n) in *.
  unfold download_steps, verified_binary. destruct (safeChildPath tmp (ga_Name a)) as [archive|e] eqn:E; [|done].
  apply (safe_child cwd) in E as (Hna & -> & Hane & Hal); [|done].
  set (archive := Filepath.Join tmp (ga_Name a)) in *. intros Hr.
  assert (Hl0 : loc cwd archive <> []) by (rewrite Hal; by destruct (loc cwd tmp)).
  apply bind_ok in Hr as (h & Hdl & Hr & ->).
  destruct (fetched_ok _ _ _ w h Hane Hdl) as (data & -> & Hans & Hf).
  set (w1 := snd (downloadFile cwd _ _ _ w)) in *. clearbody w1.
  apply bind_ok in Hr as (checksums & Hin & Hr & ->).
  assert (Hkids : forall m p, safeChildPath tmp m = Ok p -> p <> "" /\ loc cwd p = loc cwd tmp ++ [m] /\
     plain (fun q => q = loc cwd p) p).
  { intros m p Hm. apply (safe_child cwd) in Hm as (Hm & -> & Hp & Hlp); [|done].
    split; [done|]. split; [done|]. apply child_plain; [done | done | by rewrite Hlp]. }
  destruct (integrity_ok tmp spec a c (sha256_hex data) w1 checksums Hkids) as ((text & Hpub & Htext) & Hkeep).
  { destruct c as [c|]; [|done]. destruct Hc as (p & Hp & Hm). split; [by rewrite Hp|].
    intros En. pose proof (good_names _ _ Hg (ga_Name a) Hma) as Hno. rewrite Hp, <- En in Hno. congruence. }
  { exact Hin. }
  specialize (Hkeep (loc cwd archive) data Hal Hf).
  set (w2 := snd (verify_integrity cwd _ _ _ _ _ w1)) in *. clearbody w2.
  apply bind_ok in Hr as ([v k] & Hsig & Hr & ->).
  destruct (walk_signature eq spec s checksums mode version w2) as [Htree _].
  set (w3 := snd (verifyArtifactSignature _ _ _ _ _ w2)) in *.
  assert (Hf3 : tree_of w3 !! loc cwd archive = Some (File data)) by (unfold tree_of in *; by rewrite <- Htree).
  clearbody w3. apply bind_ok in Hr as (t & Hpl & Hr & ->).
  destruct (place_ok _ _ _ _ _ w3 data t Hd Hg Hane Hl0 Hf3 Hpl) as (rd & Hlt & Hb & He & Hs & Hft).
  injection Hr as <- <- <- <-. split; [|done].
  exists data, rd, text. repeat (split; [done|]). intros -> Hty.
  pose proof (signature_ok _ _ _ _ _ _ _ Hty Hsig) as Hok. destruct Htext as [->| ->]; [done|].
  by destruct Hok as (? & ? & ? & _ & _ & _ & ? & _).
Qed.

Lemma find_asset_some pat assets a :
  find_asset pat assets = Some a -> exists p, pat = Some p /\ MatchString p (ga_Name a) = true.
Proof.
  unfold find_asset. destruct pat as [p|]; [|done]. intros Hf. apply List.find_some in Hf as [_ Hf]. by exists p.
Qed.

Lemma release_ok spec v (w : W) release :
  fst (resolveRelease spec v w) = Ok release -> released spec v release.
Proof.
  unfold resolveRelease. destruct (_ && _); [done|]. intros Hr.
  apply bind_ok in Hr as (content & Hg & Hr & _). destruct content as [text|e]; [|done].
  apply get_ok_answered in Hg. cbn [fst ret] in Hr.
  destruct (read_limited _ _) as [json|e] eqn:Ej; [|done].
  destruct (decode_gh_release json) as [r|e] eqn:Ed; [|done]. injection Hr as ->. by exists text, json.
Qed.

Lemma assets_ok spec v (w : W) version a c s :
  fst (resolve_assets spec v w) = Ok (version, a, c, s) ->
  exists release, released spec v release /\ version = trim_prefix (gr_TagName release) "v" /\
    find_asset (Some (AssetPattern spec)) (gr_Assets release) = Some a /\
    c = find_asset (ChecksumsPattern spec) (gr_Assets release) /\
    s = find_asset (SignaturePattern spec) (gr_Assets release) /\
    match c with None => UseAssetDigest spec = true | Some _ => True end.
Proof.
  unfold resolve_assets, bind, matchAssets. pose proof (release_ok spec v w) as Hrel.
  destruct (resolveRelease spec v w) as [[r|e] w1]; [|done]. specialize (Hrel _ eq_refl).
  cbn [fst snd]; cbv beta iota.
  destruct (find_asset (Some (AssetPattern spec)) (gr_Assets r)) as [a'|] eqn:Ea; [|done].
  destruct (find_asset (ChecksumsPattern spec) (gr_Assets r)) as [c'|] eqn:Ec;
    [|destruct (UseAssetDigest spec) eqn:Eu; [|done]];
    unfold ret; cbn; intros [=]; subst; by exists r.
Qed.

Lemma downloadExtract_ok dir mode spec tool version a c s (w : W) target hash verified kind :
  (forall y, no_slash (fst (rand_suffix (Y := Y) y)) = true) -> dir <> "" -> good tool spec ->
  MatchString (AssetPattern spec) (ga_Name a) = true ->
  match c with Some c => exists p, ChecksumsPattern spec = Some p /\ MatchString p (ga_Name c) = true
             | None => UseAssetDigest spec = true end ->
  fst (downloadExtract cwd dir mode spec tool version a c s w) = Ok (target, hash, (verified, kind)) ->
  isHTTPS (ga_BrowserDownloadURL a) = true /\
  match c with Some c => isHTTPS (ga_BrowserDownloadURL c) = true | None => True end /\
  obtained spec a c s version hash verified
    (tree_of (snd (downloadExtract cwd dir mode spec tool version a c s w))) target.
Proof.
  intros Hrand Hd Hg Ha Hc. unfold downloadExtract.
  destruct (isHTTPS (ga_BrowserDownloadURL a)) eqn:Ehttps; [|done]. cbn [negb].
  match goal with |- context [if ?b then _ else _] => destruct b eqn:Ec end; [done|]. intros Hr.
  split; [done|]. split; [destruct c; [by apply negb_false_iff | done]|]. clear Ec. revert Hr.
  unfold bind. pose proof (temp_dir dir Hrand w) as Ht.
  destruct (MkdirTemp cwd dir "tmp-install-" w) as [[tmp|e] w1]; [|done]. destruct Ht as (n & Hn & ->).
  cbn [fst snd]; cbv beta iota.
  pose proof (steps_ok n dir mode spec tool version a c s w1 target hash verified kind Hd Hg Hn Ha Hc) as Hs.
  destruct (download_steps _ _ _ _ _ _ _ _ _ _ w1) as [r w2]. cbn [fst snd] in *; cbv beta iota.
  pose proof (remove_tree_keeps (Filepath.Join dir n) w2) as Hk.
  destruct (RemoveAll cwd (Filepath.Join dir n) w2) as [u w3]. cbn [fst snd ret] in *. intros ->.
  destruct (Hs eq_refl) as [(archive & rd & text & Ha' & Hh & Hp & Hb & He & Hl & Hf & Hv) Htarget].
  exists archive, rd, text. repeat (split; [done|]). split; [|done]. apply Hk; [|exact Hf].
  pose proof (tmp_proper n Hn) as Hpn. rewrite Htarget, loc_child by done. rewrite length_app. cbn [length].
  rewrite take_app, take_ge, Nat.add_comm, Nat.add_sub by lia. cbn.
  intros E. apply app_inv_head in E. injection E as E. destruct Hn as (sfx & -> & _).
  exact (good_dir _ _ Hg _ _ E).
Qed.

Lemma fetch_ok dir mode tool v (w : W) version u target hash verified kind :
  (forall y, no_slash (fst (rand_suffix (Y := Y) y)) = true) ->
  fst (fetch_verified cwd goos goarch dir mode tool v w) = Ok (version, u, (target, hash, (verified, kind))) ->
  exists spec, Lookup tool goos goarch = Some spec /\
    installed spec v version u hash verified
      (tree_of (snd (fetch_verified cwd goos goarch dir mode tool v w))) target.
Proof.
  intros Hrand. unfold fetch_verified, bind.
  assert (Hd : match fst (ensureWritableDir cwd dir w) with Ok _ => dir <> "" | Err _ => True end).
  { unfold ensureWritableDir, bind. destruct (String.eqb_spec dir "") as [|Hd]; [done|].
    repeat case_match; cbn; done. }
  destruct (ensureWritableDir cwd dir w) as [[x|e] w1]; [|done]. cbn [fst snd] in *.
  destruct (Lookup tool goos goarch) as [spec|] eqn:E; [|done]. pose proof (catalog_good _ _ _ _ E) as Hg.
  pose proof (assets_ok spec v w1) as Hm.
  destruct (resolve_assets spec v w1) as [[[[[version' a] c] s]|e] w2]; [|done].
  destruct (Hm version' a c s eq_refl) as (release & Hrel & -> & Ha & -> & -> & Hu). cbn [fst snd]; cbv beta iota.
  clear Hm. set (version' := trim_prefix _ _). set (c := find_asset (ChecksumsPattern spec) _) in *.
  set (s := find_asset (SignaturePattern spec) _).
  assert (Hma : MatchString (AssetPattern spec) (ga_Name a) = true).
  { by apply find_asset_some in Ha as (p & [= <-] & Ha). }
  assert (Hc : match c with Some c => exists p, ChecksumsPattern spec = Some p /\ MatchString p (ga_Name c) = true
             | None => UseAssetDigest spec = true end).
  { destruct c as [c'|] eqn:Ec; [by apply find_asset_some in Ec | done]. }
  pose proof (downloadExtract_ok dir mode spec tool version' a c s w2 target hash verified kind Hrand Hd Hg Hma Hc) as Hx.
  destruct (downloadExtract _ _ _ _ _ _ _ _ _ w2) as [[b|e] w3]; [|done]. cbn [fst snd ret] in *.
  intros [= <- <- ->]. destruct (Hx eq_refl) as (Hh & Hch & Hob). exists spec. split; [done|].
  by exists release, a.
Qed.

(** C22: After a successful installation the link of the tool points at a file that is the
    scanner's binary, nothing cut off, in the archive that the host answered with at the
    URL of the result: the HTTPS URL of the first asset fitting the catalog in the release
    that was asked for - the latest or the pinned one - and answered.  The result's
    version is that release's, its digest that archive's, and the digest is the one a line
    of the release's checksums file gives, as the host answered with it over HTTPS, or,
    for a release without that file, the one in the entry of the asset.  The result
    reports a verified Sigstore signature only where the bundle the host answered with
    verified those very checksums for the catalog's identity at that version. *)
Theorem installed_binary_is_verified (dir mode tool version : string) (w : W) (r : Result)
  (Hrand : forall y, no_slash (fst (rand_suffix (Y := Y) y)) = true)
  (Hr : fst (Install cwd goos goarch dir mode tool version w) = Ok r) :
  let w' := snd (Install cwd goos goarch dir mode tool version w) in
  exists spec target, Lookup tool goos goarch = Some spec /\
    links_of w' !! rs_BinaryPath r = Some target /\
    installed spec version (rs_Version r) (rs_SourceURL r) (rs_Sha256 r) (rs_SignatureVerified r)
      (tree_of w') target.
Proof.
  cbn zeta. unfold Install, bind in *.
  pose proof (fun a b c d e f => fetch_ok dir mode tool version w a b c d e f Hrand) as Hf.
  destruct (fetch_verified _ _ _ _ _ _ _ w) as [[[[v u] [[target hash] [verified kind]]]|e] w1]; [|done].
  destruct (Hf _ _ _ _ _ _ eq_refl) as (spec & Hl & Hi). cbn [fst snd] in *; cbv beta iota in *.
  pose proof (symlink_outcome target (Filepath.Join dir tool) w1) as [Hs Hk].
  destruct (atomicSymlink _ _ w1) as [[x|e] w2]; [|done]. cbn [fst snd ret] in *.
  injection Hr as <-. exists spec, target. cbn. rewrite Hk, lookup_insert_eq.
  split; [done|]. split; [done|]. unfold tree_of in *. by rewrite Hs.
Qed.
End Safety.

(** ** A concrete installation *)

Module Demo.
Definition asset (name : string) : ghAsset :=
  {| ga_Name := name; ga_BrowserDownloadURL := "https://gh/" +:+ name; ga_Digest := "" |}.
Definition archive_name : string := "trivy_0.50.1_Linux-64bit.tar.gz".
Definition checksums_name : string := "trivy_0.50.1_checksums.txt".
Definition release : ghRelease := {|
  gr_TagName := "v0.50.1";
  gr_Assets := [asset checksums_name; asset (checksums_name +:+ ".sigstore.json"); asset archive_name] |}.

(** The outside is the archive the release serves. *)
Definition answer (u archive : string) : string :=
  if has_suffix u archive_name then archive
  else if has_suffix u checksums_name then "ab  " +:+ archive_name +:+ String newline ""
  else if has_suffix u ".sigstore.json" then "bundle" else "{}".
#[export] Instance http : Http string := {|
  http_get u := fun y => (Ok (200, Ok (answer u y)), y);
  http_download u := fun y => (Ok (200, Ok (answer u y)), y) |}.
#[export] Instance world : InstallerWorld string := {|
  rand_suffix := ret "42"; fetch_key _ _ := ret (Err (ErrMsg "no key")) |}.
#[export] Instance libs : InstallerLibs := {|
  decode_gh_release _ := Ok release; NewSemver _ := true;
  sigstoreVerify bundle _ _ _ := if String.eqb bundle "bundle" then None else Some (ErrMsg "refuted");
  gpg_verify _ _ _ := Some (ErrMsg "no") |}.
#[export] Instance sha : Sha256 := fun _ => "ab".
#[export] Instance targz : TarGz := fun bytes =>
  Ok (if String.eqb bytes "good" then [{| Name := "trivy"; Typeflag := TypeReg; body := ("#!trivy", None) |}] else [], None).
#[export] Instance zip : Zip := fun _ => Err (ErrMsg "zip: not a valid zip file").

Definition host (archive : string) : env (beside disk string) :=
  quiet (Beside (Disk (Fs {[ ["opt"] := Dir; ["opt"; "scanners"] := Dir ]} []) ∅) archive).
Definition install (w : env (beside disk string)) : res Result * env (beside disk string) :=
  Install [] "linux" "amd64" "/opt/scanners" "" "trivy" "" w.

Lemma suffixes_plain y : no_slash (fst (rand_suffix (Y := string) y)) = true.
Proof. done. Qed.

Lemma installer_stays_inside_witness :
  moves_below ["opt"; "scanners"] (files (tabs (st (host "good")))) (files (tabs (st (snd (install (host "good")))))).
Proof. exact (installer_stays_inside [] "linux" "amd64" "/opt/scanners" "" "trivy" "" (host "good") suffixes_plain). Defined.

Lemma link_switched_on_success_witness :
  links_of (snd (install (host "good"))) = {[ "/opt/scanners/trivy" := "/opt/scanners/trivy-0.50.1/trivy" ]}.
Proof.
  destruct (link_switched_on_success [] "linux" "amd64" "/opt/scanners" "" "trivy" "" (host "good") suffixes_plain)
    as [_ Hd].
  vm_compute. reflexivity.
Defined.

Lemma installed_binary_is_verified_witness :
  exists r spec target, fst (install (host "good")) = Ok r /\
    installed [] spec "" "0.50.1" ("https://gh/" +:+ archive_name) "ab" true
      (tree_of (snd (install (host "good")))) target.
Proof.
  destruct (fst (install (host "good"))) as [r|e] eqn:E; [|by vm_compute in E].
  destruct (installed_binary_is_verified [] "linux" "amd64" "/opt/scanners" "" "trivy" "" (host "good") r suffixes_plain E)
    as (spec & target & _ & _ & Hi).
  vm_compute in E. injection E as <-. by eexists _, spec, target.
Defined.

(** Installing the active version again removes its directory when the archive does not
    hold the binary: the link stays and points nowhere. *)
Example failed_reinstall_breaks_the_link :
  let w1 := snd (install (host "good")) in
  let w2 := Env (Beside (tabs (st w1)) "bad") [] 0 [] in
  tree_of w1 !! ["opt"; "scanners"; "trivy-0.50.1"; "trivy"] = Some (File "#!trivy") /\
  (exists e, fst (install w2) = Err e) /\
  links_of (snd (install w2)) !! "/opt/scanners/trivy" = Some "/opt/scanners/trivy-0.50.1/trivy" /\
  tree_of (snd (install w2)) !! ["opt"; "scanners"; "trivy-0.50.1"; "trivy"] = None.
Proof.
  cbn zeta. split; [vm_compute; reflexivity|]. split; [|split; vm_compute; reflexivity].
  destruct (fst (install _)) as [r|e] eqn:E; [by vm_compute in E | by exists e].
Qed.
End Demo.
