(* ===== verification/Backend.v ===== *)
(** * The storage interface of the handlers

    [internal/storage/storage.go] as a class, what its callers rely on as laws, and
    the local backend as an instance: the laws follow from its refinement of a map
    ([StorageSpec]).  The laws speak of clean keys only, which is all the handlers
    use for what they store. *)

From S2P Require Import Prelude GoStrings Filepath Os LocalStorage StorageSpec.

#[local] Open Scope Z_scope.

(** The methods of [Storage]; the TTL of a URL in nanoseconds. *)
Class Backend (Y : Type) := {
  be_Upload : string -> reader -> Z -> prog Y (res UploadResult);
  be_Download : string -> prog Y (res reader);
  be_Delete : string -> prog Y (res unit);
  be_GetURL : string -> Z -> prog Y (res string);
  be_Exists : string -> prog Y (res bool);
  be_GetMetadata : string -> prog Y (res FileMetadata);
}.

(** The contents by key, in the states that can occur.  A failing call may have
    touched its own key; no call touches another one. *)
Class BackendLaws (Y : Type) `{Sha256} `{Backend Y} := {
  content : Y -> store_map;
  sane : Y -> Prop;
  upload_law k r n y : sane y -> file_key k ->
    let y' := snd (be_Upload k r n y) in
    sane y' /\ same_but k (content y) (content y') /\
    forall u, fst (be_Upload k r n y) = Ok u ->
      content y' k = Some (fst r) /\ snd r = None /\
      u = {| ur_Path := k; ur_Size := Z.of_nat (String.length (fst r)); ur_Checksum := sha256_hex (fst r) |};
  delete_law k y : sane y -> file_key k ->
    let y' := snd (be_Delete k y) in
    sane y' /\ same_but k (content y) (content y') /\
    (content y' k = None \/ content y' k = content y k) /\
    (is_ok (fst (be_Delete k y)) = true -> content y' k = None);
  download_law k y : sane y -> file_key k ->
    let y' := snd (be_Download k y) in
    sane y' /\ (forall k', content y' k' = content y k') /\
    forall c, fst (be_Download k y) = Ok (c, None) -> content y k = Some c;
  url_law k ttl y : sane y -> file_key k ->
    let y' := snd (be_GetURL k ttl y) in
    sane y' /\ forall k', content y' k' = content y k';
}.

(** Calls that leave the store alone. *)
Definition leaves_store {Y A} `{BackendLaws Y} (c : prog Y A) : Prop :=
  forall y, sane y -> sane (snd (c y)) /\ forall k, content (snd (c y)) k = content y k.

Lemma leaves_ret {Y A} `{BackendLaws Y} (a : A) : leaves_store (ret a).
Proof. by intros y. Qed.

Lemma leaves_bind {Y A B} `{BackendLaws Y} (c : prog Y A) (k : A -> prog Y B) :
  leaves_store c -> (forall a, leaves_store (k a)) -> leaves_store (bind c k).
Proof.
  intros Hc Hk y Hy. destruct (Hc y Hy) as [Hy' Hs]. destruct (Hk (fst (c y)) _ Hy') as [Hy'' Hs'].
  split; [exact Hy''|]. intros k'. unfold bind. by rewrite Hs', Hs.
Qed.

(** ** The local backend *)

Section Local.
Context `{Sha256} (cwd : list string) (dir_size : Z) (s : LocalStorage) (Hn : named s).

#[export] Instance local_backend : Backend (env fs) := {|
  be_Upload k r n := Upload cwd s k r n;
  be_Download k := Download cwd s k;
  be_Delete k := LocalStorage.Delete cwd s k;
  be_GetURL k _ := GetURL cwd s k;
  be_Exists k := LocalStorage.Exists cwd s k;
  be_GetMetadata k := GetMetadata cwd dir_size s k;
|}.

Lemma local_upload k r n (w : env fs) :
  closed (nodes (st w)) -> file_key k ->
  closed (nodes (st (snd (Upload cwd s k r n w)))) /\
  same_but k (objects cwd s w) (objects cwd s (snd (Upload cwd s k r n w))) /\
  forall u, fst (Upload cwd s k r n w) = Ok u ->
    objects cwd s (snd (Upload cwd s k r n w)) k = Some (fst r) /\ snd r = None /\
    u = {| ur_Path := k; ur_Size := Z.of_nat (String.length (fst r)); ur_Checksum := sha256_hex (fst r) |}.
Proof.
  intros Hcl Hk. destruct (key_path cwd s Hn k Hk) as (ds & x & _ & Hd & Hx & Hs & Hf & Hsd).
  split; [|split].
  - apply (upload_confined cwd s k r n Hn (key_below cwd s Hn k Hk) w), Hcl.
  - apply keeps_objects. exact (upload_keeps cwd s k ds x Hd Hx Hf Hsd r n Hs w).
  - intros u Hu. destruct (upload_outcome cwd s k ds x Hd Hx Hf Hsd r n w u Hs Hu) as (Hc & Hr & ->).
    split; [by apply object_lookup | by split].
Qed.

Lemma local_serve q (w : env fs) :
  closed (nodes (st w)) -> file_key (key_of q) ->
  closed (nodes (st (snd (serve cwd s q w)))) /\
  store_does q (objects cwd s w) (fst (serve cwd s q w)) (objects cwd s (snd (serve cwd s q w))).
Proof. intros Hcl Hk. split; [by apply serve_closed | by apply serve_refines]. Qed.

(** A deletion that fails removed nothing. *)
Lemma local_delete_failed k (w : env fs) :
  closed (nodes (st w)) -> file_key k -> is_ok (fst (LocalStorage.Delete cwd s k w)) = false ->
  nodes (st (snd (LocalStorage.Delete cwd s k w))) = nodes (st w).
Proof.
  intros Hcl Hk. destruct (key_path cwd s Hn k Hk) as (ds & x & _ & Hd & Hx & Hs & Hf & Hsd).
  unfold LocalStorage.Delete. rewrite Hs, (Remove_file cwd s k ds x Hd Hx Hf). unfold bind.
  pose proof (remove_outcome (object_at cwd s k) w Hcl (object_at_nonempty cwd s k)) as Ho.
  destruct (remove_at (object_at cwd s k) w) as [[u|e] w1]; cbn [fst snd] in *.
  - unfold bind. by repeat case_match.
  - destruct Ho as [Ho _]. by destruct (IsNotExist e).
Qed.

#[export] Instance local_backend_laws : BackendLaws (env fs).
Proof.
  refine {| content := objects cwd s; sane := fun w => closed (nodes (st w)) |}.
  - intros k r n w Hcl Hk. exact (local_upload k r n w Hcl Hk).
  - intros k w Hcl Hk. destruct (local_serve (RDelete k) w Hcl Hk) as [Hc Hd].
    pose proof (local_delete_failed k w Hcl Hk) as Hfail.
    cbn [serve] in *. unfold bind in *. cbn [be_Delete local_backend].
    destruct (LocalStorage.Delete cwd s k w) as [[u|e] w']; cbn [fst snd ret is_ok] in *;
      inversion Hd; subst; (split; [done|]); (split; [done|]); (split; [|done]); [by left|].
    right. unfold objects. by rewrite Hfail.
  - intros k w Hcl Hk. destruct (local_serve (RDownload k) w Hcl Hk) as [Hc Hd].
    cbn [serve] in *. unfold bind in *. cbn [be_Download local_backend].
    destruct (Download cwd s k w) as [[[c [e|]]|e] w']; cbn [fst snd ret] in *;
      inversion Hd; subst; (split; [done|]); (split; [done|]); intros c' E; by inversion E; subst.
  - intros k ttl w Hcl Hk. destruct (local_serve (RExists k) w Hcl Hk) as [Hc Hd].
    cbn [serve] in *. unfold bind in *. cbn [be_GetURL local_backend]. unfold GetURL, bind.
    destruct (LocalStorage.Exists cwd s k w) as [[b|e] w']; cbn [fst snd ret] in *;
      inversion Hd; subst; repeat case_match; cbn [snd ret]; by split.
Defined.
End Local.
