(* ===== verification/Hoare.v ===== *)
(** * Triples over the state

    Partial specifications of programs: whatever the failures of the database and
    the readings of the clock, from a state satisfying the precondition the result
    and the state satisfy the postcondition.  One rule per statement of the two
    table models ([Tables], [ProvRepo]).  Then the parts of storage paths the
    handlers build from names they have validated. *)

From S2P Require Import Prelude GoStrings Validation Filepath AutoApprove Tables TfMirrorRepo ProvRepo ProvSync.

Definition triple {S A} (Pre : S -> Prop) (c : prog (env S) A) (Post : A -> S -> Prop) : Prop :=
  forall w, Pre (st w) -> Post (fst (c w)) (st (snd (c w))).

Lemma triple_ret {S A} (Pre : S -> Prop) (a : A) (Post : A -> S -> Prop) :
  (forall s, Pre s -> Post a s) -> triple Pre (ret a) Post.
Proof. intros HP w. apply HP. Qed.

Lemma triple_bind {S A B} Pre Mid Post (c : prog (env S) A) (k : A -> prog (env S) B) :
  triple Pre c Mid -> (forall a, triple (Mid a) (k a) Post) -> triple Pre (bind c k) Post.
Proof. intros Hc Hk w HP. apply Hk, Hc, HP. Qed.

Lemma triple_weaken {S A} (Pre Pre' : S -> Prop) (c : prog (env S) A) (Post Post' : A -> S -> Prop) :
  triple Pre c Post -> (forall s, Pre' s -> Pre s) -> (forall a s, Post a s -> Post' a s) -> triple Pre' c Post'.
Proof. intros Hc H1 H2 w HP. apply H2, Hc, H1, HP. Qed.

Lemma triple_now {S} (Pre : S -> Prop) : triple Pre time_now (fun _ => Pre).
Proof. intros w HP. exact HP. Qed.

Lemma triple_pure {S A} (Pre : S -> Prop) (c : prog (env S) A) (Q : Prop) Post :
  (forall s, Pre s -> Q) -> (Q -> triple Pre c Post) -> triple Pre c Post.
Proof. intros HQ Hc w HP. apply Hc; [by eapply HQ | exact HP]. Qed.

Section Statements.
Context {T Y : Type}.

Lemma triple_sql {A} op (f : T -> res A * T) (Pre : beside T Y -> Prop) (Post : res A -> beside T Y -> Prop) :
  (forall s, Pre s -> Post (Err (ErrDB op)) s) ->
  (forall t y, Pre (Beside t y) -> Post (fst (f t)) (Beside (snd (f t)) y)) ->
  triple Pre (sql op f) Post.
Proof.
  intros He Hf w HP. unfold sql, db. destruct (st w) as [t y] eqn:E.
  destruct (faults w) as [|[] fs]; cbn; rewrite ?E; auto.
Qed.

Lemma triple_query {A} op (f : T -> res A) (Pre : beside T Y -> Prop) (Post : res A -> beside T Y -> Prop) :
  (forall s, Pre s -> Post (Err (ErrDB op)) s) ->
  (forall t y, Pre (Beside t y) -> Post (f t) (Beside t y)) -> triple Pre (query op f) Post.
Proof. intros He Hf. by apply triple_sql. Qed.

Lemma triple_outward {A} (c : prog Y A) (Pre : beside T Y -> Prop) (Post : A -> beside T Y -> Prop) :
  (forall t y, Pre (Beside t y) -> Post (fst (c y)) (Beside t (snd (c y)))) -> triple Pre (outward c) Post.
Proof. intros Hc w HP. cbn. destruct (st w) as [t y]. by apply Hc. Qed.
End Statements.


(** The provider tables. *)
Section ProviderStatements.
Context {Y : Type}.

Lemma triple_psql {A} op (f : pdb -> res A * pdb) (Pre : pm Y -> Prop) (Post : res A -> pm Y -> Prop) :
  (forall s, Pre s -> Post (Err (ErrDB op)) s) ->
  (forall t y, Pre (PM t y) -> Post (fst (f t)) (PM (snd (f t)) y)) ->
  triple Pre (psql op f) Post.
Proof.
  intros He Hf w HP. unfold psql, db. destruct (st w) as [t y] eqn:E.
  destruct (faults w) as [|[] fs]; cbn; rewrite ?E; auto.
Qed.

Lemma triple_pquery {A} op (f : pdb -> res A) (Pre : pm Y -> Prop) (Post : res A -> pm Y -> Prop) :
  (forall s, Pre s -> Post (Err (ErrDB op)) s) ->
  (forall t y, Pre (PM t y) -> Post (f t) (PM t y)) -> triple Pre (pquery op f) Post.
Proof. intros He Hf. by apply triple_psql. Qed.

Lemma triple_out {A} (c : prog Y A) (Pre : pm Y -> Prop) (Post : A -> pm Y -> Prop) :
  (forall t y, Pre (PM t y) -> Post (fst (c y)) (PM t (snd (c y)))) -> triple Pre (out c) Post.
Proof. intros Hc w HP. cbn. destruct (st w) as [t y]. by apply Hc. Qed.
End ProviderStatements.

(** ** Path segments *)

Definition segment (s : string) : Prop := reRegistrySegment s = true.

Lemma segment_no_slash s : all_chars seg_rest s = true -> no_slash s = true.
Proof.
  induction s as [|c s IH]; [done|]. cbn. intros Hs. bools. rewrite IH by done.
  destruct (Ascii.eqb_spec c "/") as [->|]; [by vm_compute in H | done].
Qed.

Lemma segment_proper s : segment s -> proper s.
Proof.
  unfold segment. destruct s as [|c s]; [done|]. cbn. intros Hs. bools.
  assert (Hall : all_chars seg_rest (String c s) = true).
  { cbn. apply andb_true_iff. split; [|done]. unfold seg_rest. by rewrite H. }
  apply segment_no_slash in Hall. repeat split; [done | | |exact Hall];
    intros E; injection E as -> _; by vm_compute in H.
Qed.

(** Versions that can be a file name. *)
Definition file_version (v : string) : Prop := no_slash v = true.

(** ** Programs over the whole world

    The same rules where the clock and the failures to come matter. *)
Section Worlds.
Context {W : Type}.

Definition holds {A} (Pre : W -> Prop) (c : prog W A) (Post : A -> W -> Prop) : Prop :=
  forall w, Pre w -> Post (fst (c w)) (snd (c w)).

Lemma holds_ret {A} (Pre : W -> Prop) (a : A) (Post : A -> W -> Prop) :
  (forall w, Pre w -> Post a w) -> holds Pre (ret a) Post.
Proof. intros HP w. apply HP. Qed.

Lemma holds_bind {A B} Pre Mid Post (c : prog W A) (k : A -> prog W B) :
  holds Pre c Mid -> (forall a, holds (Mid a) (k a) Post) -> holds Pre (bind c k) Post.
Proof. intros Hc Hk w HP. apply Hk, Hc, HP. Qed.

Lemma holds_weaken {A} (Pre Pre' : W -> Prop) (c : prog W A) (Post Post' : A -> W -> Prop) :
  holds Pre c Post -> (forall w, Pre' w -> Pre w) -> (forall a w, Post a w -> Post' a w) -> holds Pre' c Post'.
Proof. intros Hc H1 H2 w HP. apply H2, Hc, H1, HP. Qed.

(** A fact about the value read so far. *)
Lemma holds_pure {A} (Pre : W -> Prop) (Q : Prop) (c : prog W A) Post :
  (Q -> holds Pre c Post) -> holds (fun w => Pre w /\ Q) c Post.
Proof. intros Hc w [HP HQ]. by apply Hc. Qed.

Lemma holds_for_each {A} (Inv : W -> Prop) (xs : list A) (body : A -> prog W unit) :
  (forall x, In x xs -> holds Inv (body x) (fun _ => Inv)) -> holds Inv (for_each xs body) (fun _ => Inv).
Proof.
  induction xs as [|x xs IH]; intros Hb; cbn [for_each]; [by apply holds_ret|].
  eapply holds_bind; [apply Hb; by left | intros []; apply IH]. intros y Hy. apply Hb. by right.
Qed.

(** One call after the other, when the outcome of the first is known. *)
Lemma bind_run {A B} (c : prog W A) (k : A -> prog W B) w a w' : c w = (a, w') -> bind c k w = k a w'.
Proof. intros Hc. unfold bind. by rewrite Hc. Qed.
End Worlds.
