(* ===== verification/ModuleRepo.v ===== *)
(** * The tables of the module catalogue

    The rows of [internal/db/models/module.go] in full, and the statements of
    [internal/db/repositories/module_repository.go], with those of the scan queue and
    of the documentation the handlers run.  ([ScmRepo] keeps the columns the
    publisher needs beside its own tables.)  Names joined from the table of users are
    left out. *)

From S2P Require Import Prelude GoStrings SemVer TfMirrorRepo Tables.

#[local] Open Scope Z_scope.

(** ** Rows *)

Record Module := {
  mo_ID : uuid;
  mo_OrganizationID : uuid;
  mo_Namespace : string;
  mo_Name : string;
  mo_System : string;
  mo_Description : option string;
  mo_Source : option string;
  mo_CreatedBy : option string;
  mo_CreatedAt : Z;
  mo_UpdatedAt : Z;
  mo_Deprecated : bool;
  mo_DeprecatedAt : option Z;
  mo_DeprecationMessage : option string;
  mo_SuccessorModuleID : option uuid;
}.

Record ModuleVersion := {
  mv_ID : uuid;
  mv_ModuleID : uuid;
  mv_Version : string;
  mv_StoragePath : string;
  mv_StorageBackend : string;
  mv_SizeBytes : Z;
  mv_Checksum : string;
  mv_Readme : option string;
  mv_PublishedBy : option string;
  mv_DownloadCount : Z;
  mv_Deprecated : bool;
  mv_DeprecatedAt : option Z;
  mv_DeprecationMessage : option string;
  mv_ReplacementSource : option string;
  mv_CreatedAt : Z;
  mv_CommitSHA : option string;
  mv_TagName : option string;
  mv_SCMRepoID : option uuid;
}.

Record mdb := MDB {
  modules : list Module;
  module_versions : list ModuleVersion;
  (** queued versions with the state of their scan *)
  module_version_scans : list (uuid * string);
  module_version_docs : list (uuid * string);
  mnext : uuid;
}.

Definition on_modules f (t : mdb) : mdb :=
  MDB (f (modules t)) (module_versions t) (module_version_scans t) (module_version_docs t) (mnext t).
Definition on_mversions f (t : mdb) : mdb :=
  MDB (modules t) (f (module_versions t)) (module_version_scans t) (module_version_docs t) (mnext t).
Definition on_scans f (t : mdb) : mdb :=
  MDB (modules t) (module_versions t) (f (module_version_scans t)) (module_version_docs t) (mnext t).
Definition on_mdocs f (t : mdb) : mdb :=
  MDB (modules t) (module_versions t) (module_version_scans t) (f (module_version_docs t)) (mnext t).
Definition mbump (t : mdb) : mdb :=
  MDB (modules t) (module_versions t) (module_version_scans t) (module_version_docs t) (S (mnext t)).

(** ** Updates *)

Definition set_touched (now : Z) (m : Module) : Module := {|
  mo_ID := mo_ID m; mo_OrganizationID := mo_OrganizationID m; mo_Namespace := mo_Namespace m;
  mo_Name := mo_Name m; mo_System := mo_System m; mo_Description := mo_Description m;
  mo_Source := mo_Source m; mo_CreatedBy := mo_CreatedBy m; mo_CreatedAt := mo_CreatedAt m;
  mo_UpdatedAt := now; mo_Deprecated := mo_Deprecated m; mo_DeprecatedAt := mo_DeprecatedAt m;
  mo_DeprecationMessage := mo_DeprecationMessage m; mo_SuccessorModuleID := mo_SuccessorModuleID m |}.

(** Namespace, description and source, whatever they were. *)
Definition set_module (now : Z) (row m : Module) : Module := {|
  mo_ID := mo_ID m; mo_OrganizationID := mo_OrganizationID m; mo_Namespace := mo_Namespace row;
  mo_Name := mo_Name m; mo_System := mo_System m; mo_Description := mo_Description row;
  mo_Source := mo_Source row; mo_CreatedBy := mo_CreatedBy m; mo_CreatedAt := mo_CreatedAt m;
  mo_UpdatedAt := now; mo_Deprecated := mo_Deprecated m; mo_DeprecatedAt := mo_DeprecatedAt m;
  mo_DeprecationMessage := mo_DeprecationMessage m; mo_SuccessorModuleID := mo_SuccessorModuleID m |}.

Definition set_module_deprecation (dep : bool) (at_ : option Z) (msg : option string)
  (successor : option uuid) (m : Module) : Module := {|
  mo_ID := mo_ID m; mo_OrganizationID := mo_OrganizationID m; mo_Namespace := mo_Namespace m;
  mo_Name := mo_Name m; mo_System := mo_System m; mo_Description := mo_Description m;
  mo_Source := mo_Source m; mo_CreatedBy := mo_CreatedBy m; mo_CreatedAt := mo_CreatedAt m;
  mo_UpdatedAt := mo_UpdatedAt m; mo_Deprecated := dep; mo_DeprecatedAt := at_;
  mo_DeprecationMessage := msg; mo_SuccessorModuleID := successor |}.

Definition set_version_state (downloads : Z) (dep : bool) (at_ : option Z) (msg repl : option string)
  (v : ModuleVersion) : ModuleVersion := {|
  mv_ID := mv_ID v; mv_ModuleID := mv_ModuleID v; mv_Version := mv_Version v;
  mv_StoragePath := mv_StoragePath v; mv_StorageBackend := mv_StorageBackend v;
  mv_SizeBytes := mv_SizeBytes v; mv_Checksum := mv_Checksum v; mv_Readme := mv_Readme v;
  mv_PublishedBy := mv_PublishedBy v; mv_DownloadCount := downloads; mv_Deprecated := dep;
  mv_DeprecatedAt := at_; mv_DeprecationMessage := msg; mv_ReplacementSource := repl;
  mv_CreatedAt := mv_CreatedAt v; mv_CommitSHA := mv_CommitSHA v; mv_TagName := mv_TagName v;
  mv_SCMRepoID := mv_SCMRepoID v |}.

Definition set_deprecated (now : Z) (msg repl : option string) (v : ModuleVersion) : ModuleVersion :=
  set_version_state (mv_DownloadCount v) true (Some now) msg repl v.
Definition set_undeprecated (v : ModuleVersion) : ModuleVersion :=
  set_version_state (mv_DownloadCount v) false None None None v.
Definition count_download (v : ModuleVersion) : ModuleVersion :=
  set_version_state (mv_DownloadCount v + 1) (mv_Deprecated v) (mv_DeprecatedAt v)
    (mv_DeprecationMessage v) (mv_ReplacementSource v) v.

(** ** Statements *)

Definition duplicate_key := ErrMsg "duplicate key value violates unique constraint".
Definition missing_parent := ErrMsg "violates foreign key constraint".

Definition any {R} (cond : R -> bool) (rows : list R) : bool := List.existsb cond rows.

Definition module_is (id : uuid) (m : Module) : bool := (mo_ID m =? id)%nat.
Definition version_has (id : uuid) (v : ModuleVersion) : bool := (mv_ID v =? id)%nat.

Definition addressed (orgID : uuid) (namespace name system : string) (m : Module) : bool :=
  (mo_OrganizationID m =? orgID)%nat && String.eqb (mo_Namespace m) namespace &&
  String.eqb (mo_Name m) name && String.eqb (mo_System m) system.

Definition same_address (a b : Module) : bool :=
  addressed (mo_OrganizationID a) (mo_Namespace a) (mo_Name a) (mo_System a) b.

Definition version_is (moduleID : uuid) (version : string) (v : ModuleVersion) : bool :=
  (mv_ModuleID v =? moduleID)%nat && String.eqb (mv_Version v) version.

(** Versions go with their scans and documentation. *)
Definition drop_versions (gone : ModuleVersion -> bool) (t : mdb) : mdb :=
  let ids := mv_ID <$> List.filter gone (module_versions t) in
  let hit (i : uuid) := any (Nat.eqb i) ids in
  MDB (modules t) (List.filter (fun v => negb (gone v)) (module_versions t))
    (List.filter (fun s => negb (hit (fst s))) (module_version_scans t))
    (List.filter (fun d => negb (hit (fst d))) (module_version_docs t)) (mnext t).

(** A module goes with its versions; successors pointing at it are cleared. *)
Definition drop_module (id : uuid) (t : mdb) : mdb :=
  on_modules (fun rows => update_rows (fun m => bool_decide (mo_SuccessorModuleID m = Some id))
      (fun m => set_module_deprecation (mo_Deprecated m) (mo_DeprecatedAt m) (mo_DeprecationMessage m) None m)
      (List.filter (fun m => negb (module_is id m)) rows))
    (drop_versions (fun v => (mv_ModuleID v =? id)%nat) t).

(** PostgreSQL: [ILIKE] with a pattern, and the search vector of a module. *)
Class TextSearch := {
  ilike : string -> string -> bool;
  fts_matches : string -> Module -> bool;
  fts_rank : string -> Module -> Z;
}.

Module ModuleRepository.
Section ModuleRepository.
Context {Y : Type} `{GoSort}.
#[local] Abbreviation P := (prog (env (beside mdb Y))).

(** *** Modules *)

(** Identifier and timestamps come from the database. *)
Definition fresh_module (id : uuid) (now : Z) (m : Module) : Module := {|
  mo_ID := id; mo_OrganizationID := mo_OrganizationID m; mo_Namespace := mo_Namespace m;
  mo_Name := mo_Name m; mo_System := mo_System m; mo_Description := mo_Description m;
  mo_Source := mo_Source m; mo_CreatedBy := mo_CreatedBy m; mo_CreatedAt := now; mo_UpdatedAt := now;
  mo_Deprecated := false; mo_DeprecatedAt := None; mo_DeprecationMessage := None;
  mo_SuccessorModuleID := None |}.

(** The caller's record with what [RETURNING] gives. *)
Definition returned (row m : Module) : Module := {|
  mo_ID := mo_ID row; mo_OrganizationID := mo_OrganizationID m; mo_Namespace := mo_Namespace m;
  mo_Name := mo_Name m; mo_System := mo_System m; mo_Description := mo_Description m;
  mo_Source := mo_Source m; mo_CreatedBy := mo_CreatedBy m; mo_CreatedAt := mo_CreatedAt row;
  mo_UpdatedAt := mo_UpdatedAt row; mo_Deprecated := mo_Deprecated m;
  mo_DeprecatedAt := mo_DeprecatedAt m; mo_DeprecationMessage := mo_DeprecationMessage m;
  mo_SuccessorModuleID := mo_SuccessorModuleID m |}.

Definition CreateModule (module : Module) : P (res Module) :=
  let! now := time_now in
  sql "failed to create module" (fun t =>
    if any (same_address module) (modules t)
    then (Err (ErrWrap "failed to create module" duplicate_key), t)
    else let row := fresh_module (mnext t) now module in
         (Ok (returned row module), on_modules (fun rows => rows ++ [row]) (mbump t))).

Definition UpsertModule (module : Module) : P (res Module) :=
  let! now := time_now in
  sql "failed to upsert module" (fun t =>
    match List.find (same_address module) (modules t) with
    | Some old =>
        (Ok (returned (set_touched now old) module),
         on_modules (update_rows (same_address module) (set_touched now)) t)
    | None =>
        let row := fresh_module (mnext t) now module in
        (Ok (returned row module), on_modules (fun rows => rows ++ [row]) (mbump t))
    end).

Definition GetModule (orgID : uuid) (namespace name system : string) : P (res (option Module)) :=
  query "failed to get module" (fun t =>
    Ok (List.find (addressed orgID namespace name system) (modules t))).

Definition GetModuleByID (id : uuid) : P (res (option Module)) :=
  query "failed to get module by ID" (fun t => Ok (List.find (module_is id) (modules t))).

(** No row to return is an error of [Scan]. *)
Definition UpdateModule (module : Module) : P (res Module) :=
  let! now := time_now in
  sql "failed to update module" (fun t =>
    match List.find (module_is (mo_ID module)) (modules t) with
    | None => (Err (ErrWrap "failed to update module" (ErrSentinel "sql.ErrNoRows")), t)
    | Some old =>
        let new := set_module now module old in
        if any (fun m => negb (module_is (mo_ID module) m) && same_address new m) (modules t)
        then (Err (ErrWrap "failed to update module" duplicate_key), t)
        else (Ok (set_touched now module),
              on_modules (update_rows (module_is (mo_ID module)) (set_module now module)) t)
    end).

(** [RowsAffected] is zero when nothing matched. *)
Definition affecting (op what : string) (hit : mdb -> bool) (f : mdb -> mdb) : P (res unit) :=
  sql op (fun t => if hit t then (Ok tt, f t) else (Err (ErrMsg (what +:+ " not found")), t)).

Definition has_module (id : uuid) (t : mdb) : bool := any (module_is id) (modules t).
Definition has_version (id : uuid) (t : mdb) : bool := any (version_has id) (module_versions t).

Definition DeleteModule (moduleID : uuid) : P (res unit) :=
  affecting "failed to delete module" "module" (has_module moduleID) (drop_module moduleID).

Definition DeprecateModule (moduleID : uuid) (message : option string) (successorModuleID : option uuid)
  : P (res unit) :=
  let! now := time_now in
  sql "failed to deprecate module" (fun t =>
    if negb (has_module moduleID t) then (Err (ErrMsg "module not found"), t)
    else if match successorModuleID with Some s => negb (has_module s t) | None => false end
    then (Err (ErrWrap "failed to deprecate module" missing_parent), t)
    else (Ok tt, on_modules (update_rows (module_is moduleID)
                   (set_module_deprecation true (Some now) message successorModuleID)) t)).

Definition UndeprecateModule (moduleID : uuid) : P (res unit) :=
  affecting "failed to undeprecate module" "module" (has_module moduleID)
    (on_modules (update_rows (module_is moduleID) (set_module_deprecation false None None None))).

(** *** Versions *)

Definition fresh_version (id : uuid) (now : Z) (v : ModuleVersion) : ModuleVersion := {|
  mv_ID := id; mv_ModuleID := mv_ModuleID v; mv_Version := mv_Version v;
  mv_StoragePath := mv_StoragePath v; mv_StorageBackend := mv_StorageBackend v;
  mv_SizeBytes := mv_SizeBytes v; mv_Checksum := mv_Checksum v; mv_Readme := mv_Readme v;
  mv_PublishedBy := mv_PublishedBy v; mv_DownloadCount := 0; mv_Deprecated := false;
  mv_DeprecatedAt := None; mv_DeprecationMessage := None; mv_ReplacementSource := None;
  mv_CreatedAt := now; mv_CommitSHA := mv_CommitSHA v; mv_TagName := mv_TagName v;
  mv_SCMRepoID := mv_SCMRepoID v |}.

Definition CreateVersion (version : ModuleVersion) : P (res ModuleVersion) :=
  let! now := time_now in
  sql "failed to create module version" (fun t =>
    if any (version_is (mv_ModuleID version) (mv_Version version)) (module_versions t)
    then (Err (ErrWrap "failed to create module version" duplicate_key), t)
    else if negb (has_module (mv_ModuleID version) t)
    then (Err (ErrWrap "failed to create module version" missing_parent), t)
    else let row := fresh_version (mnext t) now version in
         (Ok row, on_mversions (fun rows => rows ++ [row]) (mbump t))).

Definition GetVersion (moduleID : uuid) (version : string) : P (res (option ModuleVersion)) :=
  query "failed to get module version" (fun t =>
    Ok (List.find (version_is moduleID version) (module_versions t))).

Definition GetVersionByID (id : uuid) : P (res (option ModuleVersion)) :=
  query "get module version by ID" (fun t => Ok (List.find (version_has id) (module_versions t))).

Definition GetVersionByChecksum (moduleID : uuid) (checksum : string) : P (res (option ModuleVersion)) :=
  query "get module version by checksum" (fun t =>
    Ok (List.find (fun v => (mv_ModuleID v =? moduleID)%nat && String.eqb (mv_Checksum v) checksum)
          (module_versions t))).

Definition moduleParseSemverParts (version : string) : list Z :=
  fill3 (fun p => fst (atoi p)) (split_on "." (cut_any (trim_prefix version "v") "-")).

Definition moduleCompareSemver (a b : string) : Z :=
  compare_parts (moduleParseSemverParts a) (moduleParseSemverParts b).

Definition versions_of (moduleID : uuid) (t : mdb) : list ModuleVersion :=
  List.filter (fun v => (mv_ModuleID v =? moduleID)%nat) (module_versions t).

Definition ListVersions (moduleID : uuid) : P (res (list ModuleVersion)) :=
  query "failed to list module versions" (fun t =>
    Ok (go_sort (fun a b => 0 <? moduleCompareSemver (mv_Version a) (mv_Version b))
          (versions_of moduleID t))).

(** Newest first, and whether documentation exists; count and page are two
    statements. *)
Definition ListVersionsPaginated (moduleID : uuid) (limit offset : nat)
  : P (res (list (ModuleVersion * bool) * nat)) :=
  let? total := query "failed to count module versions" (fun t => Ok (length (versions_of moduleID t))) in
  let? versions := query "failed to list module versions" (fun t =>
    Ok ((fun v => (v, any (fun d => (fst d =? mv_ID v)%nat) (module_version_docs t))) <$>
        take limit (drop offset (go_sort (fun a b => mv_CreatedAt b <? mv_CreatedAt a)
          (versions_of moduleID t))))) in
  ret (Ok (versions, total)).

Definition GetAllWithSourceCommit : P (res (list ModuleVersion)) :=
  query "failed to query SCM-sourced versions" (fun t =>
    Ok (go_sort (fun a b => mv_CreatedAt b <? mv_CreatedAt a)
          (List.filter (fun v => bool_decide (is_Some (mv_CommitSHA v)) &&
                                 bool_decide (is_Some (mv_SCMRepoID v))) (module_versions t)))).

Definition IncrementDownloadCount (versionID : uuid) : P (res unit) :=
  exec "failed to increment download count"
    (on_mversions (update_rows (version_has versionID) count_download)).

Definition DeleteVersion (versionID : uuid) : P (res unit) :=
  affecting "failed to delete module version" "module version" (has_version versionID)
    (drop_versions (version_has versionID)).

Definition DeprecateVersion (versionID : uuid) (message replacementSource : option string) : P (res unit) :=
  let! now := time_now in
  affecting "failed to deprecate module version" "module version" (has_version versionID)
    (on_mversions (update_rows (version_has versionID) (set_deprecated now message replacementSource))).

Definition UndeprecateVersion (versionID : uuid) : P (res unit) :=
  affecting "failed to undeprecate module version" "module version" (has_version versionID)
    (on_mversions (update_rows (version_has versionID) set_undeprecated)).

(** *** Search *)

Context `{TextSearch}.

Definition found_by (orgID : option uuid) (cond : option (Module -> bool)) (namespace system : string)
  (m : Module) : bool :=
  match orgID with Some o => (mo_OrganizationID m =? o)%nat | None => true end &&
  match cond with Some c => c m | None => true end &&
  (String.eqb namespace "" || String.eqb (mo_Namespace m) namespace) &&
  (String.eqb system "" || String.eqb (mo_System m) system).

(** An absent description is not like anything. *)
Definition like_any (pattern : string) (m : Module) : bool :=
  ilike pattern (mo_Namespace m) || ilike pattern (mo_Name m) ||
  match mo_Description m with Some d => ilike pattern d | None => false end.

(** [ORDER BY m.deprecated ASC] and then by a key. *)
Definition ordered_by {A} (module_of : A -> Module) (less : A -> A -> bool) (a b : A) : bool :=
  match mo_Deprecated (module_of a), mo_Deprecated (module_of b) with
  | false, true => true
  | true, false => false
  | _, _ => less a b
  end.

Definition SearchModules (orgID : option uuid) (q namespace system : string) (limit offset : nat)
  : P (res (list Module * nat)) :=
  let cond := if String.eqb q "" then None else Some (like_any ("%" +:+ q +:+ "%")) in
  let hits t := List.filter (found_by orgID cond namespace system) (modules t) in
  let? total := query "failed to count modules" (fun t => Ok (length (hits t))) in
  let? rows := query "failed to search modules" (fun t =>
    Ok (take limit (drop offset
      (go_sort (ordered_by id (fun a b => mo_CreatedAt b <? mo_CreatedAt a)) (hits t))))) in
  ret (Ok (rows, total)).

(** [CAST(NULLIF(SPLIT_PART(version, '.', i), '') AS INTEGER)], a 32-bit integer,
    with the suffixes cut off and an empty part read as zero. *)
Definition sql_part (parts : list string) (i : nat) : res Z :=
  match nth i parts "" with
  | "" => Ok 0
  | p => if all_digits p then
           if fst (atoi p) <? 2^31 then Ok (fst (atoi p))
           else Err (ErrMsg "value is out of range for type integer")
         else Err (ErrMsg "invalid input syntax for type integer")
  end.

Definition sql_key (version : string) : res (list Z) :=
  let parts := split_on "." (cut_any (trim_prefix version "v") "-+") in
  match sql_part parts 0, sql_part parts 1, sql_part parts 2 with
  | Ok a, Ok b, Ok c => Ok [a; b; c]
  | Err e, _, _ | _, Err e, _ | _, _, Err e => Err e
  end.

(** Every version's key is computed, whichever comes first. *)
Fixpoint with_keys (versions : list ModuleVersion) : res (list (list Z * string)) :=
  match versions with
  | [] => Ok []
  | v :: versions' =>
      match sql_key (mv_Version v), with_keys versions' with
      | Ok k, Ok ks => Ok ((k, mv_Version v) :: ks)
      | Err e, _ | _, Err e => Err e
      end
  end.

Definition latest_version (versions : list ModuleVersion) : res (option string) :=
  match with_keys versions with
  | Err e => Err e
  | Ok ks => Ok (snd <$> head (go_sort (fun a b => 0 <? compare_parts (fst a) (fst b)) ks))
  end.

Record ModuleSearchResult := {
  sr_Module : Module;
  sr_LatestVersion : option string;
  sr_TotalDownloads : Z;
}.

Definition total_downloads (versions : list ModuleVersion) : Z :=
  foldr Z.add 0 (mv_DownloadCount <$> versions).

Definition result_row (t : mdb) (m : Module) : res ModuleSearchResult :=
  let versions := versions_of (mo_ID m) t in
  match latest_version versions with
  | Err e => Err e
  | Ok latest => Ok {| sr_Module := m; sr_LatestVersion := latest;
                       sr_TotalDownloads := total_downloads versions |}
  end.

Fixpoint result_rows (t : mdb) (ms : list Module) : res (list ModuleSearchResult) :=
  match ms with
  | [] => Ok []
  | m :: ms' => match result_row t m, result_rows t ms' with
                | Ok r, Ok rs => Ok (r :: rs)
                | Err e, _ | _, Err e => Err e
                end
  end.

Definition allowedModuleSortFields : list string :=
  [""; "relevance"; "name"; "downloads"; "created"; "updated"].

(** Descending unless the order is [asc]. *)
Definition directed (sortOrder : string) {K} (lt : K -> K -> bool) (a b : K) : bool :=
  if String.eqb sortOrder "asc" then lt a b else lt b a.

Definition search_order (useFTS : bool) (searchQuery sortField sortOrder : string)
  (a b : ModuleSearchResult) : bool :=
  let ma := sr_Module a in
  let mb := sr_Module b in
  let created := directed sortOrder Z.ltb (mo_CreatedAt ma) (mo_CreatedAt mb) in
  let rank := directed sortOrder Z.ltb (fts_rank searchQuery ma) (fts_rank searchQuery mb) in
  if String.eqb sortField "name" then directed sortOrder String.ltb (mo_Name ma) (mo_Name mb)
  else if String.eqb sortField "downloads"
  then directed sortOrder Z.ltb (sr_TotalDownloads a) (sr_TotalDownloads b)
  else if String.eqb sortField "created" then created
  else if String.eqb sortField "updated"
  then directed sortOrder Z.ltb (mo_UpdatedAt ma) (mo_UpdatedAt mb)
  else if useFTS then rank else created.

Definition SearchModulesWithStats (orgID : option uuid) (searchQuery namespace system : string)
  (limit offset : nat) (sortField sortOrder : string) : P (res (list ModuleSearchResult * nat)) :=
  let sortField := if bool_decide (sortField ∈ allowedModuleSortFields) then sortField else "" in
  let useFTS := (3 <=? String.length searchQuery)%nat in
  let cond := if String.eqb searchQuery "" then None
              else if useFTS then Some (fts_matches searchQuery)
              else Some (like_any (searchQuery +:+ "%")) in
  let hits t := List.filter (found_by orgID cond namespace system) (modules t) in
  let? total := query "failed to count modules" (fun t => Ok (length (hits t))) in
  let? rows := query "failed to search modules" (fun t =>
    match result_rows t (hits t) with
    | Err e => Err (ErrWrap "failed to search modules" e)
    | Ok rs => Ok (take limit (drop offset
        (go_sort (ordered_by sr_Module (search_order useFTS searchQuery sortField sortOrder)) rs)))
    end) in
  ret (Ok (rows, total)).

(** *** Scans and documentation *)

Definition CreatePendingScan (moduleVersionID : uuid) : P (res unit) :=
  sql "create pending scan" (fun t =>
    if negb (has_version moduleVersionID t) then (Err (ErrWrap "create pending scan" missing_parent), t)
    else (Ok tt, on_scans (fun rows =>
            if any (fun s => (fst s =? moduleVersionID)%nat) rows then rows
            else rows ++ [(moduleVersionID, "pending")]) t)).

(** A finished scan is queued again; one under way is left alone. *)
Definition requeue (moduleVersionID : uuid) (s : uuid * string) : uuid * string :=
  if (fst s =? moduleVersionID)%nat && negb (String.eqb (snd s) "pending" || String.eqb (snd s) "scanning")
  then (fst s, "pending") else s.

Definition UpsertPendingScan (moduleVersionID : uuid) : P (res unit) :=
  sql "upsert pending scan" (fun t =>
    if negb (has_version moduleVersionID t) then (Err (ErrWrap "upsert pending scan" missing_parent), t)
    else (Ok tt, on_scans (fun rows =>
            if any (fun s => (fst s =? moduleVersionID)%nat) rows then requeue moduleVersionID <$> rows
            else rows ++ [(moduleVersionID, "pending")]) t)).

Definition UpsertModuleDocs (moduleVersionID : uuid) (doc : string) : P (res unit) :=
  sql "upsert module docs" (fun t =>
    if negb (has_version moduleVersionID t) then (Err (ErrWrap "upsert module docs" missing_parent), t)
    else (Ok tt, on_mdocs (fun rows =>
            List.filter (fun d => negb (fst d =? moduleVersionID)%nat) rows ++ [(moduleVersionID, doc)]) t)).
End ModuleRepository.
End ModuleRepository.
