(* ===== verification/ModuleRegistry.v ===== *)
(** * The module handlers

    The protocol and publishing endpoints of [internal/api/modules] (upload, download,
    versions, search) and the administration of modules in [api/admin/modules.go],
    over the catalogue's tables ([ModuleRepo]) and the storage interface ([Backend]).
    Work a handler leaves to a goroutine (download counters, audit rows, e-mail)
    happens at its end.  Logging and metrics are left out, and so are JSON names. *)

From S2P Require Import Prelude GoStrings AutoApprove Validation Os Archive LocalStorage StorageSpec Backend.
From S2P Require Import TfMirrorRepo TfMirrorSync ProvRepo ProvSync Tables ModuleRepo.

#[local] Open Scope Z_scope.

(** ** Interfaces *)

(** [internal/analyzer]: terraform-docs over an archive. *)
Class Analyzer := AnalyzeArchive : string -> res (option string).

(** What the policy sees of an upload. *)
Record policy_input := {
  pi_Namespace : string;
  pi_Name : string;
  pi_System : string;
  pi_Version : string;
  pi_Size : Z;
}.

(** A compiled Rego query evaluated on an input: the violations. *)
Class Rego (Y : Type) := evaluate_query : string -> policy_input -> prog Y (res (list string)).

(** Mails and channels, and the audit table. *)
Class Notices (Y : Type) := {
  module_published : string -> string -> string -> string -> prog Y unit;
  audit_download : string -> uuid -> prog Y unit;
}.

(** ** Policies ([internal/policy/engine.go]) *)

Record PolicyEngine := {
  pe_Enabled : bool;
  pe_Mode : string;
  pe_Queries : list string;
}.

Section Policy.
Context {Y : Type} `{Rego Y}.

Fixpoint evaluate_all (queries : list string) (input : policy_input) : prog Y (res (list string)) :=
  match queries with
  | [] => ret (Ok [])
  | q :: queries' =>
      let! vs := evaluate_query q input in
      match vs with
      | Err e => ret (Err (ErrWrap "policy evaluation" e))
      | Ok vs => let? vs' := evaluate_all queries' input in ret (Ok (vs ++ vs'))
      end
  end.

(** Allowed, and the violations. *)
Definition Evaluate (e : PolicyEngine) (input : policy_input) : prog Y (res (bool * list string)) :=
  if negb (pe_Enabled e) || bool_decide (pe_Queries e = []) then ret (Ok (true, []))
  else let? vs := evaluate_all (pe_Queries e) input in ret (Ok (bool_decide (vs = []), vs)).
End Policy.

(** ** Requests and replies *)

(** The configuration the handlers read, and what is wired in. *)
Record Config := {
  DefaultBackend : string;
  ScanningEnabled : bool;
  ScanningBinaryPath : string;
  MultiTenancy : bool;
  scanRepo : bool;
  moduleDocsRepo : bool;
  policyEngine : option PolicyEngine;
}.

(** The fields of the multipart form, the file with its name, and the user. *)
Record UploadForm := {
  f_Namespace : string;
  f_Name : string;
  f_System : string;
  f_Version : string;
  f_Description : string;
  f_Source : string;
  f_File : option (string * reader);
  f_User : option string;
}.

Definition storagePath (namespace name system version : string) : string :=
  "modules/" +:+ namespace +:+ "/" +:+ name +:+ "/" +:+ system +:+ "/" +:+ version +:+ ".tar.gz".

Inductive body :=
| BError (message : string)
| BViolations (violations : list string)
| BUploaded (module : Module) (version : ModuleVersion) (filename : string)
| BNoContent (url : string)
| BVersions (source : option string) (versions : list (ModuleVersion * bool)) (total limit offset : nat)
| BSearch (results : list ModuleRepository.ModuleSearchResult) (limit offset total : nat)
| BModule (module : Module)
| BModuleDetail (module : Module) (versions : list ModuleVersion) (downloads : Z)
| BVersion (version : ModuleVersion)
| BMessage (message : string)
| BReanalyzed (docs scan : string).

Definition reply : Type := Z * body.

(** What [terraform init] reads of a deprecated version: reason and link. *)
Definition deprecation (v : ModuleVersion) : option (option string * option string) :=
  if mv_Deprecated v then
    match mv_DeprecationMessage v, mv_ReplacementSource v with
    | None, None => None
    | reason, link => Some (reason, link)
    end
  else None.

Section Handlers.
Context {Y : Type} `{GoSort} `{GoVersion} `{TarGz} `{Analyzer} `{TextSearch} `{MapRange}.
Context `{Backend Y} `{Organizations Y} `{TempFiles Y} `{Rego Y} `{Notices Y}.
Context (cfg : Config).
#[local] Abbreviation P := (prog (env (beside mdb Y))).
Import ModuleRepository.

Definition fail (status : Z) (message : string) : P reply := ret (status, BError message).

(** *** Common steps *)

(** The first field, in the order of the map, that is no registry segment. *)
Definition invalid_segment (fields : list (string * string)) : option string :=
  fst <$> List.find (fun kv => match ValidateRegistrySegment (snd kv) with Some _ => true | None => false end)
            (map_range fields).

(** The organization of the protocol handlers must be there. *)
Definition with_organization (k : uuid -> P reply) : P reply :=
  let! org := outward GetDefaultOrganization in
  match org with
  | Err e => fail 500 "Failed to get organization context"
  | Ok None => fail 500 "Default organization not found"
  | Ok (Some org) => k org
  end.

(** The administration goes on without one, and finds nothing: [None] is the
    identifier "", which no module has. *)
Definition find_module (org : option uuid) (namespace name system : string) : P (res (option Module)) :=
  match org with
  | Some org => GetModule org namespace name system
  | None => query "failed to get module" (fun _ => Err (ErrMsg "invalid input syntax for type uuid"))
  end.

Definition with_module (namespace name system : string) (k : Module -> P reply) : P reply :=
  let! org := outward GetDefaultOrganization in
  match org with
  | Err e => fail 500 "Failed to get organization context"
  | Ok org =>
      let! m := find_module org namespace name system in
      match m with
      | Err e => fail 500 "Failed to get module"
      | Ok None => fail 404 "Module not found"
      | Ok (Some module) => k module
      end
  end.

Definition with_version (namespace name system version : string) (k : ModuleVersion -> P reply) : P reply :=
  with_module namespace name system (fun module =>
    let! v := GetVersion (mo_ID module) version in
    match v with
    | Err e => fail 500 "Failed to get version"
    | Ok None => fail 404 "Version not found"
    | Ok (Some v) => k v
    end).
(** *** Upload *)

Definition required (f : UploadForm) : bool :=
  negb (String.eqb (f_Namespace f) "" || String.eqb (f_Name f) "" || String.eqb (f_System f) "" ||
        String.eqb (f_Version f) "").

Definition some_text (s : string) : option string := if String.eqb s "" then None else Some s.

(** The record the handler fills in: what the form does not give stays empty. *)
Definition form_module (org : uuid) (f : UploadForm) : Module := {|
  mo_ID := 0%nat; mo_OrganizationID := org; mo_Namespace := f_Namespace f; mo_Name := f_Name f;
  mo_System := f_System f; mo_Description := some_text (f_Description f);
  mo_Source := some_text (f_Source f); mo_CreatedBy := f_User f; mo_CreatedAt := 0; mo_UpdatedAt := 0;
  mo_Deprecated := false; mo_DeprecatedAt := None; mo_DeprecationMessage := None;
  mo_SuccessorModuleID := None |}.

Definition form_version (module : Module) (f : UploadForm) (u : UploadResult) (readme : option string)
  : ModuleVersion := {|
  mv_ID := 0%nat; mv_ModuleID := mo_ID module; mv_Version := f_Version f; mv_StoragePath := ur_Path u;
  mv_StorageBackend := DefaultBackend cfg; mv_SizeBytes := ur_Size u; mv_Checksum := ur_Checksum u;
  mv_Readme := readme; mv_PublishedBy := f_User f; mv_DownloadCount := 0; mv_Deprecated := false;
  mv_DeprecatedAt := None; mv_DeprecationMessage := None; mv_ReplacementSource := None;
  mv_CreatedAt := 0; mv_CommitSHA := None; mv_TagName := None; mv_SCMRepoID := None |}.

(** [None] when the upload may go on, also when the evaluation fails. *)
Definition check_policy (f : UploadForm) (size : Z) : P (option reply) :=
  match policyEngine cfg with
  | None => ret None
  | Some e =>
      if negb (pe_Enabled e) then ret None
      else
        let! r := outward (Evaluate e {| pi_Namespace := f_Namespace f; pi_Name := f_Name f;
                    pi_System := f_System f; pi_Version := f_Version f; pi_Size := size |}) in
        ret (match r with
             | Ok (false, violations) =>
                 if String.eqb (pe_Mode e) "block" then Some (422, BViolations violations) else None
             | _ => None
             end)
  end.

(** A seek that fails leaves the file at its end, where there is nothing to read. *)
Definition readme_in (data : string) : P (option string) :=
  let! s := outward SeekStart in
  ret (match ExtractReadme (match s with Ok _ => data | Err _ => "" end) with
       | Ok readme => some_text readme
       | Err _ => None
       end).

Definition queue_scan (versionID : uuid) : P unit :=
  if scanRepo cfg && ScanningEnabled cfg && negb (String.eqb (ScanningBinaryPath cfg) "")
  then run! CreatePendingScan versionID in ret tt
  else ret tt.

Definition store_docs (versionID : uuid) (data : string) : P unit :=
  if negb (moduleDocsRepo cfg) then ret tt
  else
    let! s := outward SeekStart in
    match s with
    | Err _ => ret tt
    | Ok _ => match AnalyzeArchive data with
              | Ok (Some doc) => run! UpsertModuleDocs versionID doc in ret tt
              | _ => ret tt
              end
    end.

(** The archive is stored, then the version is recorded; without the record the
    archive is deleted again. *)
Definition store_version (module : Module) (f : UploadForm) (data filename : string) : P reply :=
  let path := storagePath (f_Namespace f) (f_Name f) (f_System f) (f_Version f) in
  let! s := outward SeekStart in
  match s with
  | Err _ => fail 500 "Failed to process uploaded file"
  | Ok _ =>
      let! u := outward (be_Upload path (data, None) (Z.of_nat (String.length data))) in
      match u with
      | Err _ => fail 500 "Failed to upload file"
      | Ok u =>
          let! readme := readme_in data in
          let! v := CreateVersion (form_version module f u readme) in
          match v with
          | Err _ =>
              run! outward (be_Delete (ur_Path u)) in
              fail 500 "Failed to create version record"
          | Ok v =>
              run! outward (module_published (f_Namespace f) (f_Name f) (f_System f) (f_Version f)) in
              run! queue_scan (mv_ID v) in
              run! store_docs (mv_ID v) data in
              ret (201, BUploaded module v filename)
          end
      end
  end.

Definition register_module (org : uuid) (f : UploadForm) (data filename : string) : P reply :=
  let! m := UpsertModule (form_module org f) in
  match m with
  | Err _ => fail 500 "Failed to create/get module"
  | Ok module =>
      let! m := (if negb (String.eqb (f_Description f) "" && String.eqb (f_Source f) "")
                 then UpdateModule module else ret (Ok module)) in
      match m with
      | Err _ => fail 500 "Failed to update module"
      | Ok module =>
          let! existing := GetVersion (mo_ID module) (f_Version f) in
          match existing with
          | Err _ => fail 500 "Failed to check for existing version"
          | Ok (Some _) => fail 409 "Version already exists for this module"
          | Ok None => store_version module f data filename
          end
      end
  end.

(** From the multipart form, or the error of parsing it. *)
Definition UploadHandler (form : res UploadForm) : P reply :=
  match form with
  | Err _ => fail 400 "Failed to parse multipart form"
  | Ok f =>
      if negb (required f) then fail 400 "Missing required fields: namespace, name, system, version"
      else match invalid_segment [("namespace", f_Namespace f); ("name", f_Name f); ("system", f_System f)] with
      | Some field => fail 400 ("Invalid " +:+ field)
      | None =>
          match ValidateSemver (f_Version f), f_File f with
          | Some _, _ => fail 400 "Invalid version format"
          | None, None => fail 400 "Missing or invalid file upload"
          | None, Some (filename, (data, readError)) =>
              let! t := outward CreateTemp in
              match t with
              | Err _ => fail 500 "Failed to create temporary file"
              | Ok _ =>
                  let! c := outward (CopyToTemp data) in
                  match c, readError with
                  | Err _, _ | _, Some _ => fail 500 "Failed to read uploaded file"
                  | Ok _, None =>
                      let! s := outward SeekStart in
                      match s, ValidateArchive data MaxArchiveSize with
                      | Err _, _ => fail 500 "Failed to process uploaded file"
                      | Ok _, Some _ => fail 400 "Invalid archive"
                      | Ok _, None =>
                          let! p := check_policy f (Z.of_nat (String.length data)) in
                          match p with
                          | Some r => ret r
                          | None => with_organization (fun org => register_module org f data filename)
                          end
                      end
                  end
              end
          end
      end
  end.

(** *** Protocol *)

(** 15 minutes. *)
Definition url_ttl : Z := 15 * 60 * 10^9.

Definition DownloadHandler (auditRepo : bool) (namespace name system version : string) : P reply :=
  match ValidateSemver version with
  | Some _ => fail 400 "Invalid version format - must be valid semantic versioning"
  | None =>
      with_organization (fun org =>
        let! m := GetModule org namespace name system in
        match m with
        | Err _ => fail 500 "Failed to query module"
        | Ok None => fail 404 "Module not found"
        | Ok (Some module) =>
            let! v := GetVersion (mo_ID module) version in
            match v with
            | Err _ => fail 500 "Failed to query module version"
            | Ok None => fail 404 "Module version not found"
            | Ok (Some v) =>
                let! url := outward (be_GetURL (mv_StoragePath v) url_ttl) in
                match url with
                | Err _ => fail 500 "Failed to generate download URL"
                | Ok url =>
                    run! IncrementDownloadCount (mv_ID v) in
                    run! (if auditRepo then outward (audit_download "module" (mv_ID v)) else ret tt) in
                    ret (204, BNoContent url)
                end
            end
        end)
  end.

(** [strconv.Atoi] with its error ignored, the value brought into the range. *)
Definition page_limit (low high : Z) (text : string) : nat :=
  Z.to_nat (Z.max low (Z.min high (fst (atoi text)))).
Definition page_offset (text : string) : nat := Z.to_nat (Z.max 0 (fst (atoi text))).

(** Absent query parameters have the values "100" and "0". *)
Definition ListVersionsHandler (namespace name system limit offset : string) : P reply :=
  let limit := page_limit 1 1000 limit in
  let offset := page_offset offset in
  with_organization (fun org =>
    let! m := GetModule org namespace name system in
    match m with
    | Err _ => fail 500 "Failed to query module"
    | Ok None => fail 404 "Module not found"
    | Ok (Some module) =>
        let! r := ListVersionsPaginated (mo_ID module) limit offset in
        match r with
        | Err _ => fail 500 "Failed to list module versions"
        | Ok (versions, total) => ret (200, BVersions (mo_Source module) versions total limit offset)
        end
    end).

(** A number that does not parse, or is out of the range, is the default. *)
Definition number_or (default low high : Z) (text : string) : nat :=
  Z.to_nat (match atoi text with
            | (n, None) => if (n <? low) || (high <? n) then default else n
            | _ => default
            end).

Definition SearchHandler (q namespace system sort order limit offset : string) : P reply :=
  if negb (bool_decide (sort ∈ allowedModuleSortFields)) then fail 400 "Invalid sort parameter"
  else
    let limit := number_or 20 1 100 limit in
    let offset := number_or 0 0 (2^63 - 1) offset in
    let search org :=
      let! r := SearchModulesWithStats org q namespace system limit offset sort order in
      match r with
      | Err _ => fail 500 "Failed to search modules"
      | Ok (results, total) => ret (200, BSearch results limit offset total)
      end in
    if MultiTenancy cfg then with_organization (fun org => search (Some org)) else search None.

(** *** Administration ([api/admin/modules.go]) *)

Record CreateModuleRequest := {
  cr_Namespace : string;
  cr_Name : string;
  cr_System : string;
  cr_Description : string;
}.

Definition request_module (org : uuid) (r : CreateModuleRequest) (user : option string) : Module := {|
  mo_ID := 0%nat; mo_OrganizationID := org; mo_Namespace := cr_Namespace r; mo_Name := cr_Name r;
  mo_System := cr_System r; mo_Description := some_text (cr_Description r); mo_Source := None;
  mo_CreatedBy := user; mo_CreatedAt := 0; mo_UpdatedAt := 0; mo_Deprecated := false;
  mo_DeprecatedAt := None; mo_DeprecationMessage := None; mo_SuccessorModuleID := None |}.

(** An existing module is returned as it is. *)
Definition CreateModuleRecord (input : res CreateModuleRequest) (user : option string) : P reply :=
  match input with
  | Err _ => fail 400 "invalid request"
  | Ok r =>
      if String.eqb (cr_Namespace r) "" || String.eqb (cr_Name r) "" || String.eqb (cr_System r) ""
      then fail 400 "invalid request"
      else match invalid_segment [("namespace", cr_Namespace r); ("name", cr_Name r); ("system", cr_System r)] with
      | Some field => fail 400 ("Invalid " +:+ field)
      | None =>
          let! org := outward GetDefaultOrganization in
          match org with
          | Err _ | Ok None => fail 500 "failed to get organization context"
          | Ok (Some org) =>
              let! m := GetModule org (cr_Namespace r) (cr_Name r) (cr_System r) in
              match m with
              | Err _ => fail 500 "failed to query module"
              | Ok (Some module) => ret (200, BModule module)
              | Ok None =>
                  let! m := CreateModule (request_module org r user) in
                  match m with
                  | Err _ => fail 500 "failed to create module"
                  | Ok module => ret (201, BModule module)
                  end
              end
          end
      end
  end.

Definition GetModuleDetail (namespace name system : string) : P reply :=
  with_module namespace name system (fun module =>
    let! vs := ListVersions (mo_ID module) in
    match vs with
    | Err _ => fail 500 "Failed to list module versions"
    | Ok vs => ret (200, BModuleDetail module vs (total_downloads vs))
    end).

Definition GetModuleVersion (namespace name system version : string) : P reply :=
  with_version namespace name system version (fun v => ret (200, BVersion v)).

(** The archives go first, whatever comes of it; then the rows. *)
Fixpoint delete_archives (vs : list ModuleVersion) : P unit :=
  match vs with
  | [] => ret tt
  | v :: vs' =>
      run! (if String.eqb (mv_StoragePath v) "" then ret tt
            else run! outward (be_Delete (mv_StoragePath v)) in ret tt) in
      delete_archives vs'
  end.

Definition DeleteModuleHandler (namespace name system : string) : P reply :=
  with_module namespace name system (fun module =>
    let! vs := ListVersions (mo_ID module) in
    match vs with
    | Err _ => fail 500 "Failed to list module versions"
    | Ok vs =>
        run! delete_archives vs in
        let! d := DeleteModule (mo_ID module) in
        match d with
        | Err _ => fail 500 "Failed to delete module"
        | Ok _ => ret (200, BMessage "Module deleted successfully")
        end
    end).

Definition DeleteVersionHandler (namespace name system version : string) : P reply :=
  with_version namespace name system version (fun v =>
    run! delete_archives [v] in
    let! d := DeleteVersion (mv_ID v) in
    match d with
    | Err _ => fail 500 "Failed to delete version"
    | Ok _ => ret (200, BMessage "Version deleted successfully")
    end).

(** Message and replacement; a body that does not parse counts as an empty one. *)
Definition DeprecateVersionHandler (namespace name system version : string)
  (input : res (string * option string)) : P reply :=
  let '(message, replacement) := match input with Ok r => r | Err _ => ("", None) end in
  with_version namespace name system version (fun v =>
    let! d := DeprecateVersion (mv_ID v) (some_text message) replacement in
    match d with
    | Err _ => fail 500 "Failed to deprecate version"
    | Ok _ => ret (200, BMessage "Version deprecated successfully")
    end).

Definition UndeprecateVersionHandler (namespace name system version : string) : P reply :=
  with_version namespace name system version (fun v =>
    let! d := UndeprecateVersion (mv_ID v) in
    match d with
    | Err _ => fail 500 "Failed to undeprecate version"
    | Ok _ => ret (200, BMessage "Version deprecation removed successfully")
    end).

Definition DeprecateModuleHandler (namespace name system : string) (input : res (string * option uuid))
  : P reply :=
  let '(message, successor) := match input with Ok r => r | Err _ => ("", None) end in
  with_module namespace name system (fun module =>
    let! d := DeprecateModule (mo_ID module) (some_text message) successor in
    match d with
    | Err _ => fail 500 "Failed to deprecate module"
    | Ok _ => ret (200, BMessage "Module deprecated successfully")
    end).

Definition UndeprecateModuleHandler (namespace name system : string) : P reply :=
  with_module namespace name system (fun module =>
    let! d := UndeprecateModule (mo_ID module) in
    match d with
    | Err _ => fail 500 "Failed to undeprecate module"
    | Ok _ => ret (200, BMessage "Module deprecation removed successfully")
    end).

Record UpdateModuleRequest := {
  ur_Description : option string;
  ur_Source : option string;
  ur_Namespace : option string;
}.

(** The module with what the request changes. *)
Definition amended (r : UpdateModuleRequest) (m : Module) : Module := {|
  mo_ID := mo_ID m; mo_OrganizationID := mo_OrganizationID m;
  mo_Namespace := default (mo_Namespace m) (ur_Namespace r); mo_Name := mo_Name m;
  mo_System := mo_System m;
  mo_Description := match ur_Description r with Some d => Some d | None => mo_Description m end;
  mo_Source := match ur_Source r with Some x => Some x | None => mo_Source m end;
  mo_CreatedBy := mo_CreatedBy m; mo_CreatedAt := mo_CreatedAt m; mo_UpdatedAt := mo_UpdatedAt m;
  mo_Deprecated := mo_Deprecated m; mo_DeprecatedAt := mo_DeprecatedAt m;
  mo_DeprecationMessage := mo_DeprecationMessage m; mo_SuccessorModuleID := mo_SuccessorModuleID m |}.

(** The refusal of a new namespace, if any. *)
Definition namespace_refused (r : UpdateModuleRequest) (m : Module) : P (option reply) :=
  match ur_Namespace r with
  | None => ret None
  | Some ns =>
      if String.eqb ns "" then ret (Some (400, BError "namespace must not be empty"))
      else if String.eqb ns (mo_Namespace m) then ret None
      else
        let! existing := GetModule (mo_OrganizationID m) ns (mo_Name m) (mo_System m) in
        ret (match existing with
             | Err _ => Some (500, BError "failed to check namespace availability")
             | Ok (Some _) => Some (409, BError "a module with the same name and system already exists in the target namespace")
             | Ok None => None
             end)
  end.

Definition UpdateModuleRecord (id : uuid) (input : res UpdateModuleRequest) : P reply :=
  match input with
  | Err _ => fail 400 "invalid request"
  | Ok r =>
      let! m := GetModuleByID id in
      match m with
      | Err _ => fail 500 "failed to get module"
      | Ok None => fail 404 "module not found"
      | Ok (Some module) =>
          let! refused := namespace_refused r module in
          match refused with
          | Some answer => ret answer
          | None =>
              let! u := UpdateModule (amended r module) in
              match u with
              | Err _ => fail 500 "failed to update module"
              | Ok module => ret (200, BModule module)
              end
          end
      end
  end.

Definition GetModuleByIDRecord (id : uuid) : P reply :=
  let! m := GetModuleByID id in
  match m with
  | Err _ => fail 500 "failed to get module"
  | Ok None => fail 404 "module not found"
  | Ok (Some module) => ret (200, BModule module)
  end.

(** The outcome of the analysis, or the error that ends the request. *)
Definition reanalyze_docs (v : ModuleVersion) : P (res string) :=
  if negb (moduleDocsRepo cfg) then ret (Ok "skipped_no_docs_repo")
  else
    let! r := outward (be_Download (mv_StoragePath v)) in
    match r with
    | Err _ => ret (Err (ErrMsg "Failed to download archive from storage"))
    | Ok (_, Some _) => ret (Err (ErrMsg "Failed to read archive"))
    | Ok (data, None) =>
        match AnalyzeArchive data with
        | Err _ => ret (Ok "analysis_failed")
        | Ok None => ret (Ok "no_terraform_files")
        | Ok (Some doc) =>
            let! d := UpsertModuleDocs (mv_ID v) doc in
            ret (Ok (match d with Ok _ => "updated" | Err _ => "store_failed" end))
        end
    end.

Definition ReanalyzeVersion (namespace name system version : string) : P reply :=
  with_version namespace name system version (fun v =>
    if String.eqb (mv_StoragePath v) "" then fail 400 "Version has no stored archive"
    else
      let! docs := reanalyze_docs v in
      match docs with
      | Err _ => fail 500 "Failed to read the archive"
      | Ok docs =>
          if scanRepo cfg && ScanningEnabled cfg && negb (String.eqb (ScanningBinaryPath cfg) "")
          then let! q := UpsertPendingScan (mv_ID v) in
               ret (200, BReanalyzed docs (match q with Ok _ => "queued" | Err _ => "queue_failed" end))
          else ret (200, BReanalyzed docs "not_configured")
      end).

(** *** The endpoints *)

Inductive request :=
| Upload (form : res UploadForm)
| Download (auditRepo : bool) (namespace name system version : string)
| Versions (namespace name system limit offset : string)
| Search (q namespace system sort order limit offset : string)
| CreateRecord (input : res CreateModuleRequest) (user : option string)
| Detail (namespace name system : string)
| VersionDetail (namespace name system version : string)
| DeleteModuleReq (namespace name system : string)
| DeleteVersionReq (namespace name system version : string)
| DeprecateVersionReq (namespace name system version : string) (input : res (string * option string))
| UndeprecateVersionReq (namespace name system version : string)
| DeprecateModuleReq (namespace name system : string) (input : res (string * option uuid))
| UndeprecateModuleReq (namespace name system : string)
| UpdateRecord (id : uuid) (input : res UpdateModuleRequest)
| RecordByID (id : uuid)
| Reanalyze (namespace name system version : string).

Definition handle (q : request) : P reply :=
  match q with
  | Upload form => UploadHandler form
  | Download audit ns n s v => DownloadHandler audit ns n s v
  | Versions ns n s limit offset => ListVersionsHandler ns n s limit offset
  | Search q ns s sort order limit offset => SearchHandler q ns s sort order limit offset
  | CreateRecord input user => CreateModuleRecord input user
  | Detail ns n s => GetModuleDetail ns n s
  | VersionDetail ns n s v => GetModuleVersion ns n s v
  | DeleteModuleReq ns n s => DeleteModuleHandler ns n s
  | DeleteVersionReq ns n s v => DeleteVersionHandler ns n s v
  | DeprecateVersionReq ns n s v input => DeprecateVersionHandler ns n s v input
  | UndeprecateVersionReq ns n s v => UndeprecateVersionHandler ns n s v
  | DeprecateModuleReq ns n s input => DeprecateModuleHandler ns n s input
  | UndeprecateModuleReq ns n s => UndeprecateModuleHandler ns n s
  | UpdateRecord id input => UpdateModuleRecord id input
  | RecordByID id => GetModuleByIDRecord id
  | Reanalyze ns n s v => ReanalyzeVersion ns n s v
  end.

Fixpoint handle_all (qs : list request) : P (list reply) :=
  match qs with
  | [] => ret []
  | q :: qs' => let! r := handle q in let! rs := handle_all qs' in ret (r :: rs)
  end.
End Handlers.
