(* ===== verification/ModuleRegistrySafety.v ===== *)
(** * What the module catalogue and its storage promise each other

    One invariant of the tables and the store over all module handlers: every
    version's archive lies where its module's address says, and what is stored there
    is the archive that was uploaded for it.  Then what an upload leaves behind, what
    a refused one does not, and the operations that break the promise. *)

From S2P Require Import Prelude GoStrings Filepath AutoApprove Validation Os Archive LocalStorage StorageSpec Backend.
From S2P Require Import SemVer TfMirrorRepo TfMirrorSync ProvRepo ProvSync Tables ModuleRepo ModuleRegistry Hoare.
From stdpp Require Import gmap.

#[local] Open Scope Z_scope.
Import ModuleRepository.

(** ** Lists of keys *)

Lemma fmap_filter_sublist {A B} (f : A -> B) (p : A -> bool) (l : list A) :
  sublist (f <$> List.filter p l) (f <$> l).
Proof.
  induction l as [|x l IH]; [constructor|]. cbn. destruct (p x); cbn; by constructor.
Qed.

Lemma fmap_update {A B} (f : A -> B) (cond : A -> bool) (upd : A -> A) (l : list A) :
  (forall x, x ∈ l -> cond x = true -> f (upd x) = f x) -> f <$> update_rows cond upd l = f <$> l.
Proof.
  unfold update_rows. induction l as [|x l IH]; intros Hu; [done|]. cbn.
  rewrite IH by (intros z Hz; apply Hu; by right).
  f_equal. destruct (cond x) eqn:E; [apply Hu; [by left | done] | done].
Qed.

Lemma any_false {R} (cond : R -> bool) rows x : any cond rows = false -> x ∈ rows -> cond x = false.
Proof.
  intros Ha Hx. apply list_elem_of_In in Hx. destruct (cond x) eqn:E; [|done].
  rewrite <- Ha. symmetry. apply existsb_exists. by exists x.
Qed.

Lemma any_true {R} (cond : R -> bool) rows : any cond rows = true -> exists x, x ∈ rows /\ cond x = true.
Proof. intros Ha. apply existsb_exists in Ha as (x & Hx & Hc). exists x. by rewrite list_elem_of_In. Qed.

Lemma find_elem {R} (cond : R -> bool) rows x : List.find cond rows = Some x -> x ∈ rows /\ cond x = true.
Proof. intros Hf. apply List.find_some in Hf. by rewrite list_elem_of_In. Qed.

Lemma find_none {R} (cond : R -> bool) rows x : List.find cond rows = None -> x ∈ rows -> cond x = false.
Proof. intros Hf Hx. apply list_elem_of_In in Hx. by eapply find_none in Hx. Qed.

(** ** Addresses and paths *)

Lemma archive_proper v : file_version v -> proper (v +:+ ".tar.gz").
Proof.
  intros Hv. repeat split.
  - by destruct v.
  - destruct v as [|c [|d v]]; [done | intros E; injection E as E1 E2; done | done].
  - destruct v as [|c [|d [|e v]]]; try done; intros E; by injection E.
  - induction v as [|c v IH]; [done|]. unfold file_version in *. cbn in Hv |- *. bools.
    apply andb_true_iff. split; [by apply negb_true_iff | by apply IH].
Qed.

Lemma path_segments ns n s v :
  segment ns -> segment n -> segment s -> file_version v ->
  split_on "/" (storagePath ns n s v) = ["modules"; ns; n; s; v +:+ ".tar.gz"].
Proof.
  intros Hns Hn Hs Hv. pose proof (segment_proper _ Hns) as (? & _ & _ & ?).
  pose proof (segment_proper _ Hn) as (? & _ & _ & ?). pose proof (segment_proper _ Hs) as (? & _ & _ & ?).
  pose proof (archive_proper _ Hv) as (? & _ & _ & ?).
  change (storagePath ns n s v) with (join_segs ["modules"; ns; n; s; v +:+ ".tar.gz"]).
  apply split_join; [|done]. repeat (constructor; [done|]). constructor.
Qed.

Lemma path_inj ns n s v ns' n' s' v' :
  segment ns -> segment n -> segment s -> file_version v ->
  segment ns' -> segment n' -> segment s' -> file_version v' ->
  storagePath ns n s v = storagePath ns' n' s' v' -> (ns, n, s, v) = (ns', n', s', v').
Proof.
  intros H1 H2 H3 H4 H5 H6 H7 H8 E. apply (f_equal (split_on "/")) in E.
  rewrite !path_segments in E by done. injection E as -> -> -> E. by apply append_inj_r in E as ->.
Qed.

Lemma path_key ns n s v :
  segment ns -> segment n -> segment s -> file_version v -> file_key (storagePath ns n s v).
Proof.
  intros Hns Hn Hs Hv. split.
  - rewrite path_segments by done.
    repeat (constructor; [first [by apply segment_proper | by apply archive_proper | by repeat split]|]). constructor.
  - change (storagePath ns n s v) with (join_segs ["modules"; ns; n; s; v +:+ ".tar.gz"]).
    assert (E : storagePath ns n s v = ("modules/" +:+ ns +:+ "/" +:+ n +:+ "/" +:+ s +:+ "/" +:+ v) +:+ ".tar.gz").
    { unfold storagePath. by rewrite !append_assoc_s. }
    change (has_suffix (storagePath ns n s v) ".sha256" = false). rewrite E.
    destruct (has_suffix _ ".sha256") eqn:Hs'; [|done]. exfalso.
    apply has_suffix_last in Hs'; [|done].
    set (p := "modules/" +:+ ns +:+ "/" +:+ n +:+ "/" +:+ s +:+ "/" +:+ v) in *. clearbody p.
    rewrite (has_suffix_last _ ".tar.gz") in Hs' by (done || apply has_suffix_app). done.
Qed.

(** ** The invariant *)

(** A module's identifier, organization and address; a version's place in the
    catalogue and what it says of its archive. *)
Definition module_key : Type := uuid * uuid * (string * string * string).
Definition key_of_module (m : Module) : module_key :=
  (mo_ID m, mo_OrganizationID m, (mo_Namespace m, mo_Name m, mo_System m)).

Record version_key := VK {
  vk_ID : uuid;
  vk_Module : uuid;
  vk_Version : string;
  vk_Path : string;
  vk_Checksum : string;
  vk_Size : Z;
}.
Definition key_of_version (v : ModuleVersion) : version_key :=
  VK (mv_ID v) (mv_ModuleID v) (mv_Version v) (mv_StoragePath v) (mv_Checksum v) (mv_SizeBytes v).

Definition placed (ms : list module_key) (k : version_key) : Prop :=
  exists org ns n s, (vk_Module k, org, (ns, n, s)) ∈ ms /\ file_version (vk_Version k) /\
    vk_Path k = storagePath ns n s (vk_Version k).

Section Catalogue.
Context `{Sha256} (org : uuid).

Record catalogue (ms : list module_key) (vs : list version_key) (next : uuid) (store : store_map) : Prop := {
  one_org i o a : (i, o, a) ∈ ms -> o = org /\ (i < next)%nat;
  segments i o ns n s : (i, o, (ns, n, s)) ∈ ms -> segment ns /\ segment n /\ segment s;
  module_ids : NoDup (fst ∘ fst <$> ms);
  addresses : NoDup (snd <$> ms);
  version_ids : NoDup (vk_ID <$> vs);
  version_fresh k : k ∈ vs -> (vk_ID k < next)%nat;
  version_names : NoDup ((fun k => (vk_Module k, vk_Version k)) <$> vs);
  located k : k ∈ vs -> placed ms k;
  genuine k c : k ∈ vs -> store (vk_Path k) = Some c ->
    sha256_hex c = vk_Checksum k /\ Z.of_nat (String.length c) = vk_Size k;
}.

Lemma same_id ms vs next store i o a o' a' :
  catalogue ms vs next store -> (i, o, a) ∈ ms -> (i, o', a') ∈ ms -> a = a'.
Proof.
  intros Hc H1 H2. pose proof (module_ids _ _ _ _ Hc) as Hnd.
  apply list_elem_of_lookup in H1 as [x Hx], H2 as [y Hy].
  assert (E : x = y).
  { eapply (NoDup_lookup _ _ _ i Hnd); rewrite list_lookup_fmap; [by rewrite Hx | by rewrite Hy]. }
  subst y. congruence.
Qed.

Lemma same_address_id ms vs next store i i' o o' a :
  catalogue ms vs next store -> (i, o, a) ∈ ms -> (i', o', a) ∈ ms -> i = i'.
Proof.
  intros Hc H1 H2. pose proof (addresses _ _ _ _ Hc) as Hnd.
  apply list_elem_of_lookup in H1 as [x Hx], H2 as [y Hy].
  assert (E : x = y).
  { eapply (NoDup_lookup _ _ _ a Hnd); rewrite list_lookup_fmap; [by rewrite Hx | by rewrite Hy]. }
  subst y. congruence.
Qed.

(** Two versions never share a path. *)
Lemma path_names ms vs next store k k' :
  catalogue ms vs next store -> placed ms k -> placed ms k' -> vk_Path k = vk_Path k' ->
  (vk_Module k, vk_Version k) = (vk_Module k', vk_Version k').
Proof.
  intros Hc (o & ns & n & s & Hm & Hv & Hp) (o' & ns' & n' & s' & Hm' & Hv' & Hp') E.
  destruct (segments _ _ _ _ Hc _ _ _ _ _ Hm) as (? & ? & ?).
  destruct (segments _ _ _ _ Hc _ _ _ _ _ Hm') as (? & ? & ?).
  rewrite Hp, Hp' in E. apply path_inj in E; try done. injection E as <- <- <- <-.
  f_equal. by eapply same_address_id.
Qed.

Lemma placed_key ms vs next store k :
  catalogue ms vs next store -> placed ms k -> file_key (vk_Path k).
Proof.
  intros Hc (o & ns & n & s & Hm & Hv & ->).
  destruct (segments _ _ _ _ Hc _ _ _ _ _ Hm) as (? & ? & ?). by apply path_key.
Qed.

Lemma cat_next ms vs next next' store :
  (next <= next')%nat -> catalogue ms vs next store -> catalogue ms vs next' store.
Proof.
  intros Hn []. split; try done.
  - intros i o a Hm. destruct (one_org0 i o a Hm). split; [done | lia].
  - intros k Hk. specialize (version_fresh0 k Hk). lia.
Qed.

Lemma cat_store ms vs next store store' :
  (forall k, k ∈ vs -> store' (vk_Path k) = None \/ store' (vk_Path k) = store (vk_Path k)) ->
  catalogue ms vs next store -> catalogue ms vs next store'.
Proof.
  intros Hs []. split; try done. intros k c Hk Hc.
  destruct (Hs k Hk) as [E|E]; [congruence|]. apply (genuine0 k c Hk). congruence.
Qed.

Lemma cat_add_module ms vs next store ns n s :
  segment ns -> segment n -> segment s -> (forall i o, (i, o, (ns, n, s)) ∉ ms) ->
  catalogue ms vs next store -> catalogue (ms ++ [(next, org, (ns, n, s))]) vs (S next) store.
Proof.
  intros Hns Hn Hs Hnew []. split; try done.
  - intros i o a [Hm|Hm%list_elem_of_singleton]%elem_of_app.
    + destruct (one_org0 i o a Hm). split; [done | lia].
    + injection Hm as -> -> _. split; [done | lia].
  - intros i o ns' n' s' [Hm|Hm%list_elem_of_singleton]%elem_of_app; [by eapply segments0|].
    by injection Hm as _ _ -> -> ->.
  - rewrite fmap_app. apply NoDup_app. split; [done|]. split; [|apply NoDup_singleton].
    intros i Hi Hin. apply list_elem_of_singleton in Hin. cbn in Hin. subst i.
    apply list_elem_of_fmap in Hi as ([[i o] a] & Hi & Hm). cbn in Hi. subst i.
    destruct (one_org0 _ _ _ Hm). lia.
  - rewrite fmap_app. apply NoDup_app. split; [done|]. split; [|apply NoDup_singleton].
    intros a Ha Hin. apply list_elem_of_singleton in Hin. cbn in Hin. subst a.
    apply list_elem_of_fmap in Ha as ([[i o] a] & Ha & Hm). cbn in Ha. subst a. by apply Hnew in Hm.
  - intros k Hk. specialize (version_fresh0 k Hk). lia.
  - intros k Hk. destruct (located0 k Hk) as (o & ns' & n' & s' & Hm & Hv & Hp).
    exists o, ns', n', s'. split; [|done]. apply elem_of_app. by left.
Qed.

Lemma cat_add_version ms vs next store k :
  vk_ID k = next -> placed ms k -> (forall k', k' ∈ vs -> (vk_Module k', vk_Version k') <> (vk_Module k, vk_Version k)) ->
  (forall c, store (vk_Path k) = Some c ->
     sha256_hex c = vk_Checksum k /\ Z.of_nat (String.length c) = vk_Size k) ->
  catalogue ms vs next store -> catalogue ms (vs ++ [k]) (S next) store.
Proof.
  intros Hid Hp Hnew Hg []. split; try done.
  - intros i o a Hm. destruct (one_org0 i o a Hm). split; [done | lia].
  - rewrite fmap_app. apply NoDup_app. split; [done|]. split; [|apply NoDup_singleton].
    intros x Hx Hin. apply list_elem_of_singleton in Hin. subst x.
    apply list_elem_of_fmap in Hx as (k' & E & Hk'). specialize (version_fresh0 k' Hk'). lia.
  - intros k' [Hk'|Hk'%list_elem_of_singleton]%elem_of_app; [specialize (version_fresh0 k' Hk'); lia | subst; lia].
  - rewrite fmap_app. apply NoDup_app. split; [done|]. split; [|apply NoDup_singleton].
    intros x Hx Hin. apply list_elem_of_singleton in Hin. subst x.
    apply list_elem_of_fmap in Hx as (k' & E & Hk'). by apply (Hnew k').
  - intros k' [Hk'|Hk'%list_elem_of_singleton]%elem_of_app; [by apply located0 | by subst].
  - intros k' c [Hk'|Hk'%list_elem_of_singleton]%elem_of_app; [by apply genuine0 | subst; by apply Hg].
Qed.

(** Rows disappear, a module only together with its versions. *)
Lemma cat_drop ms vs ms' vs' next store :
  sublist ms' ms -> sublist vs' vs ->
  (forall k i o a, k ∈ vs' -> vk_Module k = i -> (i, o, a) ∈ ms -> (i, o, a) ∈ ms') ->
  catalogue ms vs next store -> catalogue ms' vs' next store.
Proof.
  intros Hms Hvs Hkeep [].
  assert (Hm : forall x, x ∈ ms' -> x ∈ ms) by (intros x; by apply sublist_subseteq).
  assert (Hv : forall x, x ∈ vs' -> x ∈ vs) by (intros x; by apply sublist_subseteq).
  split.
  - intros i o a H'. apply Hm in H'. by eapply one_org0.
  - intros i o ns n s H'. apply Hm in H'. by eapply segments0.
  - eapply sublist_NoDup; [exact module_ids0 | by apply fmap_sublist].
  - eapply sublist_NoDup; [exact addresses0 | by apply fmap_sublist].
  - eapply sublist_NoDup; [exact version_ids0 | by apply fmap_sublist].
  - intros k Hk. by apply version_fresh0, Hv.
  - eapply sublist_NoDup; [exact version_names0 | by apply fmap_sublist].
  - intros k Hk. destruct (located0 k (Hv k Hk)) as (o & ns & n & s & Hin & Hrest).
    exists o, ns, n, s. split; [by eapply Hkeep | done].
  - intros k c Hk. by apply genuine0, Hv.
Qed.
(** A row is known by its identifier. *)
Lemma same_version_id ms vs next store k k' :
  catalogue ms vs next store -> k ∈ vs -> k' ∈ vs -> vk_ID k = vk_ID k' -> k = k'.
Proof.
  intros Hc H1 H2 E. pose proof (version_ids _ _ _ _ Hc) as Hnd.
  apply list_elem_of_lookup in H1 as [x Hx], H2 as [y Hy].
  assert (E' : x = y).
  { eapply (NoDup_lookup _ _ _ (vk_ID k) Hnd); rewrite list_lookup_fmap; [by rewrite Hx | by rewrite Hy, E]. }
  subst y. congruence.
Qed.
End Catalogue.

(** ** The statements *)

Section Handlers.
Context {Y : Type} `{GoSort} `{!GoSortLaws} `{GoVersion} `{TarGz} `{Analyzer} `{TextSearch} `{MapRange} `{!MapRangeLaws}.
Context `{BackendLaws Y} `{Organizations Y} `{TempFiles Y} `{Rego Y} `{Notices Y}.
Context (cfg : Config) (org : uuid).
#[local] Abbreviation S' := (beside mdb Y).
#[local] Abbreviation P := (prog (env (beside mdb Y))).

Definition module_keys (t : mdb) : list module_key := key_of_module <$> modules t.
Definition version_keys (t : mdb) : list version_key := key_of_version <$> module_versions t.

Definition consistent (t : mdb) (y : Y) : Prop :=
  sane y /\ catalogue org (module_keys t) (version_keys t) (mnext t) (content y).
Definition inv (s : S') : Prop := consistent (tabs s) (around s).

(** Versions with their archives, which are to stay. *)
Context (kept : list (version_key * string)).
Definition standing (t : mdb) (y : Y) : Prop :=
  Forall (fun g => fst g ∈ version_keys t /\ content y (vk_Path (fst g)) = Some (snd g)) kept.
Definition hold (s : S') : Prop := inv s /\ standing (tabs s) (around s).

Definition registered (m : Module) (s : S') : Prop := key_of_module m ∈ module_keys (tabs s).

(** The keys of an update, which may only raise the counter. *)
Definition same_keys (t t' : mdb) : Prop :=
  module_keys t' = module_keys t /\ version_keys t' = version_keys t /\ (mnext t <= mnext t')%nat.

Lemma inv_same_keys t t' y : same_keys t t' -> hold (Beside t y) -> hold (Beside t' y).
Proof.
  intros (Em & Ev & Hn) [[Hy Hc] Hk]. unfold hold, inv, consistent, standing in *. cbn in *. rewrite Em, Ev.
  split; [split; [done | by eapply cat_next] | done].
Qed.

Lemma inv_store t y y' :
  sane y' -> (forall k, content y' k = content y k) -> hold (Beside t y) -> hold (Beside t y').
Proof.
  intros Hy' Hs [[Hy Hc] Hk]. split; [split; [done|]; cbn in *; eapply cat_store; [|exact Hc]; intros k _; right; apply Hs|].
  eapply Forall_impl; [exact Hk|]. intros g [Hg Hd]. split; [done|]. cbn. by rewrite Hs.
Qed.

(** What holds of the tables alone survives a call that leaves the store alone. *)
Lemma triple_quiet {A} (c : prog Y A) (Q : mdb -> Prop) :
  leaves_store c ->
  triple (fun s : S' => hold s /\ Q (tabs s)) (outward c) (fun _ s => hold s /\ Q (tabs s)).
Proof.
  intros Hc. apply triple_outward. intros t y [Hi HQ]. cbn in *.
  destruct (Hc y (proj1 (proj1 Hi))) as [Hy' Hs]. split; [|done]. by apply (inv_store t y).
Qed.

Lemma triple_quiet_inv {A} (c : prog Y A) : leaves_store c -> triple hold (outward c) (fun _ => hold).
Proof.
  intros Hc. eapply triple_weaken; [exact (triple_quiet c (fun _ => True) Hc) | by split | by intros a s [? _]].
Qed.

Lemma triple_keys {A} op (f : mdb -> res A * mdb) :
  (forall t, same_keys t (snd (f t))) -> triple hold (sql op f : P (res A)) (fun _ => hold).
Proof. intros Hf. apply triple_sql; [done|]. intros t y Hi. by eapply inv_same_keys. Qed.

Lemma triple_read {A} op (f : mdb -> res A) : triple hold (query op f : P (res A)) (fun _ => hold).
Proof. by apply triple_query. Qed.

Lemma same_keys_refl t : same_keys t t.
Proof. by repeat split. Qed.

Lemma modules_same_keys cond upd t :
  (forall m, m ∈ modules t -> cond m = true -> key_of_module (upd m) = key_of_module m) ->
  same_keys t (on_modules (update_rows cond upd) t).
Proof. intros Hu. split; [by apply fmap_update | by split]. Qed.

Lemma versions_same_keys cond upd t :
  (forall v, v ∈ module_versions t -> cond v = true -> key_of_version (upd v) = key_of_version v) ->
  same_keys t (on_mversions (update_rows cond upd) t).
Proof. intros Hu. split; [done|]. split; [by apply fmap_update | done]. Qed.

Lemma affecting_keys op what hit f :
  (forall t, same_keys t (f t)) -> triple hold (affecting op what hit f : P (res unit)) (fun _ => hold).
Proof. intros Hf. apply triple_keys. intros t. destruct (hit t); [apply Hf | apply same_keys_refl]. Qed.

(** *** Looking up *)

Lemma module_found (t : mdb) (y : Y) cond m :
  List.find cond (modules t) = Some m -> registered m (Beside t y).
Proof. intros Hf. apply find_elem in Hf as [Hm _]. by apply list_elem_of_fmap_2. Qed.

Lemma version_file_key (t : mdb) (y : Y) v :
  hold (Beside t y) -> v ∈ module_versions t -> file_key (mv_StoragePath v).
Proof.
  intros [[_ Hc] _] Hv. cbn in Hc. assert (Hk : key_of_version v ∈ version_keys t) by by apply list_elem_of_fmap_2.
  exact (placed_key _ _ _ _ _ _ Hc (located _ _ _ _ _ Hc _ Hk)).
Qed.

Definition at_address (ns n s : string) (m : Module) : Prop :=
  mo_Namespace m = ns /\ mo_Name m = n /\ mo_System m = s.

Lemma triple_GetModule o ns n s :
  triple hold (GetModule o ns n s : P _)
    (fun r st => hold st /\ match r with Ok (Some m) => registered m st /\ at_address ns n s m | _ => True end).
Proof.
  apply triple_query; [done|]. intros t y Hi. split; [done|].
  destruct (List.find _ _) as [m|] eqn:E; [|done]. split; [by eapply module_found|].
  apply find_elem in E as [_ Ha]. unfold addressed in Ha. by bools.
Qed.

Lemma triple_GetVersion (Q : mdb -> Prop) i v :
  triple (fun s : S' => hold s /\ Q (tabs s)) (GetVersion i v : P _)
    (fun r s => (hold s /\ Q (tabs s)) /\ match r with
       | Ok (Some row) => file_key (mv_StoragePath row)
       | Ok None => forall k, k ∈ version_keys (tabs s) -> (vk_Module k, vk_Version k) <> (i, v)
       | Err _ => True
       end).
Proof.
  apply triple_query; [done|]. intros t y Hi. split; [done|]. destruct Hi as [Hi _].
  destruct (List.find _ _) as [row|] eqn:E.
  - apply find_elem in E as [Hrow _]. by eapply version_file_key.
  - intros k Hk [= <- <-]. apply list_elem_of_fmap in Hk as (row & -> & Hrow).
    pose proof (find_none _ _ _ E Hrow) as Hn. unfold version_is in Hn. cbn in Hn.
    by rewrite Nat.eqb_refl, String.eqb_refl in Hn.
Qed.

Lemma triple_ListVersions i :
  triple hold (ListVersions i : P _)
    (fun r s => hold s /\ match r with Ok vs => Forall (fun v => file_key (mv_StoragePath v)) vs | _ => True end).
Proof.
  apply triple_query; [done|]. intros t y Hi. split; [done|]. apply Forall_forall. intros v Hv.
  apply list_elem_of_In in Hv. eapply Permutation_in in Hv; [|symmetry; apply go_sort_perm].
  apply filter_In in Hv as [Hv _]. apply list_elem_of_In in Hv. by eapply version_file_key.
Qed.

(** *** Modules *)

Definition module_ok (m : Module) : Prop :=
  mo_OrganizationID m = org /\ segment (mo_Namespace m) /\ segment (mo_Name m) /\ segment (mo_System m).

Lemma same_address_key a b :
  same_address a b = true ->
  mo_OrganizationID b = mo_OrganizationID a /\
  (mo_Namespace b, mo_Name b, mo_System b) = (mo_Namespace a, mo_Name a, mo_System a).
Proof.
  unfold same_address, addressed. intros Hs. apply andb_prop in Hs as [Hs Es].
  apply andb_prop in Hs as [Hs En]. apply andb_prop in Hs as [Eo Ens].
  apply Nat.eqb_eq in Eo. apply String.eqb_eq in Ens, En, Es. by rewrite Eo, Ens, En, Es.
Qed.

Lemma same_address_refl a : same_address a a = true.
Proof. unfold same_address, addressed. by rewrite Nat.eqb_refl, !String.eqb_refl. Qed.

(** Inserting a module whose address is free. *)
Lemma insert_module (t : mdb) (y : Y) m now :
  module_ok m -> (forall b, b ∈ modules t -> same_address m b = false) -> hold (Beside t y) ->
  let row := fresh_module (mnext t) now m in
  let s' := Beside (on_modules (fun rows => rows ++ [row]) (mbump t)) y in
  hold s' /\ registered (returned row m) s'.
Proof.
  intros (Ho & Hns & Hn & Hs) Hnew [[Hy Hc] Hk]. cbn zeta. split; [split; [split; [done|]|exact Hk]|].
  - cbn. unfold module_keys. cbn. rewrite fmap_app. cbn. rewrite <- Ho.
    unfold key_of_module at 2. cbn. rewrite Ho. apply cat_add_module; try done.
    intros i o Hin. apply list_elem_of_fmap in Hin as (b & E & Hb). injection E as -> -> E1 E2 E3.
    specialize (Hnew b Hb). pose proof (one_org _ _ _ _ _ Hc _ _ _ (list_elem_of_fmap_2 key_of_module _ _ Hb)) as [Hob _].
    unfold same_address, addressed in Hnew. rewrite Hob, Ho, <- E1, <- E2, <- E3 in Hnew.
    by rewrite Nat.eqb_refl, !String.eqb_refl in Hnew.
  - unfold registered, module_keys. cbn. rewrite fmap_app. apply elem_of_app. right. by left.
Qed.

Lemma triple_CreateModule m :
  module_ok m -> triple hold (CreateModule m : P _)
    (fun r s => hold s /\ match r with Ok m' => registered m' s | Err _ => True end).
Proof.
  intros Hm. unfold CreateModule. eapply triple_bind; [apply triple_now|]. intros now.
  apply triple_sql; [done|]. intros t y Hi.
  destruct (any (same_address m) (modules t)) eqn:E; [done|]. cbn [fst snd].
  apply insert_module; [done | | done]. intros b Hb. by eapply any_false.
Qed.

Lemma triple_UpsertModule m :
  module_ok m -> triple hold (UpsertModule m : P _)
    (fun r s => hold s /\ match r with
       | Ok m' => registered m' s /\ key_of_module m' = (mo_ID m', mo_OrganizationID m, (mo_Namespace m, mo_Name m, mo_System m))
       | Err _ => True end).
Proof.
  intros Hm. unfold UpsertModule. eapply triple_bind; [apply triple_now|]. intros now.
  apply triple_sql; [done|]. intros t y Hi.
  destruct (List.find (same_address m) (modules t)) as [old|] eqn:E; cbn [fst snd].
  - assert (Hsk : same_keys t (on_modules (update_rows (same_address m) (set_touched now)) t))
      by by apply modules_same_keys.
    split; [by eapply inv_same_keys|]. split; [|done]. unfold registered. cbn [tabs].
    destruct Hsk as (-> & _). apply find_elem in E as [Hold Hs]. apply same_address_key in Hs as [Ho Ha].
    unfold key_of_module. cbn. rewrite <- Ho, <- Ha. by apply (list_elem_of_fmap_2 key_of_module).
  - destruct (insert_module t y m now Hm) as [Hi' Hr]; [intros b Hb; by eapply find_none | done|].
    split; [exact Hi'|]. by split.
Qed.

(** Updating a module in place. *)
Lemma triple_UpdateModule m :
  triple (fun s => hold s /\ registered m s) (UpdateModule m : P _)
    (fun r s => hold s /\ match r with
       | Ok m' => registered m' s /\ key_of_module m' = key_of_module m | Err _ => True end).
Proof.
  unfold UpdateModule. eapply triple_bind; [apply triple_now|]. intros now.
  apply triple_sql; [by intros s [? _]|]. intros t y [Hi Hr].
  destruct (List.find (module_is (mo_ID m)) (modules t)) as [old|] eqn:E; [|done].
  destruct (any _ _); [done|]. cbn [fst snd].
  assert (Hsk : same_keys t (on_modules (update_rows (module_is (mo_ID m)) (set_module now m)) t)).
  { apply modules_same_keys. intros b Hb Hid. apply Nat.eqb_eq in Hid.
    apply (list_elem_of_fmap_2 key_of_module) in Hb. destruct Hi as [[_ Hc] _]. cbn in Hc, Hr.
    unfold registered, key_of_module in Hr. cbn in Hr. unfold key_of_module in Hb at 1. rewrite Hid in Hb.
    pose proof (same_id _ _ _ _ _ _ _ _ _ _ Hc Hb Hr) as Ea. injection Ea as E1 E2 E3.
    unfold key_of_module. cbn. by rewrite E1. }
  split; [by eapply inv_same_keys|]. unfold registered in *. cbn [tabs] in *. destruct Hsk as (-> & _). by split.
Qed.

(** *** Archives *)

(** Room for version [v] of the module with identifier [i] at an address. *)
Definition slot (i : uuid) (ns n s v : string) (t : mdb) : Prop :=
  (i, org, (ns, n, s)) ∈ module_keys t /\
  forall k, k ∈ version_keys t -> (vk_Module k, vk_Version k) <> (i, v).

Lemma slot_vacant i ns n s v t y :
  file_version v -> hold (Beside t y) -> slot i ns n s v t ->
  forall k, k ∈ version_keys t -> vk_Path k <> storagePath ns n s v.
Proof.
  intros Hv [[_ Hc] _] [Hm Hnew] k Hk E. cbn in Hc. apply (Hnew k Hk).
  set (k' := VK 0%nat i v (storagePath ns n s v) "" 0).
  assert (Hk' : placed (module_keys t) k') by by exists org, ns, n, s.
  exact (path_names _ _ _ _ _ _ _ Hc (located _ _ _ _ _ Hc _ Hk) Hk' E).
Qed.

Lemma slot_key i ns n s v t y : hold (Beside t y) -> slot i ns n s v t -> file_version v ->
  file_key (storagePath ns n s v).
Proof.
  intros [[_ Hc] _] [Hm _] Hv. cbn in Hc.
  destruct (segments _ _ _ _ _ Hc _ _ _ _ _ Hm) as (? & ? & ?). by apply path_key.
Qed.

Definition stored (path data : string) (u : UploadResult) : Prop :=
  u = {| ur_Path := path; ur_Size := Z.of_nat (String.length data); ur_Checksum := sha256_hex data |}.

Lemma triple_Upload i ns n s v data size :
  file_version v ->
  triple (fun st : S' => hold st /\ slot i ns n s v (tabs st))
    (outward (be_Upload (storagePath ns n s v) (data, None) size))
    (fun r st => (hold st /\ slot i ns n s v (tabs st)) /\ match r with
       | Ok u => stored (storagePath ns n s v) data u /\ content (around st) (storagePath ns n s v) = Some data
       | Err _ => True end).
Proof.
  intros Hv. apply triple_outward. intros t y [Hi Hs]. pose proof (slot_key _ _ _ _ _ _ _ Hi Hs Hv) as Hk.
  pose proof (slot_vacant _ _ _ _ _ _ _ Hv Hi Hs) as Hvac. destruct Hi as [[Hy Hc] Hst]. cbn in *.
  destruct (upload_law _ (data, None) size y Hy Hk) as (Hy' & Hsame & Hok).
  split; [split; [|done]; split; [split; [done|]|]|].
  - cbn. eapply cat_store; [|exact Hc]. intros k Hin. right. apply Hsame. by apply Hvac.
  - eapply Forall_impl; [exact Hst|]. intros g [Hg Hd]. split; [done|]. cbn. rewrite Hsame; [done | by apply Hvac].
  - destruct (fst (be_Upload _ _ _ y)) as [u|e]; [|done]. destruct (Hok u eq_refl) as (Hd & _ & ->). by split.
Qed.

(** Only archives that need not stay are deleted. *)
Definition spared (k : string) : Prop := Forall (fun g => vk_Path (fst g) <> k) kept.

Lemma triple_Delete (Q : mdb -> Prop) k :
  file_key k -> spared k ->
  triple (fun s : S' => hold s /\ Q (tabs s)) (outward (be_Delete k)) (fun _ s => hold s /\ Q (tabs s)).
Proof.
  intros Hk Hsp. apply triple_outward. intros t y [[[Hy Hc] Hst] HQ]. cbn in *.
  destruct (delete_law k y Hy Hk) as (Hy' & Hsame & Hown & _). split; [|done]. split; [split; [done|]; cbn|].
  - eapply cat_store; [|exact Hc]. intros k' _. destruct (decide (vk_Path k' = k)) as [->|Hne]; [done|].
    right. by apply Hsame.
  - apply Forall_forall. intros g Hg. pose proof (proj1 (Forall_forall _ _) Hst g Hg) as [Hin Hd]. split; [done|]. cbn.
    rewrite Hsame; [done|]. exact (proj1 (Forall_forall _ _) Hsp g Hg).
Qed.

(** A call that leaves the store alone, with a fact about one key. *)
Lemma triple_quiet_at {A} (c : prog Y A) (Q : mdb -> Prop) k data :
  leaves_store c ->
  triple (fun s : S' => (hold s /\ Q (tabs s)) /\ content (around s) k = Some data) (outward c)
    (fun _ s => (hold s /\ Q (tabs s)) /\ content (around s) k = Some data).
Proof.
  intros Hc. apply triple_outward. intros t y [[Hi HQ] Hd]. cbn in *.
  destruct (Hc y (proj1 (proj1 Hi))) as [Hy' Hs]. split; [split; [|done]; by apply (inv_store t y)|].
  by rewrite Hs.
Qed.

(** The version a successful upload recorded. *)
Definition published_as (i : uuid) (v path data : string) (row : ModuleVersion) (s : S') : Prop :=
  row ∈ module_versions (tabs s) /\ mv_ModuleID row = i /\ mv_Version row = v /\
  mv_StoragePath row = path /\ mv_Checksum row = sha256_hex data /\
  mv_SizeBytes row = Z.of_nat (String.length data) /\ content (around s) path = Some data.

Lemma triple_CreateVersion module f u readme ns n s data :
  file_version (f_Version f) -> stored (storagePath ns n s (f_Version f)) data u ->
  triple (fun st : S' => (hold st /\ slot (mo_ID module) ns n s (f_Version f) (tabs st)) /\
            content (around st) (storagePath ns n s (f_Version f)) = Some data)
    (CreateVersion (form_version cfg module f u readme) : P _)
    (fun r st => hold st /\ match r with
       | Ok row => published_as (mo_ID module) (f_Version f) (storagePath ns n s (f_Version f)) data row st
       | Err _ => slot (mo_ID module) ns n s (f_Version f) (tabs st) end).
Proof.
  intros Hv ->. unfold CreateVersion. eapply triple_bind; [apply triple_now|]. intros now.
  apply triple_sql; [by intros st [[? ?] _]|]. intros t y [[Hi Hs] Hd].
  destruct (any _ _); [done|]. destruct (negb _); [done|]. cbn [fst snd].
  set (row := fresh_version _ _ _).
  assert (Hrow : row ∈ module_versions (on_mversions (fun rows => rows ++ [row]) (mbump t))).
  { cbn. apply elem_of_app. right. by left. }
  split; [|by repeat split]. destruct Hi as [[Hy Hc] Hst], Hs as [Hm Hnew].
  split; [split; [done|]; cbn in *; unfold version_keys; cbn; rewrite fmap_app; apply cat_add_version; try done|].
  - by exists org, ns, n, s.
  - intros c Hc'. cbn in Hc'. rewrite Hd in Hc'. by injection Hc' as <-.
  - eapply Forall_impl; [exact Hst|]. intros g [Hg Hd']. split; [|done]. unfold version_keys. cbn. rewrite fmap_app.
    apply elem_of_app. by left.
Qed.

(** *** Deleting rows *)

Lemma drop_versions_standing (gone : ModuleVersion -> bool) t y :
  (forall g v, g ∈ kept -> v ∈ module_versions t -> key_of_version v = fst g -> gone v = false) ->
  standing t y -> standing (drop_versions gone t) y.
Proof.
  intros Hg Hst. apply Forall_forall. intros g Hin. pose proof (proj1 (Forall_forall _ _) Hst g Hin) as [Hk Hd].
  split; [|done]. apply list_elem_of_fmap in Hk as (v & E & Hv). rewrite E. apply list_elem_of_fmap_2.
  apply list_elem_of_In, filter_In. split; [by apply list_elem_of_In|]. by rewrite (Hg g v Hin Hv).
Qed.

Lemma drop_versions_inv (gone : ModuleVersion -> bool) t y :
  (forall g v, g ∈ kept -> v ∈ module_versions t -> key_of_version v = fst g -> gone v = false) ->
  hold (Beside t y) -> hold (Beside (drop_versions gone t) y).
Proof.
  intros Hg [[Hy Hc] Hst]. split; [split; [done|]|by apply drop_versions_standing]. cbn in *.
  eapply cat_drop; [reflexivity | | |exact Hc].
  - apply fmap_filter_sublist.
  - by intros.
Qed.

Lemma drop_module_inv i t y :
  (forall g, g ∈ kept -> vk_Module (fst g) <> i) -> hold (Beside t y) -> hold (Beside (drop_module i t) y).
Proof.
  intros Hg [[Hy Hc] Hst]. unfold hold, inv, consistent in *. cbn [tabs around] in *.
  assert (Em : module_keys (drop_module i t) = key_of_module <$> List.filter (fun m => negb (module_is i m)) (modules t)).
  { unfold module_keys, drop_module. cbn. by apply fmap_update. }
  split; [split; [done|]|].
  - rewrite Em. eapply cat_drop; [apply fmap_filter_sublist | apply fmap_filter_sublist | |exact Hc].
    intros k j o a Hk E Hm. apply list_elem_of_fmap in Hm as (m & Em' & Hm).
    rewrite Em'. apply list_elem_of_fmap_2. apply list_elem_of_In, filter_In.
    split; [by apply list_elem_of_In|].
    apply list_elem_of_fmap in Hk as (v & -> & Hv). apply list_elem_of_In, filter_In in Hv as [_ Hv].
    cbn in E. injection Em' as Ej _ _. unfold module_is. by rewrite <- Ej, <- E.
  - apply (drop_versions_standing (fun v => (mv_ModuleID v =? i)%nat)); [|exact Hst].
    intros g v Hin _ E. apply Nat.eqb_neq. specialize (Hg g Hin). by rewrite <- E in Hg.
Qed.

(** ** The handlers *)

(** What the handlers rely on outside: only the storage backend touches what is
    stored; there is one default organization, if any; a version that parses has no
    slash in it. *)
Record world_laws : Prop := {
  org_quiet : leaves_store GetDefaultOrganization;
  org_same y : match fst (GetDefaultOrganization y) with Ok (Some o) => o = org | _ => True end;
  temp_quiet : leaves_store CreateTemp /\ (forall d, leaves_store (CopyToTemp d)) /\ leaves_store SeekStart;
  policy_quiet q i : leaves_store (evaluate_query q i);
  notices_quiet : (forall a b c d, leaves_store (module_published a b c d)) /\
                  forall what id, leaves_store (audit_download what id);
  versions_plain v : NewVersion v <> None -> file_version v;
}.
Context (Hw : world_laws).

Lemma triple_fail (Pre : S' -> Prop) status message (Post : reply -> S' -> Prop) :
  (forall s, Pre s -> Post (status, BError message) s) -> triple Pre (fail status message) Post.
Proof. apply triple_ret. Qed.

Lemma triple_organization (k : uuid -> P reply) (Post : reply -> S' -> Prop) :
  (forall m s, hold s -> Post (500, BError m) s) -> triple hold (k org) Post ->
  triple hold (with_organization k) Post.
Proof.
  intros He Hk. unfold with_organization.
  eapply (triple_bind _ (fun r s => hold s /\ match r with Ok (Some o) => o = org | _ => True end)).
  - apply triple_outward. intros t y Hi. split.
    + exact (triple_quiet_inv _ (org_quiet Hw) (Env (Beside t y) [] 0 []) Hi).
    + apply (org_same Hw).
  - intros [[o|]|e]; [|apply triple_fail; intros s [? _]; auto..].
    apply (triple_pure _ _ (o = org)); [by intros s [_ ?]|]. intros ->.
    eapply triple_weaken; [exact Hk | by intros s [? _] | done].
Qed.

Lemma triple_side op f i v path data row :
  (forall t, same_keys t (snd (f t)) /\ module_versions (snd (f t)) = module_versions t) ->
  triple (fun s => hold s /\ published_as i v path data row s) (sql op f : P (res unit))
    (fun _ s => hold s /\ published_as i v path data row s).
Proof.
  intros Hf. apply triple_sql; [done|]. intros t y [Hi Hp]. destruct (Hf t) as [Hk Hv].
  split; [by eapply inv_same_keys|]. unfold published_as in *. cbn in *. by rewrite Hv.
Qed.

Lemma triple_quiet_published {A} (c : prog Y A) i v path data row :
  leaves_store c ->
  triple (fun s => hold s /\ published_as i v path data row s) (outward c)
    (fun _ s => hold s /\ published_as i v path data row s).
Proof.
  intros Hc. apply triple_outward. intros t y [Hi Hp]. destruct (Hc y (proj1 (proj1 Hi))) as [Hy Hs].
  split; [by apply (inv_store t y)|]. unfold published_as in *. cbn in *. by rewrite Hs.
Qed.

Lemma triple_queue i v path data row id :
  triple (fun s => hold s /\ published_as i v path data row s) (queue_scan cfg id)
    (fun _ s => hold s /\ published_as i v path data row s).
Proof.
  unfold queue_scan. destruct (_ && _); [|by apply triple_ret].
  eapply triple_bind; [apply triple_side | intros r; by apply triple_ret].
  intros t. destruct (negb _); by repeat split.
Qed.

Lemma triple_docs i v path data row id text :
  triple (fun s => hold s /\ published_as i v path data row s) (store_docs cfg id text)
    (fun _ s => hold s /\ published_as i v path data row s).
Proof.
  unfold store_docs. destruct (negb _); [by apply triple_ret|].
  eapply triple_bind; [apply triple_quiet_published, (temp_quiet Hw)|]. intros [u|e]; [|by apply triple_ret].
  destruct (AnalyzeArchive text) as [[doc|]|e]; [|by apply triple_ret..].
  eapply triple_bind; [apply triple_side | intros r; by apply triple_ret].
  intros t. destruct (negb _); by repeat split.
Qed.

Definition uploaded (f : UploadForm) (r : reply) (s : S') : Prop :=
  hold s /\ (fst r = 201 -> exists module row filename data, snd r = BUploaded module row filename /\
    f_File f = Some (filename, (data, None)) /\
    published_as (mo_ID module) (f_Version f)
      (storagePath (f_Namespace f) (f_Name f) (f_System f) (f_Version f)) data row s).

Lemma uploaded_failed f status message s : status <> 201 -> hold s -> uploaded f (status, BError message) s.
Proof. intros Hs Hi. by split. Qed.

Lemma triple_store_version module f data filename :
  file_version (f_Version f) -> f_File f = Some (filename, (data, None)) ->
  triple (fun s => hold s /\ slot (mo_ID module) (f_Namespace f) (f_Name f) (f_System f) (f_Version f) (tabs s))
    (store_version cfg module f data filename) (uploaded f).
Proof.
  intros Hv Hfile. unfold store_version.
  set (Q := slot (mo_ID module) (f_Namespace f) (f_Name f) (f_System f) (f_Version f)).
  set (path := storagePath _ _ _ _).
  assert (Hfail : forall (Pre : S' -> Prop) m, (forall s, Pre s -> hold s) ->
            triple Pre (fail 500 m) (uploaded f)).
  { intros Pre m HPre. apply triple_fail. intros s Hs. apply uploaded_failed; auto. }
  eapply triple_bind; [apply (triple_quiet _ Q), (temp_quiet Hw)|].
  intros [u|e]; [|apply Hfail; by intros s [? _]].
  eapply triple_bind; [by apply triple_Upload|].
  intros [u'|e]; [|apply Hfail; by intros s [[? _] _]].
  apply (triple_pure _ _ (stored path data u')); [by intros s (_ & ? & _)|]. intros Hu.
  set (J := fun s : S' => (hold s /\ Q (tabs s)) /\ content (around s) path = Some data).
  eapply (triple_bind _ (fun _ => J)).
  { apply (triple_bind _ (fun _ => J)); [|intros r; by apply triple_ret].
    eapply triple_weaken; [apply (triple_quiet_at SeekStart Q path data), (temp_quiet Hw) | |done].
    by intros s (? & _ & ?). }
  intros readme. eapply triple_bind; [exact (triple_CreateVersion module f u' readme _ _ _ data Hv Hu)|].
  intros [row|e].
  - eapply triple_bind; [apply triple_quiet_published, (notices_quiet Hw)|]. intros ?.
    eapply triple_bind; [apply triple_queue|]. intros ?.
    eapply triple_bind; [apply triple_docs|]. intros ?.
    apply triple_ret. intros s [Hi Hp]. split; [done|]. intros _. by exists module, row, filename, data.
  - apply (triple_pure _ _ (file_key path /\ spared path)).
    { intros [t y] [Hi Hs]. split; [by eapply slot_key|]. pose proof (slot_vacant _ _ _ _ _ _ _ Hv Hi Hs) as Hvac.
      destruct Hi as [_ Hst]. eapply Forall_impl; [exact Hst|]. intros g [Hg _]. by apply Hvac. }
    intros [Hk Hsp]. rewrite Hu. eapply triple_bind; [exact (triple_Delete Q path Hk Hsp)|].
    intros r. apply Hfail. by intros s [? _].
Qed.

Lemma triple_register f data filename :
  segment (f_Namespace f) -> segment (f_Name f) -> segment (f_System f) -> file_version (f_Version f) ->
  f_File f = Some (filename, (data, None)) ->
  triple hold (register_module cfg org f data filename) (uploaded f).
Proof.
  intros Hns Hn Hs Hv Hfile. unfold register_module.
  assert (Hfail : forall (Pre : S' -> Prop) status m, status <> 201 -> (forall s, Pre s -> hold s) ->
            triple Pre (fail status m) (uploaded f)).
  { intros Pre status m Hst HPre. apply triple_fail. intros s Hp. apply uploaded_failed; auto. }
  eapply triple_bind; [by apply triple_UpsertModule|].
  intros [m|e]; [|apply Hfail; [done | by intros s [? _]]].
  set (key := (mo_ID m, org, (f_Namespace f, f_Name f, f_System f))).
  apply (triple_pure _ _ (key_of_module m = key)); [by intros s (_ & _ & ?)|]. intros Hkey.
  eapply (triple_bind _ (fun r s => hold s /\ match r with
    | Ok m' => registered m' s /\ key_of_module m' = key | Err _ => True end)).
  { destruct (negb _).
    - eapply triple_weaken; [apply triple_UpdateModule | by intros s (? & ? & _) |].
      intros [m'|e] s [Hi Hr]; [|done]. destruct Hr as [Hr ->]. by rewrite Hkey.
    - apply triple_ret. by intros s (? & ? & _). }
  intros [m'|e]; [|apply Hfail; [done | by intros s [? _]]].
  apply (triple_pure _ _ (key_of_module m' = key)); [by intros s (_ & _ & ?)|]. intros Hkey'.
  assert (Hid : mo_ID m' = mo_ID m) by (unfold key_of_module, key in Hkey'; congruence).
  eapply triple_bind.
  { eapply triple_weaken; [apply (triple_GetVersion (fun t => key_of_module m' ∈ module_keys t)) | |].
    - by intros s (? & ? & _).
    - intros r s Hr. exact Hr. }
  intros [[row|]|e]; [apply Hfail; [done | by intros s [[? _] _]] | |apply Hfail; [done | by intros s [[? _] _]]].
  eapply triple_weaken; [by apply triple_store_version | |done].
  intros s [[Hi Hr] Hnew]. split; [done|]. split; [|exact Hnew]. rewrite Hkey' in Hr. rewrite Hid. exact Hr.
Qed.

Lemma segments_valid fields field v :
  invalid_segment fields = None -> In (field, v) fields -> segment v.
Proof.
  unfold invalid_segment. intros Hf Hin.
  destruct (List.find _ _) as [kv|] eqn:E; [done|].
  apply (Permutation_in _ (map_range_perm _ fields)), list_elem_of_In in Hin.
  pose proof (find_none _ _ _ E Hin) as Hn.
  cbn [snd] in Hn. unfold ValidateRegistrySegment in Hn. unfold segment. by destruct (reRegistrySegment v).
Qed.

Lemma policy_leaves e i : leaves_store (Evaluate e i).
Proof.
  unfold Evaluate. destruct (_ || _); [apply leaves_ret|].
  apply leaves_bind; [|intros [vs|e']; apply leaves_ret].
  induction (pe_Queries e) as [|q queries IH]; cbn [evaluate_all]; [apply leaves_ret|].
  apply leaves_bind; [apply (policy_quiet Hw)|]. intros [vs|e']; [|apply leaves_ret].
  apply leaves_bind; [exact IH | intros [vs'|e']; apply leaves_ret].
Qed.

Lemma triple_policy f size :
  triple hold (check_policy cfg f size : P _)
    (fun r s => hold s /\ match r with Some a => fst a = 422 | None => True end).
Proof.
  unfold check_policy. destruct (policyEngine cfg) as [e|]; [|by apply triple_ret].
  destruct (negb _); [by apply triple_ret|].
  eapply triple_bind; [apply triple_quiet_inv, policy_leaves|]. intros r. apply triple_ret. intros s Hi.
  split; [done|]. destruct r as [[[] vs]|e']; try done. by destruct (String.eqb (pe_Mode e) "block").
Qed.

Lemma triple_UploadHandler form :
  triple hold (UploadHandler cfg form : P _)
    (fun r s => hold s /\ match form with Ok f => uploaded f r s | Err _ => True end).
Proof.
  assert (Hfail : forall (Pre : S' -> Prop) f status m, status <> 201 -> (forall s, Pre s -> hold s) ->
            triple Pre (fail status m) (fun r s => hold s /\ uploaded f r s)).
  { intros Pre f status m Hst HPre. apply triple_fail. intros s Hp. split; [auto|]. apply uploaded_failed; auto. }
  unfold UploadHandler. destruct form as [f|e]; [|by apply triple_fail].
  destruct (negb (required f)); [by apply Hfail|].
  destruct (invalid_segment _) as [field|] eqn:Eseg; [by apply Hfail|].
  pose proof (segments_valid _ "namespace" (f_Namespace f) Eseg ltac:(cbn; auto)) as Hns.
  pose proof (segments_valid _ "name" (f_Name f) Eseg ltac:(cbn; auto)) as Hn.
  pose proof (segments_valid _ "system" (f_System f) Eseg ltac:(cbn; auto)) as Hs.
  unfold ValidateSemver. destruct (NewVersion (f_Version f)) as [ver|] eqn:Ever; [|by apply Hfail].
  assert (Hv : file_version (f_Version f)) by (apply (versions_plain Hw); congruence).
  destruct (f_File f) as [[filename [data readError]]|] eqn:Efile; [|by apply Hfail].
  destruct (temp_quiet Hw) as (Hcreate & Hcopy & Hseek).
  eapply triple_bind; [by apply triple_quiet_inv|]. intros [u|e]; [|by apply Hfail].
  eapply triple_bind; [by apply triple_quiet_inv|]. intros [u'|e]; [|by apply Hfail].
  destruct readError as [e|]; [by apply Hfail|].
  eapply triple_bind; [by apply triple_quiet_inv|]. intros [u''|e]; [|by apply Hfail].
  destruct (ValidateArchive data MaxArchiveSize) as [e|]; [by apply Hfail|].
  eapply triple_bind; [apply triple_policy|]. intros [a|].
  - apply triple_ret. intros s [Hi Ha]. split; [done|]. split; [done|]. by rewrite Ha.
  - apply (triple_weaken hold _ _ (uploaded f)); [|by intros s [? _] | intros a s Hu; split; [apply Hu | exact Hu]].
    apply triple_organization; [intros m s Hi; by apply uploaded_failed|]. by apply triple_register.
Qed.

(** *** The other handlers *)

Abbreviation keeps_inv c := (triple hold c (fun _ => hold)).

Lemma keeps_fail status m : keeps_inv (fail status m).
Proof. by apply triple_ret. Qed.

Lemma keeps_bind {A B} (c : P A) (k : A -> P B) :
  keeps_inv c -> (forall a, keeps_inv (k a)) -> keeps_inv (bind c k).
Proof. intros Hc Hk. by eapply triple_bind. Qed.

Lemma keeps_organization (k : uuid -> P reply) : keeps_inv (k org) -> keeps_inv (with_organization k).
Proof. intros Hk. by apply triple_organization. Qed.

Lemma keeps_module ns n s (k : Module -> P reply) :
  (forall m, at_address ns n s m -> triple (fun st => hold st /\ registered m st) (k m) (fun _ => hold)) ->
  keeps_inv (with_module ns n s k).
Proof.
  intros Hk. unfold with_module. apply keeps_bind; [apply triple_quiet_inv, (org_quiet Hw)|].
  intros [o|e]; [|apply keeps_fail].
  apply (triple_bind _ (fun r st => hold st /\ match r with Ok (Some m) => registered m st /\ at_address ns n s m | _ => True end)).
  - destruct o as [o|]; [apply triple_GetModule|]. by apply triple_query.
  - intros [[m|]|e]; [|by apply triple_ret; intros st [? _]..].
    apply (triple_pure _ _ (at_address ns n s m)); [by intros st (_ & _ & ?)|]. intros Ha.
    eapply triple_weaken; [by apply Hk | by intros st (? & ? & _) | done].
Qed.

Lemma keeps_module_alone ns n s (k : Module -> P reply) :
  (forall m, keeps_inv (k m)) -> keeps_inv (with_module ns n s k).
Proof.
  intros Hk. apply keeps_module. intros m _. eapply triple_weaken; [apply Hk | by intros st [? _] | done].
Qed.

(** A row of the catalogue at its address. *)
Definition row_of (ns n s v : string) (row : ModuleVersion) (t : mdb) : Prop :=
  row ∈ module_versions t /\ mv_StoragePath row = storagePath ns n s v.

Lemma row_found ns n s m t y row : hold (Beside t y) -> registered m (Beside t y) -> at_address ns n s m ->
  row ∈ module_versions t -> mv_ModuleID row = mo_ID m -> mv_StoragePath row = storagePath ns n s (mv_Version row).
Proof.
  intros [[_ Hc] _] Hm (<- & <- & <-) Hrow Hid. cbn in Hc, Hm.
  destruct (located _ _ _ _ _ Hc _ (list_elem_of_fmap_2 key_of_version _ _ Hrow)) as (o & ns & n & s & Hin & _ & Hp).
  cbn in Hin, Hp. rewrite Hp. unfold registered, key_of_module in Hm. cbn in Hm. rewrite Hid in Hin.
  pose proof (same_id _ _ _ _ _ _ _ _ _ _ Hc Hin Hm) as E. by injection E as -> -> ->.
Qed.

Lemma keeps_version_row ns n s v (k : ModuleVersion -> P reply) :
  (forall row, file_key (mv_StoragePath row) ->
     triple (fun st => hold st /\ row_of ns n s v row (tabs st)) (k row) (fun _ => hold)) ->
  keeps_inv (with_version ns n s v k).
Proof.
  intros Hk. unfold with_version. apply keeps_module. intros m Ha.
  apply (triple_bind _ (fun r st => hold st /\ match r with
    | Ok (Some row) => file_key (mv_StoragePath row) /\ row_of ns n s v row (tabs st) | _ => True end)).
  - apply triple_query; [by intros st [? _]|]. intros t y [Hi Hm]. split; [done|].
    destruct (List.find _ _) as [row|] eqn:E; [|done]. apply find_elem in E as [Hrow E].
    split; [by eapply version_file_key|]. unfold version_is in E. apply andb_true_iff in E as [Em%Nat.eqb_eq <-%String.eqb_eq].
    split; [done | by eapply row_found].
  - intros [[row|]|e]; [|by apply triple_ret; intros st [? _]..].
    apply (triple_pure _ _ (file_key (mv_StoragePath row))); [by intros st (_ & ? & _)|]. intros Hkey.
    eapply triple_weaken; [by apply Hk | by intros st (? & _ & ?) | done].
Qed.

Lemma keeps_version ns n s v (k : ModuleVersion -> P reply) :
  (forall row, file_key (mv_StoragePath row) -> keeps_inv (k row)) ->
  keeps_inv (with_version ns n s v k).
Proof.
  intros Hk. apply keeps_version_row. intros row Hrow. eapply triple_weaken; [by apply Hk | by intros st [? _] | done].
Qed.

Lemma triple_archives (Q : mdb -> Prop) vs :
  Forall (fun v => file_key (mv_StoragePath v) /\ spared (mv_StoragePath v)) vs ->
  triple (fun s : S' => hold s /\ Q (tabs s)) (delete_archives vs : P unit) (fun _ s => hold s /\ Q (tabs s)).
Proof.
  intros Hvs. induction Hvs as [|v vs Hv Hvs IH]; cbn [delete_archives]; [by apply triple_ret|].
  apply (triple_bind _ (fun _ s => hold s /\ Q (tabs s))); [|intros _; exact IH].
  destruct (String.eqb _ _); [by apply triple_ret|].
  eapply triple_bind; [by apply triple_Delete; destruct Hv | intros r; by apply triple_ret].
Qed.

Lemma keeps_deprecation id now msg repl :
  keeps_inv (affecting "failed to deprecate module version" "module version" (has_version id)
    (on_mversions (update_rows (version_has id) (set_deprecated now msg repl))) : P _).
Proof. apply affecting_keys. intros t. by apply versions_same_keys. Qed.

Lemma keeps_download audit ns n s v : keeps_inv (DownloadHandler audit ns n s v).
Proof.
  unfold DownloadHandler. destruct (ValidateSemver v); [apply keeps_fail|]. apply keeps_organization.
  eapply triple_bind; [apply triple_GetModule|].
  intros [[m|]|e]; [|by apply triple_ret; intros st [? _]..].
  eapply triple_bind.
  { eapply triple_weaken; [apply (triple_GetVersion (fun _ => True)) | by intros st [Hi _] | intros r st Hr; exact Hr]. }
  intros [[row|]|e]; [|by apply triple_ret; intros st [[? _] _]..].
  apply (triple_pure _ _ (file_key (mv_StoragePath row))); [by intros st [_ ?]|]. intros Hkey.
  apply (triple_weaken hold _ _ (fun _ => hold)); [|by intros st [[? _] _] | done].
  apply keeps_bind.
  - apply triple_outward. intros t y Hi. destruct (url_law _ url_ttl y (proj1 (proj1 Hi)) Hkey) as [Hy Hs].
    by apply (inv_store t y).
  - intros [u|e]; [|apply keeps_fail]. apply keeps_bind; [|intros _; apply keeps_bind].
    + apply triple_keys. intros t. by apply versions_same_keys.
    + destruct audit; [apply triple_quiet_inv, (notices_quiet Hw) | by apply triple_ret].
    + intros _. by apply triple_ret.
Qed.

Lemma keeps_create input user : keeps_inv (CreateModuleRecord input user).
Proof.
  unfold CreateModuleRecord. destruct input as [r|e]; [|apply keeps_fail].
  destruct (_ || _); [apply keeps_fail|].
  destruct (invalid_segment _) as [field|] eqn:Eseg; [apply keeps_fail|].
  pose proof (segments_valid _ "namespace" (cr_Namespace r) Eseg ltac:(cbn; auto)) as Hns.
  pose proof (segments_valid _ "name" (cr_Name r) Eseg ltac:(cbn; auto)) as Hn.
  pose proof (segments_valid _ "system" (cr_System r) Eseg ltac:(cbn; auto)) as Hs.
  eapply (triple_bind _ (fun r s => hold s /\ match r with Ok (Some o) => o = org | _ => True end)).
  { apply triple_outward. intros t y Hi. split; [|apply (org_same Hw)].
    exact (triple_quiet_inv _ (org_quiet Hw) (Env (Beside t y) [] 0 []) Hi). }
  intros [[o|]|e]; [|by apply triple_ret; intros st [? _]..].
  apply (triple_pure _ _ (o = org)); [by intros st [_ ?]|]. intros ->.
  apply (triple_weaken hold _ _ (fun _ => hold)); [|by intros st [? _] | done].
  eapply triple_bind; [apply triple_GetModule|].
  intros [[m|]|e]; [by apply triple_ret; intros st [? _] | |by apply triple_ret; intros st [? _]].
  eapply triple_bind.
  { eapply triple_weaken; [by apply (triple_CreateModule (request_module org r user)) | by intros st [? _] | intros a st Ha; exact Ha]. }
  intros [m|e]; by apply triple_ret; intros st [? _].
Qed.

(** A request that leaves the namespace of its module alone. *)
Definition keeps_namespace (q : request) : Prop :=
  match q with UpdateRecord _ (Ok r) => ur_Namespace r = None | _ => True end.

Lemma keeps_update id input :
  keeps_namespace (UpdateRecord id input) -> keeps_inv (UpdateModuleRecord id input).
Proof.
  intros Hns. unfold UpdateModuleRecord. destruct input as [r|e]; [|apply keeps_fail]. cbn in Hns.
  eapply (triple_bind _ (fun res st => hold st /\ match res with Ok (Some m) => registered m st | _ => True end)).
  { apply triple_query; [done|]. intros t y Hi. split; [done|].
    destruct (List.find _ _) as [m|] eqn:E; [|done]. by eapply module_found. }
  intros [[m|]|e]; [|by apply triple_ret; intros st [? _]..].
  eapply (triple_bind _ (fun refused st => refused = None /\ hold st /\ registered m st)).
  { unfold namespace_refused. rewrite Hns. by apply triple_ret. }
  intros [a|]; [by apply triple_ret; intros st [? _]|].
  eapply triple_bind.
  { eapply triple_weaken; [apply (triple_UpdateModule (amended r m)) | | intros x st Hx; exact Hx].
    intros st (_ & Hi & Hr). split; [done|]. unfold registered, key_of_module in *. cbn. by rewrite Hns. }
  intros [m'|e]; by apply triple_ret; intros st [? _].
Qed.

Lemma keeps_listing ns n s limit offset : keeps_inv (ListVersionsHandler ns n s limit offset).
Proof.
  unfold ListVersionsHandler. apply keeps_organization.
  eapply triple_bind; [apply triple_GetModule|].
  intros [[m|]|e]; [|by apply triple_ret; intros st [? _]..].
  apply (triple_weaken hold _ _ (fun _ => hold)); [|by intros st [? _] | done].
  unfold ListVersionsPaginated. apply keeps_bind; [|intros [[vs total]|e]; by apply triple_ret].
  apply keeps_bind; [apply triple_read|]. intros [total|e]; [|by apply triple_ret].
  apply keeps_bind; [apply triple_read | intros [vs|e]; by apply triple_ret].
Qed.

Lemma keeps_search q ns s sort order limit offset :
  keeps_inv (SearchHandler cfg q ns s sort order limit offset).
Proof.
  unfold SearchHandler. destruct (negb _); [apply keeps_fail|].
  assert (Hs : forall o, keeps_inv (let! r := SearchModulesWithStats o q ns s (number_or 20 1 100 limit)
                 (number_or 0 0 (2^63 - 1) offset) sort order in
               match r with
               | Err _ => fail 500 "Failed to search modules"
               | Ok (results, total) => ret (200, BSearch results (number_or 20 1 100 limit)
                   (number_or 0 0 (2^63 - 1) offset) total)
               end)).
  { intros o. apply keeps_bind; [|intros [[rs total]|e]; by apply triple_ret].
    unfold SearchModulesWithStats. apply keeps_bind; [apply triple_read|]. intros [total|e]; [|by apply triple_ret].
    apply keeps_bind; [apply triple_read | intros [rs|e]; by apply triple_ret]. }
  destruct (MultiTenancy cfg); [|apply Hs]. apply keeps_organization, Hs.
Qed.

Lemma keeps_reanalyze ns n s v : keeps_inv (ReanalyzeVersion cfg ns n s v).
Proof.
  unfold ReanalyzeVersion. apply keeps_version. intros row Hk.
  destruct (String.eqb _ _); [apply keeps_fail|]. apply keeps_bind.
  - unfold reanalyze_docs. destruct (negb _); [by apply triple_ret|]. apply keeps_bind.
    + apply triple_outward. intros t y Hi. destruct (download_law _ y (proj1 (proj1 Hi)) Hk) as (Hy & Hs & _).
      by apply (inv_store t y).
    + intros [[text [e|]]|e]; [by apply triple_ret | | by apply triple_ret].
      destruct (AnalyzeArchive text) as [[doc|]|e]; [|by apply triple_ret..].
      apply keeps_bind; [|intros r; by apply triple_ret].
      apply triple_keys. intros t. by destruct (negb _).
  - intros [docs|e]; [|apply keeps_fail]. destruct (_ && _); [|by apply triple_ret].
    apply keeps_bind; [|intros r; by apply triple_ret].
    apply triple_keys. intros t. by destruct (negb _).
Qed.

(** A deletion of what need not stay. *)
Definition deletes (q : request) (path : string) : Prop :=
  match q with
  | DeleteVersionReq ns n s v => path = storagePath ns n s v
  | DeleteModuleReq ns n s => exists v, path = storagePath ns n s v
  | _ => False
  end.
Definition leaves_kept (q : request) : Prop := forall g, g ∈ kept -> ~ deletes q (vk_Path (fst g)).

Lemma keeps_delete_module ns n s : leaves_kept (DeleteModuleReq ns n s) -> keeps_inv (DeleteModuleHandler ns n s).
Proof.
  intros Hsp. unfold DeleteModuleHandler. apply keeps_module. intros m Ha.
  apply (triple_bind _ (fun r st => hold st /\ registered m st /\ match r with
    | Ok vs => Forall (fun v => file_key (mv_StoragePath v) /\ spared (mv_StoragePath v)) vs | _ => True end)).
  { apply triple_query; [by intros st [? ?]|]. intros t y [Hi Hm]. split; [done|]. split; [done|].
    apply Forall_forall. intros v Hv. apply list_elem_of_In in Hv.
    eapply Permutation_in in Hv; [|symmetry; apply go_sort_perm].
    apply filter_In in Hv as [Hv Hid%Nat.eqb_eq]. apply list_elem_of_In in Hv. split; [by eapply version_file_key|].
    rewrite (row_found ns n s m t y v Hi Hm Ha Hv Hid). apply Forall_forall. intros g Hg E. apply (Hsp g Hg). by eexists. }
  intros [vs|e]; [|apply triple_ret; by intros st [? _]].
  apply (triple_pure _ _ (Forall (fun v => file_key (mv_StoragePath v) /\ spared (mv_StoragePath v)) vs));
    [by intros st (_ & _ & ?)|]. intros Hvs.
  apply (triple_bind _ (fun _ st => hold st /\ key_of_module m ∈ module_keys (tabs st))).
  { eapply triple_weaken; [exact (triple_archives (fun t => key_of_module m ∈ module_keys t) vs Hvs) | by intros st (? & ? & _) |done]. }
  intros []. eapply (triple_bind _ (fun _ => hold)); [|intros [u|e]; by apply triple_ret].
  apply triple_sql; [by intros st [? _]|]. intros t y [Hi Hm]. destruct (has_module _ t); [|done]. apply drop_module_inv; [|done].
  intros g Hg E. apply (Hsp g Hg). pose proof (proj1 (Forall_forall _ _) (proj2 Hi) g Hg) as [Hk _].
  apply list_elem_of_fmap in Hk as (v & Ev & Hv). exists (mv_Version v). rewrite Ev in E |- *.
  exact (row_found ns n s m t y v Hi Hm Ha Hv E).
Qed.

Lemma version_delete_keeps ns n s v : leaves_kept (DeleteVersionReq ns n s v) -> keeps_inv (DeleteVersionHandler ns n s v).
Proof.
  intros Hsp. unfold DeleteVersionHandler. apply keeps_version_row. intros row Hk.
  apply (triple_pure _ _ (mv_StoragePath row = storagePath ns n s v)); [by intros st (_ & _ & ?)|]. intros Hp.
  assert (Hspared : spared (mv_StoragePath row)) by (apply Forall_forall; intros g Hg; rewrite Hp; exact (Hsp g Hg)).
  apply (triple_bind _ (fun _ st => hold st /\ row_of ns n s v row (tabs st)));
    [apply (triple_archives (row_of ns n s v row)); by constructor|].
  intros []. eapply (triple_bind _ (fun _ => hold)); [|intros [u|e]; by apply triple_ret].
  apply triple_sql; [by intros st [? _]|]. intros t y [Hi [Hrow _]]. destruct (has_version _ t); [|done].
  apply drop_versions_inv; [|done]. intros g v' Hg Hv' E. apply Nat.eqb_neq. intros Eid.
  destruct Hi as [[_ Hc] _]. cbn in Hc.
  assert (Esame : key_of_version v' = key_of_version row).
  { apply (same_version_id _ _ _ _ _ _ _ Hc); [by apply list_elem_of_fmap_2..|]. exact Eid. }
  apply (proj1 (Forall_forall _ _) Hspared g Hg). by rewrite <- E, Esame.
Qed.

Lemma keeps_deprecate_module ns n s input : keeps_inv (DeprecateModuleHandler ns n s input).
Proof.
  unfold DeprecateModuleHandler. destruct (match input with Ok r => r | Err _ => _ end) as [msg succ].
  apply keeps_module_alone. intros m. apply keeps_bind; [|intros [u|e]; by apply triple_ret].
  unfold DeprecateModule. apply keeps_bind; [apply triple_now|]. intros now. apply triple_keys. intros t.
  destruct (negb _); [apply same_keys_refl|]. destruct (match succ with Some _ => _ | None => _ end);
    [apply same_keys_refl | by apply modules_same_keys].
Qed.

Lemma handle_keeps q : keeps_namespace q -> leaves_kept q -> keeps_inv (handle cfg q).
Proof.
  intros Hq Hl. destruct q; cbn [handle].
  - eapply triple_weaken; [apply triple_UploadHandler | done | by intros r s [? _]].
  - apply keeps_download.
  - apply keeps_listing.
  - apply keeps_search.
  - apply keeps_create.
  - unfold GetModuleDetail. apply keeps_module_alone. intros m. apply keeps_bind; [apply triple_read|].
    intros [vs|e]; by apply triple_ret.
  - unfold GetModuleVersion. apply keeps_version. intros row Hk. by apply triple_ret.
  - by apply keeps_delete_module.
  - by apply version_delete_keeps.
  - unfold DeprecateVersionHandler. destruct (match input with Ok r => r | Err _ => _ end) as [msg repl].
    apply keeps_version. intros row Hk. apply keeps_bind; [|intros [u|e]; by apply triple_ret].
    unfold DeprecateVersion. apply keeps_bind; [apply triple_now|]. intros now. apply keeps_deprecation.
  - unfold UndeprecateVersionHandler. apply keeps_version. intros row Hk.
    apply keeps_bind; [|intros [u|e]; by apply triple_ret].
    apply affecting_keys. intros t. by apply versions_same_keys.
  - apply keeps_deprecate_module.
  - unfold UndeprecateModuleHandler. apply keeps_module_alone. intros m.
    apply keeps_bind; [|intros [u|e]; by apply triple_ret].
    apply affecting_keys. intros t. by apply modules_same_keys.
  - by apply keeps_update.
  - unfold GetModuleByIDRecord. apply keeps_bind; [apply triple_read|]. intros [[m|]|e]; by apply triple_ret.
  - apply keeps_reanalyze.
Qed.

Lemma handle_all_keeps qs : Forall keeps_namespace qs -> Forall leaves_kept qs -> keeps_inv (handle_all cfg qs).
Proof.
  intros Hqs. induction Hqs as [|q qs Hq Hqs IH]; cbn [handle_all]; [by intros _; apply triple_ret|].
  intros [Hl Hls]%Forall_cons. apply keeps_bind; [by apply handle_keeps|]. intros r.
  apply keeps_bind; [by apply IH | intros rs; by apply triple_ret].
Qed.

End Handlers.

(** ** The properties *)

Section Properties.
Context {Y : Type} `{GoSort} `{!GoSortLaws} `{GoVersion} `{TarGz} `{Analyzer} `{TextSearch} `{MapRange} `{!MapRangeLaws}.
Context `{BackendLaws Y} `{Organizations Y} `{TempFiles Y} `{Rego Y} `{Notices Y}.
Context (cfg : Config) (org : uuid) (Hw : world_laws org).
#[local] Abbreviation S' := (beside mdb Y).

(** C2: Along every sequence of module requests, whatever fails on the way, a version's
    archive stays where its module's address says, no two versions share a path, and
    whatever is stored there has the digest and the size of the version's row.  A version
    that none of the requests deletes, neither itself nor with its module, keeps its row
    and its archive, byte for byte, whatever is uploaded, deleted or cleaned up beside it.
    This holds as long as no request moves a module to another namespace and the
    organization module knows one default organization, under which all modules are. *)
Theorem archives_stay_genuine (qs : list request) (w : env (beside mdb Y)) :
  inv org (st w) -> Forall keeps_namespace qs ->
  let s := st (snd (handle_all cfg qs w)) in
  inv org s /\
  (forall v c, v ∈ module_versions (tabs s) -> content (around s) (mv_StoragePath v) = Some c ->
     sha256_hex c = mv_Checksum v /\ Z.of_nat (String.length c) = mv_SizeBytes v) /\
  forall v c, v ∈ module_versions (tabs (st w)) -> content (around (st w)) (mv_StoragePath v) = Some c ->
    Forall (fun q => ~ deletes q (mv_StoragePath v)) qs ->
    key_of_version v ∈ version_keys (tabs s) /\ content (around s) (mv_StoragePath v) = Some c.
Proof.
  intros Hi Hqs s.
  assert (Hi' : inv org s).
  { apply (handle_all_keeps cfg org [] Hw qs Hqs); [|by split; [|constructor]].
    apply Forall_forall. by intros q _ g ?%not_elem_of_nil. }
  split; [exact Hi'|]. split.
  - intros v c Hv. destruct Hi' as [_ Hc].
    exact (genuine _ _ _ _ _ Hc (key_of_version v) c (list_elem_of_fmap_2 key_of_version _ _ Hv)).
  - intros v c Hv Hd Hq. set (kept := [(key_of_version v, c)]).
    destruct (handle_all_keeps cfg org kept Hw qs Hqs) with (w := w) as [_ Hst].
    + eapply Forall_impl; [exact Hq|]. intros q Hn g ->%list_elem_of_singleton. exact Hn.
    + split; [done|]. apply Forall_singleton. split; [exact (list_elem_of_fmap_2 key_of_version _ _ Hv) | done].
    + exact (proj1 (Forall_singleton _ _) Hst).
Qed.

(** C7: An upload answered with 201 has recorded the version of the form and stored the
    archive of the form under its path, with the digest and size the row carries;
    every other answer leaves the invariant as well. *)
Theorem uploaded_archive_is_recorded (f : UploadForm) (w : env (beside mdb Y)) :
  inv org (st w) ->
  let r := UploadHandler cfg (Ok f) w in
  inv org (st (snd r)) /\
  (fst (fst r) = 201 -> exists module row filename data, snd (fst r) = BUploaded module row filename /\
     f_File f = Some (filename, (data, None)) /\
     published_as (mo_ID module) (f_Version f)
       (storagePath (f_Namespace f) (f_Name f) (f_System f) (f_Version f)) data row (st (snd r))).
Proof.
  intros Hi. destruct (triple_UploadHandler cfg org [] Hw (Ok f) w) as [_ [[Hi' _] Hu]]; [by split; [|constructor] | by split].
Qed.

(** *** Refused uploads *)

Definition unchanged (t : mdb) (m : store_map) (s : S') : Prop :=
  tabs s = t /\ sane (around s) /\ forall k, content (around s) k = m k.

Lemma triple_unchanged {A} (c : prog Y A) t m :
  leaves_store c -> triple (unchanged t m) (outward c) (fun _ => unchanged t m).
Proof.
  intros Hc. apply triple_outward. intros t' y (Ht & Hy & Hm). cbn in *.
  destruct (Hc y Hy) as [Hy' Hs]. split; [done|]. split; [done|]. intros k. cbn. by rewrite Hs.
Qed.

Definition not_refusal (r : reply) : Prop := fst r <> 400 /\ fst r <> 422.

Lemma register_not_refusal o f data filename : returns not_refusal (register_module cfg o f data filename).
Proof.
  unfold register_module, store_version, not_refusal, fail.
  repeat first [ apply returns_bind; intros ? | case_match | apply returns_ret; cbn; lia ].
Qed.

(** An upload refused for its form, its archive or by a policy (400 or 422) has
    changed neither the tables nor the store. *)
Theorem refused_upload_leaves_no_trace (form : res UploadForm) (w : env (beside mdb Y)) :
  sane (around (st w)) ->
  let r := UploadHandler cfg form w in
  fst (fst r) = 400 \/ fst (fst r) = 422 ->
  tabs (st (snd r)) = tabs (st w) /\ forall k, content (around (st (snd r))) k = content (around (st w)) k.
Proof.
  intros Hy. cbn zeta. set (t := tabs (st w)). set (m := content (around (st w))).
  assert (Htr : triple (unchanged t m) (UploadHandler cfg form)
            (fun r s => fst r = 400 \/ fst r = 422 -> unchanged t m s)).
  { assert (Hfail : forall status msg, triple (unchanged t m) (fail status msg)
              (fun r s => fst r = 400 \/ fst r = 422 -> unchanged t m s)) by (intros; by apply triple_ret).
    destruct (temp_quiet _ Hw) as (Hcreate & Hcopy & Hseek).
    unfold UploadHandler. destruct form as [f|e]; [|apply Hfail].
    destruct (negb (required f)); [apply Hfail|]. destruct (invalid_segment _); [apply Hfail|].
    destruct (ValidateSemver (f_Version f)); [apply Hfail|].
    destruct (f_File f) as [[filename [data readError]]|]; [|apply Hfail].
    eapply triple_bind; [by apply triple_unchanged|]. intros [u|e]; [|apply Hfail].
    eapply triple_bind; [by apply triple_unchanged|]. intros [u'|e]; [|apply Hfail].
    destruct readError as [e|]; [apply Hfail|].
    eapply triple_bind; [by apply triple_unchanged|]. intros [u''|e]; [|apply Hfail].
    destruct (ValidateArchive data MaxArchiveSize) as [e|]; [apply Hfail|].
    apply (triple_bind _ (fun _ => unchanged t m)).
    { unfold check_policy. destruct (policyEngine cfg) as [e|]; [|by apply triple_ret].
      destruct (negb _); [by apply triple_ret|].
      apply (triple_bind _ (fun _ => unchanged t m)); [apply triple_unchanged, (policy_leaves org Hw)|].
      intros r. by apply triple_ret. }
    intros [a|]; [by apply triple_ret|].
    unfold with_organization. eapply triple_bind; [apply triple_unchanged, (org_quiet _ Hw)|].
    intros [[o|]|e]; [|apply Hfail..].
    intros w' _ Hs. destruct (register_not_refusal o f data filename w'). lia. }
  intros Hs. destruct (Htr w) as (Ht & _ & Hm); [by repeat split | exact Hs | by split].
Qed.
End Properties.

(** ** Search *)

Lemma with_keys_ok versions :
  is_ok (ModuleRepository.with_keys versions) = true <->
  Forall (fun v => is_ok (ModuleRepository.sql_key (mv_Version v)) = true) versions.
Proof.
  induction versions as [|v versions IH]; cbn; [by split; [constructor|]|].
  rewrite Forall_cons, <- IH.
  destruct (ModuleRepository.sql_key (mv_Version v)), (ModuleRepository.with_keys versions); cbn;
    split; intros Hk; try done; by destruct Hk.
Qed.

Lemma result_rows_ok `{GoSort} t ms :
  is_ok (ModuleRepository.result_rows t ms) = true <->
  Forall (fun m => is_ok (ModuleRepository.with_keys (ModuleRepository.versions_of (mo_ID m) t)) = true) ms.
Proof.
  induction ms as [|m ms IH]; cbn; [by split; [constructor|]|].
  rewrite Forall_cons, <- IH. unfold ModuleRepository.result_row, ModuleRepository.latest_version.
  destruct (ModuleRepository.with_keys _), (ModuleRepository.result_rows t ms); cbn;
    split; intros Hk; try done; by destruct Hk.
Qed.

(** When no statement fails, a search answers exactly if the three leading
    components of every version of every matching module fit a 32-bit integer: one
    version with a larger component fails every search that meets its module. *)
Theorem search_answers_iff `{GoSort} `{TextSearch} {Y} (o : option uuid) ns s limit offset sort order
  (w : env (beside mdb Y)) :
  faults w = [] ->
  let t := tabs (st w) in
  is_ok (fst (ModuleRepository.SearchModulesWithStats o "" ns s limit offset sort order w)) = true <->
  forall m v, In m (modules t) -> ModuleRepository.found_by o None ns s m = true ->
    In v (module_versions t) -> mv_ModuleID v = mo_ID m ->
    is_ok (ModuleRepository.sql_key (mv_Version v)) = true.
Proof.
  intros Hf. cbn zeta. unfold ModuleRepository.SearchModulesWithStats, bind, query.
  rewrite (sql_quiet _ _ w Hf). cbn [fst snd]. cbv beta iota.
  rewrite sql_quiet by done. cbn [fst snd tabs st String.eqb].
  destruct w as [[t y] fs c tk]. cbn [tabs st] in *.
  set (hits := List.filter _ (modules t)).
  assert (Hrows : is_ok (ModuleRepository.result_rows t hits) = true <->
            forall m v, In m (modules t) -> ModuleRepository.found_by o None ns s m = true ->
              In v (module_versions t) -> mv_ModuleID v = mo_ID m ->
              is_ok (ModuleRepository.sql_key (mv_Version v)) = true).
  { rewrite result_rows_ok, List.Forall_forall. split.
    - intros Hall m v Hm Hfound Hv Hid. specialize (Hall m).
      rewrite with_keys_ok, List.Forall_forall in Hall. apply Hall.
      + apply filter_In. by split.
      + apply filter_In. split; [done|]. by apply Nat.eqb_eq.
    - intros Hall m [Hm Hfound]%filter_In. rewrite with_keys_ok, List.Forall_forall.
      intros v [Hv Hid]%filter_In. apply Nat.eqb_eq in Hid. by eapply Hall. }
  rewrite <- Hrows. by destruct (ModuleRepository.result_rows t hits).
Qed.

(** ** A concrete registry, on the local backend *)

Module Demo.
#[export] Instance sort : GoSort := stable_sort.
#[export] Instance sort_laws : GoSortLaws := stable_sort_laws.
#[export] Instance versions : GoVersion := {|
  gover := gover (GoVersion := release_version); gocon := gocon (GoVersion := release_version);
  NewVersion s := if no_slash s then NewVersion (GoVersion := release_version) s else None;
  Segments := Segments (GoVersion := release_version);
  GreaterThan := GreaterThan (GoVersion := release_version);
  VEqual := VEqual (GoVersion := release_version);
  NewConstraint := NewConstraint (GoVersion := release_version);
  CheckConstraint := CheckConstraint (GoVersion := release_version) |}.
#[export] Instance targz : TarGz := fun bytes =>
  if String.eqb bytes "" then Err (ErrExt "EOF")
  else Ok ([{| Name := "main.tf"; Typeflag := TypeReg; Archive.body := (bytes, None) |}], None).
#[export] Instance analyzer : Analyzer := fun _ => Ok None.
#[export] Instance search : TextSearch := {|
  ilike _ _ := true; fts_matches _ _ := true; fts_rank _ _ := 0 |}.
#[export] Instance range : MapRange := fun _ l => l.
#[export] Instance range_laws : MapRangeLaws.
Proof. by intros A l. Qed.
#[export] Instance sha : Sha256 := fun d => "sha-" +:+ d.

Definition registry : LocalStorage :=
  {| basePath := "/srv/registry"; serveDirectly := true; baseURL := "" |}.
Lemma demo_disk_named : named registry.
Proof. by exists ["srv"], "registry". Qed.
#[export] Instance backend : Backend (env fs) := local_backend [] 0 registry.
#[export] Instance backend_laws : BackendLaws (env fs) := local_backend_laws [] 0 registry demo_disk_named.

#[export] Instance organizations : Organizations (env fs) := ret (Ok (Some 7%nat)).
#[export] Instance temp : TempFiles (env fs) := {|
  CreateTemp := ret (Ok tt); CopyToTemp _ := ret (Ok tt); SeekStart := ret (Ok tt);
  ReadBack := ret (Ok tt) |}.
#[export] Instance rego : Rego (env fs) := fun _ i =>
  ret (Ok (if String.eqb (pi_Name i) "forbidden" then ["no"] else [])).
#[export] Instance notices : Notices (env fs) := {|
  module_published _ _ _ _ := ret tt; audit_download _ _ := ret tt |}.

Definition cfg : Config := {|
  DefaultBackend := "local"; ScanningEnabled := false; ScanningBinaryPath := ""; MultiTenancy := false;
  scanRepo := false; moduleDocsRepo := false;
  policyEngine := Some {| pe_Enabled := true; pe_Mode := "block"; pe_Queries := ["deny"] |} |}.

Lemma laws : world_laws 7%nat.
Proof.
  split.
  - apply leaves_ret.
  - done.
  - split; [apply leaves_ret|]. split; [intros; apply leaves_ret | apply leaves_ret].
  - intros q i. apply leaves_ret.
  - split; intros; apply leaves_ret.
  - intros v. cbn. unfold file_version. by destruct (no_slash v).
Qed.

Definition empty : mdb := MDB [] [] [] [] 1%nat.
Definition disk : env fs := quiet (Fs {[ ["srv"] := Dir; ["srv"; "registry"] := Dir ]} []).
Definition start : env (beside mdb (env fs)) := quiet (Beside empty disk).

Lemma start_inv : inv 7%nat (st start).
Proof.
  split; [apply closedb_sound; vm_compute; reflexivity|].
  split; cbn; try (intros; by apply not_elem_of_nil in H || done); try constructor;
    intros; exfalso; by eapply not_elem_of_nil.
Qed.

Definition form (name version text : string) : UploadForm := {|
  f_Namespace := "acme"; f_Name := name; f_System := "aws"; f_Version := version; f_Description := "";
  f_Source := ""; f_File := Some ("m.tar.gz", (text, None)); f_User := None |}.

Definition requests : list request :=
  [Upload (Ok (form "vpc" "1.0.0" "one")); Upload (Ok (form "vpc" "1.0.0" "two"));
   Upload (Ok (form "vpc" "1.1.0" "three")); DeleteVersionReq "acme" "vpc" "aws" "1.0.0"].

(** The second version survives the deletion of the first. *)
Lemma archives_stay_genuine_witness :
  let published := snd (handle_all cfg (take 3 requests) start) in
  fst <$> fst (handle_all cfg requests start) = [201; 409; 201; 200] /\
  inv 7%nat (st (snd (handle_all cfg requests start))) /\
  content (around (st (snd (handle_all cfg (drop 3 requests) published)))) "modules/acme/vpc/aws/1.1.0.tar.gz" = Some "three".
Proof.
  assert (Hk : forall n, Forall keeps_namespace (take n requests)) by (intros n; apply Forall_take; by repeat constructor).
  intros published. split; [vm_compute; reflexivity|].
  split; [exact (proj1 (archives_stay_genuine cfg 7%nat laws requests start start_inv (Hk 4%nat)))|].
  pose proof (proj1 (archives_stay_genuine cfg 7%nat laws (take 3 requests) start start_inv (Hk 3%nat))) as Hi.
  destruct (archives_stay_genuine cfg 7%nat laws (drop 3 requests) published Hi) as (_ & _ & Hstay); [by repeat constructor|].
  destruct (module_versions (tabs (st published))) as [|v1 [|v2 []]] eqn:Ev; [by vm_compute in Ev..| |by vm_compute in Ev].
  assert (Hp : mv_StoragePath v2 = "modules/acme/vpc/aws/1.1.0.tar.gz") by (vm_compute in Ev; injection Ev as <- <-; done).
  destruct (Hstay v2 "three") as [_ Hd].
  - right. by left.
  - rewrite Hp. by vm_compute.
  - rewrite Hp. constructor; [|done]. by vm_compute.
  - by rewrite Hp in Hd.
Defined.

Lemma uploaded_archive_is_recorded_witness :
  exists row, row ∈ module_versions (tabs (st (snd (UploadHandler cfg (Ok (form "vpc" "1.0.0" "one")) start)))) /\
    mv_Checksum row = "sha-one".
Proof.
  destruct (uploaded_archive_is_recorded cfg 7%nat laws (form "vpc" "1.0.0" "one") start start_inv) as [_ Hu].
  destruct Hu as (m & row & name & data & _ & Hf & Hrow & _ & _ & _ & Hc & _); [vm_compute; reflexivity|].
  exists row. split; [exact Hrow|]. injection Hf as <- <-. exact Hc.
Defined.

Lemma refused_upload_leaves_no_trace_witness :
  fst (fst (UploadHandler cfg (Ok (form "forbidden" "1.0.0" "one")) start)) = 422 /\
  tabs (st (snd (UploadHandler cfg (Ok (form "forbidden" "1.0.0" "one")) start))) = empty.
Proof.
  assert (Hs : fst (fst (UploadHandler cfg (Ok (form "forbidden" "1.0.0" "one")) start)) = 422)
    by (vm_compute; reflexivity).
  split; [exact Hs|].
  exact (proj1 (refused_upload_leaves_no_trace cfg 7%nat laws _ start (proj1 start_inv) (or_intror Hs))).
Defined.

(** A timestamp as patch number is a version like any other, and from then on every
    search that meets the module fails. *)
Definition stamped : env (beside mdb (env fs)) :=
  snd (UploadHandler cfg (Ok (form "vpc" "0.0.20240101120000" "one")) start).

Lemma search_answers_iff_witness :
  is_ok (fst (ModuleRepository.SearchModulesWithStats None "" "" "" 20%nat 0%nat "" "" stamped)) = false.
Proof.
  destruct (is_ok (fst (ModuleRepository.SearchModulesWithStats None "" "" "" 20%nat 0%nat "" "" stamped))) eqn:E; [|done].
  pose proof (proj1 (search_answers_iff None "" "" 20%nat 0%nat "" "" stamped eq_refl) E) as Hall.
  destruct (modules (tabs (st stamped))) as [|m ms] eqn:Em; [by vm_compute in Em|].
  destruct (module_versions (tabs (st stamped))) as [|v vs] eqn:Ev; [by vm_compute in Ev|].
  specialize (Hall m v (or_introl eq_refl)). vm_compute in Em, Ev.
  injection Em as <- _. injection Ev as <- _.
  by specialize (Hall eq_refl (or_introl eq_refl) eq_refl).
Defined.

Definition checked (r : reply * env (beside mdb (env fs))) (path : string) : Z * option string :=
  (fst (fst r), content (around (st (snd r))) path).

(** Two uploads of one version that both found it free: the second one's archive takes
    the place of the first one's, and its clean-up removes the archive of the version
    the first one published. *)
Example concurrent_uploads_lose_the_archive :
  let f1 := form "vpc" "1.0.0" "one" in
  let f2 := form "vpc" "1.0.0" "two" in
  let w0 := snd (ModuleRepository.UpsertModule (form_module 7%nat f1) start) in
  let module := match fst (ModuleRepository.UpsertModule (form_module 7%nat f1) start) with
                | Ok m => m | Err _ => form_module 7%nat f1 end in
  let r1 := store_version cfg module f1 "one" "a" w0 in
  let r2 := store_version cfg module f2 "two" "b" (snd r1) in
  fst (ModuleRepository.GetVersion (mo_ID module) "1.0.0" w0) = Ok None /\
  checked r1 "modules/acme/vpc/aws/1.0.0.tar.gz" = (201, Some "one") /\
  checked r2 "modules/acme/vpc/aws/1.0.0.tar.gz" = (500, None) /\
  mv_Version <$> module_versions (tabs (st (snd r2))) = ["1.0.0"].
Proof. vm_compute. by repeat split. Qed.

Definition rename (ns : string) : request :=
  UpdateRecord 1%nat (Ok {| ur_Description := None; ur_Source := None; ur_Namespace := Some ns |}).

(** A module moved to another namespace keeps its archives where they are; the next
    upload to its old address takes their place. *)
Example renamed_module_loses_its_archive :
  let w := snd (handle_all cfg [Upload (Ok (form "vpc" "1.0.0" "one")); rename "other";
                                Upload (Ok (form "vpc" "1.0.0" "evil"))] start) in
  (fun v => (mv_StoragePath v, mv_Checksum v)) <$> module_versions (tabs (st w)) =
    [("modules/acme/vpc/aws/1.0.0.tar.gz", "sha-one"); ("modules/acme/vpc/aws/1.0.0.tar.gz", "sha-evil")] /\
  content (around (st w)) "modules/acme/vpc/aws/1.0.0.tar.gz" = Some "evil".
Proof. vm_compute. by split. Qed.

Definition described (description source text : string) : UploadForm := {|
  f_Namespace := "acme"; f_Name := "vpc"; f_System := "aws"; f_Version := "1.0.0";
  f_Description := description; f_Source := source; f_File := Some ("m.tar.gz", (text, None)); f_User := None |}.

(** An upload that gives a description but no source erases the source, and does so
    even when it is refused as a duplicate. *)
Example duplicate_upload_erases_the_source :
  let r := handle_all cfg [Upload (Ok (described "d" "https://git" "one")); Upload (Ok (described "e" "" "one"))] start in
  fst <$> fst r = [201; 409] /\
  (fun m => (mo_Description m, mo_Source m)) <$> modules (tabs (st (snd r))) = [(Some "e", None)].
Proof. vm_compute. by split. Qed.
End Demo.
