(* ===== verification/PullThrough.v ===== *)
(** * Pull-through caching

    [internal/services/pull_through.go]: on a cache miss of the network mirror the
    version list and the checksums of a provider are fetched from upstream and put
    into the tables.  No binary is downloaded here.  Logging is left out. *)

From S2P Require Import Prelude GoStrings SemVer VersionFilter AutoApprove.
From S2P Require Import TfReleases TfMirrorRepo TfMirrorSync Checksums ProvRepo Upstream ProvSync.
From stdpp Require Import gmap.

#[local] Open Scope Z_scope.

(** The file's own copy of the SHA256SUMS reader. *)
Definition sum_line (result : gmap string string) (line : string) : gmap string string :=
  let line := trim_space line in
  if String.eqb line "" then result
  else match cut_sub "  " line with
       | Some (hash, file) => <[file := hash]> result
       | None => result
       end.

Definition parseSHASUMContent (content : string) : gmap string string :=
  fold_left sum_line (split_on newline content) ∅.

(** The copy reads what the mirror job's reader reads. *)
Lemma parsers_agree content : parseSHASUMContent content = parseSHASUMFile content.
Proof. reflexivity. Qed.

#[export] Instance pulled_version : HasVersion ProviderVersion := uv_Version.

Section PullThrough.
Context {Y : Type} `{GoSort} `{StringsCodec} `{MapRange} `{UpstreamRegistryClient Y}.
#[local] Abbreviation P := (prog (env (pm Y))).

Definition GetConfigsForProvider (orgID : uuid) (namespace providerType : string)
  : P (res (list MirrorConfiguration)) :=
  MirrorRepository.GetPullThroughConfigsForProvider orgID namespace providerType.

(** The signature of the file is not looked at. *)
Definition fetchAndStoreShasums (base : string) (providerVersionID : uuid) (shasumURL : string)
  : P (res unit) :=
  let! data := out (DownloadFile base shasumURL) in
  match data with
  | Err e => ret (Err (ErrWrap "download SHA256SUMS" e))
  | Ok data =>
      let shasums := parseSHASUMContent data in
      if bool_decide (shasums = ∅) then ret (Ok tt)
      else ProviderRepository.UpsertProviderVersionShasums
             (map_order := fun A => @map_range _ A) providerVersionID shasums
  end.

Definition first_key (pkg : ProviderPackageResponse) : string :=
  match pkg_GPGPublicKeys pkg with [] => "" | k :: _ => k end.

(** One version of the list; whether it is available now. *)
Definition fetch_version (base : string) (providerID : uuid) (namespace providerType : string)
  (v : ProviderVersion) : P bool :=
  match uv_Platforms v with
  | [] => ret false
  | firstPlatform :: _ =>
      let! info := out (GetProviderPackage base namespace providerType (uv_Version v)
                          (up_OS firstPlatform) (up_Arch firstPlatform)) in
      match info with
      | Err _ => ret false
      | Ok pkg =>
          let! pv := ProviderRepository.UpsertVersion providerID (uv_Version v) (uv_Protocols v)
                       (pkg_SHASumsURL pkg) (pkg_SHASumsSignatureURL pkg) (first_key pkg) in
          match pv with
          | Err _ => ret false
          | Ok pv =>
              run! (if String.eqb (pkg_SHASumsURL pkg) "" then ret (Ok tt)
                    else fetchAndStoreShasums base (pv_ID pv) (pkg_SHASumsURL pkg)) in
              ret true
          end
      end
  end.

Definition FetchProviderMetadata (mirrorCfg : MirrorConfiguration) (orgID : uuid)
  (namespace providerType : string) : P (res (list string)) :=
  let base := mc_UpstreamRegistryURL mirrorCfg in
  let! allVersions := out (ListProviderVersions base namespace providerType) in
  match allVersions with
  | Err e => ret (Err (ErrWrap "upstream version list" e))
  | Ok [] => ret (Ok [])
  | Ok allVersions =>
      match ProviderFilter.FilterVersions allVersions (mc_VersionFilter mirrorCfg) with
      | [] => ret (Ok [])
      | filtered =>
          let! provider := ProviderRepository.UpsertProvider orgID namespace providerType in
          match provider with
          | Err e => ret (Err (ErrWrap "upsert provider" e))
          | Ok provider =>
              let! available := fold_prog (fun available v =>
                let! ok := fetch_version base (pr_ID provider) namespace providerType v in
                ret (if ok : bool then available ++ [uv_Version v] else available)) [] filtered in
              ret (Ok available)
          end
      end
  end.
End PullThrough.
