(* ===== verification/ProvRegistry.v ===== *)
(** * The provider registry and network mirror handlers

    The protocol and publishing endpoints of [internal/api/providers] (upload,
    download, versions, documentation), the network mirror of [internal/api/mirror],
    the files served from local storage ([api/modules/serve.go]) and the
    administration of providers in [api/admin/providers.go], over the provider tables
    ([ProvRepo]) and the storage interface ([Backend]).  Work a handler leaves to a
    goroutine happens at its end.  Logging, metrics and JSON names are left out. *)

From S2P Require Import Prelude GoStrings Regexp AutoApprove Validation Filepath Os LocalStorage StorageSpec Backend.
From S2P Require Import TfMirrorRepo TfMirrorSync Checksums ReleasesKeys ProvRepo Upstream ProvSync PullThrough ModuleRegistry TfReleases.
From stdpp Require Import gmap.

#[local] Open Scope Z_scope.

(** ** Interfaces *)

(** [KeyIdString] of a primary key, and the proxied documentation pages. *)
Class PgpKeyIds := KeyIdString : pgp_primary -> string.
Class DocContents (Y : Type) := GetProviderDocContent : string -> prog Y (res string).

(** ** Key blocks ([internal/validation/gpg.go]) *)

Section Keys.
Context `{OpenPGP} `{!OpenPGPEntities} `{PgpKeyIds}.

Definition begin_marker := "-----BEGIN PGP PUBLIC KEY BLOCK-----".
Definition end_marker := "-----END PGP PUBLIC KEY BLOCK-----".

Definition ParseGPGPublicKey (keyArmored : string) : option gerror :=
  if String.eqb keyArmored "" then Some (ErrMsg "GPG public key cannot be empty")
  else if negb (contains keyArmored begin_marker)
  then Some (ErrMsg "invalid GPG public key: missing BEGIN marker")
  else if negb (contains keyArmored end_marker)
  then Some (ErrMsg "invalid GPG public key: missing END marker")
  else match ReadArmoredKeyRing keyArmored with
       | Err e => Some (ErrWrap "failed to parse GPG public key" e)
       | Ok _ => None
       end.

(** [strings.ReplaceAll(key, "\r\n", "\n")] *)
Fixpoint unix_lines (s : string) : string :=
  match s with
  | String a ((String b s') as t) =>
      if Ascii.eqb a "013" && Ascii.eqb b newline then String newline (unix_lines s')
      else String a (unix_lines t)
  | _ => s
  end.

Definition NormalizeGPGKey (key : string) : string :=
  let key := trim_space (unix_lines key) in
  if has_suffix key (String newline "") then key else key +:+ String newline "".

Definition ExtractKeyID (keyArmored : string) : res string :=
  if String.eqb keyArmored "" then Err (ErrMsg "GPG public key cannot be empty")
  else match ReadArmoredKeyRing keyArmored with
       | Err e => Err (ErrWrap "failed to parse GPG public key" e)
       | Ok ring =>
           match entities ring with
           | {| PrimaryKey := Some pk |} :: _ => Ok (KeyIdString pk)
           | _ => Err (ErrMsg "GPG public key has no primary key")
           end
       end.
End Keys.

(** ** The client's platform ([parseTerraformPlatform]) *)

Definition word_char (c : ascii) : bool :=
  in_range "0" "9" c || in_range "A" "Z" c || in_range "a" "z" c || Ascii.eqb c "_".
Definition name_char (c : ascii) : bool := in_range "a" "z" c || in_range "0" "9" c.

(** The longest prefix of such characters, and the rest. *)
Fixpoint span (p : ascii -> bool) (s : string) : string * string :=
  match s with
  | String c s' => if p c then let r := span p s' in (String c (fst r), snd r) else ("", s)
  | EmptyString => ("", "")
  end.

(** [([a-z]+)_([a-z0-9]+)] at the head of [s]. *)
Definition os_arch (s : string) : option (string * string) :=
  match span (in_range "a" "z") s with
  | (String _ _ as os, String u s') =>
      if Ascii.eqb u "_"
      then match span name_char s' with
           | (String _ _ as arch, _) => Some (os, arch)
           | _ => None
           end
      else None
  | _ => None
  end.

(** [.*?\b([a-z]+)_([a-z0-9]+)] after the character [prev]. *)
Fixpoint lazily (prev : ascii) (s : string) : option (string * string) :=
  orelse (if word_char prev then None else os_arch s)
         match s with
         | String c s' => if dot c then lazily c s' else None
         | EmptyString => None
         end.

(** [\S+] greedily, [prev] being the last character taken, then the rest. *)
Fixpoint tool_version (prev : ascii) (s : string) : option (string * string) :=
  orelse match s with
         | String c s' => if re_space c then None else tool_version c s'
         | EmptyString => None
         end (lazily prev s).

Definition after_tool (s : string) : option (string * string) :=
  match s with
  | String c s' => if re_space c then None else tool_version c s'
  | EmptyString => None
  end.

Fixpoint platform_in (ua : string) : option (string * string) :=
  orelse (if has_prefix ua "Terraform/" then after_tool (trim_prefix ua "Terraform/")
          else if has_prefix ua "OpenTofu/" then after_tool (trim_prefix ua "OpenTofu/") else None)
         match ua with String _ ua' => platform_in ua' | EmptyString => None end.

Definition parseTerraformPlatform (ua : string) : string * string := default ("", "") (platform_in ua).

Example platform_of_terraform :
  parseTerraformPlatform "Terraform/1.5.0 (+https://www.terraform.io) linux_amd64" = ("linux", "amd64").
Proof. reflexivity. Qed.

(** ** Requests and replies *)

Record ProvConfig := {
  pc_DefaultBackend : string;
  pc_ServeDirectly : bool;
}.

(** A file field of a multipart form: its declared size and its contents. *)
Inductive form_file := NoFile | BadFile | AFile (size : Z) (r : reader).

Record ProviderForm := {
  pf_Namespace : string;
  pf_Type : string;
  pf_Version : string;
  pf_OS : string;
  pf_Arch : string;
  pf_Protocols : string;
  pf_GPGPublicKey : string;
  pf_Description : string;
  pf_Source : string;
  pf_File : option (string * reader);
  pf_Shasums : form_file;
  pf_Signature : form_file;
}.

Record DownloadInfo := {
  di_Protocols : list string;
  di_OS : string;
  di_Arch : string;
  di_Filename : string;
  di_DownloadURL : string;
  di_ShasumsURL : string;
  di_ShasumsSignatureURL : string;
  di_Shasum : string;
  (** key identifier and armor *)
  di_GPGPublicKeys : list (string * string);
}.

Record listed_version := {
  lv_Version : ProviderVersionRow;
  lv_Platforms : list ProviderPlatformRow;
  lv_Downloads : Z;
}.

Inductive pbody :=
| PError (message : string)
| PUploaded (provider : Provider) (version : ProviderVersionRow) (platform : ProviderPlatformRow) (filename : string)
| PDownload (info : DownloadInfo)
| PVersions (versions : list listed_version) (total limit offset : nat)
| PIndex (versions : gset string)
| PArchives (archives : gmap string (string * list string))
| PFile (checksum : string) (size : Z) (content : reader)
| PDocs (docs : list ProviderVersionDoc) (categories : list string) (total limit offset : nat)
| PDoc (content title category slug : string)
| PProvider (p : Provider)
| PDetail (p : Provider) (versions : list (ProviderVersionRow * list ProviderPlatformRow))
| PMessage (message : string).

Definition preply : Type := Z * pbody.

Definition pfail {Y} (status : Z) (message : string) : prog (env (pm Y)) preply :=
  ret (status, PError message).

(** The default organization, which the protocol handlers insist on. *)
Definition in_default_org {Y} `{Organizations Y} (k : uuid -> prog (env (pm Y)) preply)
  : prog (env (pm Y)) preply :=
  let! org := out GetDefaultOrganization in
  match org with
  | Err _ => pfail 500 "Failed to get organization context"
  | Ok None => pfail 500 "Default organization not found"
  | Ok (Some org) => k org
  end.

(** The version may be served: no tracking row, no status, or an approval. *)
Definition approved (status : option string) : bool :=
  match status with Some s => String.eqb s VersionApprovalStatusApproved | None => true end.

(** ** [internal/api/providers/upload.go] *)

Module Upload.
Section Upload.
Context {Y : Type} `{GoVersion} `{StringsCodec} `{MapRange} `{GoSort}.
Context `{Backend Y} `{Organizations Y} `{TempFiles Y}.
Context `{Sha256} `{Sha256Base64} `{ZipReader} `{OpenPGP}.
Context (cfg : ProvConfig).
#[local] Abbreviation P := (prog (env (pm Y))).

Definition MaxProviderBinarySize : Z := 500 * 2^20.
Definition MaxSignatureFileSize : Z := 64 * 2^10.

(** The first [n] bytes of a reader, or its error when that comes first. *)
Definition read_limited (n : Z) (r : reader) : res string :=
  let '(data, e) := r in
  if n <=? Z.of_nat (String.length data) then Ok (stake (Z.to_nat n) data)
  else match e with Some e => Err e | None => Ok data end.

Definition readOptionalMultipartFile (field : string) (f : form_file) : res (option string) :=
  match f with
  | NoFile => Ok None
  | BadFile => Err (ErrMsg ("invalid " +:+ field +:+ " field"))
  | AFile size r =>
      if MaxSignatureFileSize <? size then Err (ErrMsg (field +:+ " exceeds limit"))
      else match read_limited (MaxSignatureFileSize + 1) r with
           | Err e => Err (ErrWrap ("failed to read " +:+ field) e)
           | Ok data =>
               if MaxSignatureFileSize <? Z.of_nat (String.length data)
               then Err (ErrMsg (field +:+ " exceeds limit"))
               else Ok (Some data)
           end
  end.

Definition version_dir (namespace providerType version : string) : string :=
  "providers/" +:+ namespace +:+ "/" +:+ providerType +:+ "/" +:+ version +:+ "/".

(** [None] when the file is not given. *)
Definition store_file (path : string) (data : option string) : P (res (option string)) :=
  match data with
  | None => ret (Ok None)
  | Some data =>
      let! u := out (be_Upload path (data, None) (Z.of_nat (String.length data))) in
      match u with Err e => ret (Err e) | Ok _ => ret (Ok (Some path)) end
  end.

(** [None] on success; otherwise the reply that was written. *)
Definition storeUploadedSignatureFiles (f : ProviderForm) (version : ProviderVersionRow)
  (gpgPublicKey : string) : P (option preply) :=
  let dir := version_dir (pf_Namespace f) (pf_Type f) (pf_Version f) in
  match readOptionalMultipartFile "shasums_file" (pf_Shasums f),
        readOptionalMultipartFile "shasums_signature_file" (pf_Signature f) with
  | Err e, _ | _, Err e => ret (Some (400, PError (Error e)))
  | Ok None, Ok None => ret None
  | Ok None, Ok (Some _) =>
      ret (Some (400, PError "shasums_signature_file requires shasums_file in the same upload"))
  | Ok (Some sums), Ok sig =>
      let refused := match sig with
                     | Some sig =>
                         if String.eqb gpgPublicKey ""
                         then Some "shasums_signature_file requires gpg_public_key to verify the signature"
                         else match VerifySignature gpgPublicKey sums sig with
                              | Some e => Some ("shasums signature failed GPG verification: " +:+ Error e)
                              | None => None
                              end
                     | None => None
                     end in
      match refused with
      | Some m => ret (Some (400, PError m))
      | None =>
          let! sumsKey := store_file (dir +:+ "SHA256SUMS") (Some sums) in
          match sumsKey with
          | Err e => ret (Some (500, PError "Failed to upload SHA256SUMS"))
          | Ok sumsKey =>
              let! sigKey := store_file (dir +:+ "SHA256SUMS.sig") sig in
              match sigKey with
              | Err e => ret (Some (500, PError "Failed to upload SHA256SUMS signature"))
              | Ok sigKey =>
                  let! u := ProviderRepository.UpdateVersionSignatureStorage (pv_ID version) sumsKey sigKey in
                  match u with
                  | Err e => ret (Some (500, PError "Failed to persist signature storage keys"))
                  | Ok _ => ret None
                  end
              end
          end
      end
  end.

Definition given (text : string) (old : option string) : option string :=
  if String.eqb text "" then old else Some text.

(** Created, or updated with what the form gives. *)
Definition ensure_provider (org : uuid) (f : ProviderForm) : P (preply + Provider) :=
  let! p := ProviderRepository.GetProvider org (pf_Namespace f) (pf_Type f) in
  match p with
  | Err _ => ret (inl (500, PError "Failed to query provider"))
  | Ok None =>
      let! p := ProviderRepository.CreateProvider {|
        pr_ID := 0%nat; pr_OrganizationID := Some org; pr_Namespace := pf_Namespace f;
        pr_Type := pf_Type f; pr_Description := given (pf_Description f) None;
        pr_Source := given (pf_Source f) None |} in
      ret match p with
          | Err _ => inl (500, PError "Failed to create provider")
          | Ok p => inr p
          end
  | Ok (Some p) =>
      let p := {| pr_ID := pr_ID p; pr_OrganizationID := pr_OrganizationID p;
                  pr_Namespace := pr_Namespace p; pr_Type := pr_Type p;
                  pr_Description := given (pf_Description f) (pr_Description p);
                  pr_Source := given (pf_Source f) (pr_Source p) |} in
      let! u := ProviderRepository.UpdateProvider p in
      ret match u with
          | Err _ => inl (500, PError "Failed to update provider")
          | Ok _ => inr p
          end
  end.

(** A version that is there stays as it is. *)
Definition ensure_version (provider : Provider) (f : ProviderForm) (protocols : list string)
  (gpgPublicKey : string) : P (preply + ProviderVersionRow) :=
  let! v := ProviderRepository.GetVersion (pr_ID provider) (pf_Version f) in
  match v with
  | Err _ => ret (inl (500, PError "Failed to query provider version"))
  | Ok (Some v) => ret (inr v)
  | Ok None =>
      let v := {| pv_ID := 0%nat; pv_ProviderID := pr_ID provider; pv_Version := pf_Version f;
                  pv_Protocols := protocols; pv_GPGPublicKey := gpgPublicKey;
                  pv_ShasumURL := ""; pv_ShasumSignatureURL := "";
                  pv_ShasumStorageKey := None; pv_ShasumSignatureStorageKey := None;
                  pv_Deprecated := false |} in
      let! id := ProviderRepository.CreateVersion v in
      ret match id with
          | Err _ => inl (500, PError "Failed to create provider version")
          | Ok id => inr (ProviderRepository.with_version_id id v)
          end
  end.

Definition binary_path (f : ProviderForm) : string :=
  version_dir (pf_Namespace f) (pf_Type f) (pf_Version f) +:+ pf_OS f +:+ "_" +:+ pf_Arch f +:+ ".zip".

Definition upload_row (f : ProviderForm) (version : ProviderVersionRow) (filename data : string)
  (u : UploadResult) : ProviderPlatformRow := {|
  pp_ID := 0%nat; pp_ProviderVersionID := pv_ID version; pp_OS := pf_OS f; pp_Arch := pf_Arch f;
  pp_Filename := filename; pp_StoragePath := ur_Path u; pp_StorageBackend := pc_DefaultBackend cfg;
  pp_SizeBytes := ur_Size u; pp_Shasum := sha256_hex data;
  pp_H1Hash := match HashZipFile data (Z.of_nat (String.length data)) with
               | Ok h1 => Some h1
               | Err _ => None
               end;
  pp_DownloadCount := 0 |}.

(** From the check for a duplicate platform on. *)
Definition store_binary (provider : Provider) (version : ProviderVersionRow) (f : ProviderForm)
  (filename data : string) : P preply :=
  let! existing := ProviderRepository.GetPlatform (pv_ID version) (pf_OS f) (pf_Arch f) in
  match existing with
  | Err _ => pfail 500 "Failed to check for existing platform"
  | Ok (Some _) => pfail 409 "Platform already exists"
  | Ok None =>
      let! s := out SeekStart in
      match s with
      | Err _ => pfail 500 "Failed to process uploaded file"
      | Ok _ =>
          let! u := out (be_Upload (binary_path f) (data, None) (Z.of_nat (String.length data))) in
          match u with
          | Err _ => pfail 500 "Failed to upload file"
          | Ok u =>
              let row := upload_row f version filename data u in
              let! id := ProviderRepository.CreatePlatform row in
              match id with
              | Err _ =>
                  run! out (be_Delete (ur_Path u)) in pfail 500 "Failed to create platform record"
              | Ok id => ret (201, PUploaded provider version (ProviderRepository.with_platform_id id row) filename)
              end
          end
      end
  end.

Definition register_provider (org : uuid) (f : ProviderForm) (protocols : list string)
  (gpgPublicKey filename data : string) : P preply :=
  let! p := ensure_provider org f in
  match p with
  | inl r => ret r
  | inr provider =>
      let! v := ensure_version provider f protocols gpgPublicKey in
      match v with
      | inl r => ret r
      | inr version =>
          let! refused := storeUploadedSignatureFiles f version gpgPublicKey in
          match refused with
          | Some r => ret r
          | None => store_binary provider version f filename data
          end
      end
  end.

(** PK\003\004 or PK\005\006. *)
Definition zip_magic (data : string) : bool :=
  let pk (a b : ascii) := String "P" (String "K" (String a (String b ""))) in
  has_prefix data (pk "003"%char "004"%char) || has_prefix data (pk "005"%char "006"%char).

(** The checks before any row is written: the reply, or what they computed. *)
Definition check_form (f : ProviderForm) : preply + list string * string :=
  if String.eqb (pf_Namespace f) "" || String.eqb (pf_Type f) "" || String.eqb (pf_Version f) "" ||
     String.eqb (pf_OS f) "" || String.eqb (pf_Arch f) ""
  then inl (400, PError "Missing required fields: namespace, type, version, os, arch")
  else match invalid_segment [("namespace", pf_Namespace f); ("type", pf_Type f)] with
  | Some field => inl (400, PError ("Invalid " +:+ field))
  | None =>
      match ValidateSemver (pf_Version f), ValidatePlatform (pf_OS f) (pf_Arch f) with
      | Some _, _ => inl (400, PError "Invalid version format")
      | None, Some e => inl (400, PError "Invalid platform")
      | None, None =>
          match (if String.eqb (pf_Protocols f) "" then Ok ["5.0"] else unmarshal_strings (pf_Protocols f)) with
          | Err _ => inl (400, PError "Invalid protocols format (must be JSON array)")
          | Ok protocols =>
              if String.eqb (pf_GPGPublicKey f) "" then inr (protocols, "")
              else match ParseGPGPublicKey (pf_GPGPublicKey f) with
                   | Some _ => inl (400, PError "Invalid GPG public key")
                   | None => inr (protocols, NormalizeGPGKey (pf_GPGPublicKey f))
                   end
          end
      end
  end.

Definition check_size (data : string) : option preply :=
  let size := Z.of_nat (String.length data) in
  if size =? 0 then Some (400, PError "Invalid provider binary: provider binary cannot be empty")
  else if MaxProviderBinarySize <? size then Some (400, PError "Invalid provider binary: too large")
  else None.

Definition check_magic (data : string) : option preply :=
  if Z.of_nat (String.length data) <? 4
  then Some (400, PError "Invalid provider binary: too small to be a valid ZIP file")
  else if zip_magic data then None
  else Some (400, PError "Invalid provider binary: provider binary is not a valid ZIP file").

(** From the copy in the temporary file on. *)
Definition register_binary (f : ProviderForm) (protocols : list string)
  (gpgPublicKey filename data : string) : P preply :=
  match check_size data with
  | Some r => ret r
  | None =>
      let! s := out SeekStart in
      match s, check_magic data with
      | Err _, _ => pfail 500 "Failed to process uploaded file"
      | Ok _, Some r => ret r
      | Ok _, None =>
          let! s := out SeekStart in
          match s with
          | Err _ => pfail 500 "Failed to process uploaded file"
          | Ok _ =>
              let! h := out ReadBack in
              match h with
              | Err _ => pfail 500 "Failed to calculate checksum"
              | Ok _ => in_default_org (fun org =>
                          register_provider org f protocols gpgPublicKey filename data)
              end
          end
      end
  end.

Definition UploadHandler (form : res ProviderForm) : P preply :=
  match form with
  | Err _ => pfail 400 "Failed to parse multipart form"
  | Ok f =>
      match check_form f, pf_File f with
      | inl r, _ => ret r
      | inr _, None => pfail 400 "Missing or invalid file upload"
      | inr (protocols, gpgPublicKey), Some (filename, (data, readError)) =>
          let! t := out CreateTemp in
          match t with
          | Err _ => pfail 500 "Failed to create temporary file"
          | Ok _ =>
              let! c := out (CopyToTemp data) in
              match c, readError with
              | Err _, _ | _, Some _ => pfail 500 "Failed to read uploaded file"
              | Ok _, None => register_binary f protocols gpgPublicKey filename data
              end
          end
      end
  end.
End Upload.
End Upload.

(** ** The documentation cache ([docContentCache]) *)

Module DocCache.

Record entry := { content : string; fetchedAt : Z }.
Definition entries : Type := gmap string entry.

(** An entry past its time to live is dropped. *)
Definition get (ttl now : Z) (key : string) (c : entries) : option string * entries :=
  match c !! key with
  | None => (None, c)
  | Some e => if ttl <? now - fetchedAt e then (None, delete key c) else (Some (content e), c)
  end.

(** The oldest of the entries in the order Go ranges over them, [""] at first. *)
Definition oldest (es : list (string * entry)) : string :=
  fst (fold_left (fun o ke => if String.eqb (fst o) "" || (fetchedAt (snd ke) <? snd o)
                              then (fst ke, fetchedAt (snd ke)) else o) es ("", 0)).

Definition set `{MapRange} (maxSize : nat) (now : Z) (key text : string) (c : entries) : entries :=
  let c := if (maxSize <=? size c)%nat then delete (oldest (map_range (map_to_list c))) c else c in
  <[key := {| content := text; fetchedAt := now |}]> c.

(** 500 pages for 15 minutes. *)
Definition maxSize : nat := 500.
Definition ttl : Z := 15 * 60 * 10^9.
End DocCache.

(** ** The registry protocol ([api/providers/download.go], [versions.go], [docs.go]) *)

Module Protocol.
Section Protocol.
Context {Y : Type} `{GoVersion} `{GoSort}.
Context `{Backend Y} `{Organizations Y} `{Notices Y} `{DocContents Y} `{MapRange}.
Context `{OpenPGP} `{!OpenPGPEntities} `{ReleaseKeys} `{PgpKeyIds}.
#[local] Abbreviation P := (prog (env (pm Y))).
Import ProviderRepository.

(** The signed URL of a stored file, or what upstream published. *)
Definition file_url (key : option string) (upstream : string) : P string :=
  match key with
  | Some k =>
      if String.eqb k "" then ret upstream
      else let! url := out (be_GetURL k url_ttl) in
           ret match url with Ok u => u | Err _ => "" end
  | None => ret upstream
  end.

Definition signing_keys (v : ProviderVersionRow) : P (list (string * string)) :=
  if String.eqb (pv_GPGPublicKey v) "" then ret []
  else let! key := ResolveExpiredGPGKey (pv_GPGPublicKey v) in
       ret [(match ExtractKeyID key with Ok i => i | Err _ => "" end, key)].

(** From the platform on. *)
Definition serve_platform (auditRepo : bool) (v : ProviderVersionRow) (os arch : string) : P preply :=
  let! p := GetPlatform (pv_ID v) os arch in
  match p with
  | Err _ => pfail 500 "Failed to query provider platform"
  | Ok None => pfail 404 "Provider platform not found"
  | Ok (Some platform) =>
      let! url := out (be_GetURL (pp_StoragePath platform) url_ttl) in
      match url with
      | Err _ => pfail 500 "Failed to generate download URL"
      | Ok url =>
          let! shasumsURL := file_url (pv_ShasumStorageKey v) (pv_ShasumURL v) in
          let! shasumsSignatureURL := file_url (pv_ShasumSignatureStorageKey v) (pv_ShasumSignatureURL v) in
          let! keys := signing_keys v in
          run! IncrementDownloadCount (pp_ID platform) in
          run! (if auditRepo then out (audit_download "provider" (pv_ID v)) else ret tt) in
          ret (200, PDownload {|
            di_Protocols := pv_Protocols v; di_OS := pp_OS platform; di_Arch := pp_Arch platform;
            di_Filename := pp_Filename platform; di_DownloadURL := url;
            di_ShasumsURL := shasumsURL; di_ShasumsSignatureURL := shasumsSignatureURL;
            di_Shasum := pp_Shasum platform; di_GPGPublicKeys := keys |})
      end
  end.

Definition find_version (org : uuid) (namespace providerType version : string)
  (k : ProviderVersionRow -> P preply) : P preply :=
  let! p := GetProvider org namespace providerType in
  match p with
  | Err _ => pfail 500 "Failed to query provider"
  | Ok None => pfail 404 "Provider not found"
  | Ok (Some provider) =>
      let! v := GetVersion (pr_ID provider) version in
      match v with
      | Err _ => pfail 500 "Failed to query provider version"
      | Ok None => pfail 404 "Provider version not found"
      | Ok (Some v) => k v
      end
  end.

Definition DownloadHandler (auditRepo : bool) (namespace providerType version os arch : string) : P preply :=
  match ValidateSemver version, ValidatePlatform os arch with
  | Some _, _ => pfail 400 "Invalid version format - must be valid semantic versioning"
  | None, Some e => pfail 400 (Error e)
  | None, None =>
      in_default_org (fun org =>
        find_version org namespace providerType version (fun v =>
          let! status := GetVersionApprovalStatus (pv_ID v) in
          match status with
          | Err _ => pfail 500 "Failed to query provider version"
          | Ok status =>
              if approved status then serve_platform auditRepo v os arch
              else pfail 404 "Provider version not found"
          end))
  end.

(** The versions of a page with their platforms. *)
Fixpoint with_platforms (versions : list ProviderVersionRow) : P (res (list listed_version)) :=
  match versions with
  | [] => ret (Ok [])
  | v :: versions' =>
      let? platforms := ListPlatforms (pv_ID v) in
      let? rest := with_platforms versions' in
      ret (Ok ({| lv_Version := v; lv_Platforms := platforms;
                  lv_Downloads := foldr (fun p n => pp_DownloadCount p + n) 0 platforms |} :: rest))
  end.

Definition ListVersionsHandler (namespace providerType limit offset : string) : P preply :=
  let limit := page_limit 1 1000 limit in
  let offset := page_offset offset in
  in_default_org (fun org =>
    let! p := GetProvider org namespace providerType in
    match p with
    | Err _ => pfail 500 "Failed to query provider"
    | Ok None => pfail 404 "Provider not found"
    | Ok (Some provider) =>
        let! r := ListVersionsPaginated (pr_ID provider) limit offset in
        match r with
        | Err _ => pfail 500 "Failed to list provider versions"
        | Ok (versions, total) =>
            let! vs := with_platforms versions in
            match vs with
            | Err _ => pfail 500 "Failed to list provider platforms"
            | Ok vs => ret (200, PVersions vs total limit offset)
            end
        end
    end).

(** *** Documentation *)

Definition wanted (filter : string) (value : string) : bool :=
  String.eqb filter "" || String.eqb value filter.

(** [ListProviderVersionDocsPaginated], a blank filter being none: [ORDER BY category,
    title]. *)
Definition doc_before (a b : ProviderVersionDoc) : bool :=
  String.ltb (pd_Category a) (pd_Category b) ||
  (String.eqb (pd_Category a) (pd_Category b) && String.ltb (pd_Title a) (pd_Title b)).

Definition ListProviderVersionDocsPaginated (versionID : uuid) (category language : string)
  (limit offset : nat) : P (res (list ProviderVersionDoc * nat)) :=
  let rows t := List.filter (fun d => (pd_ProviderVersionID d =? versionID)%nat &&
                                      wanted category (pd_Category d) && wanted language (pd_Language d))
                  (provider_version_docs t) in
  let? total := pquery "failed to count provider version docs" (fun t => Ok (length (rows t))) in
  let? docs := pquery "failed to list provider version docs" (fun t =>
                 Ok (take limit (drop offset (go_sort doc_before (rows t))))) in
  ret (Ok (docs, total)).

(** The version a documentation request names, in any organization. *)
Definition doc_version (namespace providerType version : string)
  (k : ProviderVersionRow -> P preply) : P preply :=
  let! p := GetProviderByNamespaceType None namespace providerType in
  match p with
  | Err _ => pfail 500 "Failed to look up provider"
  | Ok None => pfail 404 "Provider not found"
  | Ok (Some provider) =>
      let! v := GetVersion (pr_ID provider) version in
      match v with
      | Err _ => pfail 500 "Failed to look up provider version"
      | Ok None => pfail 404 "Provider version not found"
      | Ok (Some v) => k v
      end
  end.

(** Each category once, in the order of its first page. *)
Definition categories_of (docs : list ProviderVersionDoc) : list string :=
  fold_left (fun cs d => if bool_decide (pd_Category d ∈ cs) then cs else cs ++ [pd_Category d]) docs [].

Definition ListProviderDocsHandler (namespace providerType version category language limit offset : string)
  : P preply :=
  let limit := page_limit 1 1000 limit in
  let offset := page_offset offset in
  doc_version namespace providerType version (fun v =>
    let! r := ListProviderVersionDocsPaginated (pv_ID v) category language limit offset in
    match r with
    | Err _ => pfail 500 "Failed to list documentation"
    | Ok (docs, total) => ret (200, PDocs docs (categories_of docs) total limit offset)
    end).

(** With the cache before and after. *)
Definition proxied (d : ProviderVersionDoc) (cache : DocCache.entries) : P (preply * DocCache.entries) :=
  let page content := PDoc content (pd_Title d) (pd_Category d) (pd_Slug d) in
  let! now := time_now in
  match DocCache.get DocCache.ttl now (pd_UpstreamDocID d) cache with
  | (Some content, cache) => ret ((200, page content), cache)
  | (None, cache) =>
      let! content := out (GetProviderDocContent (pd_UpstreamDocID d)) in
      match content with
      | Err _ => ret ((502, PError "Failed to fetch documentation from upstream registry"), cache)
      | Ok content =>
          let! now := time_now in
          ret ((200, page content), DocCache.set DocCache.maxSize now (pd_UpstreamDocID d) content cache)
      end
  end.

Definition GetProviderDocContentHandler (namespace providerType version category slug : string)
  (cache : DocCache.entries) : P (preply * DocCache.entries) :=
  let! p := GetProviderByNamespaceType None namespace providerType in
  match p with
  | Err _ => ret ((500, PError "Failed to look up provider"), cache)
  | Ok None => ret ((404, PError "Provider not found"), cache)
  | Ok (Some provider) =>
      let! v := GetVersion (pr_ID provider) version in
      match v with
      | Err _ => ret ((500, PError "Failed to look up provider version"), cache)
      | Ok None => ret ((404, PError "Provider version not found"), cache)
      | Ok (Some v) =>
          let! d := ProviderDocsRepository.GetProviderVersionDocBySlug (pv_ID v) category slug in
          match d with
          | Err _ => ret ((500, PError "Failed to look up documentation entry"), cache)
          | Ok None => ret ((404, PError "Documentation page not found"), cache)
          | Ok (Some d) => proxied d cache
          end
      end
  end.
End Protocol.
End Protocol.

(** ** The network mirror ([internal/api/mirror]) *)

Module NetworkMirror.
Section NetworkMirror.
Context {Y : Type} `{GoVersion} `{GoSort} `{StringsCodec} `{MapRange}.
Context `{Backend Y} `{Organizations Y} `{Notices Y} `{UpstreamRegistryClient Y}.
Context (cfg : ProvConfig) (auditRepo pullThrough : bool).
#[local] Abbreviation P := (prog (env (pm Y))).
Import ProviderRepository.

(** What upstream has is put into the tables by the first configuration that
    matches: its versions, [inr None] when none matches. *)
Definition pull (org : uuid) (namespace providerType : string) : P (gerror + option (list string)) :=
  let! configs := GetConfigsForProvider org namespace providerType in
  match configs with
  | Err _ | Ok [] => ret (inr None)
  | Ok (config :: _) =>
      let! r := FetchProviderMetadata config org namespace providerType in
      ret match r with Err e => inl e | Ok vs => inr (Some vs) end
  end.

(** A provider the tables lack is pulled through; the index insists on a version. *)
Definition with_provider (insist : bool) (org : uuid) (namespace providerType : string)
  (k : Provider -> P preply) : P preply :=
  let! p := GetProvider org namespace providerType in
  match p with
  | Err _ => pfail 500 "Failed to query provider"
  | Ok (Some p) => k p
  | Ok None =>
      if pullThrough then
        let! r := pull org namespace providerType in
        match r with
        | inr None => pfail 404 "provider not found"
        | inl _ => pfail 502 "upstream fetch failed"
        | inr (Some vs) =>
            if insist && bool_decide (vs = []) then pfail 502 "upstream fetch failed"
            else
              let! p := GetProvider org namespace providerType in
              match p with
              | Ok (Some p) => k p
              | _ => pfail 404 "provider not found after pull-through"
              end
        end
      else pfail 404 "provider not found"
  end.

Definition IndexHandler (namespace providerType : string) : P preply :=
  in_default_org (fun org =>
    with_provider true org namespace providerType (fun p =>
      let! versions := ListVisibleVersions (pr_ID p) in
      match versions with
      | Err _ => pfail 500 "Failed to list provider versions"
      | Ok versions => ret (200, PIndex (list_to_set (pv_Version <$> versions)))
      end)).

(** One hour. *)
Definition mirror_ttl : Z := 60 * 60 * 10^9.

Definition formatZhHash (hexChecksum : string) : string :=
  if String.eqb hexChecksum "" then "" else "zh:" +:+ hexChecksum.

Definition archive_key (p : ProviderPlatformRow) : string := pp_OS p +:+ "_" +:+ pp_Arch p.

Definition local_hashes (p : ProviderPlatformRow) : list string :=
  (match pp_H1Hash p with Some h1 => if String.eqb h1 "" then [] else [h1] | None => [] end) ++
  [formatZhHash (pp_Shasum p)].

Definition archives : Type := gmap string (string * list string).

Fixpoint local_archives (platforms : list ProviderPlatformRow) (acc : archives) : P (res archives) :=
  match platforms with
  | [] => ret (Ok acc)
  | p :: platforms' =>
      let! url := out (be_GetURL (pp_StoragePath p) mirror_ttl) in
      match url with
      | Err e => ret (Err (ErrWrap ("Failed to generate download URL for " +:+ archive_key p) e))
      | Ok url => local_archives platforms' (<[archive_key p := (url, local_hashes p)]> acc)
      end
  end.

(** What precedes the last slash; all of it when there is none. *)
Fixpoint before_slash (s : string) : option string :=
  match s with
  | EmptyString => None
  | String c s' =>
      match before_slash s' with
      | Some p => Some (String c p)
      | None => if Ascii.eqb c "/" then Some "" else None
      end
  end.
Definition url_base (url : string) : string := default url (before_slash url).

(** The platform a file of a SHA256SUMS is for. *)
Definition sum_key (filename : string) : option string :=
  if has_suffix filename ".zip" then
    match rev (split_on "_" (trim_suffix filename ".zip")) with
    | arch :: os :: _ => Some (os +:+ "_" +:+ arch)
    | _ => None
    end
  else None.

Definition upstream_archive (base : string) (acc : archives) (s : ProviderVersionShasum) : archives :=
  match sum_key (ps_Filename s) with
  | None => acc
  | Some key =>
      match acc !! key with
      | Some _ => acc
      | None => <[key := (base +:+ "/" +:+ ps_Filename s, [formatZhHash (ps_SHA256Hex s)])]> acc
      end
  end.

Definition enriched (v : ProviderVersionRow) (acc : archives) : P archives :=
  if String.eqb (pv_ShasumURL v) "" then ret acc
  else
    let! shasums := ListProviderVersionShasums (pv_ID v) in
    ret match shasums with
        | Err _ => acc
        | Ok shasums => fold_left (upstream_archive (url_base (pv_ShasumURL v))) shasums acc
        end.

(** Files served from here are counted when they are fetched. *)
Definition count_download (userAgent : string) (platforms : list ProviderPlatformRow) : P unit :=
  if negb (String.eqb (pc_DefaultBackend cfg) "local") || negb (pc_ServeDirectly cfg) then
    let '(clientOS, clientArch) := parseTerraformPlatform userAgent in
    if String.eqb clientOS "" then ret tt
    else match List.find (fun p => String.eqb (pp_OS p) clientOS && String.eqb (pp_Arch p) clientArch)
                 platforms with
         | Some p => run! IncrementDownloadCount (pp_ID p) in ret tt
         | None => ret tt
         end
  else ret tt.

Definition platform_index (storageErr : option gerror) (userAgent : string) (v : ProviderVersionRow)
  : P preply :=
  let! platforms := ListPlatforms (pv_ID v) in
  match platforms, storageErr with
  | Err _, _ => pfail 500 "Failed to list provider platforms"
  | Ok _, Some _ => pfail 500 "Failed to initialize storage backend"
  | Ok platforms, None =>
      let! local := local_archives platforms ∅ in
      match local with
      | Err e => pfail 500 (Error e)
      | Ok local =>
          let! all := enriched v local in
          run! count_download userAgent platforms in
          run! (if auditRepo then out (audit_download "provider" (pv_ID v)) else ret tt) in
          ret (200, PArchives all)
      end
  end.

(** A version the tables lack is pulled through as well. *)
Definition with_version (org : uuid) (namespace providerType version : string) (p : Provider)
  (k : ProviderVersionRow -> P preply) : P preply :=
  let! v := GetVersion (pr_ID p) version in
  match v with
  | Err _ => pfail 500 "Failed to query provider version"
  | Ok (Some v) => k v
  | Ok None =>
      if pullThrough then
        let! r := pull org namespace providerType in
        match r with
        | inr None => pfail 404 "provider version not found"
        | inl _ => pfail 502 "upstream fetch failed"
        | inr (Some _) =>
            let! v := GetVersion (pr_ID p) version in
            match v with
            | Ok (Some v) => k v
            | _ => pfail 404 "provider version not found after pull-through"
            end
        end
      else pfail 404 "provider version not found"
  end.

(** [version.json] names the version. *)
Definition version_of_file (versionfile : string) : string :=
  if (5 <? String.length versionfile)%nat && has_suffix versionfile ".json"
  then trim_suffix versionfile ".json" else versionfile.

(** [storageErr]: what initialising the backend gave. *)
Definition PlatformIndexHandler (storageErr : option gerror)
  (namespace providerType versionfile userAgent : string) : P preply :=
  let version := version_of_file versionfile in
  match ValidateSemver version with
  | Some _ => pfail 400 "Invalid version format - must be valid semantic versioning"
  | None =>
      in_default_org (fun org =>
        with_provider false org namespace providerType (fun p =>
          with_version org namespace providerType version p (fun v =>
            let! status := GetVersionApprovalStatus (pv_ID v) in
            match status with
            | Err _ => pfail 500 "Failed to query provider version"
            | Ok status =>
                if approved status then platform_index storageErr userAgent v
                else pfail 404 "provider version not found"
            end)))
  end.
End NetworkMirror.
End NetworkMirror.

(** ** Files of local storage ([internal/api/modules/serve.go]) *)

Module Files.
Section Files.
Context {Y : Type} `{GoSort} `{Backend Y} `{Organizations Y} `{Notices Y}.
(** Whether there is a database. *)
Context (auditRepo hasDB : bool).
#[local] Abbreviation P := (prog (env (pm Y))).
Import ProviderRepository.

Record provider_file := PFP {
  fp_Namespace : string;
  fp_Type : string;
  fp_Version : string;
  fp_OS : string;
  fp_Arch : string;
}.

Definition parseProviderFilePath (path : string) : option provider_file :=
  match split_on "/" path with
  | "providers" :: namespace :: providerType :: version :: os :: arch :: _ :: _ =>
      Some (PFP namespace providerType version os arch)
  | _ => None
  end.

(** The gate: every look-up that fails, or finds nothing, leaves the file open. *)
Definition withheld (f : provider_file) : P bool :=
  let! org := out GetDefaultOrganization in
  match org with
  | Ok (Some org) =>
      let! p := GetProvider org (fp_Namespace f) (fp_Type f) in
      match p with
      | Ok (Some provider) =>
          let! v := GetVersion (pr_ID provider) (fp_Version f) in
          match v with
          | Ok (Some v) =>
              let! status := GetVersionApprovalStatus (pv_ID v) in
              ret match status with Ok status => negb (approved status) | Err _ => false end
          | _ => ret false
          end
      | _ => ret false
      end
  | _ => ret false
  end.

Definition trackProviderDownload (f : provider_file) : P unit :=
  let! org := out GetDefaultOrganization in
  match org with
  | Ok (Some org) =>
      let! p := GetProvider org (fp_Namespace f) (fp_Type f) in
      match p with
      | Ok (Some provider) =>
          let! v := GetVersion (pr_ID provider) (fp_Version f) in
          match v with
          | Ok (Some v) =>
              let! platforms := ListPlatforms (pv_ID v) in
              match platforms with
              | Ok platforms =>
                  match List.find (fun p => String.eqb (pp_OS p) (fp_OS f) && String.eqb (pp_Arch p) (fp_Arch f))
                          platforms with
                  | Some p => run! IncrementDownloadCount (pp_ID p) in ret tt
                  | None => ret tt
                  end
              | Err _ => ret tt
              end
          | _ => ret tt
          end
      | _ => ret tt
      end
  | _ => ret tt
  end.

Definition resource_type (filePath : string) : string :=
  if has_prefix filePath "providers/" then "provider"
  else if has_prefix filePath "modules/" then "module" else "file".

(** From the gate on: the file is there, is described, and is opened. *)
Definition stream_file (filePath : string) : P preply :=
  let! ex := out (be_Exists filePath) in
  match ex with
  | Err _ => pfail 500 "Failed to check file existence"
  | Ok false => pfail 404 "File not found"
  | Ok true =>
      let! metadata := out (be_GetMetadata filePath) in
      match metadata with
      | Err _ => pfail 500 "Failed to get file metadata"
      | Ok metadata =>
          let! r := out (be_Download filePath) in
          match r with
          | Err _ => pfail 500 "Failed to read file"
          | Ok r =>
              run! (match parseProviderFilePath filePath with
                    | Some f => if hasDB then trackProviderDownload f else ret tt
                    | None => ret tt
                    end) in
              run! (if auditRepo then out (audit_download (resource_type filePath) 0%nat) else ret tt) in
              ret (200, PFile (fm_Checksum metadata) (fm_Size metadata) r)
          end
      end
  end.

(** [filepath] as the router gives it, with its leading slash. *)
Definition ServeFileHandler (filepath : string) : P preply :=
  if String.eqb filepath "" then pfail 400 "File path is required"
  else
    let filePath := trim_prefix filepath "/" in
    if contains filePath ".." || contains filePath "//" then pfail 400 "Invalid file path"
    else
      let! hidden := (match parseProviderFilePath filePath with
                      | Some f => if hasDB then withheld f else ret false
                      | None => ret false
                      end) in
      if hidden : bool then pfail 404 "File not found" else stream_file filePath.
End Files.
End Files.

(** ** The administration of providers ([internal/api/admin/providers.go]) *)

Module ProviderAdmin.
Section ProviderAdmin.
Context {Y : Type} `{GoSort} `{Backend Y} `{Organizations Y}.
#[local] Abbreviation P := (prog (env (pm Y))).
Import ProviderRepository.

(** Without an organization the look-up is made with the identifier "", which the
    database refuses. *)
Definition find_provider (org : option uuid) (namespace providerType : string) : P (res (option Provider)) :=
  match org with
  | Some org => ProviderRepository.GetProvider org namespace providerType
  | None => pquery "failed to get provider" (fun _ => Err (ErrMsg "invalid input syntax for type uuid"))
  end.

Definition with_provider (namespace providerType : string) (k : Provider -> P preply) : P preply :=
  let! org := out GetDefaultOrganization in
  match org with
  | Err _ => pfail 500 "Failed to get organization context"
  | Ok org =>
      let! p := find_provider org namespace providerType in
      match p with
      | Err _ => pfail 500 "Failed to get provider"
      | Ok None => pfail 404 "Provider not found"
      | Ok (Some p) => k p
      end
  end.

Definition with_version (namespace providerType version : string) (k : ProviderVersionRow -> P preply)
  : P preply :=
  with_provider namespace providerType (fun p =>
    let! v := GetVersion (pr_ID p) version in
    match v with
    | Err _ => pfail 500 "Failed to get version"
    | Ok None => pfail 404 "Version not found"
    | Ok (Some v) => k v
    end).

(** A failed look-up shows no platform. *)
Definition platforms_or_none (v : ProviderVersionRow) : P (list ProviderPlatformRow) :=
  let! platforms := ListPlatforms (pv_ID v) in
  ret match platforms with Ok ps => ps | Err _ => [] end.

Definition GetProvider (namespace providerType : string) : P preply :=
  with_provider namespace providerType (fun p =>
    let! versions := ListVersions (pr_ID p) in
    match versions with
    | Err _ => pfail 500 "Failed to list provider versions"
    | Ok versions =>
        let! vs := fold_prog (fun acc v => let! ps := platforms_or_none v in ret (acc ++ [(v, ps)])) [] versions in
        ret (200, PDetail p vs)
    end).

(** The binaries of a version; what cannot be deleted stays. *)
Definition delete_binaries (v : ProviderVersionRow) : P unit :=
  let! platforms := platforms_or_none v in
  for_each platforms (fun p =>
    if String.eqb (pp_StoragePath p) "" then ret tt
    else run! out (be_Delete (pp_StoragePath p)) in ret tt).

Definition DeleteProviderHandler (namespace providerType : string) : P preply :=
  with_provider namespace providerType (fun p =>
    let! versions := ListVersions (pr_ID p) in
    match versions with
    | Err _ => pfail 500 "Failed to list provider versions"
    | Ok versions =>
        run! for_each versions delete_binaries in
        let! d := DeleteProvider (pr_ID p) in
        match d with
        | Err _ => pfail 500 "Failed to delete provider"
        | Ok _ => ret (200, PMessage "Provider deleted successfully")
        end
    end).

Definition DeleteVersionHandler (namespace providerType version : string) : P preply :=
  with_version namespace providerType version (fun v =>
    run! delete_binaries v in
    let! d := DeleteVersion (pv_ID v) in
    match d with
    | Err _ => pfail 500 "Failed to delete version"
    | Ok _ => ret (200, PMessage "Version deleted successfully")
    end).

Definition DeprecateVersionHandler (namespace providerType version : string) : P preply :=
  with_version namespace providerType version (fun v =>
    let! d := DeprecateVersion (pv_ID v) in
    match d with
    | Err _ => pfail 500 "Failed to deprecate version"
    | Ok _ => ret (200, PMessage "Version deprecated successfully")
    end).

Definition UndeprecateVersionHandler (namespace providerType version : string) : P preply :=
  with_version namespace providerType version (fun v =>
    let! d := UndeprecateVersion (pv_ID v) in
    match d with
    | Err _ => pfail 500 "Failed to undeprecate version"
    | Ok _ => ret (200, PMessage "Version deprecation removed successfully")
    end).

Record CreateProviderRecordRequest := {
  cp_OrganizationID : option uuid;
  cp_Namespace : string;
  cp_Type : string;
  cp_Description : option string;
  cp_Source : option string;
}.

(** The body that binds, or the error of binding it. *)
Definition CreateProviderRecord (input : res CreateProviderRecordRequest) : P preply :=
  match input with
  | Err _ => pfail 400 "invalid request"
  | Ok req =>
      let! org := out GetDefaultOrganization in
      match org with
      | Err _ => pfail 500 "Failed to get organization context"
      | Ok org =>
          let org := match cp_OrganizationID req with Some o => Some o | None => org end in
          let! existing := find_provider org (cp_Namespace req) (cp_Type req) in
          match existing with
          | Err _ => pfail 500 "Failed to check existing provider"
          | Ok (Some _) => pfail 409 "Provider already exists"
          | Ok None =>
              let! p := CreateProvider {|
                pr_ID := 0%nat; pr_OrganizationID := org; pr_Namespace := cp_Namespace req;
                pr_Type := cp_Type req; pr_Description := cp_Description req;
                pr_Source := cp_Source req |} in
              match p with
              | Err _ => pfail 500 "Failed to create provider"
              | Ok p => ret (201, PProvider p)
              end
          end
      end
  end.

Definition UpdateProviderRecord (id : uuid) (input : res (option string * option string)) : P preply :=
  match input with
  | Err _ => pfail 400 "invalid request"
  | Ok (description, source) =>
      let! p := ProviderRepository.GetProviderByID id in
      match p with
      | Err _ => pfail 500 "Failed to get provider"
      | Ok None => pfail 404 "Provider not found"
      | Ok (Some p) =>
          let p := {| pr_ID := pr_ID p; pr_OrganizationID := pr_OrganizationID p;
                      pr_Namespace := pr_Namespace p; pr_Type := pr_Type p;
                      pr_Description := match description with Some d => Some d | None => pr_Description p end;
                      pr_Source := match source with Some s => Some s | None => pr_Source p end |} in
          let! u := UpdateProvider p in
          match u with
          | Err _ => pfail 500 "Failed to update provider"
          | Ok _ => ret (200, PProvider p)
          end
      end
  end.

Definition GetProviderByIDHandler (id : uuid) : P preply :=
  let! p := ProviderRepository.GetProviderByID id in
  match p with
  | Err _ => pfail 500 "Failed to get provider"
  | Ok None => pfail 404 "Provider not found"
  | Ok (Some p) => ret (200, PProvider p)
  end.
End ProviderAdmin.
End ProviderAdmin.
