(* ===== verification/ProvRegistrySafety.v ===== *)
(** * Correctness of the provider registry handlers

    What a version that waits for approval, or was refused, shows to clients, what
    an upload leaves behind, and what the network mirror answers ([ProvRegistry]). *)

From S2P Require Import Prelude GoStrings AutoApprove Validation Filepath Os LocalStorage StorageSpec Backend.
From S2P Require Import TfReleases TfMirrorRepo TfMirrorSync Checksums ReleasesKeys VersionApproval ProvRepo Upstream ProvSync ProvSchema ProvSafety.
From S2P Require Import Tables PullThrough ModuleRegistry ProvRegistry Hoare.
From stdpp Require Import gmap.

#[local] Open Scope Z_scope.

(** ** The tables without the versions the gate withholds *)

Definition hidden (t : pdb) (v : ProviderVersionRow) : bool := negb (ProviderRepository.not_gated t v).
Definition conceal (t : pdb) : pdb := drop_versions (hidden t) t.

(** A version is tracked once, with one of the statuses the schema allows. *)
Record tracked (t : pdb) : Prop := {
  tracked_once : NoDup (mpv_ProviderVersionID <$> mirrored_versions t);
  tracked_status m s : m ∈ mirrored_versions t -> mpv_ApprovalStatus m = Some s ->
    s = VersionApprovalStatusPending \/ s = VersionApprovalStatusApproved \/ s = VersionApprovalStatusRejected;
}.

(** What [GetVersionApprovalStatus] finds. *)
Definition status_of (t : pdb) (id : uuid) : option string :=
  match List.find (fun m => (mpv_ProviderVersionID m =? id)%nat) (mirrored_versions t) with
  | Some m => mpv_ApprovalStatus m
  | None => None
  end.

Lemma find_filter {R} (p keep : R -> bool) rows :
  (forall r, r ∈ rows -> p r = true -> keep r = true) ->
  List.find p (List.filter keep rows) = List.find p rows.
Proof.
  induction rows as [|r rows IH]; intros Hk; [done|]. cbn.
  assert (Hrest : forall r', r' ∈ rows -> p r' = true -> keep r' = true) by (intros; apply Hk; [by right|done]).
  destruct (keep r) eqn:E; cbn; [by rewrite IH|].
  destruct (p r) eqn:Ep; [|by apply IH]. rewrite (Hk r) in E; [done|by left|done].
Qed.

Lemma find_dropped {R} (p keep : R -> bool) rows :
  (forall r, r ∈ rows -> p r = true -> keep r = false) ->
  List.find p (List.filter keep rows) = None.
Proof.
  induction rows as [|r rows IH]; intros Hk; [done|]. cbn.
  assert (Hrest : forall r', r' ∈ rows -> p r' = true -> keep r' = false) by (intros; apply Hk; [by right|done]).
  destruct (keep r) eqn:E; cbn; [|by apply IH].
  destruct (p r) eqn:Ep; [|by apply IH]. rewrite (Hk r) in E; [done|by left|done].
Qed.

Lemma filter_under {R} (p keep : R -> bool) rows :
  (forall r, r ∈ rows -> p r = true -> keep r = true) ->
  List.filter p (List.filter keep rows) = List.filter p rows.
Proof.
  induction rows as [|r rows IH]; intros Hk; [done|]. cbn.
  assert (Hrest : forall r', r' ∈ rows -> p r' = true -> keep r' = true) by (intros; apply Hk; [by right|done]).
  destruct (keep r) eqn:E; cbn; [by rewrite IH|].
  destruct (p r) eqn:Ep; [|by apply IH]. rewrite (Hk r) in E; [done|by left|done].
Qed.

Lemma filter_agree {R} (p q : R -> bool) rows :
  (forall r, r ∈ rows -> p r = q r) -> List.filter p rows = List.filter q rows.
Proof.
  induction rows as [|r rows IH]; intros Hk; [done|]. cbn. rewrite (Hk r) by left.
  rewrite IH; [done|]. intros; apply Hk. by right.
Qed.

(** The versions whose rows the cascade takes along. *)
Definition dropped (t : pdb) (id : uuid) : bool :=
  has (Nat.eqb id) (pv_ID <$> List.filter (hidden t) (provider_versions t)).

Lemma conceal_versions t : provider_versions (conceal t) = List.filter (fun v => negb (hidden t v)) (provider_versions t).
Proof. by destruct t. Qed.
Lemma conceal_platforms t :
  provider_platforms (conceal t) = List.filter (fun p => negb (dropped t (pp_ProviderVersionID p))) (provider_platforms t).
Proof. by destruct t. Qed.
Lemma conceal_shasums t :
  provider_version_shasums (conceal t) =
    List.filter (fun s => negb (dropped t (ps_ProviderVersionID s))) (provider_version_shasums t).
Proof. by destruct t. Qed.
Lemma conceal_tracking t :
  mirrored_versions (conceal t) =
    List.filter (fun m => negb (negb (negb (dropped t (mpv_ProviderVersionID m))))) (mirrored_versions t).
Proof. by destruct t. Qed.
Lemma conceal_providers t : providers (conceal t) = providers t.
Proof. by destruct t. Qed.

Section Concealed.
Context (t : pdb) (Hs : schema t) (Ht : tracked t).

(** The two forms of the gate say the same. *)
Lemma gate_status v : ProviderRepository.not_gated t v = approved (status_of t (pv_ID v)).
Proof.
  unfold ProviderRepository.not_gated, status_of.
  destruct (List.find _ (mirrored_versions t)) as [m|] eqn:E.
  - apply find_some in E as [Hin Hid]. apply Nat.eqb_eq in Hid. rewrite <- list_elem_of_In in Hin.
    destruct (has _ _) eqn:Hh; cbn.
    + apply has_spec in Hh as (m' & Hin' & Hg). rewrite <- list_elem_of_In in Hin'.
      unfold ProviderRepository.gates in Hg. bools. apply Nat.eqb_eq in H.
      assert (m' = m) as ->.
      { apply list_elem_of_lookup in Hin as [i Hi], Hin' as [j Hj].
        assert (i = j) by (eapply (NoDup_lookup _ _ _ (pv_ID v) (tracked_once _ Ht));
          rewrite list_lookup_fmap; [rewrite Hi|rewrite Hj]; cbn; by f_equal).
        subst. congruence. }
      destruct (mpv_ApprovalStatus m) as [s|]; [|done]. cbn.
      destruct (String.eqb_spec s VersionApprovalStatusApproved) as [->|]; [by vm_compute in H0 | done].
    + destruct (mpv_ApprovalStatus m) as [s|] eqn:Es; [|done]. cbn.
      rewrite list_elem_of_In in Hin. pose proof (has_false _ _ _ Hh Hin) as Hg.
      unfold ProviderRepository.gates in Hg. rewrite (proj2 (Nat.eqb_eq _ _) Hid), Es in Hg. cbn in Hg.
      rewrite <- list_elem_of_In in Hin.
      destruct (tracked_status _ Ht m s Hin Es) as [-> | [-> | ->]]; done.
  - destruct (has _ _) eqn:Hh; [|done]. cbn. apply has_spec in Hh as (m & Hin & Hg).
    unfold ProviderRepository.gates in Hg. bools.
    by rewrite (find_none _ _ E m Hin) in H.
Qed.

Lemma version_by_id v v' : v ∈ provider_versions t -> v' ∈ provider_versions t -> pv_ID v = pv_ID v' -> v = v'.
Proof.
  intros H1 H2 E. apply list_elem_of_lookup in H1 as [i Hi], H2 as [j Hj].
  assert (i = j) by (eapply (NoDup_lookup _ _ _ (pv_ID v) (version_ids _ Hs));
    rewrite list_lookup_fmap; [rewrite Hi|rewrite Hj]; cbn; by f_equal).
  subst. congruence.
Qed.

(** What hangs on a version that shows is kept. *)
Lemma shown_not_dropped v : v ∈ provider_versions t -> hidden t v = false -> dropped t (pv_ID v) = false.
Proof.
  intros Hv Hh. unfold dropped. destruct (has _ _) eqn:E; [|done].
  apply has_eqb, list_elem_of_fmap in E as (v' & Eid & Hin). rewrite list_elem_of_In in Hin.
  apply filter_In in Hin as [Hin Hg]. rewrite <- list_elem_of_In in Hin.
  rewrite (version_by_id v v' Hv Hin Eid) in Hh. congruence.
Qed.

Lemma shown_status v : v ∈ provider_versions t -> hidden t v = false ->
  status_of (conceal t) (pv_ID v) = status_of t (pv_ID v).
Proof.
  intros Hv Hh. unfold status_of. rewrite conceal_tracking, find_filter; [done|].
  intros m _ Hm. apply Nat.eqb_eq in Hm. rewrite Hm, negb_involutive. by rewrite (shown_not_dropped v).
Qed.

Lemma shown_gate v : v ∈ provider_versions t -> hidden t v = false ->
  ProviderRepository.not_gated (conceal t) v = true.
Proof.
  intros Hv Hh. unfold ProviderRepository.not_gated. destruct (has _ (mirrored_versions (conceal t))) eqn:E; [|done].
  apply has_spec in E as (m & Hin & Hg). rewrite conceal_tracking in Hin. apply filter_In in Hin as [Hin _].
  assert (has (ProviderRepository.gates v) (mirrored_versions t) = true) by (apply has_spec; eauto).
  unfold hidden, ProviderRepository.not_gated in Hh. rewrite H in Hh. done.
Qed.

(** Listings filtered by the gate are the same. *)
Lemma same_listing (mine : ProviderVersionRow -> bool) :
  List.filter (fun v => mine v && ProviderRepository.not_gated (conceal t) v) (provider_versions (conceal t)) =
  List.filter (fun v => mine v && ProviderRepository.not_gated t v) (provider_versions t).
Proof.
  rewrite conceal_versions.
  transitivity (List.filter (fun v => mine v && ProviderRepository.not_gated t v)
                  (List.filter (fun v => negb (hidden t v)) (provider_versions t))).
  - apply filter_agree. intros v Hin. rewrite list_elem_of_In in Hin. apply filter_In in Hin as [Hin Hh].
    rewrite <- list_elem_of_In in Hin. apply negb_true_iff in Hh. rewrite (shown_gate v Hin Hh).
    unfold hidden in Hh. apply negb_false_iff in Hh. by rewrite Hh.
  - apply filter_under. intros v _ Hp. bools. unfold hidden. by rewrite H0.
Qed.

(** The look-up of a version: the same row, or nothing instead of a hidden one. *)
Lemma same_version pid name :
  let find t := List.find (fun v => (pv_ProviderID v =? pid)%nat && String.eqb (pv_Version v) name)
                  (provider_versions t) in
  find (conceal t) = match find t with
                     | Some v => if hidden t v then None else Some v
                     | None => None
                     end.
Proof.
  cbv zeta beta. rewrite conceal_versions.
  set (p := fun v => (pv_ProviderID v =? pid)%nat && String.eqb (pv_Version v) name).
  destruct (List.find p (provider_versions t)) as [v|] eqn:E.
  - apply find_some in E as Hv. destruct Hv as [Hin Hp]. rewrite <- list_elem_of_In in Hin.
    assert (Hu : forall v', v' ∈ provider_versions t -> p v' = true -> v' = v).
    { intros v' Hin' Hp'. unfold p in *. bools. repeat match goal with
        | H : Nat.eqb _ _ = true |- _ => apply Nat.eqb_eq in H
        | H : String.eqb _ _ = true |- _ => apply String.eqb_eq in H end.
      apply list_elem_of_lookup in Hin as [i Hi], Hin' as [j Hj].
      assert (i = j) by (eapply (NoDup_lookup _ _ _ (pid, name) (version_keys _ Hs));
        rewrite list_lookup_fmap; [rewrite Hi|rewrite Hj]; cbn; by f_equal; f_equal).
      subst. congruence. }
    destruct (hidden t v) eqn:Hh.
    + apply find_dropped. intros v' Hin' Hp'. rewrite (Hu v') by done. by rewrite Hh.
    + rewrite find_filter; [done|]. intros v' Hin' Hp'. rewrite (Hu v') by done. by rewrite Hh.
  - destruct (List.find p (List.filter _ _)) as [v|] eqn:E'; [|done].
    apply find_some in E' as [Hin Hp]. apply filter_In in Hin as [Hin _].
    by rewrite (find_none _ _ E v Hin) in Hp.
Qed.
End Concealed.

(** ** Two runs, on all the tables and on the concealed ones *)

Section Alike.
Context {Y : Type} (t0 : pdb).
#[local] Abbreviation P := (prog (env (pm Y))).

(** The handlers change download counters only, so versions and tracking rows are
    those of [t0]. *)
Record alike (w w' : env (pm Y)) : Prop := {
  al_schema : schema (ptab (st w));
  al_tracked : tracked (ptab (st w));
  al_versions : provider_versions (ptab (st w)) = provider_versions t0;
  al_rows : mirrored_versions (ptab (st w)) = mirrored_versions t0;
  al_tables : ptab (st w') = conceal (ptab (st w));
  al_around : pext (st w') = pext (st w);
  al_quiet : faults w = [] /\ faults w' = [];
  al_time : clock w' = clock w /\ ticks w' = ticks w;
}.

Definition shown (v : ProviderVersionRow) : Prop := v ∈ provider_versions t0 /\ hidden t0 v = false.

Lemma hidden_now t v : mirrored_versions t = mirrored_versions t0 -> hidden t v = hidden t0 v.
Proof. intros E. unfold hidden, ProviderRepository.not_gated. by rewrite E. Qed.

(** The same result, for which [Q] holds, and alike states. *)
Definition same_as {A} (Q : A -> Prop) (c c' : P A) : Prop := forall w w', alike w w' ->
  fst (c' w') = fst (c w) /\ Q (fst (c w)) /\ alike (snd (c w)) (snd (c' w')).

Definition same {A} (c : P A) : Prop := same_as (fun _ => True) c c.

Lemma same_bind {A B} Q (c : P A) (R : B -> Prop) (k k' : A -> P B) :
  same_as Q c c -> (forall a, Q a -> same_as R (k a) (k' a)) -> same_as R (bind c k) (bind c k').
Proof.
  intros Hc Hk w w' Ha. destruct (Hc w w' Ha) as (E & HQ & Ha'). unfold bind. rewrite E. by apply Hk.
Qed.

Lemma same_then {A B} (c : P A) (k : A -> P B) : same c -> (forall a, same (k a)) -> same (bind c k).
Proof. intros Hc Hk. eapply same_bind; [exact Hc|]. intros a _. apply Hk. Qed.

Lemma same_ret {A} (a : A) : same (ret a).
Proof. intros w w' Ha. by split_and!. Qed.

Lemma same_out {A} (c : prog Y A) : same (out c).
Proof.
  intros w w' []. unfold out, state. cbn. rewrite al_around0. split; [done|]. split; [done|]. by constructor.
Qed.

Lemma same_now : same time_now.
Proof.
  intros w w' []. destruct al_time0 as [Ec Et]. unfold time_now. cbn. rewrite Ec, Et.
  split; [done|]. split; [done|]. by constructor.
Qed.

Lemma same_query {A} op (f : pdb -> res A) (Q : res A -> Prop) :
  (forall t, schema t -> tracked t -> provider_versions t = provider_versions t0 ->
     mirrored_versions t = mirrored_versions t0 -> f (conceal t) = f t /\ Q (f t)) ->
  same_as Q (pquery op f) (pquery op f).
Proof.
  intros Hf w w' []. destruct al_quiet0 as [E1 E2].
  destruct (Hf (ptab (st w))) as [E HQ]; [done..|].
  unfold pquery, psql, db. rewrite E1, E2. cbn. rewrite al_tables0, E.
  split; [done|]. split; [done|]. by constructor; cbn.
Qed.

Lemma filter_update {R} (keep cond : R -> bool) (upd : R -> R) rows :
  (forall r, keep (upd r) = keep r) ->
  List.filter keep (update_rows cond upd rows) = update_rows cond upd (List.filter keep rows).
Proof.
  intros Hk. unfold update_rows. induction rows as [|r rows IH]; [done|]. cbn.
  destruct (cond r) eqn:E; cbn; [rewrite Hk|]; destruct (keep r); cbn; rewrite ?E, IH; done.
Qed.

Lemma conceal_counted id t :
  conceal (on_pplatforms (update_rows (fun p => (pp_ID p =? id)%nat) incr_platform_downloads) t) =
  on_pplatforms (update_rows (fun p => (pp_ID p =? id)%nat) incr_platform_downloads) (conceal t).
Proof.
  destruct t as [ta tb tc td te tg th ti tj tk tn]. unfold conceal, drop_versions, drop_tracking; cbn.
  f_equal. by rewrite filter_update.
Qed.

Lemma same_count id : same (ProviderRepository.IncrementDownloadCount id).
Proof.
  intros w w' Ha. pose proof Ha as [].
  destruct al_quiet0 as [E1 E2]. unfold ProviderRepository.IncrementDownloadCount, pexec, psql, db.
  rewrite E1, E2. cbn. rewrite al_tables0, <- conceal_counted.
  split; [done|]. split; [done|]. destruct al_time0.
  constructor; cbn; try done.
  - by apply schema_pplatforms.
  - by destruct (ptab (st w)), al_tracked0.
  - by destruct (ptab (st w)).
  - by destruct (ptab (st w)).
Qed.

(** *** The statements of the handlers *)

Context `{GoSort}.

Lemma same_provider org ns ty : same (ProviderRepository.GetProvider org ns ty).
Proof. apply same_query. intros t _ _ _ _. by rewrite conceal_providers. Qed.

Lemma shown_now t v : provider_versions t = provider_versions t0 ->
  mirrored_versions t = mirrored_versions t0 -> shown v -> v ∈ provider_versions t /\ hidden t v = false.
Proof. intros E1 E2 [Hv Hh]. by rewrite E1, (hidden_now t v E2). Qed.

Lemma same_status v : shown v -> same (ProviderRepository.GetVersionApprovalStatus (pv_ID v)).
Proof.
  intros Hv. apply same_query. intros t Hs Ht E1 E2. destruct (shown_now t v E1 E2 Hv) as [Hin Hh].
  split; [|done]. exact (f_equal Ok (shown_status t Hs v Hin Hh)).
Qed.

Lemma same_platform v os arch : shown v -> same (ProviderRepository.GetPlatform (pv_ID v) os arch).
Proof.
  intros Hv. apply same_query. intros t Hs Ht E1 E2. destruct (shown_now t v E1 E2 Hv) as [Hin Hh].
  split; [|done]. rewrite conceal_platforms, find_filter; [done|].
  intros p _ Hp. bools. apply Nat.eqb_eq in H0. by rewrite H0, (shown_not_dropped t Hs v).
Qed.

Lemma same_platforms v : shown v -> same (ProviderRepository.ListPlatforms (pv_ID v)).
Proof.
  intros Hv. apply same_query. intros t Hs Ht E1 E2. destruct (shown_now t v E1 E2 Hv) as [Hin Hh].
  split; [|done]. rewrite conceal_platforms, filter_under; [done|].
  intros p _ Hp. apply Nat.eqb_eq in Hp. by rewrite Hp, (shown_not_dropped t Hs v).
Qed.

Lemma same_shasums v : shown v -> same (ProviderRepository.ListProviderVersionShasums (pv_ID v)).
Proof.
  intros Hv. apply same_query. intros t Hs Ht E1 E2. destruct (shown_now t v E1 E2 Hv) as [Hin Hh].
  split; [|done]. rewrite conceal_shasums, filter_under; [done|].
  intros p _ Hp. apply Nat.eqb_eq in Hp. by rewrite Hp, (shown_not_dropped t Hs v).
Qed.

Lemma same_visible pid : same (ProviderRepository.ListVisibleVersions pid).
Proof.
  apply same_query. intros t Hs Ht E1 E2. split; [|done]. cbn [negb orb].
  by rewrite (same_listing t (fun v => (pv_ProviderID v =? pid)%nat)).
Qed.

(** A look-up finds a version that shows, or nothing on the concealed tables. *)
Lemma same_lookup pid name (k : res (option ProviderVersionRow) -> P preply) :
  (forall r, (forall v, r = Ok (Some v) -> shown v) -> same (k r)) ->
  (forall v w w', v ∈ provider_versions t0 -> hidden t0 v = true -> alike w w' ->
     fst (k (Ok None) w') = fst (k (Ok (Some v)) w) /\ alike (snd (k (Ok (Some v)) w)) (snd (k (Ok None) w'))) ->
  same (bind (ProviderRepository.GetVersion pid name) k).
Proof.
  intros Hsame Hhid w w' Ha. pose proof Ha as [].
  destruct al_quiet0 as [E1 E2].
  assert (Hn : forall (u u' : env (pm Y)), u = w -> u' = w' -> alike u u') by (by intros ? ? -> ->).
  set (t := ptab (st w)) in *.
  assert (Hval : ProviderRepository.GetVersion pid name w =
    (Ok (List.find (fun v => (pv_ProviderID v =? pid)%nat && String.eqb (pv_Version v) name)
           (provider_versions t)), w)).
  { destruct w as [[tb y] fs c ts]. cbn in *. by rewrite E1. }
  assert (Hval' : ProviderRepository.GetVersion pid name w' =
    (Ok (List.find (fun v => (pv_ProviderID v =? pid)%nat && String.eqb (pv_Version v) name)
           (provider_versions (conceal t))), w')).
  { destruct w' as [[tb y] fs c ts]. cbn in *. by rewrite E2, al_tables0. }
  unfold bind. rewrite Hval, Hval'. cbn [fst snd].
  rewrite (same_version t al_schema0 pid name).
  destruct (List.find _ (provider_versions t)) as [v|] eqn:Ef.
  - apply find_some in Ef as [Hin _]. rewrite <- list_elem_of_In, al_versions0 in Hin.
    rewrite (hidden_now t v al_rows0). destruct (hidden t0 v) eqn:Hh.
    + destruct (Hhid v w w' Hin Hh Ha) as [? ?]. by split_and!.
    + apply Hsame; [|done]. intros v' [= <-]. done.
  - by apply Hsame.
Qed.

(** The gate closes on a hidden version. *)
Lemma closed_gate (v : ProviderVersionRow) (k : res (option string) -> P preply) r w w' :
  (forall s, approved s = false -> k (Ok s) = ret r) ->
  v ∈ provider_versions t0 -> hidden t0 v = true -> alike w w' ->
  r = fst (bind (ProviderRepository.GetVersionApprovalStatus (pv_ID v)) k w) /\
  alike (snd (bind (ProviderRepository.GetVersionApprovalStatus (pv_ID v)) k w)) w'.
Proof.
  intros Hk Hin Hh Ha. pose proof Ha as []. destruct al_quiet0 as [E1 E2].
  assert (Hval : ProviderRepository.GetVersionApprovalStatus (pv_ID v) w =
    (Ok (status_of (ptab (st w)) (pv_ID v)), w)).
  { destruct w as [[tb y] fs c ts]. cbn in *. by rewrite E1. }
  unfold bind. rewrite Hval. cbn [fst snd]. rewrite Hk; [done|].
  rewrite <- (hidden_now (ptab (st w)) v al_rows0) in Hh. unfold hidden in Hh.
  apply negb_true_iff in Hh. rewrite <- Hh. symmetry. by apply gate_status.
Qed.
End Alike.

(** ** What clients see *)

Inductive client_request :=
| CVersions (namespace providerType limit offset : string)
| CDownload (namespace providerType version os arch : string)
| CIndex (namespace providerType : string)
| CPlatforms (namespace providerType versionfile userAgent : string).

Section Clients.
Context {Y : Type} `{GoVersion} `{GoSort} `{StringsCodec} `{MapRange}.
Context `{Backend Y} `{Organizations Y} `{Notices Y} `{DocContents Y} `{UpstreamRegistryClient Y}.
Context `{OpenPGP} `{!OpenPGPEntities} `{ReleaseKeys} `{PgpKeyIds}.
Context (cfg : ProvConfig) (auditRepo : bool) (storageErr : option gerror).
#[local] Abbreviation P := (prog (env (pm Y))).

(** The protocol endpoints, pulling through or not. *)
Definition answer (pullThrough : bool) (q : client_request) : P preply :=
  match q with
  | CVersions ns ty limit offset => Protocol.ListVersionsHandler ns ty limit offset
  | CDownload ns ty v os arch => Protocol.DownloadHandler auditRepo ns ty v os arch
  | CIndex ns ty => NetworkMirror.IndexHandler pullThrough ns ty
  | CPlatforms ns ty file ua => NetworkMirror.PlatformIndexHandler cfg auditRepo pullThrough storageErr ns ty file ua
  end.

Section Same.
Context (t0 : pdb).
#[local] Abbreviation same := (same (Y := Y) t0).
#[local] Abbreviation shown := (shown t0).

Ltac samely := repeat first
  [ progress intros
  | apply same_ret
  | apply same_then; [apply same_out|]
  | apply same_then; [apply same_now|]
  | apply same_then; [apply same_provider|]
  | apply same_then; [apply same_visible|]
  | apply same_then; [apply same_count|]
  | apply same_out
  | case_match ].

Lemma same_default_org (k : uuid -> P preply) : (forall org, same (k org)) -> same (in_default_org k).
Proof. intros Hk. unfold in_default_org, pfail. samely. apply Hk. Qed.

Lemma same_file_url key url : same (Protocol.file_url key url).
Proof. unfold Protocol.file_url. samely. Qed.

Lemma same_key v : same (Protocol.signing_keys v).
Proof.
  unfold Protocol.signing_keys, ResolveExpiredGPGKey, ParseReleasesKey.
  case_match; [apply same_ret|]. apply same_then; [|samely].
  apply same_then; [|samely]. samely.
Qed.

Lemma same_served v os arch : shown v -> same (Protocol.serve_platform auditRepo v os arch).
Proof.
  intros Hv. unfold Protocol.serve_platform, pfail.
  apply same_then; [by apply same_platform|]. intros [[p|]|e]; [|apply same_ret..].
  apply same_then; [apply same_out|]. intros [url|e]; [|apply same_ret].
  repeat (apply same_then; [apply same_file_url || apply same_key || apply same_count|intros]).
  samely.
Qed.

Lemma same_download ns ty v os arch : same (Protocol.DownloadHandler auditRepo ns ty v os arch).
Proof.
  unfold Protocol.DownloadHandler, pfail. do 2 (case_match; [apply same_ret|]).
  apply same_default_org. intros org. unfold Protocol.find_version, pfail.
  apply same_then; [apply same_provider|]. intros [[p|]|e]; [|apply same_ret..].
  apply same_lookup.
  - intros [[v'|]|e] Hv; [|apply same_ret..]. specialize (Hv v' eq_refl).
    apply same_then; [by apply same_status|]. intros [s|e]; [|apply same_ret].
    case_match; [by apply same_served | apply same_ret].
  - intros v' w w' Hin Hh Ha.
    cbn [fst snd ret]. apply (closed_gate t0 v' _ (404, PError "Provider version not found") w w'); [by intros s -> | done..].
Qed.

Lemma same_archives platforms acc : same (NetworkMirror.local_archives platforms acc).
Proof.
  revert acc. induction platforms as [|p ps IH]; intros acc; [apply same_ret|]. cbn.
  apply same_then; [apply same_out|]. intros [url|e]; [apply IH | apply same_ret].
Qed.

Lemma same_enriched v acc : shown v -> same (NetworkMirror.enriched v acc).
Proof.
  intros Hv. unfold NetworkMirror.enriched. case_match; [apply same_ret|].
  apply same_then; [by apply same_shasums|]. intros r. apply same_ret.
Qed.

Lemma same_index_page ua v : shown v -> same (NetworkMirror.platform_index cfg auditRepo storageErr ua v).
Proof.
  intros Hv. unfold NetworkMirror.platform_index, pfail.
  apply same_then; [by apply same_platforms|]. intros [ps|e]; [|apply same_ret].
  case_match; [apply same_ret|].
  apply same_then; [apply same_archives|]. intros [local|e]; [|apply same_ret].
  apply same_then; [by apply same_enriched|]. intros all.
  apply same_then; [unfold NetworkMirror.count_download; samely|]. intros _.
  samely.
Qed.

Lemma same_platform_index ns ty file ua :
  same (NetworkMirror.PlatformIndexHandler cfg auditRepo false storageErr ns ty file ua).
Proof.
  unfold NetworkMirror.PlatformIndexHandler, pfail. cbv zeta. case_match; [apply same_ret|].
  apply same_default_org. intros org. unfold NetworkMirror.with_provider, pfail.
  apply same_then; [apply same_provider|]. intros [[p|]|e]; [|apply same_ret..].
  unfold NetworkMirror.with_version, pfail. apply same_lookup.
  - intros [[v'|]|e] Hv; [|apply same_ret..]. specialize (Hv v' eq_refl).
    apply same_then; [by apply same_status|]. intros [s|e]; [|apply same_ret].
    case_match; [by apply same_index_page | apply same_ret].
  - intros v' w w' Hin Hh Ha.
    cbn [fst snd ret]. apply (closed_gate t0 v' _ (404, PError "provider version not found") w w'); [by intros s -> | done..].
Qed.

Lemma same_mirror_index ns ty : same (NetworkMirror.IndexHandler false ns ty).
Proof.
  unfold NetworkMirror.IndexHandler. apply same_default_org. intros org.
  unfold NetworkMirror.with_provider, pfail. samely.
Qed.

(** A page of the listing holds versions that show. *)
Lemma same_page pid limit offset :
  same_as t0 (fun r => forall vs n, r = Ok (vs, n) -> Forall shown vs)
    (ProviderRepository.ListVersionsPaginated (Y := Y) pid limit offset)
    (ProviderRepository.ListVersionsPaginated pid limit offset).
Proof.
  unfold ProviderRepository.ListVersionsPaginated.
  eapply same_bind; [apply (same_query t0 _ _ (fun _ => True))|].
  { intros t Hs Ht _ _. split; [|done]. cbv beta.
    by rewrite (same_listing t (fun v => (pv_ProviderID v =? pid)%nat)). }
  intros [n|e] _; [|intros w w' Ha; by split_and!].
  eapply same_bind; [apply (same_query t0 _ _ (fun r => forall vs, r = Ok vs -> Forall shown vs))|].
  { intros t Hs Ht E1 E2. cbv beta.
    rewrite (same_listing t (fun v => (pv_ProviderID v =? pid)%nat)). split; [done|].
    intros vs [= <-]. apply Forall_take, Forall_drop, Forall_rev, Forall_forall. intros v Hin.
    rewrite list_elem_of_In in Hin. apply filter_In in Hin as [Hin Hp]. rewrite <- list_elem_of_In, E1 in Hin.
    bools. split; [done|]. rewrite <- (hidden_now t0 t v E2). unfold hidden. by apply negb_false_iff. }
  intros [vs|e] Hvs w w' Ha; (split; [done|]); (split; [|done]); [|done].
  intros vs' n' [= <- <-]. by apply Hvs.
Qed.

Lemma same_with_platforms vs : Forall shown vs -> same (Protocol.with_platforms vs).
Proof.
  induction 1 as [|v vs Hv Hvs IH]; [apply same_ret|]. cbn.
  apply same_then; [by apply same_platforms|]. intros [ps|e]; [|apply same_ret].
  apply same_then; [exact IH|]. intros [rest|e]; apply same_ret.
Qed.

Lemma same_versions ns ty limit offset : same (Protocol.ListVersionsHandler ns ty limit offset).
Proof.
  unfold Protocol.ListVersionsHandler, pfail. cbv zeta. apply same_default_org. intros org.
  apply same_then; [apply same_provider|]. intros [[p|]|e]; [|apply same_ret..].
  eapply same_bind; [apply same_page|]. intros [[vs n]|e] Hvs; [|apply same_ret].
  apply same_then; [apply same_with_platforms; by eapply Hvs|]. intros [r|e]; apply same_ret.
Qed.
End Same.

Lemma alike_start (t : pdb) (y : Y) c ts : schema t -> tracked t ->
  alike t (Env (PM t y) [] c ts) (Env (PM (conceal t) y) [] c ts).
Proof. intros Hs Ht. by constructor. Qed.

(** C3: The approval gate conceals.  On every protocol endpoint (version listing,
    download, network mirror index and platform index, without pull-through), with
    the database answering, the reply of the registry is the reply it would give if
    the versions that wait for approval or were refused, with their platforms,
    checksums, documents and tracking rows, were not in the tables at all, and the
    outside world is left the same. *)
Theorem hidden_versions_are_absent (q : client_request) (t : pdb) (y : Y) c ts :
  schema t -> tracked t ->
  let r := answer false q (Env (PM t y) [] c ts) in
  let r' := answer false q (Env (PM (conceal t) y) [] c ts) in
  fst r = fst r' /\ pext (st (snd r)) = pext (st (snd r')).
Proof.
  intros Hs Ht r r'.
  assert (Hq : same t (answer false q)).
  { destruct q; [apply same_versions | apply same_download | apply same_mirror_index | apply same_platform_index]. }
  destruct (Hq _ _ (alike_start t y c ts Hs Ht)) as (E & _ & Ha).
  split; [exact (eq_sym E)|]. symmetry. apply (al_around _ _ _ Ha).
Qed.
End Clients.

(** ** What an answer comes from, whatever fails *)

(** Nothing but download counters changes in the tables. *)
Record counted (t t' : pdb) : Prop := {
  co_providers : providers t' = providers t;
  co_versions : provider_versions t' = provider_versions t;
  co_shasums : provider_version_shasums t' = provider_version_shasums t;
  co_tracking : mirrored_versions t' = mirrored_versions t;
}.

#[export] Instance counted_preorder : PreOrder counted.
Proof. split; [by constructor|]. intros t1 t2 t3 [] []. constructor; by etransitivity. Qed.

Section Sources.
Context {Y : Type} `{GoVersion} `{GoSortLaws} `{StringsCodec} `{MapRange}.
Context `{Backend Y} `{Organizations Y} `{Notices Y} `{UpstreamRegistryClient Y}.
Context `{OpenPGP} `{!OpenPGPEntities} `{ReleaseKeys} `{PgpKeyIds}.
Context (cfg : ProvConfig) (auditRepo : bool) (storageErr : option gerror) (t : pdb).
#[local] Abbreviation P := (prog (env (pm Y))).
#[local] Abbreviation S' := (pm Y).

Definition on_tables (s : S') : Prop := ptab s = t.

(** What is known of a query's result: the tables are still [t]. *)
Lemma read {A} op (f : pdb -> res A) :
  triple on_tables (pquery op f) (fun r s => on_tables s /\ forall a, r = Ok a -> f t = Ok a).
Proof.
  apply triple_pquery; [by intros s HP|]. intros tb y HP. unfold on_tables in *. cbn in *. subst. by split.
Qed.

Lemma call_out {A} (c : prog Y A) : triple on_tables (out c) (fun _ => on_tables).
Proof. by apply triple_out. Qed.

Lemma count_only id :
  triple on_tables (ProviderRepository.IncrementDownloadCount id) (fun _ s => counted t (ptab s)).
Proof.
  unfold ProviderRepository.IncrementDownloadCount, pexec. apply triple_psql.
  - intros s ->. by constructor.
  - intros tb y E. unfold on_tables in E. cbn in *. subst. by destruct t.
Qed.

(** A reply other than 200 says nothing. *)
Definition if_ok (Q : pbody -> Prop) (r : preply) (s : S') : Prop :=
  counted t (ptab s) /\ (fst r = 200 -> Q (snd r)).

Lemma refuse Q status m : (status =? 200) = false -> triple on_tables (pfail status m) (if_ok Q).
Proof.
  intros Hne. apply triple_ret. intros s Hst. split; [rewrite Hst; reflexivity|]. intros E. cbn in E. subst. by rewrite Z.eqb_refl in Hne.
Qed.

(** Going on with what a query or a call gave. *)
Lemma after {A B} (Q : A -> Prop) (c : P A) (k : A -> P B) Post :
  triple on_tables c (fun r s => on_tables s /\ Q r) ->
  (forall a, Q a -> triple on_tables (k a) Post) -> triple on_tables (bind c k) Post.
Proof. intros Hc Hk w HP. destruct (Hc w HP) as [Hst HQ]. by apply (Hk _ HQ). Qed.

Lemma after_call {A B} (c : P A) (k : A -> P B) Post :
  triple on_tables c (fun _ => on_tables) ->
  (forall a, triple on_tables (k a) Post) -> triple on_tables (bind c k) Post.
Proof. intros Hc Hk. by eapply triple_bind. Qed.

Lemma in_org Q (k : uuid -> P preply) :
  (forall org, triple on_tables (k org) (if_ok Q)) -> triple on_tables (in_default_org k) (if_ok Q).
Proof.
  intros Hk. unfold in_default_org. eapply triple_bind; [apply call_out|].
  intros [[org|]|e]; [apply Hk | by apply refuse..].
Qed.

Hypothesis Hs : schema t.
Hypothesis Ht : tracked t.

(** The row a look-up by name gives. *)
Definition named_version (org : uuid) (ns ty version : string) (v : ProviderVersionRow) : Prop :=
  v ∈ provider_versions t /\ pv_Version v = version /\
  exists p, p ∈ providers t /\ pr_Namespace p = ns /\ pr_Type p = ty /\ pv_ProviderID v = pr_ID p /\
    (pr_OrganizationID p = Some org \/ pr_OrganizationID p = None).

Lemma find_provider_row org ns ty p :
  Ok (match List.find (ProviderRepository.in_org org)
              (rev (List.filter (ProviderRepository.named ns ty) (providers t))) with
      | Some p => Some p
      | None => List.find (fun p => bool_decide (pr_OrganizationID p = None))
                  (rev (List.filter (ProviderRepository.named ns ty) (providers t)))
      end) = Ok (A := option Provider) (Some p) ->
  p ∈ providers t /\ pr_Namespace p = ns /\ pr_Type p = ty /\
  (pr_OrganizationID p = Some org \/ pr_OrganizationID p = None).
Proof.
  intros [= Hf].
  assert (Hrow : In p (rev (List.filter (ProviderRepository.named ns ty) (providers t))) ->
                 p ∈ providers t /\ pr_Namespace p = ns /\ pr_Type p = ty).
  { intros Hin. apply in_rev, filter_In in Hin as [Hin Hn]. rewrite <- list_elem_of_In in Hin.
    unfold ProviderRepository.named in Hn. bools. by split_and!. }
  destruct (List.find (ProviderRepository.in_org org) _) as [p'|] eqn:E.
  - injection Hf as ->. apply find_some in E as [Hin Ho]. apply bool_decide_eq_true in Ho.
    destruct (Hrow Hin) as (? & ? & ?). split_and!; auto.
  - apply find_some in Hf as [Hin Ho]. apply bool_decide_eq_true in Ho.
    destruct (Hrow Hin) as (? & ? & ?). split_and!; auto.
Qed.

Lemma find_version_row pid name v :
  Ok (List.find (fun v => (pv_ProviderID v =? pid)%nat && String.eqb (pv_Version v) name)
        (provider_versions t)) = Ok (A := option ProviderVersionRow) (Some v) ->
  v ∈ provider_versions t /\ pv_ProviderID v = pid /\ pv_Version v = name.
Proof.
  intros [= Hf]. apply find_some in Hf as [Hin Hp]. rewrite <- list_elem_of_In in Hin. bools.
  split; [done|]. split; [by apply Nat.eqb_eq | done].
Qed.

(** The platform's row and the stored location a download reply points to. *)
Definition download_source (org : uuid) (ns ty version os arch : string) (b : pbody) : Prop :=
  exists v p info url y, b = PDownload info /\ named_version org ns ty version v /\
    ProviderRepository.not_gated t v = true /\
    p ∈ provider_platforms t /\ pp_ProviderVersionID p = pv_ID v /\ pp_OS p = os /\ pp_Arch p = arch /\
    fst (be_GetURL (pp_StoragePath p) url_ttl y) = Ok url /\ di_DownloadURL info = url /\
    di_OS info = os /\ di_Arch info = arch /\ di_Shasum info = pp_Shasum p /\
    di_Filename info = pp_Filename p /\ di_Protocols info = pv_Protocols v.

Lemma key_reads v : triple on_tables (Protocol.signing_keys v) (fun _ => on_tables).
Proof.
  unfold Protocol.signing_keys, ResolveExpiredGPGKey, ParseReleasesKey. case_match; [by apply triple_ret|].
  apply after_call; [|intros ?; by apply triple_ret].
  apply after_call; [|intros ?; by apply triple_ret].
  repeat case_match; try by apply triple_ret.
  apply after_call; [apply triple_now | intros ?; by apply triple_ret].
Qed.

Lemma url_reads key url : triple on_tables (Protocol.file_url key url) (fun _ => on_tables).
Proof.
  unfold Protocol.file_url. repeat case_match; try by apply triple_ret.
  apply after_call; [apply call_out | intros ?; by apply triple_ret].
Qed.

Lemma served_platform org ns ty version os arch v :
  named_version org ns ty version v -> ProviderRepository.not_gated t v = true ->
  triple on_tables (Protocol.serve_platform auditRepo v os arch)
    (if_ok (download_source org ns ty version os arch)).
Proof.
  intros Hv Hg. unfold Protocol.serve_platform. eapply after; [apply read|].
  intros [[p|]|e] Hf; [|by apply refuse..]. specialize (Hf _ eq_refl). injection Hf as Hf.
  apply find_some in Hf as [Hin Hp]. rewrite <- list_elem_of_In in Hin. bools.
  repeat match goal with
    | H : Nat.eqb _ _ = true |- _ => apply Nat.eqb_eq in H
    | H : String.eqb _ _ = true |- _ => apply String.eqb_eq in H end.
  apply (after (fun r => exists y, r = fst (be_GetURL (pp_StoragePath p) url_ttl y))).
  { apply triple_out. intros tb y Hst. split; [exact Hst | by exists y]. }
  intros [url|e] [y Hy]; [|by apply refuse].
  apply after_call; [apply url_reads|]. intros u1.
  apply after_call; [apply url_reads|]. intros u2.
  apply after_call; [apply key_reads|]. intros keys.
  eapply triple_bind; [apply count_only|]. intros ?.
  eapply (triple_bind _ (fun _ s => counted t (ptab s))).
  { case_match; [by apply triple_out | by apply triple_ret]. }
  intros ?. apply triple_ret. intros s Hc. split; [exact Hc|]. intros _.
  exists v, p. eexists. exists url, y. split; [reflexivity|]. by split_and!.
Qed.

Lemma download_sources ns ty version os arch :
  triple on_tables (Protocol.DownloadHandler auditRepo ns ty version os arch)
    (if_ok (fun b => exists org, download_source org ns ty version os arch b)).
Proof.
  unfold Protocol.DownloadHandler. do 2 (case_match; [by apply refuse|]).
  apply in_org. intros org. unfold Protocol.find_version.
  eapply after; [apply read|]. intros [[p|]|e] Hp; [|by apply refuse..].
  specialize (Hp _ eq_refl). apply find_provider_row in Hp as (Hpin & Hns & Hty & Ho).
  eapply after; [apply read|]. intros [[v|]|e] Hv; [|by apply refuse..].
  specialize (Hv _ eq_refl). apply find_version_row in Hv as (Hvin & Hpid & Hver).
  eapply after; [apply read|]. intros [s|e] Hst; [|by apply refuse].
  specialize (Hst s eq_refl). destruct (approved s) eqn:Ea; [|by apply refuse].
  eapply triple_weaken; [apply (served_platform org ns ty version os arch v) | done |].
  - split_and!; [done|done|]. exists p. by split_and!.
  - rewrite (gate_status t Ht v). injection Hst as Hst. unfold status_of. by rewrite Hst.
  - intros r s' [Hc Hq]. split; [done|]. intros E. exists org. by apply Hq.
Qed.

End Sources.

(** *** The network mirror *)

(** Pull-through adds providers and versions and writes checksums; it takes nothing away
    and touches neither platforms nor tracking rows. *)
Record pulled (t t' : pdb) : Prop := {
  pl_platforms : provider_platforms t' = provider_platforms t;
  pl_tracking : mirrored_versions t' = mirrored_versions t;
  pl_providers p : p ∈ providers t -> p ∈ providers t';
  pl_versions v : v ∈ provider_versions t -> v ∈ provider_versions t';
}.

#[export] Instance pulled_preorder : PreOrder pulled.
Proof.
  split; [by intros t; split|]. intros t1 t2 t3 [] []. split; [congruence | congruence | auto | auto].
Qed.


Section Pulling.
Context {Y : Type} `{GoSort} `{StringsCodec} `{MapRange} `{UpstreamRegistryClient Y}.
#[local] Abbreviation along := (on_st (pmoves (Y := Y) pulled (fun _ _ => True))).
#[local] Abbreviation still := (preserves (@calm (pm Y))).

#[local] Instance any_preorder : PreOrder (fun _ _ : Y => True).
Proof. by split. Qed.

Lemma pull_out {A} (c : prog Y A) : preserves along (out c).
Proof. apply preserves_state. intros s. split; [reflexivity | done]. Qed.

Lemma pull_query {A} op (f : pdb -> res A) : preserves along (pquery op f).
Proof. apply along_pquery; typeclasses eauto. Qed.

Lemma pull_provider p : preserves along (ProviderRepository.CreateProvider p).
Proof.
  unfold ProviderRepository.CreateProvider.
  assert (Hi : forall op valid q, preserves along (pinsert op valid (fun id => on_providers (fun rows => rows ++ [q id])))).
  { intros op valid q. apply along_pinsert; try typeclasses eauto. intros t _. destruct t. split; cbn; try done.
    intros x Hx. apply elem_of_app. by left. }
  pose proof Hi. preserve.
Qed.

Lemma pull_version v : preserves along (ProviderRepository.CreateVersion v).
Proof.
  unfold ProviderRepository.CreateVersion. apply along_pinsert; try typeclasses eauto.
  intros t _. destruct t. split; cbn; try done. intros x Hx. apply elem_of_app. by left.
Qed.

Lemma pull_shasum id f hash : preserves along (ProviderRepository.upsert_shasum id f hash).
Proof.
  unfold ProviderRepository.upsert_shasum. apply along_psql; [typeclasses eauto..|].
  intros t. destruct t. repeat case_match; by split.
Qed.

Lemma calm_ret {A} (a : A) : still (ret a).
Proof. by intros w. Qed.

Lemma calm_query {A} op (f : pdb -> res A) : still (pquery op f).
Proof. apply calm_psql. Qed.
#[local] Hint Resolve pull_out pull_query pull_provider pull_version pull_shasum : registry.
#[local] Hint Resolve calm_ret calm_query calm_psql calm_out calm_now : registry.

Lemma pull_shasums id es : preserves along (ProviderRepository.upsert_shasums id es).
Proof. induction es as [|[file hash] es IH]; cbn; preserve. Qed.
Lemma calm_upsert_shasums id es : still (ProviderRepository.upsert_shasums id es).
Proof. induction es as [|[file hash] es IH]; cbn; [preserve|]. unfold ProviderRepository.upsert_shasum. preserve. Qed.
#[local] Hint Resolve pull_shasums calm_upsert_shasums : registry.

Lemma pull_all (map_order : forall A, list A -> list A) id m :
  preserves along (ProviderRepository.UpsertProviderVersionShasums (map_order := map_order) id m).
Proof.
  unfold ProviderRepository.UpsertProviderVersionShasums. case_match; [preserve|].
  apply along_ptx; [typeclasses eauto..|]. preserve.
Qed.
Lemma calm_all (map_order : forall A, list A -> list A) id m :
  still (ProviderRepository.UpsertProviderVersionShasums (map_order := map_order) id m).
Proof.
  unfold ProviderRepository.UpsertProviderVersionShasums. case_match; [preserve|]. apply calm_ptx. preserve.
Qed.
#[local] Hint Resolve pull_all calm_all : registry.

Lemma pull_one base id ns ty v : preserves along (fetch_version base id ns ty v).
Proof. unfold fetch_version, fetchAndStoreShasums, ProviderRepository.UpsertVersion, ProviderRepository.GetVersion. preserve. Qed.
Lemma calm_one base id ns ty v : still (fetch_version base id ns ty v).
Proof.
  unfold fetch_version, fetchAndStoreShasums, ProviderRepository.UpsertVersion, ProviderRepository.GetVersion.
  unfold ProviderRepository.CreateVersion, pinsert. preserve.
Qed.
#[local] Hint Resolve pull_one calm_one : registry.

End Pulling.

Section Index.
Context {Y : Type} `{GoVersion} `{GoSortLaws} `{StringsCodec} `{MapRange}.
Context `{Backend Y} `{Organizations Y} `{Notices Y} `{UpstreamRegistryClient Y}.
Context (cfg : ProvConfig) (auditRepo : bool) (storageErr : option gerror) (quiet : Prop).
#[local] Abbreviation P := (prog (env (pm Y))).
#[local] Abbreviation W := (env (pm Y)).


Section Page.
Context (t : pdb).












End Page.

(** *** From the request to the page *)
Section Request.
Context (pullThrough : bool) (t0 : pdb) (Ht0 : tracked t0) (org : uuid) (ns ty version : string).















End Request.
End Index.

Section Answers.
Context {Y : Type} `{GoVersion} `{GoSortLaws} `{StringsCodec} `{MapRange}.
Context `{Backend Y} `{Organizations Y} `{Notices Y} `{UpstreamRegistryClient Y}.
Context `{OpenPGP} `{!OpenPGPEntities} `{ReleaseKeys} `{PgpKeyIds}.
Context (cfg : ProvConfig) (auditRepo : bool).

(** C30: A download answers with what is published, whatever fails.  Under any
    failures of the database, when the download endpoint replies 200 then the tables
    hold a version of that name of that provider which the approval gate lets through,
    and a platform of it for that system; the reply carries the platform's checksum
    and file name and the storage's URL of its binary, and the tables change in
    download counters only. *)
Theorem download_serves_what_is_approved (ns ty version os arch : string) (w : env (pm Y)) :
  tracked (ptab (st w)) ->
  fst (fst (Protocol.DownloadHandler auditRepo ns ty version os arch w)) = 200 ->
  (exists org, download_source (ptab (st w)) org ns ty version os arch
                 (snd (fst (Protocol.DownloadHandler auditRepo ns ty version os arch w)))) /\
  counted (ptab (st w)) (ptab (st (snd (Protocol.DownloadHandler auditRepo ns ty version os arch w)))).
Proof.
  intros Ht E.
  destruct (download_sources auditRepo (ptab (st w)) Ht ns ty version os arch w eq_refl) as [Hc Hq].
  split; [by apply Hq | exact Hc].
Qed.

End Answers.

(** ** What an upload leaves *)

Section Keys.

Lemma join_dir ns ty v last :
  Upload.version_dir ns ty v +:+ last = join_segs ["providers"; ns; ty; v; last].
Proof. unfold Upload.version_dir. cbn. by rewrite !append_assoc_s. Qed.

(** Names that end in another letter than ".sha256". *)
Definition plain_last (last : string) : Prop :=
  proper last /\ exists p c, last = p +:+ String c "" /\ c <> "6"%char.

Lemma dir_key ns ty v last :
  segment ns -> segment ty -> proper v -> plain_last last -> file_key (Upload.version_dir ns ty v +:+ last).
Proof.
  intros Hns%segment_proper Hty%segment_proper Hv [Hl (p & c & -> & Hc)].
  assert (Hall : Forall proper ["providers"; ns; ty; v; p +:+ String c ""])
    by (repeat (constructor; [by assumption || by repeat split|]); constructor).
  split.
  - rewrite join_dir, split_join; [exact Hall | | done].
    eapply Forall_impl; [exact Hall|]. by intros x (? & _ & _ & ?).
  - rewrite <- append_assoc_s. destruct (has_suffix _ ".sha256") eqn:E; [|done]. exfalso.
    apply has_suffix_last in E; [|done].
    rewrite (has_suffix_last _ (String c "")) in E by (done || apply has_suffix_app).
    by injection E as ->.
Qed.

Lemma platform_proper os arch :
  In os SupportedOS -> In arch SupportedArch -> plain_last (os +:+ "_" +:+ arch +:+ ".zip").
Proof.
  intros Ho Ha. unfold SupportedOS, SupportedArch in *. cbn in Ho, Ha.
  repeat match goal with H : _ \/ _ |- _ => destruct H as [<-|H] | H : False |- _ => destruct H end;
    (split; [by vm_compute; repeat split|]; eexists _, "p"%char; split; [|done];
     match goal with |- ?s = _ => instantiate (1 := stake (String.length s - 1) s) end; reflexivity).
Qed.

Lemma sums_last : plain_last "SHA256SUMS" /\ plain_last "SHA256SUMS.sig".
Proof.
  split; (split; [by vm_compute; repeat split|]).
  - by exists "SHA256SUM", "S"%char.
  - by exists "SHA256SUMS.si", "g"%char.
Qed.

Lemma platform_not_sums os arch :
  In os SupportedOS -> os +:+ "_" +:+ arch +:+ ".zip" <> "SHA256SUMS" /\ os +:+ "_" +:+ arch +:+ ".zip" <> "SHA256SUMS.sig".
Proof.
  intros Ho. unfold SupportedOS in Ho. cbn in Ho.
  repeat match goal with H : _ \/ _ |- _ => destruct H as [<-|H] | H : False |- _ => destruct H end; by split.
Qed.
End Keys.

Section Uploads.
Context {Y : Type} `{GoVersion} `{StringsCodec} `{MapRangeLaws} `{GoSort}.
Context `{BackendLaws Y} `{Organizations Y} `{TempFiles Y}.
Context `{Sha256Base64} `{ZipReader} `{OpenPGP}.
Context (cfg : ProvConfig).
#[local] Abbreviation P := (prog (env (pm Y))).
#[local] Abbreviation S' := (pm Y).
Import Upload.

(** What the handler relies on outside: only the storage calls touch the store, and
    a version that parses can be a directory name. *)
Record upload_laws : Prop := {
  ul_org : leaves_store GetDefaultOrganization;
  ul_temp : leaves_store CreateTemp /\ (forall d, leaves_store (CopyToTemp d)) /\
            leaves_store SeekStart /\ leaves_store ReadBack;
  ul_versions v : NewVersion v <> None -> proper v;
}.
Context (Hw : upload_laws).

Context (f : ProviderForm) (t : pdb) (protocols : list string) (key : string).
Hypothesis Hform : check_form f = inr (protocols, key).

Definition dir : string := version_dir (pf_Namespace f) (pf_Type f) (pf_Version f).
Definition sums_of : res (option string) := readOptionalMultipartFile "shasums_file" (pf_Shasums f).
Definition sig_of : res (option string) := readOptionalMultipartFile "shasums_signature_file" (pf_Signature f).

(** The version's row with the keys of the files that were given. *)
Definition signed_row (v : ProviderVersionRow) : ProviderVersionRow :=
  match sums_of with
  | Ok (Some _) => set_signature_storage (Some (dir +:+ "SHA256SUMS"))
                     match sig_of with Ok (Some _) => Some (dir +:+ "SHA256SUMS.sig") | _ => None end v
  | _ => v
  end.

(** The form's names are names. *)
Lemma form_names :
  segment (pf_Namespace f) /\ segment (pf_Type f) /\ proper (pf_Version f) /\
  In (pf_OS f) SupportedOS /\ In (pf_Arch f) SupportedArch.
Proof.
  unfold check_form in Hform. case_match; [done|]. bools.
  destruct (invalid_segment _) as [x|] eqn:E; [done|].
  assert (Hseg : forall k v, In (k, v) [("namespace", pf_Namespace f); ("type", pf_Type f)] -> segment v).
  { intros k v Hin. unfold invalid_segment in E. apply fmap_None in E.
    assert (Hin' : In (k, v) (map_range [("namespace", pf_Namespace f); ("type", pf_Type f)])).
    { rewrite <- list_elem_of_In in *. by rewrite <- (map_range_perm _ _). }
    pose proof (List.find_none _ _ E _ Hin') as Hv. cbn in Hv. unfold ValidateRegistrySegment in Hv.
    unfold segment. by destruct (reRegistrySegment v). }
  split; [by eapply Hseg; left|]. split; [by eapply Hseg; right; left|].
  destruct (ValidateSemver (pf_Version f)) eqn:Ev; [done|].
  split. { apply (ul_versions Hw). unfold ValidateSemver in Ev. by destruct (NewVersion (pf_Version f)). }
  destruct (ValidatePlatform (pf_OS f) (pf_Arch f)) eqn:Ep; [done|]. by apply platform_accepted_iff.
Qed.

Lemma dir_keys :
  file_key (dir +:+ "SHA256SUMS") /\ file_key (dir +:+ "SHA256SUMS.sig") /\ file_key (binary_path f) /\
  dir +:+ "SHA256SUMS.sig" <> dir +:+ "SHA256SUMS" /\
  binary_path f <> dir +:+ "SHA256SUMS" /\ binary_path f <> dir +:+ "SHA256SUMS.sig".
Proof.
  destruct form_names as (Hns & Hty & Hv & Ho & Ha). destruct sums_last as [Hl1 Hl2].
  pose proof (platform_proper _ _ Ho Ha) as Hl3. destruct (platform_not_sums (pf_OS f) (pf_Arch f) Ho) as [Hn1 Hn2].
  split_and!; try by apply dir_key.
  - by intros E%append_inj_l.
  - by intros E%append_inj_l.
  - by intros E%append_inj_l.
Qed.

(** States of a store that is sane. *)
Definition calmly (Q : pdb -> store_map -> Prop) (s : S') : Prop := sane (pext s) /\ Q (ptab s) (content (pext s)).

(** The postconditions look at a store key by key. *)
Definition pointwise (Q : pdb -> store_map -> Prop) : Prop :=
  forall tb m m', (forall k, m' k = m k) -> Q tb m -> Q tb m'.

Lemma quiet_call {A} (c : prog Y A) Q :
  leaves_store c -> pointwise Q -> triple (calmly Q) (out c) (fun _ => calmly Q).
Proof.
  intros Hc HQ. apply triple_out. intros tb y [Hs Hq]. destruct (Hc y Hs) as [Hs' He].
  split; [exact Hs' | by eapply HQ].
Qed.

(** A file stored under a key of its own. *)
Lemma stored k data (Q R : pdb -> store_map -> Prop) :
  file_key k ->
  (forall tb m m', same_but k m m' -> Q tb m -> Q tb m') ->
  (forall tb m, Q tb m -> m k = Some data -> R tb m) ->
  triple (calmly Q) (out (be_Upload k (data, None) (Z.of_nat (String.length data))))
    (fun r s => match r with
                | Ok u => ur_Path u = k /\ ur_Size u = Z.of_nat (String.length data) /\ calmly R s
                | Err _ => True
                end).
Proof.
  intros Hk HQ HR. apply triple_out. intros tb y [Hs Hq]. cbn.
  destruct (upload_law k (data, None) (Z.of_nat (String.length data)) y Hs Hk) as (Hs' & Hb & Hu).
  destruct (fst (be_Upload k (data, None) _ y)) as [u|e]; [|done].
  destruct (Hu u eq_refl) as (Hc & _ & ->). cbn in *. split_and!; [done|done|].
  split; [exact Hs' | apply HR; [by eapply HQ | exact Hc]].
Qed.

Lemma rows_only {A} op (g : pdb -> res A * pdb) Q (R : A -> pdb -> store_map -> Prop) :
  (forall tb m, Q tb m -> forall a, fst (g tb) = Ok a -> R a (snd (g tb)) m) ->
  triple (calmly Q) (psql op g : P (res A))
    (fun r s => match r with Ok a => calmly (R a) s | Err _ => True end).
Proof.
  intros Hg. apply triple_psql; [done|]. intros tb y [Hs Hq]. cbn.
  destruct (fst (g tb)) as [a|e] eqn:E; [|done]. split; [exact Hs | by apply Hg].
Qed.

(** *** Step by step *)

Definition begun (tb : pdb) (m : store_map) : Prop := provider_versions tb = provider_versions t.

Definition names_provider (p : Provider) : Prop := pr_Namespace p = pf_Namespace f /\ pr_Type p = pf_Type f.

Lemma ensured_provider org :
  triple (calmly begun) (ensure_provider org f)
    (fun r s => match r with inr p => names_provider p /\ calmly begun s | inl r => fst r <> 201 end).
Proof.
  unfold ensure_provider. eapply triple_bind.
  { apply (rows_only _ _ begun (fun o tb m => begun tb m /\ match o with Some p => names_provider p | None => True end)).
    intros tb m Hb o [= <-]. split; [exact Hb|].
    assert (Hn : forall p, In p (rev (List.filter (ProviderRepository.named (pf_Namespace f) (pf_Type f)) (providers tb))) ->
                 names_provider p).
    { intros p Hin. apply in_rev, filter_In in Hin as [_ Hin]. unfold ProviderRepository.named in Hin. bools. done. }
    destruct (List.find _ _) as [p|] eqn:E; [by apply find_some in E as [? _]; apply Hn|].
    destruct (List.find _ _) as [p|] eqn:E' in |- *; [|done]. by apply find_some in E' as [? _]; apply Hn. }
  intros [[p|]|e].
  - eapply (triple_bind _ (fun r s => names_provider p /\ match r with Ok _ => calmly begun s | Err _ => True end)).
    + intros w [Hs [Hb Hn]]. split; [exact Hn|]. revert w Hs Hb.
      assert (Hu : triple (calmly begun) (ProviderRepository.UpdateProvider {|
          pr_ID := pr_ID p; pr_OrganizationID := pr_OrganizationID p;
          pr_Namespace := pr_Namespace p; pr_Type := pr_Type p;
          pr_Description := given (pf_Description f) (pr_Description p);
          pr_Source := given (pf_Source f) (pr_Source p) |} : P (res unit))
        (fun r s => match r with Ok _ => calmly begun s | Err _ => True end)).
      { apply (rows_only _ _ begun (fun _ => begun)). intros tb m Hb a. cbn. case_match; [|done]. by destruct tb. }
      intros w Hs Hb. apply Hu. by split.
    + intros [a|e]; apply triple_ret; intros s [? ?]; [by split | done].
  - eapply (triple_bind _ (fun r s => match r with Ok p => names_provider p /\ calmly begun s | Err _ => True end)).
    + unfold ProviderRepository.CreateProvider. eapply triple_bind.
      * eapply triple_weaken; [apply (rows_only _ _ begun (fun _ => begun)) | | by intros ? ? HP; exact HP].
        -- intros tb m Hb a. cbn. case_match; [done|]. by destruct tb.
        -- by intros s [? [? ?]].
      * intros [i|e]; apply triple_ret; [|done]. intros s Hb. by split.
    + intros [p|e]; apply triple_ret; intros s ?; [done | done].
  - by apply triple_ret.
Qed.

(** A version made by this upload has its key. *)
Definition names_version (p : Provider) (v : ProviderVersionRow) : Prop :=
  pv_ProviderID v = pr_ID p /\ pv_Version v = pf_Version f /\
  ((forall v', v' ∈ provider_versions t -> pv_ProviderID v' = pr_ID p -> pv_Version v' <> pf_Version f) ->
   pv_GPGPublicKey v = key).

Definition has_row (row : ProviderVersionRow) (tb : pdb) (m : store_map) : Prop := row ∈ provider_versions tb.

Lemma ensured_version p :
  triple (calmly begun) (ensure_version p f protocols key)
    (fun r s => match r with inr v => names_version p v /\ calmly (has_row v) s | inl r => fst r <> 201 end).
Proof.
  unfold ensure_version. eapply triple_bind.
  { apply (rows_only _ _ begun (fun o tb m => begun tb m /\
      match o with
      | Some v => has_row v tb m /\ names_version p v
      | None => forall v', v' ∈ provider_versions t -> pv_ProviderID v' = pr_ID p -> pv_Version v' <> pf_Version f
      end)).
    intros tb m Hb o [= <-]. cbn. split; [exact Hb|]. unfold begun in Hb. destruct (List.find _ _) as [v|] eqn:E.
    - apply find_some in E as [Hin Hp]. rewrite <- list_elem_of_In in Hin. apply andb_prop in Hp as [Hid%Nat.eqb_eq Hv%String.eqb_eq].
      split; [exact Hin|]. split_and!; [done|done|]. intros Hno. exfalso. rewrite Hb in Hin. by eapply Hno.
    - intros v' Hin Hid Hv. rewrite <- Hb, list_elem_of_In in Hin. pose proof (List.find_none _ _ E v' Hin) as Hf.
      cbn in Hf. by rewrite Hid, Hv, Nat.eqb_refl, String.eqb_refl in Hf. }
  intros [[v|]|e].
  - apply triple_ret. intros s [Hs [_ [Hr Hn]]]. by split.
  - apply (triple_pure _ _ (forall v', v' ∈ provider_versions t -> pv_ProviderID v' = pr_ID p -> pv_Version v' <> pf_Version f));
      [by intros s [_ [_ ?]]|]. intros Hno.
    match goal with |- context [ProviderRepository.CreateVersion ?v] => set (v0 := v) end. cbv zeta.
    eapply triple_bind.
    + apply (rows_only _ _ _ (fun i => has_row (ProviderRepository.with_version_id i v0))).
      intros tb m _ i. unfold ProviderRepository.version_valid. cbn. repeat case_match; try done.
      intros [= <-]. destruct tb; unfold has_row; cbn. apply elem_of_app. right. by left.
    + intros [i|e]; apply triple_ret; [|done]. intros s Hr. by split.
  - by apply triple_ret.
Qed.

(** The files of the version as they were given, and the signature checked. *)
Definition files_stored (m : store_map) : Prop :=
  (forall sums, sums_of = Ok (Some sums) -> m (dir +:+ "SHA256SUMS") = Some sums) /\
  (forall sig, sig_of = Ok (Some sig) -> m (dir +:+ "SHA256SUMS.sig") = Some sig /\
     exists sums, sums_of = Ok (Some sums) /\ VerifySignature key sums sig = None).

Definition version_stored (v : ProviderVersionRow) (tb : pdb) (m : store_map) : Prop :=
  signed_row v ∈ provider_versions tb /\ files_stored m.

Lemma stored_file path (data : option string) (Q R : pdb -> store_map -> Prop) :
  file_key path ->
  (forall tb m m', same_but path m m' -> Q tb m -> Q tb m') ->
  (forall tb m, Q tb m -> (forall d, data = Some d -> m path = Some d) -> R tb m) ->
  triple (calmly Q) (store_file path data)
    (fun r s => match r with Ok o => o = (fun _ => path) <$> data /\ calmly R s | Err _ => True end).
Proof.
  intros Hk HQ HR. unfold store_file. destruct data as [d|].
  - eapply triple_bind.
    + apply (stored path d Q R Hk HQ). intros tb m Hq Hm. apply HR; [done|]. by intros d' [= <-].
    + intros [u|e]; apply triple_ret; [|done]. by intros s (_ & _ & ?).
  - apply triple_ret. intros s [Hs Hq]. split; [done|]. split; [done|]. by apply HR.
Qed.

Lemma upd_row {R} (cond : R -> bool) (upd : R -> R) rows r :
  r ∈ rows -> cond r = true -> upd r ∈ update_rows cond upd rows.
Proof.
  intros Hin Hc. unfold update_rows. apply list_elem_of_fmap. exists r. by rewrite Hc.
Qed.

Lemma signed_files v :
  triple (calmly (has_row v)) (storeUploadedSignatureFiles f v key)
    (fun r s => match r with None => calmly (version_stored v) s | Some r => fst r <> 201 end).
Proof.
  destruct dir_keys as (Hk1 & Hk2 & _ & Hne & _).
  unfold storeUploadedSignatureFiles. cbv zeta. fold dir. fold sums_of. fold sig_of.
  destruct sums_of as [[sums|]|e] eqn:Esums; [| |by apply triple_ret].
  2: { destruct sig_of as [[sig|]|e'] eqn:Esig; apply triple_ret; try done. intros s [Hs Hr].
       split; [exact Hs|]. unfold version_stored, signed_row, files_stored. rewrite Esums, Esig. by split_and!. }
  destruct sig_of as [sig|e'] eqn:Esig; [|by apply triple_ret].
  destruct (match sig with Some _ => _ | None => _ end) as [m|] eqn:Eref; [by apply triple_ret|].
  assert (Hver : forall d, sig = Some d -> VerifySignature key sums d = None).
  { intros d ->. destruct (String.eqb key ""); [done|]. by destruct (VerifySignature key sums d). }
  eapply triple_bind; [apply (stored_file _ (Some sums) (has_row v)
      (fun tb m => has_row v tb m /\ m (dir +:+ "SHA256SUMS") = Some sums) Hk1)|].
  { done. }
  { intros tb m Hr Hm. split; [exact Hr | by apply Hm]. }
  intros [k1|e1]; [|by apply triple_ret].
  apply (triple_pure _ _ (k1 = Some (dir +:+ "SHA256SUMS"))); [by intros s [? _]|]. intros ->.
  eapply triple_bind.
  { eapply triple_weaken; [apply (stored_file _ sig (fun tb m => has_row v tb m /\
      m (dir +:+ "SHA256SUMS") = Some sums) (fun tb m => has_row v tb m /\
      m (dir +:+ "SHA256SUMS") = Some sums /\ forall d, sig = Some d -> m (dir +:+ "SHA256SUMS.sig") = Some d) Hk2)
      | | by intros ? ? HP; exact HP].
    - intros tb m m' Hb [Hr Hm]. split; [exact Hr|]. by rewrite Hb by done.
    - intros tb m [Hr Hm] Hd. by split_and!.
    - by intros s [_ ?]. }
  intros [k2|e2]; [|by apply triple_ret].
  apply (triple_pure _ _ (k2 = (fun _ => dir +:+ "SHA256SUMS.sig") <$> sig)); [by intros s [? _]|]. intros ->.
  eapply (triple_bind _ (fun r s => match r with Ok _ => calmly (version_stored v) s | Err _ => True end)).
  - eapply triple_weaken; [apply (rows_only _ _ (fun tb m => has_row v tb m /\ m (dir +:+ "SHA256SUMS") = Some sums /\
      forall d, sig = Some d -> m (dir +:+ "SHA256SUMS.sig") = Some d) (fun _ => version_stored v))
      | by intros s [_ ?] | done].
    intros tb m (Hr & Hm1 & Hm2) a _. split.
    + unfold signed_row. rewrite Esums, Esig. destruct tb as [ta tb tc td te tg th ti tj tk tn]. cbn.
      destruct sig as [d|]; cbn; (apply upd_row; [exact Hr | apply Nat.eqb_refl]).
    + split; [by rewrite Esums; intros ? [= <-]|]. rewrite Esig. intros d [= ->]. split; [by apply Hm2|].
      exists sums. split; [done | by apply Hver].
  - intros [u|e3]; apply triple_ret; done.
Qed.

Lemma version_stored_elsewhere v tb m m' :
  same_but (binary_path f) m m' -> version_stored v tb m -> version_stored v tb m'.
Proof.
  destruct dir_keys as (_ & _ & _ & _ & Hn1 & Hn2).
  intros Hb [Hr [H1' H2']]. split; [exact Hr|]. split.
  - intros sums E. rewrite Hb by done. by apply H1'.
  - intros sig E. rewrite Hb by done. by apply H2'.
Qed.

(** What an accepted upload says and where it is to be found. *)
Record recorded (filename data : string) (b : pbody) (tb : pdb) (m : store_map) : Prop := {
  rec_rows : exists p v plat, b = PUploaded p v plat filename /\ names_provider p /\ names_version p v /\
    plat ∈ provider_platforms tb /\ pp_ProviderVersionID plat = pv_ID v /\
    pp_OS plat = pf_OS f /\ pp_Arch plat = pf_Arch f /\ pp_Filename plat = filename /\
    pp_StoragePath plat = binary_path f /\ pp_Shasum plat = sha256_hex data /\
    pp_SizeBytes plat = Z.of_nat (String.length data) /\ signed_row v ∈ provider_versions tb;
  rec_binary : m (binary_path f) = Some data;
  rec_files : files_stored m;
}.

Definition accepted_as (filename data : string) (r : preply) (s : S') : Prop :=
  fst r = 201 -> recorded filename data (snd r) (ptab s) (content (pext s)).

Lemma refused filename data status m (Pre : S' -> Prop) :
  (status =? 201) = false -> triple Pre (pfail status m) (accepted_as filename data).
Proof. intros Hne. apply triple_ret. intros s _ E. cbn in E. subst. by rewrite Z.eqb_refl in Hne. Qed.

Lemma binary_stored p v filename data :
  names_provider p -> names_version p v ->
  triple (calmly (version_stored v)) (store_binary cfg p v f filename data) (accepted_as filename data).
Proof.
  intros Hp Hv. destruct dir_keys as (_ & _ & Hk & _). unfold store_binary.
  eapply triple_bind; [apply (rows_only _ _ _ (fun _ => version_stored v)); by intros tb m Hs a _|].
  intros [[pl|]|e]; [by apply refused| |by apply refused].
  eapply triple_bind; [apply (quiet_call _ (version_stored v)); [apply (ul_temp Hw)|]|].
  { intros tb m m' E [Hr [H1' H2']]. split; [exact Hr|]. split; intros x; rewrite E; auto. }
  intros [u|e]; [|by apply refused].
  eapply triple_bind; [apply (stored (binary_path f) data _
    (fun tb m => version_stored v tb m /\ m (binary_path f) = Some data) Hk (version_stored_elsewhere v)); by intros|].
  intros [up|e]; [|by apply refused].
  apply (triple_pure _ _ (ur_Path up = binary_path f /\ ur_Size up = Z.of_nat (String.length data)));
    [by intros s (? & ? & _)|]. intros [Hpath Hsize]. cbv zeta.
  set (row := upload_row cfg f v filename data up).
  eapply (triple_bind _ (fun r s => match r with
    | Ok i => recorded filename data (PUploaded p v (ProviderRepository.with_platform_id i row) filename)
                (ptab s) (content (pext s))
    | Err _ => True end)).
  - eapply triple_weaken; [apply (rows_only _ _ (fun tb m => version_stored v tb m /\ m (binary_path f) = Some data)
      (fun i => recorded filename data (PUploaded p v (ProviderRepository.with_platform_id i row) filename)))
      | by intros s (_ & _ & ?) | by intros [i|e] s; [intros [_ ?]|]].
    intros tb m [[Hr Hf] Hm] i. unfold ProviderRepository.platform_valid. cbn. repeat case_match; try done.
    intros [= <-]. destruct tb as [ta tb tc td te tg th ti tj tk tn]. cbn in *.
    constructor; [|exact Hm|exact Hf].
    exists p, v, (ProviderRepository.with_platform_id tn row). split_and!; try done.
    apply elem_of_app. right. by left.
  - intros [i|e]; [apply triple_ret; by intros s Hr _|].
    eapply (triple_bind _ (fun _ _ => True)); [by intros ? ?|]. intros ?. by apply refused.
Qed.

Lemma registered org filename data :
  triple (calmly begun) (register_provider cfg org f protocols key filename data) (accepted_as filename data).
Proof.
  unfold register_provider. eapply triple_bind; [apply ensured_provider|].
  intros [r|p]; [apply triple_ret; by intros s Hne E|].
  apply (triple_pure _ _ (names_provider p)); [by intros s [? _]|]. intros Hp.
  eapply triple_bind; [eapply triple_weaken; [apply ensured_version | by intros s [_ ?] | by intros ? ? HP; exact HP]|].
  intros [r|v]; [apply triple_ret; by intros s Hne E|].
  apply (triple_pure _ _ (names_version p v)); [by intros s [? _]|]. intros Hv.
  eapply triple_bind; [eapply triple_weaken; [apply signed_files | by intros s [_ ?] | by intros ? ? HP; exact HP]|].
  intros [r|]; [apply triple_ret; by intros s Hne E|]. by apply binary_stored.
Qed.

Lemma begun_pointwise : pointwise begun.
Proof. by intros tb m m' _ Hb. Qed.

Lemma binary_registered filename data :
  triple (calmly begun) (register_binary cfg f protocols key filename data) (accepted_as filename data).
Proof.
  unfold register_binary. case_match; [apply triple_ret|].
  { intros s _ E. rename select (check_size data = _) into Hc. unfold check_size in Hc. cbv zeta in Hc.
    by repeat case_match; simplify_eq/=. }
  eapply triple_bind; [apply (quiet_call _ begun); [apply (ul_temp Hw) | exact begun_pointwise]|].
  intros [u|e]; [|by apply refused]. case_match; [apply triple_ret|].
  { intros s _ E. rename select (check_magic data = _) into Hc. unfold check_magic in Hc.
    by repeat case_match; simplify_eq/=. }
  eapply triple_bind; [apply (quiet_call _ begun); [apply (ul_temp Hw) | exact begun_pointwise]|].
  intros [u'|e]; [|by apply refused].
  eapply triple_bind; [apply (quiet_call _ begun); [apply (ul_temp Hw) | exact begun_pointwise]|].
  intros [h|e]; [|by apply refused]. unfold in_default_org.
  eapply triple_bind; [apply (quiet_call _ begun); [apply (ul_org Hw) | exact begun_pointwise]|].
  intros [[org|]|e]; [apply registered | by apply refused..].
Qed.
End Uploads.

Section Accepted.
Context {Y : Type} `{GoVersion} `{StringsCodec} `{MapRangeLaws} `{GoSort}.
Context `{BackendLaws Y} `{Organizations Y} `{TempFiles Y}.
Context `{Sha256Base64} `{ZipReader} `{OpenPGP}.
Context (cfg : ProvConfig) (Hw : upload_laws (Y := Y)).

(** C8: An accepted upload is recorded as it was sent.  Under any failures of the
    database, when a provider upload is accepted (201): the platform's row names the
    version, the system and the file, and has the SHA-256 and size of the bytes that
    were sent, which are what the storage holds at the row's path; the SHA256SUMS and
    signature files that came along are in the storage and recorded with the version;
    the signature verifies the sums under the form's key; and a version the upload
    created has that key. *)
Theorem accepted_upload_is_recorded (f : ProviderForm) (w : env (pm Y)) :
  sane (pext (st w)) ->
  let r := Upload.UploadHandler cfg (Ok f) w in
  fst (fst r) = 201 ->
  exists protocols key filename data,
    Upload.check_form f = inr (protocols, key) /\ pf_File f = Some (filename, (data, None)) /\
    recorded f (ptab (st w)) key filename data (snd (fst r)) (ptab (st (snd r))) (content (pext (st (snd r)))).
Proof.
  intros Hs r. subst r. unfold Upload.UploadHandler.
  destruct (Upload.check_form f) as [e|[protocols key]] eqn:Hform.
  { intros E. exfalso. unfold Upload.check_form in Hform. by repeat case_match; simplify_eq/=. }
  destruct (pf_File f) as [[filename [data readError]]|] eqn:Hfile; [|done].
  unfold bind. destruct (ul_temp Hw) as (Ht1 & Ht2 & _).
  pose proof (quiet_call CreateTemp (begun (ptab (st w))) Ht1 (begun_pointwise _) w) as Q1.
  destruct (out CreateTemp w) as [[u|e] w1]; [|done]. cbn [fst snd] in *. specialize (Q1 ltac:(by split)).
  pose proof (quiet_call (CopyToTemp data) (begun (ptab (st w))) (Ht2 data) (begun_pointwise _) w1 Q1) as Q2.
  destruct (out (CopyToTemp data) w1) as [[c|e] w2]; [|done]. cbn [fst snd] in *.
  destruct readError; [done|]. intros E. exists protocols, key, filename, data.
  split; [done|]. split; [done|].
  exact (binary_registered cfg Hw f (ptab (st w)) protocols key Hform filename data w2 Q2 E).
Qed.
End Accepted.
