(* ===== verification/PullSafety.v ===== *)
(** * What pull-through puts into the tables

    Versions fetched on a cache miss ([PullThrough]) and the approval gate. *)

From S2P Require Import Prelude GoStrings AutoApprove.
From S2P Require Import TfReleases TfMirrorRepo TfMirrorSync Checksums VersionApproval ProvRepo Upstream ProvSync ProvSchema.
From S2P Require Import Tables PullThrough Hoare.
From stdpp Require Import gmap.

#[local] Open Scope Z_scope.

Section Pulled.
Context {Y : Type} `{GoSort} `{StringsCodec} `{MapRange} `{UpstreamRegistryClient Y}.
Context (t : pdb) (Hs : schema t).
#[local] Abbreviation P := (prog (env (pm Y))).
#[local] Abbreviation S' := (pm Y).

(** Since the start: no tracking row was written, versions were only added. *)
Record pulling (tb : pdb) : Prop := {
  pu_tracking : mirrored_versions tb = mirrored_versions t;
  pu_next : (pnext t <= pnext tb)%nat;
  pu_versions v : v ∈ provider_versions tb -> v ∈ provider_versions t \/ (pnext t <= pv_ID v)%nat;
}.

Lemma pulling_start : pulling t.
Proof. by constructor; [| |left]. Qed.

(** A version added since is not tracked, so the gate lets it through. *)
Lemma added_not_gated tb v : pulling tb -> (pnext t <= pv_ID v)%nat -> ProviderRepository.not_gated tb v = true.
Proof.
  intros [Hm _ _] Hid. unfold ProviderRepository.not_gated. rewrite Hm.
  destruct (has _ _) eqn:E; [|done]. apply has_spec in E as (m & Hin & Hg).
  unfold ProviderRepository.gates in Hg. apply andb_prop in Hg as [Hg%Nat.eqb_eq _].
  pose proof (tracking_versions t Hs) as Hr. unfold refs in Hr. rewrite Forall_forall in Hr.
  rewrite <- list_elem_of_In in Hin. specialize (Hr m Hin).
  pose proof (version_fresh t Hs) as Hf. unfold below in Hf. rewrite Forall_forall in Hf.
  specialize (Hf _ Hr). lia.
Qed.

(** Tables whose versions are [V]. *)
Definition with_rows (V : list ProviderVersionRow) (s : S') : Prop :=
  pulling (ptab s) /\ provider_versions (ptab s) = V.

Lemma out_rows {A} (c : prog Y A) V : triple (with_rows V) (out c) (fun _ => with_rows V).
Proof. by apply triple_out. Qed.

Lemma psql_rows {A} op (g : pdb -> res A * pdb) V :
  (forall tb, pulling tb -> pulling (snd (g tb)) /\ provider_versions (snd (g tb)) = provider_versions tb) ->
  triple (with_rows V) (psql op g) (fun _ => with_rows V).
Proof.
  intros Hg. apply triple_psql; [done|]. intros tb y [Hp HV]. cbn in *. destruct (Hg tb Hp) as [Hp' E].
  split; [exact Hp' | cbn; by rewrite E].
Qed.

Lemma upsert_rows V versionID es :
  triple (with_rows V) (ProviderRepository.upsert_shasums versionID es) (fun _ => with_rows V).
Proof.
  induction es as [|[file hash] es IH]; [by apply triple_ret|]. cbn.
  apply (triple_bind _ (fun _ => with_rows V)); [|intros [u|e]; [exact IH | by apply triple_ret]].
  apply psql_rows. intros tb [Hm Hn Hv]. destruct tb as [ta tb tc td te tg th ti tj tk tn].
  repeat case_match; by (split; [constructor|]).
Qed.

Lemma tx_rows {A} (body : P (res A)) V :
  triple (with_rows V) body (fun _ => with_rows V) -> triple (with_rows V) (ptx body) (fun _ => with_rows V).
Proof.
  intros Hb. unfold ptx.
  eapply (triple_bind _ (fun r s => with_rows V s /\
    forall saved, r = Ok saved -> pulling saved /\ provider_versions saved = V)).
  { apply triple_pquery; [by intros s ?|]. intros tb y [Hp HV]. split; [by split|]. by intros saved [= <-]. }
  intros [saved|e]; [|by apply triple_ret; intros s [? _]].
  apply (triple_pure _ _ (pulling saved /\ provider_versions saved = V)); [by intros s [_ Hsv]; apply Hsv|].
  intros Hsaved.
  assert (Hback : forall s, with_rows V (PM saved (pext s))) by done.
  eapply triple_bind; [eapply triple_weaken; [exact Hb | by intros s [? _] | by intros ? ? HP; exact HP]|].
  intros [a|e].
  - eapply triple_bind; [by apply psql_rows|].
    intros [u|e]; [by apply triple_ret|].
    eapply (triple_bind _ (fun _ => with_rows V)); [by intros w _ | intros ?; by apply triple_ret].
  - eapply (triple_bind _ (fun _ => with_rows V)); [by intros w _ | intros ?; by apply triple_ret].
Qed.

Lemma shasums_rows V base id url :
  triple (with_rows V) (fetchAndStoreShasums base id url) (fun _ => with_rows V).
Proof.
  unfold fetchAndStoreShasums. eapply triple_bind; [apply out_rows|].
  intros [data|e]; [|by apply triple_ret]. cbv zeta. case_match; [by apply triple_ret|].
  unfold ProviderRepository.UpsertProviderVersionShasums. case_match; [by apply triple_ret|].
  apply tx_rows. eapply triple_bind; [by apply psql_rows|].
  intros [u|e]; [apply upsert_rows | by apply triple_ret].
Qed.

(** *** One version *)

Definition pulled_so_far (names : list string) (s : S') : Prop :=
  pulling (ptab s) /\
  forall name, name ∈ names -> exists v, v ∈ provider_versions (ptab s) /\ pv_Version v = name.

Lemma keeps_far {A} op (g : pdb -> res A * pdb) names :
  (forall tb, pulling tb -> pulling (snd (g tb)) /\ sublist (provider_versions tb) (provider_versions (snd (g tb)))) ->
  triple (pulled_so_far names) (psql op g) (fun _ => pulled_so_far names).
Proof.
  intros Hg. apply triple_psql; [done|]. intros tb y [Hp Hn]. cbn in *. destruct (Hg tb Hp) as [Hp' Hsub].
  split; [exact Hp'|]. intros name Hin. destruct (Hn name Hin) as (v & Hv & E). exists v. split; [|done].
  by eapply elem_of_sublist.
Qed.

Lemma rows_far V names s : with_rows V s -> (forall name, name ∈ names -> exists v, v ∈ V /\ pv_Version v = name) ->
  pulled_so_far names s.
Proof. intros [Hp <-] Hn. by split. Qed.

Lemma upserted names pid version protocols u1 u2 k :
  triple (pulled_so_far names) (ProviderRepository.UpsertVersion pid version protocols u1 u2 k)
    (fun r s => match r with
                | Ok v => pulled_so_far (names ++ [version]) s
                | Err _ => pulled_so_far names s
                end).
Proof.
  unfold ProviderRepository.UpsertVersion.
  eapply (triple_bind _ (fun r s => pulled_so_far names s /\
    forall v, r = Ok (Some v) -> v ∈ provider_versions (ptab s) /\ pv_Version v = version)).
  { apply triple_pquery; [by intros s Hp; split|]. intros tb y Hp. split; [exact Hp|]. intros v [= Hf].
    apply find_some in Hf as [Hin Hv]. rewrite list_elem_of_In. cbn. bools. by split. }
  assert (Hadd : forall s v, pulled_so_far names s -> v ∈ provider_versions (ptab s) -> pv_Version v = version ->
                 pulled_so_far (names ++ [version]) s).
  { intros s v [Hp Hn] Hv E. split; [done|]. intros name [Hin | ->%list_elem_of_singleton]%elem_of_app; [by apply Hn | by exists v]. }
  intros [[v|]|e].
  - apply triple_ret. intros s [Hp Hv]. destruct (Hv v eq_refl). by eapply Hadd.
  - match goal with |- context [ProviderRepository.CreateVersion ?v] => set (v0 := v) end. cbv zeta.
    eapply (triple_bind _ (fun r s => match r with
      | Ok i => pulled_so_far (names ++ [version]) s | Err _ => pulled_so_far names s end)).
    + unfold ProviderRepository.CreateVersion, pinsert. apply triple_psql; [by intros s [? _]|].
      intros tb y [[Hp Hn] _]. cbn [ptab] in *. destruct (ProviderRepository.version_valid v0 tb); cbn; [by split|].
      destruct tb as [ta tb tc td te tg th ti tj tk tn], Hp as [Hm Hx Hv]. cbn in *.
      apply (Hadd _ (ProviderRepository.with_version_id tn v0)); [| |done].
      * split.
        -- constructor; cbn; [done|lia|]. intros v [Hin | ->%list_elem_of_singleton]%elem_of_app; [by apply Hv | by right].
        -- intros name Hin. destruct (Hn name Hin) as (v & Hv' & E). exists v. split; [|done]. cbn. apply elem_of_app. by left.
      * cbn. apply elem_of_app. right. by left.
    + intros [i|e]; by apply triple_ret.
  - apply triple_ret. by intros s [? _].
Qed.

Lemma fetched names base pid ns ty v :
  triple (pulled_so_far names) (fetch_version base pid ns ty v)
    (fun ok s => pulled_so_far (if ok : bool then names ++ [uv_Version v] else names) s).
Proof.
  unfold fetch_version. case_match; [by apply triple_ret|].
  eapply (triple_bind _ (fun _ => pulled_so_far names)); [by apply triple_out|].
  intros [pkg|e]; [|by apply triple_ret].
  eapply triple_bind; [apply upserted|]. intros [pv|e]; [|by apply triple_ret].
  eapply (triple_bind _ (fun _ => pulled_so_far (names ++ [uv_Version v]))); [|intros ?; by apply triple_ret].
  case_match; [by apply triple_ret|].
  intros w [Hp Hn]. eapply rows_far; [|exact Hn]. by apply shasums_rows.
Qed.
End Pulled.

Section Available.
Context {Y : Type} `{GoSort} `{StringsCodec} `{MapRange} `{UpstreamRegistryClient Y}.

(** Pull-through publishes without approval.  Whatever fails, every version that a
    fetch reports available is in the tables; and unless it was there before, the
    approval gate lets it through, whether or not the mirror configuration requires
    approval. *)
Theorem pulled_versions_skip_approval (config : MirrorConfiguration) (org : uuid) (ns ty : string)
  (names : list string) (w : env (pm Y)) :
  schema (ptab (st w)) ->
  let r := FetchProviderMetadata config org ns ty w in
  fst r = Ok names ->
  let t' := ptab (st (snd r)) in
  forall name, name ∈ names -> exists v, v ∈ provider_versions t' /\ pv_Version v = name /\
    (v ∈ provider_versions (ptab (st w)) \/ ProviderRepository.not_gated t' v = true).
Proof.
  intros Hs r E t' name Hname. set (t := ptab (st w)) in *.
  assert (Hr : triple (pulled_so_far t []) (FetchProviderMetadata config org ns ty)
    (fun r s => forall names, r = Ok names -> pulled_so_far t names s)).
  { unfold FetchProviderMetadata. cbv zeta.
    eapply (triple_bind _ (fun _ => pulled_so_far t [])); [by apply triple_out|].
    intros [[|v0 vs]|e]; try (apply triple_ret; intros s Hp; by intros ? [= <-]).
    destruct (VersionFilter.ProviderFilter.FilterVersions _ _) as [|v fs]; [apply triple_ret; intros s Hp; by intros ? [= <-]|].
    eapply (triple_bind _ (fun _ => pulled_so_far t [])).
    { unfold ProviderRepository.UpsertProvider.
      eapply (triple_bind _ (fun _ => pulled_so_far t [])); [by apply triple_pquery|].
      intros [[p|]|e]; try by apply triple_ret. unfold ProviderRepository.CreateProvider.
      eapply (triple_bind _ (fun _ => pulled_so_far t [])); [|intros [i|e]; by apply triple_ret].
      apply keeps_far. intros tb [Hm Hn Hv]. case_match; [by split; [constructor|]|].
      destruct tb. split; [|done]. constructor; cbn in *; [done|lia|done]. }
    intros [p|e]; [|apply triple_ret; by intros].
    assert (Hfold : forall l acc, triple (pulled_so_far t acc)
      (fold_prog (fun available v =>
         let! ok := fetch_version (mc_UpstreamRegistryURL config) (pr_ID p) ns ty v in
         ret (if ok : bool then available ++ [uv_Version v] else available)) acc l)
      (fun names => pulled_so_far t names)).
    { induction l as [|x l IH]; intros acc; [by apply triple_ret|]. cbn.
      eapply triple_bind; [|apply IH].
      eapply triple_bind; [by apply fetched|]. intros ok. by apply triple_ret. }
    eapply triple_bind; [apply Hfold|]. intros l. apply triple_ret. by intros s Hp ? [= <-]. }
  assert (H0' : pulled_so_far t [] (st w)) by (split; [apply pulling_start | by intros x Hx%not_elem_of_nil]).
  destruct (Hr w H0' names E) as [Hp Hn].
  destruct (Hn name Hname) as (v & Hv & Ev). exists v. split_and!; [done|done|].
  destruct (pu_versions _ _ Hp v Hv) as [|Hid]; [by left | right]. by eapply added_not_gated.
Qed.
End Available.
