(* ===== verification/ProvRegistryDemo.v ===== *)
(** * The provider registry on a small world

    The interfaces of the provider handlers instantiated on a disk ([Os], through the
    local backend), tables with one published and one withheld version, witnesses of
    the theorems of [ProvRegistrySafety] and [PullSafety], and runs that show where
    the code does not do what its comments say. *)

From S2P Require Import Prelude GoStrings AutoApprove Validation Filepath Os LocalStorage StorageSpec Backend.
From S2P Require Import TfReleases TfMirrorRepo TfMirrorSync Checksums ReleasesKeys VersionApproval ProvRepo Upstream ProvSync ProvSchema.
From S2P Require Import Tables ModuleRegistry PullThrough ProvRegistry Hoare ProvRegistrySafety PullSafety.
From stdpp Require Import gmap.

#[local] Open Scope Z_scope.

Module Demo.

#[export] Instance gosort : GoSort := stable_sort.
#[export] Instance gosort_laws : GoSortLaws := stable_sort_laws.
#[export] Instance version : GoVersion := {|
  gover := gover (GoVersion := release_version);
  gocon := gocon (GoVersion := release_version);
  NewVersion s := if bool_decide (proper s) then NewVersion (GoVersion := release_version) s else None;
  Segments := Segments (GoVersion := release_version);
  GreaterThan := GreaterThan (GoVersion := release_version);
  VEqual := VEqual (GoVersion := release_version);
  NewConstraint := NewConstraint (GoVersion := release_version);
  CheckConstraint := CheckConstraint (GoVersion := release_version) |}.
#[export] Instance strings : StringsCodec := {|
  unmarshal_strings s := Ok [s]; marshal_strings l := Ok (String.concat "," l) |}.
#[export] Instance range : MapRange := fun _ l => l.
#[export] Instance range_laws : MapRangeLaws.
Proof. by intros A l. Qed.
#[export] Instance sha : Sha256 := fun d => "sha-" +:+ d.
#[export] Instance sha64 : Sha256Base64 := fun d => "b64-" +:+ d.
#[export] Instance zip : ZipReader := fun d => Ok [("terraform-provider", Ok d)].

(** A signature of [data] by [key] is their concatenation. *)
#[export] Instance pgp : OpenPGP := {|
  keyring := string; ReadArmoredKeyRing k := Ok k; armor_Decode _ := None;
  CheckDetachedSignature k data sig := if String.eqb sig (k +:+ ":" +:+ data) then None else Some (ErrExt "signature") |}.
#[export] Instance pgp_entities : OpenPGPEntities := fun k => [].
#[export] Instance key_ids : PgpKeyIds := fun _ => "KEYID".
#[export] Instance release_keys : ReleaseKeys := {|
  ResolveReleasesKey _ := ""; HashiCorpReleasesGPGKey := "HC"; OpenTofuReleasesGPGKey := "OT" |}.

Definition registry : LocalStorage := {| basePath := "/srv/registry"; serveDirectly := true; baseURL := "" |}.
Lemma disk_is_named : named registry.
Proof. by exists ["srv"], "registry". Qed.
#[export] Instance backend : Backend (env fs) := local_backend [] 0 registry.
#[export] Instance backend_laws : BackendLaws (env fs) := local_backend_laws [] 0 registry disk_is_named.
#[export] Instance organizations : Organizations (env fs) := ret (Ok (Some 7%nat)).
#[export] Instance temp : TempFiles (env fs) := {|
  CreateTemp := ret (Ok tt); CopyToTemp _ := ret (Ok tt); SeekStart := ret (Ok tt);
  ReadBack := ret (Ok tt) |}.
#[export] Instance notices : Notices (env fs) := {|
  module_published _ _ _ _ := ret tt; audit_download _ _ := ret tt |}.
#[export] Instance contents : DocContents (env fs) := fun _ => ret (Ok "# page").

(** Upstream has one version for one system, and signs nothing. *)
#[export] Instance upstream : UpstreamRegistryClient (env fs) := {|
  DiscoverServices _ := ret (Ok "");
  ListProviderVersions _ _ _ := ret (Ok [{| uv_Version := "1.0.0"; uv_Protocols := ["5.0"];
    uv_Platforms := [{| up_OS := "linux"; up_Arch := "amd64" |}] |}]);
  GetProviderPackage _ _ _ _ _ _ := ret (Ok {|
    pkg_Filename := "terraform-provider-aws_1.0.0_linux_amd64.zip"; pkg_DownloadURL := "https://up/d";
    pkg_SHASumsURL := "https://up/r/SHA256SUMS"; pkg_SHASumsSignatureURL := "https://up/r/SHA256SUMS.sig";
    pkg_SHA256Sum := "abc"; pkg_GPGPublicKeys := [] |});
  DownloadFile _ _ := ret (Ok "abc  terraform-provider-aws_1.0.0_linux_amd64.zip");
  DownloadFileStream _ _ := ret (Err (ErrExt "http"));
  GetProviderDocIndexByVersion _ _ _ _ := ret (Ok []) |}.

Definition cfg : ProvConfig := {| pc_DefaultBackend := "local"; pc_ServeDirectly := true |}.

(** ** A published version 1.0.0 and a withheld version 2.0.0 *)

Definition demo_version_row (id : uuid) (name : string) : ProviderVersionRow := {|
  pv_ID := id; pv_ProviderID := 1%nat; pv_Version := name; pv_Protocols := ["5.0"]; pv_GPGPublicKey := "";
  pv_ShasumURL := "https://up/r/SHA256SUMS"; pv_ShasumSignatureURL := ""; pv_ShasumStorageKey := None;
  pv_ShasumSignatureStorageKey := None; pv_Deprecated := false |}.
Definition platform_of (id v : uuid) (name : string) : ProviderPlatformRow := {|
  pp_ID := id; pp_ProviderVersionID := v; pp_OS := "linux"; pp_Arch := "amd64"; pp_Filename := "p.zip";
  pp_StoragePath := "providers/acme/null/" +:+ name +:+ "/linux/amd64/p.zip"; pp_StorageBackend := "local";
  pp_SizeBytes := 3; pp_Shasum := "sha-" +:+ name; pp_H1Hash := None; pp_DownloadCount := 0 |}.
Definition sum_row (v : uuid) (file : string) : ProviderVersionShasum := {|
  ps_ProviderVersionID := v; ps_Filename := file; ps_SHA256Hex := "hex" |}.
Definition doc_page (v : uuid) : ProviderVersionDoc := {|
  pd_ProviderVersionID := v; pd_UpstreamDocID := "d1"; pd_Title := "secret"; pd_Slug := "index";
  pd_Category := "overview"; pd_Subcategory := None; pd_Path := None; pd_Language := "hcl" |}.
Definition tracking_row (id v : uuid) (name status : string) : MirroredProviderVersion := {|
  mpv_ID := id; mpv_MirroredProviderID := 6%nat; mpv_ProviderVersionID := v; mpv_UpstreamVersion := name;
  mpv_SyncedAt := 0; mpv_ShasumVerified := true; mpv_GPGVerified := true; mpv_ApprovalStatus := Some status |}.
Definition config : MirrorConfiguration := {|
  mc_ID := 9%nat; mc_Name := "m"; mc_UpstreamRegistryURL := "https://up"; mc_OrganizationID := Some 7%nat;
  mc_NamespaceFilter := None; mc_ProviderFilter := None; mc_VersionFilter := None; mc_PlatformFilter := None;
  mc_Enabled := true; mc_SyncIntervalHours := 24; mc_RequiresApproval := true; mc_AutoApproveRules := None;
  mc_PullThroughEnabled := true; mc_LastSyncAt := None; mc_LastSyncStatus := None; mc_LastSyncError := None |}.

Definition tables : pdb := PDB [config]
  [{| pr_ID := 1%nat; pr_OrganizationID := Some 7%nat; pr_Namespace := "acme"; pr_Type := "null";
      pr_Description := None; pr_Source := None |}]
  [demo_version_row 2%nat "1.0.0"; demo_version_row 3%nat "2.0.0"]
  [platform_of 4%nat 2%nat "1.0.0"; platform_of 5%nat 3%nat "2.0.0"]
  [sum_row 2%nat "terraform-provider-null_1.0.0_linux_amd64.zip"; sum_row 2%nat "terraform-provider-null_1.0.0_darwin_arm64.zip";
   sum_row 2%nat "terraform-provider-null_1.0.0_manifest.json"; sum_row 3%nat "terraform-provider-null_2.0.0_darwin_arm64.zip"]
  [doc_page 3%nat]
  [{| mp_ID := 6%nat; mp_MirrorConfigID := 9%nat; mp_ProviderID := 1%nat; mp_UpstreamNamespace := "acme";
      mp_UpstreamType := "null"; mp_LastSyncedAt := 0; mp_LastSyncVersion := None; mp_SyncEnabled := true |}]
  [tracking_row 11%nat 2%nat "1.0.0" "approved"; tracking_row 12%nat 3%nat "2.0.0" "pending_approval"] [] [] 20%nat.

Lemma demo_tables_schema : schema tables.
Proof. constructor; first [by constructor | apply (bool_decide_unpack _); by vm_compute]. Qed.

Lemma tables_tracked : tracked tables.
Proof.
  constructor; [apply (bool_decide_unpack _); by vm_compute|].
  intros m s Hm. cbn in Hm. rewrite !elem_of_cons, elem_of_nil in Hm. destruct Hm as [-> | [-> | []]]; cbn; intros [= <-]; auto.
Qed.

Definition disk : env fs := quiet (Fs (list_to_map [
  (["srv"], Dir); (["srv"; "registry"], Dir); (["srv"; "registry"; "providers"], Dir);
  (["srv"; "registry"; "providers"; "acme"], Dir); (["srv"; "registry"; "providers"; "acme"; "null"], Dir);
  (["srv"; "registry"; "providers"; "acme"; "null"; "2.0.0"], Dir);
  (["srv"; "registry"; "providers"; "acme"; "null"; "2.0.0"; "linux"], Dir);
  (["srv"; "registry"; "providers"; "acme"; "null"; "2.0.0"; "linux"; "amd64"], Dir);
  (["srv"; "registry"; "providers"; "acme"; "null"; "2.0.0"; "linux"; "amd64"; "p.zip"], File "bin");
  (["srv"; "registry"; "providers"; "acme"; "null"; "1.0.0"], Dir);
  (["srv"; "registry"; "providers"; "acme"; "null"; "1.0.0"; "linux"], Dir);
  (["srv"; "registry"; "providers"; "acme"; "null"; "1.0.0"; "linux"; "amd64"], Dir);
  (["srv"; "registry"; "providers"; "acme"; "null"; "1.0.0"; "linux"; "amd64"; "p.zip"], File "pub")]) []).
Definition world : env (pm (env fs)) := quiet (PM tables disk).

(** ** Witnesses *)

Lemma hidden_versions_are_absent_witness :
  let q := CDownload "acme" "null" "2.0.0" "linux" "amd64" in
  fst (answer cfg true None false q world) = (404, PError "Provider version not found") /\
  fst (answer cfg true None false q world) = fst (answer cfg true None false q (quiet (PM (conceal tables) disk))).
Proof.
  split; [by vm_compute|].
  exact (proj1 (hidden_versions_are_absent cfg true None (CDownload "acme" "null" "2.0.0" "linux" "amd64")
                  tables disk 0 [] demo_tables_schema tables_tracked)).
Defined.

Lemma download_serves_what_is_approved_witness :
  exists org, download_source tables org "acme" "null" "1.0.0" "linux" "amd64"
    (snd (fst (Protocol.DownloadHandler true "acme" "null" "1.0.0" "linux" "amd64" world))).
Proof.
  apply (download_serves_what_is_approved true "acme" "null" "1.0.0" "linux" "amd64" world tables_tracked).
  by vm_compute.
Defined.


(** ** The gate of the file route

    The canonical path of the withheld binary is refused.  With a dot segment in
    front the path names no provider file, and the storage cleans it; and any look-up
    that fails leaves the file open. *)

Definition fetch (path : string) (w : env (pm (env fs))) := fst (Files.ServeFileHandler true true path w).

Example withheld_file_is_refused :
  fetch "/providers/acme/null/2.0.0/linux/amd64/p.zip" world = (404, PError "File not found").
Proof. by vm_compute. Qed.

Example dot_segment_opens_the_gate :
  fetch "/providers/./acme/null/2.0.0/linux/amd64/p.zip" world = (200, PFile "sha-bin" 3 ("bin", None)) /\
  fetch "/./providers/acme/null/2.0.0/linux/amd64/p.zip" world = (200, PFile "sha-bin" 3 ("bin", None)).
Proof. by vm_compute. Qed.

Example failed_look_up_opens_the_gate :
  fetch "/providers/acme/null/2.0.0/linux/amd64/p.zip" (Env (st world) [true] 0 []) = (200, PFile "sha-bin" 3 ("bin", None)).
Proof. by vm_compute. Qed.

(** The documentation of a withheld version is served to everyone. *)
Example withheld_version_shows_its_docs :
  fst (Protocol.ListProviderDocsHandler "acme" "null" "2.0.0" "" "" "100" "0" world) =
    (200, PDocs [doc_page 3%nat] ["overview"] 1 100 0).
Proof. by vm_compute. Qed.

(** ** Pull-through *)

Definition bare : pdb := PDB [config] [] [] [] [] [] [] [] [] [] 20%nat.
Lemma bare_schema : schema bare.
Proof. constructor; first [by constructor | apply (bool_decide_unpack _); by vm_compute]. Qed.
Definition bare_world : env (pm (env fs)) := quiet (PM bare disk).

(** The configuration requires approval, and the first request publishes. *)
Example pulled_version_is_served_at_once :
  mc_RequiresApproval config = true /\
  fst (answer cfg true None true (CIndex "hashicorp" "aws") bare_world) = (200, PIndex {["1.0.0"]}) /\
  fst (fst (answer cfg true None true (CPlatforms "hashicorp" "aws" "1.0.0.json" "") bare_world)) = 200.
Proof. split; [done|]. split; [|by vm_compute]. by vm_compute. Qed.

Lemma pulled_versions_skip_approval_witness :
  exists v, v ∈ provider_versions (ptab (st (snd (FetchProviderMetadata config 7%nat "hashicorp" "aws" bare_world)))) /\
    pv_Version v = "1.0.0".
Proof.
  assert (E : fst (FetchProviderMetadata config 7%nat "hashicorp" "aws" bare_world) = Ok ["1.0.0"]) by (vm_compute; reflexivity).
  pose proof (pulled_versions_skip_approval config 7%nat "hashicorp" "aws" ["1.0.0"] bare_world bare_schema E
    "1.0.0" (list_elem_of_here _ _)) as (v & Hv & Hn & _).
  exists v. exact (conj Hv Hn).
Defined.

(** ** Uploads *)

Definition armored (k : string) : string := begin_marker +:+ k +:+ end_marker.
Definition signed (k sums : string) : string := NormalizeGPGKey (armored k) +:+ ":" +:+ sums.
Definition file_of (text : string) : form_file := AFile (Z.of_nat (String.length text)) (text, None).
Definition binary (text : string) : string := String "P" (String "K" (String "003" (String "004" text))).

Definition form (os k : string) (sums sig : form_file) : ProviderForm := {|
  pf_Namespace := "acme"; pf_Type := "fresh"; pf_Version := "1.0.0"; pf_OS := os; pf_Arch := "amd64";
  pf_Protocols := ""; pf_GPGPublicKey := armored k; pf_Description := ""; pf_Source := "";
  pf_File := Some ("f.zip", (binary os, None)); pf_Shasums := sums; pf_Signature := sig |}.

Definition upload (f : ProviderForm) (w : env (pm (env fs))) := Upload.UploadHandler cfg (Ok f) w.
Definition first_form := form "linux" "K1" (file_of "s1") (file_of (signed "K1" "s1")).

Lemma demo_laws : upload_laws (Y := env fs).
Proof.
  constructor; [apply leaves_ret | split_and!; intros; apply leaves_ret |].
  intros v. unfold NewVersion. cbn. by case_bool_decide.
Qed.

Lemma disk_sane : sane (pext (st world)).
Proof. apply closedb_sound. vm_compute. reflexivity. Qed.

Lemma accepted_upload_is_recorded_witness :
  fst (fst (upload first_form world)) = 201 /\
  content (pext (st (snd (upload first_form world)))) "providers/acme/fresh/1.0.0/linux_amd64.zip" = Some (binary "linux").
Proof.
  assert (E : fst (fst (upload first_form world)) = 201) by (vm_compute; reflexivity).
  split; [exact E|].
  destruct (accepted_upload_is_recorded cfg demo_laws first_form world disk_sane E)
    as (protocols & key & filename & data & _ & Hf & Hr).
  injection Hf as <- <-. exact (rec_binary _ _ _ _ _ _ _ _ Hr).
Defined.

(** What clients verify with: the key of the row and the stored files. *)
Definition row_key (w : env (pm (env fs))) : list string :=
  pv_GPGPublicKey <$> List.filter (fun v => String.eqb (pv_Version v) "1.0.0" && (19 <? pv_ID v)%nat) (provider_versions (ptab (st w))).
Definition stored_sums (w : env (pm (env fs))) := content (pext (st w)) "providers/acme/fresh/1.0.0/SHA256SUMS".
Definition stored_sig (w : env (pm (env fs))) := content (pext (st w)) "providers/acme/fresh/1.0.0/SHA256SUMS.sig".

Definition after_first := snd (upload first_form world).

(** A second platform with new files and a new key: both files are replaced, the key
    of the version is not, and the new signature does not verify under it. *)
Example rotated_key_is_not_recorded :
  let w := snd (upload (form "darwin" "K2" (file_of "s2") (file_of (signed "K2" "s2"))) after_first) in
  stored_sums w = Some "s2" /\ stored_sig w = Some (signed "K2" "s2") /\
  row_key w = [NormalizeGPGKey (armored "K1")] /\
  VerifySignature (NormalizeGPGKey (armored "K1")) "s2" (signed "K2" "s2") <> None.
Proof. by vm_compute. Qed.

(** A second platform with new sums and no signature: the old signature stays, and
    does not verify the new sums. *)
Example unsigned_sums_keep_the_old_signature :
  let w := snd (upload (form "darwin" "K1" (file_of "s2") NoFile) after_first) in
  stored_sums w = Some "s2" /\ stored_sig w = Some (signed "K1" "s1") /\
  VerifySignature (NormalizeGPGKey (armored "K1")) "s2" (signed "K1" "s1") <> None.
Proof. by vm_compute. Qed.

(** A refused signature leaves a version without platforms in the listing; a refused
    duplicate has replaced the signature files. *)
Example refused_signature_publishes_the_version :
  let r := upload (form "linux" "K1" (file_of "s1") (file_of "forged")) world in
  fst (fst r) = 400 /\
  (match fst (Protocol.ListVersionsHandler "acme" "fresh" "100" "0" (snd r)) with
   | (200, PVersions vs _ _ _) => (fun l => (pv_Version (lv_Version l), length (lv_Platforms l))) <$> vs
   | _ => []
   end) = [("1.0.0", 0%nat)].
Proof. by vm_compute. Qed.

Example refused_duplicate_replaces_the_files :
  let r := upload (form "linux" "K2" (file_of "s2") (file_of (signed "K2" "s2"))) after_first in
  fst (fst r) = 409 /\ stored_sums (snd r) = Some "s2".
Proof. by vm_compute. Qed.
End Demo.
