(* ===== verification/IpAddr.v ===== *)
(** * IP addresses: Go's [net] and [net/netip]

    What the outgoing address guard calls of the standard library: the text of an
    address ([net.ParseIP], [IP.String], [ParseCIDR], [SplitHostPort],
    [JoinHostPort]), the classes of addresses ([IsLoopback], ...) and membership in a
    network.  A [net.IP] is a byte slice of length 4 or 16.  The second half reads an
    address as one 128-bit number, an IPv4 address as its IPv4-mapped IPv6 address,
    and describes networks and classes as ranges of numbers with a common prefix. *)

From S2P Require Import Prelude GoStrings.
From stdpp Require Import list.
#[local] Open Scope Z_scope.

Definition IP := list Z.

(** ** Classes of addresses *)
Definition v4InV6Prefix : IP := [0; 0; 0; 0; 0; 0; 0; 0; 0; 0; 255; 255].

Definition To4 (ip : IP) : option IP :=
  if (length ip =? 4)%nat then Some ip
  else if ((length ip =? 16)%nat && bool_decide (take 12 ip = v4InV6Prefix))%bool
  then Some (drop 12 ip)
  else None.

Definition ip_Equal (ip x : IP) : bool :=
  if (length ip =? length x)%nat then bool_decide (ip = x)
  else if ((length ip =? 4)%nat && (length x =? 16)%nat)%bool then bool_decide (v4InV6Prefix ++ ip = x)
  else if ((length ip =? 16)%nat && (length x =? 4)%nat)%bool then bool_decide (ip = v4InV6Prefix ++ x)
  else false.

(** [net.IPv4(a, b, c, d)], 16 bytes long. *)
Definition IPv4 (a b c d : Z) : IP := v4InV6Prefix ++ [a; b; c; d].
Definition IPv4zero : IP := IPv4 0 0 0 0.
Definition IPv4bcast : IP := IPv4 255 255 255 255.
Definition IPv6unspecified : IP := repeat 0 16.
Definition IPv6loopback : IP := repeat 0 15 ++ [1].

(** The byte at an index; every index below is in range. *)
Definition byte_at (ip : IP) (i : nat) : Z := nth i ip 0.
Definition long (ip : IP) : bool := (length ip =? 16)%nat.

Definition IsUnspecified (ip : IP) : bool := ip_Equal ip IPv4zero || ip_Equal ip IPv6unspecified.

Definition IsLoopback (ip : IP) : bool :=
  match To4 ip with
  | Some ip4 => byte_at ip4 0 =? 127
  | None => ip_Equal ip IPv6loopback
  end.

Definition IsPrivate (ip : IP) : bool :=
  match To4 ip with
  | Some ip4 =>
      (byte_at ip4 0 =? 10) ||
      ((byte_at ip4 0 =? 172) && (Z.land (byte_at ip4 1) 240 =? 16)) ||
      ((byte_at ip4 0 =? 192) && (byte_at ip4 1 =? 168))
  | None => long ip && (Z.land (byte_at ip 0) 254 =? 252)
  end.

Definition IsMulticast (ip : IP) : bool :=
  match To4 ip with
  | Some ip4 => Z.land (byte_at ip4 0) 240 =? 224
  | None => long ip && (byte_at ip 0 =? 255)
  end.

Definition IsLinkLocalMulticast (ip : IP) : bool :=
  match To4 ip with
  | Some ip4 => (byte_at ip4 0 =? 224) && (byte_at ip4 1 =? 0) && (byte_at ip4 2 =? 0)
  | None => long ip && (byte_at ip 0 =? 255) && (Z.land (byte_at ip 1) 15 =? 2)
  end.

Definition IsLinkLocalUnicast (ip : IP) : bool :=
  match To4 ip with
  | Some ip4 => (byte_at ip4 0 =? 169) && (byte_at ip4 1 =? 254)
  | None => long ip && (byte_at ip 0 =? 254) && (Z.land (byte_at ip 1) 192 =? 128)
  end.

(** ** Networks *)
Record IPNet := { net_IP : IP; net_Mask : list Z }.

(** [^byte(0xff >> n)] *)
Definition high_bits (n : nat) : Z := 255 - Z.shiftr 255 (Z.of_nat n).

(** [CIDRMask(n, 8*k)] *)
Fixpoint cidr_mask (n k : nat) : list Z :=
  match k with
  | O => []
  | S k' => if (8 <=? n)%nat then 255 :: cidr_mask (n - 8) k' else high_bits n :: cidr_mask 0 k'
  end.

Definition apply_mask : list Z -> list Z -> list Z := zip_with Z.land.

(** [IP.Mask] *)
Definition ip_Mask (ip : IP) (mask : list Z) : IP :=
  let mask := if ((length mask =? 16)%nat && (length ip =? 4)%nat &&
                  forallb (Z.eqb 255) (take 12 mask))%bool then drop 12 mask else mask in
  let ip := if ((length mask =? 4)%nat && (length ip =? 16)%nat &&
                bool_decide (take 12 ip = v4InV6Prefix))%bool then drop 12 ip else ip in
  if (length ip =? length mask)%nat then apply_mask ip mask else [].

Definition networkNumberAndMask (n : IPNet) : IP * list Z :=
  let ip := match To4 (net_IP n) with Some ip4 => Some ip4 | None => if long (net_IP n) then Some (net_IP n) else None end in
  match ip with
  | None => ([], [])
  | Some ip =>
      if (length (net_Mask n) =? 4)%nat then
        if (length ip =? 4)%nat then (ip, net_Mask n) else ([], [])
      else if (length (net_Mask n) =? 16)%nat then
        (ip, if (length ip =? 4)%nat then drop 12 (net_Mask n) else net_Mask n)
      else ([], [])
  end.

Definition Contains (n : IPNet) (ip : IP) : bool :=
  let '(nn, m) := networkNumberAndMask n in
  let ip := default ip (To4 ip) in
  (length ip =? length nn)%nat && bool_decide (apply_mask nn m = apply_mask ip m).

(** ** Text of an address: [netip.ParseAddr] *)
Inductive netip_addr :=
| Addr4 (b : IP)
| Addr6 (b : IP) (zone : string).

(** One field of a dotted address: [digLen] digits of value [val] so far. *)
Fixpoint ipv4_field (digLen : nat) (val : Z) (s : string) : option Z :=
  match s with
  | EmptyString => if (digLen =? 0)%nat then None else Some val
  | String c s' =>
      match digit c with
      | None => None
      | Some d =>
          if ((digLen =? 1)%nat && (val =? 0))%bool then None
          else let val := val * 10 + d in
               if 255 <? val then None else ipv4_field (S digLen) val s'
      end
  end.

Definition parseIPv4Fields (s : string) : option (list Z) :=
  match split_on "."%char s with
  | [a; b; c; d] => mapM (ipv4_field 0 0) [a; b; c; d]
  | _ => None
  end.

Definition hex_digit (c : ascii) : option Z :=
  let n := Z.of_nat (nat_of_ascii c) in
  if (48 <=? n) && (n <=? 57) then Some (n - 48)
  else if (97 <=? n) && (n <=? 102) then Some (n - 87)
  else if (65 <=? n) && (n <=? 70) then Some (n - 55)
  else None.

(** The hexadecimal digits at the front: how many, their value, what follows. *)
Fixpoint hex_run (off : nat) (acc : Z) (s : string) : option (nat * Z * string) :=
  match s with
  | String c s' =>
      match hex_digit c with
      | Some d => if (3 <? off)%nat then None else hex_run (S off) (acc * 16 + d) s'
      | None => Some (off, acc, s)
      end
  | EmptyString => Some (off, acc, s)
  end.

Definition starts (c : ascii) (s : string) : option string :=
  match s with String d s' => if Ascii.eqb c d then Some s' else None | EmptyString => None end.

(** The loop of [parseIPv6] with [n] groups to go: the bytes read, where the
    ellipsis stands, and the rest of the text. *)
Fixpoint ipv6_groups (n : nat) (ip : list Z) (ellipsis : option nat) (s : string)
  : option (list Z * option nat * string) :=
  match n with
  | O => Some (ip, ellipsis, s)
  | S n' =>
      match hex_run 0 0 s with
      | None => None
      | Some (off, acc, rest) =>
          if (off =? 0)%nat then None
          else if has_prefix rest "." then
            if ((match ellipsis with None => true | _ => false end) && negb (length ip =? 12)%nat)%bool then None
            else if (16 <? length ip + 4)%nat then None
            else match parseIPv4Fields s with
                 | None => None
                 | Some fields => Some (ip ++ fields, ellipsis, "")
                 end
          else
            let ip := ip ++ [Z.shiftr acc 8; Z.land acc 255] in
            if String.eqb rest "" then Some (ip, ellipsis, "")
            else match starts ":"%char rest with
                 | None => None
                 | Some rest =>
                     if String.eqb rest "" then None
                     else match starts ":"%char rest with
                          | None => ipv6_groups n' ip ellipsis rest
                          | Some rest =>
                              match ellipsis with
                              | Some _ => None
                              | None =>
                                  if String.eqb rest "" then Some (ip, Some (length ip), "")
                                  else ipv6_groups n' ip (Some (length ip)) rest
                              end
                          end
                 end
      end
  end.

(** Expand the ellipsis. *)
Definition ipv6_bytes (r : list Z * option nat * string) : option IP :=
  let '(ip, ellipsis, s) := r in
  if negb (String.eqb s "") then None
  else match ellipsis with
       | None => if (length ip <? 16)%nat then None else Some ip
       | Some e => if (length ip <? 16)%nat
                   then Some (take e ip ++ repeat 0 (16 - length ip) ++ drop e ip) else None
       end.

Definition parseIPv6 (s : string) : option netip_addr :=
  let '(s, zone) := split2 "%"%char s in
  match zone with
  | Some "" => None
  | _ =>
      let bytes :=
        if has_prefix s "::" then
          if String.eqb (sdrop 2 s) "" then Some IPv6unspecified
          else ipv6_groups 8 [] (Some 0%nat) (sdrop 2 s) ≫= ipv6_bytes
        else ipv6_groups 8 [] None s ≫= ipv6_bytes in
      (fun b => Addr6 b (default "" zone)) <$> bytes
  end.

(** The first of [.], [:] and [%] decides. *)
Fixpoint addr_kind (s : string) : option ascii :=
  match s with
  | EmptyString => None
  | String c s' => if char_in c ".:%" then Some c else addr_kind s'
  end.

Definition ParseAddr (s : string) : option netip_addr :=
  match addr_kind s with
  | Some "."%char => Addr4 <$> parseIPv4Fields s
  | Some ":"%char => parseIPv6 s
  | _ => None
  end.

Definition As16 (a : netip_addr) : IP :=
  match a with Addr4 b => v4InV6Prefix ++ b | Addr6 b _ => b end.
Definition Zone (a : netip_addr) : string :=
  match a with Addr4 _ => "" | Addr6 _ z => z end.
Definition BitLen (a : netip_addr) : nat :=
  match a with Addr4 _ => 32 | Addr6 _ _ => 128 end.

(** [net.ParseIP] *)
Definition ParseIP (s : string) : option IP :=
  match ParseAddr s with
  | Some a => if String.eqb (Zone a) "" then Some (As16 a) else None
  | None => None
  end.

(** [dtoi]: the decimal text as a whole, below 0xFFFFFF. *)
Fixpoint dtoi (n : Z) (s : string) : option Z :=
  match s with
  | EmptyString => Some n
  | String c s' =>
      match digit c with
      | Some d => let n := n * 10 + d in if 16777215 <=? n then None else dtoi n s'
      | None => None
      end
  end.

Definition ParseCIDR (s : string) : option IPNet :=
  match split2 "/"%char s with
  | (_, None) => None
  | (addr, Some mask) =>
      match ParseAddr addr with
      | None => None
      | Some a =>
          if negb (String.eqb (Zone a) "") then None
          else match (if String.eqb mask "" then None else dtoi 0 mask) with
               | None => None
               | Some n =>
                   if Z.of_nat (BitLen a) <? n then None
                   else let m := cidr_mask (Z.to_nat n) (BitLen a / 8) in
                        Some {| net_IP := ip_Mask (As16 a) m; net_Mask := m |}
               end
      end
  end.

(** ** Text from an address: [IP.String] *)
Definition digit_text (n : Z) : string :=
  String (ascii_of_nat (if n <? 10 then 48 + Z.to_nat n else 87 + Z.to_nat n)) "".

(** A number in base [b], at most [fuel] digits, no leading zeros. *)
Fixpoint number_text (fuel : nat) (b n : Z) : string :=
  match fuel with
  | O => ""
  | S fuel => (if n <? b then "" else number_text fuel b (n / b)) +:+ digit_text (n mod b)
  end.

Definition dotted (ip : IP) : string := String.concat "." (map (number_text 3 10) ip).

(** The eight groups of an IPv6 address. *)
Fixpoint v6u16 (ip : IP) : list Z :=
  match ip with
  | a :: b :: ip' => a * 256 + b :: v6u16 ip'
  | _ => []
  end.

(** How many zero groups stand in front. *)
Fixpoint zero_run (gs : list Z) : nat :=
  match gs with 0 :: gs' => S (zero_run gs') | _ => O end.

(** The first longest run of at least two zero groups: where, and how long. *)
Fixpoint longest_zeros (i : nat) (gs : list Z) (best : option (nat * nat)) : option (nat * nat) :=
  match gs with
  | [] => best
  | _ :: gs' =>
      let l := zero_run gs in
      let better := (2 <=? l)%nat && (match best with Some (_, b) => b <? l | None => true end)%nat in
      longest_zeros (S i) gs' (if better then Some (i, l) else best)
  end.

Definition groups_text (gs : list Z) : string := String.concat ":" (map (number_text 4 16) gs).

Definition colons (ip : IP) : string :=
  let gs := v6u16 ip in
  match longest_zeros 0 gs None with
  | None => groups_text gs
  | Some (i, l) => groups_text (take i gs) +:+ "::" +:+ groups_text (drop (i + l) gs)
  end.

Definition hex2 (b : Z) : string := digit_text (b / 16) +:+ digit_text (b mod 16).

Definition ip_String (ip : IP) : string :=
  if (length ip =? 0)%nat then "<nil>"
  else if negb ((length ip =? 4)%nat || (length ip =? 16)%nat) then "?" +:+ String.concat "" (map hex2 ip)
  else match To4 ip with Some ip4 => dotted ip4 | None => colons ip end.

(** ** Host and port *)
Fixpoint has_char (c : ascii) (s : string) : bool :=
  match s with EmptyString => false | String d s' => Ascii.eqb c d || has_char c s' end.

(** What stands before and after the last [c]. *)
Fixpoint cut_last (c : ascii) (s : string) : option (string * string) :=
  match s with
  | EmptyString => None
  | String d s' =>
      match cut_last c s' with
      | Some (a, b) => Some (String d a, b)
      | None => if Ascii.eqb c d then Some ("", s') else None
      end
  end.

Definition addrErr (why : string) : gerror := ErrMsg why.

Definition SplitHostPort (hostport : string) : res (string * string) :=
  match cut_last ":"%char hostport with
  | None => Err (addrErr "missing port in address")
  | Some (before, port) =>
      match starts "["%char hostport with
      | Some inner =>
          match split2 "]"%char inner with
          | (_, None) => Err (addrErr "missing ']' in address")
          | (host, Some after) =>
              if String.eqb after "" then Err (addrErr "missing port in address")
              else if negb (has_prefix after ":") then Err (addrErr "missing port in address")
              else if has_char ":"%char (sdrop 1 after) then Err (addrErr "too many colons in address")
              else if has_char "["%char inner then Err (addrErr "unexpected '[' in address")
              else if has_char "]"%char after then Err (addrErr "unexpected ']' in address")
              else Ok (host, port)
          end
      | None =>
          if has_char ":"%char before then Err (addrErr "too many colons in address")
          else if has_char "["%char hostport then Err (addrErr "unexpected '[' in address")
          else if has_char "]"%char hostport then Err (addrErr "unexpected ']' in address")
          else Ok (before, port)
      end
  end.

Definition JoinHostPort (host port : string) : string :=
  if has_char ":"%char host then "[" +:+ host +:+ "]:" +:+ port else host +:+ ":" +:+ port.

(** ** Addresses as numbers *)

(** Big-endian. *)
Fixpoint num (bs : list Z) : Z :=
  match bs with [] => 0 | b :: bs' => b * 2 ^ (8 * Z.of_nat (length bs')) + num bs' end.

Definition as16 (ip : IP) : IP := if (length ip =? 4)%nat then v4InV6Prefix ++ ip else ip.
Definition num16 (ip : IP) : Z := num (as16 ip).

Definition is_byte (b : Z) : Prop := 0 <= b < 256.
Definition ip_ok (ip : IP) : Prop := (length ip = 4%nat \/ length ip = 16%nat) /\ Forall is_byte ip.

(** The 128-bit numbers that share their first [len] bits with [base]. *)
Record addr_block := { bl_base : Z; bl_len : nat }.
Definition in_block (b : addr_block) (n : Z) : bool :=
  let w := 2 ^ (128 - Z.of_nat (bl_len b)) in n / w =? bl_base b / w.

(** The block [a.b.c.d/n] of IPv4 addresses. *)
Definition block4 (a b c d : Z) (n : nat) : addr_block :=
  {| bl_base := num (IPv4 a b c d); bl_len := 96 + n |}.

Definition is_some_b {A} (o : option A) : bool := match o with Some _ => true | None => false end.

(** *** Bytes *)
Definition bytes256 : list Z := map Z.of_nat (seq 0 256).

Lemma byte_cases (P : Z -> bool) : forallb P bytes256 = true -> forall b, is_byte b -> P b = true.
Proof.
  intros H b Hb. rewrite forallb_forall in H. apply H. unfold bytes256.
  replace b with (Z.of_nat (Z.to_nat b)) by (unfold is_byte in Hb; lia).
  apply in_map, in_seq. unfold is_byte in Hb. lia.
Qed.

Lemma land_255 b : is_byte b -> Z.land b 255 = b.
Proof.
  intros Hb. apply Z.eqb_eq. revert b Hb. apply (byte_cases (fun b => Z.land b 255 =? b)).
  by vm_compute.
Qed.

Lemma land_high n b : (n <= 8)%nat -> is_byte b ->
  Z.land b (high_bits n) = b / 2 ^ (8 - Z.of_nat n) * 2 ^ (8 - Z.of_nat n).
Proof.
  intros Hn Hb. apply Z.eqb_eq.
  assert (forallb (fun n => forallb (fun b =>
    Z.land b (high_bits n) =? b / 2 ^ (8 - Z.of_nat n) * 2 ^ (8 - Z.of_nat n)) bytes256) (seq 0 9) = true)
    as H by by vm_compute.
  rewrite forallb_forall in H.
  apply (byte_cases (fun b => Z.land b (high_bits n) =? b / 2 ^ (8 - Z.of_nat n) * 2 ^ (8 - Z.of_nat n))); [|done].
  apply H, in_seq. lia.
Qed.

Lemma num_bounds bs : Forall is_byte bs -> 0 <= num bs < 2 ^ (8 * Z.of_nat (length bs)).
Proof.
  induction 1 as [|b bs Hb _ IH]; cbn [num length]; [lia|].
  replace (8 * Z.of_nat (S (length bs))) with (8 + 8 * Z.of_nat (length bs)) by lia.
  rewrite Z.pow_add_r by lia. change (2 ^ 8) with 256. unfold is_byte in Hb. nia.
Qed.

Lemma num_app xs ys : num (xs ++ ys) = num xs * 2 ^ (8 * Z.of_nat (length ys)) + num ys.
Proof.
  induction xs as [|x xs IH]; cbn [num app length]; [lia|].
  rewrite IH, length_app.
  replace (8 * Z.of_nat (length xs + length ys)) with (8 * Z.of_nat (length xs) + 8 * Z.of_nat (length ys)) by lia.
  rewrite Z.pow_add_r by lia. ring.
Qed.

(** The digits of a number in base [m] are unique. *)
Lemma base_unique m a b c d : 0 <= b < m -> 0 <= d < m -> a * m + b = c * m + d -> a = c /\ b = d.
Proof. intros ???. assert (a = c) by nia. nia. Qed.

Lemma num_inj xs ys : Forall is_byte xs -> Forall is_byte ys -> length xs = length ys ->
  num xs = num ys -> xs = ys.
Proof.
  intros Hxs. revert ys. induction Hxs as [|x xs Hx Hxs IH]; intros [|y ys] Hys Hl; try done.
  inversion Hys as [|?? Hy Hys']; subst. injection Hl as Hl. cbn [num]. rewrite Hl. intros Hn.
  pose proof (num_bounds xs Hxs) as B1. pose proof (num_bounds ys Hys') as B2. rewrite Hl in B1.
  destruct (base_unique _ _ _ _ _ B1 B2 Hn) as [-> Hn']. f_equal. by apply IH.
Qed.

(** *** Masks are prefixes *)
Lemma length_cidr_mask n k : length (cidr_mask n k) = k.
Proof.
  revert n. induction k as [|k IH]; intros n; [done|].
  cbn [cidr_mask]. destruct (8 <=? n)%nat; cbn [length]; by rewrite IH.
Qed.

Lemma mask_none bs : apply_mask bs (cidr_mask 0 (length bs)) = repeat 0 (length bs).
Proof.
  induction bs as [|b bs IH]; [done|]. cbn. f_equal; [|exact IH].
  change (high_bits 0) with 0. apply Z.land_0_r.
Qed.

Lemma mask_eq_iff n k xs ys :
  Forall is_byte xs -> Forall is_byte ys -> length xs = k -> length ys = k -> (n <= 8 * k)%nat ->
  apply_mask xs (cidr_mask n k) = apply_mask ys (cidr_mask n k) <->
  num xs / 2 ^ (8 * Z.of_nat k - Z.of_nat n) = num ys / 2 ^ (8 * Z.of_nat k - Z.of_nat n).
Proof.
  revert n xs ys. induction k as [|k IH]; intros n [|x xs] [|y ys] Hxs Hys Hlx Hly Hn; try done.
  injection Hlx as Hlx. injection Hly as Hly.
  inversion Hxs as [|?? Hx Hxs']; inversion Hys as [|?? Hy Hys']; subst.
  pose proof (num_bounds xs Hxs') as B1. pose proof (num_bounds ys Hys') as B2.
  rewrite Hly in *. cbn [num cidr_mask]. rewrite Hly. set (k := length xs) in *.
  destruct (Nat.leb_spec 8 n) as [Hge|Hlt].
  - specialize (IH (n - 8)%nat xs ys Hxs' Hys' eq_refl Hly ltac:(lia)).
    set (e := 8 * Z.of_nat k - Z.of_nat (n - 8)) in *.
    replace (8 * Z.of_nat (S k) - Z.of_nat n) with e by lia.
    assert (2 ^ (8 * Z.of_nat k) = 2 ^ Z.of_nat (n - 8) * 2 ^ e) as Hp.
    { rewrite <- Z.pow_add_r by lia. f_equal. lia. }
    assert (0 < 2 ^ e) by (apply Z.pow_pos_nonneg; lia).
    rewrite Hp in *. rewrite !Z.mul_assoc, !Z.div_add_l by lia.
    assert (forall m, 0 <= m < 2 ^ Z.of_nat (n - 8) * 2 ^ e -> 0 <= m / 2 ^ e < 2 ^ Z.of_nat (n - 8)) as Hd.
    { intros m ?. split; [apply Z.div_pos; lia | apply Z.div_lt_upper_bound; lia]. }
    cbn [apply_mask zip_with]. rewrite (land_255 x), (land_255 y) by done. split.
    + intros [= -> Hm]. f_equal. by apply IH.
    + intros He. destruct (base_unique _ _ _ _ _ (Hd _ B1) (Hd _ B2) He) as [-> Hq].
      f_equal. by apply IH.
  - replace (8 * Z.of_nat (S k) - Z.of_nat n) with (8 * Z.of_nat k + (8 - Z.of_nat n)) by lia.
    rewrite Z.pow_add_r, <- !Z.div_div by (try apply Z.pow_pos_nonneg; try apply Z.pow_nonzero; lia).
    rewrite !Z.div_add_l, !(Z.div_small (num _)) by lia. rewrite !Z.add_0_r.
    pose proof (mask_none xs) as M1. pose proof (mask_none ys) as M2. rewrite Hly in M2. fold k in M1, M2.
    assert (0 < 2 ^ (8 - Z.of_nat n)) by (apply Z.pow_pos_nonneg; lia).
    unfold apply_mask in M1, M2 |- *. cbn [zip_with]. rewrite M1, M2, !land_high by (done || lia).
    split; [intros [= Hq]; nia | intros ->; done].
Qed.

(** *** IPv4 addresses among all *)
Lemma forall_byte_prefix : Forall is_byte v4InV6Prefix.
Proof. repeat constructor; unfold is_byte; lia. Qed.

Lemma To4_some ip b : ip_ok ip -> To4 ip = Some b ->
  as16 ip = v4InV6Prefix ++ b /\ length b = 4%nat /\ Forall is_byte b.
Proof.
  intros [Hl Hb]. unfold To4, as16. destruct (Nat.eqb_spec (length ip) 4) as [H4|H4].
  - by intros [= <-].
  - destruct Hl as [?|H16]; [done|]. rewrite H16. cbn [Nat.eqb andb].
    case_bool_decide as Hp; [|done]. intros [= <-].
    rewrite length_drop, H16. split_and!; [by rewrite <- Hp, take_drop | done | by apply Forall_drop].
Qed.

Lemma To4_none ip : ip_ok ip -> To4 ip = None ->
  as16 ip = ip /\ length ip = 16%nat /\ take 12 ip <> v4InV6Prefix.
Proof.
  intros [Hl Hb]. unfold To4, as16. destruct (Nat.eqb_spec (length ip) 4) as [H4|H4]; [done|].
  destruct Hl as [?|H16]; [done|]. rewrite H16. cbn [Nat.eqb andb]. case_bool_decide; [done|]. done.
Qed.

Lemma as16_ok ip : ip_ok ip -> length (as16 ip) = 16%nat /\ Forall is_byte (as16 ip).
Proof.
  intros [[H|H] Hb]; unfold as16; rewrite H; cbn; rewrite ?H; split; try done.
  change (Forall is_byte (v4InV6Prefix ++ ip)). apply Forall_app. split; [apply forall_byte_prefix | done].
Qed.

(** The high 96 bits tell the families apart. *)
Lemma num16_high ip : ip_ok ip ->
  num16 ip / 2 ^ 32 = num v4InV6Prefix <-> is_Some (To4 ip).
Proof.
  intros Hok. unfold num16. destruct (To4 ip) as [b|] eqn:H4.
  - destruct (To4_some ip b Hok H4) as (-> & Hl & Hb). rewrite num_app, Hl.
    pose proof (num_bounds b Hb) as Hn. rewrite Hl in Hn.
    change (8 * Z.of_nat 4) with 32 in *. rewrite Z.div_add_l, Z.div_small by lia.
    split; [done | intros _; lia].
  - destruct (To4_none ip Hok H4) as (-> & Hl & Hp). split; [|by intros [? ?]].
    rewrite <- (take_drop 12 ip), num_app, length_drop, Hl.
    change (8 * Z.of_nat (16 - 12)) with 32.
    assert (Forall is_byte (drop 12 ip)) as Hd by (apply Forall_drop, Hok).
    pose proof (num_bounds _ Hd) as Hn. rewrite length_drop, Hl in Hn.
    change (8 * Z.of_nat (16 - 12)) with 32 in Hn.
    rewrite Z.div_add_l, Z.div_small, Z.add_0_r by lia. intros He. destruct Hp.
    apply num_inj; [apply Forall_take, Hok | apply forall_byte_prefix | | done].
    rewrite length_take, Hl. done.
Qed.

Lemma mask_idem xs m : apply_mask (apply_mask xs m) m = apply_mask xs m.
Proof.
  unfold apply_mask. revert xs. induction m as [|m ms IH]; intros [|x xs]; try done. cbn. f_equal; [|apply IH].
  by rewrite <- Z.land_assoc, Z.land_diag.
Qed.

(** *** Networks are blocks *)
Lemma length_mask xs m : length (apply_mask xs m) = Nat.min (length xs) (length m).
Proof. apply length_zip_with. Qed.

Lemma mask_full xs k : Forall is_byte xs -> length xs = k -> apply_mask xs (cidr_mask (8 * k) k) = xs.
Proof.
  intros Hb. revert k. induction Hb as [|x xs Hx _ IH]; intros [|k] Hl; try done.
  injection Hl as Hl. cbn [cidr_mask]. destruct (Nat.leb_spec 8 (8 * S k)); [|lia].
  replace (8 * S k - 8)%nat with (8 * k)%nat by lia.
  cbn [apply_mask zip_with]. rewrite (land_255 x) by done. f_equal. by apply IH.
Qed.

(** A masked network number and its mask, against an address of the same length. *)
Lemma contains_same b m n k x : m = cidr_mask n k -> Forall is_byte b -> length b = k ->
  Forall is_byte x -> length x = k -> (n <= 8 * k)%nat ->
  bool_decide (apply_mask (apply_mask b m) m = apply_mask x m) =
  (num x / 2 ^ (8 * Z.of_nat k - Z.of_nat n) =? num b / 2 ^ (8 * Z.of_nat k - Z.of_nat n)).
Proof.
  intros -> Hb Hlb Hx Hlx Hn. rewrite mask_idem.
  apply eq_bool_prop_intro. rewrite bool_decide_spec, (mask_eq_iff n k b x) by done.
  rewrite Is_true_true, Z.eqb_eq. done.
Qed.

(** Addresses that share more than 96 bits are of one family. *)
Lemma in_block_family b n ip : ip_ok b -> ip_ok ip -> (96 <= n <= 128)%nat ->
  in_block {| bl_base := num16 b; bl_len := n |} (num16 ip) = true ->
  is_Some (To4 ip) <-> is_Some (To4 b).
Proof.
  intros Hb Hip Hn. unfold in_block. cbn [bl_base bl_len]. rewrite Z.eqb_eq. intros He.
  assert (forall z, z / 2 ^ 32 = z / 2 ^ (128 - Z.of_nat n) / 2 ^ (Z.of_nat n - 96)) as Hd.
  { intros z. rewrite Z.div_div by (try apply Z.pow_pos_nonneg; try apply Z.pow_nonzero; lia).
    rewrite <- Z.pow_add_r by lia. do 2 f_equal. lia. }
  rewrite <- !num16_high by done. rewrite !Hd, He. done.
Qed.

Lemma in_block_mapped b n x : Forall is_byte b -> Forall is_byte x -> length b = 4%nat -> length x = 4%nat ->
  (n <= 32)%nat ->
  in_block {| bl_base := num (v4InV6Prefix ++ b); bl_len := 96 + n |} (num (v4InV6Prefix ++ x)) =
  (num x / 2 ^ (32 - Z.of_nat n) =? num b / 2 ^ (32 - Z.of_nat n)).
Proof.
  intros Hb Hx Hlb Hlx Hn. unfold in_block. cbn [bl_base bl_len].
  replace (128 - Z.of_nat (96 + n)) with (32 - Z.of_nat n) by lia.
  rewrite !num_app, Hlb, Hlx. change (8 * Z.of_nat 4) with (32).
  assert (2 ^ 32 = 2 ^ Z.of_nat n * 2 ^ (32 - Z.of_nat n)) as Hp.
  { rewrite <- Z.pow_add_r by lia. f_equal. lia. }
  assert (0 < 2 ^ (32 - Z.of_nat n)) by (apply Z.pow_pos_nonneg; lia).
  rewrite Hp, !Z.mul_assoc, !Z.div_add_l by lia.
  apply eq_bool_prop_intro. rewrite !Is_true_true, !Z.eqb_eq. lia.
Qed.

Lemma contains_mapped b n ip nn : Forall is_byte b -> length b = 4%nat -> (n <= 32)%nat -> ip_ok ip ->
  networkNumberAndMask nn = (apply_mask b (cidr_mask n 4), cidr_mask n 4) ->
  Contains nn ip = in_block {| bl_base := num (v4InV6Prefix ++ b); bl_len := 96 + n |} (num16 ip).
Proof.
  intros Hb Hl Hn Hip Hnn. unfold Contains. rewrite Hnn, length_mask, length_cidr_mask, Hl.
  change (Nat.min 4 4) with 4%nat.
  destruct (To4 ip) as [x|] eqn:H4; unfold default; cbn [from_option].
  - destruct (To4_some ip x Hip H4) as (Ha & Hlx & Hx). unfold num16. rewrite Ha, in_block_mapped by done.
    rewrite ?Hlx. unfold id. rewrite ?Hlx. cbn [Nat.eqb andb].
    by apply (contains_same b _ n 4).
  - destruct (To4_none ip Hip H4) as (_ & Hlx & _). rewrite ?Hlx. unfold id. rewrite ?Hlx. cbn [Nat.eqb andb].
    destruct (in_block _ _) eqn:Hin; [|done].
    assert (ip_ok b) as Hok by (split; [by left | done]).
    assert (num (v4InV6Prefix ++ b) = num16 b) as Hnum.
    { unfold num16, as16. by rewrite Hl. }
    rewrite Hnum in Hin. apply in_block_family in Hin; [|done|done|lia].
    rewrite H4 in Hin. destruct (proj2 Hin) as [? ?]; [|done].
    unfold To4. rewrite Hl. cbn. by eexists.
Qed.

Lemma contains_plain b n ip nn : ip_ok b -> length b = 16%nat -> (n <= 128)%nat -> ip_ok ip ->
  networkNumberAndMask nn = (apply_mask b (cidr_mask n 16), cidr_mask n 16) ->
  Contains nn ip = in_block {| bl_base := num16 b; bl_len := n |} (num16 ip) && negb (is_some_b (To4 ip)).
Proof.
  intros Hb Hl Hn Hip Hnn. unfold Contains. rewrite Hnn, length_mask, length_cidr_mask, Hl.
  change (Nat.min 16 16) with 16%nat.
  destruct (To4 ip) as [x|] eqn:H4; unfold default; cbn [from_option is_some_b negb].
  - destruct (To4_some ip x Hip H4) as (_ & Hlx & _). rewrite ?Hlx. unfold id. rewrite ?Hlx. cbn [Nat.eqb andb]. by rewrite andb_false_r.
  - destruct (To4_none ip Hip H4) as (Ha & Hlx & _). rewrite ?Hlx. unfold id. rewrite ?Hlx. cbn [Nat.eqb andb].
    rewrite andb_true_r. unfold in_block, num16. cbn [bl_base bl_len]. rewrite Ha.
    unfold as16. rewrite Hl. cbn [Nat.eqb].
    apply (contains_same b _ n 16); try done; [apply Hb | apply Hip].
Qed.

(** *** Networks from text *)
Definition addr_ok (a : netip_addr) : Prop :=
  match a with
  | Addr4 b => length b = 4%nat /\ Forall is_byte b
  | Addr6 b _ => length b = 16%nat /\ Forall is_byte b
  end.

(** The addresses of [a/n]: those that share its first bits, and no IPv4 address
    when an IPv6 prefix is too short to name the family. *)
Definition covers (a : netip_addr) (n : nat) (ip : IP) : bool :=
  let n := match a with Addr4 _ => (96 + n)%nat | Addr6 _ _ => n end in
  in_block {| bl_base := num (As16 a); bl_len := n |} (num16 ip) &&
  ((96 <=? n)%nat || negb (is_some_b (To4 ip))).

Lemma mask_front n k : (8 <= n)%nat -> cidr_mask n (S k) = 255 :: cidr_mask (n - 8) k.
Proof. intros Hn. cbn [cidr_mask]. destruct (Nat.leb_spec 8 n); [done | lia]. Qed.

Lemma mask_long n : (96 <= n)%nat -> cidr_mask n 16 = repeat 255 12 ++ cidr_mask (n - 96) 4.
Proof.
  intros Hn. replace n with (96 + (n - 96))%nat at 1 by lia. generalize (n - 96)%nat as j. intros j.
  do 12 (rewrite mask_front by lia). cbn [repeat app].
  do 12 f_equal. f_equal. lia.
Qed.

Lemma mask_255 b k : Forall is_byte b -> length b = k -> apply_mask b (repeat 255 k) = b.
Proof.
  intros Hb <-. induction Hb as [|x b Hx _ IH]; [done|]. cbn. rewrite (land_255 x) by done. by f_equal.
Qed.

Lemma mask_long_app n b : Forall is_byte b -> length b = 16%nat -> (96 <= n)%nat ->
  apply_mask b (cidr_mask n 16) = take 12 b ++ apply_mask (drop 12 b) (cidr_mask (n - 96) 4).
Proof.
  intros Hb Hl Hn. rewrite mask_long by done. rewrite <- (take_drop 12 b) at 1.
  unfold apply_mask. rewrite zip_with_app by (by rewrite length_take, Hl).
  f_equal. apply mask_255; [by apply Forall_take | by rewrite length_take, Hl].
Qed.

Lemma network_mapped b m : length b = 4%nat -> length m = 4%nat ->
  networkNumberAndMask {| net_IP := ip_Mask (v4InV6Prefix ++ b) m; net_Mask := m |} =
  (apply_mask b m, m).
Proof.
  intros Hl Hm. assert (ip_Mask (v4InV6Prefix ++ b) m = apply_mask b m) as ->.
  { unfold ip_Mask. cbv zeta. rewrite !length_app, !Hm, !Hl, andb_false_r.
    cbn [andb Nat.eqb length v4InV6Prefix Nat.add].
    rewrite Hm, (take_app_length' v4InV6Prefix b 12), (drop_app_length' v4InV6Prefix b 12) by done.
    rewrite bool_decide_true by done. cbn [Nat.eqb andb]. by rewrite Hl. }
  unfold networkNumberAndMask, To4. cbn [net_IP net_Mask].
  do 2 (rewrite ?length_mask, ?Hl, ?Hm; cbn [Nat.min Nat.eqb]). done.
Qed.

Lemma network_plain b m : length b = 16%nat -> length m = 16%nat ->
  networkNumberAndMask {| net_IP := ip_Mask b m; net_Mask := m |} =
  match To4 (apply_mask b m) with
  | Some ip4 => (ip4, drop 12 m)
  | None => (apply_mask b m, m)
  end.
Proof.
  intros Hl Hm. assert (ip_Mask b m = apply_mask b m) as ->.
  { unfold ip_Mask. cbv zeta. do 3 (rewrite ?Hm, ?Hl; cbn [Nat.eqb andb]). done. }
  unfold networkNumberAndMask. cbn [net_IP net_Mask].
  assert (length (apply_mask b m) = 16%nat) as Hl' by by rewrite length_mask, Hl, Hm.
  rewrite Hm. destruct (To4 _) as [ip4|] eqn:H4; cbn [Nat.eqb].
  - unfold To4 in H4. rewrite Hl' in H4. cbn [Nat.eqb andb] in H4.
    case_bool_decide; [|done]. injection H4 as <-. by rewrite length_drop, Hl'.
  - unfold long. rewrite Hl'. cbn [Nat.eqb]. by rewrite Hl'.
Qed.

(** A short prefix never masks to an IPv4-mapped number. *)
Lemma short_mask_plain b n : length b = 16%nat -> (n < 96)%nat -> To4 (apply_mask b (cidr_mask n 16)) = None.
Proof.
  intros Hl Hn. unfold To4. rewrite length_mask, length_cidr_mask, Hl. cbn [Nat.min Nat.eqb andb].
  case_bool_decide as Hp; [|done]. exfalso.
  assert (nth 11 (take 12 (apply_mask b (cidr_mask n 16))) 0 = 255) as Hx by by rewrite Hp.
  assert (Z.odd (nth 11 (cidr_mask n 16) 0) = false) as Hodd.
  { assert (forallb (fun n => negb (Z.odd (nth 11 (cidr_mask n 16) 0))) (seq 0 96) = true) as H by by vm_compute.
    rewrite forallb_forall in H. specialize (H n). rewrite negb_true_iff in H. apply H, in_seq. lia. }
  do 16 (destruct b as [|? b]; [done|]). clear Hp.
  pose proof (length_cidr_mask n 16) as Hm.
  destruct (cidr_mask n 16) as [|? [|? [|? [|? [|? [|? [|? [|? [|? [|? [|? [|m ?]]]]]]]]]]]]; try done.
  cbn in Hx, Hodd. apply (f_equal Z.odd) in Hx.
  rewrite <- Z.bit0_odd, Z.land_spec, !Z.bit0_odd, Hodd in Hx. by rewrite andb_false_r in Hx.
Qed.

Lemma To4_long b : length b = 16%nat ->
  To4 b = if bool_decide (take 12 b = v4InV6Prefix) then Some (drop 12 b) else None.
Proof. intros Hl. unfold To4. by rewrite Hl. Qed.

Lemma num16_long b : length b = 16%nat -> num16 b = num b.
Proof. intros Hl. unfold num16, as16. by rewrite Hl. Qed.

Lemma contains_short b n ip nn : length b = 16%nat -> Forall is_byte b -> (n <= 128)%nat -> ip_ok ip ->
  To4 (apply_mask b (cidr_mask n 16)) = None ->
  nn = {| net_IP := ip_Mask b (cidr_mask n 16); net_Mask := cidr_mask n 16 |} ->
  Contains nn ip = in_block {| bl_base := num b; bl_len := n |} (num16 ip) && negb (is_some_b (To4 ip)).
Proof.
  intros Hl Hb Hn Hip H4 ->. rewrite (contains_plain b n); [|by split; [right|]|done..|].
  - by rewrite num16_long.
  - rewrite network_plain by (done || apply length_cidr_mask). by rewrite H4.
Qed.

Lemma contains_covers a n ip : addr_ok a -> (n <= BitLen a)%nat -> ip_ok ip ->
  Contains {| net_IP := ip_Mask (As16 a) (cidr_mask n (BitLen a / 8));
              net_Mask := cidr_mask n (BitLen a / 8) |} ip = covers a n ip.
Proof.
  intros Ha Hn Hip. destruct a as [b|b z]; destruct Ha as [Hl Hb]; unfold covers; cbn [As16 BitLen] in *.
  - change (32 / 8)%nat with 4%nat. destruct (Nat.leb_spec 96 (96 + n)); [|lia]. rewrite andb_true_r.
    apply contains_mapped; try done. by rewrite network_mapped by (done || apply length_cidr_mask).
  - change (128 / 8)%nat with 16%nat. destruct (Nat.leb_spec 96 n) as [Hge|Hlt]; cbn [orb].
    2: { apply contains_short; try done. by apply short_mask_plain. }
    rewrite andb_true_r. destruct (bool_decide_reflect (take 12 b = v4InV6Prefix)) as [Hp|Hp].
    + rewrite <- (take_drop 12 b) at 2. rewrite Hp. replace n with (96 + (n - 96))%nat at 3 by lia.
      apply contains_mapped; [by apply Forall_drop | by rewrite length_drop, Hl | lia | done |].
      rewrite network_plain by (done || apply length_cidr_mask).
      rewrite mask_long_app by done. rewrite To4_long.
      2: { by rewrite length_app, length_take, length_mask, length_drop, length_cidr_mask, Hl. }
      rewrite Hp, (take_app_length' v4InV6Prefix _ 12), (drop_app_length' v4InV6Prefix _ 12) by done.
      rewrite bool_decide_true by done. by rewrite (mask_long n) by done.
    + assert (To4 (apply_mask b (cidr_mask n 16)) = None) as H4.
      { rewrite mask_long_app, To4_long by
          (done || by rewrite length_app, length_take, length_mask, length_drop, length_cidr_mask, Hl).
        rewrite take_app_length' by by rewrite length_take, Hl. by rewrite bool_decide_false. }
      rewrite (contains_short b n) by done. destruct (in_block _ _) eqn:Hin; [|done].
      rewrite <- (num16_long b Hl) in Hin.
      apply in_block_family in Hin; [|by split; [right|]|done|lia].
      rewrite (To4_long b Hl), bool_decide_false in Hin by done.
      destruct (To4 ip); [|done]. by destruct (proj1 Hin) as [? ?].
Qed.

(** *** What the parsers return *)
Lemma ipv4_field_byte n v s r : is_byte v -> ipv4_field n v s = Some r -> is_byte r.
Proof.
  revert n v. induction s as [|c s IH]; intros n v Hv; cbn [ipv4_field].
  - destruct (n =? 0)%nat; [done|]. by intros [= <-].
  - destruct (digit c) as [d|] eqn:Hd; [|done]. apply digit_bounds in Hd.
    destruct (_ && _)%bool; [done|]. destruct (Z.ltb_spec 255 (v * 10 + d)); [done|].
    apply IH. unfold is_byte in *. lia.
Qed.

Lemma parseIPv4Fields_ok s b : parseIPv4Fields s = Some b -> length b = 4%nat /\ Forall is_byte b.
Proof.
  unfold parseIPv4Fields. destruct (split_on _ s) as [|w [|x [|y [|z []]]]]; try done.
  intros H. apply mapM_Some in H. split; [by rewrite <- (Forall2_length _ _ _ H)|].
  eapply Forall2_Forall_r; [exact H|]. apply Forall_true. intros t b' Hb. eapply ipv4_field_byte, Hb.
  unfold is_byte. lia.
Qed.

Lemma hex_digit_bounds c d : hex_digit c = Some d -> 0 <= d < 16.
Proof. unfold hex_digit. intros H. repeat case_match; simplify_eq; bools; rewrite ?Z.leb_le in *; lia. Qed.

Lemma hex_run_bounds off acc s n v rest : 0 <= acc < 16 ^ Z.of_nat off -> (off <= 4)%nat ->
  hex_run off acc s = Some (n, v, rest) -> 0 <= v < 65536.
Proof.
  revert off acc. induction s as [|c s IH]; intros off acc Ha Ho; cbn [hex_run].
  1: assert (16 ^ Z.of_nat off <= 16 ^ 4) by (apply Z.pow_le_mono_r; lia).
  1: by intros [= _ <- _]; lia.
  assert (16 ^ Z.of_nat off <= 16 ^ 4) by (apply Z.pow_le_mono_r; lia).
  destruct (hex_digit c) as [d|] eqn:Hd; [|by intros [= _ <- _]; lia].
  apply hex_digit_bounds in Hd. destruct (Nat.ltb_spec 3 off); [done|]. apply IH; [|lia].
  replace (Z.of_nat (S off)) with (Z.of_nat off + 1) by lia. rewrite Z.pow_add_r by lia. lia.
Qed.

Lemma group_bytes v : 0 <= v < 65536 -> Forall is_byte [Z.shiftr v 8; Z.land v 255].
Proof.
  intros Hv. repeat constructor; unfold is_byte.
  all: rewrite ?Z.shiftr_div_pow2 by lia; change 255 with (Z.ones 8); rewrite ?Z.land_ones by lia;
    change (2 ^ 8) with 256; Z.div_mod_to_equations; lia.
Qed.

Lemma ipv6_groups_ok n ip e s ip' e' s' : (length ip + 2 * n = 16)%nat -> Forall is_byte ip ->
  ipv6_groups n ip e s = Some (ip', e', s') -> (length ip' <= 16)%nat /\ Forall is_byte ip'.
Proof.
  revert ip e s. induction n as [|n IH]; intros ip e s Hl Hb; cbn [ipv6_groups].
  - intros [= <- _ _]. split; [lia | done].
  - destruct (hex_run 0 0 s) as [[[off v] rest]|] eqn:Hr; [|done].
    apply hex_run_bounds in Hr; [|cbn; lia|lia]. destruct (off =? 0)%nat; [done|].
    destruct (has_prefix rest "."); [destruct (_ && _)%bool; [done|]; destruct (Nat.ltb_spec 16 (length ip + 4)) as [|Hlt]; [done|] |].
    + destruct (parseIPv4Fields s) as [fs|] eqn:Hf; [|done]. apply parseIPv4Fields_ok in Hf as [Hfl Hfb].
      intros [= <- _ _]. rewrite length_app, Hfl. split; [lia | by apply Forall_app].
    + assert (Forall is_byte (ip ++ [Z.shiftr v 8; Z.land v 255])) as Hb2.
      { apply Forall_app; split; [done | by apply group_bytes]. }
      set (ip2 := ip ++ _) in *. assert (length ip2 = S (S (length ip))) as Hl2.
      { unfold ip2. rewrite length_app. cbn. lia. }
      repeat case_match; intros; simplify_eq; try (split; [lia | done]); (eapply IH; [| |eassumption]; [lia | done]).
Qed.

Lemma ipv6_bytes_ok ip e s b : (length ip <= 16)%nat -> Forall is_byte ip ->
  ipv6_bytes (ip, e, s) = Some b -> length b = 16%nat /\ Forall is_byte b.
Proof.
  intros Hl Hb. unfold ipv6_bytes. destruct (negb _); [done|].
  destruct e as [e|]; destruct (Nat.ltb_spec (length ip) 16); intros [= <-]; [|by split; [lia|]].
  rewrite !length_app, length_take, length_drop, repeat_length. split; [lia|].
  rewrite !Forall_app. split_and!; [by apply Forall_take | | by apply Forall_drop].
  apply Forall_forall. intros x Hx%list_elem_of_In%repeat_spec. subst x. unfold is_byte. lia.
Qed.

Lemma parseIPv6_ok s a : parseIPv6 s = Some a -> addr_ok a.
Proof.
  unfold parseIPv6. destruct (split2 _ s) as [t zone].
  assert (forall e u b, ipv6_groups 8 [] e u ≫= ipv6_bytes = Some b -> length b = 16%nat /\ Forall is_byte b) as Hg.
  { intros e u b. destruct (ipv6_groups 8 [] e u) as [[[ip e'] u']|] eqn:Hr; [|done].
    apply ipv6_groups_ok in Hr as [? ?]; [|done|constructor]. by apply ipv6_bytes_ok. }
  assert (length IPv6unspecified = 16%nat /\ Forall is_byte IPv6unspecified) as H0.
  { split; [done|]. repeat constructor; unfold is_byte; lia. }
  intros Ha. assert (exists b z, a = Addr6 b z /\ length b = 16%nat /\ Forall is_byte b) as (b & z & -> & ?); [|done].
  repeat case_match; simplify_eq; apply fmap_Some in Ha as (b & Hb & ->); exists b;
    eexists; (split; [reflexivity|]); repeat case_match; simplify_eq; eauto.
Qed.

Lemma ParseAddr_ok s a : ParseAddr s = Some a -> addr_ok a.
Proof.
  unfold ParseAddr. intros H. repeat case_match; simplify_eq; [|by eapply parseIPv6_ok].
  apply fmap_Some in H as (b & Hb & ->). by apply parseIPv4Fields_ok in Hb.
Qed.
