(* ===== verification/Egress.v ===== *)
(** * The outgoing address guard: httpsafe/httpsafe.go

    Every client whose target an operator configures dials through a [Guard]: the
    host is resolved by the guard itself, every address is checked against the ranges
    that are not public, and the connection goes to a checked address.  The resolver
    and the dialer are the outside ([Network]), the URL parser is [UrlLib]. *)

From S2P Require Import Prelude GoStrings IpAddr.
From stdpp Require Import gmap list.
#[local] Open Scope Z_scope.

(** What the guard uses of a [*url.URL]; [url_text] is its [String()]. *)
Record URL := { Scheme : string; Host : string; url_text : string }.

Class UrlLib := { url_Parse : string -> res URL }.

(** The outside: names are resolved and addresses dialed. *)
Class Network (Conn Y : Type) := {
  LookupIPAddr : string -> Y -> res (list IP) * Y;
  dial : string -> string -> Y -> res Conn * Y;
}.

(** [validOptionalPort], [URL.Hostname] *)
Fixpoint all_digits (s : string) : bool :=
  match s with
  | EmptyString => true
  | String c s' => (match digit c with Some _ => true | None => false end) && all_digits s'
  end.

Definition Hostname (u : URL) : string :=
  let host := match cut_last ":"%char (Host u) with
              | Some (before, port) => if all_digits port then before else Host u
              | None => Host u
              end in
  if has_prefix host "[" && has_suffix host "]"
  then stake (String.length host - 2) (sdrop 1 host) else host.

Record Guard := { allowHosts : gset string; allowNets : list IPNet }.

Definition maxRedirects : nat := 10.

(** One entry of the allow-list. *)
Definition add_entry (g : Guard) (entry : string) : res Guard :=
  let entry := trim_space entry in
  if String.eqb entry "" then Ok g
  else match ParseCIDR entry with
       | Some ipNet => Ok {| allowHosts := allowHosts g; allowNets := allowNets g ++ [ipNet] |}
       | None =>
           match ParseIP entry with
           | Some ip =>
               let '(ip, bits) := match To4 ip with Some ip4 => (ip4, 32%nat) | None => (ip, 128%nat) end in
               Ok {| allowHosts := allowHosts g;
                     allowNets := allowNets g ++ [{| net_IP := ip; net_Mask := cidr_mask bits (bits / 8) |}] |}
           | None =>
               if contains_any entry "/ "
               then Err (ErrMsg "egress allowlist entry is not a valid hostname, IP, or CIDR")
               else Ok {| allowHosts := {[ to_lower entry ]} ∪ allowHosts g; allowNets := allowNets g |}
           end
       end.

Fixpoint add_entries (g : Guard) (allowlist : list string) : res Guard :=
  match allowlist with
  | [] => Ok g
  | entry :: rest => match add_entry g entry with Ok g' => add_entries g' rest | Err e => Err e end
  end.

Definition NewGuard (allowlist : list string) : res Guard :=
  add_entries {| allowHosts := ∅; allowNets := [] |} allowlist.

(** The receiver of the methods: a nil guard is the strict one. *)
Definition guard := option Guard.

Definition ipAllowlisted (g : guard) (ip : IP) : bool :=
  match g with
  | None => false
  | Some g => existsb (fun n => Contains n ip) (allowNets g)
  end.

Definition HostExempt (g : guard) (host : string) : bool :=
  match g with
  | None => false
  | Some g' =>
      if bool_decide (to_lower host ∈ allowHosts g') then true
      else match ParseIP host with Some ip => ipAllowlisted g ip | None => false end
  end.

Definition deniedRange (ip : IP) : string :=
  let ip := default ip (To4 ip) in
  if IsLoopback ip then "loopback"
  else if IsUnspecified ip then "unspecified"
  else if IsLinkLocalUnicast ip then "link-local"
  else if IsLinkLocalMulticast ip || IsMulticast ip then "multicast"
  else if IsPrivate ip then "private"
  else match To4 ip with
       | Some ip4 =>
           if byte_at ip4 0 =? 0 then "reserved (0.0.0.0/8)"
           else if (byte_at ip4 0 =? 100) && (Z.land (byte_at ip4 1) 192 =? 64)
           then "carrier-grade NAT (100.64.0.0/10)"
           else if ip_Equal ip4 IPv4bcast then "broadcast"
           else ""
       | None => ""
       end.

Definition checkIP (g : guard) (host : string) (ip : IP) : option gerror :=
  if ipAllowlisted g ip then None
  else if negb (String.eqb (deniedRange ip) "")
  then Some (ErrMsg ("egress to " +:+ host +:+ " (" +:+ ip_String ip +:+ ") blocked: "
                     +:+ deniedRange ip +:+ " address"))
  else None.

(** [for _, ip := range ips { if err := g.checkIP(host, ip); err != nil { return err } }] *)
Fixpoint check_all (g : guard) (host : string) (ips : list IP) : option gerror :=
  match ips with
  | [] => None
  | ip :: rest => match checkIP g host ip with Some e => Some e | None => check_all g host rest end
  end.

Section Calls.
Context {Conn Y : Type} `{!UrlLib} `{!Network Conn Y}.

Definition resolve (host : string) : prog Y (res (list IP)) := LookupIPAddr host.

(** [None] is the nil error. *)
Definition ValidateURL (g : guard) (rawURL : string) : prog Y (option gerror) :=
  match url_Parse rawURL with
  | Err e => ret (Some (ErrWrap "invalid URL format" e))
  | Ok u =>
      if negb (String.eqb (Scheme u) "http") && negb (String.eqb (Scheme u) "https")
      then ret (Some (ErrMsg "URL scheme not allowed (must be http or https)"))
      else
        let host := Hostname u in
        if String.eqb host "" then ret (Some (ErrMsg "URL must have a host"))
        else if HostExempt g host then ret None
        else match ParseIP host with
             | Some ip => ret (checkIP g host ip)
             | None =>
                 let! r := resolve host in
                 match r with
                 | Err _ => ret None
                 | Ok ips => ret (check_all g host ips)
                 end
             end
  end.

(** The addresses in turn, until one answers. *)
Fixpoint dial_each (network port : string) (ips : list IP) (last : gerror) : prog Y (res Conn) :=
  match ips with
  | [] => ret (Err last)
  | ip :: rest =>
      let! r := dial network (JoinHostPort (ip_String ip) port) in
      match r with
      | Ok conn => ret (Ok conn)
      | Err e => dial_each network port rest e
      end
  end.

Definition DialContext (g : guard) (network addr : string) : prog Y (res Conn) :=
  match SplitHostPort addr with
  | Err e => ret (Err (ErrWrap "egress dial" e))
  | Ok (host, port) =>
      match ParseIP host with
      | Some ip =>
          match checkIP g host ip with
          | Some e => ret (Err e)
          | None => dial network addr
          end
      | None =>
          if HostExempt g host then dial network addr
          else
            let! r := resolve host in
            match r with
            | Err e => ret (Err (ErrWrap "egress dial: resolve" e))
            | Ok [] => ret (Err (ErrMsg "egress dial: no addresses resolved"))
            | Ok ips =>
                match check_all g host ips with
                | Some e => ret (Err e)
                | None =>
                    let! r := dial_each network port ips (ErrMsg "") in
                    match r with
                    | Ok conn => ret (Ok conn)
                    | Err e => ret (Err (ErrWrap "egress dial" e))
                    end
                end
            end
      end
  end.

(** ** Redirects *)
Definition safeToFollow (from to : URL) : bool :=
  if negb (equal_fold (Host from) (Host to)) then false
  else if equal_fold (Scheme from) (Scheme to) then true
  else equal_fold (Scheme from) "http" && equal_fold (Scheme to) "https".

(** A request about to follow a redirect; header names are canonical. *)
Record request := {
  rq_URL : URL;
  rq_GetBody : bool;
  rq_ContentLength : Z;
  rq_Header : gmap string (list string);
}.

Definition stripped (h : gmap string (list string)) : gmap string (list string) :=
  delete "Cookie2" (delete "Cookie" (delete "Proxy-Authorization" (delete "Authorization" h))).

(** The request as it goes on, or why it does not; [via] are the requests made so
    far, the oldest first. *)
Definition CheckRedirect (g : guard) (req : request) (via : list request) : prog Y (res request) :=
  if (maxRedirects <=? length via)%nat then ret (Err (ErrMsg "stopped after 10 redirects"))
  else
    let! err := ValidateURL g (url_text (rq_URL req)) in
    match err with
    | Some e => ret (Err (ErrWrap "redirect blocked" e))
    | None =>
        match via with
        | first :: _ =>
            if negb (safeToFollow (rq_URL first) (rq_URL req)) then
              if rq_GetBody req || negb (rq_ContentLength req =? 0)
              then ret (Err (ErrMsg "refusing to follow cross-origin redirect with a non-empty request body"))
              else ret (Ok {| rq_URL := rq_URL req; rq_GetBody := rq_GetBody req;
                              rq_ContentLength := rq_ContentLength req;
                              rq_Header := stripped (rq_Header req) |})
            else ret (Ok req)
        | [] => ret (Ok req)
        end
    end.
End Calls.
