(* ===== verification/EgressSafety.v ===== *)
(** * What the outgoing address guard lets through

    The address classes of httpsafe.go as blocks of 128-bit numbers; the allow-list
    read entry by entry; every address the guard hands to the dialer; what survives
    a redirect. *)

From S2P Require Import Prelude GoStrings IpAddr Egress.
From stdpp Require Import gmap list.
#[local] Open Scope Z_scope.

(** ** Ranges that are not public *)
Definition block6 (first : Z) (len : nat) : addr_block := {| bl_base := first * 2 ^ 112; bl_len := len |}.

Definition non_public : list addr_block :=
  [ block4 127 0 0 0 8; block4 0 0 0 0 8; block4 169 254 0 0 16; block4 224 0 0 0 4;
    block4 10 0 0 0 8; block4 172 16 0 0 12; block4 192 168 0 0 16; block4 100 64 0 0 10;
    block4 255 255 255 255 32;
    {| bl_base := 0; bl_len := 128 |}; {| bl_base := 1; bl_len := 128 |};
    block6 65152 10; block6 65280 8; block6 64512 7 ].

Definition is_public (ip : IP) : bool := negb (existsb (fun b => in_block b (num16 ip)) non_public).

Lemma land_240 b v : is_byte b -> 0 <= v < 16 -> (Z.land b 240 =? v * 16) = (b / 16 =? v).
Proof.
  intros Hb Hv. assert (Z.land b 240 = b / 16 * 16) as ->; [apply (land_high 4 b); [lia | done]|].
  destruct (Z.eqb_spec (b / 16) v); destruct (Z.eqb_spec (b / 16 * 16) (v * 16)); lia.
Qed.

Lemma land_192 b v : is_byte b -> 0 <= v < 4 -> (Z.land b 192 =? v * 64) = (b / 64 =? v).
Proof.
  intros Hb Hv. assert (Z.land b 192 = b / 64 * 64) as ->; [apply (land_high 2 b); [lia | done]|].
  destruct (Z.eqb_spec (b / 64) v); destruct (Z.eqb_spec (b / 64 * 64) (v * 64)); lia.
Qed.

Lemma land_254 b v : is_byte b -> 0 <= v < 128 -> (Z.land b 254 =? v * 2) = (b / 2 =? v).
Proof.
  intros Hb Hv. assert (Z.land b 254 = b / 2 * 2) as ->; [apply (land_high 7 b); [lia | done]|].
  destruct (Z.eqb_spec (b / 2) v); destruct (Z.eqb_spec (b / 2 * 2) (v * 2)); lia.
Qed.

(** A boolean equation between two decided propositions. *)
Lemma eqb_iff a b c d : (a = b <-> c = d) -> (a =? b) = (c =? d).
Proof. intros H. destruct (Z.eqb_spec a b), (Z.eqb_spec c d); tauto. Qed.

(** The class of an IPv4 address, byte by byte. *)
Definition denied4 (a b c d : Z) : bool :=
  (a =? 127) || (a =? 0) || ((a =? 169) && (b =? 254)) || (a / 16 =? 14) || (a =? 10) ||
  ((a =? 172) && (b / 16 =? 1)) || ((a =? 192) && (b =? 168)) || ((a =? 100) && (b / 64 =? 1)) ||
  ((a =? 255) && (b =? 255) && (c =? 255) && (d =? 255)).

Lemma ip_Equal4 a b c d a' b' c' d' :
  ip_Equal [a; b; c; d] (IPv4 a' b' c' d') = (a =? a') && (b =? b') && (c =? c') && (d =? d').
Proof.
  unfold ip_Equal, IPv4. cbn [length Nat.eqb andb app v4InV6Prefix].
  apply eq_bool_prop_intro. rewrite bool_decide_spec, !andb_True, !Is_true_true, !Z.eqb_eq.
  split; [by intros [= -> -> -> ->] | by intros [[[-> ->] ->] ->]].
Qed.

Lemma denied4_spec ip a b c d : To4 ip = Some [a; b; c; d] -> Forall is_byte [a; b; c; d] ->
  String.eqb (deniedRange ip) "" = negb (denied4 a b c d).
Proof.
  intros H4 Hb. unfold deniedRange. rewrite H4. unfold default; cbn [from_option]. unfold id.
  repeat match goal with H : Forall _ (_ :: _) |- _ => inversion_clear H end.
  unfold IsLoopback, IsUnspecified, IsLinkLocalUnicast, IsLinkLocalMulticast, IsMulticast, IsPrivate.
  assert (To4 [a; b; c; d] = Some [a; b; c; d]) as -> by done.
  unfold IPv4zero, IPv4bcast. rewrite !ip_Equal4.
  assert (ip_Equal [a; b; c; d] IPv6unspecified = false) as ->.
  { unfold ip_Equal. cbn [length Nat.eqb andb repeat IPv6unspecified]. by rewrite bool_decide_false. }
  unfold byte_at, denied4; cbn [nth].
  pose proof (land_240 a 14 ltac:(done) ltac:(lia)) as E1. pose proof (land_240 b 1 ltac:(done) ltac:(lia)) as E2.
  pose proof (land_192 b 1 ltac:(done) ltac:(lia)) as E3. 
  change (14 * 16) with 224 in E1. change (1 * 16) with 16 in E2. change (1 * 64) with 64 in E3.
  rewrite E1, E2, E3.
  assert ((a =? 224) && (b =? 0) && (c =? 0) || (a / 16 =? 14) = (a / 16 =? 14)) as ->.
  { destruct (Z.eqb_spec a 224) as [->|]; [|done]. by rewrite orb_true_r. }
  destruct (a =? 127), (a =? 0), ((a =? 169) && (b =? 254)), (a / 16 =? 14), (a =? 10),
    ((a =? 172) && (b / 16 =? 1)), ((a =? 192) && (b =? 168)), ((a =? 100) && (b / 64 =? 1)); cbn [andb orb negb]; try done.
  all: by repeat case_match.
Qed.

Lemma existsb_cons {A} (f : A -> bool) x l : existsb f (x :: l) = f x || existsb f l.
Proof. done. Qed.

Lemma orb_rotate a b c : a || b || c = a || (b || c).
Proof. by destruct a. Qed.

Lemma num4 a b c d : num [a; b; c; d] = a * 16777216 + b * 65536 + c * 256 + d.
Proof. cbn. lia. Qed.

Ltac powers :=
  repeat match goal with
  | |- context[Z.pow 2 ?e] => let w := eval vm_compute in (Z.pow 2 e) in change (Z.pow 2 e) with w
  end.
Ltac by_digits := rewrite !num4; powers; apply eq_true_iff_eq;
  rewrite ?andb_true_iff, !Z.eqb_eq; unfold is_byte in *; Z.div_mod_to_equations; lia.

Lemma blocks_of_four a b c d : Forall is_byte [a; b; c; d] ->
  existsb (fun bl => in_block bl (num (v4InV6Prefix ++ [a; b; c; d]))) non_public = denied4 a b c d.
Proof.
  intros Hb.
  assert (forall a' b' c' d' n, Forall is_byte [a'; b'; c'; d'] -> (n <= 32)%nat ->
    in_block (block4 a' b' c' d' n) (num (v4InV6Prefix ++ [a; b; c; d])) =
    (num [a; b; c; d] / 2 ^ (32 - Z.of_nat n) =? num [a'; b'; c'; d'] / 2 ^ (32 - Z.of_nat n))) as H4.
  { intros. by apply in_block_mapped. }
  repeat match goal with H : Forall _ (_ :: _) |- _ => inversion_clear H end.
  unfold non_public. rewrite !existsb_cons.
  rewrite !H4 by (lia || (repeat constructor; unfold is_byte; lia)).
  assert (forall bl, In bl [ {| bl_base := 0; bl_len := 128 |}; {| bl_base := 1; bl_len := 128 |};
    block6 65152 10; block6 65280 8; block6 64512 7 ] ->
    in_block bl (num (v4InV6Prefix ++ [a; b; c; d])) = false) as H6.
  { intros bl Hin. rewrite num_app, num4. change (num v4InV6Prefix) with 65535.
    cbn [In] in Hin. unfold in_block, block6 in *.
    destruct Hin as [<- | [<- | [<- | [<- | [<- | []]]]]]; cbn [bl_base bl_len length];
      apply Z.eqb_neq.
    all: powers; unfold is_byte in *.
    all: Z.div_mod_to_equations; lia. }
  rewrite !H6 by (cbn; tauto). cbn [existsb]. rewrite !orb_false_r.
  unfold denied4. rewrite !orb_rotate.
  repeat apply (f_equal2 orb); by_digits.
Qed.

(** The class of an IPv6 address. *)
Definition denied6 (ip : IP) : bool :=
  (num ip =? 0) || (num ip =? 1) || ((byte_at ip 0 =? 254) && (byte_at ip 1 / 64 =? 2)) ||
  (byte_at ip 0 =? 255) || (byte_at ip 0 / 2 =? 126).

Lemma equal6 ip x : length ip = 16%nat -> Forall is_byte ip -> length x = 16%nat -> Forall is_byte x ->
  ip_Equal ip x = (num ip =? num x).
Proof.
  intros Hl Hb Hlx Hx. unfold ip_Equal. rewrite Hl, Hlx. cbn [Nat.eqb].
  apply eq_bool_prop_intro. rewrite bool_decide_spec, Is_true_true, Z.eqb_eq.
  split; [by intros -> | apply num_inj; try done; congruence].
Qed.

Lemma unmapped_zero ip : ip_ok ip -> To4 ip = None -> ip_Equal ip IPv4zero = false.
Proof.
  intros Hok H4. pose proof (To4_none ip Hok H4) as (_ & Hl & Hp). unfold ip_Equal, IPv4zero, IPv4. rewrite Hl.
  cbn [length app v4InV6Prefix Nat.eqb]. apply bool_decide_false. intros ->. by apply Hp.
Qed.

Lemma denied6_spec ip : ip_ok ip -> To4 ip = None ->
  String.eqb (deniedRange ip) "" = negb (denied6 ip).
Proof.
  intros Hok H4. pose proof (To4_none ip Hok H4) as (_ & Hl & _).
  assert (is_byte (byte_at ip 0) /\ is_byte (byte_at ip 1)) as [B0 B1].
  { destruct Hok as [_ Hb]. destruct ip as [|x [|y ip]]; try done. inversion_clear Hb as [|?? Hx Hb'].
    by inversion_clear Hb'. }
  unfold deniedRange. rewrite H4. unfold default; cbn [from_option].
  unfold IsLoopback, IsUnspecified, IsLinkLocalUnicast, IsLinkLocalMulticast, IsMulticast, IsPrivate.
  rewrite !H4, unmapped_zero by done. cbn [orb]. unfold long. rewrite Hl. cbn [Nat.eqb andb].
  assert (Forall is_byte IPv6loopback /\ Forall is_byte IPv6unspecified) as [Hl1 Hu].
  { unfold IPv6loopback, IPv6unspecified. cbn [repeat app]. split; repeat constructor; unfold is_byte; lia. }
  rewrite !equal6 by (done || apply Hok).
  change (num IPv6loopback) with 1. change (num IPv6unspecified) with 0.
  pose proof (land_192 (byte_at ip 1) 2 B1 ltac:(lia)) as E1. change (2 * 64) with 128 in E1.
  pose proof (land_254 (byte_at ip 0) 126 B0 ltac:(lia)) as E2. change (126 * 2) with 252 in E2.
  rewrite E1, E2. unfold denied6.
  destruct (num ip =? 1), (num ip =? 0), ((byte_at ip 0 =? 254) && (byte_at ip 1 / 64 =? 2)),
    (byte_at ip 0 =? 255), (byte_at ip 0 / 2 =? 126); cbn [orb andb negb]; try done.
  all: by rewrite orb_true_r.
Qed.

Lemma in_block4_mapped a b c d n ip : Forall is_byte [a; b; c; d] -> (n <= 32)%nat -> ip_ok ip ->
  To4 ip = None -> in_block (block4 a b c d n) (num16 ip) = false.
Proof.
  intros Hb Hn Hip H4. destruct (in_block _ _) eqn:Hin; [|done].
  assert (length (IPv4 a b c d) = 16%nat) as Hl by done.
  assert (ip_ok (IPv4 a b c d)) as Hok.
  { split; [by right|]. apply Forall_app. split; [apply forall_byte_prefix | done]. }
  unfold block4 in Hin. rewrite <- (num16_long _ Hl) in Hin.
  apply in_block_family in Hin; [|done|done|lia]. rewrite H4 in Hin.
  destruct (proj2 Hin) as [? ?]; [by eexists | done].
Qed.

Lemma blocks_of_six ip : ip_ok ip -> To4 ip = None ->
  existsb (fun bl => in_block bl (num16 ip)) non_public = denied6 ip.
Proof.
  intros Hok H4. pose proof (To4_none ip Hok H4) as (_ & Hl & _).
  unfold non_public. rewrite !existsb_cons.
  rewrite !in_block4_mapped by (done || lia || (repeat constructor; unfold is_byte; lia)).
  cbn [orb existsb]. rewrite num16_long, orb_false_r by done. unfold denied6. rewrite !orb_rotate.
  destruct Hok as [_ Hb]. destruct ip as [|x [|y ip]]; try done. injection Hl as Hl.
  inversion_clear Hb as [|?? Hx Hb']. inversion_clear Hb' as [|?? Hy Hbs].
  pose proof (num_bounds ip Hbs) as Hn. unfold byte_at; cbn [nth num length].
  rewrite Hl in *. set (r := num ip) in *. unfold in_block, block6. cbn [bl_base bl_len]. powers.
  change (8 * Z.of_nat 14) with 112 in Hn. revert Hn. powers. intros Hn.
  repeat apply (f_equal2 orb); apply eq_true_iff_eq; rewrite ?andb_true_iff, !Z.eqb_eq; unfold is_byte in *;
    Z.div_mod_to_equations; lia.
Qed.

(** [deniedRange] is exactly membership in one of the blocks. *)
Lemma deniedRange_blocks ip : ip_ok ip -> String.eqb (deniedRange ip) "" = is_public ip.
Proof.
  intros Hok. unfold is_public. destruct (To4 ip) as [b|] eqn:H4.
  - destruct (To4_some ip b Hok H4) as (Ha & Hl & Hb). unfold num16. rewrite Ha.
    destruct b as [|x [|y [|z [|t []]]]]; try done.
    rewrite (denied4_spec ip x y z t), blocks_of_four by done. done.
  - by rewrite denied6_spec, blocks_of_six.
Qed.

(** ** The allow-list, entry by entry *)

(** What an entry written as an address or a network means. *)
Inductive names_net (e : string) : netip_addr -> nat -> Prop :=
| names_cidr t m a n :
    split2 "/"%char e = (t, Some m) -> ParseAddr t = Some a -> Zone a = "" -> m <> "" ->
    dtoi 0 m = Some (Z.of_nat n) -> (n <= BitLen a)%nat -> names_net e a n
| names_ip a :
    ParseCIDR e = None -> ParseAddr e = Some a -> Zone a = "" -> names_net e a (BitLen a).

(** What an entry written as a name means. *)
Definition names_host (e host : string) : Prop :=
  e <> "" /\ ParseCIDR e = None /\ ParseIP e = None /\ to_lower host = to_lower e.

(** An address a list of entries exempts, and a host name. *)
Definition listed (allowlist : list string) (ip : IP) : Prop :=
  exists e a n, e ∈ allowlist /\ names_net (trim_space e) a n /\ covers a n ip = true.
Definition listed_host (allowlist : list string) (host : string) : Prop :=
  exists e, e ∈ allowlist /\ names_host (trim_space e) host.

Lemma dtoi_nonneg n s r : 0 <= n -> dtoi n s = Some r -> 0 <= r.
Proof.
  revert n. induction s as [|c s IH]; intros n Hn; cbn [dtoi]; [by intros [= <-]|].
  destruct (digit c) as [d|] eqn:Hd; [|done]. apply digit_bounds in Hd.
  destruct (16777215 <=? _); [done|]. apply IH. lia.
Qed.

Lemma ParseCIDR_spec e net : ParseCIDR e = Some net -> exists a n, names_net e a n /\
  (forall ip, ip_ok ip -> Contains net ip = covers a n ip) /\
  (forall a' n', names_net e a' n' -> a' = a /\ n' = n).
Proof.
  intros Hp. pose proof Hp as Hc. unfold ParseCIDR in Hc.
  destruct (split2 _ e) as [t [m|]] eqn:He; [|done].
  destruct (ParseAddr t) as [a|] eqn:Ha; [|done].
  destruct (String.eqb_spec (Zone a) "") as [Hz|]; [|done]; cbn [negb] in Hc.
  destruct (String.eqb_spec m "") as [|Hm]; [done|].
  destruct (dtoi 0 m) as [n|] eqn:Hd; [|done]. pose proof (dtoi_nonneg 0 m n ltac:(lia) Hd) as Hn0.
  destruct (Z.ltb_spec (Z.of_nat (BitLen a)) n) as [|Hn]; [done|]. injection Hc as <-.
  exists a, (Z.to_nat n). split_and!.
  - eapply names_cidr; try done; [by rewrite Z2Nat.id | lia].
  - intros ip Hip. apply contains_covers; [by eapply ParseAddr_ok | lia | done].
  - intros a' n' Hnm. destruct Hnm as [t' m' a' n' Ht Ha' _ _ Hd' _|]; [|congruence].
    rewrite He in Ht. injection Ht as <- <-. rewrite Ha in Ha'. injection Ha' as <-.
    rewrite Hd in Hd'. injection Hd' as ->. split; [done | lia].
Qed.

(** A single address, as the guard stores it. *)
Lemma single_net a ip : addr_ok a -> ip_ok ip ->
  Contains (match To4 (As16 a) with
            | Some ip4 => {| net_IP := ip4; net_Mask := cidr_mask 32 (32 / 8) |}
            | None => {| net_IP := As16 a; net_Mask := cidr_mask 128 (128 / 8) |}
            end) ip = covers a (BitLen a) ip.
Proof.
  intros Ha Hip. assert (length (As16 a) = 16%nat /\ Forall is_byte (As16 a)) as [Hl Hb].
  { destruct a as [b|b z]; destruct Ha as [Hl Hb]; cbn [As16]; [|done].
    rewrite length_app, Hl. split; [done|]. apply Forall_app. split; [apply forall_byte_prefix | done]. }
  assert (ip_ok (As16 a)) as Hok by (split; [by right | done]).
  assert (covers a (BitLen a) ip = in_block {| bl_base := num (As16 a); bl_len := 128 |} (num16 ip)) as ->.
  { unfold covers. destruct a; cbn [BitLen]; by rewrite andb_true_r. }
  change (32 / 8)%nat with 4%nat. change (128 / 8)%nat with 16%nat.
  destruct (To4 (As16 a)) as [b|] eqn:H4.
  - destruct (To4_some _ b Hok H4) as (Hab & Hlb & Hbb). unfold as16 in Hab. rewrite Hl in Hab.
    cbn [Nat.eqb] in Hab. rewrite Hab.
    apply (contains_mapped b 32); [done|done|lia|done|].
    pose proof (mask_full b 4 Hbb Hlb) as Hm. change (8 * 4)%nat with 32%nat in Hm. rewrite Hm.
    unfold networkNumberAndMask, To4. cbn [net_IP net_Mask]. rewrite Hlb.
    cbn [Nat.eqb]. by rewrite Hlb.
  - rewrite <- (num16_long _ Hl). pose proof (mask_full _ 16 Hb Hl) as Hm. change (8 * 16)%nat with 128%nat in Hm.
    rewrite (contains_plain (As16 a) 128); [|done|done|lia|done|].
    + destruct (in_block _ _) eqn:Hin; [|done]. apply in_block_family in Hin; [|done|done|lia].
      rewrite H4 in Hin. destruct (To4 ip); [|done]. by destruct (proj1 Hin) as [? ?].
    + rewrite Hm. pose proof (length_cidr_mask 128 16) as Hlm. clear Hm. revert Hlm.
      generalize (cidr_mask 128 16) as m. intros m Hlm.
      unfold networkNumberAndMask, long. cbn [net_IP net_Mask]. rewrite H4, Hl, Hlm. cbn [Nat.eqb]. by rewrite Hl.
Qed.

Lemma ParseIP_spec e ip : ParseIP e = Some ip <->
  exists a, ParseAddr e = Some a /\ Zone a = "" /\ ip = As16 a.
Proof.
  unfold ParseIP. destruct (ParseAddr e) as [a|].
  - destruct (String.eqb_spec (Zone a) "") as [Hz|Hz].
    + split; [intros [= <-]; by exists a | by intros (a' & [= <-] & _ & ->)].
    + split; [done | by intros (a' & [= <-] & ? & _)].
  - split; [done | by intros (a & ? & _)].
Qed.

Lemma ParseIP_ok e ip : ParseIP e = Some ip -> ip_ok ip.
Proof.
  intros (a & Ha & _ & ->)%ParseIP_spec. apply ParseAddr_ok in Ha. unfold ip_ok.
  destruct a as [b|b z]; destruct Ha as [Hl Hb]; cbn [As16].
  - rewrite length_app, Hl. split; [by right|]. apply Forall_app. split; [apply forall_byte_prefix | done].
  - split; [by right | done].
Qed.

Lemma allowlisted_snoc nets n ip h h' :
  ipAllowlisted (Some {| allowHosts := h; allowNets := nets ++ [n] |}) ip =
  ipAllowlisted (Some {| allowHosts := h'; allowNets := nets |}) ip || Contains n ip.
Proof. unfold ipAllowlisted; cbn. rewrite existsb_app. cbn. by rewrite orb_false_r. Qed.

Lemma add_entry_spec g e g' : add_entry g e = Ok g' ->
  (forall ip, ip_ok ip -> ipAllowlisted (Some g') ip = true <->
    ipAllowlisted (Some g) ip = true \/ exists a n, names_net (trim_space e) a n /\ covers a n ip = true) /\
  (forall host, to_lower host ∈ allowHosts g' <-> to_lower host ∈ allowHosts g \/ names_host (trim_space e) host).
Proof.
  unfold add_entry. set (t := trim_space e). destruct g as [hs nets]. cbn [allowHosts allowNets].
  destruct (String.eqb_spec t "") as [Ht|Ht].
  { intros [= <-]. rewrite Ht. split; [intros ip _ | intros host].
    - split; [by left|]. intros [H|(a & n & Hn & _)]; [done|]. by inversion Hn; simplify_eq.
    - split; [by left|]. by intros [H|[? _]]. }
  destruct (ParseCIDR t) as [net|] eqn:Hc.
  { intros [= <-]. destruct (ParseCIDR_spec t net Hc) as (a & n & Hn & Hcov & Hu). split.
    - intros ip Hip. rewrite (allowlisted_snoc nets net ip hs hs), orb_true_iff, (Hcov ip Hip).
      split; (intros [H|H]; [by left | right]).
      + by exists a, n.
      + destruct H as (a' & n' & Hn' & H). by destruct (Hu a' n' Hn') as [-> ->].
    - intros host. cbn. split; [by left|]. intros [H|(_ & ? & _)]; congruence. }
  destruct (ParseIP t) as [ip0|] eqn:Hi.
  { pose proof Hi as (a & Ha & Hz & ->)%ParseIP_spec. intros Hg.
    assert (forall ip, ip_ok ip -> ipAllowlisted (Some g') ip =
      ipAllowlisted (Some {| allowHosts := hs; allowNets := nets |}) ip || covers a (BitLen a) ip) as Hal.
    { intros ip Hip. rewrite <- (single_net a ip (ParseAddr_ok _ _ Ha) Hip).
      destruct (To4 (As16 a)); injection Hg as <-; apply allowlisted_snoc. }
    split.
    - intros ip Hip. rewrite Hal, orb_true_iff by done. split; (intros [H|H]; [by left | right]).
      + exists a, (BitLen a). split; [by apply names_ip | done].
      + destruct H as (a' & n' & Hn' & H). destruct Hn' as [t' m' a' n' Ht' Ha' Hz' Hm' Hd' Hb'|]; [|congruence].
        exfalso. unfold ParseCIDR in Hc. rewrite Ht', Ha', Hz', Hd' in Hc.
        destruct (String.eqb_spec m' ""); [done|]. cbn [negb String.eqb] in Hc.
        destruct (Z.ltb_spec (Z.of_nat (BitLen a')) (Z.of_nat n')); [lia | done].
    - intros host. assert (allowHosts g' = hs) as -> by by destruct (To4 (As16 a)); injection Hg as <-.
      split; [by left|]. intros [H|(_ & _ & ? & _)]; congruence. }
  destruct (contains_any t "/ "); [done|]. intros [= <-]. split.
  - intros ip _. split; [by left|]. intros [H|(a & n & Hn & _)]; [done|].
    destruct Hn as [t' m' a' n' Ht' Ha' Hz' Hm' Hd' Hb'|a' _ Ha' Hz']; exfalso.
    + unfold ParseCIDR in Hc. rewrite Ht', Ha', Hz', Hd' in Hc.
      destruct (String.eqb_spec m' ""); [done|]. cbn [negb String.eqb] in Hc.
      destruct (Z.ltb_spec (Z.of_nat (BitLen a')) (Z.of_nat n')); [lia | done].
    + assert (ParseIP t = Some (As16 a')) by (apply ParseIP_spec; by exists a'). congruence.
  - intros host. cbn. rewrite elem_of_union, elem_of_singleton. unfold names_host. naive_solver.
Qed.

Lemma listed_entry e l ip : listed (e :: l) ip <->
  (exists a n, names_net (trim_space e) a n /\ covers a n ip = true) \/ listed l ip.
Proof.
  unfold listed. split.
  - intros (e' & a & n & [-> | He]%elem_of_cons & H); [left; by exists a, n | right; by exists e', a, n].
  - intros [(a & n & H) | (e' & a & n & He & H)]; [exists e, a, n | exists e', a, n]; by rewrite elem_of_cons; auto.
Qed.

Lemma listed_host_cons e l host : listed_host (e :: l) host <->
  names_host (trim_space e) host \/ listed_host l host.
Proof.
  unfold listed_host. split.
  - intros (e' & [-> | He]%elem_of_cons & H); [by left | right; by exists e'].
  - intros [H | (e' & He & H)]; [exists e | exists e']; by rewrite elem_of_cons; auto.
Qed.

Lemma add_entries_spec l g g' : add_entries g l = Ok g' ->
  (forall ip, ip_ok ip -> ipAllowlisted (Some g') ip = true <->
    ipAllowlisted (Some g) ip = true \/ listed l ip) /\
  (forall host, to_lower host ∈ allowHosts g' <-> to_lower host ∈ allowHosts g \/ listed_host l host).
Proof.
  revert g. induction l as [|e l IH]; intros g; cbn [add_entries].
  - intros [= <-]. unfold listed, listed_host. split; [intros ip _ | intros host]; split; try (by left).
    + intros [?|(e & a & n & []%not_elem_of_nil & _)]. done.
    + intros [?|(e & []%not_elem_of_nil & _)]. done.
  - destruct (add_entry g e) as [g1|] eqn:H1; [|done]. intros H2.
    destruct (add_entry_spec g e g1 H1) as [A1 B1]. destruct (IH g1 H2) as [A2 B2].
    split; [intros ip Hip; rewrite A2, A1, listed_entry by done | intros host; rewrite B2, B1, listed_host_cons]; tauto.
Qed.

Lemma NewGuard_spec l g : NewGuard l = Ok g ->
  (forall ip, ip_ok ip -> ipAllowlisted (Some g) ip = true <-> listed l ip) /\
  (forall host, to_lower host ∈ allowHosts g <-> listed_host l host).
Proof.
  intros H. destruct (add_entries_spec _ _ _ H) as [A B]. split; [intros ip Hip; rewrite A by done | intros host; rewrite B].
  - cbn. naive_solver.
  - cbn. set_solver.
Qed.

(** ** What is dialed *)

(** Every address handed to the dialer is written down. *)
Definition watched {Conn Y} (N : Network Conn Y) : Network Conn (Y * list string) := {|
  LookupIPAddr := fun host s =>
    (fst (LookupIPAddr host (fst s)), (snd (LookupIPAddr host (fst s)), snd s));
  dial := fun network addr s =>
    (fst (dial network addr (fst s)), (snd (dial network addr (fst s)), snd s ++ [addr])) |}.

(** A resolver answers with addresses of 4 or 16 bytes. *)
Definition answers_addresses {Conn Y} (N : Network Conn Y) : Prop :=
  forall host y ips, fst (LookupIPAddr host y) = Ok ips -> Forall ip_ok ips.

(** The destinations a list of entries permits. *)
Definition allowed (allowlist : list string) (ip : IP) : Prop := listed allowlist ip \/ is_public ip = true.

(** Why the guard may dial [a] when asked for [addr]. *)
Inductive permitted {Conn Y} (N : Network Conn Y) (allowlist : list string) (y : Y) (addr a : string) : Prop :=
| permitted_literal host port ip :
    SplitHostPort addr = Ok (host, port) -> ParseIP host = Some ip -> a = addr ->
    allowed allowlist ip -> permitted N allowlist y addr a
| permitted_name host port :
    SplitHostPort addr = Ok (host, port) -> ParseIP host = None -> a = addr ->
    listed_host allowlist host -> permitted N allowlist y addr a
| permitted_answer host port ips ip :
    SplitHostPort addr = Ok (host, port) -> ParseIP host = None ->
    fst (LookupIPAddr host y) = Ok ips -> Forall (allowed allowlist) ips ->
    ip ∈ ips -> a = JoinHostPort (ip_String ip) port -> permitted N allowlist y addr a.

Lemma checkIP_allowed l g host ip : NewGuard l = Ok g -> ip_ok ip ->
  checkIP (Some g) host ip = None -> allowed l ip.
Proof.
  intros Hg Hip. destruct (NewGuard_spec l g Hg) as [A _]. specialize (A ip Hip). unfold checkIP, allowed.
  destruct (ipAllowlisted (Some g) ip); [intros _; left; by apply A|].
  rewrite deniedRange_blocks by done. destruct (is_public ip); [by right | done].
Qed.

Lemma check_all_allowed l g host ips : NewGuard l = Ok g -> Forall ip_ok ips ->
  check_all (Some g) host ips = None -> Forall (allowed l) ips.
Proof.
  intros Hg. induction 1 as [|ip ips Hip _ IH]; [constructor|]. cbn [check_all].
  destruct (checkIP (Some g) host ip) eqn:Hc; [done|]. intros H.
  constructor; [by eapply checkIP_allowed | by apply IH].
Qed.

Lemma dial_each_watched {Conn Y} (N : Network Conn Y) network port ips last s :
  exists ds, snd (snd (dial_each (Network0 := watched N) network port ips last s)) = snd s ++ ds /\
    Forall (fun a => exists ip, ip ∈ ips /\ a = JoinHostPort (ip_String ip) port) ds.
Proof.
  revert last s. induction ips as [|ip ips IH]; intros last s; cbn [dial_each].
  { exists []. by rewrite app_nil_r. }
  unfold bind. cbn. destruct (fst (dial network _ (fst s))) as [c|e]; cbn.
  - exists [JoinHostPort (ip_String ip) port]. split; [done|]. repeat constructor. exists ip. by rewrite elem_of_cons; auto.
  - set (s1 := (_, _)). destruct (IH e s1) as (ds & -> & Hds).
    exists (JoinHostPort (ip_String ip) port :: ds). cbn. rewrite <- app_assoc. split; [done|].
    constructor; [exists ip; by rewrite elem_of_cons; auto|].
    eapply Forall_impl; [exact Hds|]. intros a (i & ? & ?). exists i. by rewrite elem_of_cons; auto.
Qed.

Lemma dials_permitted {Conn Y} (N : Network Conn Y) l g network addr y :
  NewGuard l = Ok g -> answers_addresses N ->
  Forall (permitted N l y addr) (snd (snd (DialContext (Network0 := watched N) (Some g) network addr (y, [])))).
Proof.
  intros Hg Hans. unfold DialContext. destruct (SplitHostPort addr) as [[host port]|e] eqn:Hs; [|constructor].
  destruct (ParseIP host) as [ip|] eqn:Hi.
  { destruct (checkIP (Some g) host ip) eqn:Hc; [constructor|]. cbn. repeat constructor.
    eapply permitted_literal; [done|done|done|]. eapply checkIP_allowed; [done | by eapply ParseIP_ok | done]. }
  destruct (HostExempt (Some g) host) eqn:Hx.
  { cbn. repeat constructor. eapply permitted_name; [done|done|done|].
    cbn in Hx. rewrite Hi in Hx. case_bool_decide; [|done]. by apply (proj2 (NewGuard_spec l g Hg)). }
  unfold bind. cbn. destruct (fst (LookupIPAddr host y)) as [ips|e] eqn:Hl; [|constructor].
  destruct ips as [|ip ips]; [constructor|].
  destruct (check_all (Some g) host (ip :: ips)) eqn:Hc; [constructor|].
  pose proof (check_all_allowed l g host _ Hg (Hans _ _ _ Hl) Hc) as Hall.
  set (s1 := (_, _)). destruct (dial_each_watched N network port (ip :: ips) (ErrMsg "") s1) as (ds & Hds & Hperm).
  assert (Forall (permitted N l y addr) ds) as Hp.
  { eapply Forall_impl; [exact Hperm|]. intros a (i & ? & ?). by eapply permitted_answer. }
  cbn in Hds. destruct (fst (dial_each _ _ _ _ s1)); cbn; rewrite Hds; done.
Qed.

(** Credentials and the requests that carry none. *)
Definition credential_headers : list string := ["Authorization"; "Proxy-Authorization"; "Cookie"; "Cookie2"].

(** A redirect that stays where it was: the same host and port, and no step down
    from https. *)
Definition same_place (from to : URL) : Prop :=
  to_lower (Host from) = to_lower (Host to) /\
  (to_lower (Scheme from) = to_lower (Scheme to) \/
   to_lower (Scheme from) = "http" /\ to_lower (Scheme to) = "https").

Lemma safeToFollow_iff from to : safeToFollow from to = true <-> same_place from to.
Proof.
  unfold safeToFollow, same_place, equal_fold.
  change (to_lower "http") with "http". change (to_lower "https") with "https".
  destruct (String.eqb_spec (to_lower (Host from)) (to_lower (Host to))) as [Hh|]; cbn [negb]; [|naive_solver].
  destruct (String.eqb_spec (to_lower (Scheme from)) (to_lower (Scheme to))); [naive_solver|].
  rewrite andb_true_iff, !String.eqb_eq. tauto.
Qed.

Lemma stripped_lookup h k : stripped h !! k = if bool_decide (k ∈ credential_headers) then None else h !! k.
Proof.
  unfold stripped. case_bool_decide as Hk.
  - unfold credential_headers in Hk. rewrite !elem_of_cons in Hk.
    destruct Hk as [-> | [-> | [-> | [-> | []%not_elem_of_nil]]]];
      rewrite ?lookup_delete_eq, ?lookup_delete_ne, ?lookup_delete_eq by done; try done.
    all: by repeat (rewrite lookup_delete_eq || rewrite lookup_delete_ne by done).
  - unfold credential_headers in Hk. rewrite !elem_of_cons in Hk.
    rewrite !lookup_delete_ne; [done | intros <-; tauto ..].
Qed.

(** What saving a URL has checked. *)
Definition vetted {Conn Y} `{!UrlLib} (N : Network Conn Y) (allowlist : list string) (raw : string) (y : Y) : Prop :=
  exists u, url_Parse raw = Ok u /\ (Scheme u = "http" \/ Scheme u = "https") /\ Hostname u <> "" /\
    (listed_host allowlist (Hostname u) \/
     match ParseIP (Hostname u) with
     | Some ip => allowed allowlist ip
     | None => match fst (LookupIPAddr (Hostname u) y) with
               | Ok ips => Forall (allowed allowlist) ips
               | Err _ => True
               end
     end).

Lemma validated {Conn Y} `{!UrlLib} (N : Network Conn Y) l g raw y :
  NewGuard l = Ok g -> answers_addresses N -> fst (ValidateURL (Some g) raw y) = None -> vetted N l raw y.
Proof.
  intros Hg Hans. unfold ValidateURL, vetted. destruct (url_Parse raw) as [u|e]; [|done].
  destruct (_ && _) eqn:Hsch; [done|]. destruct (String.eqb_spec (Hostname u) "") as [|Hh]; [done|]. intros Hv.
  exists u. split; [done|]. split.
  { apply andb_false_iff in Hsch. rewrite !negb_false_iff, !String.eqb_eq in Hsch. tauto. }
  split; [done|]. destruct (NewGuard_spec l g Hg) as [A B].
  destruct (HostExempt (Some g) (Hostname u)) eqn:Hx.
  { cbn in Hx. case_bool_decide as Hin; [left; by apply B|]. right.
    destruct (ParseIP (Hostname u)) as [ip|] eqn:Hi; [|done]. left. apply A; [by eapply ParseIP_ok | done]. }
  right. destruct (ParseIP (Hostname u)) as [ip|] eqn:Hi.
  { eapply checkIP_allowed; [done | by eapply ParseIP_ok | exact Hv]. }
  unfold bind, resolve in Hv. destruct (fst (LookupIPAddr (Hostname u) y)) as [ips|] eqn:Hl; [|done].
  eapply check_all_allowed; [done | by eapply Hans | exact Hv].
Qed.

(** A small world: three names and one host that answers. *)
Module Demo.
Definition urls : UrlLib := {| url_Parse := fun s =>
  if String.eqb s "https://good.example/x"
  then Ok {| Scheme := "https"; Host := "good.example"; url_text := s |}
  else if String.eqb s "https://other.example/x"
  then Ok {| Scheme := "https"; Host := "other.example"; url_text := s |}
  else Err (ErrMsg "parse") |}.
Definition names : Network nat unit := {|
  LookupIPAddr := fun host y =>
    (if String.eqb host "good.example" then Ok [[1; 1; 1; 1]; IPv4 8 8 8 8]
     else if String.eqb host "rebinding.example" then Ok [[8; 8; 8; 8]; [169; 254; 169; 254]]
     else if String.eqb host "corp.example" then Ok [[10; 1; 2; 3]]
     else Err (ErrExt "no such host"), y);
  dial := fun network addr y =>
    (if String.eqb addr "8.8.8.8:443" then Ok 1%nat else if String.eqb addr "10.1.2.3:443" then Ok 2%nat
     else Err (ErrExt "refused"), y) |}.
Definition allowlist : list string := [" 10.0.0.0/8"; "Build.Internal"; "fd00::/8"].
Definition g : Guard := match NewGuard allowlist with Ok g => g | Err _ => {| allowHosts := ∅; allowNets := [] |} end.

Lemma names_answers : answers_addresses names.
Proof.
  intros host y ips. cbn. repeat destruct (String.eqb _ _); intros [= <-];
    repeat constructor; cbn; try (by left); try (by right); unfold is_byte; lia.
Qed.

Definition dial_all (addr : string) : res nat * list string :=
  let r := DialContext (Network0 := watched names) (Some g) "tcp" addr (tt, []) in
  (fst r, snd (snd r)).

Example dials :
  map dial_all ["good.example:443"; "corp.example:443"; "10.1.2.3:443"; "build.internal:80"; "[::1]:443"] =
  [ (Ok 1%nat, ["1.1.1.1:443"; "8.8.8.8:443"]);
    (Ok 2%nat, ["10.1.2.3:443"]); (Ok 2%nat, ["10.1.2.3:443"]);
    (Err (ErrExt "refused"), ["build.internal:80"]);
    (Err (ErrMsg "egress to ::1 (::1) blocked: loopback address"), []) ].
Proof. by vm_compute. Qed.

Example one_private_answer_is_enough : snd (dial_all "rebinding.example:443") = [].
Proof. by vm_compute. Qed.

(** Addresses that are not publicly routable and that [deniedRange] lets through: the
    metadata address behind a NAT64 and a 6to4 prefix, benchmark and reserved space,
    the deprecated site-local range. *)
Example special_ranges_pass :
  map (fun s => deniedRange <$> ParseIP s)
    ["64:ff9b::a9fe:a9fe"; "2002:a9fe:a9fe::"; "198.18.0.1"; "240.0.0.1"; "192.0.0.8"; "fec0::1"; "::169.254.169.254"] =
  repeat (Some "") 7.
Proof. by vm_compute. Qed.

Definition hop (u : string) (host : string) : request := {|
  rq_URL := {| Scheme := "https"; Host := host; url_text := u |};
  rq_GetBody := false; rq_ContentLength := 0;
  rq_Header := {[ "Authorization" := ["Bearer t"]; "Accept" := ["*/*"] ]} |}.

(** A body is refused with an error, not handed back with the response. *)
Example body_is_an_error :
  fst (CheckRedirect (H := urls) (Network0 := names) (Some g)
    {| rq_URL := rq_URL (hop "https://other.example/x" "other.example"); rq_GetBody := true;
       rq_ContentLength := 5; rq_Header := ∅ |}
    [hop "https://good.example/x" "good.example"] tt) =
  Err (ErrMsg "refusing to follow cross-origin redirect with a non-empty request body").
Proof. by vm_compute. Qed.
End Demo.

(** ** The properties *)

(** C36: which addresses are private.  [deniedRange] names no range exactly when the address, read as
    a 128-bit number, lies outside every block of a fixed list: IPv4 loopback, this-network,
    link-local, multicast, the three private ranges, carrier-grade NAT and broadcast under the
    IPv4-mapped prefix, and IPv6 unspecified, loopback, link-local, multicast and unique-local. *)
Theorem denied_ranges_are_blocks ip : ip_ok ip ->
  deniedRange ip = "" <-> forall b, In b non_public -> in_block b (num16 ip) = false.
Proof.
  intros Hok. rewrite <- String.eqb_eq, deniedRange_blocks by done. unfold is_public.
  rewrite negb_true_iff. split.
  - intros H b Hb. destruct (in_block b (num16 ip)) eqn:Hin; [|done].
    rewrite <- H. symmetry. apply existsb_exists. by exists b.
  - intros H. destruct (existsb _ _) eqn:He; [|done].
    apply existsb_exists in He as (b & Hb & Hin). rewrite (H b Hb) in Hin. done.
Qed.

(** C16: no connection to a forbidden address.  Whatever the resolver answers, every address
    [DialContext] hands to the dialer is permitted by the operator's allow-list as it is written: it
    is the literal that was asked for and is public or inside a listed network; or the host name is
    itself an entry; or it is one of the addresses the guard resolved, and every address of that
    answer is public or inside a listed network. *)
Theorem guard_dials_only_permitted {Conn Y} (N : Network Conn Y) allowlist g network addr y :
  NewGuard allowlist = Ok g -> answers_addresses N ->
  Forall (permitted N allowlist y addr)
    (snd (snd (DialContext (Network0 := watched N) (Some g) network addr (y, [])))).
Proof. apply dials_permitted. Qed.

(** redirects.  A hop is followed only while fewer than ten requests were made and to an http or
    https URL whose host the allow-list permits as far as it resolves; and when the hop leaves the host
    and port of the first request, or steps down from https, it carries no body and none of the
    credential headers, every other header unchanged. *)
Theorem redirects_keep_credentials_home {Conn Y} `{!UrlLib} (N : Network Conn Y) allowlist g req first via y req' :
  NewGuard allowlist = Ok g -> answers_addresses N ->
  fst (CheckRedirect (Some g) req (first :: via) y) = Ok req' ->
  (length via < 9)%nat /\ vetted N allowlist (url_text (rq_URL req)) y /\ rq_URL req' = rq_URL req /\
  (same_place (rq_URL first) (rq_URL req) /\ req' = req \/
   ~ same_place (rq_URL first) (rq_URL req) /\ rq_GetBody req' = false /\ rq_ContentLength req' = 0 /\
   forall k, rq_Header req' !! k = if bool_decide (k ∈ credential_headers) then None else rq_Header req !! k).
Proof.
  intros Hg Hans. unfold CheckRedirect. cbn [length]. destruct (Nat.leb_spec maxRedirects (S (length via))) as [|Hv]; [done|].
  unfold maxRedirects in Hv. unfold bind.
  destruct (fst (ValidateURL (Some g) (url_text (rq_URL req)) y)) as [e|] eqn:Hval; [done|].
  apply (validated N allowlist) in Hval; [|done|done].
  pose proof (safeToFollow_iff (rq_URL first) (rq_URL req)) as Hsafe.
  destruct (safeToFollow (rq_URL first) (rq_URL req)); cbn [negb].
  - intros [= <-]. split_and!; try done; [lia|]. left. split; [by apply Hsafe | done].
  - destruct (rq_GetBody req) eqn:Hb; [done|]. cbn [orb].
    destruct (Z.eqb_spec (rq_ContentLength req) 0) as [Hc|]; [|done]. cbn [negb].
    intros [= <-]. cbn. split_and!; try done; [lia|]. right. split_and!; try done.
    + intros Hs. by apply Hsafe in Hs.
    + intros k. apply stripped_lookup.
Qed.

Lemma denied_ranges_are_blocks_witness :
  deniedRange [172; 32; 0; 1] = "" /\ forall b, In b non_public -> in_block b (num16 [172; 32; 0; 1]) = false.
Proof.
  assert (ip_ok [172; 32; 0; 1]) as Hok.
  { split; [by left|]. repeat constructor; unfold is_byte; lia. }
  split; [by vm_compute|]. apply (denied_ranges_are_blocks [172; 32; 0; 1] Hok). by vm_compute.
Defined.

Lemma guard_dials_only_permitted_witness :
  snd (Demo.dial_all "good.example:443") = ["1.1.1.1:443"; "8.8.8.8:443"] /\
  Forall (permitted Demo.names Demo.allowlist tt "good.example:443") (snd (Demo.dial_all "good.example:443")).
Proof.
  split; [by vm_compute|].
  apply (guard_dials_only_permitted Demo.names Demo.allowlist Demo.g "tcp" "good.example:443" tt);
    [by vm_compute | apply Demo.names_answers].
Defined.

Lemma redirects_keep_credentials_home_witness :
  exists req', fst (CheckRedirect (H := Demo.urls) (Network0 := Demo.names) (Some Demo.g)
      (Demo.hop "https://other.example/x" "other.example") [Demo.hop "https://good.example/x" "good.example"] tt) = Ok req' /\
    rq_Header req' !! "Authorization" = None /\ rq_Header req' !! "Accept" = Some ["*/*"].
Proof.
  set (r := fst _). destruct r as [req'|e] eqn:Hr; [|by vm_compute in Hr].
  exists req'. split; [done|].
  destruct (redirects_keep_credentials_home (H := Demo.urls) Demo.names Demo.allowlist Demo.g
    (Demo.hop "https://other.example/x" "other.example") (Demo.hop "https://good.example/x" "good.example") [] tt req')
    as (_ & _ & _ & [[[Hh _] _]|(_ & _ & _ & Hk)]).
  - by vm_compute.
  - apply Demo.names_answers.
  - exact Hr.
  - by vm_compute in Hh.
  - split; rewrite Hk; by vm_compute.
Defined.
