(* ===== verification/Float64.v ===== *)
(** * float64 arithmetic

    A finite float64 is the rational it stands for, and an operation is the exact
    result rounded to 53 significant bits, to the nearest and to even in a tie.  The
    values of the program stay far inside the exponent range, so that neither
    overflow nor subnormal numbers occur. *)

From S2P Require Import Prelude.
From Stdlib Require Import QArith Qround Qabs Lqa.
#[local] Open Scope Q_scope.

(** [2^e] for any exponent. *)
Definition pow2 (e : Z) : Q := if (0 <=? e)%Z then inject_Z (2 ^ e) else / inject_Z (2 ^ (- e)).

(** The nearest integer, the even one in a tie. *)
Definition round_even (x : Q) : Z :=
  let n := Qfloor x in
  match Qcompare (x - inject_Z n) (1 # 2) with
  | Lt => n
  | Gt => n + 1
  | Eq => if Z.even n then n else n + 1
  end%Z.

(** The binary exponent of a positive rational. *)
Definition exponent (x : Q) : Z :=
  let e := (Z.log2 (Qnum x) - Z.log2 (Zpos (Qden x)))%Z in
  if Qle_bool (pow2 e) x then e else (e - 1)%Z.

Definition fl_pos (x : Q) : Q :=
  let s := pow2 (52 - exponent x) in
  inject_Z (round_even (x * s)) / s.

Definition fl (x : Q) : Q :=
  Qred match Qcompare x 0 with
       | Eq => 0
       | Gt => fl_pos x
       | Lt => - fl_pos (- x)
       end.

(** Operations on float64 values. *)
Definition fadd (x y : Q) : Q := fl (x + y).
Definition fsub (x y : Q) : Q := fl (x - y).
Definition fmul (x y : Q) : Q := fl (x * y).
Definition fdiv (x y : Q) : Q := fl (x / y).
Definition fmin (x y : Q) : Q := if Qle_bool x y then x else y.
Definition of_int (n : Z) : Q := fl (inject_Z n).
(** [int(x)] *)
Definition to_int (x : Q) : Z := Z.quot (Qnum x) (Zpos (Qden x)).

(** ** The rounding error *)
Lemma pow2_pos e : 0 < pow2 e.
Proof.
  unfold pow2. assert (forall n, (0 <= n)%Z -> 0 < inject_Z (2 ^ n)) as H.
  { intros n Hn. change 0 with (inject_Z 0). rewrite <- Zlt_Qlt. apply Z.pow_pos_nonneg; lia. }
  destruct (Z.leb_spec 0 e); [by apply H|]. apply Qinv_lt_0_compat, H. lia.
Qed.

Lemma pow2_add e f : pow2 e * pow2 f == pow2 (e + f).
Proof.
  assert (forall e f, (0 <= e)%Z -> (0 <= f)%Z -> inject_Z (2 ^ e) * inject_Z (2 ^ f) == inject_Z (2 ^ (e + f))) as H.
  { intros a b Ha Hb. rewrite <- inject_Z_mult. by rewrite Z.pow_add_r by lia. }
  assert (forall n, (0 <= n)%Z -> ~ inject_Z (2 ^ n) == 0) as Hnz.
  { intros n Hn He. assert (0 < inject_Z (2 ^ n)) as Hp; [|lra].
    change 0 with (inject_Z 0). rewrite <- Zlt_Qlt. apply Z.pow_pos_nonneg; lia. }
  unfold pow2. destruct (Z.leb_spec 0 e), (Z.leb_spec 0 f), (Z.leb_spec 0 (e + f)); try lia.
  - by apply H.
  - replace e with (e + f + - f)%Z at 1 by lia. rewrite <- (H (e + f)%Z (- f)%Z) by lia.
    field. apply Hnz. lia.
  - replace (- f)%Z with (- (e + f) + e)%Z by lia. rewrite <- (H (- (e + f))%Z e) by lia.
    field. split; apply Hnz; lia.
  - replace f with (e + f + - e)%Z at 1 by lia. rewrite <- (H (e + f)%Z (- e)%Z) by lia.
    field. apply Hnz. lia.
  - replace (- e)%Z with (- (e + f) + f)%Z by lia. rewrite <- (H (- (e + f))%Z f) by lia.
    field. split; apply Hnz; lia.
  - replace (- (e + f))%Z with (- e + - f)%Z by lia. rewrite <- (H (- e)%Z (- f)%Z) by lia.
    field. split; apply Hnz; lia.
Qed.

Lemma exponent_below x : 0 < x -> pow2 (exponent x) <= x.
Proof.
  intros Hx. unfold exponent. destruct x as [n d].
  assert (0 < n)%Z as Hn by (unfold Qlt in Hx; cbn in Hx; lia). cbn [Qnum Qden].
  set (e := (Z.log2 n - Z.log2 (Zpos d))%Z). destruct (Qle_bool (pow2 e) (n # d)) eqn:He.
  - by apply Qle_bool_iff.
  - pose proof (Z.log2_spec n Hn) as [L _]. pose proof (Z.log2_spec (Zpos d) ltac:(lia)) as [_ U].
    pose proof (Z.log2_nonneg n). pose proof (Z.log2_nonneg (Zpos d)).
    assert (pow2 (e - 1) * pow2 (Z.log2 (Zpos d) + 1) == pow2 (Z.log2 n)) as Hp.
    { rewrite pow2_add. unfold e. f_equiv. lia. }
    assert (inject_Z (Zpos d) <= pow2 (Z.log2 (Zpos d) + 1)) as Hd.
    { unfold pow2. destruct (Z.leb_spec 0 (Z.log2 (Zpos d) + 1)); [|lia]. rewrite <- Zle_Qle. lia. }
    assert (pow2 (Z.log2 n) <= inject_Z n) as Hn'.
    { unfold pow2. destruct (Z.leb_spec 0 (Z.log2 n)); [|lia]. rewrite <- Zle_Qle. lia. }
    pose proof (pow2_pos (e - 1)).
    assert (pow2 (e - 1) * inject_Z (Zpos d) <= inject_Z n) as Hm by nra.
    rewrite (Qmake_Qdiv n d). apply Qle_shift_div_l; [|done].
    change 0 with (inject_Z 0). rewrite <- Zlt_Qlt. lia.
Qed.

Lemma round_even_near x : inject_Z (round_even x) - x <= 1 # 2 /\ x - inject_Z (round_even x) <= 1 # 2.
Proof.
  pose proof (Qfloor_le x) as Hl. pose proof (Qlt_floor x) as Hu. rewrite inject_Z_plus in Hu.
  change (inject_Z 1) with 1 in Hu.
  unfold round_even. destruct (Qcompare_spec (x - inject_Z (Qfloor x)) (1 # 2)) as [He|Hlt|Hgt].
  - destruct (Z.even _); rewrite ?inject_Z_plus; change (inject_Z 1) with 1; lra.
  - lra.
  - rewrite inject_Z_plus. change (inject_Z 1) with 1. lra.
Qed.

(** Half a unit in the last place. *)
Definition ulp : Q := 1 # (2 ^ 53).

Lemma pow2_52 : pow2 52 == inject_Z (2 ^ 52).
Proof. reflexivity. Qed.

Lemma fl_pos_near x : 0 < x -> x - x * ulp <= fl_pos x /\ fl_pos x <= x + x * ulp.
Proof.
  intros Hx. unfold fl_pos. set (s := pow2 (52 - exponent x)).
  pose proof (pow2_pos (52 - exponent x)) as Hs. fold s in Hs.
  assert (pow2 52 <= x * s) as Hm.
  { pose proof (exponent_below x Hx). assert (pow2 52 == pow2 (exponent x) * s) as ->.
    { unfold s. rewrite pow2_add. f_equiv. lia. }
    apply Qmult_le_compat_r; lra. }
  rewrite pow2_52 in Hm. destruct (round_even_near (x * s)) as [Ha Hb].
  set (r := inject_Z (round_even (x * s))) in *.
  assert (x * s * ulp >= 1 # 2) as Hu by (unfold ulp; change (inject_Z (2 ^ 52)) with (4503599627370496 # 1) in Hm;
    change (2 ^ 53)%positive with 9007199254740992%positive; lra).
  split.
  - apply Qle_shift_div_l; [done|]. assert ((x - x * ulp) * s == x * s - x * s * ulp) as -> by ring. lra.
  - apply Qle_shift_div_r; [done|]. assert ((x + x * ulp) * s == x * s + x * s * ulp) as -> by ring. lra.
Qed.

(** Rounding a value that is not negative. *)
Lemma fl_near x : 0 <= x -> x - x * ulp <= fl x /\ fl x <= x + x * ulp.
Proof.
  intros Hx. unfold fl. rewrite Qred_correct. destruct (Qcompare_spec x 0) as [He|Hlt|Hgt].
  - rewrite He. unfold ulp. lra.
  - lra.
  - by apply fl_pos_near.
Qed.

Lemma fl_nonneg x : 0 <= x -> 0 <= fl x.
Proof.
  intros Hx. destruct (fl_near x Hx) as [Hl _]. unfold ulp in Hl.
  change (2 ^ 53)%positive with 9007199254740992%positive in Hl. lra.
Qed.

#[export] Instance round_even_proper : Proper (Qeq ==> eq) round_even.
Proof.
  intros x y H. unfold round_even. rewrite (Qfloor_comp _ _ H).
  assert (Qcompare (x - inject_Z (Qfloor y)) (1 # 2) = Qcompare (y - inject_Z (Qfloor y)) (1 # 2)) as ->.
  { apply Qcompare_comp; [|reflexivity]. by rewrite H. }
  done.
Qed.

Lemma round_even_int n : round_even (inject_Z n) = n.
Proof.
  unfold round_even. rewrite Qfloor_Z.
  assert (Qcompare (inject_Z n - inject_Z n) (1 # 2) = Lt) as ->; [|done].
  apply -> Qlt_alt. lra.
Qed.

(** Integers below 2^53 are float64 values. *)
Lemma fl_int n : (0 <= n < 2 ^ 53)%Z -> fl (inject_Z n) == inject_Z n.
Proof.
  intros Hn. unfold fl. rewrite Qred_correct. destruct (Qcompare_spec (inject_Z n) 0) as [He|Hlt|Hgt].
  - by rewrite He.
  - change 0 with (inject_Z 0) in Hlt. rewrite <- Zlt_Qlt in Hlt. lia.
  - unfold fl_pos. set (e := exponent (inject_Z n)).
    assert (e < 53)%Z as He.
    { destruct (Z.lt_ge_cases e 53) as [|Hge]; [done|]. exfalso.
      pose proof (exponent_below _ Hgt) as Hb. fold e in Hb. unfold pow2 in Hb.
      destruct (Z.leb_spec 0 e); [|lia]. rewrite <- Zle_Qle in Hb.
      assert (2 ^ 53 <= 2 ^ e)%Z by (apply Z.pow_le_mono_r; lia). lia. }
    assert (pow2 (52 - e) = inject_Z (2 ^ (52 - e))) as Hp.
    { unfold pow2. destruct (Z.leb_spec 0 (52 - e)); [done | lia]. }
    pose proof (pow2_pos (52 - e)) as Hpos. rewrite Hp in *.
    rewrite <- inject_Z_mult, round_even_int, inject_Z_mult. field. lra.
Qed.

Lemma to_int_bounds x : 0 <= x -> (0 <= to_int x)%Z /\ inject_Z (to_int x) <= x.
Proof.
  intros Hx. destruct x as [n d]. unfold to_int. cbn [Qnum Qden].
  assert (0 <= n)%Z as Hn by (unfold Qle in Hx; cbn in Hx; lia).
  rewrite Z.quot_div_nonneg by lia. split; [apply Z.div_pos; lia|].
  unfold Qle. cbn [inject_Z Qnum Qden]. pose proof (Z.mul_div_le n (Zpos d) ltac:(lia)). lia.
Qed.
