(* ===== verification/Limits.v ===== *)
(** * Rate limits: middleware/ratelimit.go

    The in-memory token buckets with their float64 arithmetic, the janitor that drops
    idle buckets, the middlewares over any backend, and the order in which the router
    puts them.  A backend is a handle into a store of limiters, so that two
    middlewares given the same backend share its buckets. *)

From S2P Require Import Prelude GoStrings Float64 Web.
From stdpp Require Import gmap functions.
From Stdlib Require Import QArith.
#[local] Open Scope Z_scope.

Record RateLimitConfig := {
  RequestsPerMinute : Z;
  BurstSize : Z;
  CleanupInterval : Z;
}.

Definition minute : Z := 60 * 1000000000.

Definition DefaultRateLimitConfig : RateLimitConfig :=
  {| RequestsPerMinute := 200; BurstSize := 50; CleanupInterval := 5 * minute |}.
Definition AuthRateLimitConfig : RateLimitConfig :=
  {| RequestsPerMinute := 20; BurstSize := 15; CleanupInterval := 5 * minute |}.
Definition UploadRateLimitConfig : RateLimitConfig :=
  {| RequestsPerMinute := 30; BurstSize := 5; CleanupInterval := 5 * minute |}.

(** What a middleware asks of a backend [b]. *)
Class RateLimiterBackend (B Y : Type) := {
  Allow : B -> string -> prog Y (res (bool * Z));
  RemainingTokens : B -> string -> prog Y (res Z);
}.

(** ** The in-memory limiter *)
Record rateLimitEntry := { tokens : Q; lastUpdate : Z }.

Record MemoryRateLimiter := { config : RateLimitConfig; entries : gmap string rateLimitEntry }.

Definition NewRateLimiter (cfg : RateLimitConfig) : MemoryRateLimiter :=
  {| config := cfg; entries := ∅ |}.

Definition set_entries (f : gmap string rateLimitEntry -> gmap string rateLimitEntry)
  (rl : MemoryRateLimiter) : MemoryRateLimiter :=
  {| config := config rl; entries := f (entries rl) |}.

(** [Time.Sub] and [Duration.Seconds] *)
Definition time_Sub (t u : Z) : Z := Z.max (- 2 ^ 63) (Z.min (2 ^ 63 - 1) (t - u)).
Definition Seconds (d : Z) : Q :=
  fadd (of_int (Z.quot d 1000000000)) (fdiv (of_int (Z.rem d 1000000000)) (of_int 1000000000)).

Definition tokensPerSecond (cfg : RateLimitConfig) : Q := fdiv (of_int (RequestsPerMinute cfg)) (of_int 60).

(** The tokens of an entry at [now], capped at the burst size. *)
Definition current (cfg : RateLimitConfig) (now : Z) (e : rateLimitEntry) : Q :=
  let elapsed := time_Sub now (lastUpdate e) in
  let tokensToAdd := fmul (Seconds elapsed) (tokensPerSecond cfg) in
  fmin (of_int (BurstSize cfg)) (fadd (tokens e) tokensToAdd).

(** [Allow] at time [now], under the lock. *)
Definition allow_at (now : Z) (key : string) (rl : MemoryRateLimiter) : bool * Z * MemoryRateLimiter :=
  match entries rl !! key with
  | None =>
      let t := fsub (of_int (BurstSize (config rl))) (of_int 1) in
      (true, to_int t, set_entries <[key := {| tokens := t; lastUpdate := now |}]> rl)
  | Some e =>
      let t := current (config rl) now e in
      if Qle_bool 1 t then
        let t := fsub t (of_int 1) in
        (true, to_int t, set_entries <[key := {| tokens := t; lastUpdate := now |}]> rl)
      else (false, to_int t, set_entries <[key := {| tokens := t; lastUpdate := now |}]> rl)
  end.

Definition remaining_at (now : Z) (key : string) (rl : MemoryRateLimiter) : Z :=
  match entries rl !! key with
  | None => BurstSize (config rl)
  | Some e => to_int (current (config rl) now e)
  end.

(** One tick of the janitor: entries idle for more than ten minutes go. *)
Definition cleanup_at (now : Z) (rl : MemoryRateLimiter) : MemoryRateLimiter :=
  set_entries (filter (fun ke => time_Sub now (lastUpdate ke.2) <= 10 * minute)) rl.

(** ** Limiters by handle *)
Definition store := nat -> MemoryRateLimiter.

#[export] Instance memory_backend : RateLimiterBackend nat (env store) := {|
  Allow := fun b key =>
    let! now := time_now in
    state (fun s => let r := allow_at now key (s b) in (Ok r.1, <[b := r.2]> s));
  RemainingTokens := fun b key =>
    let! now := time_now in
    gets (fun s => Ok (remaining_at now key (s b))) |}.

Definition cleanup (b : nat) : prog (env store) unit :=
  let! now := time_now in
  modify (fun s => <[b := cleanup_at now (s b)]> s).

(** ** The middlewares *)

(** What a middleware reads of the request. *)
Record rlctx := {
  ctx_keys : gmap string ctxval;
  ClientIP : string;
  RemoteAddr : string;
}.

Definition ctx_string (c : rlctx) (key : string) : option string :=
  match ctx_keys c !! key with
  | Some (VString id) => if String.eqb id "" then None else Some id
  | _ => None
  end.

Definition getRateLimitPrincipal (c : rlctx) : string :=
  match ctx_string c "user_id" with
  | Some id => "user:" +:+ id
  | None =>
      match ctx_string c "api_key_id" with
      | Some id => "apikey:" +:+ id
      | None => "ip:" +:+ (if String.eqb (ClientIP c) "" then RemoteAddr c else ClientIP c)
      end
  end.

(** The request goes on, with the [X-RateLimit-Remaining] header if it was set, or
    is answered 429. *)
Inductive verdict :=
| Next (remaining : option Z)
| TooManyRequests (error : string) (remaining : Z).

(** Names: the override limiters by principal. *)
Record PrincipalRateLimitOverride := { ov_RequestsPerMinute : Z; ov_Burst : Z }.

Definition override_config (ov : PrincipalRateLimitOverride) : RateLimitConfig :=
  let burst :=
    if ov_Burst ov =? 0 then
      let b := Z.quot (ov_RequestsPerMinute ov) 4 in if b <? 1 then 1 else b
    else ov_Burst ov in
  {| RequestsPerMinute := ov_RequestsPerMinute ov; BurstSize := burst; CleanupInterval := 5 * minute |}.

Section Middlewares.
Context {B Y : Type} `{!RateLimiterBackend B Y}.

Definition RateLimitMiddleware (backend : option B) (c : rlctx) : prog Y verdict :=
  match backend with
  | None => ret (Next None)
  | Some b =>
      let! r := Allow b (getRateLimitPrincipal c) in
      match r with
      | Err _ => ret (Next None)
      | Ok (allowed, remaining) =>
          if negb allowed then ret (TooManyRequests "Rate limit exceeded" remaining)
          else ret (Next (Some remaining))
      end
  end.

(** The organization's own bucket, when there is one and the request names it. *)
Definition org_check (orgBackend : option B) (c : rlctx) (remaining : Z) : prog Y verdict :=
  match orgBackend, ctx_string c "organization_id" with
  | Some ob, Some id =>
      let! r := Allow ob ("org:" +:+ id) in
      match r with
      | Err _ => ret (Next (Some remaining))
      | Ok (orgAllowed, orgRemaining) =>
          if negb orgAllowed then ret (TooManyRequests "Organization rate limit exceeded" orgRemaining)
          else ret (Next (Some remaining))
      end
  | _, _ => ret (Next (Some remaining))
  end.

Definition OrgRateLimitMiddleware (individual orgBackend : option B) (c : rlctx) : prog Y verdict :=
  match individual with
  | None => ret (Next None)
  | Some b =>
      let! r := Allow b (getRateLimitPrincipal c) in
      match r with
      | Err _ => ret (Next None)
      | Ok (allowed, remaining) =>
          if negb allowed then ret (TooManyRequests "Rate limit exceeded" remaining)
          else org_check orgBackend c remaining
      end
  end.

Definition PrincipalRateLimitMiddleware (defaultBackend : option B) (overrides : option (gmap string B))
  (c : rlctx) : prog Y verdict :=
  match defaultBackend with
  | None => ret (Next None)
  | Some b =>
      let principal := getRateLimitPrincipal c in
      let backend := match overrides with Some m => default b (m !! principal) | None => b end in
      let! r := Allow backend principal in
      match r with
      | Err _ => ret (Next None)
      | Ok (allowed, remaining) =>
          if negb allowed then ret (TooManyRequests "Rate limit exceeded" remaining)
          else ret (Next (Some remaining))
      end
  end.

(** The limits in front of every authenticated route, in the router's order. *)
Definition authenticated_limits (generalRateLimiter orgRateLimiter : option B)
  (principalOverrides : option (gmap string B)) (c : rlctx) : prog Y verdict :=
  let! v := PrincipalRateLimitMiddleware generalRateLimiter principalOverrides c in
  match v with
  | TooManyRequests e r => ret (TooManyRequests e r)
  | Next _ => OrgRateLimitMiddleware generalRateLimiter orgRateLimiter c
  end.
End Middlewares.

(** ** The router's configuration *)
Record RateLimitingConfig := {
  Enabled : bool;
  rl_RequestsPerMinute : Z;
  rl_Burst : Z;
  OrgRequestsPerMinute : Z;
  OrgBurst : Z;
  PrincipalOverrides : gmap string PrincipalRateLimitOverride;
}.

Definition generalCfg (cfg : RateLimitingConfig) : RateLimitConfig :=
  {| RequestsPerMinute := if 0 <? rl_RequestsPerMinute cfg then rl_RequestsPerMinute cfg
                          else RequestsPerMinute DefaultRateLimitConfig;
     BurstSize := if 0 <? rl_Burst cfg then rl_Burst cfg else BurstSize DefaultRateLimitConfig;
     CleanupInterval := CleanupInterval DefaultRateLimitConfig |}.

Definition orgCfg (cfg : RateLimitingConfig) : option RateLimitConfig :=
  if 0 <? OrgRequestsPerMinute cfg then
    Some {| RequestsPerMinute := OrgRequestsPerMinute cfg;
            BurstSize := if OrgBurst cfg =? 0 then Z.quot (OrgRequestsPerMinute cfg) 4 else OrgBurst cfg;
            CleanupInterval := 5 * minute |}
  else None.
