(* ===== verification/LimitsSafety.v ===== *)
(** * How many requests a bucket admits

    The float64 token bucket against the exact one: within any window of a run, with
    the janitor ticking in between and other clients served, one principal is
    admitted at most the burst plus the rate times the window, plus one. *)

From S2P Require Import Prelude GoStrings Float64 Web Limits.
From stdpp Require Import gmap functions.
From Stdlib Require Import QArith Qround Lqa.
#[local] Open Scope Z_scope.

(** ** A run of the limiters *)
Inductive event :=
| Request (b : nat) (key : string)
| Tick (b : nat)
| Peek (b : nat) (key : string).

(** Serve the events; how many requests of [key] limiter [b] admitted. *)
Fixpoint serve (b : nat) (key : string) (es : list event) : prog (env store) Z :=
  match es with
  | [] => ret 0
  | Request b' key' :: es' =>
      let! r := Allow b' key' in
      let! n := serve b key es' in
      ret (match r with
           | Ok (true, _) => if bool_decide (b' = b /\ key' = key) then n + 1 else n
           | _ => n
           end)
  | Tick b' :: es' => run! cleanup b' in serve b key es'
  | Peek b' key' :: es' => run! RemainingTokens b' key' in serve b key es'
  end.

(** ** The exact bucket *)
#[local] Open Scope Q_scope.

(** Tokens per nanosecond. *)
Definition rate (cfg : RateLimitConfig) : Q := inject_Z (RequestsPerMinute cfg) / inject_Z minute.
Definition burst (cfg : RateLimitConfig) : Q := inject_Z (BurstSize cfg).

Definition avail (cfg : RateLimitConfig) (now : Z) (o : option rateLimitEntry) : Q :=
  match o with
  | None => burst cfg
  | Some e => fmin (burst cfg) (tokens e + rate cfg * inject_Z (now - lastUpdate e))
  end.

(** The settings the bound is about: a bucket that ten minutes fill. *)
Record sound_config (cfg : RateLimitConfig) : Prop := {
  sc_burst : (1 <= BurstSize cfg < 2 ^ 53)%Z;
  sc_rate : (0 <= RequestsPerMinute cfg < 2 ^ 53)%Z;
  sc_fill : (BurstSize cfg <= 10 * RequestsPerMinute cfg)%Z;
}.

(** A limiter as a run leaves it. *)
Definition limiter_ok (cfg : RateLimitConfig) (now : Z) (rl : MemoryRateLimiter) : Prop :=
  config rl = cfg /\
  forall key e, entries rl !! key = Some e -> 0 <= tokens e /\ (lastUpdate e <= now)%Z.

(** The rounding error of one call. *)
Definition slack (cfg : RateLimitConfig) : Q := burst cfg * (16 * ulp).

Lemma ulp_small : 0 < ulp /\ ulp * 1000000 < 1.
Proof. split; reflexivity. Qed.

Lemma fmin_le_l x y : fmin x y <= x.
Proof. unfold fmin. destruct (Qle_bool x y) eqn:H; [lra|]. destruct (Qlt_le_dec y x); [lra|]. apply Qle_bool_iff in q. congruence. Qed.

Lemma fmin_le_r x y : fmin x y <= y.
Proof. unfold fmin. destruct (Qle_bool x y) eqn:H; [by apply Qle_bool_iff | lra]. Qed.

Lemma fmin_cases x y : fmin x y == x /\ x <= y \/ fmin x y == y /\ y <= x.
Proof.
  unfold fmin. destruct (Qle_bool x y) eqn:H; [left; apply Qle_bool_iff in H; lra|]. right.
  destruct (Qlt_le_dec y x); [lra|]. apply Qle_bool_iff in q. congruence.
Qed.

Lemma inject_pos n : (0 <= n)%Z -> 0 <= inject_Z n.
Proof. intros H. change 0 with (inject_Z 0). by rewrite <- Zle_Qle. Qed.

Lemma of_int_exact n : (0 <= n < 2 ^ 53)%Z -> of_int n == inject_Z n.
Proof. apply fl_int. Qed.

(** *** The elapsed time in seconds *)
Definition exact_seconds (d : Z) : Q := inject_Z d / inject_Z 1000000000.

Lemma Seconds_near d : (0 <= d < 2 ^ 63)%Z ->
  0 <= Seconds d /\ Seconds d <= exact_seconds d * (1 + 3 * ulp).
Proof.
  intros Hd. unfold Seconds. set (q := Z.quot d 1000000000). set (r := Z.rem d 1000000000).
  assert (d = 1000000000 * q + r /\ 0 <= r < 1000000000 /\ 0 <= q < 2 ^ 53)%Z as (Hqr & Hr & Hq).
  { unfold q, r. rewrite Z.quot_div_nonneg, Z.rem_mod_nonneg by lia. Z.div_mod_to_equations. lia. }
  assert (exact_seconds d == inject_Z q + inject_Z r / inject_Z 1000000000) as ->.
  { unfold exact_seconds. rewrite Hqr, inject_Z_plus, inject_Z_mult. by field. }
  unfold fadd, fdiv. pose proof (inject_pos q ltac:(lia)) as Q0. pose proof (inject_pos r ltac:(lia)) as R0.
  assert (of_int r / of_int 1000000000 == inject_Z r / inject_Z 1000000000) as Hrat.
  { by rewrite !of_int_exact by lia. }
  assert (0 <= inject_Z r / inject_Z 1000000000) as D0.
  { apply Qle_shift_div_l; [reflexivity | lra]. }
  set (x := inject_Z r / inject_Z 1000000000) in *.
  set (y := of_int r / of_int 1000000000) in *. change ulp with (1 # 9007199254740992).
  destruct (fl_near y) as [A1 A2]; [lra|]. change ulp with (1 # 9007199254740992) in A1, A2.
  set (f := fl y) in *. pose proof (of_int_exact q ltac:(lia)) as Hqe.
  destruct (fl_near (of_int q + f)) as [B1 B2]; [lra|]. change ulp with (1 # 9007199254740992) in B1, B2.
  split; lra.
Qed.

Ltac small_ulp := change ulp with (1 # 9007199254740992) in *.

Lemma tokensPerSecond_near cfg : (0 <= RequestsPerMinute cfg < 2 ^ 53)%Z ->
  0 <= tokensPerSecond cfg /\
  tokensPerSecond cfg <= inject_Z (RequestsPerMinute cfg) / inject_Z 60 * (1 + ulp).
Proof.
  intros Hr. unfold tokensPerSecond, fdiv.
  pose proof (of_int_exact (RequestsPerMinute cfg) Hr) as He. pose proof (inject_pos (RequestsPerMinute cfg) ltac:(lia)).
  set (y := of_int (RequestsPerMinute cfg) / of_int 60).
  assert (y == inject_Z (RequestsPerMinute cfg) / inject_Z 60) as Hy.
  { unfold y. by rewrite He, (of_int_exact 60) by lia. }
  assert (0 <= inject_Z (RequestsPerMinute cfg) / inject_Z 60) as H0 by (apply Qle_shift_div_l; [reflexivity | lra]).
  set (x := inject_Z _ / inject_Z 60) in *. destruct (fl_near y) as [A1 A2]; [lra|]. small_ulp. split; lra.
Qed.

Lemma Sub_bounds t u : (u <= t)%Z -> (0 <= time_Sub t u < 2 ^ 63 /\ time_Sub t u <= t - u)%Z.
Proof. unfold time_Sub. lia. Qed.

(** Products of two bounded values. *)
Lemma product_near a b a' b' p q : 0 <= a -> 0 <= b -> 0 <= p -> 0 <= q -> a <= a' * (1 + p) -> b <= b' * (1 + q) ->
  a * b <= a' * b' * ((1 + p) * (1 + q)).
Proof.
  intros Ha Hb Hp Hq H1 H2. assert (a * b <= a' * (1 + p) * b) by (apply Qmult_le_compat_r; lra).
  assert (a' * (1 + p) * b <= a' * (1 + p) * (b' * (1 + q))).
  { rewrite !(Qmult_comm (a' * (1 + p))). apply Qmult_le_compat_r; lra. }
  lra.
Qed.

(** What has been earned since the last call. *)
Lemma earned_near cfg d e : (0 <= RequestsPerMinute cfg < 2 ^ 53)%Z -> (0 <= d < 2 ^ 63)%Z -> (d <= e)%Z ->
  let t := fmul (Seconds d) (tokensPerSecond cfg) in
  0 <= t /\ t <= rate cfg * inject_Z e * (1 + 6 * ulp).
Proof.
  intros Hr Hd Hde t. destruct (Seconds_near d Hd) as [S0 S1]. destruct (tokensPerSecond_near cfg Hr) as [T0 T1].
  assert (0 <= Seconds d * tokensPerSecond cfg) as P0 by by apply Qmult_le_0_compat.
  unfold t, fmul. destruct (fl_near _ P0) as [_ F]. split; [by apply fl_nonneg|].
  assert (0 <= ulp) as U0 by (small_ulp; lra).
  pose proof (product_near _ _ _ _ (3 * ulp) ulp S0 T0 ltac:(lra) U0 S1 T1) as P1.
  assert (exact_seconds d * (inject_Z (RequestsPerMinute cfg) / inject_Z 60) == rate cfg * inject_Z d) as Hx.
  { unfold exact_seconds, rate, minute. rewrite !inject_Z_mult. by field. }
  rewrite Hx in P1. set (x := rate cfg * inject_Z d) in *.
  assert (0 <= rate cfg) as R0.
  { unfold rate. apply Qle_shift_div_l; [reflexivity|]. pose proof (inject_pos (RequestsPerMinute cfg) ltac:(lia)). lra. }
  assert (0 <= x <= rate cfg * inject_Z e) as [X0 X1].
  { unfold x. split; [apply Qmult_le_0_compat; [done | apply inject_pos; lia]|].
    rewrite !(Qmult_comm (rate cfg)). apply Qmult_le_compat_r; [rewrite <- Zle_Qle; lia | done]. }
  set (y := rate cfg * inject_Z e) in *. set (p := Seconds d * tokensPerSecond cfg) in *. small_ulp. lra.
Qed.

Lemma avail_after cfg now t :
  avail cfg now (Some {| tokens := t; lastUpdate := now |}) <= t.
Proof.
  cbn. rewrite Z.sub_diag. eapply Qle_trans; [apply fmin_le_r|].
  change (inject_Z 0) with 0. lra.
Qed.

Lemma burst_pos cfg : sound_config cfg -> 1 <= burst cfg /\ of_int (BurstSize cfg) == burst cfg.
Proof.
  intros [Hb _ _]. split; [|by apply of_int_exact; lia].
  unfold burst. change 1 with (inject_Z 1). rewrite <- Zle_Qle. lia.
Qed.

(** The float64 bucket against the exact one. *)
Lemma current_near cfg now e : sound_config cfg -> 0 <= tokens e -> (lastUpdate e <= now)%Z ->
  0 <= current cfg now e /\ current cfg now e <= burst cfg /\
  current cfg now e <= avail cfg now (Some e) + burst cfg * (8 * ulp).
Proof.
  intros Hc Ht Hl. destruct (burst_pos cfg Hc) as [B1 Be]. destruct Hc as [_ Hr _].
  destruct (Sub_bounds now (lastUpdate e) Hl) as [Hd Hde]. unfold current, avail.
  destruct (earned_near cfg _ _ Hr Hd Hde) as [E0 E1].
  set (t := fmul _ _) in *. set (x := rate cfg * inject_Z (now - lastUpdate e)) in *.
  destruct (fl_near (tokens e + t)) as [F1 F2]; [lra|]. fold (fadd (tokens e) t) in F1, F2.
  set (f := fadd (tokens e) t) in *.
  destruct (fmin_cases (of_int (BurstSize cfg)) f) as [[M1 M2]|[M1 M2]];
    destruct (fmin_cases (burst cfg) (tokens e + x)) as [[N1 N2]|[N1 N2]]; small_ulp; split_and!; lra.
Qed.

Lemma slack_pos cfg : sound_config cfg -> 0 <= slack cfg.
Proof. intros Hc. destruct (burst_pos cfg Hc) as [B1 _]. unfold slack. small_ulp. lra. Qed.

Lemma rate_pos cfg : sound_config cfg -> 0 <= rate cfg.
Proof.
  intros [_ Hr _]. unfold rate. apply Qle_shift_div_l; [reflexivity|].
  pose proof (inject_pos (RequestsPerMinute cfg) ltac:(lia)). lra.
Qed.

Lemma avail_bounds cfg now o : sound_config cfg ->
  (forall e, o = Some e -> 0 <= tokens e /\ (lastUpdate e <= now)%Z) ->
  0 <= avail cfg now o /\ avail cfg now o <= burst cfg.
Proof.
  intros Hc Ho. destruct (burst_pos cfg Hc) as [B1 _]. destruct o as [e|]; cbn; [|lra].
  destruct (Ho e eq_refl) as [He Hl]. split; [|apply fmin_le_l].
  assert (0 <= rate cfg * inject_Z (now - lastUpdate e)).
  { apply Qmult_le_0_compat; [by apply rate_pos | apply inject_pos; lia]. }
  destruct (fmin_cases (burst cfg) (tokens e + rate cfg * inject_Z (now - lastUpdate e))) as [[? ?]|[? ?]]; lra.
Qed.

(** One call takes a token for every request it admits. *)
Lemma allow_step cfg key now rl : sound_config cfg -> limiter_ok cfg now rl ->
  let r := allow_at now key rl in
  limiter_ok cfg now r.2 /\
  inject_Z (if r.1.1 then 1 else 0) + avail cfg now (entries r.2 !! key) <=
    avail cfg now (entries rl !! key) + slack cfg /\
  (forall k, k <> key -> entries r.2 !! k = entries rl !! k).
Proof.
  intros Hc [Hcfg Hent]. destruct (burst_pos cfg Hc) as [B1 Be]. unfold allow_at, fsub.
  assert (of_int 1 == 1) as H1 by by apply (of_int_exact 1).
  assert (forall t, 0 <= t -> limiter_ok cfg now (set_entries <[key := {| tokens := t; lastUpdate := now |}]> rl)) as Hset.
  { intros t Ht. split; [done|]. intros k e. cbn. destruct (decide (k = key)) as [->|Hk].
    - rewrite lookup_insert_eq. intros [= <-]. cbn. split; [done | lia].
    - rewrite lookup_insert_ne by done. apply Hent. }
  assert (forall t k, k <> key -> entries (set_entries <[key := {| tokens := t; lastUpdate := now |}]> rl) !! k = entries rl !! k) as Hne.
  { intros t k Hk. cbn. by rewrite lookup_insert_ne. }
  assert (forall t, entries (set_entries <[key := {| tokens := t; lastUpdate := now |}]> rl) !! key =
    Some {| tokens := t; lastUpdate := now |}) as Heq by by intros t; cbn; rewrite lookup_insert_eq.
  rewrite Hcfg. unfold slack. destruct (entries rl !! key) as [e|] eqn:He.
  - destruct (Hent key e He) as [Ht Hl]. destruct (current_near cfg now e Hc Ht Hl) as (C0 & C1 & C2).
    set (c := current cfg now e) in *. destruct (Qle_bool 1 c) eqn:Hle; cbn [fst snd].
    + apply Qle_bool_iff in Hle. destruct (fl_near (c - of_int 1)) as [F1 F2]; [lra|].
      set (f := fl (c - of_int 1)) in *. rewrite Heq. pose proof (avail_after cfg now f).
      change (inject_Z 1) with 1. small_ulp. split_and!; [apply Hset; lra | lra | intros k Hk; by apply Hne].
    + rewrite Heq. pose proof (avail_after cfg now c). change (inject_Z 0) with 0. small_ulp.
      split_and!; [by apply Hset | lra | intros k Hk; by apply Hne].
  - cbn [fst snd]. destruct (fl_near (of_int (BurstSize cfg) - of_int 1)) as [F1 F2]; [lra|].
    set (f := fl _) in *. rewrite Heq. pose proof (avail_after cfg now f). cbn [avail] in *.
    change (inject_Z 1) with 1. small_ulp. split_and!; [apply Hset; lra | lra | intros k Hk; by apply Hne].
Qed.

(** The janitor drops only buckets that are full again. *)
Lemma cleanup_step cfg key now rl : sound_config cfg -> limiter_ok cfg now rl ->
  limiter_ok cfg now (cleanup_at now rl) /\
  avail cfg now (entries (cleanup_at now rl) !! key) <= avail cfg now (entries rl !! key).
Proof.
  intros Hc [Hcfg Hent]. split.
  { split; [done|]. intros k e He. cbn in He. apply map_lookup_filter_Some in He as [He _]. by apply (Hent k). }
  cbn. destruct (entries rl !! key) as [e|] eqn:He.
  - destruct (decide (time_Sub now (lastUpdate e) <= 10 * minute)%Z) as [Hd|Hd].
    { rewrite (map_lookup_filter_Some_2 _ _ key e) by done. apply Qle_refl. }
    rewrite (proj2 (map_lookup_filter_None _ _ key)) by (right; intros e' He'; rewrite He in He'; injection He' as <-; exact Hd).
    destruct (Hent key e He) as [Ht Hl]. cbn [avail].
    assert (burst cfg <= rate cfg * inject_Z (now - lastUpdate e)) as Hfull.
    { assert (burst cfg <= rate cfg * inject_Z (10 * minute)) as H10.
      { assert (rate cfg * inject_Z (10 * minute) == inject_Z (10 * RequestsPerMinute cfg)) as ->.
        { unfold rate. rewrite !inject_Z_mult. unfold minute. by field. }
        unfold burst. rewrite <- Zle_Qle. apply Hc. }
      eapply Qle_trans; [exact H10|]. rewrite !(Qmult_comm (rate cfg)).
      apply Qmult_le_compat_r; [|by apply rate_pos]. rewrite <- Zle_Qle. unfold time_Sub, minute in *. lia. }
    destruct (fmin_cases (burst cfg) (tokens e + rate cfg * inject_Z (now - lastUpdate e))) as [[? ?]|[? ?]]; lra.
  - rewrite (proj2 (map_lookup_filter_None _ _ key)) by by left. apply Qle_refl.
Qed.

Lemma avail_later cfg now now' o : sound_config cfg -> (now <= now')%Z ->
  avail cfg now' o <= avail cfg now o + rate cfg * inject_Z (now' - now).
Proof.
  intros Hc Hn. assert (0 <= rate cfg * inject_Z (now' - now)).
  { apply Qmult_le_0_compat; [by apply rate_pos | apply inject_pos; lia]. }
  destruct o as [e|]; cbn; [|lra].
  assert (rate cfg * inject_Z (now' - lastUpdate e) ==
    rate cfg * inject_Z (now - lastUpdate e) + rate cfg * inject_Z (now' - now)) as Hs.
  { rewrite <- Qmult_plus_distr_r, <- inject_Z_plus. by replace (now - lastUpdate e + (now' - now))%Z with (now' - lastUpdate e)%Z by lia. }
  destruct (fmin_cases (burst cfg) (tokens e + rate cfg * inject_Z (now - lastUpdate e))) as [[? ?]|[? ?]];
    destruct (fmin_cases (burst cfg) (tokens e + rate cfg * inject_Z (now' - lastUpdate e))) as [[? ?]|[? ?]]; lra.
Qed.

Lemma store_same b rl (s : store) : (<[b := rl]> s : store) b = rl.
Proof. unfold insert, fn_insert. by rewrite decide_True. Qed.

Lemma store_other b b' rl (s : store) : b' <> b -> (<[b' := rl]> s : store) b = s b.
Proof. intros Hb. unfold insert, fn_insert. by rewrite decide_False. Qed.

(** ** Runs *)
Section Run.
Context (cfg : RateLimitConfig) (b : nat) (key : string) (Hc : sound_config cfg).

Definition potential (w : env store) : Q := avail cfg (clock w) (entries (st w b) !! key).

(** What [n] calls may have admitted between two worlds. *)
Definition within (n : Q) (calls : nat) (w w' : env store) : Prop :=
  (clock w <= clock w')%Z /\ limiter_ok cfg (clock w') (st w' b) /\
  n + potential w' <= potential w + rate cfg * inject_Z (clock w' - clock w) + inject_Z (Z.of_nat calls) * slack cfg.

Definition fit (w : env store) : Prop := limiter_ok cfg (clock w) (st w b).

Lemma within_refl w : fit w -> within 0 0 w w.
Proof.
  intros Hw. split_and!; [lia | done|]. rewrite Z.sub_diag. change (inject_Z 0) with 0.
  change (inject_Z (Z.of_nat 0)) with 0. lra.
Qed.

Lemma within_trans m n c d w1 w2 w3 : within m c w1 w2 -> within n d w2 w3 -> within (m + n) (c + d) w1 w3.
Proof.
  intros (T1 & _ & P1) (T2 & F2 & P2). split_and!; [lia | done|].
  replace (clock w3 - clock w1)%Z with ((clock w2 - clock w1) + (clock w3 - clock w2))%Z by lia.
  rewrite Nat2Z.inj_add, !inject_Z_plus. lra.
Qed.

(** Reading the clock. *)
Lemma within_now w : fit w -> within 0 0 w (snd (time_now w)) /\ fst (time_now w) = clock (snd (time_now w)).
Proof.
  intros [Hcfg Hent]. split; [|done]. unfold time_now. cbn. split_and!; cbn; [lia| |].
  - split; [done|]. intros k e He. destruct (Hent k e He). split; [done | lia].
  - unfold potential. cbn. change (inject_Z (Z.of_nat 0)) with 0.
    pose proof (avail_later cfg (clock w) (clock w + Z.max 0 (hd 0%Z (ticks w)))%Z (entries (st w b) !! key) Hc ltac:(lia)).
    lra.
Qed.

(** A change of the store at a fixed time. *)
Lemma within_store n calls w s : fit w -> limiter_ok cfg (clock w) (s b) ->
  n + avail cfg (clock w) (entries (s b) !! key) <= potential w + inject_Z (Z.of_nat calls) * slack cfg ->
  within n calls w (Env s (faults w) (clock w) (ticks w)).
Proof.
  intros _ Hs Hp. split_and!; cbn; [lia | done|]. unfold potential at 1. cbn. rewrite Z.sub_diag.
  change (inject_Z 0) with 0. lra.
Qed.

Lemma Allow_eq b' key' (w : env store) :
  let w1 := snd (time_now w) in
  let r := allow_at (clock w1) key' (st w1 b') in
  Allow b' key' w = (Ok r.1, Env (<[b' := r.2]> (st w1)) (faults w1) (clock w1) (ticks w1)).
Proof. reflexivity. Qed.

Lemma cleanup_eq b' (w : env store) :
  let w1 := snd (time_now w) in
  cleanup b' w = (tt, Env (<[b' := cleanup_at (clock w1) (st w1 b')]> (st w1)) (faults w1) (clock w1) (ticks w1)).
Proof. reflexivity. Qed.

Lemma within_after n calls w w' : within 0 0 w (snd (time_now w)) -> within n calls (snd (time_now w)) w' ->
  within n calls w w'.
Proof.
  intros H1 H2. pose proof (within_trans 0 n 0 calls _ _ _ H1 H2) as (T & F & P).
  split_and!; [done | done|]. cbn [Nat.add] in P. lra.
Qed.

Lemma Allow_within (b' : nat) key' w : fit w ->
  exists (a : bool) (m : Z), fst (Allow b' key' w) = Ok (a, m) /\
    within (inject_Z (if a && bool_decide (b' = b /\ key' = key) then 1 else 0)) 1 w (snd (Allow b' key' w)).
Proof.
  intros Hw. rewrite Allow_eq. destruct (within_now w Hw) as [H1 _]. pose proof H1 as (_ & F1 & _).
  set (w1 := snd (time_now w)) in *. cbv zeta. set (r := allow_at (clock w1) key' (st w1 b')).
  exists r.1.1, r.1.2. split; [by destruct r as [[a m] rl]|]. cbn [snd].
  apply within_after; [done|]. fold w1. apply within_store; [done| |].
  - destruct (decide (b' = b)) as [->|Hb].
    + rewrite store_same. by apply allow_step.
    + by rewrite store_other.
  - assert (0 <= slack cfg) by by apply slack_pos. change (inject_Z (Z.of_nat 1)) with 1. unfold potential.
    destruct (decide (b' = b)) as [->|Hb].
    + rewrite store_same. destruct (allow_step cfg key' (clock w1) (st w1 b) Hc F1) as (_ & A & N).
      fold r in A, N. destruct (decide (key' = key)) as [->|Hk].
      * rewrite bool_decide_true, andb_true_r by done. lra.
      * rewrite bool_decide_false, andb_false_r by naive_solver. rewrite N by done.
        change (inject_Z 0) with 0. lra.
    + rewrite store_other by done. rewrite bool_decide_false, andb_false_r by naive_solver.
      change (inject_Z 0) with 0. lra.
Qed.

Lemma cleanup_within b' w : fit w -> within 0 0 w (snd (cleanup b' w)).
Proof.
  intros Hw. rewrite cleanup_eq. destruct (within_now w Hw) as [H1 _]. pose proof H1 as (_ & F1 & _).
  set (w1 := snd (time_now w)) in *. cbn [snd]. apply within_after; [done|]. fold w1.
  change (inject_Z (Z.of_nat 0)) with 0. apply within_store; [done| |]; change (inject_Z (Z.of_nat 0)) with 0.
  - destruct (decide (b' = b)) as [->|Hb]; [rewrite store_same; by apply (cleanup_step cfg key) | by rewrite store_other].
  - unfold potential. destruct (decide (b' = b)) as [->|Hb].
    + rewrite store_same. destruct (cleanup_step cfg key (clock w1) (st w1 b) Hc F1) as [_ A]. lra.
    + rewrite store_other by done. lra.
Qed.

Lemma within_fit n calls w w' : within n calls w w' -> fit w'.
Proof. by intros (_ & ? & _). Qed.

(** The whole run. *)
Lemma serve_within es w : fit w ->
  within (inject_Z (fst (serve b key es w))) (length es) w (snd (serve b key es w)).
Proof.
  revert w. induction es as [|e es IH]; intros w Hw; [by apply within_refl|].
  destruct e as [b' key'|b'|b' key']; cbn [serve length]; unfold bind.
  - destruct (Allow_within b' key' w Hw) as (a & m & Ha & H1). rewrite Ha.
    pose proof (IH _ (within_fit _ _ _ _ H1)) as H2. set (w1 := snd (Allow b' key' w)) in *.
    pose proof (within_trans _ _ _ _ _ _ _ H1 H2) as H3. cbn [fst snd ret].
    set (n := fst (serve b key es w1)) in *. destruct H3 as (T & F & P). split_and!; [done | done|].
    cbn [Nat.add] in P. destruct a, (bool_decide (b' = b /\ key' = key)); cbn [andb] in P;
      rewrite ?inject_Z_plus; change (inject_Z 1) with 1 in *; change (inject_Z 0) with 0 in *; lra.
  - pose proof (cleanup_within b' w Hw) as H1. pose proof (IH _ (within_fit _ _ _ _ H1)) as H2.
    destruct (within_trans _ _ _ _ _ _ _ H1 H2) as (T & F & P). split_and!; [done | done|].
    pose proof (slack_pos cfg Hc). rewrite Nat2Z.inj_succ. unfold Z.succ. rewrite inject_Z_plus.
    change (inject_Z 1) with 1. cbn [Nat.add] in P. lra.
  - assert (within 0 0 w (snd (RemainingTokens b' key' w))) as H1 by exact (proj1 (within_now w Hw)).
    pose proof (IH _ (within_fit _ _ _ _ H1)) as H2.
    destruct (within_trans _ _ _ _ _ _ _ H1 H2) as (T & F & P). split_and!; [done | done|].
    pose proof (slack_pos cfg Hc). rewrite Nat2Z.inj_succ. unfold Z.succ. rewrite inject_Z_plus.
    change (inject_Z 1) with 1. cbn [Nat.add] in P. lra.
Qed.

(** Another bucket costs this one nothing. *)
Lemma Allow_elsewhere (b' : nat) key' w : fit w -> b' <> b ->
  exists (a : bool) (m : Z), fst (Allow b' key' w) = Ok (a, m) /\ within 0 1 w (snd (Allow b' key' w)).
Proof.
  intros Hw Hb. destruct (Allow_within b' key' w Hw) as (a & m & Ha & H). exists a, m. split; [done|].
  rewrite bool_decide_false, andb_false_r in H by naive_solver. exact H.
Qed.

Lemma Allow_here w : fit w ->
  exists (a : bool) (m : Z), fst (Allow b key w) = Ok (a, m) /\
    within (if a then 1 else 0) 1 w (snd (Allow b key w)).
Proof.
  intros Hw. destruct (Allow_within b key w Hw) as (a & m & Ha & H). exists a, m. split; [done|].
  rewrite bool_decide_true, andb_true_r in H by done. by destruct a.
Qed.

Lemma within_more n c d w w' : (c <= d)%nat -> within n c w w' -> within n d w w'.
Proof.
  intros Hd (T & F & P). split_and!; [done | done|]. pose proof (slack_pos cfg Hc).
  assert (inject_Z (Z.of_nat c) * slack cfg <= inject_Z (Z.of_nat d) * slack cfg).
  { apply Qmult_le_compat_r; [rewrite <- Zle_Qle; lia | done]. }
  lra.
Qed.

Lemma within_less m n c w w' : m <= n -> within n c w w' -> within m c w w'.
Proof. intros Hm (T & F & P). split_and!; [done | done|]. lra. Qed.

Lemma org_within orgBackend c remaining w : fit w -> orgBackend <> Some b ->
  within 0 1 w (snd (org_check orgBackend c remaining w)).
Proof.
  intros Hw Ho. pose proof (within_more 0 0 1 w w ltac:(lia) (within_refl w Hw)) as H0.
  unfold org_check. destruct orgBackend as [ob|]; [|done]. destruct (ctx_string c "organization_id") as [id|]; [|done].
  unfold bind. destruct (Allow_elsewhere ob ("org:" +:+ id) w Hw) as (a & m & Ha & H); [congruence|].
  rewrite Ha. by destruct a.
Qed.

Definition passed (v : verdict) : Z := match v with Next _ => 1 | TooManyRequests _ _ => 0 end.

(** An authenticated request that goes on has paid twice. *)
Lemma chain_within orgBackend c w : fit w -> orgBackend <> Some b -> getRateLimitPrincipal c = key ->
  within (inject_Z (2 * passed (fst (authenticated_limits (Some b) orgBackend None c w)))) 3
    w (snd (authenticated_limits (Some b) orgBackend None c w)).
Proof.
  intros Hw Ho Hk. unfold authenticated_limits, PrincipalRateLimitMiddleware, OrgRateLimitMiddleware, bind.
  rewrite Hk. destruct (Allow_here w Hw) as (a & m & Ha & H1). rewrite Ha.
  destruct a; cbn [negb fst snd ret]; [|by apply (within_more _ 1); [lia|]].
  pose proof (within_fit _ _ _ _ H1) as F1. set (w1 := snd (Allow b key w)) in *.
  destruct (Allow_here w1 F1) as (a2 & m2 & Ha2 & H2). rewrite Ha2.
  pose proof (within_trans _ _ _ _ _ _ _ H1 H2) as H12.
  destruct a2; cbn [negb fst snd ret].
  - pose proof (within_fit _ _ _ _ H2) as F2. set (w2 := snd (Allow b key w1)) in *.
    pose proof (org_within orgBackend c m2 w2 F2 Ho) as H3.
    pose proof (within_trans _ _ _ _ _ _ _ H12 H3) as H. cbn [Nat.add] in H.
    eapply within_less; [|exact H]. destruct (fst (org_check orgBackend c m2 w2)); cbn [passed];
      [change (inject_Z (2 * 1)) with 2 | change (inject_Z (2 * 0)) with 0]; lra.
  - apply (within_more _ 2); [lia|]. eapply within_less; [|exact H12].
    cbn [passed]. change (inject_Z (2 * 0)) with 0. lra.
Qed.
End Run.

Lemma new_fit cfg b (w : env store) : st w b = NewRateLimiter cfg -> fit cfg b w.
Proof.
  intros Hb. unfold fit. rewrite Hb. split; [done|]. intros k e. cbn. by rewrite lookup_empty.
Qed.

(** Back to integers: the error of all calls together is below one token. *)
Lemma count_bound cfg n calls t : sound_config cfg -> (Z.of_nat calls * BurstSize cfg <= 2 ^ 49)%Z ->
  inject_Z n <= burst cfg + rate cfg * inject_Z t + inject_Z (Z.of_nat calls) * slack cfg ->
  (minute * (n - BurstSize cfg - 1) <= RequestsPerMinute cfg * t)%Z.
Proof.
  intros Hc Hs Hn. assert (inject_Z (Z.of_nat calls) * slack cfg <= 1) as H1.
  { unfold slack, burst. rewrite Qmult_assoc, <- inject_Z_mult. rewrite Zle_Qle in Hs.
    change (inject_Z (2 ^ 49)) with (562949953421312 # 1) in Hs. small_ulp. lra. }
  assert (inject_Z n <= burst cfg + rate cfg * inject_Z t + 1) as H2 by lra. clear Hn H1.
  unfold Z.sub. rewrite Zle_Qle, !inject_Z_mult, !inject_Z_plus, !inject_Z_opp.
  change (inject_Z 1) with 1. unfold burst in H2.
  assert (inject_Z (RequestsPerMinute cfg) == inject_Z minute * rate cfg) as Hr by (unfold rate; by field).
  rewrite Hr. assert (0 < inject_Z minute) by reflexivity.
  set (M := inject_Z minute) in *. set (R := rate cfg) in *. set (T := inject_Z t) in *.
  assert (0 <= M * (R * T + 1 + inject_Z (BurstSize cfg) - inject_Z n)) by (apply Qmult_le_0_compat; lra).
  lra.
Qed.

(** [n] requests with the same context through the authenticated chain. *)
Fixpoint authenticated (g : nat) (orgBackend : option nat) (overrides : option (gmap string nat)) (c : rlctx)
  (n : nat) : prog (env store) Z :=
  match n with
  | O => ret 0%Z
  | S n' =>
      let! v := authenticated_limits (Some g) orgBackend overrides c in
      let! k := authenticated g orgBackend overrides c n' in
      ret (passed v + k)%Z
  end.

Lemma authenticated_within cfg g orgBackend c n w : sound_config cfg -> fit cfg g w -> orgBackend <> Some g ->
  within cfg g (getRateLimitPrincipal c) (inject_Z (2 * fst (authenticated g orgBackend None c n w))) (3 * n)
    w (snd (authenticated g orgBackend None c n w)).
Proof.
  intros Hc Hw Ho. revert w Hw. induction n as [|n IH]; intros w Hw.
  { change (inject_Z (2 * 0)) with 0. by apply within_refl. }
  cbn [authenticated]. unfold bind.
  pose proof (chain_within cfg g (getRateLimitPrincipal c) Hc orgBackend c w Hw Ho eq_refl) as H1.
  pose proof (IH _ (within_fit _ _ _ _ _ _ _ H1)) as H2.
  set (v := authenticated_limits (Some g) orgBackend None c w) in *. cbn [fst snd ret].
  pose proof (within_trans _ _ _ _ _ _ _ _ _ _ H1 H2) as H.
  replace (3 * S n)%nat with (3 + 3 * n)%nat by lia. rewrite <- inject_Z_plus in H.
  by rewrite Z.mul_add_distr_l.
Qed.

(** Settings and runs on which the definitions are evaluated. *)
Module Demo.
Definition general : RateLimitConfig := DefaultRateLimitConfig.
Definition limiters (cfg0 cfg1 : RateLimitConfig) : store :=
  fun b => NewRateLimiter (if (b =? 0)%nat then cfg0 else cfg1).
Definition at_once (s : store) : env store := Env s [] 0 [].
(** The clock moves one second per reading. *)
Definition each_second (s : store) (n : nat) : env store := Env s [] 0 (repeat 1000000000%Z n).

Definition small : RateLimitConfig := {| RequestsPerMinute := 60; BurstSize := 3; CleanupInterval := minute |}.
Definition some_requests : list event :=
  [Request 0 "ip:a"; Request 0 "ip:b"; Request 0 "ip:a"; Tick 0; Request 0 "ip:a"; Request 0 "ip:a"].

Lemma general_sound : sound_config general.
Proof. by split. Qed.
Lemma small_sound : sound_config small.
Proof. by split. Qed.

(** Three at once and the fourth is refused; one more for every second that passes. *)
Example burst_then_rate :
  fst (serve 0 "ip:a" some_requests (at_once (limiters small small))) = 3%Z /\
  fst (serve 0 "ip:a" (repeat (Request 0 "ip:a") 20) (each_second (limiters small small) 20)) = 20%Z.
Proof. by vm_compute. Qed.

Definition alice : rlctx := {|
  ctx_keys := {[ "user_id" := VString "alice"; "organization_id" := VString "acme" ]};
  ClientIP := "10.0.0.9"; RemoteAddr := "10.0.0.9:1" |}.

(** Both middlewares of the authenticated routes take a token of the same bucket: of a
    burst of 50, the requests of one principal get 25. *)
Example burst_is_halved :
  fst (authenticated 0 None None alice 60 (at_once (limiters general general))) = 25%Z.
Proof. by vm_compute. Qed.

(** An override that raises a principal's limit is capped by the shared bucket behind it. *)
Definition raised : RateLimitConfig :=
  override_config {| ov_RequestsPerMinute := 6000; ov_Burst := 1000 |}.
Example override_is_capped :
  fst (authenticated 0 None (Some {[ "user:alice" := 1%nat ]}) alice 200
    (at_once (limiters general raised))) = 50%Z.
Proof. by vm_compute. Qed.

(** An organization limit of three a minute has a burst of zero: after its first
    request the organization is shut out, however long it waits between requests. *)
Definition org_three : RateLimitConfig :=
  default general (orgCfg {| Enabled := true; rl_RequestsPerMinute := 0; rl_Burst := 0;
                             OrgRequestsPerMinute := 3; OrgBurst := 0; PrincipalOverrides := ∅ |}).
Example small_org_limit_shuts_out :
  fst (serve 0 "org:acme" (repeat (Request 0 "org:acme") 60)
    (Env (limiters org_three general) [] 0 (repeat (5 * minute)%Z 60))) = 1%Z.
Proof. by vm_compute. Qed.

(** A bucket that ten minutes do not fill is full again once the janitor has dropped it. *)
Definition slow : RateLimitConfig := override_config {| ov_RequestsPerMinute := 1; ov_Burst := 40 |}.
Example idle_bucket_is_refilled :
  fst (serve 0 "user:a" (repeat (Request 0 "user:a") 40 ++ [Tick 0] ++ repeat (Request 0 "user:a") 40)
    (Env (limiters slow slow) [] 0 (repeat 0%Z 40 ++ [(11 * minute)%Z]))) = 80%Z.
Proof. by vm_compute. Qed.
End Demo.

(** ** The properties *)

(** C39: the limit is a limit.  Take an in-memory limiter whose bucket ten minutes fill, with any
    history behind it; while any further events are served (requests of any client on any limiter,
    janitor ticks, reads), one principal is admitted at most its burst, plus the configured rate times
    the time that passes, plus one request for the float64 rounding of all calls together. *)
Theorem bucket_bounds_admissions cfg b key before window (w0 : env store) :
  sound_config cfg -> st w0 b = NewRateLimiter cfg ->
  (Z.of_nat (length window) * BurstSize cfg <= 2 ^ 49)%Z ->
  let w1 := snd (serve b key before w0) in
  let r := serve b key window w1 in
  (minute * (fst r - BurstSize cfg - 1) <= RequestsPerMinute cfg * (clock (snd r) - clock w1))%Z.
Proof.
  intros Hc Hb Hs w1 r.
  pose proof (within_fit _ _ _ _ _ _ _ (serve_within cfg b key Hc before w0 (new_fit cfg b w0 Hb))) as F1.
  fold w1 in F1. destruct (serve_within cfg b key Hc window w1 F1) as (_ & F2 & P). fold r in F2, P.
  eapply count_bound; [done | exact Hs|]. unfold potential in P.
  pose proof (proj1 (avail_bounds cfg (clock (snd r)) (entries (st (snd r) b) !! key) Hc ltac:(intros e; apply F2))).
  pose proof (proj2 (avail_bounds cfg (clock w1) (entries (st w1 b) !! key) Hc ltac:(intros e; apply F1))).
  lra.
Qed.

(** authenticated requests are charged twice.  Behind the two limit middlewares the router puts
    in front of every authenticated route, both given the general limiter, a principal without an
    override gets through at most half its burst plus half the rate times the time that passes, plus
    one half. *)
Theorem authenticated_rate_is_halved cfg g orgBackend c n (w0 : env store) :
  sound_config cfg -> st w0 g = NewRateLimiter cfg -> orgBackend <> Some g ->
  (Z.of_nat (3 * n) * BurstSize cfg <= 2 ^ 49)%Z ->
  let r := authenticated g orgBackend None c n w0 in
  (minute * (2 * fst r - BurstSize cfg - 1) <= RequestsPerMinute cfg * (clock (snd r) - clock w0))%Z.
Proof.
  intros Hc Hb Ho Hs r. pose proof (new_fit cfg g w0 Hb) as F0.
  destruct (authenticated_within cfg g orgBackend c n w0 Hc F0 Ho) as (_ & F2 & P). fold r in F2, P.
  eapply count_bound; [done | exact Hs|]. unfold potential in P. set (key := getRateLimitPrincipal c) in *.
  pose proof (proj1 (avail_bounds cfg (clock (snd r)) (entries (st (snd r) g) !! key) Hc ltac:(intros e; apply F2))).
  pose proof (proj2 (avail_bounds cfg (clock w0) (entries (st w0 g) !! key) Hc ltac:(intros e; apply F0))).
  lra.
Qed.

Lemma bucket_bounds_admissions_witness :
  fst (serve 0 "ip:a" Demo.some_requests (Demo.at_once (Demo.limiters Demo.small Demo.small))) = 3%Z /\
  (minute * (3 - 3 - 1) <= 60 * 0)%Z.
Proof.
  split; [by vm_compute|].
  pose proof (bucket_bounds_admissions Demo.small 0 "ip:a" [] Demo.some_requests
    (Demo.at_once (Demo.limiters Demo.small Demo.small)) Demo.small_sound eq_refl ltac:(done)) as H.
  vm_compute in H |- *. exact H.
Defined.

Lemma authenticated_rate_is_halved_witness :
  fst (authenticated 0 None None Demo.alice 60 (Demo.at_once (Demo.limiters Demo.general Demo.general))) = 25%Z /\
  (minute * (2 * 25 - 50 - 1) <= 200 * 0)%Z.
Proof.
  split; [by vm_compute|].
  pose proof (authenticated_rate_is_halved Demo.general 0 None Demo.alice 60
    (Demo.at_once (Demo.limiters Demo.general Demo.general)) Demo.general_sound eq_refl ltac:(done) ltac:(done)) as H.
  vm_compute in H |- *. exact H.
Defined.
