(* ===== verification/Identity.v ===== *)
(** * The administrative side of the identity module

    What the handlers that manage API keys, organizations and roles use of the shared
    identity module: its key, organization and role-template stores ([IdentityAdmin])
    and what they rely on ([IdentityAdminLaws]).  The module is third-party code; the
    read side is [Identity] of [Web].  A directory that keeps everything in memory
    shows that the laws can hold. *)

From S2P Require Import Prelude GoStrings Web.
From stdpp Require Import gmap.
#[local] Open Scope Z_scope.

(** ** Rows *)

(** A row of [api_keys]; [key] is the part authentication reads. *)
Record APIKey := {
  key : apikey;
  key_Name : string;
  key_Description : option string;
  key_Prefix : string;
  key_UserName : option string;
  key_LastUsedAt : option Z;
  key_ExpiryNotificationSentAt : option Z;
  key_CreatedAt : Z;
}.

Record Organization := {
  org_ID : string;
  org_Name : string;
  org_DisplayName : string;
  org_IdpType : option string;
  org_IdpName : option string;
}.

Record OrganizationMember := {
  om_OrganizationID : string;
  om_UserID : string;
  om_RoleTemplateID : option string;
}.

Record RoleTemplate := {
  rt_ID : string;
  rt_Name : string;
  rt_DisplayName : string;
  rt_Description : option string;
  rt_Scopes : list string;
  rt_IsSystem : bool;
}.

Class IdentityAdmin (X : Type) := {
  KeyByID : string -> X -> res (option APIKey) * X;
  (** the ID the row was given *)
  KeyCreate : APIKey -> X -> res string * X;
  KeyUpdate : APIKey -> X -> res unit * X;
  KeyDelete : string -> X -> res unit * X;
  KeysListAll : X -> res (list APIKey) * X;
  KeysByOrganization : string -> X -> res (list APIKey) * X;
  KeysByUser : string -> X -> res (list APIKey) * X;
  KeysByUserAndOrganization : string -> string -> X -> res (list APIKey) * X;
  (** the key, its hash and its display prefix *)
  GenerateAPIKey : string -> X -> res (string * string * string) * X;
  OrgByID : string -> X -> res (option Organization) * X;
  OrgByName : string -> X -> res (option Organization) * X;
  OrgDefault : X -> res (option Organization) * X;
  OrgList : Z -> Z -> X -> res (list Organization) * X;
  OrgSearch : string -> Z -> Z -> X -> res (list Organization) * X;
  OrgCount : X -> res Z * X;
  OrgCreate : Organization -> X -> res string * X;
  OrgRename : string -> string -> X -> res unit * X;
  OrgUpdate : Organization -> X -> res unit * X;
  OrgDelete : string -> X -> res unit * X;
  OrgMembersWithUsers : string -> X -> res (list OrganizationMember) * X;
  OrgAddMember : OrganizationMember -> X -> res unit * X;
  (** by the name of the role template *)
  OrgAddMemberWithParams : string -> string -> string -> X -> res unit * X;
  OrgUpdateMember : OrganizationMember -> X -> res unit * X;
  OrgRemoveMember : string -> string -> X -> res unit * X;
  RoleList : X -> res (list RoleTemplate) * X;
  RoleByID : string -> X -> res (option RoleTemplate) * X;
  RoleByName : string -> X -> res (option RoleTemplate) * X;
  RoleCreate : RoleTemplate -> X -> res unit * X;
  RoleUpdate : RoleTemplate -> X -> res unit * X;
  RoleDelete : string -> X -> res unit * X;
  (** the raw [scopes] column of [role_templates], by ID *)
  RoleScopesRow : string -> X -> res (option string) * X;
  (** [SELECT DISTINCT user_id FROM organization_members WHERE role_template_id = $1] *)
  RoleMemberIDs : string -> X -> res (list string) * X;
  NewUUID : X -> string * X;
}.

(** [uuid.Parse], [time.Parse(time.RFC3339, _)] and [json.Unmarshal] into strings. *)
Class Parsers := {
  uuid_text : string -> option string;
  parse_rfc3339 : string -> option Z;
  scopes_json : string -> res (list string);
}.

Definition with_key_id (id : string) (k : APIKey) : APIKey := {|
  key := {| ak_ID := id; ak_UserID := ak_UserID (key k); ak_OrganizationID := ak_OrganizationID (key k);
            ak_KeyHash := ak_KeyHash (key k); ak_ExpiresAt := ak_ExpiresAt (key k);
            ak_Scopes := ak_Scopes (key k) |};
  key_Name := key_Name k; key_Description := key_Description k; key_Prefix := key_Prefix k;
  key_UserName := key_UserName k; key_LastUsedAt := key_LastUsedAt k;
  key_ExpiryNotificationSentAt := key_ExpiryNotificationSentAt k; key_CreatedAt := key_CreatedAt k |}.

(** The fields an update leaves alone. *)
Definition same_holder (k k' : apikey) : Prop :=
  ak_ID k = ak_ID k' /\ ak_UserID k = ak_UserID k' /\
  ak_OrganizationID k = ak_OrganizationID k' /\ ak_KeyHash k = ak_KeyHash k'.

(** What the handlers rely on: the keys by ID and the memberships with their roles; a
    read changes neither, and a write that fails may still have happened. *)
Class KeyLaws (X : Type) `{Identity X, IdentityAdmin X} := {
  keys_of : X -> gmap string APIKey;
  role_of : X -> string -> string -> option member_role;
  same_identity (x x' : X) : Prop := keys_of x' = keys_of x /\ forall o u, role_of x' o u = role_of x o u;
  key_id_law x id k : keys_of x !! id = Some k -> ak_ID (key k) = id;
  key_by_id_law id x : same_identity x (snd (KeyByID id x)) /\
    forall o, fst (KeyByID id x) = Ok o -> o = keys_of x !! id;
  member_role_law o u x : same_identity x (snd (GetMemberWithRole o u x)) /\
    forall m, fst (GetMemberWithRole o u x) = Ok m -> m = role_of x o u;
  key_reads_law x :
    same_identity x (snd (KeysListAll x)) /\ (forall o, same_identity x (snd (KeysByOrganization o x))) /\
    (forall u, same_identity x (snd (KeysByUser u x))) /\
    (forall u o, same_identity x (snd (KeysByUserAndOrganization u o x))) /\
    same_identity x (snd (OrgDefault x)) /\ (forall p, same_identity x (snd (GenerateAPIKey p x)));
  key_create_law k x :
    let x' := snd (KeyCreate k x) in
    (forall o u, role_of x' o u = role_of x o u) /\
    (keys_of x' = keys_of x \/
     exists id, keys_of x !! id = None /\ keys_of x' = <[id := with_key_id id k]> (keys_of x)) /\
    forall id, fst (KeyCreate k x) = Ok id -> keys_of x' !! id = Some (with_key_id id k);
  key_update_law k old x :
    let x' := snd (KeyUpdate k x) in
    keys_of x !! ak_ID (key k) = Some old -> same_holder (key old) (key k) ->
    (forall o u, role_of x' o u = role_of x o u) /\
    (keys_of x' = keys_of x \/ exists k', key k' = key k /\ keys_of x' = <[ak_ID (key k) := k']> (keys_of x)) /\
    (fst (KeyUpdate k x) = Ok tt -> exists k', key k' = key k /\ keys_of x' !! ak_ID (key k) = Some k');
  key_delete_law id x :
    let x' := snd (KeyDelete id x) in
    (forall o u, role_of x' o u = role_of x o u) /\
    (keys_of x' = keys_of x \/ keys_of x' = delete id (keys_of x)) /\
    (fst (KeyDelete id x) = Ok tt -> keys_of x' !! id = None);
}.

(** ** Organizations, memberships and roles *)

(** What the handlers of organizations see of the store: the organizations, the role of
    each member (by organization and user), the templates, and the scopes a user has in
    an organization. *)
Record org_view := {
  v_orgs : gmap string Organization;
  v_members : string -> string -> option (option string);
  v_roles : gmap string RoleTemplate;
  v_scopes : string -> string -> list string;
}.

Definition set_member (o u : string) (r : option (option string)) (f : string -> string -> option (option string))
  : string -> string -> option (option string) :=
  fun o' u' => if decide (o' = o /\ u' = u) then r else f o' u'.

(** Reads leave the view alone, and answer from it; a write that fails may still have
    happened. *)
Class OrgLaws (X : Type) `{Identity X, IdentityAdmin X, Parsers} := {
  view : X -> org_view;
  same_view (x x' : X) : Prop :=
    v_orgs (view x') = v_orgs (view x) /\ v_roles (view x') = v_roles (view x) /\
    (forall o u, v_members (view x') o u = v_members (view x) o u) /\
    (forall u o, v_scopes (view x') u o = v_scopes (view x) u o);
  org_reads_law x :
    (forall n, same_view x (snd (OrgByName n x))) /\ same_view x (snd (OrgDefault x)) /\
    (forall l o, same_view x (snd (OrgList l o x))) /\ (forall q l o, same_view x (snd (OrgSearch q l o x))) /\
    same_view x (snd (OrgCount x)) /\ (forall o, same_view x (snd (OrgMembersWithUsers o x))) /\
    same_view x (snd (RoleList x)) /\ (forall n, same_view x (snd (RoleByName n x))) /\ same_view x (snd (NewUUID x));
  org_by_id_law id x : same_view x (snd (OrgByID id x)) /\
    forall o, fst (OrgByID id x) = Ok o -> o = v_orgs (view x) !! id;
  get_member_law o u x : same_view x (snd (GetMember o u x)) /\
    forall m, fst (GetMember o u x) = Ok m -> mb_RoleTemplateID <$> m = v_members (view x) o u;
  member_with_role_law o u x : same_view x (snd (GetMemberWithRole o u x)) /\
    forall m, fst (GetMemberWithRole o u x) = Ok m -> mr_RoleTemplateID <$> m = v_members (view x) o u;
  user_scopes_law u o x : same_view x (snd (GetUserScopesForOrg u o x)) /\
    forall l, fst (GetUserScopesForOrg u o x) = Ok l -> l = v_scopes (view x) u o;
  role_by_id_law id x : same_view x (snd (RoleByID id x)) /\
    forall r, fst (RoleByID id x) = Ok r -> r = v_roles (view x) !! id;
  role_scopes_law id x : same_view x (snd (RoleScopesRow id x)) /\
    forall json l, fst (RoleScopesRow id x) = Ok (Some json) -> scopes_json json = Ok l ->
      exists r, v_roles (view x) !! id = Some r /\ rt_Scopes r = l;
  role_members_law id x : same_view x (snd (RoleMemberIDs id x)) /\
    forall l, fst (RoleMemberIDs id x) = Ok l -> forall o u, v_members (view x) o u = Some (Some id) -> u ∈ l;
  add_member_law m x : let v := v_members (view x) in let v' := v_members (view (snd (OrgAddMember m x))) in
    forall o u, v' o u = v o u \/ v' o u = set_member (om_OrganizationID m) (om_UserID m) (Some (om_RoleTemplateID m)) v o u;
  add_named_law o0 u0 name x :
    let v := v_members (view x) in let v' := v_members (view (snd (OrgAddMemberWithParams o0 u0 name x))) in
    forall o u, v' o u = v o u \/ exists r, v' o u = set_member o0 u0 (Some r) v o u /\
      forall id, r = Some id -> exists t, v_roles (view x) !! id = Some t /\ rt_Name t = name;
  update_member_law m x : let v := v_members (view x) in let v' := v_members (view (snd (OrgUpdateMember m x))) in
    forall o u, v' o u = v o u \/
      v o u <> None /\ v' o u = set_member (om_OrganizationID m) (om_UserID m) (Some (om_RoleTemplateID m)) v o u;
  remove_member_law o0 u0 x :
    let v := v_members (view x) in let v' := v_members (view (snd (OrgRemoveMember o0 u0 x))) in
    forall o u, v' o u = v o u \/ v' o u = set_member o0 u0 None v o u;
  (** a new organization has no members yet *)
  org_create_law org x : let x' := snd (OrgCreate org x) in
    v_roles (view x') = v_roles (view x) /\ (forall o u, v_members (view x') o u = v_members (view x) o u) /\
    forall id, fst (OrgCreate org x) = Ok id -> v_orgs (view x) !! id = None;
  org_write_law x :
    (forall id n o u, v_members (view (snd (OrgRename id n x))) o u = v_members (view x) o u) /\
    (forall org o u, v_members (view (snd (OrgUpdate org x))) o u = v_members (view x) o u);
  role_write_law x : forall r o u, v_members (view (snd (RoleUpdate r x))) o u = v_members (view x) o u;
  org_delete_law id x : let x' := snd (OrgDelete id x) in
    (v_orgs (view x') = v_orgs (view x) \/ v_orgs (view x') = delete id (v_orgs (view x))) /\
    forall o u, v_members (view x') o u = v_members (view x) o u \/ o = id /\ v_members (view x') o u = None;
}.
