(* ===== verification/IdentityStore.v ===== *)
(** * An identity module in memory

    A concrete identity store, so that the theorems over [IdentityAdmin] can be
    evaluated and their laws are known to hold of something: users, keys, memberships
    and role templates in lists, and fresh IDs from a counter. *)

From S2P Require Import Prelude GoStrings SemVer Web Identity.
From stdpp Require Import gmap.
#[local] Open Scope Z_scope.

Record store := {
  dir : directory;
  key_rows : gmap string APIKey;
  org_rows : list Organization;
  role_rows : list RoleTemplate;
  next_id : nat;
}.

Definition set_dir (f : directory -> directory) (s : store) : store := {|
  dir := f (dir s); key_rows := key_rows s; org_rows := org_rows s; role_rows := role_rows s;
  next_id := next_id s |}.
Definition set_rows (f : gmap string APIKey -> gmap string APIKey) (s : store) : store := {|
  dir := dir s; key_rows := f (key_rows s); org_rows := org_rows s; role_rows := role_rows s;
  next_id := next_id s |}.
Definition set_orgs (f : list Organization -> list Organization) (s : store) : store := {|
  dir := dir s; key_rows := key_rows s; org_rows := f (org_rows s); role_rows := role_rows s;
  next_id := next_id s |}.
Definition set_roles (f : list RoleTemplate -> list RoleTemplate) (s : store) : store := {|
  dir := dir s; key_rows := key_rows s; org_rows := org_rows s; role_rows := f (role_rows s);
  next_id := next_id s |}.
Definition bump (s : store) : store := {|
  dir := dir s; key_rows := key_rows s; org_rows := org_rows s; role_rows := role_rows s;
  next_id := S (next_id s) |}.

Definition fresh_id (s : store) : string := "id-" +:+ show (Z.of_nat (next_id s)).

Definition set_members (f : list (string * string * option string * list string) -> list (string * string * option string * list string))
  (d : directory) : directory := {|
  d_users := d_users d; d_keys := d_keys d; d_sessions := d_sessions d; d_revoked := d_revoked d;
  d_members := f (d_members d) |}.

Definition role_scopes (s : store) (id : option string) : list string :=
  match id with
  | None => []
  | Some id => match List.find (fun r => String.eqb (rt_ID r) id) (role_rows s) with
               | Some r => rt_Scopes r | None => [] end
  end.

Definition is_member (o u : string) (m : string * string * option string * list string) : bool :=
  String.eqb (fst (fst (fst m))) u && String.eqb (snd (fst (fst m))) o.

(** The keys by ID; a row carries the ID it is stored under. *)
Definition stored_keys (s : store) : gmap string APIKey :=
  map_imap (fun id k => Some (with_key_id id k)) (key_rows s).
Definition key_list (s : store) : list APIKey := map snd (map_to_list (stored_keys s)).

(** The keys authentication sees are the rows of the key store. *)
#[export] Instance store_identity : Identity store := {|
  GetUserByID u s := (fst (GetUserByID u (dir s)), s);
  GetAPIKeysByPrefix p s :=
    (Ok (List.filter (fun k => has_prefix (ak_KeyHash k) ("#" +:+ p)) (map key (key_list s))), s);
  UpdateLastUsed _ s := s;
  IsTokenRevoked j s := (fst (IsTokenRevoked j (dir s)), s);
  GetUserScopesForOrg u o s := (fst (GetUserScopesForOrg u o (dir s)), s);
  GetMember o u s := (fst (GetMember o u (dir s)), s);
  GetMemberWithRole o u s := (fst (GetMemberWithRole o u (dir s)), s);
  GetUserMemberships u s := (fst (GetUserMemberships u (dir s)), s);
  ValidateJWT t s := ValidateJWT t (dir s);
  ValidateAPIKey k h := String.eqb h ("#" +:+ k);
|}.

(** Scopes separated by commas stand for the JSON of the column. *)
#[export] Instance store_parsers : Parsers := {|
  uuid_text := Some; parse_rfc3339 _ := None; scopes_json text := Ok (split_on "," text) |}.

Definition find_org (f : Organization -> bool) (s : store) : option Organization := List.find f (org_rows s).

(** The template of a name, which is found under its ID again. *)
Definition role_named (name : string) (s : store) : option RoleTemplate :=
  List.find (fun r => String.eqb (rt_Name r) name &&
    match List.find (fun r' => String.eqb (rt_ID r') (rt_ID r)) (role_rows s) with
    | Some r' => String.eqb (rt_Name r') name | None => false end) (role_rows s).

(** What a write that names a role answers. *)
Definition role_found (name : string) (s : store) : res unit :=
  match role_named name s with
  | Some _ => Ok tt
  | None => if String.eqb name "" then Ok tt else Err (ErrMsg "role template not found")
  end.

#[export] Instance org_eq_dec : EqDecision Organization.
Proof. solve_decision. Defined.

#[export] Instance store_admin : IdentityAdmin store := {|
  KeyByID id s := (Ok (stored_keys s !! id), s);
  KeyCreate k s :=
    let id := fresh_id s in
    match key_rows s !! id with
    | Some _ => (Err (ErrExt "duplicate key"), s)
    | None => (Ok id, bump (set_rows <[id := with_key_id id k]> s))
    end;
  KeyUpdate k s :=
    match key_rows s !! ak_ID (key k) with
    | Some _ => (Ok tt, set_rows <[ak_ID (key k) := k]> s)
    | None => (Ok tt, s)
    end;
  KeyDelete id s := (Ok tt, set_rows (delete id) s);
  KeysListAll s := (Ok (key_list s), s);
  KeysByOrganization o s := (Ok (List.filter (fun k => String.eqb (ak_OrganizationID (key k)) o) (key_list s)), s);
  KeysByUser u s := (Ok (List.filter (fun k => bool_decide (ak_UserID (key k) = Some u)) (key_list s)), s);
  KeysByUserAndOrganization u o s :=
    (Ok (List.filter (fun k => bool_decide (ak_UserID (key k) = Some u) && String.eqb (ak_OrganizationID (key k)) o)
       (key_list s)), s);
  GenerateAPIKey p s := let full := p +:+ "_" +:+ fresh_id s in (Ok (full, "#" +:+ full, stake 10 full), s);
  OrgByID id s := (Ok (find_org (fun o => String.eqb (org_ID o) id) s), s);
  OrgByName n s :=
    (Ok (find_org (fun o => String.eqb (org_Name o) n &&
       bool_decide (find_org (fun o' => String.eqb (org_ID o') (org_ID o)) s = Some o)) s), s);
  OrgDefault s :=
    (Ok (find_org (fun o => String.eqb (org_Name o) "default" &&
       bool_decide (find_org (fun o' => String.eqb (org_ID o') (org_ID o)) s = Some o)) s), s);
  OrgList limit offset s := (Ok (take (Z.to_nat limit) (drop (Z.to_nat offset) (org_rows s))), s);
  OrgSearch q limit offset s :=
    (Ok (take (Z.to_nat limit) (drop (Z.to_nat offset) (List.filter (fun o => has_prefix (org_Name o) q) (org_rows s)))), s);
  OrgCount s := (Ok (Z.of_nat (length (org_rows s))), s);
  OrgCreate o s :=
    let id := fresh_id s in
    if bool_decide (find_org (fun o => String.eqb (org_ID o) id) s <> None) then (Err (ErrExt "duplicate key"), s)
    else (Ok id, bump (set_orgs (fun rows => rows ++ [{| org_ID := id; org_Name := org_Name o;
       org_DisplayName := org_DisplayName o; org_IdpType := org_IdpType o; org_IdpName := org_IdpName o |}]) s));
  OrgRename id n s :=
    (Ok tt, set_orgs (map (fun o => if String.eqb (org_ID o) id then {| org_ID := id; org_Name := n;
       org_DisplayName := org_DisplayName o; org_IdpType := org_IdpType o; org_IdpName := org_IdpName o |} else o)) s);
  OrgUpdate o s := (Ok tt, set_orgs (map (fun o' => if String.eqb (org_ID o') (org_ID o) then o else o')) s);
  OrgDelete id s := (Ok tt, set_orgs (List.filter (fun o => negb (String.eqb (org_ID o) id))) s);
  OrgMembersWithUsers id s :=
    (Ok (map (fun m => {| om_OrganizationID := snd (fst (fst m)); om_UserID := fst (fst (fst m));
                          om_RoleTemplateID := snd (fst m) |})
       (List.filter (fun m => String.eqb (snd (fst (fst m))) id) (d_members (dir s)))), s);
  OrgAddMember m s :=
    (Ok tt, set_dir (set_members (fun l => l ++ [(om_UserID m, om_OrganizationID m, om_RoleTemplateID m,
                                                  role_scopes s (om_RoleTemplateID m))])) s);
  OrgAddMemberWithParams o u name s :=
    let role := rt_ID <$> role_named name s in
    (role_found name s, set_dir (set_members (fun l => l ++ [(u, o, role, role_scopes s role)])) s);
  OrgUpdateMember m s :=
    (Ok tt, set_dir (set_members (map (fun r =>
       if is_member (om_OrganizationID m) (om_UserID m) r
       then (om_UserID m, om_OrganizationID m, om_RoleTemplateID m, role_scopes s (om_RoleTemplateID m)) else r))) s);
  OrgRemoveMember o u s := (Ok tt, set_dir (set_members (List.filter (fun m => negb (is_member o u m)))) s);
  RoleList s := (Ok (role_rows s), s);
  RoleByID id s := (Ok (List.find (fun r => String.eqb (rt_ID r) id) (role_rows s)), s);
  RoleByName n s := (Ok (List.find (fun r => String.eqb (rt_Name r) n) (role_rows s)), s);
  RoleCreate r s := (Ok tt, set_roles (fun l => l ++ [r]) s);
  RoleUpdate r s := (Ok tt, set_roles (map (fun r' => if String.eqb (rt_ID r') (rt_ID r) then r else r')) s);
  RoleDelete id s := (Ok tt, set_roles (List.filter (fun r => negb (String.eqb (rt_ID r) id))) s);
  RoleScopesRow id s :=
    (match List.find (fun r => String.eqb (rt_ID r) id) (role_rows s) with
     | None => Ok None
     | Some r => let text := String.concat "," (rt_Scopes r) in
                 if bool_decide (split_on "," text = rt_Scopes r) then Ok (Some text) else Err (ErrExt "scopes")
     end, s);
  RoleMemberIDs id s :=
    (Ok (map (fun m => fst (fst (fst m)))
       (List.filter (fun m => bool_decide (snd (fst m) = Some id)) (d_members (dir s)))), s);
  NewUUID s := (fresh_id s, bump s);
|}.

Definition member_role_of (s : store) (o u : string) : option member_role :=
  match d_member u o (dir s) with
  | Some (_, r, sc) => Some {| mr_RoleTemplateID := r; mr_RoleTemplateScopes := sc |}
  | None => None
  end.

Lemma stored_lookup s id : stored_keys s !! id = with_key_id id <$> key_rows s !! id.
Proof. unfold stored_keys. rewrite map_lookup_imap. by destruct (key_rows s !! id). Qed.

Lemma stored_insert s f id k : key_rows (f s) = <[id := k]> (key_rows s) ->
  stored_keys (f s) = <[id := with_key_id id k]> (stored_keys s).
Proof.
  intros Hf. apply map_eq. intros id'. rewrite stored_lookup, Hf.
  destruct (decide (id = id')) as [<-|Hne]; [by rewrite !lookup_insert_eq|].
  by rewrite !lookup_insert_ne, stored_lookup.
Qed.

Lemma stored_delete s id : stored_keys (set_rows (delete id) s) = delete id (stored_keys s).
Proof.
  apply map_eq. intros id'. rewrite stored_lookup. cbn.
  destruct (decide (id = id')) as [<-|Hne]; [by rewrite !lookup_delete_eq|].
  by rewrite !lookup_delete_ne, stored_lookup.
Qed.

Lemma renamed k : with_key_id (ak_ID (key k)) k = k.
Proof. by destruct k as [[]]. Qed.

#[export] Instance store_key_laws : KeyLaws store.
Proof.
  refine {| keys_of := stored_keys; role_of := member_role_of |}.
  - intros s id k. rewrite stored_lookup. destruct (key_rows s !! id); [|done]. by intros [= <-].
  - intros id s. split; [done|]. by intros o [= <-].
  - intros o u s. split; [done|]. cbn. intros m [= <-]. unfold member_role_of.
    by destruct (d_member u o (dir s)) as [[[[? ?] ?] ?]|].
  - done.
  - intros k s. cbn. destruct (key_rows s !! fresh_id s) eqn:Hf; cbn.
    + split_and!; [done | by left | done].
    + assert (Hs : stored_keys (bump (set_rows <[fresh_id s := with_key_id (fresh_id s) k]> s)) =
                   <[fresh_id s := with_key_id (fresh_id s) k]> (stored_keys s)).
      { exact (stored_insert s (fun s => bump (set_rows _ s)) (fresh_id s) (with_key_id (fresh_id s) k) eq_refl). }
      split_and!; [done | |].
      * right. exists (fresh_id s). split; [by rewrite stored_lookup, Hf | exact Hs].
      * intros id [= <-]. by rewrite Hs, lookup_insert_eq.
  - intros k old s. rewrite stored_lookup. cbn. destruct (key_rows s !! ak_ID (key k)) eqn:Hk; [|done]. cbn. intros _ _.
    assert (Hs : stored_keys (set_rows <[ak_ID (key k) := k]> s) = <[ak_ID (key k) := k]> (stored_keys s)).
    { rewrite (stored_insert s _ (ak_ID (key k)) k) by done. by rewrite renamed. }
    split_and!; [done | |].
    + right. by exists k.
    + intros _. exists k. by rewrite Hs, lookup_insert_eq.
  - intros id s. cbn. split_and!; [done | right; apply stored_delete|]. intros _.
    by rewrite stored_delete, lookup_delete_eq.
Defined.

(** ** Organizations *)

Lemma find_ext {A} (f g : A -> bool) l : (forall x, f x = g x) -> List.find f l = List.find g l.
Proof. intros E. induction l as [|x l IH]; cbn; [done|]. by rewrite E, IH. Qed.

Lemma map_find {A} (id : A -> string) (l : list A) k :
  (list_to_map (map (fun r => (id r, r)) l) : gmap string A) !! k = List.find (fun r => String.eqb (id r) k) l.
Proof.
  induction l as [|r l IH]; cbn; [by rewrite lookup_empty|].
  destruct (String.eqb_spec (id r) k) as [->|Hn]; [by rewrite lookup_insert_eq | by rewrite lookup_insert_ne].
Qed.

Definition store_view (s : store) : org_view := {|
  v_orgs := list_to_map (map (fun o => (org_ID o, o)) (org_rows s));
  v_members o u := (fun m => snd (fst m)) <$> List.find (is_member o u) (d_members (dir s));
  v_roles := list_to_map (map (fun r => (rt_ID r, r)) (role_rows s));
  v_scopes u o := match d_member u o (dir s) with Some (_, sc) => sc | None => [] end |}.

Lemma find_filter_out {A} (f : A -> bool) l : List.find f (List.filter (fun x => negb (f x)) l) = None.
Proof. induction l as [|x l IH]; cbn; [done|]. destruct (f x) eqn:E; cbn; [exact IH | by rewrite E]. Qed.

Lemma find_filter_other {A} (f g : A -> bool) l : (forall x, f x = true -> g x = false) ->
  List.find f (List.filter (fun x => negb (g x)) l) = List.find f l.
Proof.
  intros Hfg. induction l as [|x l IH]; cbn; [done|]. destruct (f x) eqn:E.
  - rewrite (Hfg x E). cbn. by rewrite E.
  - destruct (g x); cbn; [exact IH | by rewrite E].
Qed.

Lemma is_member_same o u o' u' m : is_member o u m = true -> is_member o' u' m = true -> o' = o /\ u' = u.
Proof.
  unfold is_member. intros [<-%String.eqb_eq <-%String.eqb_eq]%andb_true_iff.
  by intros [-> %String.eqb_eq -> %String.eqb_eq]%andb_true_iff.
Qed.

Lemma is_member_of o0 u0 r sc o u : is_member o u (u0, o0, r, sc) = bool_decide (o = o0 /\ u = u0).
Proof.
  unfold is_member. cbn. destruct (String.eqb_spec u0 u) as [->|Hu], (String.eqb_spec o0 o) as [->|Ho]; cbn; symmetry;
    [by apply bool_decide_eq_true | by apply bool_decide_eq_false; intros [? ?]; congruence..].
Qed.

Lemma added_member s o0 u0 r sc o u :
  let l := d_members (dir s) in
  (fun m => snd (fst m)) <$> List.find (is_member o u) (l ++ [(u0, o0, r, sc)]) =
    (fun m => snd (fst m)) <$> List.find (is_member o u) l \/
  (fun m => snd (fst m)) <$> List.find (is_member o u) (l ++ [(u0, o0, r, sc)]) =
    set_member o0 u0 (Some r) (v_members (store_view s)) o u.
Proof.
  cbn. rewrite find_app. destruct (List.find _ _) as [m|] eqn:E; [by left|]. cbn [List.find].
  rewrite is_member_of. unfold set_member. case_bool_decide as Hd; [|by left].
  right. by rewrite decide_True.
Qed.

Lemma updated_member l o0 u0 r sc o u :
  (fun m : string * string * option string * list string => snd (fst m)) <$> List.find (is_member o u)
    (map (fun m => if is_member o0 u0 m then (u0, o0, r, sc) else m) l) =
  if decide (o = o0 /\ u = u0)
  then (fun _ => r) <$> List.find (is_member o u) l
  else (fun m => snd (fst m)) <$> List.find (is_member o u) l.
Proof.
  induction l as [|m l IH]; cbn; [by case_decide|]. destruct (is_member o0 u0 m) eqn:E.
  - rewrite is_member_of. case_bool_decide as Hd.
    + rewrite decide_True by done. destruct Hd as [-> ->]. by rewrite E.
    + rewrite decide_False in IH |- * by done. destruct (is_member o u m) eqn:E'; [|exact IH].
      by destruct (is_member_same _ _ _ _ _ E E') as [-> ->]; destruct Hd.
  - destruct (is_member o u m) eqn:E'; [|exact IH]. case_decide as Hd; [|done].
    destruct Hd as [-> ->]. by rewrite E in E'.
Qed.

Lemma find_members s o u : v_members (store_view s) o u = (fun m => snd (fst m)) <$> d_member u o (dir s).
Proof. done. Qed.

#[export] Instance store_org_laws : OrgLaws store.
Proof.
  refine {| view := store_view |}.
  - intros s. by split_and!.
  - intros id s. split; [done|]. intros o [= <-]. cbn. by rewrite map_find.
  - intros o u s. split; [done|]. intros m [= <-]. rewrite find_members.
    by destruct (d_member u o (dir s)) as [[[[? ?] ?] ?]|].
  - intros o u s. split; [done|]. intros m [= <-]. rewrite find_members.
    by destruct (d_member u o (dir s)) as [[[[? ?] ?] ?]|].
  - intros u o s. split; [done|]. by intros l [= <-].
  - intros id s. split; [done|]. intros r [= <-]. cbn. by rewrite map_find.
  - intros id s. split; [done|]. cbn. rewrite map_find. intros text l.
    destruct (List.find _ _) as [r|]; [|done]. case_bool_decide as Hb; [|done]. intros [= <-] [= <-].
    by exists r.
  - intros id s. split; [done|]. intros l [= <-] o u Hu. rewrite find_members in Hu.
    destruct (d_member u o (dir s)) as [m|] eqn:E; [|done]. unfold d_member in E.
    apply find_some in E as [Hin Hm]. apply andb_true_iff in Hm as [<-%String.eqb_eq _]. injection Hu as Hr.
    apply list_elem_of_In, in_map_iff. exists m. split; [done|]. apply filter_In. split; [done|].
    by apply bool_decide_eq_true.
  - intros [o0 u0 r] s v v' o u. apply added_member.
  - intros o0 u0 name s v v' o u. set (role := rt_ID <$> role_named name s).
    destruct (added_member s o0 u0 role (role_scopes s role) o u) as [E|E]; [by left|]. right. exists role. split; [exact E|].
    intros id Hid. subst role. destruct (role_named name s) as [t|] eqn:Ht; [|done].
    injection Hid as <-. apply find_some in Ht as [_ Hn]. apply andb_true_iff in Hn as [_ Hn]. cbn. rewrite map_find.
    destruct (List.find _ _) as [t'|]; [|done]. exists t'. split; [done | by apply String.eqb_eq].
  - intros [o0 u0 r] s v v' o u. subst v v'. cbn. rewrite updated_member. unfold set_member. cbn.
    case_decide as Hd; [|by left]. destruct Hd as [-> ->].
    destruct (List.find _ _) as [m|]; cbn; [by right | by left].
  - intros o0 u0 s v v' o u. subst v v'. cbn. unfold set_member. cbn. right. case_decide as Hd.
    + destruct Hd as [-> ->]. by rewrite find_filter_out.
    + rewrite find_filter_other; [done|]. intros m Hm. destruct (is_member o0 u0 m) eqn:E; [|done].
      destruct (is_member_same _ _ _ _ _ E Hm) as [-> ->]. by destruct Hd.
  - intros org s. cbn. case_bool_decide as Hf; cbn; [done|].
    split_and!; [done | done|]. intros id [= <-]. by rewrite map_find.
  - intros s. by split.
  - done.
  - intros id s. cbn. split; [|by left]. right. apply map_eq. intros k. rewrite map_find.
    destruct (decide (id = k)) as [<-|Hne].
    + by rewrite lookup_delete_eq, find_filter_out.
    + rewrite lookup_delete_ne, map_find by done. apply find_filter_other.
      intros o Ho%String.eqb_eq. subst k. apply String.eqb_neq. congruence.
Defined.
