(* ===== verification/ApiKeys.v ===== *)
(** * API keys, managed by their owners

    api/admin/apikeys.go: listing, creating, reading, deleting, updating and rotating
    API keys.  The routes ask for no scope of their own; the handlers decide from the
    user and the scopes that authentication put into the request's context.  A handler
    returns the status and the body it writes. *)

From S2P Require Import Prelude GoStrings Web Rbac Identity.
From stdpp Require Import gmap.
#[local] Open Scope Z_scope.

Record CreateAPIKeyRequest := {
  ck_Name : string;
  ck_OrganizationID : string;
  ck_Description : option string;
  ck_Scopes : list string;
  ck_ExpiresAt : option string;
}.

Record CreateAPIKeyResponse := {
  kr_ID : string;
  kr_Name : string;
  kr_Key : string;
  kr_KeyPrefix : string;
  kr_Scopes : list string;
  kr_ExpiresAt : option Z;
  kr_CreatedAt : Z;
}.

(** An update; [None] leaves a field as it is. *)
Record UpdateAPIKeyRequest := {
  uk_Name : option string;
  uk_Scopes : option (list string);
  uk_ExpiresAt : option string;
}.

Record RotateAPIKeyResponse := {
  rr_NewKey : CreateAPIKeyResponse;
  rr_OldKeyStatus : string;
  rr_OldExpiresAt : option Z;
}.

Inductive key_body :=
| KError (message : string)
| KMessage (message : string)
| KList (keys : list APIKey)
| KKey (k : APIKey)
| KCreated (response : CreateAPIKeyResponse)
| KRotated (response : RotateAPIKeyResponse).
Definition key_reply : Type := Z * key_body.

Definition set_key (f : apikey -> apikey) (k : APIKey) : APIKey := {|
  key := f (key k); key_Name := key_Name k; key_Description := key_Description k; key_Prefix := key_Prefix k;
  key_UserName := key_UserName k; key_LastUsedAt := key_LastUsedAt k;
  key_ExpiryNotificationSentAt := key_ExpiryNotificationSentAt k; key_CreatedAt := key_CreatedAt k |}.

Definition set_key_name (name : string) (k : APIKey) : APIKey := {|
  key := key k; key_Name := name; key_Description := key_Description k; key_Prefix := key_Prefix k;
  key_UserName := key_UserName k; key_LastUsedAt := key_LastUsedAt k;
  key_ExpiryNotificationSentAt := key_ExpiryNotificationSentAt k; key_CreatedAt := key_CreatedAt k |}.

Definition set_scopes (scopes : list string) : APIKey -> APIKey := set_key (fun k => {|
  ak_ID := ak_ID k; ak_UserID := ak_UserID k; ak_OrganizationID := ak_OrganizationID k;
  ak_KeyHash := ak_KeyHash k; ak_ExpiresAt := ak_ExpiresAt k; ak_Scopes := scopes |}).

Definition set_expiry (at_ : Z) : APIKey -> APIKey := set_key (fun k => {|
  ak_ID := ak_ID k; ak_UserID := ak_UserID k; ak_OrganizationID := ak_OrganizationID k;
  ak_KeyHash := ak_KeyHash k; ak_ExpiresAt := Some at_; ak_Scopes := ak_Scopes k |}).

Definition hour : Z := 3600 * 1000000000.

Section Handlers.
Context {X : Type} `{Identity X, IdentityAdmin X, ScopeLib, Parsers}.
#[local] Abbreviation P := (prog (env (web X))).

Definition kfail (status : Z) (message : string) : P key_reply := ret (status, KError message).

(** The user of the request: 401 without one, 500 when the value is no string. *)
Definition with_user (k : string -> P key_reply) : P key_reply :=
  let! userIDVal := c_Get "user_id" in
  match userIDVal with
  | None => kfail 401 "User not authenticated"
  | Some (VString userID) => k userID
  | Some _ => kfail 500 "Invalid user ID format"
  end.

(** The two-value assertions: a missing or foreign value counts as empty. *)
Definition ctx_user : P string := c_GetString "user_id".
Definition ctx_scopes : P (list string) :=
  let! scopesVal := c_Get "scopes" in
  ret (match scopesVal with Some (VStrings scopes) => scopes | _ => [] end).

Definition ListAPIKeysHandler (orgID : string) : P key_reply :=
  with_user (fun userID =>
    let! scopes := ctx_scopes in
    let canManageAll := HasScope scopes ScopeAPIKeysManage || HasScope scopes ScopeAdmin in
    let! keys := (if negb (String.eqb orgID "")
                  then if canManageAll then ident (KeysByOrganization orgID)
                       else ident (KeysByUserAndOrganization userID orgID)
                  else if canManageAll then ident KeysListAll
                  else ident (KeysByUser userID)) in
    match keys with
    | Err _ => kfail 500 "Failed to list API keys"
    | Ok keys => ret (200, KList keys)
    end).

(** The requested scopes against those of the role: the first one outside, if the
    role is not an administrator's. *)
Definition exceeding (role requested : list string) : option string :=
  if existsb (String.eqb "admin") role then None
  else List.find (fun s => negb (existsb (String.eqb s) role)) requested.

Definition exceeds (scope : string) : string :=
  "Scope '" +:+ scope +:+ "' exceeds your role permissions for this organization".

Definition parse_expiry (text : option string) (k : option Z -> P key_reply) : P key_reply :=
  match text with
  | None => k None
  | Some t => match parse_rfc3339 t with
              | None => kfail 400 "Invalid expires_at format. Use RFC3339"
              | Some at_ => k (Some at_)
              end
  end.

Definition created_response (id fullKey : string) (k : APIKey) : CreateAPIKeyResponse := {|
  kr_ID := id; kr_Name := key_Name k; kr_Key := fullKey; kr_KeyPrefix := key_Prefix k;
  kr_Scopes := ak_Scopes (key k); kr_ExpiresAt := ak_ExpiresAt (key k); kr_CreatedAt := key_CreatedAt k |}.

Definition resolve_org (orgID : string) (k : string -> P key_reply) : P key_reply :=
  if String.eqb orgID "default" || String.eqb orgID "" then
    let! org := ident OrgDefault in
    match org with
    | Err _ => kfail 500 "Failed to get default organization"
    | Ok None => kfail 500 "Default organization not found"
    | Ok (Some org) => k (org_ID org)
    end
  else k orgID.

Definition mint (userID orgID : string) (req : CreateAPIKeyRequest) (expiresAt : option Z) : P key_reply :=
  let! generated := ident (GenerateAPIKey "tfr") in
  match generated with
  | Err _ => kfail 500 "Failed to generate API key"
  | Ok (fullKey, keyHash, displayPrefix) =>
      let! now := time_now in
      let apiKey := {|
        key := {| ak_ID := ""; ak_UserID := Some userID; ak_OrganizationID := orgID; ak_KeyHash := keyHash;
                  ak_ExpiresAt := expiresAt; ak_Scopes := ck_Scopes req |};
        key_Name := ck_Name req; key_Description := ck_Description req; key_Prefix := displayPrefix;
        key_UserName := None; key_LastUsedAt := None; key_ExpiryNotificationSentAt := None;
        key_CreatedAt := now |} in
      let! created := ident (KeyCreate apiKey) in
      match created with
      | Err _ => kfail 500 "Failed to create API key"
      | Ok id => ret (201, KCreated (created_response id fullKey apiKey))
      end
  end.

Definition CreateAPIKeyHandler (input : res CreateAPIKeyRequest) : P key_reply :=
  match input with
  | Err _ => kfail 400 "Invalid request"
  | Ok req =>
      with_user (fun userID =>
        match ValidateScopes (ck_Scopes req) with
        | Some e => kfail 400 ("Invalid scopes: " +:+ Error e)
        | None =>
            resolve_org (ck_OrganizationID req) (fun orgID =>
              let! member := ident (GetMemberWithRole orgID userID) in
              match member with
              | Err _ => kfail 500 "Failed to get user role information"
              | Ok None => kfail 403 "You are not a member of this organization"
              | Ok (Some m) =>
                  match mr_RoleTemplateID m with
                  | None => kfail 403 "No role template assigned for this organization. Contact an administrator to assign a role."
                  | Some _ =>
                      match exceeding (mr_RoleTemplateScopes m) (ck_Scopes req) with
                      | Some s => kfail 403 (exceeds s)
                      | None => parse_expiry (ck_ExpiresAt req) (mint userID orgID req)
                      end
                  end
              end)
        end)
  end.

(** Load the key; only its owner or an administrator goes on. *)
Definition with_own_key (keyID : string) (k : string -> APIKey -> P key_reply) : P key_reply :=
  let! apiKey := ident (KeyByID keyID) in
  match apiKey with
  | Err _ => kfail 500 "Failed to retrieve API key"
  | Ok None => kfail 404 "API key not found"
  | Ok (Some apiKey) =>
      let! userID := ctx_user in
      if bool_decide (ak_UserID (key apiKey) = Some userID) then k userID apiKey
      else
        let! scopes := ctx_scopes in
        if HasScope scopes ScopeAdmin then k userID apiKey else kfail 403 "Access denied"
  end.

Definition GetAPIKeyHandler (keyID : string) : P key_reply :=
  with_own_key keyID (fun _ apiKey => ret (200, KKey apiKey)).

Definition DeleteAPIKeyHandler (keyID : string) : P key_reply :=
  with_own_key keyID (fun _ _ =>
    let! deleted := ident (KeyDelete keyID) in
    match deleted with
    | Err _ => kfail 500 "Failed to delete API key"
    | Ok _ => ret (200, KMessage "API key deleted successfully")
    end).

(** New scopes are held against the caller's role, when the caller has one. *)
Definition check_scopes (userID : string) (apiKey : APIKey) (scopes : option (list string))
  (k : APIKey -> P key_reply) : P key_reply :=
  match scopes with
  | None => k apiKey
  | Some scopes =>
      match ValidateScopes scopes with
      | Some e => kfail 400 ("Invalid scopes: " +:+ Error e)
      | None =>
          let! member := ident (GetMemberWithRole (ak_OrganizationID (key apiKey)) userID) in
          match member with
          | Err _ => kfail 500 "Failed to get user role information"
          | Ok None => k (set_scopes scopes apiKey)
          | Ok (Some m) =>
              match mr_RoleTemplateID m with
              | None => k (set_scopes scopes apiKey)
              | Some _ =>
                  match exceeding (mr_RoleTemplateScopes m) scopes with
                  | Some s => kfail 403 (exceeds s)
                  | None => k (set_scopes scopes apiKey)
                  end
              end
          end
      end
  end.

Definition UpdateAPIKeyHandler (keyID : string) (input : res UpdateAPIKeyRequest) : P key_reply :=
  match input with
  | Err _ => kfail 400 "Invalid request"
  | Ok req =>
      with_own_key keyID (fun userID apiKey =>
        let apiKey := match uk_Name req with Some n => set_key_name n apiKey | None => apiKey end in
        check_scopes userID apiKey (uk_Scopes req) (fun apiKey =>
          parse_expiry (uk_ExpiresAt req) (fun expiresAt =>
            let apiKey := match expiresAt with Some at_ => set_expiry at_ apiKey | None => apiKey end in
            let! updated := ident (KeyUpdate apiKey) in
            match updated with
            | Err _ => kfail 500 "Failed to update API key"
            | Ok _ => ret (200, KKey apiKey)
            end)))
  end.

(** What becomes of the old key: its status and, when it lives on, until when. *)
Definition retire (oldKey : APIKey) (gracePeriodHours : Z) : P (string * option Z) :=
  if gracePeriodHours =? 0 then
    let! deleted := ident (KeyDelete (ak_ID (key oldKey))) in
    ret (match deleted with Err _ => "revocation_failed" | Ok _ => "revoked" end, None)
  else
    let! now := time_now in
    let gracePeriodEnd := now + gracePeriodHours * hour in
    let! updated := ident (KeyUpdate (set_expiry gracePeriodEnd oldKey)) in
    ret (match updated with
         | Err _ => ("grace_period_update_failed", None)
         | Ok _ => ("expires_at", Some gracePeriodEnd)
         end).

(** A body that does not bind counts as no grace period. *)
Definition RotateAPIKeyHandler (keyID : string) (input : res Z) : P key_reply :=
  let gracePeriodHours := match input with Ok h => h | Err _ => 0 end in
  if (gracePeriodHours <? 0) || (72 <? gracePeriodHours)
  then kfail 400 "grace_period_hours must be between 0 and 72"
  else
    with_own_key keyID (fun _ oldKey =>
      let! generated := ident (GenerateAPIKey "tfr") in
      match generated with
      | Err _ => kfail 500 "Failed to generate new API key"
      | Ok (fullKey, keyHash, displayPrefix) =>
          let! now := time_now in
          let newKey := {|
            key := {| ak_ID := ""; ak_UserID := ak_UserID (key oldKey);
                      ak_OrganizationID := ak_OrganizationID (key oldKey); ak_KeyHash := keyHash;
                      ak_ExpiresAt := ak_ExpiresAt (key oldKey); ak_Scopes := ak_Scopes (key oldKey) |};
            key_Name := key_Name oldKey +:+ " (rotated)"; key_Description := key_Description oldKey;
            key_Prefix := displayPrefix; key_UserName := None; key_LastUsedAt := None;
            key_ExpiryNotificationSentAt := None; key_CreatedAt := now |} in
          let! created := ident (KeyCreate newKey) in
          match created with
          | Err _ => kfail 500 "Failed to create new API key"
          | Ok id =>
              let! old := retire oldKey gracePeriodHours in
              ret (200, KRotated {| rr_NewKey := created_response id fullKey newKey;
                                    rr_OldKeyStatus := fst old; rr_OldExpiresAt := snd old |})
          end
      end).
End Handlers.
