(* ===== verification/ApiKeysSafety.v ===== *)
(** * Who may change which API key, and what a key may be given

    Theorems about the handlers of [ApiKeys] over any identity store that satisfies
    [KeyLaws]: every key that a request creates, changes or deletes, with the reason
    that permits it. *)

From S2P Require Import Prelude GoStrings Web Rbac AuthMiddleware Hoare Identity IdentityStore ApiKeys.
From stdpp Require Import gmap.
#[local] Open Scope Z_scope.

(** ** The requests *)
Inductive key_request :=
| RList (org : string)
| RCreate (input : res CreateAPIKeyRequest)
| RGet (id : string)
| RDelete (id : string)
| RUpdate (id : string) (input : res UpdateAPIKeyRequest)
| RRotate (id : string) (input : res Z).

Definition handle_key {X} `{Identity X, IdentityAdmin X, ScopeLib, Parsers} (r : key_request)
  : prog (env (web X)) key_reply :=
  match r with
  | RList org => ListAPIKeysHandler org
  | RCreate input => CreateAPIKeyHandler input
  | RGet id => GetAPIKeyHandler id
  | RDelete id => DeleteAPIKeyHandler id
  | RUpdate id input => UpdateAPIKeyHandler id input
  | RRotate id input => RotateAPIKeyHandler id input
  end.

(** The caller, as authentication left it in the context. *)
Definition caller_of (g : ginctx) : string :=
  match Web.keys g !! "user_id" with Some (VString u) => u | _ => "" end.
Definition scopes_of (g : ginctx) : list string :=
  match Web.keys g !! "scopes" with Some (VStrings l) => l | _ => [] end.

Section Authorized.
Context {X : Type} `{KeyLaws X} `{ScopeLib} `{Parsers}.
Context (s0 : web X).
#[local] Abbreviation caller := (caller_of (gin s0)).
#[local] Abbreviation before := (keys_of (ext s0)).

(** The caller owns the key, or is an administrator. *)
Definition controls (k : APIKey) : Prop :=
  ak_UserID (key k) = Some caller \/ HasScope (scopes_of (gin s0)) ScopeAdmin = true.

(** The caller's role in the organization covers the scopes. *)
Definition within_role (org : string) (scopes : list string) : Prop :=
  exists m, role_of (ext s0) org caller = Some m /\ mr_RoleTemplateID m <> None /\
    ("admin" ∈ mr_RoleTemplateScopes m \/ forall s, s ∈ scopes -> s ∈ mr_RoleTemplateScopes m).

(** The caller has no role there. *)
Definition without_role (org : string) : Prop :=
  match role_of (ext s0) org caller with Some m => mr_RoleTemplateID m = None | None => True end.

(** What a request may do to the key stored under an ID. *)
Inductive allowed : option APIKey -> option APIKey -> Prop :=
| key_kept k : allowed k k
| key_deleted k : controls k -> allowed (Some k) None
| key_changed k k' :
    controls k -> same_holder (key k) (key k') ->
    (ak_Scopes (key k') = ak_Scopes (key k) \/ within_role (ak_OrganizationID (key k)) (ak_Scopes (key k')) \/
     without_role (ak_OrganizationID (key k))) ->
    allowed (Some k) (Some k')
| key_minted k :
    ak_UserID (key k) = Some caller -> within_role (ak_OrganizationID (key k)) (ak_Scopes (key k)) ->
    allowed None (Some k)
| key_renewed k k' id :
    before !! id = Some k -> controls k -> ak_UserID (key k') = ak_UserID (key k) ->
    ak_OrganizationID (key k') = ak_OrganizationID (key k) -> ak_Scopes (key k') = ak_Scopes (key k) ->
    ak_ExpiresAt (key k') = ak_ExpiresAt (key k) -> allowed None (Some k').

Definition roles_kept (s : web X) : Prop := forall o u, role_of (ext s) o u = role_of (ext s0) o u.

(** The keys so far: nothing but what is allowed. *)
Definition legit (s : web X) : Prop :=
  roles_kept s /\ forall id, allowed (before !! id) (keys_of (ext s) !! id).

Definition still (s : web X) : Prop := gin s = gin s0 /\ keys_of (ext s) = before /\ roles_kept s.

Lemma still_legit s : still s -> legit s.
Proof. intros (_ & Hk & Hr). split; [done|]. intros id. rewrite Hk. constructor. Qed.

Lemma still_same (s : web X) x : still s -> same_identity (ext s) x -> still (Web (gin s) (tables s) x).
Proof. intros (Hg & Hk & Hr) [Hk' Hr']. split_and!; [done | by rewrite <- Hk |]. intros o u. cbn. by rewrite Hr'. Qed.

Lemma keep_fail status message (Pre : web X -> Prop) :
  (forall s, Pre s -> legit s) -> triple Pre (kfail status message) (fun _ => legit).
Proof. intros HP. by apply triple_ret. Qed.

Lemma key_fail status message : triple still (kfail status message) (fun _ => legit).
Proof. apply keep_fail, still_legit. Qed.

(** A call into the store. *)
Lemma triple_ident {A} (f : X -> A * X) (Pre : web X -> Prop) (Post : A -> web X -> Prop) :
  (forall s, Pre s -> Post (fst (f (ext s))) (Web (gin s) (tables s) (snd (f (ext s))))) ->
  triple Pre (ident f) Post.
Proof. intros Hf w HP. apply (Hf (st w)), HP. Qed.

Lemma still_and {A} (c : prog (env (web X)) A) (Q : web X -> Prop) Post :
  triple still c Post -> triple (fun s => still s /\ Q s) c Post.
Proof. intros Hc w [Hs _]. by apply Hc. Qed.

(** Reading a value of the context. *)
Lemma still_get {A} (f : web X -> A) a : (forall s, still s -> f s = a) ->
  triple still (gets f) (fun r s => still s /\ r = a).
Proof. intros Hf w Hs. split; [exact Hs|]. by apply Hf. Qed.

Lemma still_read {A} (f : X -> A * X) (k : A -> prog (env (web X)) key_reply) :
  (forall x, same_identity x (snd (f x))) ->
  (forall a, triple still (k a) (fun _ => legit)) -> triple still (bind (ident f) k) (fun _ => legit).
Proof.
  intros Hf Hk. apply (triple_bind _ (fun _ => still)); [|exact Hk].
  apply triple_ident. intros s Hs. by apply still_same.
Qed.

Lemma still_user (k : string -> prog (env (web X)) key_reply) :
  triple still (k caller) (fun _ => legit) -> triple still (bind ctx_user k) (fun _ => legit).
Proof.
  intros Hk. apply (triple_bind _ (fun r s => still s /\ r = caller)).
  { apply still_get. intros s (Hg & _). by rewrite Hg. }
  intros r. apply (triple_pure _ _ (r = caller)); [by intros s []|]. intros ->.
  by apply still_and.
Qed.

Lemma still_scopes (k : list string -> prog (env (web X)) key_reply) :
  triple still (k (scopes_of (gin s0))) (fun _ => legit) -> triple still (bind ctx_scopes k) (fun _ => legit).
Proof.
  intros Hk. apply (triple_bind _ (fun r s => still s /\ r = scopes_of (gin s0))).
  { intros w Hs. split; [exact Hs|]. destruct Hs as (Hg & _). cbn. by rewrite Hg. }
  intros r. apply (triple_pure _ _ (r = scopes_of (gin s0))); [by intros s []|]. intros ->.
  by apply still_and.
Qed.

Lemma still_with_user (k : string -> prog (env (web X)) key_reply) :
  triple still (k caller) (fun _ => legit) -> triple still (with_user k) (fun _ => legit).
Proof.
  intros Hk. apply (triple_bind _ (fun r s => still s /\ r = Web.keys (gin s0) !! "user_id")).
  { apply still_get. intros s (Hg & _). by rewrite Hg. }
  intros r. apply (triple_pure _ _ (r = Web.keys (gin s0) !! "user_id")); [by intros s []|]. intros Hr.
  apply still_and.
  unfold caller_of in Hk. rewrite <- Hr in Hk.
  destruct r as [[]|]; first [exact Hk | apply key_fail].
Qed.

Lemma still_own id (k : string -> APIKey -> prog (env (web X)) key_reply) :
  (forall a, before !! id = Some a -> controls a -> triple still (k caller a) (fun _ => legit)) ->
  triple still (with_own_key id k) (fun _ => legit).
Proof.
  intros Hk. apply (triple_bind _ (fun r s => still s /\ forall o, r = Ok o -> o = before !! id)).
  { apply triple_ident. intros s Hs. destruct (key_by_id_law id (ext s)) as [Hsame Hr].
    split; [by apply still_same|]. intros o Ho. rewrite (Hr _ Ho). by destruct Hs as (_ & <- & _). }
  intros r. apply (triple_pure _ _ (forall o, r = Ok o -> o = before !! id)); [by intros s []|]. intros Hr.
  apply still_and.
  destruct r as [[a|]|e]; [|apply key_fail..].
  apply still_user. specialize (Hr _ eq_refl). symmetry in Hr.
  case_bool_decide as Ho; [by apply Hk; [|left]|].
  apply still_scopes. destruct (HasScope _ _) eqn:Hs; [|apply key_fail]. by apply Hk; [|right].
Qed.

(** ** The writes *)

Lemma created_legit k (Pre : web X -> Prop) :
  (forall s, Pre s -> still s) -> (forall id, allowed None (Some (with_key_id id k))) ->
  triple Pre (ident (KeyCreate k)) (fun _ => legit).
Proof.
  intros HP Hk. apply triple_ident. intros s Hs. destruct (HP s Hs) as (Hg & Hb & Hr).
  destruct (key_create_law k (ext s)) as (Hr' & Hk' & _). split.
  { intros o u. cbn. by rewrite Hr'. }
  intros id. cbn. destruct Hk' as [-> | (id' & Hn & ->)]; [rewrite Hb; constructor|]. rewrite Hb in Hn |- *.
  destruct (decide (id' = id)) as [<-|Hne]; [rewrite lookup_insert_eq, Hn; apply Hk|].
  rewrite lookup_insert_ne by done. constructor.
Qed.

Lemma updated_legit k old :
  before !! ak_ID (key k) = Some old -> same_holder (key old) (key k) ->
  (forall k', key k' = key k -> allowed (Some old) (Some k')) ->
  triple still (ident (KeyUpdate k)) (fun _ => legit).
Proof.
  intros Hold Hh Hk. apply triple_ident. intros s (Hg & Hb & Hr). rewrite <- Hb in Hold.
  destruct (key_update_law k old (ext s) Hold Hh) as (Hr' & Hk' & _). split.
  { intros o u. cbn. by rewrite Hr'. }
  intros id. cbn. destruct Hk' as [-> | (k' & Hkk & ->)]; [rewrite Hb; constructor|]. rewrite Hb in Hold |- *.
  destruct (decide (ak_ID (key k) = id)) as [<-|Hne]; [rewrite lookup_insert_eq, Hold; by apply Hk|].
  rewrite lookup_insert_ne by done. constructor.
Qed.

Lemma deleted_legit id old :
  before !! id = Some old -> controls old -> triple still (ident (KeyDelete id)) (fun _ => legit).
Proof.
  intros Hold Hc. apply triple_ident. intros s (Hg & Hb & Hr).
  destruct (key_delete_law id (ext s)) as (Hr' & Hk' & _). split.
  { intros o u. cbn. by rewrite Hr'. }
  intros id'. cbn. destruct Hk' as [-> | ->]; rewrite Hb; [constructor|].
  destruct (decide (id = id')) as [<-|Hne]; [rewrite lookup_delete_eq, Hold; by constructor|].
  rewrite lookup_delete_ne by done. constructor.
Qed.

Lemma answer_legit {A} (r : res A) (f : A -> key_reply) status message :
  triple legit (match r with Err _ => kfail status message | Ok a => ret (f a) end) (fun _ => legit).
Proof. destruct r; by apply triple_ret. Qed.

(** ** The handlers *)

Lemma list_legit org : triple still (ListAPIKeysHandler org) (fun _ => legit).
Proof.
  apply still_with_user, still_scopes. pose proof key_reads_law as Hread.
  apply (triple_bind _ (fun _ => still)).
  - destruct (negb _), (HasScope _ _ || HasScope _ _); apply triple_ident; intros s Hs; apply still_same; try done;
      destruct (Hread (ext s)) as (H1' & H2' & H3' & H4' & _); auto.
  - intros [ks|e]; [|apply key_fail]. apply triple_ret. intros s Hs. by apply still_legit.
Qed.

Lemma exceeding_none role requested : exceeding role requested = None ->
  "admin" ∈ role \/ forall s, s ∈ requested -> s ∈ role.
Proof.
  unfold exceeding. destruct (existsb _ role) eqn:Ha.
  { intros _. left. apply existsb_exists in Ha as (x & Hx & <-%String.eqb_eq). by apply list_elem_of_In. }
  intros Hf. right. intros s Hs%list_elem_of_In. pose proof (find_none _ _ Hf s Hs) as Hn. cbn in Hn.
  apply negb_false_iff, existsb_exists in Hn as (x & Hx & <-%String.eqb_eq). by apply list_elem_of_In.
Qed.

Lemma still_parse text (k : option Z -> prog (env (web X)) key_reply) :
  (forall at_, triple still (k at_) (fun _ => legit)) -> triple still (parse_expiry text k) (fun _ => legit).
Proof. intros Hk. destruct text as [t|]; cbn; [destruct (parse_rfc3339 t)|]; auto using key_fail. Qed.

Lemma mint_legit org req at_ : within_role org (ck_Scopes req) ->
  triple still (mint caller org req at_) (fun _ => legit).
Proof.
  intros Hw. apply still_read; [intros x; apply key_reads_law|]. intros [[[full hash] prefix]|e]; [|apply key_fail].
  eapply triple_bind; [apply triple_now|]. intros now. cbv zeta.
  apply (triple_bind _ (fun _ => legit)); [|intros r; apply answer_legit].
  apply created_legit; [done|]. intros id. by apply key_minted.
Qed.

Lemma still_member org (k : res (option member_role) -> prog (env (web X)) key_reply) :
  (forall r, (forall m, r = Ok m -> m = role_of (ext s0) org caller) -> triple still (k r) (fun _ => legit)) ->
  triple still (bind (ident (GetMemberWithRole org caller)) k) (fun _ => legit).
Proof.
  intros Hk. apply (triple_bind _ (fun r s => still s /\ forall m, r = Ok m -> m = role_of (ext s0) org caller)).
  { apply triple_ident. intros s Hs. destruct (member_role_law org caller (ext s)) as [Hsame Hr].
    split; [by apply still_same|]. intros m Hm. rewrite (Hr _ Hm). apply Hs. }
  intros r. apply (triple_pure _ _ (forall m, r = Ok m -> m = role_of (ext s0) org caller)); [by intros s []|].
  intros Hr. by apply still_and, Hk.
Qed.

Lemma create_legit input : triple still (CreateAPIKeyHandler input) (fun _ => legit).
Proof.
  destruct input as [req|e]; [|apply key_fail]. apply still_with_user.
  destruct (ValidateScopes _); [apply key_fail|].
  assert (Hgo : forall org, triple still
    (let! member := ident (GetMemberWithRole org caller) in
     match member with
     | Err _ => kfail 500 "Failed to get user role information"
     | Ok None => kfail 403 "You are not a member of this organization"
     | Ok (Some m) =>
         match mr_RoleTemplateID m with
         | None => kfail 403 "No role template assigned for this organization. Contact an administrator to assign a role."
         | Some _ =>
             match exceeding (mr_RoleTemplateScopes m) (ck_Scopes req) with
             | Some s => kfail 403 (exceeds s)
             | None => parse_expiry (ck_ExpiresAt req) (mint caller org req)
             end
         end
     end) (fun _ => legit)).
  { intros org. apply still_member. intros [[m|]|e] Hm; [|apply key_fail..].
    destruct (mr_RoleTemplateID m) eqn:Ht; [|apply key_fail].
    destruct (exceeding _ _) eqn:Hx; [apply key_fail|]. apply still_parse. intros at_. apply mint_legit.
    exists m. split_and!; [symmetry; by apply Hm | congruence | by apply exceeding_none]. }
  unfold resolve_org. destruct (_ || _); [|apply Hgo].
  apply still_read; [intros x; apply key_reads_law|]. intros [[o|]|e]; [apply Hgo | apply key_fail..].
Qed.

Lemma same_holder_refl k : same_holder k k.
Proof. by split_and!. Qed.

Lemma get_legit id : triple still (GetAPIKeyHandler id) (fun _ => legit).
Proof. apply still_own. intros k _ _. apply triple_ret. intros s Hs. by apply still_legit. Qed.

Lemma delete_legit id : triple still (DeleteAPIKeyHandler id) (fun _ => legit).
Proof.
  apply still_own. intros k Hk Hc. eapply triple_bind; [by apply (deleted_legit id k)|].
  intros r. apply (answer_legit r (fun _ => _)).
Qed.

(** An update writes a row whose scopes were checked. *)
Definition regranted (old : APIKey) (k : APIKey) : Prop :=
  same_holder (key old) (key k) /\
  (ak_Scopes (key k) = ak_Scopes (key old) \/ within_role (ak_OrganizationID (key old)) (ak_Scopes (key k)) \/
   without_role (ak_OrganizationID (key old))).

Lemma still_check old a scopes k :
  key a = key old -> (forall a', regranted old a' -> triple still (k a') (fun _ => legit)) ->
  triple still (check_scopes caller a scopes k) (fun _ => legit).
Proof.
  intros Ha Hk. destruct scopes as [scopes|]; cbn [check_scopes].
  2:{ apply Hk. unfold regranted. rewrite Ha. split; [apply same_holder_refl | by left]. }
  assert (Hset : forall Q, within_role (ak_OrganizationID (key old)) scopes \/ without_role (ak_OrganizationID (key old)) ->
    Q = scopes -> regranted old (set_scopes Q a)).
  { intros Q Hq ->. unfold regranted, same_holder. cbn. rewrite Ha. split_and!; auto. }
  destruct (ValidateScopes scopes); [apply key_fail|]. rewrite Ha.
  apply still_member. intros [[m|]|e] Hm; [| |apply key_fail].
  - specialize (Hm _ eq_refl). destruct (mr_RoleTemplateID m) eqn:Ht.
    + destruct (exceeding _ _) eqn:Hx; [apply key_fail|]. apply Hk, Hset; [|done]. left. exists m.
      split_and!; [done | congruence | by apply exceeding_none].
    + apply Hk, Hset; [|done]. right. unfold without_role. by rewrite <- Hm.
  - specialize (Hm _ eq_refl). apply Hk, Hset; [|done]. right. unfold without_role. by rewrite <- Hm.
Qed.

Lemma update_legit id input : triple still (UpdateAPIKeyHandler id input) (fun _ => legit).
Proof.
  destruct input as [req|e]; [|apply key_fail]. apply still_own. intros old Hold Hc.
  apply (still_check old); [by destruct (uk_Name req)|]. intros a [Hh Hs]. apply still_parse. intros at_.
  set (a' := match at_ with Some _ => _ | None => _ end).
  assert (Ha : regranted old a') by (subst a'; destruct at_; by split). clearbody a'. destruct Ha as [Hh' Hs'].
  pose proof (key_id_law _ _ _ Hold) as Hid.
  eapply triple_bind; [|intros r; apply (answer_legit r (fun _ => _))].
  apply (updated_legit a' old); [|exact Hh'|].
  - destruct Hh' as [<- _]. by rewrite Hid.
  - intros k' Hk'. apply key_changed; rewrite ?Hk'; auto.
Qed.

(** Rotating creates the new key first; the old one is still the one it was. *)
Definition renewed_from (id : string) (s : web X) : Prop :=
  legit s /\ keys_of (ext s) !! id = before !! id.

Lemma retire_legit id old hours :
  before !! id = Some old -> controls old ->
  triple (renewed_from id) (retire old hours) (fun _ => legit).
Proof.
  intros Hold Hc. pose proof (key_id_law _ _ _ Hold) as Hid. unfold retire. rewrite Hid. destruct (hours =? 0).
  - apply (triple_bind _ (fun _ => legit)); [|intros r; by apply triple_ret].
    apply triple_ident. intros s [[Hr Hl] Hsame]. destruct (key_delete_law id (ext s)) as (Hr' & Hk & _).
    split; [intros o u; cbn; by rewrite Hr'|]. intros id'. cbn.
    destruct Hk as [-> | ->]; [apply Hl|]. destruct (decide (id = id')) as [<-|Hne].
    + rewrite lookup_delete_eq, Hold. by constructor.
    + rewrite lookup_delete_ne by done. apply Hl.
  - eapply triple_bind; [apply triple_now|]. intros now. cbv zeta.
    apply (triple_bind _ (fun _ => legit)); [|intros r; by apply triple_ret].
    apply triple_ident. intros s [[Hr Hl] Hsame].
    set (k := set_expiry _ old). assert (Hk : ak_ID (key k) = id) by exact Hid.
    destruct (key_update_law k old (ext s)) as (Hr' & Hk' & _); [by rewrite Hk, Hsame | by split_and!|].
    rewrite Hk in Hk'. split; [intros o u; cbn; by rewrite Hr'|]. intros id'. cbn.
    destruct Hk' as [-> | (k' & Hkk & ->)]; [apply Hl|]. destruct (decide (id = id')) as [<-|Hne].
    + rewrite lookup_insert_eq, Hold. apply key_changed; [done | by rewrite Hkk|]. left. by rewrite Hkk.
    + rewrite lookup_insert_ne by done. apply Hl.
Qed.

Lemma rotate_legit id input : triple still (RotateAPIKeyHandler id input) (fun _ => legit).
Proof.
  unfold RotateAPIKeyHandler. destruct (_ || _); [apply key_fail|]. apply still_own. intros old Hold Hc.
  apply still_read; [intros x; apply key_reads_law|]. intros [[[full hash] prefix]|e]; [|apply key_fail].
  eapply triple_bind; [apply triple_now|]. intros now. cbv zeta.
  set (k := {| key := _ |}).
  apply (triple_bind _ (fun _ => renewed_from id)).
  - intros w Hs. split; [apply (created_legit k still); [done | | exact Hs]|].
    { intros id'. by apply (key_renewed old _ id). }
    destruct Hs as (_ & Hb & _). cbn. destruct (key_create_law k (ext (st w))) as (_ & [-> | (id' & Hn & ->)] & _); [by rewrite Hb|].
    rewrite Hb in Hn |- *. rewrite lookup_insert_ne by congruence. done.
  - intros [id'|e].
    + eapply triple_bind; [by apply retire_legit|]. intros [s at_]. by apply triple_ret.
    + apply keep_fail. by intros s [].
Qed.

Lemma handle_legit r : triple still (handle_key r) (fun _ => legit).
Proof.
  destruct r; [apply list_legit | apply create_legit | apply get_legit | apply delete_legit |
    apply update_legit | apply rotate_legit].
Qed.
End Authorized.

Lemma ident_run {X A} (f : X -> A * X) (w : env (web X)) a x : f (ext (st w)) = (a, x) ->
  ident f w = (a, Env (Web (gin (st w)) (tables (st w)) x) (faults w) (clock w) (ticks w)).
Proof. intros Hf. unfold ident, state. cbn. by rewrite Hf. Qed.

(** ** Properties *)

(** C17: Whatever request about API keys comes in, each key afterwards is the key it was
    before, or the caller (its owner, or an administrator) deleted it, or changed it
    without changing its holder, or it is new: the caller's own, with scopes the
    caller's role in that organization covers, or the renewal of a key under the
    caller's control with the same owner, organization, scopes and expiry.  Changed
    scopes are covered by the caller's role in the key's organization, unless the
    caller has no role there. *)
Theorem key_changes_are_authorized {X} `{KeyLaws X} `{ScopeLib} `{Parsers} (r : key_request)
  (w : env (web X)) (id : string) :
  allowed (st w) (keys_of (ext (st w)) !! id) (keys_of (ext (st (snd (handle_key r w)))) !! id).
Proof. apply (handle_legit (st w) r w). by split_and!. Qed.

(** A user who has left an organization, or lost the role there, may still give the
    keys kept from it any scopes at all: an update that the store carries out succeeds
    and the key holds what was asked for, "admin" included. *)
Theorem former_member_grants_anything {X} `{KeyLaws X} `{ScopeLib} `{Parsers} id k scopes m x1 x2 x3 (w : env (web X)) :
  keys_of (ext (st w)) !! id = Some k -> ak_UserID (key k) = Some (caller_of (gin (st w))) ->
  ValidateScopes scopes = None ->
  KeyByID id (ext (st w)) = (Ok (Some k), x1) ->
  GetMemberWithRole (ak_OrganizationID (key k)) (caller_of (gin (st w))) x1 = (Ok m, x2) ->
  match m with Some m => mr_RoleTemplateID m = None | None => True end ->
  KeyUpdate (set_scopes scopes k) x2 = (Ok tt, x3) ->
  let r := UpdateAPIKeyHandler id (Ok {| uk_Name := None; uk_Scopes := Some scopes; uk_ExpiresAt := None |}) w in
  fst (fst r) = 200 /\
  exists k', keys_of (ext (st (snd r))) !! id = Some k' /\ ak_Scopes (key k') = scopes /\ same_holder (key k) (key k').
Proof.
  intros Hk Ho Hv Hget Hm Hnone Hup. pose proof (key_id_law _ _ _ Hk) as Hid.
  assert (Hk2 : keys_of x2 !! id = Some k).
  { destruct (key_by_id_law id (ext (st w))) as [[Hs1 _] _]. rewrite Hget in Hs1. cbn in Hs1.
    destruct (member_role_law (ak_OrganizationID (key k)) (caller_of (gin (st w))) x1) as [[Hs2 _] _].
    rewrite Hm in Hs2. cbn in Hs2. by rewrite Hs2, Hs1. }
  destruct (key_update_law (set_scopes scopes k) k x2) as (_ & _ & Hnew); [by cbn; rewrite Hid | by split_and!|].
  rewrite Hup in Hnew. destruct (Hnew eq_refl) as (k' & Hkk & Hl). cbn in Hl. rewrite Hid in Hl.
  assert (Hrun : UpdateAPIKeyHandler id (Ok {| uk_Name := None; uk_Scopes := Some scopes; uk_ExpiresAt := None |}) w =
    ((200, KKey (set_scopes scopes k)), Env (Web (gin (st w)) (tables (st w)) x3) (faults w) (clock w) (ticks w))).
  { unfold UpdateAPIKeyHandler, with_own_key. rewrite (bind_run _ _ _ _ _ (ident_run _ _ _ _ Hget)).
    erewrite bind_run by done. cbn [fst snd st gin]. fold (caller_of (gin (st w))).
    rewrite bool_decide_true by done. cbn [uk_Name uk_Scopes check_scopes]. rewrite Hv.
    erewrite bind_run by by apply ident_run.
    destruct m as [m|]; [rewrite Hnone|]; cbn [uk_ExpiresAt parse_expiry];
      by erewrite bind_run by by apply ident_run. }
  rewrite Hrun. cbn. split; [done|]. exists k'. rewrite Hl, Hkk. by split_and!.
Qed.

(** ** Witnesses *)
Module Demo.
#[export] Existing Instances core_scopes core_scopes_laws.

Definition old_key : APIKey := {|
  key := {| ak_ID := "k1"; ak_UserID := Some "bob"; ak_OrganizationID := "o1"; ak_KeyHash := "#tfr_0123456789";
            ak_ExpiresAt := Some 100; ak_Scopes := ["modules:read"] |};
  key_Name := "ci"; key_Description := None; key_Prefix := "tfr_012345"; key_UserName := None;
  key_LastUsedAt := None; key_ExpiryNotificationSentAt := None; key_CreatedAt := 0 |}.

Definition world (members : list (string * string * option string * list string)) : store := {|
  dir := {| d_users := ["bob"]; d_keys := []; d_sessions := []; d_revoked := []; d_members := members |};
  key_rows := {["k1" := old_key]}; org_rows := []; role_rows := []; next_id := 7%nat |}.
Definition publisher : string * string * option string * list string :=
  ("bob", "o1", Some "r1", ["modules:read"; "modules:write"]).

(** Bob's request with his key, at time 50, past authentication. *)
Definition with_key (token : string) (s : store) : env (web store) :=
  Env (Web (with_bearer ("Bearer " +:+ token) (request [] [])) empty_db s) [] 50 [].
Definition authenticated (s : store) : env (web store) := snd (AuthMiddleware true true (with_key "tfr_0123456789" s)).

Definition wants (scopes : list string) : CreateAPIKeyRequest := {|
  ck_Name := "n"; ck_OrganizationID := "o1"; ck_Description := None; ck_Scopes := scopes; ck_ExpiresAt := None |}.
Definition rescoped (scopes : list string) : UpdateAPIKeyRequest := {|
  uk_Name := None; uk_Scopes := Some scopes; uk_ExpiresAt := None |}.

Definition scopes_after (r : key_request) (s : store) (id : string) : Z * option (list string) :=
  let w := handle_key r (authenticated s) in
  (fst (fst w), (fun k => ak_Scopes (key k)) <$> stored_keys (ext (st (snd w))) !! id).

(** The role bounds a new key, not the key the request came with: one that may only
    read modules makes one that may write them. *)
Example narrow_key_mints_a_wider_one :
  scopes_after (RCreate (Ok (wants ["modules:write"]))) (world [publisher]) "id-7" = (201, Some ["modules:write"]) /\
  scopes_after (RCreate (Ok (wants ["admin"]))) (world [publisher]) "id-7" = (403, None).
Proof. by vm_compute. Qed.

(** A member's update is held against the role, a former member's is not; the next
    request with that key passes every scope check. *)
Example former_member_becomes_administrator :
  scopes_after (RUpdate "k1" (Ok (rescoped ["admin"]))) (world [publisher]) "k1" = (403, Some ["modules:read"]) /\
  scopes_after (RUpdate "k1" (Ok (rescoped ["admin"]))) (world []) "k1" = (200, Some ["admin"]) /\
  let s := ext (st (snd (handle_key (RUpdate "k1" (Ok (rescoped ["admin"]))) (authenticated (world []))))) in
  aborted (gin (st (snd (RequireScope ScopeAdmin (authenticated s))))) = None.
Proof. by vm_compute. Qed.

(** A rotation with a grace period lets the old key live past the expiry it had; the
    new key keeps that expiry. *)
Example rotation_extends_the_old_key :
  let s := ext (st (snd (handle_key (RRotate "k1" (Ok 72)) (authenticated (world [publisher]))))) in
  (fun id => (fun k => ak_ExpiresAt (key k)) <$> stored_keys s !! id) <$> ["k1"; "id-7"] =
    [Some (Some (50 + 72 * hour)); Some (Some 100)].
Proof. by vm_compute. Qed.

(** Whoever may manage keys in one organization lists those of all of them. *)
Example key_manager_lists_every_organization :
  snd (fst (ListAPIKeysHandler "" (quiet (Web (request
    [("user_id", VString "eve"); ("scopes", VStrings [ScopeAPIKeysManage])] []) empty_db (world []))))) = KList [old_key].
Proof. by vm_compute. Qed.
End Demo.

Import Demo.

Lemma key_changes_are_authorized_witness :
  fst (scopes_after (RUpdate "k1" (Ok (rescoped ["modules:write"]))) (world [publisher]) "k1") = 200 /\
  allowed (st (authenticated (world [publisher]))) (Some old_key) (Some (set_scopes ["modules:write"] old_key)).
Proof.
  split; [by vm_compute|].
  exact (key_changes_are_authorized (RUpdate "k1" (Ok (rescoped ["modules:write"]))) (authenticated (world [publisher])) "k1").
Defined.

Lemma former_member_grants_anything_witness :
  fst (fst (UpdateAPIKeyHandler "k1" (Ok (rescoped ["admin"])) (authenticated (world [])))) = 200.
Proof.
  exact (proj1 (former_member_grants_anything "k1" old_key ["admin"] None
    (world []) (world []) (set_rows <["k1" := set_scopes ["admin"] old_key]> (world [])) (authenticated (world []))
    eq_refl eq_refl eq_refl eq_refl eq_refl I eq_refl)).
Defined.
