(* ===== verification/Orgs.v ===== *)
(** * Organizations, their members and the roles

    api/admin/organizations.go, the assignment ceiling of api/admin/role_ceiling.go and
    the role-template half of api/admin/rbac.go.  The organizations, memberships and
    role templates are in the shared identity module ([IdentityAdmin]); the namespace
    claims and the revocation watermarks are the registry's own tables.  A handler
    returns the status and the body it writes; [revocations] says whether the
    revocation repository is wired in. *)

From S2P Require Import Prelude GoStrings Validation Web Rbac AuthMiddleware NamespaceAuthz Identity.
From stdpp Require Import gmap.
#[local] Open Scope Z_scope.

Record CreateOrganizationRequest := { co_Name : string; co_DisplayName : string }.
Record UpdateOrganizationRequest := {
  uo_Name : option string;
  uo_DisplayName : option string;
  uo_IdpType : option string;
  uo_IdpName : option string;
}.
Record AddMemberRequest := { am_UserID : string; am_RoleTemplateID : option string }.
Record CreateRoleTemplateRequest := {
  cr_Name : string;
  cr_DisplayName : string;
  cr_Description : string;
  cr_Scopes : list string;
}.

Inductive org_body :=
| OError (message : string)
| OMessage (message : string) (revocation_incomplete : bool)
| OOrgs (orgs : list Organization) (page per_page : Z) (total : option Z)
| OOrg (org : Organization)
| OOrgMembers (org : Organization) (members : list OrganizationMember)
| OMembers (members : list OrganizationMember)
| OMember (m : OrganizationMember)
| OMemberRole (m : option member_role)
| OClaims (claims : list (claim * string))
| OOwner (org_id org_name source : string) (claim : option claim)
| OAmbiguous (org_ids : list string)
| ORoles (roles : list RoleTemplate)
| ORole (role : RoleTemplate).
Definition org_reply : Type := Z * org_body.

Section Handlers.
Context {X : Type} `{Identity X, IdentityAdmin X, ScopeLib, Parsers, GoSort} (revocations : bool).
#[local] Abbreviation P := (prog (env (web X))).

Definition ofail (status : Z) (message : string) : P org_reply := ret (status, OError message).

(** Best effort: a failure is logged. *)
Definition revokeUserTokens (userID : string) : P unit :=
  if revocations then run! RevokeAllUserTokens userID in ret tt else ret tt.

(** ** Namespace ownership *)

Definition ListClaims : P (res (list claim)) :=
  query "ListClaims" (fun t =>
    Ok (go_sort (fun a b => String.ltb (cm_Namespace a) (cm_Namespace b))
          (map snd (map_to_list (namespace_claims t))))).

Fixpoint name_claims (cache : gmap string string) (claims : list claim) : P (list (claim * string)) :=
  match claims with
  | [] => ret []
  | c :: rest =>
      match cache !! cm_OrganizationID c with
      | Some name => let! out := name_claims cache rest in ret ((c, name) :: out)
      | None =>
          let! org := ident (OrgByID (cm_OrganizationID c)) in
          let name := match org with Ok (Some o) => org_Name o | _ => "" end in
          let! out := name_claims (<[cm_OrganizationID c := name]> cache) rest in
          ret ((c, name) :: out)
      end
  end.

Definition ListNamespaceClaimsHandler : P org_reply :=
  let! claims := ListClaims in
  match claims with
  | Err _ => ofail 500 "Failed to list namespace claims"
  | Ok claims => let! out := name_claims ∅ claims in ret (200, OClaims out)
  end.

Definition owner_reply (orgID source : string) (c : option claim) : P org_reply :=
  let! org := ident (OrgByID orgID) in
  ret (200, OOwner orgID (match org with Ok (Some o) => org_Name o | _ => "" end) source c).

Definition GetNamespaceOwnershipHandler (namespace : string) : P org_reply :=
  if String.eqb namespace "" then ofail 400 "namespace is required"
  else
    let! c := GetClaim namespace in
    match c with
    | Err _ => ofail 500 "Failed to resolve namespace ownership"
    | Ok (Some c) => owner_reply (cm_OrganizationID c) "claim" (Some c)
    | Ok None =>
        let! orgIDs := ArtifactOrganizations namespace in
        match orgIDs with
        | Err _ => ofail 500 "Failed to resolve namespace ownership"
        | Ok [] => ofail 404 "Namespace is unclaimed and has no artifacts"
        | Ok [orgID] => owner_reply orgID "artifact" None
        | Ok orgIDs => ret (200, OAmbiguous orgIDs)
        end
    end.

(** ** Organizations *)

(** Page and page size as the query gives them, and the offset in int arithmetic. *)
Definition page_of (page perPage : option string) : Z * Z * Z :=
  let page := fst (atoi (default "1" page)) in
  let perPage := fst (atoi (default "20" perPage)) in
  let page := if page <? 1 then 1 else page in
  let perPage := if (perPage <? 1) || (100 <? perPage) then 20 else perPage in
  (page, perPage, wrap64 ((page - 1) * perPage)).

Definition ListOrganizationsHandler (page perPage : option string) : P org_reply :=
  let '(page, perPage, offset) := page_of page perPage in
  let! orgs := ident (OrgList perPage offset) in
  match orgs with
  | Err _ => ofail 500 "Failed to list organizations"
  | Ok orgs =>
      let! total := ident OrgCount in
      match total with
      | Err _ => ofail 500 "Failed to count organizations"
      | Ok total => ret (200, OOrgs orgs page perPage (Some total))
      end
  end.

Definition SearchOrganizationsHandler (q : string) (page perPage : option string) : P org_reply :=
  if String.eqb q "" then ofail 400 "Search query is required"
  else
    let '(page, perPage, offset) := page_of page perPage in
    let! orgs := ident (OrgSearch q perPage offset) in
    match orgs with
    | Err _ => ofail 500 "Failed to search organizations"
    | Ok orgs => ret (200, OOrgs orgs page perPage None)
    end.

Definition with_org (orgID : string) (k : Organization -> P org_reply) : P org_reply :=
  let! org := ident (OrgByID orgID) in
  match org with
  | Err _ => ofail 500 "Failed to retrieve organization"
  | Ok None => ofail 404 "Organization not found"
  | Ok (Some org) => k org
  end.

Definition GetOrganizationHandler (orgID : string) : P org_reply :=
  with_org orgID (fun org =>
    let! members := ident (OrgMembersWithUsers orgID) in
    match members with
    | Err _ => ofail 500 "Failed to retrieve organization members"
    | Ok members => ret (200, OOrgMembers org members)
    end).

Definition ListMembersHandler (orgID : string) : P org_reply :=
  with_org orgID (fun _ =>
    let! members := ident (OrgMembersWithUsers orgID) in
    match members with
    | Err _ => ofail 500 "Failed to retrieve organization members"
    | Ok members => ret (200, OMembers members)
    end).

Definition CreateOrganizationHandler (input : res CreateOrganizationRequest) : P org_reply :=
  match input with
  | Err e => ofail 400 ("Invalid request: " +:+ Error e)
  | Ok req =>
      let! existing := ident (OrgByName (co_Name req)) in
      match existing with
      | Err _ => ofail 500 "Failed to check existing organization"
      | Ok (Some _) => ofail 409 "Organization with this name already exists"
      | Ok None =>
          let org id := {| org_ID := id; org_Name := co_Name req; org_DisplayName := co_DisplayName req;
                           org_IdpType := None; org_IdpName := None |} in
          let! created := ident (OrgCreate (org "")) in
          match created with
          | Err _ => ofail 500 "Failed to create organization"
          | Ok id =>
              let! uid := c_GetString "user_id" in
              if String.eqb uid "" then ret (201, OOrg (org id))
              else
                let! added := ident (OrgAddMemberWithParams id uid "org_owner") in
                match added with
                | Err _ => ofail 500 "Organization created but failed to add creator as a member"
                | Ok _ => ret (201, OOrg (org id))
                end
          end
      end
  end.

Definition with_name (name : string) (o : Organization) : Organization := {|
  org_ID := org_ID o; org_Name := name; org_DisplayName := org_DisplayName o;
  org_IdpType := org_IdpType o; org_IdpName := org_IdpName o |}.

(** A new name: the organization first, then the namespaces that carry it. *)
Definition rename_org (orgID : string) (org : Organization) (name : option string)
  (k : Organization -> P org_reply) : P org_reply :=
  match name with
  | None => k org
  | Some newName =>
      if String.eqb newName (org_Name org) then k org
      else
        match ValidateRegistrySegment newName with
        | Some e => ofail 400 ("invalid organization name: " +:+ Error e)
        | None =>
            let! existing := ident (OrgByName newName) in
            match existing with
            | Err _ => ofail 500 "Failed to check name availability"
            | Ok (Some _) => ofail 409 "Organization name already taken"
            | Ok None =>
                let! renamed := ident (OrgRename orgID newName) in
                match renamed with
                | Err _ => ofail 500 "Failed to rename organization"
                | Ok _ =>
                    let! cascaded := CascadeOrganizationRename orgID (org_Name org) newName in
                    match cascaded with
                    | Err _ => ofail 500 "Failed to rename organization"
                    | Ok _ => k (with_name newName org)
                    end
                end
            end
        end
  end.

Definition with_display (name : option string) (o : Organization) : Organization := {|
  org_ID := org_ID o; org_Name := org_Name o; org_DisplayName := default (org_DisplayName o) name;
  org_IdpType := org_IdpType o; org_IdpName := org_IdpName o |}.

(** The binding to an identity provider; an empty type clears it. *)
Definition bind_idp (req : UpdateOrganizationRequest) (o : Organization) : option Organization :=
  match uo_IdpType req with
  | None => Some o
  | Some t =>
      if String.eqb t "" then
        Some {| org_ID := org_ID o; org_Name := org_Name o; org_DisplayName := org_DisplayName o;
                org_IdpType := None; org_IdpName := None |}
      else if bool_decide (t ∈ ["oidc"; "saml"; "ldap"]) then
        Some {| org_ID := org_ID o; org_Name := org_Name o; org_DisplayName := org_DisplayName o;
                org_IdpType := Some t; org_IdpName := uo_IdpName req |}
      else None
  end.

Definition UpdateOrganizationHandler (orgID : string) (input : res UpdateOrganizationRequest) : P org_reply :=
  match input with
  | Err e => ofail 400 ("Invalid request: " +:+ Error e)
  | Ok req =>
      with_org orgID (fun org =>
        rename_org orgID org (uo_Name req) (fun org =>
          match bind_idp req (with_display (uo_DisplayName req) org) with
          | None => ofail 400 "idp_type must be 'oidc', 'saml', 'ldap', or empty to clear"
          | Some org =>
              let! updated := ident (OrgUpdate org) in
              match updated with
              | Err _ => ofail 500 "Failed to update organization"
              | Ok _ => ret (200, OOrg org)
              end
          end))
  end.

Definition DeleteOrganizationHandler (orgID : string) : P org_reply :=
  with_org orgID (fun _ =>
    let! claimCount := CountByOrganization orgID in
    match claimCount with
    | Err _ => ofail 500 "Failed to check namespace ownership"
    | Ok (S _) => ofail 409 "Organization still owns namespace claims; release or reassign its namespaces before deleting it"
    | Ok O =>
        let! ownsArtifacts := OwnsArtifacts orgID in
        match ownsArtifacts with
        | Err _ => ofail 500 "Failed to check organization artifact ownership"
        | Ok true => ofail 409 "Organization still owns modules or providers; remove or reassign them before deleting it"
        | Ok false =>
            let! deleted := ident (OrgDelete orgID) in
            match deleted with
            | Err _ => ofail 500 "Failed to delete organization"
            | Ok _ => ret (200, OMessage "Organization deleted successfully" false)
            end
        end
    end).

(** ** Members *)

(** The scopes of a role template. *)
Definition role_scopes_of (id : string) : P (res (option (list string))) :=
  let! row := ident (RoleScopesRow id) in
  ret (match row with
       | Err e => Err e
       | Ok None => Ok None
       | Ok (Some json) => match scopes_json json with Ok l => Ok (Some l) | Err e => Err e end
       end).

(** [None]: the caller may assign the role; otherwise the status of the refusal. *)
Definition checkRoleAssignment (orgID : string) (roleTemplateID : option string) : P (option Z) :=
  match roleTemplateID with
  | None => ret None
  | Some text =>
      if String.eqb text "" then ret None
      else
        match uuid_text text with
        | None => ret (Some 400)
        | Some id =>
            let! scopes := role_scopes_of id in
            match scopes with
            | Ok None => ret (Some 400)
            | Err _ => ret (Some 500)
            | Ok (Some []) => ret None
            | Ok (Some roleScopes) =>
                let! globalScopesVal := c_Get "scopes" in
                let globalScopes := match globalScopesVal with Some (VStrings l) => l | _ => [] end in
                let! callerScopes :=
                  if HasScope globalScopes ScopeAdmin then ret (Ok globalScopes)
                  else let! uid := c_GetString "user_id" in ident (GetUserScopesForOrg uid orgID) in
                match callerScopes with
                | Err _ => ret (Some 500)
                | Ok callerScopes =>
                    ret (if RoleScopesPermittedBy callerScopes roleScopes then None else Some 403)
                end
            end
        end
  end.

Definition permitted_role (orgID : string) (roleTemplateID : option string) (k : P org_reply) : P org_reply :=
  let! refusal := checkRoleAssignment orgID roleTemplateID in
  match refusal with Some status => ofail status "role assignment not permitted" | None => k end.

(** The member with its role; the plain member when the role cannot be read. *)
Definition member_answer (status : Z) (m : OrganizationMember) : P org_reply :=
  let! r := ident (GetMemberWithRole (om_OrganizationID m) (om_UserID m)) in
  ret (status, match r with Err _ => OMember m | Ok r => OMemberRole r end).

Definition AddMemberHandler (orgID : string) (input : res AddMemberRequest) : P org_reply :=
  match input with
  | Err e => ofail 400 ("Invalid request: " +:+ Error e)
  | Ok req =>
      permitted_role orgID (am_RoleTemplateID req) (
        with_org orgID (fun _ =>
          let! existing := ident (GetMember orgID (am_UserID req)) in
          match existing with
          | Err _ => ofail 500 "Failed to check existing membership"
          | Ok (Some _) => ofail 409 "User is already a member of this organization"
          | Ok None =>
              let m := {| om_OrganizationID := orgID; om_UserID := am_UserID req;
                          om_RoleTemplateID := am_RoleTemplateID req |} in
              let! added := ident (OrgAddMember m) in
              match added with
              | Err _ => ofail 500 "Failed to add member to organization"
              | Ok _ => member_answer 201 m
              end
          end))
  end.

(** [stringPtrEqual] is equality of options. *)
Definition UpdateMemberHandler (orgID userID : string) (input : res (option string)) : P org_reply :=
  match input with
  | Err e => ofail 400 ("Invalid request: " +:+ Error e)
  | Ok roleTemplateID =>
      permitted_role orgID roleTemplateID (
        let! existing := ident (GetMember orgID userID) in
        match existing with
        | Err _ => ofail 500 "Failed to retrieve member"
        | Ok None => ofail 404 "Member not found in organization"
        | Ok (Some old) =>
            let m := {| om_OrganizationID := orgID; om_UserID := userID; om_RoleTemplateID := roleTemplateID |} in
            let! updated := ident (OrgUpdateMember m) in
            match updated with
            | Err _ => ofail 500 "Failed to update member role"
            | Ok _ =>
                run! (if bool_decide (mb_RoleTemplateID old = roleTemplateID) then ret tt
                      else revokeUserTokens userID) in
                member_answer 200 m
            end
        end)
  end.

Definition RemoveMemberHandler (orgID userID : string) : P org_reply :=
  let! wasMember := (if revocations then
                       let! r := ident (GetMemberWithRole orgID userID) in
                       ret (match r with Ok (Some _) => Ok true | Ok None => Ok false | Err e => Err e end)
                     else ret (Ok false)) in
  let! removed := ident (OrgRemoveMember orgID userID) in
  match removed with
  | Err _ => ofail 500 "Failed to remove member from organization"
  | Ok _ =>
      run! (match wasMember with Ok true => revokeUserTokens userID | _ => ret tt end) in
      ret (200, OMessage "Member removed successfully" (negb (is_ok wasMember)))
  end.

(** ** Role templates *)

Definition revokeRoleTemplateMemberTokens (id : string) : P unit :=
  if revocations then
    let! userIDs := ident (RoleMemberIDs id) in
    match userIDs with
    | Err _ => ret tt
    | Ok userIDs => for_each userIDs revokeUserTokens
    end
  else ret tt.

Definition ListRoleTemplates : P org_reply :=
  let! templates := ident RoleList in
  match templates with
  | Err _ => ofail 500 "Failed to list role templates"
  | Ok templates => ret (200, ORoles templates)
  end.

Definition with_role (idStr : string) (k : string -> RoleTemplate -> P org_reply) : P org_reply :=
  match uuid_text idStr with
  | None => ofail 400 "Invalid role template ID"
  | Some id =>
      let! template := ident (RoleByID id) in
      match template with
      | Err _ => ofail 500 "Failed to get role template"
      | Ok None => ofail 404 "Role template not found"
      | Ok (Some template) => k id template
      end
  end.

Definition GetRoleTemplate (idStr : string) : P org_reply :=
  with_role idStr (fun _ template => ret (200, ORole template)).

Definition CreateRoleTemplate (input : res CreateRoleTemplateRequest) : P org_reply :=
  match input with
  | Err e => ofail 400 (Error e)
  | Ok req =>
      let! existing := ident (RoleByName (cr_Name req)) in
      match existing with
      | Err _ => ofail 500 "Failed to check existing template"
      | Ok (Some _) => ofail 409 "Role template with this name already exists"
      | Ok None =>
          let! id := ident NewUUID in
          let template := {| rt_ID := id; rt_Name := cr_Name req; rt_DisplayName := cr_DisplayName req;
                             rt_Description := Some (cr_Description req); rt_Scopes := cr_Scopes req;
                             rt_IsSystem := false |} in
          let! created := ident (RoleCreate template) in
          match created with
          | Err _ => ofail 500 "Failed to create role template"
          | Ok _ => ret (201, ORole template)
          end
      end
  end.

(** The name of a template is not updated. *)
Definition UpdateRoleTemplate (idStr : string) (input : res CreateRoleTemplateRequest) : P org_reply :=
  with_role idStr (fun id existing =>
    if rt_IsSystem existing then ofail 403 "Cannot modify system role templates"
    else
      match input with
      | Err e => ofail 400 (Error e)
      | Ok req =>
          let template := {| rt_ID := rt_ID existing; rt_Name := rt_Name existing;
                             rt_DisplayName := cr_DisplayName req; rt_Description := Some (cr_Description req);
                             rt_Scopes := cr_Scopes req; rt_IsSystem := rt_IsSystem existing |} in
          let! updated := ident (RoleUpdate template) in
          match updated with
          | Err _ => ofail 500 "Failed to update role template"
          | Ok _ =>
              run! (if bool_decide (rt_Scopes existing = cr_Scopes req) then ret tt
                    else revokeRoleTemplateMemberTokens id) in
              ret (200, ORole template)
          end
      end).

Definition DeleteRoleTemplate (idStr : string) : P org_reply :=
  with_role idStr (fun id existing =>
    if rt_IsSystem existing then ofail 403 "Cannot delete system role templates"
    else
      let! memberUserIDs := (if revocations then ident (RoleMemberIDs id) else ret (Ok [])) in
      let! deleted := ident (RoleDelete id) in
      match deleted with
      | Err _ => ofail 500 "Failed to delete role template"
      | Ok _ =>
          run! for_each (match memberUserIDs with Ok l => l | Err _ => [] end) revokeUserTokens in
          ret (200, OMessage "Role template deleted" (negb (is_ok memberUserIDs)))
      end).
End Handlers.
