(* ===== verification/OrgsSafety.v ===== *)
(** * Who may give whom which role, and what a change of role revokes

    Theorems about the handlers of [Orgs] over any identity store that satisfies
    [OrgLaws]: the memberships a request may change, the tokens that a change of role
    takes away, and what protects an organization that owns something. *)

From S2P Require Import Prelude GoStrings Web Rbac AuthMiddleware NamespaceAuthz Hoare Identity IdentityStore Orgs.
From stdpp Require Import gmap.
#[local] Open Scope Z_scope.

(** ** The requests *)
Inductive org_request :=
| QClaims
| QOwner (namespace : string)
| QList (page perPage : option string)
| QSearch (q : string) (page perPage : option string)
| QGet (org : string)
| QMembers (org : string)
| QCreate (input : res CreateOrganizationRequest)
| QUpdate (org : string) (input : res UpdateOrganizationRequest)
| QDelete (org : string)
| QAdd (org : string) (input : res AddMemberRequest)
| QChange (org user : string) (input : res (option string))
| QRemove (org user : string).

Definition handle_org {X} `{Identity X, IdentityAdmin X, ScopeLib, Parsers, GoSort} (revocations : bool)
  (r : org_request) : prog (env (web X)) org_reply :=
  match r with
  | QClaims => ListNamespaceClaimsHandler
  | QOwner n => GetNamespaceOwnershipHandler n
  | QList p n => ListOrganizationsHandler p n
  | QSearch q p n => SearchOrganizationsHandler q p n
  | QGet o => GetOrganizationHandler o
  | QMembers o => ListMembersHandler o
  | QCreate i => CreateOrganizationHandler i
  | QUpdate o i => UpdateOrganizationHandler o i
  | QDelete o => DeleteOrganizationHandler o
  | QAdd o i => AddMemberHandler o i
  | QChange o u i => UpdateMemberHandler revocations o u i
  | QRemove o u => RemoveMemberHandler revocations o u
  end.

Definition org_caller (g : ginctx) : string :=
  match Web.keys g !! "user_id" with Some (VString u) => u | _ => "" end.
Definition global_scopes (g : ginctx) : list string :=
  match Web.keys g !! "scopes" with Some (VStrings l) => l | _ => [] end.

Section Ceiling.
Context {X : Type} `{OrgLaws X} `{ScopeLib, !ScopeLibLaws, GoSort} (revocations : bool).
Context (s0 : web X).
#[local] Abbreviation caller := (org_caller (gin s0)).
#[local] Abbreviation before := (view (ext s0)).

(** The caller may hand out the role: there is none, or it gives nothing, or the caller
    is an administrator, or every scope of it is one the caller has in that very
    organization, and it is no administrator's. *)
Definition assignable (org : string) (role : option string) : Prop :=
  role = None \/ role = Some "" \/
  exists text id t, role = Some text /\ uuid_text text = Some id /\ v_roles before !! id = Some t /\
    (rt_Scopes t = [] \/ HasScope (global_scopes (gin s0)) ScopeAdmin = true \/
     idScopeAdmin ∈ v_scopes before caller org \/
     ((idScopeAdmin ∉ rt_Scopes t) /\ forall s, s ∈ rt_Scopes t -> HasScope (v_scopes before caller org) s = true)).

(** What a request may do to the membership of user [u] in organization [o]. *)
Inductive member_change (r : org_request) (o u : string) : option (option string) -> option (option string) -> Prop :=
| mc_kept m : member_change r o u m m
| mc_added m req : r = QAdd o (Ok req) -> am_UserID req = u -> assignable o (am_RoleTemplateID req) ->
    member_change r o u m (Some (am_RoleTemplateID req))
| mc_changed m role : r = QChange o u (Ok role) -> assignable o role -> member_change r o u (Some m) (Some role)
| mc_removed m : r = QRemove o u -> member_change r o u m None
| mc_deleted m : r = QDelete o -> member_change r o u m None
| mc_creator m role input : r = QCreate input -> u = caller -> u <> "" -> v_orgs before !! o = None ->
    (forall id, role = Some id -> exists t, v_roles before !! id = Some t /\ rt_Name t = "org_owner") ->
    member_change r o u m (Some role).

Definition fair (r : org_request) (s : web X) : Prop :=
  forall o u, member_change r o u (v_members before o u) (v_members (view (ext s)) o u).

Definition still (s : web X) : Prop := gin s = gin s0 /\ same_view (ext s0) (ext s).

Lemma still_fair r s : still s -> fair r s.
Proof. intros (_ & _ & _ & Hm & _) o u. rewrite Hm. constructor. Qed.

Lemma same_view_trans x y z : same_view x y -> same_view y z -> same_view x z.
Proof.
  intros (A1 & A2 & A3 & A4) (B1 & B2 & B3 & B4). split_and!; [congruence | congruence | |];
    intros; [by rewrite B3 | by rewrite B4].
Qed.

Lemma still_at s x : still s -> same_view (ext s) x -> still (Web (gin s) (tables s) x).
Proof. intros [Hg Hv] Hx. split; [done|]. by eapply same_view_trans. Qed.

Lemma org_fail r status message : triple still (ofail status message) (fun _ => fair r).
Proof. apply triple_ret. intros s Hs. by apply still_fair. Qed.

Lemma org_done r (a : org_reply) : triple still (ret a) (fun _ => fair r).
Proof. apply triple_ret. intros s Hs. by apply still_fair. Qed.

Lemma call_ident {A} (f : X -> A * X) (Pre : web X -> Prop) (Post : A -> web X -> Prop) :
  (forall s, Pre s -> Post (fst (f (ext s))) (Web (gin s) (tables s) (snd (f (ext s))))) ->
  triple Pre (ident f) Post.
Proof. intros Hf w HP. apply (Hf (st w)), HP. Qed.

(** A read whose answer is not used. *)
Lemma view_read {A B} (f : X -> A * X) (k : A -> prog (env (web X)) B) Post :
  (forall x, same_view x (snd (f x))) -> (forall a, triple still (k a) Post) ->
  triple still (bind (ident f) k) Post.
Proof.
  intros Hf Hk. apply (triple_bind _ (fun _ => still)); [|exact Hk].
  apply call_ident. intros s Hs. by apply still_at.
Qed.

(** A read with what its answer says. *)
Lemma view_read_as {A B} (f : X -> A * X) (Q : A -> Prop) (k : A -> prog (env (web X)) B) Post :
  (forall x, same_view x (snd (f x))) -> (forall x, same_view (ext s0) x -> Q (fst (f x))) ->
  (forall a, Q a -> triple still (k a) Post) -> triple still (bind (ident f) k) Post.
Proof.
  intros Hf HQ Hk. apply (triple_bind _ (fun r s => still s /\ Q r)).
  { apply call_ident. intros s Hs. split; [by apply still_at | apply HQ, Hs]. }
  intros a. apply (triple_pure _ _ (Q a)); [by intros s []|]. intros Ha w [Hw _]. by apply Hk.
Qed.

(** Statements on the registry's own tables. *)
Definition on_tables {A} (c : prog (env (web X)) A) : Prop :=
  forall w, gin (st (snd (c w))) = gin (st w) /\ ext (st (snd (c w))) = ext (st w).

Lemma table_sql {A} op (f : regdb -> res A * regdb) : on_tables (sql op f).
Proof. intros w. unfold sql, db. by destruct (faults w) as [|[] fs]. Qed.

Lemma table_bind {A B} (c : prog (env (web X)) A) (k : A -> prog (env (web X)) B) :
  on_tables c -> (forall a, on_tables (k a)) -> on_tables (bind c k).
Proof.
  intros Hc Hk w. destruct (Hc w) as [Hg He], (Hk (fst (c w)) (snd (c w))) as [Hg' He'].
  unfold bind. split; congruence.
Qed.

Lemma table_ret {A} (a : A) : on_tables (ret a).
Proof. done. Qed.

Lemma table_now : on_tables time_now.
Proof. done. Qed.

Lemma table_then {A B} (c : prog (env (web X)) A) (k : A -> prog (env (web X)) B) Post :
  on_tables c -> (forall a, triple still (k a) Post) -> triple still (bind c k) Post.
Proof.
  intros Hc Hk w [Hg Hv]. apply Hk. destruct (Hc w) as [Hg' He]. split; congruence.
Qed.

Lemma table_keeps {A} (c : prog (env (web X)) A) r : on_tables c -> triple (fair r) c (fun _ => fair r).
Proof. intros Hc w Hf o u. destruct (Hc w) as [_ ->]. apply Hf. Qed.

Lemma table_revoke u : on_tables (revokeUserTokens revocations u).
Proof.
  unfold revokeUserTokens. destruct revocations; [|apply table_ret].
  apply table_bind; [|intros _; apply table_ret]. apply table_bind; [apply table_now|]. intros now. apply table_sql.
Qed.

Lemma table_cascade o a b : on_tables (CascadeOrganizationRename o a b).
Proof.
  unfold CascadeOrganizationRename, tx. repeat (first [apply table_bind; [|intros []] | apply table_sql | apply table_ret | intros ? | done]).
Qed.

(** ** Reading handlers *)

Lemma fair_name_claims cache claims (k : list (claim * string) -> prog (env (web X)) org_reply) r :
  (forall out, triple still (k out) (fun _ => fair r)) ->
  triple still (bind (name_claims cache claims) k) (fun _ => fair r).
Proof.
  intros Hk. apply (triple_bind _ (fun _ => still)); [|exact Hk]. clear Hk k.
  revert cache. induction claims as [|c claims IH]; intros cache; cbn [name_claims]; [by apply triple_ret|].
  destruct (cache !! _).
  - apply (triple_bind _ (fun _ => still)); [apply IH | intros out; by apply triple_ret].
  - apply view_read; [intros x; apply org_by_id_law|]. intros org.
    apply (triple_bind _ (fun _ => still)); [apply IH | intros out; by apply triple_ret].
Qed.

Lemma fair_claims : triple still ListNamespaceClaimsHandler (fun _ => fair QClaims).
Proof.
  apply table_then; [apply table_sql|]. intros [claims|e]; [|apply org_fail].
  apply fair_name_claims. intros out. apply org_done.
Qed.

Lemma fair_owner n : triple still (GetNamespaceOwnershipHandler n) (fun _ => fair (QOwner n)).
Proof.
  unfold GetNamespaceOwnershipHandler. destruct (String.eqb n ""); [apply org_fail|].
  assert (Ho : forall id src c, triple still (owner_reply id src c) (fun _ => fair (QOwner n))).
  { intros id src c. apply view_read; [intros x; apply org_by_id_law | intros org; apply org_done]. }
  apply table_then; [apply table_sql|]. intros [[c|]|e]; [apply Ho | | apply org_fail].
  apply table_then; [apply table_sql|]. intros [[|o [|o' os]]|e]; [apply org_fail | apply Ho | apply org_done | apply org_fail].
Qed.

Lemma fair_list p n : triple still (ListOrganizationsHandler p n) (fun _ => fair (QList p n)).
Proof.
  unfold ListOrganizationsHandler. destruct (page_of p n) as [[a b] c].
  apply view_read; [intros x; apply org_reads_law|]. intros [os|e]; [|apply org_fail].
  apply view_read; [intros x; apply org_reads_law|]. intros [t|e]; [apply org_done | apply org_fail].
Qed.

Lemma fair_search q p n : triple still (SearchOrganizationsHandler q p n) (fun _ => fair (QSearch q p n)).
Proof.
  unfold SearchOrganizationsHandler. destruct (String.eqb q ""); [apply org_fail|].
  destruct (page_of p n) as [[a b] c].
  apply view_read; [intros x; apply org_reads_law|]. intros [os|e]; [apply org_done | apply org_fail].
Qed.

Lemma fair_with_org o k r :
  (forall org, triple still (k org) (fun _ => fair r)) -> triple still (with_org o k) (fun _ => fair r).
Proof.
  intros Hk. apply view_read; [intros x; apply org_by_id_law|].
  intros [[org|]|e]; [apply Hk | apply org_fail..].
Qed.

Lemma fair_get o : triple still (GetOrganizationHandler o) (fun _ => fair (QGet o)).
Proof.
  apply fair_with_org. intros org. apply view_read; [intros x; apply org_reads_law|].
  intros [ms|e]; [apply org_done | apply org_fail].
Qed.

Lemma fair_members o : triple still (ListMembersHandler o) (fun _ => fair (QMembers o)).
Proof.
  apply fair_with_org. intros org. apply view_read; [intros x; apply org_reads_law|].
  intros [ms|e]; [apply org_done | apply org_fail].
Qed.

(** ** Writing handlers *)

(** A write as the last call: the answer does not matter any more. *)
Lemma fair_write {A} r (f : X -> A * X) (k : A -> prog (env (web X)) org_reply) :
  (forall x o u, same_view (ext s0) x ->
     member_change r o u (v_members before o u) (v_members (view (snd (f x))) o u)) ->
  (forall a, triple (fair r) (k a) (fun _ => fair r)) -> triple still (bind (ident f) k) (fun _ => fair r).
Proof.
  intros Hf Hk. apply (triple_bind _ (fun _ => fair r)); [|exact Hk].
  apply call_ident. intros s [_ Hv] o u. cbn. by apply Hf.
Qed.

Lemma fair_answer r (a : org_reply) : triple (fair r) (ret a) (fun _ => fair r).
Proof. by apply triple_ret. Qed.

Lemma fair_user r (k : string -> prog (env (web X)) org_reply) Pre :
  (forall s, Pre s -> gin s = gin s0) -> triple Pre (k caller) (fun _ => fair r) ->
  triple Pre (bind (c_GetString "user_id") k) (fun _ => fair r).
Proof.
  intros Hg Hk w Hw. unfold bind, c_GetString, gets. cbn [fst snd]. rewrite (Hg _ Hw).
  fold (org_caller (gin s0)). by apply Hk.
Qed.

Lemma fair_create input : triple still (CreateOrganizationHandler input) (fun _ => fair (QCreate input)).
Proof.
  destruct input as [req|e]; [|apply org_fail].
  apply view_read; [intros x; apply org_reads_law|]. intros [[o|]|e]; [apply org_fail | | apply org_fail].
  cbv beta zeta. set (org := Build_Organization "" _ _ _ _).
  apply (triple_bind _ (fun r s => gin s = gin s0 /\ v_roles (view (ext s)) = v_roles before /\
    (forall o u, v_members (view (ext s)) o u = v_members before o u) /\
    forall id, r = Ok id -> v_orgs before !! id = None)).
  { apply call_ident. intros s [Hg (Ho & Hr & Hm & _)]. destruct (org_create_law org (ext s)) as (A & B & C). cbn.
    split_and!; [done | congruence | intros o u; by rewrite B | intros id Hid; rewrite <- Ho; by apply C]. }
  intros [id|e].
  2:{ apply triple_ret. intros s (_ & _ & Hm & _) o u. rewrite Hm. constructor. }
  apply fair_user; [by intros s []|]. destruct (String.eqb_spec caller "") as [Hc|Hc].
  { apply triple_ret. intros s (_ & _ & Hm & _) o u. rewrite Hm. constructor. }
  apply (triple_bind _ (fun _ => fair (QCreate (Ok req)))); [|intros [u|e]; apply fair_answer].
  apply call_ident. intros s (_ & Hr & Hm & Hid) o u. cbn.
  destruct (add_named_law id caller "org_owner" (ext s) o u) as [-> | (role & -> & Hrole)]; [rewrite Hm; constructor|].
  unfold set_member. destruct (decide _) as [[-> ->]|]; [|rewrite Hm; constructor].
  eapply mc_creator; [done | done | done | by apply Hid|]. by rewrite <- Hr.
Qed.

Lemma same_view_members x : same_view (ext s0) x -> forall o u, v_members (view x) o u = v_members before o u.
Proof. intros (_ & _ & Hm & _) o u. apply Hm. Qed.

Lemma members_kept r s : (forall o u, v_members (view (ext s)) o u = v_members before o u) -> fair r s.
Proof. intros Hm o u. rewrite Hm. constructor. Qed.

Lemma fair_update o input : triple still (UpdateOrganizationHandler o input) (fun _ => fair (QUpdate o input)).
Proof.
  set (r := QUpdate o input). destruct input as [req|e]; [|apply org_fail].
  set (kept := fun s : web X => forall o u, v_members (view (ext s)) o u = v_members before o u).
  assert (Hlast : forall org, triple kept (
    match bind_idp req (with_display (uo_DisplayName req) org) with
    | None => ofail 400 "idp_type must be 'oidc', 'saml', 'ldap', or empty to clear"
    | Some org => let! updated := ident (OrgUpdate org) in
                  match updated with Err _ => ofail 500 "Failed to update organization" | Ok _ => ret (200, OOrg org) end
    end) (fun _ => fair r)).
  { intros org. destruct (bind_idp _ _) as [org'|]; [|apply triple_ret; intros s; apply members_kept].
    apply (triple_bind _ (fun _ => fair r)); [|intros [u|e]; apply fair_answer].
    apply call_ident. intros s Hs. apply members_kept. intros o' u'. cbn.
    destruct (org_write_law (ext s)) as [_ ->]. apply Hs. }
  assert (Hkept : forall s, still s -> kept s) by (intros s [_ Hv] o' u'; by apply same_view_members).
  apply fair_with_org. intros org. unfold rename_org. destruct (uo_Name req) as [name|].
  2:{ intros w Hw. apply Hlast, Hkept, Hw. }
  destruct (String.eqb name (org_Name org)); [intros w Hw; apply Hlast, Hkept, Hw|].
  destruct (Validation.ValidateRegistrySegment name); [apply org_fail|].
  apply view_read; [intros x; apply org_reads_law|]. intros [[o'|]|e]; [apply org_fail | | apply org_fail].
  apply (triple_bind _ (fun _ => kept)).
  { apply call_ident. intros s Hs o' u'. cbn. destruct (org_write_law (ext s)) as [-> _]. by apply Hkept. }
  intros [u|e]; [|apply triple_ret; intros s; apply members_kept].
  apply (triple_bind _ (fun _ => kept)).
  { intros w Hw o' u'. destruct (table_cascade o (org_Name org) name w) as [_ ->]. apply Hw. }
  intros [u'|e]; [apply Hlast | apply triple_ret; intros s; apply members_kept].
Qed.

Lemma fair_delete o : triple still (DeleteOrganizationHandler o) (fun _ => fair (QDelete o)).
Proof.
  apply fair_with_org. intros org.
  apply table_then; [apply table_sql|]. intros [[|n]|e]; [| apply org_fail..].
  apply table_then; [apply table_sql|]. intros [[]|e]; [apply org_fail | | apply org_fail].
  apply fair_write; [|intros [u|e]; apply fair_answer]. intros x o' u' Hv.
  destruct (org_delete_law o x) as [_ Hm]. destruct (Hm o' u') as [-> | [-> ->]]; [|by apply mc_deleted].
  rewrite (same_view_members x Hv). constructor.
Qed.

(** ** The ceiling *)

Lemma fair_assignable o role (k : option Z -> prog (env (web X)) org_reply) r :
  (forall status, triple still (k (Some status)) (fun _ => fair r)) ->
  (assignable o role -> triple still (k None) (fun _ => fair r)) ->
  triple still (bind (checkRoleAssignment o role) k) (fun _ => fair r).
Proof.
  intros Hno Hyes. apply (triple_bind _ (fun v s => still s /\ (v = None -> assignable o role))).
  2:{ intros [status|]; [intros w [Hw _]; by apply Hno|].
      apply (triple_pure _ _ (assignable o role)); [by intros s [_ Ha]; apply Ha|].
      intros Ha w [Hw _]. by apply (Hyes Ha). }
  assert (Hret : forall v : option Z, (v = None -> assignable o role) ->
    triple still (ret v) (fun v s => still s /\ (v = None -> assignable o role))) by (intros v Hv; by apply triple_ret).
  destruct role as [text|]; cbn [checkRoleAssignment]; [|apply Hret; by left].
  destruct (String.eqb_spec text "") as [->|Ht]; [apply Hret; right; by left|].
  destruct (uuid_text text) as [id|] eqn:Hid; [|by apply Hret].
  apply (triple_bind _ (fun v s => still s /\ forall l, v = Ok (Some l) ->
    exists t, v_roles before !! id = Some t /\ rt_Scopes t = l)).
  { apply view_read_as with (Q := fun row => forall json l, row = Ok (Some json) -> scopes_json json = Ok l ->
      exists t, v_roles before !! id = Some t /\ rt_Scopes t = l).
    - intros x. apply role_scopes_law.
    - intros x (_ & Hr & _) json l Hrow Hl. destruct (role_scopes_law id x) as [_ Hlaw]. rewrite <- Hr. by eapply Hlaw.
    - intros row Hrow. apply triple_ret. intros s Hs. split; [done|]. intros l Hl.
      destruct row as [[json|]|e]; [|done|done]. destruct (scopes_json json) as [l'|e] eqn:Hj; [|done].
      injection Hl as ->. by eapply Hrow. }
  intros v. apply (triple_pure _ _ (forall l, v = Ok (Some l) -> exists t, v_roles before !! id = Some t /\ rt_Scopes t = l));
    [by intros s []|]. intros Hrow.
  eapply triple_weaken; [ | by intros s [Hs _]; apply Hs | intros a s Ha; exact Ha].
  destruct v as [[scopes|]|e]; [|by apply Hret..]. destruct (Hrow _ eq_refl) as (t & Ht' & Hsc).
  destruct scopes as [|sc scopes].
  { apply Hret. intros _. right. right. exists text, id, t. split_and!; [done | done | done | by left]. }
  apply (triple_bind _ (fun v s => still s /\ v = Web.keys (gin s0) !! "scopes")).
  { intros w [Hg Hv]. split; [by split|]. cbn. by rewrite Hg. }
  intros gv. apply (triple_pure _ _ (gv = Web.keys (gin s0) !! "scopes")); [by intros s []|]. intros ->.
  eapply triple_weaken; [ | by intros s [Hs _]; apply Hs | intros a s Ha; exact Ha]. cbv zeta.
  fold (global_scopes (gin s0)).
  apply (triple_bind _ (fun v s => still s /\ forall l, v = Ok l ->
    HasScope (global_scopes (gin s0)) ScopeAdmin = true \/ l = v_scopes before caller o)).
  { destruct (HasScope _ ScopeAdmin) eqn:Ha; [by apply triple_ret; auto|].
    intros w [Hg Hv]. unfold bind, c_GetString, gets. cbn [fst snd]. rewrite Hg. fold (org_caller (gin s0)).
    destruct (user_scopes_law caller o (ext (st w))) as [Hs Hl]. split; [by apply still_at|].
    intros l Hok. right. rewrite (Hl _ Hok). by destruct Hv as (_ & _ & _ & ->). }
  intros v. apply (triple_pure _ _ (forall l, v = Ok l ->
    HasScope (global_scopes (gin s0)) ScopeAdmin = true \/ l = v_scopes before caller o)); [by intros s []|].
  intros Hv. eapply triple_weaken; [ | by intros s [Hs _]; apply Hs | intros a s Ha; exact Ha].
  destruct v as [l|e]; [|by apply Hret].
  destruct (RoleScopesPermittedBy l (sc :: scopes)) eqn:Hp; apply Hret; [|done]. intros _.
  right. right. exists text, id, t. split_and!; [done | done | done|].
  destruct (Hv _ eq_refl) as [Ha | ->]; [right; by left|]. right. right. rewrite Hsc.
  by apply permitted_iff in Hp as [Hp|[Hp|Hp]]; [|left|right].
Qed.

Lemma fair_add o input : triple still (AddMemberHandler o input) (fun _ => fair (QAdd o input)).
Proof.
  destruct input as [req|e]; [|apply org_fail].
  apply fair_assignable; [intros status; apply org_fail|]. intros Ha.
  apply fair_with_org. intros org. apply view_read; [intros x; apply get_member_law|].
  intros [[m|]|e]; [apply org_fail | | apply org_fail]. cbv zeta.
  apply fair_write.
  - intros x o' u' Hv. match goal with |- context [OrgAddMember ?m x] => destruct (add_member_law m x o' u') as [-> | ->] end.
    { rewrite (same_view_members x Hv). constructor. }
    cbn. unfold set_member. destruct (decide _) as [[-> ->]|]; [by eapply mc_added|].
    rewrite (same_view_members x Hv). constructor.
  - intros [u|e]; [|apply fair_answer].
    apply (triple_bind _ (fun _ => fair (QAdd o (Ok req)))); [|intros r; apply fair_answer].
    apply call_ident. intros s Hf o' u'. cbn. destruct (member_with_role_law o (am_UserID req) (ext s)) as [(_ & _ & Hm & _) _].
    rewrite Hm. apply Hf.
Qed.

Lemma fair_change o u input : triple still (UpdateMemberHandler revocations o u input) (fun _ => fair (QChange o u input)).
Proof.
  destruct input as [role|e]; [|apply org_fail].
  apply fair_assignable; [intros status; apply org_fail|]. intros Ha.
  apply view_read; [intros x; apply get_member_law|].
  intros [[m|]|e]; [ | apply org_fail..]. cbv zeta.
  apply fair_write.
  - intros x o' u' Hv. match goal with |- context [OrgUpdateMember ?m x] => destruct (update_member_law m x o' u') as [-> | [Hsome ->]] end.
    { rewrite (same_view_members x Hv). constructor. }
    cbn. unfold set_member. destruct (decide _) as [[-> ->]|]; [|rewrite (same_view_members x Hv); constructor].
    rewrite (same_view_members x Hv) in Hsome. destruct (v_members before o u); [|done]. by apply mc_changed.
  - intros [v|e]; [|apply fair_answer].
    apply (triple_bind _ (fun _ => fair (QChange o u (Ok role)))).
    { destruct (bool_decide _); [by apply triple_ret | apply table_keeps, table_revoke]. }
    intros _. apply (triple_bind _ (fun _ => fair (QChange o u (Ok role)))); [|intros r; apply fair_answer].
    apply call_ident. intros s Hf o' u'. cbn. destruct (member_with_role_law o u (ext s)) as [(_ & _ & Hm & _) _].
    rewrite Hm. apply Hf.
Qed.

Lemma fair_remove o u : triple still (RemoveMemberHandler revocations o u) (fun _ => fair (QRemove o u)).
Proof.
  apply (triple_bind _ (fun _ => still)).
  { destruct revocations; [|by apply triple_ret].
    apply view_read; [intros x; apply member_with_role_law|]. intros r. by apply triple_ret. }
  intros was. apply fair_write.
  - intros x o' u' Hv. destruct (remove_member_law o u x o' u') as [-> | ->]; [rewrite (same_view_members x Hv); constructor|].
    unfold set_member. destruct (decide _) as [[-> ->]|]; [by apply mc_removed|].
    rewrite (same_view_members x Hv). constructor.
  - intros [v|e]; [|apply fair_answer].
    apply (triple_bind _ (fun _ => fair (QRemove o u))); [|intros r; apply fair_answer].
    destruct was as [[]|e]; [apply table_keeps, table_revoke | by apply triple_ret..].
Qed.

Lemma handle_fair r : triple still (handle_org revocations r) (fun _ => fair r).
Proof.
  destruct r; [apply fair_claims | apply fair_owner | apply fair_list | apply fair_search | apply fair_get |
    apply fair_members | apply fair_create | apply fair_update | apply fair_delete | apply fair_add |
    apply fair_change | apply fair_remove].
Qed.
End Ceiling.

(** ** Revocation *)
Section Revoking.
Context {X : Type} `{OrgLaws X} `{ScopeLib} (w0 : env (web X)).

(** No statement fails from here on, and the clock has not gone back. *)
Definition calm (w : env (web X)) : Prop := faults w = [] /\ clock w0 <= clock w.

(** Every token the user had is revoked. *)
Definition cut_off (u : string) (w : env (web X)) : Prop :=
  exists t, watermark w u = Some t /\ clock w0 <= t.

Lemma calm_ident {A} (f : X -> A * X) (Q : env (web X) -> Prop) (Post : A -> web X -> Prop) :
  (forall w, Q w -> Post (fst (f (ext (st w)))) (Web (gin (st w)) (tables (st w)) (snd (f (ext (st w)))))) ->
  holds (fun w => calm w /\ Q w) (ident f) (fun a w => calm w /\ Post a (st w)).
Proof. intros Hf w [Hc HQ]. split; [exact Hc|]. by apply (Hf w). Qed.

Lemma revoke_cuts_off u (us : list string) :
  holds (fun w => calm w /\ forall v, v ∈ us -> cut_off v w) (revokeUserTokens true u)
    (fun _ w => calm w /\ forall v, v ∈ u :: us -> cut_off v w).
Proof.
  intros w [[Hf Hc] Hall]. unfold revokeUserTokens.
  assert (Hrun : RevokeAllUserTokens u w = (Ok tt, snd (RevokeAllUserTokens u w))).
  { unfold RevokeAllUserTokens, bind, time_now, sql, db. cbn. by rewrite Hf. }
  pose proof (fun v => watermark_revoke w u v _ Hrun) as Hw. unfold bind. rewrite Hrun. cbn [fst snd ret].
  assert (Hcl : clock w <= clock (snd (RevokeAllUserTokens u w)) /\ faults (snd (RevokeAllUserTokens u w)) = []).
  { unfold RevokeAllUserTokens, bind, time_now, sql, db. cbn. rewrite Hf. cbn. split; [lia | done]. }
  destruct Hcl as [Hcl Hfl]. split; [split; [done | lia]|]. intros v Hv.
  unfold cut_off. rewrite (Hw v). case_decide as Huv; [eexists; split; [reflexivity | lia]|].
  apply Hall. apply elem_of_cons in Hv as [->|Hv]; [by destruct Huv | exact Hv].
Qed.

Lemma cut_off_tables u (w w' : env (web X)) : tables (st w') = tables (st w) -> cut_off u w -> cut_off u w'.
Proof. unfold cut_off, watermark. by intros ->. Qed.

Lemma cut_off_revoked u iat (w : env (web X)) : calm w -> cut_off u w -> iat < clock w0 ->
  fst (TokensRevokedSince u iat w) = Ok true.
Proof.
  intros [Hf _] (t & Ht & Hle) Hi. rewrite watermark_query, Hf, Ht. do 2 f_equal. apply Z.ltb_lt. lia.
Qed.

(** The tables of the identity module as at the start. *)
Definition unmoved (w : env (web X)) : Prop := same_view (ext (st w0)) (ext (st w)).

Lemma calm_read {A B} (f : X -> A * X) (Q : A -> Prop) (k : A -> prog (env (web X)) B) Post :
  (forall x, same_view (ext (st w0)) x -> same_view x (snd (f x)) /\ Q (fst (f x))) ->
  (forall a, Q a -> holds (fun w => calm w /\ unmoved w) (k a) Post) ->
  holds (fun w => calm w /\ unmoved w) (bind (ident f) k) Post.
Proof.
  intros Hf Hk. apply (holds_bind _ (fun a w => (calm w /\ unmoved w) /\ Q a)).
  - intros w [Hc Hu]. destruct (Hf _ Hu) as [Hs HQ]. split; [split; [exact Hc|] | exact HQ].
    unfold unmoved. cbn. by eapply same_view_trans.
  - intros a. apply holds_pure, Hk.
Qed.

Definition cut_if_done (u : string) (done : org_reply -> Prop) (r : org_reply) (w : env (web X)) : Prop :=
  calm w /\ (done r -> cut_off u w).

Lemma not_done {Pre u} {Done : org_reply -> Prop} {r} : (forall w, Pre w -> calm w) -> ~ Done r ->
  holds Pre (ret r) (cut_if_done u Done).
Proof. intros Hc Hn. apply holds_ret. intros w Hw. split; [by apply Hc | done]. Qed.

Definition succeeded (r : org_reply) : Prop := fst r = 200.

Lemma permitted_cuts o u role k :
  holds (fun w => calm w /\ unmoved w) k (cut_if_done u succeeded) ->
  holds (fun w => calm w /\ unmoved w) (permitted_role o role k) (cut_if_done u succeeded).
Proof.
  intros Hk. unfold permitted_role.
  apply (holds_bind _ (fun v w => (calm w /\ unmoved w) /\ forall status, v = Some status -> status <> 200)).
  2:{ intros [status|]; apply holds_pure; [|by intros _].
      intros Hs. apply not_done; [by intros w []|]. by apply Hs. }
  assert (Hret : forall v, v <> Some 200 -> holds (fun w => calm w /\ unmoved w) (ret v)
    (fun v w => (calm w /\ unmoved w) /\ forall status, v = Some status -> status <> 200)).
  { intros v Hv. apply holds_ret. intros w Hw. split; [done|]. intros status ->. congruence. }
  unfold checkRoleAssignment. destruct role as [text|]; [|by apply Hret].
  destruct (String.eqb text ""); [by apply Hret|]. destruct (uuid_text text) as [id|]; [|by apply Hret].
  apply (holds_bind _ (fun _ w => calm w /\ unmoved w)).
  { apply (calm_read _ (fun _ => True)); [intros x _; split; [apply role_scopes_law | done]|].
    intros row _. by apply holds_ret. }
  intros [[[|s l]|]|e]; [by apply Hret | | by apply Hret..].
  apply (holds_bind _ (fun _ w => calm w /\ unmoved w)); [by intros w Hw|]. intros gv. cbv zeta.
  apply (holds_bind _ (fun _ w => calm w /\ unmoved w)).
  { destruct (HasScope _ _); [by apply holds_ret|].
    apply (holds_bind _ (fun _ w => calm w /\ unmoved w)); [by intros w Hw|]. intros uid.
    intros w [Hc Hu]. split; [exact Hc|]. unfold unmoved. cbn. eapply same_view_trans; [exact Hu | apply user_scopes_law]. }
  intros [cs|e]; [|by apply Hret]. by destruct (RoleScopesPermittedBy cs _); apply Hret.
Qed.

Lemma member_answer_cuts u status m :
  holds (fun w => calm w /\ cut_off u w) (member_answer status m) (cut_if_done u succeeded).
Proof. intros w [Hc Hu]. unfold member_answer, bind, ident, state. cbn. by split. Qed.

Lemma change_cuts_off o u role old :
  v_members (view (ext (st w0))) o u = Some old -> old <> role ->
  holds (fun w => calm w /\ unmoved w) (UpdateMemberHandler true o u (Ok role)) (cut_if_done u succeeded).
Proof.
  intros Hold Hne. apply permitted_cuts.
  apply (calm_read _ (fun r => forall m, r = Ok (Some m) -> mb_RoleTemplateID m = old)).
  { intros x Hx. destruct (get_member_law o u x) as [Hs Hm]. split; [exact Hs|]. intros m Hok.
    specialize (Hm _ Hok). destruct Hx as (_ & _ & Hmem & _). rewrite Hmem, Hold in Hm. by injection Hm. }
  intros [[m|]|e] Hm; [|apply not_done; [by intros w [] | done]..]. cbv zeta.
  apply (holds_bind _ (fun _ w => calm w)).
  { intros w [Hc _]. exact Hc. }
  intros [v|e]; [|apply not_done; [done | done]].
  rewrite bool_decide_false by (rewrite (Hm m eq_refl); done).
  apply (holds_bind _ (fun _ w => calm w /\ cut_off u w)).
  { eapply holds_weaken; [apply (revoke_cuts_off u []) | |].
    - intros w Hw. split; [exact Hw|]. intros v'. by intros ?%not_elem_of_nil.
    - intros [] w [Hc Hv]. split; [exact Hc|]. apply Hv. by left. }
  intros []. apply member_answer_cuts.
Qed.

Definition removed_for_good (r : org_reply) : Prop := r = (200, OMessage "Member removed successfully" false).

Lemma remove_cuts_off o u old :
  v_members (view (ext (st w0))) o u = Some old ->
  holds (fun w => calm w /\ unmoved w) (RemoveMemberHandler true o u) (cut_if_done u removed_for_good).
Proof.
  intros Hold. unfold RemoveMemberHandler.
  apply (holds_bind _ (fun was w => (calm w /\ unmoved w) /\ was <> Ok false)).
  { apply (calm_read _ (fun r => r <> Ok None)).
    - intros x Hx. destruct (member_with_role_law o u x) as [Hs Hm]. split; [exact Hs|]. intros Hn.
      specialize (Hm _ Hn). destruct Hx as (_ & _ & Hmem & _). by rewrite Hmem, Hold in Hm.
    - intros r Hr. apply holds_ret. intros w Hw. split; [done|]. by destruct r as [[m|]|e]. }
  intros was. apply holds_pure. intros Hwas.
  apply (holds_bind _ (fun _ w => calm w)).
  { intros w [Hc _]. exact Hc. }
  intros [v|e]; [|apply not_done; [done | done]].
  destruct was as [[]|e]; [| by destruct Hwas |].
  - apply (holds_bind _ (fun _ w => calm w /\ cut_off u w)); [|intros []; apply holds_ret; by intros w []].
    eapply holds_weaken; [apply (revoke_cuts_off u []) | |].
    + intros w Hw. split; [exact Hw|]. intros v'. by intros ?%not_elem_of_nil.
    + intros [] w [Hc Hv]. split; [exact Hc|]. apply Hv. by left.
  - apply (holds_bind _ (fun _ w => calm w)); [by apply holds_ret|]. intros []. by apply not_done.
Qed.
End Revoking.

(** A change of the template itself: its holders are cut off. *)
Section RevokingRoles.
Context {X : Type} `{OrgLaws X} `{ScopeLib} (w0 : env (web X)).

Lemma holders_cut_off (us : list string) (vs : list string) :
  holds (fun w => calm w0 w /\ forall v, v ∈ vs -> cut_off w0 v w) (for_each us (revokeUserTokens true))
    (fun _ w => calm w0 w /\ forall v, v ∈ us -> cut_off w0 v w).
Proof.
  intros w Hw. assert (Hg : forall vs, holds (fun w => calm w0 w /\ forall v, v ∈ vs -> cut_off w0 v w)
    (for_each us (revokeUserTokens true)) (fun _ w => calm w0 w /\ forall v, v ∈ us ++ vs -> cut_off w0 v w)).
  { clear. induction us as [|u us IH]; intros vs; cbn [for_each]; [by apply holds_ret|].
    eapply holds_bind; [apply revoke_cuts_off|]. intros []. eapply holds_weaken; [apply (IH (u :: vs)) | done|].
    intros [] w [Hc Hall]. split; [done|]. intros v Hv. apply Hall. set_solver. }
  destruct (Hg vs w Hw) as [Hc Hall]. split; [done|]. intros v Hv. apply Hall. set_solver.
Qed.

(** Who holds the template, in any organization. *)
Definition holder (id u : string) : Prop := exists o, v_members (view (ext (st w0))) o u = Some (Some id).

Lemma edit_cuts_off idStr id t req u :
  uuid_text idStr = Some id -> v_roles (view (ext (st w0))) !! id = Some t -> rt_Scopes t <> cr_Scopes req ->
  (forall x, is_ok (fst (RoleMemberIDs id x)) = true) -> holder id u ->
  holds (fun w => calm w0 w /\ unmoved w0 w) (UpdateRoleTemplate true idStr (Ok req)) (cut_if_done w0 u succeeded).
Proof.
  intros Hid Ht Hne Hok [o Ho]. unfold UpdateRoleTemplate, with_role. rewrite Hid.
  apply (calm_read w0 _ (fun r => forall t', r = Ok (Some t') -> t' = t)).
  { intros x Hx. destruct (role_by_id_law id x) as [Hs Hr]. split; [exact Hs|]. intros t' Hok'.
    specialize (Hr _ Hok'). destruct Hx as (_ & Hroles & _). rewrite Hroles, Ht in Hr. congruence. }
  intros [[t'|]|e] Ht'; [|apply (not_done w0); [by intros w [] | done]..]. rewrite (Ht' t' eq_refl).
  destruct (rt_IsSystem t); [apply (not_done w0); [by intros w [] | done]|].
  apply (holds_bind _ (fun _ w => calm w0 w /\ forall o u, v_members (view (ext (st w))) o u = v_members (view (ext (st w0))) o u)).
  { intros w [Hc (_ & _ & Hm & _)]. split; [exact Hc|]. intros o' u'. cbn. by rewrite role_write_law. }
  intros [v|e]; [|apply (not_done w0); [by intros w [] | done]].
  rewrite bool_decide_false by done.
  apply (holds_bind _ (fun _ w => calm w0 w /\ cut_off w0 u w)); [|intros []; apply holds_ret; by intros w []].
  unfold revokeRoleTemplateMemberTokens.
  apply (holds_bind _ (fun l w => calm w0 w /\ exists us, l = Ok us /\ u ∈ us)).
  { intros w [Hc Hm]. split; [exact Hc|]. cbn. specialize (Hok (ext (st w))).
    destruct (role_members_law id (ext (st w))) as [_ Hl].
    destruct (fst (RoleMemberIDs id (ext (st w)))) as [us|e]; [|done]. exists us. split; [done|].
    apply (Hl us eq_refl o u). by rewrite Hm. }
  intros l. apply holds_pure. intros (us & -> & Hu).
  eapply holds_weaken; [apply (holders_cut_off us []) | |].
  - intros w Hc. split; [exact Hc|]. intros v'. by intros ?%not_elem_of_nil.
  - intros [] w [Hc Hall]. split; [exact Hc | by apply Hall].
Qed.
End RevokingRoles.

(** ** Organizations that own something *)

Definition owns_something (o : string) (t : regdb) : Prop :=
  (exists ns c, namespace_claims t !! ns = Some c /\ cm_OrganizationID c = o) \/
  exists a, (In a (modules t) \/ In a (providers t)) /\ a_OrganizationID a = Some o.

Lemma claims_counted o (t : regdb) :
  size (filter (fun kv : string * claim => cm_OrganizationID kv.2 = o) (namespace_claims t)) = O ->
  forall ns c, namespace_claims t !! ns = Some c -> cm_OrganizationID c <> o.
Proof.
  intros Hs ns c Hc Ho. apply map_size_empty_inv in Hs.
  assert (Hl : filter (fun kv : string * claim => cm_OrganizationID kv.2 = o) (namespace_claims t) !! ns = Some c)
    by (by apply map_lookup_filter_Some).
  by rewrite Hs, lookup_empty in Hl.
Qed.

Section Owning.
Context {X : Type} `{OrgLaws X} `{ScopeLib, GoSort} (s0 : web X).

(** Nothing in the registry's tables has changed, nor in the identity module's. *)
Definition intact (s : web X) : Prop := tables s = tables s0 /\ same_view (ext s0) (ext s).
Definition refused_intact (r : org_reply) (s : web X) : Prop := fst r <> 200 /\ intact s.

Lemma intact_fail status message : status <> 200 -> triple intact (ofail status message) refused_intact.
Proof. intros Hs. by apply triple_ret. Qed.

Lemma intact_query {A} op (f : regdb -> res A) (k : res A -> prog (env (web X)) org_reply) :
  triple intact (k (Err (ErrDB op))) refused_intact -> triple intact (k (f (tables s0))) refused_intact ->
  triple intact (bind (query op f) k) refused_intact.
Proof.
  intros He Hk w [Ht Hv]. unfold bind, query, sql, db.
  destruct (faults w) as [|[] fs]; cbn [fst snd]; rewrite ?Ht; [apply Hk | apply He | apply Hk]; by split.
Qed.

Lemma owning_intact o : owns_something o (tables s0) ->
  triple intact (DeleteOrganizationHandler o) refused_intact.
Proof.
  intros Hown. apply (triple_bind _ (fun _ => intact)).
  { intros w [Ht Hv]. split; [exact Ht|]. cbn. eapply same_view_trans; [exact Hv | apply org_by_id_law]. }
  intros [[org|]|e]; [|by apply intact_fail..].
  apply intact_query; [by apply intact_fail|].
  destruct (size _) as [|n] eqn:Hsize; [|by apply intact_fail]. pose proof (claims_counted _ _ Hsize) as Hno.
  apply intact_query; [by apply intact_fail|].
  destruct (existsb _ _ || existsb _ _) eqn:Hart; [by apply intact_fail|]. exfalso.
  destruct Hown as [(ns & c & Hc & Ho)|(a & Ha & Ho)]; [by apply (Hno ns c)|].
  apply orb_false_iff in Hart as [Hm Hp]. destruct Ha as [Ha|Ha].
  - apply not_true_iff_false in Hm. apply Hm, existsb_exists. exists a. split; [done|]. by apply bool_decide_eq_true.
  - apply not_true_iff_false in Hp. apply Hp, existsb_exists. exists a. split; [done|]. by apply bool_decide_eq_true.
Qed.
End Owning.

(** ** Properties *)

(** C18: Whatever request about organizations comes in, the membership of every user in
    every organization is what it was, or the request was the addition or the change of
    that member and the role it gives is one the caller may hand out (none, one without
    scopes, or, unless the caller is a global administrator, one whose scopes the caller
    has in that organization), or it removed the member or the organization, or it
    created the organization and the member is its creator as owner. *)
Theorem roles_stay_under_the_ceiling {X} `{OrgLaws X} `{ScopeLib, !ScopeLibLaws, GoSort} revocations
  (r : org_request) (w : env (web X)) (o u : string) :
  member_change (st w) r o u (v_members (view (ext (st w))) o u)
    (v_members (view (ext (st (snd (handle_org revocations r w))))) o u).
Proof. apply (handle_fair revocations (st w) r w). by split_and!. Qed.

(** C29: When no statement of the database fails, a change of a member's role, the removal
    of a member and an edit of the scopes of a role template take effect at once: the
    handler answers only after every token issued before the request, to the member or
    to any holder of the template, is revoked. *)
Theorem role_changes_revoke_tokens {X} `{OrgLaws X} `{ScopeLib} (o u : string) (w : env (web X)) (iat : Z) :
  faults w = [] -> iat < clock w ->
  let revoked w' := fst (TokensRevokedSince u iat w') = Ok true in
  let members := v_members (view (ext (st w))) in
  (forall old role, members o u = Some old -> old <> role ->
     let c := UpdateMemberHandler true o u (Ok role) w in fst (fst c) = 200 -> revoked (snd c)) /\
  (forall old, members o u = Some old ->
     let c := RemoveMemberHandler true o u w in
     fst c = (200, OMessage "Member removed successfully" false) -> revoked (snd c)) /\
  (forall idStr id t req, uuid_text idStr = Some id -> v_roles (view (ext (st w))) !! id = Some t ->
     rt_Scopes t <> cr_Scopes req -> (forall x, is_ok (fst (RoleMemberIDs id x)) = true) ->
     members o u = Some (Some id) ->
     let c := UpdateRoleTemplate true idStr (Ok req) w in fst (fst c) = 200 -> revoked (snd c)).
Proof.
  intros Hf Hi revoked members.
  assert (Hstart : calm w w /\ unmoved w w) by (split; [split; [done | lia] | by split_and!]).
  split_and!.
  - intros old role Hold Hne c Hc. destruct (change_cuts_off w o u role old Hold Hne w Hstart) as [Hcalm Hcut].
    eapply cut_off_revoked; [exact Hcalm | by apply Hcut | done].
  - intros old Hold c Hc. destruct (remove_cuts_off w o u old Hold w Hstart) as [Hcalm Hcut].
    eapply cut_off_revoked; [exact Hcalm | by apply Hcut | done].
  - intros idStr id t req Hid Ht Hne Hok Hm c Hc.
    destruct (edit_cuts_off w idStr id t req u Hid Ht Hne Hok (ex_intro _ o Hm) w Hstart) as [Hcalm Hcut].
    eapply cut_off_revoked; [exact Hcalm | by apply Hcut | done].
Qed.

(** An organization that owns a namespace claim, a module or a provider is not
    deleted, and the attempt changes nothing. *)
Theorem owning_organization_is_kept {X} `{OrgLaws X} `{ScopeLib, GoSort} (o : string) (w : env (web X)) :
  owns_something o (tables (st w)) ->
  let c := DeleteOrganizationHandler o w in
  fst (fst c) <> 200 /\ tables (st (snd c)) = tables (st w) /\ same_view (ext (st w)) (ext (st (snd c))).
Proof. intros Ho. apply (owning_intact (st w) o Ho w). by split_and!. Qed.

(** ** Witnesses *)
Module Demo.
#[export] Existing Instances core_scopes core_scopes_laws.
#[export] Instance sort : GoSort := stable_sort.

Definition template (id name : string) (scopes : list string) : RoleTemplate := {|
  rt_ID := id; rt_Name := name; rt_DisplayName := name; rt_Description := None; rt_Scopes := scopes;
  rt_IsSystem := false |}.
Definition named (id name : string) : Organization := {|
  org_ID := id; org_Name := name; org_DisplayName := name; org_IdpType := None; org_IdpName := None |}.

(** Ann owns [o1] and reads in [o2]; Bob publishes in [o1]. *)
Definition roles : list RoleTemplate :=
  [template "r-own" "org_owner" ["organizations:write"; "modules:write"]; template "r-pub" "publisher" ["modules:write"];
   template "r-adm" "admin" ["admin"]].
Definition directory0 : directory := {|
  d_users := ["ann"; "bob"; "cy"]; d_keys := []; d_sessions := []; d_revoked := [];
  d_members := [("ann", "o1", Some "r-own", ["organizations:write"; "modules:write"]); ("ann", "o2", None, []);
                ("bob", "o1", Some "r-pub", ["modules:write"])] |}.
Definition world : store := {|
  dir := directory0; key_rows := ∅; org_rows := [named "o1" "acme"; named "o2" "umbrella"]; role_rows := roles;
  next_id := 1%nat |}.
Definition ann : env (web store) :=
  Env (Web (request [("user_id", VString "ann"); ("scopes", VStrings ["organizations:write"; "modules:write"])] [])
        empty_db world) [] 50 [].

Definition add (u : string) (role : option string) : res AddMemberRequest :=
  Ok {| am_UserID := u; am_RoleTemplateID := role |}.
Definition status (r : org_request) (w : env (web store)) : Z := fst (fst (handle_org true r w)).
Definition role_in (o u : string) (w : env (web store)) : option (option string) := v_members (view (ext (st w))) o u.

(** Her role in one organization does not carry over to another. *)
Example ceiling_is_per_organization :
  map (fun r => status r ann) [QAdd "o1" (add "cy" (Some "r-pub")); QAdd "o1" (add "cy" (Some "r-adm"));
    QAdd "o2" (add "cy" (Some "r-pub")); QAdd "o2" (add "cy" None); QAdd "o1" (add "bob" None)] = [201; 403; 403; 201; 409].
Proof. by vm_compute. Qed.

(** The ceiling is held against the new role only: the owner of an organization takes the
    role of a member away who has more than she has. *)
Definition with_admin : env (web store) :=
  Env (Web (gin (st ann)) empty_db (set_dir (set_members (fun l => l ++ [("root", "o1", Some "r-adm", ["admin"])])) world)) [] 50 [].
Example an_administrator_is_demoted_by_an_owner :
  status (QChange "o1" "root" (Ok (Some "r-pub"))) with_admin = 200 /\ status (QRemove "o1" "root") with_admin = 200.
Proof. by vm_compute. Qed.

(** A rename whose cascade fails has renamed the organization all the same. *)
Definition no_cascade : env (web store) := Env (st ann) [true] 50 [].
Example failed_cascade_leaves_the_new_name :
  let r := handle_org true (QUpdate "o1" (Ok {| uo_Name := Some "acme-two"; uo_DisplayName := None; uo_IdpType := None;
                                                uo_IdpName := None |})) no_cascade in
  fst (fst r) = 500 /\ org_Name <$> find_org (fun o => String.eqb (org_ID o) "o1") (ext (st (snd r))) = Some "acme-two".
Proof. by vm_compute. Qed.

(** Past the last page: the offset wraps around and is negative. *)
Example page_offset_wraps : page_of (Some "9223372036854775807") None = (9223372036854775807, 20, -40).
Proof. by vm_compute. Qed.
End Demo.

Import Demo.

Lemma roles_stay_under_the_ceiling_witness :
  role_in "o1" "cy" (snd (handle_org true (QAdd "o1" (add "cy" (Some "r-pub"))) ann)) = Some (Some "r-pub") /\
  member_change (st ann) (QAdd "o1" (add "cy" (Some "r-pub"))) "o1" "cy" None (Some (Some "r-pub")).
Proof.
  split; [by vm_compute|].
  exact (roles_stay_under_the_ceiling true (QAdd "o1" (add "cy" (Some "r-pub"))) ann "o1" "cy").
Defined.

Lemma role_changes_revoke_tokens_witness :
  fst (TokensRevokedSince "bob" 49 (snd (UpdateMemberHandler true "o1" "bob" (Ok None) ann))) = Ok true.
Proof.
  refine (proj1 (role_changes_revoke_tokens "o1" "bob" ann 49 eq_refl ltac:(done)) (Some "r-pub") None _ _ _);
    [by vm_compute | done | by vm_compute].
Defined.

Lemma owning_organization_is_kept_witness :
  let t := {| namespace_claims := {["acme" := {| cm_Namespace := "acme"; cm_OrganizationID := "o1"; cm_ClaimedBy := None |}]};
              modules := []; providers := []; user_token_revocations := ∅ |} in
  fst (fst (DeleteOrganizationHandler "o1" (Env (Web (gin (st ann)) t world) [] 50 []))) <> 200.
Proof.
  intros t. refine (proj1 (owning_organization_is_kept "o1" (Env (Web (gin (st ann)) t world) [] 50 []) _)).
  left. exists "acme", {| cm_Namespace := "acme"; cm_OrganizationID := "o1"; cm_ClaimedBy := None |}. by vm_compute.
Defined.
