(* ===== verification/Glob.v ===== *)
(** * Shell patterns: [filepath.Match]

    The pattern language of mirror policies: a star for any run of characters but the
    separator, a question mark for one, character classes and escapes.  The matcher goes
    through the pattern chunk by chunk and never backtracks; for the names it is used on
    (ASCII, without a separator) it decides the declarative meaning of the pattern. *)

From S2P Require Import Prelude GoStrings Validation.
#[local] Open Scope Z_scope.

(** ** Text as bytes *)
Definition code (c : ascii) : Z := Z.of_nat (nat_of_ascii c).
Definition RuneError : Z := 65533.

Definition cont (lo hi : Z) (c : ascii) : option Z :=
  if (lo <=? code c) && (code c <=? hi) then Some (code c - 128) else None.
Definition tail_byte : ascii -> option Z := cont 128 191.

(** [utf8.DecodeRuneInString]: the rune and its width; an invalid byte is one
    [RuneError] of width one. *)
Definition decode_rune (s : string) : Z * nat :=
  match s with
  | EmptyString => (RuneError, 0%nat)
  | String c0 s1 =>
      let b := code c0 in
      let bad := (RuneError, 1%nat) in
      if b <? 128 then (b, 1%nat)
      else if (194 <=? b) && (b <=? 223) then
        match s1 with
        | String c1 _ => match tail_byte c1 with Some x => ((b - 192) * 64 + x, 2%nat) | None => bad end
        | _ => bad
        end
      else if (224 <=? b) && (b <=? 239) then
        match s1 with
        | String c1 (String c2 _) =>
            match cont (if b =? 224 then 160 else 128) (if b =? 237 then 159 else 191) c1, tail_byte c2 with
            | Some x, Some y => ((b - 224) * 4096 + x * 64 + y, 3%nat)
            | _, _ => bad
            end
        | _ => bad
        end
      else if (240 <=? b) && (b <=? 244) then
        match s1 with
        | String c1 (String c2 (String c3 _)) =>
            match cont (if b =? 240 then 144 else 128) (if b =? 244 then 143 else 191) c1, tail_byte c2, tail_byte c3 with
            | Some x, Some y, Some z => ((b - 240) * 262144 + x * 4096 + y * 64 + z, 4%nat)
            | _, _, _ => bad
            end
        | _ => bad
        end
      else bad
  end.

(** ** Patterns *)
Inductive token :=
| Lit (c : ascii)
| Any
| Class (negated : bool) (ranges : list (Z * Z)).

(** [getEsc]: one bound of a range; the class may not end behind it. *)
Definition get_esc (chunk : string) : option (Z * string) :=
  match chunk with
  | EmptyString => None
  | String c rest =>
      if Ascii.eqb c "-" || Ascii.eqb c "]" then None
      else
        let chunk := if Ascii.eqb c "\" then rest else chunk in
        let '(r, n) := decode_rune chunk in
        match chunk with
        | EmptyString => None
        | _ => if (r =? RuneError) && (n =? 1)%nat then None
               else match sdrop n chunk with EmptyString => None | rest => Some (r, rest) end
        end
  end.

(** The ranges of a class up to its bracket. *)
Fixpoint ranges (fuel : nat) (first : bool) (chunk : string) : option (list (Z * Z) * string) :=
  match fuel with
  | O => None
  | S fuel' =>
      match chunk with
      | String "]" rest =>
          if negb first then Some ([], rest)
          else None
      | _ =>
          match get_esc chunk with
          | None => None
          | Some (lo, rest) =>
              match (match rest with String "-" rest' => get_esc rest' | _ => Some (lo, rest) end) with
              | None => None
              | Some (hi, rest) =>
                  match ranges fuel' false rest with
                  | Some (rs, rest) => Some ((lo, hi) :: rs, rest)
                  | None => None
                  end
              end
          end
      end
  end.

(** The tokens of a chunk, or [None] for a bad pattern. *)
Fixpoint tokens (fuel : nat) (chunk : string) : option (list token) :=
  match fuel with
  | O => None
  | S fuel' =>
      match chunk with
      | EmptyString => Some []
      | String c rest =>
          if Ascii.eqb c "[" then
            let '(negated, rest) := match rest with String "^" rest' => (true, rest') | _ => (false, rest) end in
            match ranges (S (String.length rest)) true rest with
            | Some (rs, rest) => cons (Class negated rs) <$> tokens fuel' rest
            | None => None
            end
          else if Ascii.eqb c "?" then cons Any <$> tokens fuel' rest
          else if Ascii.eqb c "\" then
            match rest with
            | EmptyString => None
            | String c' rest' => cons (Lit c') <$> tokens fuel' rest'
            end
          else cons (Lit c) <$> tokens fuel' rest
      end
  end.

(** [scanChunk]: whether the pattern starts with stars, the text up to the next star
    outside a class, and the rest. *)
Fixpoint skip_stars (pattern : string) : bool * string :=
  match pattern with
  | String c rest => if Ascii.eqb c "*" then (true, snd (skip_stars rest)) else (false, pattern)
  | EmptyString => (false, pattern)
  end.

Fixpoint chunk_end (inrange : bool) (s : string) : nat :=
  match s with
  | EmptyString => 0%nat
  | String c rest =>
      if Ascii.eqb c "\" then
        match rest with
        | EmptyString => 1%nat
        | String _ rest' => S (S (chunk_end inrange rest'))
        end
      else if Ascii.eqb c "[" then S (chunk_end true rest)
      else if Ascii.eqb c "]" then S (chunk_end false rest)
      else if Ascii.eqb c "*" && negb inrange then 0%nat
      else S (chunk_end inrange rest)
  end.

Definition scanChunk (pattern : string) : bool * string * string :=
  let '(star, p) := skip_stars pattern in
  let n := chunk_end false p in (star, stake n p, sdrop n p).

(** ** Matching *)

Definition in_ranges (r : Z) (rs : list (Z * Z)) : bool :=
  existsb (fun lh => (fst lh <=? r) && (r <=? snd lh)) rs.

(** One token at the front of a name: the rest, when it matches. *)
Definition match_token (t : token) (s : string) : option string :=
  match s with
  | EmptyString => None
  | String c s' =>
      match t with
      | Lit c' => if Ascii.eqb c' c then Some s' else None
      | Any => if Ascii.eqb c "/" then None else Some (sdrop (snd (decode_rune s)) s)
      | Class negated rs =>
          let '(r, n) := decode_rune s in
          if Bool.eqb (in_ranges r rs) negated then None else Some (sdrop n s)
      end
  end.

Fixpoint matchChunk (ts : list token) (s : string) : option string :=
  match ts with
  | [] => Some s
  | t :: ts' => match match_token t s with Some s' => matchChunk ts' s' | None => None end
  end.

(** The first place behind the start, not past a separator, where the chunk matches; the
    last chunk must use the name up. *)
Fixpoint skip_match (last : bool) (ts : list token) (name : string) : option string :=
  match name with
  | EmptyString => None
  | String c rest =>
      if Ascii.eqb c "/" then None
      else
        match matchChunk ts rest with
        | Some t => if last && negb (String.eqb t "") then skip_match last ts rest else Some t
        | None => skip_match last ts rest
        end
  end.

(** Whether the pattern matches the whole name; a bad pattern matches nothing. *)
Fixpoint match_from (fuel : nat) (pattern name : string) : bool :=
  match fuel with
  | O => false
  | S fuel' =>
      match pattern with
      | EmptyString => String.eqb name ""
      | _ =>
          let '(star, chunk, rest) := scanChunk pattern in
          if star && String.eqb chunk "" then negb (contains name "/")
          else
            match tokens (S (String.length chunk)) chunk with
            | None => false
            | Some ts =>
                let last := String.eqb rest "" in
                match matchChunk ts name with
                | Some t =>
                    if String.eqb t "" || negb last then match_from fuel' rest t
                    else if star then
                      match skip_match last ts name with
                      | Some t => match_from fuel' rest t
                      | None => false
                      end
                    else false
                | None =>
                    if star then
                      match skip_match last ts name with
                      | Some t => match_from fuel' rest t
                      | None => false
                      end
                    else false
                end
            end
      end
  end.

Definition Match (pattern name : string) : bool := match_from (S (String.length pattern)) pattern name.

(** ** What a pattern means

    A pattern is a sequence of chunks, each a run of tokens that a star may precede. *)
Definition chunk : Type := bool * list token.

Fixpoint parse (fuel : nat) (pattern : string) : option (list chunk) :=
  match fuel with
  | O => None
  | S fuel' =>
      match pattern with
      | EmptyString => Some []
      | _ =>
          let '(star, text, rest) := scanChunk pattern in
          match tokens (S (String.length text)) text with
          | None => None
          | Some ts => cons (star, ts) <$> parse fuel' rest
          end
      end
  end.

(** The names a sequence of chunks matches, choosing freely what a star stands for. *)
Inductive denotes : list chunk -> string -> Prop :=
| d_end : denotes [] ""
| d_here star ts cs s t : matchChunk ts s = Some t -> denotes cs t -> denotes ((star, ts) :: cs) s
| d_skip ts cs c s : c <> "/"%char -> denotes ((true, ts) :: cs) s -> denotes ((true, ts) :: cs) (String c s).

(** ASCII without a separator. *)
Definition plain_char (c : ascii) : bool := (code c <? 128) && negb (Ascii.eqb c "/").
Definition plain (s : string) : bool := all_chars plain_char s.

#[export] Instance token_eq_dec : EqDecision token.
Proof. solve_decision. Defined.

(** The loop of [match_from], over chunks that are parsed. *)
Fixpoint match_chunks (cs : list chunk) (name : string) : bool :=
  match cs with
  | [] => String.eqb name ""
  | (star, ts) :: cs' =>
      if star && bool_decide (ts = []) then negb (contains name "/")
      else
        let last := bool_decide (cs' = []) in
        let skip := if star then match skip_match last ts name with
                                 | Some t => match_chunks cs' t
                                 | None => false
                                 end
                    else false in
        match matchChunk ts name with
        | Some t => if String.eqb t "" || negb last then match_chunks cs' t else skip
        | None => skip
        end
  end.

(** ** Chunks as the pattern is cut *)

Lemma slen_drop n s : String.length (sdrop n s) = (String.length s - n)%nat.
Proof. revert s. induction n as [|n IH]; intros [|c s]; cbn; rewrite ?IH; lia. Qed.

Lemma skip_stars_length p : (String.length (snd (skip_stars p)) <= String.length p)%nat.
Proof. induction p as [|c p IH]; [done|]. cbn. case_match; cbn; lia. Qed.

Lemma skip_stars_head p : match snd (skip_stars p) with String c _ => Ascii.eqb c "*" = false | _ => True end.
Proof. induction p as [|c p IH]; [done|]. cbn. destruct (Ascii.eqb c "*") eqn:E; [exact IH | exact E]. Qed.

(** Something of a pattern is used up, and what follows a chunk starts with a star. *)
Lemma scan_shrinks p star text rest : p <> "" -> scanChunk p = (star, text, rest) ->
  (String.length rest < String.length p)%nat.
Proof.
  intros Hne. unfold scanChunk. pose proof (skip_stars_length p) as Hl. pose proof (skip_stars_head p) as Hh.
  destruct p as [|c p]; [done|]. cbn [skip_stars] in *. destruct (Ascii.eqb c "*") eqn:Hc.
  - destruct (skip_stars p) as [b q] eqn:Hq. cbn [snd] in *. intros [= <- <- <-].
    pose proof (skip_stars_length p) as Hl'. rewrite Hq in Hl'. cbn in Hl'. rewrite slen_drop. cbn. lia.
  - intros [= <- <- <-]. rewrite slen_drop. cbn [String.length chunk_end]. rewrite Hc.
    repeat case_match; cbn; lia.
Qed.

Lemma chunk_end_star s : forall b, match sdrop (chunk_end b s) s with String c _ => c = "*"%char | _ => True end.
Proof.
  induction s as [s IH] using (induction_ltof1 _ String.length). unfold ltof in IH.
  intros b. destruct s as [|c s]; [done|]. cbn [chunk_end].
  destruct (Ascii.eqb_spec c "\") as [->|Hb].
  { destruct s as [|c' s]; [done|]. cbn [sdrop]. apply IH. cbn; lia. }
  destruct (Ascii.eqb_spec c "["); [apply IH; cbn; lia|].
  destruct (Ascii.eqb_spec c "]"); [apply IH; cbn; lia|].
  destruct (Ascii.eqb_spec c "*") as [->|]; cbn [andb].
  - destruct b; cbn [negb]; [apply IH; cbn; lia | done].
  - apply IH; cbn; lia.
Qed.

(** Every chunk but the first stands behind a star, and only the last may be empty. *)
Definition starred (cs : list chunk) : Prop := Forall (fun c => fst c = true) cs.
Fixpoint filled (cs : list chunk) : Prop :=
  match cs with
  | [] | [_] => True
  | c :: cs => snd c <> [] /\ filled cs
  end.

Lemma scan_text p star text rest : scanChunk p = (star, text, rest) -> text = "" -> rest = "".
Proof.
  unfold scanChunk. pose proof (skip_stars_head p) as Hh. destruct (skip_stars p) as [b q]. cbn in Hh.
  intros [= <- <- <-]. destruct q as [|c q]; [done|]. cbn [chunk_end]. rewrite Hh.
  destruct (Ascii.eqb c "\"); [destruct q; done|].
  repeat (destruct (Ascii.eqb c _); [done|]). done.
Qed.

Lemma scan_rest p star text rest : scanChunk p = (star, text, rest) ->
  match rest with String c _ => c = "*"%char | _ => True end.
Proof.
  unfold scanChunk. destruct (skip_stars p) as [b q]. intros [= <- <- <-]. apply chunk_end_star.
Qed.

Lemma scan_star p star text rest : scanChunk (String "*" p) = (star, text, rest) -> star = true.
Proof. unfold scanChunk. cbn. by destruct (skip_stars p); intros [= <- <- <-]. Qed.

Lemma tokens_nil fuel text : tokens fuel text = Some [] -> text = "".
Proof.
  destruct fuel; [done|]. destruct text as [|c text]; [done|]. cbn [tokens].
  intros Ht. exfalso. revert Ht.
  repeat first [case_match | done | intros Ht; apply fmap_Some in Ht as (? & _ & ?)].
Qed.

Lemma parse_shape fuel p cs : parse fuel p = Some cs ->
  filled cs /\ starred (tail cs) /\ (match p with String c _ => c = "*"%char | _ => True end -> starred cs).
Proof.
  revert p cs. induction fuel as [|fuel IH]; [done|]. intros p cs. destruct p as [|c p].
  { intros [= <-]. repeat split; constructor. }
  cbn [parse]. destruct (scanChunk _) as [[star text] rest] eqn:Hscan.
  destruct (tokens _ text) as [ts|] eqn:Ht; [|done]. intros (cs' & Hp & ->)%fmap_Some.
  destruct (IH _ _ Hp) as (Hf & _ & Hs). pose proof (scan_rest _ _ _ _ Hscan) as Hrest. cbn [tail].
  split_and!.
  - destruct cs' as [|c' cs']; [done|]. split; [|exact Hf]. cbn. intros ->.
    apply tokens_nil in Ht. apply (scan_text _ _ _ _ Hscan) in Ht as ->. destruct fuel; [done|]. by injection Hp.
  - by apply Hs.
  - intros ->. apply scan_star in Hscan as ->. constructor; [done | by apply Hs].
Qed.

(** The matcher is its loop over the parsed chunks, and a bad pattern matches nothing. *)
Lemma match_from_parse fuel p n : (String.length p < fuel)%nat ->
  match_from fuel p n = match parse fuel p with Some cs => match_chunks cs n | None => false end.
Proof.
  revert p n. induction fuel as [|fuel IH]; [lia|]. intros p n Hl. destruct p as [|c p]; [done|].
  cbn [match_from parse]. destruct (scanChunk _) as [[star text] rest] eqn:Hscan.
  assert (Hr : (String.length rest < fuel)%nat)
    by (apply scan_shrinks in Hscan; [cbn in *; lia | done]).
  destruct (star && String.eqb text "") eqn:Hstar.
  { apply andb_true_iff in Hstar as [-> ->%String.eqb_eq].
    pose proof (scan_text _ _ _ _ Hscan eq_refl) as ->. destruct fuel; [lia|]. cbn. done. }
  destruct (tokens _ text) as [ts|] eqn:Ht; [|done].
  assert (Hts : star && bool_decide (ts = []) = false).
  { destruct star; [|done]. cbn [andb] in *. apply bool_decide_eq_false. intros ->. apply tokens_nil in Ht as ->. done. }
  destruct (parse fuel rest) as [cs|] eqn:Hp; cbn [fmap option_fmap option_map].
  - assert (Hlast : String.eqb rest "" = bool_decide (cs = [])).
    { destruct fuel; [lia|]. destruct rest as [|c' rest]; [by injection Hp as <-|]. symmetry.
      apply bool_decide_eq_false. intros ->. cbn [parse] in Hp.
      destruct (scanChunk (String c' rest)) as [[star' text'] rest']. destruct (tokens _ text'); [|done].
      by apply fmap_Some in Hp as (? & _ & ?). }
    cbn [match_chunks]. rewrite Hts, Hlast.
    assert (Hrec : forall t, match_from fuel rest t = match_chunks cs t) by (intros t; by rewrite IH, Hp).
    by repeat (case_match; rewrite ?Hrec).
  - assert (Hrec : forall t, match_from fuel rest t = false) by (intros t; by rewrite IH, Hp).
    by repeat (case_match; rewrite ?Hrec).
Qed.

(** ** The matcher decides the meaning *)

Lemma decode_ascii c s : plain_char c = true -> snd (decode_rune (String c s)) = 1%nat.
Proof. intros Hc. apply andb_true_iff in Hc as [Hc _]. cbn. by rewrite Hc. Qed.

Lemma token_one t c s s' : plain_char c = true -> match_token t (String c s) = Some s' -> s' = s.
Proof.
  intros Hc. pose proof (decode_ascii c s Hc) as Hd. destruct t; cbn [match_token].
  - case_match; [by intros [= ->] | done].
  - rewrite Hd. case_match; [done | by intros [= <-]].
  - destruct (decode_rune _) as [r n]. cbn in Hd. subst n. case_match; [done | by intros [= <-]].
Qed.

Lemma plain_drop k s : plain s = true -> plain (sdrop k s) = true.
Proof.
  revert s. induction k as [|k IH]; intros [|c s] Hp; try done. apply IH. unfold plain in *. cbn in Hp. by bools.
Qed.

Lemma chunk_length ts s t : plain s = true -> matchChunk ts s = Some t -> t = sdrop (length ts) s.
Proof.
  revert s. induction ts as [|tk ts IH]; intros s Hp; cbn [matchChunk length]; [by intros [= <-]|].
  destruct s as [|c s]; [done|]. unfold plain in Hp. cbn in Hp. bools.
  destruct (match_token tk _) as [s'|] eqn:Ht; [|done]. apply token_one in Ht as ->; [|done].
  cbn [sdrop]. by apply IH.
Qed.

Lemma chunk_fits ts s t : matchChunk ts s = Some t -> (ts = [] \/ s <> "").
Proof. destruct ts; [by left|]. destruct s; [done|]. by right. Qed.

Lemma plain_has_no_slash s : plain s = true -> contains s "/" = false.
Proof.
  unfold plain. induction s as [|c s IH]; [done|]. cbn [all_chars contains]. intros Hp. bools.
  rewrite IH by done. rewrite orb_false_r. apply not_true_is_false. intros [r Hr]%has_prefix_iff.
  injection Hr as -> _. by vm_compute in H.
Qed.

(** A star takes in whatever stands in front. *)
Lemma star_absorbs ts cs k s : plain s = true -> denotes ((true, ts) :: cs) (sdrop k s) -> denotes ((true, ts) :: cs) s.
Proof.
  revert s. induction k as [|k IH]; intros [|c s] Hp Hd; try done.
  unfold plain in Hp. cbn in Hp. bools. apply d_skip; [|by apply IH].
  intros ->. by vm_compute in H.
Qed.

Lemma star_inv ts cs s : denotes ((true, ts) :: cs) s ->
  exists k t, matchChunk ts (sdrop k s) = Some t /\ denotes cs t /\ (k <= String.length s)%nat.
Proof.
  remember ((true, ts) :: cs) as c eqn:Hc. intros Hd. revert Hc.
  induction Hd as [|star ts' cs' s t Hm Hd _|ts' cs' c' s Hc' Hd IH]; [done | intros [= -> -> ->] | intros [= -> ->]].
  - exists 0%nat, t. split_and!; [done.. | lia].
  - destruct (IH eq_refl) as (k & t & Hm & Ht & Hk). exists (S k), t. cbn. split_and!; [done.. | lia].
Qed.

(** What the search behind a star finds is a match, and it misses none. *)
Lemma skip_sound last ts s t : skip_match last ts s = Some t ->
  exists k, matchChunk ts (sdrop (S k) s) = Some t /\ (last = true -> t = "").
Proof.
  induction s as [|c s IH]; [done|]. cbn [skip_match]. destruct (Ascii.eqb c "/"); [done|].
  assert (Hrec : skip_match last ts s = Some t ->
    exists k, matchChunk ts (sdrop (S k) (String c s)) = Some t /\ (last = true -> t = ""))
    by (intros Hs; destruct (IH Hs) as (k & Hk & He); by exists (S k)).
  destruct (matchChunk ts s) as [t'|] eqn:Hm; [|exact Hrec].
  destruct (last && negb (String.eqb t' "")) eqn:Hl; [exact Hrec|]. intros [= ->]. exists 0%nat. split; [done|].
  intros ->. cbn in Hl. apply negb_false_iff in Hl. by apply String.eqb_eq.
Qed.

Lemma skip_complete last ts k s t : plain s = true -> (S k <= String.length s)%nat ->
  matchChunk ts (sdrop (S k) s) = Some t -> (last = true -> t = "") ->
  exists j t', (j <= k)%nat /\ skip_match last ts s = Some t' /\ matchChunk ts (sdrop (S j) s) = Some t'.
Proof.
  revert s. induction k as [|k IH]; intros [|c s] Hp Hk Hm Hl; try (cbn in Hk; lia);
    unfold plain in Hp; cbn in Hp; bools; cbn [sdrop] in Hm; cbn [skip_match];
    (destruct (Ascii.eqb c "/") eqn:Hc; [apply Ascii.eqb_eq in Hc as ->; by vm_compute in H|]).
  - rewrite Hm. exists 0%nat, t. split; [lia|]. split; [|done].
    destruct last; [rewrite Hl by done|]; done.
  - assert (Hrec : exists j t', (j <= S k)%nat /\ skip_match last ts s = Some t' /\
      matchChunk ts (sdrop (S j) (String c s)) = Some t').
    { cbn in Hk. destruct (IH s) as (j & t' & Hj & Hs & Ht); [done | lia | done..|]. exists (S j), t'. cbn [sdrop].
      split_and!; [lia | done..]. }
    destruct (matchChunk ts s) as [t'|] eqn:Hm'; [|exact Hrec].
    destruct (last && negb (String.eqb t' "")); [exact Hrec|]. exists 0%nat, t'. split_and!; [lia | done..].
Qed.

Lemma sdrop_all s : sdrop (String.length s) s = "".
Proof. by induction s. Qed.

Lemma sdrop_drop i j s : sdrop j (sdrop i s) = sdrop (i + j) s.
Proof.
  revert s. induction i as [|i IH]; intros [|c s]; try done; [by destruct j | apply IH].
Qed.

Lemma filled_tail c cs : filled (c :: cs) -> filled cs.
Proof. destruct cs; [done|]. by intros []. Qed.

Lemma lone_star ts cs : filled ((true, ts) :: cs) -> ts = [] -> cs = [].
Proof. destruct cs; [done|]. intros [Hne _] ->. done. Qed.

Lemma chunks_sound cs s : plain s = true -> filled cs -> match_chunks cs s = true -> denotes cs s.
Proof.
  revert s. induction cs as [|[star ts] cs IH]; intros s Hp Hf; cbn [match_chunks].
  { intros ->%String.eqb_eq. constructor. }
  assert (Hrest : forall k t, plain t = true -> matchChunk ts t = Some (sdrop k t) ->
    match_chunks cs (sdrop k t) = true -> denotes ((star, ts) :: cs) t).
  { intros k t Hpt Hm Hc. eapply d_here; [exact Hm|]. apply IH; [by apply plain_drop | by eapply filled_tail | done]. }
  assert (Hskip : star = true -> match skip_match (bool_decide (cs = [])) ts s with
      Some t => match_chunks cs t | None => false end = true -> denotes ((star, ts) :: cs) s).
  { intros ->. destruct (skip_match _ ts s) as [t|] eqn:Hs; [|done]. intros Hc.
    destruct (skip_sound _ _ _ _ Hs) as (k & Hm & _). apply (star_absorbs _ _ (S k) _ Hp).
    pose proof (chunk_length _ _ _ (plain_drop (S k) _ Hp) Hm) as ->.
    by eapply Hrest; [apply plain_drop | exact Hm |]. }
  destruct (star && bool_decide (ts = [])) eqn:Hs.
  - apply andb_true_iff in Hs as [-> Hts%bool_decide_eq_true]. rewrite (lone_star _ _ Hf Hts), Hts. intros _.
    apply (star_absorbs _ _ (String.length s) _ Hp). rewrite sdrop_all. by eapply d_here; [|constructor].
  - assert (Hif : (if star then match skip_match (bool_decide (cs = [])) ts s with
        Some t => match_chunks cs t | None => false end else false) = true -> denotes ((star, ts) :: cs) s)
      by (destruct star; [by apply Hskip | done]).
    destruct (matchChunk ts s) as [t|] eqn:Hm; [|exact Hif].
    destruct (_ || _); [|exact Hif]. pose proof (chunk_length _ _ _ Hp Hm) as ->. by apply (Hrest (length ts)).
Qed.

Lemma denotes_nil s : denotes [] s -> s = "".
Proof. by inversion 1. Qed.

(** Taking the first match loses nothing: the star behind it absorbs the difference. *)
Lemma later_match (ts : list token) cs i j s : starred cs -> plain s = true -> (i <= j)%nat ->
  denotes cs (sdrop (j + length ts) s) -> cs = [] \/ denotes cs (sdrop (i + length ts) s).
Proof.
  intros Hs Hp Hij Hd. destruct cs as [|[star ts'] cs]; [by left|]. right.
  inversion Hs as [|? ? Hstar _]; subst. cbn in Hstar. subst star.
  apply (star_absorbs _ _ (j - i)); [by apply plain_drop|].
  by replace (sdrop (j - i) _) with (sdrop (j + length ts) s) by (rewrite sdrop_drop; f_equal; lia).
Qed.

Lemma chunks_complete cs s : plain s = true -> filled cs -> starred (tail cs) ->
  denotes cs s -> match_chunks cs s = true.
Proof.
  revert s. induction cs as [|[star ts] cs IH]; intros s Hp Hf Hs Hd; cbn [match_chunks].
  { apply denotes_nil in Hd as ->. done. }
  cbn [tail] in Hs. assert (Hs' : starred (tail cs)) by (destruct Hs; [constructor | done]).
  assert (Hrest : forall k, denotes cs (sdrop k s) -> match_chunks cs (sdrop k s) = true)
    by (intros k Hk; apply IH; [by apply plain_drop | by eapply filled_tail | done..]).
  destruct (star && bool_decide (ts = [])) eqn:Hstar.
  { apply negb_true_iff. by apply plain_has_no_slash. }
  destruct star.
  - destruct (star_inv _ _ _ Hd) as (k & t & Hm & Ht & Hk).
    pose proof (chunk_length _ _ _ (plain_drop k _ Hp) Hm) as ->. rewrite sdrop_drop in *.
    assert (Hend : bool_decide (cs = []) = true -> sdrop (k + length ts) s = "").
    { intros ->%bool_decide_eq_true. by apply denotes_nil. }
    assert (Hskip : k <> 0%nat -> match skip_match (bool_decide (cs = [])) ts s with
      Some t => match_chunks cs t | None => false end = true).
    { destruct k as [|k]; [done|]. intros _.
      destruct (skip_complete (bool_decide (cs = [])) ts k s _ Hp Hk Hm Hend) as (j & t' & Hj & Hsk & Hm').
      rewrite Hsk. destruct (skip_sound _ _ _ _ Hsk) as (_ & _ & He).
      pose proof (chunk_length _ _ _ (plain_drop (S j) _ Hp) Hm') as ->. rewrite sdrop_drop in *.
      destruct (later_match ts cs (S j) (S k) s Hs Hp ltac:(lia) Ht) as [->|Hd']; [by rewrite (He eq_refl) | by apply Hrest]. }
    destruct (matchChunk ts s) as [t|] eqn:Hm0; [|by apply Hskip; intros ->; cbn [sdrop] in Hm; rewrite Hm0 in Hm].
    pose proof (chunk_length _ _ _ Hp Hm0) as ->.
    destruct (String.eqb_spec (sdrop (length ts) s) "") as [He|He]; cbn [orb].
    + destruct (later_match ts cs 0 k s Hs Hp ltac:(lia) Ht) as [->|Hd']; [by rewrite He | by apply Hrest].
    + destruct (bool_decide (cs = [])) eqn:Hl; cbn [negb].
      * apply Hskip. intros ->. by apply He, Hend.
      * destruct (later_match ts cs 0 k s Hs Hp ltac:(lia) Ht) as [->|Hd']; [done | by apply Hrest].
  - inversion Hd as [|? ? ? ? t Hm Ht|]; subst. rewrite Hm.
    pose proof (chunk_length _ _ _ Hp Hm) as ->.
    destruct (bool_decide (cs = [])) eqn:Hl.
    + apply bool_decide_eq_true in Hl as ->. apply denotes_nil in Ht as Ht'. rewrite Ht'. done.
    + rewrite orb_true_r. by apply Hrest.
Qed.

(** The chunks of a pattern. *)
Definition chunks (pattern : string) : option (list chunk) := parse (S (String.length pattern)) pattern.

(** [filepath.Match] decides whether the chunks of the pattern denote the name. *)
Lemma match_iff pattern name : plain name = true ->
  Match pattern name = true <-> exists cs, chunks pattern = Some cs /\ denotes cs name.
Proof.
  intros Hp. unfold Match. rewrite match_from_parse by lia. fold (chunks pattern).
  destruct (chunks pattern) as [cs|] eqn:Hc; [|split; [done | by intros (? & ? & _)]].
  destruct (parse_shape _ _ _ Hc) as (Hf & Hs & _). split.
  - intros Hm. exists cs. split; [done | by apply chunks_sound].
  - intros (? & [= <-] & Hd). by apply chunks_complete.
Qed.

Example match_samples :
  map (fun pn => Match (fst pn) (snd pn))
    [("hashicorp", "hashicorp"); ("hashi*", "hashicorp"); ("*", ""); ("*", "a/b"); ("a*b*c", "aXbYc");
     ("a?c", "abc"); ("[a-c]x", "bx"); ("[^a-c]x", "bx"); ("a*", "b"); ("[", "["); ("*corp", "hashicorpcorp"); ("\*", "*")]
  = [true; true; true; false; true; true; true; false; false; false; true; true].
Proof. by vm_compute. Qed.
