(* ===== verification/Approvals.v ===== *)
(** * Approval requests and policies of the provider mirrors

    db/models/mirror_approval.go and mirror_policy.go, the second half of
    db/repositories/rbac_repository.go, the handlers of api/admin/rbac.go over them, and
    the redemption of approval tokens in api/webhooks/approval_handler.go.  UUIDs are
    their canonical text.  Of the users, organizations and mirror configurations the
    tables refer to, the model keeps the names. *)

From S2P Require Import Prelude GoStrings Glob IpAddr Web Identity Tables.
From stdpp Require Import gmap.
#[local] Open Scope Z_scope.

(** ** Models *)

Definition ApprovalStatus : Type := string.
Definition ApprovalStatusPending : ApprovalStatus := "pending".
Definition ApprovalStatusApproved : ApprovalStatus := "approved".
Definition ApprovalStatusRejected : ApprovalStatus := "rejected".

Record MirrorApprovalRequest := {
  rq_ID : string;
  rq_MirrorConfigID : string;
  rq_OrganizationID : option string;
  rq_RequestedBy : option string;
  rq_ProviderNamespace : string;
  rq_ProviderName : option string;
  rq_Reason : string;
  rq_Status : ApprovalStatus;
  rq_ReviewedBy : option string;
  rq_ReviewedAt : option Z;
  rq_ReviewNotes : option string;
  rq_AutoApproved : bool;
  rq_CreatedAt : Z;
  rq_UpdatedAt : Z;
  rq_ExpiresAt : option Z;
}.

(** A listed request, with the names of its requester, reviewer and mirror. *)
Record ListedRequest := {
  lr_Request : MirrorApprovalRequest;
  lr_RequestedByName : string;
  lr_ReviewedByName : string;
  lr_MirrorName : string;
}.

(** [IsExpired] and [IsValid] at the time read. *)
Definition IsExpired (m : MirrorApprovalRequest) (now : Z) : bool :=
  match rq_ExpiresAt m with None => false | Some e => e <? now end.
Definition IsValid (m : MirrorApprovalRequest) (now : Z) : bool :=
  String.eqb (rq_Status m) ApprovalStatusApproved && negb (IsExpired m now).

Definition PolicyTypeAllow := "allow".
Definition PolicyTypeDeny := "deny".

Record MirrorPolicy := {
  po_ID : string;
  po_OrganizationID : option string;
  po_Name : string;
  po_Description : option string;
  po_PolicyType : string;
  po_UpstreamRegistry : option string;
  po_NamespacePattern : option string;
  po_ProviderPattern : option string;
  po_Priority : Z;
  po_IsActive : bool;
  po_RequiresApproval : bool;
  po_CreatedAt : Z;
  po_UpdatedAt : Z;
  po_CreatedBy : option string;
}.

(** A listed policy, with the names of its organization and creator. *)
Record ListedPolicy := {
  lp_Policy : MirrorPolicy;
  lp_OrganizationName : string;
  lp_CreatedByName : string;
}.

(** A pattern that is absent or empty holds of everything, and so does a star. *)
Definition pattern_holds (pattern : option string) (name : string) : bool :=
  match pattern with
  | None => true
  | Some p => String.eqb p "" || Match p name || String.eqb p "*"
  end.

Definition Matches (p : MirrorPolicy) (registry namespace provider : string) : bool :=
  match po_UpstreamRegistry p with
  | None => true
  | Some r => String.eqb r "" || String.eqb r registry
  end && pattern_holds (po_NamespacePattern p) namespace && pattern_holds (po_ProviderPattern p) provider.

Record PolicyEvaluationResult := {
  ev_Allowed : bool;
  ev_RequiresApproval : bool;
  ev_MatchedPolicy : option ListedPolicy;
  ev_Reason : string;
}.

(** ** Tables *)

(** A row of [webhook_approval_tokens]. *)
Record approval_token := {
  tk_ApprovalRequestID : string;
  tk_ExpiresAt : Z;
  tk_UsedAt : option Z;
}.

Record adb := ADB {
  requests : gmap string MirrorApprovalRequest;
  policies : gmap string MirrorPolicy;
  (** by hash, which is unique *)
  tokens : gmap string approval_token;
  (** the names of the rows that are referred to *)
  users : gmap string string;
  organizations : gmap string string;
  mirrors : gmap string string;
}.

Definition set_requests f (t : adb) : adb :=
  ADB (f (requests t)) (policies t) (tokens t) (users t) (organizations t) (mirrors t).
Definition set_policies f (t : adb) : adb :=
  ADB (requests t) (f (policies t)) (tokens t) (users t) (organizations t) (mirrors t).
Definition set_tokens f (t : adb) : adb :=
  ADB (requests t) (policies t) (f (tokens t)) (users t) (organizations t) (mirrors t).

(** A nullable foreign key. *)
Definition refers (rows : gmap string string) (key : option string) : bool :=
  match key with None => true | Some id => bool_decide (is_Some (rows !! id)) end.
Definition name_in (rows : gmap string string) (key : option string) (absent : string) : string :=
  match key with None => absent | Some id => default absent (rows !! id) end.

Definition status_allowed (s : string) : bool :=
  bool_decide (s ∈ [ApprovalStatusPending; ApprovalStatusApproved; ApprovalStatusRejected]).
Definition type_allowed (s : string) : bool := bool_decide (s ∈ [PolicyTypeAllow; PolicyTypeDeny]).
(** [INT] *)
Definition int4 (z : Z) : bool := (- 2 ^ 31 <=? z) && (z <? 2 ^ 31).

(** [UNIQUE (organization_id, name)]: rows without an organization never collide. *)
Definition name_free (p : MirrorPolicy) (rows : gmap string MirrorPolicy) : bool :=
  match po_OrganizationID p with
  | None => true
  | Some o => forallb (fun q => String.eqb (po_ID q) (po_ID p) ||
      negb (bool_decide (po_OrganizationID q = Some o) && String.eqb (po_Name q) (po_Name p)))
      (map snd (map_to_list rows))
  end.

Definition request_ok (r : MirrorApprovalRequest) (t : adb) : bool :=
  bool_decide (requests t !! rq_ID r = None) && refers (mirrors t) (Some (rq_MirrorConfigID r)) &&
  refers (organizations t) (rq_OrganizationID r) && refers (users t) (rq_RequestedBy r) &&
  status_allowed (rq_Status r).

Definition policy_ok (p : MirrorPolicy) (t : adb) : bool :=
  name_free p (policies t) && type_allowed (po_PolicyType p) && int4 (po_Priority p).

Definition decided (status : ApprovalStatus) (reviewedBy : string) (notes : string) (now : Z)
  (r : MirrorApprovalRequest) : MirrorApprovalRequest := {|
  rq_ID := rq_ID r; rq_MirrorConfigID := rq_MirrorConfigID r; rq_OrganizationID := rq_OrganizationID r;
  rq_RequestedBy := rq_RequestedBy r; rq_ProviderNamespace := rq_ProviderNamespace r;
  rq_ProviderName := rq_ProviderName r; rq_Reason := rq_Reason r; rq_Status := status;
  rq_ReviewedBy := Some reviewedBy; rq_ReviewedAt := Some now; rq_ReviewNotes := Some notes;
  rq_AutoApproved := rq_AutoApproved r; rq_CreatedAt := rq_CreatedAt r; rq_UpdatedAt := now;
  rq_ExpiresAt := rq_ExpiresAt r |}.

Definition used (now : Z) (k : approval_token) : approval_token := {|
  tk_ApprovalRequestID := tk_ApprovalRequestID k; tk_ExpiresAt := tk_ExpiresAt k; tk_UsedAt := Some now |}.

(** What an update of a policy takes over. *)
Definition policy_set (p : MirrorPolicy) (now : Z) (old : MirrorPolicy) : MirrorPolicy := {|
  po_ID := po_ID old; po_OrganizationID := po_OrganizationID old; po_Name := po_Name p;
  po_Description := po_Description p; po_PolicyType := po_PolicyType p;
  po_UpstreamRegistry := po_UpstreamRegistry p; po_NamespacePattern := po_NamespacePattern p;
  po_ProviderPattern := po_ProviderPattern p; po_Priority := po_Priority p; po_IsActive := po_IsActive p;
  po_RequiresApproval := po_RequiresApproval p; po_CreatedAt := po_CreatedAt old; po_UpdatedAt := now;
  po_CreatedBy := po_CreatedBy old |}.

Definition ErrNoRows := ErrSentinel "sql.ErrNoRows".

(** ** The repository *)
Section Repository.
Context {Y : Type} `{GoSort}.
#[local] Abbreviation P := (prog (env (beside adb Y))).

(** A write that a constraint may refuse. *)
Definition guarded (op : string) (ok : adb -> bool) (f : adb -> adb) : P (res unit) :=
  sql op (fun t => if ok t then (Ok tt, f t) else (Err (ErrDB op), t)).

Definition CreateApprovalRequest (r : MirrorApprovalRequest) : P (res unit) :=
  guarded "CreateApprovalRequest" (request_ok r) (set_requests (<[rq_ID r := r]>)).

Definition GetApprovalRequest (id : string) : P (res (option MirrorApprovalRequest)) :=
  query "GetApprovalRequest" (fun t => Ok (requests t !! id)).

Definition listed_request (t : adb) (r : MirrorApprovalRequest) : ListedRequest := {|
  lr_Request := r; lr_RequestedByName := name_in (users t) (rq_RequestedBy r) "";
  lr_ReviewedByName := name_in (users t) (rq_ReviewedBy r) "";
  lr_MirrorName := name_in (mirrors t) (Some (rq_MirrorConfigID r)) "" |}.

Definition ListApprovalRequests (orgID : option string) (status : option ApprovalStatus) : P (res (list ListedRequest)) :=
  query "ListApprovalRequests" (fun t =>
    Ok (map (listed_request t)
      (go_sort (fun a b => rq_CreatedAt b <? rq_CreatedAt a)
        (List.filter (fun r =>
           match orgID with None => true | Some o => bool_decide (rq_OrganizationID r = Some o) end &&
           match status with None => true | Some s => String.eqb (rq_Status r) s end)
          (map snd (map_to_list (requests t))))))).

Definition ListPendingApprovals (orgID : option string) : P (res (list ListedRequest)) :=
  ListApprovalRequests orgID (Some ApprovalStatusPending).

(** No row matching is no error; the constraints are those of the row written. *)
Definition UpdateApprovalStatus (id : string) (status : ApprovalStatus) (reviewedBy notes : string) : P (res unit) :=
  let! now := time_now in
  guarded "UpdateApprovalStatus"
    (fun t => match requests t !! id with
              | None => true
              | Some _ => refers (users t) (Some reviewedBy) && status_allowed status
              end)
    (set_requests (alter (decided status reviewedBy notes now) id)).

Definition CheckApproval (mirrorConfigID namespace provider : string) : P (res (option MirrorApprovalRequest)) :=
  let! now := time_now in
  query "CheckApproval" (fun t =>
    Ok (hd_error (go_sort (fun a b => match rq_ProviderName a, rq_ProviderName b with
                                      | Some x, Some y => String.ltb y x
                                      | Some _, None => true
                                      | None, _ => false
                                      end)
      (List.filter (fun r =>
         String.eqb (rq_MirrorConfigID r) mirrorConfigID && String.eqb (rq_ProviderNamespace r) namespace &&
         match rq_ProviderName r with None => true | Some n => String.eqb n provider end &&
         String.eqb (rq_Status r) ApprovalStatusApproved &&
         match rq_ExpiresAt r with None => true | Some e => now <? e end)
        (map snd (map_to_list (requests t))))))).

Definition CreateMirrorPolicy (p : MirrorPolicy) : P (res unit) :=
  guarded "CreateMirrorPolicy"
    (fun t => bool_decide (policies t !! po_ID p = None) && policy_ok p t &&
              refers (organizations t) (po_OrganizationID p) && refers (users t) (po_CreatedBy p))
    (set_policies (<[po_ID p := p]>)).

Definition GetMirrorPolicy (id : string) : P (res (option MirrorPolicy)) :=
  query "GetMirrorPolicy" (fun t => Ok (policies t !! id)).

(** Highest priority first, then oldest first. *)
Definition outranks (p q : MirrorPolicy) : bool :=
  (po_Priority q <? po_Priority p) || (po_Priority p =? po_Priority q) && (po_CreatedAt p <? po_CreatedAt q).

Definition in_scope (orgID : option string) (p : MirrorPolicy) : bool :=
  match po_OrganizationID p with
  | None => true
  | Some o => bool_decide (orgID = Some o)
  end.

Definition listed_policy (t : adb) (p : MirrorPolicy) : ListedPolicy := {|
  lp_Policy := p; lp_OrganizationName := name_in (organizations t) (po_OrganizationID p) "Global";
  lp_CreatedByName := name_in (users t) (po_CreatedBy p) "" |}.

Definition ranked_policies (orgID : option string) (t : adb) : list ListedPolicy :=
  map (listed_policy t)
    (go_sort outranks (List.filter (in_scope orgID) (map snd (map_to_list (policies t))))).

Definition ListMirrorPolicies (orgID : option string) : P (res (list ListedPolicy)) :=
  query "ListMirrorPolicies" (fun t => Ok (ranked_policies orgID t)).

Definition UpdateMirrorPolicy (p : MirrorPolicy) : P (res unit) :=
  let! now := time_now in
  guarded "UpdateMirrorPolicy"
    (fun t => match policies t !! po_ID p with
              | None => true
              | Some old => policy_ok (policy_set p now old) t
              end)
    (set_policies (alter (policy_set p now) (po_ID p))).

Definition DeleteMirrorPolicy (id : string) : P (res unit) :=
  exec "DeleteMirrorPolicy" (set_policies (delete id)).

(** The first active policy that matches decides. *)
Fixpoint evaluate (ps : list ListedPolicy) (registry namespace provider : string) : PolicyEvaluationResult :=
  match ps with
  | [] => {| ev_Allowed := false; ev_RequiresApproval := false; ev_MatchedPolicy := None;
             ev_Reason := "No matching policy found" |}
  | p :: ps =>
      let policy := lp_Policy p in
      if negb (po_IsActive policy) then evaluate ps registry namespace provider
      else if Matches policy registry namespace provider then
        let allowed := String.eqb (po_PolicyType policy) PolicyTypeAllow in
        {| ev_Allowed := allowed; ev_RequiresApproval := po_RequiresApproval policy; ev_MatchedPolicy := Some p;
           ev_Reason := (if allowed then "Allowed by policy: " else "Denied by policy: ") +:+ po_Name policy |}
      else evaluate ps registry namespace provider
  end.

Definition EvaluatePolicies (orgID : option string) (registry namespace provider : string)
  : P (res PolicyEvaluationResult) :=
  let? ps := ListMirrorPolicies orgID in
  ret (Ok (evaluate ps registry namespace provider)).

Definition CreateApprovalToken (tokenHash approvalRequestID : string) (expiresAt : Z) : P (res unit) :=
  guarded "CreateApprovalToken"
    (fun t => bool_decide (tokens t !! tokenHash = None) && bool_decide (is_Some (requests t !! approvalRequestID)))
    (set_tokens (<[tokenHash := {| tk_ApprovalRequestID := approvalRequestID; tk_ExpiresAt := expiresAt;
                                   tk_UsedAt := None |}]>)).

(** Redemption reads the token first and then marks it; others may come between. *)
Definition redeem_look (tokenHash : string) : P (res string) :=
  let? row := query "RedeemApprovalToken" (fun t =>
    match tokens t !! tokenHash with None => Err ErrNoRows | Some k => Ok k end) in
  match tk_UsedAt row with
  | Some _ => ret (Err ErrNoRows)
  | None =>
      let! now := time_now in
      if tk_ExpiresAt row <? now then ret (Err ErrNoRows) else ret (Ok (tk_ApprovalRequestID row))
  end.

Definition redeem_mark (tokenHash approvalRequestID : string) : P (res string) :=
  let! now := time_now in
  let? n := sql "RedeemApprovalToken" (fun t =>
    match tokens t !! tokenHash with
    | Some k => match tk_UsedAt k with
                | None => (Ok 1%nat, set_tokens (<[tokenHash := used now k]>) t)
                | Some _ => (Ok 0%nat, t)
                end
    | None => (Ok 0%nat, t)
    end) in
  if (n =? 0)%nat then ret (Err ErrNoRows) else ret (Ok approvalRequestID).

Definition RedeemApprovalToken (tokenHash : string) : P (res string) :=
  let? approvalRequestID := redeem_look tokenHash in
  redeem_mark tokenHash approvalRequestID.
End Repository.

(** ** The handlers *)

(** Identifiers, random bytes, and where notices go. *)
Class ApprovalWorld (Y : Type) := {
  uuid_New : Y -> string * Y;
  rand_Read : nat -> Y -> res (list Z) * Y;
  (** the channels the administrators configured *)
  channel_Notify : string -> string -> Y -> unit * Y;
  mailer_Send : list string -> string -> string -> Y -> res unit * Y;
}.

Record NotificationsConfig := {
  nc_Enabled : bool;
  nc_SMTPHost : string;
  nc_ApprovalPending : bool;
  nc_Recipients : list string;
}.

Record CreateApprovalRequestRequest := {
  ca_MirrorConfigID : string;
  ca_ProviderNamespace : string;
  ca_ProviderName : option string;
  ca_Reason : string;
}.
Record ReviewApprovalRequest := { ra_Status : string; ra_Notes : string }.
Record CreateMirrorPolicyRequest := {
  cp_OrganizationID : option string;
  cp_Name : string;
  cp_Description : string;
  cp_PolicyType : string;
  cp_UpstreamRegistry : option string;
  cp_NamespacePattern : option string;
  cp_ProviderPattern : option string;
  cp_Priority : Z;
  cp_IsActive : bool;
  cp_RequiresApproval : bool;
}.
Record EvaluatePolicyRequest := { ep_Registry : string; ep_Namespace : string; ep_Provider : string }.
Record ApprovalTokenResponse := { at_Token : string; at_ExpiresAt : Z; at_ApprovalURL : string }.

Inductive appr_body :=
| NError (message : string)
| NMessage (message : string)
| NRequests (rows : list ListedRequest)
| NRequest (row : option MirrorApprovalRequest)
| NPolicies (rows : list ListedPolicy)
| NPolicy (row : MirrorPolicy)
| NResult (result : PolicyEvaluationResult)
| NToken (response : ApprovalTokenResponse)
| NApproved (approval_request_id : string)
(** a nil pointer is followed; the recovery middleware answers *)
| NPanic.
Definition appr_reply : Type := Z * appr_body.

Section Handlers.
Context {Y : Type} `{GoSort} `{Parsers} `{Sha256} `{ApprovalWorld Y}.
(** the settings of [WithNotifications], the recipients of CVE mail, and whether they
    are there *)
Context (notifCfg : option NotificationsConfig) (cveRecipients : option (list string)).
(** [c.Get("user_id")] and [c.Get("organization_id")] *)
Context (user_id organization_id : option ctxval).
#[local] Abbreviation P := (prog (env (beside adb Y))).

Definition nfail (status : Z) (message : string) : P appr_reply := ret (status, NError message).
Definition around_call {A} (f : Y -> A * Y) : P A :=
  state (fun s => let r := f (around s) in (fst r, Beside (tabs s) (snd r))).

(** A UUID from the gin context, when there is one. *)
Definition ctx_uuid (v : option ctxval) : option string :=
  match v with Some (VString s) => uuid_text s | _ => None end.

(** [uuid.Nil] *)
Definition Nil : string := "00000000-0000-0000-0000-000000000000".

(** The optional [organization_id] of the query; a bad one is answered 400. *)
Definition query_org (orgIDStr : string) (k : option string -> P appr_reply) : P appr_reply :=
  if String.eqb orgIDStr "" then k None
  else match uuid_text orgIDStr with
       | None => nfail 400 "Invalid organization ID"
       | Some id => k (Some id)
       end.

Definition with_uuid (idStr what : string) (k : string -> P appr_reply) : P appr_reply :=
  match uuid_text idStr with None => nfail 400 ("Invalid " +:+ what) | Some id => k id end.

Definition newline : string := String "010" "".
Definition approval_body (target reason : string) : string :=
  "A new mirror provider approval request requires review." +:+ newline +:+ newline +:+
  "Provider: " +:+ target +:+ newline +:+ "Reason: " +:+ reason +:+ newline +:+ newline +:+
  "Log in to the Terraform Registry admin UI to review and approve or reject it." +:+ newline +:+ newline +:+
  "— Terraform Registry".

(** Runs detached; its failures are logged. *)
Definition notifyApprovalPending (approval : MirrorApprovalRequest) : P unit :=
  let target := match rq_ProviderName approval with
                | Some n => if String.eqb n "" then rq_ProviderNamespace approval
                            else rq_ProviderNamespace approval +:+ "/" +:+ n
                | None => rq_ProviderNamespace approval
                end in
  let subject := "New approval pending: mirror request for " +:+ target in
  let body := approval_body target (rq_Reason approval) in
  run! around_call (channel_Notify subject body) in
  match notifCfg with
  | None => ret tt
  | Some cfg =>
      if negb (nc_Enabled cfg) || String.eqb (nc_SMTPHost cfg) "" || negb (nc_ApprovalPending cfg) then ret tt
      else
        let recipients := match nc_Recipients cfg with [] => default [] cveRecipients | l => l end in
        match recipients with
        | [] => ret tt
        | _ => run! around_call (mailer_Send recipients subject body) in ret tt
        end
  end.

Definition ListApprovalRequestsHandler (orgIDStr statusStr : string) : P appr_reply :=
  query_org orgIDStr (fun orgID =>
    let! rows := ListApprovalRequests orgID (if String.eqb statusStr "" then None else Some statusStr) in
    match rows with
    | Err _ => nfail 500 "Failed to list approval requests"
    | Ok rows => ret (200, NRequests rows)
    end).

Definition GetApprovalRequestHandler (idStr : string) : P appr_reply :=
  with_uuid idStr "approval request ID" (fun id =>
    let! req := GetApprovalRequest id in
    match req with
    | Err _ => nfail 500 "Failed to get approval request"
    | Ok None => nfail 404 "Approval request not found"
    | Ok (Some req) => ret (200, NRequest (Some req))
    end).

Definition CreateApprovalRequestHandler (input : res CreateApprovalRequestRequest) : P appr_reply :=
  match input with
  | Err e => nfail 400 (Error e)
  | Ok req =>
      with_uuid (ca_MirrorConfigID req) "mirror config ID" (fun mirrorConfigID =>
        let! id := around_call uuid_New in
        let! created := time_now in
        let! updated := time_now in
        let approval := {|
          rq_ID := id; rq_MirrorConfigID := mirrorConfigID; rq_OrganizationID := ctx_uuid organization_id;
          rq_RequestedBy := ctx_uuid user_id; rq_ProviderNamespace := ca_ProviderNamespace req;
          rq_ProviderName := ca_ProviderName req; rq_Reason := ca_Reason req; rq_Status := ApprovalStatusPending;
          rq_ReviewedBy := None; rq_ReviewedAt := None; rq_ReviewNotes := None; rq_AutoApproved := false;
          rq_CreatedAt := created; rq_UpdatedAt := updated; rq_ExpiresAt := None |} in
        let! r := CreateApprovalRequest approval in
        match r with
        | Err _ => nfail 500 "Failed to create approval request"
        | Ok _ =>
            run! notifyApprovalPending approval in
            ret (201, NRequest (Some approval))
        end)
  end.

(** Without a user in the context the reviewer is the nil UUID; a request that is not
    there is answered with null. *)
Definition ReviewApproval (idStr : string) (input : res ReviewApprovalRequest) : P appr_reply :=
  with_uuid idStr "approval request ID" (fun id =>
    match input with
    | Err e => nfail 400 (Error e)
    | Ok req =>
        let status := ra_Status req in
        if negb (String.eqb status ApprovalStatusApproved) && negb (String.eqb status ApprovalStatusRejected)
        then nfail 400 "Status must be 'approved' or 'rejected'"
        else
          let reviewerID := default Nil (ctx_uuid user_id) in
          let! r := UpdateApprovalStatus id status reviewerID (ra_Notes req) in
          match r with
          | Err _ => nfail 500 "Failed to update approval status"
          | Ok _ =>
              let! approval := GetApprovalRequest id in
              match approval with
              | Err _ => nfail 500 "Failed to get updated approval"
              | Ok approval => ret (200, NRequest approval)
              end
          end
    end).

Definition ListMirrorPoliciesHandler (orgIDStr : string) : P appr_reply :=
  query_org orgIDStr (fun orgID =>
    let! rows := ListMirrorPolicies orgID in
    match rows with
    | Err _ => nfail 500 "Failed to list mirror policies"
    | Ok rows => ret (200, NPolicies rows)
    end).

Definition with_policy (idStr : string) (k : MirrorPolicy -> P appr_reply) : P appr_reply :=
  with_uuid idStr "policy ID" (fun id =>
    let! policy := GetMirrorPolicy id in
    match policy with
    | Err _ => nfail 500 "Failed to get policy"
    | Ok None => nfail 404 "Policy not found"
    | Ok (Some policy) => k policy
    end).

Definition GetMirrorPolicyHandler (idStr : string) : P appr_reply :=
  with_policy idStr (fun policy => ret (200, NPolicy policy)).

(** The body of a policy; its type is checked, its patterns are not. *)
Definition with_policy_body (input : res CreateMirrorPolicyRequest) (k : CreateMirrorPolicyRequest -> P appr_reply)
  : P appr_reply :=
  match input with
  | Err e => nfail 400 (Error e)
  | Ok req =>
      if negb (String.eqb (cp_PolicyType req) PolicyTypeAllow) && negb (String.eqb (cp_PolicyType req) PolicyTypeDeny)
      then nfail 400 "Policy type must be 'allow' or 'deny'"
      else k req
  end.

Definition policy_of (req : CreateMirrorPolicyRequest) (id : string) (org createdBy : option string)
  (created updated : Z) : MirrorPolicy := {|
  po_ID := id; po_OrganizationID := org; po_Name := cp_Name req; po_Description := Some (cp_Description req);
  po_PolicyType := cp_PolicyType req; po_UpstreamRegistry := cp_UpstreamRegistry req;
  po_NamespacePattern := cp_NamespacePattern req; po_ProviderPattern := cp_ProviderPattern req;
  po_Priority := cp_Priority req; po_IsActive := cp_IsActive req; po_RequiresApproval := cp_RequiresApproval req;
  po_CreatedAt := created; po_UpdatedAt := updated; po_CreatedBy := createdBy |}.

Definition CreateMirrorPolicyHandler (input : res CreateMirrorPolicyRequest) : P appr_reply :=
  with_policy_body input (fun req =>
    let go orgID :=
      let! id := around_call uuid_New in
      let! created := time_now in
      let! updated := time_now in
      let policy := policy_of req id orgID (ctx_uuid user_id) created updated in
      let! r := CreateMirrorPolicy policy in
      match r with
      | Err _ => nfail 500 "Failed to create policy"
      | Ok _ => ret (201, NPolicy policy)
      end in
    match cp_OrganizationID req with
    | None => go None
    | Some o => with_uuid o "organization ID" (fun id => go (Some id))
    end).

Definition UpdateMirrorPolicyHandler (idStr : string) (input : res CreateMirrorPolicyRequest) : P appr_reply :=
  with_policy idStr (fun existing =>
    with_policy_body input (fun req =>
      let! now := time_now in
      let policy := policy_of req (po_ID existing) (po_OrganizationID existing) (po_CreatedBy existing)
                      (po_CreatedAt existing) now in
      let! r := UpdateMirrorPolicy policy in
      match r with
      | Err _ => nfail 500 "Failed to update policy"
      | Ok _ => ret (200, NPolicy policy)
      end)).

Definition DeleteMirrorPolicyHandler (idStr : string) : P appr_reply :=
  with_uuid idStr "policy ID" (fun id =>
    let! r := DeleteMirrorPolicy id in
    match r with
    | Err _ => nfail 500 "Failed to delete policy"
    | Ok _ => ret (200, NMessage "Policy deleted")
    end).

Definition EvaluatePolicy (orgIDStr : string) (input : res EvaluatePolicyRequest) : P appr_reply :=
  match input with
  | Err e => nfail 400 (Error e)
  | Ok req =>
      query_org orgIDStr (fun orgID =>
        let! result := EvaluatePolicies orgID (ep_Registry req) (ep_Namespace req) (ep_Provider req) in
        match result with
        | Err _ => nfail 500 "Failed to evaluate policies"
        | Ok result => ret (200, NResult result)
        end)
  end.

(** [hex.EncodeToString] *)
Definition hex_encode (bytes : list Z) : string := String.concat "" (map hex2 bytes).
(** 24 hours. *)
Definition token_ttl : Z := 86400 * 1000000000.

Definition GenerateApprovalToken (idStr : string) : P appr_reply :=
  with_uuid idStr "approval request ID" (fun approvalID =>
    let! approval := GetApprovalRequest approvalID in
    match approval with
    | Err _ => nfail 404 "Approval request not found"
    | Ok None => ret (500, NPanic)
    | Ok (Some approval) =>
        if negb (String.eqb (rq_Status approval) ApprovalStatusPending) then nfail 400 "Approval request is not pending"
        else
          let! rawBytes := around_call (rand_Read 32) in
          match rawBytes with
          | Err _ => nfail 500 "Failed to generate token"
          | Ok rawBytes =>
              let plainToken := hex_encode rawBytes in
              let tokenHash := sha256_hex plainToken in
              let! now := time_now in
              let expiresAt := now + token_ttl in
              let! r := CreateApprovalToken tokenHash approvalID expiresAt in
              match r with
              | Err _ => nfail 500 "Failed to store approval token"
              | Ok _ => ret (201, NToken {| at_Token := plainToken; at_ExpiresAt := expiresAt;
                                            at_ApprovalURL := "/webhooks/approvals/" +:+ plainToken |})
              end
          end
    end).

(** What the webhook does once the token is redeemed: the reviewer is the nil UUID. *)
Definition approve_by_token (approvalID : string) : P appr_reply :=
  let! r := UpdateApprovalStatus approvalID ApprovalStatusApproved Nil "Approved via single-use webhook token" in
  match r with
  | Err _ => nfail 500 "Failed to update approval status"
  | Ok _ => ret (200, NApproved approvalID)
  end.

Definition RedeemApprovalTokenHandler (plainToken : string) : P appr_reply :=
  if negb (String.length plainToken =? 64)%nat then nfail 400 "Invalid token format"
  else
    let! approvalID := RedeemApprovalToken (sha256_hex plainToken) in
    match approvalID with
    | Err e => if errors_is e ErrNoRows then nfail 404 "Token not found, already used, or expired"
               else nfail 500 "Failed to redeem approval token"
    | Ok approvalID => approve_by_token approvalID
    end.
End Handlers.
