(* ===== verification/ApprovalsSafety.v ===== *)
(** * What approval tokens and policies amount to

    Theorems about [Approvals]: a token is redeemed at most as often as it was issued,
    however the statements of concurrent requests interleave; what its redemption does;
    and which policy decides about a provider. *)

From S2P Require Import Prelude GoStrings Glob Web Identity Tables IpAddr Hoare Approvals.
From stdpp Require Import gmap.
From Stdlib Require Import Sorting.Permutation Sorting.Sorted.
#[local] Open Scope Z_scope.

(** ** Statements in any order

    Requests are served concurrently, so their statements interleave.  A redemption is
    two of them: the lookup, and the update that marks the token; [looks] are the
    redemptions in between. *)

Inductive event :=
| Stored (hash request : string)
| Redeemed (hash request : string).

#[export] Instance event_eq_dec : EqDecision event.
Proof. solve_decision. Defined.

Section Interleaving.
Context {Y : Type} `{GoSort}.
#[local] Abbreviation W := (env (beside adb Y)).

Record sys := Sys { world : W; looks : list (string * string); events : list event }.

(** Rows of other tables go away: the requests of a mirror or an organization with
    them, and the tokens of those requests; users that are gone leave null. *)
Definition cascade (gone : MirrorApprovalRequest -> bool) (t : adb) : adb :=
  let kept := filter (fun kv : string * MirrorApprovalRequest => gone kv.2 = false) (requests t) in
  ADB kept (policies t)
    (filter (fun kv : string * approval_token => is_Some (kept !! tk_ApprovalRequestID kv.2)) (tokens t))
    (users t) (organizations t) (mirrors t).

Definition known (rows : gmap string string) (key : option string) : option string :=
  if refers rows key then key else None.
Definition forget (rows : gmap string string) (r : MirrorApprovalRequest) : MirrorApprovalRequest := {|
  rq_ID := rq_ID r; rq_MirrorConfigID := rq_MirrorConfigID r; rq_OrganizationID := rq_OrganizationID r;
  rq_RequestedBy := known rows (rq_RequestedBy r); rq_ProviderNamespace := rq_ProviderNamespace r;
  rq_ProviderName := rq_ProviderName r; rq_Reason := rq_Reason r; rq_Status := rq_Status r;
  rq_ReviewedBy := known rows (rq_ReviewedBy r); rq_ReviewedAt := rq_ReviewedAt r;
  rq_ReviewNotes := rq_ReviewNotes r; rq_AutoApproved := rq_AutoApproved r; rq_CreatedAt := rq_CreatedAt r;
  rq_UpdatedAt := rq_UpdatedAt r; rq_ExpiresAt := rq_ExpiresAt r |}.
Definition with_users (rows : gmap string string) (t : adb) : adb :=
  ADB (forget rows <$> requests t) (policies t) (tokens t) rows (organizations t) (mirrors t).

Definition on_tabs (f : adb -> adb) (w : W) : W :=
  Env (Beside (f (tabs (st w))) (around (st w))) (faults w) (clock w) (ticks w).

Inductive step : sys -> sys -> Prop :=
(** time passes, statements fail, the outside moves *)
| s_outside w w' ps l : tabs (st w') = tabs (st w) -> step (Sys w ps l) (Sys w' ps l)
| s_cascade gone w ps l : step (Sys w ps l) (Sys (on_tabs (cascade gone) w) ps l)
| s_users rows w ps l : rows !! Nil = None -> step (Sys w ps l) (Sys (on_tabs (with_users rows) w) ps l)
| s_request r w ps l : step (Sys w ps l) (Sys (snd (CreateApprovalRequest r w)) ps l)
| s_decide id status u notes w ps l : step (Sys w ps l) (Sys (snd (UpdateApprovalStatus id status u notes w)) ps l)
| s_policy p w ps l : step (Sys w ps l) (Sys (snd (CreateMirrorPolicy p w)) ps l)
| s_repolicy p w ps l : step (Sys w ps l) (Sys (snd (UpdateMirrorPolicy p w)) ps l)
| s_unpolicy id w ps l : step (Sys w ps l) (Sys (snd (DeleteMirrorPolicy id w)) ps l)
| s_store h id e w ps l :
    let c := CreateApprovalToken h id e w in
    step (Sys w ps l) (Sys (snd c) ps (if is_ok (fst c) then Stored h id :: l else l))
| s_look h w ps l :
    let c := redeem_look h w in
    step (Sys w ps l) (Sys (snd c) (match fst c with Ok id => (h, id) :: ps | Err _ => ps end) l)
| s_mark h id w ps ps' l :
    let c := redeem_mark h id w in
    step (Sys w (ps ++ (h, id) :: ps') l) (Sys (snd c) (ps ++ ps') (if is_ok (fst c) then Redeemed h id :: l else l)).

(** No token has been issued yet, and there is no user with the nil UUID. *)
Definition fresh (s : sys) : Prop :=
  tokens (tabs (st (world s))) = ∅ /\ users (tabs (st (world s))) !! Nil = None /\ looks s = [] /\ events s = [].

Inductive reachable : sys -> Prop :=
| r_fresh s : fresh s -> reachable s
| r_step s s' : reachable s -> step s s' -> reachable s'.

Definition times_stored (h : string) (l : list event) : nat :=
  length (List.filter (fun e => match e with Stored h' _ => String.eqb h' h | _ => false end) l).
Definition times_redeemed (h : string) (l : list event) : nat :=
  length (List.filter (fun e => match e with Redeemed h' _ => String.eqb h' h | _ => false end) l).

#[local] Arguments times_stored _ _ : simpl never.
#[local] Arguments times_redeemed _ _ : simpl never.

(** A token that can still be redeemed. *)
Definition open (h : string) (t : adb) : nat :=
  match tokens t !! h with Some k => match tk_UsedAt k with None => 1 | Some _ => 0 end | None => 0 end.

Record sound (s : sys) : Prop := {
  so_count h : (times_redeemed h (events s) + open h (tabs (st (world s))) <= times_stored h (events s))%nat;
  so_row h k : tokens (tabs (st (world s))) !! h = Some k -> In (Stored h (tk_ApprovalRequestID k)) (events s);
  so_look h id : In (h, id) (looks s) -> In (Stored h id) (events s);
  so_redeemed h id : In (Redeemed h id) (events s) -> In (Stored h id) (events s);
  so_refers h k : tokens (tabs (st (world s))) !! h = Some k ->
    is_Some (requests (tabs (st (world s))) !! tk_ApprovalRequestID k);
  so_nil : users (tabs (st (world s))) !! Nil = None;
}.

(** A step that leaves tokens, users and the keys of requests alone. *)
Definition tame (t t' : adb) : Prop :=
  tokens t' = tokens t /\ users t' = users t /\
  forall id, is_Some (requests t !! id) -> is_Some (requests t' !! id).

Lemma tame_sound w w' ps l : tame (tabs (st w)) (tabs (st w')) -> sound (Sys w ps l) -> sound (Sys w' ps l).
Proof.
  intros (Ht & Hu & Hr) [Hc Hrow Hlook Hred Href Hnil]. cbn in *.
  split; cbn; unfold open in *; rewrite ?Ht, ?Hu; eauto.
Qed.

Lemma guarded_cases op ok f (w : W) :
  tabs (st (snd (guarded op ok f w))) = tabs (st w) /\ is_ok (fst (guarded op ok f w)) = false \/
  ok (tabs (st w)) = true /\ fst (guarded op ok f w) = Ok tt /\
  tabs (st (snd (guarded op ok f w))) = f (tabs (st w)).
Proof.
  unfold guarded, sql, db. destruct (faults w) as [|[] fs]; cbn; try (by left);
    destruct (ok _); [by right | by left | by right | by left].
Qed.

Lemma tame_refl t : tame t t.
Proof. split; [done|]. by split. Qed.

Lemma tame_guarded op ok f (w : W) : (forall t, ok t = true -> tame t (f t)) ->
  tame (tabs (st w)) (tabs (st (snd (guarded op ok f w)))).
Proof.
  intros Hf. destruct (guarded_cases op ok f w) as [[-> _]|(Hok & _ & ->)]; [apply tame_refl | by apply Hf].
Qed.

Lemma tame_requests f t : (forall id, is_Some (requests t !! id) -> is_Some (f (requests t) !! id)) ->
  tame t (set_requests f t).
Proof. intros Hf. split; [done|]. split; [done | exact Hf]. Qed.

Lemma insert_keeps {A} (k : string) (a : A) (m : gmap string A) id : is_Some (m !! id) -> is_Some (<[k := a]> m !! id).
Proof. intros Hi. destruct (decide (k = id)) as [->|]; [rewrite lookup_insert_eq | by rewrite lookup_insert_ne]; eauto. Qed.

Lemma alter_keeps {A} (k : string) (f : A -> A) (m : gmap string A) id : is_Some (m !! id) -> is_Some (alter f k m !! id).
Proof.
  intros [a Ha]. destruct (decide (k = id)) as [->|]; [rewrite lookup_alter_eq, Ha | rewrite lookup_alter_ne by done]; eauto.
Qed.

Lemma sound_fresh s : fresh s -> sound s.
Proof.
  destruct s as [w ps l]. intros (Ht & Hu & Hp & Hl). cbn in *. subst.
  split; cbn; try done; unfold open; rewrite Ht; [intros h; by rewrite lookup_empty | intros h k; by rewrite lookup_empty..].
Qed.

Lemma sound_cascade gone w ps l : sound (Sys w ps l) -> sound (Sys (on_tabs (cascade gone) w) ps l).
Proof.
  intros [Hc Hrow Hlook Hred Href Hnil]. cbn in *.
  assert (Hsub : forall h k, tokens (cascade gone (tabs (st w))) !! h = Some k -> tokens (tabs (st w)) !! h = Some k)
    by (intros h k [? _]%map_lookup_filter_Some; done).
  split; cbn [world looks events on_tabs st tabs] in *; eauto.
  - intros h. specialize (Hc h). unfold open in *. destruct (tokens (cascade _ _) !! h) as [k|] eqn:Hk; [|lia].
    by rewrite (Hsub _ _ Hk) in Hc.
  - intros h k Hk. apply map_lookup_filter_Some in Hk as [_ Hk]. exact Hk.
Qed.

Lemma sound_users rows w ps l : rows !! Nil = None ->
  sound (Sys w ps l) -> sound (Sys (on_tabs (with_users rows) w) ps l).
Proof.
  intros Hn [Hc Hrow Hlook Hred Href Hnil]. cbn in *.
  split; cbn; eauto. intros h k Hk. rewrite lookup_fmap. destruct (Href h k Hk) as [r ->]. by eexists.
Qed.

Lemma sound_store h id e w ps l : sound (Sys w ps l) ->
  let c := CreateApprovalToken h id e w in
  sound (Sys (snd c) ps (if is_ok (fst c) then Stored h id :: l else l)).
Proof.
  intros Hs c. subst c. unfold CreateApprovalToken.
  pose proof (guarded_cases "CreateApprovalToken"
    (fun t => bool_decide (tokens t !! h = None) && bool_decide (is_Some (requests t !! id)))
    (set_tokens (<[h := {| tk_ApprovalRequestID := id; tk_ExpiresAt := e; tk_UsedAt := None |}]>)) w) as Hg.
  destruct (guarded _ _ _ w) as [r w']. cbn [fst snd] in *.
  destruct Hg as [[Ht ->]|(Hok & -> & Ht)].
  { by apply (tame_sound w); [rewrite Ht; apply tame_refl|]. }
  apply andb_true_iff in Hok as [Hnone%bool_decide_eq_true Hreq%bool_decide_eq_true].
  destruct Hs as [Hc Hrow Hlook Hred Href Hnil]. cbn in *.
  split; cbn; rewrite ?Ht; cbn.
  - intros h'. specialize (Hc h'). unfold times_redeemed, times_stored, open in *. cbn.
    destruct (String.eqb_spec h h') as [->|Hne]; [rewrite lookup_insert_eq, Hnone in *; cbn; lia|].
    by rewrite lookup_insert_ne.
  - intros h' k. destruct (decide (h = h')) as [->|]; [rewrite lookup_insert_eq; intros [= <-]; by left|].
    rewrite lookup_insert_ne by done. intros Hk. right. by apply Hrow.
  - intros h' id' Hin. right. by apply Hlook.
  - intros h' id' [|Hin]; [done|]. right. by apply Hred.
  - intros h' k. destruct (decide (h = h')) as [->|]; [rewrite lookup_insert_eq; by intros [= <-]|].
    rewrite lookup_insert_ne by done. apply Href.
  - done.
Qed.

(** The lookup answers the request of a token that is open, and changes nothing. *)
Lemma look_reads h (w : W) :
  tabs (st (snd (redeem_look h w))) = tabs (st w) /\
  forall id, fst (redeem_look h w) = Ok id -> exists k, tokens (tabs (st w)) !! h = Some k /\ tk_UsedAt k = None /\
    tk_ApprovalRequestID k = id.
Proof.
  unfold redeem_look, bind, query, sql, db. destruct (faults w) as [|[] fs]; cbn; [|done|];
    (destruct (tokens _ !! h) as [k|]; cbn; [|done]; destruct (tk_UsedAt k) eqn:Hu; cbn; [done|];
     case_match; cbn; [done|]; split; [done|]; intros id [= <-]; by exists k).
Qed.

(** The update marks an open token, or changes nothing. *)
Lemma mark_writes h id (w : W) :
  let c := redeem_mark h id w in
  tabs (st (snd c)) = tabs (st w) /\ is_ok (fst c) = false \/
  exists k now, tokens (tabs (st w)) !! h = Some k /\ tk_UsedAt k = None /\ fst c = Ok id /\
    tabs (st (snd c)) = set_tokens (<[h := used now k]>) (tabs (st w)).
Proof.
  unfold redeem_mark, bind, sql, db. cbn. destruct (faults w) as [|[] fs]; cbn; [|by left|];
    (destruct (tokens _ !! h) as [k|]; cbn; [|by left]; destruct (tk_UsedAt k) eqn:Hu; cbn; [by left|];
     right; by eexists _, _).
Qed.

Lemma sound_look h w ps l : sound (Sys w ps l) ->
  let c := redeem_look h w in sound (Sys (snd c) (match fst c with Ok id => (h, id) :: ps | Err _ => ps end) l).
Proof.
  intros Hs c. subst c. pose proof (look_reads h w) as Hl. destruct (redeem_look h w) as [r w'].
  cbn [fst snd] in *. destruct Hl as [Ht Hid].
  assert (Hs' : sound (Sys w' ps l)) by (apply (tame_sound w); [rewrite Ht; apply tame_refl | done]).
  destruct r as [id|]; [|done]. destruct (Hid id eq_refl) as (k & Hk & _ & Hkid).
  destruct Hs as [_ Hrow _ _ _ _], Hs' as [Hc Hrow' Hlook Hred Href Hnil]. cbn in *.
  split; cbn; try done. intros h' id' [[= <- <-]|Hin]; [rewrite <- Hkid; by apply Hrow | by apply Hlook].
Qed.

Lemma sound_mark h id w ps ps' l : sound (Sys w (ps ++ (h, id) :: ps') l) ->
  let c := redeem_mark h id w in sound (Sys (snd c) (ps ++ ps') (if is_ok (fst c) then Redeemed h id :: l else l)).
Proof.
  intros [Hc Hrow Hlook Hred Href Hnil] c. subst c. pose proof (mark_writes h id w) as Hm.
  destruct (redeem_mark h id w) as [r w']. cbn [fst snd] in *. cbn in Hc, Hrow, Hlook, Hred, Href, Hnil.
  assert (Hlook' : forall h' id', In (h', id') (ps ++ ps') -> In (Stored h' id') l).
  { intros h' id' Hin. apply Hlook. apply in_app_iff in Hin as [|]; apply in_app_iff; [by left | right; by right]. }
  destruct Hm as [[Ht Hno]|(k & now & Hk & Hu & -> & Ht)].
  { rewrite Hno. split; cbn; unfold open in *; rewrite ?Ht; eauto. }
  cbn [is_ok].
  split; cbn; rewrite ?Ht; cbn.
  - intros h'. specialize (Hc h'). unfold times_redeemed, times_stored, open in *. cbn.
    destruct (String.eqb_spec h h') as [->|Hne].
    + rewrite lookup_insert_eq. rewrite Hk, Hu in Hc. cbn. lia.
    + by rewrite lookup_insert_ne.
  - intros h' k'. destruct (decide (h = h')) as [->|]; [rewrite lookup_insert_eq; intros [= <-]|rewrite lookup_insert_ne by done].
    + cbn. right. by apply Hrow.
    + intros Hk'. right. by apply Hrow.
  - intros h' id' Hin. right. by apply Hlook'.
  - intros h' id' [[= <- <-]|Hin]; right; [apply Hlook; apply in_app_iff; right; by left | by apply Hred].
  - intros h' k'. destruct (decide (h = h')) as [->|]; [rewrite lookup_insert_eq; intros [= <-]|rewrite lookup_insert_ne by done].
    + cbn. by apply (Href h').
    + apply Href.
  - done.
Qed.

Lemma sound_step s s' : step s s' -> sound s -> sound s'.
Proof.
  intros Hstep Hs. destruct Hstep.
  - apply (tame_sound w); [rewrite H0; apply tame_refl | done].
  - by apply sound_cascade.
  - by apply sound_users.
  - apply (tame_sound w); [|done]. apply tame_guarded. intros t _. apply tame_requests. intros i. apply insert_keeps.
  - apply (tame_sound w); [|done]. apply (tame_guarded _ _ _ (snd (time_now w))). intros t _.
    apply tame_requests. intros i. apply alter_keeps.
  - apply (tame_sound w); [|done]. by apply tame_guarded.
  - apply (tame_sound w); [|done]. by apply (tame_guarded _ _ _ (snd (time_now w))).
  - apply (tame_sound w); [|done]. unfold DeleteMirrorPolicy, exec, sql, db.
    destruct (faults w) as [|[] fs]; cbn; by split_and!.
  - by apply sound_store.
  - by apply sound_look.
  - by apply sound_mark.
Qed.

Lemma reachable_sound s : reachable s -> sound s.
Proof. induction 1 as [s Hf|s s' _ IH Hst]; [by apply sound_fresh | by eapply sound_step]. Qed.
End Interleaving.

(** ** The webhook *)
Section Webhook.
Context {Y : Type} `{Sha256}.
#[local] Abbreviation W := (env (beside adb Y)).

Lemma status_cases id status u notes (w : W) :
  let c := UpdateApprovalStatus id status u notes w in
  tabs (st (snd c)) = tabs (st w) /\ is_ok (fst c) = false \/
  (requests (tabs (st w)) !! id = None \/ refers (users (tabs (st w))) (Some u) && status_allowed status = true) /\
  fst c = Ok tt /\
  tabs (st (snd c)) = set_requests (alter (decided status u notes (fst (time_now w))) id) (tabs (st w)).
Proof.
  cbn zeta. unfold UpdateApprovalStatus, bind.
  destruct (guarded_cases "UpdateApprovalStatus"
    (fun t => match requests t !! id with
              | None => true
              | Some _ => refers (users t) (Some u) && status_allowed status
              end)
    (set_requests (alter (decided status u notes (fst (time_now w))) id)) (snd (time_now w))) as [Hno|(Hok & Hr & Ht)];
    [by left|].
  right. split; [|done]. cbn in Hok. destruct (requests _ !! id); [by right | by left].
Qed.

Lemma approve_idle id (w : W) : users (tabs (st w)) !! Nil = None ->
  let c := approve_by_token id w in
  requests (tabs (st (snd c))) = requests (tabs (st w)) /\ tokens (tabs (st (snd c))) = tokens (tabs (st w)) /\
  (is_Some (requests (tabs (st w)) !! id) -> fst c = (500, NError "Failed to update approval status")).
Proof.
  intros Hn. cbn zeta. unfold approve_by_token, bind.
  pose proof (status_cases id ApprovalStatusApproved Nil "Approved via single-use webhook token" w) as Hc.
  destruct (UpdateApprovalStatus _ _ _ _ w) as [r w']. cbn [fst snd] in *.
  destruct Hc as [[Ht Hr]|(Hok & -> & Ht)].
  { destruct r; [done|]. cbn. rewrite Ht. by split_and!. }
  destruct Hok as [Hid|Hok].
  - cbn. rewrite Ht. cbn. split_and!; [by apply alter_id' | done | rewrite Hid; by intros [? ?]].
  - exfalso. revert Hok. unfold refers. rewrite Hn. by rewrite bool_decide_false by (intros [? ?]; done).
Qed.

(** A call of the webhook: it never succeeds, and no request changes. *)
Lemma webhook_idle token (w : W) : users (tabs (st w)) !! Nil = None ->
  (forall h k, tokens (tabs (st w)) !! h = Some k -> is_Some (requests (tabs (st w)) !! tk_ApprovalRequestID k)) ->
  let c := RedeemApprovalTokenHandler token w in
  fst (fst c) <> 200 /\ requests (tabs (st (snd c))) = requests (tabs (st w)).
Proof.
  intros Hn Href. cbn zeta. unfold RedeemApprovalTokenHandler. destruct (negb _); [done|].
  unfold RedeemApprovalToken, bind. pose proof (look_reads (sha256_hex token) w) as Hl.
  destruct (redeem_look (sha256_hex token) w) as [[id|e] w1]; cbn [fst snd] in *; destruct Hl as [Ht1 Hid].
  2:{ cbn. case_match; cbn; by rewrite Ht1. }
  destruct (Hid id eq_refl) as (k & Hk & _ & Hkid). pose proof (mark_writes (sha256_hex token) id w1) as Hm.
  destruct (redeem_mark _ id w1) as [r w2]. cbn [fst snd] in *. rewrite Ht1 in Hm.
  assert (Hsame : requests (tabs (st w2)) = requests (tabs (st w)) /\ users (tabs (st w2)) = users (tabs (st w)))
    by (destruct Hm as [[-> _]|(? & ? & _ & _ & _ & ->)]; done).
  destruct Hsame as [Hreq Hus]. destruct r as [id'|e]; [|cbn; case_match; done].
  assert (id' = id) as -> by (destruct Hm as [[_ ?]|(? & ? & _ & _ & [= ->] & _)]; done).
  destruct (approve_idle id w2) as (H1 & _ & H3); [by rewrite Hus|]. rewrite H3, H1, Hreq; [done|].
  rewrite Hreq, <- Hkid. by eapply Href.
Qed.

(** A valid token is used up all the same. *)
Lemma webhook_burns token k (w : W) : users (tabs (st w)) !! Nil = None -> faults w = [] ->
  String.length token = 64%nat -> tokens (tabs (st w)) !! sha256_hex token = Some k -> tk_UsedAt k = None ->
  fst (time_now w) <= tk_ExpiresAt k -> is_Some (requests (tabs (st w)) !! tk_ApprovalRequestID k) ->
  let c := RedeemApprovalTokenHandler token w in
  fst c = (500, NError "Failed to update approval status") /\
  exists now, tokens (tabs (st (snd c))) !! sha256_hex token = Some (used now k).
Proof.
  intros Hn Hf Hlen Hk Hu Hexp Hreq. cbn zeta. unfold RedeemApprovalTokenHandler. rewrite Hlen. cbn [Nat.eqb negb].
  set (w1 := snd (time_now w)).
  assert (Hlook : redeem_look (sha256_hex token) w = (Ok (tk_ApprovalRequestID k), w1)).
  { unfold redeem_look, bind, query, sql, db. rewrite Hf. cbn. rewrite Hk. cbn. rewrite Hu. cbn.
    destruct (Z.ltb_spec (tk_ExpiresAt k) (clock w + Z.max 0 (hd 0 (ticks w)))); [cbn in Hexp; lia|].
    unfold w1. by destruct w as [[t y] ? ? ?]; cbn in *; subst. }
  pose proof (mark_writes (sha256_hex token) (tk_ApprovalRequestID k) w1) as Hm.
  assert (Hokm : is_ok (fst (redeem_mark (sha256_hex token) (tk_ApprovalRequestID k) w1)) = true).
  { unfold redeem_mark, bind, sql, db. unfold w1. cbn. rewrite Hf. cbn. by rewrite Hk, Hu. }
  destruct (redeem_mark _ _ w1) as [r w2] eqn:Hmark. cbn [fst snd] in *.
  destruct Hm as [[_ Hno]|(k' & now & Hk' & _ & -> & Ht)]; [by rewrite Hno in Hokm|].
  change (tabs (st w1)) with (tabs (st w)) in *. rewrite Hk in Hk'. injection Hk' as <-.
  assert (Hred : RedeemApprovalToken (sha256_hex token) w = (Ok (tk_ApprovalRequestID k), w2)).
  { unfold RedeemApprovalToken. by rewrite (bind_run _ _ _ _ _ Hlook). }
  rewrite (bind_run _ _ _ _ _ Hred).
  destruct (approve_idle (tk_ApprovalRequestID k) w2) as (_ & H2 & H3); [by rewrite Ht|].
  split; [apply H3; by rewrite Ht|]. exists now. rewrite H2, Ht. cbn. by rewrite lookup_insert_eq.
Qed.
End Webhook.

(** ** Policies *)

#[export] Instance outranks_weak : StrictWeak outranks.
Proof. split; unfold outranks; intros; lia. Qed.

Definition applies (registry namespace provider : string) (p : ListedPolicy) : bool :=
  po_IsActive (lp_Policy p) && Matches (lp_Policy p) registry namespace provider.

(** The decision of a policy. *)
Definition verdict (p : ListedPolicy) (r : PolicyEvaluationResult) : Prop :=
  ev_MatchedPolicy r = Some p /\ ev_Allowed r = String.eqb (po_PolicyType (lp_Policy p)) PolicyTypeAllow /\
  ev_RequiresApproval r = po_RequiresApproval (lp_Policy p).

Lemma evaluate_first ps registry namespace provider :
  let r := evaluate ps registry namespace provider in
  let silent q := applies registry namespace provider q = false in
  (exists p before after, ps = before ++ p :: after /\ Forall silent before /\
      applies registry namespace provider p = true /\ verdict p r) \/
  Forall silent ps /\ ev_MatchedPolicy r = None /\ ev_Allowed r = false.
Proof.
  cbn zeta. induction ps as [|p ps IH]; [by right|]. cbn [evaluate].
  destruct (applies registry namespace provider p) eqn:Ha.
  - left. exists p, [], ps. pose proof Ha as Hap. apply andb_true_iff in Hap as [Hact Hm]. rewrite Hact, Hm.
    split; [done|]. split; [constructor|]. by split.
  - assert (Hskip : evaluate (p :: ps) registry namespace provider = evaluate ps registry namespace provider).
    { cbn [evaluate]. unfold applies in Ha. destruct (po_IsActive _), (Matches _ _ _ _); done. }
    cbn [evaluate] in Hskip. rewrite Hskip. destruct IH as [(q & l1 & l2 & -> & Hl & Hq & Hv)|(Hl & Hr)]; [left | right].
    + exists q, (p :: l1), l2. split; [done|]. split; [by constructor|]. by split.
    + split; [by constructor | done].
Qed.

Lemma sorted_after {A} (R : A -> A -> Prop) (l1 : list A) x l2 :
  StronglySorted R (l1 ++ x :: l2) -> Forall (R x) l2.
Proof.
  induction l1 as [|y l1 IH]; intros Hs; apply StronglySorted_inv in Hs as [Hs Hx]; [exact Hx | by apply IH].
Qed.

(** A policy that is in force for an organization and covers a provider. *)
Definition candidate (t : adb) (orgID : option string) (registry namespace provider : string) (p : MirrorPolicy) : Prop :=
  (exists id, policies t !! id = Some p) /\ in_scope orgID p = true /\ po_IsActive p = true /\
  Matches p registry namespace provider = true.

Lemma ranked_in `{GoSortLaws} orgID t p :
  In p (go_sort outranks (List.filter (in_scope orgID) (map snd (map_to_list (policies t))))) <->
  (exists id, policies t !! id = Some p) /\ in_scope orgID p = true.
Proof.
  rewrite go_sort_in, filter_In, in_map_iff. split.
  - intros [([id q] & <- & Hin) Hs]. split; [|done]. exists id. by apply elem_of_map_to_list, list_elem_of_In.
  - intros [[id Hid] Hs]. split; [|done]. exists (id, p). split; [done|]. by apply list_elem_of_In, elem_of_map_to_list.
Qed.

Lemma decision_is_ranked `{GoSortLaws} orgID t registry namespace provider :
  let r := evaluate (ranked_policies orgID t) registry namespace provider in
  let candidate := candidate t orgID registry namespace provider in
  (exists p, verdict p r /\ candidate (lp_Policy p) /\ forall q, candidate q -> outranks q (lp_Policy p) = false) \/
  (forall q, ~ candidate q) /\ ev_MatchedPolicy r = None /\ ev_Allowed r = false.
Proof.
  cbn zeta. unfold ranked_policies. pose proof (go_sort_sorted _ outranks
    (List.filter (in_scope orgID) (map snd (map_to_list (policies t)))) outranks_weak) as Hsorted.
  pose proof (ranked_in orgID t) as Hin. set (l := go_sort outranks _) in *. clearbody l.
  assert (Hcand : forall q, candidate t orgID registry namespace provider q ->
    In q l /\ applies registry namespace provider (listed_policy t q) = true).
  { intros q (Hq & Hs & Hact & Hm). split; [by apply Hin|]. unfold applies. cbn. by rewrite Hact, Hm. }
  destruct (evaluate_first (map (listed_policy t) l) registry namespace provider)
    as [(p & l1 & l2 & Hl & Hsil & Hp & Hv)|(Hsil & Hr)].
  - left. exists p. apply map_eq_app in Hl as (a & b & -> & <- & Hb).
    destruct b as [|p' b]; [done|]. cbn in Hb. injection Hb as <- <-. cbn [lp_Policy listed_policy].
    split; [exact Hv|]. split.
    + destruct (proj1 (Hin p')) as [Hid Hs]; [apply in_app_iff; right; by left|].
      unfold applies in Hp. bools. by split_and!.
    + intros q Hq. destruct (Hcand q Hq) as [Hql Hqa]. apply in_app_iff in Hql as [Hql|[->|Hql]].
      * exfalso. rewrite Forall_forall in Hsil. specialize (Hsil (listed_policy t q)).
        rewrite Hsil in Hqa; [done|]. apply list_elem_of_In, in_map_iff. by exists q.
      * unfold outranks. lia.
      * pose proof (sorted_after _ _ _ _ Hsorted) as Hafter. rewrite List.Forall_forall in Hafter. by apply Hafter.
  - right. split; [|exact Hr]. intros q Hq. destruct (Hcand q Hq) as [Hql Hqa].
    rewrite Forall_forall in Hsil. specialize (Hsil (listed_policy t q)). rewrite Hsil in Hqa; [done|].
    apply list_elem_of_In, in_map_iff. by exists q.
Qed.

(** What a pattern of a policy says about a name. *)
Definition pattern_says (pattern : option string) (name : string) : Prop :=
  match pattern with
  | None => True
  | Some p => p = "" \/ exists cs, chunks p = Some cs /\ denotes cs name
  end.

Lemma lone_star_matches name : plain name = true -> Match "*" name = true.
Proof. intros Hp. unfold Match. cbn. by rewrite plain_has_no_slash. Qed.

Lemma pattern_decides pattern name : plain name = true -> pattern_holds pattern name = true <-> pattern_says pattern name.
Proof.
  intros Hp. destruct pattern as [p|]; [|done]. cbn. rewrite <- (match_iff p name Hp), !orb_true_iff.
  destruct (String.eqb_spec p "") as [->|Hne]; [split; [by left | by left; left]|].
  destruct (String.eqb_spec p "*") as [->|Hs]; [rewrite lone_star_matches by done; split; intros; [by right | by right]|].
  split; [intros [[|]|]; [done | by right | done] | intros [|]; [done | by left; right]].
Qed.

(** ** Properties *)

(** C28: However the statements of concurrent requests interleave, and whatever
    disappears meanwhile, a hash is redeemed at most as often as a token with it was
    stored (once, as stored hashes are unique), and each redemption answers an approval
    request such a token was stored for. *)
Theorem tokens_are_redeemed_once {Y} (s : @sys Y) :
  reachable s ->
  (forall h, (times_redeemed h (events s) <= times_stored h (events s))%nat) /\
  forall h id, In (Redeemed h id) (events s) -> In (Stored h id) (events s).
Proof.
  intros Hr. destruct (reachable_sound s Hr) as [Hc _ _ Hred _ _]. split; [|exact Hred].
  intros h. specialize (Hc h). lia.
Qed.

(** C34: In every reachable state the webhook that redeems approval tokens never answers
    200 and changes no approval request, since the nil UUID it records as the reviewer
    is no user; yet a valid token is used up by the attempt, which is answered 500. *)
Theorem webhook_never_approves {Y} `{Sha256} (s : @sys Y) (token : string) :
  reachable s ->
  let w := world s in
  let c := RedeemApprovalTokenHandler token w in
  (fst (fst c) <> 200 /\ requests (tabs (st (snd c))) = requests (tabs (st w))) /\
  forall k, String.length token = 64%nat -> tokens (tabs (st w)) !! sha256_hex token = Some k ->
    tk_UsedAt k = None -> faults w = [] -> fst (time_now w) <= tk_ExpiresAt k ->
    fst c = (500, NError "Failed to update approval status") /\
    exists now, tokens (tabs (st (snd c))) !! sha256_hex token = Some (used now k).
Proof.
  intros Hr w c. destruct (reachable_sound s Hr) as [_ _ _ _ Href Hnil]. split; [by apply webhook_idle|].
  intros k Hlen Hk Hu Hf Hexp. apply webhook_burns; try done. by eapply Href.
Qed.

(** The evaluation of policies is decided by a policy that is active, global or of
    the given organization, and matches, and that no other such policy outranks
    (higher priority, or the same and older); it allows exactly if that policy does.
    Without such a policy the answer is a denial. *)
Theorem policies_decide_by_rank {Y} `{GoSortLaws} orgID registry namespace provider (w : env (beside adb Y)) :
  faults w = [] ->
  let candidate := candidate (tabs (st w)) orgID registry namespace provider in
  exists r, fst (EvaluatePolicies orgID registry namespace provider w) = Ok r /\
    ((exists p, verdict p r /\ candidate (lp_Policy p) /\ forall q, candidate q -> outranks q (lp_Policy p) = false) \/
     (forall q, ~ candidate q) /\ ev_MatchedPolicy r = None /\ ev_Allowed r = false).
Proof.
  intros Hf candidate. exists (evaluate (ranked_policies orgID (tabs (st w))) registry namespace provider).
  split; [|apply decision_is_ranked]. unfold EvaluatePolicies, ListMirrorPolicies, bind, query, sql, db. by rewrite Hf.
Qed.

(** A policy matches a provider exactly if its registry is absent, empty or the one
    given, and its patterns, where they are present and not empty, denote the namespace
    and the name in the sense of [denotes], which lets a star stand for anything. *)
Theorem patterns_mean_what_they_say p registry namespace provider :
  plain namespace = true -> plain provider = true ->
  Matches p registry namespace provider = true <->
  po_UpstreamRegistry p ∈ [None; Some ""; Some registry] /\
  pattern_says (po_NamespacePattern p) namespace /\ pattern_says (po_ProviderPattern p) provider.
Proof.
  intros Hn Hp. unfold Matches. rewrite !andb_true_iff, (pattern_decides _ _ Hn), (pattern_decides _ _ Hp).
  assert (Hr : (match po_UpstreamRegistry p with None => true | Some r => String.eqb r "" || String.eqb r registry end) = true <->
    po_UpstreamRegistry p ∈ [None; Some ""; Some registry]).
  { destruct (po_UpstreamRegistry p) as [r|]; [|split; [left | done]].
    rewrite orb_true_iff, !String.eqb_eq, !elem_of_cons, elem_of_nil. naive_solver. }
  rewrite Hr. tauto.
Qed.

(** ** Witnesses *)
Module Demo.
#[export] Instance sort : GoSort := stable_sort.
#[export] Instance digest : Sha256 := fun s => s.

Definition pending_request : MirrorApprovalRequest := {|
  rq_ID := "r1"; rq_MirrorConfigID := "m1"; rq_OrganizationID := None; rq_RequestedBy := Some "ann";
  rq_ProviderNamespace := "hashicorp"; rq_ProviderName := Some "aws"; rq_Reason := "";
  rq_Status := ApprovalStatusPending; rq_ReviewedBy := None; rq_ReviewedAt := None; rq_ReviewNotes := None;
  rq_AutoApproved := false; rq_CreatedAt := 1; rq_UpdatedAt := 1; rq_ExpiresAt := None |}.

Definition policy (id : string) (org : option string) (type : string) (pattern : string) (priority : Z) : MirrorPolicy := {|
  po_ID := id; po_OrganizationID := org; po_Name := id; po_Description := None; po_PolicyType := type;
  po_UpstreamRegistry := None; po_NamespacePattern := Some pattern; po_ProviderPattern := Some "*";
  po_Priority := priority; po_IsActive := true; po_RequiresApproval := false; po_CreatedAt := 1; po_UpdatedAt := 1;
  po_CreatedBy := None |}.

Definition rows (ps : list MirrorPolicy) : adb :=
  ADB {["r1" := pending_request]} (list_to_map (map (fun p => (po_ID p, p)) ps)) ∅
    (<["ann" := "Ann"]> {["bob" := "Bob"]}) {["o1" := "Acme"]} {["m1" := "mirror"]}.
Definition start (ps : list MirrorPolicy) : env (beside adb unit) := Env (Beside (rows ps) tt) [] 10 [].

Definition text64 : string := String.concat "" (replicate 16 "abcd").
Definition issued : env (beside adb unit) := snd (CreateApprovalToken text64 "r1" 1000 (start [])).

(** The token is gone and the request still pending; the reviewer's own decision works. *)
Example token_is_burnt :
  let c := RedeemApprovalTokenHandler text64 issued in
  let again := RedeemApprovalTokenHandler text64 (snd c) in
  (fst c, fst (fst again), rq_Status <$> requests (tabs (st (snd c))) !! "r1") =
  ((500, NError "Failed to update approval status"), 404, Some ApprovalStatusPending).
Proof. by vm_compute. Qed.

Definition evaluated (org : option string) (ps : list MirrorPolicy) (namespace : string) : option bool :=
  match fst (EvaluatePolicies org "registry.terraform.io" namespace "aws" (start ps)) with
  | Ok r => Some (ev_Allowed r)
  | Err _ => None
  end.

(** The seeded global policy allows what the organization's own policy denies. *)
Example global_policy_beats_the_organizations :
  evaluated (Some "o1") [policy "g" None "allow" "hashicorp" 100; policy "p" (Some "o1") "deny" "hashicorp" 10]
    "hashicorp" = Some true.
Proof. by vm_compute. Qed.

(** A denial whose pattern is malformed denies nothing. *)
Example malformed_denial_is_silent :
  evaluated None [policy "d" None "deny" "evil[*" 100; policy "a" None "allow" "*" 0] "evil" = Some true.
Proof. by vm_compute. Qed.

#[export] Instance nothing_random : ApprovalWorld unit := {|
  uuid_New y := ("u", y); rand_Read _ y := (Ok (replicate 32 7), y);
  channel_Notify _ _ y := (tt, y); mailer_Send _ _ _ y := (Ok tt, y) |}.
#[export] Instance any_text : Parsers := {|
  uuid_text := Some; parse_rfc3339 _ := None; scopes_json _ := Ok [] |}.

Example unknown_request_panics : fst (GenerateApprovalToken "nope" (start [])) = (500, NPanic).
Proof. by vm_compute. Qed.

Example unknown_request_is_reviewed :
  fst (ReviewApproval (Some (VString "bob")) "nope" (Ok {| ra_Status := "approved"; ra_Notes := "" |}) (start [])) =
  (200, NRequest None).
Proof. by vm_compute. Qed.

(** Two redemptions look at one token before either marks it. *)
Definition looked : env (beside adb unit) := snd (redeem_look text64 (snd (redeem_look text64 issued))).
Definition marked : env (beside adb unit) := snd (redeem_mark text64 "r1" looked).
Definition raced : sys :=
  Sys (snd (redeem_mark text64 "r1" marked)) [] [Redeemed text64 "r1"; Stored text64 "r1"].

Lemma issued_reachable : reachable (Sys issued [] [Stored text64 "r1"]).
Proof.
  apply (r_step (Sys (start []) [] [])); [|exact (s_store text64 "r1" 1000 (start []) [] [])].
  apply r_fresh. split; [done|]. split; [by vm_compute | done].
Qed.

Lemma raced_reachable : reachable raced.
Proof.
  assert (L1 : fst (redeem_look text64 issued) = Ok "r1") by by vm_compute.
  assert (L2 : fst (redeem_look text64 (snd (redeem_look text64 issued))) = Ok "r1") by by vm_compute.
  assert (M1 : fst (redeem_mark text64 "r1" looked) = Ok "r1") by by vm_compute.
  assert (M2 : is_ok (fst (redeem_mark text64 "r1" marked)) = false) by by vm_compute.
  pose proof (s_look text64 issued [] [Stored text64 "r1"]) as S1. cbn zeta in S1. rewrite L1 in S1.
  pose proof (s_look text64 (snd (redeem_look text64 issued)) [(text64, "r1")] [Stored text64 "r1"]) as S2.
  cbn zeta in S2. rewrite L2 in S2. fold looked in S2.
  pose proof (s_mark text64 "r1" looked [] [(text64, "r1")] [Stored text64 "r1"]) as S3.
  cbn zeta in S3. rewrite M1 in S3. fold marked in S3.
  pose proof (s_mark text64 "r1" marked [] [] [Redeemed text64 "r1"; Stored text64 "r1"]) as S4.
  cbn zeta in S4. rewrite M2 in S4.
  eapply r_step; [|exact S4]. eapply r_step; [|exact S3]. eapply r_step; [|exact S2]. eapply r_step; [|exact S1].
  apply issued_reachable.
Qed.

Lemma tokens_are_redeemed_once_witness :
  reachable raced /\ times_redeemed text64 (events raced) = 1%nat /\
  (times_redeemed text64 (events raced) <= times_stored text64 (events raced))%nat.
Proof.
  split; [apply raced_reachable|]. split; [by vm_compute|].
  apply (tokens_are_redeemed_once raced raced_reachable).
Defined.

Lemma webhook_never_approves_witness :
  fst (RedeemApprovalTokenHandler text64 issued) = (500, NError "Failed to update approval status") /\
  fst (fst (RedeemApprovalTokenHandler text64 issued)) <> 200.
Proof.
  destruct (webhook_never_approves (Sys issued [] [Stored text64 "r1"]) text64 issued_reachable) as [[Hno _] Hburn].
  split; [|exact Hno]. edestruct Hburn as [Hc _]; [by vm_compute | by vm_compute | done | done | by vm_compute | exact Hc].
Defined.

Lemma policies_decide_by_rank_witness :
  exists r, fst (EvaluatePolicies (Some "o1") "x" "hashicorp" "aws"
    (start [policy "g" None "allow" "hashicorp" 100; policy "p" (Some "o1") "deny" "hashicorp" 10])) = Ok r /\
    po_ID ∘ lp_Policy <$> ev_MatchedPolicy r = Some "g".
Proof.
  destruct (policies_decide_by_rank (H0 := stable_sort_laws) (Some "o1") "x" "hashicorp" "aws"
    (start [policy "g" None "allow" "hashicorp" 100; policy "p" (Some "o1") "deny" "hashicorp" 10]) eq_refl) as (r & Hr & _).
  exists r. split; [exact Hr|]. vm_compute in Hr. by injection Hr as <-.
Defined.

Lemma patterns_mean_what_they_say_witness :
  let p := policy "p" None "allow" "hashi*" 1 in
  Matches p "x" "hashicorp" "aws" = true /\ pattern_says (Some "hashi*") "hashicorp".
Proof.
  cbn zeta. assert (Hm : Matches (policy "p" None "allow" "hashi*" 1) "x" "hashicorp" "aws" = true) by by vm_compute.
  split; [exact Hm|]. apply (patterns_mean_what_they_say (policy "p" None "allow" "hashi*" 1) "x" "hashicorp" "aws");
    [by vm_compute.. | exact Hm].
Defined.
End Demo.
