(* ===== verification/Binaries.v ===== *)
(** * The binary mirror's endpoints

    api/terraform_binaries/binaries.go (discovery and download, unauthenticated),
    middleware/binary_mirror_auth.go in front of it, and the administration of the
    mirrors, api/admin/terraform_mirror.go.  A handler returns the status and the
    body it writes; a path parameter that is a UUID is [None] when it does not
    parse. *)

From S2P Require Import Prelude GoStrings AutoApprove Validation Os LocalStorage StorageSpec Backend.
From S2P Require Import TfMirrorRepo TfMirrorSync IpAddr Egress.
From stdpp Require Import gmap.
#[local] Open Scope Z_scope.

(** ** The gate: middleware/binary_mirror_auth.go *)
Module Gate.

Record BinaryMirrorConfig := { Auth : string; Allowlist : list string }.

(** What the gate sees of a request: the client's address, and the number of
    verified chains when the connection is TLS. *)
Record peer := { ClientIP : string; VerifiedChains : option nat }.

(** The entries that parse; the others are dropped. *)
Definition allowlist_nets (cidrs : list string) : list IPNet := omap ParseCIDR cidrs.

Definition forbidden (message : string) : option (Z * string) := Some (403, message).

(** [None] is [c.Next()]. *)
Definition binaryMirrorAllowlistMiddleware (cidrs : list string) (c : peer) : option (Z * string) :=
  match ParseIP (ClientIP c) with
  | None => forbidden "forbidden"
  | Some clientIP =>
      if existsb (fun ipNet => Contains ipNet clientIP) (allowlist_nets cidrs) then None
      else forbidden "forbidden"
  end.

Definition binaryMirrorMTLSMiddleware (c : peer) : option (Z * string) :=
  match VerifiedChains c with
  | None | Some O => forbidden "client certificate required"
  | Some _ => None
  end.

Definition BinaryMirrorAuthMiddleware (cfg : BinaryMirrorConfig) (c : peer) : option (Z * string) :=
  if String.eqb (Auth cfg) "allowlist" then binaryMirrorAllowlistMiddleware (Allowlist cfg) c
  else if String.eqb (Auth cfg) "mtls" then binaryMirrorMTLSMiddleware c
  else None.
End Gate.

(** ** Bodies *)
Record PublicMirrorSummary := {
  sm_Name : string;
  sm_Description : option string;
  sm_Tool : string;
}.

Record TerraformBinaryDownloadResponse := {
  dl_OS : string;
  dl_Arch : string;
  dl_Version : string;
  dl_Filename : string;
  dl_SHA256 : string;
  dl_DownloadURL : string;
  dl_ShasumsURL : string;
  dl_ShasumsSignatureURL : string;
}.

Inductive body :=
| BError (message : string)
| BErrors (messages : list string)
| BMessage (message : string)
| BNotReady (message sync_status : string)
| BSummaries (summaries : list PublicMirrorSummary)
| BVersions (versions : list TerraformVersion) (total : Z)
| BVersion (version : TerraformVersion) (platforms : list TerraformVersionPlatform)
| BDownload (response : TerraformBinaryDownloadResponse)
| BConfig (cfg : TerraformMirrorConfig)
| BConfigs (cfgs : list TerraformMirrorConfig) (total : Z)
| BStatus (cfg : TerraformMirrorConfig) (versions platforms pending : nat) (latest : option string)
| BPage (versions : list (TerraformVersion * list TerraformVersionPlatform)) (total limit offset : Z)
| BHistory (history : list TerraformSyncHistory) (total : Z)
| BPlatforms (platforms : list TerraformVersionPlatform).

Definition reply : Type := Z * body.

(** A row of the audit log, written after the answer. *)
Record AuditLog := {
  au_Action : string;
  au_ResourceType : string;
  au_ResourceID : uuid;
  au_IPAddress : string;
  au_UserID : option string;
  au_OrganizationID : option string;
}.
Class Audit (Y : Type) := { CreateAuditLog : AuditLog -> prog Y (res unit) }.

(** The sync job as the handlers see it; [None] before it is attached. *)
Class SyncJob (Y : Type) := { TriggerSync : option (uuid -> prog Y (option gerror)) }.

(** What the download handler reads of the request for its audit row. *)
Record caller := {
  cl_Path : string;
  cl_IP : string;
  cl_User : option string;
  cl_Organization : option string;
}.

(** middleware/log_redaction.go: secret path segments are masked. *)
Definition redact (n : nat) (parts : list string) : string :=
  String.concat "/" (take (S n) (<[n := "[REDACTED]"]> parts)).
Definition RedactSensitivePath (p : string) : string :=
  let parts := split_on "/"%char p in
  if has_prefix p "/webhooks/scm/" then
    if (5 <=? length parts)%nat then redact 4 parts
    else if (length parts =? 4)%nat then redact 3 parts else p
  else if has_prefix p "/webhooks/approvals/" then
    if (4 <=? length parts)%nat then redact 3 parts else p
  else p.

Section Handlers.
Context {Y Conn : Type} `{GoSort} `{GoVersion} `{StringsCodec}.
Context `{Backend Y} `{Audit Y} `{SyncJob Y} `{!UrlLib} `{!Network Conn Y}.
#[local] Abbreviation P := (prog (env (mir Y))).

Definition fail (status : Z) (message : string) : P reply := ret (status, BError message).
Definition fails (status : Z) (message : string) : P reply := ret (status, BErrors [message]).

(** 15 minutes. *)
Definition url_ttl : Z := 900 * 1000000000.

(** ** Discovery and download *)

(** [approvalVisible] is [visible] on the version's status. *)
Definition approvalVisible (status : option string) : bool :=
  match status with None => true | Some s => String.eqb s VersionApprovalStatusApproved end.

Definition resolveConfig (name : string) (k : TerraformMirrorConfig -> P reply) : P reply :=
  if String.eqb name "" then fail 400 "Mirror name is required"
  else
    let! cfg := GetByName name in
    match cfg with
    | Err _ => fail 500 "Failed to look up mirror"
    | Ok None => fail 404 "Mirror not found"
    | Ok (Some cfg) => if negb (cfg_Enabled cfg) then fail 404 "Mirror is not enabled" else k cfg
    end.

Definition ListConfigs : P reply :=
  let! configs := ListEnabled in
  match configs with
  | Err _ => fail 500 "Failed to list mirror configs"
  | Ok configs =>
      ret (200, BSummaries (map (fun cfg => {| sm_Name := cfg_Name cfg; sm_Description := cfg_Description cfg;
                                               sm_Tool := cfg_Tool cfg |}) configs))
  end.

Definition ListVersionsHandler (name : string) : P reply :=
  resolveConfig name (fun cfg =>
    let! versions := ListVersions (cfg_ID cfg) true in
    match versions with
    | Err _ => fail 500 "Failed to list versions"
    | Ok versions =>
        let shown := List.filter (fun v => approvalVisible (v_ApprovalStatus v)) versions in
        ret (200, BVersions shown (Z.of_nat (length shown)))
    end).

Definition GetLatestVersionHandler (name : string) : P reply :=
  resolveConfig name (fun cfg =>
    let! version := GetLatestVersion (cfg_ID cfg) in
    match version with
    | Err _ => fail 500 "Failed to get latest version"
    | Ok None => fail 404 "No latest version available"
    | Ok (Some version) =>
        let! platforms := ListPlatformsForVersion (v_ID version) in
        ret (200, BVersion version (match platforms with Ok ps => ps | Err _ => [] end))
    end).

Definition GetVersionHandler (name version : string) : P reply :=
  match ValidateSemver version with
  | Some _ => fails 400 "Invalid version format"
  | None =>
      resolveConfig name (fun cfg =>
        let! found := GetVersionByString (cfg_ID cfg) version in
        match found with
        | Err _ => fail 500 "Failed to query version"
        | Ok None => fails 404 "Version not found or not yet synced"
        | Ok (Some v) =>
            if String.eqb (v_SyncStatus v) "pending" || negb (approvalVisible (v_ApprovalStatus v))
            then fails 404 "Version not found or not yet synced"
            else
              let! platforms := ListPlatformsForVersion (v_ID v) in
              ret (200, BVersion v (match platforms with
                                    | Ok ps => List.filter (fun p => String.eqb (p_SyncStatus p) "synced") ps
                                    | Err _ => []
                                    end))
        end)
  end.

(** The URL of an optional stored file; a failure leaves it empty. *)
Definition optional_url (key : option string) : P string :=
  match key with
  | None => ret ""
  | Some k =>
      if String.eqb k "" then ret ""
      else let! url := ext (be_GetURL k url_ttl) in
           ret match url with Ok u => u | Err _ => "" end
  end.

(** The counter and the audit row, whose failures are only logged. *)
Definition record_download (audited : bool) (c : caller) (v : TerraformVersion)
  (p : TerraformVersionPlatform) : P unit :=
  run! IncrementDownloadCount (p_ID p) in
  if audited then
    run! ext (CreateAuditLog {|
      au_Action := "GET " +:+ RedactSensitivePath (cl_Path c); au_ResourceType := "terraform_binary";
      au_ResourceID := v_ID v; au_IPAddress := cl_IP c;
      au_UserID := cl_User c; au_OrganizationID := cl_Organization c |}) in
    ret tt
  else ret tt.

Definition DownloadBinary (audited : bool) (c : caller) (name version os arch : string) : P reply :=
  match ValidateSemver version with
  | Some _ => fails 400 "Invalid version format"
  | None =>
  match ValidatePlatform os arch with
  | Some e => fails 400 (Error e)
  | None =>
      resolveConfig name (fun cfg =>
        let! found := GetVersionByString (cfg_ID cfg) version in
        match found with
        | Err _ => fail 500 "Failed to query version"
        | Ok None => fails 404 "Version not found"
        | Ok (Some v) =>
            if negb (approvalVisible (v_ApprovalStatus v)) then fails 404 "Version not found"
            else
              let! platform := GetPlatform (v_ID v) os arch in
              match platform with
              | Err _ => fail 500 "Failed to query platform"
              | Ok None => fails 404 "Platform not found for this version"
              | Ok (Some p) =>
                  match p_StorageKey p with
                  | Some key =>
                      if String.eqb (p_SyncStatus p) "synced" then
                        let! url := ext (be_GetURL key url_ttl) in
                        match url with
                        | Err _ => fail 500 "Failed to generate download URL"
                        | Ok url =>
                            let! shasums := optional_url (v_SumsStorageKey v) in
                            let! sig := optional_url (v_SigStorageKey v) in
                            run! record_download audited c v p in
                            ret (200, BDownload {|
                              dl_OS := p_OS p; dl_Arch := p_Arch p; dl_Version := v_Version v;
                              dl_Filename := p_Filename p; dl_SHA256 := p_SHA256 p;
                              dl_DownloadURL := url; dl_ShasumsURL := shasums;
                              dl_ShasumsSignatureURL := sig |})
                        end
                      else ret (503, BNotReady "Binary not yet available" (p_SyncStatus p))
                  | None => ret (503, BNotReady "Binary not yet available" (p_SyncStatus p))
                  end
              end
        end)
  end
  end.

(** ** Administration *)

(** The decoded body of a create request, past its binding rules. *)
Record CreateRequest := {
  cr_Name : string;
  cr_Description : option string;
  cr_Tool : string;
  cr_UpstreamURL : string;
  cr_Enabled : option bool;
  cr_PlatformFilter : list string;
  cr_VersionFilter : option string;
  cr_GPGVerify : option bool;
  cr_StableOnly : option bool;
  cr_SyncIntervalHours : option Z;
  cr_RequiresApproval : option bool;
  cr_AutoApproveRules : option string;
  cr_VerifyGitHubAttestation : option bool;
}.

(** An update request; [None] leaves a field as it is. *)
Record UpdateRequest := {
  ur_Name : option string;
  ur_Description : option string;
  ur_Tool : option string;
  ur_UpstreamURL : option string;
  ur_Enabled : option bool;
  ur_PlatformFilter : option (list string);
  ur_VersionFilter : option string;
  ur_GPGVerify : option bool;
  ur_StableOnly : option bool;
  ur_SyncIntervalHours : option Z;
  ur_RequiresApproval : option bool;
  ur_AutoApproveRules : option string;
  ur_VerifyGitHubAttestation : option bool;
}.

Definition error_text (prefix : string) (e : gerror) : string := prefix +:+ Error e.

Definition new_config (req : CreateRequest) (encoded : option string) : TerraformMirrorConfig := {|
  cfg_ID := 0%nat; cfg_Name := cr_Name req; cfg_Description := cr_Description req; cfg_Tool := cr_Tool req;
  cfg_Enabled := default false (cr_Enabled req); cfg_UpstreamURL := cr_UpstreamURL req;
  cfg_PlatformFilter := encoded; cfg_VersionFilter := cr_VersionFilter req;
  cfg_GPGVerify := default true (cr_GPGVerify req); cfg_StableOnly := default true (cr_StableOnly req);
  cfg_SyncIntervalHours := default 24 (cr_SyncIntervalHours req);
  cfg_RequiresApproval := default true (cr_RequiresApproval req);
  cfg_AutoApproveRules := cr_AutoApproveRules req; cfg_LastSyncAt := None; cfg_LastSyncStatus := None;
  cfg_LastSyncError := None; cfg_CustomGPGKey := None; cfg_SkipGPGVerify := false;
  cfg_VerifyGitHubAttestation := default false (cr_VerifyGitHubAttestation req) |}.

Definition with_id (id : uuid) (c : TerraformMirrorConfig) : TerraformMirrorConfig := {|
  cfg_ID := id; cfg_Name := cfg_Name c; cfg_Description := cfg_Description c; cfg_Tool := cfg_Tool c;
  cfg_Enabled := cfg_Enabled c; cfg_UpstreamURL := cfg_UpstreamURL c;
  cfg_PlatformFilter := cfg_PlatformFilter c; cfg_VersionFilter := cfg_VersionFilter c;
  cfg_GPGVerify := cfg_GPGVerify c; cfg_StableOnly := cfg_StableOnly c;
  cfg_SyncIntervalHours := cfg_SyncIntervalHours c; cfg_RequiresApproval := cfg_RequiresApproval c;
  cfg_AutoApproveRules := cfg_AutoApproveRules c; cfg_LastSyncAt := cfg_LastSyncAt c;
  cfg_LastSyncStatus := cfg_LastSyncStatus c; cfg_LastSyncError := cfg_LastSyncError c;
  cfg_CustomGPGKey := cfg_CustomGPGKey c; cfg_SkipGPGVerify := cfg_SkipGPGVerify c;
  cfg_VerifyGitHubAttestation := cfg_VerifyGitHubAttestation c |}.

(** [input] is the bound request or the binding error; [egress] the guard. *)
Definition CreateConfig (egress : option Guard) (input : res CreateRequest) : P reply :=
  match input with
  | Err e => fail 400 (Error e)
  | Ok req =>
      let! invalid := ext (ValidateURL egress (cr_UpstreamURL req)) in
      match invalid with
      | Some e => fail 400 (error_text "Invalid upstream_url: " e)
      | None =>
          let! existing := GetByName (cr_Name req) in
          match existing with
          | Err e => fail 500 (error_text "Failed to check existing config: " e)
          | Ok (Some _) => fail 409 "A Terraform mirror config with this name already exists"
          | Ok None =>
              match EncodePlatformFilter (cr_PlatformFilter req) with
              | Err e => fail 400 (error_text "Invalid platform_filter: " e)
              | Ok encoded =>
                  let cfg := new_config req encoded in
                  let! created := Create cfg in
                  match created with
                  | Err e => fail 500 (error_text "Failed to create config: " e)
                  | Ok id => ret (201, BConfig (with_id id cfg))
                  end
              end
          end
      end
  end.

Definition ListConfigsAdmin : P reply :=
  let! configs := ListAll in
  match configs with
  | Err e => fail 500 (error_text "Failed to list configs: " e)
  | Ok configs => ret (200, BConfigs configs (Z.of_nat (length configs)))
  end.

Definition parseMirrorID (id : option uuid) (k : uuid -> P reply) : P reply :=
  match id with None => fail 400 "Invalid mirror config ID" | Some id => k id end.

(** Load the configuration; [what] is the text of the 500. *)
Definition with_config (what : string) (id : uuid) (k : TerraformMirrorConfig -> P reply) : P reply :=
  let! cfg := GetByID id in
  match cfg with
  | Err e => fail 500 (error_text what e)
  | Ok None => fail 404 "Mirror config not found"
  | Ok (Some cfg) => k cfg
  end.

Definition GetConfig (id : option uuid) : P reply :=
  parseMirrorID id (fun id => with_config "Failed to get config: " id (fun cfg => ret (200, BConfig cfg))).

Definition GetStatus (id : option uuid) : P reply :=
  parseMirrorID id (fun id => with_config "Failed to get config: " id (fun cfg =>
    let! stats := CountVersionStats id in
    let '(versions, platforms, pending) := match stats with Ok s => s | Err _ => (0, 0, 0)%nat end in
    let! latest := GetLatestVersion id in
    ret (200, BStatus cfg versions platforms pending
                (match latest with Ok (Some v) => Some (v_Version v) | _ => None end)))).

(** The fields an update request sets; [name] and [url] are those already checked. *)
Definition merged (cfg : TerraformMirrorConfig) (req : UpdateRequest) (encoded : option string)
  : TerraformMirrorConfig := {|
  cfg_ID := cfg_ID cfg; cfg_Name := default (cfg_Name cfg) (ur_Name req);
  cfg_Description := coalesce (ur_Description req) (cfg_Description cfg);
  cfg_Tool := default (cfg_Tool cfg) (ur_Tool req); cfg_Enabled := default (cfg_Enabled cfg) (ur_Enabled req);
  cfg_UpstreamURL := default (cfg_UpstreamURL cfg) (ur_UpstreamURL req);
  cfg_PlatformFilter := match ur_PlatformFilter req with Some _ => encoded | None => cfg_PlatformFilter cfg end;
  cfg_VersionFilter := coalesce (ur_VersionFilter req) (cfg_VersionFilter cfg);
  cfg_GPGVerify := default (cfg_GPGVerify cfg) (ur_GPGVerify req);
  cfg_StableOnly := default (cfg_StableOnly cfg) (ur_StableOnly req);
  cfg_SyncIntervalHours := default (cfg_SyncIntervalHours cfg) (ur_SyncIntervalHours req);
  cfg_RequiresApproval := default (cfg_RequiresApproval cfg) (ur_RequiresApproval req);
  cfg_AutoApproveRules := coalesce (ur_AutoApproveRules req) (cfg_AutoApproveRules cfg);
  cfg_LastSyncAt := cfg_LastSyncAt cfg; cfg_LastSyncStatus := cfg_LastSyncStatus cfg;
  cfg_LastSyncError := cfg_LastSyncError cfg; cfg_CustomGPGKey := cfg_CustomGPGKey cfg;
  cfg_SkipGPGVerify := cfg_SkipGPGVerify cfg;
  cfg_VerifyGitHubAttestation := default (cfg_VerifyGitHubAttestation cfg) (ur_VerifyGitHubAttestation req) |}.

(** A changed name must be free. *)
Definition check_name (cfg : TerraformMirrorConfig) (name : option string) (k : P reply) : P reply :=
  match name with
  | Some n =>
      if String.eqb n (cfg_Name cfg) then k
      else
        let! existing := GetByName n in
        match existing with
        | Err e => fail 500 (error_text "Failed to check name: " e)
        | Ok (Some _) => fail 409 "A mirror config with this name already exists"
        | Ok None => k
        end
  | None => k
  end.

Definition check_upstream (egress : option Guard) (url : option string) (k : P reply) : P reply :=
  match url with
  | Some u =>
      let! invalid := ext (ValidateURL egress u) in
      match invalid with
      | Some e => fail 400 (error_text "Invalid upstream_url: " e)
      | None => k
      end
  | None => k
  end.

Definition UpdateConfig (egress : option Guard) (id : option uuid) (input : res UpdateRequest) : P reply :=
  parseMirrorID id (fun id =>
    match input with
    | Err e => fail 400 (Error e)
    | Ok req =>
        with_config "Failed to load config: " id (fun cfg =>
          check_name cfg (ur_Name req) (
          check_upstream egress (ur_UpstreamURL req) (
            match EncodePlatformFilter (default [] (ur_PlatformFilter req)) with
            | Err e => fail 400 (error_text "Invalid platform_filter: " e)
            | Ok encoded =>
                let cfg := merged cfg req encoded in
                let! updated := Update cfg in
                match updated with
                | Err e => fail 500 (error_text "Failed to update config: " e)
                | Ok _ => ret (200, BConfig cfg)
                end
            end)))
    end).

(** The keys of a version's stored files, in the order they are deleted. *)
Definition stored_key (key : option string) : list string :=
  match key with Some k => if String.eqb k "" then [] else [k] | None => [] end.

Fixpoint delete_keys (keys : list string) : P unit :=
  match keys with
  | [] => ret tt
  | k :: keys' => run! ext (be_Delete k) in delete_keys keys'
  end.

Definition deleteVersionArtifacts (v : TerraformVersion) : P unit :=
  let! platforms := ListPlatformsForVersion (v_ID v) in
  run! delete_keys (match platforms with
                    | Ok ps => concat (map (fun p => stored_key (p_StorageKey p)) ps)
                    | Err _ => []
                    end) in
  delete_keys (stored_key (v_SumsStorageKey v) ++ stored_key (v_SigStorageKey v)).

Definition DeleteConfig (id : option uuid) : P reply :=
  parseMirrorID id (fun id => with_config "Failed to look up config: " id (fun cfg =>
    let! versions := ListVersions id false in
    run! (match versions with Ok vs => for_each vs deleteVersionArtifacts | Err _ => ret tt end) in
    let! deleted := TfMirrorRepo.Delete id in
    match deleted with
    | Err e => fail 500 (error_text "Failed to delete config: " e)
    | Ok _ => ret (200, BMessage "Mirror config deleted")
    end)).

Definition TriggerSyncHandler (id : option uuid) : P reply :=
  parseMirrorID id (fun id => with_config "Failed to look up config: " id (fun cfg =>
    match TriggerSync with
    | None => fail 503 "Sync job not initialised"
    | Some trigger =>
        let! err := ext (trigger id) in
        match err with
        | Some e => fail 503 (Error e)
        | None => ret (202, BMessage "Sync enqueued")
        end
    end)).

(** [limit] and [offset] as the query gives them; text that is no number counts as 0. *)
Definition page_limit (limit : option string) : Z :=
  let n := fst (atoi (default "100" limit)) in
  if 1000 <? n then 1000 else if n <? 1 then 1 else n.
Definition page_offset (offset : option string) : Z :=
  let n := fst (atoi (default "0" offset)) in if n <? 0 then 0 else n.

Fixpoint attach_platforms (vs : list TerraformVersion)
  : P (list (TerraformVersion * list TerraformVersionPlatform)) :=
  match vs with
  | [] => ret []
  | v :: vs' =>
      let! ps := ListPlatformsForVersion (v_ID v) in
      let! rest := attach_platforms vs' in
      ret ((v, match ps with Ok ps => ps | Err _ => [] end) :: rest)
  end.

Definition ListVersionsAdmin (id : option uuid) (syncedOnly withPlatforms : bool)
  (limit offset : option string) : P reply :=
  parseMirrorID id (fun id => with_config "Failed to look up config: " id (fun _ =>
    let limit := page_limit limit in
    let offset := page_offset offset in
    let! page := ListVersionsPaginated id syncedOnly limit offset in
    match page with
    | Err e => fail 500 (error_text "Failed to list versions: " e)
    | Ok (vs, total) =>
        let! attached := (if withPlatforms then attach_platforms vs
                          else ret (map (fun v => (v, [])) vs)) in
        ret (200, BPage attached total limit offset)
    end)).

(** A version by its string; no check that the configuration exists. *)
Definition with_version (what : string) (id : option uuid) (version : string)
  (k : TerraformVersion -> P reply) : P reply :=
  parseMirrorID id (fun id =>
    let! v := GetVersionByString id version in
    match v with
    | Err e => fail 500 (error_text what e)
    | Ok None => fail 404 "Version not found"
    | Ok (Some v) => k v
    end).

Definition GetVersionAdmin (id : option uuid) (version : string) : P reply :=
  with_version "Failed to load version: " id version (fun v =>
    let! platforms := ListPlatformsForVersion (v_ID v) in
    ret (200, BVersion v (match platforms with Ok ps => ps | Err _ => [] end))).

Definition DeleteVersionHandler (id : option uuid) (version : string) : P reply :=
  with_version "Failed to look up version: " id version (fun v =>
    run! deleteVersionArtifacts v in
    let! deleted := DeleteVersion (v_ID v) in
    match deleted with
    | Err e => fail 500 (error_text "Failed to delete version: " e)
    | Ok _ => ret (200, BMessage "Version deleted")
    end).

Definition DeprecateVersion (id : option uuid) (version : string) : P reply :=
  with_version "Failed to look up version: " id version (fun v =>
    let! updated := SetVersionDeprecated (v_ID v) true in
    match updated with
    | Err e => fail 500 (error_text "Failed to deprecate version: " e)
    | Ok _ => ret (200, BMessage "Version deprecated")
    end).

Definition UndeprecateVersion (id : option uuid) (version : string) : P reply :=
  with_version "Failed to look up version: " id version (fun v =>
    let! updated := SetVersionDeprecated (v_ID v) false in
    match updated with
    | Err e => fail 500 (error_text "Failed to undeprecate version: " e)
    | Ok _ => ret (200, BMessage "Version deprecation cleared")
    end).

Definition history_limit (limit : option string) : Z :=
  match limit with
  | None => 50
  | Some s =>
      if String.eqb s "" then 50
      else match atoi s with (n, None) => if 0 <? n then n else 50 | _ => 50 end
  end.

Definition GetSyncHistory (id : option uuid) (limit : option string) : P reply :=
  parseMirrorID id (fun id => with_config "Failed to look up config: " id (fun _ =>
    let! history := ListSyncHistory id (history_limit limit) in
    match history with
    | Err e => fail 500 (error_text "Failed to load history: " e)
    | Ok history => ret (200, BHistory history (Z.of_nat (length history)))
    end)).

Definition ListPlatforms (id : option uuid) (version : string) : P reply :=
  with_version "Failed to look up version: " id version (fun v =>
    let! platforms := ListPlatformsForVersion (v_ID v) in
    match platforms with
    | Err e => fail 500 (error_text "Failed to list platforms: " e)
    | Ok platforms => ret (200, BPlatforms platforms)
    end).
End Handlers.
