(* ===== verification/BinariesSafety.v ===== *)
(** * What the binary mirror serves and deletes

    Theorems about the endpoints of [Binaries]: which rows a client may see, what a
    new mirror must satisfy, what a deletion touches, and who passes the gate. *)

From S2P Require Import Prelude GoStrings AutoApprove Validation Os LocalStorage StorageSpec Backend.
From S2P Require Import TfMirrorRepo TfMirrorSync IpAddr Egress EgressSafety Hoare Binaries.
From stdpp Require Import gmap.
#[local] Open Scope Z_scope.

(** ** Statements over the mirror's tables *)
Section Rules.
Context {Y : Type}.

Lemma triple_tsql {A} op (f : tfdb -> res A * tfdb) (Pre : mir Y -> Prop) (Post : res A -> mir Y -> Prop) :
  (forall s, Pre s -> Post (Err (ErrDB op)) s) ->
  (forall t y, Pre (Mir t y) -> Post (fst (f t)) (Mir (snd (f t)) y)) ->
  triple Pre (tsql op f) Post.
Proof.
  intros He Hf w HP. unfold tsql, db. destruct (st w) as [t y] eqn:E.
  destruct (faults w) as [|[] fs]; cbn; rewrite ?E; auto.
Qed.

Lemma triple_tquery {A} op (f : tfdb -> res A) (Pre : mir Y -> Prop) (Post : res A -> mir Y -> Prop) :
  (forall s, Pre s -> Post (Err (ErrDB op)) s) ->
  (forall t y, Pre (Mir t y) -> Post (f t) (Mir t y)) -> triple Pre (tquery op f) Post.
Proof. intros He Hf. by apply triple_tsql. Qed.

Lemma triple_ext {A} (c : prog Y A) (Pre : mir Y -> Prop) (Post : A -> mir Y -> Prop) :
  (forall t y, Pre (Mir t y) -> Post (fst (c y)) (Mir t (snd (c y)))) -> triple Pre (ext c) Post.
Proof. intros Hc w HP. cbn. destruct (st w) as [t y]. by apply Hc. Qed.
End Rules.

Section Serving.
Context {Y Conn : Type} `{GoSort} `{!GoSortLaws} `{GoVersion} `{StringsCodec}.
Context `{Backend Y} `{Audit Y} `{SyncJob Y} `{!UrlLib} `{!Network Conn Y}.
Context (t0 : tfdb).

(** The tables have not changed. *)
Definition still (s : mir Y) : Prop := tdb s = t0.

#[local] Ltac branch := match goal with |- context [if ?b then _ else _] => destruct b eqn:? end.

(** What a client of the mirror called [name] may see. *)
Definition served (name : string) (v : TerraformVersion) : Prop :=
  In v (terraform_versions t0) /\ approvalVisible (v_ApprovalStatus v) = true /\
  exists cfg, In cfg (terraform_mirror_configs t0) /\ cfg_Name cfg = name /\ cfg_Enabled cfg = true /\
              v_ConfigID v = cfg_ID cfg.

(** The enabled configuration of a name. *)
Definition enabled_as (name : string) (cfg : TerraformMirrorConfig) : Prop :=
  exists c, In c (terraform_mirror_configs t0) /\ cfg_Name c = name /\ cfg_Enabled c = true /\ cfg_ID cfg = cfg_ID c.

(** Answers other than 200. *)
Definition refused (r : reply) : Prop := fst r <> 200.

Lemma still_ext {A} (c : prog Y A) : triple still (ext c) (fun _ => still).
Proof. by apply triple_ext. Qed.

Lemma still_fail status message (Q : reply -> Prop) :
  status <> 200 -> (forall r, refused r -> Q r) -> triple still (fail status message) (fun r _ => Q r).
Proof. intros Hs HQ. apply triple_ret. intros s _. by apply HQ. Qed.

Lemma still_fails status message (Q : reply -> Prop) :
  status <> 200 -> (forall r, refused r -> Q r) -> triple still (fails status message) (fun r _ => Q r).
Proof. intros Hs HQ. apply triple_ret. intros s _. by apply HQ. Qed.

(** Reading first, then going on from what was read. *)
Lemma still_then {A} op (f : tfdb -> res A) (k : res A -> prog (env (mir Y)) reply) (Q : reply -> Prop) :
  triple still (k (Err (ErrDB op))) (fun r _ => Q r) ->
  (forall r, f t0 = r -> triple still (k r) (fun r _ => Q r)) ->
  triple still (bind (tquery op f) k) (fun r _ => Q r).
Proof.
  intros He Hk.
  apply (triple_bind _ (fun r s => still s /\ (r = Err (ErrDB op) \/ f t0 = r))).
  - apply triple_tquery; [by intros s Hs; split; [|left]|].
    intros t y Hs. unfold still in Hs. cbn in Hs. subst t. split; [done | by right].
  - intros r w [Hs [-> | <-]]; [by apply He | by apply Hk].
Qed.

Section Answers.
Context (Q : reply -> Prop) (HQ : forall r, refused r -> Q r).

Lemma still_config name k :
  (forall cfg, enabled_as name cfg -> triple still (k cfg) (fun r _ => Q r)) ->
  triple still (resolveConfig name k) (fun r _ => Q r).
Proof.
  intros Hk. unfold resolveConfig. destruct (String.eqb name ""); [by apply still_fail|].
  apply still_then; [by apply still_fail|]. intros r <-.
  destruct (List.find _ _) as [c|] eqn:Hf; cbn; [|by apply still_fail].
  apply find_some in Hf as [Hin Hn]. apply String.eqb_eq in Hn.
  destruct (cfg_Enabled c) eqn:He; cbn; [|by apply still_fail]. apply Hk. by exists c.
Qed.

Lemma served_row name cfg v : enabled_as name cfg -> In v (terraform_versions t0) ->
  v_ConfigID v = cfg_ID cfg -> approvalVisible (v_ApprovalStatus v) = true -> served name v.
Proof.
  intros (c & Hc & Hn & He & Hid) Hv Hcfg Ha. split_and!; [done | done|]. exists c. split_and!; congruence.
Qed.

Lemma still_version cfg version k :
  triple still (k (Err (ErrDB "GetVersionByString"))) (fun r _ => Q r) ->
  triple still (k (Ok None)) (fun r _ => Q r) ->
  (forall v, In v (terraform_versions t0) -> v_ConfigID v = cfg -> v_Version v = version ->
     triple still (k (Ok (Some v))) (fun r _ => Q r)) ->
  triple still (bind (GetVersionByString cfg version) k) (fun r _ => Q r).
Proof.
  intros He Hn Hk. apply still_then; [exact He|]. intros r <-.
  destruct (List.find _ _) as [v|] eqn:Hf; [|exact Hn].
  apply find_some in Hf as [Hin Hm]. bools. apply Hk; [done | by apply Nat.eqb_eq | done].
Qed.
End Answers.

Lemma platforms_listed vid p :
  In p (go_sort platform_before
    (List.filter (fun p => (p_VersionID p =? vid)%nat) (terraform_version_platforms t0))) ->
  In p (terraform_version_platforms t0) /\ p_VersionID p = vid.
Proof.
  intros Hp. apply go_sort_in, filter_In in Hp as [Hin He]. split; [done | by apply Nat.eqb_eq].
Qed.

(** What a 200 answer about the mirror called [name] may contain. *)
Definition exposes (name : string) (r : reply) : Prop :=
  fst r = 200 ->
  match snd r with
  | BVersions vs total =>
      total = Z.of_nat (length vs) /\ forall v, In v vs -> served name v /\ v_SyncStatus v = "synced"
  | BVersion v ps =>
      served name v /\ v_SyncStatus v <> "pending" /\
      forall p, In p ps -> In p (terraform_version_platforms t0) /\ p_VersionID p = v_ID v /\ p_SyncStatus p = "synced"
  | BDownload d =>
      exists v p key y,
        served name v /\ v_Version v = dl_Version d /\
        In p (terraform_version_platforms t0) /\ p_VersionID p = v_ID v /\ p_SyncStatus p = "synced" /\
        p_OS p = dl_OS d /\ p_Arch p = dl_Arch d /\ p_Filename p = dl_Filename d /\ p_SHA256 p = dl_SHA256 d /\
        p_StorageKey p = Some key /\ fst (be_GetURL key url_ttl y) = Ok (dl_DownloadURL d)
  | _ => False
  end.

Lemma refused_exposes name r : refused r -> exposes name r.
Proof. intros Hr E. by destruct Hr. Qed.

Lemma listing_exposes name : triple still (ListVersionsHandler name) (fun r _ => exposes name r).
Proof.
  apply still_config; [apply refused_exposes|]. intros cfg Hcfg.
  apply still_then; [apply still_fail; [done | apply refused_exposes]|]. intros r <-.
  cbv zeta. branch; [|apply still_fail; [done | apply refused_exposes]].
  apply triple_ret. intros s _ _. cbn [fst snd]. split; [done|]. intros v Hv.
  apply filter_In in Hv as [Hv Ha]. apply go_sort_in, filter_In in Hv as [Hv Hl].
  unfold in_listing in Hl. bools. split; [|by destruct (orb_prop _ _ H8) as [|E]; [done | apply String.eqb_eq in E]].
  eapply served_row; [exact Hcfg | done | by apply Nat.eqb_eq | done].
Qed.

Lemma version_exposes name version : triple still (GetVersionHandler name version) (fun r _ => exposes name r).
Proof.
  unfold GetVersionHandler. destruct (ValidateSemver version); [by apply still_fails, refused_exposes|].
  apply still_config; [apply refused_exposes|]. intros cfg Hcfg.
  apply still_version; [by apply still_fail, refused_exposes | by apply still_fails, refused_exposes|].
  intros v Hin Hid Hv. destruct (_ || _) eqn:Hshow; [by apply still_fails, refused_exposes|]. bools.
  assert (Hs : served name v) by by eapply served_row.
  apply still_then; [by apply triple_ret|]. intros r <-. apply triple_ret. intros _ _ _. cbn [fst snd].
  split_and!; [done | done |]. intros p Hp. apply filter_In in Hp as [Hp Hsync].
  apply platforms_listed in Hp as [Hp Hvid]. split_and!; [done | done | by apply String.eqb_eq].
Qed.

(** A program whose answer does not depend on the tables read so far. *)
Lemma still_bind {A} (c : prog (env (mir Y)) A) (k : A -> prog (env (mir Y)) reply) (Q : reply -> Prop) :
  triple still c (fun _ => still) -> (forall a, triple still (k a) (fun r _ => Q r)) ->
  triple still (bind c k) (fun r _ => Q r).
Proof. intros Hc Hk. by apply (triple_bind _ (fun _ => still)). Qed.

Lemma still_optional_url key : triple still (optional_url key) (fun _ => still).
Proof.
  destruct key as [k|]; cbn; [|by apply triple_ret]. destruct (String.eqb k ""); [by apply triple_ret|].
  apply (triple_bind _ (fun _ => still)); [apply still_ext | intros u; by apply triple_ret].
Qed.

(** The answer past the URL of the binary: the other URLs and the bookkeeping. *)
Lemma download_answer audited c v p url name key y :
  served name v -> In p (terraform_version_platforms t0) -> p_VersionID p = v_ID v ->
  p_SyncStatus p = "synced" -> p_StorageKey p = Some key -> fst (be_GetURL key url_ttl y) = Ok url ->
  triple still
    (let! shasums := optional_url (v_SumsStorageKey v) in
     let! sig := optional_url (v_SigStorageKey v) in
     run! record_download audited c v p in
     ret (200, BDownload {|
       dl_OS := p_OS p; dl_Arch := p_Arch p; dl_Version := v_Version v;
       dl_Filename := p_Filename p; dl_SHA256 := p_SHA256 p;
       dl_DownloadURL := url; dl_ShasumsURL := shasums; dl_ShasumsSignatureURL := sig |}))
    (fun r _ => exposes name r).
Proof.
  intros Hs Hp Hv Hsync Hkey Hurl.
  apply still_bind; [apply still_optional_url|]. intros sums.
  apply still_bind; [apply still_optional_url|]. intros sig.
  apply (triple_bind _ (fun _ _ => True)); [done|]. intros _.
  apply triple_ret. intros _ _ _. by exists v, p, key, y.
Qed.

Lemma download_exposes audited c name version os arch :
  triple still (DownloadBinary audited c name version os arch) (fun r _ => exposes name r).
Proof.
  unfold DownloadBinary. destruct (ValidateSemver version); [by apply still_fails, refused_exposes|].
  destruct (ValidatePlatform os arch); [by apply still_fails, refused_exposes|].
  apply still_config; [apply refused_exposes|]. intros cfg Hcfg.
  apply still_version; [by apply still_fail, refused_exposes | by apply still_fails, refused_exposes|].
  intros v Hin Hid Hv. destruct (approvalVisible _) eqn:Ha; cbn [negb]; [|by apply still_fails, refused_exposes].
  assert (Hs : served name v) by by eapply served_row.
  apply still_then; [by apply still_fail, refused_exposes|]. intros r <-.
  destruct (List.find _ _) as [p|] eqn:Hf; [|by apply still_fails, refused_exposes].
  apply find_some in Hf as [Hp Hm]. bools.
  match goal with E : (_ =? _)%nat = true |- _ => apply Nat.eqb_eq in E end.
  destruct (p_StorageKey p) as [key|] eqn:Hkey; [|by apply triple_ret].
  destruct (String.eqb_spec (p_SyncStatus p) "synced") as [Hsync|]; [|by apply triple_ret].
  apply (triple_bind _ (fun r s => still s /\ exists y, fst (be_GetURL key url_ttl y) = r)).
  { apply triple_ext. intros t y Hst. split; [exact Hst | by exists y]. }
  intros [url|e]; [|by apply triple_ret].
  apply (triple_pure _ _ (exists y, fst (be_GetURL key url_ttl y) = Ok url)); [by intros s [_ Hy]|].
  intros [y Hy]. eapply triple_weaken; [by eapply (download_answer audited c) | by intros s [Hst _] | done].
Qed.
End Serving.

(** ** What a mirror must satisfy to be saved *)
Section Saving.
Context {Y Conn : Type} `{StringsCodec} `{!UrlLib} (N : Network Conn Y).
Context (s0 : mir Y).

Definition saved_by (status : Z) (Good : mir Y -> Prop) (r : reply) (s : mir Y) : Prop :=
  fst r = status -> Good s.

Lemma frozen_query {A} op (f : tfdb -> res A) :
  triple (eq s0) (tquery op f) (fun r s => s0 = s /\ (r = Err (ErrDB op) \/ r = f (tdb s0))).
Proof.
  apply triple_tquery; [by intros s <-; split; [|left]|].
  intros t y E. rewrite E. cbn. split; [done | by right].
Qed.

Lemma refuse_save {Pre : mir Y -> Prop} {status message} code Good :
  status <> code -> triple Pre (fail status message) (saved_by code Good).
Proof. intros Hs. apply triple_ret. intros s _ E. by destruct Hs. Qed.

(** Checking a URL leaves the tables alone. *)
Lemma checked_url allowlist g raw Q (k : option gerror -> prog (env (mir Y)) reply) :
  NewGuard allowlist = Ok g -> answers_addresses N ->
  (forall e, triple (fun s => tdb s = tdb s0) (k (Some e)) Q) ->
  (vetted N allowlist raw (mext s0) -> triple (fun s => tdb s = tdb s0) (k None) Q) ->
  triple (eq s0) (bind (ext (ValidateURL (Some g) raw)) k) Q.
Proof.
  intros Hg Hans He Hk.
  apply (triple_bind _ (fun r s => tdb s = tdb s0 /\ (r = None -> vetted N allowlist raw (mext s0)))).
  { apply triple_ext. intros t y E. rewrite E. split; [done|]. by apply validated. }
  intros [e|]; [by eapply triple_weaken; [apply (He e) | by intros s [Hs _] | done]|].
  apply (triple_pure _ _ (vetted N allowlist raw (mext s0))); [by intros s [_ Hv]; apply Hv|].
  intros Hv. by eapply triple_weaken; [apply (Hk Hv) | by intros s [Hs _] | done].
Qed.

(** The configurations after a successful insert. *)
Definition inserted (c : TerraformMirrorConfig) (id : uuid) (s : mir Y) : Prop :=
  (forall c', In c' (terraform_mirror_configs (tdb s0)) -> cfg_Name c' <> cfg_Name c) /\
  terraform_mirror_configs (tdb s) = terraform_mirror_configs (tdb s0) ++ [with_id id c] /\
  terraform_versions (tdb s) = terraform_versions (tdb s0) /\
  terraform_version_platforms (tdb s) = terraform_version_platforms (tdb s0).

Lemma create_inserts req encoded :
  triple (fun s => tdb s = tdb s0) (Create (new_config req encoded))
    (fun r s => forall id, r = Ok id -> inserted (new_config req encoded) id s).
Proof.
  set (c := new_config req encoded).
  apply (triple_bind _ (fun _ s => terraform_mirror_configs (tdb s) = terraform_mirror_configs (tdb s0) /\
    terraform_versions (tdb s) = terraform_versions (tdb s0) /\
    terraform_version_platforms (tdb s) = terraform_version_platforms (tdb s0))).
  { intros w Hw. cbn. by rewrite Hw. }
  intros id. apply triple_tsql; [done|]. intros t y (Hc & Hv & Hp). cbn in Hc, Hv, Hp.
  destruct (existsb _ _) eqn:Hex; cbn [fst snd]; [done|]. intros id' [= <-].
  split_and!; [ | by unfold c; cbn; rewrite Hc | exact Hv | exact Hp].
  intros c' Hin Hn. rewrite <- Hc in Hin. apply not_true_iff_false in Hex. apply Hex, existsb_exists.
  exists c'. split; [done|]. by apply String.eqb_eq.
Qed.

Lemma create_is_vetted allowlist g req :
  NewGuard allowlist = Ok g -> answers_addresses N ->
  triple (eq s0) (CreateConfig (Some g) (Ok req))
    (saved_by 201 (fun s => vetted N allowlist (cr_UpstreamURL req) (mext s0) /\
       exists id encoded, EncodePlatformFilter (cr_PlatformFilter req) = Ok encoded /\
         inserted (new_config req encoded) id s)).
Proof.
  intros Hg Hans. eapply checked_url; [done | done | intros e; by apply refuse_save|]. intros Hv.
  apply (triple_bind _ (fun _ s => tdb s = tdb s0)).
  { by apply triple_tquery. }
  intros [[c|]|e]; [by apply refuse_save | | by apply refuse_save].
  destruct (EncodePlatformFilter _) as [encoded|e] eqn:He; [|by apply refuse_save].
  eapply triple_bind; [apply create_inserts|]. intros [id|e]; [|by apply refuse_save].
  apply triple_ret. intros s Hins _. split; [done|]. exists id, encoded. auto.
Qed.
End Saving.

(** ** What a deletion touches *)
Section Deleting.
Context {Y : Type} `{GoSort} `{!GoSortLaws} `{BackendLaws Y}.
Context (t0 : tfdb) (y0 : Y).

(** The keys a version's rows name. *)
Definition version_keys (v : TerraformVersion) : list string :=
  concat (map (fun p => stored_key (p_StorageKey p))
    (List.filter (fun p => (p_VersionID p =? v_ID v)%nat) (terraform_version_platforms t0))) ++
  stored_key (v_SumsStorageKey v) ++ stored_key (v_SigStorageKey v).

(** The tables are [t0] and only objects under [ks] may have changed. *)
Definition spares (ks : list string) (s : mir Y) : Prop :=
  tdb s = t0 /\ sane (mext s) /\ forall k, ~ In k ks -> content (mext s) k = content y0 k.

Lemma delete_keys_spares ks keys : incl keys ks -> Forall file_key keys ->
  triple (spares ks) (delete_keys keys) (fun _ => spares ks).
Proof.
  intros Hin Hok. revert Hin. induction Hok as [|k keys Hk _ IH]; intros Hin; [by apply triple_ret|].
  apply (triple_bind _ (fun _ => spares ks)).
  - apply triple_ext. intros t y (Ht & Hs & Hc). destruct (delete_law k y Hs Hk) as (Hs' & Hb & _).
    split_and!; [done | done |]. intros k' Hk'. rewrite <- Hc by done. apply Hb.
    intros ->. apply Hk', Hin. by left.
  - intros _. apply IH. intros x Hx. apply Hin. by right.
Qed.

Lemma artifacts_spares v : Forall file_key (version_keys v) ->
  triple (spares (version_keys v)) (deleteVersionArtifacts v) (fun _ => spares (version_keys v)).
Proof.
  intros Hok. pose proof Hok as [Hp Ho]%Forall_app.
  apply (triple_bind _ (fun r s => spares (version_keys v) s /\
    forall ps, r = Ok ps -> incl ps
      (List.filter (fun p => (p_VersionID p =? v_ID v)%nat) (terraform_version_platforms t0)))).
  { apply triple_tquery; [by intros s Hs; split|]. intros t y Hs. split; [exact Hs|].
    destruct Hs as [Ht _]. cbn in Ht. subst t. intros ps [= <-] p. apply go_sort_in. }
  clear Hp. intros r. set (keys := match r with Ok ps => _ | Err _ => [] end).
  apply (triple_pure _ _ (incl keys (version_keys v))).
  { intros s [_ Hps]. destruct r as [ps|e]; [|by intros x []]. intros x (l & Hl & Hx)%in_concat.
    apply in_map_iff in Hl as (p & <- & Hp). apply in_app_iff. left. apply in_concat.
    eexists. split; [|exact Hx]. apply (in_map (fun p => stored_key (p_StorageKey p))), (Hps ps); [done | exact Hp]. }
  intros Hin. apply (triple_bind _ (fun _ => spares (version_keys v))).
  - eapply triple_weaken; [apply (delete_keys_spares _ keys Hin) | by intros s [Hs _] | done].
    apply List.Forall_forall. intros k Hk. eapply List.Forall_forall; [exact Hok | by apply Hin].
  - intros _. apply delete_keys_spares; [|exact Ho]. intros k Hk. apply in_app_iff. by right.
Qed.

(** The tables once the version is gone. *)
Definition without (v : TerraformVersion) : tfdb :=
  on_versions (List.filter (fun v' => negb (v_ID v' =? v_ID v)%nat))
    (on_platforms (List.filter (fun p => negb (p_VersionID p =? v_ID v)%nat)) t0).

(** Deleting [version] of the mirror [id]: its rows go or nothing does, and no other
    object changes. *)
Definition deletes (id : uuid) (version : string) (r : reply) (s : mir Y) : Prop :=
  match List.find (fun v => (v_ConfigID v =? id)%nat && String.eqb (v_Version v) version)
          (terraform_versions t0) with
  | Some v => (tdb s = if fst r =? 200 then without v else t0) /\
              forall k, ~ In k (version_keys v) -> content (mext s) k = content y0 k
  | None => fst r <> 200 /\ tdb s = t0 /\ forall k, content (mext s) k = content y0 k
  end.

Lemma delete_version_deletes id version :
  (forall v, In v (terraform_versions t0) -> Forall file_key (version_keys v)) ->
  triple (spares []) (DeleteVersionHandler (Some id) version) (deletes id version).
Proof.
  intros Hok. unfold deletes. set (found := List.find _ _).
  apply (triple_bind _ (fun r s => spares [] s /\ (r = Err (ErrDB "GetVersionByString") \/ r = Ok found))).
  { apply triple_tquery; [by intros s Hs; split; [|left]|]. intros t y Hs. split; [exact Hs|]. right.
    destruct Hs as [Ht _]. cbn in Ht. by subst t. }
  intros r. apply (triple_pure _ _ (r = Err (ErrDB "GetVersionByString") \/ r = Ok found)); [by intros s [_ Hr]|].
  intros [-> | ->].
  { apply triple_ret. intros s [(Ht & _ & Hc) _]. destruct found; split_and!; auto. }
  destruct found as [v|] eqn:Hf; [|apply triple_ret; intros s [(Ht & _ & Hc) _]; split_and!; auto].
  apply find_some in Hf as [Hin _].
  apply (triple_bind _ (fun _ => spares (version_keys v))).
  { eapply triple_weaken; [apply artifacts_spares, Hok, Hin | | done].
    intros s [(Ht & Hs & Hc) _]. split_and!; auto. }
  intros _.
  apply (triple_bind _ (fun r s => (tdb s = if is_ok r then without v else t0) /\
    forall k, ~ In k (version_keys v) -> content (mext s) k = content y0 k)).
  { apply triple_tsql; [intros s (Ht & _ & Hc); auto|]. intros t y (Ht & _ & Hc). cbn in Ht. subst t. auto. }
  intros [u|e]; by apply triple_ret.
Qed.
End Deleting.

(** ** Who passes the gate *)

(** The clients a setting admits: those of a listed network, those with a verified
    certificate chain, and everyone when the gate is off. *)
Definition admits (cfg : Gate.BinaryMirrorConfig) (c : Gate.peer) : Prop :=
  (Gate.Auth cfg = "allowlist" /\ exists ip e net a n,
     ParseIP (Gate.ClientIP c) = Some ip /\ e ∈ Gate.Allowlist cfg /\ ParseCIDR e = Some net /\
     names_net e a n /\ covers a n ip = true) \/
  (Gate.Auth cfg = "mtls" /\ exists chains, Gate.VerifiedChains c = Some (S chains)) \/
  (Gate.Auth cfg <> "allowlist" /\ Gate.Auth cfg <> "mtls").

Lemma allowlist_admits cidrs c : Gate.binaryMirrorAllowlistMiddleware cidrs c = None <->
  exists ip e net a n, ParseIP (Gate.ClientIP c) = Some ip /\ e ∈ cidrs /\ ParseCIDR e = Some net /\
    names_net e a n /\ covers a n ip = true.
Proof.
  unfold Gate.binaryMirrorAllowlistMiddleware, Gate.allowlist_nets.
  destruct (ParseIP (Gate.ClientIP c)) as [ip|] eqn:Hip; [|by split; [|intros (? & ? & ? & ? & ? & ? & _)]].
  pose proof (ParseIP_ok _ _ Hip) as Hok. destruct (existsb _ _) eqn:Hex.
  - apply existsb_exists in Hex as (net & Hin & Hc). apply list_elem_of_In, list_elem_of_omap in Hin as (e & He & Hp).
    destruct (ParseCIDR_spec e net Hp) as (a & n & Hn & Hcov & _). rewrite Hcov in Hc by done.
    split; [intros _|done]. by exists ip, e, net, a, n.
  - split; [done|]. intros (ip' & e & net & a & n & [= <-] & He & Hp & Hn & Hc). exfalso.
    apply not_true_iff_false in Hex. apply Hex, existsb_exists. exists net. split.
    + apply list_elem_of_In, list_elem_of_omap. by exists e.
    + destruct (ParseCIDR_spec e net Hp) as (a' & n' & _ & Hcov & Hu). rewrite Hcov by done.
      by destruct (Hu a n Hn) as [<- <-].
Qed.

(** ** Properties *)

(** C31: Whatever the tables hold and whatever fails, a 200 answer of the version
    listing, of the version lookup or of the download of the mirror [name] mentions
    only versions of an enabled mirror of that name that need no approval or have
    it.  The listing shows fully synced versions only, not the partially synced ones
    its documentation promises as well, and counts what it shows; the lookup never
    shows a pending one, and only its own synced platforms; the download's URL
    is the backend's answer for the key of a synced platform of that version, with
    that row's file name and digest. *)
Theorem public_endpoints_serve_approved `{GoSortLaws, GoVersion} {Y} `{Backend Y, Audit Y}
  audited (c : caller) name version os arch (w : env (mir Y)) :
  exposes (tdb (st w)) name (fst (ListVersionsHandler name w)) /\
  exposes (tdb (st w)) name (fst (GetVersionHandler name version w)) /\
  exposes (tdb (st w)) name (fst (DownloadBinary audited c name version os arch w)).
Proof.
  split_and!; [by apply listing_exposes | by apply version_exposes | by apply download_exposes].
Qed.

(** A mirror is created only for an upstream the egress policy lets the server
    reach, under a name no mirror has, and what is created is one row: the request's
    settings, with approval and signature checks on unless it turns them off. *)
Theorem created_mirror_is_vetted {Y Conn} `{StringsCodec} `{!UrlLib} (N : Network Conn Y) allowlist g
  (req : CreateRequest) (w : env (mir Y)) :
  NewGuard allowlist = Ok g -> answers_addresses N ->
  fst (fst (CreateConfig (Some g) (Ok req) w)) = 201 ->
  let s := st (snd (CreateConfig (Some g) (Ok req) w)) in
  vetted N allowlist (cr_UpstreamURL req) (mext (st w)) /\
  exists id encoded, EncodePlatformFilter (cr_PlatformFilter req) = Ok encoded /\
    inserted (st w) (new_config req encoded) id s.
Proof. intros Hg Hans H201. by apply (create_is_vetted N (st w) allowlist g req Hg Hans w eq_refl). Qed.

(** Deleting a version of a mirror removes the row of that version and its
    platforms, or, when the answer is not 200, no row at all; and of the storage it
    touches only the keys those rows name. *)
Theorem version_deletion_is_local `{GoSortLaws} {Y} `{BackendLaws Y} id version (w : env (mir Y)) :
  sane (mext (st w)) ->
  (forall v, In v (terraform_versions (tdb (st w))) -> Forall file_key (version_keys (tdb (st w)) v)) ->
  deletes (tdb (st w)) (mext (st w)) id version
    (fst (DeleteVersionHandler (Some id) version w)) (st (snd (DeleteVersionHandler (Some id) version w))).
Proof. intros Hs Hk. apply (delete_version_deletes _ _ id version Hk w). by split_and!. Qed.

(** The gate in front of the mirror lets a request through exactly when its setting
    admits the client. *)
Theorem gate_admits_iff cfg c : Gate.BinaryMirrorAuthMiddleware cfg c = None <-> admits cfg c.
Proof.
  unfold Gate.BinaryMirrorAuthMiddleware, admits. destruct (String.eqb_spec (Gate.Auth cfg) "allowlist") as [E|E].
  { rewrite allowlist_admits. rewrite E. split; [by left; split|]. by intros [[_ Hl] | [[E' _] | [E' _]]]. }
  destruct (String.eqb_spec (Gate.Auth cfg) "mtls") as [E'|E']; [|tauto].
  unfold Gate.binaryMirrorMTLSMiddleware. destruct (Gate.VerifiedChains c) as [[|n]|]; cbn.
  - split; [done|]. intros [[? _] | [[_ [k Hk]] | [_ ?]]]; done.
  - split; [|done]. intros _. right. left. split; [done|]. by exists n.
  - split; [done|]. intros [[? _] | [[_ [k Hk]] | [_ ?]]]; done.
Qed.

Module Demo.
#[export] Instance sort : GoSort := stable_sort.
#[export] Instance sort_laws : GoSortLaws := stable_sort_laws.
#[export] Instance versions : GoVersion := release_version.
#[export] Instance sha : Sha256 := fun d => "sha-" +:+ d.
#[export] Instance strings : StringsCodec := {|
  unmarshal_strings s := Ok [s]; marshal_strings l := Ok (String.concat "," l) |}.
#[export] Instance audit : Audit (env fs) := {| CreateAuditLog _ := ret (Ok tt) |}.

Definition registry : LocalStorage :=
  {| basePath := "/srv/registry"; serveDirectly := true; baseURL := "" |}.
Lemma demo_mirror_disk : named registry.
Proof. by exists ["srv"], "registry". Qed.
#[export] Instance backend : Backend (env fs) := local_backend [] 0 registry.
#[export] Instance backend_laws : BackendLaws (env fs) := local_backend_laws [] 0 registry demo_mirror_disk.

#[export] Instance urls : UrlLib := {| url_Parse := fun s =>
  if String.eqb s "https://good.example/x"
  then Ok {| Scheme := "https"; Host := "good.example"; url_text := s |}
  else if String.eqb s "http://10.0.0.7/x"
  then Ok {| Scheme := "http"; Host := "10.0.0.7"; url_text := s |}
  else Err (ErrMsg "parse") |}.
#[export] Instance names : Network nat (env fs) := {|
  LookupIPAddr host y := (if String.eqb host "good.example" then Ok [[1; 1; 1; 1]] else Err (ErrExt "no such host"), y);
  dial _ _ y := (Err (ErrExt "refused"), y) |}.
Lemma mirror_names_answer : answers_addresses names.
Proof.
  intros host y ips. cbn. destruct (String.eqb _ _); intros [= <-].
  repeat constructor; cbn; try (by left); unfold is_byte; lia.
Qed.
Definition guard : Guard := {| allowHosts := ∅; allowNets := [] |}.

Definition request (name url : string) : CreateRequest := {|
  cr_Name := name; cr_Description := None; cr_Tool := "terraform"; cr_UpstreamURL := url;
  cr_Enabled := Some true; cr_PlatformFilter := []; cr_VersionFilter := None; cr_GPGVerify := None;
  cr_StableOnly := None; cr_SyncIntervalHours := None; cr_RequiresApproval := None;
  cr_AutoApproveRules := None; cr_VerifyGitHubAttestation := None |}.

Definition row (id mirror : uuid) (approval : option string) : TerraformVersion := {|
  v_ID := id; v_ConfigID := mirror; v_Version := "1.9.0"; v_IsLatest := true; v_IsDeprecated := false;
  v_ReleaseDate := None; v_SyncStatus := "synced"; v_SyncError := None; v_SyncedAt := None;
  v_ApprovalStatus := approval; v_SumsStorageKey := None; v_SigStorageKey := None |}.

(** The key the sync job gives the build, whatever the mirror. *)
Definition key : string := "terraform-binaries/1.9.0/linux/amd64/terraform_1.9.0_linux_amd64.zip".
Definition build (id version : uuid) : TerraformVersionPlatform := {|
  p_ID := id; p_VersionID := version; p_OS := "linux"; p_Arch := "amd64"; p_UpstreamURL := "u";
  p_Filename := "terraform_1.9.0_linux_amd64.zip"; p_SHA256 := "sha-zip"; p_StorageKey := Some key;
  p_StorageBackend := None; p_SHA256Verified := true; p_GPGVerified := true; p_AttestationVerified := false;
  p_SyncStatus := "synced"; p_SyncError := None; p_SyncedAt := None; p_DownloadCount := 0 |}.

(** Two mirrors of one tool; the second one has not approved the version. *)
Definition tables : tfdb := {|
  terraform_mirror_configs := [with_id 1%nat (new_config (request "one" "https://good.example/x") None);
                               with_id 2%nat (new_config (request "two" "https://good.example/x") None)];
  terraform_versions := [row 3%nat 1%nat (Some "approved"); row 4%nat 2%nat (Some "pending_approval")];
  terraform_version_platforms := [build 5%nat 3%nat; build 6%nat 4%nat];
  terraform_sync_history := []; next_uuid := 7%nat |}.

Definition disk : env fs := quiet (Fs {[ ["srv"] := Dir; ["srv"; "registry"] := Dir ]} []).
Definition stored : env fs := snd (be_Upload key ("zip", None) 3 disk).
Definition start : env (mir (env fs)) := quiet (Mir tables stored).
Definition client : caller := {| cl_Path := "/d"; cl_IP := "1.2.3.4"; cl_User := None; cl_Organization := None |}.

Definition download (name : string) (w : env (mir (env fs))) : Z * option string :=
  let r := fst (DownloadBinary true client name "1.9.0" "linux" "amd64" w) in
  (fst r, match snd r with BDownload d => Some (dl_DownloadURL d) | _ => None end).

Example downloads : map (fun n => download n start) ["one"; "two"; "three"] =
  [(200, Some ("/v1/files/" +:+ key)); (404, None); (404, None)].
Proof. by vm_compute. Qed.

(** The two mirrors share the key: deleting the version of the second one takes the
    binary of the first one away, whose row still says it is there. *)
Definition after_delete : env (mir (env fs)) := snd (DeleteVersionHandler (Some 2%nat) "1.9.0" start).
Example deletion_takes_the_other_mirrors_binary :
  content (mext (st start)) key = Some "zip" /\ content (mext (st after_delete)) key = None /\
  List.find (fun p => (p_ID p =? 5)%nat) (terraform_version_platforms (tdb (st after_delete))) = Some (build 5%nat 3%nat) /\
  download "one" start = (200, Some ("/v1/files/" +:+ key)).
Proof. by vm_compute. Qed.

(** A version some of whose platforms failed is looked up but not listed. *)
Definition partial : TerraformVersion := {|
  v_ID := 3%nat; v_ConfigID := 1%nat; v_Version := "1.9.0"; v_IsLatest := true; v_IsDeprecated := false;
  v_ReleaseDate := None; v_SyncStatus := "partial"; v_SyncError := None; v_SyncedAt := None;
  v_ApprovalStatus := Some "approved"; v_SumsStorageKey := None; v_SigStorageKey := None |}.
Definition half_synced : env (mir (env fs)) := quiet (Mir {|
  terraform_mirror_configs := terraform_mirror_configs tables; terraform_versions := [partial];
  terraform_version_platforms := [build 5%nat 3%nat]; terraform_sync_history := []; next_uuid := 7%nat |} stored).
Example partially_synced_versions_are_not_listed :
  (fst (fst (ListVersionsHandler "one" half_synced)), snd (fst (ListVersionsHandler "one" half_synced)),
   fst (fst (GetVersionHandler "one" "1.9.0" half_synced)))
  = (200, BVersions [] 0, 200).
Proof. by vm_compute. Qed.

(** Behind a proxy that ends TLS nobody passes the certificate check. *)
Example no_tls_is_refused :
  Gate.BinaryMirrorAuthMiddleware {| Gate.Auth := "mtls"; Gate.Allowlist := [] |}
    {| Gate.ClientIP := "10.0.0.1"; Gate.VerifiedChains := None |} = Some (403, "client certificate required").
Proof. done. Qed.

(** An address without a prefix length is no CIDR: the entry is dropped without a
    word, and with it every client. *)
Example bare_address_admits_nobody :
  Gate.BinaryMirrorAuthMiddleware {| Gate.Auth := "allowlist"; Gate.Allowlist := ["10.0.0.1"] |}
    {| Gate.ClientIP := "10.0.0.1"; Gate.VerifiedChains := None |} = Some (403, "forbidden").
Proof. by vm_compute. Qed.
End Demo.

Import Demo.

Lemma public_endpoints_serve_approved_witness :
  download "one" start = (200, Some ("/v1/files/" +:+ key)) /\
  exposes tables "one" (fst (DownloadBinary true client "one" "1.9.0" "linux" "amd64" start)).
Proof.
  split; [by vm_compute|].
  exact (proj2 (proj2 (public_endpoints_serve_approved true client "one" "1.9.0" "linux" "amd64" start))).
Defined.

Lemma created_mirror_is_vetted_witness :
  fst (fst (CreateConfig (Some guard) (Ok (request "new" "http://10.0.0.7/x")) start)) = 400 /\
  vetted names [] "https://good.example/x" stored.
Proof.
  split; [by vm_compute|].
  apply (created_mirror_is_vetted names [] guard (request "new" "https://good.example/x") start);
    [by vm_compute | apply mirror_names_answer | by vm_compute].
Defined.

Lemma version_deletion_is_local_witness :
  tdb (st after_delete) = without tables (row 4%nat 2%nat (Some "pending_approval")).
Proof.
  assert (Hs : sane (mext (st start))) by (apply closedb_sound; vm_compute; reflexivity).
  assert (Hk : forall v, In v (terraform_versions tables) -> Forall file_key (version_keys tables v)).
  { intros v [<- | [<- | []]]; apply (bool_decide_unpack _); by vm_compute. }
  exact (proj1 (version_deletion_is_local 2%nat "1.9.0" start Hs Hk)).
Defined.
