(* ===== verification/Csrf.v ===== *)
(** * Cross-site request forgery: middleware/csrf.go

    Mutating requests of a cookie session must echo the token of a second cookie in a
    header; those with a bearer session that come from a browser must come from one of
    the deployment's own origins.  Also the cookies that sign-in and sign-out write. *)

From S2P Require Import Prelude GoStrings IpAddr Egress Web AuthMiddleware Hoare.
From stdpp Require Import gmap.
#[local] Open Scope Z_scope.

(** ** Cookies *)

Inductive same_site := Lax | Strict.
Record http_cookie := {
  hc_Name : string;
  hc_Value : string;
  hc_MaxAge : Z;
  hc_HttpOnly : bool;
  hc_SameSite : same_site;
}.

(** All are for the path "/" and secure connections. *)
Definition CSRFCookieName := "tfr_csrf".
Definition CSRFHeaderName := "X-CSRF-Token".
Definition csrfTokenBytes : nat := 32.

(** [base64.URLEncoding] *)
Definition alphabet : string := "ABCDEFGHIJKLMNOPQRSTUVWXYZabcdefghijklmnopqrstuvwxyz0123456789-_".
Definition sextet (z : Z) : ascii := default "="%char (String.get (Z.to_nat (z mod 64)) alphabet).

Fixpoint base64url (bytes : list Z) : string :=
  match bytes with
  | [] => ""
  | [a] => String (sextet (a / 4)) (String (sextet (a mod 4 * 16)) "==")
  | [a; b] => String (sextet (a / 4)) (String (sextet (a mod 4 * 16 + b / 16)) (String (sextet (b mod 16 * 4)) "="))
  | a :: b :: c :: rest =>
      String (sextet (a / 4)) (String (sextet (a mod 4 * 16 + b / 16))
        (String (sextet (b mod 16 * 4 + c / 64)) (String (sextet (c mod 64)) (base64url rest))))
  end.

Example base64url_text : base64url [77; 97; 110; 255; 254] = "TWFu__4=".
Proof. by vm_compute. Qed.

(** [crypto/rand]: so many bytes, or an error *)
Class Randomness (X : Type) := random_bytes : nat -> X -> res (list Z) * X.

Section Cookies.
Context {X : Type} `{Randomness X}.
#[local] Abbreviation P := (prog (env (web X))).

Definition generateCSRFToken : P (res string) :=
  let? b := ident (random_bytes csrfTokenBytes) in ret (Ok (base64url b)).

(** The cookie that is written; none when no token can be made. *)
Definition SetCSRFCookie : P (res http_cookie) :=
  let? token := generateCSRFToken in
  ret (Ok {| hc_Name := CSRFCookieName; hc_Value := token; hc_MaxAge := 86400; hc_HttpOnly := false;
             hc_SameSite := Lax |}).
End Cookies.

Definition ClearCSRFCookie : http_cookie :=
  {| hc_Name := CSRFCookieName; hc_Value := ""; hc_MaxAge := -1; hc_HttpOnly := false; hc_SameSite := Strict |}.

(** ** Origins *)

Record csrf_config := {
  cf_PublicURL : string;
  cf_BaseURL : string;
  cf_AllowedOrigins : list string;
}.

Definition GetPublicURL (cfg : csrf_config) : string :=
  if String.eqb (cf_PublicURL cfg) "" then cf_BaseURL cfg else cf_PublicURL cfg.

Section Middleware.
Context {X : Type} `{UrlLib}.
#[local] Abbreviation P := (prog (env (web X))).

Definition canonicalOrigin (raw : string) : string :=
  match url_Parse (trim_space raw) with
  | Err _ => ""
  | Ok u =>
      if String.eqb (Scheme u) "" || String.eqb (Host u) "" then ""
      else
        let scheme := to_lower (Scheme u) in
        let host := to_lower (Host u) in
        let host := if String.eqb scheme "http" then trim_suffix host ":80"
                    else if String.eqb scheme "https" then trim_suffix host ":443" else host in
        scheme +:+ "://" +:+ host
  end.

(** Wildcards and what is no origin are left out. *)
Definition csrfOriginAllowlist (cfg : csrf_config) : list string :=
  List.filter (fun o => negb (String.eqb o ""))
    (map canonicalOrigin
       (List.filter (fun c => negb (String.eqb c "*")) (GetPublicURL cfg :: cf_BaseURL cfg :: cf_AllowedOrigins cfg))).

(** The Origin header, or the Referer; "null" when it is there but names no origin. *)
Definition requestOrigin : P string :=
  let named raw := let o := canonicalOrigin raw in if String.eqb o "" then "null" else o in
  let! origin := c_GetHeader "Origin" in
  if negb (String.eqb origin "") then ret (named origin)
  else
    let! referer := c_GetHeader "Referer" in
    ret (if negb (String.eqb referer "") then named referer else "").

(** The method in upper case is one without side effects; letters are ASCII. *)
Definition safe_method (m : string) : bool :=
  equal_fold m "GET" || equal_fold m "HEAD" || equal_fold m "OPTIONS".

Definition double_submit : P unit :=
  let! cookieToken := c_Cookie CSRFCookieName in
  match cookieToken with
  | None => c_Abort 403 "CSRF cookie missing"
  | Some cookieToken =>
      if String.eqb cookieToken "" then c_Abort 403 "CSRF cookie missing"
      else
        let! headerToken := c_GetHeader CSRFHeaderName in
        if String.eqb headerToken "" then c_Abort 403 "CSRF token header missing"
        else if String.eqb cookieToken headerToken then c_Next
        else c_Abort 403 "CSRF token mismatch"
  end.

Definition CSRFMiddleware (cfg : csrf_config) : P unit :=
  let allowedOrigins := csrfOriginAllowlist cfg in
  let! m := gets (fun s => method (gin s)) in
  if safe_method m then c_Next
  else
    let! authMethod := c_GetString "auth_method" in
    if String.eqb authMethod "api_key" then c_Next
    else if String.eqb authMethod "jwt" then
      let! origin := requestOrigin in
      if String.eqb origin "" then c_Next
      else if existsb (String.eqb origin) allowedOrigins then c_Next
      else c_Abort 403 "request origin not allowed"
    else double_submit.

(** ** What is the same origin *)

Inductive default_port : string -> string -> Prop :=
| http_port : default_port "http" ":80"
| https_port : default_port "https" ":443".

(** [h'] is [h] with the port written out; [h] does not name that port itself. *)
Definition leaves_out (p h h' : string) : Prop := h' = h +:+ p /\ forall h0, h <> h0 +:+ p.

(** The same host and port, letters in lower case; a port left out is the scheme's. *)
Definition same_authority (scheme h h' : string) : Prop :=
  h = h' \/ exists p, default_port scheme p /\ (leaves_out p h h' \/ leaves_out p h' h).

(** Both are absolute URLs, with the same scheme, host and port, whatever their paths. *)
Definition same_origin (a b : string) : Prop := exists u v,
  url_Parse (trim_space a) = Ok u /\ url_Parse (trim_space b) = Ok v /\
  Scheme u <> "" /\ Host u <> "" /\ Host v <> "" /\ to_lower (Scheme u) = to_lower (Scheme v) /\
  same_authority (to_lower (Scheme u)) (to_lower (Host u)) (to_lower (Host v)).

(** The URLs of the deployment: the public one, the base one and the origins that
    cross-origin requests are allowed from, without the wildcard. *)
Definition own_url (cfg : csrf_config) (d : string) : Prop :=
  d <> "*" /\ (d = cf_PublicURL cfg /\ d <> "" \/ d = cf_BaseURL cfg \/ d ∈ cf_AllowedOrigins cfg).

(** What a browser says of where the request comes from. *)
Definition sent_from (g : ginctx) : string :=
  let origin := default "" (header g !! "Origin") in
  if String.eqb origin "" then default "" (header g !! "Referer") else origin.

Definition how (g : ginctx) : string := match Web.keys g !! "auth_method" with Some (VString v) => v | _ => "" end.

(** What lets a request through. *)
Definition csrf_clear (cfg : csrf_config) (g : ginctx) : Prop :=
  to_lower (method g) ∈ ["get"; "head"; "options"] \/ how g = "api_key" \/
  (how g = "jwt" /\ (sent_from g = "" \/ exists d, own_url cfg d /\ same_origin (sent_from g) d)) \/
  (how g <> "api_key" /\ how g <> "jwt" /\
   exists token, token <> "" /\ cookie g !! CSRFCookieName = Some token /\ default "" (header g !! CSRFHeaderName) = token).

(** ** Origins as texts *)

Lemma no_suffix s p : has_suffix s p = false -> forall h, s <> h +:+ p.
Proof.
  intros E h ->. unfold has_suffix in E. rewrite length_append_s in E.
  replace (String.length h + String.length p - String.length p)%nat with (String.length h) in E by lia.
  rewrite sdrop_app, String.eqb_refl in E. apply andb_false_iff in E as [E%Nat.leb_gt|E]; [lia | done].
Qed.

Lemma trim_suffix_cases s p :
  (exists h, s = h +:+ p /\ trim_suffix s p = h) \/ (forall h, s <> h +:+ p) /\ trim_suffix s p = s.
Proof.
  unfold trim_suffix. destruct (has_suffix s p) eqn:E.
  - left. unfold has_suffix in E. apply andb_true_iff in E as [_ E%String.eqb_eq]. eexists. split; [|done].
    rewrite <- E at 2. apply stake_sdrop.
  - right. split; [by apply no_suffix | done].
Qed.

(** Cutting the port off tells apart what is not the same authority. *)
Lemma trimmed_iff p h h' :
  trim_suffix h p = trim_suffix h' p <-> h = h' \/ leaves_out p h h' \/ leaves_out p h' h.
Proof.
  unfold leaves_out. split.
  - destruct (trim_suffix_cases h p) as [(a & -> & ->)|[Ha ->]], (trim_suffix_cases h' p) as [(b & -> & ->)|[Hb ->]].
    + intros ->. by left.
    + intros ->. right. right. by split.
    + intros ->. right. left. by split.
    + intros ->. by left.
  - intros [->|[[-> Hn]|[-> Hn]]]; [done | | symmetry].
    all: match goal with |- trim_suffix ?x ?q = _ =>
      destruct (trim_suffix_cases x q) as [(a & -> & _)|[_ ->]]; [by destruct (Hn a)|];
      destruct (trim_suffix_cases (x +:+ q) q) as [(b & Eb & ->)|[Hb _]]; [by apply append_inj_r in Eb | by destruct (Hb x)]
    end.
Qed.

Definition bare_host (scheme host : string) : string :=
  if String.eqb scheme "http" then trim_suffix host ":80"
  else if String.eqb scheme "https" then trim_suffix host ":443" else host.

Lemma bare_host_iff scheme h h' : bare_host scheme h = bare_host scheme h' <-> same_authority scheme h h'.
Proof.
  unfold bare_host, same_authority.
  destruct (String.eqb_spec scheme "http") as [->|H1]; [|destruct (String.eqb_spec scheme "https") as [->|H2]].
  - rewrite trimmed_iff. split; [intros [|]; [by left | right; exists ":80"; by split; [constructor|]]|].
    intros [|(p & Hp & Hl)]; [by left | inversion Hp; subst; by right].
  - rewrite trimmed_iff. split; [intros [|]; [by left | right; exists ":443"; by split; [constructor|]]|].
    intros [|(p & Hp & Hl)]; [by left | inversion Hp; subst; by right].
  - split; [by left|]. intros [|(p & Hp & _)]; [done | by inversion Hp; subst].
Qed.

(** A scheme has no colon ([net/url] reads it up to the first one). *)
Definition plain_schemes : Prop := forall raw u, url_Parse raw = Ok u -> char_in ":" (Scheme u) = false.

Lemma lower_colon c : lower c = ":"%char -> c = ":"%char.
Proof. by destruct c as [[] [] [] [] [] [] [] []]. Qed.

Lemma joined_inj s s' h h' : char_in ":" s = false -> char_in ":" s' = false ->
  to_lower s +:+ "://" +:+ h = to_lower s' +:+ "://" +:+ h' -> to_lower s = to_lower s' /\ h = h'.
Proof.
  revert s'. induction s as [|c s IH]; intros [|c' s']; cbn -[String.append]; unfold char_in; cbn -[String.append Ascii.eqb]; intros Hs Hs' E.
  - split; [done|]. by apply (append_inj_l "://") in E.
  - exfalso. injection E as E _. symmetry in E. apply lower_colon in E. subst. done.
  - exfalso. injection E as E _. apply lower_colon in E. subst. done.
  - apply orb_false_iff in Hs as [_ Hs], Hs' as [_ Hs']. injection E as -> E. destruct (IH s' Hs Hs' E) as [-> ->]. done.
Qed.

Lemma canonical_some raw : canonicalOrigin raw <> "" ->
  exists u, url_Parse (trim_space raw) = Ok u /\ Scheme u <> "" /\ Host u <> "" /\
    canonicalOrigin raw = to_lower (Scheme u) +:+ "://" +:+ bare_host (to_lower (Scheme u)) (to_lower (Host u)).
Proof.
  unfold canonicalOrigin, bare_host. destruct (url_Parse (trim_space raw)) as [u|e]; [|done].
  destruct (String.eqb_spec (Scheme u) ""), (String.eqb_spec (Host u) ""); cbn [orb]; try done.
  intros _. by exists u.
Qed.

Lemma same_origin_iff a b : plain_schemes ->
  same_origin a b <-> canonicalOrigin a <> "" /\ canonicalOrigin a = canonicalOrigin b.
Proof.
  intros Hplain. split.
  - intros (u & v & Hu & Hv & Hs & Hh & Hh' & Es & Ea%bare_host_iff). unfold canonicalOrigin, bare_host in *. rewrite Hu, Hv.
    rewrite (proj2 (String.eqb_neq _ _) Hs), (proj2 (String.eqb_neq _ _) Hh), (proj2 (String.eqb_neq _ _) Hh').
    assert (Hs' : Scheme v <> "") by (intros E; rewrite E in Es; by destruct (Scheme u)).
    rewrite (proj2 (String.eqb_neq _ _) Hs'). cbn [orb]. rewrite <- Es, Ea. split; [|done].
    by destruct (to_lower (Scheme u)).
  - intros [Hn E]. assert (Hn' : canonicalOrigin b <> "") by by rewrite <- E.
    destruct (canonical_some a Hn) as (u & Hu & Hs & Hh & Ea), (canonical_some b Hn') as (v & Hv & Hs' & Hh' & Eb).
    rewrite Ea, Eb in E. destruct (joined_inj _ _ _ _ (Hplain _ _ Hu) (Hplain _ _ Hv) E) as [Es Ehost].
    exists u, v. split_and!; try done. apply bare_host_iff. by rewrite Ehost, Es.
Qed.

(** ** Facts *)

(** The origin a browser sent, if one did. *)
Definition origin_of (g : ginctx) : string :=
  if String.eqb (sent_from g) "" then ""
  else let o := canonicalOrigin (sent_from g) in if String.eqb o "" then "null" else o.

Lemma requestOrigin_run w : requestOrigin w = (origin_of (gin (st w)), w).
Proof.
  unfold requestOrigin, origin_of, sent_from, bind, c_GetHeader, gets, ret. cbn.
  destruct (String.eqb_spec (default "" (header (gin (st w)) !! "Origin")) ""); cbn [negb];
    [by destruct (String.eqb _ "") | by rewrite (proj2 (String.eqb_neq _ _) n)].
Qed.

Lemma allowlist_spec cfg o : o ∈ csrfOriginAllowlist cfg <-> o <> "" /\ exists d, own_url cfg d /\ canonicalOrigin d = o.
Proof.
  unfold csrfOriginAllowlist, own_url, GetPublicURL. rewrite list_elem_of_In, filter_In, negb_true_iff, String.eqb_neq, in_map_iff.
  setoid_rewrite filter_In. setoid_rewrite negb_true_iff. setoid_rewrite String.eqb_neq.
  setoid_rewrite list_elem_of_In. cbn [In].
  destruct (String.eqb_spec (cf_PublicURL cfg) "") as [E|E]; rewrite ?E; naive_solver.
Qed.

Lemma own_origin cfg g : plain_schemes -> origin_of g <> "" ->
  origin_of g ∈ csrfOriginAllowlist cfg <-> exists d, own_url cfg d /\ same_origin (sent_from g) d.
Proof.
  intros Hp. rewrite allowlist_spec. unfold origin_of. destruct (String.eqb_spec (sent_from g) "") as [|Hs]; [done|].
  intros _. setoid_rewrite (same_origin_iff _ _ Hp).
  destruct (String.eqb_spec (canonicalOrigin (sent_from g)) "") as [E|E]; [|naive_solver].
  split; [|intros (d & _ & ? & _); done]. intros (_ & d & _ & Hd). exfalso.
  destruct (canonical_some d) as (u & _ & Hsch & _ & Eu); [by rewrite Hd|]. rewrite Hd in Eu.
  assert (Hc : char_in ":" "null" = true); [|done]. rewrite Eu. unfold char_in.
  apply existsb_exists. exists ":"%char. split; [|done].
  generalize (bare_host (to_lower (Scheme u)) (to_lower (Host u))). clear. intros h.
  induction (to_lower (Scheme u)) as [|c s IH]; [by left | right; exact IH].
Qed.

Lemma next_admits (w : env (web X)) : fresh_req (gin (st w)) -> admitted (snd (c_Next w)).
Proof. intros [Ha Hn]. unfold admitted, c_Next, modify, set_gin. cbn. by rewrite Ha, Hn. Qed.

Lemma abort_refuses status msg (w : env (web X)) : fresh_req (gin (st w)) -> refused (snd (c_Abort status msg w)) status.
Proof. intros [Ha Hn]. unfold refused, c_Abort, modify, set_gin. cbn. split; [by eexists | done]. Qed.

Lemma refused_not_admitted (w : env (web X)) status : refused w status -> ~ admitted w.
Proof. by intros [[msg Hm] _] [Ha _]; rewrite Hm in Ha. Qed.

Lemma double_submit_cases w : fresh_req (gin (st w)) ->
  let g := gin (st w) in
  let clear := exists token, token <> "" /\ cookie g !! CSRFCookieName = Some token /\
    default "" (header g !! CSRFHeaderName) = token in
  clear /\ admitted (snd (double_submit w)) \/ ~ clear /\ refused (snd (double_submit w)) 403.
Proof.
  intros Hf g clear. subst g. unfold double_submit, bind, c_Cookie, c_GetHeader, gets. cbn [fst snd].
  destruct (cookie (gin (st w)) !! CSRFCookieName) as [t|] eqn:Hc.
  2:{ right. split; [by intros (? & _ & ? & _)|]. by apply abort_refuses. }
  assert (Hclear : clear -> default "" (header (gin (st w)) !! CSRFHeaderName) = t /\ t <> "")
    by (intros (? & ? & [= ->] & ?); done).
  destruct (String.eqb_spec t "") as [->|Ht].
  { right. split; [by intros [_ ?]%Hclear|]. by apply abort_refuses. }
  destruct (String.eqb_spec (default "" (header (gin (st w)) !! CSRFHeaderName)) "") as [He|He].
  { right. split; [intros [? _]%Hclear; congruence|]. by apply abort_refuses. }
  destruct (String.eqb_spec t (default "" (header (gin (st w)) !! CSRFHeaderName))) as [Heq|Hne].
  - left. split; [by exists t|]. by apply next_admits.
  - right. split; [intros [? _]%Hclear; congruence|]. by apply abort_refuses.
Qed.

Lemma safe_method_iff m : safe_method m = true <-> to_lower m ∈ ["get"; "head"; "options"].
Proof.
  unfold safe_method, equal_fold. cbn [to_lower]. rewrite !orb_true_iff, !String.eqb_eq, !elem_of_cons.
  change (to_lower "GET") with "get". change (to_lower "HEAD") with "head". change (to_lower "OPTIONS") with "options".
  rewrite elem_of_nil. tauto.
Qed.

Lemma csrf_cases cfg w : plain_schemes -> fresh_req (gin (st w)) ->
  csrf_clear cfg (gin (st w)) /\ admitted (snd (CSRFMiddleware cfg w)) \/
  ~ csrf_clear cfg (gin (st w)) /\ refused (snd (CSRFMiddleware cfg w)) 403.
Proof.
  intros Hp Hf. unfold CSRFMiddleware, csrf_clear. rewrite <- safe_method_iff.
  rewrite (bind_run (gets (fun s => method (gin s))) _ w (method (gin (st w))) w eq_refl).
  destruct (safe_method (method (gin (st w)))) eqn:Hm; [left; split; [by left | by apply next_admits]|].
  rewrite (bind_run (c_GetString "auth_method") _ w (how (gin (st w))) w eq_refl).
  destruct (String.eqb_spec (how (gin (st w))) "api_key") as [Hk|Hk]; [left; split; [by right; left | by apply next_admits]|].
  destruct (String.eqb_spec (how (gin (st w))) "jwt") as [Hj|Hj].
  - rewrite (bind_run _ _ _ _ _ (requestOrigin_run w)).
    assert (Hsent : origin_of (gin (st w)) = "" <-> sent_from (gin (st w)) = "").
    { unfold origin_of. destruct (String.eqb_spec (sent_from (gin (st w))) ""); [done|].
      split; [|done]. by destruct (String.eqb_spec (canonicalOrigin (sent_from (gin (st w)))) ""). }
    destruct (String.eqb_spec (origin_of (gin (st w))) "") as [Ho|Ho].
    { left. split; [right; right; left; split; [done | left; by apply Hsent] | by apply next_admits]. }
    pose proof (own_origin cfg (gin (st w)) Hp Ho) as Hown. rewrite list_elem_of_In in Hown.
    destruct (existsb (String.eqb (origin_of (gin (st w)))) (csrfOriginAllowlist cfg)) eqn:Hin.
    + left. apply existsb_exists in Hin as (o & Hin & <-%String.eqb_eq).
      split; [right; right; left; split; [done | right; by apply Hown] | by apply next_admits].
    + right. split; [|by apply abort_refuses].
      intros [|[|[[_ [He|Hin']]|(_ & ? & _)]]]; try done; [by apply Ho, Hsent|]. apply Hown in Hin'.
      assert (existsb (String.eqb (origin_of (gin (st w)))) (csrfOriginAllowlist cfg) = true) as Ht; [|by rewrite Ht in Hin].
      apply existsb_exists. eexists. split; [exact Hin' | by apply String.eqb_eq].
  - destruct (double_submit_cases w Hf) as [[Hc Ha]|[Hc Hr]]; [left | right]; (split; [|done]).
    + by right; right; right.
    + intros [|[|[[? _]|(_ & _ & ?)]]]; done.
Qed.
End Middleware.

(** ** Properties *)

(** C37: A request passes the middleware exactly if its method is GET, HEAD or OPTIONS,
    or it carries an API key, or a bearer session and either neither Origin nor Referer
    or one with the scheme, host and port of a URL of the deployment (its public or base
    URL or an allowed origin, the wildcard apart; a port left out is the scheme's), or, in
    any other case, a token cookie that is not empty and a header that repeats it;
    otherwise it is answered 403.  URLs are cut by the parser, whose schemes have no
    colon. *)
Theorem csrf_passes_iff {X} `{UrlLib} cfg (w : env (web X)) :
  plain_schemes -> fresh_req (gin (st w)) ->
  (admitted (snd (CSRFMiddleware cfg w)) <-> csrf_clear cfg (gin (st w))) /\
  (~ csrf_clear cfg (gin (st w)) -> refused (snd (CSRFMiddleware cfg w)) 403).
Proof.
  intros Hp Hf. destruct (csrf_cases cfg w Hp Hf) as [[Hc Ha]|[Hc Hr]]; split; try done.
  split; [|done]. intros Ha. by destruct (refused_not_admitted _ _ Hr).
Qed.

(** ** Witnesses *)
Module Demo.
(** URLs as the parser cuts them: the scheme, and the host up to a slash. *)
#[export] Instance urls : UrlLib := {|
  url_Parse s := Ok match split_on ":" s with
                    | scheme :: _ :: _ =>
                        {| Scheme := scheme;
                           Host := hd "" (split_on "/" (sdrop (String.length scheme + 3) s)); url_text := s |}
                    | _ => {| Scheme := ""; Host := ""; url_text := s |}
                    end |}.

Definition deployment : csrf_config :=
  {| cf_PublicURL := "https://Registry.Example:443/"; cf_BaseURL := "http://10.0.0.1:8080"; cf_AllowedOrigins := ["*"] |}.

Definition posted (how : string) (headers cookies : list (string * string)) : env (web unit) :=
  Env (Web {| Web.keys := {["auth_method" := VString how]}; header := list_to_map headers;
              cookie := list_to_map cookies; param := ∅; form := Ok ∅; body := Ok ""; method := "POST";
              path := "/"; aborted := None; nexts := 0 |} empty_db tt) [] 0 [].

Definition outcome (w : env (web unit)) : option Z :=
  fst <$> aborted (gin (st (snd (CSRFMiddleware deployment w)))).

Example csrf_outcomes :
  map outcome
    [posted "jwt" [] []; posted "jwt" [("Origin", "https://registry.example")] [];
     posted "jwt" [("Origin", "https://evil.example")] []; posted "jwt" [("Origin", "null")] [];
     posted "jwt_cookie" [("X-CSRF-Token", "t")] [("tfr_csrf", "t")]; posted "jwt_cookie" [] [("tfr_csrf", "t")]]
  = [None; None; Some 403; Some 403; None; Some 403].
Proof. by vm_compute. Qed.

(** A client known by its certificate holds no token cookie and can change nothing. *)
Example certificate_clients_are_refused : outcome (posted "mtls" [] []) = Some 403.
Proof. by vm_compute. Qed.

Lemma urls_plain : plain_schemes.
Proof.
  assert (Hhead : forall s, match split_on ":" s with scheme :: _ => char_in ":" scheme = false | [] => True end).
  { induction s as [|c s IH]; cbn -[Ascii.eqb]; [done|]. destruct (Ascii.eqb c ":") eqn:E; [done|].
    destruct (split_on ":" s) as [|a l]; unfold char_in in *; cbn -[Ascii.eqb]; rewrite Ascii.eqb_sym, E; done. }
  intros raw u [= <-]. specialize (Hhead raw). by destruct (split_on ":" raw) as [|a [|b l]].
Qed.

Lemma csrf_passes_iff_witness :
  admitted (snd (CSRFMiddleware deployment (posted "jwt" [("Origin", "https://registry.example")] []))).
Proof.
  apply (csrf_passes_iff deployment (posted "jwt" [("Origin", "https://registry.example")] []) urls_plain); [by split|].
  right. right. left. split; [by vm_compute|]. right. exists "https://Registry.Example:443/".
  split; [by split; [|left]|]. eexists _, _. split_and!; try (by vm_compute).
  right. exists ":443". split; [constructor|]. left. split; [by vm_compute|].
  by apply no_suffix.
Defined.
End Demo.
