(* ===== verification/StateStore.v ===== *)
(** * Pending sign-ins: auth/statestore.go, statestore_memory.go, statestore_redis.go

    What the login flows keep between the redirect to an identity provider and its
    answer, as an interface with its laws ([StateStore], [StateStoreLaws]), and the two
    implementations: a map in the process, and Redis (a client outside). *)

From S2P Require Import Prelude GoStrings Hoare.
From stdpp Require Import gmap.
#[local] Open Scope Z_scope.

Record SessionState := {
  ss_State : string;
  ss_CreatedAt : Z;
  ss_RedirectURL : string;
  ss_ProviderType : string;
  ss_Nonce : string;
  ss_CodeVerifier : string;
  ss_SAMLRequestID : string;
}.

Class StateStore (S : Type) := {
  Save : string -> SessionState -> Z -> prog (env S) (res unit);
  Load : string -> prog (env S) (res (option SessionState));
  Delete : string -> prog (env S) (res unit);
  Reserve : string -> Z -> prog (env S) (res bool);
}.

(** What the flows rely on: [present] are the keys that are taken, [held] those that
    are reserved, and until when.  A key that is gone comes back by a save or a
    reservation only, a reservation lasts until its time unless its key is touched by
    another operation, and until then the key is not reserved again. *)
Class StateStoreLaws (M : Type) `{StateStore M} := {
  present : M -> string -> Prop;
  held : M -> string -> Z -> Prop;
  load_law k (w : env M) : let c := Load k w in let m := st w in let m' := st (snd c) in
    (forall j, present m' j -> present m j) /\ (forall j e, j <> k -> held m j e -> held m' j e) /\
    forall d, fst c = Ok (Some d) -> present m k;
  delete_law k (w : env M) : let c := Delete k w in let m := st w in let m' := st (snd c) in
    (forall j, present m' j -> present m j) /\ (forall j e, j <> k -> held m j e -> held m' j e) /\
    (fst c = Ok tt -> ~ present m' k);
  save_law k d ttl (w : env M) : let c := Save k d ttl w in let m := st w in let m' := st (snd c) in
    (forall j, present m' j -> j = k \/ present m j) /\ (forall j e, j <> k -> held m j e -> held m' j e);
  reserve_law k ttl (w : env M) : let c := Reserve k ttl w in let m := st w in let m' := st (snd c) in
    (forall j, present m' j -> j = k \/ present m j) /\ (forall j e, j <> k -> held m j e -> held m' j e) /\
    (fst c = Ok true -> exists t, clock w <= t /\ held m' k (t + ttl)) /\
    forall e, held m k e -> clock (snd c) < e -> fst c <> Ok true /\ held m' k e;
  (** what was loaded and then deleted is gone, whichever of the two removed it *)
  consume_law k (w w' : env M) d : fst (Load k w) = Ok (Some d) -> st w' = st (snd (Load k w)) ->
    ~ present (st (snd (Delete k w'))) k;
  clock_law (w : env M) :
    (forall k, clock w <= clock (snd (Load k w))) /\ (forall k, clock w <= clock (snd (Delete k w))) /\
    (forall k d ttl, clock w <= clock (snd (Save k d ttl w))) /\ (forall k ttl, clock w <= clock (snd (Reserve k ttl w)));
}.

(** ** In memory *)

Record memoryEntry := { me_data : SessionState; me_expiresAt : Z }.

Abbreviation MemoryStateStore := (gmap string memoryEntry).

Section Memory.
#[local] Abbreviation P := (prog (env MemoryStateStore)).

(** The methods hold the mutex from end to end. *)
Definition memory_Save (state : string) (data : SessionState) (ttl : Z) : P (res unit) :=
  let! now := time_now in
  run! modify (<[state := {| me_data := data; me_expiresAt := now + ttl |}]>) in
  ret (Ok tt).

Definition memory_Load (state : string) : P (res (option SessionState)) :=
  let! e := gets (fun m : MemoryStateStore => m !! state) in
  match e with
  | None => ret (Ok None)
  | Some e =>
      let! now := time_now in
      if me_expiresAt e <? now then run! modify (delete state) in ret (Ok None)
      else ret (Ok (Some (me_data e)))
  end.

Definition memory_Delete (state : string) : P (res unit) :=
  run! modify (delete state) in ret (Ok tt).

Definition marker (key : string) (now : Z) : SessionState := {|
  ss_State := key; ss_CreatedAt := now; ss_RedirectURL := ""; ss_ProviderType := ""; ss_Nonce := "";
  ss_CodeVerifier := ""; ss_SAMLRequestID := "" |}.

Definition memory_Reserve (key : string) (ttl : Z) : P (res bool) :=
  let! e := gets (fun m : MemoryStateStore => m !! key) in
  let! taken := (match e with
                 | Some e => let! now := time_now in ret (now <? me_expiresAt e)
                 | None => ret false
                 end) in
  if taken then ret (Ok false)
  else
    let! created := time_now in
    let! now := time_now in
    run! modify (<[key := {| me_data := marker key created; me_expiresAt := now + ttl |}]>) in
    ret (Ok true).

(** One round of the cleaner. *)
Definition cleanup : P unit :=
  let! now := time_now in
  modify (filter (fun kv : string * memoryEntry => ~ me_expiresAt kv.2 < now)).

#[export] Instance memory_store : StateStore MemoryStateStore := {|
  Save := memory_Save; Load := memory_Load; Delete := memory_Delete; Reserve := memory_Reserve |}.
End Memory.

(** ** Redis *)

(** The client: SET with an expiry, the script that gets and deletes, DEL, SET NX. *)
Class Redis (S : Type) := {
  redis_Set : string -> string -> Z -> prog (env S) (res unit);
  (** the value and the error; a missing key gives no value and [redis.Nil] *)
  redis_GetDel : string -> prog (env S) (option string * option gerror);
  redis_Del : string -> prog (env S) (res unit);
  redis_SetNX : string -> string -> Z -> prog (env S) (res bool);
}.
Class SessionCodec := {
  marshal_state : SessionState -> res string;
  unmarshal_state : string -> res SessionState;
}.

Definition stateKeyPrefix := "oidc_state:".

Section Shared.
Context {S : Type} `{Redis S, SessionCodec}.
#[local] Abbreviation P := (prog (env S)).

Definition redis_Save (state : string) (data : SessionState) (ttl : Z) : P (res unit) :=
  match marshal_state data with
  | Err e => ret (Err (ErrWrap "redis state store: marshal error" e))
  | Ok payload => redis_Set (stateKeyPrefix +:+ state) payload ttl
  end.

Definition redis_Load (state : string) : P (res (option SessionState)) :=
  let! r := redis_GetDel (stateKeyPrefix +:+ state) in
  match r with
  | (None, _) => ret (Ok None)
  | (Some _, Some e) => ret (Err (ErrWrap "redis state store: load error" e))
  | (Some text, None) =>
      match unmarshal_state text with
      | Err e => ret (Err (ErrWrap "redis state store: unmarshal error" e))
      | Ok data => ret (Ok (Some data))
      end
  end.

Definition redis_Delete (state : string) : P (res unit) := redis_Del (stateKeyPrefix +:+ state).

Definition redis_Reserve (key : string) (ttl : Z) : P (res bool) :=
  let! ok := redis_SetNX (stateKeyPrefix +:+ key) "1" ttl in
  match ok with
  | Err e => ret (Err (ErrWrap "redis state store: reserve error" e))
  | Ok ok => ret (Ok ok)
  end.

Definition redis_store : StateStore S := {|
  Save := redis_Save; Load := redis_Load; Delete := redis_Delete; Reserve := redis_Reserve |}.
End Shared.

(** ** The map satisfies the laws *)

Definition in_map (m : gmap string memoryEntry) (k : string) : Prop := is_Some (m !! k).
Definition held_until (m : gmap string memoryEntry) (k : string) (e : Z) : Prop :=
  exists d, m !! k = Some {| me_data := d; me_expiresAt := e |}.

Lemma in_delete k (m : gmap string memoryEntry) j : in_map (delete k m) j -> in_map m j.
Proof. intros [x [_ Hx]%lookup_delete_Some]. by exists x. Qed.

Lemma in_insert k x (m : gmap string memoryEntry) j : in_map (<[k := x]> m) j -> j = k \/ in_map m j.
Proof. intros [y [[-> _]|[_ Hy]]%lookup_insert_Some]; [by left | right; by exists y]. Qed.

Lemma held_delete k (m : gmap string memoryEntry) j e : j <> k -> held_until m j e -> held_until (delete k m) j e.
Proof. intros Hj [d Hd]. exists d. by rewrite lookup_delete_ne. Qed.

Lemma held_insert k x (m : gmap string memoryEntry) j e : j <> k -> held_until m j e -> held_until (<[k := x]> m) j e.
Proof. intros Hj [d Hd]. exists d. by rewrite lookup_insert_ne. Qed.

#[export] Instance memory_store_laws : StateStoreLaws MemoryStateStore.
Proof.
  refine {| present := in_map; held := held_until |}.
  - intros k w. unfold Load, memory_store, memory_Load, bind, gets, time_now, modify, ret. cbn.
    destruct (st w !! k) as [x|] eqn:Hk; cbn.
    2:{ by split_and!. }
    destruct (me_expiresAt x <? _); cbn; [|split_and!; [intros; done | intros; done | intros d _; exists x; done]].
    split_and!; [apply in_delete | exact (held_delete _ _) | done].
  - intros k w. cbn. split_and!; [apply in_delete | exact (held_delete _ _)|].
    intros _ [x Hx]. by rewrite lookup_delete_eq in Hx.
  - intros k d ttl w. cbn. split_and!; [apply in_insert | exact (held_insert _ _ _)].
  - intros k ttl w. cbn. unfold memory_Reserve, bind, gets, time_now, modify, ret. cbn.
    destruct (st w !! k) as [x|] eqn:Hk; cbn.
    + destruct (Z.ltb_spec (clock w + Z.max 0 (hd 0 (ticks w))) (me_expiresAt x)) as [Hl|Hl]; cbn.
      * split_and!; [by right | done | done | done].
      * split_and!; [apply in_insert | exact (held_insert _ _ _) | |].
        -- intros _. eexists. split; [|eexists; apply lookup_insert_eq]. lia.
        -- intros e [d Hd]. rewrite Hk in Hd. injection Hd as ->. cbn in Hl. lia.
    + split_and!; [apply in_insert | exact (held_insert _ _ _) | |].
      * intros _. eexists. split; [|eexists; apply lookup_insert_eq]. lia.
      * intros e [d Hd]. by rewrite Hk in Hd.
  - intros k w w' d _ _. cbn. intros [x Hx]. by rewrite lookup_delete_eq in Hx.
  - intros w. split_and!; intros; cbn; try lia.
    + unfold memory_Load, bind, gets, time_now, modify, ret. cbn.
      destruct (st w !! k) as [x|]; cbn; [case_match; cbn; lia | lia].
    + unfold memory_Reserve, bind, gets, time_now, modify, ret. cbn.
      destruct (st w !! k) as [x|]; cbn; [case_match; cbn; lia | lia].
Qed.

(** The cleaner keeps what has not expired. *)
Lemma cleanup_keeps (w : env MemoryStateStore) k e :
  held_until (st w) k e -> clock (snd (cleanup w)) <= e -> held_until (st (snd (cleanup w))) k e.
Proof.
  intros [d Hd] He. exists d. cbn. apply map_lookup_filter_Some. split; [exact Hd|]. cbn in *. lia.
Qed.
