(* ===== verification/SignIn.v ===== *)
(** * The identity providers behind the login handlers

    auth/ldap/provider.go, auth/saml/provider.go, auth/azuread/provider.go and the
    gates of auth/oidc/provider.go.  The protocol libraries are outside: the OpenID
    Connect client of the identity module ([OidcLib]), the SAML service provider
    ([SamlLib]) and the LDAP client ([DirectoryLib]). *)

From S2P Require Import Setup.
From S2P Require Import Prelude GoStrings SemVer IpAddr Egress TfReleases.
From stdpp Require Import gmap.
#[local] Open Scope Z_scope.

(** [fmt.Sprintf] with one string argument, for the verbs [%s] and [%%]. *)
Fixpoint sprintf_s (format : string) (arg : option string) : string :=
  match format with
  | EmptyString => match arg with Some a => "%!(EXTRA string=" +:+ a +:+ ")" | None => "" end
  | String "%" (String "s" rest) =>
      match arg with
      | Some a => a +:+ sprintf_s rest None
      | None => "%!s(MISSING)" +:+ sprintf_s rest None
      end
  | String "%" (String "%" rest) => String "%" (sprintf_s rest arg)
  | String c rest => String c (sprintf_s rest arg)
  end.

Example sprintf_filter :
  map (fun f => sprintf_s f (Some "ann")) ["(uid=%s)"; "(|(uid=%s)(mail=%s))"; "(uid=*)"]
  = ["(uid=ann)"; "(|(uid=ann)(mail=%!s(MISSING)))"; "(uid=*)%!(EXTRA string=ann)"].
Proof. by vm_compute. Qed.

(** ** OpenID Connect *)

Record AuthChallenge := { ac_URL : string; ac_Nonce : string; ac_CodeVerifier : string }.

(** What an ID token says of its subject. *)
Record token_info := { ti_sub : string; ti_email : string; ti_name : string; ti_emailVerified : bool }.

Class OidcLib (Y : Type) := {
  OIDCProvider : Type;
  IDToken : Type;
  (** discovery *)
  NewProviderWithContext : OIDCClient -> Y -> res OIDCProvider * Y;
  BeginAuth : OIDCProvider -> string -> Y -> res AuthChallenge * Y;
  (** the code and the PKCE verifier; the [id_token] of the answer, if it is a string *)
  ExchangeCode : OIDCProvider -> string -> string -> Y -> res (option string) * Y;
  (** the raw token and the expected nonce *)
  VerifyIDToken : OIDCProvider -> string -> string -> Y -> res IDToken * Y;
  ExtractUserInfo : OIDCProvider -> IDToken -> res token_info;
  ExtractGroups : OIDCProvider -> IDToken -> string -> list string;
  GetEndSessionEndpoint : OIDCProvider -> string;
  (** the claim [email_verified] of a token whose claims decode *)
  email_verified_claim : IDToken -> res (option bool);
}.

Record AzureADConfig := {
  az_Enabled : bool;
  az_TenantID : string;
  az_ClientID : string;
  az_ClientSecret : string;
  az_RedirectURL : string;
}.

(** ** SAML *)

Record saml_attribute := { at_Name : string; at_FriendlyName : string; at_Values : list string }.

(** The parts of a validated assertion that are read. *)
Record Assertion := {
  as_ID : string;
  as_NotOnOrAfter : option Z;
  as_NameID : option string;
  as_AttributeStatements : list (list saml_attribute);
}.

Record saml_user := { su_NameID : string; su_Email : string; su_Name : string; su_Groups : list string }.
Record AssertionMeta := { am_ID : string; am_NotOnOrAfter : Z }.

Record SAMLConfig := {
  sc_EntityID : string;
  sc_ACSURL : string;
  sc_CertFile : string;
  sc_KeyFile : string;
  sc_AllowIDPInitiated : bool;
}.
Record SAMLIdPConfig := { ip_Name : string; ip_MetadataURL : string; ip_MetadataXML : string }.

Class SamlTypes := { EntityDescriptor : Type; RSAKey : Type; Certificate : Type; AuthnRequest : Type }.

(** The service provider of the library, as it is set up here. *)
Record ServiceProvider `{SamlTypes} := {
  sp_EntityID : string;
  sp_AcsURL : URL;
  sp_AllowIDPInitiated : bool;
  sp_Key : option (RSAKey * Certificate);
  sp_IDPMetadata : EntityDescriptor;
}.
Record saml_provider `{SamlTypes} := { pr_sp : ServiceProvider; pr_name : string; pr_allowIDPInitiated : bool }.

(** A key pair: the private key if it is an RSA key, the leaf if it was parsed, and the
    encoded certificate. *)
Record key_pair `{SamlTypes} := { kp_RSA : option RSAKey; kp_Leaf : option Certificate; kp_DER : string }.

Class SamlLib (Y : Type) `{SamlTypes} := {
  LoadX509KeyPair : string -> string -> Y -> res key_pair * Y;
  ParseCertificate : string -> res Certificate;
  xml_Unmarshal : string -> res EntityDescriptor;
  ParseMetadata : string -> res EntityDescriptor;
  (** a GET of the guarded client: the status and what reading the body gives *)
  safe_Get : Egress.guard -> string -> Y -> res (Z * res string) * Y;
  MakeAuthnRequest : ServiceProvider -> Y -> res AuthnRequest * Y;
  authn_ID : AuthnRequest -> string;
  authn_Redirect : AuthnRequest -> string -> ServiceProvider -> res string;
  (** the form of the request and the request IDs that may be answered *)
  ParseResponse : ServiceProvider -> string -> list string -> Y -> res Assertion * Y;
  sp_Metadata : ServiceProvider -> res string;
}.

(** ** LDAP *)

Record tls_config := { tls_ServerName : string; tls_InsecureSkipVerify : bool }.
Record SearchRequest := {
  sr_BaseDN : string;
  sr_SizeLimit : Z;
  sr_TimeLimit : Z;
  sr_Filter : string;
  sr_Attributes : list string;
}.
Record Entry := { en_DN : string; GetAttributeValue : string -> string }.

Class DirectoryLib (Y : Type) := {
  Conn : Type;
  DialURL : string -> option tls_config -> Y -> res Conn * Y;
  ldap_StartTLS : Conn -> tls_config -> Y -> res unit * Y;
  Bind : Conn -> string -> string -> Y -> res unit * Y;
  ldap_Search : Conn -> SearchRequest -> Y -> res (list Entry) * Y;
  ldap_Close : Conn -> Y -> Y;
  EscapeFilter : string -> string;
}.

Record ldap_user := { lu_DN : string; lu_Email : string; lu_Name : string; lu_Groups : list string }.

Section OIDC.
Context {Y : Type} `{OidcLib Y}.

(** [enabled] and the client; HTTPS is the library's default. *)
Definition NewOIDCProvider (enabled : bool) (cfg : OIDCClient) : prog Y (res OIDCProvider) :=
  if negb enabled then ret (Err (ErrMsg "OIDC is not enabled")) else NewProviderWithContext cfg.

(** An Azure provider is the OIDC provider of its tenant. *)
Definition NewAzureADProvider (cfg : AzureADConfig) : prog Y (res OIDCProvider) :=
  if negb (az_Enabled cfg) then ret (Err (ErrMsg "Azure AD is not enabled"))
  else if String.eqb (az_TenantID cfg) "" then ret (Err (ErrMsg "Azure AD tenant ID is required"))
  else if String.eqb (az_ClientID cfg) "" then ret (Err (ErrMsg "Azure AD client ID is required"))
  else if String.eqb (az_ClientSecret cfg) "" then ret (Err (ErrMsg "Azure AD client secret is required"))
  else
    let issuerURL := "https://login.microsoftonline.com/" +:+ az_TenantID cfg +:+ "/v2.0" in
    let! r := NewOIDCProvider true {|
      oc_IssuerURL := issuerURL; oc_ClientID := az_ClientID cfg; oc_ClientSecret := az_ClientSecret cfg;
      oc_RedirectURL := az_RedirectURL cfg; oc_Scopes := ["openid"; "email"; "profile"] |} in
    ret (match r with
         | Err e => Err (ErrWrap "failed to create OIDC provider for Azure AD" e)
         | Ok p => Ok p
         end).
End OIDC.

(** *** Attributes *)

Definition isEmailAttr (name friendlyName : string) : bool :=
  String.eqb friendlyName "email" || String.eqb friendlyName "mail"
  || String.eqb name "urn:oid:0.9.2342.19200300.100.1.3"
  || String.eqb name "http://schemas.xmlsoap.org/ws/2005/05/identity/claims/emailaddress"
  || equal_fold name "email" || equal_fold name "mail".

Definition isNameAttr (name friendlyName : string) : bool :=
  String.eqb friendlyName "displayName" || String.eqb friendlyName "cn"
  || String.eqb name "urn:oid:2.16.840.1.113730.3.1.241"
  || String.eqb name "urn:oid:2.5.4.3"
  || String.eqb name "http://schemas.xmlsoap.org/ws/2005/05/identity/claims/name"
  || equal_fold name "displayName" || equal_fold name "cn".

Definition attrValues (a : saml_attribute) : list string :=
  List.filter (fun v => negb (String.eqb v "")) (at_Values a).

Definition read_attribute (groupAttr : string) (info : saml_user) (a : saml_attribute) : saml_user :=
  let values := attrValues a in
  if isEmailAttr (at_Name a) (at_FriendlyName a) then
    match values with
    | v :: _ => {| su_NameID := su_NameID info; su_Email := v; su_Name := su_Name info; su_Groups := su_Groups info |}
    | [] => info
    end
  else if isNameAttr (at_Name a) (at_FriendlyName a) then
    match values with
    | v :: _ => {| su_NameID := su_NameID info; su_Email := su_Email info; su_Name := v; su_Groups := su_Groups info |}
    | [] => info
    end
  else if negb (String.eqb groupAttr "") && (String.eqb (at_Name a) groupAttr || String.eqb (at_FriendlyName a) groupAttr)
  then {| su_NameID := su_NameID info; su_Email := su_Email info; su_Name := su_Name info; su_Groups := values |}
  else info.

Definition extractUserInfo (assertion : Assertion) (groupAttr : string) : saml_user :=
  let start := {| su_NameID := default "" (as_NameID assertion); su_Email := ""; su_Name := ""; su_Groups := [] |} in
  let info := fold_left (fun info stmt => fold_left (read_attribute groupAttr) stmt info)
                (as_AttributeStatements assertion) start in
  if String.eqb (su_Email info) "" && char_in "@" (su_NameID info)
  then {| su_NameID := su_NameID info; su_Email := su_NameID info; su_Name := su_Name info; su_Groups := su_Groups info |}
  else info.

(** *** The SAML provider *)
Section SAML.
Context {Y : Type} `{SamlLib Y} `{UrlLib}.
#[local] Abbreviation P := (prog Y).

Definition metadata_cap : Z := Z.shiftl 1 20.

Definition fetchIdPMetadata (metadataURL : string) (egress : Egress.guard) : P (res EntityDescriptor) :=
  match url_Parse metadataURL with
  | Err e => ret (Err (ErrWrap "invalid metadata URL" e))
  | Ok u =>
      if negb (String.eqb (Scheme u) "https") then ret (Err (ErrMsg ("metadata URL must use HTTPS: " +:+ metadataURL)))
      else
        let! resp := safe_Get egress metadataURL in
        ret match resp with
            | Err e => Err (ErrWrap ("failed to fetch metadata from " +:+ metadataURL) e)
            | Ok (status, body) =>
                if negb (status =? 200) then Err (ErrMsg ("metadata URL returned status " +:+ show status))
                else match read_limited metadata_cap body with
                     | Err e => Err (ErrWrap "failed to read metadata response" e)
                     | Ok data => match ParseMetadata data with
                                  | Err e => Err (ErrWrap "failed to parse IdP metadata" e)
                                  | Ok m => Ok m
                                  end
                     end
            end
  end.

Definition resolveIdPMetadata (idpCfg : SAMLIdPConfig) (egress : Egress.guard) : P (res EntityDescriptor) :=
  if negb (String.eqb (ip_MetadataXML idpCfg) "") then
    ret (match xml_Unmarshal (ip_MetadataXML idpCfg) with
         | Err e => Err (ErrWrap "failed to parse metadata XML" e)
         | Ok m => Ok m
         end)
  else if negb (String.eqb (ip_MetadataURL idpCfg) "") then fetchIdPMetadata (ip_MetadataURL idpCfg) egress
  else ret (Err (ErrMsg "either metadata_url or metadata_xml must be provided")).

(** The signing pair of the service provider, if both files are named; a key that is
    not an RSA key panics. *)
Definition load_signing_pair (cfg : SAMLConfig) : P (res (option (RSAKey * Certificate))) :=
  if String.eqb (sc_CertFile cfg) "" || String.eqb (sc_KeyFile cfg) "" then ret (Ok None)
  else
    let! loaded := LoadX509KeyPair (sc_CertFile cfg) (sc_KeyFile cfg) in
    ret match loaded with
        | Err e => Err (ErrWrap "saml: failed to load SP cert/key" e)
        | Ok kp =>
            match kp_RSA kp with
            | None => Err (ErrMsg "panic: interface conversion")
            | Some key =>
                match kp_Leaf kp with
                | Some cert => Ok (Some (key, cert))
                | None => match ParseCertificate (kp_DER kp) with
                          | Err e => Err (ErrWrap "saml: failed to parse SP certificate" e)
                          | Ok cert => Ok (Some (key, cert))
                          end
                end
            end
        end.

Definition NewProviderWithGuard (cfg : SAMLConfig) (idpCfg : SAMLIdPConfig) (egress : Egress.guard) : P (res saml_provider) :=
  if String.eqb (sc_ACSURL cfg) "" then ret (Err (ErrMsg "saml: acs_url is required"))
  else match url_Parse (sc_ACSURL cfg) with
       | Err e => ret (Err (ErrWrap "saml: invalid acs_url" e))
       | Ok acsURL =>
           let entityID := if String.eqb (sc_EntityID cfg) "" then trim_suffix (sc_ACSURL cfg) "/saml/acs"
                           else sc_EntityID cfg in
           let? key := load_signing_pair cfg in
           let! idpMetadata := resolveIdPMetadata idpCfg egress in
           ret match idpMetadata with
               | Err e => Err (ErrWrap ("saml: IdP " +:+ ip_Name idpCfg) e)
               | Ok m =>
                   Ok {| pr_sp := {| sp_EntityID := entityID; sp_AcsURL := acsURL;
                                     sp_AllowIDPInitiated := sc_AllowIDPInitiated cfg; sp_Key := key;
                                     sp_IDPMetadata := m |};
                         pr_name := ip_Name idpCfg; pr_allowIDPInitiated := sc_AllowIDPInitiated cfg |}
               end
       end.

(** The URL to send the browser to, and the ID of the request. *)
Definition MakeAuthenticationRequest (p : saml_provider) (relayState : string) : P (res (string * string)) :=
  let! authReq := MakeAuthnRequest (pr_sp p) in
  ret match authReq with
      | Err e => Err (ErrWrap "saml: failed to create AuthnRequest" e)
      | Ok authReq => match authn_Redirect authReq relayState (pr_sp p) with
                      | Err e => Err (ErrWrap "saml: failed to build redirect URL" e)
                      | Ok redirectURL => Ok (redirectURL, authn_ID authReq)
                      end
      end.

(** The zero time stands for an assertion without conditions. *)
Definition zero_time : Z := -62135596800 * 10 ^ 9.

Definition ValidateResponse (p : saml_provider) (response : string) (possibleRequestIDs : list string)
  (groupAttr : string) : P (res (saml_user * AssertionMeta)) :=
  let! assertion := ParseResponse (pr_sp p) response possibleRequestIDs in
  ret match assertion with
      | Err e => Err (ErrWrap "saml: failed to validate response" e)
      | Ok a => Ok (extractUserInfo a groupAttr,
                    {| am_ID := as_ID a; am_NotOnOrAfter := default zero_time (as_NotOnOrAfter a) |})
      end.
End SAML.

(** *** The LDAP provider *)
Section LDAP.
Context {Y : Type} `{DirectoryLib Y} (cfg : LDAPConfiguration).
#[local] Abbreviation P := (prog Y).

Definition tlsConfig : tls_config :=
  {| tls_ServerName := lc_Host cfg; tls_InsecureSkipVerify := lc_InsecureSkipVerify cfg |}.

Definition ldap_close (conn : Conn) : P unit := fun y => (tt, ldap_Close conn y).

Definition ldap_dial : P (res Conn) :=
  let addr := lc_Host cfg +:+ ":" +:+ show (lc_Port cfg) in
  if lc_UseTLS cfg then
    let! conn := DialURL ("ldaps://" +:+ addr) (Some tlsConfig) in
    ret match conn with Err e => Err (ErrWrap "ldaps dial failed" e) | Ok c => Ok c end
  else
    let! conn := DialURL ("ldap://" +:+ addr) None in
    match conn with
    | Err e => ret (Err (ErrWrap "ldap dial failed" e))
    | Ok c =>
        if lc_StartTLS cfg then
          let! err := ldap_StartTLS c tlsConfig in
          match err with
          | Err e => run! ldap_close c in ret (Err (ErrWrap "StartTLS failed" e))
          | Ok _ => ret (Ok c)
          end
        else ret (Ok c)
    end.

(** The DN, the address and the name of the only entry. *)
Definition searchUser (conn : Conn) (username : string) : P (res (string * string * string)) :=
  let filter := sprintf_s (lc_UserFilter cfg) (Some (EscapeFilter username)) in
  let! result := ldap_Search conn {|
    sr_BaseDN := lc_BaseDN cfg; sr_SizeLimit := 1; sr_TimeLimit := 10; sr_Filter := filter;
    sr_Attributes := ["dn"; lc_UserAttrEmail cfg; lc_UserAttrName cfg] |} in
  ret match result with
      | Err e => Err (ErrWrap "ldap: user search failed" e)
      | Ok [] => Err (ErrMsg ("ldap: user " +:+ username +:+ " not found"))
      | Ok [entry] => Ok (en_DN entry, GetAttributeValue entry (lc_UserAttrEmail cfg),
                          GetAttributeValue entry (lc_UserAttrName cfg))
      | Ok _ => Err (ErrMsg ("ldap: multiple entries found for user " +:+ username))
      end.

Definition lookupGroups (conn : Conn) (userDN : string) : P (res (list string)) :=
  let baseDN := or_else (lc_GroupBaseDN cfg) (lc_BaseDN cfg) in
  let filter := if String.eqb (lc_GroupFilter cfg) ""
                then "(" +:+ lc_GroupMemberAttr cfg +:+ "=" +:+ EscapeFilter userDN +:+ ")"
                else sprintf_s (lc_GroupFilter cfg) (Some (EscapeFilter userDN)) in
  let! result := ldap_Search conn {|
    sr_BaseDN := baseDN; sr_SizeLimit := 0; sr_TimeLimit := 10; sr_Filter := filter;
    sr_Attributes := ["dn"; "cn"] |} in
  ret match result with
      | Err e => Err (ErrWrap "ldap: group search failed" e)
      | Ok entries => Ok (map en_DN entries)
      end.

(** Once connected: bind as the service, find the user, bind as the user, bind as the
    service again and look up the groups; a lookup that fails counts as no groups. *)
Definition authenticate_on (conn : Conn) (username password : string) : P (res ldap_user) :=
  let! bound := Bind conn (lc_BindDN cfg) (lc_BindPassword cfg) in
  match bound with
  | Err e => ret (Err (ErrWrap "ldap: service account bind failed" e))
  | Ok _ =>
      let? u := searchUser conn username in
      let '(userDN, email, name) := u in
      let! bound := Bind conn userDN password in
      match bound with
      | Err e => ret (Err (ErrMsg ("ldap: authentication failed for user " +:+ username)))
      | Ok _ =>
          let! bound := Bind conn (lc_BindDN cfg) (lc_BindPassword cfg) in
          match bound with
          | Err e => ret (Err (ErrWrap "ldap: re-bind as service account failed" e))
          | Ok _ =>
              let! groups := lookupGroups conn userDN in
              let groups := match groups with Ok g => g | Err _ => [] end in
              ret (Ok {| lu_DN := userDN; lu_Email := email; lu_Name := name; lu_Groups := groups |})
          end
      end
  end.

Definition Authenticate (username password : string) : P (res ldap_user) :=
  let! conn := ldap_dial in
  match conn with
  | Err e => ret (Err (ErrWrap "ldap: failed to connect" e))
  | Ok conn =>
      let! r := authenticate_on conn username password in
      run! ldap_close conn in
      ret r
  end.
End LDAP.

Record LDAPGroupMapping := { lg_GroupDN : string; lg_Organization : string; lg_Role : string }.

(** Group names are compared in lower case. *)
Definition MatchGroupMappings (groups : list string) (mappings : list LDAPGroupMapping) : list LDAPGroupMapping :=
  let groupSet : gset string := list_to_set (map to_lower groups) in
  List.filter (fun m => bool_decide (to_lower (lg_GroupDN m) ∈ groupSet)) mappings.
