(* ===== verification/Login.v ===== *)
(** * Signing in: api/admin/auth.go, group_mapping_guard.go, email_hardening.go, dev.go

    Login, callback, assertion consumer, LDAP login, refresh, logout and the
    development log-in.  The world beside the request is a [cell]: the store of
    pending sign-ins ([StateStore]) and the outside, where the identity module, the
    identity providers and the random source are.  A handler takes the parameters of
    the request and returns the status, the body and the cookies it sets; dates in
    the bodies are left out. *)

From S2P Require Import Setup.
From S2P Require Import Prelude GoStrings SemVer TfReleases IpAddr Egress Web Rbac AuthMiddleware Identity.
From S2P Require Import Csrf StateStore SignIn.
From stdpp Require Import gmap.
#[local] Open Scope Z_scope.

Record cell (M Y : Type) := Cell { store : M; outside : Y }.
Arguments Cell {M Y} _ _.
Arguments store {M Y} _.
Arguments outside {M Y} _.

#[export] Instance cell_randomness {M Y} `{Randomness Y} : Randomness (cell M Y) :=
  fun n x => let r := random_bytes n (outside x) in (fst r, Cell (store x) (snd r)).

(** ** What the identity module does for a sign-in *)

Record account := { acc_ID : string; acc_Email : string; acc_Name : string }.
Record org_role := {
  ur_OrganizationID : string;
  ur_OrganizationName : string;
  ur_RoleTemplateID : option string;
  ur_RoleTemplateName : option string;
  ur_RoleTemplateDisplayName : option string;
  ur_RoleTemplateScopes : list string;
}.
Record user_with_roles := { uw_account : account; uw_Memberships : list org_role }.

Record groupMapping := { gm_Group : string; gm_Organization : string; gm_Role : string }.

Class Accounts (Y : Type) := {
  (** [SELECT … oidc_sub FROM users WHERE email = $1]; the column is nullable *)
  SubjectByEmail : string -> Y -> res (option (option string)) * Y;
  (** subject, address, name, and whether the provider vouches for the address *)
  GetOrCreateUserByOIDC : string -> string -> string -> bool -> Y -> res account * Y;
  AccountByID : string -> Y -> res (option account) * Y;
  AccountByEmail : string -> Y -> res (option account) * Y;
  ListUsers : Z -> Z -> Y -> res (list account) * Y;
  GetUserWithOrgRoles : string -> Y -> res (option user_with_roles) * Y;
  GetAllowedScopes : user_with_roles -> list string;
  GetUserCombinedScopes : string -> Y -> res (list string) * Y;
  (** user, address, scopes, lifetime *)
  GenerateJWT : string -> string -> list string -> Z -> Y -> res string * Y;
  (** token ID, user, expiry *)
  RevokeToken : string -> string -> Z -> Y -> res unit * Y;
  (** claim name, mappings and default role of the active OIDC configuration *)
  ActiveGroupConfig : Y -> res (option (string * list groupMapping * string)) * Y;
  CheckMembership : string -> string -> Y -> res bool * Y;
  (** organization, user, role by name *)
  UpdateMemberRole : string -> string -> string -> Y -> res unit * Y;
  (** [SELECT scopes FROM role_templates WHERE name = $1] *)
  ScopesOfRoleNamed : string -> Y -> res (option string) * Y;
}.

(** The order in which a map is ranged over changes from run to run. *)
Class MapRange (Y : Type) := {
  range_keys : list string -> Y -> list string * Y;
  range_keys_perm : forall l y, Permutation l (fst (range_keys l y));
}.

(** ** Configuration and handlers *)

Record login_config := {
  lc_urls : csrf_config;
  oidc_Enabled : bool;
  oidc_Client : OIDCClient;
  RequireVerifiedEmail : bool;
  GroupClaimName : string;
  oidc_GroupMappings : list groupMapping;
  oidc_DefaultRole : string;
  lc_AzureAD : AzureADConfig;
  saml_Enabled : bool;
  saml_Config : SAMLConfig;
  saml_IdPs : list SAMLIdPConfig;
  GroupAttributeName : string;
  saml_GroupMappings : list groupMapping;
  saml_DefaultRole : string;
  ldap_Enabled : bool;
  ldap_Config : LDAPConfiguration;
  ldap_GroupMappings : list LDAPGroupMapping;
  ldap_DefaultRole : string;
  mtls_Enabled : bool;
  mtls_ClientCAFile : string;
  mtls_Mappings : list (string * list string);
}.

Inductive login_body :=
| LError (message : string)
(** a redirect to a URL with these parameters set *)
| LTo (url : string) (query : list (string * string))
| LExpires (seconds : Z)
| LMe (user : user_with_roles) (allowed : list string) (expires_at : option Z)
      (role_template : option (option string * option string))
| LMetadata (xml : string)
| LProviders (providers : list (string * string))
| LMappings (saml : option (string * string * list groupMapping)) (ldap : option (string * list LDAPGroupMapping))
| LMtls (enabled : bool) (client_ca_file : string) (mappings : list (string * list string))
| LUser (user : account)
| LUsers (users : list (account * string))
| LDevMode (on : bool).

Record reply := { rp_status : Z; rp_body : login_body; rp_cookies : list http_cookie }.

(** Why a sign-in that was proved to the provider still gets no session. *)
Inductive login_failure := EmailBound (e : gerror) | NoAccount | NoToken.

Definition minutes : Z := 60 * 10 ^ 9.
Definition hours : Z := 60 * minutes.

(** The session cookie. *)
Definition auth_cookie (jwt : string) : http_cookie :=
  {| hc_Name := "tfr_auth_token"; hc_Value := jwt; hc_MaxAge := 86400; hc_HttpOnly := true; hc_SameSite := Lax |}.
Definition expired_auth_cookie : http_cookie :=
  {| hc_Name := "tfr_auth_token"; hc_Value := ""; hc_MaxAge := -1; hc_HttpOnly := true; hc_SameSite := Strict |}.

Definition errEmailNotVerified := ErrSentinel "oidc email is not verified".
Definition errEmailVerifiedMissing := ErrSentinel "oidc email_verified claim is required but absent".
Definition errEmailBoundToAnotherIdentity := ErrSentinel "email is already bound to a different identity".

Definition enforceEmailVerified (verified : option bool) (require : bool) : option gerror :=
  match verified with
  | None => if require then Some errEmailVerifiedMissing else None
  | Some v => if v then None else Some errEmailNotVerified
  end.

(** The managed organizations in the order of the configuration, and for each the role
    of the first mapping of a group the user is in. *)
Definition note_mapping (groupSet : gset string) (acc : list string * gmap string string) (m : groupMapping)
  : list string * gmap string string :=
  let '(managed, desired) := acc in
  let managed := if bool_decide (gm_Organization m ∈ managed) then managed else managed ++ [gm_Organization m] in
  if negb (bool_decide (gm_Group m ∈ groupSet)) then (managed, desired)
  else match desired !! gm_Organization m with
       | Some _ => (managed, desired)
       | None => (managed, <[gm_Organization m := gm_Role m]> desired)
       end.
Definition desired_roles (groups : list string) (mappings : list groupMapping) : list string * gmap string string :=
  fold_left (note_mapping (list_to_set groups)) mappings ([], ∅).

Section Handlers.
Context {M Y : Type} `{StateStore M} `{Randomness Y, UrlLib, OidcLib Y, SamlTypes, !SamlLib Y, DirectoryLib Y}
  `{Accounts Y, IdentityAdmin Y, Parsers, ScopeLib, MapRange Y}.
#[local] Abbreviation P := (prog (env (web (cell M Y)))).

Record AuthHandlers := {
  cfg : login_config;
  (** whether the repository of OIDC configurations is wired in *)
  has_oidcConfigRepo : bool;
  oidcProvider : option OIDCProvider;
  azureADProvider : option OIDCProvider;
  samlProviders : gmap string saml_provider;
  ldapProvider : option LDAPConfiguration;
}.

(** A call of something outside, and a call of the state store. *)
Definition outer {A} (f : Y -> A * Y) : P A :=
  state (fun s => let r := f (outside (ext s)) in
                  (fst r, Web (gin s) (tables s) (Cell (store (ext s)) (snd r)))).
Definition on_store {A} (c : prog (env M) A) : P A := fun w =>
  let r := c (Env (store (ext (st w))) (faults w) (clock w) (ticks w)) in
  let w' := snd r in
  (fst r, Env (Web (gin (st w)) (tables (st w)) (Cell (st w') (outside (ext (st w))))) (faults w') (clock w') (ticks w')).

Definition answer (status : Z) (body : login_body) : P reply :=
  ret {| rp_status := status; rp_body := body; rp_cookies := [] |}.
Definition fail (status : Z) (message : string) : P reply := answer status (LError message).

(** ** Set-up *)

Fixpoint new_saml_providers (samlCfg : SAMLConfig) (idps : list SAMLIdPConfig) (egress : Egress.guard)
  (acc : gmap string saml_provider) : prog Y (res (gmap string saml_provider)) :=
  match idps with
  | [] => ret (Ok acc)
  | idp :: rest =>
      let! sp := NewProviderWithGuard samlCfg idp egress in
      match sp with
      | Err e => ret (Err (ErrWrap ("saml idp " +:+ ip_Name idp) e))
      | Ok sp => new_saml_providers samlCfg rest egress (<[ip_Name idp := sp]> acc)
      end
  end.

Definition NewAuthHandlers (c : login_config) (repo : bool) (egress : Egress.guard) : prog Y (res AuthHandlers) :=
  let? oidc := (if oidc_Enabled c then
                  let? p := NewOIDCProvider true (oidc_Client c) in ret (Ok (Some p))
                else ret (Ok None)) in
  let? azure := (if az_Enabled (lc_AzureAD c) then
                   let? p := NewAzureADProvider (lc_AzureAD c) in ret (Ok (Some p))
                 else ret (Ok None)) in
  let? saml := (if saml_Enabled c then new_saml_providers (saml_Config c) (saml_IdPs c) egress ∅ else ret (Ok ∅)) in
  if ldap_Enabled c then
    match NewLDAPProvider (ldap_Config c) with
    | Err e => ret (Err (ErrWrap "ldap" e))
    | Ok p => ret (Ok {| cfg := c; has_oidcConfigRepo := repo; oidcProvider := oidc; azureADProvider := azure;
                         samlProviders := saml; ldapProvider := Some p |})
    end
  else ret (Ok {| cfg := c; has_oidcConfigRepo := repo; oidcProvider := oidc; azureADProvider := azure;
                  samlProviders := saml; ldapProvider := None |}).

Definition SetOIDCProvider (provider : OIDCProvider) (h : AuthHandlers) : AuthHandlers :=
  {| cfg := cfg h; has_oidcConfigRepo := has_oidcConfigRepo h; oidcProvider := Some provider;
     azureADProvider := azureADProvider h; samlProviders := samlProviders h; ldapProvider := ldapProvider h |}.
Definition SetLDAPProvider (provider : LDAPConfiguration) (h : AuthHandlers) : AuthHandlers :=
  {| cfg := cfg h; has_oidcConfigRepo := has_oidcConfigRepo h; oidcProvider := oidcProvider h;
     azureADProvider := azureADProvider h; samlProviders := samlProviders h; ldapProvider := Some provider |}.

Context (h : AuthHandlers).

Definition generateState : P (res string) :=
  let? b := ident (random_bytes 32) in ret (Ok (base64url b)).

(** The key that comes first when the map is ranged over. *)
Definition first_idp : P (option string) :=
  let! names := outer (range_keys (map fst (map_to_list (samlProviders h)))) in
  ret (head names).

Definition origin_text (raw : string) : option string :=
  if String.eqb raw "" then None
  else match url_Parse raw with Err _ => None | Ok u => Some (Scheme u +:+ "://" +:+ Host u) end.

(** [strings.TrimRight(_, "/")] *)
Definition deriveFrontendURL (c : login_config) : string :=
  if negb (String.eqb (cf_PublicURL (lc_urls c)) "") then trim_slashes (cf_PublicURL (lc_urls c))
  else match origin_text (oc_RedirectURL (oidc_Client c)) with
       | Some o => o
       | None => match origin_text (az_RedirectURL (lc_AzureAD c)) with
                 | Some o => o
                 | None => trim_slashes (cf_BaseURL (lc_urls c))
                 end
       end.

(** ** Login *)

Definition session_of (state : string) (created : Z) (provider nonce verifier samlID : string) : SessionState := {|
  ss_State := state; ss_CreatedAt := created; ss_RedirectURL := ""; ss_ProviderType := provider;
  ss_Nonce := nonce; ss_CodeVerifier := verifier; ss_SAMLRequestID := samlID |}.

Definition begin_oidc (p : OIDCProvider) (provider label state : string) (created : Z) : P reply :=
  let! challenge := outer (BeginAuth p state) in
  match challenge with
  | Err _ => fail 500 ("Failed to initiate " +:+ label +:+ " login")
  | Ok ch =>
      let! saved := on_store (Save state (session_of state created provider (ac_Nonce ch) (ac_CodeVerifier ch) "")
                                (10 * minutes)) in
      match saved with
      | Err _ => fail 500 "Failed to save session state"
      | Ok _ => answer 302 (LTo (ac_URL ch) [])
      end
  end.

Definition begin_saml (provider state : string) (created : Z) : P reply :=
  let! idpName := (if String.eqb provider "saml" then
                     let! n := first_idp in ret (default "" n)
                   else ret (trim_prefix provider "saml:")) in
  match samlProviders h !! idpName with
  | None => fail 400 ("SAML IdP " +:+ idpName +:+ " not configured")
  | Some sp =>
      let! req := outer (MakeAuthenticationRequest sp state) in
      match req with
      | Err _ => fail 500 "Failed to initiate SAML login"
      | Ok (redirectURL, reqID) =>
          run! on_store (Save state (session_of state created ("saml:" +:+ idpName) "" "" reqID) (10 * minutes)) in
          answer 302 (LTo redirectURL [])
      end
  end.

Definition LoginHandler (provider : string) : P reply :=
  let provider := if String.eqb provider "" then "oidc" else provider in
  let! state := generateState in
  match state with
  | Err _ => fail 500 "Failed to generate state"
  | Ok state =>
      let! created := time_now in
      let! saved := on_store (Save state (session_of state created provider "" "" "") (10 * minutes)) in
      match saved with
      | Err _ => fail 500 "Failed to save session state"
      | Ok _ =>
          if String.eqb provider "oidc" then
            match oidcProvider h with
            | None => fail 400 "OIDC provider not configured"
            | Some p => begin_oidc p provider "OIDC" state created
            end
          else if String.eqb provider "azuread" then
            match azureADProvider h with
            | None => fail 400 "Azure AD provider not configured"
            | Some p => begin_oidc p provider "Azure AD" state created
            end
          else if String.eqb provider "saml" || has_prefix provider "saml:" then begin_saml provider state created
          else fail 400 "Invalid provider. Must be 'oidc', 'azuread', or 'saml'"
      end
  end.

(** ** Accounts and roles *)

Definition guardEmailRebind (oidcSub email : string) : P (option gerror) :=
  if String.eqb email "" then ret None
  else
    let! row := outer (SubjectByEmail email) in
    ret match row with
        | Err e => Some e
        | Ok None | Ok (Some None) => None
        | Ok (Some (Some existing)) =>
            if String.eqb existing oidcSub then None else Some errEmailBoundToAnotherIdentity
        end.

Definition guardProvisionableRole (roleTemplateName : string) : P (option gerror) :=
  let! row := outer (ScopesOfRoleNamed roleTemplateName) in
  ret match row with
      | Ok None => None
      | Err e => Some (ErrWrap ("look up role template " +:+ roleTemplateName +:+ " scopes") e)
      | Ok (Some text) =>
          match scopes_json text with
          | Err e => Some (ErrWrap ("parse role template " +:+ roleTemplateName +:+ " scopes") e)
          | Ok scopes => ValidateProvisionableScopes scopes
          end
      end.

Definition resolveGroupClaimName : P string :=
  if has_oidcConfigRepo h then
    let! c := outer ActiveGroupConfig in
    ret match c with
        | Ok (Some (claimName, _, _)) => if String.eqb claimName "" then GroupClaimName (cfg h) else claimName
        | _ => GroupClaimName (cfg h)
        end
  else ret (GroupClaimName (cfg h)).

Definition resolveGroupMappingConfig : P (list groupMapping * string) :=
  let configured := (oidc_GroupMappings (cfg h), oidc_DefaultRole (cfg h)) in
  if has_oidcConfigRepo h then
    let! c := outer ActiveGroupConfig in
    ret match c with
        | Ok (Some (cn, mappings, dr)) =>
            if negb (String.eqb cn "") || negb (bool_decide (mappings = [])) || negb (String.eqb dr "")
            then (mappings, dr) else configured
        | _ => configured
        end
  else ret configured.

(** One managed organization; its ID, if there is such an organization. *)
Definition reconcile_org (userID orgName : string) (role : option string) : P (res (option string)) :=
  let! org := outer (OrgByName orgName) in
  match org with
  | Err _ | Ok None => ret (Ok None)
  | Ok (Some org) =>
      let id := org_ID org in
      let done r what := match r with Err e => Err (ErrWrap what e) | Ok _ => Ok (Some id) end in
      let! member := outer (CheckMembership id userID) in
      match member with
      | Err e => ret (Err (ErrWrap "check membership" e))
      | Ok isMember =>
          match role with
          | Some role =>
              let! rejected := guardProvisionableRole role in
              match rejected with
              | Some _ => ret (Ok (Some id))
              | None =>
                  if isMember then
                    let! r := outer (UpdateMemberRole id userID role) in ret (done r "update member role")
                  else
                    let! r := outer (OrgAddMemberWithParams id userID role) in ret (done r "add member")
              end
          | None =>
              if isMember then
                let! r := outer (OrgRemoveMember id userID) in ret (done r "revoke member")
              else ret (Ok (Some id))
          end
      end
  end.

Fixpoint reconcile_orgs (userID : string) (orgs : list string) (desired : gmap string string) (ids : list string)
  : P (res (list string)) :=
  match orgs with
  | [] => ret (Ok ids)
  | o :: rest =>
      let? id := reconcile_org userID o (desired !! o) in
      reconcile_orgs userID rest desired (match id with Some id => id :: ids | None => ids end)
  end.

Definition apply_default_role (userID defaultRole : string) (managedOrgIDs : list string) : P (res unit) :=
  let! org := outer OrgDefault in
  match org with
  | Err e => ret (Err (ErrWrap "default organization not found for default_role fallback" e))
  | Ok None => ret (Err (ErrMsg "default organization not found for default_role fallback: %!w(<nil>)"))
  | Ok (Some org) =>
      if bool_decide (org_ID org ∈ managedOrgIDs) then ret (Ok tt)
      else
        let! member := outer (CheckMembership (org_ID org) userID) in
        match member with
        | Err e => ret (Err (ErrWrap "check membership default org" e))
        | Ok true => ret (Ok tt)
        | Ok false =>
            let! r := outer (OrgAddMemberWithParams (org_ID org) userID defaultRole) in
            ret match r with Err e => Err (ErrWrap "add default member" e) | Ok _ => Ok tt end
        end
  end.

Definition reconcileGroupMemberships (userID : string) (groups : list string) (mappings : list groupMapping)
  (defaultRole : string) : P (res unit) :=
  if bool_decide (mappings = []) && String.eqb defaultRole "" then ret (Ok tt)
  else
    let '(managed, desired) := desired_roles groups mappings in
    let? ids := reconcile_orgs userID managed desired [] in
    if String.eqb defaultRole "" then ret (Ok tt) else apply_default_role userID defaultRole ids.

Definition applyGroupMappings (userID : string) (groups : list string) : P (res unit) :=
  let! c := resolveGroupMappingConfig in
  reconcileGroupMemberships userID groups (fst c) (snd c).

Definition applySAMLGroupMappings (userID : string) (groups : list string) : P (res unit) :=
  reconcileGroupMemberships userID groups (saml_GroupMappings (cfg h)) (saml_DefaultRole (cfg h)).

Definition applyLDAPGroupMappings (userID : string) (groupDNs : list string) : P (res unit) :=
  reconcileGroupMemberships userID (map to_lower groupDNs)
    (map (fun m => {| gm_Group := to_lower (lg_GroupDN m); gm_Organization := lg_Organization m;
                      gm_Role := lg_Role m |}) (ldap_GroupMappings (cfg h)))
    (ldap_DefaultRole (cfg h)).

(** ** Sessions *)

Definition combined_scopes (userID : string) : P (list string) :=
  let! scopes := outer (GetUserCombinedScopes userID) in
  ret match scopes with Ok s => s | Err _ => [] end.

(** Session and token cookie; a token cookie that cannot be made is left out. *)
Definition setSessionCookies (jwtToken : string) : P (list http_cookie) :=
  let! csrf := SetCSRFCookie in
  ret (auth_cookie jwtToken :: match csrf with Ok c => [c] | Err _ => [] end).

(** What all the sign-ins do once the provider has spoken: the account, its roles, its
    scopes, the session. *)
Definition open_session (sub email name : string) (verified : bool) (apply : string -> P (res unit))
  : P (login_failure + list http_cookie) :=
  let! bound := guardEmailRebind sub email in
  match bound with
  | Some e => ret (inl (EmailBound e))
  | None =>
      let! user := outer (GetOrCreateUserByOIDC sub email name verified) in
      match user with
      | Err _ => ret (inl NoAccount)
      | Ok user =>
          run! apply (acc_ID user) in
          let! scopes := combined_scopes (acc_ID user) in
          let! jwtToken := outer (GenerateJWT (acc_ID user) (acc_Email user) scopes (24 * hours)) in
          match jwtToken with
          | Err _ => ret (inl NoToken)
          | Ok jwtToken => let! cookies := setSessionCookies jwtToken in ret (inr cookies)
          end
      end
  end.

Definition callbackError (errCode description : string) : P reply :=
  let frontendBase := deriveFrontendURL (cfg h) in
  if String.eqb frontendBase "" then fail 400 description
  else answer 302 (LTo (frontendBase +:+ "/auth/callback") [("error", errCode); ("error_description", description)]).

Definition signed_in (session : login_failure + list http_cookie) : P reply :=
  match session with
  | inl (EmailBound e) => callbackError "email_bound" (Error e)
  | inl NoAccount => callbackError "user_creation_failed" "Failed to look up or create your account."
  | inl NoToken => callbackError "jwt_failed" "Failed to generate an authentication token."
  | inr cookies =>
      ret {| rp_status := 302; rp_body := LTo (deriveFrontendURL (cfg h) +:+ "/auth/callback") []; rp_cookies := cookies |}
  end.

(** ** Callback *)

(** Redeem the code and check the ID token; what goes wrong is named by a code and a text. *)
Definition redeem (p : OIDCProvider) (code : string) (ss : SessionState)
  : P ((string * string) + (IDToken * token_info)) :=
  let! token := outer (ExchangeCode p code (ss_CodeVerifier ss)) in
  match token with
  | Err _ => ret (inl ("token_exchange_failed", "Failed to exchange authorization code for token."))
  | Ok None => ret (inl ("no_id_token", "The identity provider did not return an ID token."))
  | Ok (Some rawIDToken) =>
      let! idToken := outer (VerifyIDToken p rawIDToken (ss_Nonce ss)) in
      match idToken with
      | Err _ => ret (inl ("id_token_invalid", "The ID token could not be verified."))
      | Ok idToken =>
          ret match ExtractUserInfo p idToken with
              | Err _ => inl ("user_info_failed", "Failed to extract user information from the ID token.")
              | Ok info => inr (idToken, info)
              end
      end
  end.

Definition emailVerifiedClaim (t : IDToken) : option bool :=
  match email_verified_claim t with Ok v => v | Err _ => None end.

Definition finish_callback (idToken : IDToken) (info : token_info) (groups : list string) : P reply :=
  match enforceEmailVerified (emailVerifiedClaim idToken) (RequireVerifiedEmail (cfg h)) with
  | Some e => callbackError "email_not_verified" (Error e)
  | None =>
      let! session := open_session (ti_sub info) (ti_email info) (ti_name info) (ti_emailVerified info)
                        (fun id => applyGroupMappings id groups) in
      signed_in session
  end.

(** An Azure sign-in brings no groups. *)
Definition complete_callback (code : string) (ss : SessionState) : P reply :=
  let provider := ss_ProviderType ss in
  if String.eqb provider "oidc" then
    match oidcProvider h with
    | None => callbackError "provider_not_configured" "OIDC provider is not configured."
    | Some p =>
        let! r := redeem p code ss in
        match r with
        | inl (errCode, description) => callbackError errCode description
        | inr (idToken, info) =>
            let! claimName := resolveGroupClaimName in
            finish_callback idToken info (ExtractGroups p idToken claimName)
        end
    end
  else if String.eqb provider "azuread" then
    match azureADProvider h with
    | None => callbackError "provider_not_configured" "Azure AD provider is not configured."
    | Some p =>
        let! r := redeem p code ss in
        match r with
        | inl (errCode, description) => callbackError errCode description
        | inr (idToken, info) => finish_callback idToken info []
        end
    end
  else if String.eqb provider "saml" || has_prefix provider "saml:"
  then callbackError "invalid_flow" "SAML responses should be sent to the ACS endpoint."
  else callbackError "unknown_provider" "Unknown authentication provider.".

Definition CallbackHandler (code state : string) : P reply :=
  let! loaded := on_store (Load state) in
  match loaded with
  | Err _ => callbackError "state_error" "Failed to validate session state. Please try logging in again."
  | Ok None => callbackError "invalid_state" "Invalid state parameter. Please try logging in again."
  | Ok (Some ss) =>
      let! now := time_now in
      if 5 * minutes <? now - ss_CreatedAt ss
      then callbackError "state_expired" "Login session expired. Please try logging in again."
      else
        run! on_store (StateStore.Delete state) in
        complete_callback code ss
  end.

(** ** SAML *)

(** The provider a relay state names, and the request it belongs to. *)
Definition relayed (relayState : string) : P (option (string * saml_provider) * list string) :=
  if String.eqb relayState "" then ret (None, [])
  else
    let! loaded := on_store (Load relayState) in
    match loaded with
    | Ok (Some ss) =>
        run! on_store (StateStore.Delete relayState) in
        let idpName := trim_prefix (ss_ProviderType ss) "saml:" in
        ret (if has_prefix (ss_ProviderType ss) "saml:" then pair idpName <$> samlProviders h !! idpName else None,
             if String.eqb (ss_SAMLRequestID ss) "" then [] else [ss_SAMLRequestID ss])
    | _ => ret (None, [])
    end.

Definition choose_idp (named : option (string * saml_provider)) : P (option (string * saml_provider)) :=
  match named with
  | Some p => ret (Some p)
  | None =>
      let! name := first_idp in
      ret match name with
          | None => None
          | Some n => pair n <$> samlProviders h !! n
          end
  end.

Definition assertion_key (id : string) : string := "saml_assertion:" +:+ id.
Definition replay_window (left : Z) : Z :=
  if (left <=? 0) || (15 * minutes <? left) then 15 * minutes else left.

(** Record the assertion, if the provider takes responses nobody asked for. *)
Definition reserve_assertion (sp : saml_provider) (meta : AssertionMeta) : P (option (string * string)) :=
  if pr_allowIDPInitiated sp && negb (String.eqb (am_ID meta) "") then
    let! now := time_now in
    let! reserved := on_store (Reserve (assertion_key (am_ID meta)) (replay_window (am_NotOnOrAfter meta - now))) in
    ret match reserved with
        | Err _ => Some ("assertion_invalid", "SAML assertion validation failed.")
        | Ok false => Some ("assertion_replayed", "This SAML assertion has already been used.")
        | Ok true => None
        end
  else ret None.

Definition SAMLACSHandler (relayState response : string) : P reply :=
  let! r := relayed relayState in
  let '(named, possibleRequestIDs) := r in
  let! chosen := choose_idp named in
  match chosen with
  | None => callbackError "provider_not_configured" "No SAML IdP configured."
  | Some (idpName, sp) =>
      if bool_decide (possibleRequestIDs = []) && negb (pr_allowIDPInitiated sp)
      then callbackError "idp_initiated_disabled" "Unsolicited IdP-initiated SAML login is not enabled."
      else
        let! v := outer (ValidateResponse sp response possibleRequestIDs (GroupAttributeName (cfg h))) in
        match v with
        | Err _ => callbackError "assertion_invalid" "SAML assertion validation failed."
        | Ok (userInfo, meta) =>
            let! refused := reserve_assertion sp meta in
            match refused with
            | Some (errCode, description) => callbackError errCode description
            | None =>
                if String.eqb (su_Email userInfo) "" && String.eqb (su_NameID userInfo) ""
                then callbackError "user_info_failed" "SAML assertion did not contain an email or NameID."
                else
                  let sub := "saml:" +:+ idpName +:+ ":" +:+ su_NameID userInfo in
                  let! session := open_session sub (su_Email userInfo) (su_Name userInfo) true
                                    (fun id => applySAMLGroupMappings id (su_Groups userInfo)) in
                  signed_in session
            end
        end
  end.

Definition SAMLMetadataHandler (idpName : string) : P reply :=
  let! provider := (if negb (String.eqb idpName "") then ret (samlProviders h !! idpName)
                    else let! c := choose_idp None in ret (snd <$> c)) in
  match provider with
  | None => fail 404 "No SAML provider configured"
  | Some p => match sp_Metadata (pr_sp p) with
              | Err _ => fail 500 "Failed to marshal SP metadata"
              | Ok xml => answer 200 (LMetadata xml)
              end
  end.

(** ** LDAP *)

(** The body must carry both. *)
Definition LDAPLoginHandler (bound : res (string * string)) : P reply :=
  match bound with
  | Err _ => fail 400 "username and password are required"
  | Ok (username, password) =>
      if String.eqb username "" || String.eqb password "" then fail 400 "username and password are required"
      else
        match ldapProvider h with
        | None => fail 400 "LDAP authentication is not configured"
        | Some c =>
            let! r := outer (Authenticate c username password) in
            match r with
            | Err _ => fail 401 "Invalid username or password"
            | Ok u =>
                let! session := open_session ("ldap:" +:+ lu_DN u) (lu_Email u) (lu_Name u) true
                                  (fun id => applyLDAPGroupMappings id (lu_Groups u)) in
                match session with
                | inl (EmailBound e) => fail 403 (Error e)
                | inl NoAccount => fail 500 "Failed to look up or create your account"
                | inl NoToken => fail 500 "Failed to generate authentication token"
                | inr cookies => ret {| rp_status := 200; rp_body := LExpires 86400; rp_cookies := cookies |}
                end
            end
        end
  end.

(** ** Sessions that exist *)

(** Best effort. *)
Definition revoke_current : P unit :=
  let! claims := c_Get "jwt_claims" in
  match claims with
  | Some (VClaims c) =>
      if String.eqb (JTI c) "" then ret tt
      else match cl_ExpiresAt c with
           | None => ret tt
           | Some expires => run! outer (RevokeToken (JTI c) (cl_UserID c) expires) in ret tt
           end
  | _ => ret tt
  end.

Definition LogoutHandler : P reply :=
  run! revoke_current in
  let home := deriveFrontendURL (cfg h) +:+ "/" in
  let cookies := [expired_auth_cookie; ClearCSRFCookie] in
  let plain := ret {| rp_status := 302; rp_body := LTo home []; rp_cookies := cookies |} in
  match oidcProvider h with
  | None => plain
  | Some p =>
      if String.eqb (GetEndSessionEndpoint p) "" then plain
      else match url_Parse (GetEndSessionEndpoint p) with
           | Err _ => plain
           | Ok u =>
               ret {| rp_status := 302;
                      rp_body := LTo (url_text u) [("post_logout_redirect_uri", home);
                                                   ("client_id", oc_ClientID (oidc_Client (cfg h)))];
                      rp_cookies := cookies |}
           end
  end.

(** The user of the request, as [c.Get] finds it. *)
Definition with_user (k : string -> P reply) : P reply :=
  let! userVal := c_Get "user_id" in
  match userVal with
  | None => fail 401 "User not authenticated"
  | Some (VString userID) => k userID
  | Some _ => fail 500 "Invalid user ID format"
  end.

Definition RefreshHandler : P reply :=
  with_user (fun userID =>
    let! user := outer (AccountByID userID) in
    match user with
    | Err _ | Ok None => fail 401 "User not found"
    | Ok (Some user) =>
        let! scopes := combined_scopes (acc_ID user) in
        run! revoke_current in
        let! newToken := outer (GenerateJWT (acc_ID user) (acc_Email user) scopes (24 * hours)) in
        match newToken with
        | Err _ => fail 500 "Failed to generate new token"
        | Ok newToken =>
            let! cookies := setSessionCookies newToken in
            ret {| rp_status := 200; rp_body := LExpires 86400; rp_cookies := cookies |}
        end
    end).

Definition MeHandler : P reply :=
  with_user (fun userID =>
    let! u := outer (GetUserWithOrgRoles userID) in
    match u with
    | Err _ => fail 500 "Failed to get user information"
    | Ok None => fail 404 "User not found"
    | Ok (Some u) =>
        let! claims := c_Get "jwt_claims" in
        let expires := match claims with Some (VClaims c) => cl_ExpiresAt c | _ => None end in
        let primary := match uw_Memberships u with
                       | m :: _ => match ur_RoleTemplateID m with
                                   | Some _ => Some (ur_RoleTemplateName m, ur_RoleTemplateDisplayName m)
                                   | None => None
                                   end
                       | [] => None
                       end in
        answer 200 (LMe u (GetAllowedScopes u) expires primary)
    end).

(** ** What is configured *)

Definition ProvidersHandler : P reply :=
  let! names := outer (range_keys (map fst (map_to_list (samlProviders h)))) in
  answer 200 (LProviders (
    match oidcProvider h with Some _ => [("oidc", "OpenID Connect")] | None => [] end ++
    match azureADProvider h with Some _ => [("azuread", "Azure AD")] | None => [] end ++
    map (fun n => ("saml", n)) names ++
    match ldapProvider h with Some _ => [("ldap", "LDAP")] | None => [] end)).

Definition IdentityGroupMappingsHandler : P reply :=
  answer 200 (LMappings
    (if saml_Enabled (cfg h) then Some (GroupAttributeName (cfg h), saml_DefaultRole (cfg h), saml_GroupMappings (cfg h)) else None)
    (if ldap_Enabled (cfg h) then Some (ldap_DefaultRole (cfg h), ldap_GroupMappings (cfg h)) else None)).

Definition MTLSConfigHandler : P reply :=
  answer 200 (LMtls (mtls_Enabled (cfg h)) (mtls_ClientCAFile (cfg h)) (mtls_Mappings (cfg h))).

(** ** Development *)

(** [DEV_MODE] *)
Definition IsDevMode (devMode : string) : bool := String.eqb devMode "true" || String.eqb devMode "1".

Definition DevModeMiddleware (devMode : string) : P unit :=
  if negb (IsDevMode devMode) then c_Abort 403 "Development endpoints are disabled in production" else c_Next.

Definition with_admin (message : string) (k : P reply) : P reply :=
  let! scopesVal := c_Get "scopes" in
  match scopesVal with
  | None => fail 403 "No scopes found - must be authenticated"
  | Some (VStrings scopes) => if negb (HasScope scopes ScopeAdmin) then fail 403 message else k
  | Some _ => fail 500 "Invalid scopes format"
  end.

Definition dev_session (user : account) : P reply :=
  let! scopes := combined_scopes (acc_ID user) in
  let! token := outer (GenerateJWT (acc_ID user) (acc_Email user) scopes (24 * hours)) in
  match token with
  | Err _ => fail 500 "Failed to generate token"
  | Ok token =>
      let! cookies := setSessionCookies token in
      ret {| rp_status := 200; rp_body := LUser user; rp_cookies := cookies |}
  end.

Definition ImpersonateUserHandler (targetUserID : string) : P reply :=
  with_admin "Only administrators can impersonate users" (
    let! user := outer (AccountByID targetUserID) in
    match user with
    | Err _ => fail 500 "Failed to retrieve user"
    | Ok None => fail 404 "User not found"
    | Ok (Some user) => dev_session user
    end).

(** The name shown for the first role; a role whose display name is NULL panics. *)
Definition primary_role (u : option user_with_roles) : option string :=
  match u with
  | Some u => match uw_Memberships u with
              | m :: _ => match ur_RoleTemplateName m with
                          | Some _ => ur_RoleTemplateDisplayName m
                          | None => Some "No role"
                          end
              | [] => Some "No role"
              end
  | None => Some "No role"
  end.

Fixpoint list_roles (users : list account) (acc : list (account * string)) : P reply :=
  match users with
  | [] => answer 200 (LUsers (rev acc))
  | u :: rest =>
      let! r := outer (GetUserWithOrgRoles (acc_ID u)) in
      match r with
      | Err _ => list_roles rest acc
      | Ok roles => match primary_role roles with
                    | Some name => list_roles rest ((u, name) :: acc)
                    | None => fail 500 ""
                    end
      end
  end.

Definition ListUsersForImpersonationHandler : P reply :=
  with_admin "Only administrators can access this endpoint" (
    let! users := outer (ListUsers 100 0) in
    match users with
    | Err _ => fail 500 "Failed to list users"
    | Ok users => list_roles users []
    end).

Definition DevLoginHandler : P reply :=
  let! user := outer (AccountByEmail "admin@dev.local") in
  match user with
  | Err _ => fail 500 "Failed to look up dev admin user"
  | Ok None => fail 404 "Dev admin user (admin@dev.local) not found. Run the seed script: psql -f backend/scripts/create-dev-admin-user.sql"
  | Ok (Some user) => dev_session user
  end.

Definition DevStatusHandler (devMode : string) : P reply := answer 200 (LDevMode (IsDevMode devMode)).
End Handlers.
