(* ===== verification/LoginSafety.v ===== *)
(** * What a session is worth

    Theorems about the handlers of [Login]: an OpenID Connect session comes of the
    answer to a login that was begun here, a SAML assertion opens one session while its
    marker stands, group mappings give only what they say, and an LDAP session needs the
    password.  The stores are any that satisfy [StateStoreLaws], the identity module any
    that satisfies [OrgLaws] and [AccountLaws]. *)

From S2P Require Import Setup.
From S2P Require Import Prelude GoStrings SemVer Validation TfReleases IpAddr Egress Web Rbac AuthMiddleware Hoare Identity.
From S2P Require Import Csrf StateStore SignIn Login.
From stdpp Require Import gmap.
#[local] Open Scope Z_scope.

Section Sessions.
Context {M Y : Type} `{StateStoreLaws M} `{Randomness Y, UrlLib, OidcLib Y, SamlTypes, !SamlLib Y, DirectoryLib Y}
  `{Accounts Y, IdentityAdmin Y, Parsers, ScopeLib, MapRange Y}.
#[local] Abbreviation W := (env (web (cell M Y))).
#[local] Abbreviation pending w := (store (ext (st w))).
#[local] Abbreviation P := (prog W).

(** ** Steps that leave the pending sign-ins alone *)

(** Bytes the random source can give. *)
Definition drawn (b : list Z) : Prop := exists y : Y, fst (random_bytes 32 y) = Ok b.

Definition same_store (w w' : W) : Prop := pending w' = pending w /\ clock w <= clock w'.

Section Along.
Context (R : W -> W -> Prop) `{!PreOrder R} (Hsame : forall w w', same_store w w' -> R w w').

Lemma along_outer {A} (f : Y -> A * Y) : preserves R (outer f).
Proof using Hsame. intros w. apply Hsame. split; cbn; [done | lia]. Qed.

Lemma along_random n : preserves R (ident (random_bytes n)).
Proof using Hsame. intros w. apply Hsame. split; cbn; [done | lia]. Qed.

Lemma along_time : preserves R time_now.
Proof using Hsame. intros w. apply Hsame. split; cbn; [done | lia]. Qed.

Lemma along_gets {A} (f : web (cell M Y) -> A) : preserves R (gets f).
Proof using Hsame. intros w. apply Hsame. split; cbn; [done | lia]. Qed.

Lemma along_Get k : preserves R (c_Get k).
Proof using Hsame. apply along_gets. Qed.

#[local] Hint Resolve along_outer along_random along_time along_gets along_Get : registry.

Lemma along_callbackError h e d : preserves R (callbackError h e d).
Proof using Hsame PreOrder0. unfold callbackError, fail, answer. preserve. Qed.
#[local] Hint Resolve along_callbackError : registry.

Lemma along_cookies jwt : preserves R (setSessionCookies jwt).
Proof using Hsame PreOrder0. unfold setSessionCookies, SetCSRFCookie, generateCSRFToken. preserve. Qed.
#[local] Hint Resolve along_cookies : registry.

Lemma along_session sub email name v apply :
  (forall id, preserves R (apply id)) -> preserves R (open_session sub email name v apply).
Proof using Hsame PreOrder0.
  intros Ha. unfold open_session, guardEmailRebind, combined_scopes. preserve; apply Ha.
Qed.

Lemma along_reconcile_org u o r : preserves R (reconcile_org u o r).
Proof using Hsame PreOrder0. unfold reconcile_org, guardProvisionableRole. preserve. Qed.
#[local] Hint Resolve along_reconcile_org : registry.

Lemma along_reconcile_orgs u os d ids : preserves R (reconcile_orgs u os d ids).
Proof using Hsame PreOrder0.
  revert ids. induction os as [|o os IH]; intros ids; cbn [reconcile_orgs]; [preserve|].
  apply preserves_bind; [done | preserve |]. intros [id|e]; [apply IH | preserve].
Qed.
#[local] Hint Resolve along_reconcile_orgs : registry.

Lemma along_reconcile u gs ms d : preserves R (reconcileGroupMemberships u gs ms d).
Proof using Hsame PreOrder0. unfold reconcileGroupMemberships, apply_default_role. preserve. Qed.
#[local] Hint Resolve along_reconcile : registry.

Lemma along_apply h u gs : preserves R (applyGroupMappings h u gs).
Proof using Hsame PreOrder0. unfold applyGroupMappings, resolveGroupMappingConfig. preserve. Qed.
Lemma along_apply_saml h u gs : preserves R (applySAMLGroupMappings h u gs).
Proof using Hsame PreOrder0. apply along_reconcile. Qed.
Lemma along_apply_ldap h u gs : preserves R (applyLDAPGroupMappings h u gs).
Proof using Hsame PreOrder0. apply along_reconcile. Qed.

Lemma along_signed_in h s : preserves R (signed_in h s).
Proof using Hsame PreOrder0. unfold signed_in. preserve. Qed.
#[local] Hint Resolve along_session along_apply along_apply_saml along_apply_ldap along_signed_in : registry.

Lemma along_finish h t i gs : preserves R (finish_callback h t i gs).
Proof using Hsame PreOrder0. unfold finish_callback. preserve. Qed.
#[local] Hint Resolve along_finish : registry.

Lemma along_complete h code ss : preserves R (complete_callback h code ss).
Proof using Hsame PreOrder0. unfold complete_callback, redeem, resolveGroupClaimName. preserve. Qed.
#[local] Hint Resolve along_complete : registry.

(** The handlers that touch the store. *)
Lemma along_callback h code state :
  preserves R (on_store (Load state)) -> preserves R (on_store (StateStore.Delete state)) ->
  preserves R (CallbackHandler h code state).
Proof using Hsame PreOrder0. intros Hl Hd. unfold CallbackHandler. preserve; done. Qed.

Lemma along_choose h n : preserves R (choose_idp h n).
Proof using Hsame PreOrder0. unfold choose_idp, first_idp. preserve. Qed.
#[local] Hint Resolve along_choose : registry.

Lemma along_relayed h relay :
  preserves R (on_store (Load relay)) -> preserves R (on_store (StateStore.Delete relay)) ->
  preserves R (relayed h relay).
Proof using Hsame PreOrder0. intros Hl Hd. unfold relayed. preserve; done. Qed.

Lemma along_reserve sp meta :
  (forall id ttl, preserves R (on_store (Reserve (assertion_key id) ttl))) -> preserves R (reserve_assertion sp meta).
Proof using Hsame PreOrder0. intros Hr. unfold reserve_assertion. preserve. Qed.

Lemma along_acs h relay response :
  preserves R (on_store (Load relay)) -> preserves R (on_store (StateStore.Delete relay)) ->
  (forall id ttl, preserves R (on_store (Reserve (assertion_key id) ttl))) ->
  preserves R (SAMLACSHandler h relay response).
Proof using Hsame PreOrder0.
  intros Hl Hd Hr. unfold SAMLACSHandler. pose proof (along_relayed h relay Hl Hd).
  pose proof (fun sp meta => along_reserve sp meta Hr). preserve.
Qed.

Lemma along_login h provider :
  (forall b ss ttl, drawn b -> preserves R (on_store (Save (base64url b) ss ttl))) ->
  preserves R (LoginHandler h provider).
Proof using Hsame PreOrder0.
  intros Hs. unfold LoginHandler. cbv zeta.
  apply (preserves_bind_ret R (fun r => forall s, r = Ok s -> exists b, s = base64url b /\ drawn b)).
  - unfold generateState. preserve.
  - intros w. unfold generateState, bind. cbn. destruct (random_bytes 32 (outside (ext (st w)))) as [[b|e] y'] eqn:E.
    2:{ cbn. done. }
    cbn. intros s [= <-]. exists b. split; [done|]. exists (outside (ext (st w))). by rewrite E.
  - intros [s|e] Hb; [|unfold fail, answer; preserve].
    destruct (Hb s eq_refl) as (b & -> & Hd). pose proof (fun ss ttl => Hs b ss ttl Hd). unfold begin_oidc, begin_saml, first_idp, fail, answer.
    preserve.
Qed.

Lemma along_ldap h bound : preserves R (LDAPLoginHandler h bound).
Proof using Hsame PreOrder0.
  unfold LDAPLoginHandler, fail, answer. preserve.
Qed.

Lemma along_revoke : preserves R revoke_current.
Proof using Hsame PreOrder0. unfold revoke_current. preserve. Qed.
#[local] Hint Resolve along_revoke : registry.

Lemma along_refresh : preserves R RefreshHandler.
Proof using Hsame PreOrder0. unfold RefreshHandler, with_user, combined_scopes, fail, answer. preserve. Qed.

Lemma along_logout h : preserves R (LogoutHandler h).
Proof using Hsame PreOrder0. unfold LogoutHandler. preserve. Qed.
End Along.

#[export] Instance same_store_preorder : PreOrder same_store.
Proof.
  split; [intros w; split; [done | lia]|]. intros w1 w2 w3 [L1 C1] [L2 C2]. split; [congruence | lia].
Qed.

(** ** Keys that are gone, markers that stand *)

Definition gone (k : string) (w w' : W) : Prop :=
  (present (pending w') k -> present (pending w) k) /\ clock w <= clock w'.
Definition kept (k : string) (e : Z) (w w' : W) : Prop :=
  clock w <= clock w' /\ (held (pending w) k e -> clock w' < e -> held (pending w') k e).

#[export] Instance gone_preorder k : PreOrder (gone k).
Proof.
  split; [intros w; split; [done | lia]|]. intros w1 w2 w3 [L1 C1] [L2 C2]. split; [auto | lia].
Qed.
#[export] Instance kept_preorder k e : PreOrder (kept k e).
Proof.
  split; [intros w; split; [lia | done]|]. intros w1 w2 w3 [C1 L1] [C2 L2].
  split; [lia|]. intros Hh Hc. apply L2; [apply L1; [done | lia] | done].
Qed.

Lemma same_gone k w w' : same_store w w' -> gone k w w'.
Proof. intros [Hs Hc]. split; [by rewrite Hs | done]. Qed.
Lemma same_kept k e w w' : same_store w w' -> kept k e w w'.
Proof. intros [Hs Hc]. split; [done | by rewrite Hs]. Qed.

Definition store_env (w : W) : env M := Env (pending w) (faults w) (clock w) (ticks w).

Lemma gone_load k j : preserves (gone k) (on_store (Load j)).
Proof.
  intros w. destruct (load_law j (store_env w)) as (Hp & _ & _), (clock_law (store_env w)) as (Hc & _).
  split; [apply Hp | apply Hc].
Qed.
Lemma gone_delete k j : preserves (gone k) (on_store (StateStore.Delete j)).
Proof.
  intros w. destruct (delete_law j (store_env w)) as (Hp & _ & _), (clock_law (store_env w)) as (_ & Hc & _).
  split; [apply Hp | apply Hc].
Qed.
Lemma gone_save k j d ttl : j <> k -> preserves (gone k) (on_store (Save j d ttl)).
Proof.
  intros Hj w. destruct (save_law j d ttl (store_env w)) as (Hp & _), (clock_law (store_env w)) as (_ & _ & Hc & _).
  split; [|apply Hc]. intros Hk. destruct (Hp _ Hk) as [->|]; done.
Qed.
Lemma gone_reserve k j ttl : j <> k -> preserves (gone k) (on_store (Reserve j ttl)).
Proof.
  intros Hj w. destruct (reserve_law j ttl (store_env w)) as (Hp & _), (clock_law (store_env w)) as (_ & _ & _ & Hc).
  split; [|apply Hc]. intros Hk. destruct (Hp _ Hk) as [->|]; done.
Qed.

Lemma kept_load k e j : j <> k -> preserves (kept k e) (on_store (Load j)).
Proof.
  intros Hj w. destruct (load_law j (store_env w)) as (_ & Hh & _), (clock_law (store_env w)) as (Hc & _).
  split; [apply Hc|]. intros Hk _. by apply Hh.
Qed.
Lemma kept_delete k e j : j <> k -> preserves (kept k e) (on_store (StateStore.Delete j)).
Proof.
  intros Hj w. destruct (delete_law j (store_env w)) as (_ & Hh & _), (clock_law (store_env w)) as (_ & Hc & _).
  split; [apply Hc|]. intros Hk _. by apply Hh.
Qed.
Lemma kept_save k e j d ttl : j <> k -> preserves (kept k e) (on_store (Save j d ttl)).
Proof.
  intros Hj w. destruct (save_law j d ttl (store_env w)) as (_ & Hh), (clock_law (store_env w)) as (_ & _ & Hc & _).
  split; [apply Hc|]. intros Hk _. by apply Hh.
Qed.
Lemma kept_reserve k e j ttl : preserves (kept k e) (on_store (Reserve j ttl)).
Proof.
  intros w. destruct (reserve_law j ttl (store_env w)) as (_ & Hh & _ & Hs), (clock_law (store_env w)) as (_ & _ & _ & Hc).
  split; [apply Hc|]. intros Hk He. destruct (decide (k = j)) as [->|Hj]; [by apply (Hs e Hk He) | by apply Hh].
Qed.

(** Generated states never name a marker. *)
Definition plain (c : ascii) : bool := negb (Ascii.eqb c ":").

Lemma get_plain s n c : all_chars plain s = true -> String.get n s = Some c -> plain c = true.
Proof.
  revert n. induction s as [|d s IH]; intros n; [done|]. cbn. intros Hs. bools.
  destruct n; [by intros [= <-] | by apply IH].
Qed.

Lemma sextet_plain z : plain (sextet z) = true.
Proof.
  unfold sextet. destruct (String.get _ alphabet) eqn:E; [|done]. by eapply get_plain; [|exact E].
Qed.

Lemma base64url_plain b : all_chars plain (base64url b) = true.
Proof.
  enough (Hn : forall n b, (length b <= n)%nat -> all_chars plain (base64url b) = true) by by eapply Hn.
  clear b. induction n as [|n IH]; intros [|x [|y [|z b]]]; cbn [length]; intros Hl; try done; try lia;
    cbn [base64url all_chars]; rewrite ?sextet_plain; cbn [andb]; [done | done |].
  apply IH. lia.
Qed.

Lemma base64url_no_marker b id : base64url b <> assertion_key id.
Proof.
  intros E. pose proof (base64url_plain b) as Hb. rewrite E in Hb. unfold assertion_key in Hb. by cbn in Hb.
Qed.

(** ** Requests *)

Inductive login_request :=
| QLogin (provider : string)
| QCallback (code state : string)
| QAssertion (relayState response : string)
| QMetadata (idp : string)
| QPassword (bound : res (string * string))
| QLogout
| QRefresh
| QMe
| QProviders
| QMappings
| QCertificates
| QImpersonate (user : string)
| QUsers
| QDevLogin.

Definition handle_login (h : AuthHandlers) (r : login_request) : P reply :=
  match r with
  | QLogin p => LoginHandler h p
  | QCallback code state => CallbackHandler h code state
  | QAssertion relay response => SAMLACSHandler h relay response
  | QMetadata idp => SAMLMetadataHandler h idp
  | QPassword bound => LDAPLoginHandler h bound
  | QLogout => LogoutHandler h
  | QRefresh => RefreshHandler
  | QMe => MeHandler
  | QProviders => ProvidersHandler h
  | QMappings => IdentityGroupMappingsHandler h
  | QCertificates => MTLSConfigHandler h
  | QImpersonate u => ImpersonateUserHandler u
  | QUsers => ListUsersForImpersonationHandler
  | QDevLogin => DevLoginHandler
  end.

(** The keys of the store a request names itself. *)
Definition names (k : string) (r : login_request) : Prop :=
  match r with QCallback _ s | QAssertion s _ => s = k | _ => False end.

(** One request after the other, each with its own context. *)
Definition serve (h : AuthHandlers) (r : ginctx * login_request) : P unit :=
  run! modify (set_gin (fun _ => fst r)) in
  run! handle_login h (snd r) in ret tt.
Definition serve_all (h : AuthHandlers) (rs : list (ginctx * login_request)) : P unit := for_each rs (serve h).

Section Requests.
Context (R : W -> W -> Prop) `{!PreOrder R} (Hsame : forall w w', same_store w w' -> R w w').
#[local] Hint Resolve along_outer along_random along_time along_gets along_Get along_cookies along_revoke : registry.

Lemma along_dev u : preserves R (dev_session u).
Proof using Hsame PreOrder0. unfold dev_session, combined_scopes, fail, answer. preserve. Qed.
#[local] Hint Resolve along_dev : registry.

Lemma along_list us acc : preserves R (list_roles us acc).
Proof using Hsame PreOrder0.
  revert acc. induction us as [|u us IH]; intros acc; cbn [list_roles]; unfold fail, answer; [preserve|].
  preserve; apply IH.
Qed.
#[local] Hint Resolve along_list : registry.

Lemma along_serve h r :
  match snd r with
  | QLogin _ => forall b ss ttl, drawn b -> preserves R (on_store (Save (base64url b) ss ttl))
  | QCallback _ s => preserves R (on_store (Load s)) /\ preserves R (on_store (StateStore.Delete s))
  | QAssertion s _ => preserves R (on_store (Load s)) /\ preserves R (on_store (StateStore.Delete s)) /\
      forall id ttl, preserves R (on_store (Reserve (assertion_key id) ttl))
  | _ => True
  end -> preserves R (serve h r).
Proof using Hsame PreOrder0.
  destruct r as [g r]. cbn [snd]. intros Hr. unfold serve. cbn [fst snd].
  apply preserves_bind; [done | intros w; apply Hsame; split; cbn; [done | lia] | intros _].
  apply preserves_bind; [done | | intros; apply preserves_ret; done].
  destruct r; cbn [handle_login].
  - by apply along_login.
  - destruct Hr. by apply along_callback.
  - destruct Hr as (? & ? & ?). by apply along_acs.
  - unfold SAMLMetadataHandler, choose_idp, first_idp, fail, answer. preserve.
  - by apply along_ldap.
  - by apply along_logout.
  - by apply along_refresh.
  - unfold MeHandler, with_user, fail, answer. preserve.
  - unfold ProvidersHandler, answer. preserve.
  - unfold IdentityGroupMappingsHandler, answer. preserve.
  - unfold MTLSConfigHandler, answer. preserve.
  - unfold ImpersonateUserHandler, with_admin, fail, answer. preserve.
  - unfold ListUsersForImpersonationHandler, with_admin, fail, answer. preserve.
  - unfold DevLoginHandler, fail, answer. preserve.
Qed.
End Requests.

(** A key that neither the random source nor a marker brings back stays gone. *)
Lemma serve_gone h k rs :
  (forall b, drawn b -> base64url b <> k) -> (forall id, assertion_key id <> k) -> preserves (gone k) (serve_all h rs).
Proof.
  intros Hd Ha. apply preserves_for_each; [apply _|]. intros r. apply along_serve; [apply _ | apply same_gone |].
  destruct (snd r); try done.
  - intros b ss ttl Hb. apply gone_save. auto.
  - split; [apply gone_load | apply gone_delete].
  - split; [apply gone_load | split; [apply gone_delete | intros; by apply gone_reserve]].
Qed.

(** A marker stands until its time, unless a request names it. *)
Lemma serve_kept h id e rs :
  Forall (fun r => ~ names (assertion_key id) (snd r)) rs -> preserves (kept (assertion_key id) e) (serve_all h rs).
Proof.
  unfold serve_all. induction 1 as [|r rs Hr _ IH]; cbn [for_each]; [apply preserves_ret; apply _|].
  apply preserves_bind; [apply _| | intros _; exact IH]. apply along_serve; [apply _ | apply same_kept |].
  destruct (snd r); cbn [names] in Hr; try done.
  - intros b ss ttl _. apply kept_save, base64url_no_marker.
  - split; [by apply kept_load | by apply kept_delete].
  - split; [by apply kept_load | split; [by apply kept_delete | intros; apply kept_reserve]].
Qed.

(** ** Sessions that are opened *)

(** A session for what a provider says of somebody: the address is not bound to another
    subject, and the token is for the account of this subject. *)
Definition opened (sub email name : string) (verified : bool) (cookies : list http_cookie) : Prop :=
  (email = "" \/ exists y row, fst (SubjectByEmail email y) = Ok row /\
    (row = None \/ row = Some None \/ row = Some (Some sub))) /\
  exists y user y' scopes jwt,
    fst (GetOrCreateUserByOIDC sub email name verified y) = Ok user /\
    fst (GenerateJWT (acc_ID user) (acc_Email user) scopes (24 * hours) y') = Ok jwt /\
    head cookies = Some (auth_cookie jwt).

Lemma guard_free sub email (w : W) : fst (guardEmailRebind sub email w) = None ->
  email = "" \/ exists y row, fst (SubjectByEmail email y) = Ok row /\
    (row = None \/ row = Some None \/ row = Some (Some sub)).
Proof.
  unfold guardEmailRebind. destruct (String.eqb_spec email "") as [|Hne]; [by left|]. intros Hg. right.
  exists (outside (ext (st w))). unfold bind in Hg. cbn in Hg.
  destruct (fst (SubjectByEmail email (outside (ext (st w))))) as [[[s|]|]|e]; cbn in Hg; [| | |done].
  - exists (Some (Some s)). split; [done|]. right. right. destruct (String.eqb_spec s sub) as [E|]; [by rewrite E | done].
  - exists (Some None). auto.
  - exists None. auto.
Qed.

Lemma open_session_opened sub email name verified apply (w : W) cookies :
  fst (open_session sub email name verified apply w) = inr cookies -> opened sub email name verified cookies.
Proof.
  unfold open_session, opened.
  unfold bind at 1. pose proof (guard_free sub email w) as Hg.
  destruct (guardEmailRebind sub email w) as [[e|] w1]; cbn [fst snd]; [done|]. intros Hs.
  split; [by apply Hg|]. clear Hg. unfold bind at 1 in Hs.
  exists (outside (ext (st w1))). cbn [outer state fst snd] in Hs.
  destruct (fst (GetOrCreateUserByOIDC sub email name verified (outside (ext (st w1))))) as [user|e]; [|done].
  exists user. unfold bind at 1 in Hs. destruct (apply (acc_ID user) _) as [u w2]. cbn [fst snd] in Hs.
  unfold bind at 1 in Hs. destruct (combined_scopes (acc_ID user) w2) as [scopes w3]. cbn [fst snd] in Hs.
  unfold bind at 1 in Hs. cbn [outer state fst snd] in Hs.
  exists (outside (ext (st w3))), scopes.
  destruct (fst (GenerateJWT (acc_ID user) (acc_Email user) scopes (24 * hours) (outside (ext (st w3))))) as [jwt|e]; [|done].
  exists jwt. split; [done|]. split; [done|].
  unfold bind at 1 in Hs. cbn [fst] in Hs. unfold setSessionCookies, bind in Hs.
  destruct (SetCSRFCookie _) as [c w4]. cbn in Hs. by injection Hs as <-.
Qed.

Lemma callbackError_cookies h e d (w : W) : rp_cookies (fst (callbackError h e d w)) = [].
Proof. unfold callbackError. by destruct (String.eqb _ _). Qed.

Lemma signed_in_cookies h s (w : W) : rp_cookies (fst (signed_in h s w)) <> [] -> exists cookies, s = inr cookies /\ rp_cookies (fst (signed_in h s w)) = cookies.
Proof.
  destruct s as [[e| |]|cookies]; cbn [signed_in]; rewrite ?callbackError_cookies; try done.
  intros _. by exists cookies.
Qed.

(** The answer of the provider to the login [ss]: the code was redeemed with the verifier
    of that login, the token carries its nonce, and its address may be used. *)
Definition answers (h : AuthHandlers) (code : string) (ss : SessionState) (cookies : list http_cookie) : Prop :=
  exists p raw idToken info y y',
    (ss_ProviderType ss = "oidc" /\ oidcProvider h = Some p \/ ss_ProviderType ss = "azuread" /\ azureADProvider h = Some p) /\
    fst (ExchangeCode p code (ss_CodeVerifier ss) y) = Ok (Some raw) /\
    fst (VerifyIDToken p raw (ss_Nonce ss) y') = Ok idToken /\ ExtractUserInfo p idToken = Ok info /\
    enforceEmailVerified (emailVerifiedClaim idToken) (RequireVerifiedEmail (cfg h)) = None /\
    opened (ti_sub info) (ti_email info) (ti_name info) (ti_emailVerified info) cookies.

Lemma redeem_inr p code ss (w : W) idToken info : fst (redeem p code ss w) = inr (idToken, info) ->
  exists raw y y', fst (ExchangeCode p code (ss_CodeVerifier ss) y) = Ok (Some raw) /\
    fst (VerifyIDToken p raw (ss_Nonce ss) y') = Ok idToken /\ ExtractUserInfo p idToken = Ok info.
Proof.
  unfold redeem, bind at 1. cbn [outer state fst snd]. intros Hr.
  destruct (fst (ExchangeCode _ _ _ _)) as [[raw|]|e] eqn:E1; try done.
  unfold bind at 1 in Hr. cbn [outer state fst snd] in Hr.
  destruct (fst (VerifyIDToken _ _ _ _)) as [t|e] eqn:E2; [|done].
  cbn in Hr. destruct (ExtractUserInfo p t) as [i|e] eqn:E3; [|done]. injection Hr as <- <-.
  by eexists raw, _, _.
Qed.

Lemma finish_opened h idToken info groups (w : W) : rp_cookies (fst (finish_callback h idToken info groups w)) <> [] ->
  enforceEmailVerified (emailVerifiedClaim idToken) (RequireVerifiedEmail (cfg h)) = None /\
  opened (ti_sub info) (ti_email info) (ti_name info) (ti_emailVerified info)
    (rp_cookies (fst (finish_callback h idToken info groups w))).
Proof.
  unfold finish_callback. destruct (enforceEmailVerified _ _); [by rewrite callbackError_cookies|].
  intros Hc. split; [done|]. unfold bind in *.
  pose proof (open_session_opened (ti_sub info) (ti_email info) (ti_name info) (ti_emailVerified info)
    (fun id => applyGroupMappings h id groups) w) as Ho.
  destruct (open_session _ _ _ _ _ w) as [s w']. cbn [fst snd] in *.
  destruct (signed_in_cookies h s w' Hc) as (cookies & -> & ->). by apply Ho.
Qed.

Lemma complete_answers h code ss (w : W) : rp_cookies (fst (complete_callback h code ss w)) <> [] ->
  answers h code ss (rp_cookies (fst (complete_callback h code ss w))).
Proof.
  unfold complete_callback, answers. cbv zeta.
  destruct (String.eqb_spec (ss_ProviderType ss) "oidc") as [Hp|Hp].
  - destruct (oidcProvider h) as [p|] eqn:E; [|by rewrite callbackError_cookies].
    unfold bind at 1 3. pose proof (redeem_inr p code ss w) as Hr.
    destruct (redeem p code ss w) as [[[c d]|[t i]] w1]; cbn [fst snd] in *; [by rewrite callbackError_cookies|].
    destruct (Hr t i eq_refl) as (raw & y & y' & H1' & H2' & H3').
    unfold bind. destruct (resolveGroupClaimName h w1) as [n w2]. cbn [fst snd].
    intros (Hv & Ho)%finish_opened. exists p, raw, t, i, y, y'. auto 10.
  - destruct (String.eqb_spec (ss_ProviderType ss) "azuread") as [Hz|Hz].
    2:{ destruct (_ || _); by rewrite callbackError_cookies. }
    destruct (azureADProvider h) as [p|] eqn:E; [|by rewrite callbackError_cookies].
    unfold bind. pose proof (redeem_inr p code ss w) as Hr.
    destruct (redeem p code ss w) as [[[c d]|[t i]] w1]; cbn [fst snd] in *; [by rewrite callbackError_cookies|].
    destruct (Hr t i eq_refl) as (raw & y & y' & H1' & H2' & H3').
    intros (Hv & Ho)%finish_opened. exists p, raw, t, i, y, y'. auto 10.
Qed.

(** Either an error, or the pending login was loaded and deleted. *)
Lemma callback_cases h code state (w : W) :
  (exists e d w', CallbackHandler h code state w = callbackError h e d w') \/
  exists ss now w2, fst (Load state (store_env w)) = Ok (Some ss) /\ clock w <= now /\ now - ss_CreatedAt ss <= 5 * minutes /\
    CallbackHandler h code state w = complete_callback h code ss w2 /\ ~ present (pending w2) state.
Proof.
  unfold CallbackHandler.
  pose proof (consume_law state (store_env w)) as Hgone.
  destruct (clock_law (store_env w)) as (Hclock & _). specialize (Hclock state).
  rewrite (bind_run (on_store (Load state)) _ w (fst (Load state (store_env w)))
    (Env (Web (gin (st w)) (tables (st w)) (Cell (st (snd (Load state (store_env w)))) (outside (ext (st w)))))
       (faults (snd (Load state (store_env w)))) (clock (snd (Load state (store_env w))))
       (ticks (snd (Load state (store_env w))))) eq_refl).
  destruct (Load state (store_env w)) as [loaded e1]. cbn [fst snd] in *.
  destruct loaded as [[ss|]|e]; [|left; by eexists _, _, _ ..].
  rewrite (bind_run time_now _ _ _ _ eq_refl).
  destruct (Z.ltb_spec (5 * minutes) (clock e1 + Z.max 0 (hd 0 (ticks e1)) - ss_CreatedAt ss)) as [Hlt|Hlt];
    cbn [clock ticks].
  { rewrite (proj2 (Z.ltb_lt _ _) Hlt). left. by eexists _, _, _. }
  rewrite (proj2 (Z.ltb_ge _ _) Hlt). right.
  eexists ss, _, _. split; [done|]. split; [|split; [exact Hlt|split]]; [cbn in *; lia | |].
  { exact (bind_run (on_store (StateStore.Delete state)) (fun _ => complete_callback h code ss) _ _ _ eq_refl). }
  cbn.
  by eapply Hgone.
Qed.

Lemma callback_loaded h code state (w : W) : rp_cookies (fst (CallbackHandler h code state w)) <> [] ->
  exists ss now w2, fst (Load state (store_env w)) = Ok (Some ss) /\ clock w <= now /\ now - ss_CreatedAt ss <= 5 * minutes /\
    CallbackHandler h code state w = complete_callback h code ss w2 /\ ~ present (pending w2) state.
Proof.
  destruct (callback_cases h code state w) as [(e & d & w' & ->)|]; [by rewrite callbackError_cookies | done].
Qed.

Lemma complete_same h code ss (w : W) : same_store w (snd (complete_callback h code ss w)).
Proof. apply (along_complete same_store); done. Qed.

Lemma callback_needs_pending h code state (w : W) : ~ present (pending w) state -> rp_cookies (fst (CallbackHandler h code state w)) = [].
Proof.
  intros Hn. destruct (decide (rp_cookies (fst (CallbackHandler h code state w)) = [])) as [|Hc]; [done|].
  destruct (callback_loaded h code state w Hc) as (ss & _ & _ & Hl & _).
  destruct Hn. by apply (load_law state (store_env w)) in Hl.
Qed.

(** ** Assertions *)

Definition ours (h : AuthHandlers) (p : option (string * saml_provider)) : Prop :=
  forall n sp, p = Some (n, sp) -> samlProviders h !! n = Some sp.

Lemma relayed_ours h relay (w : W) : ours h (fst (fst (relayed h relay w))).
Proof.
  unfold relayed, ours. destruct (String.eqb relay ""); [done|]. unfold bind at 1.
  destruct (on_store (Load relay) w) as [[[ss|]|e] w1]; cbn [fst snd]; try done.
  intros n sp. cbn. destruct (has_prefix _ _); [|done].
  destruct (samlProviders h !! _) eqn:E; cbn; [|done]. by intros [= <- <-].
Qed.

Lemma choose_ours h named (w : W) : ours h named -> ours h (fst (choose_idp h named w)).
Proof.
  unfold choose_idp. destruct named as [p|]; [done|]. intros _ n sp. unfold bind.
  destruct (first_idp h w) as [[m|] w1]; cbn; [|done].
  destruct (samlProviders h !! m) eqn:E; cbn; [|done]. by intros [= <- <-].
Qed.

(** A session came of a response that is valid and whose marker, if any, was free: [w1]
    is the world when the marker is looked at. *)
Lemma acs_opened h relay response (w : W) : rp_cookies (fst (SAMLACSHandler h relay response w)) <> [] ->
  exists n sp ids y a w1,
    let meta := {| am_ID := as_ID a; am_NotOnOrAfter := default zero_time (as_NotOnOrAfter a) |} in
    samlProviders h !! n = Some sp /\ fst (ParseResponse (pr_sp sp) response ids y) = Ok a /\
    (ids = [] -> pr_allowIDPInitiated sp = true) /\
    (forall R, PreOrder R -> (forall w w', same_store w w' -> R w w') -> preserves R (on_store (Load relay)) ->
       preserves R (on_store (StateStore.Delete relay)) -> R w w1) /\
    fst (reserve_assertion sp meta w1) = None /\
    same_store (snd (reserve_assertion sp meta w1)) (snd (SAMLACSHandler h relay response w)).
Proof.
  intros Hc. remember (SAMLACSHandler h relay response w) as r eqn:E. unfold SAMLACSHandler in E.
  pose proof (relayed_ours h relay w) as Hours.
  assert (Hw : forall R, PreOrder R -> (forall w w', same_store w w' -> R w w') -> preserves R (on_store (Load relay)) ->
    preserves R (on_store (StateStore.Delete relay)) -> R w (snd (relayed h relay w)))
    by (intros R HR Hsame Hl Hd; by apply along_relayed).
  unfold bind at 1 in E. destruct (relayed h relay w) as [[named ids] w1]. cbn [fst snd] in *.
  apply (choose_ours h named w1) in Hours.
  assert (Hw' : forall R, PreOrder R -> (forall w w', same_store w w' -> R w w') -> R w1 (snd (choose_idp h named w1)))
    by (intros R HR Hsame; by apply along_choose).
  unfold bind at 1 in E. destruct (choose_idp h named w1) as [[[n sp]|] w2]; cbn [fst snd] in *;
    [|subst r; by rewrite callbackError_cookies in Hc].
  destruct (bool_decide (ids = []) && negb (pr_allowIDPInitiated sp)) eqn:Hi; [subst r; by rewrite callbackError_cookies in Hc|].
  unfold bind at 1 in E. unfold outer, state, ValidateResponse in E. cbn [fst snd bind ret] in E.
  destruct (fst (ParseResponse (pr_sp sp) response ids (outside (ext (st w2))))) as [a|e] eqn:Ea; cbn [fst ret] in E;
    [|subst r; by rewrite callbackError_cookies in Hc].
  set (w3 := Env _ _ _ _) in E. set (meta := {| am_ID := _; am_NotOnOrAfter := _ |}) in E.
  exists n, sp, ids, (outside (ext (st w2))), a, w3. cbv zeta. fold meta.
  split; [by apply Hours|]. split; [done|]. split.
  { intros ->. by destruct (pr_allowIDPInitiated sp). }
  split.
  { intros R HR Hsame Hl Hd. transitivity w1; [by apply Hw|]. transitivity w2; [by apply Hw'|].
    apply Hsame. split; [done | cbn; lia]. }
  unfold bind at 1 in E. destruct (reserve_assertion sp meta w3) as [[[c d]|] w4]; cbn [fst snd] in *;
    [subst r; by rewrite callbackError_cookies in Hc|]. split; [done|].
  destruct (String.eqb _ _ && _); [subst r; by rewrite callbackError_cookies in Hc|].
  subst r. unfold bind. set (c := open_session _ _ _ _ _). transitivity (snd (c w4)).
  - apply (along_session same_store); [done|]. intros id. by apply (along_apply_saml same_store).
  - by apply (along_signed_in same_store).
Qed.

Lemma reserve_holds sp meta (w : W) : pr_allowIDPInitiated sp = true -> am_ID meta <> "" ->
  fst (reserve_assertion sp meta w) = None ->
  exists e, Z.min (am_NotOnOrAfter meta) (clock w + 15 * minutes) <= e /\
    held (pending (snd (reserve_assertion sp meta w))) (assertion_key (am_ID meta)) e.
Proof.
  intros Hi Hid. unfold reserve_assertion. rewrite Hi, (proj2 (String.eqb_neq _ _) Hid). cbn [andb negb].
  rewrite (bind_run time_now _ w _ _ eq_refl). unfold bind. cbn [on_store fst snd].
  set (window := replay_window _). set (w1 := Env (pending _) _ _ _).
  destruct (reserve_law (assertion_key (am_ID meta)) window w1) as (_ & _ & Ht & _).
  destruct (fst (Reserve (assertion_key (am_ID meta)) window w1)) as [[|]|e]; cbn; try done. intros _.
  destruct (Ht eq_refl) as (t & Hct & Hh). exists (t + window). split; [|exact Hh].
  subst window. unfold replay_window. cbn [w1 clock] in Hct.
  destruct (_ || _) eqn:E; [cbn in *; lia|]. bools. cbn in *. lia.
Qed.

(** The order of the clock alone. *)
Definition ahead (w w' : W) : Prop := clock w <= clock w'.
#[export] Instance ahead_preorder : PreOrder ahead.
Proof. split; [intros w; unfold ahead; lia | intros w1 w2 w3; unfold ahead; lia]. Qed.
Lemma same_ahead w w' : same_store w w' -> ahead w w'.
Proof. by intros [_ Hc]. Qed.

Lemma reserve_clock sp meta (w : W) : clock w <= clock (snd (reserve_assertion sp meta w)).
Proof.
  apply (along_reserve ahead same_ahead). intros i ttl v.
  destruct (clock_law (store_env v)) as (_ & _ & _ & Hc). apply Hc.
Qed.

Lemma reserve_refuses sp meta e (w : W) : pr_allowIDPInitiated sp = true -> am_ID meta <> "" ->
  held (pending w) (assertion_key (am_ID meta)) e -> clock (snd (reserve_assertion sp meta w)) < e ->
  fst (reserve_assertion sp meta w) <> None.
Proof.
  intros Hi Hid Hh. unfold reserve_assertion. rewrite Hi, (proj2 (String.eqb_neq _ _) Hid). cbn [andb negb].
  rewrite (bind_run time_now _ w _ _ eq_refl). unfold bind. cbn [on_store fst snd].
  set (window := replay_window _). set (w1 := Env (pending _) _ _ _). intros Hc.
  destruct (reserve_law (assertion_key (am_ID meta)) window w1) as (_ & _ & _ & Hs).
  destruct (Hs e Hh Hc) as [Hr _].
  by destruct (fst (Reserve (assertion_key (am_ID meta)) window w1)) as [[|]|e'].
Qed.

(** The response carries the assertion of this ID, which ends then, whichever provider
    reads it. *)
Definition carries (response id : string) (expires : Z) : Prop :=
  forall sp ids (y : Y) a, fst (ParseResponse sp response ids y) = Ok a ->
    as_ID a = id /\ as_NotOnOrAfter a = Some expires.

(** ** Passwords *)

Definition user_search (c : LDAPConfiguration) (username : string) : SearchRequest := {|
  sr_BaseDN := lc_BaseDN c; sr_SizeLimit := 1; sr_TimeLimit := 10;
  sr_Filter := sprintf_s (lc_UserFilter c) (Some (EscapeFilter username));
  sr_Attributes := ["dn"; lc_UserAttrEmail c; lc_UserAttrName c] |}.

(** The directory found the user, one entry, and accepted the password for it. *)
Definition accepted (c : LDAPConfiguration) (username password : string) (u : ldap_user) : Prop :=
  exists conn entry y y', fst (ldap_Search conn (user_search c username) y) = Ok [entry] /\
    fst (Bind conn (en_DN entry) password y') = Ok tt /\ lu_DN u = en_DN entry /\
    lu_Email u = GetAttributeValue entry (lc_UserAttrEmail c) /\ lu_Name u = GetAttributeValue entry (lc_UserAttrName c).

Lemma authenticate_accepted c username password (y : Y) u :
  fst (Authenticate c username password y) = Ok u -> accepted c username password u.
Proof.
  unfold Authenticate, bind at 1. destruct (ldap_dial c y) as [[conn|e] y1]; cbn [fst snd]; [|done].
  intros Ha. assert (Hon : fst (authenticate_on c conn username password y1) = Ok u).
  { revert Ha. unfold bind. by destruct (authenticate_on c conn username password y1). }
  clear Ha. revert Hon. unfold authenticate_on, bind at 1.
  destruct (Bind conn (lc_BindDN c) (lc_BindPassword c) y1) as [[b|e] y2]; cbn [fst snd]; [|done].
  intros (r & Hs & Hr & _)%bind_ok. destruct r as [[dn email] name]. revert Hs Hr.
  unfold searchUser, bind at 1. fold (user_search c username).
  destruct (ldap_Search conn (user_search c username) y2) as [es y3] eqn:Es.
  destruct es as [[|entry [|]]|e]; cbn [fst snd ret]; try done. intros [= <- <- <-].
  unfold bind at 1.
  destruct (Bind conn (en_DN entry) password _) as [[[]|e] y4] eqn:Eb; cbn [fst snd]; [|done].
  unfold bind at 1. destruct (Bind conn (lc_BindDN c) (lc_BindPassword c) y4) as [[b'|e] y5]; cbn [fst snd]; [|done].
  unfold bind. destruct (lookupGroups c conn (en_DN entry) y5) as [g y6]. cbn. intros [= <-].
  eexists conn, entry, y2, _. rewrite Es. split_and!; [done | by rewrite Eb | done..].
Qed.

Lemma password_opened h bound (w : W) : rp_cookies (fst (LDAPLoginHandler h bound w)) <> [] ->
  exists username password c u, bound = Ok (username, password) /\ username <> "" /\ password <> "" /\
    ldapProvider h = Some c /\ accepted c username password u /\
    opened ("ldap:" +:+ lu_DN u) (lu_Email u) (lu_Name u) true (rp_cookies (fst (LDAPLoginHandler h bound w))).
Proof.
  unfold LDAPLoginHandler. destruct bound as [[username password]|e]; [|done].
  destruct (String.eqb_spec username "") as [|Hu]; [done|]. destruct (String.eqb_spec password "") as [|Hp]; [done|].
  cbn [orb]. destruct (ldapProvider h) as [c|]; [|done].
  unfold bind at 1 3. cbn [outer state fst snd].
  destruct (Authenticate c username password (outside (ext (st w)))) as [[u|e] y1] eqn:Ea; cbn [fst snd]; [|done].
  set (w1 := Env _ _ _ _). intros Hc. exists username, password, c, u. split_and!; try done.
  { apply (authenticate_accepted c username password (outside (ext (st w)))). by rewrite Ea. }
  unfold bind in *. pose proof (open_session_opened ("ldap:" +:+ lu_DN u) (lu_Email u) (lu_Name u) true
    (fun id => applyLDAPGroupMappings h id (lu_Groups u)) w1) as Ho.
  destruct (open_session _ _ _ _ _ w1) as [[[e| |]|cookies] w2]; cbn [fst snd] in *; try done. by apply Ho.
Qed.
End Sessions.

(** A membership whose role, if any, is a template of that name. *)
Definition named (v : org_view) (name : string) (r : option string) : Prop :=
  forall id, r = Some id -> exists t, v_roles v !! id = Some t /\ rt_Name t = name.

(** What the handlers rely on beyond [OrgLaws]. *)
Class AccountLaws (Y : Type) `{OrgLaws Y} `{Accounts Y} := {
  check_membership_law o u x : same_view x (snd (CheckMembership o u x)) /\
    forall b, fst (CheckMembership o u x) = Ok b -> (b = true <-> v_members (view x) o u <> None);
  org_by_name_law n x :
    (forall o, fst (OrgByName n x) = Ok (Some o) -> v_orgs (view x) !! org_ID o = Some o /\ org_Name o = n) /\
    (fst (OrgByName n x) = Ok None -> forall id o, v_orgs (view x) !! id = Some o -> org_Name o <> n);
  update_role_law o0 u0 name x : let v := view x in let v' := view (snd (UpdateMemberRole o0 u0 name x)) in
    v_orgs v' = v_orgs v /\ v_roles v' = v_roles v /\
    forall o u, v_members v' o u = v_members v o u \/
      exists r, v_members v' o u = set_member o0 u0 (Some r) (v_members v) o u /\ named v name r;
  membership_keeps_law o u n x :
    (let v' := view (snd (OrgAddMemberWithParams o u n x)) in v_orgs v' = v_orgs (view x) /\ v_roles v' = v_roles (view x)) /\
    (let v' := view (snd (OrgRemoveMember o u x)) in v_orgs v' = v_orgs (view x) /\ v_roles v' = v_roles (view x));
  (** a write that succeeds has happened, and found the role template it was told of *)
  membership_done_law o u n x : let v := view x in
    let found r := n <> "" -> r <> Some None in
    (let a := OrgAddMemberWithParams o u n x in v_members v o u = None -> fst a = Ok tt ->
       (exists r, v_members (view (snd a)) o u = Some r /\ named v n r) /\ found (v_members (view (snd a)) o u)) /\
    (let a := UpdateMemberRole o u n x in v_members v o u <> None -> fst a = Ok tt ->
       (exists r, v_members (view (snd a)) o u = Some r /\ named v n r) /\ found (v_members (view (snd a)) o u)) /\
    (let a := OrgRemoveMember o u x in fst a = Ok tt -> v_members (view (snd a)) o u = None);
  scopes_named_law n x : same_view x (snd (ScopesOfRoleNamed n x)) /\
    (fst (ScopesOfRoleNamed n x) = Ok None -> forall id t, v_roles (view x) !! id = Some t -> rt_Name t <> n) /\
    forall text l, fst (ScopesOfRoleNamed n x) = Ok (Some text) -> scopes_json text = Ok l ->
      (exists id t, v_roles (view x) !! id = Some t /\ rt_Name t = n) /\
      forall id t, v_roles (view x) !! id = Some t -> rt_Name t = n -> rt_Scopes t = l;
}.

(** ** The plan *)

(** The first mapping of the organization whose group the user is in. *)
Definition wanted (groups : list string) (mappings : list groupMapping) (org : string) : option groupMapping :=
  List.find (fun m => String.eqb (gm_Organization m) org && bool_decide (gm_Group m ∈ groups)) mappings.

Lemma desired_roles_spec groups mappings :
  (forall o, o ∈ fst (desired_roles groups mappings) -> o ∈ map gm_Organization mappings) /\
  forall o, snd (desired_roles groups mappings) !! o = gm_Role <$> wanted groups mappings o.
Proof.
  unfold desired_roles. induction mappings as [|m ms [IH1 IH2]] using rev_ind.
  { split; intros o; cbn; [by intros ?%not_elem_of_nil | by rewrite lookup_empty]. }
  rewrite fold_left_app. cbn [fold_left]. revert IH1 IH2.
  destruct (fold_left (note_mapping (list_to_set groups)) ms ([], ∅)) as [managed desired]. cbn [fst snd].
  intros IH1 IH2.
  assert (Hm : forall o, o ∈ (if bool_decide (gm_Organization m ∈ managed) then managed else managed ++ [gm_Organization m]) ->
    o ∈ map gm_Organization (ms ++ [m])).
  { intros o. rewrite map_app, elem_of_app. case_match; [auto|].
    rewrite elem_of_app. intros [?| ->%list_elem_of_singleton]; [auto | right; by left]. }
  assert (Hb : bool_decide (gm_Group m ∈ (list_to_set groups : gset string)) = bool_decide (gm_Group m ∈ groups))
    by (apply bool_decide_ext; apply elem_of_list_to_set).
  unfold note_mapping. cbv zeta. rewrite Hb.
  assert (Hw : forall o, wanted groups (ms ++ [m]) o = match wanted groups ms o with
      | Some x => Some x
      | None => if String.eqb (gm_Organization m) o && bool_decide (gm_Group m ∈ groups) then Some m else None end)
    by (intros o; unfold wanted; by rewrite find_app).
  destruct (bool_decide (gm_Group m ∈ groups)); cbn [negb].
  - destruct (desired !! gm_Organization m) as [r|] eqn:E; (split; [exact Hm|]); intros o; cbn [snd]; rewrite Hw, andb_true_r.
    + rewrite IH2. destruct (String.eqb_spec (gm_Organization m) o) as [<-|]; [|by destruct (wanted groups ms o)].
      rewrite IH2 in E. by destruct (wanted groups ms (gm_Organization m)).
    + destruct (String.eqb_spec (gm_Organization m) o) as [<-|Hne].
      * rewrite lookup_insert_eq. rewrite IH2 in E. by destruct (wanted groups ms (gm_Organization m)).
      * rewrite lookup_insert_ne, IH2 by done. by destruct (wanted groups ms o).
  - split; [exact Hm|]. intros o. cbn [snd]. rewrite Hw, IH2, andb_false_r. by destruct (wanted groups ms o).
Qed.

(** Every organization of a mapping is managed. *)
Lemma managed_spec groups mappings o :
  o ∈ fst (desired_roles groups mappings) <-> o ∈ map gm_Organization mappings.
Proof.
  split; [apply desired_roles_spec|]. unfold desired_roles.
  induction mappings as [|m ms IH] using rev_ind; [done|]. rewrite fold_left_app, map_app, elem_of_app. cbn [fold_left].
  revert IH. destruct (fold_left _ ms _) as [managed desired]. cbn [fst]. intros IH Ho.
  assert (Hin : o ∈ (if bool_decide (gm_Organization m ∈ managed) then managed else managed ++ [gm_Organization m])).
  { case_bool_decide as Hb; rewrite ?elem_of_app; destruct Ho as [Ho| ->%list_elem_of_singleton]; auto.
    right. by left. }
  unfold note_mapping. cbv zeta. destruct (negb _); [exact Hin|]. by destruct (desired !! gm_Organization m).
Qed.

(** ** One organization after the other *)
Section Groups.
Context {M Y : Type} `{StateStore M} `{AccountLaws Y} `{ScopeLib, !ScopeLibLaws, MapRange Y}.
#[local] Abbreviation W := (env (web (cell M Y))).
#[local] Abbreviation vw w := (view (outside (ext (st w)))).

(** What one organization may end up with for the user. *)
Definition outcome (v : org_view) (role : option string) (m : option (option string)) : Prop :=
  match role with
  | None => m = None
  | Some name => exists r, m = Some r /\ named v name r /\
      forall id t, r = Some id -> v_roles v !! id = Some t -> rt_Name t = name -> idScopeAdmin ∉ rt_Scopes t
  end.

(** The organizations and roles stand, and memberships change for the user only where
    [P] allows it. *)
Definition moved (user : string) (P : string -> option (option string) -> Prop) (v v' : org_view) : Prop :=
  v_orgs v' = v_orgs v /\ v_roles v' = v_roles v /\
  forall o u, v_members v' o u = v_members v o u \/ u = user /\ P o (v_members v' o u).

Lemma moved_same user P x x' : same_view x x' -> moved user P (view x) (view x').
Proof. intros (Ho & Hr & Hm & _). split_and!; [done | done |]. intros o u. left. apply Hm. Qed.

Lemma moved_trans user P v1 v2 v3 : moved user P v1 v2 -> moved user P v2 v3 -> moved user P v1 v3.
Proof.
  intros (O1 & R1 & M1) (O2 & R2 & M2). split_and!; [congruence | congruence |].
  intros o u. destruct (M2 o u) as [->|[-> Hp]]; [apply M1 | right; by split].
Qed.

Lemma moved_weaken user (P Q : string -> option (option string) -> Prop) v v' :
  (forall o m, P o m -> Q o m) -> moved user P v v' -> moved user Q v v'.
Proof.
  intros HPQ (Ho & Hr & Hm). split_and!; [done | done |]. intros o u.
  destruct (Hm o u) as [|[-> Hp]]; [by left | right; auto].
Qed.

Lemma set_member_moved user org (P : string -> option (option string) -> Prop) v v' :
  v_orgs v' = v_orgs v -> v_roles v' = v_roles v ->
  (forall o u, v_members v' o u = v_members v o u \/
     exists r, v_members v' o u = set_member org user r (v_members v) o u /\ P org r) ->
  moved user P v v'.
Proof.
  intros Ho Hr Hm. split_and!; [done | done |]. intros o u. destruct (Hm o u) as [|(r & E & Hp)]; [by left|].
  unfold set_member in E. destruct (decide _) as [[-> ->]|]; [|by left]. right. by rewrite E.
Qed.

(** A role that passes the guard gives no administrator. *)
Lemma guarded_role name (w : W) :
  same_view (outside (ext (st w))) (outside (ext (st (snd (guardProvisionableRole name w))))) /\
  (fst (guardProvisionableRole name w) = None ->
   forall id t, v_roles (vw w) !! id = Some t -> rt_Name t = name -> idScopeAdmin ∉ rt_Scopes t).
Proof.
  unfold guardProvisionableRole, bind. cbn [outer state fst snd].
  destruct (scopes_named_law name (outside (ext (st w)))) as (Hs & Hnone & Hsome).
  destruct (ScopesOfRoleNamed name (outside (ext (st w)))) as [r y]. cbn [fst snd] in *.
  split; [exact Hs|]. cbn [ret fst].
  destruct r as [[text|]|e]; [|by intros _ id t Ht Hn; destruct (Hnone eq_refl id t Ht) | done].
  destruct (scopes_json text) as [l|e] eqn:E; [|done]. intros Hp%provisionable_iff id t Ht Hn.
  by rewrite (proj2 (Hsome text l eq_refl E) id t Ht Hn).
Qed.

(** The organization a managed name stands for. *)
Definition called (v : org_view) (name o : string) : Prop := exists org, v_orgs v !! o = Some org /\ org_Name org = name.

Lemma reconcile_org_moved user name role (w : W) :
  let r := reconcile_org user name role w in
  moved user (fun o m => called (vw w) name o /\ outcome (vw w) role m /\ forall id, fst r = Ok id -> id = Some o)
    (vw w) (vw (snd r)).
Proof.
  intros r. set (Q := fun o m => _). assert (E : r = reconcile_org user name role w) by done. clearbody r.
  unfold reconcile_org, bind at 1 in E. cbn [outer state fst snd] in E.
  destruct (org_by_name_law name (outside (ext (st w)))) as [Hname _].
  destruct (org_reads_law (outside (ext (st w)))) as (Hread & _). specialize (Hread name).
  destruct (OrgByName name (outside (ext (st w)))) as [[[org|]|e] y1]; cbn [fst snd] in *;
    [|rewrite E; by apply moved_same ..].
  destruct (Hname org eq_refl) as [Horg Hn].
  assert (Hc : called (vw w) name (org_ID org)) by (by exists org).
  apply (moved_trans user Q _ (view y1)); [by apply moved_same|].
  destruct Hread as (Eo & Er & _). unfold bind at 1 in E. cbn [outer state fst snd ext outside st] in E.
  destruct (check_membership_law (org_ID org) user y1) as [Hcs _].
  destruct (CheckMembership (org_ID org) user y1) as [[member|e] y2]; cbn [fst snd] in *; [|rewrite E; by apply moved_same].
  apply (moved_trans user Q _ (view y2)); [by apply moved_same|]. destruct Hcs as (Eo' & Er' & _).
  assert (Enamed : forall n r, named (view y2) n r -> named (vw w) n r) by (unfold named; by rewrite Er', Er).
  destruct role as [role|].
  - unfold bind at 1 in E. match type of E with context [guardProvisionableRole role ?w2] => set (w2' := w2) in E end.
    destruct (guarded_role role w2') as [Hg Hsafe].
    destruct (guardProvisionableRole role w2') as [[e|] w3]; cbn [fst snd] in *; [rewrite E; by apply moved_same|].
    apply (moved_trans user Q _ (view (outside (ext (st w3))))); [by apply moved_same|]. destruct Hg as (Eo3 & Er3 & _).
    cbn in Eo3, Er3, Hsafe.
    assert (Hq : forall r', (forall id, fst r = Ok id -> id = Some (org_ID org)) -> named (vw w3) role r' -> Q (org_ID org) (Some r')).
    { intros r' Hid Hr. split; [done|]. split; [|done]. exists r'. split; [done|]. split.
      - apply Enamed. unfold named in *. by rewrite <- Er3.
      - intros id t _ Ht. apply (Hsafe eq_refl id). by rewrite Er', Er. }
    destruct member; unfold bind in E; cbn [outer state fst snd ext outside st ret] in E.
    + destruct (update_role_law (org_ID org) user role (outside (ext (st w3)))) as (Uo & Ur & Um).
      rewrite E. apply (set_member_moved user (org_ID org)); [exact Uo | exact Ur |].
      intros o u. destruct (Um o u) as [|(r' & E' & Hr)]; [by left | right]. exists (Some r'). split; [exact E'|].
      apply Hq; [|done]. intros id. rewrite E. cbn. case_match; congruence.
    + pose proof (add_named_law (org_ID org) user role (outside (ext (st w3)))) as Um.
      destruct (membership_keeps_law (org_ID org) user role (outside (ext (st w3)))) as [[Uo Ur] _].
      rewrite E. apply (set_member_moved user (org_ID org)); [exact Uo | exact Ur |].
      intros o u. destruct (Um o u) as [|(r' & E' & Hr)]; [by left | right]. exists (Some r'). split; [exact E'|].
      apply Hq; [|done]. intros id. rewrite E. cbn. case_match; congruence.
  - destruct member; [|rewrite E; by apply moved_same]. unfold bind in E; cbn [outer state fst snd ext outside st ret] in E.
    pose proof (remove_member_law (org_ID org) user y2) as Um.
    destruct (membership_keeps_law (org_ID org) user "" y2) as [_ [Uo Ur]].
    rewrite E. apply (set_member_moved user (org_ID org)); [exact Uo | exact Ur |].
    intros o u. destruct (Um o u) as [|E']; [by left | right]. exists None. split; [exact E' |].
    split; [done|]. split; [done|]. intros id. rewrite E. cbn. case_match; congruence.
Qed.

(** The loop: what it returns are the organizations it may have touched. *)
Lemma reconcile_orgs_moved user orgs desired ids (w : W) :
  let r := reconcile_orgs user orgs desired ids w in
  moved user (fun o m => (exists name, name ∈ orgs /\ called (vw w) name o /\ outcome (vw w) (desired !! name) m) /\
                         forall ids', fst r = Ok ids' -> o ∈ ids') (vw w) (vw (snd r)) /\
  forall ids', fst r = Ok ids' -> forall o, o ∈ ids -> o ∈ ids'.
Proof.
  revert ids w. induction orgs as [|name orgs IH]; intros ids w; cbn [reconcile_orgs].
  { split; [by apply moved_same | by intros ids' [= <-]]. }
  unfold bind. pose proof (reconcile_org_moved user name (desired !! name) w) as H1'.
  destruct (reconcile_org user name (desired !! name) w) as [[id|e] w1]; cbn [fst snd] in *.
  2:{ split; [|done]. refine (moved_weaken _ _ _ _ _ _ H1'). intros o m (Hc & Ho & _). split; [|done]. exists name. split; [by left | done]. }
  specialize (IH (match id with Some id => id :: ids | None => ids end) w1).
  destruct (reconcile_orgs user orgs desired (match id with Some id => id :: ids | None => ids end) w1) as [r2 w2]. cbn [fst snd] in *.
  destruct IH as [H2' Hids]. split.
  - eapply moved_trans; [refine (moved_weaken _ _ _ _ _ _ H1') | refine (moved_weaken _ _ _ _ _ _ H2')].
    + intros o m (Hc & Ho & Hid). split; [exists name; split; [by left | done]|].
      intros ids' Hr. apply (Hids ids' Hr). rewrite (Hid id eq_refl). by left.
    + destruct H1' as (Eo & Er & _). intros o m [(n & Hin & Hc & Ho) Hid]. split; [|done]. exists n.
      split; [by right|]. unfold called, outcome, named in *. rewrite Eo in Hc. by rewrite Er in Ho.
  - intros ids' Hr o Ho. apply (Hids ids' Hr). destruct id; [by right | done].
Qed.

(** ** All of it *)

(** What a sign-in may do to the membership of its user in [o]: where a mapping names the
    organization, what the first mapping of one of the groups says, and nothing without
    one; in the default organization, the default role for a user who was no member. *)
Definition mapped (v : org_view) (groups : list string) (mappings : list groupMapping) (o : string)
  (m : option (option string)) : Prop :=
  exists org, v_orgs v !! o = Some org /\ org_Name org ∈ map gm_Organization mappings /\
    outcome v (gm_Role <$> wanted groups mappings (org_Name org)) m.
Definition defaulted (v : org_view) (user defaultRole o : string) (m : option (option string)) : Prop :=
  defaultRole <> "" /\ v_members v o user = None /\ (exists r, m = Some r /\ named v defaultRole r) /\
  exists y org, v_orgs (view y) = v_orgs v /\ fst (OrgDefault y) = Ok (Some org) /\ org_ID org = o.

Lemma default_moved user role ids (w : W) :
  moved user (fun o m => ((o ∉ ids) /\ v_members (vw w) o user = None) /\ (exists r, (m = Some r) /\ named (vw w) role r) /\
    (exists y org, v_orgs (view y) = v_orgs (vw w) /\ fst (OrgDefault y) = Ok (Some org) /\ org_ID org = o))
    (vw w) (vw (snd (apply_default_role user role ids w))).
Proof.
  set (Q := fun o m => _). unfold apply_default_role, bind at 1. cbn [outer state fst snd].
  destruct (org_reads_law (outside (ext (st w)))) as (_ & Hread & _).
  destruct (OrgDefault (outside (ext (st w)))) as [[[org|]|e] y1] eqn:Edef; cbn [fst snd] in *; try by apply moved_same.
  case_bool_decide as Hin; [by apply moved_same|].
  apply (moved_trans user Q _ (view y1)); [by apply moved_same|]. destruct Hread as (Eo & Er & Em & _).
  unfold bind at 1. cbn [outer state fst snd ext outside st].
  destruct (check_membership_law (org_ID org) user y1) as [Hcs Hb].
  destruct (CheckMembership (org_ID org) user y1) as [[[|]|e] y2]; cbn [fst snd] in *; try by apply moved_same.
  apply (moved_trans user Q _ (view y2)); [by apply moved_same|]. destruct Hcs as (Eo' & Er' & Em' & _).
  unfold bind; cbn [outer state fst snd ext outside st ret].
  pose proof (add_named_law (org_ID org) user role y2) as Um.
  destruct (membership_keeps_law (org_ID org) user role y2) as [[Uo Ur] _].
  apply (set_member_moved user (org_ID org)); [exact Uo | exact Ur |].
  intros o u. destruct (Um o u) as [|(r' & E' & Hr)]; [by left | right]. exists (Some r'). split; [exact E'|].
  split; [split; [done|]|split].
  - destruct (v_members (vw w) (org_ID org) user) eqn:E; [|done]. exfalso.
    destruct (Hb false eq_refl) as [_ Hf]. rewrite Em, E in Hf. by discriminate Hf.
  - exists r'. split; [done|]. unfold named. by rewrite <- Er, <- Er'.
  - exists (outside (ext (st w))), org. by rewrite Edef.
Qed.

Lemma reconcile_moved user groups mappings role (w : W) :
  moved user (fun o m => mapped (vw w) groups mappings o m \/ defaulted (vw w) user role o m)
    (vw w) (vw (snd (reconcileGroupMemberships user groups mappings role w))).
Proof.
  unfold reconcileGroupMemberships. destruct (_ && _); [by apply moved_same|].
  destruct (desired_roles_spec groups mappings) as [Hman Hdes].
  destruct (desired_roles groups mappings) as [managed desired]. cbn [fst snd] in *.
  unfold bind. destruct (reconcile_orgs_moved user managed desired [] w) as [Hm _].
  destruct (reconcile_orgs user managed desired [] w) as [[ids|e] w1]; cbn [fst snd] in *.
  2:{ refine (moved_weaken _ _ _ _ _ _ Hm). intros o m [(n & Hin & (org & Ho & <-) & Hout) _]. left. exists org.
      rewrite <- Hdes. auto. }
  assert (Hmapped : moved user (fun o m => mapped (vw w) groups mappings o m \/ defaulted (vw w) user role o m) (vw w) (vw w1)).
  { refine (moved_weaken _ _ _ _ _ _ Hm). intros o m [(n & Hin & (org & Ho & <-) & Hout) _]. left. exists org.
    rewrite <- Hdes. auto. }
  destruct (String.eqb_spec role "") as [|Hrole]; [exact Hmapped|].
  refine (moved_trans _ _ _ _ _ Hmapped _). refine (moved_weaken _ _ _ _ _ _ (default_moved user role ids w1)).
  destruct Hm as (Eo & Er & Hm). intros o m ((Hids & Hno) & (r & -> & Hr) & Hdef). right.
  split; [done|]. split; [|split; [|by rewrite <- Eo]].
  - destruct (Hm o user) as [E|[_ [_ Hin]]]; [by rewrite <- E | by destruct (Hids (Hin ids eq_refl))].
  - exists r. split; [done|]. unfold named. by rewrite <- Er.
Qed.

(** ** What has happened once it succeeds *)

(** Look-ups of organizations and of the scopes of roles answer, while organizations and
    roles are these. *)
Definition answering (v : org_view) : Prop := forall n (y : Y), v_orgs (view y) = v_orgs v -> v_roles (view y) = v_roles v ->
  (exists r, fst (OrgByName n y) = Ok r) /\
  exists r, fst (ScopesOfRoleNamed n y) = Ok r /\ forall text, r = Some text -> exists l, scopes_json text = Ok l.

(** Names of organizations are unique, and this one is the default one. *)
Definition distinct_names (v : org_view) : Prop := forall o1 o2 a b,
  v_orgs v !! o1 = Some a -> v_orgs v !! o2 = Some b -> org_Name a = org_Name b -> o1 = o2.
Definition default_is (v : org_view) (o : string) : Prop := forall (y : Y) org,
  v_orgs (view y) = v_orgs v -> fst (OrgDefault y) = Ok (Some org) -> org_ID org = o.

(** The role's template carries the administrator scope. *)
Definition refused (v : org_view) (name : string) : Prop :=
  exists id t, v_roles v !! id = Some t /\ rt_Name t = name /\ idScopeAdmin ∈ rt_Scopes t.

(** A membership [m0] of an organization that is mapped to [role] has become [m]. *)
Definition landed (v : org_view) (role : option string) (m0 m : option (option string)) : Prop :=
  match role with
  | None => m = None
  | Some name => m = m0 /\ refused v name \/ outcome v (Some name) m /\ (name <> "" -> m <> Some None)
  end.

Lemma landed_trans v role m0 m1 m2 : landed v role m0 m1 -> landed v role m1 m2 -> landed v role m0 m2.
Proof. destruct role; cbn; [|done]. intros H1' [[-> Hr]|H2']; [exact H1' | by right]. Qed.

Section Landing.
Context (v0 : org_view) (Hans : answering v0) (Huniq : distinct_names v0).
#[local] Abbreviation standing w := (v_orgs (vw w) = v_orgs v0 /\ v_roles (vw w) = v_roles v0).

Lemma moved_standing user P (w w' : W) : moved user P (vw w) (vw w') -> standing w -> standing w'.
Proof. intros (-> & -> & _). done. Qed.

Lemma guard_refuses name (w : W) : standing w -> fst (guardProvisionableRole name w) <> None -> refused v0 name.
Proof.
  intros [Ho Hr]. unfold guardProvisionableRole, bind. cbn [outer state fst snd].
  destruct (Hans name (outside (ext (st w))) Ho Hr) as [_ (r & Er & Hjson)].
  destruct (scopes_named_law name (outside (ext (st w)))) as (_ & _ & Hsome).
  destruct (ScopesOfRoleNamed name (outside (ext (st w)))) as [r' y]. cbn [fst snd ret] in *. subst r'.
  destruct r as [text|]; [|done]. destruct (Hjson text eq_refl) as [l El]. rewrite El.
  destruct (Hsome text l eq_refl El) as [(id & t & Ht & Hn) Hl]. rewrite Hr in *. intros Hp.
  exists id, t. split_and!; [done | done |]. rewrite (Hl id t Ht Hn).
  destruct (decide (idScopeAdmin ∈ l)) as [|Hno]; [done|]. destruct Hp. by apply provisionable_iff.
Qed.

(** A write that was let through and succeeded has the role in place. *)
Lemma write_lands name m0 (w : W) m : standing w ->
  (forall id t, v_roles (vw w) !! id = Some t -> rt_Name t = name -> idScopeAdmin ∉ rt_Scopes t) ->
  (exists r, m = Some r /\ named (vw w) name r) /\ (name <> "" -> m <> Some None) ->
  landed v0 (Some name) m0 m.
Proof.
  intros [_ Hr] Hsafe [(r & -> & Hn) Hf]. right. split; [|done]. exists r. unfold named in *. rewrite Hr in *.
  split_and!; [done | done |]. intros id t _. apply Hsafe.
Qed.

Lemma reconcile_org_lands user name role id (w : W) : standing w -> fst (reconcile_org user name role w) = Ok id ->
  match id with
  | Some o => called v0 name o /\
      landed v0 role (v_members (vw w) o user) (v_members (vw (snd (reconcile_org user name role w))) o user)
  | None => forall o, ~ called v0 name o
  end.
Proof.
  intros Hw. remember (reconcile_org user name role w) as r eqn:E.
  unfold reconcile_org, bind at 1 in E. cbn [outer state fst snd] in E.
  destruct (org_by_name_law name (outside (ext (st w)))) as [Hname Hnone].
  destruct (Hans name (outside (ext (st w))) (proj1 Hw) (proj2 Hw)) as [[o Eo] _].
  destruct (org_reads_law (outside (ext (st w)))) as (Hread & _). specialize (Hread name).
  destruct (OrgByName name (outside (ext (st w)))) as [o' y1]. cbn [fst snd] in *. subst o'.
  destruct o as [org|]; [|rewrite E; intros [= <-] i (org & Hi & Hn); rewrite <- (proj1 Hw) in Hi; by destruct (Hnone eq_refl i org)].
  destruct (Hname org eq_refl) as [Horg Hn]. destruct Hread as (Eo1 & Er1 & Em1 & _).
  assert (Hcall : called v0 name (org_ID org)) by (exists org; by rewrite <- (proj1 Hw)).
  unfold bind at 1 in E. cbn [outer state fst snd ext outside st] in E.
  destruct (check_membership_law (org_ID org) user y1) as [(Eo2 & Er2 & Em2 & _) Hb].
  destruct (CheckMembership (org_ID org) user y1) as [[member|e] y2]; cbn [fst snd] in *; [|by rewrite E].
  rewrite Em1 in Hb. specialize (Hb member eq_refl).
  destruct role as [role|].
  - unfold bind at 1 in E. match type of E with context [guardProvisionableRole role ?w2] => set (w2' := w2) in E end.
    assert (Hw2 : standing w2') by (cbn; rewrite Eo2, Er2, Eo1, Er1; exact Hw).
    destruct (guarded_role role w2') as [(Eo3 & Er3 & Em3 & _) Hsafe]. pose proof (guard_refuses role w2' Hw2) as Href.
    destruct (guardProvisionableRole role w2') as [[e|] w3]; cbn [fst snd] in *.
    { rewrite E. intros [= <-]. split; [done|]. left. split; [|by apply Href]. cbn. rewrite Em3. cbn. by rewrite Em2, Em1. }
    assert (Hw3 : standing w3) by (rewrite Eo3, Er3; exact Hw2).
    destruct (membership_done_law (org_ID org) user role (outside (ext (st w3)))) as (Hadd & Hupd & _).
    assert (Emem : v_members (vw w3) (org_ID org) user = v_members (vw w) (org_ID org) user)
      by (rewrite Em3; cbn; by rewrite Em2, Em1).
    rewrite Emem in Hadd, Hupd. cbn [ext st w2'] in Er3.
    destruct member; unfold bind in E; cbn [outer state fst snd ext outside st ret] in E; rewrite E; cbn;
      match goal with |- context [snd ?c] => destruct (fst c) as [[]|e] eqn:Ew end; intros [= <-]; (split; [done|]);
      apply (write_lands role _ w3); try done; try (by rewrite Er3; apply Hsafe).
    + apply Hupd; [by apply Hb | exact Ew].
    + apply Hadd; [|exact Ew]. destruct (v_members (vw w) (org_ID org) user); [|done].
      by assert (false = true) by by apply Hb.
  - destruct member; unfold bind in E; cbn [outer state fst snd ext outside st ret] in E; rewrite E.
    + destruct (membership_done_law (org_ID org) user "" y2) as (_ & _ & Hrem).
      destruct (OrgRemoveMember (org_ID org) user y2) as [[[]|e] y3]; cbn [fst snd] in *; [|done].
      intros [= <-]. split; [done | by apply Hrem].
    + intros [= <-]. split; [done|]. cbn. rewrite Em2, Em1.
      destruct (v_members (vw w) (org_ID org) user); [|done]. by assert (false = true) by by apply Hb.
Qed.
Lemma reconcile_org_elsewhere user name role (w : W) o u : standing w -> ~ (u = user /\ called v0 name o) ->
  v_members (vw (snd (reconcile_org user name role w))) o u = v_members (vw w) o u.
Proof.
  intros [Ho Hr] Hn. destruct (reconcile_org_moved user name role w) as (_ & _ & Hm).
  destruct (Hm o u) as [|(-> & (org & Horg & Hname) & _)]; [done|]. destruct Hn. split; [done|]. exists org. by rewrite <- Ho.
Qed.

(** The loop, seen from one organization. *)
Lemma reconcile_orgs_lands user orgs desired ids ids' o (w : W) : standing w ->
  fst (reconcile_orgs user orgs desired ids w) = Ok ids' ->
  let m := v_members (vw w) o user in
  let m' := v_members (vw (snd (reconcile_orgs user orgs desired ids w))) o user in
  (forall name, called v0 name o -> name ∈ orgs -> o ∈ ids' /\ landed v0 (desired !! name) m m') /\
  ((forall name, called v0 name o -> name ∉ orgs) -> m' = m /\ (o ∈ ids' <-> o ∈ ids)).
Proof.
  revert ids w. induction orgs as [|n orgs IH]; intros ids w Hw; cbn [reconcile_orgs].
  { intros [= <-]. split; [by intros name _ ?%not_elem_of_nil | done]. }
  unfold bind. pose proof (reconcile_org_moved user n (desired !! n) w) as Hm.
  pose proof (fun id => reconcile_org_lands user n (desired !! n) id w Hw) as Hl.
  pose proof (reconcile_org_elsewhere user n (desired !! n) w o user Hw) as He.
  destruct (reconcile_org user n (desired !! n) w) as [[id|e] w1]; cbn [fst snd] in *; [|done].
  specialize (Hl id eq_refl). specialize (IH (match id with Some id => id :: ids | None => ids end) w1 (moved_standing _ _ _ _ Hm Hw)).
  destruct (reconcile_orgs user orgs desired (match id with Some id => id :: ids | None => ids end) w1) as [r2 w2]; cbn [fst snd] in *.
  intros ->. destruct (IH eq_refl) as [Hin Hout]. clear IH.
  assert (Hhead : called v0 n o -> id = Some o).
  { intros (a & Ha & Hna). destruct id as [i|]; [|exfalso; apply (Hl o); by exists a].
    destruct Hl as [(b & Hb & Hnb) _]. f_equal. apply (Huniq i o b a Hb Ha). congruence. }
  assert (Hsame : forall name name', called v0 name o -> called v0 name' o -> name = name').
  { intros x y (a & Ha & <-) (b & Hb & <-). congruence. }
  split.
  - intros name Hc Hname. destruct (decide (name = n)) as [->|Hne].
    + rewrite (Hhead Hc) in *. destruct Hl as [_ Hl]. destruct (decide (n ∈ orgs)) as [Hn|Hn].
      * destruct (Hin n Hc Hn) as [Hi Hl2]. split; [done | by apply (landed_trans _ _ _ (v_members (vw w1) o user))].
      * destruct Hout as [-> Hi]; [intros x Hx; by rewrite (Hsame x n Hx Hc)|]. split; [apply Hi; by left | done].
    + apply list_elem_of_In in Hname as [->|Hname%list_elem_of_In]; [done|]. rewrite <- He; [by apply Hin|].
      intros [_ Hc']. by destruct Hne; apply Hsame.
  - intros Hno. assert (Hnn : ~ called v0 n o) by (intros Hc; apply (Hno n Hc); by left).
    destruct Hout as [-> Hi]; [intros x Hx Hx'; apply (Hno x Hx); by right|]. rewrite He by tauto. split; [done|].
    rewrite Hi. destruct id as [i|]; [|done]. destruct Hl as [Hci _]. rewrite elem_of_cons.
    split; [intros [->|]; done | by right].
Qed.

(** The default role reaches a user who is no member of a default organization that is
    not managed. *)
Lemma default_lands user role ids dflt o (w : W) : standing w -> default_is v0 dflt ->
  fst (apply_default_role user role ids w) = Ok tt ->
  let m := v_members (vw w) o user in let m' := v_members (vw (snd (apply_default_role user role ids w))) o user in
  if decide ((o = dflt) /\ (o ∉ ids) /\ (m = None))
  then (exists r, m' = Some r /\ named v0 role r) /\ (role <> "" -> m' <> Some None) else m' = m.
Proof.
  intros [Ho Hr] Hd Hok m m'. assert (Hdone : o <> dflt \/ o ∈ ids \/ m <> None -> m' = m).
  { intros Hc. destruct (default_moved user role ids w) as (_ & _ & Hm).
    destruct (Hm o user) as [|(_ & (Hi & Hn) & _ & (y & org & Hyo & Hy & <-))]; [done|]. exfalso.
    destruct Hc as [Hc|[Hc|Hc]]; [apply Hc; apply (Hd y); [by rewrite Hyo | done] | done | by apply Hc]. }
  case_decide as Hc; [|apply Hdone; destruct (decide (o = dflt)), (decide (o ∈ ids)), m; naive_solver].
  clear Hdone. destruct Hc as (-> & Hi & Hm). subst m m'. revert Hok.
  remember (apply_default_role user role ids w) as a eqn:E. unfold apply_default_role, bind at 1 in E. cbn [outer state fst snd] in E.
  destruct (org_reads_law (outside (ext (st w)))) as (_ & (Eo1 & Er1 & Em1 & _) & _).
  pose proof (Hd (outside (ext (st w)))) as Hdo.
  destruct (OrgDefault (outside (ext (st w)))) as [[[org|]|e] y1]; cbn [fst snd] in *; [|by rewrite E ..].
  rewrite (Hdo org Ho eq_refl), bool_decide_eq_false_2 in E by done. unfold bind at 1 in E. cbn [outer state fst snd ext outside st] in E.
  destruct (check_membership_law dflt user y1) as [(Eo2 & Er2 & Em2 & _) Hb].
  destruct (CheckMembership dflt user y1) as [[b|e] y2]; cbn [fst snd] in *; [|by rewrite E]. specialize (Hb b eq_refl).
  rewrite Em1, Hm in Hb. destruct b; [by destruct (proj1 Hb eq_refl)|].
  unfold bind in E. cbn [outer state fst snd ext outside st ret] in E. rewrite E. clear E.
  destruct (membership_done_law dflt user role y2) as (Hadd & _).
  destruct (OrgAddMemberWithParams dflt user role y2) as [[[]|e] y3]; cbn [fst snd] in *; [|done]. intros _.
  destruct Hadd as [(r & Hr' & Hn) Hf]; [by rewrite Em2, Em1 | done |]. split; [|done].
  exists r. split; [done|]. unfold named in *. by rewrite Er2, Er1, Hr in Hn.
Qed.
End Landing.

(** What the memberships of the user are after a run that succeeds: in an organization a
    mapping names, what the first mapping of one of the groups says, nothing without one,
    and what was there where that role carries the administrator scope; in the default
    organization, if none names it and the user was no member, the default role; elsewhere
    what was there. *)
Definition settled (v : org_view) (user : string) (groups : list string) (mappings : list groupMapping)
  (defaultRole dflt o : string) (m : option (option string)) : Prop :=
  let m0 := v_members v o user in
  (forall org, v_orgs v !! o = Some org -> org_Name org ∈ map gm_Organization mappings ->
     landed v (gm_Role <$> wanted groups mappings (org_Name org)) m0 m) /\
  ((forall org, v_orgs v !! o = Some org -> org_Name org ∉ map gm_Organization mappings) ->
     if decide (defaultRole <> "" /\ o = dflt /\ m0 = None)
     then exists id, m = Some (Some id) /\ named v defaultRole (Some id) else m = m0).

Lemma reconcile_lands v user groups mappings role dflt o (w : W) : v = vw w ->
  answering v -> distinct_names v -> default_is v dflt ->
  fst (reconcileGroupMemberships user groups mappings role w) = Ok tt ->
  settled v user groups mappings role dflt o
    (v_members (vw (snd (reconcileGroupMemberships user groups mappings role w))) o user).
Proof.
  intros -> Hans Huniq Hd. unfold reconcileGroupMemberships, settled. cbv zeta. set (m0 := v_members (vw w) o user).
  destruct (bool_decide (mappings = [])) eqn:Emap, (String.eqb role "") eqn:Erole; cbn [andb].
  { bools. subst. intros _. split; [by intros org _ ?%not_elem_of_nil | intros _]. rewrite decide_False; [done | by intros [? _]]. }
  all: destruct (desired_roles_spec groups mappings) as [_ Hdes]; pose proof (managed_spec groups mappings) as Hman;
    destruct (desired_roles groups mappings) as [managed desired]; cbn [fst snd] in *; unfold bind;
    destruct (reconcile_orgs_moved user managed desired [] w) as [Hm _];
    pose proof (fun ids => reconcile_orgs_lands (vw w) Hans Huniq user managed desired [] ids o w (conj eq_refl eq_refl)) as Hl;
    destruct (reconcile_orgs user managed desired [] w) as [[ids|e] w1]; cbn [fst snd] in *; [|done];
    specialize (Hl ids eq_refl) as [Hin Hout].
  all: assert (Hcase : forall org, v_orgs (vw w) !! o = Some org -> org_Name org ∈ map gm_Organization mappings ->
      o ∈ ids /\ landed (vw w) (gm_Role <$> wanted groups mappings (org_Name org)) m0 (v_members (vw w1) o user))
    by (intros org Ho Hn; rewrite <- Hdes; apply Hin; [by exists org | by apply Hman]).
  all: assert (Helse : (forall org, v_orgs (vw w) !! o = Some org -> org_Name org ∉ map gm_Organization mappings) ->
      v_members (vw w1) o user = m0 /\ o ∉ ids)
    by (intros Hno; destruct Hout as [-> Hi];
        [intros name (org & Ho & <-) Hn; apply (Hno org Ho); by apply Hman | split; [done | by intros ?%Hi%not_elem_of_nil]]).
  2:{ apply String.eqb_eq in Erole as ->. intros _. split; [intros org Ho Hn; by apply Hcase|].
      intros Hno. rewrite decide_False by tauto. by apply Helse. }
  all: apply String.eqb_neq in Erole; intros Hok;
    pose proof (default_lands (vw w) user role ids dflt o w1 (moved_standing _ _ _ _ _ Hm (conj eq_refl eq_refl)) Hd Hok) as Hdl;
    cbv zeta in Hdl; (split; [intros org Ho Hn; destruct (Hcase org Ho Hn) as [Hi Hla]; rewrite decide_False in Hdl by tauto; by rewrite Hdl|]);
    intros Hno; destruct (Helse Hno) as [E Hi]; rewrite E in Hdl; destruct (decide (role <> "" /\ o = dflt /\ m0 = None)) as [Hc|Hc]; case_decide as Hc'; try tauto.
  all: destruct Hc as (_ & -> & _); destruct Hdl as [([id|] & -> & Hn) Hf]; [by exists id | by destruct (Hf Erole)].
Qed.
End Groups.

(** ** Properties *)

(** C5: A callback opens a session only for a login that was begun here, is at most five
    minutes old and is not pending afterwards: the code was redeemed with the PKCE
    verifier of that login at the provider it was sent to, the ID token was verified
    against its nonce, the token does not deny that the address is verified, the address
    belongs to no other subject, and the session is for the account of the token's
    subject. *)
Theorem callback_answers_its_login {M Y} `{StateStoreLaws M, Randomness Y, UrlLib, OidcLib Y, SamlTypes, !SamlLib Y}
  `{DirectoryLib Y, Accounts Y, IdentityAdmin Y, Parsers, ScopeLib, MapRange Y} h code state (w : env (web (cell M Y))) :
  rp_cookies (fst (CallbackHandler h code state w)) <> [] ->
  exists ss now, fst (Load state (store_env w)) = Ok (Some ss) /\ clock w <= now /\ now - ss_CreatedAt ss <= 5 * minutes /\
    answers h code ss (rp_cookies (fst (CallbackHandler h code state w))) /\
    ~ present (store (ext (st (snd (CallbackHandler h code state w))))) state.
Proof.
  intros Hc. destruct (callback_loaded h code state w Hc) as (ss & now & w2 & Hl & Hnow & Hage & E & Hgone).
  exists ss, now. rewrite E in *. split_and!; try done; [by apply complete_answers|].
  by destruct (complete_same h code ss w2) as [-> _].
Qed.

(** A state is good for one session: after a callback that opened one, and whatever
    requests follow, a callback with the same state opens none, unless the random source
    gives the same state again. *)
Theorem state_opens_one_session {M Y} `{StateStoreLaws M, Randomness Y, UrlLib, OidcLib Y, SamlTypes, !SamlLib Y}
  `{DirectoryLib Y, Accounts Y, IdentityAdmin Y, Parsers, ScopeLib, MapRange Y} h code code' bytes rs (w : env (web (cell M Y))) :
  let state := base64url bytes in
  let w' := snd (serve_all h rs (snd (CallbackHandler h code state w))) in
  (forall b, drawn (Y := Y) b -> base64url b <> state) ->
  rp_cookies (fst (CallbackHandler h code state w)) <> [] -> rp_cookies (fst (CallbackHandler h code' state w')) = [].
Proof.
  intros state w' Hd Hc. apply callback_needs_pending.
  destruct (callback_loaded h code state w Hc) as (ss & now & w2 & _ & _ & _ & E & Hgone).
  intros Hp. apply Hgone. subst w'. rewrite E in Hp.
  destruct (complete_same h code ss w2) as [<- _].
  apply (serve_gone h state rs Hd (fun id E' => base64url_no_marker bytes id (eq_sym E'))), Hp.
Qed.

(** C13: While responses nobody asked for are taken, an assertion opens one session: once a
    response has, no response that carries the same assertion does, be it the same text
    or another, until the assertion expires or fifteen minutes have passed, whatever
    requests come in between, as long as none of them names the marker of the assertion
    as its state or relay state. *)
Theorem assertion_opens_one_session {M Y} `{StateStoreLaws M, Randomness Y, UrlLib, OidcLib Y, SamlTypes, !SamlLib Y}
  `{DirectoryLib Y, Accounts Y, IdentityAdmin Y, Parsers, ScopeLib, MapRange Y} h relay relay' response response' id expires rs
  (w : env (web (cell M Y))) :
  let w' := snd (serve_all h rs (snd (SAMLACSHandler h relay response w))) in
  (forall n sp, samlProviders h !! n = Some sp -> pr_allowIDPInitiated sp = true) ->
  carries (Y := Y) response id expires -> carries (Y := Y) response' id expires ->
  id <> "" -> relay' <> assertion_key id -> Forall (fun r => ~ names (assertion_key id) (snd r)) rs ->
  rp_cookies (fst (SAMLACSHandler h relay response w)) <> [] ->
  clock (snd (SAMLACSHandler h relay' response' w')) < Z.min expires (clock w + 15 * minutes) ->
  rp_cookies (fst (SAMLACSHandler h relay' response' w')) = [].
Proof.
  intros w' Hi Hresp Hresp' Hid Hrelay Hrs Hfirst Hc.
  destruct (decide (rp_cookies (fst (SAMLACSHandler h relay' response' w')) = [])) as [|Hsecond]; [done|]. exfalso.
  destruct (acs_opened _ _ _ _ Hfirst) as (n & sp & ids & y & a & w1 & Hn & Ha & _ & Hw1 & Hfree & Hs).
  destruct (Hresp _ _ _ _ Ha) as [Eid Eex]. rewrite Eid, Eex in *. change (default zero_time (Some expires)) with expires in *.
  set (meta := {| am_ID := id; am_NotOnOrAfter := expires |}) in *.
  destruct (reserve_holds sp meta w1 (Hi _ _ Hn) Hid Hfree) as (e & He & Hheld). 
  change (am_NotOnOrAfter meta) with expires in He. change (am_ID meta) with id in Hheld.
  assert (Hclock : clock w <= clock w1).
  { apply (Hw1 ahead _ same_ahead); intros v; destruct (clock_law (store_env v)) as (Hcl & Hcd & _);
      [apply Hcl | apply Hcd]. }
  destruct (acs_opened _ _ _ _ Hsecond) as (n' & sp' & ids' & y' & a' & w2 & Hn' & Ha' & _ & Hw2 & Hfree' & Hs').
  destruct (Hresp' _ _ _ _ Ha') as [Eid' Eex']. rewrite Eid', Eex' in *. change (default zero_time (Some expires)) with expires in *. fold meta in Hfree', Hs'.
  assert (Hend : clock (snd (reserve_assertion sp' meta w2)) < e)
    by (destruct Hs' as [_ Hs']; lia).
  revert Hfree'. apply (reserve_refuses sp' meta e w2 (Hi _ _ Hn') Hid); [cbn | done].
  destruct (Hw2 (kept (assertion_key id) e) _ (same_kept _ _) (kept_load _ _ _ Hrelay) (kept_delete _ _ _ Hrelay)) as [C2 K2].
  destruct (serve_kept h id e rs Hrs (snd (SAMLACSHandler h relay response w))) as [C1 K1].
  assert (Hm : clock w2 <= clock (snd (reserve_assertion sp' meta w2))) by apply reserve_clock.
  destruct Hs as [Hs _]. fold w' in K1, C1. apply K2; [|lia].
  apply K1; [|lia].
  by rewrite Hs.
Qed.

(** A log-in with a password opens a session only if neither name nor password is
    empty, a search for the escaped name finds exactly one entry, the directory accepts a
    bind as this entry with this password, and the session is for the account of the
    entry's DN. *)
Theorem password_is_checked {M Y} `{StateStore M, Randomness Y, UrlLib, OidcLib Y, SamlTypes, !SamlLib Y}
  `{DirectoryLib Y, Accounts Y, IdentityAdmin Y, Parsers, ScopeLib, MapRange Y} h bound (w : env (web (cell M Y))) :
  rp_cookies (fst (LDAPLoginHandler h bound w)) <> [] ->
  exists username password c u, bound = Ok (username, password) /\ username <> "" /\ password <> "" /\
    ldapProvider h = Some c /\ accepted c username password u /\
    opened ("ldap:" +:+ lu_DN u) (lu_Email u) (lu_Name u) true (rp_cookies (fst (LDAPLoginHandler h bound w))).
Proof. apply password_opened. Qed.

(** C14: Group mappings do what they say.  A run that succeeds, while look-ups of
    organizations and roles answer and names of organizations are unique, leaves its user
    in every organization a mapping names with the role of the first mapping of one of
    their groups, without membership if no group is mapped, and as they were where that
    role carries the administrator scope, which is never given; in the default
    organization, if no mapping names it, a user who was no member gets the default role,
    and elsewhere nothing changes.  Whatever fails, organizations, roles and the
    memberships of others stay as they are, and each membership of the user is as it was
    or what the mappings give, or, for one who was no member of the default organization,
    the default role (there too if a mapping names it but its look-up failed). *)
Theorem groups_give_what_is_mapped {M Y} `{AccountLaws Y, ScopeLib, !ScopeLibLaws} user groups mappings role
  (w : env (web (cell M Y))) :
  let v := view (outside (ext (st w))) in
  let r := reconcileGroupMemberships user groups mappings role w in
  let v' := view (outside (ext (st (snd r)))) in
  (v_orgs v' = v_orgs v /\ v_roles v' = v_roles v /\
   forall o u, v_members v' o u = v_members v o u \/
     u = user /\ (mapped v groups mappings o (v_members v' o u) \/ defaulted v user role o (v_members v' o u))) /\
  forall dflt, answering v -> distinct_names v -> default_is v dflt -> fst r = Ok tt ->
    forall o, settled v user groups mappings role dflt o (v_members v' o user).
Proof.
  intros v r v'. split; [apply reconcile_moved|]. intros dflt Ha Hn Hd Hr o. by apply reconcile_lands.
Qed.
