(* ===== verification/LoginDemo.v ===== *)
(** * Sign-ins on concrete stores

    The identity module of [IdentityStore], one-user providers and the in-memory state
    store, so that the theorems of [LoginSafety] are applied to runs,
    and what the handlers do in the cases their findings are about. *)

From S2P Require Import Setup.
From S2P Require Import Prelude GoStrings SemVer Validation TfReleases IpAddr Egress Web Rbac AuthMiddleware Hoare Identity.
From S2P Require Import IdentityStore Csrf StateStore SignIn Login LoginSafety.
From stdpp Require Import gmap.
#[local] Open Scope Z_scope.

Module Demo.
#[export] Existing Instances core_scopes core_scopes_laws Csrf.Demo.urls.

#[export] Instance dice : Randomness IdentityStore.store := fun n s => (Ok (repeat 7 n), s).
#[export] Instance in_order : MapRange IdentityStore.store := {|
  range_keys l s := (l, s); range_keys_perm l _ := Permutation_refl l |}.

(** A provider takes the code as the user's name, if verifier and nonce are right. *)
#[export] Instance idp : OidcLib IdentityStore.store := {|
  OIDCProvider := unit; IDToken := string;
  NewProviderWithContext _ s := (Ok tt, s);
  BeginAuth _ state s := (Ok {| ac_URL := "https://idp/" +:+ state; ac_Nonce := "nonce"; ac_CodeVerifier := "verifier" |}, s);
  ExchangeCode _ code verifier s := ((if String.eqb verifier "verifier" then Ok (Some code) else Err (ErrExt "pkce")), s);
  VerifyIDToken _ raw nonce s := ((if String.eqb nonce "nonce" then Ok raw else Err (ErrExt "nonce")), s);
  ExtractUserInfo _ t := Ok {| ti_sub := t; ti_email := ""; ti_name := t; ti_emailVerified := true |};
  ExtractGroups _ t _ := ["staff"];
  GetEndSessionEndpoint _ := "";
  email_verified_claim _ := Ok (Some true);
|}.

#[export] Instance saml_types : SamlTypes :=
  {| EntityDescriptor := unit; RSAKey := unit; Certificate := unit; AuthnRequest := unit |}.
(** A response is the subject's name; every assertion is the same one. *)
#[export] Instance saml : SamlLib IdentityStore.store := {|
  LoadX509KeyPair _ _ s := (Err (ErrExt "no key"), s);
  ParseCertificate _ := Ok tt; xml_Unmarshal _ := Ok tt; ParseMetadata _ := Ok tt;
  safe_Get _ _ s := (Err (ErrExt "offline"), s);
  MakeAuthnRequest _ s := (Ok tt, s); authn_ID _ := "req"; authn_Redirect _ relay _ := Ok ("https://idp/" +:+ relay);
  ParseResponse _ response _ s :=
    (Ok {| as_ID := "a1"; as_NotOnOrAfter := Some (10 * minutes); as_NameID := Some response; as_AttributeStatements := [] |}, s);
  sp_Metadata _ := Ok "<md/>";
|}.

(** One entry, one password. *)
#[export] Instance ldap : DirectoryLib IdentityStore.store := {|
  Conn := unit;
  DialURL _ _ s := (Ok tt, s); ldap_StartTLS _ _ s := (Ok tt, s);
  Bind _ dn pw s := ((if String.eqb pw "secret" then Ok tt else Err (ErrExt "49")), s);
  ldap_Search _ rq s := ((if sr_SizeLimit rq =? 1 then Ok [{| en_DN := "uid=ann"; GetAttributeValue _ := "" |}]
                          else Err (ErrExt "group search failed")), s);
  ldap_Close _ s := s;
  EscapeFilter x := x;
|}.

Definition role_scopes_named (n : string) (s : IdentityStore.store) : res (option string) :=
  match List.filter (fun r => String.eqb (rt_Name r) n) (map snd (map_to_list (v_roles (store_view s)))) with
  | [] => Ok None
  | t :: rest =>
      let text := String.concat "," (rt_Scopes t) in
      if bool_decide (split_on "," text = rt_Scopes t) && forallb (fun r => bool_decide (rt_Scopes r = rt_Scopes t)) rest
      then Ok (Some text) else Err (ErrExt "scopes")
  end.

(** A user's account carries the subject; a session token names user and scopes. *)
#[export] Instance accounts : Accounts IdentityStore.store := {|
  SubjectByEmail _ s := (Ok None, s);
  GetOrCreateUserByOIDC sub email name _ s := (Ok {| acc_ID := sub; acc_Email := email; acc_Name := name |}, s);
  AccountByID id s := (Ok (Some {| acc_ID := id; acc_Email := ""; acc_Name := id |}), s);
  AccountByEmail _ s := (Ok None, s);
  ListUsers _ _ s := (Ok [], s);
  GetUserWithOrgRoles _ s := (Ok None, s);
  GetAllowedScopes _ := [];
  GetUserCombinedScopes u s :=
    (Ok (concat (map snd (List.filter (fun m => String.eqb (fst (fst (fst m))) u) (d_members (dir s))))), s);
  GenerateJWT u _ scopes _ s := (Ok (u +:+ ":" +:+ String.concat "," scopes), s);
  RevokeToken jti _ _ s := (Ok tt, set_dir (fun d => {|
    d_users := d_users d; d_keys := d_keys d; d_sessions := d_sessions d; d_revoked := jti :: d_revoked d;
    d_members := d_members d |}) s);
  ActiveGroupConfig s := (Ok None, s);
  CheckMembership o u s := (Ok (bool_decide (v_members (store_view s) o u <> None)), s);
  UpdateMemberRole o u name s :=
    let role := rt_ID <$> role_named name s in
    (role_found name s,
     set_dir (set_members (map (fun r => if is_member o u r then (u, o, role, role_scopes s role) else r))) s);
  ScopesOfRoleNamed n s := (role_scopes_named n s, s);
|}.

Lemma named_template name (s : IdentityStore.store) : named (store_view s) name (rt_ID <$> role_named name s).
Proof.
  intros id Hid. destruct (role_named name s) as [t|] eqn:Ht; [|done].
  injection Hid as <-. apply find_some in Ht as [_ Hn]. apply andb_true_iff in Hn as [_ Hn]. cbn. rewrite map_find.
  destruct (List.find _ _) as [t'|]; [|done]. exists t'. split; [done | by apply String.eqb_eq].
Qed.

Lemma role_found_spec name (s : IdentityStore.store) :
  role_found name s = Ok tt -> name <> "" -> Some (rt_ID <$> role_named name s) <> Some None.
Proof.
  unfold role_found. destruct (role_named name s); [done|]. by destruct (String.eqb_spec name "") as [->|].
Qed.

#[export] Instance account_laws : AccountLaws IdentityStore.store.
Proof.
  split.
  - intros o u s. split; [done|]. intros b [= <-]. apply bool_decide_eq_true.
  - intros n s. split.
    { intros o Ho. cbn in Ho. injection Ho as Ho. apply find_some in Ho as [_ Hn]. bools.
      split; [|done]. cbn. by rewrite map_find. }
    intros Ho id o Hid <-. cbn in Ho, Hid. injection Ho as Ho. rewrite map_find in Hid.
    apply find_some in Hid as Hin. destruct Hin as [Hin <-%String.eqb_eq].
    apply (find_none _ _ Ho) in Hin. rewrite String.eqb_refl in Hin. cbn in Hin.
    by rewrite bool_decide_eq_true_2 in Hin.
  - intros o0 u0 name s v v'. split; [done|]. split; [done|]. intros o u. subst v v'. cbn [view store_org_laws].
    set (role := rt_ID <$> role_named name s). cbn. rewrite updated_member. unfold set_member.
    case_decide as Hd; [|by left]. destruct Hd as [-> ->].
    destruct (List.find _ _) as [m|]; cbn; [right | by left]. exists role. split; [done | apply named_template].
  - intros o u n s. by split.
  - intros o u n s v found. subst v. cbn [view store_org_laws]. split_and!.
    + cbn. intros Hno Hok.
      destruct (added_member s o u (rt_ID <$> role_named n s) (role_scopes s (rt_ID <$> role_named n s)) o u) as [E|E];
        cbn in E; rewrite E.
      * exfalso. revert Hno E. rewrite find_app.
        destruct (List.find _ (d_members (dir s))); [done|]. cbn [List.find]. by rewrite is_member_of, bool_decide_eq_true_2.
      * unfold set_member. rewrite decide_True by done. split; [|exact (role_found_spec _ _ Hok)].
        eexists. split; [done | apply named_template].
    + cbn. intros Hin Hok. rewrite updated_member, decide_True by done. destruct (List.find _ _); [|done]. cbn.
      split; [|exact (role_found_spec _ _ Hok)]. eexists. split; [done | apply named_template].
    + cbn. intros _. by rewrite find_filter_out.
  - intros n s. split; [done|]. cbn [ScopesOfRoleNamed accounts fst]. unfold role_scopes_named. cbn [view store_org_laws].
    set (ts := List.filter _ _).
    assert (Hts : forall id t, v_roles (store_view s) !! id = Some t -> rt_Name t = n -> In t ts).
    { intros id t Ht Hn. apply filter_In. split; [|by apply String.eqb_eq]. apply in_map_iff. exists (id, t).
      split; [done|]. by apply list_elem_of_In, elem_of_map_to_list. }
    destruct ts as [|t0 ts'] eqn:Hfilter; [split; [intros _ id t Ht Hn; by destruct (Hts id t Ht Hn) | done]|].
    destruct (_ && _) eqn:E; [|done]. split; [done|]. intros text l [= <-] [= <-]. bools. split.
    { assert (Hin : In t0 ts) by (subst ts; rewrite Hfilter; by left). clear Hts. subst ts.
      apply filter_In in Hin as [Hin Hn]. apply in_map_iff in Hin as ([id t] & <- & Hin).
      exists id, t. split; [by apply elem_of_map_to_list, list_elem_of_In | by apply String.eqb_eq]. }
    intros id t Ht Hn.
    rewrite H. destruct (Hts id t Ht Hn) as [->|Hin]; [done|].
    rewrite forallb_forall in H0. specialize (H0 t Hin). by bools.
Qed.

(** ** A deployment *)
Definition template (id name : string) (scopes : list string) : RoleTemplate :=
  {| rt_ID := id; rt_Name := name; rt_DisplayName := name; rt_Description := None; rt_Scopes := scopes; rt_IsSystem := false |}.
Definition organization (id name : string) : Organization :=
  {| org_ID := id; org_Name := name; org_DisplayName := name; org_IdpType := None; org_IdpName := None |}.

Definition registry (members : list (string * string * option string * list string)) : IdentityStore.store := {|
  dir := {| d_users := ["ann"]; d_keys := []; d_sessions := []; d_revoked := []; d_members := members |};
  key_rows := ∅; org_rows := [organization "o1" "default"; organization "o2" "eng"];
  role_rows := [template "r1" "reader" ["modules:read"]; template "r2" "boss" ["admin"]]; next_id := 1 |}.

Definition okta : saml_provider := {|
  pr_sp := {| sp_EntityID := "e"; sp_AcsURL := {| Scheme := "https"; Host := "r"; url_text := "https://r" |};
              sp_AllowIDPInitiated := true; sp_Key := None; sp_IDPMetadata := tt |};
  pr_name := "okta"; pr_allowIDPInitiated := true |}.

Definition directory_config : LDAPConfiguration := {|
  lc_Host := "dc"; lc_Port := 636; lc_UseTLS := true; lc_StartTLS := false; lc_InsecureSkipVerify := false;
  lc_BindDN := "cn=svc"; lc_BindPassword := "secret"; lc_BaseDN := "dc=x"; lc_UserFilter := "(uid=%s)";
  lc_UserAttrEmail := "mail"; lc_UserAttrName := "displayName"; lc_GroupBaseDN := ""; lc_GroupFilter := "";
  lc_GroupMemberAttr := "member" |}.

Definition staff_reads : groupMapping := {| gm_Group := "staff"; gm_Organization := "eng"; gm_Role := "reader" |}.

Definition config (default_role : string) : login_config := {|
  lc_urls := {| cf_PublicURL := "https://reg"; cf_BaseURL := ""; cf_AllowedOrigins := [] |};
  oidc_Enabled := true;
  oidc_Client := {| oc_IssuerURL := ""; oc_ClientID := "id"; oc_ClientSecret := ""; oc_RedirectURL := ""; oc_Scopes := [] |};
  RequireVerifiedEmail := true; GroupClaimName := "groups"; oidc_GroupMappings := [staff_reads];
  oidc_DefaultRole := default_role;
  lc_AzureAD := {| az_Enabled := true; az_TenantID := "t"; az_ClientID := "c"; az_ClientSecret := "s"; az_RedirectURL := "" |};
  saml_Enabled := true;
  saml_Config := {| sc_EntityID := ""; sc_ACSURL := "https://r/saml/acs"; sc_CertFile := ""; sc_KeyFile := "";
                    sc_AllowIDPInitiated := true |};
  saml_IdPs := []; GroupAttributeName := ""; saml_GroupMappings := []; saml_DefaultRole := "";
  ldap_Enabled := true; ldap_Config := directory_config;
  ldap_GroupMappings := [{| lg_GroupDN := "cn=staff"; lg_Organization := "eng"; lg_Role := "reader" |}]; ldap_DefaultRole := "";
  mtls_Enabled := false; mtls_ClientCAFile := ""; mtls_Mappings := [] |}.

Definition handlers (default_role : string) : AuthHandlers := {|
  cfg := config default_role; has_oidcConfigRepo := false; oidcProvider := Some tt; azureADProvider := Some tt;
  samlProviders := {["okta" := okta]}; ldapProvider := Some directory_config |}.
#[local] Abbreviation h := (handlers "").

Definition no_request : ginctx := {|
  Web.keys := ∅; header := ∅; cookie := ∅; param := ∅; form := Ok ∅; body := Ok ""; method := "GET"; path := "/";
  aborted := None; nexts := 0 |}.
#[local] Abbreviation world := (env (web (cell (gmap string memoryEntry) IdentityStore.store))).

Definition start (keys : gmap string ctxval) (members : list (string * string * option string * list string)) : world :=
  Env (Web {| Web.keys := keys; header := ∅; cookie := ∅; param := ∅; form := Ok ∅; body := Ok ""; method := "GET";
              path := "/"; aborted := None; nexts := 0 |} empty_db (Cell ∅ (registry members))) [] 0 [].

Definition after (rs : list login_request) (w : world) : world := snd (serve_all h (map (pair no_request) rs) w).
Definition session (r : reply) : option string := hc_Value <$> head (rp_cookies r).
Definition members_of (w : world) (u : string) : list (option (option string)) :=
  map (fun o => v_members (store_view (outside (ext (st w)))) o u) ["o1"; "o2"].

Definition issued : string := Eval vm_compute in base64url (repeat 7 32).
Definition begun : world := after [QLogin "oidc"] (start ∅ []).

(** A login and its callback; the state is used up, and the group gives the role. *)
Example login_flow :
  let w := snd (CallbackHandler h "ann" issued begun) in
  (session (fst (CallbackHandler h "ann" issued begun)), session (fst (CallbackHandler h "ann" issued w)), members_of w "ann")
  = (Some "ann:modules:read", None, [None; Some (Some "r1")]).
Proof. by vm_compute. Qed.

(** A login that was begun elsewhere carries another verifier. *)
Definition foreign (state : string) : world :=
  snd (on_store (Save state (session_of state 0 "oidc" "nonce" "other" "") (10 * minutes)) (start ∅ [])).
Example foreign_code_is_refused : rp_cookies (fst (CallbackHandler h "ann" "s" (foreign "s"))) = [].
Proof. by vm_compute. Qed.

(** The marker of an assertion is a key like any other: a second post that names it as
    its relay state takes it away and is then let in with the same assertion. *)
Example marker_can_be_spent :
  let w := snd (SAMLACSHandler h "" "ann" (start ∅ [])) in
  (session (fst (SAMLACSHandler h "" "ann" w)), session (fst (SAMLACSHandler h "saml_assertion:a1" "ann" w)))
  = (None, Some "saml:okta:ann:").
Proof. by vm_compute. Qed.

(** An Azure sign-in brings no groups, so the mapped membership is taken away. *)
Example azure_login_revokes :
  let w := after [QLogin "azuread"] (start ∅ [("ann", "o2", Some "r1", ["modules:read"])]) in
  (members_of w "ann", members_of (snd (CallbackHandler h "ann" issued w)) "ann") = ([None; Some (Some "r1")], [None; None]).
Proof. by vm_compute. Qed.

(** So does an LDAP sign-in whose group search fails. *)
Example failed_group_search_revokes :
  let w := start ∅ [("ldap:uid=ann", "o2", Some "r1", ["modules:read"])] in
  members_of (snd (LDAPLoginHandler h (Ok ("ann", "secret")) w)) "ldap:uid=ann" = [None; None].
Proof. by vm_compute. Qed.

(** The default role may be one that a mapping may not give. *)
Example default_role_may_be_admin :
  let w := snd (CallbackHandler (handlers "boss") "ann" issued begun) in
  members_of w "ann" = [Some (Some "r2"); Some (Some "r1")].
Proof. by vm_compute. Qed.

(** A log-out outside the authenticated routes finds no claims and revokes nothing; with
    them it would. *)
Definition claimed : claims :=
  {| JTI := "t1"; IssuedAt := Some 0; cl_ExpiresAt := Some 1; cl_UserID := "ann"; cl_Scopes := [] |}.
Example logout_revokes :
  map (fun keys => d_revoked (dir (outside (ext (st (snd (LogoutHandler h (start keys []))))))))
    [∅; {["jwt_claims" := VClaims claimed]}] = [[]; ["t1"]].
Proof. by vm_compute. Qed.

(** A refresh looks at the user alone: a key for reading gives a session with all the
    user may do. *)
Example refresh_widens_a_key :
  let keys := {["user_id" := VString "ann"; "auth_method" := VString "api_key"; "scopes" := VStrings ["modules:read"]]} in
  session (fst (RefreshHandler (start keys [("ann", "o1", Some "r2", ["admin"])]))) = Some "ann:admin".
Proof. by vm_compute. Qed.

(** Two callbacks that load before either deletes both find the login. *)
Example memory_load_keeps :
  let w : env (gmap string memoryEntry) := quiet {["s" := {| me_data := marker "s" 0; me_expiresAt := 5 |}]} in
  map (fun r => match r with Ok (Some _) => true | _ => false end) [fst (memory_Load "s" w); fst (memory_Load "s" (snd (memory_Load "s" w)))]
  = [true; true].
Proof. by vm_compute. Qed.

(** ** Witnesses *)

Lemma callback_answers_its_login_witness :
  exists ss now, fst (Load issued (store_env begun)) = Ok (Some ss) /\ clock begun <= now /\ now - ss_CreatedAt ss <= 5 * minutes /\
    answers h "ann" ss (rp_cookies (fst (CallbackHandler h "ann" issued begun))) /\
    ~ present (store (ext (st (snd (CallbackHandler h "ann" issued begun))))) issued.
Proof. apply (callback_answers_its_login h "ann" issued begun). by vm_compute. Defined.

Definition thrice : list Z := [9; 9; 9].
Lemma state_opens_one_session_witness :
  let w' := snd (serve_all h [(no_request, QLogin "oidc")] (snd (CallbackHandler h "ann" (base64url thrice)
    (snd (on_store (Save (base64url thrice) (session_of "" 0 "oidc" "nonce" "verifier" "") 5) (start ∅ [])))))) in
  rp_cookies (fst (CallbackHandler h "bob" (base64url thrice) w')) = [].
Proof.
  apply (state_opens_one_session h "ann" "bob" thrice).
  - intros b [y Hb]. injection Hb as <-. by vm_compute.
  - by vm_compute.
Defined.

Lemma assertion_opens_one_session_witness :
  let w' := snd (serve_all h [(no_request, QLogin "saml")] (snd (SAMLACSHandler h "" "ann" (start ∅ [])))) in
  rp_cookies (fst (SAMLACSHandler h "other" "bob" w')) = [].
Proof.
  apply (assertion_opens_one_session h "" "other" "ann" "bob" "a1" (10 * minutes)).
  - intros n sp. cbn. destruct (decide (n = "okta")) as [->|Hn].
    + rewrite lookup_singleton_eq. by intros [= <-].
    + by rewrite lookup_singleton_ne.
  - intros sp ids y a [= <-]. done.
  - intros sp ids y a [= <-]. done.
  - done.
  - done.
  - repeat constructor. by intros [].
  - by vm_compute.
  - by vm_compute.
Defined.

Lemma password_is_checked_witness :
  exists username password c u, Ok ("ann", "secret") = Ok (username, password) /\ username <> "" /\ password <> "" /\
    ldapProvider h = Some c /\ accepted c username password u /\
    opened ("ldap:" +:+ lu_DN u) (lu_Email u) (lu_Name u) true
      (rp_cookies (fst (LDAPLoginHandler h (Ok ("ann", "secret")) (start ∅ [])))).
Proof. apply (password_is_checked h (Ok ("ann", "secret")) (start ∅ [])). by vm_compute. Defined.

(** A reader by mapping, nothing for one of no group, and the default role beside it. *)
Lemma groups_give_what_is_mapped_witness :
  let w := start ∅ [("ann", "o2", Some "r2", ["admin"])] in
  let v := store_view (outside (ext (st w))) in
  let r := reconcileGroupMemberships "ann" ["staff"] [staff_reads] "reader" w in
  let v' := store_view (outside (ext (st (snd r)))) in
  v_orgs v' = v_orgs v /\ members_of (snd r) "ann" = [Some (Some "r1"); Some (Some "r1")] /\
  forall o, settled v "ann" ["staff"] [staff_reads] "reader" "o1" o (v_members v' o "ann").
Proof.
  destruct (groups_give_what_is_mapped "ann" ["staff"] [staff_reads] "reader" (start ∅ [("ann", "o2", Some "r2", ["admin"])]))
    as [[Hv _] Hs].
  split; [exact Hv|]. split; [by vm_compute|]. apply (Hs "o1").
  - intros n y Ho Hr. split; [by eexists|]. cbn [ScopesOfRoleNamed accounts fst].
    unfold role_scopes_named. cbn [view store_org_laws] in Hr. rewrite Hr.
    replace (map snd (map_to_list (v_roles _))) with [template "r1" "reader" ["modules:read"]; template "r2" "boss" ["admin"]]
      by by vm_compute.
    cbn [List.filter rt_Name template].
    destruct (String.eqb_spec "reader" n) as [E|], (String.eqb_spec "boss" n) as [E'|]; [congruence|..];
      eexists; (split; [by vm_compute|]); intros text _; by eexists.
  - intros o1 o2 a b Ha Hb. apply elem_of_map_to_list, list_elem_of_In in Ha, Hb. revert Ha Hb. vm_compute.
    intros [[= <- <-]|[[= <- <-]|[]]] [[= <- <-]|[[= <- <-]|[]]]; done.
  - intros y org Ho Hd. cbn in Hd. injection Hd as Hd. apply find_some in Hd as [_ Hd]. bools.
    assert (Hin : v_orgs (store_view y) !! org_ID org = Some org) by (cbn; by rewrite map_find).
    cbn [view store_org_laws] in Ho. rewrite Ho in Hin. apply elem_of_map_to_list, list_elem_of_In in Hin. revert Hin. vm_compute.
    intros [[= <- <-]|[[= <- <-]|[]]]; done.
  - by vm_compute.
Defined.
End Demo.
